(* ===== verification/_CoqProject ===== *)
-Q . S2P
Prelude.v
Window.v
GoTime.v
GoFloat.v
FloatBounds.v
GoStrings.v
Config.v
RateLimiter.v
WarmUp.v
Health.v
CircuitBreaker.v
TimelockGuard.v
ContactGraph.v
ReconnectThrottle.v
Scheduler.v
BanRecovery.v
DeliveryTracker.v
GroupGuard.v
RetryTracker.v
LidResolver.v
ContentVariator.v
Fingerprint.v
ProxyRotator.v
Persist.v
AntiBan.v
Runs.v
Jid.v
Events.v
Wrapper.v
Gateway.v
Token.v
BinaryNode.v
BinaryCodec.v
FrameSocket.v
Noise.v
Cbc.v
LtHash.v
AppStateDB.v
AppState.v
AppStateSync.v
AppStateCodec.v
LidMap.v
NodeAttrs.v
Requests.v
PreKeys.v
MessageSource.v
Receipts.v
Retry.v
Media.v
SqlDB.v
SqlText.v
SignalStore.v
Contacts.v
AccountStore.v
MsgSecret.v
Decrypt.v
DeviceStore.v
Pairing.v
QrChannel.v
Connection.v
ConnEvents.v
UserDevices.v
TcTokens.v
MessageKinds.v
ReportingToken.v
Encrypt.v
GroupParse.v
Groups.v
UserQueries.v
Privacy.v
Send.v
SendTheorems.v
AppStateActions.v
AppStateClient.v
AppStateFetch.v
