(* ===== verification/Prelude.v ===== *)
(** * Verification of whatpplg, an anti-ban middleware for WhatsApp (root file)

    ** The program

    [src/*.go] is package [antiban]: an orchestrator ([antiban.go]) that decides
    whether and when an outgoing message may be sent, over some fifteen small
    stateful components, and a wrapper ([wrapper.go]) that puts it between its
    caller and a WhatsApp client.  [src/cmd/gateway/main.go] is an HTTP gateway
    on top of the wrapper.  [src/whatsmeow] is the client library the repository
    carries with it.  A send goes

    [handleSend] -> [SendMessage] -> queue -> [processSend] -> [BeforeSend]
    (scheduler, warm-up, rate limiter, circuit breaker, timelock guard, contact
    graph, then the delay) -> the client, which encodes nodes -> [AfterSend] or
    [AfterSendFailed];

    and the events of the client come back through [handleEvent] to the hooks
    of the orchestrator.

    ** Conventions

    - Stateful code is explicit state passing: a component is a record, a method
      a function from its arguments and the record to the results and the
      record; [r <| f := v |>] is the assignment [r.f = v].
    - The clock, the random draws, the file system, the answers of the network
      and the code that is not in the repository (SHA-256, [math.Log],
      [encoding/json], [zlib], [url.Parse], the SQL driver) are arguments.
    - A reading of the clock is one argument per call of [time.Now], so the
      races between two readings are visible.  A loop that reads the clock for
      every entry of a map ([evictStale] of the circuit breaker) compares all of
      them with one reading.
    - Pointers are values, except where the code changes something that is
      shared in place; a session that libsignal holds is a value too.
    - What can panic returns an [outcome]; goroutines are steps of a transition
      relation, interleaved without restriction; [rtc] is reachability.
    - [int] is [Z] with [wrap64] where an overflow is possible, 32-, 16- and
      8-bit integers reduce modulo their size, and [float64] is IEEE binary64
      on the [SpecFloat] of the Standard Library, so that the scores and the
      limits evaluate exactly.
    - A mutex makes a method atomic; the definitions are the methods.

    ** Files

    Foundations: [Prelude] (records, integers, [outcome], lists), [Window]
    (sliding windows against the unbounded history), [GoTime], [GoFloat] with
    [FloatBounds], [GoStrings] (the library functions on bytes).

    The middleware: [Config] ([types.go], [presets.go], [profiles.go]),
    [RateLimiter], [WarmUp], [Health], [CircuitBreaker], [TimelockGuard],
    [ContactGraph], [ReconnectThrottle], [Scheduler], [BanRecovery],
    [DeliveryTracker], [GroupGuard], [RetryTracker], [LidResolver] (with the
    canonicalizer), [ContentVariator], [Fingerprint], [ProxyRotator],
    [Persist]: one file per source file, of the same name up to case.
    [AntiBan] composes them as [antiban.go] does, [Runs] is about sequences of
    its calls, [Events] and [Wrapper] are the client side, [Gateway] the
    server.

    The library: [Jid] ([types/jid.go]), [Token], [BinaryNode] (the data, the
    encoder and the decoder of [binary/]) and [BinaryCodec] (their theory).

    The connection: [FrameSocket] cuts the byte stream of the websocket into
    frames, [Noise] is the handshake that authenticates the server and the
    encrypted channel over the frames, [NodeAttrs] reads the attributes of the
    decoded nodes, [Requests] matches queries with their responses, as steps of
    the goroutines that share the map of waiters.

    The state of the account: [AppStateDB] (the tables of [sqlstore]),
    [LtHash] (the additive hash), [Cbc] (the encryption), [AppState] (the
    decoder and the encoder of patches over them); [AppStateSync] proves the
    decoder against the abstract map of mutations and [AppStateCodec] that it
    accepts what the encoder makes.  [AppStateActions] is what the client does with
    a mutation (the event, the stores) and how it builds one of its own,
    [AppStateClient] asks other devices for keys and answers them,
    [AppStateFetch] fetches the patches page by page and sends one ([appstate.go]).
    [LidMap] is the table of phone numbers and LIDs with its caches.

    The stores: [SqlDB] has statements that may fail, transactions and inserts,
    the same for every table, and [SqlText] the texts of SQL.  [PreKeys],
    [SignalStore] (sessions, identities, sender keys, their cache and their
    migration from phone numbers to LIDs), [Contacts], [AccountStore] (settings,
    message secrets, privacy tokens) and [DeviceStore] (the devices) are the
    tables of [sqlstore] with the operations on them.

    Messages: [MessageSource] reads who sent a stanza, [Decrypt] decrypts it once
    although it may be delivered again, [MsgSecret] encrypts with the secret of
    another message, [Receipts] answers, [Retry] asks for a message again and
    sends one again, [Media] moves files.

    Sending: [MessageKinds] says what a message is announced as and builds keys
    and messages, [UserDevices] keeps the lists of devices of users, [TcTokens]
    the tokens that chats carry, [ReportingToken] parses a message for the token
    that reports it, [Encrypt] encrypts for every device.  [Send] is
    [SendMessage] over all of them: it takes the members of a group from
    [Groups], the readers of a status from [Privacy] and a LID from
    [UserQueries], keeps the message in [Retry] and its secret in
    [AccountStore], and waits through [Requests].  Its state is one record of
    theirs, in which each part that two of them share is there once; its
    parameters are one record.  [SendTheorems] proves what is written and read.

    Queries: [GroupParse] parses groups and changes to them, [Groups] is the rest
    of [group.go] with the cache of members, [UserQueries] is [user.go],
    [Privacy] the settings of [privacysettings.go] and the statuses of
    [broadcast.go].  Slices that are changed in place ([UserDevices], [Groups],
    [ReportingToken]) are an array with a length, so that two names of one array
    see each other's writes.

    The client: [Pairing] links a device to an account, [QrChannel] hands its
    codes to the application, [Connection] connects, disconnects and reconnects,
    [ConnEvents] handles the nodes that begin and end a session and calls the
    handlers of events.  [Connection] runs the sockets of [FrameSocket] and
    [Noise] over the device of [DeviceStore]; [Pairing] and [ConnEvents] save
    that device.

    ** Theorems

    - Limits: no sliding window ever holds more sends, group operations or
      warm-up messages than configured ([send_windows_bounded],
      [group_guard_window], [warmup_count_bounded]); delays and scores are
      bounded ([GetDelay_bounds], [health_score_bounded]).
    - Gates: [BeforeSend_gates] is the exact condition of a send,
      [send_allowed_and_unchanged] that nothing reaches the network without it,
      [handleSend_guarded] the same for the gateway; [breaker_denial_justified],
      [lifted_never_early] and [dead_iff_recent_bans] that refusals are
      justified by the history.
    - Life cycles: [recovery_schedule], [throttle_ramp], [pause_hysteresis],
      [contact_state_grows], [MsUntilActive_exact], [retries_expire].
    - Data: [Learn_refines] (the two maps refine a recency list of pairs),
      [Flush_atomic] and [Flush_Load], [JID_roundtrip], [binary_roundtrip],
      [Unmarshal_terminates], [render_fills], [contains_correct].
    - The connection: [frames_reassembled] (the frames do not depend on how
      the stream is cut, away from a frame cut in its body),
      [frames_roundtrip], [channel_delivers], [handshake_agrees],
      [certificate_accepted], [waiters_safe] (over all interleavings),
      [sendIQ_success], [attr_errors_exact].
    - The account: [app_state_follows_patches] (tables, hash and reported
      mutations follow the abstract map), [patch_accepted], [lthash_inverse],
      [Decrypt_Encrypt], [EncryptStream_Encrypt], [settings_reach_devices] and
      [built_patches_reported], [pages_do_not_matter] (pages give the same tables
      and mutations as one list; the events are the same outside the full fetch
      that batches contacts, where each page is a batch), [fetch_ends],
      [keys_asked_daily], [contacts_taken]; [lid_map_refines] (for names that
      are not empty and calls whose pairs do not contradict each other; the device
      of a lookup of many may depend on what is cached).
    - The stores: [session_cache_refines], [contact_cache_transparent] (caches
      are not seen by their users, of contacts for JIDs that are their own text
      and redacted phones that are not empty), [migration_exact],
      [secret_under_either_address], [newest_token_found],
      [token_never_older], [upload_marks_sent], [saved_device_loads],
      [deleted_device_gone], [trust_on_first_use].
    - Messages: [message_handled_once] (with [EnableDecryptedEventBuffer], which is
      off by default, a message is decrypted and handled once over any deliveries
      within the fourteen days that the buffer keeps it, and any failures of the
      database) and [decryption_atomic] (with and without the buffer), [poll_vote_roundtrip], [read_receipt_roundtrip],
      [recent_messages_exact], [retries_answered_bounded], [media_roundtrip],
      [download_integrity].
    - The client: [pairing_authenticated] (what a device must have shown to be
      linked), [pairing_survives_restart], [link_code_agreement],
      [qr_ends_once], [one_connection] (over all interleavings),
      [disconnect_is_final] (until a call to connect, a failed ping, the goroutine
      of a login, or a waiting goroutine whose delay passes before it sees the
      disconnection; [disconnect_undone] shows that these do end it),
      [dead_socket_noticed], [connect_failure_exact],
      [remove_handler_exact], [dispatch_exact].
    - Sending: [message_written] (one node under one identifier, kept for the
      retries; written again only by the retry after a reconnection, whose waiter
      is the only one that can be left, [retry_leaves_waiter]), [dm_read] (each
      device reads its part), [all_devices_served], [key_names_sender], [builders_announced],
      [message_id_packs], [token_content] and [token_unordered],
      [token_window], [issued_once_per_bucket], [pruning_not_seen].
    - Groups and users: [device_lists_confirmed], [own_devices_in_step],
      [devices_cached], [group_description_read] and [parsed_group_ok],
      [members_follow],
      [group_asked_once], [invite_link_roundtrip], [push_name_reaches_both],
      [lids_learned], [answered_by_number], [status_readers],
      [status_default_first], [setting_kept].
    - Behaviour that departs from what the code or its documents intend, as
      theorems on the same definitions: [send_failures_fatal],
      [timelock_blocks_known_chats], [import_lost_on_first_check],
      [Stop_saves_too_late], [SeededFingerprint_panics],
      [VaryBulk_off_termination], [NewADJID_domain], [split_frame_corrupted],
      [oversized_frame_desyncs], [store_torn], [failed_commit_poisons_cache],
      [many_device_depends_on_cache], [put_many_drops_last], [cancel_race],
      [failed_migration_never_retried], [exhausted_retries_succeed],
      [skdm_leaks], [resaved_device_keeps_keys], [null_device_panics],
      [failed_save_keeps_id], [qr_races], [lost_close_never_noticed],
      [disconnect_undone], [cat_failure_panics], [unhashed_removal_corrupts],
      [wrapped_not_reported], [malformed_never_ends], [lists_overwritten],
      [leave_seen_by_sender], [approval_always_on], [missing_text_panics],
      [notified_settings], [stale_list_forgotten], [peer_needs_lid],
      [retry_leaves_waiter], [failed_patch_loses_earlier], [recovery_events_lost],
      [empty_index_panics], [empty_phone_stays_unknown].

    ** Fuel

    [BinaryNode.read] takes fuel, since a list of nodes is read by the function
    that reads a node; [Unmarshal] gives it one more than the number of bytes,
    and [Unmarshal_terminates] shows it never runs out.  The decimal printer of
    [GoStrings] has fuel for the 20 digits of a 64-bit integer.
    [FrameSocket.processData] has as many turns as [loopFuel], which is enough
    by [processData_terminates]; the loops of [Cbc] over a file or a stream
    have one turn per block of bytes left and one more.
    The parser of [ReportingToken] has a round per byte and one more in
    [with_reporting], which [token_content] shows to be enough for the encoding
    of a message; on other bytes it may never end ([malformed_never_ends]).
    [fetch_loop] has a turn per page; [fetch_ends] shows that it ends when the
    server says so after a bounded number of pages.
    [VaryBulk] has fuel because it need not terminate, which is what its
    theorem is about.  Every other recursion is structural.

    ** Not modelled

    Generated protocol buffers ([whatsmeow/proto], [binary/proto]), the HTTP and
    websocket input and output, the cryptographic primitives and the Signal
    sessions; the second protocol of messages ([sendfb.go],
    [armadillomessage.go]), media retries, newsletters, presence, calls and the
    notifications that only dispatch; the client payload ([clientpayload.go]); the example, and logging.
    Of [SendMessage] the timings and the message that is nil are left out, and
    the names of businesses that a query for a LID may report.  Time zones have a fixed offset;
    [time.Time] has no monotonic reading; JSON is a parameter.  The rows of a
    table are those of one account.  Preemption inside a method that
    holds its mutex is not modelled, since no other method runs there. *)
From stdpp Require Export base tactics numbers list gmap strings fin_maps relations.
From Stdlib Require Export ZArith Lia SpecFloat.

Open Scope Z_scope.

(** ** Functional record update

    [r <| f := v |>] is the record [r] with field [f] replaced, the model's
    reading of the Go assignment [r.f = v]. *)
Class Eta (R : Type) := eta : R -> R.
Class FieldOf {R T : Type} (p : R -> T) := upd : (T -> T) -> R -> R.

Ltac derive_field :=
  lazymatch goal with
  | |- @FieldOf ?R ?T ?p =>
      let e := constr:(@eta R _) in
      let e := eval hnf in e in
      let e := eval unfold eta in e in
      lazymatch eval pattern p in e with
      | ?F _ =>
          let u := constr:(fun (f : T -> T) (r : R) => F (fun r' => f (p r')) r) in
          let u := eval cbv beta in u in
          exact u
      end
  end.
#[export] Hint Extern 0 (FieldOf _) => derive_field : typeclass_instances.

Notation "r <| p := v |>" := (upd (p:=p) (fun _ => v) r)
  (at level 1, left associativity, p at next level, v at level 200,
   format "r  <| p  :=  v |>").

(** ** Machine integers *)

(** Go's [int] and [int64] on a 64-bit target. *)
Definition min_int64 : Z := - 2 ^ 63.
Definition max_int64 : Z := 2 ^ 63 - 1.
Definition wrap64 (z : Z) : Z := (z + 2 ^ 63) mod 2 ^ 64 - 2 ^ 63.
Definition uint32 (z : Z) : Z := z mod 2 ^ 32.
Definition uint16 (z : Z) : Z := z mod 2 ^ 16.
Definition uint8 (z : Z) : Z := z mod 2 ^ 8.
Definition in_int64 (z : Z) : Prop := min_int64 <= z <= max_int64.

(** Saturation at the bounds of [int64], as [time.Time.Sub] does. *)
Definition clamp64 (z : Z) : Z := Z.max min_int64 (Z.min max_int64 z).

Lemma wrap64_range z : in_int64 (wrap64 z).
Proof.
  unfold in_int64, wrap64, min_int64, max_int64.
  pose proof (Z.mod_pos_bound (z + 2 ^ 63) (2 ^ 64) ltac:(lia)). lia.
Qed.

Lemma wrap64_id z : in_int64 z -> wrap64 z = z.
Proof.
  unfold in_int64, wrap64, min_int64, max_int64. intros.
  rewrite Z.mod_small by lia. lia.
Qed.

Lemma clamp64_id z : in_int64 z -> clamp64 z = z.
Proof. unfold in_int64, clamp64. lia. Qed.

Lemma clamp64_range z : in_int64 (clamp64 z).
Proof. unfold in_int64, clamp64, min_int64, max_int64. lia. Qed.

Lemma clamp64_mono a b : a <= b -> clamp64 a <= clamp64 b.
Proof. unfold clamp64. lia. Qed.

(** A [[]byte]: its bytes, from 0 to 255. *)
Definition Bytes : Type := list Z.

(** ** Results of code that can panic *)

Inductive outcome (A : Type) : Type :=
| Ret (a : A)
| Panic (msg : string).
Arguments Ret {A} a.
Arguments Panic {A} msg.

#[export] Instance outcome_ret : MRet outcome := @Ret.
#[export] Instance outcome_bind : MBind outcome :=
  fun A B f m => match m with Ret a => f a | Panic e => Panic e end.

Definition panics {A} (m : outcome A) : Prop := exists msg, m = Panic msg.

(** [rand.IntN(n)]: panics on [n <= 0]; a draw is any integer, reduced into
    [0, n), so that every value of the range is the result of some draw. *)
Definition IntN (n draw : Z) : outcome Z :=
  if n <=? 0 then Panic "invalid argument to IntN" else Ret (draw mod n).

Lemma IntN_range n draw k : IntN n draw = Ret k -> 0 <= k < n.
Proof.
  unfold IntN. destruct (Z.leb_spec n 0); [done|].
  intros [= <-]. apply Z.mod_pos_bound. lia.
Qed.

Lemma IntN_surj n k : 0 <= k < n -> IntN n k = Ret k.
Proof.
  intros. unfold IntN. destruct (Z.leb_spec n 0); [lia|].
  by rewrite Z.mod_small by lia.
Qed.

(** ** Code that draws random numbers

    A source holds the draws to come, those of [rand.IntN] and those of
    [rand.Float64], each in order; an exhausted source returns zeros.  A
    theorem for all sources is a theorem for all outcomes of the draws. *)
Record Rng : Type := mkRng { int_draws : list Z; float_draws : list spec_float }.

Definition Rand (A : Type) : Type := Rng -> outcome (A * Rng).
#[export] Instance Rand_ret : MRet Rand := fun A a r => Ret (a, r).
#[export] Instance Rand_bind : MBind Rand :=
  fun A B f m r => match m r with Ret (a, r') => f a r' | Panic e => Panic e end.

Definition rand_Float64 : Rand spec_float := fun r =>
  match float_draws r with
  | [] => Ret (S754_zero false, r)
  | f :: fs => Ret (f, mkRng (int_draws r) fs)
  end.
Definition rand_IntN (n : Z) : Rand Z := fun r =>
  let '(d, ds) := match int_draws r with [] => (0, []) | d :: ds => (d, ds) end in
  match IntN n d with Ret k => Ret (k, mkRng ds (float_draws r)) | Panic e => Panic e end.

Definition lift {A} (m : outcome A) : Rand A := fun r =>
  match m with Ret a => Ret (a, r) | Panic e => Panic e end.

(** Indexing a slice panics out of range. *)
Definition at_ {A} (l : list A) (i : Z) : outcome A :=
  if i <? 0 then Panic "index out of range"
  else match l !! Z.to_nat i with Some x => Ret x | None => Panic "index out of range" end.

Lemma at_in_range {A} (l : list A) i :
  0 <= i < Z.of_nat (length l) -> exists x, at_ l i = Ret x /\ l !! Z.to_nat i = Some x.
Proof.
  intros Hi. unfold at_. destruct (Z.ltb_spec i 0); [lia|].
  destruct (lookup_lt_is_Some_2 l (Z.to_nat i)) as [x Hx]; [lia|]. rewrite Hx. eauto.
Qed.

(** [m] never panics and its results satisfy [Q]. *)
Definition always {A} (m : Rand A) (Q : A -> Prop) : Prop :=
  forall r, exists a r', m r = Ret (a, r') /\ Q a.

Lemma always_ret {A} (a : A) (Q : A -> Prop) : Q a -> always (mret a) Q.
Proof. intros HQ r. by exists a, r. Qed.

Lemma always_bind {A B} (m : Rand A) (f : A -> Rand B) (P : A -> Prop) (Q : B -> Prop) :
  always m P -> (forall a, P a -> always (f a) Q) -> always (m ≫= f) Q.
Proof.
  intros Hm Hf r. destruct (Hm r) as (a & r' & Hr & Ha).
  destruct (Hf a Ha r') as (b & r'' & Hr' & Hb).
  exists b, r''. split; [|done]. unfold mbind, Rand_bind. by rewrite Hr.
Qed.

Lemma always_mono {A} (m : Rand A) (P Q : A -> Prop) :
  always m P -> (forall a, P a -> Q a) -> always m Q.
Proof. intros Hm HPQ r. destruct (Hm r) as (a & r' & Hr & Ha). eauto. Qed.

Lemma always_Float64 (Q : spec_float -> Prop) : (forall f, Q f) -> always rand_Float64 Q.
Proof. intros HQ r. unfold rand_Float64. destruct (float_draws r); eauto. Qed.

Lemma always_IntN n : 0 < n -> always (rand_IntN n) (fun k => 0 <= k < n).
Proof.
  intros Hn r. unfold rand_IntN. destruct (int_draws r) as [|d ds];
    unfold IntN; (destruct (Z.leb_spec n 0); [lia|]); eexists _, _;
    (split; [done|]); apply Z.mod_pos_bound; lia.
Qed.

Lemma always_lift_at {A} (l : list A) i :
  0 <= i < Z.of_nat (length l) -> always (lift (at_ l i)) (fun x => l !! Z.to_nat i = Some x).
Proof. intros Hi r. destruct (at_in_range l i Hi) as (x & Hx & Hl). unfold lift. rewrite Hx. eauto. Qed.

(** ** Values stored under [any] *)

#[warnings="-register-all"]
Inductive Any : Type :=
| AInt (z : Z)
| AInt64 (z : Z)
| ABool (b : bool)
| AString (s : string)
| ATime (t : Z)
| ADuration (d : Z)
| AFloat (f : spec_float)
| AMap (l : list (string * Any)).

(** ** In-place compaction

    The loop the code repeats to drop stale entries of a slice:
<<
    i := 0
    for _, t := range s { if keep(t) { s[i] = t; i++ } }
    s = s[:i]
>>
    The writes go to the array that is being read; [k] is the read index and
    [i] the write index. *)
Section Compact.
Context {A : Type} (P : A -> Prop) `{!forall x, Decision (P x)}.

Fixpoint compact_loop (fuel k i : nat) (arr : list A) : list A * nat :=
  match fuel with
  | O => (arr, i)
  | S fuel' =>
      match arr !! k with
      | None => (arr, i)
      | Some t =>
          if decide (P t)
          then compact_loop fuel' (S k) (S i) (<[i := t]> arr)
          else compact_loop fuel' (S k) i arr
      end
  end.

Definition compact (arr : list A) : list A :=
  let '(arr', i) := compact_loop (length arr) 0 0 arr in take i arr'.

Lemma compact_loop_spec (kept junk todo : list A) :
  let '(arr', i) :=
    compact_loop (length todo) (length kept + length junk) (length kept)
                 (kept ++ junk ++ todo) in
  take i arr' = kept ++ filter P todo.
Proof.
  revert kept junk. induction todo as [|t todo IH]; intros kept junk; simpl.
  { rewrite take_app_length. by rewrite app_nil_r. }
  replace ((kept ++ junk ++ t :: todo) !! (length kept + length junk)%nat)
    with (Some t)
    by (rewrite app_assoc, <- length_app; symmetry; by apply list_lookup_middle).
  rewrite filter_cons. destruct (decide (P t)) as [Ht|Ht].
  - rewrite insert_app_r_alt by lia. rewrite Nat.sub_diag.
    assert (exists junk', <[0%nat := t]> (junk ++ t :: todo) = t :: junk' ++ todo
                          /\ length junk' = length junk) as (junk' & -> & Hl).
    { destruct junk as [|j junk]; simpl.
      - by exists [].
      - exists (junk ++ [t]). rewrite <- app_assoc, length_app. simpl.
        split; [done|lia]. }
    specialize (IH (kept ++ [t]) junk').
    rewrite length_app, Hl in IH. simpl in IH. rewrite <- app_assoc in IH.
    replace (length kept + 1 + length junk)%nat
      with (S (length kept + length junk)) in IH by lia.
    replace (length kept + 1)%nat with (S (length kept)) in IH by lia.
    simpl in IH. destruct (compact_loop _ _ _ _). by rewrite IH, <- app_assoc.
  - specialize (IH kept (junk ++ [t])). rewrite length_app, <- !app_assoc in IH.
    simpl in IH.
    replace (length kept + (length junk + 1))%nat
      with (S (length kept + length junk)) in IH by lia.
    done.
Qed.

(** The loop computes the sublist of the entries to keep, in order. *)
Lemma compact_filter arr : compact arr = filter P arr.
Proof.
  unfold compact. pose proof (compact_loop_spec [] [] arr) as Hspec. simpl in Hspec.
  by destruct (compact_loop _ _ _ _).
Qed.
End Compact.

(** ** Lists *)

Lemma length_filter_mono {A} (P Q : A -> Prop) `{!forall x, Decision (P x)}
    `{!forall x, Decision (Q x)} (l : list A) :
  (forall x, x ∈ l -> P x -> Q x) -> (length (filter P l) <= length (filter Q l))%nat.
Proof.
  induction l as [|x l IH]; intros HPQ; [done|].
  rewrite !filter_cons.
  assert (length (filter P l) <= length (filter Q l))%nat
    by (apply IH; intros; apply HPQ; [by right|done]).
  destruct (decide (P x)) as [HP|HP]; destruct (decide (Q x)) as [HQ|HQ]; simpl; try lia.
  exfalso. apply HQ, HPQ; [by left|done].
Qed.

Lemma filter_ext_in {A} (P Q : A -> Prop) `{!forall x, Decision (P x)}
    `{!forall x, Decision (Q x)} (l : list A) :
  (forall x, x ∈ l -> P x <-> Q x) -> filter P l = filter Q l.
Proof.
  induction l as [|x l IH]; intros HPQ; [done|]. rewrite !filter_cons.
  rewrite IH by (intros; apply HPQ; by right).
  destruct (decide (P x)) as [HP|HP], (decide (Q x)) as [HQ|HQ]; try done;
    exfalso; [apply HQ|apply HP]; (apply HPQ; [by left|done]).
Qed.

Lemma filter_all {A} (P : A -> Prop) `{!forall x, Decision (P x)} (l : list A) :
  Forall P l -> filter P l = l.
Proof.
  induction 1 as [|x l Hx _ IH]; [done|]. rewrite filter_cons, IH. by rewrite decide_True.
Qed.
Lemma filter_nothing {A} (P : A -> Prop) `{!forall x, Decision (P x)} (l : list A) :
  Forall (fun x => ~ P x) l -> filter P l = [].
Proof. induction 1 as [|x l Hx _ IH]; [done|]. by rewrite filter_cons, decide_False. Qed.

(** ** Invariants of step relations *)

Definition preserved {S : Type} (step : relation S) (I : S -> Prop) : Prop :=
  forall s s', step s s' -> I s -> I s'.

Lemma rtc_preserved {S : Type} (step : relation S) (I : S -> Prop) s s' :
  preserved step I -> rtc step s s' -> I s -> I s'.
Proof. intros HI. induction 1; eauto. Qed.

(** ** Automation *)

Create HintDb antiban.
#[export] Hint Resolve wrap64_range clamp64_range : antiban.
#[export] Hint Resolve always_ret always_IntN : antiban.

(** Case analysis on every [if] and [match] of the goal that blocks it. *)
Ltac split_ifs :=
  repeat (case_match || case_decide); simplify_eq/=.

(** Turn boolean comparisons on [Z] in the context into propositions. *)
Ltac bool_to_prop :=
  repeat match goal with
  | H : (_ <=? _) = true |- _ => apply Z.leb_le in H
  | H : (_ <=? _) = false |- _ => apply Z.leb_gt in H
  | H : (_ <? _) = true |- _ => apply Z.ltb_lt in H
  | H : (_ <? _) = false |- _ => apply Z.ltb_ge in H
  | H : (_ =? _) = true |- _ => apply Z.eqb_eq in H
  | H : (_ =? _) = false |- _ => apply Z.eqb_neq in H
  | H : (_ >=? _) = _ |- _ => rewrite Z.geb_leb in H
  | H : (_ >? _) = _ |- _ => rewrite Z.gtb_ltb in H
  | H : _ && _ = true |- _ => apply andb_true_iff in H as [? ?]
  | H : _ || _ = false |- _ => apply orb_false_iff in H as [? ?]
  | H : negb _ = true |- _ => apply negb_true_iff in H
  | H : negb _ = false |- _ => apply negb_false_iff in H
  end.

(** Linear arithmetic with division and remainder by constants. *)
Ltac div_lia := Z.to_euclidean_division_equations; lia.
