(* ===== verification/Window.v ===== *)
(** * Sliding windows

    The rate limiter and the group guard both bound how many events fall in
    the last [w] nanoseconds by keeping a slice of time stamps and dropping
    the stale ones.  This file relates such a slice to the (unbounded) history
    of the events it stands for, and derives from "every event was admitted
    while fewer than [limit] events were in the window that ends at it" the
    statement a user cares about: no interval of length [w], wherever it
    starts, holds more than [limit] events. *)
From S2P Require Import Prelude.

(** The number of events of [h] in the half-open interval [(a, b]]. *)
Definition count_in (a b : Z) (h : list Z) : nat := length (filter (fun x => a < x /\ x <= b) h).

(** The number of events of [h] later than [a]. *)
Definition count_after (a : Z) (h : list Z) : nat := length (filter (fun x => a < x) h).

(** [h] lists the admitted events, the newest first. *)
Definition rate_ok (limit w : Z) (h : list Z) : Prop :=
  forall t h', (t :: h') `suffix_of` h -> Z.of_nat (count_after (t - w) (t :: h')) <= limit.

(** [slice] is what a component that prunes at every check knows of [h]:
    seen from any time from [last] on, the two agree on the last [w]
    nanoseconds.  The slice is in insertion order, the oldest first. *)
Definition tracks (w last : Z) (slice h : list Z) : Prop :=
  forall n, last <= n ->
    filter (fun x => n - w < x) slice = reverse (filter (fun x => n - w < x) h).

Lemma rate_ok_nil limit w : rate_ok limit w [].
Proof. intros t h' Hs. apply suffix_nil_inv in Hs. done. Qed.

Lemma rate_ok_cons limit w t h :
  0 < w -> rate_ok limit w h ->
  Z.of_nat (count_after (t - w) h) < limit ->
  rate_ok limit w (t :: h).
Proof.
  intros Hw Hh Hc t' h' Hs. apply suffix_cons_inv in Hs as [[= -> ->]|Hs]; [|by apply Hh].
  unfold count_after in *. rewrite filter_cons. destruct (decide _); simpl; lia.
Qed.

Lemma rate_ok_tail limit w t h : rate_ok limit w (t :: h) -> rate_ok limit w h.
Proof. intros Hh t' h' Hs. apply Hh. by apply suffix_cons_r. Qed.

(** No interval of length [w] holds more than [limit] events. *)
Lemma rate_ok_windows limit w h :
  0 <= limit -> rate_ok limit w h ->
  forall a, Z.of_nat (count_in a (a + w) h) <= limit.
Proof.
  intros Hl. induction h as [|t h IH]; intros Hh a; [done|].
  destruct (decide (a < t /\ t <= a + w)) as [[Hat Hta]|Ht].
  - pose proof (Hh t h ltac:(done)) as Hc.
    assert (count_in a (a + w) (t :: h) <= count_after (t - w) (t :: h))%nat; [|lia].
    apply length_filter_mono. intros; lia.
  - unfold count_in in *. rewrite filter_cons. rewrite decide_False by done.
    apply IH. by eapply rate_ok_tail.
Qed.

Lemma count_after_mono a b h : a <= b -> (count_after b h <= count_after a h)%nat.
Proof. intros Hab. apply length_filter_mono. intros; lia. Qed.

Section Tracks.
Context (w : Z).

Lemma tracks_nil last : tracks w last [] [].
Proof. intros n _. done. Qed.

Lemma tracks_later last last' slice h :
  last <= last' -> tracks w last slice h -> tracks w last' slice h.
Proof. intros Hle Ht n Hn. apply Ht. lia. Qed.

(** Dropping what is stale at [now] loses nothing a later check looks at. *)
Lemma tracks_prune last now slice h :
  last <= now -> tracks w last slice h ->
  tracks w now (filter (fun x => now - w < x) slice) h.
Proof.
  intros Hle Ht n Hn. rewrite list_filter_filter_l by lia. apply Ht. lia.
Qed.

Lemma tracks_add last slice h t :
  tracks w last slice h -> tracks w last (slice ++ [t]) (t :: h).
Proof.
  intros Ht n Hn. rewrite filter_app, !filter_cons, filter_nil.
  destruct (decide _).
  - rewrite reverse_cons. by rewrite Ht.
  - rewrite app_nil_r. by apply Ht.
Qed.

(** The pruned slice has exactly as many entries as events are in the window. *)
Lemma tracks_count last now slice h :
  last <= now -> tracks w last slice h ->
  length (filter (fun x => now - w < x) slice) = count_after (now - w) h.
Proof. intros Hle Ht. rewrite Ht by done. by rewrite length_reverse. Qed.
End Tracks.

#[export] Hint Resolve rate_ok_nil tracks_nil tracks_add tracks_prune : antiban.
