(* ===== verification/GoTime.v ===== *)
(** * Go's [time] package, as far as the code uses it

    A [time.Time] is the number of nanoseconds since the zero time (January 1,
    year 1, 00:00 UTC), a [time.Duration] a number of nanoseconds.  A
    [time.Location] is a fixed offset from UTC in seconds, so the model has no
    daylight-saving transitions. *)
From S2P Require Import Prelude.

Abbreviation Time := Z (only parsing).
Abbreviation Duration := Z (only parsing).
Abbreviation Location := Z (only parsing).

Definition Nanosecond : Duration := 1.
Definition Millisecond : Duration := 1000000.
Definition Second : Duration := 1000 * Millisecond.
Definition Minute : Duration := 60 * Second.
Definition Hour : Duration := 60 * Minute.

Definition zeroTime : Time := 0.
Definition IsZero (t : Time) : bool := t =? zeroTime.
Definition After (t u : Time) : Prop := u < t.
Definition Before (t u : Time) : Prop := t < u.
#[export] Instance After_dec t u : Decision (After t u) := Z_lt_dec u t.
#[export] Instance Before_dec t u : Decision (Before t u) := Z_lt_dec t u.

Definition Add (t : Time) (d : Duration) : Time := t + d.
(** [t.Sub(u)] saturates at the bounds of a [Duration]. *)
Definition Sub (t u : Time) : Duration := clamp64 (t - u).
(** [time.Since(t)] and [time.Until(t)] when the clock shows [now]. *)
Definition Since (now t : Time) : Duration := Sub now t.
Definition Until (now t : Time) : Duration := Sub t now.

(** [time.Unix(sec, 0)]: the seconds since 1970 are counted from the year 1. *)
Definition unixToInternal : Z := 62135596800.
Definition Unix (sec : Z) : Time := wrap64 (sec + unixToInternal) * Second.
(** [time.UnixMilli(msec)] *)
Definition UnixMilli (msec : Z) : Time := msec * Millisecond + unixToInternal * Second.
(** [t.Unix()] and [t.UnixMilli()]. *)
Definition toUnix (t : Time) : Z := t / Second - unixToInternal.
Definition toUnixMilli (t : Time) : Z := t / Millisecond - unixToInternal * 1000.

(** Multiplication of durations wraps around. *)
Definition dur_mul (a b : Z) : Duration := wrap64 (a * b).
Definition Milliseconds (d : Duration) : Z := Z.quot d Millisecond.

(** ** Calendar *)

Inductive WeekdayT := Sunday | Monday | Tuesday | Wednesday | Thursday | Friday | Saturday.
#[export] Instance WeekdayT_dec : EqDecision WeekdayT.
Proof. solve_decision. Defined.

Definition local_seconds (loc : Location) (t : Time) : Z := t / Second + loc.
(** Days since January 1, year 1 of the civil day that contains [t]. *)
Definition local_day (loc : Location) (t : Time) : Z := local_seconds loc t / 86400.
Definition HourOf (loc : Location) (t : Time) : Z := (local_seconds loc t mod 86400) / 3600.

(** January 1, year 1 was a Monday. *)
Definition Weekday (loc : Location) (t : Time) : WeekdayT :=
  match (local_day loc t) mod 7 with
  | 0 => Monday | 1 => Tuesday | 2 => Wednesday | 3 => Thursday
  | 4 => Friday | 5 => Saturday | _ => Sunday
  end.

(** Year and zero-based day of the year of a day number, by the 400-, 100-,
    4- and 1-year cycles of the Gregorian calendar. *)
Definition civil (day : Z) : Z * Z :=
  let n400 := day / 146097 in
  let d := day mod 146097 in
  let n100 := Z.min (d / 36524) 3 in
  let d := d - n100 * 36524 in
  let n4 := d / 1461 in
  let d := d - n4 * 1461 in
  let n1 := Z.min (d / 365) 3 in
  let d := d - n1 * 365 in
  (400 * n400 + 100 * n100 + 4 * n4 + n1 + 1, d).

Definition isLeap (year : Z) : bool :=
  (year mod 4 =? 0) && (negb (year mod 100 =? 0) || (year mod 400 =? 0)).

Definition YearDay (loc : Location) (t : Time) : Z := (civil (local_day loc t)).2 + 1.

Definition month_lengths (leap : bool) : list Z :=
  [31; if leap then 29 else 28; 31; 30; 31; 30; 31; 31; 30; 31; 30; 31].

Fixpoint day_of_month (months : list Z) (yday : Z) : Z :=
  match months with
  | [] => yday + 1
  | m :: ms => if yday <? m then yday + 1 else day_of_month ms (yday - m)
  end.

Definition Day (loc : Location) (t : Time) : Z :=
  let '(y, yday) := civil (local_day loc t) in day_of_month (month_lengths (isLeap y)) yday.

(** [time.Date(now.Year(), now.Month(), now.Day(), hour, 0, 0, 0, now.Location())]:
    [hour] hours into the civil day of [now]; an hour outside 0..23 rolls over. *)
Definition DateToday (loc : Location) (now : Time) (hour : Z) : Time :=
  (local_day loc now * 86400 + hour * 3600 - loc) * Second.

(** ** Facts *)

Lemma Sub_pos t u : u <= t -> 0 <= Sub t u.
Proof. unfold Sub, clamp64, min_int64, max_int64. lia. Qed.

Lemma Sub_ge t u d : d <= max_int64 -> d <= t - u -> d <= Sub t u.
Proof. unfold Sub, clamp64. lia. Qed.

Lemma Sub_lt t u d : min_int64 < d -> t - u < d -> Sub t u < d.
Proof. unfold Sub, clamp64. lia. Qed.

Lemma Sub_exact t u : in_int64 (t - u) -> Sub t u = t - u.
Proof. apply clamp64_id. Qed.

Lemma local_seconds_bounds loc t :
  (local_seconds loc t - loc) * Second <= t < (local_seconds loc t - loc + 1) * Second.
Proof.
  unfold local_seconds, Second, Millisecond.
  pose proof (Z.mod_pos_bound t (1000 * 1000000) ltac:(lia)).
  pose proof (Z.div_mod t (1000 * 1000000) ltac:(lia)). lia.
Qed.

Lemma HourOf_range loc t : 0 <= HourOf loc t < 24.
Proof.
  unfold HourOf. pose proof (Z.mod_pos_bound (local_seconds loc t) 86400 ltac:(lia)).
  split; [apply Z.div_pos; lia|apply Z.div_lt_upper_bound; lia].
Qed.

(** The hour of [t] is [h] exactly when [t] is in the hour that [DateToday] starts. *)
Lemma HourOf_DateToday loc t h :
  0 <= h < 24 ->
  HourOf loc t = h <-> DateToday loc t h <= t < DateToday loc t (h + 1).
Proof.
  intros Hh. unfold HourOf, DateToday, local_day.
  pose proof (local_seconds_bounds loc t) as Hb.
  set (s := local_seconds loc t) in *.
  pose proof (Z.div_mod s 86400 ltac:(lia)).
  pose proof (Z.mod_pos_bound s 86400 ltac:(lia)).
  pose proof (Z.div_mod (s mod 86400) 3600 ltac:(lia)).
  pose proof (Z.mod_pos_bound (s mod 86400) 3600 ltac:(lia)).
  unfold Second, Millisecond in *. split; intros; nia.
Qed.

Lemma DateToday_local_day loc t h :
  0 <= h < 24 -> local_day loc (DateToday loc t h) = local_day loc t.
Proof.
  intros Hh. unfold local_day at 1, local_seconds, DateToday.
  rewrite Z.div_mul by (unfold Second, Millisecond; lia).
  replace (local_day loc t * 86400 + h * 3600 - loc + loc)
    with (h * 3600 + local_day loc t * 86400) by lia.
  rewrite Z.div_add by lia. rewrite Z.div_small by lia. lia.
Qed.

Lemma local_day_mono loc t u : t <= u -> local_day loc t <= local_day loc u.
Proof.
  intros. unfold local_day, local_seconds, Second, Millisecond.
  apply Z.div_le_mono; [lia|]. apply Z.add_le_mono_r. apply Z.div_le_mono; lia.
Qed.

(** The day of the year of two instants of the same civil day is the same. *)
Lemma same_day_YearDay loc t u : local_day loc t = local_day loc u -> YearDay loc t = YearDay loc u.
Proof. unfold YearDay. by intros ->. Qed.

Lemma same_day_Day loc t u : local_day loc t = local_day loc u -> Day loc t = Day loc u.
Proof. unfold Day. by intros ->. Qed.

Lemma civil_yday_range d : 0 <= (civil d).2 <= 365.
Proof.
  unfold civil. simpl.
  pose proof (Z.mod_pos_bound d 146097 ltac:(lia)).
  set (r := d mod 146097) in *.
  pose proof (Z.div_mod r 36524 ltac:(lia)).
  pose proof (Z.mod_pos_bound r 36524 ltac:(lia)).
  set (r1 := r - Z.min (r / 36524) 3 * 36524) in *.
  assert (0 <= r1 <= 36524) by lia.
  pose proof (Z.div_mod r1 1461 ltac:(lia)).
  pose proof (Z.mod_pos_bound r1 1461 ltac:(lia)).
  set (r2 := r1 - r1 / 1461 * 1461) in *.
  assert (0 <= r2 < 1461) by lia.
  pose proof (Z.div_mod r2 365 ltac:(lia)).
  pose proof (Z.mod_pos_bound r2 365 ltac:(lia)). lia.
Qed.

#[export] Hint Resolve Sub_pos HourOf_range : antiban.
