(* ===== verification/GoFloat.v ===== *)
(** * Go's [float64]

    A [float64] is the [spec_float] of the Standard Library at precision 53
    and maximal exponent 1024: IEEE 754 binary64 with round-to-nearest-even,
    which evaluates.  A conversion to an integer type truncates; when the value
    does not fit (or is NaN) Go leaves the result to the implementation, and
    the model takes the one of amd64, the least [int64]. *)
From S2P Require Import Prelude GoTime.

Definition float64 : Type := spec_float.
Abbreviation prec := 53 (only parsing).
Abbreviation emax := 1024 (only parsing).

Definition fadd : float64 -> float64 -> float64 := SFadd prec emax.
Definition fsub : float64 -> float64 -> float64 := SFsub prec emax.
Definition fmul : float64 -> float64 -> float64 := SFmul prec emax.
Definition fdiv : float64 -> float64 -> float64 := SFdiv prec emax.
Definition fsqrt : float64 -> float64 := SFsqrt prec emax.
Definition fltb : float64 -> float64 -> bool := SFltb.
Definition fleb : float64 -> float64 -> bool := SFleb.
Definition feqb : float64 -> float64 -> bool := SFeqb.
Definition fgtb (x y : float64) : bool := fltb y x.
Definition fgeb (x y : float64) : bool := fleb y x.

(** [float64(z)] *)
Definition of_int (z : Z) : float64 := binary_normalize prec emax z 0 false.
(** The constant [m / 10^k], correctly rounded. *)
Definition fconst (m k : Z) : float64 := fdiv (of_int m) (of_int (10 ^ k)).
Definition fzero : float64 := of_int 0.
Definition fone : float64 := of_int 1.

(** Truncation of a finite value towards zero. *)
Definition trunc_abs (m : positive) (e : Z) : Z :=
  if 0 <=? e then Z.pos m * 2 ^ e else Z.pos m / 2 ^ (- e).

(** [int(f)], [int64(f)], [time.Duration(f)] *)
Definition to_int (f : float64) : Z :=
  match f with
  | S754_finite s m e =>
      let v := trunc_abs m e in
      let v := if s then - v else v in
      if (min_int64 <=? v) && (v <=? max_int64) then v else min_int64
  | S754_zero _ => 0
  | _ => min_int64
  end.

Definition is_nan (f : float64) : bool := match f with S754_nan => true | _ => false end.
Definition is_finite (f : float64) : bool :=
  match f with S754_finite _ _ _ | S754_zero _ => true | _ => false end.
Definition signbit (f : float64) : bool :=
  match f with
  | S754_zero s | S754_infinity s | S754_finite s _ _ => s
  | S754_nan => false
  end.
Definition pinf : float64 := S754_infinity false.
Definition ninf : float64 := S754_infinity true.
Definition is_pinf (f : float64) : bool := match f with S754_infinity false => true | _ => false end.
Definition is_ninf (f : float64) : bool := match f with S754_infinity true => true | _ => false end.

(** [math.Max] and [math.Min], special cases first. *)
Definition fMax (x y : float64) : float64 :=
  if is_pinf x || is_pinf y then pinf
  else if is_nan x || is_nan y then S754_nan
  else if feqb x fzero && feqb x y then (if signbit x then y else x)
  else if fgtb x y then x else y.

Definition fMin (x y : float64) : float64 :=
  if is_ninf x || is_ninf y then ninf
  else if is_nan x || is_nan y then S754_nan
  else if feqb x fzero && feqb x y then (if signbit x then x else y)
  else if fltb x y then x else y.

(** [math.Round]: half away from zero. *)
Definition fRound (f : float64) : float64 :=
  match f with
  | S754_finite s m e =>
      if 0 <=? e then f
      else
        let r := (Z.pos m + 2 ^ (- e - 1)) / 2 ^ (- e) in
        match r with
        | Z.pos p => binary_round prec emax s p 0
        | _ => S754_zero s
        end
  | _ => f
  end.

(** [Duration.Seconds], [Duration.Minutes], [Duration.Hours] *)
Definition dur_in (unit_ns : Z) (d : Z) : float64 :=
  fadd (of_int (Z.quot d unit_ns)) (fdiv (of_int (Z.rem d unit_ns)) (of_int unit_ns)).
Definition Seconds (d : Z) : float64 := dur_in Second d.
Definition Minutes (d : Z) : float64 := dur_in Minute d.
Definition Hours (d : Z) : float64 := dur_in Hour d.

(** The values of the type: a mantissa in canonical form. *)
Definition is_float64 (f : float64) : bool := valid_binary prec emax f.

Example of_int_100 : of_int 100 = S754_finite false 7036874417766400 (-46).
Proof. vm_compute. reflexivity. Qed.
Example fconst_tenth : fconst 1 1 = S754_finite false 7205759403792794 (-56).
Proof. vm_compute. reflexivity. Qed.
Example to_int_trunc : to_int (fmul (of_int 25) (fconst 1 1)) = 2.
Proof. vm_compute. reflexivity. Qed.

(** ** Comparisons *)

Lemma SFcompare_antisym x y c : SFcompare x y = Some c -> SFcompare y x = Some (CompOpp c).
Proof.
  destruct x as [[]|[]| |[] m1 e1], y as [[]|[]| |[] m2 e2]; simpl; intros [= <-]; try done;
    rewrite (Z.compare_antisym e1 e2); destruct (e1 ?= e2); simpl; try done;
    change (Pos.compare_cont Eq m2 m1) with (m2 ?= m1)%positive;
    change (Pos.compare_cont Eq m1 m2) with (m1 ?= m2)%positive;
    rewrite (Pos.compare_antisym m1 m2); by destruct (m1 ?= m2)%positive.
Qed.

Lemma SFcompare_total x y :
  is_nan x = false -> is_nan y = false -> exists c, SFcompare x y = Some c.
Proof. destruct x as [[]|[]| |[] ? ?], y as [[]|[]| |[] ? ?]; simpl; eauto; done. Qed.

(** On numbers, "not less" is "at least": the reading of [if x < lo { x = lo }]. *)
Lemma fltb_false_fleb x y :
  is_nan x = false -> is_nan y = false -> fltb x y = false -> fleb y x = true.
Proof.
  intros Hx Hy. destruct (SFcompare_total x y Hx Hy) as [c Hc].
  pose proof (SFcompare_antisym _ _ _ Hc) as Hc'.
  unfold fltb, fleb, SFltb, SFleb. rewrite Hc, Hc'. by destruct c.
Qed.

Lemma fltb_true_fleb x y : fltb x y = true -> fleb x y = true.
Proof. unfold fltb, fleb, SFltb, SFleb. by destruct (SFcompare x y) as [[]|]. Qed.

Lemma fleb_refl x : is_nan x = false -> fleb x x = true.
Proof.
  intros. unfold fleb, SFleb.
  destruct x as [[]|[]| |[] m e]; simpl; try done;
    rewrite Z.compare_refl; change (Pos.compare_cont Eq m m) with (m ?= m)%positive;
    by rewrite Pos.compare_refl.
Qed.

Lemma fleb_nan_r x y : fleb x y = true -> is_nan x = false /\ is_nan y = false.
Proof. destruct x as [[]|[]| |[] ? ?], y as [[]|[]| |[] ? ?]; done. Qed.

(** ** [math.Min] and [math.Max] bound their result *)

Lemma fMin_le x y : is_nan x = false -> is_nan y = false -> fleb (fMin x y) x = true.
Proof.
  intros Hx Hy. unfold fMin. rewrite Hx, Hy. simpl.
  destruct (is_ninf x || is_ninf y) eqn:Hi.
  { destruct x as [[]|[]| |[] ? ?]; done. }
  destruct (feqb x fzero && feqb x y) eqn:Hz.
  { destruct (signbit x); [by apply fleb_refl|].
    apply andb_true_iff in Hz as [_ Hz]. unfold feqb, SFeqb in Hz.
    destruct (SFcompare x y) as [[]|] eqn:Hc; try done.
    apply SFcompare_antisym in Hc. unfold fleb, SFleb. by rewrite Hc. }
  destruct (fltb x y) eqn:Hl; [by apply fleb_refl|].
  by apply fltb_false_fleb.
Qed.

Lemma fMin_nan x y : is_nan x = false -> is_nan y = false -> is_nan (fMin x y) = false.
Proof. intros Hx Hy. by destruct (fleb_nan_r _ _ (fMin_le x y Hx Hy)). Qed.

Lemma fMax_nan x y : is_nan x = false -> is_nan y = false -> is_nan (fMax x y) = false.
Proof.
  intros Hx Hy. unfold fMax. rewrite Hx, Hy. simpl.
  repeat case_match; done.
Qed.

(** ** Rounding *)

Lemma iter_pos_S {A} (f : A -> A) p x : iter_pos f (Pos.succ p) x = f (iter_pos f p x).
Proof.
  assert (forall q y, iter_pos f q (f y) = f (iter_pos f q y)) as Hcomm.
  { induction q as [q IH|q IH|]; intros y; simpl; by rewrite ?IH. }
  revert x. induction p as [p IH|p IH|]; intros x; simpl; try done.
  - by rewrite !IH, <- Hcomm, <- !Hcomm.
  - by rewrite Hcomm, Hcomm.
Qed.

(** [shr] divides a non-negative mantissa by a power of two, and its sticky
    bits say whether the quotient is exact. *)
Definition shr_inv (m0 : Z) (k : Z) (r : shr_record) : Prop :=
  shr_m r = m0 / 2 ^ k /\ (shr_r r || shr_s r = true -> m0 mod 2 ^ k <> 0).

Lemma xI_div_mod p : Z.pos p~1 / 2 = Z.pos p /\ Z.pos p~1 mod 2 = 1.
Proof. rewrite Pos2Z.inj_xI. split; div_lia. Qed.

Lemma xO_div_mod p : Z.pos p~0 / 2 = Z.pos p /\ Z.pos p~0 mod 2 = 0.
Proof. rewrite Pos2Z.inj_xO. split; div_lia. Qed.

Lemma shr_1_inv m0 k r :
  0 <= m0 -> 0 <= k -> shr_inv m0 k r -> shr_inv m0 (k + 1) (shr_1 r).
Proof.
  intros Hm0 Hk [Hm Hs].
  assert (Hp : 0 < 2 ^ k) by (apply Z.pow_pos_nonneg; lia).
  unfold shr_inv. rewrite Z.pow_add_r, Z.pow_1_r by lia.
  rewrite <- Z.div_div by lia. rewrite <- Hm.
  rewrite Z.rem_mul_r by lia. rewrite <- Hm.
  pose proof (Z.mod_pos_bound m0 (2 ^ k) Hp) as Hb.
  assert (0 <= shr_m r) as Hnn by (rewrite Hm; by apply Z.div_pos).
  destruct r as [m r s]. simpl in *.
  destruct m as [|[p|p|]|p]; simpl in *; try lia.
  - split; [done|]. intros H. rewrite Z.mul_0_r, Z.add_0_r. apply Hs. exact H.
  - destruct (xI_div_mod p) as [-> ->]. split; [done|]. intros _. lia.
  - destruct (xO_div_mod p) as [-> ->]. split; [done|]. intros H.
    rewrite Z.mul_0_r, Z.add_0_r. apply Hs. exact H.
  - split; [done|]. intros _. change (1 mod 2) with 1. lia.
Qed.

Lemma iter_shr_inv m0 p r :
  0 <= m0 -> shr_inv m0 0 r -> shr_inv m0 (Z.pos p) (iter_pos shr_1 p r).
Proof.
  intros Hm0 H0. induction p as [|p IH] using Pos.peano_ind.
  - simpl. change 1 with (0 + 1). by apply shr_1_inv.
  - rewrite iter_pos_S, Pos2Z.inj_succ. unfold Z.succ. apply shr_1_inv; [lia..|done].
Qed.

(** What [shr_fexp] returns on an exact, non-negative mantissa. *)
Lemma shr_fexp_exact m e :
  0 <= m ->
  let e' := Z.max e (fexp prec emax (Zdigits2 m + e)) in
  exists r, shr_fexp prec emax m e loc_Exact = (r, e') /\
    shr_inv m (e' - e) r /\ (e' = e -> shr_r r = false /\ shr_s r = false).
Proof.
  intros Hm e'. unfold shr_fexp, shr, shr_record_of_loc.
  assert (shr_inv m 0 {| shr_m := m; shr_r := false; shr_s := false |}) as H0.
  { split; simpl; [by rewrite Z.div_1_r|done]. }
  destruct (fexp prec emax (Zdigits2 m + e) - e) as [|p|p] eqn:Hd; subst e'.
  - eexists. split; [f_equal; lia|]. split; [|done].
    replace (Z.max e _ - e) with 0 by lia. done.
  - eexists. split; [f_equal; lia|]. split.
    + replace (Z.max e _ - e) with (Z.pos p) by lia. by apply iter_shr_inv.
    + intros Heq. lia.
  - eexists. split; [f_equal; lia|]. split; [|done].
    replace (Z.max e _ - e) with 0 by lia. done.
Qed.

Lemma round_nearest_even_bounds r :
  let m := round_nearest_even (shr_m r) (loc_of_shr_record r) in
  shr_m r <= m <= shr_m r + 1 /\ (shr_r r || shr_s r = false -> m = shr_m r).
Proof. destruct r as [m [] []]; simpl; try (destruct (Z.even m)); split; try done; lia. Qed.

Lemma digits2_pos_bounds p : 2 ^ (Z.pos (digits2_pos p) - 1) <= Z.pos p < 2 ^ Z.pos (digits2_pos p).
Proof.
  assert (forall z, 2 ^ (Z.succ (Z.pos z) - 1) = 2 * 2 ^ (Z.pos z - 1)) as Hs.
  { intros z. replace (Z.succ (Z.pos z) - 1) with (Z.succ (Z.pos z - 1)) by lia.
    by rewrite Z.pow_succ_r by lia. }
  induction p as [p IH|p IH|]; simpl digits2_pos; [| |by vm_compute];
    rewrite Pos2Z.inj_succ, Hs, Z.pow_succ_r by lia; lia.
Qed.

Lemma digits2_pos_unique p d :
  0 < d -> 2 ^ (d - 1) <= Z.pos p < 2 ^ d -> Z.pos (digits2_pos p) = d.
Proof.
  intros Hd [Hlo Hhi]. pose proof (digits2_pos_bounds p) as [Hlo' Hhi'].
  assert (d - 1 < Z.pos (digits2_pos p)) by (eapply (Z.pow_lt_mono_r_iff 2); lia).
  assert (Z.pos (digits2_pos p) - 1 < d) by (eapply (Z.pow_lt_mono_r_iff 2); lia).
  lia.
Qed.

(** A mantissa below [2^k] has at most [k] digits. *)
Lemma Zdigits2_le m k : 0 <= m -> 0 <= k -> m < 2 ^ k -> Zdigits2 m <= k.
Proof.
  intros Hm Hk Hlt. destruct m as [|p|p]; simpl; [lia| |lia].
  pose proof (digits2_pos_bounds p) as [Hlo _].
  assert (Z.pos (digits2_pos p) - 1 < k); [|lia].
  apply (Z.pow_lt_mono_r_iff 2); lia.
Qed.

Lemma trunc_abs_div m e : e <= 0 -> trunc_abs m e = Z.pos m / 2 ^ (- e).
Proof.
  intros He. unfold trunc_abs. destruct (Z.leb_spec 0 e); [|done].
  replace e with 0 by lia. simpl. by rewrite Z.div_1_r, Z.mul_1_r.
Qed.

(** The mantissa after the first rounding step is at most any integer bound
    of the exact value. *)
Lemma round_step_le m e e' r N :
  0 <= m -> e <= e' -> e' <= 0 -> m <= N * 2 ^ (- e) -> shr_inv m (e' - e) r ->
  0 <= round_nearest_even (shr_m r) (loc_of_shr_record r) <= N * 2 ^ (- e').
Proof.
  intros Hm Hee He' HN [Hq Hs].
  pose proof (round_nearest_even_bounds r) as [Hb Hex]. simpl in *.
  assert (Hp : 0 < 2 ^ (e' - e)) by (apply Z.pow_pos_nonneg; lia).
  replace (- e) with (- e' + (e' - e)) in HN by lia.
  rewrite Z.pow_add_r, Z.mul_assoc in HN by lia.
  set (k := 2 ^ (e' - e)) in *. set (N' := N * 2 ^ (- e')) in *.
  pose proof (Z.div_mod m k ltac:(lia)) as Hdm.
  pose proof (Z.mod_pos_bound m k Hp).
  assert (0 <= shr_m r) by (rewrite Hq; apply Z.div_pos; lia).
  rewrite <- Hq in Hdm.
  destruct (shr_r r || shr_s r) eqn:Hrs.
  - specialize (Hs eq_refl). split; [lia|]. assert (shr_m r < N') by nia. lia.
  - rewrite (Hex eq_refl). split; [done|]. nia.
Qed.

(** Rounding does not carry a value over an integer it does not exceed. *)
Lemma binary_round_aux_le m e N :
  0 <= m -> e <= 0 -> N < 2 ^ 53 -> m <= N * 2 ^ (- e) ->
  0 <= to_int (binary_round_aux prec emax false m e loc_Exact) <= N /\
  is_nan (binary_round_aux prec emax false m e loc_Exact) = false.
Proof.
  intros Hm He HN Hle. unfold binary_round_aux.
  assert (0 < 2 ^ (- e)) by (apply Z.pow_pos_nonneg; lia).
  assert (0 <= N) by nia.
  assert (Hexp : forall m' e0, 0 <= m' -> e0 <= 0 -> m' <= N * 2 ^ (- e0) ->
                 Z.max e0 (fexp prec emax (Zdigits2 m' + e0)) <= 0).
  { intros m' e0 Hm' He0 Hle'.
    assert (Zdigits2 m' <= 53 - e0); [|unfold fexp, emin; lia].
    apply Zdigits2_le; [done|lia|].
    replace (53 - e0) with (53 + - e0) by lia. rewrite Z.pow_add_r by lia.
    assert (0 < 2 ^ (- e0)) by (apply Z.pow_pos_nonneg; lia). nia. }
  destruct (shr_fexp_exact m e Hm) as (r & -> & Hinv & _).
  set (e' := Z.max e (fexp prec emax (Zdigits2 m + e))) in *.
  assert (e' <= 0) as He' by (by apply Hexp).
  pose proof (round_step_le m e e' r N Hm ltac:(lia) He' Hle Hinv) as [Hm1 Hm1'].
  set (m1 := round_nearest_even _ _) in *.
  destruct (shr_fexp_exact m1 e' Hm1) as (r2 & -> & [Hq2 _] & _).
  set (e2 := Z.max e' (fexp prec emax (Zdigits2 m1 + e'))) in *.
  assert (e2 <= 0) as He2 by (by apply Hexp).
  assert (0 <= shr_m r2) by (rewrite Hq2; apply Z.div_pos; [done|apply Z.pow_pos_nonneg; lia]).
  destruct (shr_m r2) as [|p|p] eqn:Hr2; [simpl; lia| |lia].
  rewrite (proj2 (Z.leb_le e2 (emax - prec))) by lia. simpl. split; [|done].
  rewrite trunc_abs_div by done.
  assert (Hv : Z.pos p / 2 ^ (- e2) = m1 / 2 ^ (- e')).
  { rewrite Hq2, Z.div_div by (apply Z.pow_pos_nonneg || apply Z.pow_nonzero; lia).
    rewrite <- Z.pow_add_r by lia. do 2 f_equal. lia. }
  rewrite Hv.
  assert (0 < 2 ^ (- e')) by (apply Z.pow_pos_nonneg; lia).
  assert (0 <= m1 / 2 ^ (- e') <= N).
  { split; [by apply Z.div_pos|]. apply Z.div_le_upper_bound; lia. }
  rewrite (proj2 (Z.leb_le min_int64 _)), (proj2 (Z.leb_le _ max_int64))
    by (unfold min_int64, max_int64; lia). done.
Qed.

(** Integers below [2^53] convert exactly. *)
Lemma of_int_pos p :
  Z.pos p < 2 ^ 53 ->
  exists m e, of_int (Z.pos p) = S754_finite false m e /\ -52 <= e <= 0 /\
              Z.pos m = Z.pos p * 2 ^ (- e) /\ 2 ^ 52 <= Z.pos m < 2 ^ 53.
Proof.
  intros Hp. unfold of_int, binary_normalize, binary_round.
  pose proof (digits2_pos_bounds p) as Hb.
  pose proof (Zdigits2_le (Z.pos p) 53 ltac:(lia) ltac:(lia) Hp) as Hd. simpl in Hd.
  set (d := digits2_pos p) in *.
  replace (fexp prec emax (Z.pos d + 0)) with (Z.pos d - 53) by (unfold fexp, emin; lia).
  assert (exists m, shl_align p 0 (Z.pos d - 53) = (m, Z.pos d - 53)
                    /\ Z.pos m = Z.pos p * 2 ^ (53 - Z.pos d)) as (m & -> & Hmv).
  { unfold shl_align. destruct (Z.pos d - 53 - 0) as [|q|q] eqn:Hq; [|lia|].
    - exists p. replace (53 - Z.pos d) with 0 by lia. split; [f_equal; lia|lia].
    - exists (Pos.iter xO p q). split; [done|].
      replace (53 - Z.pos d) with (Z.pos q) by lia. clear.
      induction q as [|q IH] using Pos.peano_ind; [simpl; lia|].
      rewrite Pos.iter_succ, Pos2Z.inj_xO, IH, Pos2Z.inj_succ, Z.pow_succ_r by lia. lia. }
  assert (Z.pos (digits2_pos m) = 53) as Hdm.
  { apply digits2_pos_unique; [lia|]. rewrite Hmv.
    assert (0 < 2 ^ (53 - Z.pos d)) by (apply Z.pow_pos_nonneg; lia).
    assert (2 ^ (53 - 1) = 2 ^ (Z.pos d - 1) * 2 ^ (53 - Z.pos d)) as ->.
    { rewrite <- Z.pow_add_r by lia. f_equal. lia. }
    assert (2 ^ 53 = 2 ^ Z.pos d * 2 ^ (53 - Z.pos d)) as ->.
    { rewrite <- Z.pow_add_r by lia. f_equal. lia. }
    nia. }
  pose proof (digits2_pos_bounds m) as Hmb. rewrite Hdm in Hmb.
  exists m, (Z.pos d - 53).
  split; [|split; [lia|split; [by rewrite Hmv; do 2 f_equal; lia|exact Hmb]]].
  assert (shr_fexp prec emax (Z.pos m) (Z.pos d - 53) loc_Exact
          = ({| shr_m := Z.pos m; shr_r := false; shr_s := false |}, Z.pos d - 53)) as Hshr.
  { unfold shr_fexp. change (Zdigits2 (Z.pos m)) with (Z.pos (digits2_pos m)). rewrite Hdm.
    replace (fexp prec emax (53 + (Z.pos d - 53)) - (Z.pos d - 53)) with 0
      by (unfold fexp, emin; lia). done. }
  unfold binary_round_aux. rewrite Hshr. simpl round_nearest_even. rewrite Hshr. simpl.
  by rewrite (proj2 (Z.leb_le _ 971)) by lia.
Qed.

Lemma fleb_pos_finite m1 e1 m2 e2 :
  fleb (S754_finite false m1 e1) (S754_finite false m2 e2) = true ->
  e1 < e2 \/ e1 = e2 /\ Z.pos m1 <= Z.pos m2.
Proof.
  unfold fleb, SFleb, SFcompare. destruct (Z.compare_spec e1 e2); [|auto|done].
  change (Pos.compare_cont Eq m1 m2) with (m1 ?= m2)%positive.
  destruct (Pos.compare_spec m1 m2); [subst; auto with lia..|done].
Qed.

(** A valid float at most 1 has a mantissa at most [2^(-e)]. *)
Lemma fleb_one_mantissa m e :
  is_float64 (S754_finite false m e) = true -> fleb (S754_finite false m e) fone = true ->
  e <= -52 /\ Z.pos m <= 2 ^ (- e).
Proof.
  intros Hv Hle. apply andb_true_iff in Hv as [Hc _].
  unfold canonical_mantissa in Hc. apply Z.eqb_eq in Hc.
  assert (Z.pos (digits2_pos m) <= 53) as Hd by (unfold fexp in Hc; lia).
  pose proof (digits2_pos_bounds m) as [_ Hb].
  assert (Z.pos m < 2 ^ 53).
  { eapply Z.lt_le_trans; [exact Hb|]. apply Z.pow_le_mono_r; lia. }
  change fone with (S754_finite false 4503599627370496 (-52)) in Hle.
  apply fleb_pos_finite in Hle as [Hlt|[-> Hle]].
  - split; [lia|]. etransitivity; [apply Z.lt_le_incl; eassumption|].
    apply Z.pow_le_mono_r; lia.
  - split; [lia|]. exact Hle.
Qed.

(** Scaling an integer by a factor of [0, 1] and truncating does not increase it. *)
Lemma scale_le n f :
  0 <= n < 2 ^ 53 -> is_float64 f = true -> fleb fzero f = true -> fleb f fone = true ->
  0 <= to_int (fmul (of_int n) f) <= n.
Proof.
  intros Hn Hv Hlo Hhi.
  destruct n as [|p|p]; [|destruct (of_int_pos p) as (mp & ep & Hof & Hep & Hmp & _); [lia|]|lia].
  { change (of_int 0) with (S754_zero false).
    destruct f as [[]|[]| |[] m e]; done. }
  rewrite Hof.
  destruct f as [sf|[]| |[] m e]; try done; try (simpl; lia).
  destruct (fleb_one_mantissa m e Hv Hhi) as [He Hm].
  unfold fmul, SFmul. simpl xorb.
  destruct (binary_round_aux_le (Z.pos (mp * m)) (ep + e) (Z.pos p)) as [Hr _];
    [lia|lia|lia| |done].
  rewrite Pos2Z.inj_mul. replace (- (ep + e)) with (- ep + - e) by lia.
  rewrite Z.pow_add_r by lia.
  assert (0 < 2 ^ (- e)) by (apply Z.pow_pos_nonneg; lia). nia.
Qed.

(** ** Closure: the operations return canonical values *)

Lemma shr_1_div y : 0 <= shr_m y -> shr_m (shr_1 y) = shr_m y / 2.
Proof.
  destruct y as [[|[q|q|]|q] r s]; simpl; intros; try done; try lia;
    [by rewrite (proj1 (xI_div_mod q))|by rewrite (proj1 (xO_div_mod q))].
Qed.

Lemma iter_shr_div k y : 0 <= shr_m y -> shr_m (iter_pos shr_1 k y) = shr_m y / 2 ^ Z.pos k.
Proof.
  intros Hy. induction k as [|k IH] using Pos.peano_ind.
  - by apply shr_1_div.
  - assert (0 < 2 ^ Z.pos k) by (apply Z.pow_pos_nonneg; lia).
    rewrite iter_pos_S, Pos2Z.inj_succ, Z.pow_succ_r, Z.mul_comm, <- Z.div_div by lia.
    rewrite shr_1_div; rewrite IH; [done|by apply Z.div_pos].
Qed.

Lemma shr_fexp_spec m e l :
  0 <= m -> e <= fexp prec emax (Zdigits2 m + e) ->
  exists r, shr_fexp prec emax m e l = (r, fexp prec emax (Zdigits2 m + e)) /\
    shr_m r = m / 2 ^ (fexp prec emax (Zdigits2 m + e) - e).
Proof.
  intros Hm He. unfold shr_fexp, shr.
  set (f := fexp prec emax (Zdigits2 m + e)) in *.
  assert (shr_m (shr_record_of_loc m l) = m) as Hr by (by destruct l as [|[]]).
  destruct (f - e) as [|p|p] eqn:Hd; [| |lia].
  - eexists. split; [f_equal; lia|]. by rewrite Hr, Z.div_1_r.
  - eexists. split; [f_equal; lia|]. by rewrite iter_shr_div, Hr by lia.
Qed.

Lemma Zdigits2_bounds m : 0 < m -> 0 < Zdigits2 m /\ 2 ^ (Zdigits2 m - 1) <= m < 2 ^ Zdigits2 m.
Proof. destruct m as [|p|p]; [lia| |lia]. intros _. split; [done|]. apply digits2_pos_bounds. Qed.

Lemma Zdigits2_unique m d : 0 < d -> 2 ^ (d - 1) <= m < 2 ^ d -> Zdigits2 m = d.
Proof.
  intros Hd Hm. assert (0 < 2 ^ (d - 1)) by (apply Z.pow_pos_nonneg; lia).
  destruct m as [|p|p]; [lia| |lia]. by apply digits2_pos_unique.
Qed.

(** The quotient of the first shift: at most 53 digits, and exactly 53 unless
    the exponent is the least one. *)
Lemma shifted_mantissa m e :
  0 < m -> e <= fexp prec emax (Zdigits2 m + e) ->
  let f := fexp prec emax (Zdigits2 m + e) in
  let q := m / 2 ^ (f - e) in
  0 <= q < 2 ^ 53 /\ (f = -1074 \/ 2 ^ 52 <= q) /\ -1074 <= f.
Proof.
  intros Hm He f q. destruct (Zdigits2_bounds m Hm) as [Hd [Hlo Hhi]].
  set (d := Zdigits2 m) in *.
  assert (Hf : f = Z.max (d + e - 53) (-1074)) by (unfold f, fexp, emin; f_equal; lia).
  assert (Hp : 0 < 2 ^ (f - e)) by (apply Z.pow_pos_nonneg; lia).
  assert (0 <= q) by (apply Z.div_pos; lia).
  split; [split; [done|]|split; [|lia]].
  - apply Z.div_lt_upper_bound; [done|]. rewrite <- Z.pow_add_r by lia.
    eapply Z.lt_le_trans; [exact Hhi|]. apply Z.pow_le_mono_r; lia.
  - destruct (Z.max_spec (d + e - 53) (-1074)) as [[_ Hmx]|[_ Hmx]]; [left; lia|right].
    apply Z.div_le_lower_bound; [done|]. rewrite <- Z.pow_add_r by lia.
    etransitivity; [|exact Hlo]. apply Z.pow_le_mono_r; lia.
Qed.

Lemma binary_round_aux_valid s m e l :
  0 < m -> e <= fexp prec emax (Zdigits2 m + e) ->
  is_float64 (binary_round_aux prec emax s m e l) = true.
Proof.
  intros Hm He. unfold binary_round_aux.
  destruct (shr_fexp_spec m e l ltac:(lia) He) as (r & -> & Hq).
  pose proof (shifted_mantissa m e Hm He) as (Hq1 & Hq2 & Hf). cbv zeta in Hq1, Hq2.
  set (f := fexp prec emax (Zdigits2 m + e)) in *. rewrite <- Hq in Hq1, Hq2.
  pose proof (round_nearest_even_bounds r) as [Hb _]. cbv zeta in Hb.
  set (m1 := round_nearest_even _ _) in *.
  assert (Hcase : m1 = 0 \/ 0 < m1 < 2 ^ 53 \/ m1 = 2 ^ 53) by lia.
  assert (Hone : forall p e', Z.pos p < 2 ^ 53 -> -1074 <= e' -> (e' = -1074 \/ 2 ^ 52 <= Z.pos p) ->
            fexp prec emax (Zdigits2 (Z.pos p) + e') = e').
  { intros p e' Hp He' Hc. pose proof (Zdigits2_le (Z.pos p) 53 ltac:(lia) ltac:(lia) Hp).
    unfold fexp, emin. destruct Hc as [->|Hc]; [lia|].
    rewrite (Zdigits2_unique (Z.pos p) 53); [lia|lia|]. by split. }
  destruct Hcase as [-> | [Hr | -> ]].
  - simpl. unfold shr_fexp, shr. destruct (fexp _ _ _ - f) as [|p|p]; simpl; try done.
    assert (forall k x, shr_m x = 0 -> shr_m (iter_pos shr_1 k x) = 0) as Hz.
    { intros k x Hx. rewrite iter_shr_div, Hx by lia. apply Z.div_0_l, Z.pow_nonzero; lia. }
    rewrite Hz by done. done.
  - destruct m1 as [|p|p]; [lia| |lia].
    specialize (Hone p f ltac:(lia) Hf ltac:(lia)).
    destruct (shr_fexp_spec (Z.pos p) f loc_Exact ltac:(lia) ltac:(lia)) as (r2 & -> & Hr2).
    rewrite Hone, Z.sub_diag, Z.div_1_r in Hr2. rewrite Hr2, Hone.
    destruct (Z.leb_spec f (emax - prec)) as [Hle|]; [|done].
    cbn [is_float64 valid_binary]. unfold is_float64, valid_binary, bounded, canonical_mantissa.
    simpl Zdigits2 in Hone. rewrite Hone, Z.eqb_refl. simpl. by apply Z.leb_le.
  - assert (Zdigits2 (2 ^ 53) = 54) as Hd by done.
    assert (fexp prec emax (54 + f) = f + 1) as Hf1 by (unfold fexp, emin; lia).
    destruct (shr_fexp_spec (2 ^ 53) f loc_Exact ltac:(lia)) as (r2 & -> & Hr2);
      [rewrite Hd, Hf1; lia|].
    rewrite Hd, Hf1 in Hr2. rewrite Hd, Hf1.
    replace (f + 1 - f) with 1 in Hr2 by lia. change (2 ^ 53 / 2 ^ 1) with (2 ^ 52) in Hr2.
    rewrite Hr2. change (2 ^ 52) with (Z.pos 4503599627370496). cbv iota.
    destruct (Z.leb_spec (f + 1) (emax - prec)) as [Hle|]; [|done].
    unfold is_float64, valid_binary, bounded, canonical_mantissa.
    change (Z.pos (digits2_pos 4503599627370496)) with 53.
    replace (fexp prec emax (53 + (f + 1))) with (f + 1) by (unfold fexp, emin; lia).
    rewrite Z.eqb_refl. simpl. by apply Z.leb_le.
Qed.

Lemma valid_digits s m e :
  is_float64 (S754_finite s m e) = true ->
  Z.pos (digits2_pos m) <= 53 /\ -1074 <= e <= 971 /\ (e = -1074 \/ Z.pos (digits2_pos m) = 53).
Proof.
  unfold is_float64, valid_binary, bounded, canonical_mantissa, fexp, emin.
  intros H. apply andb_true_iff in H as [H1 H2].
  apply Z.eqb_eq in H1. apply Z.leb_le in H2. lia.
Qed.

Lemma fmul_valid x y : is_float64 x = true -> is_float64 y = true -> is_float64 (fmul x y) = true.
Proof.
  destruct x as [|[]| |sx mx ex], y as [|[]| |sy my ey]; intros Hx Hy; try done.
  apply valid_digits in Hx as (Hdx & Hex & Hcx), Hy as (Hdy & Hey & Hcy).
  apply binary_round_aux_valid; [lia|].
  pose proof (digits2_pos_bounds mx) as [Hx _]. pose proof (digits2_pos_bounds my) as [Hy _].
  destruct (Zdigits2_bounds (Z.pos (mx * my)) ltac:(lia)) as (Hd0 & _ & Hhi).
  set (dx := Z.pos (digits2_pos mx)) in *. set (dy := Z.pos (digits2_pos my)) in *.
  set (d := Zdigits2 (Z.pos (mx * my))) in *.
  assert (dx + dy - 2 < d).
  { apply (Z.pow_lt_mono_r_iff 2); [lia|lia|]. eapply Z.le_lt_trans; [|exact Hhi].
    replace (dx + dy - 2) with ((dx - 1) + (dy - 1)) by lia.
    rewrite Z.pow_add_r, Pos2Z.inj_mul by lia.
    apply Z.mul_le_mono_nonneg; try done; apply Z.pow_nonneg; lia. }
  unfold fexp, emin. lia.
Qed.

Lemma binary_round_valid s p e : is_float64 (binary_round prec emax s p e) = true.
Proof.
  unfold binary_round, shl_align.
  destruct (fexp prec emax (Z.pos (digits2_pos p) + e) - e) as [|q|q] eqn:Hd;
    [apply binary_round_aux_valid; simpl; lia..|].
  assert (Zdigits2 (Z.pos (Pos.iter xO p q)) = Z.pos (digits2_pos p) + Z.pos q) as Hdig.
  { clear. induction q as [|q IH] using Pos.peano_ind; [simpl; lia|].
    rewrite Pos.iter_succ. simpl in *. rewrite !Pos2Z.inj_succ, IH. lia. }
  apply binary_round_aux_valid; [lia|]. rewrite Hdig.
  replace (Z.pos (digits2_pos p) + Z.pos q + fexp prec emax (Z.pos (digits2_pos p) + e))
    with (Z.pos (digits2_pos p) + e) by lia. lia.
Qed.

Lemma binary_normalize_valid z e s : is_float64 (binary_normalize prec emax z e s) = true.
Proof. destruct z; simpl; [done|apply binary_round_valid..]. Qed.

Lemma of_int_valid z : is_float64 (of_int z) = true.
Proof. apply binary_normalize_valid. Qed.

Lemma fadd_valid x y : is_float64 x = true -> is_float64 y = true -> is_float64 (fadd x y) = true.
Proof.
  destruct x as [[]|[]| |sx mx ex], y as [[]|[]| |sy my ey]; intros Hx Hy; try done.
  all: apply binary_normalize_valid.
Qed.

Lemma fsub_valid x y : is_float64 x = true -> is_float64 y = true -> is_float64 (fsub x y) = true.
Proof.
  destruct x as [[]|[]| |sx mx ex], y as [[]|[]| |sy my ey]; intros Hx Hy; try done.
  all: apply binary_normalize_valid.
Qed.

#[export] Hint Resolve fmul_valid fadd_valid fsub_valid of_int_valid : antiban.

(** ** Values between two integers *)

(** A number of [0, N] (as a real). *)
Definition within (N : Z) (x : float64) : Prop :=
  match x with
  | S754_zero _ => 0 <= N
  | S754_finite false m e => e <= 0 /\ Z.pos m <= N * 2 ^ (- e)
  | _ => False
  end.

Lemma within_to_int N x : N < 2 ^ 53 -> within N x -> 0 <= to_int x <= N.
Proof.
  intros HN. destruct x as [s| | |[] m e]; simpl; try done.
  intros [He Hm]. rewrite trunc_abs_div by done.
  assert (0 < 2 ^ (- e)) by (apply Z.pow_pos_nonneg; lia).
  assert (0 <= Z.pos m / 2 ^ (- e) <= N).
  { split; [by apply Z.div_pos|]. apply Z.div_le_upper_bound; lia. }
  rewrite (proj2 (Z.leb_le min_int64 _)), (proj2 (Z.leb_le _ max_int64))
    by (unfold min_int64, max_int64; lia). done.
Qed.

Lemma within_of_int k N : 0 <= k <= N -> k < 2 ^ 53 -> within N (of_int k).
Proof.
  intros Hk Hlt. destruct k as [|p|p]; [simpl; lia| |lia].
  destruct (of_int_pos p Hlt) as (m & e & -> & He & Hm & _). simpl. split; [lia|].
  rewrite Hm. apply Z.mul_le_mono_nonneg_r; [apply Z.pow_nonneg; lia|lia].
Qed.

Lemma to_int_of_int k : 0 <= k < 2 ^ 53 -> to_int (of_int k) = k.
Proof.
  intros Hk. destruct k as [|p|p]; [done| |lia].
  destruct (of_int_pos p ltac:(lia)) as (m & e & -> & He & Hm & _). simpl.
  rewrite trunc_abs_div, Hm, Z.div_mul by (try apply Z.pow_nonzero; lia).
  by rewrite (proj2 (Z.leb_le min_int64 _)), (proj2 (Z.leb_le _ max_int64))
    by (unfold min_int64, max_int64; lia).
Qed.

(** A canonical value at most [float64(N)] is within [N]. *)
Lemma within_fleb N x :
  0 <= N < 2 ^ 53 -> is_float64 x = true -> fleb fzero x = true -> fleb x (of_int N) = true ->
  within N x.
Proof.
  intros HN Hv Hlo Hhi. destruct x as [s|[]| |[] m e]; try done; [simpl; lia|..].
  - destruct N as [|p|p]; [done| |lia].
    destruct (of_int_pos p) as (mp & ep & Hof & _); [lia|]. by rewrite Hof in Hhi.
  - destruct N as [|p|p]; [done| |lia].
    destruct (of_int_pos p) as (mp & ep & Hof & Hep & Hmp & Hb); [lia|].
    rewrite Hof in Hhi. apply valid_digits in Hv as (Hd & _ & _).
    pose proof (digits2_pos_bounds m) as [_ Hm].
    assert (Z.pos m < 2 ^ 53).
    { eapply Z.lt_le_trans; [exact Hm|]. apply Z.pow_le_mono_r; lia. }
    apply fleb_pos_finite in Hhi as [Hlt|[-> Hle]]; simpl.
    + split; [lia|]. replace (- e) with (- ep + (ep - e)) by lia.
      rewrite Z.pow_add_r, Z.mul_assoc, <- Hmp by lia.
      assert (2 <= 2 ^ (ep - e)).
      { change 2 with (2 ^ 1) at 1. apply Z.pow_le_mono_r; lia. }
      nia.
    + split; [lia|]. by rewrite <- Hmp.
Qed.

(** A canonical value at least [float64(N)] truncates to at least [N]. *)
Lemma fleb_trunc_lower N m e :
  0 <= N < 2 ^ 53 -> is_float64 (S754_finite false m e) = true ->
  fleb (of_int N) (S754_finite false m e) = true -> e <= 0 -> N <= trunc_abs m e.
Proof.
  intros HN Hv Hlo He. rewrite trunc_abs_div by done.
  assert (0 < 2 ^ (- e)) by (apply Z.pow_pos_nonneg; lia).
  destruct N as [|p|p]; [by apply Z.div_pos| |lia].
  destruct (of_int_pos p) as (mp & ep & Hof & Hep & Hmp & Hb); [lia|].
  rewrite Hof in Hlo. apply valid_digits in Hv as (Hd & _ & Hc).
  apply Z.div_le_lower_bound; [done|]. rewrite Z.mul_comm.
  apply fleb_pos_finite in Hlo as [Hlt|[-> Hle]]; [|by rewrite <- Hmp].
  destruct Hc as [|Hc]; [lia|].
  pose proof (digits2_pos_bounds m) as [Hm _]. rewrite Hc in Hm.
  replace (- ep) with (- e + (e - ep)) in Hmp by lia.
  rewrite Z.pow_add_r, Z.mul_assoc in Hmp by lia.
  assert (2 <= 2 ^ (e - ep)).
  { change 2 with (2 ^ 1) at 1. apply Z.pow_le_mono_r; lia. }
  change (2 ^ (53 - 1)) with 4503599627370496 in Hm. change (2 ^ 53) with 9007199254740992 in Hb.
  nia.
Qed.

(** Doubling. *)
Lemma within_double N x :
  0 <= N < 2 ^ 52 -> within N x -> 0 <= to_int (fmul x (of_int 2)) <= 2 * N.
Proof.
  intros HN. change (of_int 2) with (S754_finite false 4503599627370496 (-51)).
  destruct x as [s| | |[] m e]; simpl within; try done.
  { intros _. simpl. lia. }
  intros [He Hm]. unfold fmul, SFmul. simpl xorb.
  destruct (binary_round_aux_le (Z.pos (m * 4503599627370496)) (e + -51) (2 * N)) as [Hr _];
    [lia|lia|lia| |done].
  rewrite Pos2Z.inj_mul. replace (- (e + -51)) with (- e + 51) by lia.
  rewrite Z.pow_add_r by lia. change (2 ^ 51) with 2251799813685248. nia.
Qed.

(** ** Absence of NaN *)

Lemma shr_nonneg r e n : 0 <= shr_m r -> 0 <= shr_m (shr r e n).1.
Proof.
  intros Hr. destruct n as [|p|p]; simpl; try done. rewrite iter_shr_div by done.
  apply Z.div_pos; [done|apply Z.pow_pos_nonneg; lia].
Qed.

Lemma shr_record_of_loc_m m l : shr_m (shr_record_of_loc m l) = m.
Proof. by destruct l as [|[]]. Qed.

(** Rounding keeps the sign and never produces a NaN. *)
Lemma binary_round_aux_sign s m e l :
  0 <= m ->
  signbit (binary_round_aux prec emax s m e l) = s /\
  is_nan (binary_round_aux prec emax s m e l) = false.
Proof.
  intros Hm. unfold binary_round_aux, shr_fexp.
  pose proof (shr_nonneg (shr_record_of_loc m l) e (fexp prec emax (Zdigits2 m + e) - e)
                ltac:(by rewrite shr_record_of_loc_m)) as H1.
  destruct (shr _ e _) as [r1 e1]. cbn [fst] in H1.
  pose proof (round_nearest_even_bounds r1) as [Hb _]. cbv zeta in Hb.
  set (m1 := round_nearest_even _ _) in *.
  pose proof (shr_nonneg (shr_record_of_loc m1 loc_Exact) e1 (fexp prec emax (Zdigits2 m1 + e1) - e1)
                ltac:(rewrite shr_record_of_loc_m; lia)) as H2.
  destruct (shr _ e1 _) as [r2 e2]. cbn [fst] in H2.
  destruct (shr_m r2); [done| |lia]. by case_match.
Qed.

Lemma binary_round_sign s p e :
  signbit (binary_round prec emax s p e) = s /\ is_nan (binary_round prec emax s p e) = false.
Proof. unfold binary_round. destruct (shl_align _ _ _). by apply binary_round_aux_sign. Qed.

Lemma binary_normalize_nan z e s : is_nan (binary_normalize prec emax z e s) = false.
Proof. destruct z; simpl; [done|apply binary_round_sign..]. Qed.

Lemma of_int_nan z : is_nan (of_int z) = false.
Proof. apply binary_normalize_nan. Qed.

(** A number that is not negative (it may be infinite). *)
Definition nonneg (x : float64) : Prop := signbit x = false /\ is_nan x = false.

Lemma nonneg_of_int z : 0 <= z -> nonneg (of_int z).
Proof. destruct z; [done| |lia]. intros _. apply binary_round_sign. Qed.

Lemma nonneg_fadd x y : nonneg x -> nonneg y -> nonneg (fadd x y).
Proof.
  intros [Hx Hx'] [Hy Hy'].
  destruct x as [[]|[]| |[] mx ex], y as [[]|[]| |[] my ey]; try done.
  unfold fadd, SFadd, cond_Zopp. apply binary_round_sign.
Qed.

Lemma nonneg_fmul_pos m e y : nonneg y -> nonneg (fmul (S754_finite false m e) y).
Proof.
  intros [Hy Hy']. destruct y as [[]|[]| |[] my ey]; try done.
  by apply binary_round_aux_sign.
Qed.

Lemma nonneg_fdiv_pos x m e : nonneg x -> nonneg (fdiv x (S754_finite false m e)).
Proof.
  intros [Hx Hx']. destruct x as [[]|[]| |[] mx ex]; try done.
  unfold fdiv, SFdiv, SFdiv_core_binary.
  set (e' := Z.min _ _). set (m' := match _ with Z0 => _ | _ => _ end).
  assert (0 <= m') as Hm'.
  { subst m'. case_match; try lia. apply Z.shiftl_nonneg. lia. }
  pose proof (Z_div_mod m' (Z.pos m) ltac:(lia)) as Hdiv.
  destruct (Z.div_eucl m' (Z.pos m)) as [q r]. apply binary_round_aux_sign. nia.
Qed.

Lemma nonneg_dur_in u d m e :
  0 <= d -> 0 < u -> of_int u = S754_finite false m e -> nonneg (dur_in u d).
Proof.
  intros Hd Hu He. unfold dur_in. apply nonneg_fadd.
  - apply nonneg_of_int. by apply Z.quot_pos.
  - rewrite He. apply nonneg_fdiv_pos, nonneg_of_int. by apply Z.rem_nonneg; lia.
Qed.

Lemma fadd_nan x y :
  is_nan x = false -> is_finite y = true -> is_nan (fadd x y) = false.
Proof.
  destruct x as [[]|[]| |[] ? ?], y as [[]|[]| |[] ? ?]; intros; try done;
    apply binary_normalize_nan.
Qed.

Lemma fsub_nonneg_nan x y :
  is_nan x = false -> is_pinf x = false -> nonneg y -> is_nan (fsub x y) = false.
Proof.
  intros Hx Hp [Hy Hy'].
  destruct x as [[]|[]| |[] ? ?], y as [[]|[]| |[] ? ?]; try done;
    apply binary_normalize_nan.
Qed.

(** ** The order is transitive *)

Lemma fleb_finite_iff s1 m1 e1 s2 m2 e2 :
  fleb (S754_finite s1 m1 e1) (S754_finite s2 m2 e2) = true <->
  match s1, s2 with
  | true, false => True
  | false, true => False
  | false, false => e1 < e2 \/ e1 = e2 /\ Z.pos m1 <= Z.pos m2
  | true, true => e2 < e1 \/ e1 = e2 /\ Z.pos m2 <= Z.pos m1
  end.
Proof.
  unfold fleb, SFleb, SFcompare.
  change (Pos.compare_cont Eq m1 m2) with (m1 ?= m2)%positive.
  destruct s1, s2; try done; destruct (Z.compare_spec e1 e2) as [->|H|H]; simpl;
    try (split; [done || auto|lia]);
    destruct (Pos.compare_spec m1 m2) as [->|H|H]; simpl; split; try done; try lia; auto with lia.
Qed.

Lemma fleb_trans x y z : fleb x y = true -> fleb y z = true -> fleb x z = true.
Proof.
  destruct x as [[]|[]| |sx mx ex], y as [[]|[]| |sy my ey], z as [[]|[]| |sz mz ez];
    try done;
    try (destruct sx; done); try (destruct sy; done); try (destruct sz; done).
  all: try (destruct sx, sy; done); try (destruct sy, sz; done); try (destruct sx, sz; done).
  rewrite !fleb_finite_iff. destruct sx, sy, sz; lia.
Qed.

Lemma fltb_not_fleb x y : fltb x y = true -> fleb y x = false.
Proof.
  unfold fltb, fleb, SFltb, SFleb. destruct (SFcompare x y) as [[]|] eqn:Hc; try done.
  by rewrite (SFcompare_antisym _ _ _ Hc).
Qed.
