(* ===== verification/FloatBounds.v ===== *)
(** * Bounds of [float64] results by a rational number

    [below N k x]: the value of [x] is between 0 and [N / 2^k].  Rounding
    keeps a value strictly under such a bound below it, so the bound can be
    carried through a quotient of integers and a product. *)
From S2P Require Import Prelude GoFloat.

Definition below (N k : Z) (x : float64) : Prop :=
  match x with
  | S754_zero _ => 0 <= N
  | S754_finite false m e => e <= - k /\ Z.pos m <= N * 2 ^ (- e - k)
  | _ => False
  end.

Lemma pow2_pos n : 0 <= n -> 0 < 2 ^ n.
Proof. intros. by apply Z.pow_pos_nonneg. Qed.

(** The exponent after a shift stays below [-k] for a mantissa below the bound. *)
Lemma fexp_below m e N k :
  0 <= m -> 0 <= k <= 1000 -> e <= - k -> N < 2 ^ 53 -> m <= N * 2 ^ (- e - k) ->
  fexp prec emax (Zdigits2 m + e) <= - k.
Proof.
  intros Hm Hk He HN Hle. pose proof (pow2_pos (- e - k) ltac:(lia)).
  assert (Zdigits2 m <= 53 - e - k); [|unfold fexp, emin; lia].
  apply Zdigits2_le; [done|lia|].
  replace (53 - e - k) with (53 + (- e - k)) by lia. rewrite Z.pow_add_r by lia. nia.
Qed.

Lemma binary_round_aux_below m e l N k :
  0 < m -> e <= fexp prec emax (Zdigits2 m + e) -> 0 <= k <= 1000 -> e <= - k -> N < 2 ^ 53 ->
  m < N * 2 ^ (- e - k) ->
  below N k (binary_round_aux prec emax false m e l).
Proof.
  intros Hm Hfe Hk He HN Hlt. unfold binary_round_aux.
  pose proof (pow2_pos (- e - k) ltac:(lia)) as Hp0.
  pose proof (fexp_below m e N k ltac:(lia) Hk He HN ltac:(lia)) as He1.
  destruct (shr_fexp_spec m e l ltac:(lia) Hfe) as (r & -> & Hq).
  set (e1 := fexp prec emax (Zdigits2 m + e)) in *.
  pose proof (round_nearest_even_bounds r) as [Hb _]. cbv zeta in Hb.
  set (m1 := round_nearest_even _ _) in *.
  pose proof (pow2_pos (e1 - e) ltac:(lia)) as Hp1. pose proof (pow2_pos (- e1 - k) ltac:(lia)) as Hp2.
  assert (0 <= m1 <= N * 2 ^ (- e1 - k)) as [Hm1 Hm1'].
  { assert (0 <= shr_m r) by (rewrite Hq; apply Z.div_pos; lia).
    assert (shr_m r < N * 2 ^ (- e1 - k)); [|lia].
    rewrite Hq. apply Z.div_lt_upper_bound; [done|].
    replace (- e - k) with ((e1 - e) + (- e1 - k)) in Hlt by lia.
    rewrite Z.pow_add_r in Hlt by lia. nia. }
  destruct (shr_fexp_exact m1 e1 Hm1) as (r2 & -> & [Hq2 _] & _).
  pose proof (fexp_below m1 e1 N k Hm1 Hk He1 HN Hm1') as He2'.
  set (e2 := Z.max e1 (fexp prec emax (Zdigits2 m1 + e1))) in *.
  assert (e2 <= - k) as He2 by lia.
  pose proof (pow2_pos (e2 - e1) ltac:(lia)) as Hp3.
  assert (0 <= N) by nia.
  destruct (shr_m r2) as [|p|p] eqn:Hr2; [done| |].
  - rewrite (proj2 (Z.leb_le e2 (emax - prec))) by lia. simpl. split; [done|].
    rewrite Hq2. apply Z.div_le_upper_bound; [done|].
    replace (2 ^ (e2 - e1) * (N * 2 ^ (- e2 - k))) with (N * (2 ^ (e2 - e1) * 2 ^ (- e2 - k))) by lia.
    rewrite <- Z.pow_add_r by lia. by replace (e2 - e1 + (- e2 - k)) with (- e1 - k) by lia.
  - assert (0 <= m1 / 2 ^ (e2 - e1)) by (by apply Z.div_pos). lia.
Qed.

(** Truncation of a value below [N / 2^k]. *)
Lemma below_to_int N k x :
  0 <= k -> N < 2 ^ 53 -> below N k x -> 0 <= to_int x <= N / 2 ^ k.
Proof.
  intros Hk HN. pose proof (pow2_pos k Hk) as Hp. destruct x as [s| | |[] m e]; simpl; try done.
  { intros. split; [done|]. by apply Z.div_pos. }
  intros [He Hm]. rewrite trunc_abs_div by lia.
  pose proof (pow2_pos (- e) ltac:(lia)). pose proof (pow2_pos (- e - k) ltac:(lia)).
  assert (0 <= N) by nia.
  assert (0 <= Z.pos m / 2 ^ (- e) <= N / 2 ^ k) as Hr.
  { split; [by apply Z.div_pos|]. apply Z.div_le_lower_bound; [done|].
    pose proof (Z.mul_div_le (Z.pos m) (2 ^ (- e)) ltac:(done)).
    assert (2 ^ (- e) = 2 ^ k * 2 ^ (- e - k)) as Heq
      by (rewrite <- Z.pow_add_r by lia; f_equal; lia).
    rewrite Heq in H2 |- *.
    nia. }
  assert (N / 2 ^ k <= N) by (apply Z.div_le_upper_bound; nia).
  rewrite (proj2 (Z.leb_le min_int64 _)), (proj2 (Z.leb_le _ max_int64))
    by (unfold min_int64, max_int64; lia). done.
Qed.

(** A product with a positive integer. *)
Lemma below_mul N k n x :
  is_float64 x = true -> below N k x -> 0 <= k <= 900 -> 0 < n -> n < 2 ^ 53 ->
  N * n + 1 < 2 ^ 53 -> below (N * n + 1) k (fmul x (of_int n)).
Proof.
  intros Hv Hx Hk Hn Hn' HN. destruct n as [|p|p]; [lia| |lia].
  destruct (of_int_pos p Hn') as (mp & ep & Hof & Hep & Hmp & Hmb). rewrite Hof.
  destruct x as [s| | |[] m e]; simpl in Hx; try done; [simpl; lia|].
  destruct Hx as [He Hm]. unfold fmul, SFmul. simpl xorb.
  apply valid_digits in Hv as (Hd & He' & Hc).
  pose proof (pow2_pos (- e - k) ltac:(lia)). pose proof (pow2_pos (- ep) ltac:(lia)).
  assert (Z.pos (m * mp) < (N * Z.pos p + 1) * 2 ^ (- (e + ep) - k)) as Hlt.
  { rewrite Pos2Z.inj_mul, Hmp. replace (- (e + ep) - k) with ((- e - k) + - ep) by lia.
    rewrite Z.pow_add_r by lia. nia. }
  apply binary_round_aux_below; try lia.
  destruct (digits2_pos_bounds m) as [Hlo _].
  destruct (Zdigits2_bounds (Z.pos (m * mp)) ltac:(lia)) as (Hd0 & _ & Hhi).
  set (dm := Z.pos (digits2_pos m)) in *. set (d := Zdigits2 _) in *.
  assert (dm + 51 < d); [|unfold fexp, emin; lia].
  apply (Z.pow_lt_mono_r_iff 2); [lia|lia|]. eapply Z.le_lt_trans; [|exact Hhi].
  replace (dm + 51) with ((dm - 1) + 52) by lia. rewrite Z.pow_add_r, Pos2Z.inj_mul by lia.
  apply Z.mul_le_mono_nonneg; try lia.
Qed.

(** A quotient of two integers that is strictly less than [N / 2^k]. *)
Lemma below_div a b N k :
  0 <= a < 2 ^ 53 -> 0 < b < 2 ^ 53 -> 0 <= k <= 50 -> 0 <= N < 2 ^ 53 -> a * 2 ^ k < N * b ->
  a <= b ->
  below N k (fdiv (of_int a) (of_int b)) /\ is_float64 (fdiv (of_int a) (of_int b)) = true.
Proof.
  intros Ha Hb Hk HN Hlt Hab. destruct b as [|pb|pb]; [lia| |lia].
  destruct (of_int_pos pb ltac:(lia)) as (m2 & e2 & Hb2 & He2 & Hm2 & Hmb2). rewrite Hb2.
  destruct a as [|pa|pa]; [simpl; split; [lia|done]| |lia].
  destruct (of_int_pos pa ltac:(lia)) as (m1 & e1 & Ha1 & He1 & Hm1 & Hmb1). rewrite Ha1.
  unfold fdiv, SFdiv, SFdiv_core_binary. simpl xorb.
  assert (forall m, 2 ^ 52 <= Z.pos m < 2 ^ 53 -> Zdigits2 (Z.pos m) = 53) as Hdig.
  { intros m Hm. apply Zdigits2_unique; [lia|]. exact Hm. }
  rewrite (Hdig m1 Hmb1), (Hdig m2 Hmb2).
  replace (Z.min (fexp prec emax (53 + e1 - (53 + e2))) (e1 - e2)) with (e1 - e2 - 53)
    by (unfold fexp, emin; lia).
  replace (e1 - e2 - (e1 - e2 - 53)) with 53 by lia.
  cbv iota. rewrite Z.shiftl_mul_pow2 by lia.
  pose proof (Z_div_mod (Z.pos m1 * 2 ^ 53) (Z.pos m2) ltac:(lia)) as Hdm.
  destruct (Z.div_eucl (Z.pos m1 * 2 ^ 53) (Z.pos m2)) as [q r]. destruct Hdm as [Hq Hr].
  pose proof (pow2_pos (- e1) ltac:(lia)) as Hpe1. pose proof (pow2_pos (- e2) ltac:(lia)) as Hpe2.
  assert (2 ^ 52 <= q) as Hq52.
  { change (2 ^ 53) with 9007199254740992 in *. change (2 ^ 52) with 4503599627370496 in *. nia. }
  assert (q < 2 ^ 54) as Hq54.
  { change (2 ^ 53) with 9007199254740992 in *. change (2 ^ 52) with 4503599627370496 in *.
    change (2 ^ 54) with 18014398509481984. nia. }
  assert (53 <= Zdigits2 q <= 54) as Hdq.
  { split; [|apply Zdigits2_le; lia].
    destruct (Zdigits2_bounds q ltac:(lia)) as (_ & _ & Hhi).
    assert (52 < Zdigits2 q); [|lia]. apply (Z.pow_lt_mono_r_iff 2); try lia.
    destruct (Zdigits2_bounds q ltac:(lia)). lia. }
  assert (e1 - e2 - 53 <= fexp prec emax (Zdigits2 q + (e1 - e2 - 53))) as Hf
    by (unfold fexp, emin; lia).
  split; [|by apply binary_round_aux_valid; [lia|]].
  assert (e1 <= e2) as Hee.
  { destruct (Z.le_gt_cases e1 e2) as [|Hgt]; [done|exfalso].
    assert (2 ^ (- e2) = 2 ^ (- e1) * 2 ^ (e1 - e2)) as Hpow
      by (rewrite <- Z.pow_add_r by lia; f_equal; lia).
    assert (2 <= 2 ^ (e1 - e2)).
    { change 2 with (2 ^ 1) at 1. apply Z.pow_le_mono_r; lia. }
    rewrite Hpow in Hm2. change (2 ^ 53) with 9007199254740992 in *.
    change (2 ^ 52) with 4503599627370496 in *. nia. }
  apply binary_round_aux_below; try lia.
  set (X := 2 ^ (- (e1 - e2 - 53) - k)).
  assert (2 ^ 53 * 2 ^ (- e1) = X * (2 ^ k * 2 ^ (- e2))) as HX.
  { unfold X. rewrite <- !Z.pow_add_r by lia. f_equal. lia. }
  pose proof (pow2_pos k ltac:(lia)) as Hpk.
  assert (q * (Z.pos pb * 2 ^ (- e2)) <= Z.pos pa * (X * (2 ^ k * 2 ^ (- e2)))) as H1.
  { rewrite <- HX, <- Hm2. nia. }
  assert (q * Z.pos pb <= (Z.pos pa * 2 ^ k) * X) as H2.
  { apply (Z.mul_le_mono_pos_r _ _ (2 ^ (- e2))); [done|]. lia. }
  assert (0 < X) as HXp by (apply pow2_pos; lia).
  apply (Z.mul_lt_mono_pos_r (Z.pos pb)); [lia|].
  eapply Z.le_lt_trans; [exact H2|].
  replace (N * X * Z.pos pb) with (N * Z.pos pb * X) by lia.
  by apply Z.mul_lt_mono_pos_r.
Qed.
