(* ===== verification/GoStrings.v ===== *)
(** * Go strings: the [strings] and [strconv] functions the code uses

    A Go [string] is a byte sequence: here a [string] of 8-bit [ascii]
    characters.  The functions are the specifications of the library functions
    in executable form, with the lemmas the components need. *)
From S2P Require Import Prelude.
From Stdlib Require Export Ascii.

#[global] Arguments String.append : simpl nomatch.
Definition len (s : string) : Z := Z.of_nat (String.length s).

(** Byte-sequence view. *)
Fixpoint bytes (s : string) : list ascii :=
  match s with EmptyString => [] | String c s => c :: bytes s end.
Fixpoint of_bytes (l : list ascii) : string :=
  match l with [] => EmptyString | c :: l => String c (of_bytes l) end.

(** [strings.HasPrefix], [strings.HasSuffix], [strings.TrimPrefix], [strings.TrimSuffix] *)
Fixpoint has_prefix (s p : string) : bool :=
  match p, s with
  | EmptyString, _ => true
  | String c p, String d s => if ascii_dec c d then has_prefix s p else false
  | _, _ => false
  end.
Fixpoint drop_str (n : nat) (s : string) : string :=
  match n, s with
  | O, _ => s
  | S n, String _ s => drop_str n s
  | S _, EmptyString => EmptyString
  end.
Fixpoint take_str (n : nat) (s : string) : string :=
  match n, s with
  | S n, String c s => String c (take_str n s)
  | _, _ => EmptyString
  end.
Definition has_suffix (s p : string) : bool :=
  (String.length p <=? String.length s)%nat &&
  String.eqb (drop_str (String.length s - String.length p) s) p.
Definition trim_prefix (s p : string) : string :=
  if has_prefix s p then drop_str (String.length p) s else s.
Definition trim_suffix (s p : string) : string :=
  if has_suffix s p then take_str (String.length s - String.length p) s else s.

(** [strings.Contains] and [strings.Index] of a one-byte separator *)
Fixpoint str_contains (s p : string) : bool :=
  has_prefix s p || match s with EmptyString => false | String _ s => str_contains s p end.
Fixpoint index_byte (s : string) (c : ascii) : option nat :=
  match s with
  | EmptyString => None
  | String d s => if ascii_dec d c then Some O else S <$> index_byte s c
  end.

(** [strings.Split] at a one-byte separator: never empty. *)
Fixpoint split_byte (s : string) (c : ascii) : list string :=
  match s with
  | EmptyString => [""]
  | String d s' =>
      if ascii_dec d c then "" :: split_byte s' c
      else match split_byte s' c with
           | [] => [String d ""]
           | p :: ps => String d p :: ps
           end
  end.

(** [strings.Fields]: maximal runs of non-space bytes (ASCII white space; the
    code calls it on message text, whose other white space is kept in words). *)
Definition is_space (c : ascii) : bool :=
  let n := Z.of_N (N_of_ascii c) in ((9 <=? n) && (n <=? 13)) || (n =? 32).
Fixpoint fields_aux (s : string) (cur : string) : list string :=
  match s with
  | EmptyString => if String.eqb cur "" then [] else [cur]
  | String c s =>
      if is_space c
      then (if String.eqb cur "" then fields_aux s "" else cur :: fields_aux s "")
      else fields_aux s (cur +:+ String c "")
  end.
Definition fields (s : string) : list string := fields_aux s "".

Fixpoint join (l : list string) (sep : string) : string :=
  match l with
  | [] => ""
  | [w] => w
  | w :: ws => w +:+ sep +:+ join ws sep
  end.

(** [strings.TrimRight(s, cutset)] for a set of bytes *)
Definition trim_right (s : string) (cut : ascii -> bool) : string :=
  of_bytes (reverse ((fix drop l := match l with
                                    | c :: l' => if cut c then drop l' else l
                                    | [] => []
                                    end) (reverse (bytes s)))).

(** [strings.ReplaceAll(s, old, new)] for a non-empty [old]: leftmost, not overlapping. *)
Fixpoint replace_all_fuel (fuel : nat) (s old new : string) : string :=
  match fuel with
  | O => s
  | S fuel =>
      match s with
      | EmptyString => EmptyString
      | String c s' =>
          if has_prefix s old
          then new +:+ replace_all_fuel fuel (drop_str (String.length old) s) old new
          else String c (replace_all_fuel fuel s' old new)
      end
  end.
Definition replace_all (s old new : string) : string :=
  replace_all_fuel (S (String.length s)) s old new.

(** [strings.ToLower] on ASCII letters *)
Definition lower (c : ascii) : ascii :=
  let n := N_of_ascii c in if ((65 <=? n) && (n <=? 90))%N then ascii_of_N (n + 32) else c.
Fixpoint to_lower (s : string) : string :=
  match s with EmptyString => EmptyString | String c s => String (lower c) (to_lower s) end.

(** ** Decimal numbers *)

Definition digit (d : Z) : ascii := ascii_of_N (Z.to_N (48 + d)).
Definition digit_val (c : ascii) : option Z :=
  let n := Z.of_N (N_of_ascii c) in if (48 <=? n) && (n <=? 57) then Some (n - 48) else None.

(** [strconv.Itoa] / [%d] on a non-negative number, most significant digit first. *)
Fixpoint dec_fuel (fuel : nat) (n : Z) (acc : string) : string :=
  match fuel with
  | O => acc
  | S fuel =>
      let acc := String (digit (n mod 10)) acc in
      if n / 10 =? 0 then acc else dec_fuel fuel (n / 10) acc
  end.
Definition dec_nonneg (n : Z) : string := dec_fuel 20 n "".
Definition fmt_d (z : Z) : string := if z <? 0 then String "-" (dec_nonneg (- z)) else dec_nonneg z.

Fixpoint parse_digits (s : string) (acc : Z) : option Z :=
  match s with
  | EmptyString => Some acc
  | String c s => match digit_val c with Some d => parse_digits s (10 * acc + d) | None => None end
  end.
Definition parse_unsigned (s : string) : option Z :=
  match s with EmptyString => None | _ => parse_digits s 0 end.

(** [strconv.Atoi]: an optional sign, then digits; out of [int] range is an error. *)
Definition Atoi (s : string) : option Z :=
  let r := match s with
           | String "-" s' => Z.opp <$> parse_unsigned s'
           | String "+" s' => parse_unsigned s'
           | _ => parse_unsigned s
           end in
  match r with
  | Some z => if (min_int64 <=? z) && (z <=? max_int64) then Some z else None
  | None => None
  end.

Example fields_ex : fields "  a bc  d " = ["a"; "bc"; "d"].
Proof. reflexivity. Qed.
Example split_ex : split_byte "a@b@" "@" = ["a"; "b"; ""].
Proof. reflexivity. Qed.
Example atoi_ex : Atoi (fmt_d (-1234)) = Some (-1234).
Proof. reflexivity. Qed.
Example replace_ex : replace_all "a{x}b{x}" "{x}" "{x}y" = "a{x}yb{x}y".
Proof. reflexivity. Qed.

(** ** Lemmas *)

Lemma append_nil_r s : s +:+ "" = s.
Proof. induction s as [|c s IH]; simpl; [done|]. by rewrite IH. Qed.

Lemma append_assoc a b c : (a +:+ b) +:+ c = a +:+ b +:+ c.
Proof. induction a as [|x a IH]; simpl; [done|]. by rewrite IH. Qed.

Lemma length_append a b : String.length (a +:+ b) = (String.length a + String.length b)%nat.
Proof. induction a as [|x a IH]; simpl; [done|]. by rewrite IH. Qed.

Lemma has_prefix_spec s p : has_prefix s p = true <-> exists r, s = p +:+ r.
Proof.
  revert s. induction p as [|c p IH]; intros s; simpl.
  - split; [by exists s|by destruct s].
  - destruct s as [|d s]; simpl.
    { split; [done|by intros [r [=]]]. }
    destruct (ascii_dec c d) as [->|Hne].
    + rewrite IH. split; intros [r Hr]; exists r; [by rewrite Hr|by injection Hr].
    + split; [done|]. intros [r [= <- _]]. done.
Qed.

(** [strings.Contains] finds exactly the factors of the string. *)
Lemma str_contains_spec s p : str_contains s p = true <-> exists a b, s = a +:+ p +:+ b.
Proof.
  revert p. induction s as [|c s IH]; intros p; cbn [str_contains].
  - rewrite orb_false_r, has_prefix_spec. split.
    + intros [r Hr]. by exists "", r.
    + intros (a & b & Hab). destruct a; [|done]. by exists b.
  - rewrite orb_true_iff, has_prefix_spec, IH. split.
    + intros [[r Hr]|(a & b & ->)]; [by exists "", r|by exists (String c a), b].
    + intros ([|d a] & b & Hab); [left; by exists b|right].
      injection Hab as -> ->. by exists a, b.
Qed.

Lemma str_contains_app_r a s p : str_contains s p = true -> str_contains (a +:+ s) p = true.
Proof.
  rewrite !str_contains_spec. intros (x & y & ->). exists (a +:+ x), y. by rewrite append_assoc.
Qed.

Lemma str_contains_app_l s b p : str_contains s p = true -> str_contains (s +:+ b) p = true.
Proof.
  rewrite !str_contains_spec. intros (x & y & ->). exists x, (y +:+ b). by rewrite !append_assoc.
Qed.

Lemma length_take_str n s : String.length (take_str n s) = Nat.min n (String.length s).
Proof. revert s. induction n; intros [|c s]; simpl; auto. Qed.

Lemma take_drop_str n s : take_str n s +:+ drop_str n s = s.
Proof. revert s. induction n; intros [|c s]; simpl; [done..|]. by f_equal. Qed.

Lemma length_drop_str n s : String.length (drop_str n s) = (String.length s - n)%nat.
Proof. revert s. induction n; intros [|c s]; simpl; auto. Qed.

Lemma length_bytes s : length (bytes s) = String.length s.
Proof. induction s; simpl; congruence. Qed.

Lemma length_of_bytes l : String.length (of_bytes l) = length l.
Proof. induction l; simpl; congruence. Qed.

Lemma of_bytes_bytes s : of_bytes (bytes s) = s.
Proof. induction s; simpl; congruence. Qed.

Lemma bytes_of_bytes l : bytes (of_bytes l) = l.
Proof. induction l; simpl; congruence. Qed.

Lemma bytes_app s t : bytes (s +:+ t) = bytes s ++ bytes t.
Proof. induction s; simpl; congruence. Qed.

(** A string free of a byte. *)
Fixpoint no_byte (c : ascii) (s : string) : bool :=
  match s with
  | EmptyString => true
  | String d s => if ascii_dec d c then false else no_byte c s
  end.

Lemma split_byte_none s c : no_byte c s = true -> split_byte s c = [s].
Proof.
  induction s as [|d s IH]; simpl; [done|].
  destruct (ascii_dec d c); [done|]. intros Hs. by rewrite IH.
Qed.

Lemma split_byte_app s t c :
  no_byte c s = true -> split_byte (s +:+ String c t) c = s :: split_byte t c.
Proof.
  induction s as [|d s IH]; simpl.
  - by destruct (ascii_dec c c).
  - destruct (ascii_dec d c); [done|]. intros Hs. by rewrite IH.
Qed.

Lemma split_byte_nonempty s c : split_byte s c <> [].
Proof. destruct s as [|d s]; simpl; [done|]. destruct (ascii_dec d c); [done|]. by case_match. Qed.

Lemma no_byte_app c a b : no_byte c (a +:+ b) = no_byte c a && no_byte c b.
Proof. induction a as [|d a IH]; simpl; [done|]. by destruct (ascii_dec d c). Qed.

Lemma no_byte_contains c s : no_byte c s = negb (str_contains s (String c "")).
Proof.
  induction s as [|d s IH]; simpl; [done|].
  destruct (ascii_dec d c), (ascii_dec c d); subst; try done. by destruct s.
Qed.

(** *** Decimal round trip *)

Lemma digit_val_digit d : 0 <= d <= 9 -> digit_val (digit d) = Some d.
Proof.
  intros Hd. unfold digit_val, digit.
  rewrite N_ascii_embedding by lia. rewrite Z2N.id by lia.
  rewrite (proj2 (Z.leb_le 48 _)), (proj2 (Z.leb_le _ 57)) by lia. simpl. f_equal. lia.
Qed.

(** Printing [n] in front of [acc] and parsing it back. *)
Lemma parse_digits_dec_fuel fuel n acc :
  0 <= n < 10 ^ Z.of_nat fuel -> (0 < fuel)%nat ->
  parse_digits (dec_fuel fuel n acc) 0 = parse_digits acc n.
Proof.
  revert n acc. induction fuel as [|fuel IH]; intros n acc Hn Hf; [lia|].
  simpl dec_fuel. rewrite Nat2Z.inj_succ, Z.pow_succ_r in Hn by lia.
  assert (0 <= n mod 10 <= 9) by div_lia.
  destruct (Z.eqb_spec (n / 10) 0) as [H0|H0].
  - simpl. rewrite digit_val_digit by done. f_equal. div_lia.
  - assert (0 < fuel)%nat.
    { destruct fuel; [simpl in Hn; div_lia|lia]. }
    rewrite IH; [|div_lia|done]. simpl. rewrite digit_val_digit by done.
    f_equal. div_lia.
Qed.

Lemma dec_fuel_nonempty fuel n acc :
  exists c s, dec_fuel (S fuel) n acc = String c s /\ exists d, 0 <= d <= 9 /\ c = digit d.
Proof.
  revert n acc. induction fuel as [|fuel IH]; intros n acc.
  - assert (0 <= n mod 10 <= 9) by div_lia. simpl. case_match; eauto 10.
  - assert (0 <= n mod 10 <= 9) by div_lia.
    change (dec_fuel (S (S fuel)) n acc)
      with (if n / 10 =? 0 then String (digit (n mod 10)) acc
            else dec_fuel (S fuel) (n / 10) (String (digit (n mod 10)) acc)).
    case_match; eauto 10.
Qed.

Lemma dec_nonneg_nonempty n : exists c s, dec_nonneg n = String c s /\
  exists d, 0 <= d <= 9 /\ c = digit d.
Proof. apply dec_fuel_nonempty. Qed.

Lemma parse_unsigned_fmt_d n : 0 <= n <= max_int64 -> parse_unsigned (fmt_d n) = Some n.
Proof.
  intros Hn. unfold fmt_d. destruct (Z.ltb_spec n 0); [lia|]. destruct (dec_nonneg_nonempty n) as (c & s & Heq & _).
  rewrite Heq. unfold parse_unsigned. rewrite <- Heq. unfold dec_nonneg. rewrite parse_digits_dec_fuel; [done| |lia].
  unfold max_int64 in Hn. change (Z.of_nat 20) with 20. lia.
Qed.
(** [strconv.Atoi] reads back what [%d] prints. *)
Lemma Atoi_fmt_d n : 0 <= n <= max_int64 -> Atoi (fmt_d n) = Some n.
Proof.
  intros Hn. pose proof (parse_unsigned_fmt_d n Hn) as Hp. unfold fmt_d in *. destruct (Z.ltb_spec n 0); [lia|].
  destruct (dec_nonneg_nonempty n) as (c & s & Heq & d & Hd & ->).
  unfold Atoi. rewrite Heq in *.
  assert (match String (digit d) s with
          | String "-" s' => Z.opp <$> parse_unsigned s'
          | String "+" s' => parse_unsigned s'
          | _ => parse_unsigned (String (digit d) s)
          end = Some n) as ->.
  { assert (d = 0 \/ d = 1 \/ d = 2 \/ d = 3 \/ d = 4 \/ d = 5 \/ d = 6 \/ d = 7 \/ d = 8 \/ d = 9)
      as Hcases by lia.
    repeat destruct Hcases as [->|Hcases]; try exact Hp. subst. exact Hp. }
  by rewrite (proj2 (Z.leb_le min_int64 n)), (proj2 (Z.leb_le n max_int64))
    by (unfold min_int64, max_int64 in *; lia).
Qed.

Lemma no_byte_dec_nonneg c n :
  (forall d, 0 <= d <= 9 -> digit d <> c) -> no_byte c (dec_nonneg n) = true.
Proof.
  intros Hc. unfold dec_nonneg. generalize 20%nat. intros fuel.
  assert (forall acc, no_byte c acc = true -> no_byte c (dec_fuel fuel n acc) = true) as Hf;
    [|by apply Hf].
  revert n. induction fuel as [|fuel IH]; intros n acc Ha; simpl; [done|].
  assert (0 <= n mod 10 <= 9) by div_lia.
  assert (no_byte c (String (digit (n mod 10)) acc) = true).
  { simpl. destruct (ascii_dec _ _) as [He|]; [|done]. by apply Hc in He. }
  by destruct (n / 10 =? 0); [|apply IH].
Qed.

(** The parts of a split hold no separator, and no byte that the whole lacks. *)
Lemma split_byte_parts s c : Forall (fun p => no_byte c p = true) (split_byte s c).
Proof.
  induction s as [|d s IH]; simpl; [by constructor|].
  destruct (ascii_dec d c) as [|Hd]; [by constructor|].
  destruct (split_byte s c) as [|p ps]; [constructor; [simpl; by destruct (ascii_dec d c)|done]|].
  inversion IH; subst. constructor; [simpl; by destruct (ascii_dec d c)|done].
Qed.

Lemma split_byte_other s c c' :
  no_byte c' s = true -> Forall (fun p => no_byte c' p = true) (split_byte s c).
Proof.
  induction s as [|d s IH]; simpl; [by constructor|].
  destruct (ascii_dec d c') as [|Hd']; [done|]. intros Hs. specialize (IH Hs).
  destruct (ascii_dec d c) as [|Hd]; [by constructor|].
  destruct (split_byte s c) as [|p ps]; [constructor; [simpl; by destruct (ascii_dec d c')|done]|].
  inversion IH; subst. constructor; [simpl; by destruct (ascii_dec d c')|done].
Qed.

(** ** [time.Duration.String] *)

(** [fmtFrac]: the fraction [v / 10^prec] without trailing zeros, and [v] with
    the fraction dropped. *)
Fixpoint fmtFrac (prec : nat) (v : Z) (print : bool) (acc : string) : string * Z :=
  match prec with
  | O => (if print then String "." acc else acc, v)
  | S prec =>
      let print := print || negb (v mod 10 =? 0) in
      fmtFrac prec (v / 10) print (if print then String (digit (v mod 10)) acc else acc)
  end.

Definition dur_string (d : Z) : string :=
  let u := Z.abs d in
  let text :=
    if u =? 0 then "0s"
    else if u <? 10 ^ 3 then dec_nonneg u +:+ "ns"
    else if u <? 10 ^ 6 then let '(f, u) := fmtFrac 3 u false "" in dec_nonneg u +:+ f +:+ "µs"
    else if u <? 10 ^ 9 then let '(f, u) := fmtFrac 6 u false "" in dec_nonneg u +:+ f +:+ "ms"
    else
      let '(f, u) := fmtFrac 9 u false "" in
      let secs := dec_nonneg (u mod 60) +:+ f +:+ "s" in
      let u := u / 60 in
      if u =? 0 then secs
      else
        let mins := dec_nonneg (u mod 60) +:+ "m" +:+ secs in
        let u := u / 60 in
        if u =? 0 then mins else dec_nonneg u +:+ "h" +:+ mins in
  if d <? 0 then String "-" text else text.

Example dur_string_ex :
  map dur_string [0; 999; 1500; 2000000; 1500000000; 90000000000; 86400000000000; -1]
  = ["0s"; "999ns"; "1.5µs"; "2ms"; "1.5s"; "1m30s"; "24h0m0s"; "-1ns"].
Proof. reflexivity. Qed.

(** ** [strconv.Quote] ([%q])

    ASCII escapes; bytes from 128 on are taken for printable text. *)
Definition dquote : ascii := ascii_of_N 34.
Definition hex_digit (d : N) : ascii := ascii_of_N (if (d <? 10)%N then 48 + d else 87 + d)%N.
Definition quote_byte (c : ascii) (rest : string) : string :=
  let n := N_of_ascii c in
  match n with
  | 7 => "\a" +:+ rest | 8 => "\b" +:+ rest | 9 => "\t" +:+ rest | 10 => "\n" +:+ rest
  | 11 => "\v" +:+ rest | 12 => "\f" +:+ rest | 13 => "\r" +:+ rest
  | 34 => String "\" (String dquote rest) | 92 => "\\" +:+ rest
  | _ => if ((n <? 32) || (n =? 127))%N
         then "\x" +:+ String (hex_digit (n / 16)%N) (String (hex_digit (n mod 16)%N) rest)
         else String c rest
  end%N.
Fixpoint quote_body (s : string) (tail : string) : string :=
  match s with EmptyString => tail | String c s => quote_byte c (quote_body s tail) end.
Definition quote (s : string) : string := String dquote (quote_body s (String dquote "")).

Example quote_ex : String.length (quote "a
b") = 6%nat.
Proof. reflexivity. Qed.

(** ** [strings.ReplaceAll], one step at a time *)

Lemma replace_all_fuel_enough f f' s old new :
  (0 < String.length old)%nat -> (String.length s < f)%nat -> (String.length s < f')%nat ->
  replace_all_fuel f s old new = replace_all_fuel f' s old new.
Proof.
  intros Ho. revert f' s. induction f as [|f IH]; intros [|f'] s Hf Hf'; try lia.
  destruct s as [|c s]; [done|]. cbn [replace_all_fuel].
  pose proof (length_drop_str (String.length old) (String c s)) as Hl. cbn [String.length] in *.
  destruct (has_prefix (String c s) old).
  - f_equal. apply IH; lia.
  - f_equal. apply IH; lia.
Qed.

Lemma replace_all_cons c s old new :
  (0 < String.length old)%nat ->
  replace_all (String c s) old new =
    if has_prefix (String c s) old
    then new +:+ replace_all (drop_str (String.length old) (String c s)) old new
    else String c (replace_all s old new).
Proof.
  intros Ho. unfold replace_all at 1. change (String.length (String c s)) with (S (String.length s)).
  assert (S (String.length s) > String.length s)%nat as Hf by lia.
  revert Hf. generalize (S (String.length s)) at 1 2. intros f Hf. cbn [replace_all_fuel].
  pose proof (length_drop_str (String.length old) (String c s)) as Hl. cbn [String.length] in Hl.
  destruct (has_prefix (String c s) old); f_equal; unfold replace_all;
    apply replace_all_fuel_enough; lia.
Qed.

Lemma drop_str_app p s : drop_str (String.length p) (p +:+ s) = s.
Proof. induction p as [|c p IH]; simpl; [by destruct s|done]. Qed.

Lemma has_prefix_app p s : has_prefix (p +:+ s) p = true.
Proof. apply has_prefix_spec. by eexists. Qed.

(** A prefix without the first byte of the pattern is copied. *)
Lemma replace_all_skip c old s t new :
  no_byte c s = true ->
  replace_all (s +:+ t) (String c old) new = s +:+ replace_all t (String c old) new.
Proof.
  induction s as [|d s IH]; [done|]. simpl no_byte. destruct (ascii_dec d c) as [|Hd]; [done|].
  intros Hs. change (String d s +:+ t) with (String d (s +:+ t)).
  rewrite replace_all_cons by (simpl; lia).
  assert (has_prefix (String d (s +:+ t)) (String c old) = false) as ->.
  { apply not_true_iff_false. rewrite has_prefix_spec. intros [r [= ? _]]. congruence. }
  by rewrite IH.
Qed.

(** An occurrence at the front is replaced. *)
Lemma replace_all_hit old t new :
  (0 < String.length old)%nat -> replace_all (old +:+ t) old new = new +:+ replace_all t old new.
Proof.
  intros Ho. destruct old as [|c old]; [simpl in Ho; lia|].
  change (String c old +:+ t) with (String c (old +:+ t)). rewrite replace_all_cons by done.
  change (String c (old +:+ t)) with (String c old +:+ t).
  by rewrite has_prefix_app, drop_str_app.
Qed.

Lemma append_inj_sep c a b a' b' :
  no_byte c a = true -> no_byte c a' = true ->
  a +:+ String c b = a' +:+ String c b' -> a = a' /\ b = b'.
Proof.
  revert a'. induction a as [|x a IH]; intros [|x' a'] Ha Ha' H; simpl in *.
  - by injection H.
  - injection H as <- H. by destruct (ascii_dec c c).
  - injection H as -> H. by destruct (ascii_dec c c).
  - destruct (ascii_dec x c); [done|]. destruct (ascii_dec x' c); [done|].
    injection H as -> H. destruct (IH a' Ha Ha' H) as [-> ->]. done.
Qed.
