(* ===== verification/Config.v ===== *)
(** * Configuration ([types.go], [presets.go], [profiles.go], the overlay of [New])

    The [Config] record, the presets, and the two ways of overlaying a partial
    [Config] on a preset: [ResolveConfig], and the shorter overlay that [New]
    repeats in [antiban.go]. *)
From S2P Require Import Prelude GoTime GoFloat GoStrings.

(** The string type [Preset]: the four constants and any other string. *)
Inductive Preset : Type :=
| PresetConservative
| PresetModerate
| PresetAggressive
| PresetHighVolume
| PresetOther (name : string).

Record Config : Type := mkConfig {
  cfgPreset : Preset;
  MaxPerMinute : Z;
  MaxPerHour : Z;
  MaxPerDay : Z;
  MinDelayMs : Z;
  MaxDelayMs : Z;
  NewChatDelayMs : Z;
  MaxIdenticalMessages : Z;
  BurstAllowance : Z;
  WarmUpDays : Z;
  InitialDailyLimit : Z;
  WarmUpInactivityTD : Duration;
  AutoPauseRiskLevel : Z;
  HealthDecayNormal : Duration;
  HealthDecaySevere : Duration;
  TimelockBlockDuration : Duration;
  ReconnectRampDuration : Duration;
  ReconnectInitialRate : float64;
  GroupLurkPeriod : Duration;
  MaxStrangerPerDay : Z;
  HandshakeCooldown : Duration;
  KnownCooldown : Duration;
  ActiveHourStart : Z;
  ActiveHourEnd : Z;
  WeekendFactor : float64;
  PeakHourStart : Z;
  PeakHourEnd : Z;
  PeakBoost : float64;
  CircuitBreakerThreshold : Z;
  CircuitBreakerCooldown : Duration;
  MaxGroupAddsPer10m : Z;
  MaxGroupRemovesPer10m : Z;
  MaxGroupCreatesPer10m : Z;
  MaxGroupInvitesPer10m : Z;
  EnableTypoInjection : bool;
  TypoProbability : float64;
  EnableZeroWidth : bool;
  EnableEmojiPadding : bool;
  EnablePunctuationVary : bool;
  DeliveryWindowSize : Z;
  DeliveryMinSamples : Z;
  DeliveryLowThreshold : float64;
  ReplyRatioMin : float64;
  ReplyCooldownHours : Z;
  CircadianRhythm : string;
  EnablePresence : bool;
  MaxBansBeforeHard : Z;
  RecoveryRampPct : float64;
  InstanceCount : Z
}.
#[export] Instance eta_Config : Eta Config := fun c =>
  mkConfig (cfgPreset c) (MaxPerMinute c) (MaxPerHour c) (MaxPerDay c)
    (MinDelayMs c) (MaxDelayMs c) (NewChatDelayMs c) (MaxIdenticalMessages c)
    (BurstAllowance c) (WarmUpDays c) (InitialDailyLimit c) (WarmUpInactivityTD c)
    (AutoPauseRiskLevel c) (HealthDecayNormal c) (HealthDecaySevere c) (TimelockBlockDuration c)
    (ReconnectRampDuration c) (ReconnectInitialRate c) (GroupLurkPeriod c) (MaxStrangerPerDay c)
    (HandshakeCooldown c) (KnownCooldown c) (ActiveHourStart c) (ActiveHourEnd c)
    (WeekendFactor c) (PeakHourStart c) (PeakHourEnd c) (PeakBoost c)
    (CircuitBreakerThreshold c) (CircuitBreakerCooldown c) (MaxGroupAddsPer10m c) (MaxGroupRemovesPer10m c)
    (MaxGroupCreatesPer10m c) (MaxGroupInvitesPer10m c) (EnableTypoInjection c) (TypoProbability c)
    (EnableZeroWidth c) (EnableEmojiPadding c) (EnablePunctuationVary c) (DeliveryWindowSize c)
    (DeliveryMinSamples c) (DeliveryLowThreshold c) (ReplyRatioMin c) (ReplyCooldownHours c)
    (CircadianRhythm c) (EnablePresence c) (MaxBansBeforeHard c) (RecoveryRampPct c)
    (InstanceCount c).

(** The zero value [Config{}]. *)
Definition zeroConfig : Config :=
  {| cfgPreset := PresetOther ""; MaxPerMinute := 0; MaxPerHour := 0;
     MaxPerDay := 0; MinDelayMs := 0; MaxDelayMs := 0;
     NewChatDelayMs := 0; MaxIdenticalMessages := 0; BurstAllowance := 0;
     WarmUpDays := 0; InitialDailyLimit := 0; WarmUpInactivityTD := 0;
     AutoPauseRiskLevel := 0; HealthDecayNormal := 0; HealthDecaySevere := 0;
     TimelockBlockDuration := 0; ReconnectRampDuration := 0; ReconnectInitialRate := fzero;
     GroupLurkPeriod := 0; MaxStrangerPerDay := 0; HandshakeCooldown := 0;
     KnownCooldown := 0; ActiveHourStart := 0; ActiveHourEnd := 0;
     WeekendFactor := fzero; PeakHourStart := 0; PeakHourEnd := 0;
     PeakBoost := fzero; CircuitBreakerThreshold := 0; CircuitBreakerCooldown := 0;
     MaxGroupAddsPer10m := 0; MaxGroupRemovesPer10m := 0; MaxGroupCreatesPer10m := 0;
     MaxGroupInvitesPer10m := 0; EnableTypoInjection := false; TypoProbability := fzero;
     EnableZeroWidth := false; EnableEmojiPadding := false; EnablePunctuationVary := false;
     DeliveryWindowSize := 0; DeliveryMinSamples := 0; DeliveryLowThreshold := fzero;
     ReplyRatioMin := fzero; ReplyCooldownHours := 0; CircadianRhythm := "";
     EnablePresence := false; MaxBansBeforeHard := 0; RecoveryRampPct := fzero;
     InstanceCount := 0 |}.

Definition applyPreset (c : Config) : Config :=
  match cfgPreset c with
  | PresetConservative => c
      <| MaxPerMinute := 2 |> <| MaxPerHour := 30 |>
      <| MaxPerDay := 150 |> <| MinDelayMs := 3000 |>
      <| MaxDelayMs := 12000 |> <| NewChatDelayMs := 15000 |>
      <| BurstAllowance := 1 |> <| WarmUpDays := 14 |>
      <| InitialDailyLimit := 15 |> <| MaxIdenticalMessages := 3 |>
      <| AutoPauseRiskLevel := 30 |> <| ReconnectInitialRate := fconst 1 1 |>
      <| ReconnectRampDuration := 120 * Second |> <| GroupLurkPeriod := 10 * Minute |>
      <| MaxStrangerPerDay := 5 |> <| CircuitBreakerThreshold := 2 |>
      <| CircuitBreakerCooldown := 30 * Minute |>
  | PresetModerate => c
      <| MaxPerMinute := 5 |> <| MaxPerHour := 60 |>
      <| MaxPerDay := 400 |> <| MinDelayMs := 1500 |>
      <| MaxDelayMs := 8000 |> <| NewChatDelayMs := 10000 |>
      <| BurstAllowance := 2 |> <| WarmUpDays := 10 |>
      <| InitialDailyLimit := 30 |> <| MaxIdenticalMessages := 5 |>
      <| AutoPauseRiskLevel := 50 |> <| ReconnectInitialRate := fconst 25 2 |>
      <| ReconnectRampDuration := 90 * Second |> <| GroupLurkPeriod := 5 * Minute |>
      <| MaxStrangerPerDay := 15 |> <| CircuitBreakerThreshold := 3 |>
      <| CircuitBreakerCooldown := 15 * Minute |>
  | PresetAggressive => c
      <| MaxPerMinute := 12 |> <| MaxPerHour := 120 |>
      <| MaxPerDay := 800 |> <| MinDelayMs := 500 |>
      <| MaxDelayMs := 4000 |> <| NewChatDelayMs := 5000 |>
      <| BurstAllowance := 3 |> <| WarmUpDays := 7 |>
      <| InitialDailyLimit := 50 |> <| MaxIdenticalMessages := 10 |>
      <| AutoPauseRiskLevel := 70 |> <| ReconnectInitialRate := fconst 5 1 |>
      <| ReconnectRampDuration := 60 * Second |> <| GroupLurkPeriod := 2 * Minute |>
      <| MaxStrangerPerDay := 40 |> <| CircuitBreakerThreshold := 5 |>
      <| CircuitBreakerCooldown := 5 * Minute |>
  | PresetHighVolume => c
      <| MaxPerMinute := 30 |> <| MaxPerHour := 300 |>
      <| MaxPerDay := 2000 |> <| MinDelayMs := 200 |>
      <| MaxDelayMs := 2000 |> <| NewChatDelayMs := 2000 |>
      <| BurstAllowance := 5 |> <| WarmUpDays := 5 |>
      <| InitialDailyLimit := 100 |> <| MaxIdenticalMessages := 20 |>
      <| AutoPauseRiskLevel := 85 |> <| ReconnectInitialRate := fconst 7 1 |>
      <| ReconnectRampDuration := 30 * Second |> <| GroupLurkPeriod := 0 |>
      <| MaxStrangerPerDay := 100 |> <| CircuitBreakerThreshold := 10 |>
      <| CircuitBreakerCooldown := 1 * Minute |>
  | PresetOther _ => c
  end.

Definition DefaultConfig (preset : Preset) : Config :=
  let c := zeroConfig
    <| cfgPreset := preset |> <| ActiveHourStart := 8 |>
    <| ActiveHourEnd := 22 |> <| WeekendFactor := fconst 6 1 |>
    <| PeakHourStart := 19 |> <| PeakHourEnd := 22 |>
    <| PeakBoost := fconst 3 1 |> <| TimelockBlockDuration := 30 * Minute |>
    <| WarmUpInactivityTD := 48 * Hour |> <| HealthDecayNormal := 5 * Minute |>
    <| HealthDecaySevere := 2 * Minute |> <| DeliveryWindowSize := 100 |>
    <| DeliveryMinSamples := 10 |> <| DeliveryLowThreshold := fconst 5 1 |>
    <| ReplyRatioMin := fconst 1 1 |> <| ReplyCooldownHours := 48 |>
    <| CircadianRhythm := "office" |> <| EnablePresence := true |>
    <| MaxBansBeforeHard := 3 |> <| RecoveryRampPct := fconst 25 2 |>
    <| InstanceCount := 1 |> <| MaxGroupAddsPer10m := 3 |>
    <| MaxGroupRemovesPer10m := 5 |> <| MaxGroupCreatesPer10m := 2 |>
    <| MaxGroupInvitesPer10m := 10 |> <| EnableTypoInjection := false |>
    <| TypoProbability := fconst 25 3 |> in
  applyPreset c.

(** ** Overlays *)

Definition zpos (z : Z) : bool := 0 <? z.
Definition fpos (f : float64) : bool := fgtb f fzero.

(** [if o.F > 0 { cfg.F = o.F }], and [if o.F { cfg.F = true }] for a flag:
    the field takes the override's value when the test holds and keeps its own
    otherwise. *)
Definition ovr {T : Type} (p : Config -> T) `{!FieldOf p} (test : T -> bool) (o c : Config) : Config :=
  c <| p := if test (p o) then p o else p c |>.

(** The optional override is the head of the variadic argument. *)
Definition ResolveConfig (preset : Preset) (overrides : list Config) : Config :=
  let cfg := DefaultConfig preset in
  match overrides with
  | [] => cfg
  | o :: _ =>
    let cfg := applyPreset (cfg <| cfgPreset := preset |>) in
    let cfg := ovr MaxPerMinute zpos o cfg in
    let cfg := ovr MaxPerHour zpos o cfg in
    let cfg := ovr MaxPerDay zpos o cfg in
    let cfg := ovr MinDelayMs zpos o cfg in
    let cfg := ovr MaxDelayMs zpos o cfg in
    let cfg := ovr NewChatDelayMs zpos o cfg in
    let cfg := ovr WarmUpDays zpos o cfg in
    let cfg := ovr InitialDailyLimit zpos o cfg in
    let cfg := ovr MaxIdenticalMessages zpos o cfg in
    let cfg := ovr BurstAllowance zpos o cfg in
    let cfg := ovr AutoPauseRiskLevel zpos o cfg in
    let cfg := ovr ReconnectRampDuration zpos o cfg in
    let cfg := ovr ReconnectInitialRate fpos o cfg in
    let cfg := ovr GroupLurkPeriod zpos o cfg in
    let cfg := ovr MaxStrangerPerDay zpos o cfg in
    let cfg := ovr ActiveHourStart zpos o cfg in
    let cfg := ovr ActiveHourEnd zpos o cfg in
    let cfg := ovr CircuitBreakerThreshold zpos o cfg in
    let cfg := ovr CircuitBreakerCooldown zpos o cfg in
    let cfg := ovr EnableTypoInjection id o cfg in
    let cfg := ovr TypoProbability fpos o cfg in
    let cfg := ovr EnableZeroWidth id o cfg in
    let cfg := ovr EnableEmojiPadding id o cfg in
    cfg
  end.

(** The configuration [New] builds: the same idea, for seven fields. *)
Definition NewConfig (preset : Preset) (overrides : list Config) : Config :=
  let cfg := DefaultConfig preset in
  match overrides with
  | [] => cfg
  | o :: _ =>
    let cfg := applyPreset (cfg <| cfgPreset := preset |>) in
    let cfg := ovr MaxPerMinute zpos o cfg in
    let cfg := ovr MaxPerHour zpos o cfg in
    let cfg := ovr MaxPerDay zpos o cfg in
    let cfg := ovr MinDelayMs zpos o cfg in
    let cfg := ovr MaxDelayMs zpos o cfg in
    let cfg := ovr NewChatDelayMs zpos o cfg in
    let cfg := ovr WarmUpDays zpos o cfg in
    cfg
  end.

(** ** Enumerations of [types.go] *)

Inductive ContactState :=
| ContactStranger | ContactHandshakeSent | ContactHandshakeComplete | ContactKnown.
#[export] Instance ContactState_dec : EqDecision ContactState.
Proof. solve_decision. Defined.

Inductive RiskLevel := RiskLow | RiskMedium | RiskHigh | RiskCritical.
#[export] Instance RiskLevel_dec : EqDecision RiskLevel.
Proof. solve_decision. Defined.

(** [BanNone] is the empty string [ClassifyError] returns for a nil error. *)
Inductive BanType := BanNone | BanTimelock | BanRateOverlimit | BanSoft | BanHard.
#[export] Instance BanType_dec : EqDecision BanType.
Proof. solve_decision. Defined.

Inductive RecoveryPhase :=
| PhasePaused | PhaseRecovering | PhaseRamping | PhaseGraduated | PhaseDead.
#[export] Instance RecoveryPhase_dec : EqDecision RecoveryPhase.
Proof. solve_decision. Defined.

(** ** [profiles.go] *)

Definition IsGroup (jid : string) : bool := str_contains jid "@g.us".
Definition IsNewsletter (jid : string) : bool := str_contains jid "@newsletter".
Definition IsBroadcast (jid : string) : bool := str_contains jid "@broadcast".
Definition ShouldUseGroupProfile (jid : string) : bool := IsGroup jid || IsNewsletter jid.

(** The generic [ApplyGroupMultiplier[T int | float64]]: one case per type. *)
Definition ApplyGroupMultiplier (val : Z + float64) (multiplier : float64) : Z + float64 :=
  match val with
  | inl v => inl (to_int (fmul (of_int v) multiplier))
  | inr v => inr (fmul v multiplier)
  end.

(** ** Properties *)

Lemma applyPreset_same_preset preset :
  applyPreset ((DefaultConfig preset) <| cfgPreset := preset |>) = DefaultConfig preset.
Proof. destruct preset; vm_compute; reflexivity. Qed.

(** Overlaying a resolved configuration on the same preset changes nothing:
    an override that is kept is kept again, and a default is its own override. *)
Theorem ResolveConfig_idempotent preset o :
  ResolveConfig preset [ResolveConfig preset [o]] = ResolveConfig preset [o].
Proof.
  unfold ResolveConfig. rewrite applyPreset_same_preset. generalize (DefaultConfig preset).
  intros c. destruct o, c. cbv -[zpos fpos]. f_equal; repeat case_match; congruence.
Qed.

(** The configuration [New] builds never enables a content variation, whatever
    the override asks for: its overlay has no line for the four flags. *)
Lemma NewConfig_flags preset overrides :
  EnableTypoInjection (NewConfig preset overrides) = false /\
  EnableZeroWidth (NewConfig preset overrides) = false /\
  EnableEmojiPadding (NewConfig preset overrides) = false /\
  EnablePunctuationVary (NewConfig preset overrides) = false.
Proof.
  set (flags c := [EnableTypoInjection c; EnableZeroWidth c; EnableEmojiPadding c;
                   EnablePunctuationVary c]).
  assert (flags (DefaultConfig preset) = [false; false; false; false]) as Hd
    by (destruct preset; vm_compute; reflexivity).
  assert (flags (NewConfig preset overrides) = [false; false; false; false]) as Hn.
  { unfold NewConfig. rewrite applyPreset_same_preset. destruct overrides as [|o os]; [done|].
    revert Hd. generalize (DefaultConfig preset). intros c.
    destruct o, c. cbv -[zpos]. done. }
  unfold flags in Hn. by injection Hn.
Qed.

(** The fields the components rely on, in any configuration [New] builds. *)
Definition sane (c : Config) : Prop :=
  0 <= MaxPerMinute c /\ 0 <= MaxPerHour c /\ 0 <= MaxPerDay c /\
  0 <= BurstAllowance c /\ 0 <= MinDelayMs c /\ 0 <= MaxDelayMs c.

Lemma zpos_nonneg (a b : Z) : 0 <= b -> 0 <= (if zpos a then a else b).
Proof. unfold zpos. destruct (Z.ltb_spec 0 a); lia. Qed.

Lemma DefaultConfig_sane preset : sane (DefaultConfig preset).
Proof. destruct preset; vm_compute; repeat split; congruence. Qed.

Lemma NewConfig_sane preset overrides : sane (NewConfig preset overrides).
Proof.
  unfold NewConfig. rewrite applyPreset_same_preset.
  pose proof (DefaultConfig_sane preset) as Hs. destruct overrides as [|o os]; [done|].
  revert Hs. generalize (DefaultConfig preset). intros c. unfold sane.
  destruct o, c. cbv -[zpos Z.le]. intros (?&?&?&?&?&?).
  repeat split; try done; by apply zpos_nonneg.
Qed.
