(* ===== verification/RateLimiter.v ===== *)
(** * [rate_limiter.go]

    [RateLimiter] keeps three slices of send times, pruned at every check, a
    burst credit, the chats it has sent to and a count per content hash.  The
    configuration is shared with the other components: operations take it as
    an argument, and [AdaptLimits], which writes to it, returns it. *)
From S2P Require Import Prelude Window GoTime GoFloat GoStrings Config.

Record RateLimiter : Type := mkRateLimiter {
  perMinute : list Time;
  perHour : list Time;
  perDay : list Time;
  burstCredit : Z;
  knownChats : gmap string bool;
  identicalCount : gmap string Z;
  identicalTime : gmap string Time;
  sent : Z
}.
#[export] Instance eta_RateLimiter : Eta RateLimiter := fun r =>
  mkRateLimiter (perMinute r) (perHour r) (perDay r) (burstCredit r) (knownChats r)
    (identicalCount r) (identicalTime r) (sent r).

Definition NewRateLimiter : RateLimiter := mkRateLimiter [] [] [] 0 ∅ ∅ ∅ 0.

(** [prune(&slice, cutoff)] *)
Definition prune (slice : list Time) (cutoff : Time) : list Time :=
  compact (fun t => After t cutoff) slice.

(** ** Sending *)

Definition canSend (cfg : Config) (now : Time) (rl : RateLimiter) : bool * RateLimiter :=
  let cutoffMin := Add now (- 1 * Minute) in
  let cutoffHour := Add now (- 1 * Hour) in
  let cutoffDay := Add now (- 24 * Hour) in
  let rl := rl <| perMinute := prune (perMinute rl) cutoffMin |> in
  let rl := rl <| perHour := prune (perHour rl) cutoffHour |> in
  let rl := rl <| perDay := prune (perDay rl) cutoffDay |> in
  if Z.of_nat (length (perDay rl)) >=? MaxPerDay cfg then (false, rl)
  else if Z.of_nat (length (perHour rl)) >=? MaxPerHour cfg then (false, rl)
  else if Z.of_nat (length (perMinute rl)) >=? MaxPerMinute cfg then
    if burstCredit rl <? BurstAllowance cfg
    then (true, rl <| burstCredit := burstCredit rl + 1 |>)
    else (false, rl)
  else (true, rl).

Definition CanSend := canSend.

Definition Record_ (now : Time) (chatID : string) (rl : RateLimiter) : RateLimiter :=
  rl <| perMinute := perMinute rl ++ [now] |>
     <| perHour := perHour rl ++ [now] |>
     <| perDay := perDay rl ++ [now] |>
     <| knownChats := <[chatID := true]> (knownChats rl) |>
     <| sent := sent rl + 1 |>.

(** ** Delays

    [math.Log], [math.Cos] and SHA-256 are arguments: the theorems hold for
    any of them, under the stated hypothesis where one is needed. *)
Section Delay.
Variable log cos : float64 -> float64.
(** [fmt.Sprintf("%x", sha256.Sum256(msg)[:8])] *)
Variable sha256_8_hex : string -> string.

(** The constant [2*math.Pi]. *)
Definition pi2 : float64 := S754_finite false 7074237752028440 (-50).

(** [u1] and [u2] are the two [rand.Float64()] draws. *)
Definition gaussianJitter (u1 u2 mean stdDev : float64) : float64 :=
  let z := fmul (fsqrt (fmul (of_int (-2)) (log u1))) (cos (fmul pi2 u2)) in
  fadd mean (fmul z stdDev).

Definition contentHash (msg : string) : string := sha256_8_hex msg.

(** The base delay and its clamping, [rate_limiter.go] lines 62-74. *)
Definition baseDelay (cfg : Config) (rl : RateLimiter) (chatID : string) : float64 :=
  match knownChats rl !! chatID with
  | Some _ => of_int (MinDelayMs cfg)
  | None => of_int (NewChatDelayMs cfg)
  end.

Definition clampDelay (cfg : Config) (delayMs : float64) : float64 :=
  let delayMs :=
    if fltb delayMs (of_int (MinDelayMs cfg)) then of_int (MinDelayMs cfg) else delayMs in
  if fgtb delayMs (of_int (MaxDelayMs cfg)) then of_int (MaxDelayMs cfg) else delayMs.

(** [content] is [None] for a nil slice. *)
Definition GetDelay (cfg : Config) (now : Time) (u1 u2 : float64) (chatID : string)
    (content : option string) (rl : RateLimiter) : Duration * RateLimiter :=
  let baseDelayMs := baseDelay cfg rl chatID in
  let delayMs := gaussianJitter u1 u2 baseDelayMs (fmul baseDelayMs (fconst 3 1)) in
  let delayMs := clampDelay cfg delayMs in
  let '(delayMs, rl) :=
    match content with
    | None => (delayMs, rl)
    | Some msg =>
        let hash := contentHash msg in
        let n := default 0 (identicalCount rl !! hash) + 1 in
        let rl := rl <| identicalCount := <[hash := n]> (identicalCount rl) |>
                     <| identicalTime := <[hash := now]> (identicalTime rl) |> in
        (if n >? MaxIdenticalMessages cfg then fmul delayMs (of_int 2) else delayMs, rl)
    end in
  (dur_mul (to_int delayMs) Millisecond, rl).
End Delay.

(** ** Limits *)

Definition clampFactor (factor : float64) : float64 :=
  let factor := if fltb factor (fconst 1 1) then fconst 1 1 else factor in
  if fgtb factor fone then fone else factor.

(** Writes to the shared configuration. *)
Definition AdaptLimits (factor : float64) (cfg : Config) : Config :=
  let factor := clampFactor factor in
  cfg <| MaxPerMinute := to_int (fmul (of_int (MaxPerMinute cfg)) factor) |>
      <| MaxPerHour := to_int (fmul (of_int (MaxPerHour cfg)) factor) |>
      <| MaxPerDay := to_int (fmul (of_int (MaxPerDay cfg)) factor) |>
      <| MinDelayMs := to_int (fdiv (of_int (MinDelayMs cfg)) factor) |>
      <| MaxDelayMs := to_int (fdiv (of_int (MaxDelayMs cfg)) factor) |>.

(** ** Monitoring and persistence *)

Definition GetStats (rl : RateLimiter) : gmap string Any :=
  list_to_map [("sent", AInt64 (sent rl));
               ("known_chats", AInt (Z.of_nat (size (knownChats rl))));
               ("per_minute", AInt (Z.of_nat (length (perMinute rl))));
               ("per_hour", AInt (Z.of_nat (length (perHour rl))));
               ("per_day", AInt (Z.of_nat (length (perDay rl))));
               ("burst_credit", AInt (burstCredit rl))].

Definition GetKnownChats (rl : RateLimiter) : gmap string bool :=
  map_fold (fun k v chats => <[k := v]> chats) ∅ (knownChats rl).

Definition RestoreKnownChats (chats : gmap string bool) (rl : RateLimiter) : RateLimiter :=
  rl <| knownChats := map_fold (fun k v m => <[k := v]> m) (knownChats rl) chats |>.

(** * Properties *)

(** ** The limits only shrink *)

Lemma clampFactor_range factor :
  is_float64 factor = true -> is_nan factor = false ->
  is_float64 (clampFactor factor) = true /\ fleb fzero (clampFactor factor) = true /\
  fleb (clampFactor factor) fone = true.
Proof.
  intros Hv Hn. unfold clampFactor.
  destruct (fltb factor (fconst 1 1)) eqn:Hlt.
  { split_and!; vm_compute; reflexivity. }
  destruct (fgtb factor fone) eqn:Hgt.
  { split_and!; vm_compute; reflexivity. }
  split; [done|]. unfold fgtb in Hgt.
  split; [|by apply fltb_false_fleb].
  rewrite fconst_tenth in Hlt. by destruct factor as [[]|[]| |[] m e].
Qed.

(** The limits of a configuration, bounded by those of another. *)
Definition limits_le (c c0 : Config) : Prop :=
  0 <= MaxPerMinute c <= MaxPerMinute c0 /\ 0 <= MaxPerHour c <= MaxPerHour c0 /\
  0 <= MaxPerDay c <= MaxPerDay c0 /\ BurstAllowance c = BurstAllowance c0.

(** The send limits fit the integers a [float64] represents exactly. *)
Definition representable (c : Config) : Prop :=
  0 <= MaxPerMinute c < 2 ^ 53 /\ 0 <= MaxPerHour c < 2 ^ 53 /\ 0 <= MaxPerDay c < 2 ^ 53.

Lemma AdaptLimits_le factor cfg :
  is_float64 factor = true -> is_nan factor = false -> representable cfg ->
  limits_le (AdaptLimits factor cfg) cfg.
Proof.
  intros Hv Hn (Hm & Hh & Hd).
  destruct (clampFactor_range factor Hv Hn) as (Hv' & Hlo & Hhi).
  repeat split; try (by apply scale_le); cbn; by apply scale_le.
Qed.

Lemma limits_le_refl c : representable c -> limits_le c c.
Proof. intros (?&?&?). split_and!; lia. Qed.

Lemma limits_le_trans c1 c2 c3 : limits_le c1 c2 -> limits_le c2 c3 -> limits_le c1 c3.
Proof. intros (?&?&?&?) (?&?&?&?). split_and!; congruence || lia. Qed.

Lemma limits_le_representable c c0 : limits_le c c0 -> representable c0 -> representable c.
Proof. intros (?&?&?&?) (?&?&?). split_and!; lia. Qed.

(** ** Sequences of checks, sends and limit changes *)

(** The limiter with its shared configuration, the history [hist] of recorded
    send times (newest first), the last clock reading, and whether the last
    check allowed a send that is not recorded yet. *)
Record run_state : Type := RunState {
  rs_rl : RateLimiter;
  rs_cfg : Config;
  rs_hist : list Time;
  rs_last : Time;
  rs_permit : bool
}.

(** What the orchestrator does with the limiter: a check, the [Record] of a
    send that the last check allowed, a scaling of the limits.  The clock does
    not go back. *)
Inductive run_step : relation run_state :=
| step_check rl cfg hist last permit now ok rl' :
    last <= now -> canSend cfg now rl = (ok, rl') ->
    run_step (RunState rl cfg hist last permit) (RunState rl' cfg hist now ok)
| step_record rl cfg hist last now chatID :
    last <= now ->
    run_step (RunState rl cfg hist last true)
             (RunState (Record_ now chatID rl) cfg (now :: hist) now false)
| step_adapt rl cfg hist last permit factor :
    is_float64 factor = true -> is_nan factor = false ->
    run_step (RunState rl cfg hist last permit)
             (RunState rl (AdaptLimits factor cfg) hist last permit).

Definition run_init (cfg : Config) (t0 : Time) : run_state :=
  RunState NewRateLimiter cfg [] t0 false.

(** The invariant of a run that starts from the configuration [c0]. *)
Definition run_inv (c0 : Config) (s : run_state) : Prop :=
  limits_le (rs_cfg s) c0 /\
  tracks Minute (rs_last s) (perMinute (rs_rl s)) (rs_hist s) /\
  tracks Hour (rs_last s) (perHour (rs_rl s)) (rs_hist s) /\
  tracks (24 * Hour) (rs_last s) (perDay (rs_rl s)) (rs_hist s) /\
  rate_ok (MaxPerMinute c0 + burstCredit (rs_rl s)) Minute (rs_hist s) /\
  rate_ok (MaxPerHour c0) Hour (rs_hist s) /\
  rate_ok (MaxPerDay c0) (24 * Hour) (rs_hist s) /\
  0 <= burstCredit (rs_rl s) <= Z.max 0 (BurstAllowance c0) /\
  (rs_permit s = true ->
    Z.of_nat (count_after (rs_last s - Minute) (rs_hist s))
      < MaxPerMinute c0 + burstCredit (rs_rl s) /\
    Z.of_nat (count_after (rs_last s - Hour) (rs_hist s)) < MaxPerHour c0 /\
    Z.of_nat (count_after (rs_last s - 24 * Hour) (rs_hist s)) < MaxPerDay c0) /\
  (forall t, t ∈ rs_hist s -> t <= rs_last s).

Lemma prune_filter slice cutoff : prune slice cutoff = filter (fun x => cutoff < x) slice.
Proof. apply compact_filter. Qed.

Lemma rate_ok_weaken l1 l2 w h : l1 <= l2 -> rate_ok l1 w h -> rate_ok l2 w h.
Proof. intros Hle Hh t h' Hs. etransitivity; [by apply Hh|done]. Qed.

(** Seen from a later clock, the last recorded window bounds the current one. *)
Lemma rate_ok_count_after limit w last now h :
  0 <= limit -> rate_ok limit w h -> (forall t, t ∈ h -> t <= last) -> last <= now ->
  Z.of_nat (count_after (now - w) h) <= limit.
Proof.
  intros Hl Hh Hlast Hnow. destruct h as [|t h]; [done|].
  etransitivity; [|by apply (Hh t h)].
  pose proof (Hlast t ltac:(by left)). apply inj_le, count_after_mono. lia.
Qed.

(** The four outcomes of a check, in terms of the history. *)
Lemma canSend_spec cfg now rl ok rl' h last :
  last <= now -> canSend cfg now rl = (ok, rl') ->
  tracks Minute last (perMinute rl) h -> tracks Hour last (perHour rl) h ->
  tracks (24 * Hour) last (perDay rl) h ->
  tracks Minute now (perMinute rl') h /\ tracks Hour now (perHour rl') h /\
  tracks (24 * Hour) now (perDay rl') h /\
  (burstCredit rl' = burstCredit rl \/
   burstCredit rl' = burstCredit rl + 1 /\ burstCredit rl < BurstAllowance cfg) /\
  (ok = true ->
    Z.of_nat (count_after (now - 24 * Hour) h) < MaxPerDay cfg /\
    Z.of_nat (count_after (now - Hour) h) < MaxPerHour cfg /\
    (Z.of_nat (count_after (now - Minute) h) < MaxPerMinute cfg \/
     burstCredit rl' = burstCredit rl + 1)).
Proof.
  intros Hle Hc Hm Hh Hd. unfold canSend in Hc. cbn in Hc.
  rewrite !prune_filter in Hc. unfold Add in Hc.
  change (now + -1 * Minute) with (now - Minute) in Hc.
  change (now + -1 * Hour) with (now - Hour) in Hc.
  replace (now + -24 * Hour) with (now - 24 * Hour) in Hc by lia.
  rewrite !(tracks_count _ last now _ h) in Hc by done.
  assert (tracks Minute now (perMinute rl') h /\ tracks Hour now (perHour rl') h /\
          tracks (24 * Hour) now (perDay rl') h) as (?&?&?).
  { repeat case_match; simplify_eq; cbn; split_and!; by eapply tracks_prune. }
  split_and!; try done; [|intros ->]; repeat case_match; simplify_eq; bool_to_prop; cbn in *;
    bool_to_prop; auto; split_and!; auto; lia.
Qed.

Lemma run_inv_init c0 t0 : representable c0 -> run_inv c0 (run_init c0 t0).
Proof.
  intros Hr. unfold run_inv; cbn. split_and!; try lia; eauto with antiban; try done.
  - by apply limits_le_refl.
  - intros t Ht. by apply not_elem_of_nil in Ht.
Qed.

Ltac rs_simpl := cbn [rs_rl rs_cfg rs_hist rs_last rs_permit] in *.

Lemma run_inv_check c0 rl cfg hist last permit now ok rl' :
  representable c0 -> last <= now -> canSend cfg now rl = (ok, rl') ->
  run_inv c0 (RunState rl cfg hist last permit) -> run_inv c0 (RunState rl' cfg hist now ok).
Proof.
  intros Hr Hle Hc (Hlim & Hm & Hh & Hd & Rm & Rh & Rd & Hb & Hp & Hlast). rs_simpl.
  destruct (canSend_spec _ _ _ _ _ _ _ Hle Hc Hm Hh Hd) as (Hm' & Hh' & Hd' & Hb' & Hok).
  destruct Hlim as (Lm & Lh & Ld & Lb), Hr as (Hr1 & Hr2 & Hr3).
  assert (burstCredit rl <= burstCredit rl') by lia.
  unfold run_inv; rs_simpl. split_and!; try done; try lia.
  - by eapply rate_ok_weaken; [|exact Rm]; lia.
  - intros Ht. destruct (Hok Ht) as (Cd & Ch & Cm). split_and!; [|lia|lia].
    destruct Cm as [Cm|Cm]; [lia|].
    pose proof (rate_ok_count_after (MaxPerMinute c0 + burstCredit rl) Minute last now hist
                  ltac:(lia) Rm Hlast Hle). lia.
  - intros t Ht. etransitivity; [by apply Hlast|done].
Qed.

Lemma run_inv_record c0 rl cfg hist last now chatID :
  last <= now -> run_inv c0 (RunState rl cfg hist last true) ->
  run_inv c0 (RunState (Record_ now chatID rl) cfg (now :: hist) now false).
Proof.
  intros Hle (Hlim & Hm & Hh & Hd & Rm & Rh & Rd & Hb & Hp & Hlast). rs_simpl.
  destruct (Hp eq_refl) as (Pm & Ph & Pd).
  assert (forall w l, Z.of_nat (count_after (last - w) hist) < l ->
                      Z.of_nat (count_after (now - w) hist) < l) as Hmono.
  { intros w l Hl. eapply Z.le_lt_trans; [|exact Hl]. apply inj_le, count_after_mono. lia. }
  unfold run_inv; rs_simpl. split_and!; try done; try lia;
    try (apply tracks_add; by eapply tracks_later);
    try (apply rate_ok_cons; [done|done|by apply Hmono]).
  all: try (simpl; lia).
  intros t [->|Ht]%elem_of_cons; [done|]. etransitivity; [by apply Hlast|done].
Qed.

Lemma run_inv_preserved c0 : representable c0 -> preserved run_step (run_inv c0).
Proof.
  intros Hr s s' [] Hi.
  - by eapply run_inv_check.
  - by eapply run_inv_record.
  - destruct Hi as (Hlim & Hi). split; [|exact Hi]. cbn in *.
    eapply limits_le_trans; [|exact Hlim]. apply AdaptLimits_le; try done.
    by eapply limits_le_representable.
Qed.

Lemma run_inv_reachable c0 t0 s :
  representable c0 -> rtc run_step (run_init c0 t0) s -> run_inv c0 s.
Proof.
  intros Hr Hs. eapply rtc_preserved; [by apply run_inv_preserved|done|by apply run_inv_init].
Qed.

(** C1. The send limits are respected in every sliding window: in any sequence
    of checks, sends and limit changes that starts from the configuration [c0],
    no interval of 24 hours holds more than [MaxPerDay] recorded sends, no
    interval of one hour more than [MaxPerHour], and no interval of one minute
    more than [MaxPerMinute] plus the burst allowance - wherever the interval
    starts. *)
Theorem send_windows_bounded c0 t0 s :
  representable c0 -> rtc run_step (run_init c0 t0) s ->
  forall a,
    Z.of_nat (count_in a (a + 24 * Hour) (rs_hist s)) <= MaxPerDay c0 /\
    Z.of_nat (count_in a (a + Hour) (rs_hist s)) <= MaxPerHour c0 /\
    Z.of_nat (count_in a (a + Minute) (rs_hist s))
      <= MaxPerMinute c0 + Z.max 0 (BurstAllowance c0).
Proof.
  intros Hr Hs a.
  destruct (run_inv_reachable _ _ _ Hr Hs) as (_ & _ & _ & _ & Rm & Rh & Rd & Hb & _).
  destruct Hr as (?&?&?). split_and!; apply rate_ok_windows; try done; try lia.
  eapply rate_ok_weaken; [|exact Rm]. lia.
Qed.

Definition exampleConfig : Config := zeroConfig
  <| MaxPerMinute := 2 |> <| MaxPerHour := 30 |> <| MaxPerDay := 150 |> <| BurstAllowance := 1 |>.

Lemma exampleConfig_run t0 :
  rtc run_step (run_init exampleConfig t0)
    (RunState (Record_ t0 "a" NewRateLimiter) exampleConfig [t0] t0 false).
Proof.
  eapply rtc_l.
  { eapply (step_check _ _ _ _ _ t0 true NewRateLimiter); [done|reflexivity]. }
  eapply rtc_l; [|apply rtc_refl]. by apply step_record.
Qed.

Lemma send_windows_bounded_witness :
  Z.of_nat (count_in (-1) (-1 + Hour) [0]) <= 30.
Proof.
  refine (proj1 (proj2 (send_windows_bounded exampleConfig 0 _ _ (exampleConfig_run 0) (-1)))).
  vm_compute. repeat split; congruence.
Defined.

Lemma burst_spent_step s s' :
  run_step s s' ->
  BurstAllowance (rs_cfg s) <= burstCredit (rs_rl s) ->
  BurstAllowance (rs_cfg s') <= burstCredit (rs_rl s').
Proof.
  intros [rl cfg hist last permit now ok rl' _ Hc| |]; rs_simpl; try done.
  unfold canSend in Hc. cbn in Hc. intros. repeat case_match; simplify_eq; simpl; bool_to_prop; lia.
Qed.

(** The burst allowance is a one-time budget: once it is spent, no later
    point of the run - however long after - grants a check while the last
    minute already holds [MaxPerMinute] sends. *)
Theorem burst_never_replenished c0 t0 s s' now rl' :
  representable c0 -> rtc run_step (run_init c0 t0) s -> rtc run_step s s' ->
  BurstAllowance (rs_cfg s) <= burstCredit (rs_rl s) ->
  rs_last s' <= now -> canSend (rs_cfg s') now (rs_rl s') = (true, rl') ->
  Z.of_nat (count_after (now - Minute) (rs_hist s')) < MaxPerMinute (rs_cfg s').
Proof.
  intros Hr Hs Hs' Hspent Hnow Hc.
  assert (BurstAllowance (rs_cfg s') <= burstCredit (rs_rl s')) as Hspent'.
  { eapply (rtc_preserved run_step (fun s => BurstAllowance (rs_cfg s) <= burstCredit (rs_rl s)));
      [|exact Hs'|done]. intros ???. by apply burst_spent_step. }
  destruct (run_inv_reachable c0 t0 s' Hr) as (_ & Hm & Hh & Hd & _).
  { by etransitivity. }
  destruct (canSend_spec _ _ _ _ _ _ _ Hnow Hc Hm Hh Hd) as (_ & _ & _ & Hb & Hok).
  destruct (Hok eq_refl) as (_ & _ & [?|Hb']); [done|]. lia.
Qed.

Lemma exampleConfig_burst :
  rtc run_step (run_init (exampleConfig <| MaxPerMinute := 0 |>) 0)
    (RunState (NewRateLimiter <| burstCredit := 1 |>)
              (exampleConfig <| MaxPerMinute := 0 |>) [] 0 true).
Proof.
  eapply rtc_l; [|apply rtc_refl].
  eapply (step_check _ _ _ _ _ 0 true); [done|reflexivity].
Qed.

Lemma exampleConfig_burst2 :
  rtc run_step (run_init exampleConfig 0)
    (RunState (mkRateLimiter [0; 0] [0; 0] [0; 0] 1 {["a" := true]} ∅ ∅ 2)
              exampleConfig [0; 0] 0 true).
Proof.
  assert (Record_ 0 "a" (Record_ 0 "a" NewRateLimiter) =
          mkRateLimiter [0; 0] [0; 0] [0; 0] 0 {["a" := true]} ∅ ∅ 2) as Heq.
  { reflexivity. }
  eapply rtc_l; [eapply (step_check _ _ _ _ _ 0 true NewRateLimiter); [done|reflexivity]|].
  eapply rtc_l; [by apply (step_record _ _ _ _ 0 "a")|].
  eapply rtc_l; [eapply (step_check _ _ _ _ _ 0 true (Record_ 0 "a" NewRateLimiter)); [done|reflexivity]|].
  eapply rtc_l; [by apply (step_record _ _ _ _ 0 "a")|]. rewrite Heq.
  eapply rtc_l; [|apply rtc_refl]. eapply (step_check _ _ _ _ _ 0 true); [done|reflexivity].
Qed.

Lemma burst_never_replenished_witness :
  Z.of_nat (count_after (Hour - Minute) [0; 0]) < 2.
Proof.
  refine (burst_never_replenished exampleConfig 0 _ _ Hour _ _ exampleConfig_burst2
            (rtc_refl _ _) _ _ _).
  - vm_compute. repeat split; congruence.
  - vm_compute. congruence.
  - vm_compute. congruence.
  - vm_compute. reflexivity.
Defined.

(** ** Delays *)

Lemma clampDelay_within cfg j :
  0 <= MinDelayMs cfg <= MaxDelayMs cfg -> MaxDelayMs cfg < 2 ^ 53 ->
  is_float64 j = true -> is_nan j = false ->
  within (MaxDelayMs cfg) (clampDelay cfg j) /\
  MinDelayMs cfg <= to_int (clampDelay cfg j) <= MaxDelayMs cfg.
Proof.
  intros Hmm Hmax Hv Hn. unfold clampDelay.
  set (j' := if fltb j (of_int (MinDelayMs cfg)) then of_int (MinDelayMs cfg) else j).
  destruct (fgtb j' (of_int (MaxDelayMs cfg))) eqn:Hgt.
  { split; [by apply within_of_int; lia|]. rewrite to_int_of_int by lia. lia. }
  subst j'. destruct (fltb j (of_int (MinDelayMs cfg))) eqn:Hlt.
  { split; [by apply within_of_int; lia|]. rewrite to_int_of_int by lia. lia. }
  assert (Hnan : forall k, 0 <= k < 2 ^ 53 -> is_nan (of_int k) = false).
  { intros k Hk. pose proof (within_of_int k k ltac:(lia) ltac:(lia)) as Hw.
    by destruct (of_int k). }
  apply fltb_false_fleb in Hlt; [|done|apply Hnan; lia].
  apply fltb_false_fleb in Hgt; [|apply Hnan; lia|done].
  assert (fleb fzero j = true) as H0.
  { destruct (MinDelayMs cfg) as [|p|p]; [done| |lia].
    destruct (of_int_pos p ltac:(lia)) as (mp & ep & Hof & _). rewrite Hof in Hlt.
    by destruct j as [[]|[]| |[] ? ?]. }
  pose proof (within_fleb (MaxDelayMs cfg) j ltac:(lia) Hv H0 Hgt) as Hw. split; [done|].
  pose proof (within_to_int (MaxDelayMs cfg) _ Hmax Hw) as Hub. split; [|lia].
  destruct j as [s|[]| |[] m e]; try done.
  - destruct (MinDelayMs cfg) as [|p|p]; [done| |lia].
    destruct (of_int_pos p ltac:(lia)) as (mp & ep & Hof & _). by rewrite Hof in Hlt.
  - destruct Hw as [He Hm].
    pose proof (fleb_trunc_lower (MinDelayMs cfg) m e ltac:(lia) Hv Hlt He) as Hlow.
    revert Hub. simpl. case_match; unfold min_int64; lia.
Qed.

Section DelayProperties.
Variable log cos : float64 -> float64.
Variable sha256_8_hex : string -> string.

Lemma GetDelay_ms cfg now u1 u2 chatID content rl :
  exists d, (GetDelay log cos sha256_8_hex cfg now u1 u2 chatID content rl).1
              = dur_mul (to_int d) Millisecond /\
    let c := clampDelay cfg (gaussianJitter log cos u1 u2 (baseDelay cfg rl chatID)
               (fmul (baseDelay cfg rl chatID) (fconst 3 1))) in
    d = if match content with
           | None => false
           | Some msg => default 0 (identicalCount rl !! contentHash sha256_8_hex msg) + 1
                           >? MaxIdenticalMessages cfg
           end then fmul c (of_int 2) else c.
Proof. unfold GetDelay. destruct content as [msg|]; simpl; eexists; split; reflexivity. Qed.

(** The recommended delay is within the configured bounds: for every pair
    of random draws whose jitter is a number, a message that has not exceeded
    the identical-content limit is delayed by at least [MinDelayMs] and at
    most [MaxDelayMs] milliseconds, and a repeated one by at most twice
    [MaxDelayMs]; no conversion or multiplication overflows. *)
Theorem GetDelay_bounds cfg now u1 u2 chatID content rl :
  0 <= MinDelayMs cfg <= MaxDelayMs cfg -> MaxDelayMs cfg < 2 ^ 40 ->
  let base := baseDelay cfg rl chatID in
  let jitter := gaussianJitter log cos u1 u2 base (fmul base (fconst 3 1)) in
  is_float64 jitter = true -> is_nan jitter = false ->
  let d := (GetDelay log cos sha256_8_hex cfg now u1 u2 chatID content rl).1 in
  0 <= d <= 2 * MaxDelayMs cfg * Millisecond /\
  (match content with
   | None => True
   | Some msg => default 0 (identicalCount rl !! contentHash sha256_8_hex msg) + 1
                   <= MaxIdenticalMessages cfg
   end ->
   MinDelayMs cfg * Millisecond <= d <= MaxDelayMs cfg * Millisecond).
Proof.
  intros Hmm Hmax base jitter Hv Hn d.
  destruct (GetDelay_ms cfg now u1 u2 chatID content rl) as (f & Hd & Hf).
  fold base in Hf. fold jitter in Hf. cbv zeta in Hf. fold d in Hd.
  destruct (clampDelay_within cfg jitter Hmm ltac:(lia) Hv Hn) as [Hw Hc].
  assert (0 <= to_int f <= 2 * MaxDelayMs cfg) as Hf2.
  { rewrite Hf. case_match; [apply within_double; [lia|done]|lia]. }
  assert (d = to_int f * Millisecond) as Hd'.
  { rewrite Hd. apply wrap64_id. unfold in_int64, min_int64, max_int64, Millisecond. lia. }
  clearbody d. clear Hd.
  split; [unfold Millisecond in *; lia|]. intros Hid.
  assert (f = clampDelay cfg jitter) as Hfc.
  { rewrite Hf. destruct content; [|done]. case_match; bool_to_prop; [lia|done]. }
  rewrite Hfc in Hd'. unfold Millisecond in *; lia.
Qed.
End DelayProperties.

Lemma GetDelay_bounds_witness :
  0 <= (GetDelay (fun u => fzero) (fun x => fone) id
          (DefaultConfig PresetModerate) 0 (fconst 5 1) (fconst 5 1) "x" (Some "hi")
          NewRateLimiter).1 <= 2 * 8000 * Millisecond.
Proof.
  refine (proj1 (GetDelay_bounds (fun u => fzero) (fun x => fone) id
          (DefaultConfig PresetModerate) 0 (fconst 5 1) (fconst 5 1) "x" (Some "hi")
          NewRateLimiter _ _ _ _)); vm_compute; try split; congruence.
Defined.

(** ** Persistence of the known chats *)

Lemma map_fold_insert_union {A} (m m0 : gmap string A) :
  map_fold (fun k v r => <[k := v]> r) m0 m = m ∪ m0.
Proof.
  apply (map_fold_weak_ind (fun r m => r = m ∪ m0)).
  - by rewrite (left_id_L ∅ (∪)).
  - intros k v m' r Hk ->. by rewrite insert_union_l.
Qed.

Lemma GetKnownChats_eq rl : GetKnownChats rl = knownChats rl.
Proof. unfold GetKnownChats. rewrite map_fold_insert_union. by rewrite (right_id_L ∅ (∪)). Qed.

Lemma RestoreKnownChats_eq chats rl :
  knownChats (RestoreKnownChats chats rl) = chats ∪ knownChats rl.
Proof. unfold RestoreKnownChats. cbn. apply map_fold_insert_union. Qed.
