(* ===== verification/WarmUp.v ===== *)
(** * [warmup.go]

    The daily limit of a young account grows from [InitialDailyLimit] to
    [MaxPerDay] over [WarmUpDays] days of activity. *)
From S2P Require Import Prelude GoTime GoFloat GoStrings Config.

Record WarmUp : Type := mkWarmUp {
  day : Z;
  dailyCount : Z;
  lastSend : Time;
  growthFactor : float64;
  startedAt : Time
}.
#[export] Instance eta_WarmUp : Eta WarmUp := fun w =>
  mkWarmUp (day w) (dailyCount w) (lastSend w) (growthFactor w) (startedAt w).

(** [1.5 + rand.Float64()*0.7] for the draw [u]. *)
Definition drawGrowth (u : float64) : float64 := fadd (fconst 15 1) (fmul u (fconst 7 1)).

(** [lastSend] is the zero time until the first [Record]. *)
Definition NewWarmUp (now : Time) (u : float64) : WarmUp :=
  mkWarmUp 1 0 zeroTime (drawGrowth u) now.

Definition getDailyLimit (cfg : Config) (wu : WarmUp) : Z :=
  if day wu >=? WarmUpDays cfg then MaxPerDay cfg
  else
    let progress := fdiv (of_int (day wu)) (of_int (WarmUpDays cfg)) in
    let target := fadd (fmul (of_int (wrap64 (MaxPerDay cfg - InitialDailyLimit cfg))) progress)
                       (of_int (InitialDailyLimit cfg)) in
    let limit := to_int (fmul target
                   (fadd fone (fmul (fsub (growthFactor wu) (fconst 15 1)) (fconst 1 1)))) in
    if limit >? MaxPerDay cfg then MaxPerDay cfg else limit.

Definition GetDailyLimit := getDailyLimit.

(** The two resets at the head of [CanSend]; [now'] is the second reading of the first. *)
Definition resetInactive (cfg : Config) (now now' : Time) (wu : WarmUp) : WarmUp :=
  if Since now (lastSend wu) >? WarmUpInactivityTD cfg
  then wu <| day := 1 |> <| dailyCount := 0 |> <| startedAt := now' |>
  else wu.

Definition rollDay (loc : Location) (now : Time) (wu : WarmUp) : WarmUp :=
  if negb (Day loc now =? Day loc (startedAt wu)) ||
     negb (YearDay loc now =? YearDay loc (startedAt wu))
  then wu <| day := day wu + 1 |> <| dailyCount := 0 |> <| startedAt := now |>
  else wu.

Definition CanSend (cfg : Config) (loc : Location) (now now' now'' : Time) (wu : WarmUp) : bool * WarmUp :=
  let wu := resetInactive cfg now now' wu in
  let wu := rollDay loc now'' wu in
  let limit := getDailyLimit cfg wu in
  (dailyCount wu <? limit, wu).

Definition Record_ (now : Time) (wu : WarmUp) : WarmUp :=
  wu <| dailyCount := dailyCount wu + 1 |> <| lastSend := now |>.

Definition ExportState (wu : WarmUp) : gmap string Any :=
  list_to_map [("day", AInt (day wu)); ("daily_count", AInt (dailyCount wu));
               ("growth_factor", AFloat (growthFactor wu)); ("started_at", ATime (startedAt wu))].

(** A type assertion that fails leaves the field as it is. *)
Definition ImportState (state : gmap string Any) (wu : WarmUp) : WarmUp :=
  let wu := match state !! "day" with Some (AInt d) => wu <| day := d |> | _ => wu end in
  let wu := match state !! "daily_count" with
            | Some (AInt d) => wu <| dailyCount := d |> | _ => wu end in
  let wu := match state !! "growth_factor" with
            | Some (AFloat g) => wu <| growthFactor := g |> | _ => wu end in
  match state !! "started_at" with Some (ATime t) => wu <| startedAt := t |> | _ => wu end.

Definition GetStatus (cfg : Config) (now : Time) (wu : WarmUp) : gmap string Any :=
  list_to_map [("day", AInt (day wu)); ("total_days", AInt (WarmUpDays cfg));
               ("daily_count", AInt (dailyCount wu));
               ("daily_limit", AInt (getDailyLimit cfg wu));
               ("growth_factor", AFloat (growthFactor wu)); ("started_at", ATime (startedAt wu));
               ("inactive_hours", AFloat (Hours (Since now (lastSend wu))))].

Definition Reset (now : Time) (u : float64) (wu : WarmUp) : WarmUp :=
  wu <| day := 1 |> <| dailyCount := 0 |> <| growthFactor := drawGrowth u |> <| startedAt := now |>.

(** * Properties *)

Lemma getDailyLimit_le cfg wu : getDailyLimit cfg wu <= MaxPerDay cfg.
Proof.
  unfold getDailyLimit. repeat case_match; bool_to_prop; try lia.
Qed.

Lemma getDailyLimit_graduated cfg wu :
  WarmUpDays cfg <= day wu -> getDailyLimit cfg wu = MaxPerDay cfg.
Proof. intros H. unfold getDailyLimit. by rewrite (proj2 (Z.geb_le _ _)) by lia. Qed.

(** One day of sending, in the code's order: a granted check, then [Record]. *)
Inductive wu_step (cfg : Config) (loc : Location) : relation (WarmUp * Time) :=
| wu_send wu last t1 t2 t3 now wu' :
    last <= t1 -> t1 <= t2 -> t2 <= t3 -> t3 <= now ->
    CanSend cfg loc t1 t2 t3 wu = (true, wu') ->
    wu_step cfg loc (wu, last) (Record_ now wu', now)
| wu_blocked wu last t1 t2 t3 wu' :
    last <= t1 -> t1 <= t2 -> t2 <= t3 -> CanSend cfg loc t1 t2 t3 wu = (false, wu') ->
    wu_step cfg loc (wu, last) (wu', t3).

Definition wu_inv (cfg : Config) (wu : WarmUp) : Prop :=
  1 <= day wu /\ 0 <= dailyCount wu /\ (dailyCount wu <= Z.max 0 (MaxPerDay cfg)).

Lemma CanSend_inv cfg loc t1 t2 t3 wu ok wu' :
  CanSend cfg loc t1 t2 t3 wu = (ok, wu') -> wu_inv cfg wu ->
  wu_inv cfg wu' /\ (ok = true -> dailyCount wu' < MaxPerDay cfg) /\
  (dailyCount wu' = 0 \/ dailyCount wu' = dailyCount wu).
Proof.
  unfold CanSend, wu_inv. intros [= <- <-] (Hd & Hc & Hm).
  assert (forall w, (1 <= day w /\ 0 <= dailyCount w /\ dailyCount w <= Z.max 0 (MaxPerDay cfg)) ->
     let w' := rollDay loc t3 w in
     (1 <= day w' /\ 0 <= dailyCount w' /\ dailyCount w' <= Z.max 0 (MaxPerDay cfg)) /\
     (dailyCount w' = 0 \/ dailyCount w' = dailyCount w)) as Hroll.
  { intros w Hw. unfold rollDay. case_match; cbn; split; auto; lia. }
  assert (let w' := resetInactive cfg t1 t2 wu in
     (1 <= day w' /\ 0 <= dailyCount w' /\ dailyCount w' <= Z.max 0 (MaxPerDay cfg)) /\
     (dailyCount w' = 0 \/ dailyCount w' = dailyCount wu)) as [Hr1 Hr2].
  { unfold resetInactive. case_match; cbn; split; auto; lia. }
  destruct (Hroll _ Hr1) as [H1 H2]. split_and!; try tauto.
  - intros Hlt. bool_to_prop.
    pose proof (getDailyLimit_le cfg (rollDay loc t3 (resetInactive cfg t1 t2 wu))). lia.
  - destruct H2 as [H2|H2]; [by left|]. rewrite H2. tauto.
Qed.

(** The warm-up count of a day never exceeds [MaxPerDay], and the day counter
    never drops below 1, along any sequence of checks and of sends that follow
    a granted check. *)
Theorem warmup_count_bounded cfg loc now u s :
  rtc (wu_step cfg loc) (NewWarmUp now u, now) s ->
  1 <= day s.1 /\ 0 <= dailyCount s.1 <= Z.max 0 (MaxPerDay cfg).
Proof.
  intros Hs. assert (wu_inv cfg s.1) as (?&?&?); [|lia].
  eapply (rtc_preserved _ (fun s => wu_inv cfg s.1)); [|exact Hs|].
  - intros x y [wu last t1 t2 t3 t wu' _ _ _ _ Hc|wu last t1 t2 t3 wu' _ _ _ Hc] Hi; simpl in *;
      destruct (CanSend_inv _ _ _ _ _ _ _ _ Hc Hi) as ((?&?&?) & Hok & _);
      unfold wu_inv; cbn; [specialize (Hok eq_refl)|]; lia.
  - unfold wu_inv; cbn. lia.
Qed.

Lemma warmup_count_bounded_witness : 1 <= 1 /\ 0 <= 1 <= 400.
Proof.
  pose (cfg := DefaultConfig PresetModerate).
  refine (warmup_count_bounded cfg 0 (1000 * Hour) fzero
            (Record_ (1000 * Hour) (NewWarmUp (1000 * Hour) fzero), 1000 * Hour) _).
  eapply rtc_l; [|apply rtc_refl].
  eapply (wu_send _ _ _ _ (1000 * Hour) (1000 * Hour) (1000 * Hour)); [done..|]. vm_compute. reflexivity.
Defined.

(** Restoring a saved warm-up does not survive the first check: [lastSend]
    is not part of the exported state, so after importing it into a new
    [WarmUp] the inactivity test compares the clock with the zero time, and the
    first [CanSend] puts the account back to day 1 with a count of 0 (when no
    midnight falls between its readings of the clock). *)
Theorem import_lost_on_first_check cfg loc now0 u saved now now' now'' :
  0 <= WarmUpInactivityTD cfg < max_int64 -> WarmUpInactivityTD cfg < now -> Day loc now'' = Day loc now' -> YearDay loc now'' = YearDay loc now' ->
  let wu := ImportState (ExportState saved) (NewWarmUp now0 u) in
  day wu = day saved /\ dailyCount wu = dailyCount saved /\
  day (CanSend cfg loc now now' now'' wu).2 = 1 /\ dailyCount (CanSend cfg loc now now' now'' wu).2 = 0.
Proof.
  intros Htd Hnow Hday Hyear wu.
  assert (wu = mkWarmUp (day saved) (dailyCount saved) zeroTime (growthFactor saved) (startedAt saved))
    as -> by reflexivity.
  assert (Hsince : (Since now zeroTime >? WarmUpInactivityTD cfg) = true).
  { rewrite Z.gtb_ltb. apply Z.ltb_lt. unfold Since, Sub, clamp64, zeroTime, min_int64, max_int64 in *. lia. }
  split_and!; try done; unfold CanSend, resetInactive; cbn [lastSend]; rewrite Hsince; cbn -[Day YearDay];
    unfold rollDay; cbn -[Day YearDay]; by rewrite Hday, Hyear, !Z.eqb_refl.
Qed.

Lemma import_lost_on_first_check_witness :
  day (CanSend (DefaultConfig PresetModerate) 0 (739616 * 24 * Hour) (739616 * 24 * Hour) (739616 * 24 * Hour)
         (ImportState (ExportState (mkWarmUp 9 120 (739615 * 24 * Hour) (fconst 15 1)
                                             (739616 * 24 * Hour)))
                      (NewWarmUp (739616 * 24 * Hour) fzero))).2 = 1.
Proof.
  refine (proj1 (proj2 (proj2 (import_lost_on_first_check (DefaultConfig PresetModerate) 0
            (739616 * 24 * Hour) fzero
            (mkWarmUp 9 120 (739615 * 24 * Hour) (fconst 15 1) (739616 * 24 * Hour))
            (739616 * 24 * Hour) (739616 * 24 * Hour) (739616 * 24 * Hour) _ _ _ _)))); vm_compute; repeat split; congruence.
Defined.
