(* ===== verification/Health.v ===== *)
(** * [health.go]

    [HealthMonitor] adds a weight to a score at every bad event, lets the score
    decay with time, and triggers a pause when it reaches the configured
    level.  A callback is started in a goroutine when the pause is triggered or
    lifted: every operation returns the list of risk levels it notifies. *)
From S2P Require Import Prelude GoTime GoFloat GoStrings Config.

Record HealthMonitor : Type := mkHealthMonitor {
  score : float64;
  disconnects : Z;
  forbiddenErrors : Z;
  loggedOutErrors : Z;
  failedMessages : Z;
  timelockErrors : Z;
  lastDecay : Time;
  isPaused : bool;
  pauseTriggered : bool;
  onRiskChange : bool  (** whether a callback is registered *)
}.
#[export] Instance eta_HealthMonitor : Eta HealthMonitor := fun h =>
  mkHealthMonitor (score h) (disconnects h) (forbiddenErrors h) (loggedOutErrors h)
    (failedMessages h) (timelockErrors h) (lastDecay h) (isPaused h) (pauseTriggered h)
    (onRiskChange h).

Definition NewHealthMonitor (now : Time) : HealthMonitor :=
  mkHealthMonitor fzero 0 0 0 0 0 now false false false.

Definition OnRiskChange (hm : HealthMonitor) : HealthMonitor := hm <| onRiskChange := true |>.

Definition decay (now : Time) (hm : HealthMonitor) : HealthMonitor :=
  let elapsed := Sub now (lastDecay hm) in
  if elapsed <? Minute then hm
  else
    let hm := hm <| lastDecay := now |> in
    let decayPerMin := if fltb (score hm) (of_int 40) then of_int 5 else of_int 2 in
    let d := fmul decayPerMin (Minutes elapsed) in
    hm <| score := fMax fzero (fsub (score hm) d) |>.

Definition getRiskLevel (hm : HealthMonitor) : RiskLevel :=
  if fgeb (score hm) (of_int 80) then RiskCritical
  else if fgeb (score hm) (of_int 40) then RiskHigh
  else if fgeb (score hm) (of_int 15) then RiskMedium
  else RiskLow.
Definition GetRiskLevel := getRiskLevel.

(** [go hm.onRiskChange(hm.getRiskLevel())] *)
Definition notify (hm : HealthMonitor) : list RiskLevel :=
  if onRiskChange hm then [getRiskLevel hm] else [].

Definition pauseLevel (cfg : Config) : float64 := of_int (AutoPauseRiskLevel cfg).
Definition resumeLevel (cfg : Config) : float64 := fmul (pauseLevel cfg) (fconst 5 1).

Definition checkPause (cfg : Config) (hm : HealthMonitor) : HealthMonitor * list RiskLevel :=
  let '(hm, g1) :=
    if negb (pauseTriggered hm) && fgeb (score hm) (pauseLevel cfg)
    then let hm := hm <| pauseTriggered := true |> <| isPaused := true |> in (hm, notify hm)
    else (hm, []) in
  let '(hm, g2) :=
    if pauseTriggered hm && fltb (score hm) (resumeLevel cfg)
    then let hm := hm <| pauseTriggered := false |> <| isPaused := false |> in (hm, notify hm)
    else (hm, []) in
  (hm, g1 ++ g2).

Definition scoreEvent (cfg : Config) (now : Time) (weight : float64) (hm : HealthMonitor)
  : HealthMonitor * list RiskLevel :=
  let hm := decay now hm in
  let hm := hm <| score := fMin (of_int 100) (fadd (score hm) weight) |> in
  checkPause cfg hm.

Definition RecordDisconnect cfg now (hm : HealthMonitor) :=
  scoreEvent cfg now (of_int 10) (hm <| disconnects := disconnects hm + 1 |>).
Definition RecordReconnect cfg now (hm : HealthMonitor) :=
  scoreEvent cfg now (of_int (-5)) hm.
Definition RecordMessageFailed cfg now (hm : HealthMonitor) :=
  scoreEvent cfg now (of_int 5) (hm <| failedMessages := failedMessages hm + 1 |>).
Definition RecordForbidden cfg now (hm : HealthMonitor) :=
  scoreEvent cfg now (of_int 20) (hm <| forbiddenErrors := forbiddenErrors hm + 1 |>).
Definition RecordLoggedOut cfg now (hm : HealthMonitor) :=
  scoreEvent cfg now (of_int 40) (hm <| loggedOutErrors := loggedOutErrors hm + 1 |>).
Definition RecordReachoutTimelock cfg now (hm : HealthMonitor) :=
  scoreEvent cfg now (of_int 30) (hm <| timelockErrors := timelockErrors hm + 1 |>).

Definition IsPaused (hm : HealthMonitor) : bool := isPaused hm.
Definition SetPaused (paused : bool) (hm : HealthMonitor) : HealthMonitor :=
  hm <| isPaused := paused |>.

Definition risk_string (r : RiskLevel) : string :=
  match r with
  | RiskLow => "low" | RiskMedium => "medium" | RiskHigh => "high" | RiskCritical => "critical"
  end.

Definition GetStatus (hm : HealthMonitor) : gmap string Any :=
  list_to_map [("score", AFloat (score hm)); ("risk_level", AString (risk_string (getRiskLevel hm)));
               ("is_paused", ABool (isPaused hm)); ("disconnects", AInt (disconnects hm));
               ("forbidden_errors", AInt (forbiddenErrors hm));
               ("logged_out", AInt (loggedOutErrors hm));
               ("failed_messages", AInt (failedMessages hm));
               ("timelock_errors", AInt (timelockErrors hm))].

Definition Reset (now : Time) (hm : HealthMonitor) : HealthMonitor :=
  hm <| score := fzero |> <| disconnects := 0 |> <| forbiddenErrors := 0 |>
     <| loggedOutErrors := 0 |> <| failedMessages := 0 |> <| timelockErrors := 0 |>
     <| isPaused := false |> <| pauseTriggered := false |> <| lastDecay := now |>.

(** * Properties *)

(** The events that change a monitor, with the clock reading of each. *)
Inductive health_event : Type :=
| EvDisconnect | EvReconnect | EvMessageFailed | EvForbidden | EvLoggedOut | EvTimelock
| EvSetPaused (b : bool) | EvReset.

Definition apply_event (cfg : Config) (hm : HealthMonitor) (ev : health_event * Time)
  : HealthMonitor :=
  match ev with
  | (EvDisconnect, now) => (RecordDisconnect cfg now hm).1
  | (EvReconnect, now) => (RecordReconnect cfg now hm).1
  | (EvMessageFailed, now) => (RecordMessageFailed cfg now hm).1
  | (EvForbidden, now) => (RecordForbidden cfg now hm).1
  | (EvLoggedOut, now) => (RecordLoggedOut cfg now hm).1
  | (EvTimelock, now) => (RecordReachoutTimelock cfg now hm).1
  | (EvSetPaused b, _) => SetPaused b hm
  | (EvReset, now) => Reset now hm
  end.

Definition run_events (cfg : Config) (hm : HealthMonitor) (evs : list (health_event * Time))
  : HealthMonitor := foldl (apply_event cfg) hm evs.

Lemma checkPause_score cfg hm : score (checkPause cfg hm).1 = score hm.
Proof. unfold checkPause. by repeat case_match; simplify_eq. Qed.

Definition score_ok (hm : HealthMonitor) : Prop := fleb (score hm) (of_int 100) = true.

Lemma score_ok_num hm :
  score_ok hm -> is_nan (score hm) = false /\ is_pinf (score hm) = false.
Proof. unfold score_ok. by destruct (score hm) as [[]|[]| |[] ? ?]. Qed.

Lemma decay_nan now hm :
  is_nan (score hm) = false -> is_pinf (score hm) = false ->
  is_nan (score (decay now hm)) = false.
Proof.
  intros Hn Hp. unfold decay. destruct (Z.ltb_spec (Sub now (lastDecay hm)) Minute); [done|].
  cbn [score upd]. apply fMax_nan; [done|]. apply fsub_nonneg_nan; try done.
  assert (nonneg (Minutes (Sub now (lastDecay hm)))).
  { eapply nonneg_dur_in; [unfold Minute, Second, Millisecond in *; lia|done|reflexivity]. }
  by destruct (fltb _ _); apply nonneg_fmul_pos.
Qed.

Lemma scoreEvent_ok cfg now w hm :
  is_finite w = true -> score_ok hm -> score_ok (scoreEvent cfg now w hm).1.
Proof.
  intros Hw Hok. destruct (score_ok_num _ Hok) as [Hn Hp].
  unfold score_ok, scoreEvent. rewrite checkPause_score. cbn [score upd].
  apply fMin_le; [done|]. apply fadd_nan; [by apply decay_nan|done].
Qed.

(** The health score never exceeds 100 and never becomes a NaN, whatever the
    sequence of events and of clock readings. *)
Theorem health_score_bounded cfg now0 evs :
  let hm := run_events cfg (NewHealthMonitor now0) evs in
  fleb (score hm) (of_int 100) = true /\ is_nan (score hm) = false.
Proof.
  intros hm. assert (score_ok hm) as Hok; [|split; [done|by apply score_ok_num]].
  unfold hm, run_events. assert (score_ok (NewHealthMonitor now0)) as H0 by done.
  revert H0. generalize (NewHealthMonitor now0).
  induction evs as [|[ev now] evs IH]; intros h Hh; [done|]. apply IH.
  destruct ev; simpl; try (by apply scoreEvent_ok); done.
Qed.

(** The two levels do not cross. *)
Definition levels_ok (cfg : Config) : Prop := fleb (resumeLevel cfg) (pauseLevel cfg) = true.

Lemma levels_exclusive cfg hm :
  levels_ok cfg -> fgeb (score hm) (pauseLevel cfg) = true ->
  fltb (score hm) (resumeLevel cfg) = false.
Proof.
  intros Hl Hs. destruct (fltb (score hm) (resumeLevel cfg)) eqn:Hlt; [|done].
  apply fltb_not_fleb in Hlt. unfold fgeb in Hs.
  by rewrite (fleb_trans _ _ _ Hl Hs) in Hlt.
Qed.

(** The pause is a hysteresis loop.  After every score event, a triggered
    pause has a score that is not below half the configured level, and a
    lifted one a score below the level; the callback is started exactly when
    the pause changes state, once, with the risk level of the new score. *)
Theorem pause_hysteresis cfg now w hm :
  levels_ok cfg -> onRiskChange hm = true ->
  let '(hm', spawned) := scoreEvent cfg now w hm in
  (pauseTriggered hm' = true -> fltb (score hm') (resumeLevel cfg) = false) /\
  (pauseTriggered hm' = false -> fgeb (score hm') (pauseLevel cfg) = false) /\
  spawned = if bool_decide (pauseTriggered hm' = pauseTriggered hm) then []
            else [getRiskLevel hm'].
Proof.
  intros Hl Hc. unfold scoreEvent.
  assert (pauseTriggered (decay now hm) = pauseTriggered hm /\
          onRiskChange (decay now hm) = true) as [Ht Hc'].
  { unfold decay. by case_match. }
  set (h := (decay now hm) <| score := _ |>).
  assert (pauseTriggered h = pauseTriggered hm) as Hth by done.
  assert (onRiskChange h = true) as Hch by done. clearbody h.
  unfold checkPause, notify.
  destruct (pauseTriggered hm) eqn:Htr, (fgeb (score h) (pauseLevel cfg)) eqn:Hs; simpl;
    rewrite ?Hth; simpl; destruct (fltb (score h) (resumeLevel cfg)) eqn:Hr; simpl;
    rewrite ?Hch, ?Hth; simpl; rewrite ?Hth; try done; try (split_and!; congruence || done);
    by rewrite (levels_exclusive cfg h Hl Hs) in Hr.
Qed.

Lemma DefaultConfig_levels_ok preset : levels_ok (DefaultConfig preset).
Proof. destruct preset; vm_compute; reflexivity. Qed.

Lemma pause_hysteresis_witness :
  let '(hm', spawned) := scoreEvent (DefaultConfig PresetModerate) 0 (of_int 60)
                           (OnRiskChange (NewHealthMonitor 0)) in
  pauseTriggered hm' = true /\ spawned = [RiskHigh].
Proof.
  pose proof (pause_hysteresis (DefaultConfig PresetModerate) 0 (of_int 60)
    (OnRiskChange (NewHealthMonitor 0)) (DefaultConfig_levels_ok _) eq_refl) as H.
  vm_compute in H |- *. split; [reflexivity|apply H].
Defined.

(** The score is not confined to 0..100: a single reconnection of a fresh
    monitor brings it to -5, because the bonus is applied after the clamping
    at zero, which itself only happens when a minute has elapsed. *)
Theorem score_can_be_negative cfg now :
  score (RecordReconnect cfg now (NewHealthMonitor now)).1 = of_int (-5).
Proof.
  unfold RecordReconnect, scoreEvent. rewrite checkPause_score. unfold decay.
  cbn [lastDecay NewHealthMonitor]. unfold Sub. rewrite Z.sub_diag.
  vm_compute. reflexivity.
Qed.
