(* ===== verification/CircuitBreaker.v ===== *)
(** * [circuit_breaker.go]

    [JidCircuitBreaker]: a breaker per JID, created by its first failure.  The
    Go map holds pointers to entries, no two keys share one, and an entry that
    [CanSend] has looked up and [evictStale] removes is closed, hence not
    written to: a map of entry values has the same behaviour. *)
From S2P Require Import Prelude GoTime Config.

Inductive CBState := CBClosed | CBOpen | CBHalfOpen.
#[export] Instance CBState_dec : EqDecision CBState.
Proof. solve_decision. Defined.

Record breakerEntry : Type := mkEntry {
  state : CBState;
  failures : Z;
  lastFail : Time;
  lastOpen : Time
}.
#[export] Instance eta_breakerEntry : Eta breakerEntry := fun e =>
  mkEntry (state e) (failures e) (lastFail e) (lastOpen e).

Abbreviation JidCircuitBreaker := (gmap string breakerEntry) (only parsing).

Definition NewJidCircuitBreaker : JidCircuitBreaker := ∅.

Definition stale (now : Time) (entry : breakerEntry) : bool :=
  bool_decide (state entry = CBClosed) && (10 * Minute <? Since now (lastFail entry)).

Definition evictStale (now : Time) (jcb : JidCircuitBreaker) : JidCircuitBreaker :=
  filter (fun '(_, entry) => stale now entry = false) jcb.

(** [evict] is the time of the eviction, [now] that of the test. *)
Definition CanSend (cfg : Config) (evict now : Time) (jid : string) (jcb : JidCircuitBreaker)
  : bool * JidCircuitBreaker :=
  match jcb !! jid with
  | None => (true, jcb)
  | Some entry =>
      let jcb := evictStale evict jcb in
      match state entry with
      | CBClosed => (true, jcb)
      | CBOpen =>
          if CircuitBreakerCooldown cfg <=? Since now (lastOpen entry)
          then (true, <[jid := entry <| state := CBHalfOpen |>]> jcb)
          else (false, jcb)
      | CBHalfOpen => (true, jcb)
      end
  end.

Definition RecordSuccess (jid : string) (jcb : JidCircuitBreaker) : JidCircuitBreaker :=
  match jcb !! jid with
  | None => jcb
  | Some entry => <[jid := entry <| state := CBClosed |> <| failures := 0 |>]> jcb
  end.

(** The two [time.Now()] readings are [now] and [now']. *)
Definition RecordFailure (cfg : Config) (now now' : Time) (jid : string)
    (jcb : JidCircuitBreaker) : JidCircuitBreaker :=
  let entry := default (mkEntry CBClosed 0 zeroTime zeroTime) (jcb !! jid) in
  let entry := entry <| failures := failures entry + 1 |> <| lastFail := now |> in
  let entry :=
    if CircuitBreakerThreshold cfg <=? failures entry
    then entry <| state := CBOpen |> <| lastOpen := now' |>
    else entry in
  <[jid := entry]> jcb.

(** [rand.Int64N(base / 4)] panics when the cooldown is below 4 ns. *)
Definition GetJitter (cfg : Config) (evict now : Time) (draw : Z) (jid : string)
    (jcb : JidCircuitBreaker) : outcome Duration * JidCircuitBreaker :=
  let '(ok, jcb) := CanSend cfg evict now jid jcb in
  if ok then (Ret 0, jcb)
  else
    let base := CircuitBreakerCooldown cfg in
    (jitter ← IntN (Z.quot base 4) draw; Ret (wrap64 (base + jitter)), jcb).

Definition count_state (s : CBState) (jcb : JidCircuitBreaker) : Z :=
  Z.of_nat (size (filter (fun '(_, e) => state e = s) jcb)).

Definition GetStats (jcb : JidCircuitBreaker) : gmap string Any :=
  list_to_map [("total", AInt (Z.of_nat (size jcb))); ("closed", AInt (count_state CBClosed jcb));
               ("open", AInt (count_state CBOpen jcb));
               ("halfopen", AInt (count_state CBHalfOpen jcb))].

(** * Properties *)

Inductive cb_op : Type :=
| OpCan (jid : string) (evict : Time) | OpSuccess (jid : string) | OpFailure (jid : string).

Definition op_jid (o : cb_op) : string :=
  match o with OpCan j _ | OpSuccess j | OpFailure j => j end.

Definition apply_op (cfg : Config) (jcb : JidCircuitBreaker) (o : cb_op * Time) : JidCircuitBreaker :=
  match o with
  | (OpCan j evict, now) => (CanSend cfg evict now j jcb).2
  | (OpSuccess j, _) => RecordSuccess j jcb
  | (OpFailure j, now) => RecordFailure cfg now now j jcb
  end.
Definition run_ops (cfg : Config) (ops : list (cb_op * Time)) : JidCircuitBreaker :=
  foldl (apply_op cfg) NewJidCircuitBreaker ops.

(** What the operations say of one JID, the newest first: the times of the
    failures since its last success. *)
Definition note_failure (jid : string) (h : list Time) (o : cb_op * Time) : list Time :=
  match o with
  | (OpSuccess j, _) => if decide (j = jid) then [] else h
  | (OpFailure j, now) => if decide (j = jid) then now :: h else h
  | _ => h
  end.
Definition failures_since_success (jid : string) (ops : list (cb_op * Time)) : list Time :=
  foldl (note_failure jid) [] ops.

Lemma evictStale_lookup now jcb j :
  evictStale now jcb !! j = match jcb !! j with
                            | Some e => if stale now e then None else Some e
                            | None => None
                            end.
Proof.
  unfold evictStale. rewrite map_lookup_filter. destruct (jcb !! j) as [e|]; simpl; [|done].
  destruct (stale now e) eqn:Hs; rewrite ?option_guard_True, ?option_guard_False by congruence; done.
Qed.

Lemma evictStale_active now jcb j e :
  jcb !! j = Some e -> state e <> CBClosed -> evictStale now jcb !! j = Some e.
Proof.
  intros Hj Hs. rewrite evictStale_lookup, Hj. unfold stale. by rewrite bool_decide_false.
Qed.

Section Breaker.
Context (cfg : Config) (Hthr : 0 < CircuitBreakerThreshold cfg).

(** The invariant of an entry: it is closed below the threshold, and open or
    half-open from the threshold on; its counter never exceeds the failures
    since the last success, and its times are those of the last of them. *)
Definition entry_ok (h : list Time) (e : breakerEntry) : Prop :=
  0 <= failures e <= Z.of_nat (length h) /\
  (0 < failures e -> head h = Some (lastFail e)) /\
  (state e = CBClosed <-> failures e < CircuitBreakerThreshold cfg) /\
  (state e <> CBClosed -> lastOpen e = lastFail e).

Definition breaker_ok (ops : list (cb_op * Time)) (jcb : JidCircuitBreaker) : Prop :=
  forall j e, jcb !! j = Some e -> entry_ok (failures_since_success j ops) e.

Lemma failures_since_snoc j ops o :
  failures_since_success j (ops ++ [o]) = note_failure j (failures_since_success j ops) o.
Proof. unfold failures_since_success. by rewrite foldl_app. Qed.

Lemma CanSend_lookup evict now j jcb k e' :
  (CanSend cfg evict now j jcb).2 !! k = Some e' ->
  exists e, jcb !! k = Some e /\
    (e' = e \/ (k = j /\ state e = CBOpen /\ e' = e <| state := CBHalfOpen |>)).
Proof.
  unfold CanSend. destruct (jcb !! j) as [e|] eqn:Hj; simpl; [|eauto].
  assert (evictStale evict jcb !! k = Some e' -> jcb !! k = Some e') as Hev.
  { rewrite evictStale_lookup. destruct (jcb !! k); [|done]. by destruct (stale _ _). }
  destruct (state e) eqn:Hs; simpl; eauto.
  destruct (_ <=? _); simpl; eauto.
  rewrite lookup_insert. destruct (decide (j = k)) as [->|Hjk]; eauto.
  intros [= <-]. exists e. eauto.
Qed.

Lemma breaker_step ops jcb o :
  breaker_ok ops jcb -> breaker_ok (ops ++ [o]) (apply_op cfg jcb o).
Proof.
  intros Hok k e' He'. rewrite failures_since_snoc. destruct o as [[j evict|j|j] now]; simpl in *.
  - apply CanSend_lookup in He' as (e & He & [->|(-> & Hs & ->)]); [by apply Hok|].
    destruct (Hok _ _ He) as (Hf & Hh & Hc & Hl). rewrite Hs in *.
    assert (lastOpen e = lastFail e) by (by apply Hl).
    split_and!; cbn; try done; try lia.
    split; [done|]. by intros ?%Hc.
  - unfold RecordSuccess in He'. destruct (jcb !! j) as [e|] eqn:Hj; simpl in He'.
    + rewrite lookup_insert in He'. destruct (decide (j = k)) as [->|Hjk].
      * simplify_eq. split_and!; cbn; try done; lia.
      * by apply Hok.
    + destruct (decide (j = k)) as [->|Hjk]; [congruence|by apply Hok].
  - unfold RecordFailure in He'. rewrite lookup_insert in He'.
    destruct (decide (j = k)) as [->|Hjk]; [|by apply Hok].
    set (h := failures_since_success k ops) in *.
    assert (entry_ok h (default (mkEntry CBClosed 0 zeroTime zeroTime) (jcb !! k))) as He.
    { destruct (jcb !! k) as [e|] eqn:Hk; [by apply Hok|].
      split_and!; simpl; try done; lia. }
    revert He He'. generalize (default (mkEntry CBClosed 0 zeroTime zeroTime) (jcb !! k)).
    intros e (Hf & Hh & Hc & Hl) [= <-]. cbn [failures upd].
    destruct (Z.leb_spec (CircuitBreakerThreshold cfg) (failures e + 1));
      (split_and!; cbn; try done; try lia).
    + split; [done|lia].
    + split; [done|]. intros _. apply Hc. lia.
    + intros Hs. exfalso. apply Hs, Hc. lia.
Qed.

Lemma run_ops_ok ops : breaker_ok ops (run_ops cfg ops).
Proof.
  induction ops as [|o ops IH] using rev_ind.
  - intros j e. unfold run_ops, NewJidCircuitBreaker. simpl. by rewrite lookup_empty.
  - unfold run_ops. rewrite foldl_app. simpl. by apply breaker_step.
Qed.
End Breaker.

(** C36. No false denial: whatever the interleaving of checks, successes and
    failures of all JIDs, a JID is refused only if the failures recorded for it
    since its last success number at least [CircuitBreakerThreshold], and then
    only while the newest of them is less than [CircuitBreakerCooldown] old. *)
Theorem breaker_denial_justified cfg ops jid evict now :
  0 < CircuitBreakerThreshold cfg ->
  (CanSend cfg evict now jid (run_ops cfg ops)).1 = false ->
  let h := failures_since_success jid ops in
  CircuitBreakerThreshold cfg <= Z.of_nat (length h) /\
  exists t, head h = Some t /\ Since now t < CircuitBreakerCooldown cfg.
Proof.
  intros Hthr. unfold CanSend. destruct (run_ops cfg ops !! jid) as [e|] eqn:He; [|done].
  destruct (run_ops_ok cfg Hthr ops jid e He) as (Hf & Hh & Hc & Hl).
  destruct (state e) eqn:Hs; try done.
  destruct (Z.leb_spec (CircuitBreakerCooldown cfg) (Since now (lastOpen e))); [done|].
  assert (CircuitBreakerThreshold cfg <= failures e).
  { destruct (Z.lt_ge_cases (failures e) (CircuitBreakerThreshold cfg)) as [Hlt|]; [|done].
    by apply Hc in Hlt. }
  intros _. split; [lia|]. exists (lastFail e). split; [apply Hh; lia|].
  by rewrite <- Hl.
Qed.

(** A run in which a second JID's successes and failures interleave. *)
Definition witness_ops : list (cb_op * Time) :=
  [(OpFailure "a", 1); (OpSuccess "b", 2); (OpFailure "a", 3); (OpFailure "b", 4);
   (OpCan "a" 5, 5); (OpFailure "a", 6)].

Lemma breaker_denial_justified_witness :
  let cfg := zeroConfig <| CircuitBreakerThreshold := 3 |> <| CircuitBreakerCooldown := 10 |> in
  let h := failures_since_success "a" witness_ops in
  3 <= Z.of_nat (length h) /\ exists t, head h = Some t /\ Since 15 t < 10.
Proof.
  intros cfg h. apply (breaker_denial_justified cfg witness_ops "a" 15 15);
    vm_compute; reflexivity.
Defined.

(** Failures of [jid] in a row at the given times, oldest first. *)
Definition record_failures (cfg : Config) (jid : string) (times : list Time)
    (jcb : JidCircuitBreaker) : JidCircuitBreaker :=
  foldl (fun b t => RecordFailure cfg t t jid b) jcb times.

Lemma RecordFailure_counts cfg t jid (jcb : JidCircuitBreaker) :
  exists e, RecordFailure cfg t t jid jcb !! jid = Some e /\
    failures e = failures (default (mkEntry CBClosed 0 zeroTime zeroTime) (jcb !! jid)) + 1 /\
    (CircuitBreakerThreshold cfg <= failures e -> state e = CBOpen /\ lastOpen e = t).
Proof.
  unfold RecordFailure. rewrite lookup_insert_eq. eexists. split; [done|].
  cbn [failures upd].
  destruct (Z.leb_spec (CircuitBreakerThreshold cfg)
    (failures (default (mkEntry CBClosed 0 zeroTime zeroTime) (jcb !! jid)) + 1));
    cbn; (split; [done|]); [done|lia].
Qed.

Lemma record_failures_count cfg jid times jcb :
  (forall e, jcb !! jid = Some e -> 0 <= failures e) ->
  Z.of_nat (length times) <=
  failures (default (mkEntry CBClosed 0 zeroTime zeroTime) (record_failures cfg jid times jcb !! jid)).
Proof.
  intros H0. unfold record_failures. induction times as [|t times IH] using rev_ind; simpl.
  - destruct (jcb !! jid) as [e|] eqn:He; simpl; [by apply H0|lia].
  - rewrite foldl_app, length_app. simpl.
    destruct (RecordFailure_counts cfg t jid
      (foldl (fun b t => RecordFailure cfg t t jid b) jcb times)) as (e & -> & Hf & _).
    simpl. lia.
Qed.

Lemma record_failures_entry cfg jid times t jcb :
  (forall e, jcb !! jid = Some e -> 0 <= failures e) ->
  CircuitBreakerThreshold cfg <= Z.of_nat (length times) + 1 ->
  exists e, record_failures cfg jid (times ++ [t]) jcb !! jid = Some e /\
    CircuitBreakerThreshold cfg <= failures e /\ state e = CBOpen /\ lastOpen e = t.
Proof.
  intros H0 Hlen. pose proof (record_failures_count cfg jid times jcb H0) as Hc.
  unfold record_failures in *. rewrite foldl_app. simpl.
  destruct (RecordFailure_counts cfg t jid
    (foldl (fun b t => RecordFailure cfg t t jid b) jcb times)) as (e & He & Hf & Hs).
  exists e. assert (CircuitBreakerThreshold cfg <= failures e) by lia. intuition.
Qed.

Lemma CanSend_open cfg evict now jid (jcb : JidCircuitBreaker) e :
  jcb !! jid = Some e -> state e = CBOpen ->
  (CanSend cfg evict now jid jcb).1 = (CircuitBreakerCooldown cfg <=? Since now (lastOpen e)).
Proof. intros He Hs. unfold CanSend. rewrite He, Hs. by destruct (_ <=? _). Qed.

(** Enough failures in a row open the breaker of a JID, whatever its state
    before, and the life cycle follows: sends are refused until the cooldown
    has passed, then they are let through, a failure after that closes the
    door at once for a new cooldown, and a success restores the JID. *)
Theorem breaker_opens cfg jid times t jcb :
  (forall e, jcb !! jid = Some e -> 0 <= failures e) ->
  CircuitBreakerThreshold cfg <= Z.of_nat (length times) + 1 ->
  let b := record_failures cfg jid (times ++ [t]) jcb in
  forall evict now,
    (Since now t < CircuitBreakerCooldown cfg -> (CanSend cfg evict now jid b).1 = false) /\
    (CircuitBreakerCooldown cfg <= Since now t ->
       let b' := (CanSend cfg evict now jid b).2 in
       (CanSend cfg evict now jid b).1 = true /\
       (forall t' evict' now', Since now' t' < CircuitBreakerCooldown cfg ->
          (CanSend cfg evict' now' jid (RecordFailure cfg t' t' jid b')).1 = false) /\
       (forall evict' now', (CanSend cfg evict' now' jid (RecordSuccess jid b')).1 = true)).
Proof.
  intros H0 Hlen b evict now.
  destruct (record_failures_entry cfg jid times t jcb H0 Hlen) as (e & He & Hf & Hs & Ht).
  fold b in He. split.
  { intros Hnow. rewrite (CanSend_open _ _ _ _ _ e He Hs), Ht. by apply Z.leb_gt. }
  intros Hnow. apply Z.leb_le in Hnow. assert (exists b1,
    CanSend cfg evict now jid b = (true, <[jid := e <| state := CBHalfOpen |>]> b1)) as [b1 ->].
  { unfold CanSend. rewrite He, Hs, Ht, Hnow. eauto. }
  set (b' := <[jid := _]> b1). cbn [fst snd]. split_and!; [done| |].
  - intros t' evict' now' Hnow'.
    destruct (RecordFailure_counts cfg t' jid b') as (e' & He' & Hf' & Hs').
    unfold b' in Hf'. rewrite lookup_insert_eq in Hf'. cbn in Hf'.
    destruct Hs' as [Hst Hl]; [lia|].
    rewrite (CanSend_open _ _ _ _ _ e' He' Hst), Hl. by apply Z.leb_gt.
  - intros evict' now'. unfold RecordSuccess, b'. rewrite lookup_insert_eq.
    unfold CanSend. rewrite lookup_insert_eq. done.
Qed.

Lemma breaker_opens_witness :
  let cfg := zeroConfig <| CircuitBreakerThreshold := 2 |> <| CircuitBreakerCooldown := 10 |> in
  let b := record_failures cfg "a" ([1] ++ [5]) ∅ in
  (CanSend cfg 14 14 "a" b).1 = false /\ (CanSend cfg 15 15 "a" b).1 = true.
Proof.
  intros cfg b.
  assert (forall e, (∅ : gmap string breakerEntry) !! "a" = Some e -> 0 <= failures e) as H0
    by (intros e; rewrite lookup_empty; discriminate).
  assert (CircuitBreakerThreshold cfg <= Z.of_nat (length [1]) + 1) as Hlen
    by (vm_compute; discriminate).
  assert (Since 14 5 < CircuitBreakerCooldown cfg) as H14 by (vm_compute; reflexivity).
  assert (CircuitBreakerCooldown cfg <= Since 15 5) as H15 by (vm_compute; discriminate).
  split.
  - exact (proj1 (breaker_opens cfg "a" [1] 5 ∅ H0 Hlen 14 14) H14).
  - exact (proj1 (proj2 (breaker_opens cfg "a" [1] 5 ∅ H0 Hlen 15 15) H15)).
Defined.

(** Isolation: an operation on one JID leaves the breaker of another alone, or
    forgets a closed one whose last failure is more than ten minutes old. *)
Theorem breaker_isolation cfg jcb (o : cb_op * Time) j e :
  op_jid o.1 <> j -> jcb !! j = Some e ->
  apply_op cfg jcb o !! j = Some e \/
  (apply_op cfg jcb o !! j = None /\ state e = CBClosed /\
   exists k evict, o.1 = OpCan k evict /\ 10 * Minute < Since evict (lastFail e)).
Proof.
  intros Hj He. destruct o as [[k evict|k|k] now]; simpl in *.
  - assert (evictStale evict jcb !! j = Some e \/ (evictStale evict jcb !! j = None /\
      state e = CBClosed /\ exists k0 evict0, OpCan k evict = OpCan k0 evict0 /\ 10 * Minute < Since evict0 (lastFail e))) as Hev.
    { rewrite evictStale_lookup, He. destruct (stale evict e) eqn:Hs; [right|by left].
      unfold stale in Hs. apply andb_true_iff in Hs as [?%bool_decide_eq_true ?%Z.ltb_lt]. split; [done|]. split; [done|]. by exists k, evict. }
    unfold CanSend. destruct (jcb !! k) as [e'|]; simpl; [|by left].
    destruct (state e'); simpl; try done. destruct (_ <=? _); simpl; [|done].
    by rewrite !lookup_insert_ne by done.
  - left. unfold RecordSuccess. destruct (jcb !! k); [|done]. by rewrite lookup_insert_ne.
  - left. unfold RecordFailure. by rewrite lookup_insert_ne.
Qed.

Lemma count_state_insert s j e (jcb : JidCircuitBreaker) :
  jcb !! j = None ->
  count_state s (<[j := e]> jcb) = (if decide (state e = s) then 1 else 0) + count_state s jcb.
Proof.
  intros Hj. unfold count_state. rewrite map_filter_insert.
  destruct (decide (state e = s)) as [Hs|Hs].
  - rewrite map_size_insert_None; [lia|]. apply map_lookup_filter_None_2. by left.
  - by rewrite delete_id.
Qed.

(** The three counters of [GetStats] add up to the number of breakers. *)
Lemma GetStats_total (jcb : JidCircuitBreaker) :
  count_state CBClosed jcb + count_state CBOpen jcb + count_state CBHalfOpen jcb
  = Z.of_nat (size jcb).
Proof.
  induction jcb as [|j e m Hj IH] using map_ind; [done|].
  rewrite map_size_insert_None, !count_state_insert by done.
  destruct (state e); repeat case_decide; try done; lia.
Qed.
