(* ===== verification/TimelockGuard.v ===== *)
(** * [timelock_guard.go]

    [TimelockGuard] blocks sends to unknown chats for a while after a 463
    error.  Each error starts a goroutine, [autoLift], that sleeps and then
    calls the "lifted" callback, unless the generation counter shows that
    something happened meanwhile.  The operations are functions; the guard
    with its running goroutines is a transition system. *)
From S2P Require Import Prelude GoTime GoFloat Config.

Record TimelockGuard : Type := mkTimelockGuard {
  blockedUntil : Time;
  knownChats : gmap string bool;
  generation : Z;
  onTimelockDetected : bool;  (** whether the callbacks are registered *)
  onTimelockLifted : bool
}.
#[export] Instance eta_TimelockGuard : Eta TimelockGuard := fun g =>
  mkTimelockGuard (blockedUntil g) (knownChats g) (generation g)
    (onTimelockDetected g) (onTimelockLifted g).

Definition NewTimelockGuard : TimelockGuard := mkTimelockGuard zeroTime ∅ 0 false false.

Definition OnTimelockDetected (tg : TimelockGuard) := tg <| onTimelockDetected := true |>.
Definition OnTimelockLifted (tg : TimelockGuard) := tg <| onTimelockLifted := true |>.

(** What an operation starts in goroutines of their own. *)
Inductive spawned : Type :=
| CallDetected (duration : Duration)
| CallLifted
| StartAutoLift (duration : Duration).

Definition Record463Error (cfg : Config) (now : Time) (tg : TimelockGuard)
  : TimelockGuard * list spawned :=
  let tg := tg <| generation := wrap64 (generation tg + 1) |> in
  let blockDuration := TimelockBlockDuration cfg in
  let tg := tg <| blockedUntil := Add now blockDuration |> in
  (tg, (if onTimelockDetected tg then [CallDetected blockDuration] else []) ++
       [StartAutoLift blockDuration]).

(** [autoLift]: the code before the sleep, and the two tests after it, the
    second under the mutex. *)
Definition autoLift_load (tg : TimelockGuard) : Z := generation tg.
Definition autoLift_current (gen : Z) (tg : TimelockGuard) : bool := generation tg =? gen.
Definition autoLift_fire (now : Time) (tg : TimelockGuard) : list spawned :=
  if decide (After now (blockedUntil tg)) then
    if onTimelockLifted tg then [CallLifted] else []
  else [].

Definition CanSend (now : Time) (chatID : string) (tg : TimelockGuard) : bool :=
  if decide (Before now (blockedUntil tg)) then
    match knownChats tg !! chatID with None => false | Some _ => true end
  else true.

Definition RegisterKnownChat (chatID : string) (tg : TimelockGuard) : TimelockGuard :=
  tg <| knownChats := <[chatID := true]> (knownChats tg) |>.

(** [now] and [now'] are the two clock readings. *)
Definition GetState (now now' : Time) (tg : TimelockGuard) : gmap string Any :=
  list_to_map [("blocked", ABool (bool_decide (Before now (blockedUntil tg))));
               ("blocked_until", ATime (blockedUntil tg));
               ("remaining_sec", AFloat (Seconds (Until now' (blockedUntil tg))));
               ("known_chats", AInt (Z.of_nat (size (knownChats tg))))].

Definition Lift (tg : TimelockGuard) : TimelockGuard :=
  tg <| generation := wrap64 (generation tg + 1) |> <| blockedUntil := zeroTime |>.

Definition Reset (tg : TimelockGuard) : TimelockGuard :=
  tg <| generation := wrap64 (generation tg + 1) |> <| blockedUntil := zeroTime |>
     <| knownChats := ∅ |>.

(** ** The guard and its goroutines *)

(** Where an [autoLift] goroutine is. *)
Inductive lifter : Type :=
| Starting (duration : Duration)
| Sleeping (gen : Z) (wake : Time)
| Locking.

(** The history, the newest event first. *)
Inductive tl_event : Type :=
| LError (t : Time)  (** [Record463Error] *)
| LLift              (** [Lift] or [Reset] *)
| LLifted (t : Time) (** the lifted callback is started *).

Record system : Type := mkSystem {
  guard : TimelockGuard;
  lifters : list lifter;
  clock : Time;
  history : list tl_event
}.

Inductive tl_step (cfg : Config) : relation system :=
| step_tick g ls t t' h :
    t <= t' -> tl_step cfg (mkSystem g ls t h) (mkSystem g ls t' h)
| step_error g ls t h :
    tl_step cfg (mkSystem g ls t h)
      (mkSystem (Record463Error cfg t g).1 (Starting (TimelockBlockDuration cfg) :: ls) t
                (LError t :: h))
| step_lift g ls t h : tl_step cfg (mkSystem g ls t h) (mkSystem (Lift g) ls t (LLift :: h))
| step_reset g ls t h : tl_step cfg (mkSystem g ls t h) (mkSystem (Reset g) ls t (LLift :: h))
| step_chat g ls t h c :
    tl_step cfg (mkSystem g ls t h) (mkSystem (RegisterKnownChat c g) ls t h)
| step_register g ls t h :
    tl_step cfg (mkSystem g ls t h) (mkSystem (OnTimelockLifted g) ls t h)
| step_load g l1 l2 d t h :
    tl_step cfg (mkSystem g (l1 ++ Starting d :: l2) t h)
      (mkSystem g (l1 ++ Sleeping (autoLift_load g) (Add t d) :: l2) t h)
| step_wake_stale g l1 l2 gen wake t h :
    wake <= t -> autoLift_current gen g = false ->
    tl_step cfg (mkSystem g (l1 ++ Sleeping gen wake :: l2) t h) (mkSystem g (l1 ++ l2) t h)
| step_wake g l1 l2 gen wake t h :
    wake <= t -> autoLift_current gen g = true ->
    tl_step cfg (mkSystem g (l1 ++ Sleeping gen wake :: l2) t h)
      (mkSystem g (l1 ++ Locking :: l2) t h)
| step_fire g l1 l2 t h :
    autoLift_fire t g = [CallLifted] ->
    tl_step cfg (mkSystem g (l1 ++ Locking :: l2) t h) (mkSystem g (l1 ++ l2) t (LLifted t :: h))
| step_quiet g l1 l2 t h :
    autoLift_fire t g = [] ->
    tl_step cfg (mkSystem g (l1 ++ Locking :: l2) t h) (mkSystem g (l1 ++ l2) t h).

Definition initial (now : Time) : system := mkSystem NewTimelockGuard [] now [].

(** * Properties *)

(** The errors since the last [Lift] or [Reset]. *)
Fixpoint active_errors (h : list tl_event) : list Time :=
  match h with
  | [] => []
  | LError t :: h => t :: active_errors h
  | LLift :: _ => []
  | LLifted _ :: h => active_errors h
  end.

(** Every lifted callback of [h] came after the block of every error that was
    active at that moment. *)
Definition lifts_justified (D : Duration) (h : list tl_event) : Prop :=
  forall t h', (LLifted t :: h') `suffix_of` h -> Forall (fun e => e + D < t) (active_errors h').

Definition count_events (P : tl_event -> bool) (h : list tl_event) : nat :=
  length (filter (fun e => P e = true) h).
Definition is_error (e : tl_event) : bool := match e with LError _ => true | _ => false end.
Definition is_lifted (e : tl_event) : bool := match e with LLifted _ => true | _ => false end.

Definition tl_inv (D : Duration) (s : system) : Prop :=
  lifts_justified D (history s) /\
  Forall (fun e => e <= clock s /\ e + D <= blockedUntil (guard s)) (active_errors (history s)) /\
  (length (lifters s) + count_events is_lifted (history s) <= count_events is_error (history s))%nat.

Lemma lifts_justified_cons D e h :
  lifts_justified D h ->
  (forall t, e = LLifted t -> Forall (fun e => e + D < t) (active_errors h)) ->
  lifts_justified D (e :: h).
Proof.
  intros Hh He t h' Hs. apply suffix_cons_inv in Hs as [[= Heq ->]|Hs]; [by apply He|by eapply Hh].
Qed.

Lemma tl_inv_preserved cfg : preserved (tl_step cfg) (tl_inv (TimelockBlockDuration cfg)).
Proof.
  set (D := TimelockBlockDuration cfg).
  intros s s' Hstep (Hj & He & Hc). unfold count_events in Hc.
  inversion Hstep; subst; unfold tl_inv, count_events in *; cbn [history lifters clock guard] in *;
    rewrite ?filter_cons, ?length_app in *; simpl in *; split_and!; try done; try lia;
    try (by apply lifts_justified_cons).
  - eapply Forall_impl; [exact He|]. simpl. intros; lia.
  - constructor; [split; [done|unfold D, Add; lia]|].
    eapply Forall_impl; [exact He|]. unfold D, Add. simpl. intros; lia.
  - apply lifts_justified_cons; [done|]. intros t' [= <-].
    eapply Forall_impl; [exact He|]. simpl. intros e [_ Hle].
    unfold autoLift_fire in H. destruct (decide _) as [Ha|]; [|done]. unfold After in Ha. lia.
Qed.

(** The lifted callback is never early and never in excess.  In every
    execution of the guard and its goroutines, whatever their interleaving,
    when the callback starts the block of every 463 error recorded since the
    last manual lift is over, and there are at most as many callbacks as
    errors. *)
Theorem lifted_never_early cfg now s :
  rtc (tl_step cfg) (initial now) s ->
  lifts_justified (TimelockBlockDuration cfg) (history s) /\
  (count_events is_lifted (history s) <= count_events is_error (history s))%nat.
Proof.
  intros Hr. assert (tl_inv (TimelockBlockDuration cfg) s) as (Hj & _ & Hc).
  { eapply rtc_preserved; [apply tl_inv_preserved|done|].
    split_and!; [|constructor|done]. intros t h Hs. by apply suffix_nil_inv in Hs. }
  split; [done|lia].
Qed.

(** One error, and its goroutine run to the end. *)
Lemma one_error_run cfg :
  0 <= TimelockBlockDuration cfg ->
  exists s, rtc (tl_step cfg) (initial 0) s /\ lifters s = [] /\
    history s = [LLifted (TimelockBlockDuration cfg + 1); LError 0].
Proof.
  intros HD. set (D := TimelockBlockDuration cfg) in *. eexists. split; [|split].
  - eapply rtc_l; [apply step_register|].
    eapply rtc_l; [apply step_error|].
    eapply rtc_l; [apply (step_load cfg _ [] [] D)|].
    eapply rtc_l; [apply (step_tick cfg _ _ 0 (D + 1)); lia|].
    eapply rtc_l; [apply (step_wake cfg _ [] [] _ (Add 0 D)); [unfold Add; lia|]|].
    { unfold autoLift_current. apply Z.eqb_refl. }
    eapply rtc_l; [apply (step_fire cfg _ [] [])|apply rtc_refl].
    unfold autoLift_fire. rewrite decide_True; [done|]. cbn. unfold After, Add. fold D. lia.
  - done.
  - done.
Qed.

Lemma lifted_never_early_witness :
  let cfg := zeroConfig <| TimelockBlockDuration := 60 |> in
  exists s, history s = [LLifted 61; LError 0] /\ lifts_justified 60 (history s).
Proof.
  intros cfg. destruct (one_error_run cfg) as (s & Hr & _ & Hh); [vm_compute; discriminate|].
  exists s. split; [exact Hh|]. exact (proj1 (lifted_never_early cfg 0 s Hr)).
Defined.

(** The generation counter does not make the callback unique: it is read
    in the goroutine, not before it starts, so when two errors come before
    either goroutine runs, both read the same generation and both call the
    callback, although there was a single block to lift. *)
Theorem lifted_twice cfg :
  0 <= TimelockBlockDuration cfg ->
  exists s t, rtc (tl_step cfg) (initial 0) s /\
    history s = [LLifted t; LLifted t; LError 0; LError 0].
Proof.
  intros HD. set (D := TimelockBlockDuration cfg) in *. eexists _, (D + 1). split.
  - eapply rtc_l; [apply step_register|].
    eapply rtc_l; [apply step_error|].
    eapply rtc_l; [apply step_error|].
    eapply rtc_l; [apply (step_load cfg _ [] [Starting D] D)|].
    eapply rtc_l; [apply (step_load cfg _ [Sleeping 2 (Add 0 D)] [] D)|].
    eapply rtc_l; [apply (step_tick cfg _ _ 0 (D + 1)); lia|].
    eapply rtc_l; [apply (step_wake cfg _ [] [Sleeping 2 (Add 0 D)] 2 (Add 0 D));
                   [unfold Add; lia|done]|].
    eapply rtc_l; [apply (step_fire cfg _ [] [Sleeping 2 (Add 0 D)])|].
    { unfold autoLift_fire. rewrite decide_True; [done|]. cbn. unfold After, Add. fold D. lia. }
    eapply rtc_l; [apply (step_wake cfg _ [] [] 2 (Add 0 D)); [unfold Add; lia|done]|].
    eapply rtc_l; [apply (step_fire cfg _ [] [])|apply rtc_refl].
    unfold autoLift_fire. rewrite decide_True; [done|]. cbn. unfold After, Add. fold D. lia.
  - done.
Qed.

Lemma lifted_twice_witness :
  exists s t, rtc (tl_step (zeroConfig <| TimelockBlockDuration := 60 |>)) (initial 0) s /\
    history s = [LLifted t; LLifted t; LError 0; LError 0].
Proof. apply (lifted_twice (zeroConfig <| TimelockBlockDuration := 60 |>)). vm_compute. discriminate. Defined.

(** ** Sends *)

Definition known (chatID : string) (tg : TimelockGuard) : Prop :=
  exists b, knownChats tg !! chatID = Some b.

(** A send is refused exactly when the block runs and the chat is unknown. *)
Lemma CanSend_spec now chatID tg :
  CanSend now chatID tg = false <-> now < blockedUntil tg /\ ~ known chatID tg.
Proof.
  unfold CanSend, known, Before. destruct (decide _); [|naive_solver lia].
  destruct (knownChats tg !! chatID) as [b|] eqn:Hk; split; try done.
  - intros [_ Hn]. exfalso. apply Hn. eauto.
  - intros _. split; [done|]. by intros [b ?].
Qed.

(** A registered chat stays open through errors and lifts, until a [Reset]. *)
Lemma registered_chat_open cfg now now' chatID tg :
  CanSend now' chatID (Record463Error cfg now (Lift (RegisterKnownChat chatID tg))).1 = true.
Proof.
  unfold CanSend. destruct (decide _); [|done]. cbn. by rewrite lookup_insert_eq.
Qed.

(** With no registered chat, an error blocks everything until the block ends. *)
Lemma error_blocks cfg now now' chatID tg :
  knownChats tg = ∅ ->
  CanSend now' chatID (Record463Error cfg now tg).1 =
  bool_decide (now + TimelockBlockDuration cfg <= now').
Proof.
  intros Hk. unfold CanSend, Before. cbn. rewrite Hk, lookup_empty. unfold Add.
  destruct (decide _); case_bool_decide; try done; lia.
Qed.
