(* ===== verification/ContactGraph.v ===== *)
(** * [contact_graph.go]

    [ContactGraphWarmer]: the relationship with each contact and the join time
    of each group.  No two keys of [contacts] share a [ContactInfo]. *)
From S2P Require Import Prelude GoTime Config.

Record ContactInfo : Type := mkContactInfo {
  State : ContactState;
  LastMsgAt : Time;
  JoinedAt : Time;
  DailyCount : Z;
  LastDay : Z
}.
#[export] Instance eta_ContactInfo : Eta ContactInfo := fun c =>
  mkContactInfo (State c) (LastMsgAt c) (JoinedAt c) (DailyCount c) (LastDay c).

Record ContactGraphWarmer : Type := mkWarmer {
  contacts : gmap string ContactInfo;
  groups : gmap string Time
}.
#[export] Instance eta_ContactGraphWarmer : Eta ContactGraphWarmer := fun g =>
  mkWarmer (contacts g) (groups g).

Definition NewContactGraphWarmer : ContactGraphWarmer := mkWarmer ∅ ∅.

(** [&ContactInfo{State: s, LastMsgAt: t}] *)
Definition newContact (s : ContactState) (t : Time) : ContactInfo :=
  mkContactInfo s t zeroTime 0 0.

Definition setContact (id : string) (c : ContactInfo) (cgw : ContactGraphWarmer)
  : ContactGraphWarmer := cgw <| contacts := <[id := c]> (contacts cgw) |>.

(** The daily reset that [CanMessage] and [RecordMessage] repeat. *)
Definition rollContact (today : Z) (contact : ContactInfo) : ContactInfo :=
  if negb (LastDay contact =? today)
  then contact <| DailyCount := 0 |> <| LastDay := today |>
  else contact.

Definition CanMessage (cfg : Config) (loc : Location) (now : Time) (contactID : string)
    (isGroup : bool) (cgw : ContactGraphWarmer) : bool * ContactGraphWarmer :=
  if isGroup then
    match groups cgw !! contactID with
    | Some joinTime =>
        if (0 <? GroupLurkPeriod cfg) && (Since now joinTime <? GroupLurkPeriod cfg)
        then (false, cgw) else (true, cgw)
    | None => (true, cgw)
    end
  else
    match contacts cgw !! contactID with
    | None => (true, cgw)
    | Some contact =>
        let contact := rollContact (YearDay loc now) contact in
        let cgw := setContact contactID contact cgw in
        if bool_decide (State contact = ContactStranger)
           && (MaxStrangerPerDay cfg <=? DailyCount contact)
        then (false, cgw) else (true, cgw)
    end.

Definition MarkHandshakeSent (now : Time) (contactID : string) (cgw : ContactGraphWarmer)
  : ContactGraphWarmer :=
  let contact := default (newContact ContactStranger zeroTime) (contacts cgw !! contactID) in
  let contact :=
    if decide (State contact = ContactStranger)
    then contact <| State := ContactHandshakeSent |> else contact in
  setContact contactID (contact <| LastMsgAt := now |>) cgw.

Definition MarkHandshakeComplete (now : Time) (contactID : string) (cgw : ContactGraphWarmer)
  : ContactGraphWarmer :=
  match contacts cgw !! contactID with
  | None => setContact contactID (newContact ContactHandshakeComplete now) cgw
  | Some contact =>
      let contact :=
        if decide (State contact = ContactKnown) then contact
        else contact <| State := ContactHandshakeComplete |> in
      setContact contactID (contact <| LastMsgAt := now |>) cgw
  end.

Definition RegisterKnownContact (now : Time) (contactID : string) (cgw : ContactGraphWarmer)
  : ContactGraphWarmer :=
  match contacts cgw !! contactID with
  | None => setContact contactID (newContact ContactKnown now) cgw
  | Some contact => setContact contactID (contact <| State := ContactKnown |>) cgw
  end.

Definition RegisterGroupJoin (now : Time) (groupID : string) (cgw : ContactGraphWarmer)
  : ContactGraphWarmer := cgw <| groups := <[groupID := now]> (groups cgw) |>.

Definition OnIncomingMessage (now : Time) (senderID : string) (cgw : ContactGraphWarmer)
  : ContactGraphWarmer :=
  match contacts cgw !! senderID with
  | None => setContact senderID (newContact ContactKnown now) cgw
  | Some contact =>
      setContact senderID (contact <| State := ContactKnown |> <| LastMsgAt := now |>) cgw
  end.

Definition GetContactState (contactID : string) (cgw : ContactGraphWarmer) : ContactState :=
  match contacts cgw !! contactID with
  | None => ContactStranger
  | Some contact => State contact
  end.

Definition RecordMessage (loc : Location) (now : Time) (contactID : string)
    (cgw : ContactGraphWarmer) : ContactGraphWarmer :=
  match contacts cgw !! contactID with
  | None => cgw
  | Some contact =>
      let contact := rollContact (YearDay loc now) contact in
      setContact contactID
        (contact <| DailyCount := DailyCount contact + 1 |> <| LastMsgAt := now |>) cgw
  end.

(** * Properties *)

Inductive contact_op : Type :=
| OpCanMessage (id : string) (isGroup : bool) | OpHandshakeSent (id : string)
| OpHandshakeComplete (id : string) | OpRegisterKnown (id : string) | OpGroupJoin (id : string)
| OpIncoming (id : string) | OpRecord (id : string).

Definition apply_op (cfg : Config) (loc : Location) (g : ContactGraphWarmer)
    (o : contact_op * Time) : ContactGraphWarmer :=
  let now := o.2 in
  match o.1 with
  | OpCanMessage id grp => (CanMessage cfg loc now id grp g).2
  | OpHandshakeSent id => MarkHandshakeSent now id g
  | OpHandshakeComplete id => MarkHandshakeComplete now id g
  | OpRegisterKnown id => RegisterKnownContact now id g
  | OpGroupJoin id => RegisterGroupJoin now id g
  | OpIncoming id => OnIncomingMessage now id g
  | OpRecord id => RecordMessage loc now id g
  end.
Definition run_ops cfg loc (g : ContactGraphWarmer) ops := foldl (apply_op cfg loc) g ops.

Definition rank (s : ContactState) : Z :=
  match s with
  | ContactStranger => 0 | ContactHandshakeSent => 1
  | ContactHandshakeComplete => 2 | ContactKnown => 3
  end.

Lemma rollContact_state d c : State (rollContact d c) = State c.
Proof. unfold rollContact. by destruct (negb _). Qed.

(** What an operation does to the contacts: nothing, or one contact's entry is
    written, with a state that is not a stranger's and not a lower one. *)
Definition contact_write (g g' : ContactGraphWarmer) : Prop :=
  contacts g' = contacts g \/
  exists id c, contacts g' = <[id := c]> (contacts g) /\
    (State c = ContactStranger -> exists c0, contacts g !! id = Some c0 /\ State c0 = ContactStranger) /\
    rank (GetContactState id g) <= rank (State c).

Lemma contact_write_set g id c :
  State c <> ContactStranger -> rank (GetContactState id g) <= rank (State c) ->
  contact_write g (setContact id c g).
Proof. intros Hs Hr. right. exists id, c. by split_and!. Qed.

Lemma contact_write_keep g id c0 c :
  contacts g !! id = Some c0 -> State c = State c0 -> contact_write g (setContact id c g).
Proof.
  intros Hc Hs. right. exists id, c. split_and!; [done| |].
  - intros Hst. exists c0. by rewrite <- Hs.
  - unfold GetContactState. rewrite Hc, Hs. lia.
Qed.

Lemma apply_op_writes cfg loc g o : contact_write g (apply_op cfg loc g o).
Proof.
  destruct o as [[id [] |id|id|id|id|id|id] now]; unfold apply_op; cbn [fst snd].
  - left. unfold CanMessage. destruct (groups g !! id); [|done]. by destruct (_ && _).
  - unfold CanMessage. destruct (contacts g !! id) as [c|] eqn:Hc; [|by left].
    assert (contact_write g (setContact id (rollContact (YearDay loc now) c) g))
      by (eapply contact_write_keep; [done|apply rollContact_state]).
    by destruct (_ && _).
  - unfold MarkHandshakeSent, GetContactState in *.
    destruct (contacts g !! id) as [c|] eqn:Hc; simpl.
    + destruct (decide (State c = ContactStranger)) as [Hs|Hs].
      * apply contact_write_set; [done|]. unfold GetContactState. by rewrite Hc, Hs.
      * by eapply contact_write_keep.
    + apply contact_write_set; [done|]. unfold GetContactState. by rewrite Hc.
  - unfold MarkHandshakeComplete. destruct (contacts g !! id) as [c|] eqn:Hc.
    + destruct (decide (State c = ContactKnown)) as [Hs|Hs].
      * by eapply contact_write_keep.
      * apply contact_write_set; [done|]. unfold GetContactState. rewrite Hc.
        by destruct (State c) eqn:Hst.
    + apply contact_write_set; [done|]. unfold GetContactState. by rewrite Hc.
  - unfold RegisterKnownContact. destruct (contacts g !! id) as [c|] eqn:Hc;
      (apply contact_write_set; [done|]); by destruct (GetContactState id g).
  - by left.
  - unfold OnIncomingMessage. destruct (contacts g !! id) as [c|] eqn:Hc;
      (apply contact_write_set; [done|]); by destruct (GetContactState id g).
  - unfold RecordMessage. destruct (contacts g !! id) as [c|] eqn:Hc; [|by left].
    eapply contact_write_keep; [done|]. cbn. apply rollContact_state.
Qed.

(** A relationship only grows: no sequence of operations lowers the state
    of any contact (stranger, handshake sent, handshake complete, known). *)
Theorem contact_state_grows cfg loc g ops id :
  rank (GetContactState id g) <= rank (GetContactState id (run_ops cfg loc g ops)).
Proof.
  unfold run_ops. revert g. induction ops as [|o ops IH]; intros g; simpl; [lia|].
  etransitivity; [|apply IH].
  destruct (apply_op_writes cfg loc g o) as [Heq|(k & c & Heq & _ & Hr)];
    unfold GetContactState in *; rewrite Heq; [lia|].
  rewrite lookup_insert. destruct (decide (k = id)) as [->|]; [done|lia].
Qed.

Definition no_stranger (g : ContactGraphWarmer) : Prop :=
  forall id c, contacts g !! id = Some c -> State c <> ContactStranger.

Lemma no_stranger_run cfg loc ops g :
  no_stranger g -> no_stranger (run_ops cfg loc g ops).
Proof.
  unfold run_ops. revert g. induction ops as [|o ops IH]; intros g Hg; simpl; [done|].
  apply IH. intros id c'.
  destruct (apply_op_writes cfg loc g o) as [Heq|(k & c & Heq & Hs & _)]; rewrite Heq; [apply Hg|].
  rewrite lookup_insert. destruct (decide (k = id)) as [->|]; [|apply Hg].
  intros [= <-] Hst. destruct (Hs Hst) as (c0 & Hc0 & Hst0). by apply (Hg id c0).
Qed.

(** The stranger quota is never applied: after any sequence of
    operations, a message to a person (not a group) is allowed, whatever
    [MaxStrangerPerDay] is and however many messages were recorded.  A stranger
    has no entry, so it has no counter, and every operation that creates an
    entry takes the contact out of the stranger state. *)
Theorem stranger_quota_unenforced cfg loc ops now id :
  (CanMessage cfg loc now id false (run_ops cfg loc NewContactGraphWarmer ops)).1 = true.
Proof.
  set (g := run_ops _ _ _ _).
  assert (no_stranger g) as Hg
    by (apply no_stranger_run; intros k c; cbn; by rewrite lookup_empty).
  unfold CanMessage. destruct (contacts g !! id) as [c|] eqn:Hc; [|done].
  rewrite bool_decide_false; [done|]. rewrite rollContact_state. by eapply Hg.
Qed.

(** A group is closed to messages exactly while its lurk period runs. *)
Lemma CanMessage_group cfg loc now id g :
  (CanMessage cfg loc now id true g).1 = false <->
  exists joined, groups g !! id = Some joined /\ 0 < GroupLurkPeriod cfg /\
    Since now joined < GroupLurkPeriod cfg.
Proof.
  unfold CanMessage. destruct (groups g !! id) as [j|] eqn:Hj; [|naive_solver].
  destruct ((0 <? _) && _) eqn:Hb; simpl; bool_to_prop.
  - split; [|done]. intros _. eauto.
  - split; [done|]. intros (j' & [= <-] & H1 & H2). apply Z.ltb_lt in H1, H2.
    by rewrite H1, H2 in Hb.
Qed.

(** After a join, a group is closed for exactly the lurk period, whatever
    happens to contacts and to other groups in between. *)
Theorem group_lurk_enforced cfg loc g joined ops id now :
  Forall (fun o => o.1 <> OpGroupJoin id) ops ->
  in_int64 (now - joined) ->
  (CanMessage cfg loc now id true
     (run_ops cfg loc (RegisterGroupJoin joined id g) ops)).1 =
  negb ((0 <? GroupLurkPeriod cfg) && (now <? joined + GroupLurkPeriod cfg)).
Proof.
  intros Hops Hr. set (g' := run_ops _ _ _ _).
  assert (groups g' !! id = Some joined) as Hg.
  { subst g'. unfold run_ops.
    assert (groups (RegisterGroupJoin joined id g) !! id = Some joined) as H0
      by (cbn; by rewrite lookup_insert_eq).
    revert H0. generalize (RegisterGroupJoin joined id g). clear Hr.
    induction Hops as [|o ops Ho _ IH]; intros g0 H0; [done|]. apply IH.
    destruct o as [[k [] |k|k|k|k|k|k] t]; unfold apply_op; cbn [fst snd] in *;
      unfold CanMessage, MarkHandshakeSent, MarkHandshakeComplete, RegisterKnownContact,
        OnIncomingMessage, RecordMessage, RegisterGroupJoin;
      repeat case_match; try exact H0. cbn. by rewrite lookup_insert_ne by congruence. }
  unfold CanMessage. rewrite Hg. unfold Since. rewrite Sub_exact by done.
  destruct (Z.ltb_spec 0 (GroupLurkPeriod cfg)); simpl; [|done].
  destruct (Z.ltb_spec (now - joined) (GroupLurkPeriod cfg)),
    (Z.ltb_spec now (joined + GroupLurkPeriod cfg)); try done; lia.
Qed.

Lemma group_lurk_enforced_witness :
  let cfg := zeroConfig <| GroupLurkPeriod := 100 |> in
  let g := run_ops cfg 0 (RegisterGroupJoin 5 "g" NewContactGraphWarmer)
             [(OpCanMessage "g" true, 6); (OpGroupJoin "h", 7); (OpIncoming "g", 8)] in
  (CanMessage cfg 0 104 "g" true g).1 = false /\ (CanMessage cfg 0 105 "g" true g).1 = true.
Proof.
  intros cfg g.
  assert (Forall (fun o : contact_op * Time => o.1 <> OpGroupJoin "g")
    [(OpCanMessage "g" true, 6); (OpGroupJoin "h", 7); (OpIncoming "g", 8)]) as Hops
    by (repeat constructor; discriminate).
  assert (in_int64 (104 - 5) /\ in_int64 (105 - 5)) as [H4 H5]
    by (unfold in_int64, min_int64, max_int64; lia).
  split.
  - exact (group_lurk_enforced cfg 0 NewContactGraphWarmer 5 _ "g" 104 Hops H4).
  - exact (group_lurk_enforced cfg 0 NewContactGraphWarmer 5 _ "g" 105 Hops H5).
Defined.
