(* ===== verification/ReconnectThrottle.v ===== *)
(** * [reconn_throttle.go]

    [PostReconnectThrottle] slows sends down after a reconnection: the
    multiplier rises from [ReconnectInitialRate] to 1 during
    [ReconnectRampDuration], and the delay is [MinDelayMs] over it. *)
From S2P Require Import Prelude GoTime GoFloat Config.

Record PostReconnectThrottle : Type := mkThrottle {
  reconnectAt : Time;
  disconnectAt : Time;
  sentAfter : Z;
  steps : Z
}.
#[export] Instance eta_PostReconnectThrottle : Eta PostReconnectThrottle := fun p =>
  mkThrottle (reconnectAt p) (disconnectAt p) (sentAfter p) (steps p).

Definition NewPostReconnectThrottle : PostReconnectThrottle := mkThrottle zeroTime zeroTime 0 0.

Definition OnReconnect (now : Time) (prt : PostReconnectThrottle) : PostReconnectThrottle :=
  prt <| reconnectAt := now |> <| sentAfter := 0 |>.

Definition OnDisconnect (now : Time) (prt : PostReconnectThrottle) : PostReconnectThrottle :=
  prt <| disconnectAt := now |>.

(** [progress := elapsed / ramp] and the rate it gives *)
Definition rampMultiplier (cfg : Config) (elapsed : Duration) : float64 :=
  let progress := fdiv (Seconds elapsed) (Seconds (ReconnectRampDuration cfg)) in
  fadd (ReconnectInitialRate cfg) (fmul (fsub fone (ReconnectInitialRate cfg)) progress).

Definition idealDelay (cfg : Config) (multiplier : float64) : Duration :=
  dur_mul (to_int (fdiv (of_int (MinDelayMs cfg)) multiplier)) Millisecond.

Definition BeforeSend (cfg : Config) (now : Time) (prt : PostReconnectThrottle)
  : Duration * PostReconnectThrottle :=
  if IsZero (reconnectAt prt) then (0, prt)
  else
    let elapsed := Since now (reconnectAt prt) in
    if ReconnectRampDuration cfg <=? elapsed
    then (0, prt <| reconnectAt := zeroTime |> <| sentAfter := 0 |>)
    else
      let multiplier := rampMultiplier cfg elapsed in
      let prt := prt <| sentAfter := sentAfter prt + 1 |> in
      let prt := if steps prt <? sentAfter prt then prt <| steps := sentAfter prt |> else prt in
      (idealDelay cfg multiplier, prt).

Definition getCurrentMultiplier (cfg : Config) (now : Time) (prt : PostReconnectThrottle) : float64 :=
  if IsZero (reconnectAt prt) then fone
  else
    let elapsed := Since now (reconnectAt prt) in
    if ReconnectRampDuration cfg <=? elapsed then fone else rampMultiplier cfg elapsed.
Definition GetCurrentMultiplier := getCurrentMultiplier.

Definition GetStats (cfg : Config) (now now' : Time) (prt : PostReconnectThrottle) : gmap string Any :=
  let mult := getCurrentMultiplier cfg now prt in
  list_to_map [("multiplier", AFloat (fdiv (fRound (fmul mult (of_int 100))) (of_int 100)));
               ("sent_after", AInt (sentAfter prt));
               ("reconnected_s", AFloat (Seconds (Since now' (reconnectAt prt))));
               ("ramp_duration_s", AFloat (Seconds (ReconnectRampDuration cfg)))].

Definition Destroy (prt : PostReconnectThrottle) : PostReconnectThrottle :=
  prt <| reconnectAt := zeroTime |> <| disconnectAt := zeroTime |>
      <| sentAfter := 0 |> <| steps := 0 |>.

(** * Properties *)

(** The sends at the given clock readings, oldest first, and their delays. *)
Fixpoint send_run (cfg : Config) (times : list Time) (prt : PostReconnectThrottle)
  : list Duration * PostReconnectThrottle :=
  match times with
  | [] => ([], prt)
  | now :: times =>
      let '(d, prt) := BeforeSend cfg now prt in
      let '(ds, prt) := send_run cfg times prt in (d :: ds, prt)
  end.

Lemma BeforeSend_idle cfg now prt : reconnectAt prt = zeroTime -> BeforeSend cfg now prt = (0, prt).
Proof. intros H. unfold BeforeSend, IsZero. by rewrite H. Qed.

Lemma send_run_idle cfg times prt :
  reconnectAt prt = zeroTime -> send_run cfg times prt = (map (fun _ => 0) times, prt).
Proof.
  intros H. induction times as [|t times IH]; simpl; [done|]. by rewrite BeforeSend_idle, IH by done.
Qed.

(** A send during the ramp leaves the reconnection time in place. *)
Lemma BeforeSend_ramp cfg now prt :
  reconnectAt prt <> zeroTime -> Since now (reconnectAt prt) < ReconnectRampDuration cfg ->
  (BeforeSend cfg now prt).1 = idealDelay cfg (rampMultiplier cfg (Since now (reconnectAt prt))) /\
  reconnectAt (BeforeSend cfg now prt).2 = reconnectAt prt /\
  sentAfter (BeforeSend cfg now prt).2 = sentAfter prt + 1.
Proof.
  intros Hz Hlt. unfold BeforeSend, IsZero. rewrite (proj2 (Z.eqb_neq _ _)) by done.
  rewrite (proj2 (Z.leb_gt _ _)) by done. by destruct (steps _ <? _).
Qed.

(** The throttle is a ramp and then nothing.  For sends at non-decreasing
    clock readings after a reconnection, every send within the ramp waits for
    [MinDelayMs] over the current multiplier and is counted, and from the first
    send past the ramp on, none waits. *)
Theorem throttle_ramp cfg t0 prt during after :
  t0 <> zeroTime -> 0 < ReconnectRampDuration cfg ->
  Forall (fun now => Since now t0 < ReconnectRampDuration cfg) during ->
  (forall now, head after = Some now -> ReconnectRampDuration cfg <= Since now t0) ->
  let '(ds, prt') := send_run cfg (during ++ after) (OnReconnect t0 prt) in
  ds = map (fun now => idealDelay cfg (rampMultiplier cfg (Since now t0))) during
       ++ map (fun _ => 0) after /\
  (after = [] -> sentAfter prt' = Z.of_nat (length during)) /\
  (after <> [] -> reconnectAt prt' = zeroTime /\ sentAfter prt' = 0).
Proof.
  intros Hz _ Hd Ha.
  enough (forall p, reconnectAt p = t0 ->
    let '(ds, prt') := send_run cfg (during ++ after) p in
    ds = map (fun now => idealDelay cfg (rampMultiplier cfg (Since now t0))) during
         ++ map (fun _ => 0) after /\
    (after = [] -> sentAfter prt' = sentAfter p + Z.of_nat (length during)) /\
    (after <> [] -> reconnectAt prt' = zeroTime /\ sentAfter prt' = 0)) as Hg.
  { specialize (Hg (OnReconnect t0 prt) eq_refl). by destruct (send_run _ _ _). }
  induction Hd as [|now during Hnow _ IH]; intros p Hp; simpl.
  - destruct after as [|now after]; simpl; [split_and!; [done|lia|done]|].
    specialize (Ha now eq_refl). unfold BeforeSend at 1, IsZero. rewrite Hp.
    rewrite (proj2 (Z.eqb_neq _ _)), (proj2 (Z.leb_le _ _)) by done.
    by rewrite send_run_idle.
  - destruct (BeforeSend_ramp cfg now p) as (H1 & H2 & H3); [congruence..|].
    specialize (IH (BeforeSend cfg now p).2 ltac:(congruence)).
    destruct (BeforeSend cfg now p) as [d p']. cbn [fst snd] in *.
    destruct (send_run cfg (during ++ after) p') as [ds p''].
    destruct IH as (-> & Hn & Hc). rewrite Hp in H1. subst d. split_and!; [done| |done].
    intros E. specialize (Hn E). lia.
Qed.

Lemma throttle_ramp_witness :
  let cfg := DefaultConfig PresetModerate in
  let '(ds, prt') := send_run cfg ([1; 2] ++ [90 * Second + 1; 5]) (OnReconnect 1 NewPostReconnectThrottle) in
  ds = [idealDelay cfg (rampMultiplier cfg 0); idealDelay cfg (rampMultiplier cfg 1); 0; 0] /\
  sentAfter prt' = 0.
Proof.
  pose proof (throttle_ramp (DefaultConfig PresetModerate) 1 NewPostReconnectThrottle
    [1; 2] [90 * Second + 1; 5] ltac:(discriminate) ltac:(vm_compute; reflexivity)
    ltac:(repeat constructor) ltac:(intros now [= <-]; vm_compute; discriminate)) as H.
  cbv zeta. destruct (send_run _ _ _) as [ds p]. destruct H as (-> & _ & H).
  split; [reflexivity|]. apply H. discriminate.
Defined.

(** Right after a reconnection each preset waits its floor over its initial
    rate: 30 s, 6 s, 1 s and 285 ms. *)
Lemma initial_delays :
  map (fun p => (BeforeSend (DefaultConfig p) Hour (OnReconnect Hour NewPostReconnectThrottle)).1)
      [PresetConservative; PresetModerate; PresetAggressive; PresetHighVolume] =
  [30 * Second; 6 * Second; 1 * Second; 285 * Millisecond].
Proof. vm_compute. reflexivity. Qed.

(** The multiplier a monitor reads is the one a send at that time uses. *)
Lemma multiplier_agrees cfg now prt :
  (BeforeSend cfg now prt).1 =
  if bool_decide (reconnectAt prt = zeroTime \/
                  ReconnectRampDuration cfg <= Since now (reconnectAt prt))
  then 0 else idealDelay cfg (GetCurrentMultiplier cfg now prt).
Proof.
  unfold BeforeSend, GetCurrentMultiplier, getCurrentMultiplier, IsZero.
  destruct (Z.eqb_spec (reconnectAt prt) zeroTime) as [Hz|Hz].
  { by rewrite bool_decide_true by (by left). }
  destruct (Z.leb_spec (ReconnectRampDuration cfg) (Since now (reconnectAt prt))).
  { by rewrite bool_decide_true by (by right). }
  rewrite bool_decide_false by (intros [?|?]; [done|lia]). by destruct (steps _ <? _).
Qed.
