(* ===== verification/Scheduler.v ===== *)
(** * [scheduler.go]

    [Scheduler] holds nothing but the configuration: active hours, and a speed
    factor from the weekday and the hour.  Every method reads the clock, some
    several times; each reading is an argument. *)
From S2P Require Import Prelude GoTime GoFloat Config.

Definition isActiveTime (cfg : Config) (loc : Location) (now : Time) : bool :=
  let hour := HourOf loc now in
  let weekday := Weekday loc now in
  if ActiveHourStart cfg <=? ActiveHourEnd cfg then
    if (hour <? ActiveHourStart cfg) || (ActiveHourEnd cfg <=? hour) then false
    else if bool_decide (weekday = Saturday) || bool_decide (weekday = Sunday) then true else true
  else
    if (hour <? ActiveHourStart cfg) && (ActiveHourEnd cfg <=? hour) then false
    else if bool_decide (weekday = Saturday) || bool_decide (weekday = Sunday) then true else true.
Definition IsActiveTime := isActiveTime.

Definition GetSpeedFactor (cfg : Config) (loc : Location) (now : Time) : float64 :=
  let weekday := Weekday loc now in
  let hour := HourOf loc now in
  let factor := fone in
  let factor :=
    if bool_decide (weekday = Saturday) || bool_decide (weekday = Sunday)
    then fmul factor (WeekendFactor cfg) else factor in
  let factor :=
    if (PeakHourStart cfg <=? hour) && (hour <? PeakHourEnd cfg)
    then fmul factor (fadd fone (PeakBoost cfg)) else factor in
  if (12 <=? hour) && (hour <=? 14) then fmul factor (fconst 7 1) else factor.

Definition AdjustDelay (cfg : Config) (loc : Location) (now : Time) (delay : Duration) : Duration :=
  let factor := GetSpeedFactor cfg loc now in
  to_int (fdiv (of_int delay) factor).

(** Three readings: in [IsActiveTime], [time.Now] and [time.Until]. *)
Definition MsUntilActive (cfg : Config) (loc : Location) (now1 now2 now3 : Time) : Duration :=
  if IsActiveTime cfg loc now1 then 0
  else
    let next := DateToday loc now2 (ActiveHourStart cfg) in
    let next := if decide (After next now2) then next else Add next (24 * Hour) in
    Until now3 next.

Definition GetStatus (cfg : Config) (loc : Location) (t1 t2 t3 t4 t5 : Time) : gmap string Any :=
  list_to_map [("active", ABool (IsActiveTime cfg loc t1));
               ("speed", AFloat (GetSpeedFactor cfg loc t2));
               ("next_ms", AInt64 (Milliseconds (MsUntilActive cfg loc t3 t4 t5)))].

(** * Properties *)

(** The active hours as a set of hours. *)
Definition active_hour (cfg : Config) (hour : Z) : Prop :=
  if decide (ActiveHourStart cfg <= ActiveHourEnd cfg)
  then ActiveHourStart cfg <= hour < ActiveHourEnd cfg
  else ActiveHourStart cfg <= hour \/ hour < ActiveHourEnd cfg.

Lemma isActiveTime_spec cfg loc now :
  isActiveTime cfg loc now = true <-> active_hour cfg (HourOf loc now).
Proof.
  unfold isActiveTime, active_hour.
  destruct (Z.leb_spec (ActiveHourStart cfg) (ActiveHourEnd cfg)), (decide _); try lia;
  destruct (Z.ltb_spec (HourOf loc now) (ActiveHourStart cfg)),
    (Z.leb_spec (ActiveHourEnd cfg) (HourOf loc now)); simpl; repeat case_match;
    split; try done; lia.
Qed.

Definition hours_ok (cfg : Config) : Prop :=
  0 <= ActiveHourStart cfg < 24 /\ 0 <= ActiveHourEnd cfg <= 24 /\
  ActiveHourStart cfg <> ActiveHourEnd cfg.

(** The instant [MsUntilActive] waits for, when the clock stands still. *)
Definition next_start (cfg : Config) (loc : Location) (now : Time) : Time :=
  let next := DateToday loc now (ActiveHourStart cfg) in
  if decide (After next now) then next else Add next (24 * Hour).

Lemma next_start_bounds cfg loc now :
  0 <= ActiveHourStart cfg < 24 -> now < next_start cfg loc now <= now + 24 * Hour.
Proof.
  intros Hs. unfold next_start, After, Add, DateToday, local_day.
  pose proof (local_seconds_bounds loc now) as Hb.
  set (s := local_seconds loc now) in *.
  pose proof (Z.div_mod s 86400 ltac:(lia)). pose proof (Z.mod_pos_bound s 86400 ltac:(lia)).
  unfold Hour, Minute, Second, Millisecond in *. destruct (decide _); lia.
Qed.

(** The hours of the instants from [now] to the next start: those of the rest
    of the day while it is before the start, then those before the start. *)
Lemma hours_before_start cfg loc now t :
  0 <= ActiveHourStart cfg < 24 -> now <= t < next_start cfg loc now ->
  HourOf loc t < ActiveHourStart cfg /\ HourOf loc now <= HourOf loc t \/
  ActiveHourStart cfg <= HourOf loc now /\
    (HourOf loc now <= HourOf loc t \/ HourOf loc t < ActiveHourStart cfg).
Proof.
  intros Hs. unfold next_start, After, Add, DateToday, local_day, HourOf.
  pose proof (local_seconds_bounds loc now) as Hb. pose proof (local_seconds_bounds loc t) as Hb'.
  set (s := local_seconds loc now) in *. set (s' := local_seconds loc t) in *.
  intros [Hle Hlt]. assert (s <= s') as Hss by (unfold Second, Millisecond in *; lia).
  assert (s' < s / 86400 * 86400 + ActiveHourStart cfg * 3600 \/
          s / 86400 * 86400 + ActiveHourStart cfg * 3600 <= s /\
          s' < s / 86400 * 86400 + 86400 + ActiveHourStart cfg * 3600) as Hcase.
  { unfold Hour, Minute, Second, Millisecond in *.
    destruct (decide _); [left|right]; lia. }
  clear Hb Hb' Hle Hlt. revert Hcase Hss Hs. generalize (ActiveHourStart cfg).
  generalize s' s. clear. intros s' s h Hcase Hss Hh.
  pose proof (Z.div_mod s 86400 ltac:(lia)). pose proof (Z.mod_pos_bound s 86400 ltac:(lia)).
  pose proof (Z.div_mod s' 86400 ltac:(lia)). pose proof (Z.mod_pos_bound s' 86400 ltac:(lia)).
  revert Hcase. generalize dependent (s mod 86400). generalize dependent (s / 86400).
  generalize dependent (s' mod 86400). generalize dependent (s' / 86400).
  intros q' r' E' B' q r E B Hcase.
  pose proof (Z.div_mod r 3600 ltac:(lia)). pose proof (Z.mod_pos_bound r 3600 ltac:(lia)).
  pose proof (Z.div_mod r' 3600 ltac:(lia)). pose proof (Z.mod_pos_bound r' 3600 ltac:(lia)).
  lia.
Qed.

Lemma next_start_hour cfg loc now :
  0 <= ActiveHourStart cfg < 24 -> HourOf loc (next_start cfg loc now) = ActiveHourStart cfg.
Proof.
  intros Hs. unfold next_start.
  assert (forall k, HourOf loc (DateToday loc now (ActiveHourStart cfg) + k * (24 * Hour))
                    = ActiveHourStart cfg) as Hk.
  { intros k. unfold HourOf, local_seconds, DateToday.
    replace ((local_day loc now * 86400 + ActiveHourStart cfg * 3600 - loc) * Second + k * (24 * Hour))
      with ((local_day loc now * 86400 + ActiveHourStart cfg * 3600 - loc + k * 86400) * Second)
      by (unfold Hour, Minute; lia).
    rewrite Z.div_mul by (unfold Second, Millisecond; lia).
    replace (local_day loc now * 86400 + ActiveHourStart cfg * 3600 - loc + k * 86400 + loc)
      with (ActiveHourStart cfg * 3600 + (local_day loc now + k) * 86400) by lia.
    rewrite Z.mod_add by lia. rewrite Z.mod_small by lia. by rewrite Z.div_mul by lia. }
  destruct (decide _).
  - by rewrite <- (Hk 0) at 2; rewrite Z.mul_0_l, Z.add_0_r.
  - unfold Add. by rewrite <- (Hk 1) at 2; rewrite Z.mul_1_l.
Qed.

(** Waiting [MsUntilActive] is exactly right: when the scheduler is
    inactive and the hours are not degenerate, it is inactive at every instant
    until then, active at that instant, and the wait is at most 24 hours. *)
Theorem MsUntilActive_exact cfg loc now :
  hours_ok cfg -> isActiveTime cfg loc now = false ->
  let d := MsUntilActive cfg loc now now now in
  0 < d <= 24 * Hour /\ isActiveTime cfg loc (now + d) = true /\
  forall t, now <= t < now + d -> isActiveTime cfg loc t = false.
Proof.
  intros (Hs & He & Hne) Hi d.
  pose proof (next_start_bounds cfg loc now Hs) as Hb.
  assert (now + d = next_start cfg loc now) as Hd.
  { subst d. unfold MsUntilActive, IsActiveTime. rewrite Hi. fold (next_start cfg loc now).
    unfold Until. rewrite Sub_exact; [lia|].
    unfold in_int64, min_int64, max_int64, Hour, Minute, Second, Millisecond in *. lia. }
  split_and!; [lia|lia| |].
  - rewrite Hd. apply isActiveTime_spec. rewrite next_start_hour by done.
    unfold active_hour. destruct (decide _); lia.
  - intros t Ht. rewrite Hd in Ht. apply not_true_iff_false. rewrite isActiveTime_spec.
    apply not_true_iff_false in Hi. rewrite isActiveTime_spec in Hi.
    pose proof (hours_before_start cfg loc now t Hs Ht).
    unfold active_hour in *. destruct (decide _); lia.
Qed.

Lemma MsUntilActive_exact_witness :
  let cfg := zeroConfig <| ActiveHourStart := 22 |> <| ActiveHourEnd := 6 |> in
  isActiveTime cfg 0 (7 * Hour + MsUntilActive cfg 0 (7 * Hour) (7 * Hour) (7 * Hour)) = true.
Proof.
  intros cfg. apply (MsUntilActive_exact cfg 0 (7 * Hour)).
  - vm_compute. repeat split; discriminate.
  - vm_compute. reflexivity.
Defined.

(** The three clock readings of [MsUntilActive] race: when the start hour
    strikes between the first and the second, the scheduler is active but the
    caller is told to wait for a day. *)
Theorem MsUntilActive_race cfg loc now :
  hours_ok cfg ->
  let start := DateToday loc now (ActiveHourStart cfg) in
  isActiveTime cfg loc (start - 1) = false ->
  MsUntilActive cfg loc (start - 1) start start = 24 * Hour /\ isActiveTime cfg loc start = true.
Proof.
  intros (Hs & He & Hne) start Hi.
  assert (local_day loc start = local_day loc now) as Hday by (by apply DateToday_local_day).
  assert (DateToday loc start (ActiveHourStart cfg) = start) as Hst
    by (unfold DateToday at 1; by rewrite Hday).
  split.
  - unfold MsUntilActive, IsActiveTime. rewrite Hi, Hst. unfold After, Until, Add.
    rewrite decide_False by lia. rewrite Sub_exact; [lia|].
    unfold in_int64, min_int64, max_int64, Hour, Minute, Second, Millisecond. lia.
  - apply isActiveTime_spec. rewrite (proj2 (HourOf_DateToday loc start _ Hs)).
    + unfold active_hour. destruct (decide _); lia.
    + rewrite Hst. split; [lia|]. rewrite <- Hst at 1.
      unfold DateToday, Second, Millisecond. lia.
Qed.

Lemma MsUntilActive_race_witness :
  let cfg := zeroConfig <| ActiveHourStart := 8 |> <| ActiveHourEnd := 20 |> in
  MsUntilActive cfg 0 (8 * Hour - 1) (8 * Hour) (8 * Hour) = 24 * Hour.
Proof.
  intros cfg. apply (MsUntilActive_race cfg 0 (3 * Hour)).
  - vm_compute. repeat split; discriminate.
  - vm_compute. reflexivity.
Defined.

(** With equal hours the scheduler is never active. *)
Lemma equal_hours_never_active cfg loc now :
  ActiveHourStart cfg = ActiveHourEnd cfg -> isActiveTime cfg loc now = false.
Proof.
  intros H. apply not_true_iff_false. rewrite isActiveTime_spec. unfold active_hour.
  destruct (decide _); lia.
Qed.
