(* ===== verification/BanRecovery.v ===== *)
(** * [ban_recovery.go]

    [BanRecoveryOrchestrator]: a phase machine driven by ban events and by
    [Tick], and [ClassifyError], which reads a ban type off an error text. *)
From S2P Require Import Prelude Window GoTime GoFloat GoStrings Config.

(** ** Classification *)

(** [s[i:j]]; the code only slices within bounds. *)
Definition slice (s : string) (i j : nat) : string := take_str (j - i) (drop_str i s).

Fixpoint searchString_from (fuel i : nat) (s substr : string) : bool :=
  match fuel with
  | O => false
  | S fuel =>
      if (i <=? String.length s - String.length substr)%nat then
        if String.eqb (slice s i (i + String.length substr)) substr then true
        else searchString_from fuel (S i) s substr
      else false
  end.
(** The loop condition is on signed integers: it fails at once when [substr]
    is longer.  [len(s) - len(substr) + 2] iterations are enough. *)
Definition searchString (s substr : string) : bool :=
  if (String.length s <? String.length substr)%nat then false
  else searchString_from (String.length s - String.length substr + 2) 0 s substr.

Definition contains (s substr : string) : bool :=
  (String.length substr <=? String.length s)%nat && searchString s substr.

(** [err] is [None] for a nil error and the result of [Error()] otherwise. *)
Definition ClassifyError (err : option string) : BanType :=
  match err with
  | None => BanNone
  | Some errStr =>
      if contains errStr "463" || contains errStr "reachout" then BanTimelock
      else if contains errStr "429" || contains errStr "rate-overlimit" then BanRateOverlimit
      else if contains errStr "405" || contains errStr "client_outdated" then BanSoft
      else if contains errStr "401" || contains errStr "logged_out"
              || contains errStr "device_removed" then BanHard
      else if contains errStr "402" || contains errStr "temp_ban"
              || contains errStr "temporary_ban" then BanHard
      else BanSoft
  end.

(** ** The orchestrator *)

Record BanEvent : Type := mkBanEvent { Type_ : BanType; Timestamp : Time }.

Record BanRecoveryOrchestrator : Type := mkRecovery {
  phase : RecoveryPhase;
  banEvents : list BanEvent;
  rampDay : Z
}.
#[export] Instance eta_BanRecoveryOrchestrator : Eta BanRecoveryOrchestrator := fun b =>
  mkRecovery (phase b) (banEvents b) (rampDay b).

Definition NewBanRecoveryOrchestrator : BanRecoveryOrchestrator := mkRecovery PhaseGraduated [] 0.

Definition banWindow : Duration := 30 * 24 * Hour.

Definition pruneOldEvents (now : Time) (bro : BanRecoveryOrchestrator) : BanRecoveryOrchestrator :=
  let cutoff := Add now (- banWindow) in
  bro <| banEvents := compact (fun e => After (Timestamp e) cutoff) (banEvents bro) |>.

(** The phase an event leads to. *)
Definition nextPhase (cfg : Config) (recentBans : Z) (t : BanType) (p : RecoveryPhase) : RecoveryPhase :=
  match t with
  | BanTimelock => PhasePaused
  | BanRateOverlimit => PhasePaused
  | BanSoft => if recentBans >=? MaxBansBeforeHard cfg then PhaseDead else PhaseRecovering
  | BanHard => if recentBans >=? MaxBansBeforeHard cfg then PhaseDead else PhasePaused
  | BanNone => p
  end.

(** [now] and [now'] are the clock readings of the count and of the pruning. *)
Definition RecordBanEvent (cfg : Config) (now now' : Time) (event : BanEvent)
    (bro : BanRecoveryOrchestrator) : BanRecoveryOrchestrator :=
  let bro := bro <| banEvents := banEvents bro ++ [event] |> in
  let cutoff := Add now (- banWindow) in
  let recentBans := Z.of_nat (length (filter (fun e => After (Timestamp e) cutoff) (banEvents bro))) in
  let bro := pruneOldEvents now' bro in
  bro <| phase := nextPhase cfg recentBans (Type_ event) (phase bro) |> <| rampDay := 1 |>.

Definition Tick (bro : BanRecoveryOrchestrator) : BanRecoveryOrchestrator :=
  match phase bro with
  | PhasePaused => bro <| phase := PhaseRecovering |>
  | PhaseRecovering => bro <| phase := PhaseRamping |> <| rampDay := 1 |>
  | PhaseRamping =>
      let bro := bro <| rampDay := rampDay bro + 1 |> in
      if rampDay bro >? 7 then bro <| phase := PhaseGraduated |> else bro
  | _ => bro
  end.

Definition getRateMultiplier (cfg : Config) (bro : BanRecoveryOrchestrator) : float64 :=
  match phase bro with
  | PhasePaused => fzero
  | PhaseRecovering => RecoveryRampPct cfg
  | PhaseRamping =>
      let progress := fdiv (of_int (rampDay bro)) (of_int 7) in
      let progress := if fgtb progress fone then fone else progress in
      fadd (RecoveryRampPct cfg) (fmul (fsub fone (RecoveryRampPct cfg)) progress)
  | PhaseGraduated => fone
  | PhaseDead => fzero
  end.
Definition GetRateMultiplier := getRateMultiplier.

Definition phase_string (p : RecoveryPhase) : string :=
  match p with
  | PhasePaused => "paused" | PhaseRecovering => "recovering" | PhaseRamping => "ramping"
  | PhaseGraduated => "graduated" | PhaseDead => "dead"
  end.

Definition GetStatus (cfg : Config) (now : Time) (bro : BanRecoveryOrchestrator)
  : gmap string Any * BanRecoveryOrchestrator :=
  let bro := pruneOldEvents now bro in
  let mult := getRateMultiplier cfg bro in
  (list_to_map [("phase", AString (phase_string (phase bro))); ("ramp_day", AInt (rampDay bro));
                ("rate_mult", AFloat (fdiv (fRound (fmul mult (of_int 100))) (of_int 100)));
                ("recent_bans_30d", AInt (Z.of_nat (length (banEvents bro))))], bro).

Definition Reset (bro : BanRecoveryOrchestrator) : BanRecoveryOrchestrator :=
  bro <| phase := PhaseGraduated |> <| banEvents := [] |> <| rampDay := 0 |>.

(** * Properties *)

(** ** The hand-written search is [strings.Contains] *)

Lemma take_str_prefix s p :
  String.eqb (take_str (String.length p) s) p = has_prefix s p.
Proof.
  revert s. induction p as [|c p IH]; intros [|d s]; simpl; try done.
  rewrite <- IH. destruct (ascii_dec c d) as [->|Hcd].
  - by rewrite Ascii.eqb_refl.
  - by rewrite (proj2 (Ascii.eqb_neq d c)) by congruence.
Qed.

Lemma str_contains_short s p : (String.length s < String.length p)%nat -> str_contains s p = false.
Proof.
  intros Hl. apply not_true_iff_false. rewrite str_contains_spec. intros (a & b & ->).
  rewrite !length_append in Hl. lia.
Qed.

Lemma searchString_from_spec fuel i s p :
  (i <= String.length s)%nat -> (String.length p <= String.length s)%nat ->
  (String.length s - String.length p + 2 <= fuel + i)%nat ->
  searchString_from fuel i s p = str_contains (drop_str i s) p.
Proof.
  revert i. induction fuel as [|fuel IH]; intros i Hi Hp Hf;
    (assert (String.length (drop_str i s) = (String.length s - i)%nat) as Hlen;
      [|simpl; try (symmetry; apply str_contains_short; lia)]).
  1, 2: pose proof (take_drop_str i s) as H; apply (f_equal String.length) in H;
    rewrite length_append, length_take_str in H; lia.
  destruct (Nat.leb_spec i (String.length s - String.length p)).
  - unfold slice. replace (i + String.length p - i)%nat with (String.length p) by lia.
    rewrite take_str_prefix. destruct (drop_str i s) as [|c s'] eqn:Hd; cbn [String.length] in Hlen; cbn [str_contains].
    + destruct p as [|c p]; [done|]. simpl in *. lia.
    + destruct (has_prefix (String c s') p); [done|]. cbn [orb]. rewrite IH by lia.
      f_equal. clear -Hd. revert s Hd. induction i as [|i IH]; intros [|d s] Hd; simpl in *; try done.
      * congruence.
      * by apply IH.
  - symmetry. apply str_contains_short. lia.
Qed.

(** [contains] decides the substring relation, on all strings. *)
Theorem contains_correct s p :
  contains s p = true <-> exists a b, s = a +:+ p +:+ b.
Proof.
  rewrite <- str_contains_spec. unfold contains, searchString.
  destruct (Nat.leb_spec (String.length p) (String.length s)) as [Hl|Hl]; simpl.
  - rewrite (proj2 (Nat.ltb_ge _ _)) by lia. rewrite searchString_from_spec by lia. done.
  - rewrite str_contains_short by lia. done.
Qed.

(** ** The phases *)

(** The texts for which an error is a soft ban: none of the known markers. *)
Lemma ClassifyError_unknown err :
  Forall (fun p => contains err p = false)
    ["463"; "reachout"; "429"; "rate-overlimit"; "401"; "logged_out"; "device_removed";
     "402"; "temp_ban"; "temporary_ban"] ->
  ClassifyError (Some err) = BanSoft.
Proof.
  intros H. unfold ClassifyError. repeat (apply Forall_cons in H as [-> H]). simpl.
  by destruct (_ || _).
Qed.

Fixpoint ticks (n : nat) (bro : BanRecoveryOrchestrator) : BanRecoveryOrchestrator :=
  match n with O => bro | S n => ticks n (Tick bro) end.

(** The non-decreasing sequence of rate multipliers of a recovery. *)
Fixpoint fsorted (l : list float64) : bool :=
  match l with
  | x :: (y :: _) as tl => fleb x y && fsorted tl
  | _ => true
  end.

(** A pause is recovered from in exactly nine ticks, whatever the events
    recorded before: one tick recovering, seven ramping, then graduated, with
    a rate multiplier that never drops and ends at 1; more ticks change
    nothing. *)
Theorem recovery_schedule cfg now now' event bro :
  RecoveryRampPct cfg = fconst 25 2 ->
  nextPhase cfg (Z.of_nat (length (filter (fun e => After (Timestamp e) (Add now (- banWindow)))
    (banEvents bro ++ [event])))) (Type_ event) (phase bro) = PhasePaused ->
  let b := RecordBanEvent cfg now now' event bro in
  map (fun n => phase (ticks n b)) (seq 0 11) =
    [PhasePaused; PhaseRecovering; PhaseRamping; PhaseRamping; PhaseRamping; PhaseRamping;
     PhaseRamping; PhaseRamping; PhaseRamping; PhaseGraduated; PhaseGraduated] /\
  fsorted (map (fun n => getRateMultiplier cfg (ticks n b)) (seq 0 11)) = true /\
  getRateMultiplier cfg (ticks 9 b) = fone /\
  forall n, phase (ticks (9 + n) b) = PhaseGraduated.
Proof.
  intros Hpct Hp b.
  assert (exists evs, b = mkRecovery PhasePaused evs 1) as [evs ->].
  { unfold b, RecordBanEvent. cbn -[nextPhase banWindow]. unfold upd. cbn -[nextPhase banWindow].
    rewrite Hp. eauto. }
  clear Hp. unfold getRateMultiplier. rewrite Hpct. split_and!.
  - reflexivity.
  - vm_compute. reflexivity.
  - reflexivity.
  - intros n. change (ticks (9 + n) (mkRecovery PhasePaused evs 1))
      with (ticks n (mkRecovery PhaseGraduated evs 8)).
    by induction n.
Qed.

Lemma recovery_schedule_witness :
  phase (ticks 9 (RecordBanEvent (DefaultConfig PresetModerate) 5 6 (mkBanEvent BanTimelock 5)
                    NewBanRecoveryOrchestrator)) = PhaseGraduated.
Proof.
  apply (recovery_schedule (DefaultConfig PresetModerate) 5 6 (mkBanEvent BanTimelock 5)
    NewBanRecoveryOrchestrator eq_refl eq_refl).
Defined.

(** Ticks never leave the dead phase, but a timelock or rate-limit event does. *)
Lemma dead_under_ticks n bro : phase bro = PhaseDead -> phase (ticks n bro) = PhaseDead.
Proof.
  revert bro. induction n as [|n IH]; intros bro H; simpl; [done|]. apply IH.
  unfold Tick. by rewrite H.
Qed.

(** The dead phase is not final: a timelock event recorded by a dead
    orchestrator puts it back on the way to a full rate. *)
Theorem dead_revived cfg now now' t bro :
  phase bro = PhaseDead ->
  phase (ticks 9 (RecordBanEvent cfg now now' (mkBanEvent BanTimelock t) bro)) = PhaseGraduated.
Proof. intros _. reflexivity. Qed.

Lemma dead_revived_witness :
  phase (ticks 9 (RecordBanEvent zeroConfig 5 6 (mkBanEvent BanTimelock 5)
                    (mkRecovery PhaseDead [] 1))) = PhaseGraduated.
Proof. apply (dead_revived zeroConfig). reflexivity. Defined.

(** ** Which events kill *)

(** An orchestrator, the last clock reading, and the time stamps of the events
    recorded since the last reset, the newest first. *)
Inductive bro_step (cfg : Config) : relation (BanRecoveryOrchestrator * Time * list Time) :=
| bro_record b last h now now' ev :
    last <= now -> now <= now' ->
    bro_step cfg (b, last, h) (RecordBanEvent cfg now now' ev b, now', Timestamp ev :: h)
| bro_tick b last h : bro_step cfg (b, last, h) (Tick b, last, h)
| bro_status b last h now :
    last <= now -> bro_step cfg (b, last, h) ((GetStatus cfg now b).2, now, h)
| bro_reset b last h : bro_step cfg (b, last, h) (Reset b, last, []).

Definition bro_inv (s : BanRecoveryOrchestrator * Time * list Time) : Prop :=
  let '(b, last, h) := s in tracks banWindow last (Timestamp <$> banEvents b) h.

Lemma fmap_filter_stamp (P : Z -> Prop) `{!forall x, Decision (P x)} (l : list BanEvent) :
  Timestamp <$> filter (fun e => P (Timestamp e)) l = filter P (Timestamp <$> l).
Proof.
  induction l as [|e l IH]; [done|]. rewrite fmap_cons, !filter_cons.
  destruct (decide (P (Timestamp e))); by rewrite ?fmap_cons, IH.
Qed.

Lemma pruneOldEvents_stamps now b :
  Timestamp <$> banEvents (pruneOldEvents now b) =
  filter (fun x => now - banWindow < x) (Timestamp <$> banEvents b).
Proof.
  unfold pruneOldEvents. cbn [banEvents upd]. rewrite compact_filter.
  rewrite <- (fmap_filter_stamp (fun x => now - banWindow < x)). f_equal.
Qed.

Lemma Tick_events b : banEvents (Tick b) = banEvents b.
Proof. unfold Tick. destruct (phase b); try done. cbn. by destruct (_ >? 7). Qed.

Lemma bro_inv_preserved cfg : preserved (bro_step cfg) bro_inv.
Proof.
  intros s s' [b last h now now' ev Hl Hn|b last h|b last h now Hl|b last h] Hi;
    unfold bro_inv in *.
  - unfold RecordBanEvent. cbn [banEvents upd]. set (b1 := b <| banEvents := _ |>).
    change (banEvents _) with (banEvents (pruneOldEvents now' b1)).
    rewrite pruneOldEvents_stamps. subst b1. cbn [banEvents upd]. rewrite fmap_app. simpl.
    apply (tracks_prune banWindow last); [lia|]. by apply tracks_add.
  - by rewrite Tick_events.
  - change (GetStatus cfg now b).2 with (pruneOldEvents now b). rewrite pruneOldEvents_stamps.
    by apply (tracks_prune banWindow last).
  - apply tracks_nil.
Qed.

(** Pruning forgets nothing that matters: after any run with a
    non-decreasing clock, an event makes the orchestrator dead exactly when it
    is a soft or hard ban and the events stamped within the last 30 days, of
    all those recorded since the last reset, number [MaxBansBeforeHard]. *)
Theorem dead_iff_recent_bans cfg t0 b last h now now' ev :
  rtc (bro_step cfg) (NewBanRecoveryOrchestrator, t0, []) (b, last, h) -> last <= now ->
  Type_ ev <> BanNone ->
  phase (RecordBanEvent cfg now now' ev b) = PhaseDead <->
  (Type_ ev = BanSoft \/ Type_ ev = BanHard) /\
  MaxBansBeforeHard cfg <= Z.of_nat (count_after (now - banWindow) (Timestamp ev :: h)).
Proof.
  intros Hr Hl Ht.
  assert (bro_inv (b, last, h)) as Hi.
  { eapply rtc_preserved; [apply bro_inv_preserved|done|]. apply tracks_nil. }
  unfold RecordBanEvent. cbn [phase upd banEvents].
  set (l := filter _ (banEvents b ++ [ev])).
  assert (length l = count_after (now - banWindow) (Timestamp ev :: h)) as ->.
  { rewrite <- (tracks_count banWindow last now (Timestamp <$> (banEvents b ++ [ev])));
      [|done|by rewrite fmap_app; apply tracks_add].
    rewrite <- (fmap_filter_stamp (fun x => now - banWindow < x)), length_fmap. done. }
  unfold nextPhase. destruct (Type_ ev); try done;
    try (destruct (Z.geb_spec (Z.of_nat (count_after (now - banWindow) (Timestamp ev :: h)))
      (MaxBansBeforeHard cfg))); naive_solver lia.
Qed.

Lemma dead_iff_recent_bans_witness :
  phase (RecordBanEvent (DefaultConfig PresetModerate) 3 3 (mkBanEvent BanSoft 3)
    (RecordBanEvent (DefaultConfig PresetModerate) 2 2 (mkBanEvent BanTimelock 2)
       (RecordBanEvent (DefaultConfig PresetModerate) 1 1 (mkBanEvent BanSoft 1)
          NewBanRecoveryOrchestrator))) = PhaseDead.
Proof.
  refine (proj2 (dead_iff_recent_bans (DefaultConfig PresetModerate) 0 _ 2 [2; 1] 3 3
                   (mkBanEvent BanSoft 3) _ _ _) _).
  - eapply rtc_l; [apply (bro_record _ _ _ _ 1 1 (mkBanEvent BanSoft 1)); lia|].
    eapply rtc_l; [apply (bro_record _ _ _ _ 2 2 (mkBanEvent BanTimelock 2)); lia|].
    apply rtc_refl.
  - lia.
  - discriminate.
  - split; [by left|]. vm_compute. discriminate.
Defined.
