(* ===== verification/DeliveryTracker.v ===== *)
(** * [delivery_tracker.go]

    [DeliveryTracker] keeps the times of the messages sent and of the receipts
    of the last hour.  [onLowDeliveryRate] is [true] when a callback is
    registered; [checkAndAlert] returns the rates it passes to the callback in
    goroutines. *)
From S2P Require Import Prelude Window GoTime GoFloat Config.

Record DeliveryTracker : Type := mkTracker {
  sent : list Time;
  delivered : list Time;
  lastAlert : Time;
  onLowDeliveryRate : bool
}.
#[export] Instance eta_DeliveryTracker : Eta DeliveryTracker := fun d =>
  mkTracker (sent d) (delivered d) (lastAlert d) (onLowDeliveryRate d).

Definition NewDeliveryTracker : DeliveryTracker := mkTracker [] [] zeroTime false.

Definition OnLowDeliveryRate (dt : DeliveryTracker) : DeliveryTracker :=
  dt <| onLowDeliveryRate := true |>.

Definition prune (now : Time) (dt : DeliveryTracker) : DeliveryTracker :=
  let cutoff := Add now (- 1 * Hour) in
  let dt := dt <| sent := compact (fun t => After t cutoff) (sent dt) |> in
  dt <| delivered := compact (fun t => After t cutoff) (delivered dt) |>.

(** [now] is the time appended and [now'] the reading of [prune]. *)
Definition OnMessageSent (now now' : Time) (dt : DeliveryTracker) : DeliveryTracker :=
  prune now' (dt <| sent := sent dt ++ [now] |>).
Definition OnDeliveryReceipt (now now' : Time) (dt : DeliveryTracker) : DeliveryTracker :=
  prune now' (dt <| delivered := delivered dt ++ [now] |>).

Definition deliveryRate (dt : DeliveryTracker) : float64 :=
  fdiv (of_int (Z.of_nat (length (delivered dt)))) (of_int (Z.of_nat (length (sent dt)))).

Definition checkAndAlert (cfg : Config) (now now' : Time) (dt : DeliveryTracker)
  : DeliveryTracker * list float64 :=
  let sample := Z.of_nat (length (sent dt)) in
  if sample <? DeliveryMinSamples cfg then (dt, [])
  else
    let rate := deliveryRate dt in
    if fltb rate (DeliveryLowThreshold cfg) && (Hour <? Since now (lastAlert dt)) then
      let dt := dt <| lastAlert := now' |> in
      (dt, if onLowDeliveryRate dt then [rate] else [])
    else (dt, []).

Definition GetStats (cfg : Config) (now : Time) (dt : DeliveryTracker)
  : gmap string Any * DeliveryTracker :=
  let dt := prune now dt in
  let sample := Z.of_nat (length (sent dt)) in
  let rate := if 0 <? sample then deliveryRate dt else fzero in
  (list_to_map [("sent", AInt (Z.of_nat (length (sent dt))));
                ("delivered", AInt (Z.of_nat (length (delivered dt))));
                ("delivery_rate", AFloat rate);
                ("min_samples", AInt (DeliveryMinSamples cfg))], dt).

Definition Reset (dt : DeliveryTracker) : DeliveryTracker :=
  dt <| sent := [] |> <| delivered := [] |> <| lastAlert := zeroTime |>.

(** * Properties *)

(** The exported methods, on a tracker, the last clock reading and the history
    of sends and receipts since the last reset, the newest first. *)
Inductive dt_step (cfg : Config) : relation (DeliveryTracker * Time * list Time * list Time) :=
| dt_sent d last hs hd now now' :
    last <= now -> now <= now' ->
    dt_step cfg (d, last, hs, hd) (OnMessageSent now now' d, now', now :: hs, hd)
| dt_receipt d last hs hd now now' :
    last <= now -> now <= now' ->
    dt_step cfg (d, last, hs, hd) (OnDeliveryReceipt now now' d, now', hs, now :: hd)
| dt_stats d last hs hd now :
    last <= now -> dt_step cfg (d, last, hs, hd) ((GetStats cfg now d).2, now, hs, hd)
| dt_callback d last hs hd : dt_step cfg (d, last, hs, hd) (OnLowDeliveryRate d, last, hs, hd)
| dt_reset d last hs hd : dt_step cfg (d, last, hs, hd) (Reset d, last, [], []).

Lemma prune_sent now d : sent (prune now d) = filter (fun x => now - Hour < x) (sent d).
Proof. unfold prune. cbn [sent upd]. by rewrite compact_filter. Qed.
Lemma prune_delivered now d :
  delivered (prune now d) = filter (fun x => now - Hour < x) (delivered d).
Proof. unfold prune. cbn [delivered upd]. by rewrite compact_filter. Qed.

Definition dt_inv (s : DeliveryTracker * Time * list Time * list Time) : Prop :=
  let '(d, last, hs, hd) := s in
  tracks Hour last (sent d) hs /\ tracks Hour last (delivered d) hd /\ lastAlert d = zeroTime.

Lemma dt_inv_preserved cfg : preserved (dt_step cfg) dt_inv.
Proof.
  intros s s' [d last hs hd now now' Hl Hn|d last hs hd now now' Hl Hn|d last hs hd now Hl
              |d last hs hd|d last hs hd] (Hs & Hd & Ha); unfold dt_inv;
    unfold OnMessageSent, OnDeliveryReceipt; cbn [GetStats snd];
    rewrite ?prune_sent, ?prune_delivered; try done; split_and!; try done;
    try (apply (tracks_prune Hour last); [lia|]); cbn [sent delivered upd]; auto with antiban.
Qed.

(** The delivery statistics are those of the last hour: after any run with
    a non-decreasing clock, [GetStats] counts exactly the sends and the receipts
    less than an hour old, and the rate is their quotient, or 0 for no send. *)
Theorem delivery_stats_exact cfg t0 d last hs hd now :
  rtc (dt_step cfg) (NewDeliveryTracker, t0, [], []) (d, last, hs, hd) -> last <= now ->
  let stats := (GetStats cfg now d).1 in
  let n := Z.of_nat (count_after (now - Hour) hs) in
  let k := Z.of_nat (count_after (now - Hour) hd) in
  stats !! "sent" = Some (AInt n) /\ stats !! "delivered" = Some (AInt k) /\
  stats !! "delivery_rate" =
    Some (AFloat (if decide (n = 0) then fzero else fdiv (of_int k) (of_int n))).
Proof.
  intros Hr Hl.
  assert (dt_inv (d, last, hs, hd)) as (Hs & Hd & _).
  { eapply rtc_preserved; [apply dt_inv_preserved|done|]. split_and!; auto with antiban. }
  unfold GetStats, deliveryRate. cbn [fst].
  assert (length (sent (prune now d)) = count_after (now - Hour) hs) as ->
    by (rewrite prune_sent; by apply (tracks_count Hour last)).
  assert (length (delivered (prune now d)) = count_after (now - Hour) hd) as ->
    by (rewrite prune_delivered; by apply (tracks_count Hour last)).
  generalize (count_after (now - Hour) hs) (count_after (now - Hour) hd). intros n k.
  split_and!; [reflexivity..|]. simpl list_to_map.
  rewrite lookup_insert_ne, lookup_insert_ne, lookup_insert_eq by done.
  destruct (Z.ltb_spec 0 (Z.of_nat n)), (decide _); try done; lia.
Qed.

Lemma delivery_stats_exact_witness :
  (GetStats zeroConfig (2 * Hour) (OnDeliveryReceipt (Hour + 5) (Hour + 5)
     (OnMessageSent (Hour + 1) (Hour + 2) (OnMessageSent 7 8 NewDeliveryTracker)))).1 !! "sent"
  = Some (AInt 1).
Proof.
  refine (proj1 (delivery_stats_exact zeroConfig 0 _ (Hour + 5) [Hour + 1; 7] [Hour + 5] (2 * Hour) _ _)).
  - eapply rtc_l; [apply (dt_sent _ _ _ _ _ 7 8); lia|].
    eapply rtc_l; [apply (dt_sent _ _ _ _ _ (Hour + 1) (Hour + 2));
                   unfold Hour, Minute, Second, Millisecond; lia|].
    eapply rtc_l; [apply (dt_receipt _ _ _ _ _ (Hour + 5) (Hour + 5)); lia|].
    apply rtc_refl.
  - unfold Hour, Minute, Second, Millisecond; lia.
Defined.

(** No alert is ever raised: [checkAndAlert] has no caller, so after any
    run of the exported methods the time of the last alert is still zero,
    although a check would fire, for example on ten sends without a receipt. *)
Theorem delivery_never_alerts cfg t0 d last hs hd :
  rtc (dt_step cfg) (NewDeliveryTracker, t0, [], []) (d, last, hs, hd) -> lastAlert d = zeroTime.
Proof.
  intros Hr.
  assert (dt_inv (d, last, hs, hd)) as (_ & _ & Ha); [|done].
  eapply rtc_preserved; [apply dt_inv_preserved|done|]. split_and!; auto with antiban.
Qed.

Lemma delivery_never_alerts_witness :
  lastAlert (OnMessageSent 7 8 (OnLowDeliveryRate NewDeliveryTracker)) = zeroTime.
Proof.
  apply (delivery_never_alerts zeroConfig 0 _ 8 [7] []).
  eapply rtc_l; [apply dt_callback|].
  eapply rtc_l; [apply (dt_sent _ _ _ _ _ 7 8); lia|]. apply rtc_refl.
Defined.

(** The check itself alerts at most once an hour. *)
Lemma alert_rate cfg now now' dt dt' alerts :
  checkAndAlert cfg now now' dt = (dt', alerts) -> alerts <> [] ->
  Hour < Since now (lastAlert dt) /\ lastAlert dt' = now' /\
  DeliveryMinSamples cfg <= Z.of_nat (length (sent dt)) /\
  alerts = [deliveryRate dt].
Proof.
  unfold checkAndAlert. destruct (Z.ltb_spec (Z.of_nat (length (sent dt))) (DeliveryMinSamples cfg)).
  { by intros [= <- <-]. }
  destruct (fltb _ _); cbn [andb]; [|by intros [= <- <-]].
  destruct (Z.ltb_spec Hour (Since now (lastAlert dt))); [|by intros [= <- <-]].
  destruct (onLowDeliveryRate _); by intros [= <- <-].
Qed.

(** Ten sends without a receipt: a check would report a rate of 0. *)
Example alert_fires :
  (checkAndAlert (DefaultConfig PresetModerate) (2 * Hour) (2 * Hour)
     (mkTracker (replicate 10 Hour) [] zeroTime true)).2 = [fzero].
Proof. vm_compute. reflexivity. Qed.
