(* ===== verification/GroupGuard.v ===== *)
(** * [group_guard.go]

    [GroupOperationGuard]: a sliding window of ten minutes per kind of group
    operation. *)
From S2P Require Import Prelude Window GoTime Config.

(** The four constants and any other value of the integer type. *)
Inductive GroupOperation : Type :=
| OpGroupAdd | OpGroupRemove | OpGroupCreate | OpGroupInvite | OpGroupOther (n : Z).

Abbreviation GroupOperationGuard := (gmap string (list Time)) (only parsing).

Definition NewGroupOperationGuard : GroupOperationGuard := ∅.

Definition opKey (cfg : Config) (op : GroupOperation) : option (string * Z) :=
  match op with
  | OpGroupAdd => Some ("add", MaxGroupAddsPer10m cfg)
  | OpGroupRemove => Some ("remove", MaxGroupRemovesPer10m cfg)
  | OpGroupCreate => Some ("create", MaxGroupCreatesPer10m cfg)
  | OpGroupInvite => Some ("invite", MaxGroupInvitesPer10m cfg)
  | OpGroupOther _ => None
  end.

Definition opWindow : Duration := 10 * Minute.

(** The cutoff is computed from [now]; the time appended is [now']. *)
Definition Check_ (cfg : Config) (now now' : Time) (op : GroupOperation)
    (gog : GroupOperationGuard) : bool * GroupOperationGuard :=
  match opKey cfg op with
  | None => (false, gog)
  | Some (key, limit) =>
      let cutoff := Add now (- opWindow) in
      let ops := compact (fun t => After t cutoff) (default [] (gog !! key)) in
      if Z.of_nat (length ops) >=? limit then (false, <[key := ops]> gog)
      else (true, <[key := ops ++ [now']]> gog)
  end.

Definition Reset (gog : GroupOperationGuard) : GroupOperationGuard := ∅.

Definition GetStats (now : Time) (gog : GroupOperationGuard) : gmap string Any :=
  let cutoff := Add now (- opWindow) in
  (fun ops => AInt (Z.of_nat (length (filter (fun t => After t cutoff) ops)))) <$> gog.

(** * Properties *)

(** The guard, the last clock reading and the operations granted of each kind
    since the last reset, the newest first. *)
Inductive gg_step (cfg : Config)
  : relation (GroupOperationGuard * Time * (string -> list Time)) :=
| gg_granted g last h now now' op key limit g' :
    last <= now -> now <= now' -> opKey cfg op = Some (key, limit) ->
    Check_ cfg now now' op g = (true, g') ->
    gg_step cfg (g, last, h)
      (g', now', fun k => if decide (k = key) then now' :: h k else h k)
| gg_refused g last h now now' op g' :
    last <= now -> now <= now' -> Check_ cfg now now' op g = (false, g') ->
    gg_step cfg (g, last, h) (g', now', h)
| gg_reset g last h : gg_step cfg (g, last, h) (Reset g, last, fun _ => []).

Definition limit_of (cfg : Config) (key : string) : Z :=
  if decide (key = "add") then MaxGroupAddsPer10m cfg
  else if decide (key = "remove") then MaxGroupRemovesPer10m cfg
  else if decide (key = "create") then MaxGroupCreatesPer10m cfg
  else MaxGroupInvitesPer10m cfg.

Definition gg_inv (cfg : Config) (s : GroupOperationGuard * Time * (string -> list Time)) : Prop :=
  let '(g, last, h) := s in
  forall k, tracks opWindow last (default [] (g !! k)) (h k) /\
            rate_ok (limit_of cfg k) opWindow (h k).

Lemma opKey_limit cfg op key limit : opKey cfg op = Some (key, limit) -> limit = limit_of cfg key.
Proof. by destruct op; intros [= <- <-]. Qed.

Lemma opWindow_pos : 0 < opWindow.
Proof. by vm_compute. Qed.

(** The check in terms of the history: the slice is the window of [h]. *)
Lemma Check_tracked cfg now now' op key limit g last h :
  tracks opWindow last (default [] (g !! key)) h -> last <= now ->
  opKey cfg op = Some (key, limit) ->
  (Check_ cfg now now' op g).1 =
    bool_decide (Z.of_nat (count_after (now - opWindow) h) < limit) /\
  (Check_ cfg now now' op g).2 =
    <[key := filter (fun x => now - opWindow < x) (default [] (g !! key)) ++
             if bool_decide (Z.of_nat (count_after (now - opWindow) h) < limit)
             then [now'] else []]> g.
Proof.
  intros Ht Hl Hk. unfold Check_. rewrite Hk, compact_filter.
  change (filter (fun t => After t (Add now (- opWindow))) (default [] (g !! key)))
    with (filter (fun x => now - opWindow < x) (default [] (g !! key))).
  rewrite (tracks_count opWindow last) with (h := h) by done.
  destruct (Z.geb_spec (Z.of_nat (count_after (now - opWindow) h)) limit).
  - rewrite bool_decide_false by lia. by rewrite app_nil_r.
  - by rewrite bool_decide_true by lia.
Qed.

Lemma gg_inv_preserved cfg : preserved (gg_step cfg) (gg_inv cfg).
Proof.
  intros s s' [g last h now now' op key limit g' Hl Hn Hk Hc|g last h now now' op g' Hl Hn Hc|g last h]
    Hi; unfold gg_inv in *.
  - destruct (Hi key) as [Ht Hr].
    destruct (Check_tracked cfg now now' op key limit g last (h key) Ht Hl Hk) as [H1 H2].
    rewrite Hc in H1, H2. cbn [fst snd] in *. symmetry in H1. pose proof (bool_decide_eq_true_1 _ H1).
    rewrite H1 in H2. subst g'. intros k. rewrite lookup_insert.
    destruct (decide (key = k)) as [->|Hne], (decide _); try congruence; simpl.
    + split.
      * apply (tracks_later _ now); [done|]. apply tracks_add. by apply (tracks_prune _ last).
      * apply rate_ok_cons; [apply opWindow_pos|done|].
        rewrite <- (opKey_limit _ _ _ _ Hk).
        pose proof (count_after_mono (now - opWindow) (now' - opWindow) (h k) ltac:(lia)). lia.
    + destruct (Hi k) as [Ht' Hr']. split; [|done]. by apply (tracks_later _ last); [lia|].
  - intros k. destruct (Hi k) as [Ht Hr]. split; [|done].
    destruct (opKey cfg op) as [[key limit]|] eqn:Hk.
    + destruct (Hi key) as [Ht' _].
      destruct (Check_tracked cfg now now' op key limit g last (h key) Ht' Hl Hk) as [H1 H2].
      rewrite Hc in H1, H2. cbn [fst snd] in *. rewrite <- H1, app_nil_r in H2. subst g'.
      rewrite lookup_insert. destruct (decide (key = k)) as [->|Hne]; simpl.
      * apply (tracks_later _ now); [done|]. by apply (tracks_prune _ last).
      * by apply (tracks_later _ last); [lia|].
    + unfold Check_ in Hc. rewrite Hk in Hc. injection Hc as <-.
      by apply (tracks_later _ last); [lia|].
  - intros k. unfold Reset. rewrite lookup_empty. split; auto with antiban.
Qed.

(** The guard is a sliding-window limiter without false denials.  In any
    run with a non-decreasing clock, no interval of ten minutes holds more
    granted operations of a kind than its limit, and an operation is refused
    only when its limit is reached by those granted in the last ten minutes. *)
Theorem group_guard_window cfg t0 g last h now now' op key limit :
  rtc (gg_step cfg) (NewGroupOperationGuard, t0, fun _ => []) (g, last, h) ->
  opKey cfg op = Some (key, limit) -> 0 <= limit -> last <= now ->
  (forall a, Z.of_nat (count_in a (a + opWindow) (h key)) <= limit) /\
  ((Check_ cfg now now' op g).1 = true <->
   Z.of_nat (count_after (now - opWindow) (h key)) < limit).
Proof.
  intros Hr Hk Hpos Hl.
  assert (gg_inv cfg (g, last, h)) as Hi.
  { eapply rtc_preserved; [apply gg_inv_preserved|done|]. intros k.
    unfold NewGroupOperationGuard. rewrite lookup_empty. split; auto with antiban. }
  destruct (Hi key) as [Ht Hrate]. split.
  - apply rate_ok_windows; [done|]. by rewrite (opKey_limit _ _ _ _ Hk).
  - destruct (Check_tracked cfg now now' op key limit g last (h key) Ht Hl Hk) as [-> _].
    by rewrite bool_decide_eq_true.
Qed.

Lemma group_guard_window_witness :
  let cfg := zeroConfig <| MaxGroupAddsPer10m := 1 |> in
  (Check_ cfg 9 9 OpGroupAdd (Check_ cfg 5 5 OpGroupAdd ∅).2).1 <> true.
Proof.
  intros cfg.
  assert (rtc (gg_step cfg) (NewGroupOperationGuard, 0, fun _ => [])
    ((Check_ cfg 5 5 OpGroupAdd ∅).2, 5, fun k => if decide (k = "add") then [5] else [])) as Hr.
  { eapply rtc_l; [|apply rtc_refl].
    apply (gg_granted cfg _ 0 (fun _ => []) 5 5 OpGroupAdd "add" 1);
      [lia|lia|reflexivity|vm_compute; reflexivity]. }
  rewrite (proj2 (group_guard_window cfg 0 _ 5 _ 9 9 OpGroupAdd "add" 1 Hr eq_refl
    ltac:(lia) ltac:(lia))).
  vm_compute. discriminate.
Defined.

(** The kinds do not interfere. *)
Lemma kinds_independent cfg now now' op g k :
  (forall limit, opKey cfg op <> Some (k, limit)) -> (Check_ cfg now now' op g).2 !! k = g !! k.
Proof.
  intros Hk. unfold Check_. destruct (opKey cfg op) as [[key limit]|]; [|done].
  assert (key <> k) by (intros ->; by apply (Hk limit)).
  destruct (_ >=? limit); simpl; by rewrite lookup_insert_ne.
Qed.
