(* ===== verification/RetryTracker.v ===== *)
(** * [retry_tracker.go]

    [RetryReasonTracker]: the retry reasons of each message.  Every recorded
    retry starts a goroutine that deletes the message's entry 15 minutes
    later; the tracker with these timers is a transition system. *)
From S2P Require Import Prelude GoTime GoStrings.

Abbreviation RetryReason := Z (only parsing).
Definition RetryReasonUnknown : RetryReason := 0.
Definition RetryReasonNoSession : RetryReason := 1.
Definition RetryReasonInvalidKey : RetryReason := 2.
Definition RetryReasonBadMac : RetryReason := 4.
Definition RetryReasonTooOld : RetryReason := 5.
Definition RetryReasonTimeout : RetryReason := 6.
Definition RetryReasonGeneric : RetryReason := 7.
Definition RetryReasonMediaRetry : RetryReason := 8.
Definition RetryReasonSessionReset : RetryReason := 9.

Record RetryReasonTracker : Type := mkRetryTracker {
  retries : gmap string (list RetryReason);
  spiralThreshold : Z
}.
#[export] Instance eta_RetryReasonTracker : Eta RetryReasonTracker := fun r =>
  mkRetryTracker (retries r) (spiralThreshold r).

Definition NewRetryReasonTracker (threshold : Z) : RetryReasonTracker :=
  mkRetryTracker ∅ (if threshold <=? 0 then 5 else threshold).

Definition Classify (reasonCode : Z) : RetryReason :=
  match reasonCode with
  | 1 => RetryReasonNoSession
  | 2 => RetryReasonInvalidKey
  | 4 | 7 => RetryReasonBadMac
  | 5 => RetryReasonTooOld
  | 6 => RetryReasonTimeout
  | 8 => RetryReasonMediaRetry
  | 9 => RetryReasonSessionReset
  | _ => RetryReasonGeneric
  end.

Definition ClassifyFromError (err : option string) : RetryReason :=
  match err with
  | None => RetryReasonUnknown
  | Some e =>
      if str_contains e "no session" || str_contains e "NoSession" then RetryReasonNoSession
      else if str_contains e "invalid key" || str_contains e "InvalidKey" then RetryReasonInvalidKey
      else if str_contains e "bad mac" || str_contains e "BadMac" || str_contains e "MAC"
      then RetryReasonBadMac
      else if str_contains e "timeout" then RetryReasonTimeout
      else if str_contains e "media" then RetryReasonMediaRetry
      else RetryReasonGeneric
  end.

Definition retryTTL : Duration := 15 * Minute.

(** Returns the duration of the sleep after which the goroutine it starts
    deletes [msgID]. *)
Definition RecordRetry (msgID : string) (reason : RetryReason) (rrt : RetryReasonTracker)
  : RetryReasonTracker * Duration :=
  (rrt <| retries := <[msgID := default [] (retries rrt !! msgID) ++ [reason]]> (retries rrt) |>,
   retryTTL).
Definition expireRetry (msgID : string) (rrt : RetryReasonTracker) : RetryReasonTracker :=
  rrt <| retries := delete msgID (retries rrt) |>.

Definition IsSpiraling (msgID : string) (rrt : RetryReasonTracker) : bool :=
  match retries rrt !! msgID with
  | None => false
  | Some reasons => spiralThreshold rrt <=? Z.of_nat (length reasons)
  end.

Definition Clear (rrt : RetryReasonTracker) : RetryReasonTracker := rrt <| retries := ∅ |>.
Definition Destroy := Clear.

(** [stats[r]++] over all reasons of all messages *)
Definition countReasons (rrt : RetryReasonTracker) : gmap Z Z :=
  map_fold (fun _ reasons stats =>
    foldl (fun stats r => <[r := default 0 (stats !! r) + 1]> stats) stats reasons) ∅ (retries rrt).

Definition reason_name (k : RetryReason) : string :=
  match k with
  | 1 => "no_session" | 2 => "invalid_key" | 4 => "bad_mac" | 6 => "timeout"
  | 8 => "media_retry" | 9 => "session_reset" | _ => "other"
  end.

Definition stats_result (order : list (RetryReason * Z)) : gmap string Any :=
  foldl (fun result kv => <[reason_name kv.1 := AInt kv.2]> result) ∅ order.

(** Go iterates over [stats] in an unspecified order: [order] is any
    permutation of its bindings. *)
Definition GetStats (order : list (RetryReason * Z)) (rrt : RetryReasonTracker) : gmap string Any :=
  <["total" := AInt (Z.of_nat (size (retries rrt)))]> (stats_result order).
Definition stats_order (rrt : RetryReasonTracker) (order : list (RetryReason * Z)) : Prop :=
  order ≡ₚ map_to_list (countReasons rrt).

(** * Properties *)

(** The tracker, the pending deletions with the instant from which each may
    run, and the clock. *)
Inductive rt_step : relation (RetryReasonTracker * list (string * Time) * Time) :=
| rt_tick r ts t t' : t <= t' -> rt_step (r, ts, t) (r, ts, t')
| rt_record r ts t m reason r' d :
    RecordRetry m reason r = (r', d) -> rt_step (r, ts, t) (r', (m, Add t d) :: ts, t)
| rt_fire r l1 l2 m due t :
    due <= t -> rt_step (r, l1 ++ (m, due) :: l2, t) (expireRetry m r, l1 ++ l2, t)
| rt_clear r ts t : rt_step (r, ts, t) (Clear r, ts, t).

Definition rt_inv (s : RetryReasonTracker * list (string * Time) * Time) : Prop :=
  let '(r, ts, t) := s in
  (forall m reasons, retries r !! m = Some reasons -> exists due, (m, due) ∈ ts) /\
  Forall (fun x => x.2 <= t + retryTTL) ts.

Lemma rt_inv_preserved : preserved rt_step rt_inv.
Proof.
  intros s s' [r ts t t' Ht|r ts t m reason r' d Hr|r l1 l2 m due t Hd|r ts t] [Hk Hts];
    unfold rt_inv in *.
  - split; [done|]. eapply Forall_impl; [exact Hts|]. simpl; intros; lia.
  - injection Hr as <- <-. split.
    + intros k reasons. cbn. rewrite lookup_insert. destruct (decide (m = k)) as [->|Hne].
      * intros _. eexists. left.
      * intros Hl. destruct (Hk _ _ Hl) as [due Hin]. exists due. by right.
    + constructor; [cbn; unfold Add; lia|done].
  - apply Forall_app in Hts as [H1 H2]. apply Forall_cons in H2 as [_ H2]. split.
    + intros k reasons. cbn. rewrite lookup_delete. destruct (decide (m = k)) as [->|Hne]; [done|].
      intros Hl. destruct (Hk _ _ Hl) as [due' Hin]. exists due'.
      apply elem_of_app in Hin as [Hin|Hin]; apply elem_of_app; [by left|right].
      apply elem_of_cons in Hin as [[= -> _]|Hin]; [done|done].
    + by apply Forall_app.
  - split; [|done]. intros k reasons. cbn. by rewrite lookup_empty.
Qed.

(** No leak: in every reachable state each message with recorded retries
    has a pending deletion that is due at most 15 minutes from now; once the
    pending deletions have run, the tracker is empty. *)
Theorem retries_expire threshold t0 r ts t :
  rtc rt_step (NewRetryReasonTracker threshold, [], t0) (r, ts, t) ->
  (forall m reasons, retries r !! m = Some reasons ->
     exists due, (m, due) ∈ ts /\ due <= t + retryTTL) /\
  (ts = [] -> retries r = ∅).
Proof.
  intros Hr. assert (rt_inv (r, ts, t)) as [Hk Hts].
  { eapply rtc_preserved; [apply rt_inv_preserved|done|]. split; [|constructor].
    intros m reasons. cbn. by rewrite lookup_empty. }
  split.
  - intros m reasons Hl. destruct (Hk _ _ Hl) as [due Hin]. exists due. split; [done|].
    rewrite Forall_forall in Hts. by apply (Hts (m, due)).
  - intros ->. apply map_empty. intros m. destruct (retries r !! m) eqn:Hl; [|done].
    destruct (Hk _ _ Hl) as [due Hin]. by apply elem_of_nil in Hin.
Qed.

Lemma retries_expire_witness :
  exists due, ("m", due) ∈ [("m", 7 + retryTTL)] /\ due <= 7 + retryTTL.
Proof.
  refine (proj1 (retries_expire 3 7 (RecordRetry "m" 4 (NewRetryReasonTracker 3)).1
    [("m", 7 + retryTTL)] 7 _) "m" [4] eq_refl).
  eapply rtc_l; [by eapply (rt_record _ _ _ "m" 4)|]. apply rtc_refl.
Defined.

(** The deletion of an old retry takes the recent ones with it: a message
    that reached the spiral threshold within the last minute is no longer
    spiraling when the timer of its first retry, 15 minutes ago, fires. *)
Theorem spiral_forgotten :
  exists r r' ts ts',
    rtc rt_step (NewRetryReasonTracker 4, [], 0) (r, ts, 15 * Minute) /\
    retries r !! "m" = Some [1; 1; 1; 1; 1] /\
    ts = replicate 4 ("m", 14 * Minute + retryTTL) ++ [("m", retryTTL)] /\
    IsSpiraling "m" r = true /\
    rt_step (r, ts, 15 * Minute) (r', ts', 15 * Minute) /\ IsSpiraling "m" r' = false.
Proof.
  eexists _, _, _, _. split.
  { eapply rtc_l; [by eapply (rt_record _ _ _ "m" 1)|].
    eapply rtc_l; [apply (rt_tick _ _ 0 (14 * Minute)); by vm_compute|].
    do 4 (eapply rtc_l; [by eapply (rt_record _ _ _ "m" 1)|]).
    eapply rtc_l; [apply (rt_tick _ _ _ (15 * Minute)); by vm_compute|]. apply rtc_refl. }
  split; [reflexivity|]. split; [reflexivity|]. split; [reflexivity|]. split.
  - apply (rt_fire _ (replicate 4 ("m", 14 * Minute + retryTTL)) [] "m" retryTTL). by vm_compute.
  - reflexivity.
Qed.

(** [Classify] maps its own constants to themselves, with one exception:
    the code of [RetryReasonGeneric], 7, is classified as a bad MAC. *)
Theorem Classify_constants :
  map Classify [RetryReasonNoSession; RetryReasonInvalidKey; RetryReasonBadMac; RetryReasonTooOld;
                RetryReasonTimeout; RetryReasonMediaRetry; RetryReasonSessionReset] =
  [RetryReasonNoSession; RetryReasonInvalidKey; RetryReasonBadMac; RetryReasonTooOld;
   RetryReasonTimeout; RetryReasonMediaRetry; RetryReasonSessionReset] /\
  Classify RetryReasonGeneric = RetryReasonBadMac /\
  forall n, n ∉ [1; 2; 4; 5; 6; 7; 8; 9] -> Classify n = RetryReasonGeneric.
Proof.
  split_and!; [reflexivity..|]. intros n Hn. rewrite !elem_of_cons in Hn.
  assert (n <> 1 /\ n <> 2 /\ n <> 4 /\ n <> 5 /\ n <> 6 /\ n <> 7 /\ n <> 8 /\ n <> 9)
    as (?&?&?&?&?&?&?&?) by tauto.
  destruct n as [|p|p]; try done.
  do 4 (destruct p as [p|p|]; try done; try lia).
Qed.

Lemma Classify_constants_witness : Classify 3 = RetryReasonGeneric.
Proof.
  apply (proj2 (proj2 Classify_constants)). rewrite !elem_of_cons, elem_of_nil. lia.
Defined.

(** ** Statistics *)

Lemma reason_name_inj r k : reason_name r <> "other" -> reason_name k = reason_name r -> k = r.
Proof.
  intros Hr Hk.
  assert (forall x, reason_name x <> "other" -> x ∈ [1; 2; 4; 6; 8; 9]) as Hin.
  { intros x Hx. destruct x as [|p|p]; [done| |done].
    do 4 (destruct p as [p|p|]; try done; try (rewrite !elem_of_cons; tauto)). }
  assert (k ∈ [1; 2; 4; 6; 8; 9]) as H1 by (apply Hin; congruence).
  pose proof (Hin r Hr) as H2. rewrite !elem_of_cons, elem_of_nil in H1, H2.
  destruct H1 as [->|[->|[->|[->|[->|[->|[]]]]]]], H2 as [->|[->|[->|[->|[->|[->|[]]]]]]]; done.
Qed.

(** The counts of the six named reasons do not depend on the map's order. *)
Lemma GetStats_named order rrt r :
  stats_order rrt order -> reason_name r <> "other" ->
  GetStats order rrt !! reason_name r = AInt <$> countReasons rrt !! r.
Proof.
  intros Ho Hr. unfold GetStats.
  assert ("total" <> reason_name r).
  { intros E. destruct r as [|p|p]; try done. by do 4 (destruct p as [p|p|]; try done). }
  rewrite lookup_insert_ne by done. unfold stats_result.
  assert (forall (l : list (Z * Z)) (m : gmap string Any), NoDup l.*1 ->
    foldl (fun result kv => <[reason_name kv.1 := AInt kv.2]> result) m l !! reason_name r
    = match list_to_map (M:=gmap Z Z) l !! r with
      | Some v => Some (AInt v) | None => m !! reason_name r end) as Hl.
  { intros l. induction l as [|[k v] l IH]; intros m Hnd; simpl; [done|].
    apply NoDup_cons in Hnd as [Hk Hnd]. rewrite IH by done.
    rewrite !lookup_insert. destruct (decide (k = r)) as [->|Hne].
    - rewrite (not_elem_of_list_to_map_1 l r) by done. by rewrite decide_True.
    - destruct (list_to_map l !! r); [done|].
      rewrite decide_False; [done|]. intros E. by apply Hne, reason_name_inj. }
  rewrite Hl.
  - rewrite (list_to_map_proper order (map_to_list (countReasons rrt))).
    + rewrite list_to_map_to_list. by destruct (countReasons rrt !! r).
    + rewrite Ho. apply NoDup_fst_map_to_list.
    + done.
  - rewrite Ho. apply NoDup_fst_map_to_list.
Qed.

(** The count reported as "other" is not the number of the other reasons:
    each of them overwrites it, so three retries of two kinds are reported as
    1 or as 2, by the order of the map. *)
Theorem stats_other_overwritten :
  let r := (RecordRetry "a" RetryReasonTooOld (RecordRetry "a" RetryReasonGeneric
             (RecordRetry "b" RetryReasonGeneric (NewRetryReasonTracker 5)).1).1).1 in
  exists o1 o2, stats_order r o1 /\ stats_order r o2 /\
    GetStats o1 r !! "other" = Some (AInt 1) /\ GetStats o2 r !! "other" = Some (AInt 2).
Proof.
  intros r. exists [(7, 2); (5, 1)], [(5, 1); (7, 2)].
  assert (map_to_list (countReasons r) = [(5, 1); (7, 2)] \/
          map_to_list (countReasons r) = [(7, 2); (5, 1)]) as H
    by (vm_compute; tauto).
  unfold stats_order. split_and!; [| |vm_compute; reflexivity..];
    destruct H as [-> | ->]; (reflexivity || apply perm_swap).
Qed.
