(* ===== verification/LidResolver.v ===== *)
(** * [lid_resolver.go] and [jid_canonicalizer.go]

    [LidResolver]: a bounded two-way map between LIDs and phone numbers, with
    the insertion order for eviction.  [JidCanonicalizer]: a client of it that
    learns pairs from incoming events. *)
From S2P Require Import Prelude GoStrings.

(** [order] lists the LIDs, the front of the Go list first. *)
Record LidResolver : Type := mkResolver {
  lidToPN : gmap string string;
  pnToLID : gmap string string;
  order : list string;
  maxSize : Z
}.
#[export] Instance eta_LidResolver : Eta LidResolver := fun l =>
  mkResolver (lidToPN l) (pnToLID l) (order l) (maxSize l).

Definition NewLidResolver (size : Z) : LidResolver :=
  mkResolver ∅ ∅ [] (if size <=? 0 then 1000 else size).

(** Removes the first occurrence. *)
Fixpoint remove_first (lid : string) (l : list string) : list string :=
  match l with
  | [] => []
  | x :: l => if decide (x = lid) then l else x :: remove_first lid l
  end.
Definition removeFromOrder (lid : string) (lr : LidResolver) : LidResolver :=
  lr <| order := remove_first lid (order lr) |>.

(** The two clean-ups at the head of [Learn]. *)
Definition forgetLID (lid : string) (lr : LidResolver) : LidResolver :=
  match lidToPN lr !! lid with
  | Some oldPN => removeFromOrder lid (lr <| pnToLID := delete oldPN (pnToLID lr) |>)
  | None => lr
  end.
Definition forgetPN (pn : string) (lr : LidResolver) : LidResolver :=
  match pnToLID lr !! pn with
  | Some oldLID => removeFromOrder oldLID (lr <| lidToPN := delete oldLID (lidToPN lr) |>)
  | None => lr
  end.

Definition evictOldest (lr : LidResolver) : LidResolver :=
  if Z.of_nat (size (lidToPN lr)) >? maxSize lr then
    match last (order lr) with
    | None => lr
    | Some evictLID =>
        let lr :=
          match lidToPN lr !! evictLID with
          | Some evictPN => lr <| pnToLID := delete evictPN (pnToLID lr) |>
          | None => lr
          end in
        let lr := lr <| lidToPN := delete evictLID (lidToPN lr) |> in
        lr <| order := take (length (order lr) - 1) (order lr) |>
    end
  else lr.

Definition Learn (lid pn : string) (lr : LidResolver) : LidResolver :=
  let lr := forgetPN pn (forgetLID lid lr) in
  let lr := lr <| lidToPN := <[lid := pn]> (lidToPN lr) |> in
  let lr := lr <| pnToLID := <[pn := lid]> (pnToLID lr) |> in
  let lr := lr <| order := lid :: order lr |> in
  evictOldest lr.

Definition ResolveCanonical (jid : string) (lr : LidResolver) : string :=
  match lidToPN lr !! jid with
  | Some pn => pn
  | None => match pnToLID lr !! jid with Some lid => lid | None => jid end
  end.

Definition GetLID (pn : string) (lr : LidResolver) : string := default "" (pnToLID lr !! pn).
Definition GetPN (lid : string) (lr : LidResolver) : string := default "" (lidToPN lr !! lid).
Definition HasMapping (jid : string) (lr : LidResolver) : bool :=
  bool_decide (is_Some (lidToPN lr !! jid)) || bool_decide (is_Some (pnToLID lr !! jid)).
Definition GetMapping (lr : LidResolver) : gmap string string :=
  map_fold (fun k v result => <[k := v]> result) ∅ (lidToPN lr).

(** ** [JidCanonicalizer] *)

(** A nil canonicalizer, or one without a resolver, is [None]. *)
Abbreviation JidCanonicalizer := (option LidResolver) (only parsing).

Definition CanonicalizeTarget (jid : string) (jc : JidCanonicalizer) : string :=
  match jc with None => jid | Some lr => ResolveCanonical jid lr end.

Definition CanonicalKey (jid : string) (jc : JidCanonicalizer) : string :=
  trim_suffix (CanonicalizeTarget jid jc) "@s.whatsapp.net".

Definition extractJIDUser (jid : string) : string :=
  match index_byte jid "@" with None => jid | Some i => take_str i jid end.

Definition learnUsers (lidJID pnJID : string) (lr : LidResolver) : LidResolver :=
  let lid := extractJIDUser lidJID in
  let pn := extractJIDUser pnJID in
  if negb (String.eqb lid "") && negb (String.eqb pn "") && negb (String.eqb lid pn)
  then Learn lid pn lr else lr.

Definition OnIncomingEvent (fromJID participant : string) (jc : JidCanonicalizer) : JidCanonicalizer :=
  match jc with
  | None => None
  | Some lr =>
      let lr := if str_contains fromJID "@lid" && negb (String.eqb participant "")
                then learnUsers fromJID participant lr else lr in
      let lr := if str_contains participant "@lid" && negb (str_contains fromJID "@lid")
                then learnUsers participant fromJID lr else lr in
      Some lr
  end.

(** * Properties *)

(** The two maps are inverse to each other and the order lists the LIDs. *)
Definition linked (lr : LidResolver) : Prop :=
  (forall l p, lidToPN lr !! l = Some p <-> pnToLID lr !! p = Some l) /\
  NoDup (order lr) /\ (forall l, l ∈ order lr <-> is_Some (lidToPN lr !! l)).

Definition resolver_ok (lr : LidResolver) : Prop :=
  linked lr /\ Z.of_nat (size (lidToPN lr)) <= maxSize lr /\ 1 <= maxSize lr.

Lemma remove_first_elem x l y : NoDup l -> y ∈ remove_first x l <-> y ∈ l /\ y <> x.
Proof.
  induction 1 as [|z l Hz Hnd IH]; simpl; [set_solver|].
  destruct (decide (z = x)) as [->|Hne]; set_solver.
Qed.

Lemma remove_first_NoDup x l : NoDup l -> NoDup (remove_first x l).
Proof.
  induction 1 as [|z l Hz Hnd IH]; simpl; [constructor|].
  destruct (decide (z = x)); [done|]. constructor; [|done].
  by rewrite remove_first_elem by done; intros [? _].
Qed.

Lemma order_size lr : linked lr -> size (lidToPN lr) = length (order lr).
Proof.
  intros (_ & Hnd & Hin). rewrite <- size_dom.
  assert (dom (lidToPN lr) = list_to_set (C:=gset string) (order lr)) as ->.
  { apply set_eq. intros x. by rewrite elem_of_dom, elem_of_list_to_set, Hin. }
  by apply size_list_to_set.
Qed.

(** A resolver in which [lid] maps to nothing in [pnToLID], after [forgetLID]. *)
Definition half_linked (lid : string) (lr : LidResolver) : Prop :=
  (forall l p, (lidToPN lr !! l = Some p /\ l <> lid) <-> pnToLID lr !! p = Some l) /\
  NoDup (order lr) /\ (forall l, l ∈ order lr <-> is_Some (lidToPN lr !! l) /\ l <> lid).

Lemma forgetLID_half lid lr : linked lr -> half_linked lid (forgetLID lid lr).
Proof.
  intros (Hb & Hnd & Hin). unfold forgetLID.
  destruct (lidToPN lr !! lid) as [oldPN|] eqn:Hl; split_and!; cbn; try done.
  - intros l p. rewrite lookup_delete_Some, <- Hb. split; [|naive_solver].
    intros [H1 H2]. split; [|done]. intros ->. apply Hb in H1, Hl. congruence.
  - by apply remove_first_NoDup.
  - intros l. by rewrite remove_first_elem, Hin by done.
  - intros l p. rewrite <- Hb. split; [tauto|]. intros H. split; [done|congruence].
  - intros l. rewrite Hin. split; [|tauto]. intros H. split; [done|].
    intros ->. rewrite Hl in H. by destruct H.
Qed.

Lemma forgetPN_half lid pn lr :
  half_linked lid lr ->
  half_linked lid ((forgetPN pn lr) <| pnToLID := delete pn (pnToLID lr) |>) /\
  pnToLID (forgetPN pn lr) = pnToLID lr.
Proof.
  intros (Hb & Hnd & Hin). unfold forgetPN.
  destruct (pnToLID lr !! pn) as [oldLID|] eqn:Hp; cbn; (split; [|done]); split_and!; cbn; try done.
  - intros l p. rewrite !lookup_delete_Some, <- Hb. split; [|naive_solver congruence].
    intros [[H1 H2] H3]. split; [|done]. intros ->.
    assert (pnToLID lr !! p = Some l) by (by apply Hb). congruence.
  - by apply remove_first_NoDup.
  - intros l. rewrite remove_first_elem, Hin, lookup_delete_is_Some by done. naive_solver.
  - intros l p. rewrite lookup_delete_Some, Hb. split; [|tauto].
    intros H. split; [congruence|done].
Qed.

(** Linking a new pair to a resolver in which neither side is linked. *)
Definition link (lid pn : string) (lr : LidResolver) : LidResolver :=
  lr <| lidToPN := <[lid := pn]> (lidToPN lr) |> <| pnToLID := <[pn := lid]> (pnToLID lr) |>
     <| order := lid :: order lr |>.

Lemma link_linked lid pn lr :
  half_linked lid lr -> linked (link lid pn (forgetPN pn lr)).
Proof.
  intros Hh. destruct (forgetPN_half lid pn lr Hh) as [(Hb & Hnd & Hin) Hpn].
  set (r := forgetPN pn lr) in *. cbn in Hb, Hnd, Hin. unfold link. split_and!; cbn.
  - intros l p. rewrite !lookup_insert_Some. specialize (Hb l p).
    rewrite lookup_delete_Some in Hb. rewrite Hpn. naive_solver.
  - constructor; [|done]. rewrite Hin. tauto.
  - intros l. rewrite elem_of_cons, Hin, lookup_insert_is_Some.
    destruct (decide (lid = l)); naive_solver.
Qed.

Lemma evict_linked lr : linked lr -> linked (evictOldest lr).
Proof.
  intros (Hb & Hnd & Hin). unfold evictOldest.
  destruct (_ >? _); [|done]. destruct (last (order lr)) as [x|] eqn:Hlast; [|done].
  apply last_Some in Hlast as [l Hl]. rewrite Hl in Hnd.
  apply NoDup_app in Hnd as (Hnd & Hdis & _).
  assert (x ∉ l) as Hx by (intros Hx; apply (Hdis x Hx); by left).
  assert (is_Some (lidToPN lr !! x)) as [px Hpx] by (apply Hin; rewrite Hl; set_solver).
  rewrite Hpx. split_and!; cbn.
  - intros k p. rewrite !lookup_delete_Some, Hb. split; intros [H1 H2]; (split; [|done]).
    + intros ->. apply Hb in Hpx. congruence.
    + intros ->. apply Hb in H2. congruence.
  - rewrite Hl, length_app. simpl. replace (length l + 1 - 1)%nat with (length l) by lia.
    by rewrite take_app_length.
  - intros k. rewrite Hl, length_app. simpl. replace (length l + 1 - 1)%nat with (length l) by lia.
    rewrite take_app_length, lookup_delete_is_Some, <- Hin, Hl. set_solver.
Qed.

Lemma Learn_link lid pn lr : Learn lid pn lr = evictOldest (link lid pn (forgetPN pn (forgetLID lid lr))).
Proof. reflexivity. Qed.

Lemma forget_size lid pn lr :
  (size (lidToPN (forgetPN pn (forgetLID lid lr))) <= size (lidToPN lr))%nat /\
  maxSize (forgetPN pn (forgetLID lid lr)) = maxSize lr.
Proof.
  assert (lidToPN (forgetLID lid lr) = lidToPN lr /\ maxSize (forgetLID lid lr) = maxSize lr)
    as [H1 H2] by (unfold forgetLID; by destruct (_ !! lid)).
  unfold forgetPN. destruct (_ !! pn) as [o|]; cbn; rewrite H1, H2; (split; [|done]); [|done].
  apply map_subseteq_size, delete_subseteq.
Qed.

Lemma evict_order lr :
  linked lr -> Z.of_nat (size (lidToPN lr)) <= maxSize lr + 1 -> 0 <= maxSize lr ->
  order (evictOldest lr) = take (Z.to_nat (maxSize lr)) (order lr) /\
  maxSize (evictOldest lr) = maxSize lr.
Proof.
  intros Hl Hs Hm. rewrite (order_size lr Hl) in Hs. unfold evictOldest.
  rewrite (order_size lr Hl).
  destruct (Z.gtb_spec (Z.of_nat (length (order lr))) (maxSize lr)) as [Hgt|Hle].
  - destruct (last (order lr)) as [x|] eqn:Hlast.
    + assert (Z.to_nat (maxSize lr) = (length (order lr) - 1)%nat) as -> by lia.
      by destruct (lidToPN lr !! x).
    + apply last_None in Hlast. rewrite Hlast in Hgt. simpl in Hgt. lia.
  - rewrite take_ge by lia. done.
Qed.

Lemma Learn_linked lid pn lr : linked lr -> linked (Learn lid pn lr).
Proof. intros Hl. rewrite Learn_link. by apply evict_linked, link_linked, forgetLID_half. Qed.

Lemma link_size lid pn lr :
  Z.of_nat (size (lidToPN lr)) <= maxSize lr ->
  let r := link lid pn (forgetPN pn (forgetLID lid lr)) in
  Z.of_nat (size (lidToPN r)) <= maxSize lr + 1 /\ maxSize r = maxSize lr.
Proof.
  intros Hs r. destruct (forget_size lid pn lr) as [H1 H2]. subst r.
  set (f := forgetPN pn (forgetLID lid lr)) in *.
  change (lidToPN (link lid pn f)) with (<[lid := pn]> (lidToPN f)).
  split; [|done]. rewrite map_size_insert. destruct (lidToPN f !! lid); cbn [id]; unfold id; lia.
Qed.

Lemma Learn_order lid pn lr :
  resolver_ok lr ->
  order (Learn lid pn lr) =
    take (Z.to_nat (maxSize lr)) (lid :: order (forgetPN pn (forgetLID lid lr))) /\
  maxSize (Learn lid pn lr) = maxSize lr.
Proof.
  intros (Hl & Hs & Hm). destruct (link_size lid pn lr Hs) as [H1 H2]. rewrite Learn_link.
  set (r := link _ _ _) in *.
  destruct (evict_order r) as [H3 H4]; try lia; [by apply link_linked, forgetLID_half|].
  rewrite H3, H4, H2. done.
Qed.

Lemma Learn_ok lid pn lr : resolver_ok lr -> resolver_ok (Learn lid pn lr).
Proof.
  intros Hok. destruct (Learn_order lid pn lr Hok) as [Ho Hm]. destruct Hok as (Hl & Hs & H1).
  split; [by apply Learn_linked|]. rewrite (order_size _ (Learn_linked lid pn lr Hl)), Ho, Hm.
  rewrite length_take. lia.
Qed.

(** ** Specification: a bounded queue of pairs *)

(** The learned pairs, the newest first. *)
Definition pairs (lr : LidResolver) : list (string * string) :=
  omap (fun l => (fun p => (l, p)) <$> lidToPN lr !! l) (order lr).

(** What [Learn] means: put the pair in front, drop the pairs that share its
    LID or its number, and keep the [maxSize] newest. *)
Definition learn_spec (lid pn : string) (n : nat) (l : list (string * string))
  : list (string * string) :=
  take n ((lid, pn) :: filter (fun kv => kv.1 <> lid /\ kv.2 <> pn) l).

Lemma remove_first_filter x l : NoDup l -> remove_first x l = filter (fun y => y <> x) l.
Proof.
  induction 1 as [|z l Hz Hnd IH]; simpl; [done|]. rewrite filter_cons.
  destruct (decide (z = x)) as [->|Hne].
  - rewrite decide_False by tauto. rewrite filter_all; [done|].
    rewrite Forall_forall. intros y Hy ->. done.
  - by rewrite decide_True, IH.
Qed.

Lemma forget_order lid pn lr :
  linked lr ->
  order (forgetPN pn (forgetLID lid lr)) =
  filter (fun k => k <> lid /\ lidToPN lr !! k <> Some pn) (order lr).
Proof.
  intros Hl. pose proof (forgetLID_half lid lr Hl) as (Hb & Hnd & Hin).
  destruct Hl as (Hb0 & Hnd0 & Hin0).
  assert (order (forgetLID lid lr) = filter (fun k => k <> lid) (order lr) /\
          lidToPN (forgetLID lid lr) = lidToPN lr) as [Ho HL].
  { unfold forgetLID. destruct (lidToPN lr !! lid) eqn:E; cbn; (split; [|done]).
    - by apply remove_first_filter.
    - rewrite filter_all; [done|]. rewrite Forall_forall. intros y Hy ->.
      apply Hin0 in Hy. rewrite E in Hy. by destruct Hy. }
  rewrite HL in Hb. unfold forgetPN.
  assert (forall (Q : string -> Prop) `{!forall x, Decision (Q x)},
    (forall k, k <> lid -> Q k <-> lidToPN lr !! k <> Some pn) ->
    filter Q (filter (fun k => k <> lid) (order lr)) =
    filter (fun k => k <> lid /\ lidToPN lr !! k <> Some pn) (order lr)) as Hf.
  { intros Q ? HQ. rewrite list_filter_filter. apply list_filter_iff. intros k.
    specialize (HQ k). tauto. }
  destruct (pnToLID (forgetLID lid lr) !! pn) as [old|] eqn:E; cbn.
  - apply Hb in E as [E Hne]. rewrite Ho, remove_first_filter by (by rewrite <- Ho).
    apply Hf. intros k Hk. split; [|congruence].
    intros H1 H2. apply Hb0 in E, H2. congruence.
  - rewrite Ho. rewrite <- (Hf (fun _ => True) _).
    + symmetry. apply filter_all. by apply Forall_true.
    + intros k Hk. split; [|done]. intros _ H2.
      assert (pnToLID (forgetLID lid lr) !! pn = Some k) by (by apply Hb). congruence.
Qed.

Lemma omap_take_total {A B} (f : A -> option B) n (l : list A) :
  Forall (fun x => is_Some (f x)) l -> omap f (take n l) = take n (omap f l).
Proof.
  intros H. revert n. induction H as [|x l [y Hy] _ IH]; intros [|n]; simpl; try done.
  by rewrite Hy, IH.
Qed.

Lemma omap_ext_in {A B} (f g : A -> option B) (l : list A) :
  (forall x, x ∈ l -> f x = g x) -> omap f l = omap g l.
Proof.
  induction l as [|x l IH]; intros H; simpl; [done|].
  rewrite (H x) by (by left). specialize (IH ltac:(intros; apply H; by right)).
  destruct (g x); [by f_equal|done].
Qed.

Lemma Learn_values lid pn lr k p :
  lidToPN (Learn lid pn lr) !! k = Some p ->
  (k = lid /\ p = pn) \/ (k <> lid /\ lidToPN lr !! k = Some p).
Proof.
  rewrite Learn_link. set (f := forgetPN pn (forgetLID lid lr)).
  assert (forall r, lidToPN (evictOldest r) ⊆ lidToPN r) as He.
  { intros r. unfold evictOldest. destruct (_ >? _); [|done].
    destruct (last (order r)) as [x|]; [|done].
    destruct (lidToPN r !! x); cbn; apply delete_subseteq. }
  assert (lidToPN f ⊆ lidToPN lr) as Hf.
  { subst f. unfold forgetPN, forgetLID.
    destruct (lidToPN lr !! lid); cbn; destruct (_ !! pn); cbn; (done || apply delete_subseteq). }
  intros H.
  pose proof (lookup_weaken _ _ _ _ H (He _)) as H1. cbn in H1.
  apply lookup_insert_Some in H1 as [[-> ->]|[Hne H1]]; [by left|right].
  split; [done|]. exact (lookup_weaken _ _ _ _ H1 Hf).
Qed.

(** Filtering keys before reading their values is filtering the pairs. *)
Lemma omap_filter_pairs (m : gmap string string) lid pn (l : list string) :
  (forall k, k ∈ l -> is_Some (m !! k)) ->
  omap (fun k => (fun p => (k, p)) <$> (if decide (k = lid) then Some pn else m !! k))
    (filter (fun k => k <> lid /\ m !! k <> Some pn) l) =
  filter (fun kv => kv.1 <> lid /\ kv.2 <> pn) (omap (fun k => (fun p => (k, p)) <$> m !! k) l).
Proof.
  induction l as [|k l IH]; intros Hs; [done|].
  destruct (Hs k ltac:(by left)) as [p Hp]. specialize (IH ltac:(intros; apply Hs; by right)).
  rewrite filter_cons. simpl. rewrite Hp. simpl. rewrite filter_cons. simpl.
  destruct (decide (k <> lid /\ Some p <> Some pn)) as [[H1 H2]|Hn].
  - simpl. rewrite (decide_False (P := k = lid)), Hp by done. simpl.
    rewrite decide_True by (split; congruence). f_equal. exact IH.
  - rewrite decide_False; [exact IH|]. intros [H1 H2]. apply Hn. split; congruence.
Qed.

(** [Learn] refines a bounded queue of pairs: from any well-formed
    resolver, the learned pairs become the new pair followed by the older ones
    that share neither its LID nor its number, cut at [maxSize]; and the two
    maps stay inverse to each other. *)
Theorem Learn_refines lid pn lr :
  resolver_ok lr ->
  pairs (Learn lid pn lr) = learn_spec lid pn (Z.to_nat (maxSize lr)) (pairs lr) /\
  resolver_ok (Learn lid pn lr).
Proof.
  intros Hok. split; [|by apply Learn_ok].
  pose proof (Learn_ok lid pn lr Hok) as ((_ & _ & Hin') & _).
  destruct (Learn_order lid pn lr Hok) as [Ho _]. destruct Hok as (Hl & _ & _).
  rewrite forget_order in Ho by done. destruct Hl as (Hb & _ & Hin).
  set (f k := (fun p => (k, p)) <$> (if decide (k = lid) then Some pn else lidToPN lr !! k)).
  assert (pairs (Learn lid pn lr) = omap f (order (Learn lid pn lr))) as ->.
  { apply omap_ext_in. intros k Hk. apply Hin' in Hk as [p Hp]. unfold f. rewrite Hp.
    apply Learn_values in Hp as [[-> ->]|[Hne ->]]; by case_decide. }
  rewrite Ho. rewrite omap_take_total.
  - unfold learn_spec, pairs. f_equal. simpl. unfold f at 1. rewrite decide_True by done. simpl.
    f_equal. apply omap_filter_pairs. intros k. apply Hin.
  - constructor.
    + unfold f. rewrite decide_True by done. eauto.
    + apply Forall_forall. intros k Hk. apply list_elem_of_filter in Hk as [[Hne _] Hk].
      apply Hin in Hk as [p Hp]. unfold f. rewrite decide_False, Hp by done. eauto.
Qed.

Lemma Learn_refines_witness :
  pairs (Learn "l1" "p3" (Learn "l2" "p2" (Learn "l1" "p1" (NewLidResolver 2)))) =
  [("l1", "p3"); ("l2", "p2")].
Proof.
  assert (resolver_ok (NewLidResolver 2)) as H0.
  { split; [|vm_compute; split; discriminate]. split_and!; cbn.
    - intros l p. by rewrite !lookup_empty.
    - constructor.
    - intros l. rewrite lookup_empty. split; [by intros ?%elem_of_nil|by intros [? [=]]]. }
  rewrite (proj1 (Learn_refines "l1" "p3" _ (Learn_ok "l2" "p2" _ (Learn_ok "l1" "p1" _ H0)))).
  vm_compute. reflexivity.
Defined.

Lemma NewLidResolver_ok n : resolver_ok (NewLidResolver n).
Proof.
  split.
  - split_and!; cbn.
    + intros l p. by rewrite !lookup_empty.
    + constructor.
    + intros l. rewrite lookup_empty. split; [by intros ?%elem_of_nil|by intros [? [=]]].
  - unfold NewLidResolver. cbn [lidToPN maxSize]. rewrite map_size_empty.
    destruct (Z.leb_spec n 0); lia.
Qed.

(** Any number of pairs learned one after the other. *)
Definition learn_all (l : list (string * string)) (lr : LidResolver) : LidResolver :=
  foldl (fun lr kv => Learn kv.1 kv.2 lr) lr l.

Lemma learn_all_ok l lr : resolver_ok lr -> resolver_ok (learn_all l lr).
Proof.
  unfold learn_all. revert lr. induction l as [|kv l IH]; intros lr H; [done|].
  apply IH. by apply Learn_ok.
Qed.

(** After any sequence of [Learn] calls the maps are inverse to each other
    and hold at most [maxSize] pairs, and the last pair learned is known both
    ways. *)
Theorem resolver_bijective n l lid pn :
  let lr := Learn lid pn (learn_all l (NewLidResolver n)) in
  (forall a b, lidToPN lr !! a = Some b <-> pnToLID lr !! b = Some a) /\
  Z.of_nat (size (lidToPN lr)) <= maxSize lr /\
  GetPN lid lr = pn /\ GetLID pn lr = lid.
Proof.
  set (r := learn_all l (NewLidResolver n)).
  assert (resolver_ok r) as Hr by apply learn_all_ok, NewLidResolver_ok.
  pose proof (Learn_ok lid pn r Hr) as ((Hb & Hnd & Hin) & Hs & Hm).
  intros lr. split_and!; [done|done|..].
  all: assert (lidToPN lr !! lid = Some pn) as Hl.
  1, 3: destruct (Learn_order lid pn r Hr) as [Ho Hmax]; fold lr in Hin, Hm, Ho, Hmax;
    (assert (is_Some (lidToPN lr !! lid)) as [p Hp];
      [apply Hin; rewrite Ho; replace (Z.to_nat (maxSize r)) with (S (Z.to_nat (maxSize r) - 1))
         by lia; left|]);
    destruct (Learn_values lid pn r lid p Hp) as [[_ ->]|[? _]]; done.
  - unfold GetPN. by rewrite Hl.
  - apply Hb in Hl. unfold GetLID. by fold lr in Hl; rewrite Hl.
Qed.

(** ** The canonicalizer *)

Definition at_free (s : string) : bool := no_byte "@" s.

Lemma extractJIDUser_at_free s : at_free (extractJIDUser s) = true.
Proof.
  unfold at_free, extractJIDUser. induction s as [|c s IH]; simpl; [done|].
  destruct (ascii_dec c "@") as [->|Hc]; [done|].
  destruct (index_byte s "@") as [i|]; simpl in *; by destruct (ascii_dec c "@").
Qed.

Definition keys_at_free (lr : LidResolver) : Prop :=
  forall l p, lidToPN lr !! l = Some p -> at_free l = true /\ at_free p = true.

Lemma learnUsers_ok a b lr :
  resolver_ok lr -> keys_at_free lr ->
  resolver_ok (learnUsers a b lr) /\ keys_at_free (learnUsers a b lr).
Proof.
  intros Hok Hk. unfold learnUsers. destruct (_ && _); [|done].
  split; [by apply Learn_ok|]. intros l p [[-> ->]|[_ H]]%Learn_values; [|by apply Hk].
  split; apply extractJIDUser_at_free.
Qed.

Definition observe (events : list (string * string)) (jc : JidCanonicalizer) : JidCanonicalizer :=
  foldl (fun jc ev => OnIncomingEvent ev.1 ev.2 jc) jc events.

Lemma observe_ok events lr :
  resolver_ok lr -> keys_at_free lr ->
  exists lr', observe events (Some lr) = Some lr' /\ resolver_ok lr' /\ keys_at_free lr'.
Proof.
  unfold observe. revert lr. induction events as [|[f p] evs IH]; intros lr Hok Hk; simpl; [eauto|].
  set (lr1 := if str_contains f "@lid" && _ then _ else _).
  assert (resolver_ok lr1 /\ keys_at_free lr1) as [H1 H2]
    by (subst lr1; destruct (_ && _); [by apply learnUsers_ok|done]).
  destruct (str_contains p "@lid" && _); [|by apply IH].
  destruct (learnUsers_ok p f lr1 H1 H2). by apply IH.
Qed.

(** Canonicalization of a full JID does nothing.  The pairs learned from
    events are the user parts, which contain no ["@"], while the targets looked
    up are full JIDs: whatever was observed, a target that contains an ["@"] is
    returned unchanged. *)
Theorem canonicalize_full_jid n events jid :
  at_free jid = false ->
  CanonicalizeTarget jid (observe events (Some (NewLidResolver n))) = jid.
Proof.
  intros Hj. destruct (observe_ok events (NewLidResolver n)) as (lr & -> & Hok & Hk).
  - apply NewLidResolver_ok.
  - intros l p. cbn. by rewrite lookup_empty.
  - simpl. unfold ResolveCanonical. destruct (lidToPN lr !! jid) as [p|] eqn:Hl.
    { apply Hk in Hl as [H _]. congruence. }
    destruct (pnToLID lr !! jid) as [l|] eqn:Hp; [|done].
    destruct Hok as ((Hb & _) & _). apply Hb, Hk in Hp as [_ H]. congruence.
Qed.

Lemma canonicalize_full_jid_witness :
  let jc := observe [("123@lid", "4915112345678@s.whatsapp.net")] (Some (NewLidResolver 1000)) in
  CanonicalizeTarget "123" jc = "4915112345678" /\ CanonicalizeTarget "123@lid" jc = "123@lid".
Proof.
  split; [vm_compute; reflexivity|]. apply canonicalize_full_jid. reflexivity.
Defined.

(** Resolving twice comes back: for learned sides that are not also keys of the
    other side, the map between LIDs and numbers is an involution. *)
Lemma ResolveCanonical_involutive lr jid :
  linked lr -> (forall k, is_Some (lidToPN lr !! k) -> pnToLID lr !! k = None) ->
  ResolveCanonical (ResolveCanonical jid lr) lr = jid.
Proof.
  intros (Hb & _) Hd. unfold ResolveCanonical at 2.
  destruct (lidToPN lr !! jid) as [p|] eqn:Hl.
  - pose proof (proj1 (Hb _ _) Hl) as Hp. unfold ResolveCanonical.
    destruct (lidToPN lr !! p) as [q|] eqn:Hq; [|by rewrite Hp].
    rewrite (Hd p) in Hp by eauto. done.
  - destruct (pnToLID lr !! jid) as [l|] eqn:Hp.
    + apply Hb in Hp. unfold ResolveCanonical. by rewrite Hp.
    + unfold ResolveCanonical. by rewrite Hl, Hp.
Qed.
