(* ===== verification/ContentVariator.v ===== *)
(** * [content_variator.go]

    [ContentVariator]: random variations of a message text, a sequence of
    bytes.  Every method draws from a source of random numbers. *)
From S2P Require Import Prelude GoTime GoFloat GoStrings Config.

Record TypingPause : Type := mkTypingPause { Duration_ : Duration; AtWord : Z }.

(** A string given by its bytes. *)
Definition bstr (l : list Z) : string := of_bytes (map (fun z => ascii_of_N (Z.to_N z)) l).

(** U+200B, U+200C, U+200D, U+FEFF and U+2060 in UTF-8 *)
Definition zeroWidthChars : list string :=
  [bstr [226; 128; 139]; bstr [226; 128; 140]; bstr [226; 128; 141]; bstr [239; 187; 191];
   bstr [226; 129; 160]].

(** U+2728, U+1F449, U+2705, U+1F4AC, U+1F44B, U+1F4F1, U+26A1 and U+1F4AA in UTF-8 *)
Definition emojis : list string :=
  [bstr [226; 156; 168]; bstr [240; 159; 145; 137]; bstr [226; 156; 133]; bstr [240; 159; 146; 172];
   bstr [240; 159; 145; 139]; bstr [240; 159; 147; 177]; bstr [226; 154; 161]; bstr [240; 159; 146; 170]].

Definition injectZeroWidth (text : string) : Rand string :=
  let words := fields text in
  match words with
  | [] => mret text
  | _ =>
      k ← rand_IntN (Z.of_nat (length zeroWidthChars));
      zw ← lift (at_ zeroWidthChars k);
      pos ← rand_IntN (Z.of_nat (length words));
      w ← lift (at_ words pos);
      mret (join (<[Z.to_nat pos := w +:+ zw]> words) " ")
  end.

(** [strings.TrimRight(text, " .")] *)
Definition is_space_or_dot (c : ascii) : bool :=
  bool_decide (c = " "%char) || bool_decide (c = "."%char).

Definition varyPunctuation (text : string) : Rand string :=
  if negb (has_suffix text ".") || (len text <? 3) then mret text
  else
    r ← rand_Float64;
    if fltb r (fconst 5 2) then mret (text +:+ ".")
    else if fltb r (fconst 15 2) then
      if has_suffix text "!" then mret text else mret (text +:+ "!")
    else if fltb r (fconst 25 2) then mret (trim_right text is_space_or_dot +:+ "..")
    else if fltb r (fconst 3 1) then mret (trim_right text is_space_or_dot +:+ "...")
    else mret text.

Definition swapAdjacent (text : string) : Rand string :=
  if len text <? 3 then mret text
  else
    pos ← rand_IntN (len text - 1);
    let b := bytes text in
    x ← lift (at_ b pos); y ← lift (at_ b (pos + 1));
    mret (of_bytes (<[Z.to_nat (pos + 1) := x]> (<[Z.to_nat pos := y]> b))).

Definition skipChar (text : string) : Rand string :=
  if len text <? 4 then mret text
  else
    k ← rand_IntN (len text - 2);
    let pos := 1 + k in
    mret (take_str (Z.to_nat pos) text +:+ drop_str (Z.to_nat (pos + 1)) text).

(** [string(b)] of a byte is the UTF-8 encoding of the code point [b]. *)
Definition string_of_byte (c : ascii) : string :=
  let n := Z.of_N (N_of_ascii c) in
  if n <? 128 then String c "" else bstr [192 + n / 64; 128 + n mod 64].

Definition doubleChar (text : string) : Rand string :=
  if len text <? 2 then mret text
  else
    pos ← rand_IntN (len text);
    c ← lift (at_ (bytes text) pos);
    mret (take_str (Z.to_nat pos) text +:+ string_of_byte c +:+ drop_str (Z.to_nat pos) text).

Definition injectTypo (text : string) : Rand string :=
  typ ← rand_IntN 3;
  match typ with
  | 0 => swapAdjacent text
  | 1 => skipChar text
  | 2 => doubleChar text
  | _ => mret text
  end.

Definition addEmojiPadding (text : string) : Rand string :=
  f ← rand_Float64;
  if fltb f (fconst 3 1) then
    k ← rand_IntN (Z.of_nat (length emojis));
    emoji ← lift (at_ emojis k);
    g ← rand_Float64;
    if fltb g (fconst 5 1) then mret (emoji +:+ " " +:+ text)
    else mret (text +:+ " " +:+ emoji)
  else mret text.

Definition Vary (cfg : Config) (text : string) : Rand string :=
  text ← (if EnableZeroWidth cfg then injectZeroWidth text else mret text);
  text ← (if EnablePunctuationVary cfg then varyPunctuation text else mret text);
  text ← (if EnableTypoInjection cfg
          then (f ← rand_Float64;
                if fltb f (TypoProbability cfg) then injectTypo text else mret text)
          else mret text);
  if EnableEmojiPadding cfg then addEmojiPadding text else mret text.

(** The loop [for used[v] { v = cv.Vary(t) }]: [None] when [fuel] runs are not
    enough for a new text. *)
Fixpoint vary_fresh (cfg : Config) (fuel : nat) (used : gmap string bool) (t : string)
  : Rand (option string) :=
  match fuel with
  | O => mret None
  | S fuel =>
      v ← Vary cfg t;
      match used !! v with
      | Some true => vary_fresh cfg fuel used t
      | _ => mret (Some v)
      end
  end.

Fixpoint VaryBulk_loop (cfg : Config) (fuel : nat) (used : gmap string bool) (texts : list string)
  : Rand (option (list string)) :=
  match texts with
  | [] => mret (Some [])
  | t :: texts =>
      ov ← vary_fresh cfg fuel used t;
      match ov with
      | None => mret None
      | Some v =>
          orest ← VaryBulk_loop cfg fuel (<[v := true]> used) texts;
          mret (match orest with None => None | Some rest => Some (v :: rest) end)
      end
  end.
Definition VaryBulk (cfg : Config) (fuel : nat) (texts : list string) : Rand (option (list string)) :=
  VaryBulk_loop cfg fuel ∅ texts.

Definition GetTypingPauses (text : string) : Rand (list TypingPause) :=
  let words := Z.of_nat (length (fields text)) in
  if words <? 3 then mret []
  else
    f ← rand_Float64;
    p1 ← (if fltb f (fconst 3 1)
          then (k ← rand_IntN 3; mret [mkTypingPause ((1 + k) * Second) (words / 2)])
          else mret []);
    p2 ← (if 10 <? words
          then (g ← rand_Float64;
                if fltb g (fconst 2 1)
                then (k ← rand_IntN 5; j ← rand_IntN (words / 3);
                      mret [mkTypingPause ((2 + k) * Second) (3 + j)])
                else mret [])
          else mret []);
    mret (p1 ++ p2).

(** * Properties *)

Ltac always_step :=
  match goal with
  | |- always (mret _) _ => apply always_ret; cbv beta
  | |- always (rand_Float64 ≫= _) _ => eapply always_bind; [by apply (always_Float64 (fun _ => True))|intros ? _]
  | |- always (rand_IntN _ ≫= _) _ => eapply always_bind; [apply always_IntN; try lia|intros ? ?; cbv beta in *]
  | |- always (if ?b then _ else _) _ => destruct b eqn:?
  end.

Lemma string_of_byte_length c : (1 <= String.length (string_of_byte c) <= 2)%nat.
Proof. unfold string_of_byte. destruct (_ <? 128); simpl; lia. Qed.

(** Typos are one-character edits: for every outcome of the draws and on
    every text [injectTypo] returns (no index is out of range) a text whose
    length differs by at most one byte, or by two when it repeats a byte
    outside ASCII. *)
Theorem injectTypo_bounds text :
  always (injectTypo text) (fun t' => len text - 1 <= len t' <= len text + 2).
Proof.
  unfold injectTypo. always_step. unfold len.
  assert (a = 0 \/ a = 1 \/ a = 2) as [->|[->| ->]] by lia.
  - unfold swapAdjacent, len. always_step; [always_step; lia|]. bool_to_prop.
    always_step.
    eapply always_bind; [apply always_lift_at; rewrite length_bytes; lia|intros x _].
    eapply always_bind; [apply always_lift_at; rewrite length_bytes; lia|intros y _].
    always_step. rewrite length_of_bytes, !length_insert, length_bytes. lia.
  - unfold skipChar, len. always_step; [always_step; lia|]. bool_to_prop.
    always_step. always_step. rewrite length_append, length_take_str, length_drop_str. lia.
  - unfold doubleChar, len. always_step; [always_step; lia|]. bool_to_prop.
    always_step.
    eapply always_bind; [apply always_lift_at; rewrite length_bytes; lia|intros c _].
    always_step. rewrite !length_append, length_take_str, length_drop_str.
    pose proof (string_of_byte_length c). lia.
Qed.

(** ** Words *)

(** A word: not empty, without white space. *)
Definition word (w : string) : Prop := w <> "" /\ Forall (fun c => is_space c = false) (bytes w).

Lemma append_cons_eq a c s : a +:+ String c s = (a +:+ String c "") +:+ s.
Proof. by rewrite append_assoc. Qed.

Lemma fields_aux_word w cur s :
  Forall (fun c => is_space c = false) (bytes w) ->
  fields_aux (w +:+ s) cur = fields_aux s (cur +:+ w).
Proof.
  revert cur. induction w as [|c w IH]; intros cur Hw; simpl.
  - by rewrite append_nil_r.
  - simpl in Hw. apply Forall_cons in Hw as [Hc Hw]. rewrite Hc, IH by done.
    by rewrite (append_cons_eq cur c w).
Qed.

Lemma fields_join ws : Forall word ws -> fields (join ws " ") = ws.
Proof.
  unfold fields. induction 1 as [|w ws [Hne Hw] Hws IH]; [done|].
  destruct ws as [|w' ws].
  - cbn [join]. rewrite <- (append_nil_r w), fields_aux_word by done. simpl.
    rewrite (proj2 (String.eqb_neq _ _)); by rewrite ?append_nil_r.
  - cbn [join]. rewrite fields_aux_word by done. simpl.
    rewrite (proj2 (String.eqb_neq _ _)) by done. by f_equal.
Qed.

Lemma fields_aux_words s cur :
  Forall (fun c => is_space c = false) (bytes cur) -> Forall word (fields_aux s cur).
Proof.
  revert cur. induction s as [|c s IH]; intros cur Hc; simpl.
  - destruct (String.eqb_spec cur ""); [constructor|]. by repeat constructor.
  - destruct (is_space c) eqn:Hs.
    + destruct (String.eqb_spec cur ""); [by apply IH; constructor|].
      constructor; [done|]. apply IH. constructor.
    + apply IH. rewrite bytes_app. simpl. apply Forall_app. by repeat constructor.
Qed.

Lemma fields_words s : Forall word (fields s).
Proof. apply fields_aux_words. constructor. Qed.

Lemma zeroWidth_bytes zw : zw ∈ zeroWidthChars -> Forall (fun c => is_space c = false) (bytes zw).
Proof.
  intros H. unfold zeroWidthChars in H. rewrite !elem_of_cons, elem_of_nil in H.
  destruct H as [->|[->|[->|[->|[->|[]]]]]]; repeat constructor.
Qed.

(** A zero-width injection marks exactly one word: for every outcome of the
    draws [injectZeroWidth] returns, and the words of the result are those of
    the text with one of the zero-width characters appended to one of them.  A
    blank text is returned as it is. *)
Theorem injectZeroWidth_words text :
  always (injectZeroWidth text) (fun t' =>
    if decide (fields text = []) then t' = text
    else exists pos w zw, fields text !! pos = Some w /\ zw ∈ zeroWidthChars /\
           fields t' = <[pos := w +:+ zw]> (fields text)).
Proof.
  unfold injectZeroWidth. destruct (fields text) as [|w0 ws] eqn:Hf; [by always_step|].
  rewrite <- Hf.
  apply (always_mono _ (fun t' => exists pos w zw, fields text !! pos = Some w /\
    zw ∈ zeroWidthChars /\ fields t' = <[pos := w +:+ zw]> (fields text)));
    [|intros t' H; by rewrite decide_False by congruence].
  always_step; [by vm_compute|]. eapply always_bind; [by apply always_lift_at|intros zw Hzw].
  assert ((0 < length (fields text))%nat) by (rewrite Hf; simpl; lia).
  always_step. eapply always_bind; [by apply always_lift_at|intros w Hw].
  always_step. apply list_elem_of_lookup_2 in Hzw. exists (Z.to_nat a0), w, zw.
  split_and!; [done|done|]. apply fields_join. apply Forall_insert; [apply fields_words|].
  pose proof (Forall_lookup_1 _ _ _ _ (fields_words text) Hw) as [Hne Hsp]. split.
  - destruct w; [done|]. done.
  - rewrite bytes_app. apply Forall_app. split; [done|]. by apply zeroWidth_bytes.
Qed.

(** The white space itself is not kept: a line break becomes a space. *)
Example zero_width_loses_newline :
  exists t r, injectZeroWidth (bstr [97; 10; 98]) (mkRng [0; 1] []) = Ret (t, r) /\
    bytes t = bytes (bstr [97; 32; 98; 226; 128; 139]).
Proof. eexists _, _. split; vm_compute; reflexivity. Qed.

(** The typing pauses are inside the message: for every outcome of the
    draws, [GetTypingPauses] returns at most two pauses, of one to six seconds,
    each at a word of the text. *)
Theorem typing_pauses_bounds text :
  always (GetTypingPauses text) (fun ps =>
    (length ps <= 2)%nat /\
    Forall (fun p => 1 * Second <= Duration_ p <= 6 * Second /\
                     0 <= AtWord p < Z.of_nat (length (fields text))) ps).
Proof.
  unfold GetTypingPauses. set (n := Z.of_nat (length (fields text))).
  always_step; [always_step; split; [simpl; lia|constructor]|]. bool_to_prop.
  set (P := fun p => 1 * Second <= Duration_ p <= 6 * Second /\ 0 <= AtWord p < n).
  always_step.
  assert (Hs : 0 < Second) by (by vm_compute).
  eapply (always_bind _ _ (fun ps => (length ps <= 1)%nat /\ Forall P ps)).
  { always_step; [|by always_step; split; [simpl; lia|constructor]].
    always_step. always_step. split; [done|]. repeat constructor; simpl; try nia; div_lia. }
  intros p1 [Hl1 H1].
  eapply (always_bind _ _ (fun ps => (length ps <= 1)%nat /\ Forall P ps)).
  { always_step; [|by always_step; split; [simpl; lia|constructor]]. bool_to_prop.
    always_step. always_step; [|by always_step; split; [simpl; lia|constructor]].
    always_step. assert (0 < n / 3) by div_lia. always_step.
    always_step. split; [done|]. repeat constructor; simpl; try nia; div_lia. }
  intros p2 [Hl2 H2]. always_step. rewrite length_app. split; [lia|by apply Forall_app].
Qed.

(** ** The whole pipeline *)

Definition variations_off (cfg : Config) : Prop :=
  EnableTypoInjection cfg = false /\ EnableZeroWidth cfg = false /\
  EnableEmojiPadding cfg = false /\ EnablePunctuationVary cfg = false.

Lemma Vary_off cfg text r : variations_off cfg -> Vary cfg text r = Ret (text, r).
Proof. intros (Ht & Hz & He & Hp). unfold Vary. by rewrite Hz, Hp, Ht, He. Qed.

(** No middleware built by [New] varies a message: its overlay of the
    caller's configuration leaves the four flags off, so whatever the caller
    asks for, [Vary] returns the text it was given. *)
Theorem Vary_identity preset overrides text r :
  Vary (NewConfig preset overrides) text r = Ret (text, r).
Proof.
  destruct (NewConfig_flags preset overrides) as (?&?&?&?). by apply Vary_off.
Qed.

Lemma vary_fresh_used cfg fuel used t r :
  variations_off cfg -> used !! t = Some true -> vary_fresh cfg fuel used t r = Ret (None, r).
Proof.
  intros Ho Hu. induction fuel as [|fuel IH]; [done|]. simpl.
  unfold mbind, Rand_bind. rewrite Vary_off by done. by rewrite Hu.
Qed.

Lemma vary_fresh_new cfg fuel used t r :
  variations_off cfg -> used !! t = None -> vary_fresh cfg (S fuel) used t r = Ret (Some t, r).
Proof.
  intros Ho Hu. simpl. unfold mbind, Rand_bind. rewrite Vary_off by done. by rewrite Hu.
Qed.

Lemma VaryBulk_off cfg fuel texts used r :
  variations_off cfg -> (forall t b, used !! t = Some b -> b = true) ->
  VaryBulk_loop cfg (S fuel) used texts r =
  Ret (if decide (NoDup texts /\ Forall (fun t => used !! t = None) texts)
       then Some texts else None, r).
Proof.
  intros Ho. revert used. induction texts as [|t texts IH]; intros used Hu;
    cbn [VaryBulk_loop].
  { rewrite decide_True; [done|]. split; constructor. }
  unfold mbind, Rand_bind. destruct (used !! t) as [b|] eqn:Hut.
  - rewrite (Hu t b Hut) in Hut. rewrite vary_fresh_used by done.
    rewrite decide_False; [done|].
    intros [_ Hf]. apply Forall_cons in Hf as [Hf _]. congruence.
  - rewrite vary_fresh_new by done. rewrite IH.
    + unfold mret, Rand_ret.
      destruct (decide (NoDup texts /\ _)) as [[H1 H2]|Hn].
      * rewrite decide_True; [done|]. split.
        -- constructor; [|done]. intros Hin. rewrite Forall_forall in H2.
           apply H2 in Hin. by rewrite lookup_insert_eq in Hin.
        -- constructor; [done|]. eapply Forall_impl; [exact H2|]. simpl. intros x Hx.
           apply lookup_insert_None in Hx. tauto.
      * rewrite decide_False; [done|]. intros [H1 H2]. apply Hn.
        apply NoDup_cons in H1 as [H0 H1]. apply Forall_cons in H2 as [_ H2]. split; [done|].
        rewrite Forall_forall in *. intros x Hx. rewrite lookup_insert_ne; [by apply H2|].
        by intros ->.
    + intros x b. rewrite lookup_insert_Some. naive_solver.
Qed.

(** [VaryBulk] with the variations off returns the texts when they are all
    different, at the first try of each, and never returns otherwise: no number
    of tries finds a new text for a repeated one. *)
Theorem VaryBulk_off_termination cfg texts fuel r :
  variations_off cfg ->
  VaryBulk cfg (S fuel) texts r = Ret (if decide (NoDup texts) then Some texts else None, r).
Proof.
  intros Ho. unfold VaryBulk. rewrite VaryBulk_off by (done || by intros t b; rewrite lookup_empty).
  assert (Forall (fun t => (∅ : gmap string bool) !! t = None) texts)
    by (apply Forall_true; intros; apply lookup_empty).
  destruct (decide (NoDup texts)), (decide (NoDup texts /\ _)); tauto.
Qed.

Lemma VaryBulk_off_termination_witness :
  VaryBulk (NewConfig PresetModerate []) 1000 ["hi"; "yo"; "hi"] (mkRng [] []) = Ret (None, mkRng [] []).
Proof.
  rewrite (VaryBulk_off_termination _ ["hi"; "yo"; "hi"] 999).
  - vm_compute. reflexivity.
  - apply NewConfig_flags.
Defined.

(** Whatever the configuration, the texts that [VaryBulk] returns differ. *)
Lemma VaryBulk_loop_fresh cfg fuel used texts r out r' :
  VaryBulk_loop cfg fuel used texts r = Ret (Some out, r') ->
  NoDup out /\ Forall (fun v => used !! v <> Some true) out /\ length out = length texts.
Proof.
  revert used r out r'. induction texts as [|t texts IH]; intros used r out r'; simpl.
  { intros [= <- <-]. repeat split; constructor. }
  unfold mbind, Rand_bind. destruct (vary_fresh cfg fuel used t r) as [[[v|] r1]|] eqn:Hv; try done.
  destruct (VaryBulk_loop cfg fuel (<[v:=true]> used) texts r1) as [[[rest|] r2]|] eqn:Hr; try done.
  intros [= <- <-]. apply IH in Hr as (Hnd & Hf & Hl).
  assert (used !! v <> Some true) as Hu.
  { clear -Hv. revert r Hv. induction fuel as [|fuel IH]; intros r; simpl; [done|].
    unfold mbind, Rand_bind. destruct (Vary cfg t r) as [[v' r']|]; [|done].
    destruct (used !! v') as [[]|] eqn:E; [apply IH|..]; intros [= -> _]; congruence. }
  split_and!; [|..|simpl; lia].
  - constructor; [|done]. intros Hin. rewrite Forall_forall in Hf. apply (Hf v Hin).
    apply lookup_insert_eq.
  - constructor; [done|]. eapply Forall_impl; [exact Hf|]. simpl. intros x Hx E. apply Hx.
    rewrite lookup_insert. by case_decide.
Qed.
