(* ===== verification/Fingerprint.v ===== *)
(** * [device_fingerprint.go]

    Device identities, drawn at random or from the seeded generator
    [mulberry32], which works on 32-bit words. *)
From S2P Require Import Prelude GoFloat FloatBounds GoStrings BanRecovery.

Record DeviceFingerprint : Type := mkFingerprint {
  AppVersion : string;
  OsVersion : string;
  DeviceModel : string;
  OS : string
}.

Definition appVersions : list string :=
  ["2.24.25"; "2.24.26"; "2.25.1"; "2.25.2"; "2.25.3";
   "2.24.20"; "2.24.22"; "2.24.23"; "2.24.24"].

Definition deviceModels : list string :=
  ["iPhone14,3"; "iPhone15,2"; "iPhone15,3"; "iPhone15,4";
   "Pixel 7"; "Pixel 7 Pro"; "Pixel 8"; "Pixel 8 Pro";
   "SM-S908B"; "SM-S901B"; "SM-S911B"; "SM-S921B";
   "SM-G998B"; "SM-G996B"; "SM-G990E";
   "2107113SG"; "2201123C"; "2201122G"; "2211133G"].

Definition osVersions : list string :=
  ["17.0"; "17.1"; "17.2"; "17.3"; "17.4"; "17.5"; "14"; "15"; "13"; "12.0"; "13.0"; "14.0"].

Definition oss : list string := ["iOS"; "Android"; "iPadOS"].

Definition strContains (s substr : string) : bool :=
  (String.length substr <=? String.length s)%nat && searchString s substr.
Fixpoint containsAny (s : string) (substrs : list string) : bool :=
  match substrs with
  | [] => false
  | sub :: substrs => if strContains s sub then true else containsAny s substrs
  end.

(** [l[rand.IntN(n)]] with an offset *)
Definition pick {A} (l : list A) (off n : Z) : Rand A :=
  k ← rand_IntN n; lift (at_ l (off + k)).

Definition GenerateFingerprint : Rand DeviceFingerprint :=
  appVer ← pick appVersions 0 (Z.of_nat (length appVersions));
  osVer ← pick osVersions 0 (Z.of_nat (length osVersions));
  device ← pick deviceModels 0 (Z.of_nat (length deviceModels));
  os ← pick oss 0 (Z.of_nat (length oss));
  device ← (if String.eqb os "iOS" && negb (containsAny device ["iPhone"; "iPad"])
            then pick deviceModels 0 3 else mret device);
  device ← (if String.eqb os "Android" && containsAny device ["iPhone"; "iPad"]
            then pick deviceModels 3 (Z.of_nat (length deviceModels) - 3) else mret device);
  mret (mkFingerprint appVer osVer device os).

Definition ToClientPayload (df : DeviceFingerprint) : gmap string string :=
  list_to_map [("app_version", AppVersion df); ("os_version", OsVersion df);
               ("device_model", DeviceModel df); ("os", OS df)].

Definition UserAgent (df : DeviceFingerprint) : string :=
  "WhatsApp/" +:+ AppVersion df +:+ " " +:+ OS df +:+ "/" +:+ OsVersion df +:+ " Device/"
  +:+ DeviceModel df.

(** ** [mulberry32] *)

(** The state is the captured variable [s]; one call of the closure. *)
Definition mulberry32_word (s : Z) : Z :=
  let t := Z.lxor s (Z.shiftr s 15) in
  let t := uint32 (t * Z.lor t 1) in
  Z.lxor t (uint32 (t + uint32 (Z.lxor t (Z.shiftr t 7) * Z.lor t 61))).

Definition mulberry32_seed (seed : Z) : Z := uint32 seed.
Definition mulberry32_next (s : Z) : float64 * Z :=
  let s := uint32 (s + 1831565813) in
  let t := mulberry32_word s in
  (fdiv (of_int (2 ^ 32 - 1 - t)) (of_int (2 ^ 32 - 1)), s).

(** [l[int(rng()*float64(len(l)))]] *)
Definition seeded_pick {A} (l : list A) (s : Z) : outcome (A * Z) :=
  let '(f, s) := mulberry32_next s in
  x ← at_ l (to_int (fmul f (of_int (Z.of_nat (length l))))); Ret (x, s).

Definition SeededFingerprint (seed : Z) : outcome DeviceFingerprint :=
  let s := mulberry32_seed seed in
  '(appVer, s) ← seeded_pick appVersions s;
  '(osVer, s) ← seeded_pick osVersions s;
  '(device, s) ← seeded_pick deviceModels s;
  '(os, s) ← seeded_pick oss s;
  Ret (mkFingerprint appVer osVer device os).

Definition FingerprintFromString (s : string) : outcome DeviceFingerprint :=
  let hash := foldl (fun hash c => wrap64 (wrap64 (hash * 31) + Z.of_N (N_of_ascii c))) 0 (bytes s) in
  SeededFingerprint hash.

(** * Properties *)

(** ** The generator as a function on words *)

Definition is_word (t : Z) : Prop := 0 <= t < 2 ^ 32.

Lemma uint32_word z : is_word (uint32 z).
Proof. apply Z.mod_pos_bound. lia. Qed.

Lemma lxor_word a b : is_word a -> is_word b -> is_word (Z.lxor a b).
Proof.
  unfold is_word. intros [Ha1 Ha2] [Hb1 Hb2]. split; [by apply Z.lxor_nonneg|].
  destruct (Z.eq_dec (Z.lxor a b) 0) as [->|Hn]; [lia|].
  apply Z.log2_lt_pow2; [|].
  { assert (0 <= Z.lxor a b) by (by apply Z.lxor_nonneg). lia. }
  eapply Z.le_lt_trans; [by apply Z.log2_lxor|].
  assert (forall x, 0 <= x < 2 ^ 32 -> Z.log2 x < 32) as Hlog.
  { intros x Hx. destruct (Z.eq_dec x 0) as [->|]; [done|]. apply Z.log2_lt_pow2; lia. }
  pose proof (Hlog a ltac:(lia)). pose proof (Hlog b ltac:(lia)). lia.
Qed.

(** The shift-and-xor steps and the odd products of the generator only
    vanish at 0. *)
Lemma xorshift_zero t n : is_word t -> 0 < n -> Z.lxor t (Z.shiftr t n) = 0 -> t = 0.
Proof.
  intros [Ht _] Hn H. apply Z.lxor_eq in H. rewrite Z.shiftr_div_pow2 in H by lia.
  destruct (Z.eq_dec t 0) as [|Hne]; [done|].
  assert (t / 2 ^ n < t); [|lia]. apply Z.div_lt; [lia|].
  change 1 with (2 ^ 0). apply Z.pow_lt_mono_r; lia.
Qed.

Lemma odd_product_zero n t o : 0 <= n -> Z.odd o = true -> (t * o) mod 2 ^ n = 0 -> t mod 2 ^ n = 0.
Proof.
  intros Hn Ho. revert t. pattern n. apply natlike_ind; [|clear n Hn|done].
  { intros t _. apply Z.mod_1_r. }
  intros n Hn IH t H. rewrite Z.pow_succ_r in * by done.
  pose proof (pow2_pos n Hn) as Hp.
  apply Z.mod_divide in H as [k Hk]; [|lia].
  assert (Z.even t = true) as He.
  { assert (Z.even (t * o) = true) as H by (rewrite Hk, !Z.even_mul; simpl; by rewrite orb_true_r).
    rewrite Z.even_mul, <- (Z.negb_odd o), Ho in H.
    by rewrite orb_false_r in H. }
  apply Z.even_spec in He as [u ->].
  assert (u mod 2 ^ n = 0) as Hu.
  { apply IH. apply Z.mod_divide; [lia|]. exists k. nia. }
  apply Z.mod_divide in Hu as [v ->]; [|lia]. apply Z.mod_divide; [lia|]. exists v. lia.
Qed.

Lemma odd_lor a b : Z.odd b = true -> Z.odd (Z.lor a b) = true.
Proof.
  rewrite <- !Z.bit0_odd, Z.lor_spec. intros ->. by rewrite orb_true_r.
Qed.

Lemma mulberry32_word_range s : is_word s -> is_word (mulberry32_word s).
Proof. intros Hs. apply lxor_word; apply uint32_word. Qed.

Lemma mulberry32_word_zero s : is_word s -> mulberry32_word s = 0 <-> s = 0.
Proof.
  intros Hs. split; [|by intros ->]. unfold mulberry32_word.
  set (t1 := Z.lxor s (Z.shiftr s 15)). set (t2 := uint32 (t1 * Z.lor t1 1)). intros H.
  assert (is_word (Z.shiftr s 15)) as Hs15.
  { unfold is_word in *. rewrite Z.shiftr_div_pow2 by lia. split; [apply Z.div_pos; lia|].
    apply Z.div_lt_upper_bound; lia. }
  assert (is_word t1) as Ht1 by (by apply lxor_word).
  assert (is_word t2) as Ht2 by apply uint32_word.
  apply Z.lxor_eq in H.
  assert (uint32 (Z.lxor t2 (Z.shiftr t2 7) * Z.lor t2 61) = 0) as Hx.
  { pose proof (uint32_word (Z.lxor t2 (Z.shiftr t2 7) * Z.lor t2 61)) as Hw.
    revert H Hw. generalize (uint32 (Z.lxor t2 (Z.shiftr t2 7) * Z.lor t2 61)). intros x H Hw.
    unfold uint32, is_word in *. destruct (Z_lt_ge_dec (t2 + x) (2 ^ 32)).
    - rewrite Z.mod_small in H; lia.
    - rewrite <- (Z.mod_unique (t2 + x) (2 ^ 32) 1 (t2 + x - 2 ^ 32)) in H; lia. }
  apply odd_product_zero in Hx; [|lia|by apply odd_lor].
  assert (is_word (Z.shiftr t2 7)) as Ht27.
  { unfold is_word in *. rewrite Z.shiftr_div_pow2 by lia. split; [apply Z.div_pos; lia|].
    apply Z.div_lt_upper_bound; lia. }
  pose proof (lxor_word t2 (Z.shiftr t2 7) Ht2 Ht27) as Hw7. unfold is_word in Hw7.
  rewrite Z.mod_small in Hx by done. apply xorshift_zero in Hx; [|done|lia].
  unfold t2, uint32 in Hx. apply odd_product_zero in Hx; [|lia|by apply odd_lor].
  unfold is_word in Ht1. rewrite Z.mod_small in Hx by done.
  by apply xorshift_zero in Hx; [|done|lia].
Qed.

(** ** Where the seeded draws fail *)

(** The states after the calls of the closure. *)
Definition state_after (seed k : Z) : Z := uint32 (seed + k * 1831565813).

Lemma seeded_pick_spec {A} (l : list A) seed k :
  (1 < length l < 100)%nat ->
  if decide (state_after seed (k + 1) = 0) then
    seeded_pick l (state_after seed k) = Panic "index out of range"
  else exists x, seeded_pick l (state_after seed k) = Ret (x, state_after seed (k + 1)).
Proof.
  intros Hl. unfold seeded_pick, mulberry32_next.
  assert (uint32 (state_after seed k + 1831565813) = state_after seed (k + 1)) as ->.
  { unfold state_after, uint32. rewrite Zplus_mod_idemp_l. f_equal. lia. }
  set (s := state_after seed (k + 1)). pose proof (uint32_word (seed + (k + 1) * 1831565813)) as Hs.
  fold (state_after seed (k + 1)) in Hs. fold s in Hs.
  pose proof (mulberry32_word_range s Hs) as Ht. pose proof (mulberry32_word_zero s Hs) as Hz.
  set (t := mulberry32_word s) in *. set (n := Z.of_nat (length l)) in *.
  assert (1 < n < 100) as Hn by (unfold n; lia).
  destruct (decide (s = 0)) as [E|E].
  - rewrite (proj2 Hz E).
    assert (fdiv (of_int (2 ^ 32 - 1 - 0)) (of_int (2 ^ 32 - 1)) = fone) as -> by (vm_compute; done).
    assert (to_int (fmul fone (of_int n)) = n) as ->.
    { clear -Hl. unfold n. generalize dependent (length l). intros m Hm.
      assert (forallb (fun m => to_int (fmul fone (of_int (Z.of_nat m))) =? Z.of_nat m) (seq 1 99)
              = true) as Hf by (vm_compute; reflexivity).
      rewrite forallb_forall in Hf. apply Z.eqb_eq, Hf. apply in_seq; lia. }
    unfold at_. rewrite (proj2 (Z.ltb_ge n 0)) by lia. unfold n. rewrite Nat2Z.id.
    by rewrite (proj2 (lookup_ge_None l (length l))) by lia.
  - assert (t <> 0) as Hne by (by rewrite Hz).
    unfold is_word in Ht.
    destruct (below_div (2 ^ 32 - 1 - t) (2 ^ 32 - 1) (2 ^ 32 - 1) 32) as [Hb Hv];
      [lia|lia|lia|lia|lia|lia|].
    set (f := fdiv _ _) in *.
    assert (n < 2 ^ 53 /\ (2 ^ 32 - 1) * n + 1 < 2 ^ 53) as [Hn1 Hn2].
    { revert Hn. generalize n. clear. intros n Hn. lia. }
    pose proof (below_mul (2 ^ 32 - 1) 32 n f Hv Hb ltac:(lia) ltac:(lia) Hn1 Hn2) as Hm.
    apply below_to_int in Hm; [|lia|done].
    assert (((2 ^ 32 - 1) * n + 1) / 2 ^ 32 < n) by (apply Z.div_lt_upper_bound; [done|clear -Hn; lia]).
    unfold at_. rewrite (proj2 (Z.ltb_ge _ 0)) by lia.
    destruct (lookup_lt_is_Some_2 l (Z.to_nat (to_int (fmul f (of_int n))))) as [x ->]; [lia|].
    by exists x.
Qed.

(** [SeededFingerprint] returns for every seed except four residues modulo
    2^32: it panics, indexing one past the end of a table, exactly when one of
    the first four states of the generator is 0, because the generator then
    yields exactly 1.0. *)
Theorem SeededFingerprint_panics seed :
  panics (SeededFingerprint seed) <->
  exists k, 1 <= k <= 4 /\ (seed + k * 1831565813) mod 2 ^ 32 = 0.
Proof.
  unfold SeededFingerprint.
  assert (mulberry32_seed seed = state_after seed 0) as ->
    by (unfold mulberry32_seed, state_after; f_equal; lia).
  assert (forall k, (seed + k * 1831565813) mod 2 ^ 32 = state_after seed k) as Hst by done.
  assert (forall {A} (l : list A) k k', (1 < length l < 100)%nat -> k' = k + 1 ->
    (exists x, seeded_pick l (state_after seed k) = Ret (x, state_after seed k') /\
       state_after seed k' <> 0) \/
    (seeded_pick l (state_after seed k) = Panic "index out of range" /\
       state_after seed k' = 0)) as Hp.
  { intros A l k k' Hl ->. pose proof (seeded_pick_spec l seed k Hl) as H.
    destruct (decide _); [by right|left]. destruct H as [x H]. eauto. }
  unfold mbind, outcome_bind.
  destruct (Hp _ appVersions 0 1 ltac:(simpl; lia) eq_refl) as [(x1 & -> & H1)|[-> H1]];
    [|split; [intros _; exists 1; by split|by eexists]].
  destruct (Hp _ osVersions 1 2 ltac:(simpl; lia) eq_refl) as [(x2 & -> & H2)|[-> H2]];
    [|split; [intros _; exists 2; by split|by eexists]].
  destruct (Hp _ deviceModels 2 3 ltac:(simpl; lia) eq_refl) as [(x3 & -> & H3)|[-> H3]];
    [|split; [intros _; exists 3; by split|by eexists]].
  destruct (Hp _ oss 3 4 ltac:(simpl; lia) eq_refl) as [(x4 & -> & H4)|[-> H4]];
    [|split; [intros _; exists 4; by split|by eexists]].
  split; [by intros [msg [=]]|]. intros (k & Hk & H). rewrite Hst in H.
  assert (k = 1 \/ k = 2 \/ k = 3 \/ k = 4) as [->|[->|[->| ->]]] by lia; done.
Qed.

(** A short identifier whose fingerprint cannot be computed. *)
Example FingerprintFromString_panics : panics (FingerprintFromString "abjgn7h").
Proof. eexists. vm_compute. reflexivity. Qed.

(** ** The random fingerprint *)

Lemma always_pick {A} (l : list A) off n :
  0 < n -> 0 <= off -> off + n <= Z.of_nat (length l) ->
  always (pick l off n) (fun x => exists i, off <= i < off + n /\ l !! Z.to_nat i = Some x).
Proof.
  intros Hn Ho Hl. eapply always_bind; [by apply always_IntN|]. intros k Hk. cbv beta in Hk.
  eapply always_mono; [apply always_lift_at; lia|]. intros x Hx. exists (off + k). split; [lia|done].
Qed.

Definition apple (device : string) : bool := containsAny device ["iPhone"; "iPad"].

Lemma apple_index i x : 0 <= i -> deviceModels !! Z.to_nat i = Some x -> apple x = (i <? 4).
Proof.
  intros Hi Hx. assert (Z.to_nat i < 19)%nat as Hl by (by apply lookup_lt_Some in Hx).
  assert (i <? 4 = (Z.to_nat i <? 4)%nat) as ->.
  { destruct (Z.ltb_spec i 4), (Nat.ltb_spec (Z.to_nat i) 4); try done; lia. }
  revert Hl Hx. generalize (Z.to_nat i). clear. intros n.
  do 19 (destruct n as [|n]; [intros _ [= <-]; vm_compute; reflexivity|]). lia.
Qed.

(** The random fingerprint always exists, and it pairs systems and models
    one way only: an iOS device is an iPhone, but the table of the Android
    models starts one entry too early, so the one iPhone an Android
    fingerprint can name is "iPhone15,4". *)
Theorem GenerateFingerprint_pairing :
  always GenerateFingerprint (fun df =>
    (OS df = "iOS" -> apple (DeviceModel df) = true) /\
    (OS df = "Android" -> apple (DeviceModel df) = true -> DeviceModel df = "iPhone15,4")) /\
  exists r df r', GenerateFingerprint r = Ret (df, r') /\ OS df = "Android" /\
    DeviceModel df = "iPhone15,4".
Proof.
  split.
  - unfold GenerateFingerprint.
    eapply always_bind; [by apply always_pick|intros appVer _].
    eapply always_bind; [by apply always_pick|intros osVer _].
    eapply always_bind; [by apply always_pick|intros device (i & Hi & Hd)].
    eapply always_bind; [by apply always_pick|intros os _].
    eapply (always_bind _ _ (fun d => (exists j, 0 <= j < 19 /\ deviceModels !! Z.to_nat j = Some d) /\
                                      (os = "iOS" -> apple d = true))).
    { destruct (String.eqb_spec os "iOS") as [->|Hos]; cbn [andb].
      - destruct (containsAny device ["iPhone"; "iPad"]) eqn:Ha; cbn [negb].
        + apply always_ret. split; [exists i; split; [simpl in Hi; lia|done]|done].
        + eapply always_mono; [by apply always_pick|]. intros d (j & Hj & Hl). split.
          * exists j. split; [lia|done].
          * intros _. rewrite (apple_index j d) by (done || lia). apply Z.ltb_lt. lia.
      - apply always_ret. split; [exists i; split; [simpl in Hi; lia|done]|done]. }
    intros d [(j & Hj & Hl) Hios].
    eapply (always_bind _ _ (fun d => (os = "iOS" -> apple d = true) /\
       (os = "Android" -> apple d = true -> d = "iPhone15,4"))).
    { destruct (String.eqb_spec os "Android") as [->|Hos]; cbn [andb].
      - fold (apple d). destruct (apple d) eqn:Ha.
        + eapply always_mono; [by apply always_pick|]. intros d' (j' & Hj' & Hl'). split; [done|].
          intros _. rewrite (apple_index j' d') by (done || lia). intros ?%Z.ltb_lt.
          assert (j' = 3) as -> by lia. by injection Hl' as <-.
        + apply always_ret. split; [done|]. congruence.
      - apply always_ret. split; [done|]. congruence. }
    intros d' [H1 H2]. by apply always_ret.
  - exists (mkRng [0; 0; 0; 1; 0] []). eexists _, _. vm_compute. done.
Qed.

(** The seeded fingerprint does not pair them: a Samsung that runs iOS. *)
Example SeededFingerprint_unpaired :
  exists df, SeededFingerprint 4 = Ret df /\ OS df = "iOS" /\ DeviceModel df = "SM-S921B".
Proof. eexists. split; [vm_compute; reflexivity|done]. Qed.

(** The user agent and the payload name the same four fields. *)
Lemma payload_fields df :
  ToClientPayload df !! "app_version" = Some (AppVersion df) /\
  ToClientPayload df !! "os_version" = Some (OsVersion df) /\
  ToClientPayload df !! "device_model" = Some (DeviceModel df) /\
  ToClientPayload df !! "os" = Some (OS df).
Proof. by repeat split. Qed.
