(* ===== verification/ProxyRotator.v ===== *)
(** * [proxy_rotator.go]

    [ProxyRotator]: a list of endpoints, the index of the current one, and a
    goroutine that rotates at every tick.  The endpoints are distinct objects,
    so the slice of pointers is a list of values.  [url.Parse] is an argument. *)
From S2P Require Import Prelude GoTime GoStrings.

Record ProxyEndpoint : Type := mkEndpoint {
  URL : string;
  Weight : Z;
  LastUsed : Time;
  FailureCount : Z;
  Cooldown : Duration
}.
#[export] Instance eta_ProxyEndpoint : Eta ProxyEndpoint := fun e =>
  mkEndpoint (URL e) (Weight e) (LastUsed e) (FailureCount e) (Cooldown e).

(** The four constants and any other value of the integer type. *)
Inductive RotateStrategy : Type :=
| RotateRoundRobin | RotateRandom | RotateLeastRecentlyUsed | RotateWeighted | RotateOther (n : Z).

(** [ticker] tells whether [pr.ticker] is not nil. *)
Record ProxyRotator : Type := mkRotator {
  endpoints : list ProxyEndpoint;
  current : Z;
  strategy : RotateStrategy;
  ticker : bool;
  stopClosed : bool;
  rotateCount : Z
}.
#[export] Instance eta_ProxyRotator : Eta ProxyRotator := fun p =>
  mkRotator (endpoints p) (current p) (strategy p) (ticker p) (stopClosed p) (rotateCount p).

Definition NewProxyRotator (eps : list ProxyEndpoint) (s : RotateStrategy) : ProxyRotator :=
  mkRotator eps 0 s false false 0.

(** ** Choosing an endpoint *)

Fixpoint findLRU_loop (eps : list ProxyEndpoint) (i idx : Z) (oldest : Time) : Z :=
  match eps with
  | [] => idx
  | ep :: eps =>
      if bool_decide (Before (LastUsed ep) oldest) && (FailureCount ep <? 3)
      then findLRU_loop eps (i + 1) i (LastUsed ep)
      else findLRU_loop eps (i + 1) idx oldest
  end.
Definition findLRU (pr : ProxyRotator) : Z :=
  match endpoints pr with
  | [] => 0
  | ep0 :: _ => findLRU_loop (endpoints pr) 0 0 (LastUsed ep0)
  end.

(** [max(1, ep.Weight-ep.FailureCount*2)] *)
Definition max (a b : Z) : Z := if a >? b then a else b.
Definition effectiveWeight (ep : ProxyEndpoint) : Z :=
  max 1 (wrap64 (Weight ep - wrap64 (FailureCount ep * 2))).
Definition available (now : Time) (ep : ProxyEndpoint) : bool :=
  (Cooldown ep <? Since now (LastUsed ep)) || (Cooldown ep =? 0).

Definition totalWeight (now : Time) (eps : list ProxyEndpoint) : Z :=
  foldl (fun total ep => if available now ep then wrap64 (total + effectiveWeight ep) else total) 0 eps.

Fixpoint findWeighted_loop (eps : list ProxyEndpoint) (i r : Z) : Z :=
  match eps with
  | [] => 0
  | ep :: eps =>
      let w := effectiveWeight ep in
      if r <? w then i else findWeighted_loop eps (i + 1) (wrap64 (r - w))
  end.
Definition findWeighted (now : Time) (draw : Z) (pr : ProxyRotator) : outcome Z :=
  let total := totalWeight now (endpoints pr) in
  if total =? 0 then Ret 0
  else r ← IntN total draw; Ret (findWeighted_loop (endpoints pr) 0 r).

Definition chooseNext (now : Time) (draw : Z) (pr : ProxyRotator) : outcome Z :=
  match strategy pr with
  | RotateRoundRobin => Ret (Z.rem (current pr + 1) (Z.of_nat (length (endpoints pr))))
  | RotateRandom => IntN (Z.of_nat (length (endpoints pr))) draw
  | RotateLeastRecentlyUsed => Ret (findLRU pr)
  | RotateWeighted => findWeighted now draw pr
  | RotateOther _ => Ret (current pr)
  end.

(** ** Operations *)

Section Url.
Context {url : Type} (parse : string -> option url).

Definition getCurrent (pr : ProxyRotator) : outcome (option url) :=
  match endpoints pr with
  | [] => Ret None
  | _ => ep ← at_ (endpoints pr) (current pr); Ret (parse (URL ep))
  end.
Definition Current := getCurrent.

(** [now] is the reading of [findWeighted] and [now'] the one stored. *)
Definition Rotate (now now' : Time) (draw : Z) (pr : ProxyRotator)
  : outcome (option url * ProxyRotator) :=
  match endpoints pr with
  | [] => Ret (None, pr)
  | _ =>
      next ← chooseNext now draw pr;
      let pr := pr <| current := next |> in
      ep ← at_ (endpoints pr) (current pr);
      let ep := ep <| LastUsed := now' |> in
      let pr := pr <| endpoints := <[Z.to_nat (current pr) := ep]> (endpoints pr) |>
                   <| rotateCount := wrap64 (rotateCount pr + 1) |> in
      Ret (parse (URL ep), pr)
  end.
End Url.

Fixpoint markFirst (endpointURL : string) (eps : list ProxyEndpoint) : list ProxyEndpoint :=
  match eps with
  | [] => []
  | ep :: eps =>
      if String.eqb (URL ep) endpointURL then
        let ep := ep <| FailureCount := FailureCount ep + 1 |> in
        (if FailureCount ep >=? 3 then ep <| Cooldown := 5 * Minute |> else ep) :: eps
      else ep :: markFirst endpointURL eps
  end.
Definition MarkFailure (endpointURL : string) (pr : ProxyRotator) : ProxyRotator :=
  pr <| endpoints := markFirst endpointURL (endpoints pr) |>.

Definition ResurrectAll (pr : ProxyRotator) : ProxyRotator :=
  pr <| endpoints := map (fun ep => ep <| FailureCount := 0 |>) (endpoints pr) |>.

(** [StartRotateEvery] also starts the goroutine, below. *)
Definition StartRotateEvery (pr : ProxyRotator) : ProxyRotator := pr <| ticker := true |>.

Definition Stop (pr : ProxyRotator) : outcome ProxyRotator :=
  let pr := if ticker pr then pr <| ticker := false |> else pr in
  if stopClosed pr then Panic "close of closed channel" else Ret (pr <| stopClosed := true |>).

(** [buf] has 20 bytes, filled from the end. *)
Fixpoint itoa_loop (fuel : nat) (i : Z) (acc : string) : string :=
  match fuel with
  | O => acc
  | S fuel =>
      if 0 <? i then itoa_loop fuel (Z.quot i 10) (String (digit (Z.rem i 10)) acc) else acc
  end.
Definition itoa (i : Z) : string := if i =? 0 then "0" else itoa_loop 20 i "".

Definition GetStats (pr : ProxyRotator) : gmap string Any :=
  let stats := foldl (fun '(i, stats) ep =>
    (i + 1, <["endpoint_" +:+ itoa i := AMap [("url", AString (URL ep));
      ("failures", AInt (FailureCount ep)); ("last_used", ATime (LastUsed ep))]]> stats))
    (0, ∅) (endpoints pr) in
  <["rotations" := AInt64 (rotateCount pr)]> (<["current" := AInt (current pr)]> stats.2).

(** ** The rotation goroutine *)

(** Where the goroutine of [StartRotateEvery] is: evaluating the operands of
    [select] (it reads [pr.ticker.C]), blocked, or in [Rotate]. *)
Inductive rotation_pc : Type := AtSelect | Waiting | Rotating | Returned | Crashed.

Inductive rotation_step : relation (ProxyRotator * rotation_pc) :=
| rot_eval pr :
    rotation_step (pr, AtSelect) (pr, if ticker pr then Waiting else Crashed)
| rot_tick pr : rotation_step (pr, Waiting) (pr, Rotating)
| rot_stopped pr : stopClosed pr = true -> rotation_step (pr, Waiting) (pr, Returned)
| rot_rotate pr now now' draw x pr' :
    Rotate (url := string) Some now now' draw pr = Ret (x, pr') ->
    rotation_step (pr, Rotating) (pr', AtSelect)
| rot_Stop pr pc pr' : Stop pr = Ret pr' -> rotation_step (pr, pc) (pr', pc).

(** * Properties *)

(** The current index is that of an endpoint. *)
Definition current_ok (pr : ProxyRotator) : Prop :=
  endpoints pr <> [] -> 0 <= current pr < Z.of_nat (length (endpoints pr)).

(** Weights and counters for which the sums do not overflow. *)
Definition small (pr : ProxyRotator) : Prop :=
  Forall (fun ep => 0 <= Weight ep < 2 ^ 31 /\ 0 <= FailureCount ep < 2 ^ 31) (endpoints pr) /\
  Z.of_nat (length (endpoints pr)) < 2 ^ 31.

Lemma findLRU_loop_spec eps i idx oldest :
  let r := findLRU_loop eps i idx oldest in
  (r = idx /\ Forall (fun ep => FailureCount ep < 3 -> oldest <= LastUsed ep) eps) \/
  (exists k ep, eps !! k = Some ep /\ r = i + Z.of_nat k /\ FailureCount ep < 3 /\
     LastUsed ep < oldest /\
     Forall (fun ep' => FailureCount ep' < 3 -> LastUsed ep <= LastUsed ep') eps).
Proof.
  revert i idx oldest. induction eps as [|ep eps IH]; intros i idx oldest; simpl; [by left|].
  unfold Before. destruct (decide (LastUsed ep < oldest)) as [Hlt|Hge].
  - rewrite bool_decide_true by done. destruct (Z.ltb_spec (FailureCount ep) 3) as [Hf|Hf]; simpl.
    + right. destruct (IH (i + 1) i (LastUsed ep)) as [[-> H]|(k & ep' & Hk & -> & Hf' & Hl & H)].
      * exists 0%nat, ep. split_and!; try done; [lia|]. constructor; [done|exact H].
      * exists (S k), ep'. split_and!; try done; try lia. constructor; [lia|exact H].
    + destruct (IH (i + 1) idx oldest) as [[-> H]|(k & ep' & Hk & -> & Hf' & Hl & H)].
      * left. split; [done|]. constructor; [lia|exact H].
      * right. exists (S k), ep'. split_and!; try done; try lia. constructor; [lia|exact H].
  - rewrite bool_decide_false by done. simpl.
    destruct (IH (i + 1) idx oldest) as [[-> H]|(k & ep' & Hk & -> & Hf' & Hl & H)].
    + left. split; [done|]. constructor; [lia|exact H].
    + right. exists (S k), ep'. split_and!; try done; try lia. constructor; [lia|exact H].
Qed.

(** The least-recently-used choice: the endpoint chosen was used no later
    than any endpoint with fewer than three failures, and it has fewer than
    three failures itself unless it is the first of the list, which is chosen
    for its age alone. *)
Theorem findLRU_oldest pr :
  endpoints pr <> [] ->
  exists ep, endpoints pr !! Z.to_nat (findLRU pr) = Some ep /\
    0 <= findLRU pr < Z.of_nat (length (endpoints pr)) /\
    (findLRU pr <> 0 -> FailureCount ep < 3) /\
    Forall (fun ep' => FailureCount ep' < 3 -> LastUsed ep <= LastUsed ep') (endpoints pr).
Proof.
  unfold findLRU. destruct (endpoints pr) as [|ep0 eps] eqn:He; [done|]. intros _.
  destruct (findLRU_loop_spec (ep0 :: eps) 0 0 (LastUsed ep0))
    as [[-> H]|(k & ep & Hk & -> & Hf & Hl & H)].
  - exists ep0. split_and!; [done|lia|simpl; lia|done|exact H].
  - exists ep. apply lookup_lt_Some in Hk as Hlen.
    split_and!; [by rewrite Z.add_0_l, Nat2Z.id|lia|lia|done|exact H].
Qed.

Lemma findLRU_oldest_witness :
  let pr := NewProxyRotator [mkEndpoint "a" 1 5 9 0; mkEndpoint "b" 1 7 0 0] RotateLeastRecentlyUsed in
  exists ep, endpoints pr !! Z.to_nat (findLRU pr) = Some ep /\ 0 <= findLRU pr < 2 /\
    (findLRU pr <> 0 -> FailureCount ep < 3) /\
    Forall (fun ep' => FailureCount ep' < 3 -> LastUsed ep <= LastUsed ep') (endpoints pr).
Proof. intros pr. apply (findLRU_oldest pr). discriminate. Defined.

Lemma effectiveWeight_range ep :
  0 <= Weight ep < 2 ^ 31 /\ 0 <= FailureCount ep < 2 ^ 31 -> 1 <= effectiveWeight ep <= 2 ^ 31.
Proof.
  intros [Hw Hf]. unfold effectiveWeight, max.
  rewrite !wrap64_id by (unfold in_int64, min_int64, max_int64 in *;
    rewrite ?wrap64_id by (unfold in_int64, min_int64, max_int64; lia); lia).
  rewrite Z.gtb_ltb. destruct (Z.ltb_spec (Weight ep - FailureCount ep * 2) 1); lia.
Qed.

Lemma totalWeight_range now eps :
  Forall (fun ep => 0 <= Weight ep < 2 ^ 31 /\ 0 <= FailureCount ep < 2 ^ 31) eps ->
  Z.of_nat (length eps) < 2 ^ 31 ->
  0 <= totalWeight now eps <= Z.of_nat (length eps) * 2 ^ 31.
Proof.
  unfold totalWeight. induction eps as [|ep eps IH] using rev_ind; intros Hf Hl; [simpl; lia|].
  rewrite length_app in *. simpl in *. apply Forall_app in Hf as [Hf He].
  rewrite foldl_app. simpl. specialize (IH Hf ltac:(lia)).
  apply Forall_cons in He as [He _]. apply effectiveWeight_range in He.
  destruct (available now ep); [|lia].
  rewrite wrap64_id; [lia|]. unfold in_int64, min_int64, max_int64. lia.
Qed.

Lemma findWeighted_loop_range eps i r :
  0 <= i -> findWeighted_loop eps i r = 0 \/
            i <= findWeighted_loop eps i r < i + Z.of_nat (length eps).
Proof.
  revert i r. induction eps as [|ep eps IH]; intros i r Hi; simpl; [by left|].
  destruct (_ <? _); [right; lia|].
  destruct (IH (i + 1) (wrap64 (r - effectiveWeight ep)) ltac:(lia)); [by left|right; lia].
Qed.

Lemma chooseNext_range now draw pr :
  endpoints pr <> [] -> current_ok pr -> small pr ->
  exists k, chooseNext now draw pr = Ret k /\ 0 <= k < Z.of_nat (length (endpoints pr)).
Proof.
  intros Hne Hc [Hs Hl]. specialize (Hc Hne).
  assert (0 < Z.of_nat (length (endpoints pr))) by (destruct (endpoints pr); [done|simpl; lia]).
  unfold chooseNext. destruct (strategy pr).
  - eexists. split; [done|]. apply Z.rem_bound_pos; lia.
  - unfold IntN. destruct (Z.leb_spec (Z.of_nat (length (endpoints pr))) 0); [lia|].
    eexists. split; [done|]. apply Z.mod_pos_bound. lia.
  - eexists. split; [done|]. unfold findLRU.
    destruct (endpoints pr) as [|ep0 eps] eqn:He; [done|].
    destruct (findLRU_loop_spec (ep0 :: eps) 0 0 (LastUsed ep0)) as [[-> _]|(k & ep & Hk & -> & _)];
      [lia|]. apply lookup_lt_Some in Hk. lia.
  - unfold findWeighted. pose proof (totalWeight_range now (endpoints pr) Hs Hl).
    destruct (Z.eqb_spec (totalWeight now (endpoints pr)) 0); [exists 0; split; [done|lia]|].
    unfold IntN. destruct (Z.leb_spec (totalWeight now (endpoints pr)) 0); [lia|].
    eexists. split; [done|].
    destruct (findWeighted_loop_range (endpoints pr) 0 (draw mod totalWeight now (endpoints pr))); lia.
  - eexists. split; [done|lia].
Qed.

(** [Rotate] never panics and keeps the index in bounds, for every strategy
    and every draw: it uses an endpoint of the list, stamps it, counts the
    rotation, and returns what [url.Parse] makes of that endpoint's address. *)
Theorem Rotate_ok {url} (parse : string -> option url) now now' draw pr :
  endpoints pr <> [] -> current_ok pr -> small pr ->
  exists pr' ep, Rotate parse now now' draw pr = Ret (parse (URL ep), pr') /\
    endpoints pr !! Z.to_nat (current pr') = Some ep /\
    endpoints pr' = <[Z.to_nat (current pr') := ep <| LastUsed := now' |>]> (endpoints pr) /\
    rotateCount pr' = wrap64 (rotateCount pr + 1) /\ current_ok pr' /\ small pr'.
Proof.
  intros Hne Hc Hs. destruct (chooseNext_range now draw pr Hne Hc Hs) as (k & Hk & Hr).
  unfold Rotate. destruct (endpoints pr) as [|ep0 eps] eqn:He; [done|]. rewrite <- He in *.
  rewrite Hk. unfold mbind, outcome_bind. cbn [current endpoints upd].
  destruct (at_in_range (endpoints pr) k Hr) as (ep & -> & Hl).
  eexists _, ep. split; [done|]. cbn [current endpoints upd rotateCount].
  split_and!; [done|done|done| |].
  - unfold current_ok. cbn [current endpoints upd]. rewrite length_insert. auto.
  - destruct Hs as [Hs Hlen]. unfold small. cbn [endpoints upd]. rewrite length_insert.
    split; [|done]. apply Forall_insert; [done|].
    pose proof (Forall_lookup_1 _ _ _ _ Hs Hl). done.
Qed.

Lemma Rotate_ok_witness :
  let pr := NewProxyRotator [mkEndpoint "a" 1 0 0 0; mkEndpoint "b" 1 0 0 0] RotateWeighted in
  exists pr' ep, Rotate (url := string) Some 10 11 1 pr = Ret (Some (URL ep), pr') /\
    endpoints pr !! Z.to_nat (current pr') = Some ep.
Proof.
  intros pr. assert (small pr) as Hs by (split; [repeat constructor; discriminate|reflexivity]).
  destruct (Rotate_ok (url := string) Some 10 11 1 pr ltac:(discriminate)
    ltac:(intros _; vm_compute; split; [discriminate|reflexivity]) Hs) as (pr' & ep & H1 & H2 & _).
  exists pr', ep. split; [exact H1|exact H2].
Defined.

(** ** Round robin *)

Fixpoint rotations (pr : ProxyRotator) (times : list (Time * Time)) : outcome ProxyRotator :=
  match times with
  | [] => Ret pr
  | (now, now') :: times =>
      '(_, pr) ← Rotate (url := string) Some now now' 0 pr; rotations pr times
  end.

Lemma Rotate_round_robin now now' pr :
  strategy pr = RotateRoundRobin -> endpoints pr <> [] -> current_ok pr -> small pr ->
  exists pr' x, Rotate (url := string) Some now now' 0 pr = Ret (x, pr') /\
    current pr' = (current pr + 1) mod Z.of_nat (length (endpoints pr)) /\
    length (endpoints pr') = length (endpoints pr) /\ strategy pr' = RotateRoundRobin /\
    current_ok pr' /\ small pr'.
Proof.
  intros Hst Hne Hc Hs.
  destruct (chooseNext_range now 0 pr Hne Hc Hs) as (k & Hk & Hr).
  assert (k = (current pr + 1) mod Z.of_nat (length (endpoints pr))) as Hkm.
  { unfold chooseNext in Hk. rewrite Hst in Hk. injection Hk as <-.
    apply Z.rem_mod_nonneg; [specialize (Hc Hne); lia|lia]. }
  unfold Rotate. destruct (endpoints pr) as [|ep0 eps] eqn:He; [done|]. rewrite <- He in *.
  rewrite Hk. unfold mbind, outcome_bind. cbn [current endpoints upd].
  destruct (at_in_range (endpoints pr) k Hr) as (ep & -> & Hl).
  eexists _, _. split; [done|]. cbn [current endpoints upd strategy].
  split_and!; [done|by rewrite length_insert|done| |].
  - unfold current_ok. cbn [current endpoints upd]. rewrite length_insert. auto.
  - destruct Hs as [Hs Hlen]. unfold small. cbn [endpoints upd]. rewrite length_insert.
    split; [|done]. apply Forall_insert; [done|].
    pose proof (Forall_lookup_1 _ _ _ _ Hs Hl). done.
Qed.

(** Round robin is fair: [n] rotations move the index by [n] modulo the
    number of endpoints, so a full turn comes back to where it started. *)
Theorem round_robin_fair pr times :
  strategy pr = RotateRoundRobin -> endpoints pr <> [] -> current_ok pr -> small pr ->
  exists pr', rotations pr times = Ret pr' /\
    current pr' = (current pr + Z.of_nat (length times)) mod Z.of_nat (length (endpoints pr)).
Proof.
  revert pr. induction times as [|[now now'] times IH]; intros pr Hst Hne Hc Hs; simpl.
  - exists pr. split; [done|]. specialize (Hc Hne). by rewrite Z.add_0_r, Z.mod_small.
  - destruct (Rotate_round_robin now now' pr Hst Hne Hc Hs) as (p & x & -> & Hcur & Hl & Hst' & Hc' & Hs').
    unfold mbind, outcome_bind.
    destruct (IH p Hst') as (pr' & Hrun & Hlast); try done.
    { intros E. rewrite E in Hl. destruct (endpoints pr); [done|]. simpl in Hl. lia. }
    exists pr'. split; [done|]. rewrite Hlast, Hcur, Hl, Zplus_mod_idemp_l. f_equal. lia.
Qed.

Lemma round_robin_fair_witness :
  let pr := NewProxyRotator (replicate 3 (mkEndpoint "a" 1 0 0 0)) RotateRoundRobin in
  exists pr', rotations pr [(1, 1); (2, 2); (3, 3); (4, 4)] = Ret pr' /\ current pr' = (0 + 4) mod 3.
Proof.
  intros pr.
  assert (small pr) as Hs by (split; [repeat constructor; discriminate|reflexivity]).
  assert (current_ok pr) as Hc by (intros _; vm_compute; split; [discriminate|reflexivity]).
  exact (round_robin_fair pr [(1, 1); (2, 2); (3, 3); (4, 4)] eq_refl ltac:(discriminate) Hc Hs).
Defined.

(** ** Weights *)

(** The weighted choice ignores the cooldown it has just checked: the
    total is taken over the endpoints that are available, but the walk that
    follows goes over all of them, so with a failed first endpoint in its
    cooldown and a healthy second one, every draw chooses the first. *)
Theorem weighted_picks_cooling now draw :
  let bad := mkEndpoint "bad" 1 now 3 (5 * Minute) in
  let good := mkEndpoint "good" 1 zeroTime 0 0 in
  let pr := NewProxyRotator [bad; good] RotateWeighted in
  available now bad = false /\ available now good = true /\ findWeighted now draw pr = Ret 0.
Proof.
  intros bad good pr.
  assert (available now bad = false) as Hb.
  { unfold available, bad, Since. cbn [Cooldown LastUsed]. unfold Sub. rewrite Z.sub_diag. reflexivity. }
  assert (available now good = true) as Hg.
  { unfold available. cbn [Cooldown good]. apply orb_true_r. }
  split_and!; [done|done|]. unfold findWeighted, totalWeight. cbn [endpoints pr NewProxyRotator foldl].
  rewrite Hb, Hg. change (effectiveWeight good) with 1. change (wrap64 (0 + 1)) with 1.
  cbn [Z.eqb]. unfold IntN. cbn [Z.leb Z.compare]. by rewrite Z.mod_1_r.
Qed.

(** ** The goroutine *)

(** [Stop] can crash the program: it sets the ticker to nil while the
    goroutine that rotates at every tick may still be in [Rotate], and the
    goroutine then reads the channel of a nil ticker. *)
Theorem stop_crashes_rotation pr :
  endpoints pr <> [] -> current_ok pr -> small pr -> stopClosed pr = false ->
  exists pr', rtc rotation_step (StartRotateEvery pr, AtSelect) (pr', Crashed).
Proof.
  intros Hne Hc Hs Hst.
  set (pr1 := StartRotateEvery pr). set (pr2 := pr1 <| ticker := false |> <| stopClosed := true |>).
  destruct (Rotate_ok (url := string) Some 0 0 0 pr2) as (pr3 & ep & Hr & _).
  { exact Hne. } { exact Hc. } { exact Hs. }
  assert (ticker pr3 = false) as Ht.
  { revert Hr. unfold Rotate. destruct (endpoints pr2); [by intros [= _ <-]|].
    unfold mbind, outcome_bind. destruct (chooseNext _ _ _); [|done].
    destruct (at_ _ _); [|done]. by intros [= _ <-]. }
  exists pr3.
  eapply rtc_l; [apply rot_eval|]. eapply rtc_l; [apply rot_tick|].
  eapply rtc_l; [apply (rot_Stop pr1 Rotating pr2); unfold Stop; cbn; by rewrite Hst|].
  eapply rtc_l; [by eapply rot_rotate|].
  eapply rtc_l; [apply rot_eval|]. rewrite Ht. apply rtc_refl.
Qed.

Lemma stop_crashes_rotation_witness :
  exists pr', rtc rotation_step
    (StartRotateEvery (NewProxyRotator [mkEndpoint "a" 1 0 0 0] RotateRoundRobin), AtSelect)
    (pr', Crashed).
Proof.
  apply stop_crashes_rotation.
  - discriminate.
  - intros _; vm_compute; split; [discriminate|reflexivity].
  - split; [repeat constructor; discriminate|reflexivity].
  - reflexivity.
Defined.

(** A second [Stop] panics. *)
Lemma Stop_twice pr pr' : Stop pr = Ret pr' -> panics (Stop pr').
Proof.
  unfold Stop. destruct (ticker pr) eqn:Ht, (stopClosed pr) eqn:Hs; cbn; rewrite ?Ht, ?Hs; try done;
    intros [= <-]; cbn; rewrite ?Ht; cbn; by eexists.
Qed.

(** [ResurrectAll] clears the failure counts and leaves the cooldowns: an
    endpoint that failed three times stays unavailable to the total. *)
Lemma resurrected_still_cooling now pr ep :
  ep ∈ endpoints pr -> available now ep = false ->
  exists ep', ep' ∈ endpoints (ResurrectAll pr) /\ FailureCount ep' = 0 /\ available now ep' = false.
Proof.
  intros Hin Ha. exists (ep <| FailureCount := 0 |>). split_and!; [|done|exact Ha].
  cbn. apply list_elem_of_fmap. eauto.
Qed.

(** ** [itoa] *)

Lemma itoa_loop_dec fuel i acc :
  0 < i -> itoa_loop fuel i acc = dec_fuel fuel i acc.
Proof.
  revert i acc. induction fuel as [|fuel IH]; intros i acc Hi; simpl; [done|].
  rewrite (proj2 (Z.ltb_lt 0 i)) by done. rewrite Z.quot_div_nonneg, Z.rem_mod_nonneg by lia.
  destruct (Z.eqb_spec (i / 10) 0) as [E|E].
  - rewrite E. by destruct fuel.
  - apply IH. assert (0 <= i / 10) by (apply Z.div_pos; lia). lia.
Qed.

(** The hand-written conversion is [strconv.Itoa] on the indices it is used for. *)
Lemma itoa_correct i : 0 <= i <= max_int64 -> itoa i = fmt_d i.
Proof.
  intros Hi. unfold itoa, fmt_d, dec_nonneg. destruct (Z.eqb_spec i 0) as [->|]; [done|].
  destruct (Z.ltb_spec i 0); [lia|]. apply itoa_loop_dec. lia.
Qed.
