(* ===== verification/Persist.v ===== *)
(** * [persist.go]

    [StateManager]: the state to save, a dirty flag, and the file it goes to.
    The file system is a map from paths to contents; each of its operations
    may fail, and a failed or interrupted write leaves any contents.
    [json.MarshalIndent] and [json.Unmarshal] are arguments. *)
From S2P Require Import Prelude GoTime GoFloat GoStrings.

Record PersistedState : Type := mkPersisted {
  WarmupDay : Z;
  WarmupDailyCount : Z;
  WarmupGrowth : float64;
  WarmupStartedAt : Time;
  KnownChats : gmap string bool;
  LastUpdated : Time
}.
#[export] Instance eta_PersistedState : Eta PersistedState := fun s =>
  mkPersisted (WarmupDay s) (WarmupDailyCount s) (WarmupGrowth s) (WarmupStartedAt s)
    (KnownChats s) (LastUpdated s).

Definition zeroState : PersistedState := mkPersisted 0 0 fzero zeroTime ∅ zeroTime.

(** [saveTicker] tells whether the ticker is not nil. *)
Record StateManager : Type := mkManager {
  path : string;
  state : PersistedState;
  dirty : bool;
  saveTicker : bool;
  stopClosed : bool
}.
#[export] Instance eta_StateManager : Eta StateManager := fun s =>
  mkManager (path s) (state s) (dirty s) (saveTicker s) (stopClosed s).

Definition NewStateManager : StateManager := mkManager "" zeroState false false false.
Definition SetPath (p : string) (sm : StateManager) : StateManager := sm <| path := p |>.
Definition StartAutoSave (sm : StateManager) : StateManager := sm <| saveTicker := true |>.

Definition SaveWarmupState (now : Time) (warmupDay dailyCount : Z) (growth : float64)
    (startedAt : Time) (sm : StateManager) : StateManager :=
  sm <| state := (state sm) <| WarmupDay := warmupDay |> <| WarmupDailyCount := dailyCount |>
                   <| WarmupGrowth := growth |> <| WarmupStartedAt := startedAt |>
                   <| LastUpdated := now |> |>
     <| dirty := true |>.

Definition SaveKnownChats (now : Time) (chats : gmap string bool) (sm : StateManager) : StateManager :=
  sm <| state := (state sm) <| KnownChats := chats |> <| LastUpdated := now |> |>
     <| dirty := true |>.

Definition GetPersistedState (sm : StateManager) : PersistedState := state sm.

Definition Reset (sm : StateManager) : StateManager :=
  sm <| state := zeroState |> <| dirty := true |>.

(** ** Files *)

Abbreviation FS := (gmap string string) (only parsing).

(** What happens to one [Flush]: which operations fail, with what error, and
    what an unfinished write leaves in the file. *)
Record fs_fate : Type := mkFate {
  mkdir_err : option string;
  write_err : option string;
  rename_err : option string;
  remove_fails : bool;
  partial : string
}.
Definition smooth : fs_fate := mkFate None None None false "".

Section Json.
Context (MarshalIndent : PersistedState -> string + string)
        (Unmarshal : string -> string + PersistedState).

(** The result: the error, the manager, the file system at the end, and the
    file systems in between, at which the process may be interrupted. *)
Definition Flush (f : fs_fate) (fs : FS) (sm : StateManager)
  : option string * StateManager * FS * list FS :=
  if negb (dirty sm) || String.eqb (path sm) "" then (None, sm, fs, [])
  else
    match MarshalIndent (state sm) with
    | inl err => (Some err, sm, fs, [])
    | inr data =>
        match mkdir_err f with
        | Some err => (Some err, sm, fs, [])
        | None =>
            let tmpPath := path sm +:+ ".tmp" in
            let fs1 := <[tmpPath := partial f]> fs in
            match write_err f with
            | Some err => (Some err, sm, fs1, [fs1])
            | None =>
                let fs2 := <[tmpPath := data]> fs in
                match rename_err f with
                | Some err =>
                    let fs3 := if remove_fails f then fs2 else delete tmpPath fs2 in
                    (Some err, sm, fs3, [fs1; fs2])
                | None =>
                    let fs3 := <[path sm := data]> (delete tmpPath fs2) in
                    (None, sm <| dirty := false |>, fs3, [fs1; fs2])
                end
            end
        end
    end.

(** [ReadFile] on a missing file is the [IsNotExist] case; [read_err] is any
    other error. *)
Definition Load (read_err : option string) (fs : FS) (sm : StateManager)
  : (string + option PersistedState) * StateManager :=
  if String.eqb (path sm) "" then (inr None, sm)
  else
    match read_err with
    | Some err => (inl err, sm)
    | None =>
        match fs !! path sm with
        | None => (inr None, sm)
        | Some data =>
            match Unmarshal data with
            | inl err => (inl err, sm)
            | inr st => (inr (Some st), sm <| state := st |>)
            end
        end
    end.

(** The error of the last [Flush] is dropped. *)
Definition Stop (f : fs_fate) (fs : FS) (sm : StateManager) : outcome (StateManager * FS) :=
  if stopClosed sm then Panic "close of closed channel"
  else
    let sm := sm <| stopClosed := true |> in
    let '(_, sm, fs, _) := Flush f fs sm in Ret (sm, fs).

(** * Properties *)

Lemma tmp_not_path p : p +:+ ".tmp" <> p.
Proof.
  intros H. apply (f_equal String.length) in H. rewrite length_append in H. simpl in H. lia.
Qed.

(** C38. Saving is atomic: whatever fails and wherever the process is
    interrupted during [Flush], the state file holds either what it held before
    or the complete new contents, no other file changes but the temporary one,
    and an error leaves the state file as it was and the state marked unsaved. *)
Theorem Flush_atomic f fs sm data :
  MarshalIndent (state sm) = inr data ->
  let '(err, sm', fs', between) := Flush f fs sm in
  Forall (fun g => (g !! path sm = fs !! path sm \/ g !! path sm = Some data) /\
            forall p, p <> path sm -> p <> path sm +:+ ".tmp" -> g !! p = fs !! p) (fs' :: between) /\
  Forall (fun g => g !! path sm = fs !! path sm) between /\
  (err <> None -> sm' = sm /\ fs' !! path sm = fs !! path sm) /\
  (err = None -> path sm <> "" -> dirty sm = true ->
     dirty sm' = false /\ fs' !! path sm = Some data /\ fs' !! (path sm +:+ ".tmp") = None).
Proof.
  intros Hm. unfold Flush. rewrite Hm.
  pose proof (tmp_not_path (path sm)) as Ht. set (tmp := path sm +:+ ".tmp") in *.
  assert (forall x, (<[tmp := x]> fs) !! path sm = fs !! path sm) as Hp
    by (intros; by rewrite lookup_insert_ne).
  assert (forall x p, p <> tmp -> (<[tmp := x]> fs) !! p = fs !! p) as Ho
    by (intros; by rewrite lookup_insert_ne).
  destruct (dirty sm) eqn:Hd; cbn [negb orb].
  2: { repeat constructor; auto; try done. }
  destruct (String.eqb_spec (path sm) "") as [He|He].
  { repeat constructor; auto; try done. }
  destruct (mkdir_err f); [repeat constructor; auto; try done|].
  destruct (write_err f); [repeat constructor; auto; try done|].
  destruct (rename_err f).
  - assert (forall p, p <> tmp -> (if remove_fails f then <[tmp:=data]> fs
              else delete tmp (<[tmp:=data]> fs)) !! p = fs !! p) as Hr.
    { intros p Hpt. destruct (remove_fails f); rewrite ?lookup_delete_ne by done; by rewrite Ho. }
    split_and!; [repeat constructor; auto|repeat constructor; auto|auto|done].
  - assert (forall p, p <> path sm -> p <> tmp ->
      (<[path sm := data]> (delete tmp (<[tmp:=data]> fs))) !! p = fs !! p) as Hr.
    { intros p Hps Hpt. rewrite lookup_insert_ne, lookup_delete_ne by done. by rewrite Ho. }
    split_and!; [|repeat constructor; auto|done|].
    + constructor; [split; [right; by rewrite lookup_insert_eq|done]|]. repeat constructor; auto.
    + intros _ _ _. split_and!; [done|by rewrite lookup_insert_eq|].
      by rewrite lookup_insert_ne, lookup_delete_eq.
Qed.

(** What is saved is what is loaded: a manager of the same path that loads
    after a flush that met no error has the saved state, provided the decoder
    reads back what the encoder wrote. *)
Theorem Flush_Load f fs sm sm2 :
  path sm <> "" -> dirty sm = true -> path sm2 = path sm ->
  (forall data, MarshalIndent (state sm) = inr data -> Unmarshal data = inr (state sm)) ->
  let '(err, _, fs', _) := Flush f fs sm in
  err = None -> Load None fs' sm2 = (inr (Some (state sm)), sm2 <| state := state sm |>).
Proof.
  intros Hp Hd Hp2 Hrt. unfold Flush. rewrite Hd. destruct (String.eqb_spec (path sm) ""); [done|].
  cbn [negb orb]. destruct (MarshalIndent (state sm)) as [|data]; [done|].
  specialize (Hrt data eq_refl).
  destruct (mkdir_err f); [done|]. destruct (write_err f); [done|].
  destruct (rename_err f); [done|]. intros _. unfold Load. rewrite Hp2.
  rewrite (proj2 (String.eqb_neq _ _)) by done. rewrite lookup_insert_eq. by rewrite Hrt.
Qed.

(** Without a path nothing is ever written, and no error is reported. *)
Lemma no_path_no_save f fs sm :
  path sm = "" -> Flush f fs sm = (None, sm, fs, []) /\
  Load None fs sm = (inr None, sm).
Proof. intros Hp. unfold Flush, Load. rewrite Hp. by rewrite orb_true_r. Qed.

(** A flush without error makes the next one a no-op. *)
Lemma Flush_twice f f' fs sm sm' fs' between :
  Flush f fs sm = (None, sm', fs', between) -> path sm <> "" ->
  Flush f' fs' sm' = (None, sm', fs', []).
Proof.
  intros H Hp. assert (dirty sm' = false) as Hd; [|unfold Flush; by rewrite Hd].
  unfold Flush in H. destruct (dirty sm) eqn:Hd; cbn [negb orb] in H; [|congruence].
  rewrite (proj2 (String.eqb_neq _ _)) in H by done.
  repeat case_match; try done. by injection H as <- _ _.
Qed.

(** A second [Stop] panics: it closes the channel again. *)
Lemma Stop_twice_panics f f' fs fs' sm sm' :
  Stop f fs sm = Ret (sm', fs') -> panics (Stop f' fs' sm').
Proof.
  unfold Stop. destruct (stopClosed sm); [done|].
  destruct (Flush f fs (sm <| stopClosed := true |>)) as [[[err sm1] fs1] between] eqn:Hf.
  intros [= <- <-]. assert (stopClosed sm1 = true) as ->; [|by eexists].
  unfold Flush in Hf. repeat case_match; simplify_eq; done.
Qed.
End Json.

(** A concrete encoder of one state, for the witnesses. *)
Definition demo_state : PersistedState := mkPersisted 3 7 fone 5 {["chat" := true]} 9.
Definition demo_manager : StateManager := mkManager "/d/s.json" demo_state true false false.

Lemma Flush_atomic_witness :
  let f := mkFate None None (Some "disk full") false "{" in
  let fs : gmap string string := {["/d/s.json" := "old"]} in
  let '(err, sm', fs', between) := Flush (fun _ => inr "new") f fs demo_manager in
  err = Some "disk full" /\ sm' = demo_manager /\ fs' !! "/d/s.json" = Some "old".
Proof.
  pose proof (Flush_atomic (fun _ => inr "new") (mkFate None None (Some "disk full") false "{")
    {["/d/s.json" := "old"]} demo_manager "new" eq_refl) as H.
  cbv zeta. destruct (Flush _ _ _ _) as [[[err sm'] fs'] between] eqn:E.
  assert (err = Some "disk full") as He.
  { change err with (err, sm', fs', between).1.1.1. rewrite <- E. reflexivity. }
  destruct H as (_ & _ & H & _). destruct H as [H1 H2]; [by rewrite He|].
  split; [exact He|]. split; [exact H1|]. exact H2.
Defined.

Lemma Flush_Load_witness :
  let '(_, _, fs', _) := Flush (fun _ => inr "x") smooth ∅ demo_manager in
  (Load (fun _ => inr demo_state) None fs' (SetPath "/d/s.json" NewStateManager)).1
  = inr (Some demo_state).
Proof.
  pose proof (Flush_Load (fun _ => inr "x") (fun _ => inr demo_state) smooth ∅ demo_manager
    (SetPath "/d/s.json" NewStateManager) ltac:(discriminate) eq_refl eq_refl
    (fun _ _ => eq_refl)) as H.
  destruct (Flush _ _ _ _) as [[[err sm'] fs'] between] eqn:E.
  rewrite H; [reflexivity|].
  change err with (err, sm', fs', between).1.1.1. rewrite <- E. reflexivity.
Defined.
