(* ===== verification/AntiBan.v ===== *)
(** * [antiban.go]

    [AntiBan], the orchestrator: it owns the components, the configuration
    they share, a private copy of that configuration, and the two atomic flags.
    Its hooks run under its mutex.  A risk callback started by the health
    monitor runs in a goroutine of its own: it is put in [riskCallbacks] and
    taken from there, in any order, by a step of its own.  The goroutines
    started by the timelock guard call no registered callback and change
    nothing here; they are dropped. *)
From S2P Require Import Prelude GoTime GoFloat GoStrings Config.
From S2P Require Import RateLimiter WarmUp Health CircuitBreaker TimelockGuard ContactGraph.
From S2P Require Import ReconnectThrottle Scheduler BanRecovery DeliveryTracker GroupGuard.
From S2P Require Import RetryTracker LidResolver Persist.

(** [cfg] is the orchestrator's own copy, [shared] the configuration all
    components point to. *)
Record AntiBan : Type := mkAntiBan {
  cfg : Config;
  preset : Preset;
  shared : Config;
  ab_RateLimiter : RateLimiter.RateLimiter;
  ab_WarmUp : WarmUp.WarmUp;
  ab_Health : Health.HealthMonitor;
  ab_TimelockGuard : TimelockGuard.TimelockGuard;
  ab_ReconnectThrottle : ReconnectThrottle.PostReconnectThrottle;
  ab_RetryTracker : RetryTracker.RetryReasonTracker;
  ab_DeliveryTracker : DeliveryTracker.DeliveryTracker;
  ab_ContactGraph : ContactGraph.ContactGraphWarmer;
  ab_LidResolver : LidResolver.LidResolver;
  ab_CircuitBreaker : gmap string CircuitBreaker.breakerEntry;
  ab_GroupGuard : gmap string (list Time);
  ab_BanRecovery : BanRecovery.BanRecoveryOrchestrator;
  ab_StateManager : Persist.StateManager;
  isPaused : bool;
  destroyed : bool;
  riskCallbacks : list RiskLevel
}.
#[export] Instance eta_AntiBan : Eta AntiBan := fun a =>
  mkAntiBan (cfg a) (preset a) (shared a) (ab_RateLimiter a) (ab_WarmUp a) (ab_Health a)
    (ab_TimelockGuard a) (ab_ReconnectThrottle a) (ab_RetryTracker a) (ab_DeliveryTracker a)
    (ab_ContactGraph a) (ab_LidResolver a) (ab_CircuitBreaker a) (ab_GroupGuard a)
    (ab_BanRecovery a) (ab_StateManager a) (isPaused a) (destroyed a) (riskCallbacks a).

(** [clk i] is the [i]-th reading of the clock during a call. *)
Abbreviation Clock := (nat -> Z) (only parsing).

Definition New (clk : Clock) (u : float64) (p : Preset) (overrides : list Config) : AntiBan :=
  let c := NewConfig p overrides in
  let resolver := NewLidResolver 1000 in
  mkAntiBan c p c NewRateLimiter (NewWarmUp (clk 0%nat) u)
    (Health.OnRiskChange (NewHealthMonitor (clk 1%nat))) NewTimelockGuard NewPostReconnectThrottle
    (NewRetryReasonTracker 5) NewDeliveryTracker NewContactGraphWarmer resolver
    NewJidCircuitBreaker NewGroupOperationGuard NewBanRecoveryOrchestrator NewStateManager
    false false [].

(** The callback registered by [New]. *)
Definition riskCallback (level : RiskLevel) (ab : AntiBan) : AntiBan :=
  match level with
  | RiskCritical | RiskHigh => ab <| isPaused := true |>
  | _ => ab <| isPaused := false |>
  end.

(** ** Sending *)

Section Send.
Context (log cos : float64 -> float64) (sha256_8_hex : string -> string) (loc : Location).

(** The random draws of one call.  The readings of the clock from 13 on are further
    readings of the warm-up and of the circuit breaker. *)
Record draws : Type := mkDraws { jitter_draw : Z; u1 : float64; u2 : float64 }.

Definition BeforeSend (clk : Clock) (d : draws) (chatID : string) (content : option string)
    (ab : AntiBan) : outcome (Duration * bool * AntiBan) :=
  if destroyed ab then Ret (0, false, ab)
  else if isPaused ab then Ret (0, false, ab)
  else
    let c := shared ab in
    if negb (Scheduler.IsActiveTime c loc (clk 0%nat))
    then Ret (Scheduler.MsUntilActive c loc (clk 1%nat) (clk 2%nat) (clk 3%nat), false, ab)
    else
      let '(ok, wu) := WarmUp.CanSend c loc (clk 4%nat) (clk 13%nat) (clk 14%nat) (ab_WarmUp ab) in
      let ab := ab <| ab_WarmUp := wu |> in
      if negb ok then Ret (Minute, false, ab)
      else
        let '(ok, rl) := RateLimiter.CanSend c (clk 5%nat) (ab_RateLimiter ab) in
        let ab := ab <| ab_RateLimiter := rl |> in
        if negb ok then Ret (dur_mul (MinDelayMs (cfg ab)) Millisecond, false, ab)
        else
          let '(ok, cb) := CircuitBreaker.CanSend c (clk 6%nat) (clk 15%nat) chatID (ab_CircuitBreaker ab) in
          let ab := ab <| ab_CircuitBreaker := cb |> in
          if negb ok then
            let '(j, cb) := CircuitBreaker.GetJitter c (clk 7%nat) (clk 16%nat) (jitter_draw d) chatID
                              (ab_CircuitBreaker ab) in
            let ab := ab <| ab_CircuitBreaker := cb |> in
            (jitter ← j; Ret (jitter, false, ab))
          else if negb (TimelockGuard.CanSend (clk 8%nat) chatID (ab_TimelockGuard ab))
          then Ret (30 * Second, false, ab)
          else
            let '(ok, cg) := ContactGraph.CanMessage c loc (clk 9%nat) chatID (IsGroup chatID)
                               (ab_ContactGraph ab) in
            let ab := ab <| ab_ContactGraph := cg |> in
            if negb ok then Ret (Hour, false, ab)
            else
              let '(delay, prt) := ReconnectThrottle.BeforeSend c (clk 10%nat)
                                     (ab_ReconnectThrottle ab) in
              let ab := ab <| ab_ReconnectThrottle := prt |> in
              let '(rateDelay, rl) := RateLimiter.GetDelay log cos sha256_8_hex c (clk 11%nat)
                                        (u1 d) (u2 d) chatID content (ab_RateLimiter ab) in
              let ab := ab <| ab_RateLimiter := rl |> in
              let delay := if rateDelay >? delay then rateDelay else delay in
              Ret (Scheduler.AdjustDelay c loc (clk 12%nat) delay, true, ab).

Definition AfterSend (clk : Clock) (chatID : string) (success : bool) (ab : AntiBan) : AntiBan :=
  if destroyed ab then ab
  else
    let ab := ab <| ab_RateLimiter := RateLimiter.Record_ (clk 0%nat) chatID (ab_RateLimiter ab) |>
                 <| ab_WarmUp := WarmUp.Record_ (clk 1%nat) (ab_WarmUp ab) |>
                 <| ab_ContactGraph := ContactGraph.RecordMessage loc (clk 2%nat) chatID
                                         (ab_ContactGraph ab) |>
                 <| ab_CircuitBreaker := CircuitBreaker.RecordSuccess chatID
                                           (ab_CircuitBreaker ab) |> in
    if success
    then ab <| ab_DeliveryTracker := DeliveryTracker.OnMessageSent (clk 3%nat) (clk 4%nat)
                                       (ab_DeliveryTracker ab) |>
    else ab.

(** A health event and the callbacks it starts. *)
Definition health (r : Health.HealthMonitor * list RiskLevel) (ab : AntiBan) : AntiBan :=
  ab <| ab_Health := r.1 |> <| riskCallbacks := riskCallbacks ab ++ r.2 |>.

Definition recordBan (clk : Clock) (i : nat) (banType : BanType) (ab : AntiBan) : AntiBan :=
  ab <| ab_BanRecovery := BanRecovery.RecordBanEvent (shared ab) (clk (S i)) (clk (S (S i)))
          (mkBanEvent banType (clk i)) (ab_BanRecovery ab) |>.

Definition AfterSendFailed (clk : Clock) (chatID : string) (err : option string) (ab : AntiBan)
  : AntiBan :=
  if destroyed ab then ab
  else
    let ab := health (Health.RecordMessageFailed (shared ab) (clk 0%nat) (ab_Health ab)) ab in
    let ab := ab <| ab_CircuitBreaker := CircuitBreaker.RecordFailure (shared ab) (clk 1%nat)
                      (clk 2%nat) chatID (ab_CircuitBreaker ab) |> in
    let banType := ClassifyError err in
    if decide (banType = BanNone) then ab
    else
      let ab := recordBan clk 3 banType ab in
      let mult := BanRecovery.GetRateMultiplier (shared ab) (ab_BanRecovery ab) in
      if fltb mult fone then ab <| shared := RateLimiter.AdaptLimits mult (shared ab) |> else ab.

(** ** Events *)

Definition OnDisconnect (clk : Clock) (ab : AntiBan) : AntiBan :=
  if destroyed ab then ab
  else
    let ab := health (Health.RecordDisconnect (shared ab) (clk 0%nat) (ab_Health ab)) ab in
    ab <| ab_ReconnectThrottle := ReconnectThrottle.OnDisconnect (clk 1%nat)
                                    (ab_ReconnectThrottle ab) |>.

Definition OnReconnect (clk : Clock) (ab : AntiBan) : AntiBan :=
  if destroyed ab then ab
  else
    let ab := health (Health.RecordReconnect (shared ab) (clk 0%nat) (ab_Health ab)) ab in
    let ab := ab <| ab_ReconnectThrottle := ReconnectThrottle.OnReconnect (clk 1%nat)
                                              (ab_ReconnectThrottle ab) |> in
    ab <| shared := RateLimiter.AdaptLimits
            (BanRecovery.GetRateMultiplier (shared ab) (ab_BanRecovery ab)) (shared ab) |>.

Definition OnIncomingMessage (clk : Clock) (senderID : string) (ab : AntiBan) : AntiBan :=
  if destroyed ab then ab
  else
    let ab := ab <| ab_ContactGraph := ContactGraph.OnIncomingMessage (clk 0%nat) senderID
                                         (ab_ContactGraph ab) |> in
    match LidResolver.OnIncomingEvent senderID "" (Some (ab_LidResolver ab)) with
    | Some lr => ab <| ab_LidResolver := lr |>
    | None => ab
    end.

Definition OnDeliveryReceipt (clk : Clock) (ab : AntiBan) : AntiBan :=
  if destroyed ab then ab
  else ab <| ab_DeliveryTracker := DeliveryTracker.OnDeliveryReceipt (clk 0%nat) (clk 1%nat)
                                     (ab_DeliveryTracker ab) |>.

Definition OnStreamError (clk : Clock) (err : option string) (ab : AntiBan) : AntiBan :=
  if destroyed ab then ab
  else
    let banType := ClassifyError err in
    let ab :=
      match banType with
      | BanHard => health (Health.RecordLoggedOut (shared ab) (clk 0%nat) (ab_Health ab)) ab
      | BanSoft => health (Health.RecordForbidden (shared ab) (clk 0%nat) (ab_Health ab)) ab
      | BanTimelock =>
          let ab := health (Health.RecordReachoutTimelock (shared ab) (clk 0%nat) (ab_Health ab)) ab in
          ab <| ab_TimelockGuard := (TimelockGuard.Record463Error (shared ab) (clk 1%nat)
                                       (ab_TimelockGuard ab)).1 |>
      | _ => ab
      end in
    if decide (banType = BanNone) then ab else recordBan clk 2 banType ab.

Definition Pause (ab : AntiBan) : AntiBan := ab <| isPaused := true |>.
Definition Resume (ab : AntiBan) : AntiBan := ab <| isPaused := false |>.
Definition IsPaused (ab : AntiBan) : bool := isPaused ab.

Definition Destroy (ab : AntiBan) : AntiBan :=
  let ab := ab <| destroyed := true |> in
  let ab := ab <| ab_ReconnectThrottle := ReconnectThrottle.Destroy (ab_ReconnectThrottle ab) |> in
  ab <| ab_RetryTracker := RetryTracker.Destroy (ab_RetryTracker ab) |>.

Definition preset_string (p : Preset) : string :=
  match p with
  | PresetConservative => "conservative" | PresetModerate => "moderate"
  | PresetAggressive => "aggressive" | PresetHighVolume => "high-volume" | PresetOther s => s
  end.

Definition submap (m : gmap string Any) : Any := AMap (map_to_list m).

(** [order] is the order in which Go visits the retry counts. *)
Definition GetStats (clk : Clock) (order : list (Z * Z)) (ab : AntiBan) : gmap string Any * AntiBan :=
  let c := shared ab in
  let '(delivery, dt) := DeliveryTracker.GetStats c (clk 4%nat) (ab_DeliveryTracker ab) in
  let ab := ab <| ab_DeliveryTracker := dt |> in
  let '(recovery, br) := BanRecovery.GetStatus c (clk 7%nat) (ab_BanRecovery ab) in
  let ab := ab <| ab_BanRecovery := br |> in
  (list_to_map [
     ("preset", AString (preset_string (preset ab)));
     ("paused", ABool (isPaused ab));
     ("rate_limiter", submap (RateLimiter.GetStats (ab_RateLimiter ab)));
     ("warmup", submap (WarmUp.GetStatus c (clk 0%nat) (ab_WarmUp ab)));
     ("health", submap (Health.GetStatus (ab_Health ab)));
     ("reconnect", submap (ReconnectThrottle.GetStats c (clk 1%nat) (clk 2%nat)
                             (ab_ReconnectThrottle ab)));
     ("retry", submap (RetryTracker.GetStats order (ab_RetryTracker ab)));
     ("delivery", submap delivery);
     ("circuit_breaker", submap (CircuitBreaker.GetStats (ab_CircuitBreaker ab)));
     ("timelock", submap (TimelockGuard.GetState (clk 5%nat) (clk 6%nat) (ab_TimelockGuard ab)));
     ("recovery", submap recovery);
     ("scheduler", submap (Scheduler.GetStatus c loc (clk 8%nat) (clk 9%nat) (clk 10%nat)
                             (clk 11%nat) (clk 12%nat)))], ab).
End Send.

(** * Properties *)

(** The four presets of the code. *)
Definition known_preset (p : Preset) : bool :=
  match p with PresetOther _ => false | _ => true end.

Lemma New_cooldown clk u p overrides :
  known_preset p = true -> 4 <= CircuitBreakerCooldown (shared (New clk u p overrides)).
Proof.
  intros Hp. cbn [shared New]. unfold NewConfig. destruct overrides as [|o ?].
  - by destruct p.
  - unfold ovr. destruct p; try done; repeat case_match; by vm_compute.
Qed.

Section Hooks.
Context (log cos : float64 -> float64) (sha256_8_hex : string -> string) (loc : Location).

(** One call of a hook, or one risk callback. *)
Inductive ab_step : relation AntiBan :=
| hook_BeforeSend clk d chat content ab dur ok ab' :
    BeforeSend log cos sha256_8_hex loc clk d chat content ab = Ret (dur, ok, ab') -> ab_step ab ab'
| hook_AfterSend clk chat success ab : ab_step ab (AfterSend loc clk chat success ab)
| hook_AfterSendFailed clk chat err ab : ab_step ab (AfterSendFailed clk chat err ab)
| hook_OnDisconnect clk ab : ab_step ab (OnDisconnect clk ab)
| hook_OnReconnect clk ab : ab_step ab (OnReconnect clk ab)
| hook_OnIncomingMessage clk sender ab : ab_step ab (OnIncomingMessage clk sender ab)
| hook_OnDeliveryReceipt clk ab : ab_step ab (OnDeliveryReceipt clk ab)
| hook_OnStreamError clk err ab : ab_step ab (OnStreamError clk err ab)
| hook_Pause ab : ab_step ab (Pause ab)
| hook_Resume ab : ab_step ab (Resume ab)
| hook_Destroy ab : ab_step ab (Destroy ab)
| hook_GetStats clk order ab : ab_step ab (GetStats loc clk order ab).2
| hook_callback l1 level l2 ab :
    riskCallbacks ab = l1 ++ level :: l2 ->
    ab_step ab (riskCallback level (ab <| riskCallbacks := l1 ++ l2 |>)).

(** The gates of [BeforeSend], in order. *)
Definition gates (clk : Clock) (chatID : string) (ab : AntiBan) : list bool :=
  let c := shared ab in
  [negb (destroyed ab); negb (isPaused ab); Scheduler.IsActiveTime c loc (clk 0%nat);
   (WarmUp.CanSend c loc (clk 4%nat) (clk 13%nat) (clk 14%nat) (ab_WarmUp ab)).1;
   (RateLimiter.CanSend c (clk 5%nat) (ab_RateLimiter ab)).1;
   (CircuitBreaker.CanSend c (clk 6%nat) (clk 15%nat) chatID (ab_CircuitBreaker ab)).1;
   TimelockGuard.CanSend (clk 8%nat) chatID (ab_TimelockGuard ab);
   (ContactGraph.CanMessage c loc (clk 9%nat) chatID (IsGroup chatID) (ab_ContactGraph ab)).1].

Lemma canSend_identical c now rl :
  identicalCount (RateLimiter.CanSend c now rl).2 = identicalCount rl /\
  RateLimiter.knownChats (RateLimiter.CanSend c now rl).2 = RateLimiter.knownChats rl.
Proof. unfold RateLimiter.CanSend, canSend. repeat case_match; simplify_eq; done. Qed.

(** [BeforeSend] leaves alone what no send has happened to: a refusal counts no
    content, no throttled send and touches no configuration. *)
Definition refusal_frame (ab ab' : AntiBan) : Prop :=
  identicalCount (ab_RateLimiter ab') = identicalCount (ab_RateLimiter ab) /\
  RateLimiter.sent (ab_RateLimiter ab') = RateLimiter.sent (ab_RateLimiter ab) /\
  ab_ReconnectThrottle ab' = ab_ReconnectThrottle ab /\ ab_Health ab' = ab_Health ab /\
  ab_BanRecovery ab' = ab_BanRecovery ab /\ ab_TimelockGuard ab' = ab_TimelockGuard ab /\
  ab_DeliveryTracker ab' = ab_DeliveryTracker ab /\
  shared ab' = shared ab /\ cfg ab' = cfg ab /\ isPaused ab' = isPaused ab.

Lemma canSend_sent c now rl :
  RateLimiter.sent (RateLimiter.CanSend c now rl).2 = RateLimiter.sent rl.
Proof. unfold RateLimiter.CanSend, canSend. repeat case_match; simplify_eq; done. Qed.

Lemma GetJitter_ret c evict now draw jid cb :
  4 <= CircuitBreakerCooldown c ->
  exists j, (CircuitBreaker.GetJitter c evict now draw jid cb).1 = Ret j.
Proof.
  intros Hc. unfold CircuitBreaker.GetJitter.
  destruct (CircuitBreaker.CanSend c evict now jid cb) as [[] cb']; [by eexists|].
  assert (0 < Z.quot (CircuitBreakerCooldown c) 4) by (apply Z.quot_str_pos; lia).
  unfold mbind, outcome_bind, IntN. cbn [fst].
  destruct (Z.leb_spec (Z.quot (CircuitBreakerCooldown c) 4) 0); [lia|]. by eexists.
Qed.

(** C9. [BeforeSend] always returns, it allows a message exactly when every
    gate is open - not destroyed, not paused, active hours, warm-up, rate
    limits, circuit breaker, timelock, contact graph - and a refusal leaves
    alone the content counts, the throttle, the health, the recovery, the
    delivery statistics and the configuration. *)
Theorem BeforeSend_gates clk d chatID content ab :
  4 <= CircuitBreakerCooldown (shared ab) ->
  exists dur ok ab',
    BeforeSend log cos sha256_8_hex loc clk d chatID content ab = Ret (dur, ok, ab') /\
    ok = forallb id (gates clk chatID ab) /\ (ok = false -> refusal_frame ab ab').
Proof.
  intros Hcd. unfold BeforeSend, gates.
  destruct (destroyed ab) eqn:Hd. { do 3 eexists. split; [done|]. split; [done|]. by intros _. }
  destruct (isPaused ab) eqn:Hp. { do 3 eexists. split; [done|]. split; [done|]. by intros _. }
  destruct (Scheduler.IsActiveTime (shared ab) loc (clk 0%nat)); cbn [negb].
  2: { do 3 eexists. split; [done|]. split; [done|]. by intros _. }
  destruct (WarmUp.CanSend (shared ab) loc (clk 4%nat) (clk 13%nat) (clk 14%nat) (ab_WarmUp ab)) as [[] wu]; cbn [negb fst].
  2: { do 3 eexists. split; [done|]. split; [done|]. by intros _. }
  cbn [ab_RateLimiter upd].
  pose proof (canSend_identical (shared ab) (clk 5%nat) (ab_RateLimiter ab)) as [Hid _].
  pose proof (canSend_sent (shared ab) (clk 5%nat) (ab_RateLimiter ab)) as Hsent.
  destruct (RateLimiter.CanSend (shared ab) (clk 5%nat) (ab_RateLimiter ab)) as [[] rl];
    cbn [negb fst snd] in *.
  2: { do 3 eexists. split; [done|]. split; [done|]. intros _. by split_and!. }
  cbn [ab_CircuitBreaker upd].
  destruct (CircuitBreaker.CanSend (shared ab) (clk 6%nat) (clk 15%nat) chatID (ab_CircuitBreaker ab)) as [[] cb];
    cbn [negb fst].
  2: { destruct (GetJitter_ret (shared ab) (clk 7%nat) (clk 16%nat) (jitter_draw d) chatID cb Hcd) as [j Hj].
       destruct (CircuitBreaker.GetJitter (shared ab) (clk 7%nat) (clk 16%nat) (jitter_draw d) chatID cb)
         as [oj cb'].
       cbn [fst] in Hj. subst oj. do 3 eexists. split; [done|]. split; [done|].
       intros _. by split_and!. }
  cbn [ab_TimelockGuard upd].
  destruct (TimelockGuard.CanSend (clk 8%nat) chatID (ab_TimelockGuard ab)); cbn [negb].
  2: { do 3 eexists. split; [done|]. split; [done|]. intros _. by split_and!. }
  cbn [ab_ContactGraph upd].
  destruct (ContactGraph.CanMessage (shared ab) loc (clk 9%nat) chatID (IsGroup chatID)
              (ab_ContactGraph ab)) as [[] cg]; cbn [negb fst].
  2: { do 3 eexists. split; [done|]. split; [done|]. intros _. by split_and!. }
  destruct (ReconnectThrottle.BeforeSend _ _ _) as [dl prt].
  destruct (RateLimiter.GetDelay _ _ _ _ _ _ _ _ _ _) as [rd rl'].
  do 3 eexists. split; [done|]. split; done.
Qed.

(** ** Destruction *)

(** A destroyed orchestrator is inert: every hook leaves it as it is, and
    no message is allowed, for ever. *)
Theorem destroyed_inert ab clk d chat content success err :
  destroyed ab = true ->
  BeforeSend log cos sha256_8_hex loc clk d chat content ab = Ret (0, false, ab) /\
  AfterSend loc clk chat success ab = ab /\ AfterSendFailed clk chat err ab = ab /\
  OnDisconnect clk ab = ab /\ OnReconnect clk ab = ab /\ OnIncomingMessage clk chat ab = ab /\
  OnDeliveryReceipt clk ab = ab /\ OnStreamError clk err ab = ab.
Proof.
  intros H. unfold BeforeSend, AfterSend, AfterSendFailed, OnDisconnect, OnReconnect,
    OnIncomingMessage, OnDeliveryReceipt, OnStreamError. by rewrite H.
Qed.
End Hooks.

(** The gates of a fresh orchestrator, at noon and at midnight. *)
Lemma BeforeSend_gates_witness :
  exists dur ok ab',
    BeforeSend id id id 0 (fun _ => 12 * Hour) (mkDraws 0 fzero fzero) "a@s.whatsapp.net" None
      (New (fun _ => 12 * Hour) fzero PresetModerate []) = Ret (dur, ok, ab') /\
    ok = forallb id (gates 0 (fun _ => 12 * Hour) "a@s.whatsapp.net"
                       (New (fun _ => 12 * Hour) fzero PresetModerate [])) /\
    (ok = false -> refusal_frame (New (fun _ => 12 * Hour) fzero PresetModerate []) ab').
Proof. apply BeforeSend_gates, New_cooldown. reflexivity. Defined.

Lemma destroyed_inert_witness :
  OnReconnect (fun _ => 0) (Destroy (New (fun _ => 0) fzero PresetModerate []))
  = Destroy (New (fun _ => 0) fzero PresetModerate []).
Proof.
  apply (destroyed_inert id id id 0 (Destroy (New (fun _ => 0) fzero PresetModerate [])) (fun _ => 0)
    (mkDraws 0 fzero fzero) "" None true None eq_refl).
Defined.
