(* ===== verification/Runs.v ===== *)
(** * Runs of the orchestrator

    What sequences of calls to [AntiBan] lead to, for every interleaving of
    its hooks and of the risk callbacks: the send limits that failures take
    away for ever, the timelock that knows no chat, and the pauses. *)
From S2P Require Import Prelude GoTime GoFloat GoStrings Config.
From S2P Require Import RateLimiter WarmUp Health CircuitBreaker TimelockGuard ContactGraph.
From S2P Require Import ReconnectThrottle Scheduler BanRecovery DeliveryTracker LidResolver.
From S2P Require Import ContentVariator Persist AntiBan.

Section Runs.
Context (log cos : float64 -> float64) (sha256_8_hex : string -> string) (loc : Location).
Notation step := (ab_step log cos sha256_8_hex loc).

(** ** What each call leaves alone *)

(** The parts of the orchestrator that the limits depend on. *)
Definition limits_of (ab : AntiBan) : Config * RecoveryPhase :=
  (shared ab, BanRecovery.phase (ab_BanRecovery ab)).

Lemma BeforeSend_frame clk d chat content ab dur ok ab' :
  BeforeSend log cos sha256_8_hex loc clk d chat content ab = Ret (dur, ok, ab') ->
  limits_of ab' = limits_of ab /\ destroyed ab' = destroyed ab /\
  ab_TimelockGuard ab' = ab_TimelockGuard ab.
Proof.
  unfold BeforeSend. intros H. repeat case_match; simplify_eq; try done.
  unfold mbind, outcome_bind in H. case_match; simplify_eq; done.
Qed.

(** The hooks that only touch other components. *)
Definition same_limits (ab ab' : AntiBan) : Prop :=
  limits_of ab' = limits_of ab /\ (destroyed ab = true -> destroyed ab' = true).

Lemma AfterSend_limits clk chat success ab : same_limits ab (AfterSend loc clk chat success ab).
Proof. unfold AfterSend. by destruct (destroyed ab), success. Qed.

Lemma OnDisconnect_limits clk ab : same_limits ab (OnDisconnect clk ab).
Proof. unfold OnDisconnect. by destruct (destroyed ab). Qed.

Lemma OnIncomingMessage_limits clk sender ab : same_limits ab (OnIncomingMessage clk sender ab).
Proof. unfold OnIncomingMessage. destruct (destroyed ab); [done|]. by case_match. Qed.

Lemma OnDeliveryReceipt_limits clk ab : same_limits ab (OnDeliveryReceipt clk ab).
Proof. unfold OnDeliveryReceipt. by destruct (destroyed ab). Qed.

Lemma GetStats_limits clk order ab : same_limits ab (GetStats loc clk order ab).2.
Proof. unfold GetStats. by case_match. Qed.

Lemma riskCallback_limits level ab : same_limits ab (riskCallback level ab).
Proof. by destruct level. Qed.

(** ** Failures take the hourly limit away *)

(** The hourly limits of the presets, and how many failures bring them to
    zero: a failure multiplies the limits by 0.25 at most. *)
Definition preset_hour (p : Preset) : Z :=
  match p with
  | PresetConservative => 30 | PresetModerate => 60 | PresetAggressive => 120
  | PresetHighVolume => 300 | PresetOther _ => 0
  end.

Definition fatal_failures (p : Preset) : nat :=
  match p with
  | PresetConservative | PresetModerate => 3 | PresetAggressive => 4
  | PresetHighVolume => 5 | PresetOther _ => 0
  end.

Fixpoint hours_left (n : nat) (limit : Z) : Z :=
  match n with O => limit | S n => hours_left n (limit / 4) end.

Lemma fatal_failures_spec p n :
  known_preset p = true -> (fatal_failures p <= n)%nat -> hours_left n (preset_hour p) = 0.
Proof.
  intros Hp Hn. assert (forall m, hours_left m 0 = 0) as H0 by (by induction m).
  replace n with (fatal_failures p + (n - fatal_failures p))%nat by lia.
  destruct p; try done; simpl; apply H0.
Qed.

Lemma hours_left_S n limit : hours_left (S n) limit = hours_left n limit / 4.
Proof. revert limit. induction n as [|n IH]; intros limit; [done|]. exact (IH (limit / 4)). Qed.

(** A factor that is the multiplier of a phase other than the ramp. *)
Definition shrinks (f : float64) : Prop := f = fzero \/ f = fconst 25 2.

Lemma scaled_hours_table :
  forallb (fun n =>
    (to_int (fmul (of_int n) (clampFactor fzero)) <=? n / 4) &&
    (0 <=? to_int (fmul (of_int n) (clampFactor fzero))) &&
    (to_int (fmul (of_int n) (clampFactor (fconst 25 2))) <=? n / 4) &&
    (0 <=? to_int (fmul (of_int n) (clampFactor (fconst 25 2)))) &&
    (to_int (fmul (of_int n) (clampFactor fone)) =? n)) (seqZ 0 301) = true.
Proof. vm_compute. reflexivity. Qed.

Lemma scaled_hours n f :
  0 <= n <= 300 ->
  (shrinks f -> 0 <= to_int (fmul (of_int n) (clampFactor f)) <= n / 4) /\
  (f = fone -> to_int (fmul (of_int n) (clampFactor f)) = n).
Proof.
  intros Hn. pose proof scaled_hours_table as H. rewrite forallb_forall in H.
  specialize (H n). assert (In n (seqZ 0 301)) as Hin.
  { apply list_elem_of_In, elem_of_seqZ. lia. }
  specialize (H Hin). bool_to_prop. split; [intros [->| ->]|intros ->]; lia.
Qed.

(** The multiplier of a phase other than the ramp. *)
Lemma multiplier_cases c b :
  RecoveryRampPct c = fconst 25 2 -> BanRecovery.phase b <> PhaseRamping ->
  shrinks (GetRateMultiplier c b) \/ GetRateMultiplier c b = fone.
Proof.
  intros Hp Hb. unfold GetRateMultiplier, getRateMultiplier, shrinks. rewrite Hp.
  destruct (BanRecovery.phase b); auto; done.
Qed.

(** A ban event leads to a phase with a multiplier below 1. *)
Lemma recordBan_phase clk i t ab :
  t <> BanNone ->
  BanRecovery.phase (ab_BanRecovery (recordBan clk i t ab)) ∈ [PhasePaused; PhaseRecovering; PhaseDead].
Proof.
  intros Ht. unfold recordBan, RecordBanEvent. cbn [ab_BanRecovery upd BanRecovery.phase].
  unfold nextPhase. cbn [Type_]. destruct t; try done; repeat case_match; set_solver.
Qed.

Lemma ClassifyError_some e : ClassifyError (Some e) <> BanNone.
Proof. unfold ClassifyError. repeat case_match; done. Qed.

(** A run with at least [n] failed sends that reported an error, in any
    interleaving with the other hooks. *)
Inductive fail_run : nat -> relation AntiBan :=
| fail_refl ab : fail_run 0 ab ab
| fail_step n ab ab' ab'' : fail_run n ab ab' -> step ab' ab'' -> fail_run n ab ab''
| fail_error n ab ab' clk chat e :
    fail_run n ab ab' -> fail_run (S n) ab (AfterSendFailed clk chat (Some e) ab').

Definition fail_inv (limit : Z) (ab : AntiBan) : Prop :=
  destroyed ab = true \/
  (RecoveryRampPct (shared ab) = fconst 25 2 /\
   BanRecovery.phase (ab_BanRecovery ab) <> PhaseRamping /\
   0 <= MaxPerHour (shared ab) <= limit).

Lemma fail_inv_limits limit ab ab' : same_limits ab ab' -> fail_inv limit ab -> fail_inv limit ab'.
Proof.
  intros [Hl Hd] [H|(?&?&?)]; [left; auto|right]. unfold limits_of in Hl.
  injection Hl as -> ->. done.
Qed.

Lemma fail_inv_weaken l1 l2 ab : l1 <= l2 -> fail_inv l1 ab -> fail_inv l2 ab.
Proof. intros Hl [H|(?&?&?)]; [by left|right]. split_and!; try done; lia. Qed.

Lemma recordBan_not_ramping clk i t ab :
  BanRecovery.phase (ab_BanRecovery ab) <> PhaseRamping ->
  BanRecovery.phase (ab_BanRecovery (recordBan clk i t ab)) <> PhaseRamping.
Proof.
  intros Ha. unfold recordBan, RecordBanEvent. cbn [ab_BanRecovery upd BanRecovery.phase].
  unfold nextPhase. cbn [Type_]. destruct t; try done; repeat case_match; done.
Qed.

Lemma AdaptLimits_hour f c limit :
  0 <= MaxPerHour c <= limit -> limit <= 300 -> shrinks f ->
  0 <= MaxPerHour (AdaptLimits f c) <= limit / 4.
Proof.
  intros Hc Hl Hf. unfold AdaptLimits. cbn [MaxPerHour upd].
  destruct (scaled_hours (MaxPerHour c) f) as [H _]; [lia|]. specialize (H Hf).
  pose proof (Z.div_le_mono (MaxPerHour c) limit 4 ltac:(lia)). lia.
Qed.

(** Whatever the multiplier, scaling does not raise the limit. *)
Lemma AdaptLimits_hour_le f c limit :
  0 <= MaxPerHour c <= limit -> limit <= 300 -> shrinks f \/ f = fone ->
  0 <= MaxPerHour (AdaptLimits f c) <= limit.
Proof.
  intros Hc Hl [Hf | ->].
  - pose proof (AdaptLimits_hour f c limit Hc Hl Hf) as [H1 H2].
    assert (limit / 4 <= limit) by (apply Z.div_le_upper_bound; lia). lia.
  - unfold AdaptLimits. cbn [MaxPerHour upd].
    by rewrite (proj2 (scaled_hours (MaxPerHour c) fone ltac:(lia)) eq_refl).
Qed.

Lemma OnReconnect_inv limit clk ab :
  limit <= 300 -> fail_inv limit ab -> fail_inv limit (OnReconnect clk ab).
Proof.
  intros Hl H. unfold OnReconnect. destruct (destroyed ab) eqn:Hd; [done|].
  destruct H as [H|(Hp&Hr&Hm)]; [congruence|right].
  cbn [shared ab_BanRecovery upd health]. split; [done|]. split; [done|].
  apply AdaptLimits_hour_le; [done..|]. by apply multiplier_cases.
Qed.

Lemma recordBan_inv limit clk i t ab : fail_inv limit ab -> fail_inv limit (recordBan clk i t ab).
Proof.
  intros [H|(Hp&Hr&Hm)]; [by left|right]. split; [done|]. split; [|done].
  by apply recordBan_not_ramping.
Qed.

Lemma OnStreamError_inv limit clk err ab :
  fail_inv limit ab -> fail_inv limit (OnStreamError clk err ab).
Proof.
  intros H. unfold OnStreamError. destruct (destroyed ab) eqn:Hd; [done|].
  destruct (ClassifyError err); case_decide; try done; by apply recordBan_inv.
Qed.

(** A failed send with an error divides the limit, any other keeps it. *)
Lemma AfterSendFailed_inv limit clk chat e ab :
  limit <= 300 -> fail_inv limit ab ->
  fail_inv (limit / 4) (AfterSendFailed clk chat (Some e) ab).
Proof.
  intros Hl H. unfold AfterSendFailed. destruct (destroyed ab) eqn:Hd; [by left|].
  destruct H as [H|(Hp&Hr&Hm)]; [congruence|right].
  pose proof (ClassifyError_some e) as He. destruct (decide (ClassifyError (Some e) = BanNone)); [done|].
  set (ab1 := _ <| ab_CircuitBreaker := _ |>).
  pose proof (recordBan_phase clk 3 (ClassifyError (Some e)) ab1 He) as Hph.
  pose proof (recordBan_not_ramping clk 3 (ClassifyError (Some e)) ab1 Hr) as Hr'.
  set (ab2 := recordBan clk 3 (ClassifyError (Some e)) ab1) in *.
  assert (shared ab2 = shared ab) as Hs by done. rewrite Hs in *.
  set (mult := GetRateMultiplier (shared ab) (ab_BanRecovery ab2)).
  assert (shrinks mult) as Hm'.
  { subst mult. unfold shrinks, GetRateMultiplier, getRateMultiplier. rewrite Hp.
    rewrite !elem_of_cons in Hph. destruct Hph as [-> |[-> |[-> |Hph]]]; auto.
    by apply not_elem_of_nil in Hph. }
  assert (fltb mult fone = true) as -> by (destruct Hm' as [-> | ->]; reflexivity).
  cbn [shared ab_BanRecovery upd]. split; [done|]. split; [done|]. by apply AdaptLimits_hour.
Qed.

Lemma AfterSendFailed_nil_inv limit clk chat ab :
  fail_inv limit ab -> fail_inv limit (AfterSendFailed clk chat None ab).
Proof. intros H. unfold AfterSendFailed. by destruct (destroyed ab). Qed.

Lemma step_inv limit ab ab' :
  0 <= limit <= 300 -> fail_inv limit ab -> step ab ab' -> fail_inv limit ab'.
Proof.
  intros Hl Hi Hs. destruct Hs.
  - destruct (BeforeSend_frame _ _ _ _ _ _ _ _ H) as (H1 & H2 & _).
    eapply fail_inv_limits; [|done]. split; [done|congruence].
  - eapply fail_inv_limits; [apply AfterSend_limits|done].
  - destruct err as [e|]; [|by apply AfterSendFailed_nil_inv].
    apply (fail_inv_weaken (limit / 4)); [apply Z.div_le_upper_bound; lia|].
    by apply AfterSendFailed_inv; [lia|].
  - eapply fail_inv_limits; [apply OnDisconnect_limits|done].
  - by apply OnReconnect_inv; [lia|].
  - eapply fail_inv_limits; [apply OnIncomingMessage_limits|done].
  - eapply fail_inv_limits; [apply OnDeliveryReceipt_limits|done].
  - by apply OnStreamError_inv.
  - eapply fail_inv_limits; [|done]; done.
  - eapply fail_inv_limits; [|done]; done.
  - eapply fail_inv_limits; [|done]; done.
  - eapply fail_inv_limits; [apply GetStats_limits|done].
  - eapply fail_inv_limits; [apply (riskCallback_limits _ (ab <| riskCallbacks := l1 ++ l2 |>))|done].
Qed.

Lemma hours_left_range n p : known_preset p = true -> 0 <= hours_left n (preset_hour p) <= 300.
Proof.
  intros Hp. induction n as [|n IH]; [by destruct p; simpl; try done; lia|]. rewrite hours_left_S.
  split; [apply Z.div_pos; lia|apply Z.div_le_upper_bound; lia].
Qed.

Lemma fail_run_inv n p ab ab' :
  known_preset p = true -> fail_run n ab ab' -> fail_inv (preset_hour p) ab ->
  fail_inv (hours_left n (preset_hour p)) ab'.
Proof.
  intros Hp Hr H0. induction Hr as [ab|n ab ab1 ab2 Hr IH Hs|n ab ab1 clk chat e Hr IH]; [done|..].
  - eapply step_inv; [by apply hours_left_range|by apply IH|done].
  - rewrite hours_left_S. apply AfterSendFailed_inv; [|by apply IH]. by apply hours_left_range.
Qed.

(** Without a limit for the hour, no check succeeds. *)
Lemma no_hours_refused c now rl : MaxPerHour c <= 0 -> (RateLimiter.CanSend c now rl).1 = false.
Proof.
  intros Hc. unfold RateLimiter.CanSend, canSend. case_match; [done|].
  case_match; [done|]. bool_to_prop. cbn in *. lia.
Qed.

Lemma BeforeSend_allowed clk d chat content ab dur ab' :
  BeforeSend log cos sha256_8_hex loc clk d chat content ab = Ret (dur, true, ab') ->
  destroyed ab = false /\ (RateLimiter.CanSend (shared ab) (clk 5%nat) (ab_RateLimiter ab)).1 = true.
Proof.
  unfold BeforeSend. destruct (destroyed ab) eqn:Hd; [done|]. destruct (isPaused ab); [done|].
  destruct (Scheduler.IsActiveTime _ _ _); [|done].
  destruct (WarmUp.CanSend _ _ _ _ _ _) as [[] wu]; [|done]. cbn [negb ab_RateLimiter upd].
  destruct (RateLimiter.CanSend _ _ _) as [[] rl]; done.
Qed.

(** C37. The limits that a failed send scales down are never restored: from a
    preset without overrides, after three failed sends with an error (four
    for the aggressive preset, five for high volume), at any times and in any
    interleaving with the other hooks and with resumes, reconnections and
    callbacks, no message is ever allowed again. *)
Theorem send_failures_fatal clk u p n ab ab' clk' d chat content dur ok ab'' :
  known_preset p = true -> (fatal_failures p <= n)%nat ->
  fail_run n (New clk u p []) ab -> rtc step ab ab' ->
  BeforeSend log cos sha256_8_hex loc clk' d chat content ab' = Ret (dur, ok, ab'') -> ok = false.
Proof.
  intros Hp Hn Hf Hr Hb. destruct ok; [|done]. exfalso.
  assert (fail_inv 0 ab) as Hi.
  { rewrite <- (fatal_failures_spec p n) by done. eapply fail_run_inv; [done|done|].
    right. by destruct p. }
  assert (fail_inv 0 ab') as Hi'.
  { clear -Hi Hr. induction Hr as [|x y z Hs _ IH]; [done|]. apply IH. by apply (step_inv 0 x). }
  apply BeforeSend_allowed in Hb as [Hd Hc]. destruct Hi' as [H|(_&_&Hm)]; [congruence|].
  rewrite no_hours_refused in Hc; [done|lia].
Qed.
(** ** The timelock knows no chat *)

Lemma AfterSendFailed_timelock clk chat err ab :
  ab_TimelockGuard (AfterSendFailed clk chat err ab) = ab_TimelockGuard ab.
Proof. unfold AfterSendFailed. destruct (destroyed ab); [done|]. by repeat case_match. Qed.

(** No hook registers a chat with the guard. *)
Lemma step_known_chats ab ab' :
  step ab ab' -> TimelockGuard.knownChats (ab_TimelockGuard ab) = ∅ ->
  TimelockGuard.knownChats (ab_TimelockGuard ab') = ∅.
Proof.
  intros Hs H. destruct Hs.
  - destruct (BeforeSend_frame _ _ _ _ _ _ _ _ H0) as (_ & _ & Ht). by rewrite Ht.
  - unfold AfterSend. by destruct (destroyed ab), success.
  - by rewrite AfterSendFailed_timelock.
  - unfold OnDisconnect. by destruct (destroyed ab).
  - unfold OnReconnect. by destruct (destroyed ab).
  - unfold OnIncomingMessage. destruct (destroyed ab); [done|]. by case_match.
  - unfold OnDeliveryReceipt. by destruct (destroyed ab).
  - unfold OnStreamError. destruct (destroyed ab); [done|].
    destruct (ClassifyError err); case_decide; done.
  - done.
  - done.
  - done.
  - unfold GetStats. by case_match.
  - by destruct level.
Qed.

(** In every run, a 463 error blocks every chat until the block ends - the
    chats already talked to as well, since nothing registers a chat with the
    guard. *)
Theorem timelock_blocks_known_chats clk u p overrides ab clk' err clk'' d chat content dur ok ab'' :
  rtc step (New clk u p overrides) ab -> destroyed ab = false -> ClassifyError err = BanTimelock ->
  clk'' 8%nat < Add (clk' 1%nat) (TimelockBlockDuration (shared ab)) ->
  BeforeSend log cos sha256_8_hex loc clk'' d chat content (OnStreamError clk' err ab)
    = Ret (dur, ok, ab'') -> ok = false.
Proof.
  intros Hr Hd He Hc Hb. destruct ok; [|done]. exfalso.
  assert (TimelockGuard.knownChats (ab_TimelockGuard ab) = ∅) as Hk.
  { clear -Hr. remember (New clk u p overrides) as ab0 eqn:H0.
    assert (TimelockGuard.knownChats (ab_TimelockGuard ab0) = ∅) as Hk by by subst.
    clear H0. induction Hr as [|x y z Hs _ IH]; [done|]. by eapply IH, step_known_chats. }
  set (ab1 := OnStreamError clk' err ab) in *.
  assert (ab_TimelockGuard ab1 = (Record463Error (shared ab) (clk' 1%nat) (ab_TimelockGuard ab)).1)
    as Ht. { unfold ab1, OnStreamError. by rewrite Hd, He. }
  assert (TimelockGuard.CanSend (clk'' 8%nat) chat (ab_TimelockGuard ab1) = false) as Hf.
  { rewrite Ht. unfold TimelockGuard.CanSend, Record463Error. cbn [fst blockedUntil upd].
    rewrite decide_True by done. cbn [TimelockGuard.knownChats upd]. by rewrite Hk, lookup_empty. }
  clearbody ab1. unfold BeforeSend in Hb. revert Hb. repeat (case_match; try done).
  all: try (unfold mbind, outcome_bind; case_match; congruence).
  all: cbn [ab_TimelockGuard upd] in *; rewrite Hf in *; done.
Qed.
(** ** What no run changes *)

(** The identity resolver and the switches of the content variations. *)
Definition fixed_parts (ab : AntiBan) : LidResolver * (bool * bool * bool * bool) :=
  (ab_LidResolver ab,
   (EnableTypoInjection (shared ab), EnableZeroWidth (shared ab), EnableEmojiPadding (shared ab),
    EnablePunctuationVary (shared ab))).

(** A sender without a participant teaches nothing. *)
Lemma OnIncomingEvent_alone sender lr :
  LidResolver.OnIncomingEvent sender "" (Some lr) = Some lr.
Proof. unfold LidResolver.OnIncomingEvent. simpl. by rewrite andb_false_r. Qed.

Lemma BeforeSend_fixed clk d chat content ab dur ok ab' :
  BeforeSend log cos sha256_8_hex loc clk d chat content ab = Ret (dur, ok, ab') ->
  fixed_parts ab' = fixed_parts ab.
Proof.
  unfold BeforeSend. intros H. repeat case_match; simplify_eq; try done.
  unfold mbind, outcome_bind in H. case_match; simplify_eq; done.
Qed.

Lemma step_fixed ab ab' : step ab ab' -> fixed_parts ab' = fixed_parts ab.
Proof.
  intros Hs. destruct Hs.
  - by eapply BeforeSend_fixed.
  - unfold AfterSend. by destruct (destroyed ab), success.
  - unfold AfterSendFailed. destruct (destroyed ab); [done|]. by repeat case_match.
  - unfold OnDisconnect. by destruct (destroyed ab).
  - unfold OnReconnect. by destruct (destroyed ab).
  - unfold OnIncomingMessage. destruct (destroyed ab); [done|]. by rewrite OnIncomingEvent_alone.
  - unfold OnDeliveryReceipt. by destruct (destroyed ab).
  - unfold OnStreamError. destruct (destroyed ab); [done|].
    destruct (ClassifyError err); case_decide; done.
  - done.
  - done.
  - done.
  - unfold GetStats. by case_match.
  - by destruct level.
Qed.

Lemma run_fixed ab ab' : rtc step ab ab' -> fixed_parts ab' = fixed_parts ab.
Proof. induction 1 as [|x y z Hs _ IH]; [done|]. by rewrite IH, (step_fixed x y). Qed.

Lemma run_variations_off ab ab' :
  rtc step ab ab' -> variations_off (shared ab) -> variations_off (shared ab').
Proof.
  intros Hr (H1 & H2 & H3 & H4). apply run_fixed in Hr. unfold fixed_parts in Hr.
  injection Hr as _ E1 E2 E3 E4. split_and!; congruence.
Qed.

Lemma run_resolver clk u p overrides ab :
  rtc step (New clk u p overrides) ab -> ab_LidResolver ab = NewLidResolver 1000.
Proof. intros Hr. apply run_fixed in Hr. by injection Hr. Qed.

Lemma empty_resolver_identity jid n : CanonicalizeTarget jid (Some (NewLidResolver n)) = jid.
Proof. simpl. unfold ResolveCanonical. cbn. by rewrite !lookup_empty. Qed.
End Runs.

(** Three failed sends from the moderate preset, and a send a year later, at
    noon. *)
Definition failed_thrice : AntiBan :=
  let fail t := AfterSendFailed (fun _ => t * Hour) "a@s.whatsapp.net" (Some "timeout") in
  fail 14 (fail 13 (fail 12 (New (fun _ => 0) fzero PresetModerate []))).

Lemma send_failures_fatal_witness :
  match BeforeSend id id id 0 (fun _ => (365 * 24 + 12) * Hour) (mkDraws 0 fzero fzero)
          "b@s.whatsapp.net" None failed_thrice with
  | Ret (_, ok, _) => ok = false
  | Panic _ => False
  end.
Proof.
  assert (fail_run id id id 0 3 (New (fun _ => 0) fzero PresetModerate []) failed_thrice) as Hf.
  { unfold failed_thrice. do 3 apply fail_error. apply fail_refl. }
  destruct (BeforeSend _ _ _ _ _ _ _ _ failed_thrice) as [[[dur ok] ab'']|msg] eqn:E.
  - exact (send_failures_fatal id id id 0 (fun _ => 0) fzero PresetModerate 3 failed_thrice
      failed_thrice _ _ _ _ _ _ _ eq_refl (le_n 3) Hf (rtc_refl _ _) E).
  - vm_compute in E. discriminate.
Defined.

(** A chat that has been sent ten messages, then a 463 error a minute before
    the next. *)
Definition chatty : AntiBan :=
  Nat.iter 10 (AfterSend 0 (fun _ => 12 * Hour) "a@s.whatsapp.net" true)
    (New (fun _ => 12 * Hour) fzero PresetModerate []).

Lemma timelock_blocks_known_chats_witness :
  match BeforeSend id id id 0 (fun _ => 12 * Hour + Minute) (mkDraws 0 fzero fzero)
          "a@s.whatsapp.net" None (OnStreamError (fun _ => 12 * Hour) (Some "463") chatty) with
  | Ret (_, ok, _) => ok = false
  | Panic _ => False
  end.
Proof.
  assert (rtc (ab_step id id id 0) (New (fun _ => 12 * Hour) fzero PresetModerate []) chatty) as Hr.
  { unfold chatty. generalize 10%nat. induction n as [|n IH]; [done|].
    eapply rtc_r; [exact IH|]. apply hook_AfterSend. }
  destruct (BeforeSend _ _ _ _ _ _ _ _ _) as [[[dur ok] ab'']|msg] eqn:E.
  - refine (timelock_blocks_known_chats id id id 0 _ _ _ _ chatty (fun _ => 12 * Hour) (Some "463")
      (fun _ => 12 * Hour + Minute) _ _ _ _ _ _ Hr _ _ _ E); vm_compute; reflexivity.
  - vm_compute in E. discriminate.
Defined.

(** ** Pauses *)

(** Ten disconnections of a fresh orchestrator, and all the callbacks they
    started. *)
Definition ten_disconnects (p : Preset) : AntiBan :=
  let ab := Nat.iter 10 (OnDisconnect (fun _ => 0)) (New (fun _ => 0) fzero p []) in
  foldl (fun ab l => riskCallback l ab) (ab <| riskCallbacks := [] |>) (riskCallbacks ab).

(** The auto-pause of the conservative preset does not pause: its level,
    30, is reached with a medium risk, for which the callback of [New]
    resumes.  Ten disconnections at once leave the monitor paused at a
    critical risk and the orchestrator running, with no callback to come;
    the other presets do pause. *)
Theorem conservative_not_paused :
  (let ab := ten_disconnects PresetConservative in
   Health.isPaused (ab_Health ab) = true /\ getRiskLevel (ab_Health ab) = RiskCritical /\
   riskCallbacks ab = [] /\ IsPaused ab = false) /\
  map (fun p => IsPaused (ten_disconnects p)) [PresetModerate; PresetAggressive; PresetHighVolume]
    = [true; true; true].
Proof. split; [cbv zeta; split_and!|]; vm_compute; reflexivity. Qed.

(** A message refused by a later gate has consumed burst credit, for good. *)
Lemma refusal_consumes_burst :
  let ab := OnStreamError (fun _ => 12 * Hour) (Some "463")
              (Nat.iter 5 (AfterSend 0 (fun _ => 12 * Hour) "a@s.whatsapp.net" true)
                 (New (fun _ => 12 * Hour) fzero PresetModerate [])) in
  match BeforeSend id id id 0 (fun _ => 12 * Hour) (mkDraws 0 fzero fzero) "a@s.whatsapp.net" None ab with
  | Ret (_, ok, ab') => ok = false /\ burstCredit (ab_RateLimiter ab) = 0 /\
                        burstCredit (ab_RateLimiter ab') = 1
  | Panic _ => False
  end.
Proof. vm_compute. repeat constructor. Qed.
