(* ===== verification/Jid.v ===== *)
(** * [whatsmeow/types/jid.go]

    [JID], its printing and parsing, the agents that its server stands for,
    its Signal address and its conversions to and from SQL values.  A parse
    error comes with the partial JID, as in the code. *)
From S2P Require Import Prelude GoStrings.

Definition DefaultUserServer : string := "s.whatsapp.net".
Definition GroupServer : string := "g.us".
Definition LegacyUserServer : string := "c.us".
Definition BroadcastServer : string := "broadcast".
Definition HiddenUserServer : string := "lid".
Definition MessengerServer : string := "msgr".
Definition InteropServer : string := "interop".
Definition NewsletterServer : string := "newsletter".
Definition HostedServer : string := "hosted".
Definition HostedLIDServer : string := "hosted.lid".
Definition BotServer : string := "bot".

Definition WhatsAppDomain : Z := 0.
Definition LIDDomain : Z := 1.
Definition HostedDomain : Z := 128.
Definition HostedLIDDomain : Z := 129.

(** [RawAgent] is a [uint8], [Device] and [Integrator] are [uint16]. *)
Record JID : Type := mkJID {
  User : string;
  RawAgent : Z;
  Device : Z;
  Integrator : Z;
  Server : string
}.
#[export] Instance eta_JID : Eta JID := fun j =>
  mkJID (User j) (RawAgent j) (Device j) (Integrator j) (Server j).
#[export] Instance JID_eq_dec : EqDecision JID.
Proof. solve_decision. Defined.

Definition EmptyJID : JID := mkJID "" 0 0 0 "".
Definition NewJID (user server : string) : JID := mkJID user 0 0 0 server.

Definition GroupServerJID : JID := NewJID "" GroupServer.
Definition ServerJID : JID := NewJID "" DefaultUserServer.
Definition BroadcastServerJID : JID := NewJID "" BroadcastServer.
Definition StatusBroadcastJID : JID := NewJID "status" BroadcastServer.
Definition LegacyPSAJID : JID := NewJID "0" LegacyUserServer.
Definition PSAJID : JID := NewJID "0" DefaultUserServer.
Definition OfficialBusinessJID : JID := NewJID "16505361212" LegacyUserServer.
Definition MetaAIJID : JID := NewJID "13135550002" DefaultUserServer.
Definition NewMetaAIJID : JID := NewJID "867051314767696" BotServer.

Definition ActualAgent (jid : JID) : Z :=
  if String.eqb (Server jid) DefaultUserServer then WhatsAppDomain
  else if String.eqb (Server jid) HiddenUserServer then LIDDomain
  else if String.eqb (Server jid) HostedServer then HostedDomain
  else if String.eqb (Server jid) HostedLIDServer then HostedLIDDomain
  else RawAgent jid.

(** [strconv.ParseUint(s, 10, 64)] without its error: 0 on a syntax error,
    the maximum when the range is left before one is met. *)
Definition max_uint64 : Z := 2 ^ 64 - 1.
Fixpoint parse_uint64 (s : string) (n : Z) : Z :=
  match s with
  | EmptyString => n
  | String c s =>
      match digit_val c with
      | None => 0
      | Some d => let n := 10 * n + d in if n >? max_uint64 then max_uint64 else parse_uint64 s n
      end
  end.
Definition UserInt (jid : JID) : Z := parse_uint64 (User jid) 0.

Definition ToNonAD (jid : JID) : JID := mkJID (User jid) 0 0 (Integrator jid) (Server jid).

Definition SignalAddressUser (jid : JID) : string :=
  let agent := ActualAgent jid in
  if agent =? 0 then User jid else User jid +:+ "_" +:+ fmt_d agent.

(** The name and the device id of the Signal address. *)
Definition SignalAddress (jid : JID) : string * Z := (SignalAddressUser jid, Device jid).

Definition IsBroadcastList (jid : JID) : bool :=
  String.eqb (Server jid) BroadcastServer && negb (String.eqb (User jid) (User StatusBroadcastJID)).

(** The regular expression [^1313555\d{4}$|^131655500\d{2}$]. *)
Fixpoint all_digits (s : string) : bool :=
  match s with
  | EmptyString => true
  | String c s => (if digit_val c then true else false) && all_digits s
  end.
Definition digits_after (prefix : string) (n : nat) (s : string) : bool :=
  has_prefix s prefix &&
  let rest := drop_str (String.length prefix) s in
  (String.length rest =? n)%nat && all_digits rest.
Definition botUserRegex (s : string) : bool :=
  digits_after "1313555" 4 s || digits_after "131655500" 2 s.

Definition IsBot (jid : JID) : bool :=
  (String.eqb (Server jid) DefaultUserServer && botUserRegex (User jid) && (Device jid =? 0))
  || String.eqb (Server jid) BotServer.

(** [agent] and [device] are [uint8]s. *)
Definition NewADJID (user : string) (agent device : Z) : JID :=
  let '(server, agent) :=
    if agent =? LIDDomain then (HiddenUserServer, 0)
    else if agent =? HostedDomain then (HostedServer, 0)
    else if agent =? HostedLIDDomain then (HostedLIDServer, 0)
    else if agent =? WhatsAppDomain then (DefaultUserServer, agent)
    else ("", agent) in
  mkJID user agent device 0 server.

(** ** Parsing and printing *)

Inductive jid_error : Type :=
| ErrDots
| ErrColons
| ErrDevice (text : string)          (** the text that [Atoi] refused *)
| ErrScanType.

(** The [User] part with a dot: [user.agent] or [user.agent:device]. *)
Definition parseAgentDevice (j : JID) : JID * option jid_error :=
  match split_byte (User j) "." with
  | [user; ad] =>
      let j := j <| User := user |> in
      match split_byte ad ":" with
      | [a] =>
          match Atoi a with
          | None => (j, Some (ErrDevice a))
          | Some agent => (j <| RawAgent := uint8 agent |>, None)
          end
      | [a; d] =>
          match Atoi a with
          | None => (j, Some (ErrDevice a))
          | Some agent =>
              let j := j <| RawAgent := uint8 agent |> in
              match Atoi d with
              | None => (j, Some (ErrDevice d))
              | Some device => (j <| Device := uint16 device |>, None)
              end
          end
      | _ => (j, Some ErrColons)
      end
  | _ => (j, Some ErrDots)
  end.

(** The [User] part with a colon and no dot: [user:device]. *)
Definition parseDevice (j : JID) : JID * option jid_error :=
  match split_byte (User j) ":" with
  | [user; d] =>
      let j := j <| User := user |> in
      match Atoi d with
      | None => (j, Some (ErrDevice d))
      | Some device => (j <| Device := uint16 device |>, None)
      end
  | _ => (j, Some ErrColons)
  end.

Definition ParseJID (jid : string) : JID * option jid_error :=
  match split_byte jid "@" with
  | user :: server :: _ =>
      let parsedJID := mkJID user 0 0 0 server in
      if negb (no_byte "." (User parsedJID)) then parseAgentDevice parsedJID
      else if negb (no_byte ":" (User parsedJID)) then parseDevice parsedJID
      else (parsedJID, None)
  | [server] => (NewJID "" server, None)
  | [] => (EmptyJID, None) (* not reached: [split_byte_nonempty] *)
  end.

Definition ADString (jid : JID) : string :=
  User jid +:+ "." +:+ fmt_d (RawAgent jid) +:+ ":" +:+ fmt_d (Device jid) +:+ "@" +:+ Server jid.

Definition String_ (jid : JID) : string :=
  if RawAgent jid >? 0 then ADString jid
  else if Device jid >? 0 then User jid +:+ ":" +:+ fmt_d (Device jid) +:+ "@" +:+ Server jid
  else if len (User jid) >? 0 then User jid +:+ "@" +:+ Server jid
  else Server jid.

Definition MarshalText (jid : JID) : string := String_ jid.

(** The receiver is written only on success. *)
Definition UnmarshalText (val : string) (jid : JID) : JID * option jid_error :=
  match ParseJID val with
  | (out, None) => (out, None)
  | (_, Some e) => (jid, Some e)
  end.

Definition IsEmpty (jid : JID) : bool := len (Server jid) =? 0.

(** The values [Scan] can be given: nil, a string, bytes, any other type. *)
Inductive sql_value : Type :=
| SqlNil
| SqlString (s : string)
| SqlBytes (s : string)
| SqlOther.

Definition Scan (src : sql_value) (jid : JID) : JID * option jid_error :=
  match src with
  | SqlNil => (jid, None)
  | SqlString val | SqlBytes val =>
      match ParseJID val with
      | (out, None) => (out, None)
      | (_, Some e) => (jid, Some e)
      end
  | SqlOther => (jid, Some ErrScanType)
  end.

Definition Value (jid : JID) : sql_value :=
  if len (Server jid) =? 0 then SqlNil else SqlString (String_ jid).

Example ParseJID_ad : ParseJID "123.4:56@s.whatsapp.net" = (mkJID "123" 4 56 0 DefaultUserServer, None).
Proof. reflexivity. Qed.
Example ParseJID_dev : ParseJID "123:7@lid" = (mkJID "123" 0 7 0 "lid", None).
Proof. reflexivity. Qed.
Example ParseJID_server : ParseJID "g.us" = (NewJID "" "g.us", None).
Proof. reflexivity. Qed.
Example ParseJID_err : (ParseJID "1.2.3@g.us").2 = Some ErrDots.
Proof. reflexivity. Qed.

(** * Properties *)

(** The JIDs that a string can carry: no integrator, numbers of the width of
    their fields, and no separator inside the user and server. *)
Definition printable (j : JID) : bool :=
  no_byte "@" (User j) && no_byte "." (User j) && no_byte ":" (User j) && no_byte "@" (Server j) &&
  (0 <=? RawAgent j) && (RawAgent j <? 256) && (0 <=? Device j) && (Device j <? 65536) &&
  (Integrator j =? 0).

Lemma no_byte_fmt_d c n :
  0 <= n -> (forall d, 0 <= d <= 9 -> digit d <> c) -> no_byte c (fmt_d n) = true.
Proof.
  intros Hn Hc. unfold fmt_d. destruct (Z.ltb_spec n 0); [lia|]. by apply no_byte_dec_nonneg.
Qed.

Lemma digit_not_sep d : 0 <= d <= 9 -> digit d <> "@"%char /\ digit d <> "."%char /\ digit d <> ":"%char.
Proof.
  intros Hd.
  assert (d = 0 \/ d = 1 \/ d = 2 \/ d = 3 \/ d = 4 \/ d = 5 \/ d = 6 \/ d = 7 \/ d = 8 \/ d = 9)
    as H by lia.
  by repeat destruct H as [->|H]; subst.
Qed.

Lemma fmt_d_no_sep n c :
  0 <= n -> c ∈ ["@"%char; "."%char; ":"%char] -> no_byte c (fmt_d n) = true.
Proof.
  intros Hn Hc. apply no_byte_fmt_d; [done|]. intros d Hd He.
  destruct (digit_not_sep d Hd) as (H1 & H2 & H3). rewrite He in *.
  by rewrite !elem_of_cons, elem_of_nil in Hc; destruct Hc as [->|[->|[->|[]]]].
Qed.

Lemma split_at_server u s :
  no_byte "@" u = true -> no_byte "@" s = true -> split_byte (u +:+ String "@" s) "@" = [u; s].
Proof. intros Hu Hs. by rewrite split_byte_app, split_byte_none. Qed.

Lemma Atoi_field n : 0 <= n < 65536 -> Atoi (fmt_d n) = Some n.
Proof. intros Hn. apply Atoi_fmt_d. unfold max_int64. lia. Qed.

(** The three printed forms with a user, parsed. *)
Section Forms.
Context (u s : string) (a d : Z).
Hypothesis Hu : no_byte "@" u = true /\ no_byte "." u = true /\ no_byte ":" u = true.
Hypothesis Hs : no_byte "@" s = true.
Hypothesis Ha : 0 <= a < 256.
Hypothesis Hd : 0 <= d < 65536.

Lemma no_sep_fields c : c ∈ ["@"%char; "."%char; ":"%char] ->
  no_byte c (fmt_d a) = true /\ no_byte c (fmt_d d) = true.
Proof. intros Hc. split; apply fmt_d_no_sep; lia || done. Qed.

Lemma parse_ad_form :
  ParseJID ((u +:+ String "." (fmt_d a +:+ String ":" (fmt_d d))) +:+ String "@" s)
    = (mkJID u a d 0 s, None).
Proof.
  destruct (no_sep_fields "@") as [H1 H2]; [set_solver|].
  destruct (no_sep_fields ":") as [H3 H4]; [set_solver|]. destruct Hu as (Hu1 & Hu2 & Hu3).
  unfold ParseJID. rewrite split_at_server;
    [|rewrite no_byte_app; simpl; rewrite no_byte_app; simpl; by rewrite H1, H2, Hu1|done].
  cbn [User]. rewrite (no_byte_app "." u). simpl (no_byte "." (String _ _)).
  rewrite andb_false_r. cbn [negb]. unfold parseAgentDevice. cbn [User].
  rewrite split_byte_app, split_byte_none by
    (done || (rewrite no_byte_app; simpl;
       destruct (no_sep_fields "."%char) as [-> ->]; [set_solver|done])).
  rewrite split_byte_app, split_byte_none by done.
  rewrite !Atoi_field by lia. unfold uint8, uint16. by rewrite !Z.mod_small by lia.
Qed.

Lemma parse_dev_form :
  ParseJID ((u +:+ String ":" (fmt_d d)) +:+ String "@" s) = (mkJID u 0 d 0 s, None).
Proof.
  destruct (no_sep_fields "@") as [H1 H2]; [set_solver|].
  destruct (no_sep_fields ".") as [H5 H6]; [set_solver|].
  destruct (no_sep_fields ":") as [H3 H4]; [set_solver|]. destruct Hu as (Hu1 & Hu2 & Hu3).
  unfold ParseJID. rewrite split_at_server; [|rewrite no_byte_app; simpl; by rewrite H2, Hu1|done].
  cbn [User]. rewrite !(no_byte_app _ u). simpl (no_byte _ (String _ _)).
  rewrite Hu2, H6, Hu3. cbn [andb negb]. unfold parseDevice. cbn [User].
  rewrite split_byte_app, split_byte_none by done.
  rewrite Atoi_field by lia. unfold uint16. by rewrite Z.mod_small by lia.
Qed.

Lemma parse_plain_form : ParseJID (u +:+ String "@" s) = (mkJID u 0 0 0 s, None).
Proof.
  destruct Hu as (Hu1 & Hu2 & Hu3). unfold ParseJID. rewrite split_at_server by done.
  cbn [User]. by rewrite Hu2, Hu3.
Qed.
End Forms.

Lemma JID_print_parse j : printable j = true -> ParseJID (String_ j) = (j, None).
Proof.
  destruct j as [u a d i s]. unfold printable, String_, ADString.
  cbn [User RawAgent Device Integrator Server]. rewrite !andb_true_iff.
  intros ((((((((Hu1 & Hu2) & Hu3) & Hs) & Ha1) & Ha2) & Hd1) & Hd2) & Hi).
  bool_to_prop. subst i. destruct (Z.gtb_spec a 0).
  - change ("." +:+ fmt_d a +:+ ":" +:+ fmt_d d +:+ "@" +:+ s)
      with (String "." (fmt_d a +:+ String ":" (fmt_d d +:+ String "@" s))).
    rewrite <- (parse_ad_form u s a d) by (done || lia).
    rewrite !append_assoc. simpl. by rewrite !append_assoc.
  - replace a with 0 by lia. destruct (Z.gtb_spec d 0).
    + rewrite <- (parse_dev_form u s a d) by (done || lia). by rewrite !append_assoc.
    + replace d with 0 by lia. destruct u as [|c u].
      * simpl. unfold ParseJID. by rewrite split_byte_none.
      * by rewrite <- (parse_plain_form (String c u) s) by done.
Qed.

(** C39. [ParseJID] reads back what [String] prints, for every printable JID. *)
Theorem JID_roundtrip j : printable j = true -> ParseJID (String_ j) = (j, None).
Proof. apply JID_print_parse. Qed.

Lemma JID_roundtrip_witness :
  ParseJID (String_ (mkJID "491234" 1 17 0 "s.whatsapp.net")) =
    (mkJID "491234" 1 17 0 "s.whatsapp.net", None).
Proof. apply JID_roundtrip. reflexivity. Defined.

Lemma uint8_range z : 0 <= uint8 z < 256.
Proof. apply Z.mod_pos_bound. lia. Qed.
Lemma uint16_range z : 0 <= uint16 z < 65536.
Proof. apply Z.mod_pos_bound. lia. Qed.

Lemma split_head s c p ps : split_byte s c = p :: ps -> no_byte c p = true.
Proof. intros H. pose proof (split_byte_parts s c) as Hp. rewrite H in Hp. by inversion Hp. Qed.

Lemma split_head_other s c c' p ps :
  split_byte s c = p :: ps -> no_byte c' s = true -> no_byte c' p = true.
Proof.
  intros H Hs. pose proof (split_byte_other s c c' Hs) as Hp. rewrite H in Hp. by inversion Hp.
Qed.

Lemma printable_intro u a d s :
  no_byte "@" u = true -> no_byte "." u = true -> no_byte ":" u = true -> no_byte "@" s = true ->
  0 <= a < 256 -> 0 <= d < 65536 -> printable (mkJID u a d 0 s) = true.
Proof.
  intros Hu1 Hu2 Hu3 Hs Ha Hd. unfold printable. cbn [User RawAgent Device Integrator Server].
  rewrite Hu1, Hu2, Hu3, Hs. simpl.
  rewrite !(proj2 (Z.leb_le 0 _)), !(proj2 (Z.ltb_lt _ _)) by lia. done.
Qed.

(** What [ParseJID] accepts is printable, but for a colon that a dotted form
    can leave in the user. *)
Lemma ParseJID_printable s j :
  ParseJID s = (j, None) -> no_byte ":" (User j) = true -> printable j = true.
Proof.
  unfold ParseJID. pose proof (split_byte_parts s "@") as Hp.
  destruct (split_byte s "@") as [|user [|server rest]] eqn:Hsplit.
  { intros [= <-] _. done. }
  { intros [= <-] Hc. apply printable_intro; try done. by inversion Hp. }
  assert (no_byte "@" user = true /\ no_byte "@" server = true) as [Hu Hs].
  { inversion Hp as [|?? H1 H2]; subst. by inversion H2. }
  cbn [User]. destruct (no_byte "." user) eqn:Hdot; cbn [negb].
  - destruct (no_byte ":" user) eqn:Hcol; cbn [negb].
    { intros [= <-] _. by apply printable_intro. }
    unfold parseDevice. cbn [User]. destruct (split_byte user ":") as [|u [|d [|]]] eqn:Hsp; try done.
    destruct (Atoi d); [|done]. intros [= <-] Hc. cbn [User upd] in Hc.
    apply printable_intro; try done; try apply uint16_range;
      by eapply split_head_other.
  - unfold parseAgentDevice. cbn [User]. destruct (split_byte user ".") as [|u [|ad [|]]] eqn:Hsp; try done.
    assert (no_byte "@" u = true) by by eapply split_head_other.
    assert (no_byte "." u = true) by by eapply split_head.
    destruct (split_byte ad ":") as [|a [|d [|]]] eqn:Hsp2; try done;
      destruct (Atoi a); try done; [|destruct (Atoi d); try done];
      intros [= <-] Hc; cbn [User upd] in Hc;
      apply printable_intro; done || apply uint8_range || apply uint16_range.
Qed.

(** Printing a parsed JID and parsing it again gives the same JID, unless
    the parsed user holds a colon. *)
Theorem ParseJID_stable s j :
  ParseJID s = (j, None) -> no_byte ":" (User j) = true -> ParseJID (String_ j) = (j, None).
Proof. intros H Hc. by apply JID_print_parse, (ParseJID_printable s). Qed.

Lemma ParseJID_stable_witness :
  ParseJID (String_ (mkJID "12" 0 9 0 "lid")) = (mkJID "12" 0 9 0 "lid", None).
Proof. apply (ParseJID_stable "12.256:65545@lid@x"); reflexivity. Defined.

(** With a colon it can become the JID of another user and device. *)
Lemma ParseJID_unstable :
  ParseJID "12:7.0@lid" = (mkJID "12:7" 0 0 0 "lid", None) /\
  ParseJID (String_ (mkJID "12:7" 0 0 0 "lid")) = (mkJID "12" 0 7 0 "lid", None).
Proof. split; reflexivity. Qed.

(** [NewADJID] gives every domain type back as the actual agent, but only
    the four known ones get a server: for the other 252 the JID is empty. *)
Theorem NewADJID_domain user agent device :
  0 <= agent < 256 ->
  ActualAgent (NewADJID user agent device) = agent /\
  (IsEmpty (NewADJID user agent device) = true <->
   agent <> WhatsAppDomain /\ agent <> LIDDomain /\ agent <> HostedDomain /\ agent <> HostedLIDDomain).
Proof.
  intros Ha. unfold NewADJID, WhatsAppDomain, LIDDomain, HostedDomain, HostedLIDDomain.
  destruct (Z.eqb_spec agent 1) as [->|]; [split; [done|]; by split; [|intros (?&?&?&?)]|].
  destruct (Z.eqb_spec agent 128) as [->|]; [split; [done|]; by split; [|intros (?&?&?&?)]|].
  destruct (Z.eqb_spec agent 129) as [->|]; [split; [done|]; by split; [|intros (?&?&?&?)]|].
  destruct (Z.eqb_spec agent 0) as [->|]; [split; [done|]; by split; [|intros (?&?&?&?)]|].
  by split.
Qed.

Lemma NewADJID_domain_witness :
  ActualAgent (NewADJID "1" 5 0) = 5 /\ IsEmpty (NewADJID "1" 5 0) = true.
Proof.
  destruct (NewADJID_domain "1" 5 0) as [H1 H2]; [lia|]. split; [done|]. apply H2.
  unfold WhatsAppDomain, LIDDomain, HostedDomain, HostedLIDDomain. lia.
Defined.

(** A value stored in a database is read back as the same JID; an empty
    one is stored as NULL, which leaves the receiver as it was. *)
Theorem Scan_Value j j0 :
  printable j = true ->
  Scan (Value j) j0 = (if IsEmpty j then j0 else j, None).
Proof.
  intros Hp. unfold Value, IsEmpty. destruct (len (Server j) =? 0); [done|].
  unfold Scan. pose proof (JID_print_parse j Hp) as H. by rewrite H.
Qed.

Lemma Scan_Value_witness :
  Scan (Value (mkJID "5" 0 2 0 "lid")) EmptyJID = (mkJID "5" 0 2 0 "lid", None).
Proof. apply (Scan_Value (mkJID "5" 0 2 0 "lid")). reflexivity. Defined.

Lemma no_sep_not_app c a b : no_byte c (a +:+ String c b) = false.
Proof. rewrite no_byte_app. simpl. destruct (ascii_dec c c); [apply andb_false_r|done]. Qed.

Lemma fmt_d_inj n m : 0 <= n < 65536 -> 0 <= m < 65536 -> fmt_d n = fmt_d m -> n = m.
Proof. intros Hn Hm H. apply (f_equal Atoi) in H. rewrite !Atoi_field in H by done. congruence. Qed.

(** Two JIDs whose users hold no underscore share a Signal address exactly
    when they have the same user, the same actual agent and the same device:
    the domains never collide. *)
Theorem SignalAddress_injective j j' :
  no_byte "_" (User j) = true -> no_byte "_" (User j') = true ->
  0 <= ActualAgent j < 256 -> 0 <= ActualAgent j' < 256 ->
  SignalAddress j = SignalAddress j' <->
  User j = User j' /\ ActualAgent j = ActualAgent j' /\ Device j = Device j'.
Proof.
  intros Hu Hu' Ha Ha'. unfold SignalAddress, SignalAddressUser. split.
  - intros [= H1 H2]. destruct (Z.eqb_spec (ActualAgent j) 0), (Z.eqb_spec (ActualAgent j') 0).
    + split_and!; congruence.
    + change ("_" +:+ fmt_d (ActualAgent j')) with (String "_" (fmt_d (ActualAgent j'))) in H1.
      rewrite H1, no_sep_not_app in Hu. done.
    + change ("_" +:+ fmt_d (ActualAgent j)) with (String "_" (fmt_d (ActualAgent j))) in H1.
      rewrite <- H1, no_sep_not_app in Hu'. done.
    + apply append_inj_sep in H1 as [H1 H3]; [|done|done]. split_and!; try done.
      apply fmt_d_inj; lia || done.
  - intros (H1 & H2 & H3). by rewrite H1, H2, H3.
Qed.

Lemma SignalAddress_injective_witness :
  SignalAddress (NewJID "1" "lid") <> SignalAddress (NewJID "1" "s.whatsapp.net").
Proof.
  intros H. apply SignalAddress_injective in H as (_ & H & _); [done|reflexivity|reflexivity|..];
    vm_compute; split; done.
Defined.
