(* ===== verification/Events.v ===== *)
(** * [whatsmeow/types/events/events.go]: the events the middleware handles

    The reason codes with their texts, and the events themselves, with the
    fields that [wrapper.go] reads. *)
From S2P Require Import Prelude GoTime GoStrings Jid.

(** An integer code: any other value than the constants is possible. *)
Abbreviation TempBanReason := Z (only parsing).
Definition TempBanSentToTooManyPeople : TempBanReason := 101.
Definition TempBanBlockedByUsers : TempBanReason := 102.
Definition TempBanCreatedTooManyGroups : TempBanReason := 103.
Definition TempBanSentTooManySameMessage : TempBanReason := 104.
Definition TempBanBroadcastList : TempBanReason := 106.

Definition tempBanReasonMessage (tbr : TempBanReason) : option string :=
  if tbr =? TempBanSentToTooManyPeople then
    Some "you sent too many messages to people who don't have you in their address books"
  else if tbr =? TempBanBlockedByUsers then Some "too many people blocked you"
  else if tbr =? TempBanCreatedTooManyGroups then
    Some "you created too many groups with people who don't have you in their address books"
  else if tbr =? TempBanSentTooManySameMessage then
    Some "you sent the same message to too many people"
  else if tbr =? TempBanBroadcastList then Some "you sent too many messages to a broadcast list"
  else None.

Definition TempBanReason_String (tbr : TempBanReason) : string :=
  let msg := default "you may have violated the terms of service (unknown error)"
               (tempBanReasonMessage tbr) in
  fmt_d tbr +:+ ": " +:+ msg.

Definition TemporaryBan_String (Code : TempBanReason) (Expire : Duration) : string :=
  if Expire =? 0 then "You've been temporarily banned: " +:+ TempBanReason_String Code
  else "You've been temporarily banned: " +:+ TempBanReason_String Code +:+
         ". The ban expires in " +:+ dur_string Expire.

Abbreviation ConnectFailureReason := Z (only parsing).
Definition ConnectFailureGeneric : ConnectFailureReason := 400.
Definition ConnectFailureLoggedOut : ConnectFailureReason := 401.
Definition ConnectFailureTempBanned : ConnectFailureReason := 402.
Definition ConnectFailureMainDeviceGone : ConnectFailureReason := 403.
Definition ConnectFailureUnknownLogout : ConnectFailureReason := 406.
Definition ConnectFailureClientOutdated : ConnectFailureReason := 405.
Definition ConnectFailureBadUserAgent : ConnectFailureReason := 409.
Definition ConnectFailureCATExpired : ConnectFailureReason := 413.
Definition ConnectFailureCATInvalid : ConnectFailureReason := 414.

Definition connectFailureReasonMessage (cfr : ConnectFailureReason) : option string :=
  if cfr =? ConnectFailureLoggedOut then Some "logged out from another device"
  else if cfr =? ConnectFailureTempBanned then Some "account temporarily banned"
  else if cfr =? ConnectFailureMainDeviceGone then Some "primary device was logged out"
  else if cfr =? ConnectFailureUnknownLogout then Some "logged out for unknown reason"
  else if cfr =? ConnectFailureClientOutdated then Some "client is out of date"
  else if cfr =? ConnectFailureBadUserAgent then Some "client user agent was rejected"
  else if cfr =? ConnectFailureCATExpired then Some "messenger crypto auth token has expired"
  else if cfr =? ConnectFailureCATInvalid then Some "messenger crypto auth token is invalid"
  else None.

Definition IsLoggedOut (cfr : ConnectFailureReason) : bool :=
  (cfr =? ConnectFailureLoggedOut) || (cfr =? ConnectFailureMainDeviceGone)
  || (cfr =? ConnectFailureUnknownLogout).

Definition NumberString (cfr : ConnectFailureReason) : string := fmt_d cfr.

Definition ConnectFailureReason_String (cfr : ConnectFailureReason) : string :=
  fmt_d cfr +:+ ": " +:+ default "unknown error" (connectFailureReasonMessage cfr).

(** The dynamic type of the argument of an event handler. *)
Inductive event : Type :=
| Disconnected
| Connected
| StreamError (Code : string)
| LoggedOut (OnConnect : bool) (Reason : ConnectFailureReason)
| TemporaryBan (Code : TempBanReason) (Expire : Duration)
| Message (IsFromMe : bool) (Sender Chat : JID)
| Receipt (Type_ : string)
| IdentityChange (jid : JID)
| ConnectFailure (Reason : ConnectFailureReason)
| OfflineSyncCompleted (Count : Z)
| OtherEvent.

Definition ReceiptTypeDelivered : string := "".
Definition ReceiptTypeRead : string := "read".
