(* ===== verification/Wrapper.v ===== *)
(** * [wrapper.go]

    [AntiBanClient]: the send queue, the loop that takes messages from it, and
    the event handler that feeds the orchestrator.  [processSend] is not
    atomic: between its calls of the orchestrator it sleeps, waits and uses the
    network, while event handlers and timers run.  What they do to the
    orchestrator meanwhile is an argument, an arbitrary function each time; so
    are the clock, the random draws, and the answer of the wrapped client. *)
From S2P Require Import Prelude GoTime GoFloat GoStrings Config.
From S2P Require Import RateLimiter WarmUp Health ContactGraph LidResolver ContentVariator.
From S2P Require Import BanRecovery TimelockGuard Persist AntiBan Runs Jid Events.

(** The parts of a [waE2E.Message] the code reads and writes. *)
Record E2EMessage : Type := mkMessage { Conversation : option string; ExtendedText : option string }.
#[export] Instance eta_E2EMessage : Eta E2EMessage := fun m =>
  mkMessage (Conversation m) (ExtendedText m).
Definition GetConversation (m : E2EMessage) : string := default "" (Conversation m).
Definition GetExtendedText (m : E2EMessage) : string := default "" (ExtendedText m).

Record pendingMessage : Type := mkPending { pm_to : JID; pm_message : option E2EMessage }.
#[export] Instance eta_pendingMessage : Eta pendingMessage := fun p =>
  mkPending (pm_to p) (pm_message p).

(** [sendQueue] is [None] for the nil channel of a client that was never
    started; [resumes] are the timers that [time.AfterFunc] started. *)
Record AntiBanClient : Type := mkClient {
  ab : AntiBan;
  abc_Config : Config;
  sendQueue : option (list pendingMessage);
  started : bool;
  resumes : list Time
}.
#[export] Instance eta_AntiBanClient : Eta AntiBanClient := fun c =>
  mkClient (ab c) (abc_Config c) (sendQueue c) (started c) (resumes c).

Definition WrapClient (clk : Clock) (u : float64) (preset : Preset) (opts : list Config)
  : AntiBanClient :=
  let cfg := match opts with [] => DefaultConfig preset | o :: _ => ResolveConfig preset [o] end in
  mkClient (New clk u preset [cfg]) cfg None false [].

Definition Start (abc : AntiBanClient) : AntiBanClient :=
  if started abc then abc
  else
    let abc := abc <| sendQueue := Some [] |> <| started := true |> in
    let a := ab abc in
    let state := GetPersistedState (ab_StateManager a) in
    let a := if decide (KnownChats state = ∅) then a
             else a <| ab_RateLimiter := RestoreKnownChats (KnownChats state) (ab_RateLimiter a) |> in
    let a := a <| ab_StateManager := StartAutoSave (ab_StateManager a) |> in
    abc <| ab := a |>.

(** A type assertion with a discarded [ok]: the zero value on a mismatch. *)
Definition as_int (v : option Any) : Z := match v with Some (AInt z) => z | _ => 0 end.
Definition as_float (v : option Any) : float64 := match v with Some (AFloat f) => f | _ => fzero end.
Definition as_time (v : option Any) : Time := match v with Some (ATime t) => t | _ => zeroTime end.

Definition saveState (clk : Clock) (a : AntiBan) : AntiBan :=
  let warmupState := ExportState (ab_WarmUp a) in
  let day := as_int (warmupState !! "day") in
  let dc := as_int (warmupState !! "daily_count") in
  let gf := as_float (warmupState !! "growth_factor") in
  let sa := as_time (warmupState !! "started_at") in
  let a := a <| ab_StateManager := SaveWarmupState (clk 0%nat) day dc gf sa (ab_StateManager a) |> in
  a <| ab_StateManager := SaveKnownChats (clk 1%nat) (GetKnownChats (ab_RateLimiter a))
                            (ab_StateManager a) |>.

(** [cap(sendQueue)] *)
Definition queueCap : nat := 1000.

(** The first half of [SendMessage], when it does not block: [None] is a block
    until the context is done. *)
Definition enqueue (pm : pendingMessage) (abc : AntiBanClient) : option AntiBanClient :=
  match sendQueue abc with
  | None => None
  | Some q => if (length q <? queueCap)%nat then Some (abc <| sendQueue := Some (q ++ [pm]) |>) else None
  end.

(** What the send loop takes next. *)
Definition dequeue (abc : AntiBanClient) : option (pendingMessage * AntiBanClient) :=
  match sendQueue abc with
  | Some (pm :: q) => Some (pm, abc <| sendQueue := Some q |>)
  | _ => None
  end.

Section Client.
Context (MarshalIndent : PersistedState -> string + string).

Definition Stop (f : fs_fate) (fs : FS) (clk : Clock) (abc : AntiBanClient)
  : outcome (AntiBanClient * FS) :=
  if negb (started abc) then Ret (abc, fs)
  else
    let abc := abc <| started := false |> in
    '(sm, fs) ← Persist.Stop MarshalIndent f fs (ab_StateManager (ab abc));
    let a := (ab abc) <| ab_StateManager := sm |> in
    Ret (abc <| ab := saveState clk a |>, fs).
End Client.

(** ** One send *)

Inductive send_error : Type :=
| BlockedAfterRetry
| Blocked
| ContextDone
| SendFailed (err : string).

Section Send.
Context (log cos : float64 -> float64) (sha256_8_hex : string -> string) (loc : Location).
(** The response of the wrapped client. *)
Context {Resp : Type}.

(** The environment of one [processSend]. *)
Record env : Type := mkEnv {
  clk1 : Clock; draws1 : draws;
  during_sleep : AntiBan -> AntiBan;       (** other goroutines, during [time.Sleep] *)
  clk2 : Clock; draws2 : draws;
  during_delay : AntiBan -> AntiBan;       (** and during the delay *)
  done_in_delay : bool;                    (** the context is done first *)
  during_send : AntiBan -> AntiBan;        (** and during the network call *)
  answer : string + Resp;
  clk3 : Clock
}.

(** The answer given to the caller, and what the wrapped client was asked to
    send. *)
Record sent : Type := mkSent {
  result : send_error + Resp;
  network : option (JID * option E2EMessage)
}.

Definition contentBytes (message : option E2EMessage) : option string :=
  match message with
  | None => None
  | Some m =>
      if negb (String.eqb (GetConversation m) "") then Some (GetConversation m)
      else if negb (String.eqb (GetExtendedText m) "") then Some (GetExtendedText m)
      else None
  end.

(** The recipient after canonicalization, with its chat id. *)
Definition canonicalTarget (a : AntiBan) (to : JID) : JID * string :=
  let chatID := String_ to in
  if negb (IsBot to) && negb (IsGroup chatID) then
    let canonJID := CanonicalizeTarget chatID (Some (ab_LidResolver a)) in
    if negb (String.eqb canonJID chatID) then
      match ParseJID canonJID with
      | (parsed, None) => (parsed, canonJID)
      | (_, Some _) => (to, chatID)
      end
    else (to, chatID)
  else (to, chatID).

Definition shouldVary (c : Config) : bool :=
  EnableTypoInjection c || EnableZeroWidth c || EnableEmojiPadding c || EnablePunctuationVary c.

(** [Vary] runs with the configuration of the orchestrator, [shouldVary] with
    that of the client. *)
Definition varyMessage (c : Config) (a : AntiBan) (message : option E2EMessage)
  : Rand (option E2EMessage) :=
  match message with
  | Some m =>
      if shouldVary c && negb (String.eqb (GetConversation m) "") then
        let original := GetConversation m in
        varied ← Vary (shared a) original;
        mret (if negb (String.eqb varied original) then Some (m <| Conversation := Some varied |>)
              else Some m)
      else mret message
  | None => mret None
  end.

(** From the delay on. *)
Definition deliver (e : env) (r : Rng) (c : Config) (to : JID) (chatID : string)
    (message : option E2EMessage) (delay : Duration) (a : AntiBan) : outcome (sent * AntiBan) :=
  let a := if delay >? 0 then during_delay e a else a in
  if (delay >? 0) && done_in_delay e then Ret (mkSent (inl ContextDone) None, a)
  else
    '(message, _) ← varyMessage c a message r;
    let a := during_send e a in
    match answer e with
    | inl err => Ret (mkSent (inl (SendFailed err)) (Some (to, message)),
                      AfterSendFailed (clk3 e) chatID (Some err) a)
    | inr resp => Ret (mkSent (inr resp) (Some (to, message)),
                       AfterSend loc (clk3 e) chatID true a)
    end.

Definition processSend (e : env) (r : Rng) (c : Config) (pm : pendingMessage) (a : AntiBan)
  : outcome (sent * AntiBan) :=
  let content := contentBytes (pm_message pm) in
  let '(to, chatID) := canonicalTarget a (pm_to pm) in
  '(delay, allowed, a) ← BeforeSend log cos sha256_8_hex loc (clk1 e) (draws1 e) chatID content a;
  if negb allowed then
    if delay >? 0 then
      let a := during_sleep e a in
      '(delay, allowed, a) ← BeforeSend log cos sha256_8_hex loc (clk2 e) (draws2 e) chatID content a;
      if negb allowed then Ret (mkSent (inl BlockedAfterRetry) None, a)
      else deliver e r c to chatID (pm_message pm) delay a
    else Ret (mkSent (inl Blocked) None, a)
  else deliver e r c to chatID (pm_message pm) delay a.
End Send.

(** ** Events *)

(** The [i]-th block of ten clock readings. *)
Definition block (i : nat) (clk : Clock) : Clock := fun n => clk (10 * i + n)%nat.

Definition onContact (f : ContactGraphWarmer -> ContactGraphWarmer) (a : AntiBan) : AntiBan :=
  a <| ab_ContactGraph := f (ab_ContactGraph a) |>.

Definition handleMessage (clk : Clock) (Sender Chat : JID) (a : AntiBan) : AntiBan :=
  let sender := String_ Sender in
  let sender := if String.eqb sender "" then String_ Chat else sender in
  let a := AntiBan.OnIncomingMessage clk sender a in
  let a :=
    if String.eqb (Server Chat) DefaultUserServer || String.eqb (Server Chat) HiddenUserServer then
      if negb (String.eqb (String_ Sender) "") then
        let senderStr := String_ Sender in
        if negb (str_contains senderStr "@lid") then
          let chatStr := String_ Chat in
          if str_contains chatStr "@lid" || str_contains chatStr "@s.whatsapp.net"
          then onContact (RegisterKnownContact (block 1 clk 0%nat) senderStr) a else a
        else a
      else a
    else a in
  onContact (RegisterKnownContact (block 2 clk 0%nat) (String_ (ToNonAD Sender))) a.

(** The text made of a [TemporaryBan] event. *)
Definition temp_ban_text (Code : Z) (Expire : Duration) : string :=
  "temporary ban: " +:+ TempBanReason_String Code +:+ " (expires in " +:+ dur_string Expire +:+ ")".

Definition handleEvent (clk : Clock) (evt : event) (abc : AntiBanClient) : AntiBanClient :=
  let a := ab abc in
  match evt with
  | Disconnected => abc <| ab := saveState (block 1 clk) (OnDisconnect clk a) |>
  | Connected => abc <| ab := OnReconnect clk a |>
  | StreamError Code =>
      let a := OnStreamError clk (Some ("stream error: code=" +:+ Code)) a in
      abc <| ab := if String.eqb Code "515" then OnDisconnect (block 1 clk) a else a |>
  | LoggedOut _ Reason =>
      let a := OnStreamError clk (Some ("logged out: " +:+ ConnectFailureReason_String Reason)) a in
      abc <| ab := health (RecordLoggedOut (shared a) (block 1 clk 0%nat) (ab_Health a)) a |>
  | TemporaryBan Code Expire =>
      let err := temp_ban_text Code Expire in
      let a := Pause (OnStreamError clk (Some err) a) in
      abc <| ab := a |> <| resumes := resumes abc ++ [Add (block 1 clk 0%nat) Expire] |>
  | Message IsFromMe Sender Chat =>
      if IsFromMe then abc else abc <| ab := handleMessage clk Sender Chat a |>
  | Receipt t =>
      if String.eqb t ReceiptTypeDelivered || String.eqb t ReceiptTypeRead
      then abc <| ab := OnDeliveryReceipt clk a |> else abc
  | ConnectFailure Reason =>
      abc <| ab := OnStreamError clk
               (Some ("connect failure: " +:+ ConnectFailureReason_String Reason)) a |>
  | IdentityChange _ | OfflineSyncCompleted _ | OtherEvent => abc
  end.

(** A timer that is due fires: it resumes the orchestrator. *)
Inductive timer_step (now : Time) : relation AntiBanClient :=
| timer_fires l1 t l2 abc :
    resumes abc = l1 ++ t :: l2 -> t <= now ->
    timer_step now abc (abc <| resumes := l1 ++ l2 |> <| ab := Resume (ab abc) |>).

Definition GetStats (loc : Location) (clk : Clock) (order : list (Z * Z)) (abc : AntiBanClient)
  : gmap string Any * AntiBanClient :=
  let '(m, a) := AntiBan.GetStats loc clk order (ab abc) in (m, abc <| ab := a |>).

(** * Properties *)

(** ** The state is saved too late *)

Lemma Persist_Stop_manager M f fs sm sm' fs' :
  Persist.Stop M f fs sm = Ret (sm', fs') -> path sm' = path sm /\ stopClosed sm' = true.
Proof.
  unfold Persist.Stop. destruct (stopClosed sm); [done|].
  destruct (Flush M f fs (sm <| stopClosed := true |>)) as [[[err sm1] fs1] bt] eqn:Hf.
  intros [= <- <-]. unfold Flush in Hf. repeat case_match; simplify_eq; done.
Qed.

(** [Stop] flushes the state manager and only then exports the state to it:
    whatever was exported stays in memory, marked unsaved, and what the file
    holds is decided by the state of before. *)
Theorem Stop_saves_too_late M f fs clk abc abc' fs' :
  started abc = true -> Stop M f fs clk abc = Ret (abc', fs') ->
  dirty (ab_StateManager (ab abc')) = true /\
  KnownChats (state (ab_StateManager (ab abc'))) = GetKnownChats (ab_RateLimiter (ab abc)) /\
  (forall a2, ab_StateManager a2 = ab_StateManager (ab abc) ->
     exists abc2, Stop M f fs clk (abc <| ab := a2 |>) = Ret (abc2, fs')) /\
  forall f2 fs2 clk2, panics (Stop M f2 fs2 clk2 (Start abc')).
Proof.
  intros Hs. unfold Stop. rewrite Hs. cbn [negb ab upd].
  destruct (Persist.Stop M f fs (ab_StateManager (ab abc))) as [[sm fs1]|] eqn:Hp; [|done].
  intros [= <- <-]. cbn [ab upd ab_StateManager saveState].
  destruct (Persist_Stop_manager _ _ _ _ _ _ Hp) as [Hpath Hclosed].
  split; [done|]. split; [done|]. split.
  - intros a2 Ha2. cbn [started ab upd]. rewrite Hs. cbn [negb]. rewrite Ha2, Hp. by eexists.
  - intros f2 fs2 clk2. unfold Start. cbn [started upd ab]. 
    match goal with |- context [decide ?P] => destruct (decide P) end; cbn;
      unfold Persist.Stop; cbn; rewrite Hclosed; by eexists.
Qed.

(** A client that was told to save a chat, stopped: the file is written without
    it. *)
Definition demo_client : AntiBanClient :=
  let abc := Start (WrapClient (fun _ => 12 * Hour) fzero PresetModerate []) in
  abc <| ab := AfterSend 0 (fun _ => 12 * Hour) "a@s.whatsapp.net" true (ab abc) |>.

Lemma Stop_saves_too_late_witness :
  match Stop (fun _ => inr "x") smooth ∅ (fun _ => 13 * Hour) demo_client with
  | Ret (abc', _) => dirty (ab_StateManager (ab abc')) = true
  | Panic _ => False
  end.
Proof.
  destruct (Stop _ _ _ _ demo_client) as [[abc' fs']|msg] eqn:E.
  - apply Stop_saves_too_late in E as [E _]; [exact E|reflexivity].
  - discriminate E.
Defined.

(** ** What a send does *)

Section SendProps.
Context (log cos : float64 -> float64) (sha256_8_hex : string -> string) (loc : Location).
Context {Resp : Type}.
Notation step := (ab_step log cos sha256_8_hex loc).
Notation before := (BeforeSend log cos sha256_8_hex loc).

(** The other goroutines only call hooks and run callbacks. *)
Definition hooks_only (e : @env Resp) : Prop :=
  forall x, rtc step x (during_sleep e x) /\ rtc step x (during_delay e x) /\
            rtc step x (during_send e x).

Lemma varyMessage_off c a m r :
  variations_off (shared a) -> varyMessage c a m r = Ret (m, r).
Proof.
  intros Ho. unfold varyMessage. destruct m as [m|]; [|done].
  destruct (shouldVary c && negb (String.eqb (GetConversation m) "")); [|done].
  unfold mbind, Rand_bind. rewrite Vary_off by done. by rewrite String.eqb_refl.
Qed.

(** The answer of the wrapped client, as the caller gets it. *)
Definition answered (e : @env Resp) : send_error + Resp :=
  match answer e with inl err => inl (SendFailed err) | inr resp => inr resp end.
(** The network gets what [deliver] was given, unless the context ends in the
    delay. *)
Lemma deliver_network e r c to chatID m delay a s a' :
  hooks_only e -> variations_off (shared a) ->
  deliver loc e r c to chatID m delay a = Ret (s, a') ->
  s = if (delay >? 0) && done_in_delay e then mkSent (inl ContextDone) None else mkSent (answered e) (Some (to, m)).
Proof.
  intros He Ho. unfold deliver, answered. set (a1 := if delay >? 0 then during_delay e a else a).
  assert (variations_off (shared a1)) as Ho1.
  { subst a1. destruct (delay >? 0); [|done].
    by apply (run_variations_off log cos sha256_8_hex loc a); [apply He|]. }
  destruct ((delay >? 0) && done_in_delay e); [by intros [= <- _]|].
  rewrite varyMessage_off by done. cbn. by destruct (answer e); intros [= <- _].
Qed.

Lemma canonicalTarget_id a to :
  ab_LidResolver a = NewLidResolver 1000 -> canonicalTarget a to = (to, String_ to).
Proof.
  intros Hr. unfold canonicalTarget. rewrite Hr, empty_resolver_identity, String.eqb_refl. cbn.
  by destruct (negb (IsBot to) && negb (IsGroup (String_ to))).
Qed.

(** A check of this message, by the orchestrator in the given state. *)
Definition check (pm : pendingMessage) (clk : Clock) (d : draws) (a : AntiBan) : outcome (Duration * bool * AntiBan) :=
  before clk d (String_ (pm_to pm)) (contentBytes (pm_message pm)) a.
(** The checks that this send made let it pass, with this delay: the first, or the
    first refused with a wait and the second, made after the sleep on the state of
    that moment, did not. *)
Definition passes (e : @env Resp) (pm : pendingMessage) (a : AntiBan) (delay : Duration) : Prop :=
  (exists x, check pm (clk1 e) (draws1 e) a = Ret (delay, true, x)) \/
  (exists wait y x, check pm (clk1 e) (draws1 e) a = Ret (wait, false, y) /\ 0 < wait /\
     check pm (clk2 e) (draws2 e) (during_sleep e y) = Ret (delay, true, x)).

(** C7. A message reaches the network exactly when this very send's own checks let
    it pass - the first one, or, when that refused with a wait, the second one,
    made with the clock and the state that there are after the sleep - and its
    context did not end in the delay that the check asked for.  What is sent is
    then the caller's own message, addressed as the caller addressed it: no
    content variation and no canonicalization ever takes place, whatever the
    options.  The caller gets the answer of the wrapped client when the message
    was sent, and an error when it was not. *)
Theorem send_allowed_and_unchanged clk u preset opts e r pm a s a' :
  rtc step (ab (WrapClient clk u preset opts)) a -> hooks_only e ->
  processSend log cos sha256_8_hex loc e r (abc_Config (WrapClient clk u preset opts)) pm a
    = Ret (s, a') ->
  (forall to m, network s = Some (to, m) <->
     to = pm_to pm /\ m = pm_message pm /\ exists delay, passes e pm a delay /\ (0 < delay -> done_in_delay e = false)) /\
  match network s with Some _ => result s = answered e | None => exists err, result s = inl err end.
Proof.
  intros Ha He. unfold processSend.
  assert (Hoff : forall x, rtc step (ab (WrapClient clk u preset opts)) x -> variations_off (shared x)).
  { intros x Hx. eapply run_variations_off; [exact Hx|]. apply NewConfig_flags. }
  rewrite canonicalTarget_id by exact (run_resolver log cos sha256_8_hex loc _ _ _ _ _ Ha). unfold mbind, outcome_bind.
  assert (forall x d s0, rtc step (ab (WrapClient clk u preset opts)) x ->
    deliver loc e r (abc_Config (WrapClient clk u preset opts)) (pm_to pm) (String_ (pm_to pm)) (pm_message pm) d x = Ret (s0, a') ->
    (forall d', passes e pm a d' <-> d' = d) ->
    (forall to m, network s0 = Some (to, m) <->
      to = pm_to pm /\ m = pm_message pm /\ exists delay, passes e pm a delay /\ (0 < delay -> done_in_delay e = false)) /\
    match network s0 with Some _ => result s0 = answered e | None => exists err, result s0 = inl err end) as Hdel.
  { intros x d s0 Hx Hd Hp. apply deliver_network in Hd; [|done|by apply Hoff]. subst s0.
    destruct (Z.gtb_spec d 0), (done_in_delay e) eqn:Hdone; cbn; (split; [|by eauto]); intros to m; split; try done;
      [intros (_ & _ & d' & H1 & H2); apply Hp in H1; subst d'; specialize (H2 ltac:(lia)); congruence|..];
      [intros [= <- <-]|by intros (-> & -> & _)|intros [= <- <-]|by intros (-> & -> & _)|intros [= <- <-]|by intros (-> & -> & _)];
      (split; [done|]); (split; [done|]); exists d; (split; [by apply Hp|]); lia || done. }
  assert (forall err, (forall d, ~ passes e pm a d) -> forall s0 : sent, s0 = mkSent (inl err) None ->
    (forall to m, network s0 = Some (to, m) <->
      to = pm_to pm /\ m = pm_message pm /\ exists delay, passes e pm a delay /\ (0 < delay -> done_in_delay e = false)) /\
    match network s0 with Some _ => result s0 = answered e | None => exists err, result s0 = inl err end) as Hno.
  { intros err Hp s0 ->. split; [|by eexists]. intros to m. split; [done|]. intros (_ & _ & d & H & _). by destruct (Hp d). }
  unfold passes, check in *.
  destruct (before (clk1 e) _ _ _ a) as [[[delay allowed] a1]|] eqn:E1; [|done].
  assert (rtc step (ab (WrapClient clk u preset opts)) a1) as Ha1.
  { eapply rtc_r; [exact Ha|]. by eapply hook_BeforeSend. }
  destruct allowed; cbn [negb].
  - intros Hd. apply (Hdel a1 delay s Ha1 Hd). intros d'. split; [|intros ->; left; by eexists].
    intros [[x Hx]|(w & y & x & Hx & _)]; congruence.
  - destruct (Z.gtb_spec delay 0) as [Hw|Hw].
    2: { intros [= <- _]. apply (Hno Blocked); [|done]. intros d [[x Hx]|(w & y & x & Hx & Hw' & _)]; [congruence|].
         injection Hx as <- <-. lia. }
    destruct (before (clk2 e) _ _ _ _) as [[[delay2 allowed2] a2]|] eqn:E2; [|done].
    assert (rtc step (ab (WrapClient clk u preset opts)) a2) as Ha2.
    { eapply rtc_r; [|by eapply hook_BeforeSend]. etransitivity; [exact Ha1|]. apply He. }
    destruct allowed2; cbn [negb].
    + intros Hd. apply (Hdel a2 delay2 s Ha2 Hd). intros d'. split.
      * intros [[x Hx]|(w & y & x & Hx & _ & Hx2)]; congruence.
      * intros ->. right. exists delay, a1, a2. split; [done|]. split; [lia|done].
    + intros [= <- _]. apply (Hno BlockedAfterRetry); [|done]. intros d [[x Hx]|(w & y & x & Hx & _ & Hx2)]; congruence.
Qed.

(** A paused orchestrator answers at once that the send is blocked and
    stays as it is; a destroyed one as well. *)
Theorem processSend_blocked (e : @env Resp) r c pm a :
  isPaused a = true \/ destroyed a = true ->
  processSend log cos sha256_8_hex loc e r c pm a = Ret (mkSent (inl Blocked) None, a).
Proof.
  intros Hp. unfold processSend. destruct (canonicalTarget a (pm_to pm)) as [to chatID].
  assert (before (clk1 e) (draws1 e) chatID (contentBytes (pm_message pm)) a = Ret (0, false, a)) as ->;
    [|done].
  unfold BeforeSend. destruct Hp as [-> | ->]; [|done]. by destruct (destroyed a).
Qed.
End SendProps.

(** A client that asks for typos, and a text sent at noon. *)
Definition typo_options : Config := zeroConfig <| EnableTypoInjection := true |>.
Definition demo_env : @env unit :=
  mkEnv (fun _ => 12 * Hour) (mkDraws 0 fzero fzero) id (fun _ => 12 * Hour)
    (mkDraws 0 fzero fzero) id false id (inr tt) (fun _ => 12 * Hour).
Definition demo_pending : pendingMessage :=
  mkPending (NewJID "491234" DefaultUserServer) (Some (mkMessage (Some "hello world") None)).

Lemma send_allowed_and_unchanged_witness :
  let abc := WrapClient (fun _ => 12 * Hour) fzero PresetModerate [typo_options] in
  EnableTypoInjection (abc_Config abc) = true /\
  match processSend id id id 0 demo_env (mkRng [] []) (abc_Config abc) demo_pending (ab abc) with
  | Ret (s, _) => network s = Some (pm_to demo_pending, pm_message demo_pending) /\
      exists delay, passes id id id 0 demo_env demo_pending (ab abc) delay /\ (0 < delay -> done_in_delay demo_env = false)
  | Panic _ => False
  end.
Proof.
  cbv zeta. split; [reflexivity|].
  destruct (processSend _ _ _ _ _ _ _ _ _) as [[s a']|msg] eqn:E; [|vm_compute in E; discriminate].
  assert (network s = Some (pm_to demo_pending, pm_message demo_pending)) as Hn.
  { change s with (match Ret (s, a') with Ret x => x.1 | Panic _ => s end). rewrite <- E.
    vm_compute. reflexivity. }
  split; [exact Hn|].
  refine (proj2 (proj2 (proj1 (proj1 (send_allowed_and_unchanged id id id 0 (fun _ => 12 * Hour) fzero
    PresetModerate [typo_options] demo_env (mkRng [] []) demo_pending _ s a' (rtc_refl _ _) _ E) _ _) Hn))).
  intros x. split_and!; apply rtc_refl.
Defined.

Lemma processSend_blocked_witness :
  exists a, isPaused a = true /\
    processSend id id id 0 demo_env (mkRng [] []) zeroConfig demo_pending a
      = Ret (mkSent (inl Blocked) None, a).
Proof.
  exists (Pause (New (fun _ => 0) fzero PresetModerate [])). split; [reflexivity|].
  apply processSend_blocked. left. reflexivity.
Defined.

(** ** Events *)

(** A temporary ban is not classified as the hard ban that the classifier
    means it to be: for each of the five known reasons and any whole number of
    hours up to two days, the text made of the event matches none of the
    markers, so the health monitor counts a forbidden error and the recovery
    records a soft ban. *)
Theorem temporary_ban_is_soft Code h :
  Code ∈ [101; 102; 103; 104; 106] -> 1 <= h <= 48 ->
  ClassifyError (Some (temp_ban_text Code (h * Hour))) = BanSoft /\
  ClassifyError (Some "temp_ban") = BanHard.
Proof.
  intros Hc Hh. split; [|reflexivity].
  assert (forallb (fun c => forallb (fun h => bool_decide
    (ClassifyError (Some (temp_ban_text c (h * Hour))) = BanSoft)) (seqZ 1 48))
    [101; 102; 103; 104; 106] = true) as H by (vm_compute; reflexivity).
  rewrite forallb_forall in H. specialize (H Code). rewrite <- list_elem_of_In in H.
  specialize (H Hc). rewrite forallb_forall in H. specialize (H h).
  rewrite <- list_elem_of_In, elem_of_seqZ in H. specialize (H ltac:(lia)). by apply bool_decide_eq_true in H.
Qed.

Lemma temporary_ban_is_soft_witness :
  ClassifyError (Some "temporary ban: 102: too many people blocked you (expires in 24h0m0s)") = BanSoft.
Proof. apply (temporary_ban_is_soft 102 24); [set_solver|lia]. Defined.

(** The counters of a health monitor. *)
Definition counters (hm : HealthMonitor) : Z * Z * Z * Z * Z :=
  (disconnects hm, forbiddenErrors hm, loggedOutErrors hm, failedMessages hm, timelockErrors hm).

Lemma checkPause_counters c hm : counters (checkPause c hm).1 = counters hm.
Proof. unfold checkPause. by repeat case_match; simplify_eq. Qed.

Lemma scoreEvent_counters c now w hm : counters (scoreEvent c now w hm).1 = counters hm.
Proof. unfold scoreEvent. rewrite checkPause_counters. unfold decay. by case_match. Qed.

Lemma RecordLoggedOut_counters c now hm :
  loggedOutErrors (RecordLoggedOut c now hm).1 = loggedOutErrors hm + 1 /\
  forbiddenErrors (RecordLoggedOut c now hm).1 = forbiddenErrors hm.
Proof.
  pose proof (scoreEvent_counters c now (of_int 40)
    (hm <| loggedOutErrors := loggedOutErrors hm + 1 |>)) as H.
  split; [exact (f_equal (fun x => x.1.1.2) H)|exact (f_equal (fun x => x.1.1.1.2) H)].
Qed.

Lemma RecordForbidden_counters c now hm :
  loggedOutErrors (RecordForbidden c now hm).1 = loggedOutErrors hm /\
  forbiddenErrors (RecordForbidden c now hm).1 = forbiddenErrors hm + 1.
Proof.
  pose proof (scoreEvent_counters c now (of_int 20)
    (hm <| forbiddenErrors := forbiddenErrors hm + 1 |>)) as H.
  split; [exact (f_equal (fun x => x.1.1.2) H)|exact (f_equal (fun x => x.1.1.1.2) H)].
Qed.

(** What the orchestrator's handler does to the monitor. *)
Lemma OnStreamError_health clk err a :
  destroyed a = false ->
  ab_Health (OnStreamError clk err a) =
    match ClassifyError err with
    | BanHard => (RecordLoggedOut (shared a) (clk 0%nat) (ab_Health a)).1
    | BanSoft => (RecordForbidden (shared a) (clk 0%nat) (ab_Health a)).1
    | BanTimelock => (RecordReachoutTimelock (shared a) (clk 0%nat) (ab_Health a)).1
    | _ => ab_Health a
    end.
Proof. intros Hd. unfold OnStreamError. rewrite Hd. by destruct (ClassifyError err); case_decide. Qed.

(** A logout is recorded twice: once by the classification of its text,
    once by the handler.  The logout with code 401 counts as two logouts; the
    ones with codes 403 and 406, which the classifier does not know, count as
    a logout and a forbidden error. *)
Theorem logout_recorded_twice clk oc Reason abc :
  IsLoggedOut Reason = true -> destroyed (ab abc) = false ->
  let h := ab_Health (ab abc) in
  let h' := ab_Health (ab (handleEvent clk (LoggedOut oc Reason) abc)) in
  if decide (Reason = ConnectFailureLoggedOut)
  then loggedOutErrors h' = loggedOutErrors h + 2 /\ forbiddenErrors h' = forbiddenErrors h
  else loggedOutErrors h' = loggedOutErrors h + 1 /\ forbiddenErrors h' = forbiddenErrors h + 1.
Proof.
  intros Hr Hd h h'.
  set (a1 := OnStreamError clk (Some ("logged out: " +:+ ConnectFailureReason_String Reason)) (ab abc)).
  change h' with (RecordLoggedOut (shared a1) (block 1 clk 0%nat) (ab_Health a1)).1. clear h'.
  destruct (RecordLoggedOut_counters (shared a1) (block 1 clk 0%nat) (ab_Health a1)) as [-> ->].
  unfold a1. rewrite OnStreamError_health by done. fold h.
  destruct (RecordLoggedOut_counters (shared (ab abc)) (clk 0%nat) h) as [Hl Hf].
  destruct (RecordForbidden_counters (shared (ab abc)) (clk 0%nat) h) as [Hl2 Hf2].
  assert (Hr' : Reason = 401 \/ Reason = 403 \/ Reason = 406).
  { unfold IsLoggedOut in Hr. rewrite !orb_true_iff, !Z.eqb_eq in Hr.
    unfold ConnectFailureLoggedOut, ConnectFailureMainDeviceGone, ConnectFailureUnknownLogout in Hr.
    tauto. }
  destruct Hr' as [-> |[-> | ->]];
    [change (ClassifyError _) with BanHard|change (ClassifyError _) with BanSoft..];
    cbv iota; case_decide; try done; lia.
Qed.

Lemma logout_recorded_twice_witness :
  loggedOutErrors (ab_Health (ab (handleEvent (fun _ => 0) (LoggedOut false 401)
    (WrapClient (fun _ => 0) fzero PresetModerate [])))) = 2.
Proof.
  exact (proj1 (logout_recorded_twice (fun _ => 0) false 401
    (WrapClient (fun _ => 0) fzero PresetModerate []) eq_refl eq_refl)).
Defined.

(** When a temporary ban expires the timer resumes, whatever else has paused
    the orchestrator meanwhile. *)
Lemma ban_expiry_resumes now abc abc' : timer_step now abc abc' -> isPaused (ab abc') = false.
Proof. by intros []. Qed.
