(* ===== verification/Gateway.v ===== *)
(** * [cmd/gateway/main.go]

    The HTTP gateway: its configuration, authentication, the three handlers
    and the template substitution.  A handler returns the response it writes;
    the JSON decoder is an argument, and so is the answer of
    [AntiBanClient.SendMessage], which may be asked once: the handler also
    returns what it asked it to send. *)
From S2P Require Import Prelude GoTime GoFloat GoStrings Config Jid Wrapper.

Record SourceConfig : Type := mkSource {
  source_Name : string; Mode : string; source_APIKey : string; AllowedTemplates : list string
}.
Record TemplateConfig : Type := mkTemplate { template_Name : string; Body : string }.

(** The anonymous structs of the code are flattened. *)
Record GatewayConfig : Type := mkGatewayConfig {
  Port : Z; APIKey : string;
  DBPath : string; gw_Preset : string;
  gw_EnableTypoInjection : bool; gw_EnableZeroWidth : bool;
  gw_EnableEmojiPadding : bool; gw_EnablePunctuationVary : bool;
  Sources : list SourceConfig;
  Templates : list TemplateConfig;
  queue_Type : string; queue_MaxSize : Z
}.
#[export] Instance eta_GatewayConfig : Eta GatewayConfig := fun c =>
  mkGatewayConfig (Port c) (APIKey c) (DBPath c) (gw_Preset c) (gw_EnableTypoInjection c)
    (gw_EnableZeroWidth c) (gw_EnableEmojiPadding c) (gw_EnablePunctuationVary c) (Sources c)
    (Templates c) (queue_Type c) (queue_MaxSize c).

(** [readConfig] after the YAML decoder. *)
Definition defaultPort (cfg : GatewayConfig) : GatewayConfig :=
  if Port cfg =? 0 then cfg <| Port := 8080 |> else cfg.

(** [to_lower] lowers ASCII letters only. *)
Definition resolvePreset (name : string) : Preset :=
  let name := to_lower name in
  if String.eqb name "conservative" then PresetConservative
  else if String.eqb name "aggressive" then PresetAggressive
  else if String.eqb name "high-volume" then PresetHighVolume
  else PresetModerate.

Definition buildAntibanConfig (gcfg : GatewayConfig) : Config :=
  let preset := resolvePreset (gw_Preset gcfg) in
  (DefaultConfig preset) <| EnableTypoInjection := gw_EnableTypoInjection gcfg |>
    <| EnableZeroWidth := gw_EnableZeroWidth gcfg |>
    <| EnableEmojiPadding := gw_EnableEmojiPadding gcfg |>
    <| EnablePunctuationVary := gw_EnablePunctuationVary gcfg |>.

Definition validateAPIKey (expected provided : string) : bool :=
  String.eqb expected "" || String.eqb expected provided.

(** [main]: the later of two templates of one name wins. *)
Definition buildTemplates (ts : list TemplateConfig) : gmap string string :=
  foldl (fun m t => <[template_Name t := Body t]> m) ∅ ts.

(** The client of the gateway. *)
Definition gatewayClient (clk : nat -> Z) (u : float64) (gcfg : GatewayConfig) : AntiBanClient :=
  Start (WrapClient clk u (resolvePreset (gw_Preset gcfg)) [buildAntibanConfig gcfg]).

(** ** Requests and responses *)

(** A request: the method, the [Authorization] header, the [api_key] query
    parameter (empty when missing) and the body. *)
Record Request : Type := mkRequest {
  Method : string; Authorization : string; query_api_key : string; req_Body : string
}.

Record SendRequest : Type := mkSendRequest { sr_To : string; sr_Message : string }.
(** [Data] as a list in the order in which Go visits the map. *)
Record SendTemplateRequest : Type := mkSendTemplate {
  st_To : string; st_Template : string; st_Data : list (string * string)
}.

Inductive response : Type :=
| Error_ (status : Z) (msg : string)
| Sent (id : string)
| HealthOK (connected : bool) (stats : gmap string Any).
Definition status (r : response) : Z := match r with Error_ s _ => s | _ => 200 end.

(** The error of [strconv.Atoi]: out of range when the text is a number. *)
Definition Atoi_error (s : string) : string :=
  let digits := match s with String "-" s' => s' | String "+" s' => s' | _ => s end in
  "strconv.Atoi: parsing " +:+ quote s +:+
    (if parse_unsigned digits then ": value out of range" else ": invalid syntax").

Definition jid_error_text (e : jid_error) : string :=
  match e with
  | ErrDots => "unexpected number of dots in JID"
  | ErrColons => "unexpected number of colons in JID"
  | ErrDevice s => "failed to parse device from JID: " +:+ Atoi_error s
  | ErrScanType => "unsupported type" (* not an error of [ParseJID] *)
  end.

Section Handlers.
Context (cfg : GatewayConfig).
Context (decodeSend : string -> option SendRequest)
        (decodeSendTemplate : string -> option SendTemplateRequest).
(** The answer of [SendMessage]: an error text or the id of the message. *)
Context (sendMessage : JID -> E2EMessage -> string + string).

Definition authMiddleware (r : Request) : bool :=
  let key := Authorization r in
  let key := if String.eqb key "" then query_api_key r else key in
  let key := if has_prefix key "Bearer " then trim_prefix key "Bearer " else key in
  validateAPIKey (APIKey cfg) key.

Definition handleHealth (connected : bool) (stats : gmap string Any) (r : Request) : response :=
  if negb (authMiddleware r) then Error_ 401 "invalid API key" else HealthOK connected stats.

(** The end of both send handlers. *)
Definition sendTo (to message : string) : response * list (JID * string) :=
  match ParseJID to with
  | (_, Some err) => (Error_ 400 ("invalid JID: " +:+ jid_error_text err), [])
  | (jid, None) =>
      (match sendMessage jid (mkMessage (Some message) None) with
       | inl err => Error_ 500 err
       | inr id => Sent id
       end, [(jid, message)])
  end.

Definition handleSend (r : Request) : response * list (JID * string) :=
  if negb (String.eqb (Method r) "POST") then (Error_ 405 "POST required", [])
  else if negb (authMiddleware r) then (Error_ 401 "invalid API key", [])
  else
    match decodeSend (req_Body r) with
    | None => (Error_ 400 "invalid JSON body", [])
    | Some req =>
        if String.eqb (sr_To req) "" || String.eqb (sr_Message req) ""
        then (Error_ 400 "to and message are required", [])
        else sendTo (sr_To req) (sr_Message req)
    end.

Definition placeholder (k : string) : string := "{" +:+ k +:+ "}".

Definition render (data : list (string * string)) (message : string) : string :=
  foldl (fun message kv => replace_all message (placeholder kv.1) kv.2) message data.

Definition handleSendTemplate (templates : gmap string string) (r : Request)
  : response * list (JID * string) :=
  if negb (String.eqb (Method r) "POST") then (Error_ 405 "POST required", [])
  else if negb (authMiddleware r) then (Error_ 401 "invalid API key", [])
  else
    match decodeSendTemplate (req_Body r) with
    | None => (Error_ 400 "invalid JSON body", [])
    | Some req =>
        if String.eqb (st_To req) "" || String.eqb (st_Template req) ""
        then (Error_ 400 "to and template are required", [])
        else
          match templates !! st_Template req with
          | None => (Error_ 404 ("template " +:+ quote (st_Template req) +:+ " not found"), [])
          | Some templateBody => sendTo (st_To req) (render (st_Data req) templateBody)
          end
    end.
End Handlers.

(** * Properties *)

Section GatewayProps.
Context (cfg : GatewayConfig).
Context (decodeSend : string -> option SendRequest)
        (decodeSendTemplate : string -> option SendTemplateRequest)
        (sendMessage : JID -> E2EMessage -> string + string).

(** What the authentication accepts. *)
Lemma authMiddleware_spec r :
  authMiddleware cfg r = true <->
  APIKey cfg = "" \/
  exists key, key = (if String.eqb (Authorization r) "" then query_api_key r else Authorization r) /\
    (key = "Bearer " +:+ APIKey cfg \/ key = APIKey cfg /\ has_prefix key "Bearer " = false).
Proof.
  unfold authMiddleware, validateAPIKey. rewrite orb_true_iff, !String.eqb_eq.
  generalize (if String.eqb (Authorization r) "" then query_api_key r else Authorization r).
  intros key. split.
  - intros [?|H]; [by left|right]. exists key. split; [done|].
    destruct (has_prefix key "Bearer ") eqn:Hp; [left|by right].
    pose proof (proj1 (has_prefix_spec _ _) Hp) as [rest ->]. unfold trim_prefix in H.
    rewrite Hp in H. change (drop_str _ _) with rest in H. by rewrite H.
  - intros [?|(k & -> & [-> |[-> Hp]])]; [by left|right; by destruct (APIKey cfg)|right]. by rewrite Hp.
Qed.

(** No request sends anything unless it is an authorized POST that names a
    recipient the parser accepts, and every refusal has its status: 405, then
    401, then 400. *)
Theorem handleSend_guarded r :
  let '(resp, out) := handleSend cfg decodeSend sendMessage r in
  (out <> [] ->
     Method r = "POST" /\ authMiddleware cfg r = true /\
     exists req jid, decodeSend (req_Body r) = Some req /\ sr_To req <> "" /\ sr_Message req <> "" /\
       ParseJID (sr_To req) = (jid, None) /\ out = [(jid, sr_Message req)]) /\
  (status resp = 405 <-> Method r <> "POST") /\
  (Method r = "POST" -> (status resp = 401 <-> authMiddleware cfg r = false)) /\
  (status resp = 200 -> out <> []).
Proof.
  unfold handleSend. destruct (String.eqb_spec (Method r) "POST") as [Hm|Hm]; cbn [negb].
  2: { split_and!; naive_solver. }
  destruct (authMiddleware cfg r) eqn:Ha; cbn [negb]; [|split_and!; naive_solver].
  destruct (decodeSend (req_Body r)) as [req|] eqn:Hd; [|split_and!; naive_solver].
  destruct (String.eqb_spec (sr_To req) "") as [Ht|Ht]; [split_and!; naive_solver|].
  destruct (String.eqb_spec (sr_Message req) "") as [Hmsg|Hmsg]; [split_and!; naive_solver|]. cbn [orb].
  unfold sendTo. destruct (ParseJID (sr_To req)) as [jid [err|]] eqn:Hj; [split_and!; naive_solver|].
  split; [intros _; split_and!; try done; by exists req, jid|].
  destruct (sendMessage jid _); split_and!; naive_solver.
Qed.

(** A recipient without an at sign - a bare phone number, as the guides
    tell the callers to write it - is accepted, and the message goes to an
    address with no user whose server is the number. *)
Theorem bare_number_misaddressed r req :
  Method r = "POST" -> authMiddleware cfg r = true -> decodeSend (req_Body r) = Some req ->
  sr_To req <> "" -> sr_Message req <> "" -> no_byte "@" (sr_To req) = true ->
  (handleSend cfg decodeSend sendMessage r).2 = [(mkJID "" 0 0 0 (sr_To req), sr_Message req)].
Proof.
  intros Hm Ha Hd Ht Hmsg Hat. unfold handleSend. rewrite Hm, Ha, Hd. cbn [negb String.eqb].
  rewrite (proj2 (String.eqb_neq _ _) Ht), (proj2 (String.eqb_neq _ _) Hmsg). cbn.
  unfold sendTo, ParseJID. by rewrite split_byte_none.
Qed.
End GatewayProps.

(** ** Templates *)

(** A template as its author reads it: text and placeholders. *)
Inductive piece : Type :=
| Lit (s : string)
| Hole (k : string).

Definition piece_text (p : piece) : string :=
  match p with Lit s => s | Hole k => placeholder k end.
Fixpoint flat (ps : list piece) : string :=
  match ps with [] => "" | p :: ps => piece_text p +:+ flat ps end.

Definition brace_free (s : string) : bool := no_byte "{" s && no_byte "}" s.
Definition piece_ok (p : piece) : bool := match p with Lit s => brace_free s | Hole k => brace_free k end.

Definition fill (data : gmap string string) (p : piece) : piece :=
  match p with
  | Lit s => Lit s
  | Hole k => match data !! k with Some v => Lit v | None => Hole k end
  end.

Lemma brace_free_split s : brace_free s = true -> no_byte "{" s = true /\ no_byte "}" s = true.
Proof. apply andb_true_iff. Qed.

Lemma placeholder_app k t : placeholder k +:+ t = String "{" (k +:+ String "}" t).
Proof. unfold placeholder. simpl. f_equal. by rewrite append_assoc. Qed.

Lemma replace_other_hole k k' v t :
  brace_free k = true -> brace_free k' = true -> k <> k' ->
  replace_all (placeholder k' +:+ t) (placeholder k) v
    = placeholder k' +:+ replace_all t (placeholder k) v.
Proof.
  intros [Hk1 Hk2]%brace_free_split [Hk1' Hk2']%brace_free_split Hne.
  rewrite !placeholder_app, replace_all_cons by (simpl; lia).
  assert (has_prefix (String "{" (k' +:+ String "}" t)) (placeholder k) = false) as ->.
  { apply not_true_iff_false. rewrite has_prefix_spec. intros [r Hr].
    rewrite placeholder_app in Hr. injection Hr as Hr. apply append_inj_sep in Hr as [Hr _]; [|done..].
    by subst. }
  f_equal. change (placeholder k) with (String "{" (k +:+ "}")).
  replace (k' +:+ String "}" t) with ((k' +:+ "}") +:+ t) by (by rewrite append_assoc).
  rewrite replace_all_skip; [by rewrite append_assoc|].
  rewrite no_byte_app, Hk1'. reflexivity.
Qed.

Lemma replace_flat k v ps :
  brace_free k = true -> Forall (fun p => piece_ok p = true) ps ->
  replace_all (flat ps) (placeholder k) v = flat (map (fill {[k := v]}) ps).
Proof.
  intros Hk. induction 1 as [|p ps Hp Hps IH]; [done|]. cbn [flat map]. destruct p as [s|k']; cbn [piece_text fill].
  - change (placeholder k) with (String "{" (k +:+ "}")). apply brace_free_split in Hp as [Hp _].
    rewrite replace_all_skip by done. change (String "{" (k +:+ "}")) with (placeholder k). by rewrite IH.
  - destruct (decide (k = k')) as [<-|Hne].
    + rewrite replace_all_hit by (simpl; lia). by rewrite lookup_singleton_eq, IH.
    + rewrite replace_other_hole by done. by rewrite lookup_singleton_ne, IH.
Qed.

(** For a template whose braces only delimit placeholders, and data without
    braces, substitution fills every placeholder that has a value, leaves the
    others, and touches nothing else - in whatever order Go visits the data. *)
Theorem render_fills ps data order :
  Forall (fun p => piece_ok p = true) ps ->
  map_Forall (fun k v => brace_free k = true /\ brace_free v = true) data ->
  order ≡ₚ map_to_list data ->
  render order (flat ps) = flat (map (fill data) ps).
Proof.
  intros Hps Hdata Horder. rewrite <- (list_to_map_to_list data).
  rewrite <- (list_to_map_proper order (map_to_list data)); [|by rewrite Horder; apply NoDup_fst_map_to_list|done].
  assert (NoDup order.*1) as Hnd by (rewrite Horder; apply NoDup_fst_map_to_list).
  assert (Forall (fun kv => brace_free kv.1 = true /\ brace_free kv.2 = true) order) as Hf.
  { rewrite Horder. apply map_Forall_to_list in Hdata.
    eapply Forall_impl; [exact Hdata|]. by intros [k v]. }
  clear data Hdata Horder. revert ps Hps. induction order as [|[k v] order IH]; intros ps Hps.
  - cbn. f_equal. induction Hps as [|p ps Hp Hps IHps]; [done|]. cbn. rewrite <- IHps. by destruct p.
  - apply Forall_cons in Hf as [[Hk Hv] Hf]. apply NoDup_cons in Hnd as [Hnin Hnd]. cbn [fst snd] in *.
    cbn [render foldl]. cbn [fst snd]. rewrite replace_flat by done. fold (render order).
    change (foldl _ ?m order) with (render order m). rewrite IH; [|done|done|].
    + f_equal. rewrite map_map. apply map_ext. intros [s|k']; cbn; [done|].
      destruct (decide (k = k')) as [<-|Hne].
      * by rewrite lookup_singleton_eq, lookup_insert_eq.
      * rewrite lookup_singleton_ne, lookup_insert_ne by done. reflexivity.
    + clear -Hps Hv Hk. induction Hps as [|p ps Hp Hps IHps]; [constructor|]. cbn. constructor; [|done].
      destruct p as [s|k']; [done|]. cbn. destruct (decide (k = k')) as [<-|Hne].
      * by rewrite lookup_singleton_eq.
      * by rewrite lookup_singleton_ne.
Qed.

(** With braces in a value, the order decides. *)
Lemma render_order_matters :
  render [("a", "{b}"); ("b", "x")] "{a}" = "x" /\ render [("b", "x"); ("a", "{b}")] "{a}" = "{b}".
Proof. split; reflexivity. Qed.

(** A gateway with a key, and the request of the guides. *)
Definition demo_gateway : GatewayConfig :=
  mkGatewayConfig 0 "secret" "wa.db" "moderate" true true false true [] [] "memory" 10000.
Definition demo_request : Request := mkRequest "POST" "Bearer secret" "" "{to, message}".

Lemma bare_number_misaddressed_witness :
  (handleSend demo_gateway (fun _ => Some (mkSendRequest "6281234567" "hi")) (fun _ _ => inr "id")
     demo_request).2 = [(mkJID "" 0 0 0 "6281234567", "hi")].
Proof.
  apply (bare_number_misaddressed demo_gateway (fun _ => Some (mkSendRequest "6281234567" "hi"))
    (fun _ _ => inr "id") demo_request (mkSendRequest "6281234567" "hi"));
    reflexivity || discriminate.
Defined.

Lemma render_fills_witness :
  render [("kelas", "7A"); ("nama", "Budi")] "Yth. {nama} kelas {kelas}: {poin}"
  = "Yth. Budi kelas 7A: {poin}".
Proof.
  pose proof (render_fills
    [Lit "Yth. "; Hole "nama"; Lit " kelas "; Hole "kelas"; Lit ": "; Hole "poin"]
    {["nama" := "Budi"; "kelas" := "7A"]} [("kelas", "7A"); ("nama", "Budi")]) as H.
  apply H; [repeat constructor|..].
  - intros k v Hkv. rewrite lookup_insert_Some, lookup_singleton_Some in Hkv.
    destruct Hkv as [[<- <-]|[_ [<- <-]]]; split; reflexivity.
  - vm_compute. reflexivity || apply Permutation_swap.
Defined.
