(* ===== verification/BinaryNode.v ===== *)
(** * [whatsmeow/binary]: nodes, their encoder and their decoder

    [node.go], [encoder.go], [decoder.go] and [unpack.go].  A buffer is the
    list of its bytes; a writer returns the bytes it appends, or panics; a
    reader takes the bytes from the current index on.  The attributes of a node
    are listed in the order in which Go visits the map. *)
From S2P Require Import Prelude GoStrings Jid Token.

(** ** Bytes *)

Definition codes (s : string) : list Z := map (fun c => Z.of_N (N_of_ascii c)) (bytes s).
Definition of_codes (l : list Z) : string := of_bytes (map (fun z => ascii_of_N (Z.to_N z)) l).

(** ** Nodes *)

(** The dynamic types that the encoder knows, and any other.  The seven
    integer types are printed alike. *)
Inductive value : Type :=
| VNil
| VJID (j : JID)
| VString (s : string)
| VInt (z : Z)
| VBool (b : bool)
| VBytes (s : string)
| VNodes (l : list node)
| VOther
with node : Type := mkNode (Tag : string) (Attrs : list (string * value)) (Content : value).

Definition Tag (n : node) : string := match n with mkNode t _ _ => t end.
Definition Attrs (n : node) : list (string * value) := match n with mkNode _ a _ => a end.
Definition Content (n : node) : value := match n with mkNode _ _ c => c end.

Definition GetChildren (n : node) : list node :=
  match Content n with VNodes children => children | _ => [] end.

Definition GetChildrenByTag (tag : string) (n : node) : list node :=
  filter (fun child => Tag child = tag) (GetChildren n).

(** The node is the last one reached, also when the path ends early. *)
Fixpoint GetOptionalChildByTag (n : node) (tags : list string) : node * bool :=
  match tags with
  | [] => (n, true)
  | tag :: tags =>
      match GetChildrenByTag tag n with
      | child :: _ => GetOptionalChildByTag child tags
      | [] => (n, false)
      end
  end.
Definition GetChildByTag (n : node) (tags : list string) : node := (GetOptionalChildByTag n tags).1.

(** ** Encoder *)

Definition Writer : Type := outcome (list Z).

(** One writer after the other. *)
Definition wseq (a b : Writer) : Writer := x ← a; y ← b; Ret (x ++ y).
Infix "+++" := wseq (at level 60, right associativity).
Definition pushByte (b : Z) : Writer := Ret [b].
Definition pushBytes (l : list Z) : Writer := Ret l.

(** The bytes of [value], by decreasing shift when big-endian. *)
Definition intBytes (value : Z) (n : nat) (littleEndian : bool) : list Z :=
  map (fun i => uint8 (Z.shiftr value (8 * (if littleEndian then Z.of_nat i else Z.of_nat n - Z.of_nat i - 1))))
      (seq 0 n).
Definition pushIntN (value : Z) (n : nat) (littleEndian : bool) : Writer :=
  Ret (intBytes value n littleEndian).
Definition pushInt20 (value : Z) : Writer :=
  Ret [Z.land (Z.shiftr value 16) 15; Z.land (Z.shiftr value 8) 255; Z.land value 255].
Definition pushInt8 (value : Z) : Writer := pushIntN value 1 false.
Definition pushInt16 (value : Z) : Writer := pushIntN value 2 false.
Definition pushInt32 (value : Z) : Writer := pushIntN value 4 false.
Definition pushString (value : string) : Writer := pushBytes (codes value).

Definition writeByteLength (length : Z) : Writer :=
  if length <? 256 then pushByte Binary8 +++ pushInt8 length
  else if length <? 2 ^ 20 then pushByte Binary20 +++ pushInt20 length
  else if length <? 2 ^ 31 - 1 then pushByte Binary32 +++ pushInt32 length
  else Panic "length is too large".

Definition writeBytes (value : string) : Writer := writeByteLength (len value) +++ pushString value.
Definition writeStringRaw (value : string) : Writer := writeByteLength (len value) +++ pushString value.

Definition in_range (lo hi c : Z) : bool := (lo <=? c) && (c <=? hi).

(** A byte outside ASCII is part of a rune that no test accepts. *)
Definition nibbleChar (c : Z) : bool := in_range 48 57 c || (c =? 45) || (c =? 46).
Definition validateNibble (value : string) : bool :=
  if len value >? PackedMax then false else forallb nibbleChar (codes value).
Definition hexChar (c : Z) : bool := in_range 48 57 c || in_range 65 70 c.
Definition validateHex (value : string) : bool :=
  if len value >? PackedMax then false else forallb hexChar (codes value).

Definition packNibble (value : Z) : outcome Z :=
  if value =? 45 then Ret 10
  else if value =? 46 then Ret 11
  else if value =? 0 then Ret 15
  else if in_range 48 57 value then Ret (value - 48)
  else Panic "invalid string to pack as nibble".

Definition packHex (value : Z) : outcome Z :=
  if in_range 48 57 value then Ret (value - 48)
  else if in_range 65 70 value then Ret (10 + value - 65)
  else if value =? 0 then Ret 15
  else Panic "invalid string to pack as hex".

Definition packBytePair (packer : Z -> outcome Z) (part1 part2 : Z) : Writer :=
  x ← packer part1; y ← packer part2; Ret [Z.lor (uint8 (Z.shiftl x 4)) y].

(** The loop over the pairs, and the odd byte at the end. *)
Fixpoint packPairs (packer : Z -> outcome Z) (value : list Z) : Writer :=
  match value with
  | [] => Ret []
  | [c] => packBytePair packer c 0
  | c1 :: c2 :: value => packBytePair packer c1 c2 +++ packPairs packer value
  end.

Definition writePackedBytes (value : string) (dataType : Z) : Writer :=
  if len value >? PackedMax then Panic "too many bytes to pack"
  else
    let roundedLength := uint8 ((len value + 1) / 2) in
    let roundedLength := if len value mod 2 =? 0 then roundedLength else Z.lor roundedLength 128 in
    pushByte dataType +++ pushByte roundedLength +++
    (if dataType =? Nibble8 then packPairs packNibble (codes value)
     else if dataType =? Hex8 then packPairs packHex (codes value)
     else Panic "invalid packed byte data type").

Definition writeString (data : string) : Writer :=
  match IndexOfSingleToken data with
  | Some tokenIndex => pushByte tokenIndex
  | None =>
      match IndexOfDoubleByteToken data with
      | Some (dictIndex, tokenIndex) => pushByte (uint8 (Dictionary0 + dictIndex)) +++ pushByte tokenIndex
      | None =>
          if validateNibble data then writePackedBytes data Nibble8
          else if validateHex data then writePackedBytes data Hex8
          else writeStringRaw data
      end
  end.

Definition writeJID (jid : JID) : Writer :=
  if ((String.eqb (Server jid) DefaultUserServer || String.eqb (Server jid) HiddenUserServer)
        && (Device jid >? 0))
     || String.eqb (Server jid) HostedServer || String.eqb (Server jid) HostedLIDServer
  then pushByte ADJID +++ pushByte (ActualAgent jid) +++ pushByte (uint8 (Device jid)) +++
       writeString (User jid)
  else if String.eqb (Server jid) MessengerServer
  then pushByte FBJID +++ writeString (User jid) +++ pushInt16 (Device jid) +++ writeString (Server jid)
  else if String.eqb (Server jid) InteropServer
  then pushByte InteropJID +++ writeString (User jid) +++ pushInt16 (Device jid) +++
       pushInt16 (Integrator jid) +++ writeString (Server jid)
  else pushByte JIDPair +++
       (if len (User jid) =? 0 then pushByte ListEmpty else writeString (User jid)) +++
       writeString (Server jid).

Definition writeListStart (listSize : Z) : Writer :=
  if listSize =? 0 then pushByte ListEmpty
  else if listSize <? 256 then pushByte List8 +++ pushInt8 listSize
  else pushByte List16 +++ pushInt16 listSize.

(** [val == "" || val == nil] *)
Definition skipped (val : value) : bool :=
  match val with VNil => true | VString s => String.eqb s "" | _ => false end.

Definition countAttributes (attributes : list (string * value)) : Z :=
  foldl (fun count kv => if skipped kv.2 then count else count + 1) 0 attributes.

Definition tagSize : Z := 1.
Definition hasContent (c : value) : Z := match c with VNil => 0 | _ => 1 end.
Definition fmt_bool (b : bool) : string := if b then "true" else "false".

(** The two loops of the writers, over the writer of an element. *)
Section Loops.
Context (write : value -> Writer) (writeNode : node -> Writer).

Fixpoint writeAttributes (attributes : list (string * value)) : Writer :=
  match attributes with
  | [] => Ret []
  | (key, val) :: attributes =>
      if skipped val then writeAttributes attributes
      else (writeString key +++ write val) +++ writeAttributes attributes
  end.

Fixpoint writeNodes (l : list node) : Writer :=
  match l with [] => Ret [] | n :: l => writeNode n +++ writeNodes l end.
End Loops.

Fixpoint write (data : value) : Writer :=
  match data with
  | VNil => pushByte ListEmpty
  | VJID j => writeJID j
  | VString s => writeString s
  | VInt z => writeString (fmt_d z)
  | VBool b => writeString (fmt_bool b)
  | VBytes s => writeBytes s
  | VNodes l => writeListStart (Z.of_nat (length l)) +++ writeNodes writeNode l
  | VOther => Panic "invalid type"
  end
with writeNode (n : node) : Writer :=
  match n with
  | mkNode tag attrs content =>
      if String.eqb tag "0" then pushByte List8 +++ pushByte ListEmpty
      else
        writeListStart (2 * countAttributes attrs + tagSize + hasContent content) +++
        writeString tag +++ writeAttributes write attrs +++
        match content with VNil => Ret [] | c => write c end
  end.

(** [newEncoder] starts the buffer with a zero byte. *)
Definition Marshal (n : node) : Writer := pushByte 0 +++ writeNode n.

(** ** Decoder *)

Inductive decode_error : Type :=
| EOF
| UnknownListTag (tag : Z)
| UnpackNibbleValue (v : Z)
| UnpackHexValue (v : Z)
| UnpackTag (tag : Z)
| ErrInvalidToken (tag : Z)
| ErrDoubleToken (index1 index2 : Z)
| ErrInvalidJIDType
| ErrNonStringKey
| ErrInvalidNode
| Leftover (n : Z).

(** [Fuel] is not a result of the code: see [read_fuel_enough]. *)
Inductive presult (A : Type) : Type :=
| POk (a : A) (rest : list Z)
| PErr (e : decode_error)
| PPanic (msg : string)
| Fuel.
Arguments POk {A} a rest.
Arguments PErr {A} e.
Arguments PPanic {A} msg.
Arguments Fuel {A}.

Definition Reader (A : Type) : Type := list Z -> presult A.
#[export] Instance Reader_ret : MRet Reader := fun A a l => POk a l.
#[export] Instance Reader_bind : MBind Reader := fun A B f m l =>
  match m l with
  | POk a rest => f a rest
  | PErr e => PErr e
  | PPanic msg => PPanic msg
  | Fuel => Fuel
  end.
Definition rfail {A} (e : decode_error) : Reader A := fun _ => PErr e.
Definition rpanic {A} (msg : string) : Reader A := fun _ => PPanic msg.

(** [checkEOS] and the slice that follows it. *)
Definition readRaw (length : Z) : Reader (list Z) := fun l =>
  if Z.of_nat (List.length l) <? length then PErr EOF
  else POk (take (Z.to_nat length) l) (drop (Z.to_nat length) l).

Definition readByte : Reader Z := fun l =>
  match l with [] => PErr EOF | b :: l => POk b l end.

(** [ret |= int(b) << shift], from the first byte on. *)
Definition bytesInt (data : list Z) (littleEndian : bool) : Z :=
  foldl (fun ret '(i, b) =>
    Z.lor ret (Z.shiftl b (8 * (if littleEndian then Z.of_nat i
                                else Z.of_nat (length data) - Z.of_nat i - 1))))
    0 (imap (fun i b => (i, b)) data).
Definition readIntN (n : Z) (littleEndian : bool) : Reader Z :=
  data ← readRaw n; mret (bytesInt data littleEndian).
Definition readInt8 (littleEndian : bool) : Reader Z := readIntN 1 littleEndian.
Definition readInt16 (littleEndian : bool) : Reader Z := readIntN 2 littleEndian.
Definition readInt32 (littleEndian : bool) : Reader Z := readIntN 4 littleEndian.
Definition readInt20 : Reader Z :=
  data ← readRaw 3;
  match data with
  | [b0; b1; b2] => mret (Z.shiftl (Z.land b0 15) 16 + Z.shiftl b1 8 + b2)
  | _ => rfail EOF
  end.

Definition unpackNibble (value : Z) : decode_error + Z :=
  if value <? 10 then inr (48 + value)
  else if value =? 10 then inr 45
  else if value =? 11 then inr 46
  else if value =? 15 then inr 0
  else inl (UnpackNibbleValue value).
Definition unpackHex (value : Z) : decode_error + Z :=
  if value <? 10 then inr (48 + value)
  else if value <? 16 then inr (65 + value - 10)
  else inl (UnpackHexValue value).
Definition unpackByte (tag value : Z) : decode_error + Z :=
  if tag =? Nibble8 then unpackNibble value
  else if tag =? Hex8 then unpackHex value
  else inl (UnpackTag tag).
Definition lift_error {A} (r : decode_error + A) : Reader A :=
  match r with inl e => rfail e | inr a => mret a end.

Fixpoint readPairs (tag : Z) (n : nat) : Reader (list Z) :=
  match n with
  | O => mret []
  | S n =>
      currByte ← readByte;
      lower ← lift_error (unpackByte tag (Z.shiftr (Z.land currByte 240) 4));
      upper ← lift_error (unpackByte tag (Z.land currByte 15));
      rest ← readPairs tag n;
      mret (lower :: upper :: rest)
  end.

(** [ret[:len(ret)-1]] panics when nothing was read. *)
Definition readPacked8 (tag : Z) : Reader string :=
  startByte ← readByte;
  ret ← readPairs tag (Z.to_nat (Z.land startByte 127));
  if negb (Z.shiftr startByte 7 =? 0) then
    match ret with
    | [] => rpanic "slice bounds out of range"
    | _ => mret (of_codes (take (length ret - 1) ret))
    end
  else mret (of_codes ret).

Definition readListSize (tag : Z) : Reader Z :=
  if tag =? ListEmpty then mret 0
  else if tag =? List8 then readInt8 false
  else if tag =? List16 then readInt16 false
  else rfail (UnknownListTag tag).

Definition readBytesOrString (length : Z) (asString : bool) : Reader value :=
  data ← readRaw length;
  mret (if asString then VString (of_codes data) else VBytes (of_codes data)).

(** The type assertion [v.(string)]. *)
Definition assert_string (v : value) : Reader string :=
  match v with VString s => mret s | _ => rpanic "interface conversion" end.

(** [m[key] = val] *)
Fixpoint setAttr (key : string) (val : value) (m : list (string * value)) : list (string * value) :=
  match m with
  | [] => [(key, val)]
  | (k, v) :: m => if String.eqb k key then (key, val) :: m else (k, v) :: setAttr key val m
  end.

(** The readers that call [read], which is [rd] here. *)
Section Recursive.
Context (rd : bool -> Reader value).

Definition readJIDPair : Reader value :=
  user ← rd true;
  server ← rd true;
  match server with
  | VNil => rfail ErrInvalidJIDType
  | _ =>
      match user with
      | VNil => s ← assert_string server; mret (VJID (NewJID "" s))
      | _ => u ← assert_string user; s ← assert_string server; mret (VJID (NewJID u s))
      end
  end.

Definition readInteropJID : Reader value :=
  user ← rd true;
  device ← readInt16 false;
  integrator ← readInt16 false;
  server ← rd true;
  match server with
  | VString s =>
      if String.eqb s InteropServer then
        u ← assert_string user;
        mret (VJID (mkJID u 0 (uint16 device) (uint16 integrator) InteropServer))
      else rfail ErrInvalidJIDType
  | _ => rfail ErrInvalidJIDType
  end.

Definition readFBJID : Reader value :=
  user ← rd true;
  device ← readInt16 false;
  server ← rd true;
  match server with
  | VString s =>
      if String.eqb s MessengerServer then
        u ← assert_string user; mret (VJID (mkJID u 0 (uint16 device) 0 s))
      else rfail ErrInvalidJIDType
  | _ => rfail ErrInvalidJIDType
  end.

Definition readADJID : Reader value :=
  agent ← readByte;
  device ← readByte;
  user ← rd true;
  u ← assert_string user;
  mret (VJID (NewADJID u agent device)).

Fixpoint readAttributes (n : nat) (ret : list (string * value)) : Reader (list (string * value)) :=
  match n with
  | O => mret ret
  | S n =>
      keyIfc ← rd true;
      match keyIfc with
      | VString key => val ← rd true; readAttributes n (setAttr key val ret)
      | _ => rfail ErrNonStringKey
      end
  end.

Definition readNode : Reader node :=
  size ← readInt8 false;
  listSize ← readListSize size;
  rawDesc ← rd true;
  tag ← assert_string rawDesc;
  if (listSize =? 0) || String.eqb tag "" then rfail ErrInvalidNode
  else
    attrs ← readAttributes (Z.to_nat (Z.shiftr (listSize - 1) 1)) [];
    if listSize mod 2 =? 1 then mret (mkNode tag attrs VNil)
    else content ← rd false; mret (mkNode tag attrs content).

Fixpoint readNodes (n : nat) : Reader (list node) :=
  match n with
  | O => mret []
  | S n => x ← readNode; l ← readNodes n; mret (x :: l)
  end.

Definition readList (tag : Z) : Reader value :=
  size ← readListSize tag; l ← readNodes (Z.to_nat size); mret (VNodes l).

Definition readTagged (asString : bool) (tag : Z) : Reader value :=
  if tag =? ListEmpty then mret VNil
  else if (tag =? List8) || (tag =? List16) then readList tag
  else if tag =? Binary8 then size ← readInt8 false; readBytesOrString size asString
  else if tag =? Binary20 then size ← readInt20; readBytesOrString size asString
  else if tag =? Binary32 then size ← readInt32 false; readBytesOrString size asString
  else if in_range Dictionary0 Dictionary3 tag then
    i ← readInt8 false;
    match GetDoubleToken (tag - Dictionary0) i with
    | inr t => mret (VString t)
    | inl (a, b) => rfail (ErrDoubleToken a b)
    end
  else if tag =? FBJID then readFBJID
  else if tag =? InteropJID then readInteropJID
  else if tag =? JIDPair then readJIDPair
  else if tag =? ADJID then readADJID
  else if (tag =? Nibble8) || (tag =? Hex8) then s ← readPacked8 tag; mret (VString s)
  else
    match (if 1 <=? tag then SingleByteTokens !! Z.to_nat tag else None) with
    | Some t => mret (VString t)
    | None => rfail (ErrInvalidToken tag)
    end.
End Recursive.

Fixpoint read (fuel : nat) (asString : bool) : Reader value :=
  match fuel with
  | O => fun _ => Fuel
  | S fuel => tag ← readByte; readTagged (read fuel) asString tag
  end.

(** Every call of [read] consumes a byte: the length of the data is enough. *)
Definition Unmarshal (data : list Z) : presult node :=
  match readNode (read (S (length data))) data with
  | POk n [] => POk n []
  | POk _ rest => PErr (Leftover (Z.of_nat (length rest)))
  | r => r
  end.

(** [unpack.go]: [zlib] is the decompressor; data without a first byte panics. *)
Definition Unpack (zlib : list Z -> string + list Z) (data : list Z) : outcome (string + list Z) :=
  match data with
  | [] => Panic "index out of range"
  | dataType :: data => Ret (if Z.land 2 dataType >? 0 then zlib data else inr data)
  end.
