(* ===== verification/BinaryCodec.v ===== *)
(** * Properties of the binary codec

    Reading a string, a JID or a node gives back what was written, up to what
    the format does not carry ([norm_node]); reading terminates on every
    input. *)
From S2P Require Import Prelude GoStrings Jid Token BinaryNode.

(** ** Bytes *)

Lemma of_codes_codes s : of_codes (codes s) = s.
Proof.
  unfold of_codes, codes. rewrite map_map. rewrite <- (of_bytes_bytes s) at 2. f_equal.
  rewrite <- (map_id (bytes s)) at 2. apply map_ext. intros c. by rewrite N2Z.id, ascii_N_embedding.
Qed.

Lemma codes_range s : Forall (fun c => 0 <= c < 256) (codes s).
Proof.
  unfold codes. apply Forall_map, Forall_forall. intros c _. cbn.
  pose proof (N_ascii_bounded c). lia.
Qed.

Lemma length_codes s : Z.of_nat (length (codes s)) = len s.
Proof. unfold codes, len. by rewrite length_map, length_bytes. Qed.

Lemma lor_shiftl_add a b k : 0 <= k -> 0 <= b < 2 ^ k -> Z.lor (Z.shiftl a k) b = a * 2 ^ k + b.
Proof.
  intros Hk Hb. assert (Z.land (Z.shiftl a k) b = 0) as H0.
  { apply Z.bits_inj'. intros n Hn. rewrite Z.land_spec, Z.bits_0, Z.shiftl_spec by done.
    destruct (Z.lt_ge_cases n k); [by rewrite Z.testbit_neg_r by lia|].
    destruct (Z.eq_dec b 0) as [->|Hb0]; [by rewrite Z.bits_0, andb_false_r|].
    assert (Z.log2 b < k) by (apply Z.log2_lt_pow2; lia).
    rewrite (Z.bits_above_log2 b n); [apply andb_false_r|lia|lia]. }
  rewrite <- Z.lxor_lor, <- Z.add_nocarry_lxor by done. by rewrite Z.shiftl_mul_pow2.
Qed.

Lemma shiftr_byte v k : 0 <= k -> uint8 (Z.shiftr v k) = (v / 2 ^ k) mod 256.
Proof. intros Hk. unfold uint8. by rewrite Z.shiftr_div_pow2. Qed.

Lemma bytesInt_1 b : bytesInt [b] false = b.
Proof. unfold bytesInt. cbn. by rewrite Z.shiftl_0_r. Qed.

(** One more byte below the accumulated ones. *)
Lemma lor_byte h b s : 0 <= s -> 0 <= b < 256 ->
  Z.lor (h * 2 ^ (s + 8)) (Z.shiftl b s) = (h * 256 + b) * 2 ^ s.
Proof.
  intros Hs Hb. rewrite <- Z.shiftl_mul_pow2 by lia. rewrite Z.shiftl_mul_pow2 with (a := b) by done.
  assert (0 < 2 ^ s) by (apply Z.pow_pos_nonneg; lia).
  rewrite lor_shiftl_add, Z.pow_add_r by (rewrite ?Z.pow_add_r by lia; change (2 ^ 8) with 256; nia).
  change (2 ^ 8) with 256. lia.
Qed.

Lemma byte_range z : 0 <= z mod 256 < 256.
Proof. apply Z.mod_pos_bound. lia. Qed.

Lemma bytesInt_2 v : 0 <= v < 2 ^ 16 -> bytesInt (intBytes v 2 false) false = v.
Proof.
  intros Hv. unfold bytesInt, intBytes. cbn [seq map imap foldl length].
  rewrite !shiftr_byte by lia. cbn -[Z.of_nat Z.mul].
  change (8 * (Z.of_nat 2 - Z.of_nat 0 - 1)) with 8. change (8 * (Z.of_nat 2 - Z.of_nat 1 - 1)) with 0.
  rewrite Z.lor_0_l, (Z.shiftl_mul_pow2 _ 8) by lia. change (2 ^ 8) with (2 ^ (0 + 8)) at 2.
  rewrite lor_byte by (lia || apply byte_range). change (2 ^ 0) with 1. change (2 ^ 8) with 256. div_lia.
Qed.

Lemma bytesInt_4 v : 0 <= v < 2 ^ 32 -> bytesInt (intBytes v 4 false) false = v.
Proof.
  intros Hv. unfold bytesInt, intBytes. cbn [seq map imap foldl length].
  rewrite !shiftr_byte by lia. cbn -[Z.of_nat Z.mul].
  change (8 * (Z.of_nat 4 - Z.of_nat 0 - 1)) with 24. change (8 * (Z.of_nat 4 - Z.of_nat 1 - 1)) with 16.
  change (8 * (Z.of_nat 4 - Z.of_nat 2 - 1)) with 8. change (8 * (Z.of_nat 4 - Z.of_nat 3 - 1)) with 0.
  rewrite Z.lor_0_l, (Z.shiftl_mul_pow2 _ 24) by lia. change (2 ^ 24) with (2 ^ (16 + 8)) at 2.
  rewrite lor_byte by (lia || apply byte_range). change (2 ^ 16) with (2 ^ (8 + 8)) at 2.
  rewrite lor_byte by (lia || apply byte_range). change (2 ^ 8) with (2 ^ (0 + 8)) at 2.
  rewrite lor_byte by (lia || apply byte_range).
  change (2 ^ 0) with 1. change (2 ^ 8) with 256. change (2 ^ 16) with 65536.
  change (2 ^ 24) with 16777216. div_lia.
Qed.

(** ** Readers that consume exactly what was written *)

Definition parses {A} (p : Reader A) (l : list Z) (a : A) : Prop :=
  forall rest, p (l ++ rest) = POk a rest.

Lemma parses_ret {A} (a : A) : parses (mret a) [] a.
Proof. done. Qed.

Lemma parses_bind {A B} (p : Reader A) (f : A -> Reader B) l1 l2 a b :
  parses p l1 a -> parses (f a) l2 b -> parses (p ≫= f) (l1 ++ l2) b.
Proof.
  intros H1 H2 rest. unfold mbind, Reader_bind. rewrite <- app_assoc, H1. apply H2.
Qed.

(** The last step of a reader that consumes nothing more. *)
Lemma parses_map {A B} (p : Reader A) (f : A -> B) l a :
  parses p l a -> parses (x ← p; mret (f x)) l (f a).
Proof. intros H rest. unfold mbind, Reader_bind. by rewrite H. Qed.

Lemma parses_readByte b : parses readByte [b] b.
Proof. done. Qed.

Lemma parses_readRaw l n : Z.of_nat (length l) = n -> parses (readRaw n) l l.
Proof.
  intros <- rest. unfold readRaw. rewrite length_app.
  rewrite (proj2 (Z.ltb_ge _ _)) by lia. rewrite Nat2Z.id, take_app_length, drop_app_length. done.
Qed.

Lemma length_intBytes v n le : length (intBytes v n le) = n.
Proof. unfold intBytes. by rewrite length_map, length_seq. Qed.

Lemma parses_readInt8 v : 0 <= v < 256 -> parses (readInt8 false) (intBytes v 1 false) v.
Proof.
  intros Hv. unfold readInt8, readIntN.
  replace v with (bytesInt (intBytes v 1 false) false) at 2.
  - apply (parses_map (readRaw 1) (fun data => bytesInt data false)), parses_readRaw.
    by rewrite length_intBytes.
  - unfold intBytes. cbn [seq map]. rewrite bytesInt_1, shiftr_byte by lia.
    change (2 ^ _) with 1. rewrite Z.div_1_r, Z.mod_small by lia. done.
Qed.

Lemma parses_readInt16 v : 0 <= v < 2 ^ 16 -> parses (readInt16 false) (intBytes v 2 false) v.
Proof.
  intros Hv. unfold readInt16, readIntN. rewrite <- (bytesInt_2 v) at 2 by done.
  apply (parses_map (readRaw 2) (fun data => bytesInt data false)), parses_readRaw. by rewrite length_intBytes.
Qed.

Lemma parses_readInt32 v : 0 <= v < 2 ^ 32 -> parses (readInt32 false) (intBytes v 4 false) v.
Proof.
  intros Hv. unfold readInt32, readIntN. rewrite <- (bytesInt_4 v) at 2 by done.
  apply (parses_map (readRaw 4) (fun data => bytesInt data false)), parses_readRaw. by rewrite length_intBytes.
Qed.

Lemma parses_readInt20 v : 0 <= v < 2 ^ 20 ->
  parses readInt20 [Z.land (Z.shiftr v 16) 15; Z.land (Z.shiftr v 8) 255; Z.land v 255] v.
Proof.
  intros Hv. unfold readInt20. rewrite <- (app_nil_r [_; _; _]).
  eapply parses_bind; [by apply parses_readRaw|]. cbv beta iota.
  change 15 with (Z.ones 4). change 255 with (Z.ones 8). rewrite !Z.land_ones by lia.
  rewrite !Z.shiftr_div_pow2, !Z.shiftl_mul_pow2 by lia.
  change (2 ^ 4) with 16. change (2 ^ 16) with 65536. change (2 ^ 8) with 256.
  replace ((v / 65536) mod 16 mod 16 * 65536 + (v / 256) mod 256 * 256 + v mod 256) with v.
  - apply parses_ret.
  - change (2 ^ 20) with 1048576 in Hv. div_lia.
Qed.

(** ** Writers *)

Lemma wseq_Ret a b x y : a = Ret x -> b = Ret y -> a +++ b = Ret (x ++ y).
Proof. by intros -> ->. Qed.

(** A written length, and the tag and size it is read back as. *)
Lemma writeByteLength_spec n :
  0 <= n < 2 ^ 31 - 1 ->
  exists tag szl, writeByteLength n = Ret (tag :: szl) /\
    forall rd asString data, Z.of_nat (length data) = n ->
      parses (readTagged rd asString tag) (szl ++ data)
        (if asString then VString (of_codes data) else VBytes (of_codes data)).
Proof.
  intros Hn. unfold writeByteLength.
  assert (Hb : forall asString data, Z.of_nat (length data) = n ->
    parses (readBytesOrString n asString) data
      (if asString then VString (of_codes data) else VBytes (of_codes data))).
  { intros asString data Hd. unfold readBytesOrString.
    apply (parses_map (readRaw n)
      (fun data => if asString then VString (of_codes data) else VBytes (of_codes data))).
    by apply parses_readRaw. }
  destruct (Z.ltb_spec n 256); [|destruct (Z.ltb_spec n (2 ^ 20))];
    [| |rewrite (proj2 (Z.ltb_lt _ _)) by lia]; do 2 eexists; (split; [reflexivity|]);
    intros rd asString data Hd.
  - apply (parses_bind (readInt8 false) (fun size => readBytesOrString size asString) _ _ n);
      [apply parses_readInt8; lia|by apply Hb].
  - apply (parses_bind readInt20 (fun size => readBytesOrString size asString) _ _ n);
      [apply parses_readInt20; lia|by apply Hb].
  - apply (parses_bind (readInt32 false) (fun size => readBytesOrString size asString) _ _ n);
      [apply parses_readInt32; lia|by apply Hb].
Qed.

(** ** Packed strings *)

Lemma nibbles_of_byte x y :
  0 <= x < 16 -> 0 <= y < 16 ->
  Z.shiftr (Z.land (Z.lor (uint8 (Z.shiftl x 4)) y) 240) 4 = x /\
  Z.land (Z.lor (uint8 (Z.shiftl x 4)) y) 15 = y.
Proof.
  intros Hx Hy.
  assert (forallb (fun x => forallb (fun y =>
    (Z.shiftr (Z.land (Z.lor (uint8 (Z.shiftl x 4)) y) 240) 4 =? x) &&
    (Z.land (Z.lor (uint8 (Z.shiftl x 4)) y) 15 =? y)) (seqZ 0 16)) (seqZ 0 16) = true) as H
    by (vm_compute; reflexivity).
  rewrite forallb_forall in H. specialize (H x). rewrite <- list_elem_of_In, elem_of_seqZ in H.
  specialize (H ltac:(lia)). rewrite forallb_forall in H. specialize (H y).
  rewrite <- list_elem_of_In, elem_of_seqZ in H. specialize (H ltac:(lia)).
  apply andb_true_iff in H as [H1 H2]. by apply Z.eqb_eq in H1, H2.
Qed.

(** The length byte: the number of pairs, and whether the last one is half. *)
Lemma rounded_length n :
  0 <= n <= 127 ->
  let r := if n mod 2 =? 0 then uint8 ((n + 1) / 2) else Z.lor (uint8 ((n + 1) / 2)) 128 in
  Z.land r 127 = (n + 1) / 2 /\ (Z.shiftr r 7 =? 0) = (n mod 2 =? 0).
Proof.
  intros Hn r.
  assert (forallb (fun n =>
    let r := if n mod 2 =? 0 then uint8 ((n + 1) / 2) else Z.lor (uint8 ((n + 1) / 2)) 128 in
    (Z.land r 127 =? (n + 1) / 2) && Bool.eqb (Z.shiftr r 7 =? 0) (n mod 2 =? 0)) (seqZ 0 128) = true)
    as H by (vm_compute; reflexivity).
  rewrite forallb_forall in H. specialize (H n). rewrite <- list_elem_of_In, elem_of_seqZ in H.
  specialize (H ltac:(lia)). apply andb_true_iff in H as [H1 H2].
  apply Z.eqb_eq in H1. apply eqb_prop in H2. done.
Qed.

Section Packed.
Context (tag : Z) (packer : Z -> outcome Z) (valid : Z -> bool) (pad : Z).
Hypothesis packer_ok : forall c, valid c = true ->
  exists x, packer c = Ret x /\ 0 <= x < 16 /\ unpackByte tag x = inr c.
Hypothesis packer_pad : packer 0 = Ret 15 /\ unpackByte tag 15 = inr pad.

Lemma packBytePair_parses c1 x1 c2 x2 c2' n l rest :
  packer c1 = Ret x1 -> packer c2 = Ret x2 -> 0 <= x1 < 16 -> 0 <= x2 < 16 ->
  unpackByte tag x1 = inr c1 -> unpackByte tag x2 = inr c2' ->
  parses (readPairs tag n) l rest ->
  exists b, packBytePair packer c1 c2 = Ret [b] /\
    parses (readPairs tag (S n)) (b :: l) (c1 :: c2' :: rest).
Proof.
  intros H1 H2 Hx1 Hx2 Hu1 Hu2 Hl. unfold packBytePair. rewrite H1, H2. cbn [mbind outcome_bind].
  eexists. split; [reflexivity|]. intros tl.
  destruct (nibbles_of_byte x1 x2 Hx1 Hx2) as [Hn1 Hn2].
  cbn [readPairs]. unfold mbind, Reader_bind. cbn [app readByte].
  rewrite Hn1, Hn2, Hu1, Hu2. cbn [lift_error mret Reader_ret]. by rewrite Hl.
Qed.

Lemma packPairs_parses l :
  forallb valid l = true ->
  exists w, packPairs packer l = Ret w /\ Z.of_nat (length w) = (Z.of_nat (length l) + 1) / 2 /\
    parses (readPairs tag (length w)) w
      (l ++ if Z.of_nat (length l) mod 2 =? 0 then [] else [pad]).
Proof.
  remember (length l) as n eqn:Hn. revert l Hn. induction n as [n IH] using lt_wf_ind. intros l Hn Hv.
  destruct l as [|c1 [|c2 l]]; cbn [length] in Hn; subst n.
  - exists []. done.
  - simpl in Hv. destruct (packer_ok c1) as (x1 & H1 & Hx1 & Hu1); [by destruct (valid c1)|].
    destruct packer_pad as [Hp0 Hpad].
    destruct (packBytePair_parses c1 x1 0 15 pad 0 [] [] H1 Hp0 Hx1 ltac:(lia) Hu1 Hpad
      (parses_ret [])) as (b & Hb & Hr).
    exists [b]. split; [exact Hb|]. split; [done|exact Hr].
  - cbn [forallb] in Hv. apply andb_true_iff in Hv as [Hv1 Hv]. apply andb_true_iff in Hv as [Hv2 Hv].
    destruct (packer_ok c1 Hv1) as (x1 & H1 & Hx1 & Hu1).
    destruct (packer_ok c2 Hv2) as (x2 & H2 & Hx2 & Hu2).
    destruct (IH (length l) ltac:(lia) l eq_refl Hv) as (w & Hw & Hlw & Hr).
    destruct (packBytePair_parses c1 x1 c2 x2 c2 _ _ _ H1 H2 Hx1 Hx2 Hu1 Hu2 Hr) as (b & Hb & Hr').
    exists (b :: w). split; [|split].
    + change (packPairs packer (c1 :: c2 :: l)) with (packBytePair packer c1 c2 +++ packPairs packer l).
      by rewrite Hb, Hw.
    + cbn [length]. div_lia.
    + replace (Z.of_nat (S (S (length l))) mod 2) with (Z.of_nat (length l) mod 2) by div_lia.
      exact Hr'.
Qed.
End Packed.

Lemma nibble_packer_ok c : nibbleChar c = true ->
  exists x, packNibble c = Ret x /\ 0 <= x < 16 /\ unpackByte Nibble8 x = inr c.
Proof.
  unfold nibbleChar, packNibble, in_range. destruct (Z.eqb_spec c 45) as [E|].
  { intros _. exists 10. by rewrite E. }
  destruct (Z.eqb_spec c 46) as [E|].
  { intros _. exists 11. by rewrite E. }
  intros H.
  rewrite !orb_false_r in H. rewrite H. apply andb_true_iff in H as [H1 H2]. bool_to_prop.
  destruct (Z.eqb_spec c 0); [lia|]. exists (c - 48). split; [done|]. split; [lia|].
  unfold unpackByte. cbn [Z.eqb Nibble8 Pos.eqb]. unfold unpackNibble.
  rewrite (proj2 (Z.ltb_lt _ _)) by lia. f_equal. lia.
Qed.

Lemma hex_packer_ok c : hexChar c = true ->
  exists x, packHex c = Ret x /\ 0 <= x < 16 /\ unpackByte Hex8 x = inr c.
Proof.
  unfold hexChar, packHex, in_range. intros H. destruct ((48 <=? c) && (c <=? 57)) eqn:H1.
  - apply andb_true_iff in H1 as [H1 H2]. bool_to_prop. exists (c - 48). split; [done|]. split; [lia|].
    unfold unpackByte. cbn [Z.eqb Nibble8 Hex8 Pos.eqb]. unfold unpackHex.
    rewrite (proj2 (Z.ltb_lt _ _)) by lia. f_equal. lia.
  - cbn [orb] in H. rewrite H. apply andb_true_iff in H as [H3 H4]. bool_to_prop.
    exists (10 + c - 65). split; [done|]. split; [lia|].
    unfold unpackByte. cbn [Z.eqb Nibble8 Hex8 Pos.eqb]. unfold unpackHex.
    rewrite (proj2 (Z.ltb_ge _ _)), (proj2 (Z.ltb_lt _ _)) by lia. f_equal. lia.
Qed.

(** A packed string, and what [readPacked8] gives for it. *)
Lemma writePackedBytes_parses tag packer valid pad s :
  (forall c, valid c = true -> exists x, packer c = Ret x /\ 0 <= x < 16 /\ unpackByte tag x = inr c) ->
  packer 0 = Ret 15 /\ unpackByte tag 15 = inr pad ->
  len s <= 127 -> forallb valid (codes s) = true ->
  (if tag =? Nibble8 then packPairs packNibble (codes s)
   else if tag =? Hex8 then packPairs packHex (codes s)
   else Panic "invalid packed byte data type") = packPairs packer (codes s) ->
  exists w, writePackedBytes s tag = Ret (tag :: w) /\ parses (readPacked8 tag) w s.
Proof.
  intros Hok Hpad Hlen Hv Hdisp.
  destruct (packPairs_parses tag packer valid pad Hok Hpad (codes s) Hv) as (w & Hw & Hlw & Hr).
  rewrite length_codes in *. pose proof (rounded_length (len s) ltac:(unfold len in *; lia)) as Hrl.
  unfold writePackedBytes, PackedMax. rewrite Z.gtb_ltb, (proj2 (Z.ltb_ge _ _)) by lia.
  cbv zeta in *. set (r := if len s mod 2 =? 0 then uint8 _ else _) in *. destruct Hrl as [Hland Hshr].
  rewrite Hdisp, Hw. exists (r :: w). split; [done|]. intros rest.
  unfold readPacked8, mbind, Reader_bind. cbn [app readByte].
  rewrite Hland, <- Hlw, Nat2Z.id, Hr, Hshr.
  destruct (len s mod 2 =? 0) eqn:Heven; cbn [negb].
  - by rewrite app_nil_r, of_codes_codes.
  - destruct (codes s ++ [pad]) as [|z t] eqn:Hz; [by destruct (codes s)|]. rewrite <- Hz.
    rewrite length_app. cbn [length]. rewrite Nat.add_sub, take_app_length, of_codes_codes. done.
Qed.

(** ** Strings *)

(** The strings that are written byte by byte. *)
Definition is_raw (s : string) : bool :=
  match IndexOfSingleToken s, IndexOfDoubleByteToken s with
  | None, None => negb (validateNibble s) && negb (validateHex s)
  | _, _ => false
  end.

(** What a string is read as, where bytes are wanted. *)
Definition content_string (asString : bool) (s : string) : value :=
  if asString then VString s else if is_raw s then VBytes s else VString s.

Lemma readTagged_single rd asString b t :
  0 < b < 236 -> SingleByteTokens !! Z.to_nat b = Some t ->
  readTagged rd asString b = mret (VString t).
Proof.
  intros Hb Ht. unfold readTagged, in_range, ListEmpty, List8, List16, Binary8, Binary20, Binary32,
    Dictionary0, Dictionary3, FBJID, InteropJID, JIDPair, ADJID, Nibble8, Hex8.
  rewrite !(proj2 (Z.eqb_neq b _)) by lia. rewrite (proj2 (Z.leb_gt 236 b)) by lia. cbn [orb andb].
  rewrite (proj2 (Z.leb_le 1 b)) by lia. by rewrite Ht.
Qed.

Lemma readTagged_double rd asString d :
  0 <= d < 4 ->
  readTagged rd asString (uint8 (Dictionary0 + d)) =
    (i ← readInt8 false;
     match GetDoubleToken d i with
     | inr t => mret (VString t)
     | inl (a, b) => rfail (ErrDoubleToken a b)
     end).
Proof.
  intros Hd. assert (d = 0 \/ d = 1 \/ d = 2 \/ d = 3) as H by lia.
  by destruct H as [-> |[-> |[-> | ->]]].
Qed.

Lemma writeString_spec s :
  len s < 2 ^ 31 - 1 ->
  exists tag w, writeString s = Ret (tag :: w) /\
    forall rd asString, parses (readTagged rd asString tag) w (content_string asString s).
Proof.
  intros Hlen. unfold writeString, content_string, is_raw.
  destruct (IndexOfSingleToken s) as [b|] eqn:Hs.
  { apply IndexOfSingleToken_sound in Hs as [Hb Ht]. exists b, []. split; [done|].
    intros rd asString. rewrite (readTagged_single _ _ _ s) by done. by destruct asString. }
  destruct (IndexOfDoubleByteToken s) as [[d i]|] eqn:Hd.
  { apply IndexOfDoubleByteToken_sound in Hd as (Hd & Hi & Hg). do 2 eexists. split; [reflexivity|].
    intros rd asString rest. rewrite readTagged_double by done.
    unfold mbind, Reader_bind. cbn [app]. unfold readInt8, readIntN, mbind, Reader_bind, readRaw.
    cbn [length]. rewrite (proj2 (Z.ltb_ge _ _)) by lia.
    change (Z.to_nat 1) with 1%nat. cbn [take drop mret Reader_ret]. rewrite bytesInt_1, Hg.
    by destruct asString. }
  destruct (validateNibble s) eqn:Hn.
  { unfold validateNibble, PackedMax in Hn. destruct (Z.gtb_spec (len s) 127); [done|].
    destruct (writePackedBytes_parses Nibble8 packNibble nibbleChar 0 s nibble_packer_ok (conj eq_refl eq_refl)
      ltac:(lia) ltac:(assumption) eq_refl) as (w & Hw & Hr).
    exists Nibble8, w. split; [done|]. intros rd asString.
    change (readTagged rd asString Nibble8) with (s ← readPacked8 Nibble8; mret (VString s)).
    replace (if asString then VString s else _) with (VString s) by (by destruct asString).
    by apply parses_map. }
  destruct (validateHex s) eqn:Hh.
  { unfold validateHex, PackedMax in Hh. destruct (Z.gtb_spec (len s) 127); [done|].
    destruct (writePackedBytes_parses Hex8 packHex hexChar 70 s hex_packer_ok (conj eq_refl eq_refl)
      ltac:(lia) ltac:(assumption) eq_refl) as (w & Hw & Hr).
    exists Hex8, w. split; [done|]. intros rd asString.
    change (readTagged rd asString Hex8) with (s ← readPacked8 Hex8; mret (VString s)).
    replace (if asString then VString s else _) with (VString s) by (by destruct asString).
    by apply parses_map. }
  destruct (writeByteLength_spec (len s)) as (tag & szl & Hw & Hr); [unfold len in *; lia|].
  exists tag, (szl ++ codes s). unfold writeStringRaw. rewrite Hw. split; [done|].
  intros rd asString. specialize (Hr rd asString (codes s) (length_codes s)).
  by rewrite of_codes_codes in Hr.
Qed.

Lemma writeBytes_spec s :
  len s < 2 ^ 31 - 1 ->
  exists tag w, writeBytes s = Ret (tag :: w) /\
    forall rd asString, parses (readTagged rd asString tag) w (if asString then VString s else VBytes s).
Proof.
  intros Hlen. destruct (writeByteLength_spec (len s)) as (tag & szl & Hw & Hr); [unfold len in *; lia|].
  exists tag, (szl ++ codes s). unfold writeBytes. rewrite Hw. split; [done|].
  intros rd asString. specialize (Hr rd asString (codes s) (length_codes s)).
  by rewrite of_codes_codes in Hr.
Qed.

(** ** JIDs *)

Definition max_len : Z := 2 ^ 31 - 1.

Definition valid_jid (j : JID) : bool :=
  (len (User j) <? max_len) && (len (Server j) <? max_len) &&
  (0 <=? Device j) && (Device j <? 65536) && (0 <=? Integrator j) && (Integrator j <? 65536).

(** What is left of a JID: users and servers always, the device where it is
    written (one byte of it for a device of a user), the integrator of an
    interop JID, and never the raw agent. *)
Definition norm_jid (j : JID) : JID :=
  if ((String.eqb (Server j) DefaultUserServer || String.eqb (Server j) HiddenUserServer)
        && (Device j >? 0))
     || String.eqb (Server j) HostedServer || String.eqb (Server j) HostedLIDServer
  then mkJID (User j) 0 (uint8 (Device j)) 0 (Server j)
  else if String.eqb (Server j) MessengerServer then mkJID (User j) 0 (Device j) 0 (Server j)
  else if String.eqb (Server j) InteropServer then mkJID (User j) 0 (Device j) (Integrator j) (Server j)
  else mkJID (User j) 0 0 0 (Server j).

Lemma read_step f asString tag w v :
  parses (readTagged (read f) asString tag) w v -> parses (read (S f) asString) (tag :: w) v.
Proof. intros H rest. cbn [read app]. unfold mbind, Reader_bind, readByte. apply H. Qed.

Lemma read_string f s :
  len s < max_len ->
  exists w, writeString s = Ret w /\ forall asString, parses (read (S f) asString) w (content_string asString s).
Proof.
  intros Hs. destruct (writeString_spec s Hs) as (tag & w & Hw & Hr).
  exists (tag :: w). split; [done|]. intros asString. by apply read_step.
Qed.

(** Reading the user of an AD JID back gives the server its agent stands for. *)
Lemma NewADJID_ActualAgent j dev :
  String.eqb (Server j) DefaultUserServer || String.eqb (Server j) HiddenUserServer = true \/
  String.eqb (Server j) HostedServer = true \/ String.eqb (Server j) HostedLIDServer = true ->
  NewADJID (User j) (ActualAgent j) dev = mkJID (User j) 0 dev 0 (Server j).
Proof.
  intros H. unfold ActualAgent. rewrite orb_true_iff, !String.eqb_eq in H.
  destruct H as [[-> | ->]|[-> | ->]]; reflexivity.
Qed.

Section JIDs.
Context (f : nat).
Notation rd := (read (S f)).

Lemma writeJID_spec j asString :
  valid_jid j = true ->
  exists tag w, writeJID j = Ret (tag :: w) /\ parses (readTagged rd asString tag) w (VJID (norm_jid j)).
Proof.
  unfold valid_jid. rewrite !andb_true_iff. intros (((((Hu & Hs) & Hd1) & Hd2) & Hi1) & Hi2).
  bool_to_prop. destruct (read_string f (User j) Hu) as (wu & Hwu & Hru).
  destruct (read_string f (Server j) Hs) as (ws & Hws & Hrs). specialize (Hru true). specialize (Hrs true).
  unfold writeJID, norm_jid. set (ad := _ || String.eqb (Server j) HostedLIDServer).
  destruct ad eqn:Had.
  { exists ADJID, (ActualAgent j :: uint8 (Device j) :: wu). rewrite Hwu. split; [done|]. clear Hwu Hws.
    change (readTagged rd asString ADJID) with (readADJID rd). unfold readADJID.
    change (ActualAgent j :: uint8 (Device j) :: wu) with ([ActualAgent j] ++ [uint8 (Device j)] ++ wu).
    eapply parses_bind; [apply parses_readByte|]. eapply parses_bind; [apply parses_readByte|].
    rewrite <- (app_nil_r wu). eapply parses_bind; [exact Hru|].
    change (parses (mret (VJID (NewADJID (User j) (ActualAgent j) (uint8 (Device j))))) []
      (VJID (mkJID (User j) 0 (uint8 (Device j)) 0 (Server j)))).
    rewrite NewADJID_ActualAgent; [apply parses_ret|].
    subst ad. apply orb_true_iff in Had as [Had|Had]; [|by right; right].
    apply orb_true_iff in Had as [Had|Had]; [|by right; left]. left. by apply andb_true_iff in Had as [Had _]. }
  destruct (String.eqb_spec (Server j) MessengerServer) as [Hm|Hm].
  { exists FBJID, (wu ++ intBytes (Device j) 2 false ++ ws). rewrite Hwu, Hws. split; [done|]. clear Hwu Hws.
    change (readTagged rd asString FBJID) with (readFBJID rd). unfold readFBJID.
    eapply parses_bind; [exact Hru|]. eapply parses_bind; [apply parses_readInt16; lia|].
    rewrite <- (app_nil_r ws). eapply parses_bind; [exact Hrs|]. cbn [content_string].
    rewrite Hm. cbn [String.eqb]. intros rest. cbn. unfold uint16. by rewrite Z.mod_small by lia. }
  destruct (String.eqb_spec (Server j) InteropServer) as [Hm'|Hm'].
  { exists InteropJID, (wu ++ intBytes (Device j) 2 false ++ intBytes (Integrator j) 2 false ++ ws).
    rewrite Hwu, Hws. split; [done|]. clear Hwu Hws.
    change (readTagged rd asString InteropJID) with (readInteropJID rd). unfold readInteropJID.
    eapply parses_bind; [exact Hru|]. eapply parses_bind; [apply parses_readInt16; lia|].
    eapply parses_bind; [apply parses_readInt16; lia|].
    rewrite <- (app_nil_r ws). eapply parses_bind; [exact Hrs|]. cbn [content_string].
    rewrite Hm'. intros rest. cbn. unfold uint16. by rewrite !Z.mod_small by lia. }
  change (exists tag w, (pushByte JIDPair +++ (if len (User j) =? 0 then pushByte ListEmpty
    else writeString (User j)) +++ writeString (Server j)) = Ret (tag :: w) /\
    parses (readTagged rd asString tag) w (VJID (mkJID (User j) 0 0 0 (Server j)))).
  destruct (Z.eqb_spec (len (User j)) 0) as [H0|H0].
  - exists JIDPair, ([ListEmpty] ++ ws). rewrite Hws. split; [done|]. clear Hwu Hws.
    change (readTagged rd asString JIDPair) with (readJIDPair rd). unfold readJIDPair.
    eapply (parses_bind (rd true) _ _ _ VNil);
      [exact (read_step f true ListEmpty [] VNil (fun rest => eq_refl))|].
    rewrite <- (app_nil_r ws). eapply parses_bind; [exact Hrs|].
    destruct (User j); [done|]. unfold len in H0. simpl in H0. lia.
  - exists JIDPair, (wu ++ ws). rewrite Hwu, Hws. split; [done|]. clear Hwu Hws.
    change (readTagged rd asString JIDPair) with (readJIDPair rd). unfold readJIDPair.
    eapply parses_bind; [exact Hru|]. rewrite <- (app_nil_r ws). eapply parses_bind; [exact Hrs|].
    done.
Qed.
End JIDs.

(** ** Nodes *)

(** Induction on values and nodes together. *)
Section NestedInduction.
Context (P : value -> Prop) (Q : node -> Prop).
Hypothesis HNil : P VNil.
Hypothesis HJID : forall j, P (VJID j).
Hypothesis HString : forall s, P (VString s).
Hypothesis HInt : forall z, P (VInt z).
Hypothesis HBool : forall b, P (VBool b).
Hypothesis HBytes : forall s, P (VBytes s).
Hypothesis HNodes : forall l, Forall Q l -> P (VNodes l).
Hypothesis HOther : P VOther.
Hypothesis HNode : forall t a c, Forall (fun kv => P kv.2) a -> P c -> Q (mkNode t a c).

Fixpoint value_nested_ind (v : value) : P v :=
  match v with
  | VNil => HNil | VJID j => HJID j | VString s => HString s | VInt z => HInt z
  | VBool b => HBool b | VBytes s => HBytes s
  | VNodes l =>
      HNodes l ((fix go (l : list node) : Forall Q l :=
        match l with
        | [] => List.Forall_nil _
        | n :: l => @List.Forall_cons _ Q n l (node_nested_ind n) (go l)
        end) l)
  | VOther => HOther
  end
with node_nested_ind (n : node) : Q n :=
  match n with
  | mkNode t a c =>
      HNode t a c ((fix go (l : list (string * value)) : Forall (fun kv => P kv.2) l :=
        match l with
        | [] => List.Forall_nil _
        | kv :: l => @List.Forall_cons _ (fun kv => P kv.2) kv l (value_nested_ind kv.2) (go l)
        end) a) (value_nested_ind c)
  end.
End NestedInduction.

(** What is left of a value read as an attribute ([asString]) or as a content,
    and of a node: attributes without a value are dropped, an empty list of
    nodes becomes no content, scalars become strings, and a content that is
    written byte by byte becomes bytes. *)
Fixpoint norm_value (asString : bool) (v : value) : value :=
  match v with
  | VNil => VNil
  | VJID j => VJID (norm_jid j)
  | VString s => content_string asString s
  | VInt z => content_string asString (fmt_d z)
  | VBool b => content_string asString (fmt_bool b)
  | VBytes s => if asString then VString s else VBytes s
  | VNodes l => match l with [] => VNil | _ => VNodes (map norm_node l) end
  | VOther => VOther
  end
with norm_node (n : node) : node :=
  match n with
  | mkNode t a c =>
      mkNode t (omap (fun kv => if skipped kv.2 then None else Some (kv.1, norm_value true kv.2)) a)
        (norm_value false c)
  end.

(** What the encoder can encode: no unknown type, no string of 2 GiB, no list
    beyond 16 bits, no empty tag, not the tag of the stream end, and attributes
    that are a map. *)
Fixpoint valid_value (v : value) : bool :=
  match v with
  | VJID j => valid_jid j
  | VString s | VBytes s => len s <? max_len
  | VNodes l => (Z.of_nat (length l) <? 2 ^ 16) && forallb valid_node l
  | VOther => false
  | _ => true
  end
with valid_node (n : node) : bool :=
  match n with
  | mkNode t a c =>
      negb (String.eqb t "") && negb (String.eqb t "0") && (len t <? max_len) &&
      bool_decide (NoDup a.*1) && (2 * Z.of_nat (length a) + 2 <? 2 ^ 16) &&
      forallb (fun kv => (len kv.1 <? max_len) && valid_value kv.2) a && valid_value c
  end.

Lemma parses_readInt8_byte b : parses (readInt8 false) [b] b.
Proof.
  intros rest. unfold readInt8, readIntN, mbind, Reader_bind, readRaw. cbn [app length].
  rewrite (proj2 (Z.ltb_ge _ _)) by lia. change (Z.to_nat 1) with 1%nat.
  cbn [take drop mret Reader_ret]. by rewrite bytesInt_1.
Qed.

Lemma writeListStart_spec n :
  0 < n < 2 ^ 16 ->
  exists tag szl, writeListStart n = Ret (tag :: szl) /\ parses (readListSize tag) szl n /\
    forall rd asString, readTagged rd asString tag = readList rd tag.
Proof.
  intros Hn. unfold writeListStart. destruct (Z.eqb_spec n 0); [lia|].
  destruct (Z.ltb_spec n 256); do 2 eexists; (split; [reflexivity|]); (split; [|done]).
  - change (readListSize List8) with (readInt8 false). apply parses_readInt8. lia.
  - change (readListSize List16) with (readInt16 false). by apply parses_readInt16; lia.
Qed.

Lemma length_dec_fuel n z acc : (String.length (dec_fuel n z acc) <= n + String.length acc)%nat.
Proof.
  revert z acc. induction n as [|n IH]; intros z acc; simpl; [lia|].
  case_match; simpl; [lia|]. etransitivity; [apply IH|]. simpl. lia.
Qed.

Lemma len_fmt_d z : len (fmt_d z) < max_len.
Proof.
  unfold len, max_len, fmt_d, dec_nonneg. 
  pose proof (length_dec_fuel 20 (- z) ""). pose proof (length_dec_fuel 20 z "").
  cbn [String.length] in *. destruct (z <? 0); cbn [String.length]; lia.
Qed.

(** The round trip of a value read by [read], and of a node. *)
Definition value_ok (v : value) : Prop :=
  valid_value v = true ->
  exists l, write v = Ret l /\ l <> [] /\
    forall f asString, (length l < f)%nat -> parses (read f asString) l (norm_value asString v).
Definition node_ok (n : node) : Prop :=
  valid_node n = true ->
  exists l, writeNode n = Ret l /\
    forall f, (length l < f)%nat -> parses (readNode (read f)) l (norm_node n).

Lemma string_ok s :
  len s < max_len ->
  exists l, writeString s = Ret l /\ l <> [] /\
    forall f asString, (length l < f)%nat -> parses (read f asString) l (content_string asString s).
Proof.
  intros Hs. destruct (writeString_spec s Hs) as (tag & w & Hw & Hr). exists (tag :: w).
  split; [exact Hw|]. split; [discriminate|]. intros [|f] asString Hf; [simpl in Hf; lia|].
  apply read_step, Hr.
Qed.

Lemma scalar_ok v s :
  (forall asString, norm_value asString v = content_string asString s) ->
  write v = writeString s -> len s < max_len -> value_ok v.
Proof.
  intros Hn Hw Hs _. rewrite Hw. destruct (string_ok s Hs) as (l & Hl & Hne & Hr).
  exists l. split; [exact Hl|]. split; [exact Hne|]. intros f asString Hf. rewrite Hn. by apply Hr.
Qed.

Lemma jid_ok j : value_ok (VJID j).
Proof.
  intros Hv. destruct (writeJID_spec 0 j true Hv) as (tag & w & Hw & _).
  exists (tag :: w). split; [exact Hw|]. split; [discriminate|].
  intros f asString Hf. destruct f as [|[|f]]; [simpl in Hf; lia..|].
  destruct (writeJID_spec f j asString Hv) as (tag' & w' & Hw' & Hr).
  rewrite Hw' in Hw. injection Hw as <- <-. by apply read_step.
Qed.

Lemma bytes_ok s : value_ok (VBytes s).
Proof.
  intros Hv. simpl in Hv. apply Z.ltb_lt in Hv. destruct (writeBytes_spec s Hv) as (tag & w & Hw & Hr).
  exists (tag :: w). split; [exact Hw|]. split; [discriminate|].
  intros [|f] asString Hf; [simpl in Hf; lia|]. apply read_step, Hr.
Qed.

Lemma nodes_ok l : Forall node_ok l -> value_ok (VNodes l).
Proof.
  intros Hl Hv. cbn [valid_value] in Hv. apply andb_true_iff in Hv as [Hlen Hv].
  apply Z.ltb_lt in Hlen.
  assert (exists w, writeNodes writeNode l = Ret w /\
    forall f, (length w < f)%nat -> parses (readNodes (read f) (length l)) w (map norm_node l)) as (w & Hw & Hr).
  { clear Hlen. induction Hl as [|n l Hn Hl IH]; [by exists []|].
    cbn [forallb] in Hv. apply andb_true_iff in Hv as [Hv1 Hv2].
    destruct (Hn Hv1) as (w1 & Hw1 & Hr1). destruct (IH Hv2) as (w2 & Hw2 & Hr2).
    exists (w1 ++ w2). cbn [writeNodes]. rewrite Hw1, Hw2. split; [reflexivity|]. intros f Hf.
    rewrite length_app in Hf. cbn [length readNodes map]. eapply parses_bind; [apply Hr1; lia|].
    apply (parses_map (readNodes (read f) (length l)) (cons (norm_node n))). apply Hr2. lia. }
  destruct l as [|n l].
  - exists [ListEmpty]. split; [done|]. split; [discriminate|].
    intros [|f] asString Hf; [simpl in Hf; lia|]. apply read_step. exact (parses_ret VNil).
  - destruct (writeListStart_spec (Z.of_nat (length (n :: l)))) as (tag & szl & Hs & Hsz & Ht);
      [cbn [length] in *; lia|].
    exists (tag :: szl ++ w). cbn [write]. rewrite Hs, Hw. split; [reflexivity|]. split; [discriminate|].
    intros [|f] asString Hf; [simpl in Hf; lia|]. cbn [length] in Hf. rewrite length_app in Hf.
    apply read_step. rewrite Ht. unfold readList. eapply parses_bind; [exact Hsz|].
    rewrite Nat2Z.id. apply (parses_map (readNodes (read f) (length (n :: l))) VNodes). apply Hr. lia.
Qed.

(** The attributes that are written, as they are read. *)
Definition norm_attrs (a : list (string * value)) : list (string * value) :=
  omap (fun kv => if skipped kv.2 then None else Some (kv.1, norm_value true kv.2)) a.

Lemma norm_attrs_cons k v a :
  norm_attrs ((k, v) :: a) = if skipped v then norm_attrs a else (k, norm_value true v) :: norm_attrs a.
Proof. unfold norm_attrs. cbn [omap list_omap fst snd]. by destruct (skipped v). Qed.

Lemma countAttributes_norm a : countAttributes a = Z.of_nat (length (norm_attrs a)).
Proof.
  unfold countAttributes. rewrite <- (Z.add_0_l (Z.of_nat _)). generalize 0.
  induction a as [|[k v] a IH]; intros z; cbn [foldl]; [simpl; lia|].
  rewrite IH, norm_attrs_cons. cbn [snd]. destruct (skipped v); cbn [length]; lia.
Qed.

Lemma norm_attrs_length a : (length (norm_attrs a) <= length a)%nat.
Proof.
  induction a as [|[k v] a IH]; [done|]. rewrite norm_attrs_cons. destruct (skipped v); cbn [length]; lia.
Qed.

Lemma setAttr_fresh k v m : k ∉ m.*1 -> setAttr k v m = m ++ [(k, v)].
Proof.
  induction m as [|[k' v'] m IH]; intros Hk; [done|]. cbn in Hk. apply not_elem_of_cons in Hk as [Hne Hk].
  cbn [setAttr]. rewrite (proj2 (String.eqb_neq k' k)) by done. by rewrite IH.
Qed.

Lemma attributes_ok a m :
  Forall (fun kv => value_ok kv.2) a ->
  forallb (fun kv => (len kv.1 <? max_len) && valid_value kv.2) a = true ->
  NoDup (m.*1 ++ a.*1) ->
  exists w, writeAttributes write a = Ret w /\
    forall f, (length w < f)%nat ->
      parses (readAttributes (read f) (length (norm_attrs a)) m) w (m ++ norm_attrs a).
Proof.
  intros Ha. revert m. induction Ha as [|[k v] a Hv Ha IH]; intros m Hval Hnd.
  { exists []. split; [done|]. intros f _. rewrite app_nil_r. apply parses_ret. }
  cbn [forallb fst snd] in *. apply andb_true_iff in Hval as [Hval Hval'].
  apply andb_true_iff in Hval as [Hk Hvv]. apply Z.ltb_lt in Hk.
  cbn [writeAttributes]. rewrite norm_attrs_cons.
  destruct (skipped v) eqn:Hskip.
  - apply IH; [done|]. rewrite fmap_cons in Hnd. cbn [fst] in Hnd.
    apply NoDup_app in Hnd as (Hm & Hdis & Hnd). apply NoDup_cons in Hnd as [Hk' Hnd].
    apply NoDup_app. split_and!; [done| |done]. intros x Hx Hx'. apply (Hdis x Hx). by right.
  - destruct (string_ok k Hk) as (wk & Hwk & _ & Hrk). destruct (Hv Hvv) as (wv & Hwv & _ & Hrv).
    assert (k ∉ m.*1) as Hfresh.
    { intros Hin. apply NoDup_app in Hnd as (_ & Hdis & _). apply (Hdis k Hin). by left. }
    destruct (IH (m ++ [(k, norm_value true v)])) as (w & Hw & Hr); [done| |].
    { by rewrite fmap_app, <- app_assoc. }
    exists ((wk ++ wv) ++ w). rewrite Hwk, Hwv, Hw. split; [reflexivity|]. intros f Hf.
    rewrite !length_app in Hf. rewrite <- app_assoc.
    cbn [length readAttributes]. eapply parses_bind; [apply Hrk; lia|]. cbn [content_string].
    eapply parses_bind; [apply Hrv; lia|]. rewrite setAttr_fresh by done.
    specialize (Hr f ltac:(lia)). rewrite <- app_assoc in Hr. exact Hr.
Qed.

Lemma list_size_parts c hc :
  0 <= c -> hc = 0 \/ hc = 1 ->
  Z.to_nat (Z.shiftr (2 * c + 1 + hc - 1) 1) = Z.to_nat c /\
  ((2 * c + 1 + hc) mod 2 =? 1) = (hc =? 0).
Proof.
  intros Hc Hhc. rewrite Z.shiftr_div_pow2 by lia. change (2 ^ 1) with 2.
  destruct Hhc as [-> | ->]; split.
  - f_equal. div_lia.
  - apply Z.eqb_eq. div_lia.
  - f_equal. div_lia.
  - apply Z.eqb_neq. div_lia.
Qed.

Lemma valid_node_iff t a c :
  valid_node (mkNode t a c) = true <->
  t <> "" /\ t <> "0" /\ len t < max_len /\ NoDup a.*1 /\ 2 * Z.of_nat (length a) + 2 < 2 ^ 16 /\
  forallb (fun kv => (len kv.1 <? max_len) && valid_value kv.2) a = true /\ valid_value c = true.
Proof.
  cbn [valid_node]. rewrite !andb_true_iff, !negb_true_iff, !String.eqb_neq, !Z.ltb_lt,
    bool_decide_eq_true. tauto.
Qed.

Definition writeContent (c : value) : Writer := match c with VNil => Ret [] | c => write c end.

Lemma writeNode_eq t a c :
  t <> "0" ->
  writeNode (mkNode t a c) =
    writeListStart (2 * countAttributes a + tagSize + hasContent c) +++ writeString t +++
    writeAttributes write a +++ writeContent c.
Proof. intros Ht. cbn [writeNode]. by rewrite (proj2 (String.eqb_neq t "0")). Qed.

Lemma readNode_ok t a c :
  Forall (fun kv => value_ok kv.2) a -> value_ok c -> node_ok (mkNode t a c).
Proof.
  intros Ha Hc Hv. apply valid_node_iff in Hv as (Ht1 & Ht2 & Ht3 & Hnd & Hlen & Hva & Hvc).
  rewrite writeNode_eq by done.
  assert (Hhc : hasContent c = 0 \/ hasContent c = 1) by (destruct c; simpl; auto).
  pose proof (norm_attrs_length a). rewrite countAttributes_norm. set (n := length (norm_attrs a)) in *.
  destruct (writeListStart_spec (2 * Z.of_nat n + tagSize + hasContent c)) as (tag & szl & Hs & Hsz & _);
    [unfold tagSize; lia|].
  destruct (string_ok t Ht3) as (wt & Hwt & Hne & Hrt).
  destruct (attributes_ok a [] Ha Hva Hnd) as (wa & Hwa & Hra).
  destruct (list_size_parts (Z.of_nat n) (hasContent c) ltac:(lia) Hhc) as [Hsh Hmod].
  rewrite Hs, Hwt, Hwa.
  assert (exists wc, writeContent c = Ret wc /\
    forall f, (length wc < f)%nat ->
      parses (if (2 * Z.of_nat n + tagSize + hasContent c) mod 2 =? 1
              then mret (mkNode t (norm_attrs a) VNil)
              else content ← read f false; mret (mkNode t (norm_attrs a) content))
        wc (mkNode t (norm_attrs a) (norm_value false c))) as (wc & Hwc & Hrc).
  { unfold tagSize. rewrite Hmod. destruct (Hc Hvc) as (wc & Hwc & _ & Hrc).
    destruct c; [exists []; split; [reflexivity|]; intros f Hf; exact (parses_ret _)|..];
      (exists wc; split; [exact Hwc|]; intros f Hf;
       exact (parses_map (read f false) (mkNode t (norm_attrs a)) _ _ (Hrc f false Hf))). }
  rewrite Hwc. exists ((tag :: szl) ++ wt ++ wa ++ wc). split; [reflexivity|]. intros f Hf.
  rewrite !length_app in Hf. cbn [length] in Hf.
  unfold readNode. change (tag :: szl) with ([tag] ++ szl). rewrite <- app_assoc.
  eapply parses_bind; [apply parses_readInt8_byte|]. eapply parses_bind; [exact Hsz|].
  eapply parses_bind; [apply Hrt; lia|]. cbn [content_string assert_string].
  eapply (parses_bind (mret t) _ [] _ t); [apply parses_ret|].
  assert ((2 * Z.of_nat n + tagSize + hasContent c =? 0) || String.eqb t "" = false) as ->.
  { rewrite (proj2 (Z.eqb_neq _ 0)) by (unfold tagSize; lia). by rewrite (proj2 (String.eqb_neq _ _)). }
  eapply parses_bind; [|apply Hrc; lia].
  unfold tagSize in *. rewrite Hsh, Nat2Z.id. apply (Hra f). lia.
Qed.

Lemma codec_ok : (forall v, value_ok v) /\ (forall n, node_ok n).
Proof.
  assert (HString : forall s, value_ok (VString s)).
  { intros s Hv. apply (scalar_ok (VString s) s); try done. by apply Z.ltb_lt. }
  assert (HInt : forall z, value_ok (VInt z)).
  { intros z. apply (scalar_ok (VInt z) (fmt_d z)); try done. apply len_fmt_d. }
  assert (HBool : forall b, value_ok (VBool b)).
  { intros b. apply (scalar_ok (VBool b) (fmt_bool b)); try done. by destruct b. }
  assert (HNil : value_ok VNil).
  { intros _. exists [ListEmpty]. split; [done|]. split; [discriminate|].
    intros [|f] asString Hf; [simpl in Hf; lia|]. apply read_step. exact (parses_ret VNil). }
  assert (HOther : value_ok VOther) by done.
  split.
  - exact (value_nested_ind value_ok node_ok HNil jid_ok HString HInt HBool bytes_ok nodes_ok HOther readNode_ok).
  - exact (node_nested_ind value_ok node_ok HNil jid_ok HString HInt HBool bytes_ok nodes_ok HOther readNode_ok).
Qed.

Lemma Marshal_Unmarshal n :
  valid_node n = true ->
  exists data, Marshal n = Ret (0 :: data) /\ Unmarshal data = POk (norm_node n) [].
Proof.
  intros Hv. destruct (proj2 codec_ok n Hv) as (l & Hl & Hr).
  exists l. split; [unfold Marshal; by rewrite Hl|].
  unfold Unmarshal. specialize (Hr (S (length l)) ltac:(lia) []). rewrite app_nil_r in Hr. by rewrite Hr.
Qed.

(** C2. The round trip of the binary XML format: every valid node is encoded,
    behind the byte that [Unpack] takes off, and decoding the encoding gives
    the node back, up to what the format does not carry. *)
Theorem binary_roundtrip zlib n :
  valid_node n = true ->
  exists data, Marshal n = Ret (0 :: data) /\ Unpack zlib (0 :: data) = Ret (inr data) /\
    Unmarshal data = POk (norm_node n) [].
Proof.
  intros Hv. destruct (Marshal_Unmarshal n Hv) as (data & Hm & Hu). by exists data.
Qed.

(** A request with a JID, a number, a child node and bytes. *)
Definition demo_node : node :=
  mkNode "iq" [("id", VInt 123); ("to", VJID (mkJID "4917" 0 2 0 DefaultUserServer)); ("type", VString "get")]
    (VNodes [mkNode "ping" [] VNil; mkNode "enc" [("v", VString "2")] (VBytes "secret")]).

Lemma binary_roundtrip_witness :
  exists data, Marshal demo_node = Ret (0 :: data) /\ Unpack (fun _ => inl "") (0 :: data) = Ret (inr data) /\
    Unmarshal data = POk (norm_node demo_node) [].
Proof. apply (binary_roundtrip (fun _ => inl "") demo_node). vm_compute. reflexivity. Defined.

(** Two valid nodes with the same encoding are the same up to the format. *)
Lemma Marshal_injective n1 n2 :
  valid_node n1 = true -> valid_node n2 = true -> Marshal n1 = Marshal n2 -> norm_node n1 = norm_node n2.
Proof.
  intros H1 H2 He. destruct (Marshal_Unmarshal n1 H1) as (d1 & Hm1 & Hu1).
  destruct (Marshal_Unmarshal n2 H2) as (d2 & Hm2 & Hu2). rewrite He, Hm2 in Hm1.
  injection Hm1 as ->. rewrite Hu1 in Hu2. by injection Hu2.
Qed.

(** ** Termination *)

(** A reader that, on at most [n] bytes, does not run out of fuel and leaves no
    more bytes than it was given. *)
Definition total {A} (n : nat) (p : Reader A) : Prop :=
  forall l, (length l <= n)%nat ->
    match p l with Fuel => False | POk _ rest => (length rest <= length l)%nat | _ => True end.

Lemma total_ret {A} n (a : A) : total n (mret a).
Proof. intros l _. simpl. lia. Qed.
Lemma total_fail {A} n e : total (A:=A) n (rfail e).
Proof. done. Qed.
Lemma total_panic {A} n msg : total (A:=A) n (rpanic msg).
Proof. done. Qed.
Lemma total_bind {A B} n (p : Reader A) (f : A -> Reader B) :
  total n p -> (forall a, total n (f a)) -> total n (p ≫= f).
Proof.
  intros Hp Hf l Hl. specialize (Hp l Hl). unfold mbind, Reader_bind. destruct (p l) as [a rest| | |]; try done.
  specialize (Hf a rest ltac:(lia)). destruct (f a rest); try done. lia.
Qed.
Lemma total_readByte n : total n readByte.
Proof. intros [|b l] Hl; simpl; [done|lia]. Qed.
Lemma total_readRaw n k : total n (readRaw k).
Proof.
  intros l Hl. unfold readRaw. destruct (_ <? _); [done|]. rewrite length_drop. lia.
Qed.
Lemma total_assert_string n v : total n (assert_string v).
Proof. destruct v; apply total_panic || apply total_ret. Qed.
Lemma total_lift_error {A} n (r : decode_error + A) : total n (lift_error r).
Proof. destruct r; [apply total_fail|apply total_ret]. Qed.

Create HintDb total.
#[export] Hint Resolve total_ret total_fail total_panic total_readByte total_readRaw
  total_assert_string total_lift_error : total.

(** Splits a reader into its steps. *)
Ltac total_steps :=
  repeat first
    [ progress auto with total
    | apply total_bind; [|intros ?]
    | match goal with |- total _ (match ?x with _ => _ end) => destruct x end ].

Lemma total_readIntN n k le : total n (readIntN k le).
Proof. unfold readIntN. total_steps. Qed.
#[export] Hint Resolve total_readIntN : total.
Lemma total_readInt8 n le : total n (readInt8 le).
Proof. apply total_readIntN. Qed.
Lemma total_readInt16 n le : total n (readInt16 le).
Proof. apply total_readIntN. Qed.
Lemma total_readInt32 n le : total n (readInt32 le).
Proof. apply total_readIntN. Qed.
Lemma total_readInt20 n : total n readInt20.
Proof. unfold readInt20. total_steps. Qed.
#[export] Hint Resolve total_readInt8 total_readInt16 total_readInt32 total_readInt20 : total.

Lemma total_readPairs n tag k : total n (readPairs tag k).
Proof. induction k as [|k IH]; cbn [readPairs]; total_steps. Qed.
#[export] Hint Resolve total_readPairs : total.
Lemma total_readPacked8 n tag : total n (readPacked8 tag).
Proof. unfold readPacked8. total_steps. Qed.
Lemma total_readListSize n tag : total n (readListSize tag).
Proof. unfold readListSize. total_steps. Qed.
Lemma total_readBytesOrString n k b : total n (readBytesOrString k b).
Proof. unfold readBytesOrString. total_steps. Qed.
#[export] Hint Resolve total_readPacked8 total_readListSize total_readBytesOrString : total.

Section TotalRecursive.
Context (n : nat) (rd : bool -> Reader value).
Hypothesis rd_total : forall b, total n (rd b).
#[local] Hint Resolve rd_total : total.

Lemma total_readAttributes k m : total n (readAttributes rd k m).
Proof. revert m. induction k as [|k IH]; intros m; cbn [readAttributes]; total_steps. Qed.
#[local] Hint Resolve total_readAttributes : total.
Lemma total_readNode : total n (readNode rd).
Proof. unfold readNode. total_steps. Qed.
#[local] Hint Resolve total_readNode : total.
Lemma total_readNodes k : total n (readNodes rd k).
Proof. induction k as [|k IH]; cbn [readNodes]; total_steps. Qed.
#[local] Hint Resolve total_readNodes : total.

Lemma total_readTagged b tag : total n (readTagged rd b tag).
Proof.
  unfold readTagged, readList, readFBJID, readInteropJID, readJIDPair, readADJID. total_steps.
Qed.
End TotalRecursive.

Lemma total_read f n b : (n < f)%nat -> total n (read f b).
Proof.
  revert n b. induction f as [|f IH]; intros n b Hn; [lia|]. cbn [read].
  intros [|tag l] Hl; [done|]. unfold mbind, Reader_bind, readByte. simpl in Hl.
  pose proof (total_readTagged (length l) (read f) (fun b => IH (length l) b ltac:(lia)) b tag l
    ltac:(lia)) as H.
  destruct (readTagged (read f) b tag l); try done. simpl. lia.
Qed.

(** C35. Decoding terminates on every input, however deep its lists nest: the
    length of the data is fuel enough for every call of [read]. *)
Theorem Unmarshal_terminates data : Unmarshal data <> Fuel.
Proof.
  unfold Unmarshal.
  pose proof (total_readNode (length data) (read (S (length data)))
    (fun b => total_read (S (length data)) (length data) b ltac:(lia)) data ltac:(lia)) as H.
  destruct (readNode (read (S (length data))) data) as [n [|]| | |]; done.
Qed.

(** Not every input is answered with an error: a packed string of no pairs
    with the odd flag, a user that is a list, a tag that is absent. *)
Lemma Unmarshal_panics :
  Unmarshal [List8; 1; Nibble8; 128] = PPanic "slice bounds out of range" /\
  Unmarshal [List8; 2; 19; ADJID; 0; 0; ListEmpty] = PPanic "interface conversion" /\
  Unmarshal [List8; 1; ListEmpty] = PPanic "interface conversion".
Proof. split_and!; vm_compute; reflexivity. Qed.
