(* ===== verification/FrameSocket.v ===== *)
(** * [whatsmeow/socket/framesocket.go] and [constants.go]

    [FrameSocket]: frames with a length of three bytes, cut out of the messages
    of a websocket.  Bytes are integers from 0 to 255.  The connection is
    [true] when there is one; dialing, and the write and the close of the
    connection, answer with an argument.  The frames that [processData] sends on
    its channel are returned, in order. *)
From S2P Require Import Prelude GoStrings Token BinaryNode.

Definition WAMagicValue : Z := 6.
Definition WAConnHeader : list Z := [87; 65; WAMagicValue; DictVersion].
Definition FrameMaxSize : Z := Z.shiftl 1 24.
Definition FrameLengthSize : nat := 3.

Record FrameSocket : Type := mkFrameSocket {
  conn : bool;
  Header : option (list Z);
  closed : bool;
  OnDisconnect : bool;
  incomingLength : Z;
  receivedLength : Z;
  incoming : option (list Z);
  partialHeader : option (list Z) }.
#[export] Instance eta_FrameSocket : Eta FrameSocket := fun r =>
  mkFrameSocket (conn r) (Header r) (closed r) (OnDisconnect r) (incomingLength r)
    (receivedLength r) (incoming r) (partialHeader r).

Definition NewFrameSocket : FrameSocket :=
  mkFrameSocket false (Some WAConnHeader) false false 0 0 None None.

Definition IsConnected (fs : FrameSocket) : bool := conn fs.

(** The callback that [Close] starts in a goroutine gets whether the remote
    side closed. *)
Definition Close (code : Z) (fs : FrameSocket) : FrameSocket * list bool :=
  if negb (conn fs) then (fs, [])
  else
    let fs := fs <| conn := false |> in
    let fs := fs <| closed := true |> in
    (fs, if OnDisconnect fs then [code =? 0] else []).

Inductive frame_error : Type :=
| ErrFrameTooLarge
| ErrSocketClosed
| ErrSocketAlreadyOpen
| ErrDialFailed
| ErrWrite (msg : string).

Definition Connect (dialed : bool) (fs : FrameSocket) : option frame_error * FrameSocket :=
  if conn fs then (Some ErrSocketAlreadyOpen, fs)
  else if negb dialed then (Some ErrDialFailed, fs)
  else (None, fs <| conn := true |>).

Definition frameLength (dataLength : Z) : list Z :=
  [uint8 (Z.shiftr dataLength 16); uint8 (Z.shiftr dataLength 8); uint8 dataLength].

(** What is handed to the connection, and the answer of its write. *)
Definition SendFrame (write_error : option string) (data : list Z) (fs : FrameSocket)
  : option frame_error * option (list Z) * FrameSocket :=
  if negb (conn fs) then (Some ErrSocketClosed, None, fs)
  else
    let dataLength := Z.of_nat (length data) in
    if dataLength >=? FrameMaxSize then (Some ErrFrameTooLarge, None, fs)
    else
      let wholeFrame := default [] (Header fs) ++ frameLength dataLength ++ data in
      (ErrWrite <$> write_error, Some wholeFrame, fs <| Header := None |>).

Definition frameComplete (fs : FrameSocket) : FrameSocket * list Z :=
  let data := default [] (incoming fs) in
  let fs := fs <| incoming := None |> in
  let fs := fs <| partialHeader := None |> in
  let fs := fs <| incomingLength := 0 |> in
  (fs <| receivedLength := 0 |>, data).

(** [copy(dst[at:], src)] *)
Definition copy_at (at_ : nat) (src dst : list Z) : list Z :=
  take at_ dst ++ take (length dst - at_) src ++ drop (at_ + length src) dst.

(** One turn of the loop of [processData]: the socket, the rest of the message
    and the frame that is complete, if there is one. *)
Definition processStep (fs : FrameSocket) (msg : list Z)
  : outcome (FrameSocket * list Z * list (list Z)) :=
  let '(fs, msg) := match partialHeader fs with
                    | Some header => (fs <| partialHeader := None |>, header ++ msg)
                    | None => (fs, msg)
                    end in
  match incoming fs with
  | None =>
      match msg with
      | b0 :: b1 :: b2 :: rest =>
          let length_ := Z.shiftl b0 16 + Z.shiftl b1 8 + b2 in
          let fs := fs <| incomingLength := length_ |> in
          let fs := fs <| receivedLength := Z.of_nat (length msg) |> in
          if Z.of_nat (length rest) >=? length_ then
            let fs := fs <| incoming := Some (take (Z.to_nat length_) rest) |> in
            let '(fs, frame) := frameComplete fs in
            Ret (fs, drop (Z.to_nat length_) rest, [frame])
          else
            Ret (fs <| incoming := Some (copy_at 0 rest (repeat 0 (Z.to_nat length_))) |>, [], [])
      | _ => Ret (fs <| partialHeader := Some msg |>, [], [])
      end
  | Some buffer =>
      if receivedLength fs + Z.of_nat (length msg) >=? incomingLength fs then
        let missing := incomingLength fs - receivedLength fs in
        if missing <? 0 then Panic "slice bounds out of range"
        else
          let buffer := copy_at (Z.to_nat (receivedLength fs)) (take (Z.to_nat missing) msg) buffer in
          let '(fs, frame) := frameComplete (fs <| incoming := Some buffer |>) in
          Ret (fs, drop (Z.to_nat missing) msg, [frame])
      else
        let buffer := copy_at (Z.to_nat (receivedLength fs)) msg buffer in
        let fs := fs <| incoming := Some buffer |> in
        Ret (fs <| receivedLength := receivedLength fs + Z.of_nat (length msg) |>, [], [])
  end.

(** The loop; [None] when the fuel runs out. *)
Fixpoint processLoop (fuel : nat) (fs : FrameSocket) (msg : list Z)
  : outcome (option (FrameSocket * list (list Z))) :=
  match msg with
  | [] => Ret (Some (fs, []))
  | _ =>
      match fuel with
      | O => Ret None
      | S fuel =>
          '(fs, msg, frames) ← processStep fs msg;
          r ← processLoop fuel fs msg;
          Ret (match r with Some (fs, more) => Some (fs, frames ++ more) | None => None end)
      end
  end.

(** Twice the bytes at hand, and one turn for a frame in progress: see
    [processData_terminates]. *)
Definition loopFuel (fs : FrameSocket) (msg : list Z) : nat :=
  2 * (length (default [] (partialHeader fs)) + length msg) +
  (if incoming fs then 1 else 0).

Definition processData (msg : list Z) (fs : FrameSocket)
  : outcome (option (FrameSocket * list (list Z))) := processLoop (loopFuel fs msg) fs msg.

(** [readPump]: the binary messages of the connection, one after the other. *)
Fixpoint readPump (messages : list (bool * list Z)) (fs : FrameSocket)
  : outcome (option (FrameSocket * list (list Z))) :=
  match messages with
  | [] => Ret (Some (fs, []))
  | (binary, data) :: messages =>
      if negb binary then readPump messages fs
      else
        r ← processData data fs;
        match r with
        | None => Ret None
        | Some (fs, frames) =>
            r ← readPump messages fs;
            Ret (match r with Some (fs, more) => Some (fs, frames ++ more) | None => None end)
        end
  end.

(** ** Termination *)

Lemma length_copy_at at_ src dst :
  (at_ + length src <= length dst)%nat -> length (copy_at at_ src dst) = length dst.
Proof.
  intros. unfold copy_at. rewrite !length_app, !length_take, length_drop. lia.
Qed.

(** Every turn lowers the measure that [loopFuel] computes. *)
Lemma processStep_measure fs msg fs' msg' frames :
  msg <> [] -> processStep fs msg = Ret (fs', msg', frames) ->
  msg' = [] \/ (loopFuel fs' msg' < loopFuel fs msg)%nat.
Proof.
  intros Hm. unfold processStep, loopFuel.
  set (p := match partialHeader fs with Some h => _ | None => _ end).
  assert (exists ph, p = (fs <| partialHeader := None |>, ph ++ msg) /\
    default [] (partialHeader fs) = ph) as (ph & -> & ->).
  { subst p. destruct fs as [? ? ? ? ? ? ? [h|]]; simpl; [by exists h|by exists []]. }
  cbn [incoming partialHeader]. replace (length ph + length msg)%nat with (length (ph ++ msg))
    by apply length_app.
  destruct fs as [c h cl od il rl [buffer|] ph0]; cbn -[Z.shiftl copy_at].
  - destruct (Z.geb_spec (rl + Z.of_nat (length (ph ++ msg))) il).
    + destruct (Z.ltb_spec (il - rl) 0); [done|]. intros [= <- <- <-]. right.
      cbn. rewrite length_drop. lia.
    + intros [= <- <- <-]. by left.
  - destruct (ph ++ msg) as [|b0 [|b1 [|b2 rest]]] eqn:E; cbn -[Z.shiftl copy_at];
      try (intros [= <- <- <-]; by left).
    set (n := Z.shiftl b0 16 + Z.shiftl b1 8 + b2).
    destruct (Z.geb_spec (Z.of_nat (length rest)) n); intros [= <- <- <-]; [right|by left].
    cbn. rewrite length_drop. lia.
Qed.

Lemma processLoop_enough fuel fs msg :
  (loopFuel fs msg <= fuel)%nat -> processLoop fuel fs msg <> Ret None.
Proof.
  revert fs msg. induction fuel as [|fuel IH]; intros fs msg Hf; destruct msg as [|b msg]; try done.
  { unfold loopFuel in Hf. simpl in Hf. lia. }
  cbn [processLoop]. unfold mbind, outcome_bind.
  destruct (processStep fs (b :: msg)) as [[[fs' msg'] frames]|] eqn:E; [|done].
  apply processStep_measure in E; [|done]. specialize (IH fs' msg').
  destruct (processLoop fuel fs' msg') as [[[? ?]|]|] eqn:E2; try done.
  destruct E as [-> |E]; [destruct fuel; discriminate|]. exfalso. apply IH; [lia|done].
Qed.

(** The loop of [processData] ends on every message and in every state. *)
Theorem processData_terminates msg fs : processData msg fs <> Ret None.
Proof. by apply processLoop_enough. Qed.

(** More fuel than enough changes nothing. *)
Lemma processLoop_fuel fuel fuel' fs msg :
  processLoop fuel fs msg <> Ret None -> (fuel <= fuel')%nat ->
  processLoop fuel' fs msg = processLoop fuel fs msg.
Proof.
  revert fuel' fs msg. induction fuel as [|fuel IH]; intros fuel' fs msg Hr Hf;
    destruct msg as [|b msg]; try (by destruct fuel'). destruct fuel' as [|fuel']; [lia|].
  cbn [processLoop] in *. unfold mbind, outcome_bind in *.
  destruct (processStep fs (b :: msg)) as [[[fs' msg'] frames]|]; [|done].
  rewrite (IH fuel'); [done| |lia]. intros E. by rewrite E in Hr.
Qed.

Lemma processData_loop fuel msg fs r :
  processLoop fuel fs msg = r -> r <> Ret None -> processData msg fs = r.
Proof.
  intros <- Hr. unfold processData. destruct (decide (fuel <= loopFuel fs msg)%nat).
  - by apply processLoop_fuel.
  - symmetry. apply processLoop_fuel; [by apply processLoop_enough|lia].
Qed.

(** ** Reassembly *)

Definition frame_bytes (f : list Z) : list Z := frameLength (Z.of_nat (length f)) ++ f.
Definition stream (frames : list (list Z)) : list Z := concat (map frame_bytes frames).
Definition fits (f : list Z) : Prop := Z.of_nat (length f) < FrameMaxSize.

(** Between two frames, with the first bytes of a length at hand. *)
Definition resting (ph : list Z) (fs : FrameSocket) : FrameSocket :=
  mkFrameSocket (conn fs) (Header fs) (closed fs) (OnDisconnect fs) 0 0 None
    (match ph with [] => None | _ => Some ph end).

Lemma length_bytes_value n :
  0 <= n < FrameMaxSize ->
  Z.shiftl (uint8 (Z.shiftr n 16)) 16 + Z.shiftl (uint8 (Z.shiftr n 8)) 8 + uint8 n = n.
Proof.
  change FrameMaxSize with (2 ^ 24). intros Hn. unfold uint8.
  rewrite !Z.shiftl_mul_pow2, !Z.shiftr_div_pow2 by lia. div_lia.
Qed.

Lemma resting_join ph fs msg :
  match partialHeader (resting ph fs) with
  | Some header => ((resting ph fs) <| partialHeader := None |>, header ++ msg)
  | None => (resting ph fs, msg)
  end = (resting [] fs, ph ++ msg).
Proof. by destruct ph. Qed.

(** A whole frame at the front is cut off. *)
Lemma step_frame ph fs msg f rest :
  fits f -> ph ++ msg = frame_bytes f ++ rest ->
  processStep (resting ph fs) msg = Ret (resting [] fs, rest, [f]).
Proof.
  intros Hf He. unfold processStep. rewrite resting_join, He. cbn [resting incoming].
  unfold frame_bytes, frameLength. cbn [app].
  rewrite length_bytes_value by (unfold fits in Hf; lia). rewrite length_app.
  destruct (Z.geb_spec (Z.of_nat (length f + length rest)) (Z.of_nat (length f))); [|lia].
  rewrite Nat2Z.id. cbn. by rewrite take_app_length, drop_app_length.
Qed.

Lemma step_tail ph fs msg tail :
  msg <> [] -> (length tail < FrameLengthSize)%nat -> ph ++ msg = tail ->
  processStep (resting ph fs) msg = Ret (resting tail fs, [], []).
Proof.
  intros Hm Ht He. unfold processStep. rewrite resting_join, He. cbn [resting incoming].
  unfold FrameLengthSize in Ht. destruct tail as [|b0 [|b1 [|b2 tail]]]; simpl in *; try lia; try done.
  destruct ph, msg; done.
Qed.

Lemma reassemble frames : forall ph msg tail fs,
  Forall fits frames -> (length tail < FrameLengthSize)%nat ->
  (msg = [] -> frames = []) -> ph ++ msg = stream frames ++ tail ->
  exists fuel, processLoop fuel (resting ph fs) msg = Ret (Some (resting tail fs, frames)).
Proof.
  induction frames as [|f frames IH]; intros ph msg tail fs Hfit Ht Hm He.
  - simpl in He. destruct msg as [|b msg].
    { rewrite app_nil_r in He. subst. by exists 0%nat. }
    exists 1%nat. cbn [processLoop]. rewrite (step_tail _ _ _ tail) by done. done.
  - inversion Hfit as [|? ? Hf Hfs]; subst. cbn [stream map concat] in He. rewrite <- app_assoc in He.
    change (concat (map frame_bytes frames)) with (stream frames) in He.
    destruct (IH [] (stream frames ++ tail) tail fs Hfs Ht) as [fuel Hl]; [|done|].
    { destruct frames; [done|]. unfold stream, frame_bytes, frameLength. done. }
    exists (S fuel). destruct msg as [|b msg]; [by specialize (Hm eq_refl)|].
    cbn [processLoop]. rewrite (step_frame ph fs _ f (stream frames ++ tail)) by done.
    unfold mbind, outcome_bind. by rewrite Hl.
Qed.

(** The messages of a websocket that cut a stream of frames between two frames
    or within a length, but never within the data of a frame. *)
Inductive cut : list Z -> list (list Z) -> list (list Z) -> list Z -> Prop :=
| cut_end ph : cut ph [] [] ph
| cut_message ph msg frames tail msgs more end_ :
    msg <> [] -> Forall fits frames -> (length tail < FrameLengthSize)%nat ->
    ph ++ msg = stream frames ++ tail -> cut tail msgs more end_ ->
    cut ph (msg :: msgs) (frames ++ more) end_.

(** C23. The frames come out of the websocket as they went in, however many of them
    a message holds and wherever the lengths are cut, as long as the data of no
    frame is cut. *)
Theorem frames_reassembled fs ph msgs frames end_ :
  cut ph msgs frames end_ ->
  readPump (map (fun m => (true, m)) msgs) (resting ph fs) = Ret (Some (resting end_ fs, frames)).
Proof.
  induction 1 as [ph|ph msg frames tail msgs more end_ Hm Hf Ht He _ IH]; [done|].
  cbn [map readPump negb].
  destruct (reassemble frames ph msg tail fs Hf Ht) as [fuel Hl]; [done|done|].
  rewrite (processData_loop _ _ _ _ Hl) by done.
  unfold mbind, outcome_bind. by rewrite IH.
Qed.

Lemma frames_reassembled_witness :
  readPump [(true, [0; 0; 2; 7; 8; 0; 0]); (true, [1; 9; 0])] (resting [] NewFrameSocket)
  = Ret (Some (resting [0] NewFrameSocket, [[7; 8]; [9]])).
Proof.
  apply (frames_reassembled NewFrameSocket [] [[0; 0; 2; 7; 8; 0; 0]; [1; 9; 0]] [[7; 8]; [9]] [0]).
  assert (fits [7; 8] /\ fits [9]) as [? ?] by (vm_compute; auto).
  apply (cut_message [] [0; 0; 2; 7; 8; 0; 0] [[7; 8]] [0; 0] [[1; 9; 0]] [[9]] [0]);
    [done|by repeat constructor|simpl; unfold FrameLengthSize; lia|done|].
  apply (cut_message [0; 0] [1; 9; 0] [[9]] [0] [] [] [0]);
    [done|by repeat constructor|simpl; unfold FrameLengthSize; lia|done|constructor].
Defined.

(** The state within a frame of [L] bytes, [n] of which are there.  The count
    of received bytes includes the three of the length. *)
Definition midway (f : list Z) (n : nat) (fs : FrameSocket) : FrameSocket :=
  mkFrameSocket (conn fs) (Header fs) (closed fs) (OnDisconnect fs) (Z.of_nat (length f))
    (Z.of_nat (n + 3)) (Some (take n f ++ repeat 0 (length f - n))) None.

Lemma step_begin fs f n :
  fits f -> (n < length f)%nat ->
  processData (frameLength (Z.of_nat (length f)) ++ take n f) (resting [] fs)
  = Ret (Some (midway f n fs, [])).
Proof.
  intros Hf Hn. apply (processData_loop 1); [|done]. unfold frameLength.
  cbn [app processLoop]. unfold processStep. cbn [resting partialHeader incoming].
  rewrite length_bytes_value by (unfold fits in Hf; lia).
  rewrite length_take. replace (n `min` length f)%nat with n by lia.
  destruct (Z.geb_spec (Z.of_nat n) (Z.of_nat (length f))); [lia|].
  rewrite Nat2Z.id. unfold midway, copy_at. rewrite repeat_length.
  change (take 0 (repeat 0 (length f))) with (@nil Z). cbn [app].
  rewrite (take_ge (take n f)) by (rewrite length_take; lia). rewrite length_take.
  replace (0 + n `min` length f)%nat with n by lia.
  replace (drop n (repeat 0 (length f))) with (repeat 0 (length f - n)); [cbn|].
  { rewrite length_take. replace (n `min` length f)%nat with n by lia.
    by replace (Z.of_nat (S (S (S n)))) with (Z.of_nat (n + 3)) by lia. }
  replace (length f) with (n + (length f - n))%nat at 2 by lia.
  rewrite repeat_app. by rewrite drop_app_length' by (by rewrite repeat_length).
Qed.

(** Three bytes at the end of a message begin a frame, an empty one or not. *)
Lemma step_length fs x y z :
  exists fs' more, processStep (resting [] fs) [x; y; z] = Ret (fs', [], more).
Proof.
  unfold processStep. cbn [resting partialHeader incoming length].
  destruct (Z.geb_spec (Z.of_nat 0) (Z.shiftl x 16 + Z.shiftl y 8 + z)); [|by do 2 eexists].
  cbn [frameComplete]. rewrite drop_nil. by do 2 eexists.
Qed.

(** A frame whose data is cut between two messages is not reassembled: the
    bytes of the length are counted as data, so when fewer than three bytes are
    missing the second message panics, and otherwise the frame has three zero
    bytes at the cut instead of its last three, which are taken for the length
    of the frame that follows. *)
Theorem split_frame_corrupted fs f n :
  fits f -> (n < length f)%nat ->
  let r := readPump [(true, frameLength (Z.of_nat (length f)) ++ take n f); (true, drop n f)]
             (resting [] fs) in
  if decide (length f < n + 3)%nat then panics r
  else exists fs' more,
    r = Ret (Some (fs', (take n f ++ [0; 0; 0] ++ take (length f - n - 3) (drop n f)) :: more)).
Proof.
  intros Hf Hn r. subst r. cbn [readPump negb]. rewrite step_begin by done.
  unfold mbind at 1, outcome_bind at 1. cbn [readPump negb].
  destruct (drop n f) as [|b rest] eqn:E; [apply (f_equal length) in E; rewrite length_drop in E; simpl in E; lia|].
  assert (length (b :: rest) = length f - n)%nat as HL by (by rewrite <- E, length_drop).
  assert (processStep (midway f n fs) (b :: rest) =
    if decide (length f < n + 3)%nat then Panic "slice bounds out of range"
    else Ret (resting [] fs, drop (length f - n - 3) (b :: rest),
              [take n f ++ [0; 0; 0] ++ take (length f - n - 3) (b :: rest)])) as Hstep.
  { unfold processStep. cbn [midway partialHeader incoming receivedLength incomingLength].
    rewrite HL. destruct (Z.geb_spec (Z.of_nat (n + 3) + Z.of_nat (length f - n)) (Z.of_nat (length f))); [|lia].
    destruct (Z.ltb_spec (Z.of_nat (length f) - Z.of_nat (n + 3)) 0), (decide _); try lia; [done|].
    cbn [frameComplete]. unfold copy_at. cbn -[take drop app repeat].
    replace (Z.to_nat (Z.of_nat (length f) - Z.of_nat (n + 3))) with (length f - n - 3)%nat by lia.
    rewrite Nat2Z.id, length_app, length_take, repeat_length.
    replace (n `min` length f + (length f - n) - (n + 3))%nat with (length f - n - 3)%nat by lia.
    rewrite take_take, Nat.min_id, (drop_ge (take n f ++ repeat 0 (length f - n))), app_nil_r
      by (rewrite length_app, repeat_length, !length_take, HL; lia).
    rewrite take_app_ge by (rewrite length_take; lia). rewrite length_take.
    replace (n + 3 - n `min` length f)%nat with 3%nat by lia.
    assert (take 3 (repeat 0 (length f - n)) = [0; 0; 0]) as ->
      by (replace (length f - n)%nat with (3 + (length f - n - 3))%nat by lia; reflexivity).
    by rewrite <- app_assoc. }
  destruct (decide _) as [Hlt|Hge].
  - exists "slice bounds out of range". unfold processData.
    destruct (loopFuel (midway f n fs) (b :: rest)) eqn:Hfuel; [unfold loopFuel in Hfuel; simpl in Hfuel; lia|].
    cbn [processLoop]. by rewrite Hstep.
  - assert (length (drop (length f - n - 3) (b :: rest)) = 3%nat) as H3 by (rewrite length_drop; lia).
    destruct (drop (length f - n - 3) (b :: rest)) as [|x [|y [|z [|? ?]]]] eqn:Ed; try done.
    destruct (step_length fs x y z) as (fs' & more & Hs). exists fs', more.
    unfold mbind, outcome_bind.
    rewrite (processData_loop 2 (b :: rest) (midway f n fs) (Ret (Some (fs', (take n f ++ [0; 0; 0] ++ take (length f - n - 3) (b :: rest)) :: more)))); [by rewrite app_nil_r| |done].
    cbn [processLoop]. rewrite Hstep. unfold mbind, outcome_bind. cbn [processLoop].
    rewrite Hs. by rewrite app_nil_r.
Qed.

Lemma split_frame_corrupted_witness :
  exists fs' more,
    readPump [(true, [0; 0; 5; 1]); (true, [2; 3; 4; 5])] NewFrameSocket
    = Ret (Some (fs', [1; 0; 0; 0; 2] :: more)).
Proof.
  assert (fits [1; 2; 3; 4; 5]) as Hf by (vm_compute; reflexivity).
  exact (split_frame_corrupted NewFrameSocket [1; 2; 3; 4; 5] 1 Hf ltac:(simpl; lia)).
Defined.

(** ** Sending *)

(** The messages written for the frames, as long as the writes succeed. *)
Fixpoint writes (frames : list (list Z)) (fs : FrameSocket) : list (list Z) :=
  match frames with
  | [] => []
  | f :: frames =>
      match SendFrame None f fs with
      | (_, Some w, fs) => w :: writes frames fs
      | (_, None, fs) => writes frames fs
      end
  end.

Lemma SendFrame_fits f fs :
  conn fs = true -> fits f ->
  SendFrame None f fs = (None, Some (default [] (Header fs) ++ frame_bytes f), fs <| Header := None |>).
Proof.
  intros Hc Hf. unfold SendFrame, fits in *. rewrite Hc. cbn [negb].
  destruct (Z.geb_spec (Z.of_nat (length f)) FrameMaxSize); [lia|]. reflexivity.
Qed.

Lemma writes_headerless frames fs :
  conn fs = true -> Header fs = None -> Forall fits frames -> writes frames fs = map frame_bytes frames.
Proof.
  intros Hc Hh Hf. revert fs Hc Hh. induction Hf as [|f frames Hf _ IH]; intros fs Hc Hh; [done|].
  cbn [writes]. rewrite SendFrame_fits, Hh by done. cbn [default app map]. f_equal. by apply IH.
Qed.

Lemma readPump_frame f msgs frames peer :
  fits f ->
  readPump (map (fun m => (true, m)) msgs) (resting [] peer) = Ret (Some (resting [] peer, frames)) ->
  readPump (map (fun m => (true, m)) (frame_bytes f :: msgs)) (resting [] peer)
    = Ret (Some (resting [] peer, [f] ++ frames)).
Proof.
  intros Hf Hr. cbn [map readPump negb].
  assert (processData (frame_bytes f) (resting [] peer) = Ret (Some (resting [] peer, [f]))) as ->.
  { destruct (reassemble [f] [] (frame_bytes f) [] peer) as [fuel Hl]; try done.
    - by repeat constructor.
    - unfold FrameLengthSize. simpl. lia.
    - unfold stream. cbn [map concat app]. by rewrite !app_nil_r.
    - by apply (processData_loop fuel). }
  unfold mbind, outcome_bind. by rewrite Hr.
Qed.

(** What one side sends the other receives: after the connection header, which
    is written once, before the first frame, the messages that a new connected
    socket writes are read back as the frames that were sent. *)
Theorem frames_roundtrip f frames peer :
  Forall fits (f :: frames) ->
  exists w, writes (f :: frames) (NewFrameSocket <| conn := true |>)
              = (WAConnHeader ++ w) :: map frame_bytes frames /\
    readPump (map (fun m => (true, m)) (w :: map frame_bytes frames)) (resting [] peer)
      = Ret (Some (resting [] peer, f :: frames)).
Proof.
  intros Hfs. inversion Hfs as [|? ? Hf Hfs']; subst. exists (frame_bytes f). split.
  - cbn [writes]. rewrite SendFrame_fits by done. f_equal. by apply writes_headerless.
  - change (f :: frames) with ([f] ++ frames). clear Hfs.
    revert f Hf. induction Hfs' as [|g frames Hg Hfs IH]; intros f Hf.
    + apply (readPump_frame f [] [] peer Hf). done.
    + apply (readPump_frame f (map frame_bytes (g :: frames)) (g :: frames) peer Hf). by apply (IH g).
Qed.

Lemma frames_roundtrip_witness :
  exists w, writes [[1; 2]; []] (NewFrameSocket <| conn := true |>)
              = (WAConnHeader ++ w) :: map frame_bytes [[]] /\
    readPump (map (fun m => (true, m)) (w :: map frame_bytes [[]])) (resting [] NewFrameSocket)
      = Ret (Some (resting [] NewFrameSocket, [[1; 2]; []])).
Proof.
  apply (frames_roundtrip [1; 2] [[]] NewFrameSocket). repeat constructor; vm_compute; reflexivity.
Defined.
