(* ===== verification/Noise.v ===== *)
(** * [whatsmeow/socket/noisehandshake.go], [noisesocket.go] and [handshake.go]

    The Noise handshake, the encrypted socket that it ends in, and the check of
    the server's certificate.  The primitives (AES-GCM, SHA-256, HKDF, X25519,
    the signatures) and the protocol buffers are arguments. *)
From S2P Require Import Prelude GoTime GoStrings BinaryNode FrameSocket.

(** ** [noisesocket.go] *)

(** [binary.BigEndian.PutUint32(iv[8:], count)] *)
Definition generateIV (count : Z) : Bytes :=
  [0; 0; 0; 0; 0; 0; 0; 0;
   uint8 (Z.shiftr count 24); uint8 (Z.shiftr count 16); uint8 (Z.shiftr count 8); uint8 count].

Section Primitives.
(** A prepared cipher, and its two operations. *)
Context {AEAD : Type} (Seal : AEAD -> Bytes -> Bytes -> Bytes -> Bytes).
Context (Open : AEAD -> Bytes -> Bytes -> Bytes -> option Bytes).

Record NoiseSocket : Type := mkNoiseSocket {
  writeKey : AEAD;
  readKey : AEAD;
  writeCounter : Z;
  readCounter : Z;
  destroyed : bool }.
#[export] Instance eta_NoiseSocket : Eta NoiseSocket := fun r =>
  mkNoiseSocket (writeKey r) (readKey r) (writeCounter r) (readCounter r) (destroyed r).

Definition newNoiseSocket (writeKey readKey : AEAD) (fs : FrameSocket) : NoiseSocket * FrameSocket :=
  (mkNoiseSocket writeKey readKey 0 0 false, fs <| OnDisconnect := true |>).

Inductive send_result : Type :=
| SendOk
| SendContext
| SendFrameError (e : frame_error).

(** The write runs in a goroutine of its own: it happens also when the caller
    stops waiting for it ([ctx_first]). *)
Definition SendFrame (ctx_err ctx_first : bool) (write_error : option string) (plaintext : Bytes)
    (ns : NoiseSocket) (fs : FrameSocket) : send_result * option Bytes * NoiseSocket * FrameSocket :=
  if ctx_err then (SendContext, None, ns, fs)
  else
    let ciphertext := Seal (writeKey ns) (generateIV (writeCounter ns)) plaintext [] in
    let ns := ns <| writeCounter := uint32 (writeCounter ns + 1) |> in
    let '(err, written, fs) := FrameSocket.SendFrame write_error ciphertext fs in
    (if ctx_first then SendContext
     else match err with Some e => SendFrameError e | None => SendOk end, written, ns, fs).

(** The plaintext is what the frame handler gets. *)
Definition receiveEncryptedFrame (ciphertext : Bytes) (ns : NoiseSocket) : NoiseSocket * option Bytes :=
  let plaintext := Open (readKey ns) (generateIV (readCounter ns)) ciphertext [] in
  (ns <| readCounter := uint32 (readCounter ns + 1) |>, plaintext).

(** The frames that the consumer takes from the channel before it stops. *)
Fixpoint consumeFrames (frames : list Bytes) (ns : NoiseSocket) : NoiseSocket * list Bytes :=
  match frames with
  | [] => (ns, [])
  | frame :: frames =>
      let '(ns, plaintext) := receiveEncryptedFrame frame ns in
      let '(ns, delivered) := consumeFrames frames ns in
      (ns, match plaintext with Some p => p :: delivered | None => delivered end)
  end.

Definition StatusNormalClosure : Z := 1000.

Definition Stop (disconnect allowOnDisconnect : bool) (ns : NoiseSocket) (fs : FrameSocket)
  : NoiseSocket * FrameSocket * list bool :=
  if destroyed ns then (ns, fs, [])
  else
    let ns := ns <| destroyed := true |> in
    let fs := if negb allowOnDisconnect then fs <| OnDisconnect := false |> else fs in
    if disconnect then let '(fs, calls) := Close StatusNormalClosure fs in (ns, fs, calls)
    else (ns, fs, []).

(** ** [noisehandshake.go] *)

Context (Prepare : Bytes -> option AEAD).
Context (sha256 : Bytes -> Bytes).
(** [hkdf.New(sha256.New, data, salt, nil)], read for two keys of 32 bytes. *)
Context (hkdf : Bytes -> Bytes -> option (Bytes * Bytes)).
Context (X25519 : Bytes -> Bytes -> option Bytes).

Record NoiseHandshake : Type := mkHandshake {
  hash : Bytes;
  salt : Bytes;
  key : option AEAD;
  counter : Z }.
#[export] Instance eta_NoiseHandshake : Eta NoiseHandshake := fun r =>
  mkHandshake (hash r) (salt r) (key r) (counter r).

Definition NewNoiseHandshake : NoiseHandshake := mkHandshake [] [] None 0.

Definition Authenticate (data : Bytes) (nh : NoiseHandshake) : NoiseHandshake :=
  nh <| hash := sha256 (hash nh ++ data) |>.

Definition Start (pattern header : Bytes) (nh : NoiseHandshake) : outcome NoiseHandshake :=
  let nh := nh <| hash := if decide (length pattern = 32%nat) then pattern else sha256 pattern |> in
  let nh := nh <| salt := hash nh |> in
  match Prepare (hash nh) with
  | None => Panic "failed to initialize AES cipher"
  | Some k => Ret (Authenticate header (nh <| key := Some k |>))
  end.

Definition postIncrementCounter (nh : NoiseHandshake) : Z * NoiseHandshake :=
  (counter nh, nh <| counter := uint32 (counter nh + 1) |>).

(** A handshake without a key, or whose last [Prepare] failed, has a nil
    cipher. *)
Definition Encrypt (plaintext : Bytes) (nh : NoiseHandshake) : outcome (Bytes * NoiseHandshake) :=
  let '(count, nh) := postIncrementCounter nh in
  match key nh with
  | None => Panic "nil pointer dereference"
  | Some k =>
      let ciphertext := Seal k (generateIV count) plaintext (hash nh) in
      Ret (ciphertext, Authenticate ciphertext nh)
  end.

Definition Decrypt (ciphertext : Bytes) (nh : NoiseHandshake)
  : outcome (option Bytes * NoiseHandshake) :=
  let '(count, nh) := postIncrementCounter nh in
  match key nh with
  | None => Panic "nil pointer dereference"
  | Some k =>
      match Open k (generateIV count) ciphertext (hash nh) with
      | Some plaintext => Ret (Some plaintext, Authenticate ciphertext nh)
      | None => Ret (None, nh)
      end
  end.

(** [false] when an error is returned. *)
Definition MixIntoKey (data : Bytes) (nh : NoiseHandshake) : bool * NoiseHandshake :=
  let nh := nh <| counter := 0 |> in
  match hkdf (salt nh) data with
  | None => (false, nh)
  | Some (write, read) =>
      let nh := nh <| salt := write |> in
      let nh := nh <| key := Prepare read |> in
      (match Prepare read with Some _ => true | None => false end, nh)
  end.

Definition MixSharedSecretIntoKey (priv pub : Bytes) (nh : NoiseHandshake) : bool * NoiseHandshake :=
  match X25519 priv pub with
  | None => (false, nh)
  | Some secret => MixIntoKey secret nh
  end.

Definition Finish (nh : NoiseHandshake) (fs : FrameSocket) : option (NoiseSocket * FrameSocket) :=
  match hkdf (salt nh) [] with
  | None => None
  | Some (write, read) =>
      match Prepare write with
      | None => None
      | Some writeKey =>
          match Prepare read with
          | None => None
          | Some readKey => Some (newNoiseSocket writeKey readKey fs)
          end
      end
  end.

(** ** [handshake.go] *)

Definition WACertIssuerSerial : Z := 0.
Definition WACertPubKey : Bytes :=
  [20; 35; 117; 87; 77; 10; 88; 113; 102; 170; 231; 30; 190; 81; 100; 55;
   196; 162; 139; 115; 227; 105; 92; 108; 225; 247; 249; 84; 93; 168; 238; 107].

(** [waCert.CertChain]: an absent message or field is [None]. *)
Record NoiseCertificate : Type := mkCertificate {
  Details : option Bytes;
  Signature : option Bytes }.
Record CertChain : Type := mkCertChain {
  Leaf : option NoiseCertificate;
  Intermediate : option NoiseCertificate }.
Record CertDetails : Type := mkDetails {
  Serial : Z;
  IssuerSerial : Z;
  Key : Bytes;
  NotBefore : Z;
  NotAfter : Z }.

Context (unmarshalChain : Bytes -> option CertChain).
Context (unmarshalDetails : Bytes -> option CertDetails).
Context (VerifySignature : Bytes -> Bytes -> Bytes -> bool).

Inductive cert_error : Type :=
| CertUnmarshal
| CertMissing
| CertSignatureLength (intermediate : bool) (len : Z)
| CertSignature (intermediate : bool)
| CertDetailsUnmarshal
| CertIssuer (intermediate : bool)
| CertKeyLength (len : Z)
| CertNotYet (intermediate : bool)
| CertExpired (intermediate : bool)
| CertKeyMismatch.

(** [time.Unix(int64(s), 0)], where [s] is a [uint64]. *)
Definition UnixSeconds (s : Z) : Time := Unix (wrap64 s).

Definition checkCertValidity (intermediate : bool) (now : Time) (cert : CertDetails) : option cert_error :=
  let notBefore := UnixSeconds (NotBefore cert) in
  let notAfter := UnixSeconds (NotAfter cert) in
  if decide (Before now notBefore) then Some (CertNotYet intermediate)
  else if decide (After now notAfter) then Some (CertExpired intermediate)
  else None.

Definition GetDetails (c : option NoiseCertificate) : option Bytes := c ≫= Details.
Definition GetSignature (c : option NoiseCertificate) : option Bytes := c ≫= Signature.

Definition verifyServerCert (now1 now2 : Time) (certDecrypted staticDecrypted : Bytes)
  : option cert_error :=
  match unmarshalChain certDecrypted with
  | None => Some CertUnmarshal
  | Some certChain =>
      match GetDetails (Intermediate certChain), GetSignature (Intermediate certChain),
            GetDetails (Leaf certChain), GetSignature (Leaf certChain) with
      | Some iraw, Some isig, Some lraw, Some lsig =>
          if negb (length isig =? 64)%nat then Some (CertSignatureLength true (Z.of_nat (length isig)))
          else if negb (length lsig =? 64)%nat then Some (CertSignatureLength false (Z.of_nat (length lsig)))
          else if negb (VerifySignature WACertPubKey iraw isig) then Some (CertSignature true)
          else
            match unmarshalDetails iraw with
            | None => Some CertDetailsUnmarshal
            | Some i =>
                if negb (IssuerSerial i =? WACertIssuerSerial) then Some (CertIssuer true)
                else if negb (length (Key i) =? 32)%nat then Some (CertKeyLength (Z.of_nat (length (Key i))))
                else if negb (VerifySignature (Key i) lraw lsig) then Some (CertSignature false)
                else
                  match checkCertValidity true now1 i with
                  | Some e => Some e
                  | None =>
                      match unmarshalDetails lraw with
                      | None => Some CertDetailsUnmarshal
                      | Some l =>
                          if negb (IssuerSerial l =? Serial i) then Some (CertIssuer false)
                          else if negb (bool_decide (Key l = staticDecrypted)) then Some CertKeyMismatch
                          else checkCertValidity false now2 l
                      end
                  end
            end
      | _, _, _, _ => Some CertMissing
      end
  end.

Definition NoiseStartPattern : Bytes := codes "Noise_XX_25519_AESGCM_SHA256" ++ [0; 0; 0; 0].

(** The three parts of the server's hello; an absent one is nil. *)
Record ServerHello : Type := mkServerHello {
  sh_Ephemeral : option Bytes;
  sh_Static : option Bytes;
  sh_Payload : option Bytes }.
Record KeyPair : Type := mkKeyPair { Pub : Bytes; Priv : Bytes }.

Context (marshalClientHello : Bytes -> option Bytes).
Context (marshalClientFinish : Bytes -> Bytes -> option Bytes).
Context (unmarshalServerHello : Bytes -> option ServerHello).

Inductive handshake_error : Type :=
| HSMarshal
| HSSend (e : frame_error)
| HSTimeout
| HSUnmarshal
| HSMissing
| HSMix (step : Z)
| HSDecrypt (step : Z)
| HSStaticLength (len : Z)
| HSCert (e : cert_error)
| HSFinish.

(** The result with the messages written to the connection and the socket. *)
Notation Handshake A := (outcome ((handshake_error + A) * list Bytes * FrameSocket)).
Definition hs_fail {A} (e : handshake_error) (written : list Bytes) (fs : FrameSocket) : Handshake A :=
  Ret (inl e, written, fs).

(** The part after the certificate is verified. *)
Definition finishHandshake (write2 : option string) (payload : option Bytes) (noiseKey : KeyPair)
    (serverEphemeral : Bytes) (nh : NoiseHandshake) (written : list Bytes) (fs : FrameSocket)
  : Handshake NoiseSocket :=
  '(encryptedPubkey, nh) ← Encrypt (Pub noiseKey) nh;
  let '(ok, nh) := MixSharedSecretIntoKey (Priv noiseKey) serverEphemeral nh in
  if negb ok then hs_fail (HSMix 3) written fs
  else
    match payload with
    | None => hs_fail HSMarshal written fs
    | Some clientFinishPayloadBytes =>
        '(encryptedClientFinishPayload, nh) ← Encrypt clientFinishPayloadBytes nh;
        match marshalClientFinish encryptedPubkey encryptedClientFinishPayload with
        | None => hs_fail HSMarshal written fs
        | Some data =>
            let '(err, written2, fs) := FrameSocket.SendFrame write2 data fs in
            let written := written ++ option_list written2 in
            match err with
            | Some e => hs_fail (HSSend e) written fs
            | None =>
                match Finish nh fs with
                | None => hs_fail HSFinish written fs
                | Some (ns, fs) => Ret (inr ns, written, fs)
                end
            end
        end
    end.

(** [resp] is the frame received in time, if any; [write1] and [write2] the
    errors of the two writes, [payload] the marshalled client payload. *)
Definition doHandshake (resp : option Bytes) (write1 write2 : option string)
    (payload : option Bytes) (now1 now2 : Time) (ephemeralKP noiseKey : KeyPair) (fs : FrameSocket)
  : Handshake NoiseSocket :=
  nh ← Start NoiseStartPattern (default [] (Header fs)) NewNoiseHandshake;
  let nh := Authenticate (Pub ephemeralKP) nh in
  match marshalClientHello (Pub ephemeralKP) with
  | None => hs_fail HSMarshal [] fs
  | Some data =>
      let '(err, written1, fs) := FrameSocket.SendFrame write1 data fs in
      let written1 := option_list written1 in
      match err, resp with
      | Some e, _ => hs_fail (HSSend e) written1 fs
      | None, None => hs_fail HSTimeout written1 fs
      | None, Some resp =>
          match unmarshalServerHello resp with
          | None => hs_fail HSUnmarshal written1 fs
          | Some hello =>
              match sh_Static hello, sh_Payload hello with
              | Some serverStaticCiphertext, Some certificateCiphertext =>
                  let serverEphemeral := default [] (sh_Ephemeral hello) in
                  if negb (length serverEphemeral =? 32)%nat then hs_fail HSMissing written1 fs
                  else
                    let nh := Authenticate serverEphemeral nh in
                    let '(ok, nh) := MixSharedSecretIntoKey (Priv ephemeralKP) serverEphemeral nh in
                    if negb ok then hs_fail (HSMix 1) written1 fs
                    else
                      '(staticDecrypted, nh) ← Decrypt serverStaticCiphertext nh;
                      match staticDecrypted with
                      | None => hs_fail (HSDecrypt 1) written1 fs
                      | Some staticDecrypted =>
                          if negb (length staticDecrypted =? 32)%nat
                          then hs_fail (HSStaticLength (Z.of_nat (length staticDecrypted))) written1 fs
                          else
                            let '(ok, nh) := MixSharedSecretIntoKey (Priv ephemeralKP) staticDecrypted nh in
                            if negb ok then hs_fail (HSMix 2) written1 fs
                            else
                              '(certDecrypted, nh) ← Decrypt certificateCiphertext nh;
                              match certDecrypted with
                              | None => hs_fail (HSDecrypt 2) written1 fs
                              | Some certDecrypted =>
                                  match verifyServerCert now1 now2 certDecrypted staticDecrypted with
                                  | Some e => hs_fail (HSCert e) written1 fs
                                  | None => finishHandshake write2 payload noiseKey serverEphemeral nh written1 fs
                                  end
                              end
                      end
              | _, _ => hs_fail HSMissing written1 fs
              end
          end
      end
  end.
End Primitives.

(** ** Initialization vectors *)

Lemma generateIV_inj a b :
  0 <= a < 2 ^ 32 -> 0 <= b < 2 ^ 32 -> generateIV a = generateIV b -> a = b.
Proof.
  intros Ha Hb [= H1 H2 H3 H4]. unfold uint8 in *.
  rewrite !Z.shiftr_div_pow2 in * by lia. div_lia.
Qed.

(** The counter after [i] frames. *)
Definition nth_counter (c : Z) (i : nat) : Z := uint32 (c + Z.of_nat i).

(** No initialization vector is used twice by the first 2^32 frames of a
    socket, and the next frame uses the first one again: nothing ends the
    connection before. *)
Theorem ivs_distinct n :
  (NoDup (map (fun i => generateIV (nth_counter 0 i)) (seq 0 n)) <-> Z.of_nat n <= 2 ^ 32).
Proof.
  split.
  - intros Hnd. destruct (Z.le_gt_cases (Z.of_nat n) (2 ^ 32)) as [|Hgt]; [done|exfalso].
    assert (forall i, (i < n)%nat ->
      map (fun i => generateIV (nth_counter 0 i)) (seq 0 n) !! i = Some (generateIV (nth_counter 0 i))) as Hl
      by (intros i Hi; change (map ?f ?l) with (f <$> l); by rewrite list_lookup_fmap, lookup_seq_lt).
    remember (Z.to_nat (2 ^ 32)) as k eqn:Hk. assert (Z.of_nat k = 2 ^ 32) as Hk' by lia. clear Hk.
    assert (0%nat = k); [|lia]. apply (NoDup_lookup _ _ _ (generateIV (nth_counter 0 0)) Hnd); [apply Hl; lia|].
    rewrite Hl by lia. unfold nth_counter. by rewrite Hk'.
  - intros Hn. apply NoDup_fmap_2_strong; [|apply NoDup_seq].
    intros i j Hi Hj Hij. apply elem_of_seq in Hi, Hj. unfold nth_counter, uint32 in Hij.
    rewrite !Z.mod_small in Hij by lia. apply generateIV_inj in Hij; lia.
Qed.

(** ** The encrypted channel *)

Section Channel.
Context {AEAD : Type} (Seal : AEAD -> Bytes -> Bytes -> Bytes -> Bytes).
Context (Open : AEAD -> Bytes -> Bytes -> Bytes -> option Bytes).
(** Decryption undoes encryption. *)
Hypothesis Open_Seal : forall k iv p ad, Open k iv (Seal k iv p ad) ad = Some p.

(** The ciphertexts of the frames written, without a context that is done. *)
Fixpoint sends (plaintexts : list Bytes) (ns : NoiseSocket) (fs : FrameSocket)
  : list (option Bytes) * NoiseSocket * FrameSocket :=
  match plaintexts with
  | [] => ([], ns, fs)
  | p :: plaintexts =>
      let '(_, written, ns, fs) := SendFrame Seal false false None p ns fs in
      let '(more, ns, fs) := sends plaintexts ns fs in
      (written :: more, ns, fs)
  end.

Definition seals (k : AEAD) (c : Z) (plaintexts : list Bytes) : list Bytes :=
  imap (fun i p => Seal k (generateIV (nth_counter c i)) p []) plaintexts.

Lemma seals_cons k c p plaintexts :
  0 <= c < 2 ^ 32 ->
  seals k c (p :: plaintexts) = Seal k (generateIV c) p [] :: seals k (uint32 (c + 1)) plaintexts.
Proof.
  intros Hc. unfold seals. cbn [imap]. f_equal.
  - unfold nth_counter, uint32. rewrite Z.add_0_r, Z.mod_small by lia. done.
  - apply imap_ext. intros i q _. cbn. unfold nth_counter, uint32. do 2 f_equal.
    rewrite Z.add_mod_idemp_l by lia. f_equal. lia.
Qed.

Lemma uint32_range z : 0 <= uint32 z < 2 ^ 32.
Proof. unfold uint32. apply Z.mod_pos_bound. lia. Qed.

Lemma sends_seals plaintexts ns fs :
  conn fs = true -> Header fs = None -> 0 <= writeCounter ns < 2 ^ 32 ->
  Forall fits (seals (writeKey ns) (writeCounter ns) plaintexts) ->
  (sends plaintexts ns fs).1.1 =
    map (fun c => Some (frame_bytes c)) (seals (writeKey ns) (writeCounter ns) plaintexts).
Proof.
  revert ns fs. induction plaintexts as [|p plaintexts IH]; intros ns fs Hc Hh Hr Hf; [done|].
  rewrite seals_cons in * by done. inversion Hf as [|? ? Hfit Hfs]; subst.
  cbn [sends SendFrame]. rewrite SendFrame_fits, Hh by done. cbn [default app].
  set (ns' := ns <| writeCounter := _ |>). set (fs' := fs <| Header := None |>).
  specialize (IH ns' fs' Hc eq_refl (uint32_range _) Hfs).
  destruct (sends plaintexts ns' fs') as [[more ns''] fs'']. cbn in *. by rewrite IH.
Qed.

Lemma consume_seals plaintexts ns :
  0 <= readCounter ns < 2 ^ 32 ->
  consumeFrames Open (seals (readKey ns) (readCounter ns) plaintexts) ns =
    (ns <| readCounter := nth_counter (readCounter ns) (length plaintexts) |>, plaintexts).
Proof.
  revert ns. induction plaintexts as [|p plaintexts IH]; intros ns Hr.
  { cbn. unfold nth_counter, uint32. rewrite Z.add_0_r, Z.mod_small by lia. by destruct ns. }
  rewrite seals_cons by done. cbn [consumeFrames receiveEncryptedFrame]. rewrite Open_Seal.
  set (ns' := ns <| readCounter := _ |>).
  change (readKey ns) with (readKey ns'). change (uint32 (readCounter ns + 1)) with (readCounter ns').
  rewrite IH by apply uint32_range. f_equal. destruct ns as [wk rk wc rc d]. subst ns'. cbn.
  unfold nth_counter, uint32. rewrite Z.add_mod_idemp_l by lia.
  by replace (rc + Z.of_nat (S (length plaintexts))) with (rc + 1 + Z.of_nat (length plaintexts)) by lia.
Qed.

(** C22. The channel delivers: when the reader has the writer's key and counter, the
    plaintexts that are sent in a connected socket come out of the reader's
    end, all of them and in order, through the framing and the reassembly. *)
Theorem channel_delivers plaintexts ns fs ns' peer :
  conn fs = true -> Header fs = None -> 0 <= writeCounter ns < 2 ^ 32 ->
  Forall fits (seals (writeKey ns) (writeCounter ns) plaintexts) ->
  readKey ns' = writeKey ns -> readCounter ns' = writeCounter ns ->
  exists ws frames,
    (sends plaintexts ns fs).1.1 = map Some ws /\
    readPump (map (fun m => (true, m)) ws) (resting [] peer) = Ret (Some (resting [] peer, frames)) /\
    (consumeFrames Open frames ns').2 = plaintexts.
Proof.
  intros Hc Hh Hr Hf Hk Hn. pose proof (sends_seals plaintexts ns fs Hc Hh Hr Hf) as Hs.
  set (cs := seals (writeKey ns) (writeCounter ns) plaintexts) in *.
  exists (map frame_bytes cs), cs. split; [by rewrite Hs, map_map|]. split.
  - clear Hs. induction Hf as [|c cs Hfit _ IH]; [done|].
    change (c :: cs) with ([c] ++ cs) at 2. by apply readPump_frame.
  - subst cs. rewrite <- Hk, <- Hn. rewrite consume_seals by (rewrite Hn; done). done.
Qed.
End Channel.

(** A frame that is too large is not sent, but its counter is spent: unless a
    cipher accepts a ciphertext made for another counter, everything sent
    after it is dropped by the reader, without an error on either side. *)
Section Desync.
Context {AEAD : Type} (Seal : AEAD -> Bytes -> Bytes -> Bytes -> Bytes).
Context (Open : AEAD -> Bytes -> Bytes -> Bytes -> option Bytes).
(** A ciphertext is authentic for one initialization vector only. *)
Hypothesis Open_other : forall k iv iv' p ad, iv <> iv' -> Open k iv' (Seal k iv p ad) ad = None.

Lemma consume_ahead k c d plaintexts ns :
  readKey ns = k -> 0 <= readCounter ns < 2 ^ 32 -> 0 <= c < 2 ^ 32 ->
  c = uint32 (readCounter ns + d) -> 0 < d < 2 ^ 32 ->
  (consumeFrames Open (seals Seal k c plaintexts) ns).2 = [].
Proof.
  revert c ns. induction plaintexts as [|p plaintexts IH]; intros c ns Hk Hr Hc He Hd; [done|].
  rewrite seals_cons by done. cbn [consumeFrames receiveEncryptedFrame].
  rewrite Hk, Open_other.
  - set (ns' := ns <| readCounter := _ |>).
    specialize (IH (uint32 (c + 1)) ns' Hk (uint32_range _) (uint32_range _)).
    destruct (consumeFrames Open _ ns') as [? ?]. apply IH; [|done].
    subst c ns'. cbn. unfold uint32. rewrite !Z.add_mod_idemp_l by lia. f_equal. lia.
  - intros Hiv. apply generateIV_inj in Hiv; [|done|done]. subst c. unfold uint32 in Hiv. div_lia.
Qed.

(** A plaintext whose ciphertext is too large for a frame is refused without a
    write, but it has spent a value of the counter: the peer, whose counter was
    in step, decrypts none of the frames of the following sends. *)
Theorem oversized_frame_desyncs p plaintexts ns fs ns' :
  conn fs = true -> Header fs = None -> 0 <= writeCounter ns < 2 ^ 32 ->
  ~ fits (Seal (writeKey ns) (generateIV (writeCounter ns)) p []) ->
  Forall fits (seals Seal (writeKey ns) (uint32 (writeCounter ns + 1)) plaintexts) ->
  readKey ns' = writeKey ns -> readCounter ns' = writeCounter ns ->
  let '(r, written, ns2, fs2) := SendFrame Seal false false None p ns fs in
  r = SendFrameError ErrFrameTooLarge /\ written = None /\ fs2 = fs /\
  exists frames,
    (sends Seal plaintexts ns2 fs2).1.1 = map (fun c => Some (frame_bytes c)) frames /\
    (consumeFrames Open frames ns').2 = [].
Proof.
  intros Hc Hh Hr Hbig Hf Hk Hn. unfold SendFrame, FrameSocket.SendFrame, fits in *. rewrite Hc. cbn [negb].
  destruct (Z.geb_spec (Z.of_nat (length (Seal (writeKey ns) (generateIV (writeCounter ns)) p []))) FrameMaxSize);
    [|lia].
  repeat split. eexists. split; [apply sends_seals; [done|done|apply uint32_range|exact Hf]|].
  apply (consume_ahead _ _ 1); [exact Hk|by rewrite Hn|apply uint32_range| |lia]. cbn. by rewrite Hn.
Qed.
End Desync.

(** ** The certificate *)

Section Certificate.
Context (unmarshalChain : Bytes -> option CertChain) (unmarshalDetails : Bytes -> option CertDetails).
Context (VerifySignature : Bytes -> Bytes -> Bytes -> bool).

Definition valid_at (now : Time) (c : CertDetails) : Prop :=
  UnixSeconds (NotBefore c) <= now <= UnixSeconds (NotAfter c).

Lemma checkCertValidity_ok i now c : checkCertValidity i now c = None <-> valid_at now c.
Proof.
  unfold checkCertValidity, valid_at, Before, After.
  destruct (decide (now < UnixSeconds (NotBefore c))); [split; [done|lia]|].
  destruct (decide (UnixSeconds (NotAfter c) < now)); split; (done || lia).
Qed.

(** C24. The server is accepted exactly when its certificate is a chain: an
    intermediate certificate signed by the pinned key and issued by it, a leaf
    signed by the key of the intermediate and issued by it, both within their
    time, and the leaf's key is the static key of the handshake. *)
Theorem certificate_accepted now1 now2 chain_bytes static :
  verifyServerCert unmarshalChain unmarshalDetails VerifySignature now1 now2 chain_bytes static = None <->
  exists chain iraw isig lraw lsig i l,
    unmarshalChain chain_bytes = Some chain /\
    GetDetails (Intermediate chain) = Some iraw /\ GetSignature (Intermediate chain) = Some isig /\
    GetDetails (Leaf chain) = Some lraw /\ GetSignature (Leaf chain) = Some lsig /\
    length isig = 64%nat /\ length lsig = 64%nat /\
    VerifySignature WACertPubKey iraw isig = true /\
    unmarshalDetails iraw = Some i /\ IssuerSerial i = WACertIssuerSerial /\ length (Key i) = 32%nat /\
    VerifySignature (Key i) lraw lsig = true /\ valid_at now1 i /\
    unmarshalDetails lraw = Some l /\ IssuerSerial l = Serial i /\ Key l = static /\ valid_at now2 l.
Proof.
  unfold verifyServerCert. split.
  - destruct (unmarshalChain chain_bytes) as [chain|] eqn:E0; [|done].
    destruct (GetDetails (Intermediate chain)) as [iraw|] eqn:E1; [|done].
    destruct (GetSignature (Intermediate chain)) as [isig|] eqn:E2; [|done].
    destruct (GetDetails (Leaf chain)) as [lraw|] eqn:E3; [|done].
    destruct (GetSignature (Leaf chain)) as [lsig|] eqn:E4; [|done].
    destruct (Nat.eqb_spec (length isig) 64); [|done]. destruct (Nat.eqb_spec (length lsig) 64); [|done].
    destruct (VerifySignature WACertPubKey iraw isig) eqn:E5; [|done].
    destruct (unmarshalDetails iraw) as [i|] eqn:E6; [|done].
    destruct (Z.eqb_spec (IssuerSerial i) WACertIssuerSerial); [|done].
    destruct (Nat.eqb_spec (length (Key i)) 32); [|done].
    destruct (VerifySignature (Key i) lraw lsig) eqn:E7; [|done]. cbn [negb].
    destruct (checkCertValidity true now1 i) eqn:E8; [done|].
    destruct (unmarshalDetails lraw) as [l|] eqn:E9; [|done].
    destruct (Z.eqb_spec (IssuerSerial l) (Serial i)); [|done]. cbn [negb].
    case_bool_decide; [|done]. cbn [negb]. intros E10. apply checkCertValidity_ok in E8, E10.
    exists chain, iraw, isig, lraw, lsig, i, l. by repeat split; (done || apply E8 || apply E10).
  - intros (chain & iraw & isig & lraw & lsig & i & l & -> & -> & -> & -> & -> & H1 & H2 & -> & -> & H3 &
      H4 & -> & H5 & -> & H6 & H7 & H8).
    rewrite H1, H2, H3, H4, H6. cbn [negb]. rewrite (proj2 (checkCertValidity_ok true now1 i) H5).
    rewrite !Nat.eqb_refl, !Z.eqb_refl, bool_decide_eq_true_2 by done. cbn [negb].
    by apply checkCertValidity_ok.
Qed.
End Certificate.

(** ** The handshake agrees with its responder

    The responder of the XX pattern, a specification (the server is not in the
    repository), on the same operations. *)
Section Agreement.
Context {AEAD : Type} (Seal : AEAD -> Bytes -> Bytes -> Bytes -> Bytes).
Context (Open : AEAD -> Bytes -> Bytes -> Bytes -> option Bytes).
Context (Prepare : Bytes -> option AEAD) (sha256 : Bytes -> Bytes).
Context (hkdf : Bytes -> Bytes -> option (Bytes * Bytes)) (X25519 : Bytes -> Bytes -> option Bytes).
Context (unmarshalChain : Bytes -> option CertChain) (unmarshalDetails : Bytes -> option CertDetails).
Context (VerifySignature : Bytes -> Bytes -> Bytes -> bool).
Context (marshalClientHello : Bytes -> option Bytes).
Context (marshalClientFinish : Bytes -> Bytes -> option Bytes).
Context (unmarshalServerHello : Bytes -> option ServerHello).
Notation Encrypt := (Encrypt Seal sha256).
Notation Decrypt := (Decrypt Open sha256).
Notation Authenticate := (Authenticate sha256).
Notation Mix := (MixSharedSecretIntoKey Prepare hkdf X25519).

Hypothesis Open_Seal : forall k iv p ad, Open k iv (Seal k iv p ad) ad = Some p.

Definition respond_hello (clientEphemeral cert : Bytes) (eph static : KeyPair)
  : outcome (option (ServerHello * NoiseHandshake)) :=
  nh ← Start Prepare sha256 NoiseStartPattern WAConnHeader NewNoiseHandshake;
  let nh := Authenticate (Pub eph) (Authenticate clientEphemeral nh) in
  let '(ok1, nh) := Mix (Priv eph) clientEphemeral nh in
  '(s, nh) ← Encrypt (Pub static) nh;
  let '(ok2, nh) := Mix (Priv static) clientEphemeral nh in
  '(c, nh) ← Encrypt cert nh;
  Ret (if ok1 && ok2 then Some (mkServerHello (Some (Pub eph)) (Some s) (Some c), nh) else None).

Definition respond_finish (encryptedPubkey encryptedPayload : Bytes) (eph : KeyPair) (nh : NoiseHandshake)
  : outcome (option (Bytes * Bytes * NoiseSocket)) :=
  '(pub, nh) ← Decrypt encryptedPubkey nh;
  match pub with
  | None => Ret None
  | Some pub =>
      let '(ok, nh) := Mix (Priv eph) pub nh in
      '(payload, nh) ← Decrypt encryptedPayload nh;
      match payload, hkdf (salt nh) [] with
      | Some payload, Some (write, read) =>
          match Prepare write, Prepare read with
          | Some w, Some r => Ret (if ok then Some (pub, payload, mkNoiseSocket r w 0 0 false) else None)
          | _, _ => Ret None
          end
      | _, _ => Ret None
      end
  end.

Lemma Decrypt_sealed p nh c nh' :
  Encrypt p nh = Ret (c, nh') -> Decrypt c nh = Ret (Some p, nh').
Proof.
  unfold Noise.Encrypt, Noise.Decrypt, postIncrementCounter. destruct nh as [h s [k|] n]; cbn; [|done].
  intros [= <- <-]. by rewrite Open_Seal.
Qed.

Definition agree (a b : KeyPair) : Prop := X25519 (Priv a) (Pub b) = X25519 (Priv b) (Pub a).

Lemma Mix_agree a b nh : agree a b -> Mix (Priv a) (Pub b) nh = Mix (Priv b) (Pub a) nh.
Proof. unfold agree, MixSharedSecretIntoKey. by intros ->. Qed.

Lemma Mix_key a b nh nh' : Mix a b nh = (true, nh') -> exists k, key nh' = Some k.
Proof.
  unfold MixSharedSecretIntoKey, MixIntoKey. destruct (X25519 a b); [|done].
  cbn [salt upd]. destruct (hkdf _ _) as [[w r]|]; [|done].
  destruct (Prepare r) as [k|] eqn:E; [|done]. intros [= <-]. by exists k.
Qed.

Lemma Encrypt_key p nh k : key nh = Some k -> exists c nh', Encrypt p nh = Ret (c, nh') /\ key nh' = Some k.
Proof. unfold Noise.Encrypt, postIncrementCounter. cbn. intros Hk. rewrite Hk. do 2 eexists. by split. Qed.

Lemma Mix_total a b nh :
  X25519 a b <> None ->
  (forall s d, exists w r, hkdf s d = Some (w, r) /\ Prepare w <> None /\ Prepare r <> None) ->
  exists nh', Mix a b nh = (true, nh') /\ exists k, key nh' = Some k.
Proof.
  intros Hx Hk. unfold MixSharedSecretIntoKey, MixIntoKey. destruct (X25519 a b) as [x|]; [|done].
  cbn [salt upd]. destruct (Hk (salt nh) x) as (w & r & Hwr & _ & Hr).
  change (salt _) with (salt nh) at 1. rewrite Hwr. destruct (Prepare r) as [k|]; [|done].
  eexists. split; [reflexivity|]. by exists k.
Qed.

(** C8. With a responder that follows the pattern and shows a certificate that is
    accepted, a handshake whose writes and marshalling succeed ends in a socket
    whose keys are the responder's, crossed, with both counters at zero; the
    responder learns the client's static key and its payload; and the two
    messages are what the connection carried, behind the header. *)
Theorem handshake_agrees eph noise seph static cert payload hello resp nh fs now1 now2 hello_data :
  conn fs = true -> Header fs = Some WAConnHeader ->
  length (Pub seph) = 32%nat -> length (Pub static) = 32%nat ->
  agree eph seph -> agree eph static -> agree noise seph ->
  X25519 (Priv noise) (Pub seph) <> None ->
  (forall s d, exists w r, hkdf s d = Some (w, r) /\ Prepare w <> None /\ Prepare r <> None) ->
  (forall a b, exists d, marshalClientFinish a b = Some d /\ fits d) ->
  marshalClientHello (Pub eph) = Some hello_data -> fits hello_data ->
  respond_hello (Pub eph) cert seph static = Ret (Some (hello, nh)) ->
  unmarshalServerHello resp = Some hello ->
  verifyServerCert unmarshalChain unmarshalDetails VerifySignature now1 now2 cert (Pub static) = None ->
  exists ns srv encPub encPayload finish fs',
    doHandshake Seal Open Prepare sha256 hkdf X25519 unmarshalChain unmarshalDetails VerifySignature
      marshalClientHello marshalClientFinish unmarshalServerHello
      (Some resp) None None (Some payload) now1 now2 eph noise fs
      = Ret (inr ns, [WAConnHeader ++ frame_bytes hello_data; frame_bytes finish], fs') /\
    marshalClientFinish encPub encPayload = Some finish /\
    respond_finish encPub encPayload seph nh = Ret (Some (Pub noise, payload, srv)) /\
    readKey srv = writeKey ns /\ writeKey srv = readKey ns /\
    writeCounter ns = 0 /\ readCounter ns = 0 /\ writeCounter srv = 0 /\ readCounter srv = 0.
Proof.
  intros Hc Hh Hl1 Hl2 Ha1 Ha2 Ha3 Hx Hkdf Hfin Hmar Hfit Hresp Hun Hcert.
  unfold respond_hello, mbind, outcome_bind in Hresp. unfold doHandshake, mbind, outcome_bind. rewrite Hh.
  cbn [from_option id]. destruct (Start _ _ _ _ _) as [nh0|]; [|done]. rewrite Hmar.
  destruct (Mix (Priv seph) (Pub eph) _) as [ok1 nh1] eqn:E1.
  destruct (Encrypt (Pub static) nh1) as [[s nh2]|] eqn:E2; [|done].
  destruct (Mix (Priv static) (Pub eph) nh2) as [ok2 nh3] eqn:E3.
  destruct (Encrypt cert nh3) as [[c nh4]|] eqn:E4; [|done].
  destruct ok1, ok2; try done. injection Hresp as <- <-.
  rewrite SendFrame_fits, Hh by done. cbn [from_option id option_list]. rewrite Hun.
  cbn [sh_Static sh_Payload sh_Ephemeral from_option id].
  rewrite Hl1, Nat.eqb_refl. cbn [negb]. rewrite (Mix_agree eph seph), E1 by done. cbn [negb].
  rewrite (Decrypt_sealed _ _ _ _ E2), Hl2, Nat.eqb_refl. cbn [negb].
  rewrite (Mix_agree eph static), E3 by done. cbn [negb]. rewrite (Decrypt_sealed _ _ _ _ E4), Hcert.
  unfold finishHandshake, mbind, outcome_bind.
  destruct (Mix_key _ _ _ _ E3) as [k3 Hk3].
  destruct (Encrypt_key cert nh3 k3 Hk3) as (c' & nh4' & E4' & Hk4).
  rewrite E4 in E4'. injection E4' as <- <-.
  destruct (Encrypt_key (Pub noise) nh4 k3 Hk4) as (ep & nh5 & E5 & Hk5). rewrite E5.
  destruct (Mix_total (Priv noise) (Pub seph) nh5 Hx Hkdf) as (nh6 & E6 & k6 & Hk6). rewrite E6. cbn [negb].
  destruct (Encrypt_key payload nh6 k6 Hk6) as (epl & nh7 & E7 & _). rewrite E7.
  destruct (Hfin ep epl) as (d & Hd & Hdf). rewrite Hd, SendFrame_fits by done.
  destruct (Hkdf (salt nh7) []) as (w & r & Hwr & Hw & Hr).
  destruct (Prepare w) as [wk|] eqn:Ew; [|done]. destruct (Prepare r) as [rk|] eqn:Er; [|done].
  eexists _, _, ep, epl, d, _. unfold Finish. rewrite Hwr, Ew, Er. split; [reflexivity|]. split; [done|].
  unfold respond_finish, mbind, outcome_bind.
  rewrite (Decrypt_sealed _ _ _ _ E5), (Mix_agree seph noise), E6 by done.
  rewrite (Decrypt_sealed _ _ _ _ E7), Hwr, Ew, Er. by split.
Qed.
End Agreement.

(** ** Witnesses: a cipher that only tags, and keys that add up *)

Definition toy_Seal (k iv p ad : Bytes) : Bytes := Z.of_nat (length iv) :: iv ++ p.
Definition toy_Open (k iv c ad : Bytes) : option Bytes :=
  match c with
  | n :: c => if decide (n = Z.of_nat (length iv) /\ take (length iv) c = iv)
              then Some (drop (length iv) c) else None
  | [] => None
  end.

Lemma toy_Open_Seal k iv p ad : toy_Open k iv (toy_Seal k iv p ad) ad = Some p.
Proof. unfold toy_Open, toy_Seal. rewrite take_app_length, drop_app_length. by rewrite decide_True. Qed.

Lemma toy_Open_other k iv iv' p ad : iv <> iv' -> toy_Open k iv' (toy_Seal k iv p ad) ad = None.
Proof.
  intros Hne. unfold toy_Open, toy_Seal. rewrite decide_False; [done|]. intros [Hl Ht].
  apply Hne. rewrite <- Ht. symmetry. apply take_app_length'. lia.
Qed.

Definition toy_socket : NoiseSocket (AEAD:=Bytes) := mkNoiseSocket [1] [1] 7 7 false.
Definition open_fs : FrameSocket := mkFrameSocket true None false false 0 0 None None.

Lemma channel_delivers_witness :
  exists ws frames,
    (sends toy_Seal [[1; 2]; []; [3]] toy_socket open_fs).1.1 = map Some ws /\
    readPump (map (fun m => (true, m)) ws) (resting [] open_fs) = Ret (Some (resting [] open_fs, frames)) /\
    (consumeFrames toy_Open frames toy_socket).2 = [[1; 2]; []; [3]].
Proof.
  apply (channel_delivers toy_Seal toy_Open toy_Open_Seal [[1; 2]; []; [3]] toy_socket open_fs toy_socket open_fs);
    try reflexivity; [simpl; lia|repeat constructor; vm_compute; reflexivity].
Defined.

Lemma oversized_frame_desyncs_witness :
  let '(r, written, ns2, fs2) :=
    SendFrame toy_Seal false false None (repeat 0 (Z.to_nat FrameMaxSize)) toy_socket open_fs in
  r = SendFrameError ErrFrameTooLarge /\ written = None /\ fs2 = open_fs /\
  exists frames,
    (sends toy_Seal [[5]] ns2 fs2).1.1 = map (fun c => Some (frame_bytes c)) frames /\
    (consumeFrames toy_Open frames toy_socket).2 = [].
Proof.
  apply (oversized_frame_desyncs toy_Seal toy_Open toy_Open_other
           (repeat 0 (Z.to_nat FrameMaxSize)) [[5]] toy_socket open_fs toy_socket); try reflexivity.
  - simpl. lia.
  - unfold fits, toy_Seal. cbn [length]. rewrite length_app, repeat_length.
    change FrameMaxSize with (2 ^ 24). lia.
  - repeat constructor; vm_compute; reflexivity.
Defined.

Definition toy_pair (x : Z) : KeyPair := mkKeyPair (repeat x 32) (repeat x 32).
Definition toy_dh (a b : Bytes) : option Bytes := Some (zip_with Z.add a b).
Definition toy_certificate : CertChain :=
  mkCertChain (Some (mkCertificate (Some [2]) (Some (repeat 0 64))))
              (Some (mkCertificate (Some [1]) (Some (repeat 0 64)))).
Definition toy_details (b : Bytes) : option CertDetails :=
  Some (match b with
        | [1] => mkDetails 5 0 (repeat 9 32) 0 100
        | _ => mkDetails 6 5 (repeat 3 32) 0 100
        end).
Definition toy_response : ServerHello * NoiseHandshake (AEAD:=Bytes) :=
  match respond_hello toy_Seal Some (take 32) (fun s d => Some (s, d)) toy_dh
          (Pub (toy_pair 1)) [42] (toy_pair 2) (toy_pair 3) with
  | Ret (Some r) => r
  | _ => (mkServerHello None None None, NewNoiseHandshake)
  end.

Lemma handshake_agrees_witness :
  exists ns srv encPub encPayload finish fs',
    doHandshake toy_Seal toy_Open Some (take 32) (fun s d => Some (s, d)) toy_dh
      (fun _ => Some toy_certificate) toy_details (fun _ _ _ => true)
      Some (fun _ _ => Some []) (fun _ => Some toy_response.1)
      (Some []) None None (Some [77]) (UnixSeconds 50) (UnixSeconds 50) (toy_pair 1) (toy_pair 4)
      (NewFrameSocket <| conn := true |>)
      = Ret (inr ns, [WAConnHeader ++ frame_bytes (Pub (toy_pair 1)); frame_bytes finish], fs') /\
    Some [] = Some finish /\
    respond_finish toy_Open Some (take 32) (fun s d => Some (s, d)) toy_dh encPub encPayload
      (toy_pair 2) toy_response.2 = Ret (Some (Pub (toy_pair 4), [77], srv)) /\
    readKey srv = writeKey ns /\ writeKey srv = readKey ns /\
    writeCounter ns = 0 /\ readCounter ns = 0 /\ writeCounter srv = 0 /\ readCounter srv = 0.
Proof.
  apply (handshake_agrees toy_Seal toy_Open Some (take 32) (fun s d => Some (s, d)) toy_dh
    (fun _ => Some toy_certificate) toy_details (fun _ _ _ => true)
    Some (fun _ _ => Some []) (fun _ => Some toy_response.1) toy_Open_Seal
    (toy_pair 1) (toy_pair 4) (toy_pair 2) (toy_pair 3) [42] [77] toy_response.1 [] toy_response.2
    (NewFrameSocket <| conn := true |>) (UnixSeconds 50) (UnixSeconds 50) (Pub (toy_pair 1)));
    [reflexivity|reflexivity|reflexivity|reflexivity|reflexivity|reflexivity|reflexivity|discriminate
    | | |reflexivity|reflexivity|reflexivity|reflexivity|reflexivity].
  - intros s d. exists s, d. split; [reflexivity|]. split; discriminate.
  - intros a b. exists []. split; [reflexivity|]. vm_compute. reflexivity.
Defined.
