(* ===== verification/Cbc.v ===== *)
(** * [whatsmeow/util/cbcutil/cbc.go]

    AES in CBC mode with PKCS#7 padding: in memory, in place on a file, and as
    a stream with its checksum.  Bytes are integers; a block cipher is a pair of
    functions on blocks of 16 bytes ([aes.NewCipher] of a key may fail), and CBC
    is the chaining of the Standard Library's [crypto/cipher]. *)
From S2P Require Import Prelude.

Definition BlockSize : nat := 16.

(** ** [crypto/cipher]: CBC *)

Fixpoint chunks (n : nat) (l : list Z) : list (list Z) :=
  match n with O => [] | S n => take BlockSize l :: chunks n (drop BlockSize l) end.
Definition to_blocks (l : list Z) : list (list Z) := chunks (length l / BlockSize) l.
Definition xor (a b : list Z) : list Z := zip_with Z.lxor a b.

Inductive cbc_error : Type :=
| ErrKey
| ErrNotMultiple (len : Z)
| ErrPadding (padLen length : Z)
| ErrRand
| ErrStat
| ErrRead
| ErrWriteFile
| ErrTruncate.

Section Cbc.
Context {Block : Type} (NewCipher : list Z -> option Block).
Context (Enc Dec : Block -> list Z -> list Z).

(** The chain over the blocks: the output, and the block that the next call
    starts from. *)
Fixpoint encBlocks (k : Block) (prev : list Z) (blocks : list (list Z)) : list Z * list Z :=
  match blocks with
  | [] => ([], prev)
  | b :: blocks =>
      let c := Enc k (xor prev b) in
      let '(out, last) := encBlocks k c blocks in
      (c ++ out, last)
  end.
Fixpoint decBlocks (k : Block) (prev : list Z) (blocks : list (list Z)) : list Z * list Z :=
  match blocks with
  | [] => ([], prev)
  | c :: blocks =>
      let '(out, last) := decBlocks k c blocks in
      (xor prev (Dec k c) ++ out, last)
  end.

Definition CryptBlocks (f : list Z -> list (list Z) -> list Z * list Z) (prev src : list Z)
  : outcome (list Z * list Z) :=
  if negb (length src mod BlockSize =? 0)%nat then Panic "crypto/cipher: input not full blocks"
  else Ret (f prev (to_blocks src)).
Definition checkIV (iv : list Z) : outcome () :=
  if negb (length iv =? BlockSize)%nat
  then Panic "cipher.NewCBCEncrypter: IV length must equal block size" else Ret tt.

(** ** [cbc.go] *)

Definition unpad (src : list Z) : outcome (cbc_error + list Z) :=
  let length_ := Z.of_nat (length src) in
  padLen ← at_ src (length_ - 1);
  Ret (if padLen >? length_ then inl (ErrPadding padLen length_)
       else inr (take (Z.to_nat (length_ - padLen)) src)).

Definition Decrypt (key iv ciphertext : list Z) : outcome (cbc_error + list Z) :=
  match NewCipher key with
  | None => Ret (inl ErrKey)
  | Some block =>
      let n := length ciphertext in
      if (n =? 0)%nat || negb (n mod BlockSize =? 0)%nat then Ret (inl (ErrNotMultiple (Z.of_nat n)))
      else
        _ ← checkIV iv;
        '(plain, _) ← CryptBlocks (decBlocks block) iv ciphertext;
        unpad plain
  end.

Definition padding (paddingLen : nat) : list Z := replicate paddingLen (uint8 (Z.of_nat paddingLen)).

(** [iv] is [None] when it is nil: then 16 random bytes, [Some random] unless
    the source fails, go before the ciphertext. *)
Definition Encrypt (key : list Z) (iv : option (list Z)) (random : option (list Z)) (plaintext : list Z)
  : outcome (cbc_error + list Z) :=
  let sizeOfLastBlock := (length plaintext mod BlockSize)%nat in
  let paddingLen := (BlockSize - sizeOfLastBlock)%nat in
  let plaintextStart := take (length plaintext - sizeOfLastBlock) plaintext in
  let lastBlock := drop (length plaintext - sizeOfLastBlock) plaintext ++ padding paddingLen in
  match NewCipher key with
  | None => Ret (inl ErrKey)
  | Some block =>
      match iv with
      | None =>
          match random with
          | None => Ret (inl ErrRand)
          | Some iv =>
              _ ← checkIV iv;
              '(c1, prev) ← CryptBlocks (encBlocks block) iv plaintextStart;
              '(c2, _) ← CryptBlocks (encBlocks block) prev lastBlock;
              Ret (inr (iv ++ c1 ++ c2))
          end
      | Some iv =>
          _ ← checkIV iv;
          '(c1, prev) ← CryptBlocks (encBlocks block) iv plaintextStart;
          '(c2, _) ← CryptBlocks (encBlocks block) prev lastBlock;
          Ret (inr (c1 ++ c2))
      end
  end.

(** *** A file, decrypted in place

    The contents of the file, read from its beginning.  A turn of the loop
    reads [n] bytes at [writePtr], decrypts them and writes them back; the
    reads and the writes may fail at any turn. *)
Definition bufMax : nat := 32 * 1024.

Record file_fate : Type := mkFileFate {
  stat_fails : bool;
  read_fails : nat -> bool;
  write_fails : nat -> bool;
  truncate_fails : bool }.

Definition write_at (at_ : nat) (data file : list Z) : list Z :=
  take at_ file ++ data ++ drop (at_ + length data) file.

Fixpoint decryptLoop (fate : file_fate) (turns turn bufSize : nat) (k : Block) (prev : list Z)
    (writePtr : nat) (lastByte : Z) (file : list Z) : outcome (cbc_error + Z * list Z) :=
  match turns with
  | O => Ret (inr (lastByte, file))
  | S turns =>
      if (length file <=? writePtr)%nat then Ret (inr (lastByte, file))
      else
        let n := if (length file <? writePtr + bufSize)%nat then (length file - writePtr)%nat else bufSize in
        if read_fails fate turn then Ret (inl ErrRead)
        else
          '(buf, prev) ← CryptBlocks (decBlocks k) prev (take n (drop writePtr file));
          if write_fails fate turn then Ret (inl ErrWriteFile)
          else
            let file := write_at writePtr buf file in
            lastByte ← at_ buf (Z.of_nat n - 1);
            decryptLoop fate turns (S turn) bufSize k prev (writePtr + n) lastByte file
  end.

(** The number of turns is at most the number of bytes. *)
Definition DecryptFile (fate : file_fate) (key iv file : list Z) : outcome (cbc_error + list Z) :=
  match NewCipher key with
  | None => Ret (inl ErrKey)
  | Some block =>
      _ ← checkIV iv;
      if stat_fails fate then Ret (inl ErrStat)
      else
        let fileSize := length file in
        if negb (fileSize mod BlockSize =? 0)%nat then Ret (inl (ErrNotMultiple (Z.of_nat fileSize)))
        else
          let bufSize := Nat.min fileSize bufMax in
          r ← decryptLoop fate fileSize 0 bufSize block iv 0 0 file;
          Ret (match r with
               | inl e => inl e
               | inr (lastByte, file) =>
                   if lastByte >? Z.of_nat fileSize then inl (ErrPadding lastByte (Z.of_nat fileSize))
                   else if truncate_fails fate then inl ErrTruncate
                   else inr (take (Z.to_nat (Z.of_nat fileSize - lastByte)) file)
               end)
  end.

(** *** A stream

    The reader holds the bytes of the plaintext and then its end, or an error
    ([read_error]); the writer may fail at any turn, and at the checksum. *)
Context (sha256 : list Z -> list Z) (hmac_sha256 : list Z -> list Z -> list Z).

Fixpoint encryptLoop (turns turn : nat) (read_error : bool) (write_fails : nat -> bool) (k : Block)
    (prev : list Z) (size : nat) (rest written : list Z) : outcome (cbc_error + nat * nat * list Z) :=
  match turns with
  | O => Ret (inr (size, 0%nat, written))
  | S turns =>
      let buf := take bufMax rest in
      let n := length buf in
      let size := (size + n)%nat in
      if (n <? bufMax)%nat && read_error then Ret (inl ErrRead)
      else
        let hasMore := negb (n <? bufMax)%nat in
        let extraSize := (if hasMore then 0 else BlockSize - size mod BlockSize)%nat in
        let buf := buf ++ padding extraSize in
        '(buf, prev) ← CryptBlocks (encBlocks k) prev buf;
        if write_fails turn then Ret (inl ErrWriteFile)
        else if hasMore
        then encryptLoop turns (S turn) read_error write_fails k prev size (drop bufMax rest) (written ++ buf)
        else Ret (inr (size, extraSize, written ++ buf))
  end.

(** The two hashes, the two sizes, and what is written. *)
Definition EncryptStream (read_error : bool) (write_fails : nat -> bool) (mac_write_fails : bool)
    (key iv macKey plaintext : list Z)
  : outcome (cbc_error + list Z * list Z * Z * Z * list Z) :=
  match NewCipher key with
  | None => Ret (inl ErrKey)
  | Some block =>
      _ ← checkIV iv;
      r ← encryptLoop (S (length plaintext / bufMax)) 0 read_error write_fails block iv 0 plaintext [];
      Ret (match r with
           | inl e => inl e
           | inr (size, extraSize, written) =>
               let mac := take 10 (hmac_sha256 macKey (iv ++ written)) in
               let extraSize := (extraSize + 10)%nat in
               if mac_write_fails then inl ErrWriteFile
               else inr (sha256 plaintext, sha256 (written ++ mac), Z.of_nat size,
                         Z.of_nat (size + extraSize), written ++ mac)
           end)
  end.
End Cbc.

(** ** Blocks *)

Definition full (l : list Z) : Prop := (length l mod BlockSize = 0)%nat.

Lemma full_cases l : full l -> l = [] \/ (BlockSize <= length l)%nat.
Proof.
  unfold full, BlockSize. destruct l as [|x l]; [by left|right]. simpl length in *.
  destruct (decide (16 <= S (length l))%nat); [done|]. rewrite Nat.mod_small in H by lia. lia.
Qed.

Lemma full_drop n l : full l -> (n mod BlockSize = 0)%nat -> full (drop n l).
Proof.
  unfold full, BlockSize. rewrite length_drop. intros Hl Hn.
  apply Nat.Div0.mod_divides in Hl as [a Ha]. apply Nat.Div0.mod_divides in Hn as [b Hb].
  rewrite Ha, Hb, <- Nat.mul_sub_distr_l, Nat.mul_comm. apply Nat.Div0.mod_mul.
Qed.

Lemma full_app a b : full a -> full b -> full (a ++ b).
Proof.
  unfold full, BlockSize. rewrite length_app. intros Ha Hb.
  by rewrite Nat.Div0.add_mod, Ha, Hb.
Qed.

Lemma to_blocks_cons b l : length b = BlockSize -> to_blocks (b ++ l) = b :: to_blocks l.
Proof.
  intros Hb. unfold to_blocks. rewrite length_app, Hb.
  replace ((BlockSize + length l) / BlockSize)%nat with (S (length l / BlockSize)).
  - cbn [chunks]. by rewrite take_app_length', drop_app_length'.
  - unfold BlockSize. replace (16 + length l)%nat with (length l + 1 * 16)%nat by lia.
    rewrite Nat.div_add by lia. lia.
Qed.

(** Induction over a list of whole blocks. *)
Lemma full_ind (P : list Z -> Prop) :
  P [] -> (forall b l, length b = BlockSize -> full l -> P l -> P (b ++ l)) ->
  forall l, full l -> P l.
Proof.
  intros H0 Hs l. remember (length l) as n eqn:Hn. revert l Hn.
  induction (lt_wf n) as [n _ IH]. intros l -> Hl. destruct (full_cases l Hl) as [->|Hlen]; [done|].
  rewrite <- (take_drop BlockSize l). apply Hs.
  - rewrite length_take. lia.
  - by apply full_drop.
  - eapply IH; [|reflexivity|by apply full_drop]. rewrite length_drop. unfold BlockSize in *. lia.
Qed.

Lemma to_blocks_app a b : full a -> to_blocks (a ++ b) = to_blocks a ++ to_blocks b.
Proof.
  intros Ha. induction Ha using full_ind; [done|].
  rewrite <- app_assoc, !(to_blocks_cons b0) by done. by rewrite IHHa.
Qed.

Lemma length_xor a b : length a = length b -> length (xor a b) = length a.
Proof. intros. unfold xor. rewrite length_zip_with. lia. Qed.

Lemma xor_xor a b : length a = length b -> xor a (xor a b) = b.
Proof.
  revert b. induction a as [|x a IH]; intros [|y b] Hl; try done. cbn.
  f_equal; [|by apply IH; injection Hl].
  by rewrite <- Z.lxor_assoc, Z.lxor_nilpotent, Z.lxor_0_l.
Qed.

Section Theory.
Context {Block : Type} (NewCipher : list Z -> option Block).
Context (Enc Dec : Block -> list Z -> list Z).
(** A block cipher: both directions keep the length of a block, and the second
    undoes the first. *)
Hypothesis Enc_length : forall k b, length b = BlockSize -> length (Enc k b) = BlockSize.
Hypothesis Dec_length : forall k b, length b = BlockSize -> length (Dec k b) = BlockSize.
Hypothesis Dec_Enc : forall k b, length b = BlockSize -> Dec k (Enc k b) = b.

Notation encBlocks := (encBlocks Enc).
Notation decBlocks := (decBlocks Dec).

Lemma encBlocks_app k prev a b :
  encBlocks k prev (a ++ b) =
  let '(o1, p1) := encBlocks k prev a in
  let '(o2, p2) := encBlocks k p1 b in (o1 ++ o2, p2).
Proof.
  revert prev. induction a as [|x a IH]; intros prev; cbn [app Cbc.encBlocks].
  { by destruct (encBlocks k prev b). }
  rewrite IH. destruct (encBlocks k _ a) as [o1 p1]. destruct (encBlocks k p1 b) as [o2 p2].
  by rewrite app_assoc.
Qed.

Lemma decBlocks_app k prev a b :
  decBlocks k prev (a ++ b) =
  let '(o1, p1) := decBlocks k prev a in
  let '(o2, p2) := decBlocks k p1 b in (o1 ++ o2, p2).
Proof.
  revert prev. induction a as [|x a IH]; intros prev; cbn [app Cbc.decBlocks].
  { by destruct (decBlocks k prev b). }
  rewrite IH. destruct (decBlocks k x a) as [o1 p1]. destruct (decBlocks k p1 b) as [o2 p2].
  by rewrite app_assoc.
Qed.

Lemma encBlocks_length k prev l :
  full l -> length prev = BlockSize ->
  length (encBlocks k prev (to_blocks l)).1 = length l /\
  length (encBlocks k prev (to_blocks l)).2 = BlockSize.
Proof.
  intros Hl. revert prev. induction Hl using full_ind; intros prev Hp; [done|].
  rewrite to_blocks_cons by done. cbn [Cbc.encBlocks].
  assert (length (Enc k (xor prev b)) = BlockSize) as Hc by (apply Enc_length; rewrite length_xor; lia).
  destruct (IHHl _ Hc) as [H1 H2]. destruct (encBlocks k _ _) as [o p]. cbn in *.
  rewrite !length_app. lia.
Qed.

Lemma decBlocks_length k prev l :
  full l -> length prev = BlockSize ->
  length (decBlocks k prev (to_blocks l)).1 = length l /\
  length (decBlocks k prev (to_blocks l)).2 = BlockSize.
Proof.
  intros Hl. revert prev. induction Hl using full_ind; intros prev Hp; [done|].
  rewrite to_blocks_cons by done. cbn [Cbc.decBlocks].
  destruct (IHHl b) as [H1 H2]; [done|]. destruct (decBlocks k b _) as [o p]. cbn in *.
  rewrite !length_app, length_xor by (rewrite Dec_length; done). lia.
Qed.

(** Chaining back undoes chaining. *)
Lemma dec_enc k prev l :
  full l -> length prev = BlockSize ->
  (decBlocks k prev (to_blocks (encBlocks k prev (to_blocks l)).1)).1 = l.
Proof.
  intros Hl. revert prev. induction Hl using full_ind; intros prev Hp; [done|].
  rewrite to_blocks_cons by done. cbn [Cbc.encBlocks].
  assert (length (Enc k (xor prev b)) = BlockSize) as Hc by (apply Enc_length; rewrite length_xor; lia).
  specialize (IHHl _ Hc). destruct (encBlocks k _ _) as [o p]. cbn [fst] in *.
  rewrite to_blocks_cons by done. cbn [Cbc.decBlocks].
  destruct (decBlocks k _ (to_blocks o)) as [o' p']. cbn [fst] in *.
  rewrite Dec_Enc, xor_xor by (rewrite ?length_xor; lia). by rewrite IHHl.
Qed.

(** ** Round trips and equivalences *)

Definition padded (p : list Z) : list Z := p ++ padding (BlockSize - length p mod BlockSize).

Lemma padding_length n : length (padding n) = n.
Proof. apply length_replicate. Qed.

Lemma padded_full p : full (padded p).
Proof.
  unfold full, padded. rewrite length_app, padding_length. unfold BlockSize.
  rewrite (Nat.div_mod_eq (length p) 16) at 1.
  pose proof (Nat.mod_upper_bound (length p) 16 ltac:(lia)).
  replace (16 * (length p / 16) + length p mod 16 + (16 - length p mod 16))%nat
    with ((1 + length p / 16) * 16)%nat by lia. apply Nat.Div0.mod_mul.
Qed.

Lemma CryptBlocks_full f prev l : full l -> CryptBlocks f prev l = Ret (f prev (to_blocks l)).
Proof. unfold full, CryptBlocks. by intros ->. Qed.

Lemma checkIV_ok iv : length iv = BlockSize -> checkIV iv = Ret tt.
Proof. unfold checkIV. by intros ->. Qed.

Lemma unpad_padded p : unpad (padded p) = Ret (inr p).
Proof.
  unfold unpad, padded. set (n := (BlockSize - length p mod BlockSize)%nat).
  assert (0 < n <= 16)%nat as Hn
    by (unfold n, BlockSize; pose proof (Nat.mod_upper_bound (length p) 16 ltac:(lia)); lia).
  rewrite length_app, padding_length.
  assert (at_ (p ++ padding n) (Z.of_nat (length p + n) - 1) = Ret (Z.of_nat n)) as ->.
  { unfold at_. destruct (Z.ltb_spec (Z.of_nat (length p + n) - 1) 0); [lia|].
    rewrite lookup_app_r by lia. unfold padding, uint8. rewrite Z.mod_small by lia.
    rewrite lookup_replicate_2 by lia. done. }
  unfold mbind, outcome_bind. destruct (Z.gtb_spec (Z.of_nat n) (Z.of_nat (length p + n))); [lia|].
  do 2 f_equal. apply take_app_length'. lia.
Qed.

Lemma start_full p : full (take (length p - length p mod BlockSize) p).
Proof.
  unfold full. rewrite length_take.
  pose proof (Nat.div_mod_eq (length p) BlockSize). pose proof (Nat.mod_upper_bound (length p) BlockSize).
  replace (Nat.min _ _) with (length p / BlockSize * BlockSize)%nat by lia. apply Nat.Div0.mod_mul.
Qed.

(** The start and the last block, chained, are the padded plaintext. *)
Lemma crypt_padded k iv p :
  let n := (length p - length p mod BlockSize)%nat in
  ('(c1, prev) ← CryptBlocks (encBlocks k) iv (take n p);
   '(c2, _) ← CryptBlocks (encBlocks k) prev (drop n p ++ padding (BlockSize - length p mod BlockSize));
   Ret (c1 ++ c2)) = Ret (encBlocks k iv (to_blocks (padded p))).1.
Proof.
  intros n. assert (padded p = take n p ++ drop n p ++ padding (BlockSize - length p mod BlockSize)) as Hp
    by (unfold padded; by rewrite app_assoc, take_drop).
  assert (full (drop n p ++ padding (BlockSize - length p mod BlockSize))) as Hf.
  { replace (drop n p ++ _) with (drop n (padded p)).
    - apply full_drop; [apply padded_full|]. pose proof (start_full p) as H. fold n in H.
      unfold full in H. rewrite length_take in H. by replace (n `min` length p)%nat with n in H by lia.
    - unfold padded. rewrite drop_app_le by lia. done. }
  rewrite CryptBlocks_full by apply start_full. unfold mbind, outcome_bind.
  rewrite Hp, to_blocks_app, encBlocks_app by apply start_full.
  destruct (encBlocks k iv _) as [c1 prev]. rewrite CryptBlocks_full by done.
  by destruct (encBlocks k prev _).
Qed.

Lemma Encrypt_padded key iv random p k :
  NewCipher key = Some k -> length iv = BlockSize ->
  Encrypt NewCipher Enc key (Some iv) random p = Ret (inr (encBlocks k iv (to_blocks (padded p))).1).
Proof.
  intros Hk Hiv. unfold Encrypt. rewrite Hk, checkIV_ok by done.
  pose proof (crypt_padded k iv p) as Hc. cbn zeta in Hc. unfold mbind, outcome_bind in *.
  destruct (CryptBlocks _ iv _) as [[c1 prev]|]; [|done].
  destruct (CryptBlocks _ prev _) as [[c2 ?]|]; [|done]. by injection Hc as ->.
Qed.

Lemma Decrypt_full key iv c k :
  NewCipher key = Some k -> length iv = BlockSize -> full c -> c <> [] ->
  Decrypt NewCipher Dec key iv c = unpad (decBlocks k iv (to_blocks c)).1.
Proof.
  intros Hk Hiv Hc Hne. unfold Decrypt. rewrite Hk.
  destruct (Nat.eqb_spec (length c) 0) as [H0|_]; [by destruct c|]. unfold full in Hc. rewrite Hc. cbn [orb negb Nat.eqb].
  rewrite checkIV_ok, CryptBlocks_full by done. unfold mbind, outcome_bind.
  by destruct (decBlocks k iv (to_blocks c)).
Qed.

Lemma padded_nonempty p : padded p <> [].
Proof.
  intros H. apply (f_equal length) in H. unfold padded, BlockSize in H. rewrite length_app, padding_length in H.
  pose proof (Nat.mod_upper_bound (length p) 16 ltac:(lia)). simpl in H. lia.
Qed.

Lemma ciphertext_full k iv p :
  length iv = BlockSize ->
  full (encBlocks k iv (to_blocks (padded p))).1 /\ (encBlocks k iv (to_blocks (padded p))).1 <> [].
Proof.
  intros Hiv. destruct (encBlocks_length k iv (padded p) (padded_full p) Hiv) as [Hl _]. split.
  - unfold full. rewrite Hl. apply padded_full.
  - intros H. rewrite H in Hl. apply (padded_nonempty p). by destruct (padded p).
Qed.

Lemma Decrypt_ciphertext key iv p k :
  NewCipher key = Some k -> length iv = BlockSize ->
  Decrypt NewCipher Dec key iv (encBlocks k iv (to_blocks (padded p))).1 = Ret (inr p).
Proof.
  intros Hk Hiv. destruct (ciphertext_full k iv p Hiv) as [Hf Hne].
  rewrite (Decrypt_full key iv _ k) by done.
  rewrite dec_enc by (done || apply padded_full). apply unpad_padded.
Qed.

(** Decryption undoes encryption, whatever the length of the plaintext. *)
Theorem Decrypt_Encrypt key iv random p k :
  NewCipher key = Some k -> length iv = BlockSize ->
  exists c, Encrypt NewCipher Enc key (Some iv) random p = Ret (inr c) /\
            Decrypt NewCipher Dec key iv c = Ret (inr p).
Proof. intros Hk Hiv. eexists. split; [by apply Encrypt_padded|by apply Decrypt_ciphertext]. Qed.

Lemma Encrypt_prefixed key iv p k :
  NewCipher key = Some k -> length iv = BlockSize ->
  Encrypt NewCipher Enc key None (Some iv) p = Ret (inr (iv ++ (encBlocks k iv (to_blocks (padded p))).1)).
Proof.
  intros Hk Hiv. unfold Encrypt. rewrite Hk, checkIV_ok by done.
  pose proof (crypt_padded k iv p) as Hc. cbn zeta in Hc. unfold mbind, outcome_bind in *.
  destruct (CryptBlocks _ iv _) as [[c1 prev]|]; [|done].
  destruct (CryptBlocks _ prev _) as [[c2 ?]|]; [|done]. by injection Hc as ->.
Qed.

(** *** In place *)

Definition no_fault : file_fate := mkFileFate false (fun _ => false) (fun _ => false) false.

Lemma write_at_tail done_ new rest :
  (length new <= length rest)%nat ->
  write_at (length done_) new (done_ ++ rest) = done_ ++ new ++ drop (length new) rest.
Proof.
  intros Hl. unfold write_at. rewrite take_app_length. do 2 f_equal.
  rewrite drop_app_ge by lia. f_equal. lia.
Qed.

(** What the loop leaves: the last byte of the plaintext, and the file with the
    rest decrypted. *)
Lemma decryptLoop_spec k bufSize turns : forall turn prev lastByte done_ rest,
  full rest -> (length rest <= turns)%nat -> (0 < bufSize)%nat -> (bufSize mod BlockSize = 0)%nat ->
  length prev = BlockSize ->
  let out := (decBlocks k prev (to_blocks rest)).1 in
  decryptLoop Dec no_fault turns turn bufSize k prev (length done_) lastByte (done_ ++ rest)
    = Ret (inr (default lastByte (last out), done_ ++ out)).
Proof.
  induction turns as [|turns IH]; intros turn prev lastByte done_ rest Hf Hl Hb Hm Hp.
  { by destruct rest; [|simpl in Hl; lia]. }
  cbn [decryptLoop]. rewrite length_app.
  destruct (Nat.leb_spec (length done_ + length rest) (length done_)) as [Hz|Hz].
  { by destruct rest; [|simpl in Hz; lia]. }
  cbn [read_fails write_fails no_fault]. rewrite drop_app_length.
  set (n := if (_ <? _)%nat then _ else _).
  assert (n = Nat.min bufSize (length rest)) as Hn
    by (unfold n; destruct (Nat.ltb_spec (length done_ + length rest) (length done_ + bufSize)); lia).
  clearbody n. assert (n mod BlockSize = 0)%nat as Hnm.
  { subst n. destruct (Nat.min_spec bufSize (length rest)) as [[_ ->]|[_ ->]]; [done|apply Hf]. }
  assert (full (take n rest)) as Hft
    by (unfold full; rewrite length_take; by replace (n `min` length rest)%nat with n by lia).
  rewrite CryptBlocks_full by done. unfold mbind, outcome_bind.
  pose proof (decBlocks_length k prev (take n rest) Hft Hp) as [Hlen Hlast].
  assert (decBlocks k prev (to_blocks rest) =
    let '(o1, p1) := decBlocks k prev (to_blocks (take n rest)) in
    let '(o2, p2) := decBlocks k p1 (to_blocks (drop n rest)) in (o1 ++ o2, p2)) as ->.
  { by rewrite <- decBlocks_app, <- to_blocks_app, take_drop. }
  destruct (decBlocks k prev (to_blocks (take n rest))) as [buf prev'] eqn:E1. cbn [fst snd] in *.
  rewrite length_take in Hlen. replace (n `min` length rest)%nat with n in Hlen by lia.
  destruct (at_in_range buf (Z.of_nat n - 1)) as (x & Hx & Hxl); [lia|]. rewrite Hx.
  rewrite write_at_tail by lia. rewrite Hlen, app_assoc.
  replace (length done_ + n)%nat with (length (done_ ++ buf)) by (rewrite length_app; lia).
  rewrite (IH (S turn) prev' x (done_ ++ buf) (drop n rest))
    by (done || (by apply full_drop) || (rewrite length_drop; lia)).
  destruct (decBlocks k prev' (to_blocks (drop n rest))) as [o2 p2]. cbn [fst].
  rewrite <- app_assoc. do 3 f_equal. rewrite last_app.
  destruct (last o2) as [y|]; [done|]. rewrite last_lookup.
  replace (pred (length buf)) with (Z.to_nat (Z.of_nat n - 1)) by lia. by rewrite Hxl.
Qed.

Lemma min_full n : (n mod BlockSize = 0)%nat -> (Nat.min n bufMax mod BlockSize = 0)%nat.
Proof. intros Hn. by destruct (Nat.min_spec n bufMax) as [[_ ->]|[_ ->]]. Qed.

(** Decrypting a file in place is decrypting its contents, in every case but
    one: chunk after chunk, with the same error for a size that is not a
    multiple of the block size and for padding that is too long.  An empty file
    is accepted and left empty, where [Decrypt] refuses an empty ciphertext. *)
Theorem DecryptFile_Decrypt key iv file :
  length iv = BlockSize ->
  DecryptFile NewCipher Dec no_fault key iv file =
  if decide (file = [] /\ NewCipher key <> None) then Ret (inr [])
  else Decrypt NewCipher Dec key iv file.
Proof.
  intros Hiv. unfold DecryptFile. destruct (NewCipher key) as [k|] eqn:Hk.
  2:{ rewrite decide_False by (intros [_ H]; done). unfold Decrypt. by rewrite Hk. }
  rewrite checkIV_ok by done. unfold mbind, outcome_bind. cbn [stat_fails truncate_fails no_fault].
  destruct (decide (file = [])) as [->|Hne]; [by rewrite decide_True|]. rewrite decide_False by (by intros [? _]).
  destruct (Nat.eqb_spec (length file mod BlockSize) 0) as [Hf|Hf]; cbn [negb].
  2:{ unfold Decrypt. rewrite Hk. apply Nat.eqb_neq in Hf. rewrite Hf. by rewrite orb_true_r. }
  rewrite (Decrypt_full key iv file k) by done.
  assert (0 < length file)%nat by (destruct file; [done|simpl; lia]).
  assert (0 < bufMax)%nat by (unfold bufMax; lia).
  pose proof (decryptLoop_spec k (Nat.min (length file) bufMax) (length file) 0 iv 0 [] file Hf ltac:(lia)
    ltac:(lia) (min_full _ Hf) Hiv) as He. cbn zeta in He. cbn [length app] in He. rewrite He.
  destruct (decBlocks_length k iv file Hf Hiv) as [Hlen _].
  set (out := (decBlocks k iv (to_blocks file)).1) in *. unfold unpad, mbind, outcome_bind. rewrite Hlen.
  destruct (at_in_range out (Z.of_nat (length file) - 1)) as (x & -> & Hxl); [lia|].
  rewrite last_lookup, Hlen.
  replace (pred (length file)) with (Z.to_nat (Z.of_nat (length file) - 1)) by lia. by rewrite Hxl.
Qed.

(** *** As a stream *)

Definition never : nat -> bool := fun _ => false.
Context (sha256 : list Z -> list Z) (hmac_sha256 : list Z -> list Z -> list Z).

Lemma bufMax_full : (bufMax mod BlockSize = 0)%nat.
Proof. reflexivity. Qed.

Lemma size_mod size n : (size mod BlockSize = 0)%nat -> ((size + n) mod BlockSize = n mod BlockSize)%nat.
Proof. intros Hs. by rewrite Nat.Div0.add_mod, Hs, Nat.add_0_l, Nat.Div0.mod_mod. Qed.

Lemma encryptLoop_spec k turns : forall turn prev size rest written,
  (length rest / bufMax < turns)%nat -> (size mod BlockSize = 0)%nat ->
  encryptLoop Enc turns turn false never k prev size rest written
  = Ret (inr ((size + length rest)%nat, (BlockSize - length rest mod BlockSize)%nat,
              written ++ (encBlocks k prev (to_blocks (padded rest))).1)).
Proof.
  induction turns as [|turns IH]; intros turn prev size rest written Ht Hs; [lia|].
  assert (0 < bufMax)%nat as Hpos by (unfold bufMax; lia).
  cbn [encryptLoop]. unfold never at 1. rewrite length_take. rewrite andb_false_r.
  destruct (Nat.ltb_spec (bufMax `min` length rest) bufMax) as [Hlt|Hge]; cbn [negb].
  - rewrite take_ge by lia. replace (bufMax `min` length rest)%nat with (length rest) by lia.
    rewrite size_mod by done. fold (padded rest). rewrite CryptBlocks_full by apply padded_full.
    unfold mbind, outcome_bind. by destruct (encBlocks k prev _).
  - assert (bufMax <= length rest)%nat as Hlen by lia.
    replace (bufMax `min` length rest)%nat with bufMax by lia. rewrite app_nil_r.
    assert (full (take bufMax rest)) as Hft
      by (unfold full; rewrite length_take; replace (bufMax `min` length rest)%nat with bufMax by lia; apply bufMax_full).
    rewrite CryptBlocks_full by done. unfold mbind, outcome_bind.
    assert (length rest = bufMax + length (drop bufMax rest))%nat as Hl by (rewrite length_drop; lia).
    assert (length rest mod BlockSize = length (drop bufMax rest) mod BlockSize)%nat as Hmod
      by (rewrite Hl; apply size_mod, bufMax_full).
    assert (padded rest = take bufMax rest ++ padded (drop bufMax rest)) as ->
      by (unfold padded; by rewrite <- Hmod, app_assoc, take_drop).
    rewrite to_blocks_app, encBlocks_app by done.
    destruct (encBlocks k prev (to_blocks (take bufMax rest))) as [o1 p1].
    rewrite IH.
    + destruct (encBlocks k p1 _) as [o2 p2]. cbn [fst]. rewrite <- app_assoc, <- Hmod. do 4 f_equal. lia.
    + rewrite Hl in Ht. replace (bufMax + length (drop bufMax rest))%nat
        with (length (drop bufMax rest) + 1 * bufMax)%nat in Ht by lia. rewrite Nat.div_add in Ht by lia. lia.
    + rewrite size_mod by done. apply bufMax_full.
Qed.

(** Encrypting a stream is encrypting its contents: when nothing fails, what is
    written is the ciphertext that [Encrypt] computes for the whole plaintext
    followed by ten bytes of its checksum, the hashes are those of the
    plaintext and of what is written, and the sizes are their lengths. *)
Theorem EncryptStream_Encrypt key iv macKey plaintext k random :
  NewCipher key = Some k -> length iv = BlockSize ->
  (forall key data, (10 <= length (hmac_sha256 key data))%nat) ->
  exists c, Encrypt NewCipher Enc key (Some iv) random plaintext = Ret (inr c) /\
    let out := c ++ take 10 (hmac_sha256 macKey (iv ++ c)) in
    EncryptStream NewCipher Enc sha256 hmac_sha256 false never false key iv macKey plaintext
    = Ret (inr (sha256 plaintext, sha256 out, Z.of_nat (length plaintext), Z.of_nat (length out), out)).
Proof.
  intros Hk Hiv Hmac. eexists. split; [by apply Encrypt_padded|]. unfold EncryptStream.
  rewrite Hk, checkIV_ok, encryptLoop_spec by (done || lia). unfold mbind, outcome_bind. cbn [app].
  do 2 f_equal. rewrite length_app, length_take.
  destruct (encBlocks_length k iv (padded plaintext) (padded_full _) Hiv) as [-> _].
  assert (length (padded plaintext) = length plaintext + (BlockSize - length plaintext mod BlockSize))%nat as ->
    by (unfold padded; by rewrite length_app, padding_length).
  by rewrite Nat.min_l, Nat.add_assoc by apply Hmac.
Qed.
End Theory.

(** ** Witnesses: a cipher that reverses its blocks *)

Definition toy_cipher (key : list Z) : option Z := head key.
Definition toy_enc (k : Z) (b : list Z) : list Z := reverse b.

Lemma toy_length k b : length b = BlockSize -> length (toy_enc k b) = BlockSize.
Proof. by unfold toy_enc; rewrite length_reverse. Qed.
Lemma toy_inverse k b : length b = BlockSize -> toy_enc k (toy_enc k b) = b.
Proof. intros. unfold toy_enc. apply reverse_involutive. Qed.

Definition toy_iv : list Z := repeat 7 16.
Definition toy_plain : list Z := [1; 2; 3; 4; 5; 6; 7; 8; 9; 10; 11; 12; 13; 14; 15; 16; 17; 18].

Lemma Decrypt_Encrypt_witness :
  exists c, Encrypt toy_cipher toy_enc [5] (Some toy_iv) None toy_plain = Ret (inr c) /\
            Decrypt toy_cipher toy_enc [5] toy_iv c = Ret (inr toy_plain).
Proof.
  apply (Decrypt_Encrypt toy_cipher toy_enc toy_enc toy_length toy_inverse [5] toy_iv None toy_plain 5);
    reflexivity.
Defined.

Lemma DecryptFile_Decrypt_witness :
  DecryptFile toy_cipher toy_enc no_fault [5] toy_iv (repeat 3 32) = Decrypt toy_cipher toy_enc [5] toy_iv (repeat 3 32).
Proof.
  exact (DecryptFile_Decrypt toy_cipher toy_enc toy_length [5] toy_iv (repeat 3 32) eq_refl).
Defined.

Lemma EncryptStream_Encrypt_witness :
  exists c, Encrypt toy_cipher toy_enc [5] (Some toy_iv) None toy_plain = Ret (inr c) /\
    let out := c ++ take 10 (repeat 0 32) in
    EncryptStream toy_cipher toy_enc id (fun _ _ => repeat 0 32) false never false [5] toy_iv [] toy_plain
    = Ret (inr (toy_plain, out, 18, Z.of_nat (length out), out)).
Proof.
  apply (EncryptStream_Encrypt toy_cipher toy_enc toy_length
    id (fun _ _ => repeat 0 32) [5] toy_iv [] toy_plain 5 None); [reflexivity|reflexivity|].
  intros. simpl. lia.
Defined.
