(* ===== verification/LtHash.v ===== *)
(** * [whatsmeow/appstate/lthash/lthash.go]

    [LTHash]: a sum of the expanded items in 16-bit words, from which items can
    be taken out again.  The expansion ([hkdfutil.SHA256]) is an argument; its
    result has as many bytes as it is asked for. *)
From S2P Require Import Prelude BinaryNode.

Record LTHash : Type := mkLTHash { HKDFInfo : Bytes; HKDFSize : Z }.

Definition WAPatchIntegrity : LTHash := mkLTHash (codes "WhatsApp Patch Integrity") 128.

(** [binary.LittleEndian.Uint16] and [PutUint16], two bytes at a time; a slice
    of an [input] that is too short panics. *)
Definition word (b0 b1 : Z) : Z := b0 + Z.shiftl b1 8.
Fixpoint performPointwiseWithOverflow (base input : Bytes) (subtract : bool) : outcome Bytes :=
  match base with
  | [] => Ret []
  | [_] => Panic "slice bounds out of range"
  | b0 :: b1 :: base =>
      match input with
      | i0 :: i1 :: input =>
          let x := word b0 b1 in
          let y := word i0 i1 in
          let result := uint16 (if subtract then x - y else x + y) in
          rest ← performPointwiseWithOverflow base input subtract;
          Ret (uint8 result :: uint8 (Z.shiftr result 8) :: rest)
      | _ => Panic "slice bounds out of range"
      end
  end.

Section Hash.
(** [hkdfutil.SHA256(key, salt, info, length)] *)
Context (hkdf_SHA256 : Bytes -> Bytes -> Bytes -> Z -> Bytes).

Fixpoint multipleOp (lth : LTHash) (base : Bytes) (input : list Bytes) (subtract : bool) : outcome Bytes :=
  match input with
  | [] => Ret base
  | item :: input =>
      base ← performPointwiseWithOverflow base (hkdf_SHA256 item [] (HKDFInfo lth) (HKDFSize lth)) subtract;
      multipleOp lth base input subtract
  end.

(** The contents of [base] afterwards. *)
Definition SubtractThenAddInPlace (lth : LTHash) (base : Bytes) (subtract add : list Bytes) : outcome Bytes :=
  base ← multipleOp lth base subtract true;
  multipleOp lth base add false.
Definition SubtractThenAdd (lth : LTHash) (base : Bytes) (subtract add : list Bytes) : outcome Bytes :=
  SubtractThenAddInPlace lth base subtract add.
End Hash.

(** ** The group of hashes

    A hash of [n] words is a vector of integers modulo 2^16. *)

Definition is_byte (b : Z) : Prop := 0 <= b < 256.
Definition vec (n : nat) (l : Bytes) : Prop := length l = (2 * n)%nat /\ Forall is_byte l.

Fixpoint words (l : Bytes) : list Z :=
  match l with b0 :: b1 :: l => word b0 b1 :: words l | _ => [] end.
Definition bytes_of_word (w : Z) : Bytes := [uint8 w; uint8 (Z.shiftr w 8)].
Fixpoint of_words (l : list Z) : Bytes :=
  match l with [] => [] | w :: l => bytes_of_word w ++ of_words l end.

Definition is_word (w : Z) : Prop := 0 <= w < 2 ^ 16.

Lemma word_shift b0 b1 : word b0 b1 = b0 + 256 * b1.
Proof. unfold word. rewrite Z.shiftl_mul_pow2 by lia. lia. Qed.

Lemma bytes_of_word_word b0 b1 : is_byte b0 -> is_byte b1 -> bytes_of_word (word b0 b1) = [b0; b1].
Proof.
  unfold is_byte, bytes_of_word, uint8. intros. rewrite Z.shiftr_div_pow2, word_shift by lia.
  f_equal; [div_lia|]. f_equal. div_lia.
Qed.

Lemma word_bytes_of_word w : is_word w -> word (uint8 w) (uint8 (Z.shiftr w 8)) = w.
Proof.
  unfold is_word, uint8. intros. rewrite word_shift, Z.shiftr_div_pow2 by lia. div_lia.
Qed.

Lemma vec_ind (P : nat -> Bytes -> Prop) :
  P O [] -> (forall n b0 b1 l, is_byte b0 -> is_byte b1 -> vec n l -> P n l -> P (S n) (b0 :: b1 :: l)) ->
  forall n l, vec n l -> P n l.
Proof.
  intros H0 HS n. induction n as [|n IH]; intros l [Hl Hb].
  - by destruct l.
  - destruct l as [|b0 [|b1 l]]; simpl in Hl; try lia.
    inversion Hb as [|? ? H1 Hb']; subst. inversion Hb' as [|? ? H2 Hb'']; subst.
    assert (vec n l) by (split; [lia|done]). by apply HS; [| | |apply IH].
Qed.

Lemma words_vec n l : vec n l -> length (words l) = n /\ Forall is_word (words l) /\ of_words (words l) = l.
Proof.
  intros Hv. induction Hv as [|n b0 b1 l H0 H1 Hv (IH1 & IH2 & IH3)] using vec_ind; [by repeat split|].
  cbn [words length of_words]. rewrite IH1, IH3, bytes_of_word_word by done. repeat split.
  constructor; [|done]. unfold is_word, is_byte in *. rewrite word_shift. lia.
Qed.

Lemma of_words_vec l : Forall is_word l -> vec (length l) (of_words l) /\ words (of_words l) = l.
Proof.
  induction 1 as [|w l Hw _ [[IH1 IH2] IH3]]; [by repeat split|]. cbn [of_words bytes_of_word app words length].
  rewrite word_bytes_of_word, IH3 by done. repeat split; [simpl; lia|]. unfold is_byte, uint8.
  constructor; [apply Z.mod_pos_bound; lia|]. constructor; [apply Z.mod_pos_bound; lia|done].
Qed.

Lemma words_inj n l l' : vec n l -> vec n l' -> words l = words l' -> l = l'.
Proof.
  intros Hl Hl' He. destruct (words_vec n l Hl) as (_ & _ & <-), (words_vec n l' Hl') as (_ & _ & <-).
  by rewrite He.
Qed.

Definition signed (subtract : bool) (y : Z) : Z := if subtract then - y else y.
Definition add16 (x y : Z) : Z := uint16 (x + y).

(** The pointwise operation on words. *)
Lemma pointwise_words n base input subtract :
  vec n base -> vec n input ->
  exists r, performPointwiseWithOverflow base input subtract = Ret r /\ vec n r /\
    words r = zip_with add16 (words base) (signed subtract <$> words input).
Proof.
  intros Hb. revert input. induction Hb as [|n b0 b1 l H0 H1 Hv IH] using vec_ind; intros input Hi.
  { by exists []. }
  destruct Hi as [Hl Hf]. destruct input as [|i0 [|i1 input]]; simpl in Hl; try lia.
  inversion Hf as [|? ? Hi0 Hf']; subst. inversion Hf' as [|? ? Hi1 Hf'']; subst.
  destruct (IH input) as (r & He & [Hrl Hrb] & Hw); [by split; [lia|]|].
  cbn [performPointwiseWithOverflow]. unfold mbind, outcome_bind. rewrite He.
  eexists. split; [reflexivity|].
  assert (is_word (uint16 (if subtract then word b0 b1 - word i0 i1 else word b0 b1 + word i0 i1))) as Hwd
    by (unfold is_word, uint16; apply Z.mod_pos_bound; lia).
  split; [split; [simpl; lia|]|].
  - unfold is_byte, uint8. by constructor; [apply Z.mod_pos_bound; lia|]; constructor; [apply Z.mod_pos_bound; lia|].
  - cbn [words]. rewrite word_bytes_of_word, Hw by done. cbn. f_equal. unfold add16, signed. f_equal. destruct subtract; lia.
Qed.

Section Laws.
Context (hkdf_SHA256 : Bytes -> Bytes -> Bytes -> Z -> Bytes) (lth : LTHash) (n : nat).
(** The expansion of an item fills the hash. *)
Hypothesis hkdf_fills : forall item, vec n (hkdf_SHA256 item [] (HKDFInfo lth) (HKDFSize lth)).

Definition expand (item : Bytes) : list Z := words (hkdf_SHA256 item [] (HKDFInfo lth) (HKDFSize lth)).
(** Adding (or subtracting) items to a vector of words, one after the other. *)
Definition fold_words (subtract : bool) (items : list Bytes) (ws : list Z) : list Z :=
  foldl (fun ws item => zip_with add16 ws (signed subtract <$> expand item)) ws items.

Lemma multipleOp_words base input subtract :
  vec n base ->
  exists r, multipleOp hkdf_SHA256 lth base input subtract = Ret r /\ vec n r /\
    words r = fold_words subtract input (words base).
Proof.
  revert base. induction input as [|item input IH]; intros base Hb; [by exists base|].
  destruct (pointwise_words n base _ subtract Hb (hkdf_fills item)) as (r & He & Hr & Hw).
  cbn [multipleOp]. unfold mbind, outcome_bind. rewrite He. destruct (IH r Hr) as (r' & He' & Hr' & Hw').
  exists r'. split; [done|]. split; [done|]. by rewrite Hw', Hw.
Qed.

(** The sum of a word over items, at a position. *)
Definition total_at (items : list Bytes) (i : nat) : Z :=
  foldr (fun item z => default 0 (expand item !! i) + z) 0 items.

Lemma length_expand item : length (expand item) = n.
Proof. by destruct (words_vec n _ (hkdf_fills item)) as (? & _ & _). Qed.

Lemma fold_words_lookup subtract items ws i w :
  length ws = n -> Forall is_word ws -> ws !! i = Some w ->
  length (fold_words subtract items ws) = n /\
  fold_words subtract items ws !! i = Some (uint16 (w + signed subtract (total_at items i))).
Proof.
  revert ws w. induction items as [|item items IH]; intros ws w Hl Hf Hi.
  { split; [done|]. cbn. rewrite Hi. f_equal.
    assert (is_word w) as Hw by (by eapply Forall_lookup_1).
    unfold uint16, is_word in *. replace (w + signed subtract 0) with w by (unfold signed; destruct subtract; lia).
    by rewrite Z.mod_small. }
  cbn [fold_words foldl total_at foldr]. fold (total_at items i).
  set (ws' := zip_with add16 ws (signed subtract <$> expand item)).
  assert (length ws' = n) as Hl' by (unfold ws'; rewrite length_zip_with, length_fmap, length_expand; lia).
  assert (Forall is_word ws') as Hf'.
  { apply Forall_lookup. intros j y Hy. unfold ws' in Hy. rewrite lookup_zip_with_Some in Hy.
    destruct Hy as (a & b & -> & _ & _). unfold is_word, add16, uint16. apply Z.mod_pos_bound. lia. }
  destruct (lookup_lt_is_Some_2 (expand item) i) as [y Hy].
  { rewrite length_expand, <- Hl. by eapply lookup_lt_Some. }
  assert (ws' !! i = Some (uint16 (w + signed subtract y))) as Hw'.
  { unfold ws'. rewrite lookup_zip_with, Hi, list_lookup_fmap, Hy. done. }
  destruct (IH ws' _ Hl' Hf' Hw') as [H1 H2]. split; [done|]. fold (fold_words subtract items ws').
  rewrite H2, Hy. cbn. f_equal. unfold uint16. rewrite Z.add_mod_idemp_l by lia. f_equal.
  unfold signed. destruct subtract; lia.
Qed.

Lemma total_at_perm items items' i : items ≡ₚ items' -> total_at items i = total_at items' i.
Proof. unfold total_at. induction 1 as [|x l l0 _ IH|x y l|l1 l2 l3 _ IH1 _ IH2]; cbn [foldr]; [done|by rewrite IH|lia|by rewrite IH1]. Qed.

Lemma total_at_app items items' i : total_at (items ++ items') i = total_at items i + total_at items' i.
Proof. unfold total_at. induction items as [|x items IH]; cbn [app foldr]; [lia|rewrite IH; lia]. Qed.

(** What the words of a hash are after items are taken out and put in. *)
Lemma SubtractThenAdd_words base subtract add :
  vec n base ->
  exists r, SubtractThenAdd hkdf_SHA256 lth base subtract add = Ret r /\ vec n r /\
    forall i w, words base !! i = Some w ->
      words r !! i = Some (uint16 (w - total_at subtract i + total_at add i)).
Proof.
  intros Hb. unfold SubtractThenAdd, SubtractThenAddInPlace, mbind, outcome_bind.
  destruct (multipleOp_words base subtract true Hb) as (r1 & -> & Hr1 & Hw1).
  destruct (multipleOp_words r1 add false Hr1) as (r2 & -> & Hr2 & Hw2).
  exists r2. split; [done|]. split; [done|]. intros i w Hi.
  destruct (words_vec n base Hb) as (Hl & Hf & _).
  destruct (fold_words_lookup true subtract _ i w Hl Hf Hi) as [_ H1]. rewrite <- Hw1 in H1.
  destruct (words_vec n r1 Hr1) as (Hl1 & Hf1 & _).
  destruct (fold_words_lookup false add _ i _ Hl1 Hf1 H1) as [_ H2]. rewrite <- Hw2 in H2. rewrite H2.
  f_equal. unfold uint16, signed. rewrite Z.add_mod_idemp_l by lia. f_equal; lia.
Qed.

Lemma vec_ext r r' :
  vec n r -> vec n r' -> (forall i, words r !! i = words r' !! i) -> r = r'.
Proof. intros H H' He. apply (words_inj n); [done|done|]. by apply list_eq. Qed.

(** The hash does not depend on an order: taking out and putting in permuted
    items gives the same hash. *)
Theorem lthash_permutation base subtract add subtract' add' :
  vec n base -> subtract ≡ₚ subtract' -> add ≡ₚ add' ->
  SubtractThenAdd hkdf_SHA256 lth base subtract add = SubtractThenAdd hkdf_SHA256 lth base subtract' add'.
Proof.
  intros Hb Hs Ha.
  destruct (SubtractThenAdd_words base subtract add Hb) as (r & -> & Hr & Hw).
  destruct (SubtractThenAdd_words base subtract' add' Hb) as (r' & -> & Hr' & Hw').
  f_equal. apply vec_ext; [done|done|]. intros i.
  destruct (words_vec n base Hb) as (Hl & _). destruct (words_vec n r Hr) as (Hl1 & _).
  destruct (words_vec n r' Hr') as (Hl2 & _).
  destruct (words base !! i) as [w|] eqn:E.
  - rewrite (Hw _ _ E), (Hw' _ _ E). by rewrite (total_at_perm _ _ i Hs), (total_at_perm _ _ i Ha).
  - apply lookup_ge_None in E. by rewrite !lookup_ge_None_2 by lia.
Qed.

(** And it forgets nothing: putting back what was taken out, and taking out
    what was put in, restores it. *)
Theorem lthash_inverse base subtract add :
  vec n base ->
  exists r, SubtractThenAdd hkdf_SHA256 lth base subtract add = Ret r /\
    SubtractThenAdd hkdf_SHA256 lth r add subtract = Ret base.
Proof.
  intros Hb. destruct (SubtractThenAdd_words base subtract add Hb) as (r & -> & Hr & Hw).
  exists r. split; [done|]. destruct (SubtractThenAdd_words r add subtract Hr) as (r' & -> & Hr' & Hw').
  f_equal. apply vec_ext; [done|done|]. intros i.
  destruct (words_vec n base Hb) as (Hl & Hf & _). destruct (words_vec n r' Hr') as (Hl2 & _).
  destruct (words base !! i) as [w|] eqn:E.
  - rewrite (Hw' _ _ (Hw _ _ E)). f_equal.
    assert (is_word w) as Hwd by (by eapply Forall_lookup_1).
    unfold uint16, is_word in *.
    replace ((w - total_at subtract i + total_at add i) mod 2 ^ 16 - total_at add i + total_at subtract i)
      with ((w - total_at subtract i + total_at add i) mod 2 ^ 16 + (total_at subtract i - total_at add i)) by lia.
    rewrite Z.add_mod_idemp_l by lia. rewrite Z.mod_small; lia.
  - apply lookup_ge_None in E. by rewrite lookup_ge_None_2 by lia.
Qed.
End Laws.

(** A concrete expansion. *)
Definition toy_expand (item salt info : Bytes) (n : Z) : Bytes := replicate (Z.to_nat n) (uint8 (foldr Z.add 0 item)).

Lemma toy_expand_fills item : vec 64 (toy_expand item [] (HKDFInfo WAPatchIntegrity) (HKDFSize WAPatchIntegrity)).
Proof.
  split; [done|]. apply Forall_replicate. unfold is_byte, uint8. apply Z.mod_pos_bound. lia.
Qed.

Lemma lthash_permutation_witness :
  SubtractThenAdd toy_expand WAPatchIntegrity (replicate 128 7) [] [[1; 2]; [250; 9]]
  = SubtractThenAdd toy_expand WAPatchIntegrity (replicate 128 7) [] [[250; 9]; [1; 2]].
Proof.
  apply (lthash_permutation toy_expand WAPatchIntegrity 64 toy_expand_fills).
  - split; [done|]. apply Forall_replicate. unfold is_byte. lia.
  - done.
  - apply perm_swap.
Defined.

Lemma lthash_inverse_witness :
  exists r, SubtractThenAdd toy_expand WAPatchIntegrity (replicate 128 7) [[200]] [[1; 2]] = Ret r /\
    SubtractThenAdd toy_expand WAPatchIntegrity r [[1; 2]] [[200]] = Ret (replicate 128 7).
Proof.
  apply (lthash_inverse toy_expand WAPatchIntegrity 64 toy_expand_fills).
  split; [done|]. apply Forall_replicate. unfold is_byte. lia.
Defined.
