(* ===== verification/AppStateDB.v ===== *)
(** * The app state tables of [whatsmeow/store/sqlstore/store.go]

    The three tables, for one account, and the statements of the store on them.
    A write fails when the next of [faults] says so, or when it violates a
    constraint of the schema; a failed statement or transaction changes
    nothing.  Reads fail when the database is [down]. *)
From S2P Require Import Prelude.

Inductive sql_error : Type := ErrConstraint | ErrIO | ErrInvalidLength | ErrVersionZero.

(** [store.AppStateSyncKey] *)
Record AppStateSyncKey : Type := mkSyncKey { Data : Bytes; Fingerprint : Bytes; Timestamp : Z }.

(** A row of [whatsmeow_app_state_mutation_macs]. *)
Record mac_row : Type := mkRow {
  row_name : string;
  row_version : Z;
  row_index : Bytes;
  row_value : Bytes }.

Record AppStateDB : Type := mkDB {
  versions : gmap string (Z * Bytes);
  rows : list mac_row;
  sync_keys : gmap Bytes AppStateSyncKey;
  faults : list bool;
  down : bool }.
#[export] Instance eta_AppStateDB : Eta AppStateDB := fun r =>
  mkDB (versions r) (rows r) (sync_keys r) (faults r) (down r).

(** One statement or one transaction: its effect, or [None] for a violated
    constraint. *)
Definition exec (q : AppStateDB -> option AppStateDB) (db : AppStateDB) : option sql_error * AppStateDB :=
  match faults db with
  | true :: fs => (Some ErrIO, db <| faults := fs |>)
  | _ =>
      let db := db <| faults := tail (faults db) |> in
      match q db with
      | Some db => (None, db)
      | None => (Some ErrConstraint, db)
      end
  end.

(** ** Versions *)

Definition PutAppStateVersion (name : string) (version : Z) (hash : Bytes) : AppStateDB -> option sql_error * AppStateDB :=
  exec (fun db => if decide (length hash = 128%nat)
                  then Some (db <| versions := <[name := (version, hash)]> (versions db) |>) else None).

Definition GetAppStateVersion (name : string) (db : AppStateDB) : sql_error + Z * Bytes :=
  if down db then inl ErrIO
  else
    match versions db !! name with
    | None => inr (0, replicate 128 0)
    | Some (version, uncheckedHash) =>
        if negb (length uncheckedHash =? 128)%nat then inl ErrInvalidLength
        else if version =? 0 then inl ErrVersionZero
        else inr (version, uncheckedHash)
    end.

(** The rows of the name go with it ([ON DELETE CASCADE]). *)
Definition DeleteAppStateVersion (name : string) : AppStateDB -> option sql_error * AppStateDB :=
  exec (fun db =>
    let db := db <| versions := delete name (versions db) |> in
    Some (db <| rows := filter (fun r => row_name r <> name) (rows db) |>)).

(** ** Mutation MACs *)

Definition same_key (r r' : mac_row) : Prop :=
  row_name r = row_name r' /\ row_version r = row_version r' /\ row_index r = row_index r'.
#[export] Instance same_key_dec r r' : Decision (same_key r r').
Proof. unfold same_key. solve_decision. Defined.

(** [INSERT]: the lengths are checked, the name must have a version, and the
    key must be new. *)
Fixpoint insertRows (new : list mac_row) (db : AppStateDB) : option AppStateDB :=
  match new with
  | [] => Some db
  | r :: new =>
      if decide (length (row_index r) = 32%nat /\ length (row_value r) = 32%nat /\
                 is_Some (versions db !! row_name r) /\ Forall (fun r' => ~ same_key r r') (rows db))
      then insertRows new (db <| rows := rows db ++ [r] |>)
      else None
  end.

(** [store.AppStateMutationMAC]: an index and a value.  The batches of 400 run in
    one transaction. *)
Definition PutAppStateMutationMACs (name : string) (version : Z) (mutations : list (Bytes * Bytes))
    (db : AppStateDB) : option sql_error * AppStateDB :=
  match mutations with
  | [] => (None, db)
  | _ => exec (insertRows (map (fun m => mkRow name version m.1 m.2) mutations)) db
  end.

Definition DeleteAppStateMutationMACs (name : string) (indexMACs : list Bytes) (db : AppStateDB)
  : option sql_error * AppStateDB :=
  match indexMACs with
  | [] => (None, db)
  | _ => exec (fun db =>
           Some (db <| rows := filter (fun r => ~ (row_name r = name /\ row_index r ∈ indexMACs)) (rows db) |>)) db
  end.

(** [ORDER BY version DESC LIMIT 1]; the versions of a name and an index are
    distinct. *)
Fixpoint latest (best : option mac_row) (rs : list mac_row) : option mac_row :=
  match rs with
  | [] => best
  | r :: rs =>
      latest (match best with
              | Some b => if row_version b <? row_version r then Some r else best
              | None => Some r
              end) rs
  end.
Definition rows_of (name : string) (index : Bytes) (rs : list mac_row) : list mac_row :=
  filter (fun r => row_name r = name /\ row_index r = index) rs.
Definition GetAppStateMutationMAC (name : string) (indexMAC : Bytes) (db : AppStateDB) : sql_error + option Bytes :=
  if down db then inl ErrIO else inr (row_value <$> latest None (rows_of name indexMAC (rows db))).

(** ** Sync keys *)

(** An older key does not replace a newer one. *)
Definition PutAppStateSyncKey (id : Bytes) (key : AppStateSyncKey) : AppStateDB -> option sql_error * AppStateDB :=
  exec (fun db => Some (db <| sync_keys :=
    match sync_keys db !! id with
    | Some old => if Timestamp key >? Timestamp old then <[id := key]> (sync_keys db) else sync_keys db
    | None => <[id := key]> (sync_keys db)
    end |>)).

Definition GetAppStateSyncKey (id : Bytes) (db : AppStateDB) : sql_error + option AppStateSyncKey :=
  if down db then inl ErrIO else inr (sync_keys db !! id).

(** [rows], in the order the database returns them; the latest comes first. *)
Fixpoint latestKey (best : option (Bytes * AppStateSyncKey)) (ks : list (Bytes * AppStateSyncKey)) : option (Bytes * AppStateSyncKey) :=
  match ks with
  | [] => best
  | k :: ks =>
      latestKey (match best with
                 | Some b => if Timestamp b.2 <? Timestamp k.2 then Some k else best
                 | None => Some k
                 end) ks
  end.
Definition GetLatestAppStateSyncKeyID (db : AppStateDB) : sql_error + option Bytes :=
  if down db then inl ErrIO else inr (fst <$> latestKey None (map_to_list (sync_keys db))).
