(* ===== verification/AppState.v ===== *)
(** * [whatsmeow/appstate]: [hash.go], [keys.go], [decode.go], [encode.go], [recovery.go]

    The app state of an account: collections of values under encrypted indexes,
    changed by patches.  A collection is known by a version and a hash of the
    MACs of its current values, which every patch must match.  The
    cryptographic primitives, the protocol buffers and JSON are arguments; a
    protocol message is the record of the fields that are read, and an action
    is opaque.  The download of external blobs is done before. *)
From S2P Require Import Prelude GoStrings GoTime BinaryNode LtHash AppStateDB Cbc.

(** ** Messages *)

(** [waServerSync.SyncdMutation_SyncdOperation] *)
Inductive SyncdOperation : Type := SyncdMutation_SET | SyncdMutation_REMOVE.
Definition operation_value (op : SyncdOperation) : Z :=
  match op with SyncdMutation_SET => 0 | SyncdMutation_REMOVE => 1 end.
#[export] Instance SyncdOperation_dec : EqDecision SyncdOperation.
Proof. solve_decision. Defined.

(** A mutation with the index, the value and the key of its record. *)
Record SyncdMutation : Type := mkSyncd {
  sm_Operation : SyncdOperation;
  sm_Index : Bytes;
  sm_Value : Bytes;
  sm_KeyID : option Bytes }.

Record SyncdPatch : Type := mkPatch {
  sp_Version : Z;
  sp_Mutations : list SyncdMutation;
  sp_SnapshotMAC : Bytes;
  sp_PatchMAC : Bytes;
  sp_KeyID : option Bytes }.

(** The records of a snapshot: index, value and key. *)
Record SyncdSnapshot : Type := mkSnapshot {
  ss_Version : Z;
  ss_Records : list (Bytes * Bytes * option Bytes);
  ss_Mac : Bytes;
  ss_KeyID : option Bytes }.

Record PatchList : Type := mkPatchList {
  pl_Name : string;
  pl_Patches : list SyncdPatch;
  pl_Snapshot : option SyncdSnapshot }.

(** ** [keys.go] *)

Definition WAPatchCriticalBlock : string := "critical_block".
Definition WAPatchCriticalUnblockLow : string := "critical_unblock_low".
Definition WAPatchRegularLow : string := "regular_low".
Definition WAPatchRegularHigh : string := "regular_high".
Definition WAPatchRegular : string := "regular".
Definition AllPatchNames : list string :=
  [WAPatchCriticalBlock; WAPatchCriticalUnblockLow; WAPatchRegularHigh; WAPatchRegular; WAPatchRegularLow].

Record ExpandedAppStateKeys : Type := mkKeys {
  k_Index : Bytes;
  k_ValueEncryption : Bytes;
  k_ValueMAC : Bytes;
  k_SnapshotMAC : Bytes;
  k_PatchMAC : Bytes }.

Inductive app_error : Type :=
| ErrKeyNotFound
| ErrGetKey (e : sql_error)
| ErrGetPrevious (e : sql_error)
| ErrMismatchingLTHash (version : Z)
| ErrMismatchingPatchMAC (version : Z)
| ErrMismatchingContentMAC (number : Z)
| ErrMismatchingIndexMAC (number : Z)
| ErrDecrypt (number : Z) (e : cbc_error)
| ErrUnmarshal (number : Z)
| ErrIndex (number : Z)
| ErrStoreVersion (e : sql_error)
| ErrStoreRemoved (e : sql_error)
| ErrStoreAdded (e : sql_error)
| ErrMarshal
| ErrEncrypt (e : cbc_error)
| ErrHashLength (len : Z).

Record Processor : Type := mkProcessor {
  keyCache : gmap Bytes ExpandedAppStateKeys;
  Store : AppStateDB }.
#[export] Instance eta_Processor : Eta Processor := fun r => mkProcessor (keyCache r) (Store r).

(** Code that may panic, may fail, and changes the processor. *)
Definition App (A : Type) : Type := Processor -> outcome ((app_error + A) * Processor).
#[export] Instance App_ret : MRet App := fun A a p => Ret (inr a, p).
#[export] Instance App_bind : MBind App := fun A B f m p =>
  match m p with
  | Ret (inr a, p) => f a p
  | Ret (inl e, p) => Ret (inl e, p)
  | Panic msg => Panic msg
  end.
Definition app_fail {A} (e : app_error) : App A := fun p => Ret (inl e, p).
Definition app_lift {A} (m : outcome A) : App A := fun p =>
  match m with Ret a => Ret (inr a, p) | Panic msg => Panic msg end.
Definition app_check (ok : bool) (e : app_error) : App () := if ok then mret tt else app_fail e.
Definition app_some {A} (o : option A) (e : app_error) : App A :=
  match o with Some a => mret a | None => app_fail e end.
Definition app_store (f : AppStateDB -> option sql_error * AppStateDB) (wrap : sql_error -> app_error) : App () :=
  fun p => let '(err, db) := f (Store p) in
           Ret (match err with Some e => inl (wrap e) | None => inr tt end, p <| Store := db |>).

(** [hmac.Equal] *)
Definition hmac_Equal (a b : Bytes) : bool := bool_decide (a = b).

(** [uint64ToBytes] *)
Definition uint64ToBytes (val : Z) : Bytes := intBytes val 8 false.

(** [value[len(value)-32:]] *)
Definition value_mac (value : Bytes) : outcome Bytes :=
  if (length value <? 32)%nat then Panic "slice bounds out of range"
  else Ret (drop (length value - 32) value).

(** ** [hash.go] *)

Record HashState : Type := mkHashState { Version : Z; Hash : Bytes }.
#[export] Instance eta_HashState : Eta HashState := fun r => mkHashState (Version r) (Hash r).

Section Primitives.
Context (hkdf_SHA256 : Bytes -> Bytes -> Bytes -> Z -> Bytes).
(** HMAC with SHA-256 and with SHA-512: a key, and what is written. *)
Context (hmac256 hmac512 : Bytes -> Bytes -> Bytes).
Context {Block : Type} (NewCipher : Bytes -> option Block) (Enc Dec : Block -> Bytes -> Bytes).
(** [SyncActionData]: the encoded index, the action and the version; and the
    JSON of an index. *)
Context {Action : Type}.
Record SyncActionData : Type := mkActionData { sad_Index : Bytes; sad_Value : Action; sad_Version : Z }.
Context (unmarshalAction : Bytes -> option SyncActionData) (marshalAction : SyncActionData -> option Bytes).
Context (unmarshalIndex : Bytes -> option (list string)) (marshalIndex : list string -> option Bytes).
(** [waServerSync.SyncdPatch] *)
Context (marshalPatch : SyncdPatch -> option Bytes).

Definition concatAndHMAC (alg : Bytes -> Bytes -> Bytes) (key : Bytes) (data : list Bytes) : Bytes :=
  alg key (concat data).

(** The loop of [updateHash]: what is added, what is removed, and the warnings. *)
Fixpoint collect (getPrev : Bytes -> nat -> outcome (app_error + option Bytes)) (i : nat)
    (mutations : list SyncdMutation) (added removed warnings : list Bytes)
  : outcome (option app_error * list Bytes * list Bytes * list Bytes) :=
  match mutations with
  | [] => Ret (None, added, removed, warnings)
  | mutation :: mutations =>
      added ← (if decide (sm_Operation mutation = SyncdMutation_SET)
               then mac ← value_mac (sm_Value mutation); Ret (added ++ [mac])
               else Ret added);
      let indexMAC := sm_Index mutation in
      removal ← getPrev indexMAC i;
      match removal with
      | inl e => Ret (Some e, added, removed, warnings)
      | inr (Some removal) => collect getPrev (S i) mutations added (removed ++ [removal]) warnings
      | inr None =>
          collect getPrev (S i) mutations added removed
            (if decide (sm_Operation mutation = SyncdMutation_REMOVE) then warnings ++ [indexMAC] else warnings)
      end
  end.

Definition updateHash (mutations : list SyncdMutation)
    (getPrev : Bytes -> nat -> outcome (app_error + option Bytes)) (hs : HashState)
  : outcome (option app_error * list Bytes * HashState) :=
  '(err, added, removed, warnings) ← collect getPrev 0 mutations [] [] [];
  match err with
  | Some e => Ret (Some e, warnings, hs)
  | None =>
      h ← SubtractThenAddInPlace hkdf_SHA256 WAPatchIntegrity (Hash hs) removed added;
      Ret (None, warnings, hs <| Hash := h |>)
  end.

Definition generateSnapshotMAC (name : string) (key : Bytes) (hs : HashState) : Bytes :=
  concatAndHMAC hmac256 key [Hash hs; uint64ToBytes (Version hs); codes name].

Fixpoint value_macs (mutations : list SyncdMutation) : outcome (list Bytes) :=
  match mutations with
  | [] => Ret []
  | m :: mutations => mac ← value_mac (sm_Value m); macs ← value_macs mutations; Ret (mac :: macs)
  end.

Definition generatePatchMAC (patch : SyncdPatch) (name : string) (key : Bytes) (version : Z) : outcome Bytes :=
  macs ← value_macs (sp_Mutations patch);
  Ret (concatAndHMAC hmac256 key ([sp_SnapshotMAC patch] ++ macs ++ [uint64ToBytes version; codes name])).

Definition generateContentMAC (operation : SyncdOperation) (data keyID key : Bytes) : Bytes :=
  let operationBytes := [uint8 (operation_value operation + 1)] in
  let keyDataLength := uint64ToBytes (Z.of_nat (length keyID) + 1) in
  take 32 (concatAndHMAC hmac512 key [operationBytes; keyID; data; keyDataLength]).

(** ** Keys *)

Definition expandAppStateKeys (keyData : Bytes) : ExpandedAppStateKeys :=
  let e := hkdf_SHA256 keyData [] (codes "WhatsApp Mutation Keys") 160 in
  mkKeys (take 32 e) (take 32 (drop 32 e)) (take 32 (drop 64 e)) (take 32 (drop 96 e)) (take 32 (drop 128 e)).

(** The cache is keyed by the base64 of the id, hence by the id. *)
Definition getAppStateKey (keyID : Bytes) : App ExpandedAppStateKeys := fun proc =>
  match keyCache proc !! keyID with
  | Some keys => Ret (inr keys, proc)
  | None =>
      match GetAppStateSyncKey keyID (Store proc) with
      | inr (Some keyData) =>
          let keys := expandAppStateKeys (Data keyData) in
          Ret (inr keys, proc <| keyCache := <[keyID := keys]> (keyCache proc) |>)
      | inr None => Ret (inl ErrKeyNotFound, proc)
      | inl e => Ret (inl (ErrGetKey e), proc)
      end
  end.

(** An id is checked once; one that cannot be looked up is not missing. *)
Fixpoint missingKeys (db : AppStateDB) (seen : list Bytes) (ids : list (option Bytes)) : list Bytes :=
  match ids with
  | [] => []
  | None :: ids => missingKeys db seen ids
  | Some keyID :: ids =>
      if decide (keyID ∈ seen) then missingKeys db seen ids
      else
        let rest := missingKeys db (keyID :: seen) ids in
        match GetAppStateSyncKey keyID db with inr None => keyID :: rest | _ => rest end
  end.
Definition GetMissingKeyIDs (pl : PatchList) (proc : Processor) : list Bytes :=
  missingKeys (Store proc) []
    (match pl_Snapshot pl with
     | Some ss => ss_KeyID ss :: map snd (ss_Records ss)
     | None => []
     end ++ map sp_KeyID (pl_Patches pl)).

(** ** [decode.go] *)

Record Mutation : Type := mkMutation {
  mu_KeyID : option Bytes;
  mu_Operation : SyncdOperation;
  mu_Action : Action;
  mu_Version : Z;
  mu_Index : list string;
  mu_IndexMAC : Bytes;
  mu_ValueMAC : Bytes;
  mu_PatchVersion : Z }.

(** The third field, the mutations, is kept apart. *)
Record patchOutput : Type := mkOutput { RemovedMACs : list Bytes; AddedMACs : list (Bytes * Bytes) }.

Definition RemoveMAC (indexMAC : Bytes) (out : patchOutput) : patchOutput :=
  mkOutput (RemovedMACs out ++ [indexMAC]) (filter (fun mac => mac.1 <> indexMAC) (AddedMACs out)).
Definition AddMAC (indexMAC valueMAC : Bytes) (out : patchOutput) : patchOutput :=
  mkOutput (RemovedMACs out) (AddedMACs out ++ [(indexMAC, valueMAC)]).

Definition slice (n : nat) (l : Bytes) : outcome (Bytes * Bytes) :=
  if (length l <? n)%nat then Panic "slice bounds out of range" else Ret (take n l, drop n l).

(** The MACs, the index and the action of a mutation. *)
Definition decodeMutation (mutation : SyncdMutation) (i : Z) (validateMACs : bool)
  : App (Bytes * Bytes * list string * SyncActionData) :=
  let keyID := default [] (sm_KeyID mutation) in
  keys ← getAppStateKey keyID;
  let blob := sm_Value mutation in
  valueMAC ← app_lift (value_mac blob);
  let content := take (length blob - 32) blob in
  _ ← (if validateMACs
       then app_check (hmac_Equal (generateContentMAC (sm_Operation mutation) content keyID (k_ValueMAC keys)) valueMAC)
              (ErrMismatchingContentMAC (i + 1))
       else mret tt);
  '(iv, content) ← app_lift (slice 16 content);
  plaintext ← app_lift (Decrypt NewCipher Dec (k_ValueEncryption keys) iv content);
  match plaintext with
  | inl e => app_fail (ErrDecrypt (i + 1) e)
  | inr plaintext =>
      syncAction ← app_some (unmarshalAction plaintext) (ErrUnmarshal (i + 1));
      let indexMAC := sm_Index mutation in
      _ ← (if validateMACs
           then app_check (hmac_Equal (concatAndHMAC hmac256 (k_Index keys) [sad_Index syncAction]) indexMAC)
                  (ErrMismatchingIndexMAC (i + 1))
           else mret tt);
      index ← app_some (unmarshalIndex (sad_Index syncAction)) (ErrIndex (i + 1));
      mret (indexMAC, valueMAC, index, syncAction)
  end.

(** [fakeIndexesToRemove] is nil at both calls. *)
Fixpoint decodeMutations (mutations : list SyncdMutation) (i : Z) (validateMACs : bool) (patchVersion : Z)
    (out : patchOutput) (acc : list Mutation) : App (patchOutput * list Mutation) :=
  match mutations with
  | [] => mret (out, acc)
  | mutation :: mutations =>
      '(indexMAC, valueMAC, index, syncAction) ← decodeMutation mutation i validateMACs;
      let out := match sm_Operation mutation with
                 | SyncdMutation_REMOVE => RemoveMAC indexMAC out
                 | SyncdMutation_SET => AddMAC indexMAC valueMAC out
                 end in
      decodeMutations mutations (i + 1) validateMACs patchVersion out
        (acc ++ [mkMutation (sm_KeyID mutation) (sm_Operation mutation) (sad_Value syncAction)
                   (sad_Version syncAction) index indexMAC valueMAC patchVersion])
  end.

Definition storeMACs (name : string) (currentState : HashState) (out : patchOutput) : App () :=
  _ ← app_store (PutAppStateVersion name (Version currentState) (Hash currentState)) ErrStoreVersion;
  _ ← app_store (DeleteAppStateMutationMACs name (RemovedMACs out)) ErrStoreRemoved;
  app_store (PutAppStateMutationMACs name (Version currentState) (AddedMACs out)) ErrStoreAdded.

Definition validateSnapshotMAC (name : string) (currentState : HashState) (keyID : option Bytes)
    (expectedSnapshotMAC : Bytes) : App ExpandedAppStateKeys :=
  keys ← getAppStateKey (default [] keyID);
  _ ← app_check (hmac_Equal (generateSnapshotMAC name (k_SnapshotMAC keys) currentState) expectedSnapshotMAC)
        (ErrMismatchingLTHash (Version currentState));
  mret keys.

(** The hash that the mutations lead to. *)
Definition app_update (mutations : list SyncdMutation)
    (getPrev : Processor -> Bytes -> nat -> outcome (app_error + option Bytes)) (hs : HashState)
  : App HashState := fun proc =>
  match updateHash mutations (getPrev proc) hs with
  | Ret (None, _, hs) => Ret (inr hs, proc)
  | Ret (Some e, _, _) => Ret (inl e, proc)
  | Panic msg => Panic msg
  end.

Definition snapshot_mutations (ss : SyncdSnapshot) : list SyncdMutation :=
  map (fun '(index, value, keyID) => mkSyncd SyncdMutation_SET index value keyID) (ss_Records ss).

Definition decodeSnapshot (name : string) (ss : SyncdSnapshot) (initialState : HashState)
    (validateMACs : bool) (newMutationsInput : list Mutation) : App (list Mutation * HashState) :=
  let encryptedMutations := snapshot_mutations ss in
  currentState ← app_update encryptedMutations (fun _ _ _ => Ret (inr None))
                   (initialState <| Version := ss_Version ss |>);
  _ ← (if validateMACs
       then _ ← validateSnapshotMAC name currentState (ss_KeyID ss) (ss_Mac ss); mret tt
       else mret tt);
  '(out, muts) ← decodeMutations encryptedMutations 0 validateMACs (Version currentState)
                   (mkOutput [] []) newMutationsInput;
  _ ← storeMACs name currentState out;
  mret (muts, currentState).

(** The latest mutation of the index before [maxIndex] in the patch, from the
    last one on; [None] when there is none. *)
Fixpoint prevInPatch (before : list SyncdMutation) (indexMAC : Bytes) : outcome (option (option Bytes)) :=
  match before with
  | [] => Ret None
  | m :: before =>
      if hmac_Equal (sm_Index m) indexMAC then
        match sm_Operation m with
        | SyncdMutation_SET => mac ← value_mac (sm_Value m); Ret (Some (Some mac))
        | SyncdMutation_REMOVE => Ret (Some None)
        end
      else prevInPatch before indexMAC
  end.
Definition fromDB (name : string) (proc : Processor) (indexMAC : Bytes) : app_error + option Bytes :=
  match GetAppStateMutationMAC name indexMAC (Store proc) with
  | inl e => inl (ErrGetPrevious e)
  | inr v => inr v
  end.
Definition prevSetValueMAC (name : string) (mutations : list SyncdMutation) (proc : Processor)
    (indexMAC : Bytes) (maxIndex : nat) : outcome (app_error + option Bytes) :=
  found ← prevInPatch (reverse (take maxIndex mutations)) indexMAC;
  Ret (match found with Some v => inr v | None => fromDB name proc indexMAC end).

Definition validatePatch (patchName : string) (patch : SyncdPatch) (currentState : HashState)
    (validateMACs : bool) : App HashState :=
  let version := sp_Version patch in
  newState ← app_update (sp_Mutations patch) (prevSetValueMAC patchName (sp_Mutations patch))
               (currentState <| Version := version |>);
  _ ← (if validateMACs then
         keys ← validateSnapshotMAC patchName newState (sp_KeyID patch) (sp_SnapshotMAC patch);
         patchMAC ← app_lift (generatePatchMAC patch patchName (k_PatchMAC keys) version);
         app_check (hmac_Equal patchMAC (sp_PatchMAC patch)) (ErrMismatchingPatchMAC version)
       else mret tt);
  mret newState.

Definition decodePatch (name : string) (patch : SyncdPatch) (validateMACs : bool)
    (acc : list Mutation * HashState) : App (list Mutation * HashState) :=
  newState ← validatePatch name patch acc.2 validateMACs;
  '(out, muts) ← decodeMutations (sp_Mutations patch) 0 validateMACs (Version newState) (mkOutput [] []) acc.1;
  _ ← storeMACs name newState out;
  mret (muts, newState).

Fixpoint decodePatchLoop (name : string) (patches : list SyncdPatch) (validateMACs : bool)
    (acc : list Mutation * HashState) : App (list Mutation * HashState) :=
  match patches with
  | [] => mret acc
  | patch :: patches => acc ← decodePatch name patch validateMACs acc; decodePatchLoop name patches validateMACs acc
  end.

(** The result on an error, which no caller uses, is dropped. *)
Definition DecodePatches (list_ : PatchList) (initialState : HashState) (validateMACs : bool)
  : App (list Mutation * HashState) :=
  acc ← (match pl_Snapshot list_ with
         | Some ss => decodeSnapshot (pl_Name list_) ss initialState validateMACs []
         | None => mret ([], initialState)
         end);
  decodePatchLoop (pl_Name list_) (pl_Patches list_) validateMACs acc.

(** ** [encode.go] *)

Record MutationInfo : Type := mkMutationInfo {
  mi_Index : list string;
  mi_Version : Z;
  mi_Value : Action }.
Record PatchInfo : Type := mkPatchInfo {
  pi_Timestamp : Time;
  pi_Type : string;
  pi_Mutations : list MutationInfo }.

(** [value.Timestamp = &ms] *)
Context (setTimestamp : Z -> Action -> Action).

(** [random] is what the random source gives for the initialization vector. *)
Definition encodeMutation (keyID : Bytes) (keys : ExpandedAppStateKeys) (timestamp : Time)
    (random : option Bytes) (info : MutationInfo) : App SyncdMutation :=
  let value := setTimestamp (toUnixMilli timestamp) (mi_Value info) in
  indexBytes ← app_some (marshalIndex (mi_Index info)) ErrMarshal;
  content ← app_some (marshalAction (mkActionData indexBytes value (mi_Version info))) ErrMarshal;
  encryptedContent ← app_lift (Encrypt NewCipher Enc (k_ValueEncryption keys) None random content);
  match encryptedContent with
  | inl e => app_fail (ErrEncrypt e)
  | inr encryptedContent =>
      let valueMac := generateContentMAC SyncdMutation_SET encryptedContent keyID (k_ValueMAC keys) in
      let indexMac := concatAndHMAC hmac256 (k_Index keys) [indexBytes] in
      mret (mkSyncd SyncdMutation_SET indexMac (encryptedContent ++ valueMac) (Some keyID))
  end.

Fixpoint encodeMutations (keyID : Bytes) (keys : ExpandedAppStateKeys) (timestamp : Time)
    (random : nat -> option Bytes) (i : nat) (infos : list MutationInfo) : App (list SyncdMutation) :=
  match infos with
  | [] => mret []
  | info :: infos =>
      m ← encodeMutation keyID keys timestamp (random i) info;
      ms ← encodeMutations keyID keys timestamp random (S i) infos;
      mret (m :: ms)
  end.

(** The previous values come from the database only. *)
Definition compilePatch (keyID : Bytes) (state : HashState) (now : Time) (random : nat -> option Bytes)
    (patchInfo : PatchInfo) : App (SyncdPatch * HashState) :=
  keys ← getAppStateKey keyID;
  let timestamp := if IsZero (pi_Timestamp patchInfo) then now else pi_Timestamp patchInfo in
  mutations ← encodeMutations keyID keys timestamp random 0 (pi_Mutations patchInfo);
  state ← app_update mutations (fun proc indexMAC _ => Ret (fromDB (pi_Type patchInfo) proc indexMAC)) state;
  let state := state <| Version := (Version state + 1) mod 2 ^ 64 |> in
  let snapshotMAC := generateSnapshotMAC (pi_Type patchInfo) (k_SnapshotMAC keys) state in
  let syncdPatch := mkPatch 0 mutations snapshotMAC [] (Some keyID) in
  patchMAC ← app_lift (generatePatchMAC syncdPatch (pi_Type patchInfo) (k_PatchMAC keys) (Version state));
  mret (mkPatch 0 mutations snapshotMAC patchMAC (Some keyID), state).

Definition EncodePatch (keyID : Bytes) (state : HashState) (now : Time) (random : nat -> option Bytes)
    (patchInfo : PatchInfo) : App Bytes :=
  '(syncdPatch, _) ← compilePatch keyID state now random patchInfo;
  app_some (marshalPatch syncdPatch) ErrMarshal.

(** ** [recovery.go] *)

Record RecoveryRecord : Type := mkRecoveryRecord {
  rr_KeyID : Bytes;
  rr_Data : SyncActionData;
  rr_Mac : Bytes }.
Record SyncdSnapshotRecovery : Type := mkRecovery {
  rc_Name : string;
  rc_Version : Z;
  rc_LtHash : Bytes;
  rc_Records : list RecoveryRecord }.

Fixpoint recoverRecords (version : Z) (i : Z) (records : list RecoveryRecord)
  : App (list (Bytes * Bytes) * list Mutation) :=
  match records with
  | [] => mret ([], [])
  | r :: records =>
      keys ← getAppStateKey (rr_KeyID r);
      parsedIndex ← app_some (unmarshalIndex (sad_Index (rr_Data r))) (ErrIndex (i + 1));
      let indexMAC := concatAndHMAC hmac256 (k_Index keys) [sad_Index (rr_Data r)] in
      '(macs, mutations) ← recoverRecords version (i + 1) records;
      mret ((indexMAC, rr_Mac r) :: macs,
            mkMutation (Some (rr_KeyID r)) SyncdMutation_SET (sad_Value (rr_Data r)) (sad_Version (rr_Data r))
              parsedIndex indexMAC (rr_Mac r) version :: mutations)
  end.

Definition ProcessRecovery (recovery : SyncdSnapshotRecovery) : App (list Mutation) :=
  if negb (length (rc_LtHash recovery) =? 128)%nat
  then app_fail (ErrHashLength (Z.of_nat (length (rc_LtHash recovery))))
  else
    let name := rc_Name recovery in
    '(macs, mutations) ← recoverRecords (rc_Version recovery) 0 (rc_Records recovery);
    _ ← app_store (DeleteAppStateVersion name) ErrStoreVersion;
    _ ← app_store (PutAppStateVersion name (rc_Version recovery) (rc_LtHash recovery)) ErrStoreVersion;
    _ ← app_store (PutAppStateMutationMACs name (rc_Version recovery) macs) ErrStoreAdded;
    mret mutations.
End Primitives.
