(* ===== verification/AppStateSync.v ===== *)
(** * The app state follows its patches

    A collection is, in the abstract, a finite map from index MACs to value
    MACs.  The stored rows represent one, the stored hash is its digest, and
    applying patches to the database is applying their mutations to the map. *)
From S2P Require Import Prelude GoStrings GoTime BinaryNode LtHash AppStateDB Cbc AppState.

Notation Collection := (gmap Bytes Bytes).

(** The MAC at the end of a value. *)
Definition mac_of (value : Bytes) : Bytes := drop (length value - 32) value.

Definition apply (m : Collection) (mu : SyncdMutation) : Collection :=
  match sm_Operation mu with
  | SyncdMutation_SET => <[sm_Index mu := mac_of (sm_Value mu)]> m
  | SyncdMutation_REMOVE => delete (sm_Index mu) m
  end.
Definition apply_all (m : Collection) (mus : list SyncdMutation) : Collection := foldl apply m mus.

Lemma apply_all_other m mus i : i ∉ (sm_Index <$> mus) -> apply_all m mus !! i = m !! i.
Proof.
  revert m. induction mus as [|mu mus IH]; intros m Hi; [done|]. cbn in Hi.
  change (apply_all m (mu :: mus)) with (apply_all (apply m mu) mus). rewrite IH by set_solver.
  unfold apply. destruct (sm_Operation mu).
  - apply lookup_insert_ne. set_solver.
  - apply lookup_delete_ne. set_solver.
Qed.

(** A value to set has a MAC. *)
Definition has_mac (mu : SyncdMutation) : Prop :=
  sm_Operation mu = SyncdMutation_SET -> (32 <= length (sm_Value mu))%nat.

Lemma value_mac_ok value mac : value_mac value = Ret mac -> mac = mac_of value /\ (32 <= length value)%nat.
Proof.
  unfold value_mac. destruct (Nat.ltb_spec (length value) 32); [done|]. intros [= <-]. by split; [|lia].
Qed.

Lemma value_mac_Ret value : (32 <= length value)%nat -> value_mac value = Ret (mac_of value).
Proof. intros. unfold value_mac. destruct (Nat.ltb_spec (length value) 32); [lia|done]. Qed.

(** ** The digest of a collection *)

Section Digest.
Context (hkdf_SHA256 : Bytes -> Bytes -> Bytes -> Z -> Bytes).
Notation expand := (expand hkdf_SHA256 WAPatchIntegrity).
Notation total_at := (total_at hkdf_SHA256 WAPatchIntegrity).
Definition hash_words : nat := 64.
Hypothesis hkdf_fills : forall item,
  vec hash_words (hkdf_SHA256 item [] (HKDFInfo WAPatchIntegrity) (HKDFSize WAPatchIntegrity)).

Definition total (m : Collection) (i : nat) : Z := total_at (map_to_list m).*2 i.

(** The words of the hash are the sums of the expanded values. *)
Definition digest (m : Collection) (h : Bytes) : Prop :=
  vec hash_words h /\
  forall i, (i < hash_words)%nat -> words h !! i = Some (uint16 (total m i)).

Definition word_of (v : Bytes) (i : nat) : Z := default 0 (expand v !! i).

Lemma total_insert_new m k v i : m !! k = None -> total (<[k:=v]> m) i = word_of v i + total m i.
Proof.
  intros Hk. unfold total.
  rewrite (total_at_perm _ _ _ ((k, v) :: map_to_list m).*2 i); [done|].
  apply fmap_Permutation. by apply map_to_list_insert.
Qed.

Lemma total_delete m k v i : m !! k = Some v -> total (delete k m) i = total m i - word_of v i.
Proof.
  intros Hk. pose proof (total_insert_new (delete k m) k v i (lookup_delete_eq m k)) as H.
  rewrite insert_delete_id in H by done. lia.
Qed.

Lemma total_insert m k v i :
  total (<[k:=v]> m) i = total m i + word_of v i - match m !! k with Some v' => word_of v' i | None => 0 end.
Proof.
  destruct (m !! k) as [v'|] eqn:E.
  - rewrite <- insert_delete_eq, total_insert_new by apply lookup_delete_eq.
    rewrite (total_delete _ _ v') by done. lia.
  - rewrite total_insert_new by done. lia.
Qed.

(** ** [updateHash] *)

(** The previous value of an index is its value in the collection that the
    mutations before lead to. *)
Definition prev_ok (m0 : Collection) (mus : list SyncdMutation)
    (getPrev : Bytes -> nat -> outcome (app_error + option Bytes)) : Prop :=
  forall before mu after, mus = before ++ mu :: after ->
    getPrev (sm_Index mu) (length before) = Ret (inr (apply_all m0 before !! sm_Index mu)).

Lemma total_at_snoc l x i : total_at (l ++ [x]) i = total_at l i + word_of x i.
Proof. rewrite total_at_app. unfold LtHash.total_at, word_of. cbn. lia. Qed.

Lemma collect_total m0 mus getPrev i : forall before after added removed warnings,
  prev_ok m0 mus getPrev -> mus = before ++ after -> Forall has_mac after ->
  exists added' removed' warnings',
    collect getPrev (length before) after added removed warnings
      = Ret (None, added', removed', warnings') /\
    total_at added' i - total_at removed' i =
    total_at added i - total_at removed i + total (apply_all m0 mus) i - total (apply_all m0 before) i.
Proof.
  intros before after. revert before. induction after as [|mu after IH]; intros before added removed warnings Hp Hm Hmac.
  { exists added, removed, warnings. split; [done|]. rewrite app_nil_r in Hm. subst mus. lia. }
  inversion Hmac as [|? ? Hmu Hafter]; subst. cbn [collect].
  pose proof (Hp before mu after eq_refl) as Hprev.
  assert (length before + 1 = length (before ++ [mu]))%nat as Hlen by (rewrite length_app; done).
  assert (before ++ mu :: after = (before ++ [mu]) ++ after) as Happ by by rewrite <- app_assoc.
  assert (total (apply_all m0 (before ++ [mu])) i =
    total (apply_all m0 before) i
    + (if decide (sm_Operation mu = SyncdMutation_SET) then word_of (mac_of (sm_Value mu)) i else 0)
    - match apply_all m0 before !! sm_Index mu with Some v => word_of v i | None => 0 end) as Htot.
  { unfold apply_all. rewrite foldl_app. cbn [foldl]. fold (apply_all m0 before). unfold apply.
    destruct (sm_Operation mu) eqn:Eop.
    - rewrite decide_True by done. rewrite total_insert. lia.
    - rewrite decide_False by done. destruct (apply_all m0 before !! sm_Index mu) as [v|] eqn:Ev.
      + rewrite (total_delete _ _ v) by done. lia.
      + rewrite delete_id by done. lia. }
  unfold mbind, outcome_bind.
  destruct (decide (sm_Operation mu = SyncdMutation_SET)) as [Hset|Hset].
  - rewrite (value_mac_Ret _ (Hmu Hset)), Hprev.
    destruct (apply_all m0 before !! sm_Index mu) as [v|].
    + destruct (IH (before ++ [mu]) (added ++ [mac_of (sm_Value mu)]) (removed ++ [v]) warnings) as (a & r & w & He & Ht);
        [done|done|done|]. exists a, r, w. rewrite <- Hlen, Nat.add_1_r in He. split; [done|].
      rewrite Ht, !total_at_snoc, Htot. lia.
    + rewrite (decide_False (P := sm_Operation mu = SyncdMutation_REMOVE)) by (by rewrite Hset).
      destruct (IH (before ++ [mu]) (added ++ [mac_of (sm_Value mu)]) removed warnings) as (a & r & w & He & Ht);
        [done|done|done|]. exists a, r, w. rewrite <- Hlen, Nat.add_1_r in He. split; [done|].
      rewrite Ht, !total_at_snoc, Htot. lia.
  - rewrite Hprev. destruct (apply_all m0 before !! sm_Index mu) as [v|].
    + destruct (IH (before ++ [mu]) added (removed ++ [v]) warnings) as (a & r & w & He & Ht);
        [done|done|done|]. exists a, r, w. rewrite <- Hlen, Nat.add_1_r in He. split; [done|].
      rewrite Ht, !total_at_snoc, Htot. lia.
    + destruct (IH (before ++ [mu]) added removed
        (if decide (sm_Operation mu = SyncdMutation_REMOVE) then warnings ++ [sm_Index mu] else warnings))
        as (a & r & w & He & Ht); [done|done|done|].
      exists a, r, w. rewrite <- Hlen, Nat.add_1_r in He. split; [done|]. rewrite Ht, Htot. lia.
Qed.

(** Updating the hash of a collection by mutations gives the hash of the
    collection after them. *)
Lemma updateHash_digest m0 mus getPrev hs :
  prev_ok m0 mus getPrev -> Forall has_mac mus -> digest m0 (Hash hs) ->
  exists warnings hs', updateHash hkdf_SHA256 mus getPrev hs = Ret (None, warnings, hs') /\
    Version hs' = Version hs /\ digest (apply_all m0 mus) (Hash hs').
Proof.
  intros Hp Hmac [Hv Hd]. unfold updateHash.
  destruct (collect_total m0 mus getPrev 0 [] mus [] [] [] Hp eq_refl Hmac) as (added & removed & warnings & He & _).
  cbn [length] in He. unfold mbind, outcome_bind. rewrite He.
  destruct (SubtractThenAdd_words hkdf_SHA256 WAPatchIntegrity hash_words hkdf_fills (Hash hs) removed added Hv)
    as (r & Hr & Hrv & Hrw). unfold SubtractThenAdd in Hr. rewrite Hr.
  exists warnings, (hs <| Hash := r |>). split; [done|]. split; [done|]. split; [done|]. intros i Hi.
  destruct (collect_total m0 mus getPrev i [] mus [] [] [] Hp eq_refl Hmac) as (a' & r' & w' & He' & Ht).
  cbn [length] in He'. rewrite He in He'. injection He' as <- <- <-.
  cbn [Hash upd]. change (Hash (hs <| Hash := r |>)) with r. rewrite (Hrw i _ (Hd i Hi)). f_equal.
  cbn in Ht. unfold uint16. rewrite <- Z.add_sub_swap.
  replace (total m0 i mod 2 ^ 16 + total_at added i - total_at removed i)
    with (total m0 i mod 2 ^ 16 + (total_at added i - total_at removed i)) by lia.
  rewrite Z.add_mod_idemp_l by lia. f_equal. lia.
Qed.
End Digest.

(** ** What is stored *)

(** The latest value of an index. *)
Definition row_lookup (name : string) (rs : list mac_row) (i : Bytes) : option Bytes :=
  row_value <$> latest None (rows_of name i rs).
Definition represents (name : string) (rs : list mac_row) (m : Collection) : Prop :=
  forall i, row_lookup name rs i = m !! i.
Definition versions_upto (name : string) (v : Z) (rs : list mac_row) : Prop :=
  Forall (fun r => row_name r = name -> row_version r <= v) rs.

Lemma exec_ok q db db' : exec q db = (None, db') -> exists fs, q (db <| faults := fs |>) = Some db'.
Proof.
  unfold exec. destruct (faults db) as [|[] fs] eqn:E; [| |].
  - destruct (q _) eqn:Eq; [|done]. intros [= <-]. by eexists.
  - done.
  - destruct (q _) eqn:Eq; [|done]. intros [= <-]. by eexists.
Qed.

Lemma latest_app best l l' : latest best (l ++ l') = latest (latest best l) l'.
Proof. revert best. induction l as [|r l IH]; intros best; [done|]. apply IH. Qed.

Lemma latest_in best l r : latest best l = Some r -> best = Some r \/ r ∈ l.
Proof.
  revert best. induction l as [|x l IH]; intros best Hl; [by left|]. cbn in Hl.
  destruct (IH _ Hl) as [Hb|Hr]; [|right; by right]. destruct best as [b|].
  - destruct (row_version b <? row_version x); [|by left]. injection Hb as <-. right. by left.
  - injection Hb as <-. right. by left.
Qed.

(** A newer row at the end is the latest. *)
Lemma latest_newer l r : Forall (fun x => row_version x < row_version r) l -> latest None (l ++ [r]) = Some r.
Proof.
  intros Hf. rewrite latest_app. destruct (latest None l) as [b|] eqn:E; [|done]. cbn.
  destruct (latest_in _ _ _ E) as [|Hb]; [done|]. rewrite Forall_forall in Hf. specialize (Hf b Hb).
  by destruct (Z.ltb_spec (row_version b) (row_version r)); [|lia].
Qed.

Lemma rows_of_app name i l l' : rows_of name i (l ++ l') = rows_of name i l ++ rows_of name i l'.
Proof. apply filter_app. Qed.

Lemma insertRows_spec new db db' :
  insertRows new db = Some db' ->
  rows db' = rows db ++ new /\ versions db' = versions db /\ sync_keys db' = sync_keys db /\ down db' = down db /\
  Forall (fun r => length (row_index r) = 32%nat /\ length (row_value r) = 32%nat) new /\
  (forall a x b y c, new = a ++ x :: b ++ y :: c -> ~ same_key x y).
Proof.
  revert db. induction new as [|r new IH]; intros db Hi.
  { injection Hi as <-. rewrite app_nil_r. repeat split; try done. intros a x b y c Hn. by destruct a. }
  cbn in Hi. destruct (decide _) as [(Hl1 & Hl2 & _ & Hf)|]; [|done].
  destruct (IH _ Hi) as (Hr & Hv & Hs & Hd & Hfl & Hn). cbn in Hr. rewrite <- app_assoc in Hr.
  repeat split; try done; [by constructor|].
  intros a x b y c He. destruct a as [|x' a]; cbn in He; [|injection He as <- ->; by eapply Hn].
  injection He as <- ->. intros Hsame. clear -Hi Hsame.
  assert (r ∈ rows (db <| rows := rows db ++ [r] |>)) as Hx by (cbn; set_solver).
  revert Hi Hx. generalize (db <| rows := rows db ++ [r] |>). clear db.
  induction b as [|z b IH]; intros db Hi Hx; cbn in Hi.
  - destruct (decide _) as [(_ & _ & _ & Hf)|]; [|done]. rewrite Forall_forall in Hf.
    apply (Hf r Hx). destruct Hsame as (? & ? & ?). by repeat split.
  - destruct (decide _); [|done]. eapply IH; [exact Hi|]. cbn. set_solver.
Qed.

(** *** What decoding leaves to be stored *)

Definition out_step (out : patchOutput) (mu : SyncdMutation) : patchOutput :=
  match sm_Operation mu with
  | SyncdMutation_REMOVE => RemoveMAC (sm_Index mu) out
  | SyncdMutation_SET => AddMAC (sm_Index mu) (mac_of (sm_Value mu)) out
  end.
Definition outputs (mus : list SyncdMutation) : patchOutput := foldl out_step (mkOutput [] []) mus.

(** The last value added for an index. *)
Definition added_for (i : Bytes) (added : list (Bytes * Bytes)) : option Bytes :=
  snd <$> last (filter (fun mac => mac.1 = i) added).

Lemma added_for_snoc i added j v :
  added_for i (added ++ [(j, v)]) = if decide (j = i) then Some v else added_for i added.
Proof.
  unfold added_for. rewrite filter_app, filter_cons, filter_nil. cbn [fst].
  destruct (decide (j = i)); [by rewrite last_snoc|by rewrite app_nil_r].
Qed.

Lemma added_for_filter i j added :
  added_for i (filter (fun mac => mac.1 <> j) added) = if decide (i = j) then None else added_for i added.
Proof.
  unfold added_for. rewrite list_filter_filter. destruct (decide (i = j)) as [->|Hne].
  - rewrite filter_nothing; [done|]. apply Forall_forall. tauto.
  - do 2 f_equal. apply list_filter_iff. intros x. split; [tauto|]. intros ->. by split.
Qed.

(** The removals and the additions of mutations, applied in this order, are the
    mutations. *)
Lemma outputs_apply m mus i :
  apply_all m mus !! i =
  match added_for i (AddedMACs (outputs mus)) with
  | Some v => Some v
  | None => if decide (i ∈ RemovedMACs (outputs mus)) then None else m !! i
  end.
Proof.
  induction mus as [|mu mus IH] using rev_ind.
  { cbn. by rewrite decide_False by set_solver. }
  unfold apply_all, outputs. rewrite !foldl_app. cbn [foldl].
  fold (apply_all m mus) (outputs mus). unfold apply, out_step.
  destruct (sm_Operation mu); cbn [AddMAC RemoveMAC AddedMACs RemovedMACs].
  - rewrite added_for_snoc. destruct (decide (sm_Index mu = i)) as [->|Hne].
    + by rewrite lookup_insert_eq.
    + by rewrite lookup_insert_ne.
  - rewrite added_for_filter. destruct (decide (i = sm_Index mu)) as [->|Hne].
    + rewrite lookup_delete_eq, decide_True; [done|]. set_solver.
    + rewrite lookup_delete_ne by done. rewrite IH.
      destruct (added_for i _); [done|].
      destruct (decide (i ∈ RemovedMACs (outputs mus))), (decide (i ∈ RemovedMACs (outputs mus) ++ [sm_Index mu]));
        try done; set_solver.
Qed.

(** *** Storing *)

Definition new_rows (name : string) (v : Z) (added : list (Bytes * Bytes)) : list mac_row :=
  map (fun m => mkRow name v m.1 m.2) added.

Lemma rows_of_new name v i added :
  rows_of name i (new_rows name v added) = map (fun m => mkRow name v m.1 m.2) (filter (fun mac => mac.1 = i) added).
Proof.
  unfold rows_of, new_rows. induction added as [|[j w] added IH]; [done|]. cbn [map].
  rewrite !filter_cons. cbn [row_name row_index fst snd]. destruct (decide (j = i)) as [->|Hne].
  - rewrite decide_True by done. cbn. by rewrite IH.
  - rewrite decide_False by tauto. by rewrite IH.
Qed.

(** No index is added twice. *)
Definition once (added : list (Bytes * Bytes)) : Prop :=
  forall a x b y c, added = a ++ x :: b ++ y :: c -> x.1 <> y.1.

Lemma once_filter i added :
  once added -> filter (fun mac => mac.1 = i) added = [] \/ exists v, filter (fun mac => mac.1 = i) added = [(i, v)].
Proof.
  intros Ho. destruct (filter (fun mac => mac.1 = i) added) as [|x [|y l]] eqn:E; [by left| |].
  - right. exists x.2. assert (x ∈ filter (fun mac : Bytes * Bytes => mac.1 = i) added) as Hx by (rewrite E; by left).
    apply list_elem_of_filter in Hx as [<- _]. by destruct x.
  - exfalso. revert E. clear -Ho. intros E.
    assert (exists a b c, added = a ++ x :: b ++ y :: c /\ x.1 = i /\ y.1 = i) as (a & b & c & -> & Hx & Hy).
    { clear Ho. induction added as [|z added IH]; [done|]. rewrite filter_cons in E.
      destruct (decide (z.1 = i)) as [Hz|Hz].
      - injection E as <- E. assert (exists b c, added = b ++ y :: c /\ y.1 = i) as (b & c & -> & Hy).
        { clear IH. induction added as [|w added IH]; [done|]. rewrite filter_cons in E.
          destruct (decide (w.1 = i)) as [Hw|Hw].
          - injection E as <- _. by exists [], added.
          - destruct (IH E) as (b & c & -> & Hy). by exists (w :: b), c. }
        by exists [], b, c.
      - destruct (IH E) as (a & b & c & -> & Hx & Hy). by exists (z :: a), b, c. }
    apply (Ho a x b y c eq_refl). congruence.
Qed.

(** Removing rows and adding newer ones is applying the mutations. *)
Lemma stored_represents name v rs m mus :
  represents name rs m -> versions_upto name (v - 1) rs -> once (AddedMACs (outputs mus)) ->
  let rs' := filter (fun r => ~ (row_name r = name /\ row_index r ∈ RemovedMACs (outputs mus))) rs
             ++ new_rows name v (AddedMACs (outputs mus)) in
  represents name rs' (apply_all m mus) /\ versions_upto name v rs'.
Proof.
  intros Hr Hv Ho rs'. split.
  - intros i. rewrite outputs_apply. unfold row_lookup, rs'. rewrite rows_of_app, rows_of_new.
    unfold added_for. destruct (once_filter i _ Ho) as [-> | [w ->]]; cbn [map last fmap option_fmap option_map].
    + rewrite app_nil_r. unfold rows_of. rewrite list_filter_filter.
      destruct (decide (i ∈ RemovedMACs (outputs mus))) as [Hin|Hin].
      * rewrite filter_nothing; [done|]. apply Forall_forall. intros r _ [[H1 <-] H2]. apply H2. by split.
      * rewrite <- Hr. unfold row_lookup, rows_of. do 2 f_equal. apply list_filter_iff. intros r.
        split; [tauto|]. intros [H1 <-]. split; [by split|]. intros [_ H2]. done.
    + rewrite latest_newer; [done|]. apply Forall_forall. intros r Hin. cbn.
      apply list_elem_of_filter in Hin as [[Hn _] Hin]. apply list_elem_of_filter in Hin as [_ Hin].
      unfold versions_upto in Hv. rewrite Forall_forall in Hv. specialize (Hv r Hin Hn). lia.
  - unfold versions_upto, rs' in *. rewrite Forall_app. split.
    + apply Forall_forall. intros r Hin Hn. apply list_elem_of_filter in Hin as [_ Hin].
      rewrite Forall_forall in Hv. specialize (Hv r Hin Hn). lia.
    + unfold new_rows. apply Forall_forall. intros r Hin Hn. apply list_elem_of_fmap in Hin as (x & -> & _). cbn. lia.
Qed.

Lemma new_rows_once name v added :
  (forall a x b y c, new_rows name v added = a ++ x :: b ++ y :: c -> ~ same_key x y) -> once added.
Proof.
  intros Hn a x b y c ->. unfold new_rows in Hn. rewrite !map_app in Hn. cbn [map] in Hn. rewrite map_app in Hn.
  cbn [map] in Hn. intros He. eapply Hn; [reflexivity|]. by repeat split.
Qed.

Lemma app_bind_inv {A B} (m : App A) (f : A -> App B) p b p'' :
  (m ≫= f) p = Ret (inr b, p'') -> exists a p', m p = Ret (inr a, p') /\ f a p' = Ret (inr b, p'').
Proof. unfold mbind, App_bind. destruct (m p) as [[[e|a] p']|]; try done. by exists a, p'. Qed.

Lemma app_store_inv f wrap p u p' :
  app_store f wrap p = Ret (inr u, p') -> exists db, f (Store p) = (None, db) /\ p' = p <| Store := db |>.
Proof. unfold app_store. destruct (f (Store p)) as [[e|] db]; intros [= <-]; by exists db. Qed.

(** What a successful [storeMACs] leaves. *)
Lemma storeMACs_inv name hs out p u p' :
  storeMACs name hs out p = Ret (inr u, p') ->
  versions (Store p') = <[name := (Version hs, Hash hs)]> (versions (Store p)) /\
  rows (Store p') =
    filter (fun r => ~ (row_name r = name /\ row_index r ∈ RemovedMACs out)) (rows (Store p))
    ++ new_rows name (Version hs) (AddedMACs out) /\
  down (Store p') = down (Store p) /\ once (AddedMACs out).
Proof.
  unfold storeMACs. intros H.
  apply app_bind_inv in H as (u1 & p1 & H1 & H). apply app_bind_inv in H as (u2 & p2 & H2 & H3).
  apply app_store_inv in H1 as (db1 & H1 & ->), H2 as (db2 & H2 & ->), H3 as (db3 & H3 & ->).
  cbn [Store upd] in *. change (Store (p <| Store := db1 |>)) with db1 in *.
  change (Store (p <| Store := db1 |> <| Store := db2 |>)) with db2 in *.
  change (Store (p <| Store := db1 |> <| Store := db2 |> <| Store := db3 |>)) with db3.
  apply exec_ok in H1 as (fs1 & H1). destruct (decide _) in H1; [|done]. injection H1 as <-.
  assert (versions db2 = <[name := (Version hs, Hash hs)]> (versions (Store p)) /\
    rows db2 = filter (fun r => ~ (row_name r = name /\ row_index r ∈ RemovedMACs out)) (rows (Store p)) /\
    down db2 = down (Store p)) as (Hv2 & Hr2 & Hd2).
  { unfold DeleteAppStateMutationMACs in H2. destruct (RemovedMACs out) as [|x l] eqn:E.
    - injection H2 as <-. cbn. repeat split. symmetry. apply filter_all, Forall_forall. intros r _ [_ Hin]. set_solver.
    - apply exec_ok in H2 as (fs2 & H2). injection H2 as <-. by repeat split. }
  unfold PutAppStateMutationMACs in H3. destruct (AddedMACs out) as [|x l] eqn:E.
  - injection H3 as <-. rewrite Hv2, Hr2, Hd2, app_nil_r. repeat split. intros a ? b ? c Hn. by destruct a.
  - apply exec_ok in H3 as (fs3 & H3). apply insertRows_spec in H3 as (Hr3 & Hv3 & _ & Hd3 & _ & Hn).
    cbn in Hr3, Hv3, Hd3. rewrite Hr3, Hv3, Hd3, Hv2, Hr2, Hd2. repeat split. by eapply new_rows_once.
Qed.

(** ** Decoding *)

(** The previous value of a patch's index: the last mutation of the index before
    it, or else the stored value. *)
Lemma prevInPatch_spec m0 before i :
  Forall has_mac before ->
  exists found, prevInPatch (reverse before) i = Ret found /\
    apply_all m0 before !! i = match found with Some v => v | None => m0 !! i end.
Proof.
  induction before as [|mu before IH] using rev_ind; intros Hm; [by exists None|].
  apply Forall_app in Hm as [Hm Hmu]. inversion Hmu as [|? ? Hmu' _]; subst.
  destruct (IH Hm) as (found & Hf & Ha). rewrite reverse_snoc. cbn [prevInPatch].
  unfold apply_all in *. rewrite foldl_app. cbn [foldl]. unfold apply.
  unfold hmac_Equal. case_bool_decide as Hi.
  - destruct (sm_Operation mu) eqn:Eop.
    + unfold mbind, outcome_bind. rewrite (value_mac_Ret _ (Hmu' Eop)). eexists. split; [done|].
      by rewrite Hi, lookup_insert_eq.
    + eexists. split; [done|]. by rewrite Hi, lookup_delete_eq.
  - exists found. split; [done|]. destruct (sm_Operation mu).
    + by rewrite lookup_insert_ne.
    + by rewrite lookup_delete_ne.
Qed.

Lemma fromDB_represents name p m i :
  represents name (rows (Store p)) m -> down (Store p) = false -> fromDB name p i = inr (m !! i).
Proof. intros Hr Hd. unfold fromDB, GetAppStateMutationMAC. rewrite Hd. f_equal. apply Hr. Qed.

Lemma prevSetValueMAC_ok name mus p m :
  represents name (rows (Store p)) m -> down (Store p) = false -> Forall has_mac mus ->
  prev_ok m mus (prevSetValueMAC name mus p).
Proof.
  intros Hr Hd Hm before mu after ->. unfold prevSetValueMAC.
  rewrite take_app_length. apply Forall_app in Hm as [Hm _].
  destruct (prevInPatch_spec m before (sm_Index mu) Hm) as (found & Hf & Ha).
  unfold mbind, outcome_bind. rewrite Hf. do 2 f_equal. rewrite Ha. destruct found; [done|].
  by apply fromDB_represents.
Qed.

(** A snapshot has no previous values; it is right about them when it has no
    index twice. *)
Lemma none_ok mus :
  Forall (fun mu => sm_Operation mu = SyncdMutation_SET) mus -> once (AddedMACs (outputs mus)) ->
  prev_ok ∅ mus (fun _ _ => Ret (inr None)).
Proof.
  intros Hs Ho before mu after ->. do 2 f_equal.
  apply Forall_app in Hs as [Hs Hs']. inversion Hs' as [|? ? Hmu Hafter]; subst.
  assert (forall l, Forall (fun mu => sm_Operation mu = SyncdMutation_SET) l ->
    RemovedMACs (outputs l) = [] /\ AddedMACs (outputs l) = map (fun mu => (sm_Index mu, mac_of (sm_Value mu))) l) as Hout.
  { clear. induction l as [|x l IH] using rev_ind; [done|]. intros [Hl Hx]%Forall_app.
    inversion Hx as [|? ? Hx' _]; subst. destruct (IH Hl) as [H1 H2].
    unfold outputs in *. rewrite foldl_app, map_app. cbn [foldl]. unfold out_step at 1 3. rewrite Hx'.
    cbn [AddMAC RemovedMACs AddedMACs]. by rewrite H1, H2. }
  destruct (Hout before Hs) as [Hr1 Ha1].
  destruct (Hout (before ++ mu :: after)) as [_ Ha]; [by apply Forall_app; split; [|constructor]|].
  rewrite outputs_apply, Hr1, Ha1, decide_False by set_solver. rewrite lookup_empty.
  assert (added_for (sm_Index mu) (map (fun mu => (sm_Index mu, mac_of (sm_Value mu))) before) = None) as ->; [|done].
  unfold added_for.
  assert (filter (fun mac : Bytes * Bytes => mac.1 = sm_Index mu)
    (map (fun mu => (sm_Index mu, mac_of (sm_Value mu))) before) = []) as ->; [|done].
  rewrite Ha in Ho. apply filter_nothing, Forall_forall. intros x (y & -> & Hy)%list_elem_of_fmap Hx. cbn in Hx.
  apply list_elem_of_split in Hy as (a & b & ->). rewrite !map_app in Ho. cbn [map] in Ho.
  rewrite <- app_assoc in Ho. eapply Ho; [reflexivity|done].
Qed.

Section Sync.
Context (hkdf_SHA256 : Bytes -> Bytes -> Bytes -> Z -> Bytes).
Context (hmac256 hmac512 : Bytes -> Bytes -> Bytes).
Context {Block : Type} (NewCipher : Bytes -> option Block) (Enc Dec : Block -> Bytes -> Bytes).
Context {Action : Type}.
Context (unmarshalAction : Bytes -> option (@SyncActionData Action)) (unmarshalIndex : Bytes -> option (list string)).
Hypothesis hkdf_fills : forall item,
  vec hash_words (hkdf_SHA256 item [] (HKDFInfo WAPatchIntegrity) (HKDFSize WAPatchIntegrity)).
Notation digest := (digest hkdf_SHA256).
Notation getAppStateKey := (getAppStateKey hkdf_SHA256).
Notation decodeMutation := (decodeMutation hkdf_SHA256 hmac256 hmac512 NewCipher Dec unmarshalAction unmarshalIndex).
Notation decodeMutations := (decodeMutations hkdf_SHA256 hmac256 hmac512 NewCipher Dec unmarshalAction unmarshalIndex).

Lemma app_check_inv b e p u p' : app_check b e p = Ret (inr u, p') -> b = true /\ p' = p.
Proof. unfold app_check. destruct b; [|done]. by intros [= _ <-]. Qed.

Lemma app_some_inv {A} (o : option A) e p a p' : app_some o e p = Ret (inr a, p') -> o = Some a /\ p' = p.
Proof. destruct o; [|done]. by intros [= <- <-]. Qed.

Lemma app_lift_inv {A} (m : outcome A) p a p' : app_lift m p = Ret (inr a, p') -> m = Ret a /\ p' = p.
Proof. unfold app_lift. destruct m; [|done]. by intros [= <- <-]. Qed.

Lemma getAppStateKey_inv keyID p r p' : getAppStateKey keyID p = Ret (r, p') -> Store p' = Store p.
Proof.
  unfold AppState.getAppStateKey. destruct (_ !! _); [by intros [= _ <-]|].
  destruct (GetAppStateSyncKey _ _) as [|[]]; by intros [= _ <-].
Qed.

Lemma decodeMutation_inv mu i validate p imac vmac index sa p' :
  decodeMutation mu i validate p = Ret (inr (imac, vmac, index, sa), p') ->
  Store p' = Store p /\ imac = sm_Index mu /\ vmac = mac_of (sm_Value mu) /\ (32 <= length (sm_Value mu))%nat.
Proof.
  unfold AppState.decodeMutation. intros H.
  apply app_bind_inv in H as (keys & p1 & H1%getAppStateKey_inv & H).
  apply app_bind_inv in H as (mac & p2 & [[-> Hlen]%value_mac_ok ->]%app_lift_inv & H).
  apply app_bind_inv in H as (u & p3 & H3 & H).
  assert (p3 = p1) as ->. { destruct validate; [by apply app_check_inv in H3 as [_ ->]|by injection H3]. }
  apply app_bind_inv in H as ([iv content] & p4 & [_ ->]%app_lift_inv & H).
  apply app_bind_inv in H as (pt & p5 & [_ ->]%app_lift_inv & H). destruct pt as [e|pt]; [done|].
  apply app_bind_inv in H as (sa' & p6 & [_ ->]%app_some_inv & H).
  apply app_bind_inv in H as (u' & p7 & H7 & H).
  assert (p7 = p1) as ->. { destruct validate; [by apply app_check_inv in H7 as [_ ->]|by injection H7]. }
  apply app_bind_inv in H as (index' & p8 & [_ ->]%app_some_inv & H). by injection H as <- <- <- <- <-.
Qed.

(** A mutation as it is reported, and as it is encrypted. *)
Definition reports (mu : SyncdMutation) (v : Z) (m : @Mutation Action) : Prop :=
  mu_KeyID m = sm_KeyID mu /\ mu_Operation m = sm_Operation mu /\ mu_IndexMAC m = sm_Index mu /\
  mu_ValueMAC m = mac_of (sm_Value mu) /\ mu_PatchVersion m = v.

Lemma decodeMutations_inv mus i validate v out acc p out' muts p' :
  decodeMutations mus i validate v out acc p = Ret (inr (out', muts), p') ->
  Store p' = Store p /\ out' = foldl out_step out mus /\ Forall has_mac mus /\
  exists new, muts = acc ++ new /\ Forall2 (fun mu m => reports mu v m) mus new.
Proof.
  revert i out acc p. induction mus as [|mu mus IH]; intros i out acc p H.
  { injection H as <- <- <-. repeat split; [constructor|]. exists []. split; [by rewrite app_nil_r|constructor]. }
  cbn [AppState.decodeMutations] in H.
  apply app_bind_inv in H as ([[[imac vmac] index] sa] & p1 & (Hs & -> & -> & Hl)%decodeMutation_inv & H).
  destruct (IH _ _ _ _ H) as (Hs' & -> & Hm & new & -> & Hr). repeat split.
  - congruence.
  - constructor; [|done]. intros _. done.
  - rewrite <- app_assoc. eexists. split; [reflexivity|]. constructor; [by repeat split|done].
Qed.

Lemma app_update_inv mus getPrev hs p hs' p' :
  app_update hkdf_SHA256 mus getPrev hs p = Ret (inr hs', p') ->
  p' = p /\ exists w, updateHash hkdf_SHA256 mus (getPrev p) hs = Ret (None, w, hs').
Proof.
  unfold app_update. destruct (updateHash _ _ _ _) as [[[[e|] w] h]|]; try done.
  intros [= <- <-]. split; [done|]. by exists w.
Qed.

(** ** Synchronisation

    The database is consistent with a collection when the stored rows represent
    it and the stored hash is its digest; [hs] is the state that is read back. *)
Record consistent (name : string) (db : AppStateDB) (hs : HashState) (m : Collection) : Prop := mkConsistent {
  cs_stored : GetAppStateVersion name db = inr (Version hs, Hash hs);
  cs_rows : represents name (rows db) m;
  cs_digest : digest m (Hash hs);
  cs_versions : versions_upto name (Version hs) (rows db);
  cs_nonneg : 0 <= Version hs }.

Lemma consistent_up name db hs m : consistent name db hs m -> down db = false.
Proof. intros [Hs _ _ _ _]. unfold GetAppStateVersion in Hs. by destruct (down db). Qed.

(** Storing a newer state, with what the mutations lead to. *)
Lemma storeMACs_consistent name hs hs' mus m p u p' :
  consistent name (Store p) hs m -> Version hs < Version hs' -> digest (apply_all m mus) (Hash hs') ->
  storeMACs name hs' (outputs mus) p = Ret (inr u, p') ->
  consistent name (Store p') hs' (apply_all m mus) /\ once (AddedMACs (outputs mus)).
Proof.
  intros Hc Hv Hd (Hver & Hrows & Hdown & Ho)%storeMACs_inv. split; [|done].
  pose proof (consistent_up _ _ _ _ Hc) as Hup. destruct Hc as [_ Hr _ Hu Hn].
  assert (versions_upto name (Version hs' - 1) (rows (Store p))) as Hu'.
  { eapply Forall_impl; [exact Hu|]. cbn. intros r Hle Hname. specialize (Hle Hname). lia. }
  destruct (stored_represents name (Version hs') _ m mus Hr Hu' Ho) as [H1 H2]. rewrite <- Hrows in H1, H2.
  constructor; [|done|done|done|lia]. unfold GetAppStateVersion. rewrite Hdown, Hup, Hver, lookup_insert_eq.
  destruct Hd as [[Hl _] _]. rewrite Hl. cbn. destruct (Z.eqb_spec (Version hs') 0); [lia|done].
Qed.

Notation validatePatch := (validatePatch hkdf_SHA256 hmac256).
Notation validateSnapshotMAC := (validateSnapshotMAC hkdf_SHA256 hmac256).
Notation decodePatch := (decodePatch hkdf_SHA256 hmac256 hmac512 NewCipher Dec unmarshalAction unmarshalIndex).
Notation decodeSnapshot := (decodeSnapshot hkdf_SHA256 hmac256 hmac512 NewCipher Dec unmarshalAction unmarshalIndex).
Notation decodePatchLoop := (decodePatchLoop hkdf_SHA256 hmac256 hmac512 NewCipher Dec unmarshalAction unmarshalIndex).
Notation DecodePatches := (DecodePatches hkdf_SHA256 hmac256 hmac512 NewCipher Dec unmarshalAction unmarshalIndex).

Lemma validateSnapshotMAC_inv name hs keyID mac p keys p' :
  validateSnapshotMAC name hs keyID mac p = Ret (inr keys, p') -> Store p' = Store p.
Proof.
  unfold AppState.validateSnapshotMAC. intros H.
  apply app_bind_inv in H as (k & p1 & H1%getAppStateKey_inv & H).
  apply app_bind_inv in H as (u & p2 & [_ ->]%app_check_inv & H). by injection H as _ <-.
Qed.

Lemma validatePatch_inv name patch hs validate p hs' p' :
  validatePatch name patch hs validate p = Ret (inr hs', p') ->
  Store p' = Store p /\
  exists w, updateHash hkdf_SHA256 (sp_Mutations patch) (prevSetValueMAC name (sp_Mutations patch) p)
              (hs <| Version := sp_Version patch |>) = Ret (None, w, hs').
Proof.
  unfold AppState.validatePatch. intros H.
  apply app_bind_inv in H as (hs1 & p1 & [-> Hw]%app_update_inv & H).
  apply app_bind_inv in H as (u & p2 & H2 & H). injection H as <- <-. split; [|done].
  destruct validate; [|by injection H2 as _ ->].
  apply app_bind_inv in H2 as (k & p3 & H3%validateSnapshotMAC_inv & H2).
  apply app_bind_inv in H2 as (mac & p4 & [_ ->]%app_lift_inv & H2). apply app_check_inv in H2 as [_ ->]. done.
Qed.

Lemma updateHash_consistent mus getPrev m hs v w hs' :
  prev_ok m mus getPrev -> Forall has_mac mus -> digest m (Hash hs) ->
  updateHash hkdf_SHA256 mus getPrev (hs <| Version := v |>) = Ret (None, w, hs') ->
  Version hs' = v /\ digest (apply_all m mus) (Hash hs').
Proof.
  intros Hp Hm Hd He. change (Hash hs) with (Hash (hs <| Version := v |>)) in Hd.
  destruct (updateHash_digest hkdf_SHA256 hkdf_fills m mus getPrev _ Hp Hm Hd)
    as (w' & hs'' & He' & Hv & Hd'). injection (eq_trans (eq_sym He) He') as <- <-. by split.
Qed.

Lemma decodePatch_consistent name patch validate acc hs m p muts hs' p' :
  decodePatch name patch validate (acc, hs) p = Ret (inr (muts, hs'), p') ->
  consistent name (Store p) hs m -> Version hs < sp_Version patch ->
  consistent name (Store p') hs' (apply_all m (sp_Mutations patch)) /\ Version hs' = sp_Version patch /\
  exists new, muts = acc ++ new /\ Forall2 (fun mu m => reports mu (sp_Version patch) m) (sp_Mutations patch) new.
Proof.
  intros H Hc Hv. unfold AppState.decodePatch in H. cbn [fst snd] in H.
  apply app_bind_inv in H as (hs1 & p1 & (Hs1 & w & Hw)%validatePatch_inv & H).
  apply app_bind_inv in H as ([out muts'] & p2 & (Hs2 & -> & Hm & new & -> & Hr)%decodeMutations_inv & H).
  apply app_bind_inv in H as (u & p3 & H3 & H). injection H as <- <- <-.
  destruct (updateHash_consistent _ _ m _ _ _ _ (prevSetValueMAC_ok _ _ _ _ (cs_rows _ _ _ _ Hc) (consistent_up _ _ _ _ Hc) Hm)
    Hm (cs_digest _ _ _ _ Hc) Hw) as [Hv' Hd].
  assert (Store p2 = Store p) as Hs by (by rewrite Hs2, Hs1). rewrite <- Hs in Hc.
  destruct (storeMACs_consistent name hs hs1 (sp_Mutations patch) m p2 u p3 Hc) as [Hc' _]; [lia|done|done|].
  split; [done|]. split; [done|]. exists new. rewrite Hv' in Hr. by split.
Qed.

Definition ascending (v : Z) (patches : list SyncdPatch) : Prop :=
  forall before patch after, patches = before ++ patch :: after ->
    default v (sp_Version <$> last before) < sp_Version patch.

Lemma ascending_cons v patch patches :
  ascending v (patch :: patches) -> v < sp_Version patch /\ ascending (sp_Version patch) patches.
Proof.
  intros H. split; [by apply (H [] patch patches)|]. intros before x after ->.
  specialize (H (patch :: before) x after eq_refl). rewrite last_cons in H.
  by destruct (last before).
Qed.

(** The mutations, each with the version it is reported under. *)
Definition patch_mutations (patches : list SyncdPatch) : list (SyncdMutation * Z) :=
  patches ≫= (fun patch => (fun mu => (mu, sp_Version patch)) <$> sp_Mutations patch).
Definition list_mutations (pl : PatchList) : list (SyncdMutation * Z) :=
  match pl_Snapshot pl with
  | Some ss => (fun mu => (mu, ss_Version ss)) <$> snapshot_mutations ss
  | None => []
  end ++ patch_mutations (pl_Patches pl).
Definition reported (mus : list (SyncdMutation * Z)) (muts : list (@Mutation Action)) : Prop :=
  Forall2 (fun muv m => reports muv.1 muv.2 m) mus muts.

Lemma reported_same_version v mus new :
  Forall2 (fun mu m => reports mu v m) mus new -> reported ((fun mu => (mu, v)) <$> mus) new.
Proof. intros H. unfold reported. by apply Forall2_fmap_l. Qed.

Lemma apply_all_app m a b : apply_all m (a ++ b) = apply_all (apply_all m a) b.
Proof. unfold apply_all. apply foldl_app. Qed.

Lemma decodePatchLoop_consistent name patches validate : forall acc hs m p muts hs' p',
  decodePatchLoop name patches validate (acc, hs) p = Ret (inr (muts, hs'), p') ->
  consistent name (Store p) hs m -> ascending (Version hs) patches ->
  consistent name (Store p') hs' (apply_all m (patch_mutations patches).*1) /\
  Version hs' = default (Version hs) (sp_Version <$> last patches) /\
  exists new, muts = acc ++ new /\ reported (patch_mutations patches) new.
Proof.
  induction patches as [|patch patches IH]; intros acc hs m p muts hs' p' H Hc Ha.
  { injection H as <- <- <-. split; [done|]. split; [done|]. exists []. split; [by rewrite app_nil_r|constructor]. }
  cbn [AppState.decodePatchLoop] in H. apply app_bind_inv in H as ([muts1 hs1] & p1 & H1 & H).
  destruct (ascending_cons _ _ _ Ha) as [Hlt Ha'].
  destruct (decodePatch_consistent _ _ _ _ _ m _ _ _ _ H1 Hc Hlt) as (Hc1 & Hv1 & new1 & -> & Hr1).
  rewrite <- Hv1 in Ha'. destruct (IH _ _ _ _ _ _ _ H Hc1 Ha') as (Hc2 & Hv2 & new2 & -> & Hr2).
  split; [|split].
  - cbn [patch_mutations mbind list_bind]. fold (patch_mutations patches).
    rewrite fmap_app, apply_all_app, <- list_fmap_compose. cbn. by rewrite list_fmap_id.
  - rewrite Hv2, Hv1, last_cons. by destruct (last patches).
  - exists (new1 ++ new2). rewrite app_assoc. split; [done|]. apply Forall2_app; [|done].
    by apply reported_same_version.
Qed.

Lemma snapshot_sets ss : Forall (fun mu => sm_Operation mu = SyncdMutation_SET) (snapshot_mutations ss).
Proof. unfold snapshot_mutations. apply Forall_forall. by intros mu ([[i v] k] & -> & _)%list_elem_of_fmap. Qed.

Lemma decodeSnapshot_consistent name ss hs validate acc p muts hs' p' :
  decodeSnapshot name ss hs validate acc p = Ret (inr (muts, hs'), p') ->
  consistent name (Store p) hs ∅ -> Version hs < ss_Version ss ->
  consistent name (Store p') hs' (apply_all ∅ (snapshot_mutations ss)) /\ Version hs' = ss_Version ss /\
  exists new, muts = acc ++ new /\ Forall2 (fun mu m => reports mu (ss_Version ss) m) (snapshot_mutations ss) new.
Proof.
  intros H Hc Hv. unfold AppState.decodeSnapshot in H.
  apply app_bind_inv in H as (hs1 & p1 & [-> (w & Hw)]%app_update_inv & H).
  apply app_bind_inv in H as (u & p2 & H2 & H).
  assert (Store p2 = Store p) as Hs2.
  { destruct validate; [|by injection H2 as _ ->].
    apply app_bind_inv in H2 as (k & p3 & H3%validateSnapshotMAC_inv & H2). by injection H2 as <- <-. }
  apply app_bind_inv in H as ([out muts'] & p3 & (Hs3 & -> & Hm & new & -> & Hr)%decodeMutations_inv & H).
  apply app_bind_inv in H as (u' & p4 & H4 & H). injection H as <- <- <-.
  fold (outputs (snapshot_mutations ss)) in H4.
  pose proof (storeMACs_inv _ _ _ _ _ _ H4) as (_ & _ & _ & Ho).
  destruct (updateHash_consistent _ _ ∅ _ _ _ _ (none_ok _ (snapshot_sets ss) Ho) Hm (cs_digest _ _ _ _ Hc) Hw) as [Hv' Hd].
  assert (Store p3 = Store p) as Hs by (by rewrite Hs3, Hs2). rewrite <- Hs in Hc.
  destruct (storeMACs_consistent name hs hs1 (snapshot_mutations ss) ∅ p3 u' p4 Hc) as [Hc' _]; [lia|done|done|].
  split; [done|]. split; [done|]. exists new. rewrite Hv' in Hr. by split.
Qed.

(** The versions of a list go up from [v]; the last one. *)
Definition list_ascending (v : Z) (pl : PatchList) : Prop :=
  match pl_Snapshot pl with
  | Some ss => v < ss_Version ss /\ ascending (ss_Version ss) (pl_Patches pl)
  | None => ascending v (pl_Patches pl)
  end.
Definition list_version (v : Z) (pl : PatchList) : Z :=
  default (match pl_Snapshot pl with Some ss => ss_Version ss | None => v end)
    (sp_Version <$> last (pl_Patches pl)).

(** C6. The app state follows its patches: when a database is consistent with a
    collection, and a list of patches with increasing versions is decoded, then
    the database is consistent with the collection changed by all the mutations,
    in order: the hash that is kept is the digest of the values that are kept,
    under the last version, and the mutations are reported once each, in
    order.  A snapshot starts from nothing.  This is so whether or not the MACs
    are validated. *)
Theorem app_state_follows_patches pl hs validate p m muts hs' p' :
  DecodePatches pl hs validate p = Ret (inr (muts, hs'), p') ->
  consistent (pl_Name pl) (Store p) hs m ->
  (pl_Snapshot pl <> None -> m = ∅) -> list_ascending (Version hs) pl ->
  consistent (pl_Name pl) (Store p') hs' (apply_all m (list_mutations pl).*1) /\
  Version hs' = list_version (Version hs) pl /\ reported (list_mutations pl) muts.
Proof.
  intros H Hc Hm Ha. unfold AppState.DecodePatches in H.
  apply app_bind_inv in H as ([muts1 hs1] & p1 & H1 & H2).
  unfold list_ascending, list_version, list_mutations in *. destruct (pl_Snapshot pl) as [ss|].
  - rewrite (Hm ltac:(done)) in Hc |- *. destruct Ha as [Hv Ha].
    destruct (decodeSnapshot_consistent _ _ _ _ _ _ _ _ _ H1 Hc Hv) as (Hc1 & Hv1 & new1 & -> & Hr1).
    rewrite <- Hv1 in Ha. destruct (decodePatchLoop_consistent _ _ _ _ _ _ _ _ _ _ H2 Hc1 Ha) as (Hc2 & Hv2 & new2 & -> & Hr2).
    rewrite fmap_app, apply_all_app, <- list_fmap_compose, Hv2, Hv1. cbn. rewrite list_fmap_id.
    split; [done|]. split; [done|]. apply Forall2_app; [|done]. by apply reported_same_version.
  - injection H1 as <- <- <-.
    destruct (decodePatchLoop_consistent _ _ _ _ _ _ _ _ _ _ H2 Hc Ha) as (Hc2 & Hv2 & new2 & -> & Hr2).
    by split.
Qed.

(** Storing is not one transaction: when the statement after the first fails,
    the version and the hash are the new ones and the rows are the old ones, so
    that the stored hash is of a collection that the rows do not represent. *)
Theorem store_torn name hs hs' mus m p fs :
  consistent name (Store p) hs m -> faults (Store p) = false :: true :: fs ->
  digest (apply_all m mus) (Hash hs') -> outputs mus <> mkOutput [] [] -> Version hs' <> 0 ->
  exists e p', storeMACs name hs' (outputs mus) p = Ret (inl e, p') /\
    GetAppStateVersion name (Store p') = inr (Version hs', Hash hs') /\
    represents name (rows (Store p')) m.
Proof.
  intros Hc Hf [[Hl _] _] Hne Hv. pose proof (consistent_up _ _ _ _ Hc) as Hup.
  set (db1 := (Store p) <| faults := true :: fs |> <| versions := <[name := (Version hs', Hash hs')]> (versions (Store p)) |>).
  assert (PutAppStateVersion name (Version hs') (Hash hs') (Store p) = (None, db1)) as H1.
  { unfold PutAppStateVersion, exec. rewrite Hf. by rewrite decide_True. }
  set (db2 := db1 <| faults := fs |>).
  assert (GetAppStateVersion name db2 = inr (Version hs', Hash hs') /\ represents name (rows db2) m) as [Hg Hr].
  { split; [|apply Hc]. unfold GetAppStateVersion. cbn. rewrite Hup, lookup_insert_eq, Hl. cbn.
    by destruct (Z.eqb_spec (Version hs') 0). }
  unfold storeMACs, mbind, App_bind, app_store. rewrite H1. cbn [Store upd].
  change (Store (p <| Store := db1 |>)) with db1.
  unfold DeleteAppStateMutationMACs. destruct (RemovedMACs (outputs mus)) as [|x l] eqn:Er.
  - change (Store (p <| Store := db1 |> <| Store := db1 |>)) with db1.
    unfold PutAppStateMutationMACs. destruct (AddedMACs (outputs mus)) as [|y l] eqn:Ea.
    { destruct (outputs mus). cbn in *. by subst. }
    by exists (ErrStoreAdded ErrIO), (p <| Store := db2 |>).
  - by exists (ErrStoreRemoved ErrIO), (p <| Store := db2 |>).
Qed.
End Sync.
