(* ===== verification/AppStateCodec.v ===== *)
(** * A patch that is encoded is accepted

    [encode.go] against [decode.go]: the patch that [compilePatch] makes for a
    collection is one that a client with the same collection and the same key
    accepts, with every MAC checked, and decodes to what was encoded. *)
From S2P Require Import Prelude GoStrings GoTime BinaryNode BinaryCodec LtHash AppStateDB Cbc AppState AppStateSync.

(** ** What is assumed of the primitives *)

Section Codec.
Context (hkdf_SHA256 : Bytes -> Bytes -> Bytes -> Z -> Bytes).
Context (hmac256 hmac512 : Bytes -> Bytes -> Bytes).
Context {Block : Type} (NewCipher : Bytes -> option Block) (Enc Dec : Block -> Bytes -> Bytes).
Context {Action : Type}.
Context (unmarshalAction : Bytes -> option (@SyncActionData Action)) (marshalAction : @SyncActionData Action -> option Bytes).
Context (unmarshalIndex : Bytes -> option (list string)) (marshalIndex : list string -> option Bytes).
Context (setTimestamp : Z -> Action -> Action).
Hypothesis hkdf_fills : forall item,
  vec hash_words (hkdf_SHA256 item [] (HKDFInfo WAPatchIntegrity) (HKDFSize WAPatchIntegrity)).
Hypothesis hmac256_length : forall key data, length (hmac256 key data) = 32%nat.
Hypothesis hmac512_length : forall key data, length (hmac512 key data) = 64%nat.
Hypothesis Enc_length : forall k b, length b = BlockSize -> length (Enc k b) = BlockSize.
Hypothesis Dec_Enc : forall k b, length b = BlockSize -> Dec k (Enc k b) = b.
Hypothesis action_roundtrip : forall d b, marshalAction d = Some b -> unmarshalAction b = Some d.
Hypothesis index_roundtrip : forall i b, marshalIndex i = Some b -> unmarshalIndex b = Some i.

Notation decodeMutation := (decodeMutation hkdf_SHA256 hmac256 hmac512 NewCipher Dec unmarshalAction unmarshalIndex).
Notation decodeMutations := (decodeMutations hkdf_SHA256 hmac256 hmac512 NewCipher Dec unmarshalAction unmarshalIndex).
Notation decodePatch := (decodePatch hkdf_SHA256 hmac256 hmac512 NewCipher Dec unmarshalAction unmarshalIndex).
Notation encodeMutation := (encodeMutation hmac256 hmac512 NewCipher Enc marshalAction marshalIndex setTimestamp).
Notation encodeMutations := (encodeMutations hmac256 hmac512 NewCipher Enc marshalAction marshalIndex setTimestamp).
Notation compilePatch := (compilePatch hkdf_SHA256 hmac256 hmac512 NewCipher Enc marshalAction marshalIndex setTimestamp).
Notation getAppStateKey := (getAppStateKey hkdf_SHA256).
Notation consistent := (consistent hkdf_SHA256).
Notation digest := (digest hkdf_SHA256).

(** ** A mutation *)

Lemma Encrypt_random_inv key random p r :
  Encrypt NewCipher Enc key None random p = Ret (inr r) ->
  exists k iv, NewCipher key = Some k /\ random = Some iv /\ length iv = BlockSize.
Proof.
  unfold Encrypt. destruct (NewCipher key) as [k|]; [|done]. destruct random as [iv|]; [|done].
  unfold checkIV. destruct (Nat.eqb_spec (length iv) BlockSize); [|done]. intros _. by exists k, iv.
Qed.

(** How a mutation was made. *)
Definition encoded (keyID : Bytes) (keys : ExpandedAppStateKeys) (ms : Z)
    (info : @MutationInfo Action) (mu : SyncdMutation) : Prop :=
  exists k iv indexBytes content c,
    NewCipher (k_ValueEncryption keys) = Some k /\ length iv = BlockSize /\
    marshalIndex (mi_Index info) = Some indexBytes /\
    marshalAction (mkActionData indexBytes (setTimestamp ms (mi_Value info)) (mi_Version info)) = Some content /\
    Decrypt NewCipher Dec (k_ValueEncryption keys) iv c = Ret (inr content) /\
    mu = mkSyncd SyncdMutation_SET (hmac256 (k_Index keys) indexBytes)
           ((iv ++ c) ++ generateContentMAC hmac512 SyncdMutation_SET (iv ++ c) keyID (k_ValueMAC keys)) (Some keyID).

Lemma concatAndHMAC_one alg key data : concatAndHMAC alg key [data] = alg key data.
Proof. unfold concatAndHMAC. cbn. by rewrite app_nil_r. Qed.

Lemma contentMAC_length op data keyID key : length (generateContentMAC hmac512 op data keyID key) = 32%nat.
Proof. unfold generateContentMAC, concatAndHMAC. rewrite length_take, hmac512_length. done. Qed.

Lemma encodeMutation_inv keyID keys t random info p mu p' :
  encodeMutation keyID keys t random info p = Ret (inr mu, p') ->
  p' = p /\ encoded keyID keys (toUnixMilli t) info mu.
Proof.
  unfold AppState.encodeMutation. intros H.
  apply app_bind_inv in H as (indexBytes & p1 & [Hi ->]%app_some_inv & H).
  apply app_bind_inv in H as (content & p2 & [Hc ->]%app_some_inv & H).
  apply app_bind_inv in H as (enc & p3 & [He ->]%app_lift_inv & H). destruct enc as [e|enc]; [done|].
  injection H as <- <-. split; [done|].
  destruct (Encrypt_random_inv _ _ _ _ He) as (k & iv & Hk & -> & Hiv).
  rewrite (Encrypt_prefixed NewCipher Enc _ iv content k Hk Hiv) in He. injection He as <-.
  exists k, iv, indexBytes, content, (encBlocks Enc k iv (to_blocks (padded content))).1. do 4 (split; [done|]).
  split; [by apply Decrypt_ciphertext|by rewrite concatAndHMAC_one].
Qed.

Lemma encodeMutations_inv keyID keys t random infos : forall i p mus p',
  encodeMutations keyID keys t random i infos p = Ret (inr mus, p') ->
  p' = p /\ Forall2 (encoded keyID keys (toUnixMilli t)) infos mus.
Proof.
  induction infos as [|info infos IH]; intros i p mus p' H; [by injection H as <- <-|].
  cbn [AppState.encodeMutations] in H.
  apply app_bind_inv in H as (mu & p1 & [-> H1]%encodeMutation_inv & H).
  apply app_bind_inv in H as (ms & p2 & [-> H2]%IH & H). injection H as <- <-. split; [done|by constructor].
Qed.

Lemma getAppStateKey_caches keyID p keys p' :
  getAppStateKey keyID p = Ret (inr keys, p') ->
  keyCache p' !! keyID = Some keys /\ Store p' = Store p /\ getAppStateKey keyID p' = Ret (inr keys, p').
Proof.
  intros H. assert (keyCache p' !! keyID = Some keys) as Hc.
  { revert H. unfold AppState.getAppStateKey. destruct (keyCache p !! keyID) eqn:E; [by intros [= <- <-]|].
    destruct (GetAppStateSyncKey _ _) as [|[]]; intros [= <- <-]. cbn. by rewrite lookup_insert_eq. }
  split; [done|]. split; [by eapply getAppStateKey_inv|]. unfold AppState.getAppStateKey. by rewrite Hc.
Qed.

(** What a mutation is decoded to. *)
Definition decoded (ms : Z) (v : Z) (info : @MutationInfo Action) (mu : SyncdMutation) (m : @Mutation Action) : Prop :=
  reports mu v m /\ mu_Action m = setTimestamp ms (mi_Value info) /\ mu_Version m = mi_Version info /\
  mu_Index m = mi_Index info.

Lemma encoded_facts keyID keys ms info mu :
  encoded keyID keys ms info mu ->
  sm_Operation mu = SyncdMutation_SET /\ (32 <= length (sm_Value mu))%nat /\
  length (mac_of (sm_Value mu)) = 32%nat /\ length (sm_Index mu) = 32%nat.
Proof.
  intros (k & iv & ib & content & c & _ & _ & _ & _ & _ & ->). cbn [sm_Operation sm_Value sm_Index].
  unfold mac_of. rewrite length_drop, length_app, contentMAC_length, hmac256_length. repeat split; lia.
Qed.

Lemma decodeMutation_encoded keyID keys ms info mu i q :
  encoded keyID keys ms info mu -> keyCache q !! keyID = Some keys ->
  exists ib, decodeMutation mu i true q =
    Ret (inr (sm_Index mu, mac_of (sm_Value mu), mi_Index info,
              mkActionData ib (setTimestamp ms (mi_Value info)) (mi_Version info)), q).
Proof.
  intros He Hk. destruct (encoded_facts _ _ _ _ _ He) as (_ & Hlen & _ & _).
  destruct He as (k & iv & ib & content & c & Hc & Hiv & Hi & Ha & Hd & ->).
  exists ib. cbn [sm_Operation sm_Index sm_Value sm_KeyID] in *.
  set (mac := generateContentMAC hmac512 SyncdMutation_SET (iv ++ c) keyID (k_ValueMAC keys)) in *.
  unfold AppState.decodeMutation. cbn [sm_Operation sm_Index sm_Value sm_KeyID from_option id].
  unfold mbind, App_bind. unfold AppState.getAppStateKey. rewrite Hk.
  unfold app_lift. rewrite (value_mac_Ret _ Hlen).
  assert (length ((iv ++ c) ++ mac) - 32 = length (iv ++ c))%nat as Hl.
  { rewrite (length_app (iv ++ c)). unfold mac. rewrite contentMAC_length. lia. }
  unfold mac_of. rewrite !Hl, drop_app_length, take_app_length. fold mac.
  unfold app_check, hmac_Equal. rewrite bool_decide_true by done. cbn [mret App_ret].
  unfold slice. rewrite length_app. change 16%nat with BlockSize.
  destruct (Nat.ltb_spec (length iv + length c) BlockSize); [lia|].
  rewrite take_app_length', drop_app_length' by done. rewrite Hd. unfold app_some.
  rewrite (action_roundtrip _ _ Ha). cbn [mret App_ret sad_Index]. rewrite concatAndHMAC_one, bool_decide_true by done.
  cbn [mret App_ret]. by rewrite (index_roundtrip _ _ Hi).
Qed.

Lemma decodeMutations_encoded keyID keys ms v infos mus : forall i out acc q,
  Forall2 (encoded keyID keys ms) infos mus -> keyCache q !! keyID = Some keys ->
  exists muts, decodeMutations mus i true v out acc q = Ret (inr (foldl out_step out mus, acc ++ muts), q) /\
    length muts = length infos /\
    forall j info mu m, infos !! j = Some info -> mus !! j = Some mu -> muts !! j = Some m -> decoded ms v info mu m.
Proof.
  intros i out acc q H Hk. revert i out acc. induction H as [|info mu infos mus He H IH]; intros i out acc.
  { exists []. rewrite app_nil_r. by repeat split. }
  destruct (decodeMutation_encoded _ _ _ _ _ i q He Hk) as (ib & Hd).
  destruct (IH (i + 1) (out_step out mu)
    (acc ++ [mkMutation (sm_KeyID mu) (sm_Operation mu) (setTimestamp ms (mi_Value info)) (mi_Version info) (mi_Index info)
       (sm_Index mu) (mac_of (sm_Value mu)) v])) as (muts & Hm & Hl & Hall).
  rewrite <- app_assoc in Hm. eexists. split; [|split].
  - cbn [AppState.decodeMutations]. unfold mbind, App_bind in *. rewrite Hd. cbn [sad_Value sad_Version] in *. exact Hm.
  - cbn. by rewrite Hl.
  - intros [|j] info' mu' m; cbn; [intros [= <-] [= <-] [= <-]|apply Hall]. by repeat split.
Qed.

(** ** A patch *)

Lemma digest_unique m h h' : digest m h -> digest m h' -> h = h'.
Proof.
  intros [Hv Hw] [Hv' Hw']. apply (words_inj hash_words); [done|done|]. apply list_eq. intros i.
  destruct (decide (i < hash_words)%nat) as [Hi|Hi]; [by rewrite Hw, Hw'|].
  destruct (words_vec _ _ Hv) as (Hl & _), (words_vec _ _ Hv') as (Hl' & _).
  by rewrite !lookup_ge_None_2 by lia.
Qed.

(** Of mutations of distinct indexes, the database has the previous values. *)
Lemma fromDB_ok name mus p m :
  represents name (rows (Store p)) m -> down (Store p) = false -> NoDup (sm_Index <$> mus) ->
  prev_ok m mus (fun i _ => Ret (fromDB name p i)).
Proof.
  intros Hr Hd Hn before mu after ->. rewrite (fromDB_represents name p m) by done.
  rewrite apply_all_other; [done|]. rewrite fmap_app in Hn. apply NoDup_app in Hn as (_ & Hn & _).
  intros Hin. apply (Hn _ Hin). by left.
Qed.

Lemma encoded_all keyID keys ms infos mus :
  Forall2 (encoded keyID keys ms) infos mus ->
  Forall (fun mu => sm_Operation mu = SyncdMutation_SET /\ (32 <= length (sm_Value mu))%nat /\
                    length (mac_of (sm_Value mu)) = 32%nat /\ length (sm_Index mu) = 32%nat) mus.
Proof. induction 1 as [|info mu infos mus He _ IH]; constructor; [by eapply encoded_facts|done]. Qed.

Lemma compilePatch_inv keyID hs now random info p patch hs' p' :
  compilePatch keyID hs now random info p = Ret (inr (patch, hs'), p') ->
  exists keys mus hs1 w pmac,
    getAppStateKey keyID p = Ret (inr keys, p') /\
    Forall2 (encoded keyID keys (toUnixMilli (if IsZero (pi_Timestamp info) then now else pi_Timestamp info)))
      (pi_Mutations info) mus /\
    updateHash hkdf_SHA256 mus (fun i _ => Ret (fromDB (pi_Type info) p' i)) hs = Ret (None, w, hs1) /\
    hs' = hs1 <| Version := (Version hs1 + 1) mod 2 ^ 64 |> /\
    let smac := generateSnapshotMAC hmac256 (pi_Type info) (k_SnapshotMAC keys) hs' in
    patch = mkPatch 0 mus smac pmac (Some keyID) /\
    generatePatchMAC hmac256 (mkPatch 0 mus smac [] (Some keyID)) (pi_Type info) (k_PatchMAC keys) (Version hs')
    = Ret pmac.
Proof.
  unfold AppState.compilePatch. intros H.
  apply app_bind_inv in H as (keys & p1 & H1 & H).
  apply app_bind_inv in H as (mus & p2 & [-> H2]%encodeMutations_inv & H).
  apply app_bind_inv in H as (hs1 & p3 & [-> (w & H3)]%app_update_inv & H).
  apply app_bind_inv in H as (pmac & p4 & [H4 ->]%app_lift_inv & H). injection H as <- <- <-.
  exists keys, mus, hs1, w, pmac. by repeat split.
Qed.

Lemma outputs_sets mus :
  Forall (fun mu => sm_Operation mu = SyncdMutation_SET) mus ->
  outputs mus = mkOutput [] (map (fun mu => (sm_Index mu, mac_of (sm_Value mu))) mus).
Proof.
  induction mus as [|x l IH] using rev_ind; [done|]. intros [Hl Hx]%Forall_app.
  inversion Hx as [|? ? Hx' _]; subst. unfold outputs in *. rewrite foldl_app, map_app, IH by done. cbn [foldl].
  unfold out_step. by rewrite Hx'.
Qed.

(** Inserting rows succeeds when they are new and well-formed. *)
Lemma insertRows_ok name v added db :
  is_Some (versions db !! name) ->
  Forall (fun mac => length mac.1 = 32%nat /\ length mac.2 = 32%nat) added ->
  Forall (fun r => row_name r = name -> row_version r = v -> row_index r ∉ added.*1) (rows db) -> NoDup added.*1 ->
  exists db', insertRows (new_rows name v added) db = Some db'.
Proof.
  revert db. induction added as [|mac added IH]; intros db Hs Hl Hr Hn; [by exists db|].
  inversion Hl as [|? ? [Hl1 Hl2] Hl']; subst. apply NoDup_cons in Hn as [Hn Hn'].
  cbn [new_rows map insertRows]. fold (new_rows name v added). rewrite decide_True.
  - apply IH; [done|done| |done]. cbn. apply Forall_app. split.
    + eapply Forall_impl; [exact Hr|]. cbn. intros r H Hname Hv. specialize (H Hname Hv). set_solver.
    + constructor; [|constructor]. by intros _ _.
  - cbn. repeat split; [done|done|done|]. eapply Forall_impl; [exact Hr|].
    intros r H (H1 & H2 & H3). cbn in H1, H2, H3. apply (H (eq_sym H1) (eq_sym H2)). rewrite <- H3. by left.
Qed.

Lemma storeMACs_ok name hs hs' added m p :
  consistent name (Store p) hs m -> faults (Store p) = [] -> Version hs < Version hs' ->
  length (Hash hs') = 128%nat ->
  Forall (fun mac => length mac.1 = 32%nat /\ length mac.2 = 32%nat) added -> NoDup added.*1 ->
  exists p', storeMACs name hs' (mkOutput [] added) p = Ret (inr (), p').
Proof.
  intros Hc Hf Hv Hl Ha Hn. unfold storeMACs, mbind, App_bind, app_store, PutAppStateVersion, exec.
  rewrite Hf. cbn [tail]. rewrite decide_True by done. cbn [Store upd DeleteAppStateMutationMACs RemovedMACs AddedMACs].
  set (db1 := (Store p) <| faults := [] |> <| versions := <[name := (Version hs', Hash hs')]> (versions (Store p)) |>).
  destruct (insertRows_ok name (Version hs') added db1) as [db2 H2]; [|done| |done|].
  - exists (Version hs', Hash hs'). cbn. by rewrite lookup_insert_eq.
  - cbn. eapply Forall_impl; [apply Hc|]. cbn. intros r Hle Hname He. specialize (Hle Hname). lia.
  - exists (p <| Store := db2 |>). unfold new_rows in H2. destruct added as [|mac added]; [by injection H2 as <-|].
    cbn [PutAppStateMutationMACs]. unfold exec. cbn [Store upd faults tail].
    match goal with |- context [insertRows ?r ?d] => change (insertRows r d) with (insertRows r db1) end.
    by rewrite H2.
Qed.

(** The sender, which looks up the previous values in its database, and the
    receiver, which looks in the patch first, compute the same hash. *)
Lemma same_hash name mus hs m p q w hs1 :
  consistent name (Store p) hs m -> consistent name (Store q) hs m -> Version hs + 1 < 2 ^ 64 ->
  NoDup (sm_Index <$> mus) -> Forall has_mac mus ->
  updateHash hkdf_SHA256 mus (fun i _ => Ret (fromDB name p i)) hs = Ret (None, w, hs1) ->
  let hs' := hs1 <| Version := (Version hs1 + 1) mod 2 ^ 64 |> in
  Version hs' = Version hs + 1 /\ digest (apply_all m mus) (Hash hs') /\
  exists w', updateHash hkdf_SHA256 mus (prevSetValueMAC name mus q) (hs <| Version := Version hs + 1 |>)
             = Ret (None, w', hs').
Proof.
  intros Hc Hq Hover Hn Hmac Hu hs'.
  destruct (updateHash_digest hkdf_SHA256 hkdf_fills m mus _ hs
    (fromDB_ok _ mus p m (cs_rows _ _ _ _ _ Hc) (consistent_up _ _ _ _ _ Hc) Hn) Hmac (cs_digest _ _ _ _ _ Hc))
    as (w1 & hs1' & Hu1 & Hv1 & Hd1).
  rewrite Hu in Hu1. injection Hu1 as <- <-.
  destruct (updateHash_digest hkdf_SHA256 hkdf_fills m mus (prevSetValueMAC name mus q)
    (mkHashState (Version hs + 1) (Hash hs))
    (prevSetValueMAC_ok _ mus q m (cs_rows _ _ _ _ _ Hq) (consistent_up _ _ _ _ _ Hq) Hmac) Hmac (cs_digest _ _ _ _ _ Hq))
    as (w2 & hs2 & Hu2 & Hv2 & Hd2).
  assert (hs2 = hs') as ->; [|by split; [|split; [|exists w2]]].
  pose proof (cs_nonneg _ _ _ _ _ Hc). unfold hs'. destruct hs2 as [v2 h2], hs1 as [v1 h1]. cbn in *.
  rewrite (digest_unique _ _ _ Hd2 Hd1), Hv1, Hv2, Z.mod_small by lia. done.
Qed.

(** The receiver's side. *)
Lemma decodePatch_encoded name keyID keys ms infos mus hs hs' pmac q q1 m w acc :
  Forall2 (encoded keyID keys ms) infos mus -> NoDup (sm_Index <$> mus) ->
  getAppStateKey keyID q = Ret (inr keys, q1) -> consistent name (Store q) hs m -> faults (Store q) = [] ->
  Version hs' = Version hs + 1 -> digest (apply_all m mus) (Hash hs') ->
  updateHash hkdf_SHA256 mus (prevSetValueMAC name mus q) (hs <| Version := Version hs + 1 |>) = Ret (None, w, hs') ->
  let smac := generateSnapshotMAC hmac256 name (k_SnapshotMAC keys) hs' in
  generatePatchMAC hmac256 (mkPatch 0 mus smac [] (Some keyID)) name (k_PatchMAC keys) (Version hs') = Ret pmac ->
  exists muts q',
    decodePatch name (mkPatch (Version hs + 1) mus smac pmac (Some keyID)) true (acc, hs) q
    = Ret (inr (acc ++ muts, hs'), q') /\
    consistent name (Store q') hs' (apply_all m mus) /\ length muts = length infos /\
    forall j i mu m, infos !! j = Some i -> mus !! j = Some mu -> muts !! j = Some m ->
      decoded ms (Version hs + 1) i mu m.
Proof.
  intros Henc Hn Hqkey Hq Hf Hv' Hd Hu smac Hpm. pose proof (encoded_all _ _ _ _ _ Henc) as Hall.
  assert (Forall (fun mu => sm_Operation mu = SyncdMutation_SET) mus) as Hsets
    by (eapply Forall_impl; [exact Hall|]; by intros mu (? & _)).
  destruct (getAppStateKey_caches _ _ _ _ Hqkey) as (Hcache & Hqstore & Hqkey').
  destruct (decodeMutations_encoded keyID keys ms (Version hs') _ _ 0 (mkOutput [] []) acc q1 Henc Hcache)
    as (muts & Hm & Hlen & Hdec).
  fold (outputs mus) in Hm. rewrite (outputs_sets mus Hsets) in Hm. rewrite <- Hqstore in Hq, Hf.
  destruct (storeMACs_ok name hs hs' (map (fun mu => (sm_Index mu, mac_of (sm_Value mu))) mus) m q1 Hq Hf)
    as (q' & Hst); [lia|by destruct Hd as [[? _] _]| | |].
  { apply Forall_fmap. eapply Forall_impl; [exact Hall|]. intros mu (_ & _ & ? & ?). by split. }
  { rewrite map_map. done. }
  exists muts, q'. split; [|split; [|split; [done|by rewrite <- Hv']]].
  - unfold AppState.decodePatch, validatePatch, validateSnapshotMAC, mbind, App_bind, app_update.
    cbn [fst snd sp_Version sp_Mutations sp_KeyID sp_SnapshotMAC sp_PatchMAC from_option id].
    rewrite Hu, Hqkey. unfold app_check at 1, hmac_Equal. rewrite bool_decide_true by done. cbn [mret App_ret].
    unfold app_lift, generatePatchMAC in *. cbn [sp_Mutations sp_SnapshotMAC] in *. rewrite <- Hv', Hpm.
    unfold app_check. rewrite bool_decide_true by done. cbn [mret App_ret]. rewrite Hm. by rewrite Hst.
  - rewrite <- (outputs_sets mus Hsets) in Hst.
    by destruct (storeMACs_consistent hkdf_SHA256 name hs hs' mus m q1 () q' Hq) as [Hc' _]; [lia| | |].
Qed.

(** C21. A patch that is compiled from a consistent collection, for distinct
    indexes, and that the server gives the next version, is accepted, with every
    MAC checked, by any client that is consistent with the same collection and
    has the same key, and it decodes to the actions that were encoded, in order.
    The two clients then have the same hash. *)
Theorem patch_accepted keyID hs now random info p m patch hs' p' q keys q1 acc :
  compilePatch keyID hs now random info p = Ret (inr (patch, hs'), p') ->
  consistent (pi_Type info) (Store p) hs m ->
  Version hs + 1 < 2 ^ 64 -> NoDup (sm_Index <$> sp_Mutations patch) ->
  consistent (pi_Type info) (Store q) hs m -> faults (Store q) = [] ->
  (exists p1, getAppStateKey keyID p = Ret (inr keys, p1)) -> getAppStateKey keyID q = Ret (inr keys, q1) ->
  let ms := toUnixMilli (if IsZero (pi_Timestamp info) then now else pi_Timestamp info) in
  let patch' := mkPatch (Version hs + 1) (sp_Mutations patch) (sp_SnapshotMAC patch) (sp_PatchMAC patch) (sp_KeyID patch) in
  exists muts q',
    decodePatch (pi_Type info) patch' true (acc, hs) q = Ret (inr (acc ++ muts, hs'), q') /\
    consistent (pi_Type info) (Store q') hs' (apply_all m (sp_Mutations patch)) /\
    length muts = length (pi_Mutations info) /\
    forall j i mu m, pi_Mutations info !! j = Some i -> sp_Mutations patch !! j = Some mu -> muts !! j = Some m ->
      decoded ms (Version hs + 1) i mu m.
Proof.
  intros H Hc Hover Hn Hq Hf [p1 Hkey] Hqkey ms.
  destruct (compilePatch_inv _ _ _ _ _ _ _ _ _ H) as (keys' & mus & hs1 & w & pmac & Hk & Henc & Hu & Hhs' & -> & Hpm).
  rewrite Hkey in Hk. injection Hk as <- <-. fold ms in Henc.
  cbn [sp_Mutations sp_SnapshotMAC sp_PatchMAC sp_KeyID] in *.
  assert (Forall has_mac mus) as Hmac
    by (eapply Forall_impl; [exact (encoded_all _ _ _ _ _ Henc)|]; intros mu (_ & ? & _) _; done).
  destruct (getAppStateKey_caches _ _ _ _ Hkey) as (_ & Hstore & _). rewrite <- Hstore in Hc.
  destruct (same_hash _ mus hs m p1 q w hs1 Hc Hq Hover Hn Hmac Hu) as (Hv & Hd & w' & Hu').
  rewrite <- Hhs' in *. by eapply decodePatch_encoded.
Qed.
End Codec.

(** ** A run

    A concrete instance: sums for the hashes, the identity for the cipher, an
    action of bytes, an index of one string. *)

Definition toy_sum (l : Bytes) : Z := uint8 (foldr Z.add 0 l).
Definition toy_hkdf (item salt info : Bytes) (n : Z) : Bytes := replicate (Z.to_nat n) (toy_sum item).
Definition toy_hmac (n : nat) (key data : Bytes) : Bytes := replicate n (toy_sum (key ++ data)).
Definition toy_cipher (key : Bytes) : option () := Some ().
Definition toy_block (_ : ()) (b : Bytes) : Bytes := b.
Definition toy_marshal (d : @SyncActionData Bytes) : option Bytes :=
  Some (Z.of_nat (length (sad_Index d)) :: sad_Version d :: sad_Index d ++ sad_Value d).
Definition toy_unmarshal (b : Bytes) : option (@SyncActionData Bytes) :=
  match b with
  | n :: v :: rest => Some (mkActionData (take (Z.to_nat n) rest) (drop (Z.to_nat n) rest) v)
  | _ => None
  end.
Definition toy_index (i : list string) : option Bytes := match i with [s] => Some (codes s) | _ => None end.
Definition toy_unindex (b : Bytes) : option (list string) := Some [of_codes b].
Definition toy_stamp (ms : Z) (a : Bytes) : Bytes := a ++ [uint8 ms].

Lemma toy_sum_byte l : is_byte (toy_sum l).
Proof. unfold is_byte, toy_sum, uint8. apply Z.mod_pos_bound. lia. Qed.

Lemma toy_fills item : vec hash_words (toy_hkdf item [] (HKDFInfo WAPatchIntegrity) (HKDFSize WAPatchIntegrity)).
Proof. split; [done|]. by apply Forall_replicate, toy_sum_byte. Qed.

Lemma toy_marshal_roundtrip d b : toy_marshal d = Some b -> toy_unmarshal b = Some d.
Proof.
  destruct d as [i a v]. intros [= <-]. cbn. rewrite Nat2Z.id. by rewrite take_app_length, drop_app_length.
Qed.

Lemma toy_index_roundtrip i b : toy_index i = Some b -> toy_unindex b = Some i.
Proof.
  destruct i as [|s [|]]; try done. intros [= <-]. unfold toy_unindex. by rewrite of_codes_codes.
Qed.

(** A database with a key and nothing else is consistent with nothing. *)
Definition toy_db : AppStateDB := mkDB ∅ [] {[ [1] := mkSyncKey [7; 8; 9] [] 5 ]} [] false.
Definition zero_state : HashState := mkHashState 0 (replicate 128 0).

Lemma toy_consistent name : consistent toy_hkdf name toy_db zero_state ∅.
Proof.
  constructor; [done|done| |constructor|done]. split; [split; [done|]|].
  - by apply Forall_replicate.
  - intros i Hi. unfold total, hash_words in *. rewrite map_to_list_empty. cbn [zero_state Hash].
    change (words (replicate 128 0)) with (replicate 64 0). by apply lookup_replicate.
Qed.

Definition toy_processor : Processor := mkProcessor ∅ toy_db.
Definition toy_info : @PatchInfo Bytes :=
  mkPatchInfo (Unix 1700000000) WAPatchRegular
    [mkMutationInfo ["mute"%string] 2 [10; 11]; mkMutationInfo ["pin"%string] 5 [12]].
Definition toy_random (i : nat) : option Bytes := Some (replicate 16 (Z.of_nat i)).
Definition toy_compile : outcome ((app_error + SyncdPatch * HashState) * Processor) :=
  compilePatch toy_hkdf (toy_hmac 32) (toy_hmac 64) toy_cipher toy_block toy_marshal toy_index toy_stamp
    [1] zero_state (Unix 0) toy_random toy_info toy_processor.
Definition toy_result : SyncdPatch * HashState * Processor :=
  match toy_compile with Ret (inr r, p) => (r, p) | _ => (mkPatch 0 [] [] [] None, zero_state, toy_processor) end.
Definition toy_keyed : Processor := match toy_result with (_, p) => p end.
Definition toy_patch (v : Z) : SyncdPatch :=
  match toy_result with (patch, _, _) =>
    mkPatch v (sp_Mutations patch) (sp_SnapshotMAC patch) (sp_PatchMAC patch) (sp_KeyID patch) end.
Definition toy_hash : HashState := match toy_result with (_, hs, _) => hs end.

Lemma toy_compiles : toy_compile = Ret (inr (toy_patch 0, toy_hash), toy_keyed).
Proof. vm_compute. reflexivity. Qed.

Definition toy_list : PatchList := mkPatchList WAPatchRegular [toy_patch 1] None.
Notation toy_DecodePatches :=
  (DecodePatches toy_hkdf (toy_hmac 32) (toy_hmac 64) toy_cipher toy_block toy_unmarshal toy_unindex).
Definition toy_decode : list (@Mutation Bytes) * HashState * Processor :=
  match toy_DecodePatches toy_list zero_state true toy_processor with
  | Ret (inr r, p) => (r, p)
  | _ => ([], zero_state, toy_processor)
  end.

Lemma toy_decodes :
  toy_DecodePatches toy_list zero_state true toy_processor =
  Ret (inr (fst toy_decode), snd toy_decode) /\ length (fst (fst toy_decode)) = 2%nat.
Proof. split; vm_compute; reflexivity. Qed.

Lemma toy_ascending patch name : sp_Version patch = 1 -> list_ascending (Version zero_state) (mkPatchList name [patch] None).
Proof. intros Hv [|x before] y after; [intros [= <- _]; cbn; lia|intros Hx; by destruct before]. Qed.

Lemma app_state_follows_patches_witness :
  length (fst (fst toy_decode)) = 2%nat /\
  consistent toy_hkdf (pl_Name toy_list) (Store (snd toy_decode)) (snd (fst toy_decode))
    (apply_all ∅ (list_mutations toy_list).*1).
Proof.
  destruct toy_decodes as [He Hl]. split; [exact Hl|]. destruct toy_decode as [[muts hs'] p'].
  destruct (app_state_follows_patches toy_hkdf (toy_hmac 32) (toy_hmac 64) toy_cipher toy_block
    toy_unmarshal toy_unindex toy_fills toy_list zero_state true toy_processor ∅ muts hs' p' He
    (toy_consistent (pl_Name toy_list)) (fun _ => eq_refl) (toy_ascending (toy_patch 1) WAPatchRegular eq_refl)) as [Hc _].
  exact Hc.
Defined.

Lemma patch_accepted_witness :
  exists muts q',
    decodePatch toy_hkdf (toy_hmac 32) (toy_hmac 64) toy_cipher toy_block toy_unmarshal toy_unindex WAPatchRegular
      (mkPatch (Version zero_state + 1) (sp_Mutations (toy_patch 0)) (sp_SnapshotMAC (toy_patch 0))
         (sp_PatchMAC (toy_patch 0)) (sp_KeyID (toy_patch 0)))
      true ([], zero_state) toy_processor = Ret (inr ([] ++ muts, toy_hash), q') /\ length muts = 2%nat.
Proof.
  destruct (patch_accepted toy_hkdf (toy_hmac 32) (toy_hmac 64) toy_cipher toy_block toy_block toy_unmarshal toy_marshal
    toy_unindex toy_index toy_stamp toy_fills (fun _ _ => eq_refl) (fun _ _ => eq_refl) (fun _ _ H => H) (fun _ _ _ => eq_refl)
    toy_marshal_roundtrip toy_index_roundtrip
    [1] zero_state (Unix 0) toy_random toy_info toy_processor ∅ (toy_patch 0) toy_hash toy_keyed toy_processor
    (expandAppStateKeys toy_hkdf [7; 8; 9]) toy_keyed [])
    as (muts & q' & H & _ & Hl & _).
  - exact toy_compiles.
  - apply toy_consistent.
  - done.
  - apply (bool_decide_unpack _). vm_compute. exact I.
  - apply toy_consistent.
  - done.
  - eexists. reflexivity.
  - vm_compute. reflexivity.
  - exists muts, q'. split; [exact H|]. rewrite Hl. reflexivity.
Defined.

(** The digest of new values. *)
Lemma fresh_digest mus w hs' :
  Forall (fun mu => 32 <= length (sm_Value mu))%nat mus -> NoDup (sm_Index <$> mus) ->
  updateHash toy_hkdf mus (fun _ _ => Ret (inr None)) zero_state = Ret (None, w, hs') ->
  digest toy_hkdf (apply_all ∅ mus) (Hash hs').
Proof.
  intros Hm Hn Hu.
  destruct (updateHash_digest toy_hkdf toy_fills ∅ mus (fun _ _ => Ret (inr None)) zero_state)
    as (w' & hs'' & Hu' & _ & Hd).
  - intros before mu after He. rewrite He in Hn. rewrite apply_all_other; [done|].
    rewrite fmap_app in Hn. apply NoDup_app in Hn as (_ & Hn & _). intros Hin. apply (Hn _ Hin). by left.
  - eapply Forall_impl; [exact Hm|]. by intros mu ? _.
  - apply (toy_consistent WAPatchRegular).
  - rewrite Hu in Hu'. by injection Hu' as <- <-.
Qed.

Lemma toy_digest : digest toy_hkdf (apply_all ∅ (sp_Mutations (toy_patch 1))) (Hash toy_hash).
Proof.
  apply (fresh_digest (sp_Mutations (toy_patch 1)) [] (mkHashState 0 (Hash toy_hash)));
    [apply (bool_decide_unpack _); vm_compute; exact I..|vm_compute; reflexivity].
Qed.

Lemma store_torn_witness :
  let p := mkProcessor ∅ (toy_db <| faults := [false; true] |>) in
  exists e p', storeMACs WAPatchRegular toy_hash (outputs (sp_Mutations (toy_patch 1))) p = Ret (inl e, p') /\
    GetAppStateVersion WAPatchRegular (Store p') = inr (Version toy_hash, Hash toy_hash) /\
    represents WAPatchRegular (rows (Store p')) ∅.
Proof.
  intros p. apply (store_torn toy_hkdf WAPatchRegular zero_state toy_hash (sp_Mutations (toy_patch 1)) ∅ p []).
  - destruct (toy_consistent WAPatchRegular) as [H1 H2 H3 H4 H5]. by constructor.
  - done.
  - exact toy_digest.
  - vm_compute. done.
  - done.
Defined.
