(* ===== verification/LidMap.v ===== *)
(** * [whatsmeow/store/sqlstore/lidmap.go]

    [CachedLIDMap]: the table that links the LIDs of users to their phone
    numbers, one to one, behind a cache in both directions.  A cached empty
    string says that there is no link.  A statement fails when the next of
    [faults] says so; a query can fail after some of its rows were read. *)
From S2P Require Import Prelude GoStrings Jid.

#[export] Instance JID_countable : Countable JID.
Proof.
  by refine (inj_countable' (fun j => (User j, RawAgent j, Device j, Integrator j, Server j))
    (fun t => match t with (u, a, d, i, s) => mkJID u a d i s end) _); intros [].
Defined.

(** [store.LIDMapping] *)
Record LIDMapping : Type := mkMapping { LID : JID; PN : JID }.

(** A row of [whatsmeow_lid_map]: [lid] is the primary key and [pn] is unique. *)
Definition Row : Type := string * string.

Record CachedLIDMap : Type := mkMap {
  table : list Row;
  pnToLIDCache : gmap string string;
  lidToPNCache : gmap string string;
  cacheFilled : bool;
  faults : list (option nat) }.
#[export] Instance eta_CachedLIDMap : Eta CachedLIDMap := fun r =>
  mkMap (table r) (pnToLIDCache r) (lidToPNCache r) (cacheFilled r) (faults r).

Definition NewCachedLIDMap (db : list Row) (faults : list (option nat)) : CachedLIDMap := mkMap db ∅ ∅ false faults.

Inductive lid_error : Type :=
| ErrInvalidCall
| ErrDB.

(** ** The database *)

Definition next_fault (s : CachedLIDMap) : option nat * CachedLIDMap :=
  match faults s with [] => (None, s) | f :: fs => (f, s <| faults := fs |>) end.

(** The rows that are read, and whether the query failed after them. *)
Definition query (P : Row -> Prop) `{!forall r, Decision (P r)} (s : CachedLIDMap) : list Row * bool * CachedLIDMap :=
  match next_fault s with
  | (None, s) => (filter P (table s), false, s)
  | (Some n, s) => (take n (filter P (table s)), true, s)
  end.

Definition exec (f : list Row -> option (list Row)) (s : CachedLIDMap) : option lid_error * CachedLIDMap :=
  match next_fault s with
  | (None, s) => match f (table s) with Some t => (None, s <| table := t |>) | None => (Some ErrDB, s) end
  | (Some _, s) => (Some ErrDB, s)
  end.

(** A failed transaction, or a failed commit, leaves the table as it was; what
    the body did to the caches stays. *)
Definition DoTxn (body : CachedLIDMap -> option lid_error * CachedLIDMap) (s : CachedLIDMap) : option lid_error * CachedLIDMap :=
  match next_fault s with
  | (Some _, s) => (Some ErrDB, s)
  | (None, s) =>
      match body s with
      | (Some e, s') => (Some e, s' <| table := table s |>)
      | (None, s') =>
          match next_fault s' with
          | (Some _, s') => (Some ErrDB, s' <| table := table s |>)
          | (None, s') => (None, s')
          end
      end
  end.

(** [deleteExistingLIDMappingQuery] *)
Definition deleteExisting (lid pn : string) (t : list Row) : option (list Row) :=
  Some (filter (fun r => ~ (r.1 <> lid /\ r.2 = pn)) t).
(** [putLIDMappingQuery]: [None] for a row that breaks a constraint. *)
Definition putMapping (lid pn : string) (t : list Row) : option (list Row) :=
  match filter (fun r => r.1 = lid) t with
  | [] => if decide (Forall (fun r => r.2 <> pn) t) then Some (t ++ [(lid, pn)]) else None
  | _ =>
      if decide ((lid, pn) ∈ t) then Some t
      else if decide (Forall (fun r => r.2 <> pn) t)
      then Some (map (fun r => if decide (r.1 = lid) then (lid, pn) else r) t) else None
  end.

(** ** The cache *)

(** The two directions. *)
Inductive side : Type := byPN | byLID.
#[export] Instance side_dec : EqDecision side.
Proof. solve_decision. Defined.
Definition other (d : side) : side := match d with byPN => byLID | byLID => byPN end.
Definition key (d : side) (r : Row) : string := match d with byPN => r.2 | byLID => r.1 end.
Definition cache (d : side) (s : CachedLIDMap) : gmap string string :=
  match d with byPN => pnToLIDCache s | byLID => lidToPNCache s end.
Definition cache_set (d : side) (k v : string) (s : CachedLIDMap) : CachedLIDMap :=
  match d with
  | byPN => s <| pnToLIDCache := <[k := v]> (pnToLIDCache s) |>
  | byLID => s <| lidToPNCache := <[k := v]> (lidToPNCache s) |>
  end.

Definition scanManyLids (rows : list Row) (s : CachedLIDMap) : CachedLIDMap :=
  foldl (fun s r => cache_set byLID r.1 r.2 (cache_set byPN r.2 r.1 s)) s rows.

Definition FillCache (s : CachedLIDMap) : option lid_error * CachedLIDMap :=
  let '(rows, failed, s) := query (fun _ => True) s in
  let s := scanManyLids rows s in
  (if failed then Some ErrDB else None, s <| cacheFilled := negb failed |>).

Definition getLIDMapping (source : JID) (targetServer : string) (d : side) (s : CachedLIDMap)
  : option lid_error * JID * CachedLIDMap :=
  let target u := if decide (u = "") then EmptyJID else mkJID u 0 (Device source) 0 targetServer in
  let cached := cache d s !! User source in
  if bool_decide (is_Some cached) || cacheFilled s then (None, target (default "" cached), s)
  else
    let '(rows, failed, s) := query (fun r => key d r = User source) s in
    if failed then (Some ErrDB, EmptyJID, s)
    else
      let targetUser := match rows with r :: _ => key (other d) r | [] => "" end in
      let s := cache_set d (User source) targetUser s in
      let s := if decide (targetUser = "") then s else cache_set (other d) targetUser (User source) s in
      (None, target targetUser, s).

Definition GetLIDForPN (pn : JID) (s : CachedLIDMap) : option lid_error * JID * CachedLIDMap :=
  if decide (Server pn = DefaultUserServer) then getLIDMapping pn HiddenUserServer byPN s
  else (Some ErrInvalidCall, EmptyJID, s).
Definition GetPNForLID (lid : JID) (s : CachedLIDMap) : option lid_error * JID * CachedLIDMap :=
  if decide (Server lid = HiddenUserServer) then getLIDMapping lid DefaultUserServer byLID s
  else (Some ErrInvalidCall, EmptyJID, s).

(** The cached answers, and the phone numbers to look up with their JIDs. *)
Definition cachedLIDs (s : CachedLIDMap) (acc : gmap JID JID * list JID) (pn : JID) : gmap JID JID * list JID :=
  if negb (bool_decide (Server pn = DefaultUserServer)) then acc
  else
    let lidUser := default "" (cache byPN s !! User pn) in
    if negb (bool_decide (lidUser = "")) then (<[pn := mkJID lidUser 0 (Device pn) 0 HiddenUserServer]> acc.1, acc.2)
    else if negb (cacheFilled s) then (acc.1, acc.2 ++ [pn])
    else acc.

(** The LID of a row, for every JID of its phone number that was asked for. *)
Definition rowLIDs (missing : list JID) (result : gmap JID JID) (r : Row) : gmap JID JID :=
  foldl (fun result dev =>
    if decide (User dev = r.2) then <[dev := ToNonAD (dev <| User := r.1 |> <| Server := HiddenUserServer |>)]> result
    else result) result missing.

Definition GetManyLIDsForPNs (pns : list JID) (s : CachedLIDMap) : option lid_error * gmap JID JID * CachedLIDMap :=
  match pns with
  | [] => (None, ∅, s)
  | _ =>
      let '(result, missing) := foldl (cachedLIDs s) (∅, []) pns in
      match missing with
      | [] => (None, result, s)
      | _ =>
          let '(rows, failed, s) := query (fun r => r.2 ∈ map User missing) s in
          let s := scanManyLids rows s in
          (if failed then Some ErrDB else None, foldl (rowLIDs missing) result rows, s)
      end
  end.

(** What the caches are after the statements. *)
Definition cachePut (lid pn : string) (s : CachedLIDMap) : CachedLIDMap :=
  let oldLID := default "" (pnToLIDCache s !! pn) in
  let oldPN := default "" (lidToPNCache s !! lid) in
  let s := s <| pnToLIDCache := <[pn := lid]> (pnToLIDCache s) |> <| lidToPNCache := <[lid := pn]> (lidToPNCache s) |> in
  let s := if decide (oldPN <> "" /\ oldPN <> pn /\ pnToLIDCache s !! oldPN = Some lid)
           then s <| pnToLIDCache := delete oldPN (pnToLIDCache s) |> else s in
  if decide (oldLID <> "" /\ oldLID <> lid /\ lidToPNCache s !! oldLID = Some pn)
  then s <| lidToPNCache := delete oldLID (lidToPNCache s) |> else s.

Definition valid_servers (lid pn : JID) : bool :=
  bool_decide (Server lid = HiddenUserServer) && bool_decide (Server pn = DefaultUserServer).

Definition unlockedPutLIDMapping (lid pn : JID) (s : CachedLIDMap) : option lid_error * CachedLIDMap :=
  if negb (valid_servers lid pn) then (Some ErrInvalidCall, s)
  else
    match exec (deleteExisting (User lid) (User pn)) s with
    | (Some e, s) => (Some e, s)
    | (None, s) =>
        match exec (putMapping (User lid) (User pn)) s with
        | (Some e, s) => (Some e, s)
        | (None, s) => (None, cachePut (User lid) (User pn) s)
        end
    end.

Definition is_cached (lid pn : JID) (s : CachedLIDMap) : bool :=
  bool_decide (pnToLIDCache s !! User pn = Some (User lid)).

Definition PutLIDMapping (lid pn : JID) (s : CachedLIDMap) : option lid_error * CachedLIDMap :=
  if negb (valid_servers lid pn) then (Some ErrInvalidCall, s)
  else if is_cached lid pn s then (None, s)
  else DoTxn (unlockedPutLIDMapping lid pn) s.

Fixpoint putMappings (mappings : list LIDMapping) (s : CachedLIDMap) : option lid_error * CachedLIDMap :=
  match mappings with
  | [] => (None, s)
  | m :: mappings =>
      match unlockedPutLIDMapping (LID m) (PN m) s with
      | (Some e, s) => (Some e, s)
      | (None, s) => putMappings mappings s
      end
  end.

Section Many.
(** [exslices.DeduplicateUnsortedOverwrite] *)
Context (dedup : list LIDMapping -> list LIDMapping).

Definition PutManyLIDMappings (mappings : list LIDMapping) (s : CachedLIDMap) : option lid_error * CachedLIDMap :=
  let mappings := filter (fun m => valid_servers (LID m) (PN m) = true /\ is_cached (LID m) (PN m) s = false) mappings in
  match dedup mappings with
  | [] => (None, s)
  | mappings => DoTxn (putMappings mappings) s
  end.
End Many.

(** ** The table as a partial bijection *)

Definition links (t : list Row) (lid pn : string) : Prop := (lid, pn) ∈ t.

(** What the schema and the writers keep: no two rows agree on a side, and no
    name is empty. *)
Record one_to_one (t : list Row) : Prop := mkOne {
  row_unique : forall d r r', r ∈ t -> r' ∈ t -> key d r = key d r' -> r = r';
  key_named : forall d r, r ∈ t -> key d r <> "" }.

Lemma deleteExisting_spec lid pn t :
  exists t', deleteExisting lid pn t = Some t' /\ forall r, r ∈ t' <-> r ∈ t /\ (r.1 = lid \/ r.2 <> pn).
Proof.
  eexists. split; [done|]. intros r. rewrite list_elem_of_filter.
  destruct (decide (r.1 = lid)), (decide (r.2 = pn)); tauto.
Qed.

Lemma filter_empty {A} (P : A -> Prop) `{!forall x, Decision (P x)} (l : list A) x : filter P l = [] -> x ∈ l -> ~ P x.
Proof. intros He Hx Hp. assert (x ∈ filter P l) as Hin by (by apply list_elem_of_filter). rewrite He in Hin. set_solver. Qed.

(** An upsert when the phone number has no other LID. *)
Lemma putMapping_spec lid pn t :
  one_to_one t -> (forall r, r ∈ t -> r.2 = pn -> r.1 = lid) ->
  exists t', putMapping lid pn t = Some t' /\
    forall r, r ∈ t' <-> r = (lid, pn) \/ (r ∈ t /\ r.1 <> lid /\ r.2 <> pn).
Proof.
  intros Hone Hpn. unfold putMapping.
  destruct (decide ((lid, pn) ∈ t)) as [Hin|Hin].
  - destruct (filter (fun r => r.1 = lid) t) as [|r0 l] eqn:Ef.
    { exfalso. by apply (filter_empty _ _ _ Ef Hin). }
    eexists. split; [done|]. intros r. split.
    + intros Hr. destruct (decide (r = (lid, pn))) as [->|Hne]; [by left|right]. split; [done|].
      split; intros He; apply Hne; [by apply (row_unique t Hone byLID)|by apply (row_unique t Hone byPN)].
    + by intros [->|(Hr & _)].
  - assert (Forall (fun r => r.2 <> pn) t) as Hall.
    { apply Forall_forall. intros [a b] Hr Hrp. cbn in Hrp. subst b. apply Hin.
      pose proof (Hpn _ Hr eq_refl) as Ha. cbn in Ha. by subst a. }
    assert (forall r, r ∈ t -> r.2 <> pn) as Hall' by (by apply Forall_forall).
    destruct (filter (fun r => r.1 = lid) t) as [|r0 l] eqn:Ef; rewrite decide_True by done;
      (eexists; split; [done|]); intros r.
    + rewrite elem_of_app, list_elem_of_singleton. split.
      * intros [Hr| ->]; [right|by left]. split; [done|]. split; [|by apply Hall']. by apply (filter_empty _ _ _ Ef).
      * intros [->|(Hr & _)]; [by right|by left].
    + assert (r0 ∈ t /\ r0.1 = lid) as [Hr0 Hr0l].
      { assert (r0 ∈ filter (fun r => r.1 = lid) t) as H by (rewrite Ef; by left).
        by apply list_elem_of_filter in H as [? ?]. }
      rewrite list_elem_of_fmap. split.
      * intros (x & -> & Hx). destruct (decide (x.1 = lid)) as [|Hne]; [by left|right].
        split; [done|]. split; [done|by apply Hall'].
      * intros [->|(Hr & H1 & _)]; [exists r0; split; [by rewrite decide_True|done]|exists r; split; [by rewrite decide_False|done]].
Qed.

(** The two statements of a put: the row replaces all that shared a side. *)
Lemma put_statements lid pn t :
  one_to_one t -> lid <> "" -> pn <> "" ->
  exists t1 t2, deleteExisting lid pn t = Some t1 /\ putMapping lid pn t1 = Some t2 /\ one_to_one t2 /\
    forall r, r ∈ t2 <-> r = (lid, pn) \/ (r ∈ t /\ r.1 <> lid /\ r.2 <> pn).
Proof.
  intros [Hu Hn] Hl Hp. destruct (deleteExisting_spec lid pn t) as (t1 & H1 & Ht1).
  destruct (putMapping_spec lid pn t1) as (t2 & H2 & Ht2).
  - split; [intros d r r' [Hr _]%Ht1 [Hr' _]%Ht1; by apply Hu|intros d r [Hr _]%Ht1; by apply Hn].
  - intros r [_ [|]]%Ht1 ?; [done|congruence].
  - assert (forall r, r ∈ t2 <-> r = (lid, pn) \/ (r ∈ t /\ r.1 <> lid /\ r.2 <> pn)) as Hspec.
    { intros r. rewrite Ht2, Ht1. tauto. }
    exists t1, t2. split; [done|]. split; [done|]. split; [|done]. split.
    + intros d r r' Hr Hr' He. apply Hspec in Hr, Hr'.
      destruct Hr as [->|(Hr & ? & ?)], Hr' as [->|(Hr' & ? & ?)]; [done|..]; [| |by apply (Hu d)];
        destruct d; cbn in He; congruence.
    + intros d r [->|(Hr & _)]%Hspec; [by destruct d|by apply Hn].
Qed.

(** ** The cache agrees with the table *)

Definition pairing (d : side) (a b : string) : Row := match d with byPN => (b, a) | byLID => (a, b) end.

Record coherent (s : CachedLIDMap) : Prop := mkCoherent {
  co_table : one_to_one (table s);
  co_absent : forall d k, cache d s !! k = Some "" -> forall r, r ∈ table s -> key d r <> k;
  co_cached : forall d k v, cache d s !! k = Some v -> v <> "" ->
    pairing d k v ∈ table s /\ cache (other d) s !! v = Some k;
  co_filled : cacheFilled s = true -> forall d r, r ∈ table s -> cache d s !! key d r = Some (key (other d) r) }.

Lemma key_pairing d a b : key d (pairing d a b) = a /\ key (other d) (pairing d a b) = b.
Proof. by destruct d. Qed.

Lemma pairing_key d r : pairing d (key d r) (key (other d) r) = r.
Proof. by destruct d, r. Qed.

Lemma cache_set_lookup d d' k v s k' :
  cache d' (cache_set d k v s) !! k' = if decide (d' = d /\ k' = k) then Some v else cache d' s !! k'.
Proof.
  destruct d, d'; cbn; try (rewrite decide_False by (by intros [? _])); try done;
    destruct (decide (k' = k)) as [->|Hne]; rewrite ?decide_True, ?decide_False by naive_solver;
    first [by apply lookup_insert_eq|by apply lookup_insert_ne].
Qed.

Lemma cache_set_fields d k v s :
  table (cache_set d k v s) = table s /\ cacheFilled (cache_set d k v s) = cacheFilled s /\
  faults (cache_set d k v s) = faults s.
Proof. by destruct d. Qed.

Lemma other_other d : other (other d) = d.
Proof. by destruct d. Qed.

Lemma other_ne d : other d <> d.
Proof. by destruct d. Qed.

(** Caching a row of the table, in both directions. *)
Lemma cache_row_coherent d r s :
  coherent s -> r ∈ table s ->
  coherent (cache_set (other d) (key (other d) r) (key d r) (cache_set d (key d r) (key (other d) r) s)).
Proof.
  intros [Hone Habs Hc Hf] Hr.
  assert (forall d' k, cache d' (cache_set (other d) (key (other d) r) (key d r) (cache_set d (key d r) (key (other d) r) s)) !! k
    = if decide (k = key d' r) then Some (key (other d') r) else cache d' s !! k) as Hl.
  { intros d' k. rewrite !cache_set_lookup. destruct (decide (d' = d)) as [->|Hd].
    - rewrite decide_False by (intros [H _]; by apply (other_ne d)).
      destruct (decide (k = key d r)); [by rewrite decide_True|by rewrite decide_False by tauto].
    - assert (d' = other d) as -> by (by destruct d, d'). rewrite other_other.
      destruct (decide (k = key (other d) r)); [by rewrite decide_True|].
      rewrite decide_False by tauto. rewrite decide_False; [done|]. intros [H _]. by apply (other_ne d). }
  destruct (cache_set_fields d (key d r) (key (other d) r) s) as (Ht & Hfl & _).
  destruct (cache_set_fields (other d) (key (other d) r) (key d r) (cache_set d (key d r) (key (other d) r) s)) as (Ht' & Hfl' & _).
  constructor; rewrite Ht', Ht in *.
  - done.
  - intros d' k. rewrite Hl. destruct (decide (k = key d' r)) as [->|Hne]; [|apply Habs].
    intros [= He]. exfalso. by apply (key_named _ Hone (other d') r).
  - intros d' k v. rewrite !Hl. destruct (decide (k = key d' r)) as [->|Hne].
    + intros [= <-] _. rewrite pairing_key, decide_True by done. split; [done|]. by rewrite other_other.
    + intros Hk Hv. destruct (Hc d' k v Hk Hv) as [Hin Hb]. split; [done|].
      rewrite decide_False; [done|]. intros ->. apply Hne.
      assert (pairing d' k (key (other d') r) = r) as He.
      { apply (row_unique _ Hone (other d')); [done|done|]. by apply key_pairing. }
      rewrite <- He. symmetry. apply key_pairing.
  - rewrite Hfl', Hfl. intros Hfill d' r' Hr'. rewrite Hl. destruct (decide (key d' r' = key d' r)) as [He|Hne].
    + by rewrite (row_unique _ Hone d' r' r).
    + by apply Hf.
Qed.

(** What is cached for a row is the row. *)
Lemma cached_row s d r : coherent s -> r ∈ table s -> is_Some (cache d s !! key d r) -> cache d s !! key d r = Some (key (other d) r).
Proof.
  intros [Hone Habs Hc _] Hr [v Hv]. destruct (decide (v = "")) as [->|Hne].
  { exfalso. by apply (Habs d _ Hv r Hr). }
  destruct (Hc d _ v Hv Hne) as [Hin _]. rewrite Hv. f_equal.
  rewrite <- (row_unique _ Hone d (pairing d (key d r) v) r); [symmetry; apply key_pairing|done|done|apply key_pairing].
Qed.

Definition same_store (s s' : CachedLIDMap) : Prop :=
  table s' = table s /\ cacheFilled s' = cacheFilled s /\ faults s' = faults s.

Lemma scan_coherent rows : forall s,
  coherent s -> (forall r, r ∈ rows -> r ∈ table s) ->
  coherent (scanManyLids rows s) /\ same_store s (scanManyLids rows s) /\
  (forall d r, r ∈ rows \/ is_Some (cache d s !! key d r) -> is_Some (cache d (scanManyLids rows s) !! key d r)).
Proof.
  induction rows as [|r rows IH]; intros s Hc Hr.
  { split; [done|]. split; [done|]. intros d r [Hin|]; [set_solver|done]. }
  set (s1 := cache_set byLID r.1 r.2 (cache_set byPN r.2 r.1 s)).
  pose proof (cache_row_coherent byPN r s Hc (Hr r (list_elem_of_here _ _))) as Hc1.
  change (scanManyLids (r :: rows) s) with (scanManyLids rows s1).
  destruct (IH s1 Hc1) as (H1 & H2 & H3); [intros x Hx; apply Hr; by right|].
  split; [done|]. split; [done|]. intros d x Hx. apply H3.
  destruct (decide (key d x = key d r)) as [He|Hne].
  - right. rewrite He. unfold s1. rewrite !cache_set_lookup.
    destruct d; cbn [key]; [rewrite decide_False by (by intros [? _])|]; by rewrite decide_True.
  - destruct Hx as [[-> |Hx]%elem_of_cons|Hx]; [done|by left|]. right. unfold s1. rewrite !cache_set_lookup.
    destruct d; cbn [key] in *; by rewrite !decide_False by (intros [? ?]; congruence).
Qed.

(** ** The operations, when no statement fails *)

(** The other name of a name, or the empty string. *)
Definition partner_ok (d : side) (t : list Row) (k v : string) : Prop :=
  (v <> "" /\ pairing d k v ∈ t) \/ (v = "" /\ forall r, r ∈ t -> key d r <> k).

Lemma query_ok P `{!forall r, Decision (P r)} s : faults s = [] -> query P s = (filter P (table s), false, s).
Proof. intros Hf. unfold query, next_fault. by rewrite Hf. Qed.

Lemma cached_partner d s k :
  coherent s -> is_Some (cache d s !! k) \/ cacheFilled s = true -> partner_ok d (table s) k (default "" (cache d s !! k)).
Proof.
  intros Hco Hk. destruct Hco as [Hone Habs Hc Hf]. destruct (cache d s !! k) as [v|] eqn:E; cbn [from_option id].
  - destruct (decide (v = "")) as [->|Hne]; [right; split; [done|by apply Habs]|left; split; [done|]]. by apply (Hc d k v).
  - right. split; [done|]. intros r Hr He. destruct Hk as [[? ?]|Hk]; [done|].
    rewrite <- He in E. rewrite (Hf Hk d r Hr) in E. done.
Qed.

(** A lookup gives the other name, and caches it. *)
Lemma getLIDMapping_ok source target d s :
  coherent s -> faults s = [] ->
  exists u s', getLIDMapping source target d s =
    (None, (if decide (u = "") then EmptyJID else mkJID u 0 (Device source) 0 target), s') /\
    coherent s' /\ same_store s s' /\ partner_ok d (table s) (User source) u.
Proof.
  intros Hc Hf. unfold getLIDMapping. destruct (_ || _) eqn:Eb.
  - exists (default "" (cache d s !! User source)), s. split; [done|]. split; [done|]. split; [done|].
    apply cached_partner; [done|]. apply orb_true_iff in Eb as [Eb|Eb]; [left; by apply bool_decide_eq_true in Eb|by right].
  - apply orb_false_iff in Eb as [Ek Efl]. rewrite query_ok by done. cbn match.
    destruct (filter (fun r => key d r = User source) (table s)) as [|r l] eqn:Ef.
    + assert (forall r, r ∈ table s -> key d r <> User source) as Hno by (intros r; apply (filter_empty _ _ _ Ef)).
      exists "", (cache_set d (User source) "" s). cbn. split; [done|].
      destruct (cache_set_fields d (User source) "" s) as (Ht & Hfl & Hfa).
      split; [|split; [done|by right]]. destruct Hc as [Hone Habs Hc Hfill]. constructor; rewrite ?Ht, ?Hfl; [done|..].
      * intros d' k. rewrite cache_set_lookup. destruct (decide _) as [[-> ->]|]; [done|apply Habs].
      * intros d' k v. rewrite !cache_set_lookup. destruct (decide (d' = d /\ k = User source)) as [|Hne]; [congruence|].
        intros Hk Hv. destruct (Hc d' k v Hk Hv) as [Hin Hb]. split; [done|].
        rewrite decide_False; [done|]. intros [<- ->].
        apply (Hno _ Hin). destruct (key_pairing d' k (User source)) as [_ Hkp]. exact Hkp.
      * congruence.
    + assert (r ∈ table s /\ key d r = User source) as [Hr Hkr].
      { assert (r ∈ filter (fun r => key d r = User source) (table s)) as Hin by (rewrite Ef; by left).
        by apply list_elem_of_filter in Hin as [? ?]. }
      pose proof (key_named _ (co_table _ Hc) (other d) r Hr) as Hne.
      exists (key (other d) r), (cache_set (other d) (key (other d) r) (User source) (cache_set d (User source) (key (other d) r) s)).
      cbn beta iota zeta. rewrite !(decide_False (P := key (other d) r = "")) by done. split; [done|]. rewrite <- Hkr.
      split; [by apply cache_row_coherent|]. split; [|left; split; [done|by rewrite pairing_key]].
      destruct (cache_set_fields d (key d r) (key (other d) r) s) as (H1 & H2 & H3).
      destruct (cache_set_fields (other d) (key (other d) r) (key d r) (cache_set d (key d r) (key (other d) r) s)) as (H4 & H5 & H6).
      unfold same_store. by rewrite H4, H5, H6.
Qed.

(** *** Putting *)

(** One of the caches: the old entry for [b], under [old], goes. *)
Lemma drop_old (m : gmap string string) a b old k :
  (forall k, m !! k = Some b -> old = k /\ k <> "") ->
  (if decide (old <> "" /\ old <> a /\ <[a := b]> m !! old = Some b) then delete old (<[a := b]> m) else <[a := b]> m) !! k
  = if decide (k = a) then Some b else if decide (m !! k = Some b) then None else m !! k.
Proof.
  intros Hold. destruct (decide (k = a)) as [->|Hne].
  { destruct (decide _) as [(H1 & H2 & H3)|]; [rewrite lookup_delete_ne by done|]; by rewrite lookup_insert_eq. }
  destruct (decide (m !! k = Some b)) as [Hk|Hk].
  - destruct (Hold k Hk) as [-> Hkn]. rewrite decide_True; [by rewrite lookup_delete_eq|].
    split; [done|]. split; [done|]. by rewrite lookup_insert_ne.
  - destruct (decide _) as [(H1 & H2 & H3)|]; [|by rewrite lookup_insert_ne].
    destruct (decide (old = k)) as [->|Hok]; [by rewrite lookup_insert_ne in H3|].
    rewrite lookup_delete_ne by done. by rewrite lookup_insert_ne.
Qed.

Lemma cachePut_pn lid pn s :
  pnToLIDCache (cachePut lid pn s) =
  let old := default "" (lidToPNCache s !! lid) in let m := <[pn := lid]> (pnToLIDCache s) in
  if decide (old <> "" /\ old <> pn /\ m !! old = Some lid) then delete old m else m.
Proof.
  unfold cachePut. cbn zeta. set (b1 := decide (default "" (lidToPNCache s !! lid) <> "" /\ _)).
  destruct (decide (default "" (pnToLIDCache s !! pn) <> "" /\ _)); unfold b1; cbn; by destruct (decide _).
Qed.

Lemma cachePut_lid lid pn s :
  lidToPNCache (cachePut lid pn s) =
  let old := default "" (pnToLIDCache s !! pn) in let m := <[lid := pn]> (lidToPNCache s) in
  if decide (old <> "" /\ old <> lid /\ m !! old = Some pn) then delete old m else m.
Proof.
  unfold cachePut. cbn zeta. destruct (decide (default "" (lidToPNCache s !! lid) <> "" /\ _)); cbn; by destruct (decide _).
Qed.

Lemma cachePut_fields lid pn s : same_store s (cachePut lid pn s).
Proof. unfold cachePut, same_store. cbn zeta. destruct (decide _); by destruct (decide _). Qed.

(** What a put leaves in the caches: the new pair, and no other entry that had
    one of its names as a value. *)
Lemma cachePut_lookup lid pn s d k :
  coherent s -> lid <> "" -> pn <> "" ->
  cache d (cachePut lid pn s) !! k =
  if decide (k = key d (lid, pn)) then Some (key (other d) (lid, pn))
  else if decide (cache d s !! k = Some (key (other d) (lid, pn))) then None else cache d s !! k.
Proof.
  intros [Hone Habs Hc _] Hl Hp.
  assert (forall d k v, cache d s !! k = Some v -> v <> "" -> default "" (cache (other d) s !! v) = k /\ k <> "") as Hback.
  { intros d' k' v Hk Hv. destruct (Hc d' k' v Hk Hv) as [Hin ->]. split; [done|].
    destruct (key_pairing d' k' v) as [<- _]. by apply (key_named _ Hone). }
  destruct d; cbn [cache key other fst snd].
  - rewrite cachePut_pn. apply drop_old. intros k' Hk'. by apply (Hback byPN).
  - rewrite cachePut_lid. apply drop_old. intros k' Hk'. by apply (Hback byLID).
Qed.

Definition put_spec (lid pn : string) (t t' : list Row) : Prop :=
  forall r, r ∈ t' <-> r = (lid, pn) \/ (r ∈ t /\ r.1 <> lid /\ r.2 <> pn).

Lemma put_spec_key lid pn t t' d r :
  put_spec lid pn t t' ->
  r ∈ t' <-> r = (lid, pn) \/ (r ∈ t /\ key d r <> key d (lid, pn) /\ key (other d) r <> key (other d) (lid, pn)).
Proof. intros Hs. rewrite (Hs r). destruct d; cbn; tauto. Qed.

Lemma cachePut_coherent lid pn s t' :
  coherent s -> lid <> "" -> pn <> "" -> one_to_one t' -> put_spec lid pn (table s) t' ->
  coherent (cachePut lid pn (s <| table := t' |>)).
Proof.
  intros Hco Hl Hp Hone' Hspec.
  assert (forall d k, cache d (cachePut lid pn (s <| table := t' |>)) !! k =
    if decide (k = key d (lid, pn)) then Some (key (other d) (lid, pn))
    else if decide (cache d s !! k = Some (key (other d) (lid, pn))) then None else cache d s !! k) as Hlook.
  { intros d k. rewrite <- (cachePut_lookup lid pn s d k Hco Hl Hp).
    destruct d; cbn [cache]; by rewrite ?cachePut_pn, ?cachePut_lid. }
  assert (forall d, key d (lid, pn) <> "") as Hnamed by (by intros []).
  destruct Hco as [Hone Habs Hc Hf].
  destruct (cachePut_fields lid pn (s <| table := t' |>)) as (Ht & Hfl & _). cbn in Ht, Hfl.
  constructor; rewrite ?Ht, ?Hfl; [done|..].
  - intros d k. rewrite Hlook. destruct (decide (k = _)); [intros [= He]; by destruct (Hnamed (other d))|].
    destruct (decide (cache d s !! k = _)); [done|]. intros Hk r [-> |(Hr & _)]%(Hspec r); [done|by apply Habs].
  - intros d k v. rewrite !Hlook. destruct (decide (k = key d (lid, pn))) as [->|Hne].
    + intros [= <-] _. rewrite decide_True, other_other by done. split; [|done].
      apply Hspec. left. apply pairing_key.
    + destruct (decide (cache d s !! k = _)) as [|Hnk]; [done|]. intros Hk Hv. destruct (Hc d k v Hk Hv) as [Hin Hb].
      assert (v <> key (other d) (lid, pn)) as Hv' by congruence. rewrite decide_False by done.
      rewrite decide_False by (rewrite other_other, Hb; congruence). split; [|done].
      apply (put_spec_key _ _ _ _ d _ Hspec). right. destruct (key_pairing d k v) as [-> ->]. by split.
  - intros Hfill d r Hr. rewrite Hlook. apply (put_spec_key _ _ _ _ d _ Hspec) in Hr as [->|(Hr & H1 & H2)].
    + by rewrite decide_True.
    + rewrite decide_False by done. rewrite (Hf Hfill d r Hr). rewrite decide_False by congruence. done.
Qed.

Definition names (m : LIDMapping) : Row := (User (LID m), User (PN m)).
Definition named (m : LIDMapping) : Prop := User (LID m) <> "" /\ User (PN m) <> "".

Lemma unlockedPut_ok m s :
  coherent s -> faults s = [] -> valid_servers (LID m) (PN m) = true -> named m ->
  exists s', unlockedPutLIDMapping (LID m) (PN m) s = (None, s') /\ coherent s' /\ faults s' = [] /\
    put_spec (names m).1 (names m).2 (table s) (table s').
Proof.
  intros Hc Hf Hv [Hl Hp]. destruct (put_statements _ _ _ (co_table _ Hc) Hl Hp) as (t1 & t2 & H1 & H2 & Hone & Hspec).
  unfold unlockedPutLIDMapping. rewrite Hv. cbn [negb]. unfold exec, next_fault. rewrite Hf, H1. cbn [faults upd table].
  change (faults (s <| table := t1 |>)) with (faults s). rewrite Hf. change (table (s <| table := t1 |>)) with t1. rewrite H2.
  eexists. split; [done|].
  destruct (cachePut_fields (User (LID m)) (User (PN m)) (s <| table := t2 |>)) as (Ht & _ & Hfa).
  change (s <| table := t1 |> <| table := t2 |>) with (s <| table := t2 |>).
  split; [by apply cachePut_coherent|]. rewrite Ht, Hfa. by split.
Qed.

Lemma DoTxn_ok body s s' : faults s = [] -> body s = (None, s') -> faults s' = [] -> DoTxn body s = (None, s').
Proof. intros Hf Hb Hf'. unfold DoTxn, next_fault. by rewrite Hf, Hb, Hf'. Qed.

Lemma cached_link s lid pn : coherent s -> lid <> "" -> pnToLIDCache s !! pn = Some lid -> (lid, pn) ∈ table s.
Proof. intros Hc Hl Hk. by apply (co_cached _ Hc byPN pn lid Hk Hl). Qed.

Lemma put_spec_same lid pn t : one_to_one t -> (lid, pn) ∈ t -> put_spec lid pn t t.
Proof.
  intros Hone Hin r. split; [|by intros [->|(? & _)]]. intros Hr.
  destruct (decide (r = (lid, pn))) as [->|Hne]; [by left|right]. split; [done|].
  split; intros He; apply Hne; [by apply (row_unique _ Hone byLID)|by apply (row_unique _ Hone byPN)].
Qed.

Lemma PutLIDMapping_ok m s :
  coherent s -> faults s = [] -> valid_servers (LID m) (PN m) = true -> named m ->
  exists s', PutLIDMapping (LID m) (PN m) s = (None, s') /\ coherent s' /\ faults s' = [] /\
    put_spec (names m).1 (names m).2 (table s) (table s').
Proof.
  intros Hc Hf Hv Hn. unfold PutLIDMapping. rewrite Hv. cbn [negb]. unfold is_cached. case_bool_decide as Hk.
  - exists s. repeat (split; [done|]). apply put_spec_same; [apply Hc|]. apply cached_link; [done|apply Hn|done].
  - destruct (unlockedPut_ok m s Hc Hf Hv Hn) as (s' & Hs & Hc' & Hf' & Hp).
    exists s'. split; [by apply DoTxn_ok|]. by split.
Qed.

(** Mappings that share no name unless they are the same. *)
Definition conflict_free (ms : list LIDMapping) : Prop :=
  forall m m', m ∈ ms -> m' ∈ ms ->
    (names m).1 = (names m').1 \/ (names m).2 = (names m').2 -> names m = names m'.

Definition puts_spec (ms : list LIDMapping) (t t' : list Row) : Prop :=
  forall r, r ∈ t' <->
    (exists m, m ∈ ms /\ r = names m) \/
    (r ∈ t /\ forall m, m ∈ ms -> r.1 <> (names m).1 /\ r.2 <> (names m).2).

Lemma putMappings_ok ms : forall s,
  coherent s -> faults s = [] -> conflict_free ms ->
  (forall m, m ∈ ms -> valid_servers (LID m) (PN m) = true /\ named m) ->
  exists s', putMappings ms s = (None, s') /\ coherent s' /\ faults s' = [] /\ puts_spec ms (table s) (table s').
Proof.
  induction ms as [|m ms IH]; intros s Hc Hf Hcf Hv.
  { exists s. repeat (split; [done|]). intros r. split; [intros Hr; right; split; [done|set_solver]|].
    intros [(m & Hm & _)|[Hr _]]; [set_solver|done]. }
  destruct (Hv m (list_elem_of_here _ _)) as [Hvm Hnm].
  destruct (unlockedPut_ok m s Hc Hf Hvm Hnm) as (s1 & H1 & Hc1 & Hf1 & Hp1).
  destruct (IH s1 Hc1 Hf1) as (s' & H' & Hc' & Hf' & Hp').
  { intros x y Hx Hy. apply Hcf; by right. }
  { intros x Hx. apply Hv. by right. }
  exists s'. cbn [putMappings]. rewrite H1. split; [done|]. split; [done|]. split; [done|].
  intros r. rewrite (Hp' r), (Hp1 r). split.
  - intros [(x & Hx & ->)|[[->|(Hr & Ha & Hb)] Hno]].
    + left. exists x. split; [by right|done].
    + left. exists m. split; [by left|]. by destruct (names m).
    + right. split; [done|]. intros x [->|Hx]%elem_of_cons; [done|by apply Hno].
  - intros [(x & [->|Hx]%elem_of_cons & ->)|[Hr Hno]].
    + destruct (decide (names m ∈ names <$> ms)) as [(y & He & Hy)%list_elem_of_fmap|Hn]; [left; by exists y|].
      right. split; [left; by destruct (names m)|]. intros y Hy.
      assert (names m <> names y) as Hne by (intros He; apply Hn; rewrite He; by apply list_elem_of_fmap_2).
      split; intros He; apply Hne, Hcf; [by left|by right|by left|by left|by right|by right].
    + left. by exists x.
    + right. split; [|intros y Hy; apply Hno; by right]. right. split; [done|].
      destruct (Hno m (list_elem_of_here _ _)). by split.
Qed.

Section Runs.
Context (dedup : list LIDMapping -> list LIDMapping).
(** It removes duplicates. *)
Hypothesis dedup_elements : forall ms m, m ∈ dedup ms <-> m ∈ ms.
Notation PutMany := (PutManyLIDMappings dedup).

Definition valid (ms : list LIDMapping) : list LIDMapping := filter (fun m => valid_servers (LID m) (PN m) = true) ms.

Lemma PutMany_ok ms s :
  coherent s -> faults s = [] -> conflict_free (valid ms) -> Forall named (valid ms) ->
  exists s', PutMany ms s = (None, s') /\ coherent s' /\ faults s' = [] /\ puts_spec (valid ms) (table s) (table s').
Proof.
  intros Hc Hf Hcf Hn. unfold PutManyLIDMappings.
  set (todo := filter (fun m => valid_servers (LID m) (PN m) = true /\ is_cached (LID m) (PN m) s = false) ms).
  assert (forall m, m ∈ dedup todo <-> m ∈ valid ms /\ is_cached (LID m) (PN m) s = false) as Hin.
  { intros m. rewrite dedup_elements. unfold todo, valid. rewrite !list_elem_of_filter. tauto. }
  assert (forall m, m ∈ valid ms -> valid_servers (LID m) (PN m) = true /\ named m) as Hvn.
  { intros m Hm. split; [by apply list_elem_of_filter in Hm as [? _]|]. by eapply Forall_forall in Hn. }
  assert (exists s', (match dedup todo with [] => (None, s) | ms => DoTxn (putMappings ms) s end) = (None, s') /\
    coherent s' /\ faults s' = [] /\ puts_spec (dedup todo) (table s) (table s')) as (s' & He & Hc' & Hf' & Hp).
  { destruct (putMappings_ok (dedup todo) s Hc Hf) as (s' & Hs & Hc' & Hf' & Hp).
    - intros x y [Hx _]%Hin [Hy _]%Hin. by apply Hcf.
    - intros x [Hx _]%Hin. by apply Hvn.
    - exists s'. split; [|by split]. destruct (dedup todo); [exact Hs|]. by apply DoTxn_ok. }
  exists s'. split; [done|]. split; [done|]. split; [done|].
  (* the mappings that are cached are in the table already *)
  assert (forall m, m ∈ valid ms -> m ∉ dedup todo -> names m ∈ table s) as Hold.
  { intros m Hm Hno. apply cached_link; [done|by apply Hvn|].
    destruct (is_cached (LID m) (PN m) s) eqn:E; [by apply bool_decide_eq_true in E|]. exfalso. by apply Hno, Hin. }
  intros r. rewrite (Hp r). split.
  - intros [(m & Hm & ->)|[Hr Hno]]; [left; exists m; split; [by apply Hin|done]|].
    destruct (decide (r ∈ names <$> valid ms)) as [(m & -> & Hm)%list_elem_of_fmap|Hne]; [left; by exists m|].
    right. split; [done|]. intros m Hm. destruct (decide (names m ∈ names <$> dedup todo)) as [(x & Hx & Hxd)%list_elem_of_fmap|Hmd].
    { rewrite Hx. by apply Hno. }
    assert (names m ∈ table s) as Hmt.
    { apply Hold; [done|]. intros H. by apply Hmd, list_elem_of_fmap_2. }
    split; intros Heq; apply Hne; [rewrite (row_unique _ (co_table _ Hc) byLID r (names m))|
      rewrite (row_unique _ (co_table _ Hc) byPN r (names m))]; try done; by apply list_elem_of_fmap_2.
  - intros [(m & Hm & ->)|[Hr Hno]].
    + destruct (decide (names m ∈ names <$> dedup todo)) as [(x & Hx & Hxd)%list_elem_of_fmap|Hmd]; [left; by exists x|].
      right. split; [apply Hold; [done|]; intros H; by apply Hmd, list_elem_of_fmap_2|].
      intros x Hx. assert (names m <> names x) as Hne by (intros Heq; apply Hmd; rewrite Heq; by apply list_elem_of_fmap_2).
      apply Hin in Hx as [Hx _]. split; intros Heq; apply Hne, Hcf; auto.
    + right. split; [done|]. intros x [Hx _]%Hin. by apply Hno.
Qed.

(** *** Looking up many *)

Definition many_ok (t : list Row) (pns : list JID) (m : gmap JID JID) : Prop :=
  (forall pn j, m !! pn = Some j ->
     pn ∈ pns /\ Server pn = DefaultUserServer /\ links t (User j) (User pn) /\
     Server j = HiddenUserServer /\ (Device j = Device pn \/ Device j = 0)) /\
  (forall pn lid, pn ∈ pns -> Server pn = DefaultUserServer -> links t lid (User pn) -> is_Some (m !! pn)).

Lemma cachedLIDs_spec s pns : forall m l,
  coherent s ->
  let r := foldl (cachedLIDs s) (m, l) pns in
  (forall pn j, r.1 !! pn = Some j -> m !! pn = Some j \/
     (pn ∈ pns /\ Server pn = DefaultUserServer /\ links (table s) (User j) (User pn) /\
      Server j = HiddenUserServer /\ Device j = Device pn)) /\
  (forall pn, pn ∈ r.2 -> pn ∈ l \/ (pn ∈ pns /\ Server pn = DefaultUserServer)) /\
  (forall pn, is_Some (m !! pn) -> is_Some (r.1 !! pn)) /\ (forall pn, pn ∈ l -> pn ∈ r.2) /\
  (forall pn, pn ∈ pns -> Server pn = DefaultUserServer ->
     is_Some (r.1 !! pn) \/ pn ∈ r.2 \/ forall row, row ∈ table s -> row.2 <> User pn).
Proof.
  induction pns as [|pn pns IH]; intros m l Hc.
  { cbn. repeat split; auto; set_solver. }
  cbn [foldl]. set (acc := cachedLIDs s (m, l) pn).
  assert ((forall k j, acc.1 !! k = Some j -> m !! k = Some j \/
      (k = pn /\ Server pn = DefaultUserServer /\ links (table s) (User j) (User pn) /\
       Server j = HiddenUserServer /\ Device j = Device pn)) /\
    (forall k, k ∈ acc.2 -> k ∈ l \/ (k = pn /\ Server pn = DefaultUserServer)) /\
    (forall k, is_Some (m !! k) -> is_Some (acc.1 !! k)) /\ (forall k, k ∈ l -> k ∈ acc.2) /\
    (Server pn = DefaultUserServer ->
       is_Some (acc.1 !! pn) \/ pn ∈ acc.2 \/ forall row, row ∈ table s -> row.2 <> User pn)) as (A1 & A2 & A3 & A4 & A5).
  { unfold acc, cachedLIDs. case_bool_decide as Hs; cbn [negb]; [|by repeat split; auto].
    case_bool_decide as Hu; cbn [negb].
    - destruct (cacheFilled s) eqn:Ef; cbn [negb fst snd].
      + repeat split; auto. intros _. right. right.
        destruct (cached_partner byPN s (User pn) Hc (or_intror Ef)) as [[Hne _]|[_ Hno]]; [done|exact Hno].
      + split; [auto|]. split; [intros k [|Hk]%elem_of_app; [by left|]; apply list_elem_of_singleton in Hk; auto|].
        split; [done|]. split; [intros k Hk; apply elem_of_app; by left|]. intros _. right. left. apply elem_of_app. right. by left.
    - assert (is_Some (cache byPN s !! User pn)) as Hsome by (destruct (cache byPN s !! User pn); [by eexists|done]).
      destruct (cached_partner byPN s (User pn) Hc (or_introl Hsome)) as [[_ Hin]|[? _]]; [|done].
      cbn [fst snd]. split; [|split; [by left|split; [|split; [done|]]]].
      + intros k j. destruct (decide (k = pn)) as [->|Hne].
        * rewrite lookup_insert_eq. intros [= <-]. right. by repeat split.
        * rewrite lookup_insert_ne by done. by left.
      + intros k Hk. destruct (decide (k = pn)) as [->|Hne]; [by rewrite lookup_insert_eq; eexists|by rewrite lookup_insert_ne].
      + intros _. left. rewrite lookup_insert_eq. by eexists. }
  destruct (IH acc.1 acc.2 Hc) as (B1 & B2 & B3 & B4 & B5). rewrite <- surjective_pairing in *.
  split; [|split; [|split; [|split]]].
  - intros k j [Hk|(Hk & H)]%B1; [|right; split; [by right|done]].
    destruct (A1 k j Hk) as [|(-> & H)]; [by left|right; split; [by left|done]].
  - intros k [Hk|(Hk & H)]%B2; [|right; split; [by right|done]].
    destruct (A2 k Hk) as [|(-> & H)]; [by left|right; split; [by left|done]].
  - auto.
  - auto.
  - intros k [->|Hk]%elem_of_cons Hs; [|by apply B5]. destruct (A5 Hs) as [|[|]]; auto.
Qed.

Lemma rowLIDs_spec missing r : forall m k,
  rowLIDs missing m r !! k =
  if decide (k ∈ missing /\ User k = r.2)
  then Some (ToNonAD (k <| User := r.1 |> <| Server := HiddenUserServer |>)) else m !! k.
Proof.
  unfold rowLIDs. induction missing as [|d missing IH]; intros m k; cbn [foldl].
  { rewrite decide_False; [done|]. intros [H _]. set_solver. }
  rewrite IH. destruct (decide (k ∈ missing /\ User k = r.2)) as [[Hk Hu]|Hn].
  { rewrite decide_True; [done|]. split; [by right|done]. }
  destruct (decide (k = d)) as [->|Hne].
  - destruct (decide (User d = r.2)) as [Hu|Hu].
    + rewrite (decide_True (P := d ∈ d :: missing /\ _)) by (split; [by left|done]). by rewrite lookup_insert_eq.
    + by rewrite decide_False by tauto.
  - rewrite (decide_False (P := k ∈ d :: missing /\ _)) by (intros [[|]%elem_of_cons ?]; tauto).
    destruct (decide (User d = r.2)); [by rewrite lookup_insert_ne|done].
Qed.

Lemma rows_spec missing rows : forall m k,
  (forall j, foldl (rowLIDs missing) m rows !! k = Some j -> m !! k = Some j \/
     (k ∈ missing /\ links rows (User j) (User k) /\ Server j = HiddenUserServer /\ Device j = 0)) /\
  (is_Some (m !! k) \/ (k ∈ missing /\ exists r, r ∈ rows /\ r.2 = User k) ->
     is_Some (foldl (rowLIDs missing) m rows !! k)).
Proof.
  induction rows as [|r rows IH]; intros m k; cbn [foldl].
  { split; [by left|]. intros [|(_ & r & Hr & _)]; [done|set_solver]. }
  destruct (IH (rowLIDs missing m r) k) as [H1 H2]. rewrite rowLIDs_spec in *. split.
  - intros j [Hj|(Hk & Hl & H)]%H1; [|right; split; [done|]; split; [by right|done]].
    destruct (decide _) as [[Hk Hu]|]; [|by left]. injection Hj as <-. right. split; [done|].
    split; [|done]. unfold links. cbn. rewrite Hu. destruct r. by left.
  - intros Hk. apply H2. destruct (decide _) as [|Hn]; [left; by eexists|].
    destruct Hk as [|(Hk & x & [->|Hx]%elem_of_cons & Hu)]; [by left|exfalso; apply Hn; by split|right]. split; [done|]. by exists x.
Qed.

Lemma GetMany_ok pns s :
  coherent s -> faults s = [] ->
  exists m s', GetManyLIDsForPNs pns s = (None, m, s') /\ coherent s' /\ same_store s s' /\ many_ok (table s) pns m.
Proof.
  intros Hc Hf. unfold GetManyLIDsForPNs. destruct pns as [|pn0 pns0] eqn:Epns.
  { exists ∅, s. split; [done|]. split; [done|]. split; [done|]. split; [intros pn j; by rewrite lookup_empty|]. intros pn lid Hpn. by apply not_elem_of_nil in Hpn. }
  rewrite <- Epns. destruct (cachedLIDs_spec s pns ∅ [] Hc) as (H1 & H2 & _ & _ & H5).
  destruct (foldl (cachedLIDs s) (∅, []) pns) as [m l] eqn:E. cbn [fst snd] in *.
  assert (forall k j, m !! k = Some j -> k ∈ pns /\ Server k = DefaultUserServer /\ links (table s) (User j) (User k) /\
    Server j = HiddenUserServer /\ Device j = Device k) as H1'.
  { intros k j Hk. destruct (H1 k j Hk) as [He|]; [by rewrite lookup_empty in He|done]. }
  assert (forall (t : list Row) lid k, links (table s) lid (User k) -> ~ forall row, row ∈ table s -> row.2 <> User k) as Hlink.
  { intros _ lid k Hl Hno. by apply (Hno _ Hl). }
  destruct l as [|d l0] eqn:El.
  - exists m, s. repeat (split; [done|]). split.
    + intros k j Hk. destruct (H1' k j Hk) as (? & ? & ? & ? & ?). by repeat split; auto.
    + intros k lid Hk Hs Hl. destruct (H5 k Hk Hs) as [|[|Hno]]; [done|set_solver|]. exfalso. by apply (Hlink [] lid k).
  - rewrite <- El in *. rewrite query_ok by done. cbn match.
    set (rows := filter (fun r => r.2 ∈ map User l) (table s)).
    destruct (scan_coherent rows s Hc) as (Hc' & Hs' & _); [by intros r [_ ?]%list_elem_of_filter|].
    exists (foldl (rowLIDs l) m rows), (scanManyLids rows s). split; [done|]. split; [done|]. split; [done|]. split.
    + intros k j Hk. destruct (rows_spec l rows m k) as [Hr _]. destruct (Hr j Hk) as [Hm|(Hin & Hl & Hsv & Hd)].
      * destruct (H1' k j Hm) as (? & ? & ? & ? & ?). by repeat split; auto.
      * destruct (H2 k Hin) as [|[Hp Hsk]]; [set_solver|]. repeat split; auto.
        by apply list_elem_of_filter in Hl as [_ ?].
    + intros k lid Hk Hs Hl. destruct (rows_spec l rows m k) as [_ Hr]. apply Hr.
      destruct (H5 k Hk Hs) as [|[Hin|Hno]]; [by left|right|exfalso; by apply (Hlink [] lid k)].
      split; [done|]. exists (lid, User k). split; [|done]. apply list_elem_of_filter. split; [|done].
      cbn. by apply list_elem_of_fmap_2.
Qed.

(** ** The specification: a table, and what may be answered

    The cache is not seen from outside. *)
Inductive lid_op : Type :=
| OpFill
| OpLID (pn : JID)
| OpPN (lid : JID)
| OpMany (pns : list JID)
| OpPut (m : LIDMapping)
| OpPutMany (ms : list LIDMapping).

Inductive lid_answer : Type :=
| AError (e : option lid_error)
| AJID (e : option lid_error) (j : JID)
| AMany (e : option lid_error) (m : gmap JID JID).

Definition step (op : lid_op) (s : CachedLIDMap) : lid_answer * CachedLIDMap :=
  match op with
  | OpFill => let '(e, s) := FillCache s in (AError e, s)
  | OpLID pn => let '(e, j, s) := GetLIDForPN pn s in (AJID e j, s)
  | OpPN lid => let '(e, j, s) := GetPNForLID lid s in (AJID e j, s)
  | OpMany pns => let '(e, m, s) := GetManyLIDsForPNs pns s in (AMany e m, s)
  | OpPut m => let '(e, s) := PutLIDMapping (LID m) (PN m) s in (AError e, s)
  | OpPutMany ms => let '(e, s) := PutMany ms s in (AError e, s)
  end.

Fixpoint run (ops : list lid_op) (s : CachedLIDMap) : list lid_answer * CachedLIDMap :=
  match ops with
  | [] => ([], s)
  | op :: ops => let '(a, s) := step op s in let '(l, s) := run ops s in (a :: l, s)
  end.

(** The partner of a name in the table, as a JID. *)
Definition answer_jid (source : JID) (server : string) (d : side) (t : list Row) (j : JID) : Prop :=
  exists u, partner_ok d t (User source) u /\
    j = if decide (u = "") then EmptyJID else mkJID u 0 (Device source) 0 server.

Definition spec_step (op : lid_op) (t : list Row) (a : lid_answer) (t' : list Row) : Prop :=
  match op, a with
  | OpFill, AError e => e = None /\ t' = t
  | OpLID pn, AJID e j =>
      t' = t /\ if decide (Server pn = DefaultUserServer) then e = None /\ answer_jid pn HiddenUserServer byPN t j
                else e = Some ErrInvalidCall /\ j = EmptyJID
  | OpPN lid, AJID e j =>
      t' = t /\ if decide (Server lid = HiddenUserServer) then e = None /\ answer_jid lid DefaultUserServer byLID t j
                else e = Some ErrInvalidCall /\ j = EmptyJID
  | OpMany pns, AMany e m => t' = t /\ e = None /\ many_ok t pns m
  | OpPut m, AError e =>
      if valid_servers (LID m) (PN m) then e = None /\ put_spec (names m).1 (names m).2 t t'
      else e = Some ErrInvalidCall /\ t' = t
  | OpPutMany ms, AError e => e = None /\ puts_spec (valid ms) t t'
  | _, _ => False
  end.

Inductive spec_run : list lid_op -> list Row -> list lid_answer -> list Row -> Prop :=
| spec_nil t : spec_run [] t [] t
| spec_cons op ops t a t1 l t2 : spec_step op t a t1 -> spec_run ops t1 l t2 -> spec_run (op :: ops) t (a :: l) t2.

(** What the callers give: names that are not empty, and no two mappings of a
    call that contradict each other. *)
Definition op_ok (op : lid_op) : Prop :=
  match op with
  | OpPut m => named m
  | OpPutMany ms => conflict_free (valid ms) /\ Forall named (valid ms)
  | _ => True
  end.

Lemma step_refines op s :
  coherent s -> faults s = [] -> op_ok op ->
  exists a s', step op s = (a, s') /\ coherent s' /\ faults s' = [] /\ spec_step op (table s) a (table s').
Proof.
  intros Hc Hf Hok. destruct op as [|pn|lid|pns|m|ms]; cbn [step op_ok spec_step] in *.
  - unfold FillCache. rewrite query_ok by done. cbn match.
    destruct (scan_coherent (filter (fun _ => True) (table s)) s Hc) as (H1 & (Ht & _ & Hfa) & H3).
    { by intros r [_ ?]%list_elem_of_filter. }
    set (s1 := scanManyLids _ s) in *. eexists _, _. split; [reflexivity|]. cbn [negb faults table upd].
    split; [|by rewrite Hfa, Ht]. destruct H1 as [Ho Ha Hca Hfi]. constructor; try done.
    intros _ d r Hr. change (table (s1 <| cacheFilled := true |>)) with (table s1) in Hr.
    assert (cache d (s1 <| cacheFilled := true |>) = cache d s1) as -> by (by destruct d).
    apply cached_row; [by constructor|done|]. apply H3. left. apply list_elem_of_filter. split; [done|by rewrite <- Ht].
  - unfold GetLIDForPN. destruct (decide (Server pn = DefaultUserServer)).
    + destruct (getLIDMapping_ok pn HiddenUserServer byPN s Hc Hf) as (u & s' & -> & Hc' & (Ht & _ & Hfa) & Hp).
      eexists _, _. split; [reflexivity|]. rewrite Ht, Hfa. repeat (split; [done|]). by exists u.
    + by exists (AJID (Some ErrInvalidCall) EmptyJID), s.
  - unfold GetPNForLID. destruct (decide (Server lid = HiddenUserServer)).
    + destruct (getLIDMapping_ok lid DefaultUserServer byLID s Hc Hf) as (u & s' & -> & Hc' & (Ht & _ & Hfa) & Hp).
      eexists _, _. split; [reflexivity|]. rewrite Ht, Hfa. repeat (split; [done|]). by exists u.
    + by exists (AJID (Some ErrInvalidCall) EmptyJID), s.
  - destruct (GetMany_ok pns s Hc Hf) as (m & s' & -> & Hc' & (Ht & _ & Hfa) & Hm).
    eexists _, _. split; [reflexivity|]. by rewrite Ht, Hfa.
  - destruct (valid_servers (LID m) (PN m)) eqn:Hv.
    + destruct (PutLIDMapping_ok m s Hc Hf Hv Hok) as (s' & -> & Hc' & Hf' & Hp).
      eexists _, _. by split; [reflexivity|].
    + unfold PutLIDMapping. rewrite Hv. by exists (AError (Some ErrInvalidCall)), s.
  - destruct (PutMany_ok ms s Hc Hf) as (s' & -> & Hc' & Hf' & Hp); [apply Hok..|].
    eexists _, _. by split; [reflexivity|].
Qed.

(** C10. The cache follows the table: for every sequence of lookups and puts in
    which the names that are put are not empty and no two valid mappings of one
    [PutManyLIDMappings] contradict each other ([put_many_drops_last] shows what
    happens when they do), whatever is cached when and as long as the database does
    not fail.  A lookup of one JID answers exactly with what the table holds; a
    lookup of many finds the numbers that the table links, each with the user it is
    linked to, while the device of the answer is that of the number or 0, which
    depends on what is cached ([many_device_depends_on_cache]).  A put links its two
    names and unlinks all that they were linked to before. *)
Theorem lid_map_refines ops : forall s,
  coherent s -> faults s = [] -> Forall op_ok ops ->
  exists answers s', run ops s = (answers, s') /\ coherent s' /\ spec_run ops (table s) answers (table s').
Proof.
  induction ops as [|op ops IH]; intros s Hc Hf Hok; [exists [], s; split; [done|split; [done|constructor]]|].
  inversion Hok as [|? ? Hop Hops]; subst.
  destruct (step_refines op s Hc Hf Hop) as (a & s1 & H1 & Hc1 & Hf1 & Hs1).
  destruct (IH s1 Hc1 Hf1 Hops) as (l & s2 & H2 & Hc2 & Hs2).
  exists (a :: l), s2. cbn [run]. rewrite H1, H2. split; [done|]. split; [done|]. by econstructor.
Qed.
End Runs.

Lemma NewCachedLIDMap_coherent t fs : one_to_one t -> coherent (NewCachedLIDMap t fs).
Proof.
  intros Ho. assert (forall d k, cache d (NewCachedLIDMap t fs) !! k = None) as He by (intros [] k; apply lookup_empty).
  constructor; [done|intros d k; by rewrite He|intros d k v; by rewrite He|done].
Qed.

(** The cache is written before the commit: when the commit of a put fails, the
    table is as before, but the new link is cached; from then on every put of
    the same link succeeds without storing it, and the lookups answer with it. *)
Theorem failed_commit_poisons_cache m s fs :
  coherent s -> faults s = None :: None :: None :: Some 0%nat :: fs ->
  valid_servers (LID m) (PN m) = true -> named m -> names m ∉ table s ->
  exists s', PutLIDMapping (LID m) (PN m) s = (Some ErrDB, s') /\ table s' = table s /\
    PutLIDMapping (LID m) (PN m) s' = (None, s') /\
    GetLIDForPN (PN m) s' = (None, mkJID (User (LID m)) 0 (Device (PN m)) 0 HiddenUserServer, s').
Proof.
  intros Hc Hf Hv [Hl Hp] Hno.
  destruct (put_statements _ _ _ (co_table _ Hc) Hl Hp) as (t1 & t2 & H1 & H2 & _).
  set (x := s <| faults := None :: None :: Some 0%nat :: fs |> <| faults := None :: Some 0%nat :: fs |> <| table := t1 |>
    <| faults := Some 0%nat :: fs |> <| table := t2 |>).
  set (s' := (cachePut (User (LID m)) (User (PN m)) x) <| faults := fs |> <| table := table s |>).
  assert (is_cached (LID m) (PN m) s = false) as Hnc.
  { apply bool_decide_eq_false. intros Hk. by apply Hno, cached_link. }
  assert (pnToLIDCache s' !! User (PN m) = Some (User (LID m))) as Hk.
  { unfold s'. cbn. rewrite cachePut_pn. cbn zeta.
    destruct (decide _) as [(Ha & Hb & Hd)|]; [rewrite lookup_delete_ne by done|]; by rewrite lookup_insert_eq. }
  exists s'. split; [|split; [done|split]].
  - unfold PutLIDMapping. rewrite Hv, Hnc. cbn [negb]. unfold DoTxn, next_fault at 1. rewrite Hf.
    unfold unlockedPutLIDMapping. rewrite Hv. cbn [negb]. unfold exec, next_fault at 1 2. cbn [faults upd table]. rewrite H1.
    cbn [faults upd table]. rewrite H2.
    match goal with |- context [cachePut _ _ ?y] => change y with x end.
    unfold next_fault. destruct (cachePut_fields (User (LID m)) (User (PN m)) x) as (_ & _ & ->). done.
  - unfold PutLIDMapping. rewrite Hv. cbn [negb]. unfold is_cached. by rewrite bool_decide_true.
  - unfold GetLIDForPN. rewrite decide_True by (apply andb_true_iff in Hv as [_ Hv]; by apply bool_decide_eq_true in Hv).
    unfold getLIDMapping. cbn [cache]. rewrite Hk. cbn. by rewrite decide_False.
Qed.

(** ** Runs *)

Definition demo_pn (u : string) (d : Z) : JID := mkJID u 0 d 0 DefaultUserServer.
Definition demo_lid (u : string) (d : Z) : JID := mkJID u 0 d 0 HiddenUserServer.
Definition demo_ops : list lid_op :=
  [OpLID (demo_pn "49151" 2); OpPut (mkMapping (demo_lid "77" 0) (demo_pn "49151" 0)); OpLID (demo_pn "49151" 2);
   OpPutMany [mkMapping (demo_lid "77" 0) (demo_pn "49152" 0); mkMapping (demo_lid "78" 0) (demo_pn "49151" 0)];
   OpMany [demo_pn "49151" 1; demo_pn "49152" 0]; OpFill; OpPN (demo_lid "77" 3)].

Lemma demo_one_to_one : one_to_one [("70", "49150")].
Proof.
  constructor.
  - intros d r r' Hr Hr' _. apply list_elem_of_singleton in Hr as ->, Hr' as ->. done.
  - intros d r Hr. apply list_elem_of_singleton in Hr as ->. by destruct d.
Qed.

Lemma lid_map_refines_witness :
  exists answers s', run (fun l => l) demo_ops (NewCachedLIDMap [("70", "49150")] []) = (answers, s') /\
    table s' = [("70", "49150"); ("77", "49152"); ("78", "49151")] /\
    spec_run demo_ops [("70", "49150")] answers (table s').
Proof.
  destruct (lid_map_refines (fun l => l) (fun _ _ => iff_refl _) demo_ops (NewCachedLIDMap [("70", "49150")] []))
    as (answers & s' & H & _ & Hs).
  - apply NewCachedLIDMap_coherent, demo_one_to_one.
  - reflexivity.
  - constructor; [exact I|]. constructor; [by split|]. constructor; [exact I|].
    constructor; [|constructor; [exact I|]; constructor; [exact I|]; constructor; [exact I|constructor]]. split.
    + intros m m' Hm Hm'. change (m ∈ [mkMapping (demo_lid "77" 0) (demo_pn "49152" 0); mkMapping (demo_lid "78" 0) (demo_pn "49151" 0)]) in Hm.
      change (m' ∈ [mkMapping (demo_lid "77" 0) (demo_pn "49152" 0); mkMapping (demo_lid "78" 0) (demo_pn "49151" 0)]) in Hm'.
      apply elem_of_cons in Hm as [->|Hm%list_elem_of_singleton]; apply elem_of_cons in Hm' as [->|Hm'%list_elem_of_singleton];
        subst; vm_compute; intros [?|?]; congruence.
    + vm_compute. repeat constructor; discriminate.
  - exists answers, s'. split; [exact H|]. split; [|exact Hs].
    vm_compute in H. injection H as _ <-. reflexivity.
Defined.

Lemma failed_commit_poisons_cache_witness :
  let m := mkMapping (demo_lid "77" 0) (demo_pn "49151" 0) in
  exists s', PutLIDMapping (LID m) (PN m) (NewCachedLIDMap [("70", "49150")] [None; None; None; Some 0%nat]) = (Some ErrDB, s') /\
    table s' = [("70", "49150")] /\ PutLIDMapping (LID m) (PN m) s' = (None, s') /\
    GetLIDForPN (PN m) s' = (None, demo_lid "77" 0, s').
Proof.
  intros m. apply (failed_commit_poisons_cache m (NewCachedLIDMap [("70", "49150")] [None; None; None; Some 0%nat]) []).
  - apply NewCachedLIDMap_coherent, demo_one_to_one.
  - reflexivity.
  - reflexivity.
  - by split.
  - apply (bool_decide_unpack _). vm_compute. exact I.
Defined.

(** The device of an answer depends on the cache: it is dropped when the LID is
    read from the database and kept when it was cached. *)
Theorem many_device_depends_on_cache :
  let pn := demo_pn "49150" 5 in
  let '(_, m1, s1) := GetManyLIDsForPNs [pn] (NewCachedLIDMap [("70", "49150")] []) in
  let '(_, m2, _) := GetManyLIDsForPNs [pn] s1 in
  m1 !! pn = Some (demo_lid "70" 0) /\ m2 !! pn = Some (demo_lid "70" 5).
Proof. split; vm_compute; reflexivity. Qed.

(** The entries that are already cached are dropped before the others are
    stored: of two contradicting mappings in one call the first wins when the
    second is the link of before, and the last wins otherwise. *)
Theorem put_many_drops_last :
  let s := (PutLIDMapping (demo_lid "77" 0) (demo_pn "49151" 0) (NewCachedLIDMap [] [])).2 in
  table (PutManyLIDMappings (fun l => l)
    [mkMapping (demo_lid "77" 0) (demo_pn "49152" 0); mkMapping (demo_lid "77" 0) (demo_pn "49151" 0)] s).2 = [("77", "49152")] /\
  table (PutManyLIDMappings (fun l => l)
    [mkMapping (demo_lid "77" 0) (demo_pn "49152" 0); mkMapping (demo_lid "77" 0) (demo_pn "49153" 0)] s).2 = [("77", "49153")].
Proof. split; vm_compute; reflexivity. Qed.
