(* ===== verification/NodeAttrs.v ===== *)
(** * [whatsmeow/binary/attrs.go] and the query errors of [whatsmeow/errors.go]

    [AttrUtility] reads the attributes of a node and collects the errors, to be
    checked once after all reads. *)
From S2P Require Import Prelude GoStrings GoTime Jid BinaryNode.

(** [n.Attrs[key]] *)
Fixpoint attr (attrs : list (string * value)) (key : string) : option value :=
  match attrs with
  | [] => None
  | (k, v) :: attrs => if decide (k = key) then Some v else attr attrs key
  end.

(** [val.(string)] and [val.(types.JID)], with the zero value when it fails. *)
Definition as_string (v : option value) : string * bool :=
  match v with Some (VString s) => (s, true) | _ => ("", false) end.

Inductive attr_error : Type :=
| MissingAttr (key : string)
| NotJID (key : string)
| NotString (key : string)
| BadInt (key : string)
| BadUint (key : string)
| BadBool (key : string).

Record AttrUtility : Type := mkAU { au_Attrs : list (string * value); Errors : list attr_error }.
#[export] Instance eta_AttrUtility : Eta AttrUtility := fun r => mkAU (au_Attrs r) (Errors r).

Definition AttrGetter (n : node) : AttrUtility := mkAU (Attrs n) [].

(** [strconv.ParseUint(s, 10, 64)] and [strconv.ParseBool]; [strconv.ParseInt]
    is [Atoi]. *)
Definition ParseUint (s : string) : option Z :=
  match parse_unsigned s with Some z => if z <? 2 ^ 64 then Some z else None | None => None end.
Definition ParseBool (s : string) : option bool :=
  if decide (s ∈ ["1"; "t"; "T"; "true"; "TRUE"; "True"]) then Some true
  else if decide (s ∈ ["0"; "f"; "F"; "false"; "FALSE"; "False"]) then Some false
  else None.

Definition add_error (e : attr_error) (au : AttrUtility) : AttrUtility := au <| Errors := Errors au ++ [e] |>.

Definition GetJID (key : string) (require : bool) (au : AttrUtility) : JID * bool * AttrUtility :=
  match attr (au_Attrs au) key with
  | None => (EmptyJID, false, if require then add_error (MissingAttr key) au else au)
  | Some (VJID j) => (j, true, au)
  | Some _ => (EmptyJID, false, add_error (NotJID key) au)
  end.
Definition OptionalJID (key : string) (au : AttrUtility) : option JID * AttrUtility :=
  let '(jid, ok, au) := GetJID key false au in (if ok then Some jid else None, au).
Definition OptionalJIDOrEmpty (key : string) (au : AttrUtility) : JID * AttrUtility :=
  let '(jid, ok, au) := GetJID key false au in (if ok then jid else EmptyJID, au).
Definition getJID (key : string) (au : AttrUtility) : JID * AttrUtility :=
  let '(jid, _, au) := GetJID key true au in (jid, au).

Definition GetString (key : string) (require : bool) (au : AttrUtility) : string * bool * AttrUtility :=
  match attr (au_Attrs au) key with
  | None => ("", false, if require then add_error (MissingAttr key) au else au)
  | Some (VString s) => (s, true, au)
  | Some _ => ("", false, add_error (NotString key) au)
  end.

(** A string attribute that is parsed. *)
Definition GetParsed {A} (parse : string -> option A) (bad : string -> attr_error) (zero : A) (key : string)
    (require : bool) (au : AttrUtility) : A * bool * AttrUtility :=
  match GetString key require au with
  | (strVal, true, au) =>
      match parse strVal with
      | Some val => (val, true, au)
      | None => (zero, false, add_error (bad key) au)
      end
  | (_, false, au) => (zero, false, au)
  end.
Definition GetInt64 (key : string) (require : bool) (au : AttrUtility) : Z * bool * AttrUtility :=
  GetParsed Atoi BadInt 0 key require au.
Definition GetUint64 (key : string) (require : bool) (au : AttrUtility) : Z * bool * AttrUtility :=
  GetParsed ParseUint BadUint 0 key require au.
Definition GetBool (key : string) (require : bool) (au : AttrUtility) : bool * bool * AttrUtility :=
  GetParsed ParseBool BadBool false key require au.

(** The zero of the wire is the zero time. *)
Definition GetTime (of_int : Z -> Time) (key : string) (require : bool) (au : AttrUtility) : Time * bool * AttrUtility :=
  match GetInt64 key require au with
  | (_, false, au) => (zeroTime, false, au)
  | (intVal, true, au) => (if intVal =? 0 then zeroTime else of_int intVal, true, au)
  end.
Definition GetUnixTime (key : string) (require : bool) (au : AttrUtility) : Time * bool * AttrUtility :=
  GetTime Unix key require au.
Definition GetUnixMilli (key : string) (require : bool) (au : AttrUtility) : Time * bool * AttrUtility :=
  GetTime UnixMilli key require au.

Definition value_of {A} (r : A * bool * AttrUtility) : A * AttrUtility := (r.1.1, r.2).

Definition OptionalString (key : string) (au : AttrUtility) : string * AttrUtility := value_of (GetString key false au).
Definition getString (key : string) (au : AttrUtility) : string * AttrUtility := value_of (GetString key true au).
Definition OptionalInt (key : string) (au : AttrUtility) : Z * AttrUtility := value_of (GetInt64 key false au).
Definition Int (key : string) (au : AttrUtility) : Z * AttrUtility := value_of (GetInt64 key true au).
Definition Int64 (key : string) (au : AttrUtility) : Z * AttrUtility := value_of (GetInt64 key true au).
Definition Uint64 (key : string) (au : AttrUtility) : Z * AttrUtility := value_of (GetUint64 key true au).
Definition OptionalBool (key : string) (au : AttrUtility) : bool * AttrUtility := value_of (GetBool key false au).
Definition getBool (key : string) (au : AttrUtility) : bool * AttrUtility := value_of (GetBool key true au).
Definition OptionalUnixTime (key : string) (au : AttrUtility) : Time * AttrUtility := value_of (GetUnixTime key false au).
Definition UnixTime (key : string) (au : AttrUtility) : Time * AttrUtility := value_of (GetUnixTime key true au).
Definition OptionalUnixMilli (key : string) (au : AttrUtility) : Time * AttrUtility := value_of (GetUnixMilli key false au).
Definition getUnixMilli (key : string) (au : AttrUtility) : Time * AttrUtility := value_of (GetUnixMilli key true au).

Definition OK (au : AttrUtility) : bool := (length (Errors au) =? 0)%nat.
Definition Error_ (au : AttrUtility) : option (list attr_error) := if OK au then None else Some (Errors au).

(** ** Errors of queries *)

(** [IQError]; an element is compared by its text ([XMLString], a parameter). *)
Record IQError : Type := mkIQError {
  iqe_Code : Z;
  iqe_Text : string;
  ErrorNode : option node;
  RawNode : option node }.

Definition common (code : Z) (text : string) : IQError := mkIQError code text None None.
Definition ErrIQBadRequest : IQError := common 400 "bad-request".
Definition ErrIQNotAuthorized : IQError := common 401 "not-authorized".
Definition ErrIQForbidden : IQError := common 403 "forbidden".
Definition ErrIQNotFound : IQError := common 404 "item-not-found".
Definition ErrIQNotAllowed : IQError := common 405 "not-allowed".
Definition ErrIQNotAcceptable : IQError := common 406 "not-acceptable".
Definition ErrIQGone : IQError := common 410 "gone".
Definition ErrIQResourceLimit : IQError := common 419 "resource-limit".
Definition ErrIQLocked : IQError := common 423 "locked".
Definition ErrIQRateOverLimit : IQError := common 429 "rate-overlimit".
Definition ErrIQInternalServerError : IQError := common 500 "internal-server-error".
Definition ErrIQServiceUnavailable : IQError := common 503 "service-unavailable".
Definition ErrIQPartialServerError : IQError := common 530 "partial-server-error".

Definition parseIQError (n : node) : IQError :=
  match GetOptionalChildByTag n ["error"] with
  | (val, true) =>
      let '(code, ag) := OptionalInt "code" (AttrGetter val) in
      let '(text, _) := OptionalString "text" ag in
      mkIQError code text (Some val) (Some n)
  | (_, false) => mkIQError 0 "" None (Some n)
  end.

Section IQ.
Context (XMLString : node -> string).
Definition IQError_Error (iqe : IQError) : string :=
  if iqe_Code iqe =? 0 then
    match ErrorNode iqe with
    | Some n => "info query returned unknown error: " +:+ XMLString n
    | None =>
        match RawNode iqe with
        | Some n => "info query returned unexpected response: " +:+ XMLString n
        | None => "unknown info query error"
        end
    end
  else "info query returned status " +:+ fmt_d (iqe_Code iqe) +:+ ": " +:+ iqe_Text iqe.

Definition IQError_Is (iqe other : IQError) : bool :=
  if negb (iqe_Code iqe =? 0) && negb (iqe_Code other =? 0)
  then (iqe_Code other =? iqe_Code iqe) && String.eqb (iqe_Text other) (iqe_Text iqe)
  else
    match ErrorNode iqe, ErrorNode other with
    | Some a, Some b => String.eqb (XMLString a) (XMLString b)
    | _, _ => false
    end.
End IQ.

(** ** Reads whose result is known *)

Lemma GetString_found key require au s :
  attr (au_Attrs au) key = Some (VString s) -> GetString key require au = (s, true, au).
Proof. unfold GetString. by intros ->. Qed.
Lemma getString_found key au s : attr (au_Attrs au) key = Some (VString s) -> getString key au = (s, au).
Proof. intros H. unfold getString, value_of. by rewrite (GetString_found _ _ _ _ H). Qed.
Lemma OptionalString_found key au s : attr (au_Attrs au) key = Some (VString s) -> OptionalString key au = (s, au).
Proof. intros H. unfold OptionalString, value_of. by rewrite (GetString_found _ _ _ _ H). Qed.
Lemma OptionalString_missing key au : attr (au_Attrs au) key = None -> OptionalString key au = ("", au).
Proof. intros H. unfold OptionalString, value_of, GetString. by rewrite H. Qed.
Lemma UnixTime_found key au z :
  attr (au_Attrs au) key = Some (VString (fmt_d z)) -> 0 < z <= max_int64 -> UnixTime key au = (Unix z, au).
Proof.
  intros H Hz. unfold UnixTime, value_of, GetUnixTime, GetTime, GetInt64, GetParsed.
  rewrite (GetString_found _ _ _ _ H), Atoi_fmt_d by lia. by destruct (Z.eqb_spec z 0); [lia|].
Qed.
Lemma Int_found key au z : attr (au_Attrs au) key = Some (VString (fmt_d z)) -> 0 <= z <= max_int64 -> Int key au = (z, au).
Proof.
  intros H Hz. unfold Int, value_of, GetInt64, GetParsed. by rewrite (GetString_found _ _ _ _ H), Atoi_fmt_d.
Qed.
Lemma OptionalInt_missing key au : attr (au_Attrs au) key = None -> OptionalInt key au = (0, au).
Proof. intros H. unfold OptionalInt, value_of, GetInt64, GetParsed, GetString. by rewrite H. Qed.
Lemma getJID_found key au j : attr (au_Attrs au) key = Some (VJID j) -> getJID key au = (j, au).
Proof. intros H. unfold getJID, GetJID. by rewrite H. Qed.
Lemma OptionalJIDOrEmpty_found key au j : attr (au_Attrs au) key = Some (VJID j) -> OptionalJIDOrEmpty key au = (j, au).
Proof. intros H. unfold OptionalJIDOrEmpty, GetJID. by rewrite H. Qed.
Lemma OptionalJIDOrEmpty_missing key au : attr (au_Attrs au) key = None -> OptionalJIDOrEmpty key au = (EmptyJID, au).
Proof. intros H. unfold OptionalJIDOrEmpty, GetJID. by rewrite H. Qed.
Lemma OptionalJID_found key au j : attr (au_Attrs au) key = Some (VJID j) -> OptionalJID key au = (Some j, au).
Proof. intros H. unfold OptionalJID, GetJID. by rewrite H. Qed.
Lemma OptionalJID_missing key au : attr (au_Attrs au) key = None -> OptionalJID key au = (None, au).
Proof. intros H. unfold OptionalJID, GetJID. by rewrite H. Qed.

(** ** What the errors say *)

Inductive attr_kind : Type := KJID | KString | KInt | KUint | KBool | KUnixTime | KUnixMilli.

(** A read: what it expects, and whether it is required. *)
Record read : Type := mkRead { rd_kind : attr_kind; rd_key : string; rd_require : bool }.

Definition do_read (r : read) (au : AttrUtility) : AttrUtility :=
  let '(mkRead kind key require) := r in
  match kind with
  | KJID => (GetJID key require au).2
  | KString => (GetString key require au).2
  | KInt => (GetInt64 key require au).2
  | KUint => (GetUint64 key require au).2
  | KBool => (GetBool key require au).2
  | KUnixTime => (GetUnixTime key require au).2
  | KUnixMilli => (GetUnixMilli key require au).2
  end.

(** What can be read: an attribute of the expected form, or none when it is
    optional. *)
Definition readable (attrs : list (string * value)) (r : read) : Prop :=
  match attr attrs (rd_key r) with
  | None => rd_require r = false
  | Some v =>
      match rd_kind r with
      | KJID => exists j, v = VJID j
      | KString => exists s, v = VString s
      | KInt | KUnixTime | KUnixMilli => exists s z, v = VString s /\ Atoi s = Some z
      | KUint => exists s z, v = VString s /\ ParseUint s = Some z
      | KBool => exists s b, v = VString s /\ ParseBool s = Some b
      end
  end.

(** The error of a read that fails. *)
Definition failure (attrs : list (string * value)) (r : read) : option attr_error :=
  let key := rd_key r in
  let unparsed {A} (a : option A) (e : attr_error) := match a with Some _ => None | None => Some e end in
  match attr attrs key with
  | None => if rd_require r then Some (MissingAttr key) else None
  | Some v =>
      match rd_kind r, v with
      | KJID, VJID _ | KString, VString _ => None
      | KJID, _ => Some (NotJID key)
      | (KInt | KUnixTime | KUnixMilli), VString s => unparsed (Atoi s) (BadInt key)
      | KUint, VString s => unparsed (ParseUint s) (BadUint key)
      | KBool, VString s => unparsed (ParseBool s) (BadBool key)
      | _, _ => Some (NotString key)
      end
  end.
Lemma failure_readable attrs r : failure attrs r = None <-> readable attrs r.
Proof.
  unfold failure, readable. destruct r as [kind key require]. cbn. destruct (attr attrs key) as [v|]; [|by destruct require].
  destruct kind, v; try (split; [done|intros H; decompose [ex and] H; congruence]); try (split; [eauto|done]).
  all: match goal with |- context [match ?x with Some _ => _ | None => _ end] => destruct x eqn:E end.
  all: naive_solver congruence.
Qed.

Lemma GetTime_snd of_int key require au : (GetTime of_int key require au).2 = (GetInt64 key require au).2.
Proof. unfold GetTime. by destruct (GetInt64 key require au) as [[z []] au']. Qed.
(** A read adds its error to those that there are. *)
Lemma do_read_errors r au : do_read r au = au <| Errors := Errors au ++ option_list (failure (au_Attrs au) r) |>.
Proof.
  assert (au = au <| Errors := Errors au ++ [] |>) as Hau by (destruct au as [a l]; cbn; by rewrite app_nil_r).
  destruct r as [kind key require]. unfold do_read, failure, GetUnixTime, GetUnixMilli. rewrite ?GetTime_snd. cbn [rd_key rd_kind rd_require].
  destruct kind; unfold GetJID, GetInt64, GetUint64, GetBool, GetParsed, GetString;
    (destruct (attr (au_Attrs au) key) as [v|]; [destruct v|destruct require]); try exact Hau; try done;
    match goal with |- context [match ?x with Some _ => _ | None => _ end] => by destruct x end.
Qed.

(** C40. After any reads the errors are exactly those of the reads that failed, one
    for each, in their order: a required attribute that was missing, or one of the
    wrong type, or of the wrong form.  So [OK] holds, and the check after the
    reads gives no error, exactly when each attribute could be read. *)
Theorem attr_errors_exact n reads :
  let au := foldl (fun au r => do_read r au) (AttrGetter n) reads in
  Errors au = omap (failure (Attrs n)) reads /\
  (OK au = true <-> Forall (readable (Attrs n)) reads) /\
  Error_ au = if OK au then None else Some (omap (failure (Attrs n)) reads).
Proof.
  assert (forall reads au, foldl (fun au r => do_read r au) au reads = au <| Errors := Errors au ++ omap (failure (au_Attrs au)) reads |>) as Hgen.
  { clear. induction reads as [|r reads IH]; intros au; cbn [foldl omap list_omap]; [destruct au as [a l]; cbn; by rewrite app_nil_r|].
    rewrite IH, do_read_errors. cbn. destruct (failure (au_Attrs au) r); cbn; by rewrite <- app_assoc. }
  intros au. assert (Errors au = omap (failure (Attrs n)) reads) as He by (unfold au; by rewrite Hgen).
  split; [done|]. split; [|unfold Error_; by rewrite He].
  unfold OK. rewrite Nat.eqb_eq, He. clear. induction reads as [|r reads IH]; [done|]. cbn [omap list_omap].
  rewrite Forall_cons, <- failure_readable, <- IH. destruct (failure (Attrs n) r); cbn; [|tauto]. split; [lia|by intros []].
Qed.
