(* ===== verification/Requests.v ===== *)
(** * [whatsmeow/request.go]

    Requests over the socket and their waiters: a map from request ids to
    channels of capacity 1, under a lock.  The regions that hold the lock are
    atomic; [receiveResponse] sends to the channel after it has released the
    lock, so that other regions can come in between. *)
From S2P Require Import Prelude GoStrings GoTime Jid BinaryNode NodeAttrs.

(** [generateRequestID]: the counter is an [atomic.Uint64]. *)
Definition generateRequestID (uniqueID : string) (idCounter : Z) : string * Z :=
  let idCounter := (idCounter + 1) mod 2 ^ 64 in (uniqueID +:+ fmt_d idCounter, idCounter).

(** A received node, or [xmlStreamEndNode], which is compared by its address. *)
Inductive frame : Type := StreamEnd | Frame (n : node).
Definition frame_node (f : frame) : node := match f with StreamEnd => mkNode "xmlstreamend" [] VNil | Frame n => n end.

Definition isDisconnectNode (f : frame) : bool :=
  match f with StreamEnd => true | Frame n => String.eqb (Tag n) "stream:error" end.

Definition isAuthErrorDisconnect (f : frame) : bool :=
  let n := frame_node f in
  if negb (String.eqb (Tag n) "stream:error") then false
  else
    let '(code, _) := as_string (attr (Attrs n) "code") in
    let '(conflict, _) := GetOptionalChildByTag n ["conflict"] in
    let '(conflictType, _) := OptionalString "type" (AttrGetter conflict) in
    String.eqb code "401" || String.eqb conflictType "replaced" || String.eqb conflictType "device_removed".

(** ** The waiters *)

(** A channel of capacity 1. *)
Record Chan : Type := mkChan { buf : option frame; closed : bool }.
#[export] Instance eta_Chan : Eta Chan := fun r => mkChan (buf r) (closed r).

(** [responseWaiters], the channels that were made, and the calls of
    [receiveResponse] that have taken a waiter and not sent yet. *)
Record Waiters : Type := mkWaiters {
  responseWaiters : gmap string nat;
  chans : list Chan;
  sending : list (nat * frame) }.
#[export] Instance eta_Waiters : Eta Waiters := fun r => mkWaiters (responseWaiters r) (chans r) (sending r).

Definition waitResponse (reqID : string) (w : Waiters) : nat * Waiters :=
  let ch := length (chans w) in
  (ch, w <| chans := chans w ++ [mkChan None false] |> <| responseWaiters := <[reqID := ch]> (responseWaiters w) |>).

(** [close(ch)] *)
Definition close (ch : nat) (cs : list Chan) : outcome (list Chan) :=
  match cs !! ch with
  | Some c => if closed c then Panic "close of closed channel" else Ret (<[ch := c <| closed := true |>]> cs)
  | None => Panic "close of nil channel"
  end.

Definition cancelResponse (reqID : string) (ch : nat) (w : Waiters) : outcome Waiters :=
  cs ← close ch (chans w);
  Ret (w <| chans := cs |> <| responseWaiters := delete reqID (responseWaiters w) |>).

(** A send to a channel: done, refused because the buffer is full, or a panic. *)
Definition try_send (ch : nat) (f : frame) (cs : list Chan) : outcome (bool * list Chan) :=
  match cs !! ch with
  | Some c =>
      if closed c then Panic "send on closed channel"
      else match buf c with
           | None => Ret (true, <[ch := c <| buf := Some f |>]> cs)
           | Some _ => Ret (false, cs)
           end
  | None => Ret (false, cs)
  end.

(** The loop of [clearResponseWaiters], in the order of the map. *)
Fixpoint clear_loop (f : frame) (waiters : list nat) (cs : list Chan) : outcome (list Chan) :=
  match waiters with
  | [] => Ret cs
  | waiter :: waiters =>
      '(sent, cs) ← try_send waiter f cs;
      cs ← (if (sent : bool) then Ret cs else close waiter cs);
      clear_loop f waiters cs
  end.
Definition clearResponseWaiters (f : frame) (w : Waiters) : outcome Waiters :=
  cs ← clear_loop f (map_to_list (responseWaiters w)).*2 (chans w);
  Ret (w <| chans := cs |> <| responseWaiters := ∅ |>).

(** The id that a response answers. *)
Definition response_id (data : node) : option string :=
  match as_string (attr (Attrs data) "id") with
  | (id, true) => if String.eqb (Tag data) "iq" || String.eqb (Tag data) "ack" then Some id else None
  | _ => None
  end.

(** [receiveResponse] up to the release of the lock: the result is known. *)
Definition receiveResponse_take (data : node) (w : Waiters) : bool * Waiters :=
  match response_id data with
  | None => (false, w)
  | Some id =>
      match responseWaiters w !! id with
      | None => (false, w)
      | Some waiter =>
          (true, w <| responseWaiters := delete id (responseWaiters w) |> <| sending := sending w ++ [(waiter, Frame data)] |>)
      end
  end.

(** The rest of the call number [i]: the send, once it is possible, or the end
    of its context. *)
Definition receiveResponse_send (i : nat) (w : Waiters) : option (outcome Waiters) :=
  match sending w !! i with
  | None => None
  | Some (waiter, f) =>
      match try_send waiter f (chans w) with
      | Panic msg => Some (Panic msg)
      | Ret (true, cs) => Some (Ret (w <| chans := cs |> <| sending := delete i (sending w) |>))
      | Ret (false, _) => None
      end
  end.
Definition receiveResponse_done (i : nat) (w : Waiters) : Waiters := w <| sending := delete i (sending w) |>.

(** [<-ch] by the owner of the channel: [Some None] when it is closed. *)
Definition receive (ch : nat) (w : Waiters) : option (option frame * Waiters) :=
  match chans w !! ch with
  | Some c =>
      match buf c with
      | Some f => Some (Some f, w <| chans := <[ch := c <| buf := None |>]> (chans w) |>)
      | None => if closed c then Some (None, w) else None
      end
  | None => None
  end.

(** ** Queries *)

Inductive infoQueryType : Type := iqSet | iqGet.
Definition iq_type_string (t : infoQueryType) : string := match t with iqSet => "set" | iqGet => "get" end.

Record infoQuery : Type := mkQuery {
  Namespace : string;
  Type_ : infoQueryType;
  To : JID;
  Target : JID;
  ID : string;
  SMaxID : string;
  QContent : value;
  Timeout : Duration;
  NoRetry : bool }.
#[export] Instance eta_infoQuery : Eta infoQuery := fun r =>
  mkQuery (Namespace r) (Type_ r) (To r) (Target r) (ID r) (SMaxID r) (QContent r) (Timeout r) (NoRetry r).

Definition iqNode (query : infoQuery) : node :=
  mkNode "iq"
    ([("id", VString (ID query)); ("xmlns", VString (Namespace query)); ("type", VString (iq_type_string (Type_ query)))]
     ++ (if String.eqb (SMaxID query) "" then [] else [("smax_id", VString (SMaxID query))])
     ++ (if Jid.IsEmpty (To query) then [] else [("to", VJID (To query))])
     ++ (if Jid.IsEmpty (Target query) then [] else [("target", VJID (Target query))]))
    (QContent query).

Inductive iq_error : Type :=
| ErrSend (msg : string)
| Disconnected (action : string) (f : frame)
| ErrIQ (e : IQError)
| ErrIQTimedOut
| ErrCtx
| ErrNotConnected.

(** [sendNodeAndGetData] gives the encoded frame and an error; the waiter is
    cancelled on an error. *)
Definition sendIQAsyncAndGetData (uniqueID : string) (idCounter : Z) (send : node -> option string)
    (query : infoQuery) (w : Waiters) : outcome (infoQuery * option iq_error * nat * Z * Waiters) :=
  let '(id, idCounter) := if (len (ID query) =? 0) then generateRequestID uniqueID idCounter else (ID query, idCounter) in
  let query := query <| ID := id |> in
  let '(waiter, w) := waitResponse id w in
  match send (iqNode query) with
  | Some err => w ← cancelResponse id waiter w; Ret (query, Some (ErrSend err), waiter, idCounter, w)
  | None => Ret (query, None, waiter, idCounter, w)
  end.

Definition defaultRequestTimeout : Duration := 75 * Second.

Definition queryTimeout (query : infoQuery) : Duration :=
  if Timeout query =? 0 then defaultRequestTimeout else Timeout query.

(** What ends the wait of a request; the time limit is [queryTimeout]. *)
Inductive wait_end : Type :=
| Got (f : frame)
| CtxDone
| TimedOut.

(** Before its channel is written to, a waiter is taken from the map: by
    [receiveResponse], or with all the others by [clearResponseWaiters]. *)
Definition was_taken (id : string) (f : frame) (w : Waiters) : Waiters :=
  w <| responseWaiters := if isDisconnectNode f then ∅ else delete id (responseWaiters w) |>.

(** [retryFrame]: whether the connection came back within five seconds, the socket
    (with the error of its [SendFrame]), and what ended the second wait; with a
    timeout of zero there is no time limit.  [data] is the frame; the result has
    the frames that were written again. *)
Definition retryFrame {D} (reqType id : string) (data : D) (origResp : frame) (reconnected : bool)
    (sock : option (option string)) (second : wait_end) (w : Waiters) : outcome ((frame + iq_error) * list D * Waiters) :=
  if isAuthErrorDisconnect origResp then Ret (inr (Disconnected reqType origResp), [], w)
  else if negb reconnected then Ret (inr (Disconnected reqType origResp), [], w)
  else
    match sock with
    | None => Ret (inr ErrNotConnected, [], w)
    | Some err =>
        let '(respChan, w) := waitResponse id w in
        match err with
        | Some err => w ← cancelResponse id respChan w; Ret (inr (ErrSend err), [], w)
        | None =>
            match second with
            | Got resp =>
                let w := was_taken id resp w in
                Ret (if isDisconnectNode resp then inr (Disconnected (reqType +:+ " (retry)") resp) else inl resp, [data], w)
            | CtxDone => Ret (inr ErrCtx, [data], w)
            | TimedOut => Ret (inr ErrIQTimedOut, [data], w)
            end
        end
    end.

(** The result of a query after its response. *)
Definition iqResult (res : frame) : option node * option iq_error :=
  let n := frame_node res in
  let '(resType, _) := as_string (attr (Attrs n) "type") in
  if negb (String.eqb (Tag n) "iq") || (negb (String.eqb resType "result") && negb (String.eqb resType "error"))
  then (Some n, Some (ErrIQ (mkIQError 0 "" None (Some n))))
  else if String.eqb resType "error" then (Some n, Some (ErrIQ (parseIQError n)))
  else (Some n, None).

(** [sendIQ] from the end of its send on, which gave the frame or an error.  The
    result has the frames that were written again. *)
Definition sendIQ {D} (query : infoQuery) (sent : iq_error + D) (first : wait_end)
    (reconnected : bool) (sock : option (option string)) (second : wait_end) (w : Waiters) :
    outcome (option node * option iq_error * list D * Waiters) :=
  match sent with
  | inl err => Ret (None, Some err, [], w)
  | inr data =>
      match first with
      | CtxDone => Ret (None, Some ErrCtx, [], w)
      | TimedOut => Ret (None, Some ErrIQTimedOut, [], w)
      | Got res =>
          let w := was_taken (ID query) res w in
          if isDisconnectNode res then
            if NoRetry query then Ret (None, Some (Disconnected "info query" res), [], w)
            else
              '(r, again, w) ← retryFrame "info query" (ID query) data res reconnected sock second w;
              match r with
              | inr err => Ret (None, Some err, again, w)
              | inl res => Ret (iqResult res, again, w)
              end
          else Ret (iqResult res, [], w)
      end
  end.

(** ** Interleavings

    The code's state with the history it does not keep: the id that each channel
    was made for, and the channels that a frame was sent to. *)
Record System : Type := mkSystem { w : Waiters; owners : list string; delivered : list nat }.

Definition answers (id : string) (f : frame) : Prop := exists n, f = Frame n /\ response_id n = Some id.

(** The steps.  A channel is cancelled by its owner, once, with its id, and not
    while a response to it is being sent; the waiters are cleared with the frames
    that the client uses for it, which are disconnects. *)
Inductive sys_step : relation System :=
| st_wait s id : sys_step s (mkSystem (waitResponse id (w s)).2 (owners s ++ [id]) (delivered s))
| st_take s data : sys_step s (mkSystem (receiveResponse_take data (w s)).2 (owners s) (delivered s))
| st_send s i c f w' :
    sending (w s) !! i = Some (c, f) -> receiveResponse_send i (w s) = Some (Ret w') ->
    sys_step s (mkSystem w' (owners s) (delivered s ++ [c]))
| st_done s i : sys_step s (mkSystem (receiveResponse_done i (w s)) (owners s) (delivered s))
| st_clear s f w' :
    isDisconnectNode f = true -> clearResponseWaiters f (w s) = Ret w' ->
    sys_step s (mkSystem w' (owners s) (delivered s ++ (map_to_list (responseWaiters (w s))).*2))
| st_receive s c r w' : receive c (w s) = Some (r, w') -> sys_step s (mkSystem w' (owners s) (delivered s))
| st_cancel s id c w' :
    owners s !! c = Some id -> c ∉ (sending (w s)).*1 -> cancelResponse id c (w s) = Ret w' ->
    sys_step s (mkSystem w' (owners s) (delivered s)).

Definition fresh_system : System := mkSystem (mkWaiters ∅ [] []) [] [].

Definition idle (c : nat) (ww : Waiters) : Prop := chans ww !! c = Some (mkChan None false).
Definition delivers (owner : option string) (f : frame) : Prop :=
  isDisconnectNode f = true \/ exists id, owner = Some id /\ answers id f.

Record req_inv (s : System) : Prop := mkReqInv {
  ri_owners : length (owners s) = length (chans (w s));
  ri_waiting : forall id c, responseWaiters (w s) !! id = Some c ->
    owners s !! c = Some id /\ idle c (w s) /\ c ∉ (sending (w s)).*1 /\ c ∉ delivered s;
  ri_sending : forall c f, (c, f) ∈ sending (w s) ->
    idle c (w s) /\ c ∉ delivered s /\ exists id, owners s !! c = Some id /\ answers id f;
  ri_once : NoDup (sending (w s)).*1 /\ NoDup (delivered s);
  ri_known : forall c, c ∈ delivered s -> (c < length (chans (w s)))%nat;
  ri_contents : forall c ch f, chans (w s) !! c = Some ch -> buf ch = Some f -> delivers (owners s !! c) f }.

Lemma idle_send c f ww : idle c ww -> try_send c f (chans ww) = Ret (true, <[c := mkChan (Some f) false]> (chans ww)).
Proof. intros H. unfold try_send. by rewrite H. Qed.

Lemma wait_inv s id : req_inv s -> req_inv (mkSystem (waitResponse id (w s)).2 (owners s ++ [id]) (delivered s)).
Proof.
  intros [H1 H2 H3 H4 H5 H6]. set (n := length (chans (w s))). set (ww := (waitResponse id (w s)).2).
  assert (chans ww = chans (w s) ++ [mkChan None false]) as Hch by done.
  assert (responseWaiters ww = <[id := n]> (responseWaiters (w s))) as Hrw by done.
  assert (sending ww = sending (w s)) as Hse by done.
  assert (forall c, idle c (w s) -> idle c ww) as Hidle.
  { intros c Hc. unfold idle. rewrite Hch. by apply lookup_app_l_Some. }
  assert (n ∉ (sending (w s)).*1 /\ n ∉ delivered s) as [Hns Hnd].
  { split; [intros ([c f] & He & Hin)%list_elem_of_fmap|intros Hin%H5; unfold n in *; lia].
    cbn in He. subst c. destruct (H3 _ _ Hin) as [Hi _]. apply lookup_lt_Some in Hi. unfold n in *. lia. }
  constructor; cbn [w owners delivered]; rewrite ?Hch, ?Hse.
  - rewrite !length_app. cbn. lia.
  - intros id' c Hc. rewrite Hrw in Hc.
    destruct (decide (id' = id)) as [->|Hne].
    + rewrite lookup_insert_eq in Hc. injection Hc as <-. split; [|split; [|by split]].
      * rewrite lookup_app_r by (unfold n; lia). unfold n. by rewrite H1, Nat.sub_diag.
      * unfold idle. rewrite Hch, lookup_app_r by (unfold n; lia). unfold n. by rewrite Nat.sub_diag.
    + rewrite lookup_insert_ne in Hc by done. destruct (H2 _ _ Hc) as (Ho & Hi & Hs & Hd).
      split; [by apply lookup_app_l_Some|]. split; [by apply Hidle|by split].
  - intros c f Hin. destruct (H3 c f Hin) as (Hi & Hd & x & Hx & Hax). split; [by apply Hidle|]. split; [done|].
    exists x. split; [by apply lookup_app_l_Some|done].
  - done.
  - intros c Hc. rewrite length_app. specialize (H5 c Hc). lia.
  - intros c ch f Hc Hb.
    apply lookup_app_Some in Hc as [Hc|[_ Hc]].
    + destruct (H6 c ch f Hc Hb) as [|(x & Hx & Ha)]; [by left|right]. exists x. split; [by apply lookup_app_l_Some|done].
    + apply list_lookup_singleton_Some in Hc as [_ <-]. done.
Qed.

Lemma take_inv s data : req_inv s -> req_inv (mkSystem (receiveResponse_take data (w s)).2 (owners s) (delivered s)).
Proof.
  intros Hinv. unfold receiveResponse_take.
  destruct (response_id data) as [id|] eqn:Eid; [|by destruct s].
  destruct (responseWaiters (w s) !! id) as [c|] eqn:Ec; [|by destruct s].
  destruct Hinv as [H1 H2 H3 [H4 H4'] H5 H6]. destruct (H2 _ _ Ec) as (Ho & Hi & Hs & Hd).
  set (ww := (w s) <| responseWaiters := delete id (responseWaiters (w s)) |> <| sending := sending (w s) ++ [(c, Frame data)] |>).
  constructor; cbn [w owners delivered snd].
  - done.
  - intros id' c' Hc. change (responseWaiters ww) with (delete id (responseWaiters (w s))) in Hc.
    apply lookup_delete_Some in Hc as [Hne Hc]. destruct (H2 _ _ Hc) as (Ho' & Hi' & Hs' & Hd').
    split; [done|]. split; [done|]. split; [|done]. change (sending ww) with (sending (w s) ++ [(c, Frame data)]).
    rewrite fmap_app, elem_of_app. intros [|Hin]; [done|]. apply list_elem_of_singleton in Hin. cbn in Hin. subst c'.
    rewrite Ho in Ho'. by injection Ho'.
  - intros c' f. change (sending ww) with (sending (w s) ++ [(c, Frame data)]).
    intros [Hin|Hin]%elem_of_app; [by apply H3|]. apply list_elem_of_singleton in Hin. injection Hin as -> ->.
    split; [done|]. split; [done|]. exists id. split; [done|by exists data].
  - split; [|done]. change (sending ww) with (sending (w s) ++ [(c, Frame data)]). rewrite fmap_app. apply NoDup_app.
    split; [done|]. split; [|apply NoDup_singleton]. intros x Hx Hc. apply list_elem_of_singleton in Hc. by subst x.
  - done.
  - done.
Qed.

Lemma elem_of_delete {A} (l : list A) i x : x ∈ delete i l -> x ∈ l.
Proof. intros Hx. eapply elem_of_sublist; [exact Hx|apply sublist_delete]. Qed.

Lemma delete_other (l : list (nat * frame)) i c f y :
  NoDup l.*1 -> l !! i = Some (c, f) -> y ∈ (delete i l).*1 -> y ∈ l.*1 /\ y <> c.
Proof.
  intros Hn Hi Hy. split; [apply list_elem_of_fmap in Hy as (x & -> & Hx); apply list_elem_of_fmap_2; by eapply elem_of_delete|].
  intros ->. rewrite list_fmap_delete in Hy.
  assert (l.*1 !! i = Some c) as Hc by (by rewrite list_lookup_fmap, Hi).
  rewrite (delete_Permutation _ _ _ Hc) in Hn. by apply NoDup_cons in Hn as [Hn _].
Qed.

(** A frame is put into an idle channel that no one else holds. *)
Lemma send_inv s i c f w' :
  req_inv s -> sending (w s) !! i = Some (c, f) -> receiveResponse_send i (w s) = Some (Ret w') ->
  req_inv (mkSystem w' (owners s) (delivered s ++ [c])).
Proof.
  intros [H1 H2 H3 [H4 H4'] H5 H6] Hi Hw.
  destruct (H3 c f) as (Hidle & Hnd & x & Hx & Hax); [by eapply list_elem_of_lookup_2|].
  unfold receiveResponse_send in Hw. rewrite Hi, (idle_send _ _ _ Hidle) in Hw. injection Hw as <-.
  set (ww := (w s) <| chans := <[c := mkChan (Some f) false]> (chans (w s)) |> <| sending := delete i (sending (w s)) |>).
  assert (chans ww = <[c := mkChan (Some f) false]> (chans (w s))) as Hch by done.
  assert (sending ww = delete i (sending (w s))) as Hse by done.
  assert (forall y, y <> c -> y ∉ delivered s -> y ∉ delivered s ++ [c]) as Hdel.
  { intros y Hne Hd [?|Hy]%elem_of_app; [done|]. by apply list_elem_of_singleton in Hy. }
  assert (forall y, y <> c -> idle y (w s) -> idle y ww) as Hid.
  { intros y Hne Hy. unfold idle. by rewrite Hch, list_lookup_insert_ne. }
  constructor; cbn [w owners delivered]; rewrite ?Hch, ?Hse, ?length_insert.
  - done.
  - intros id y Hy. destruct (H2 id y Hy) as (Ho & Hidy & Hs & Hd). assert (y <> c) as Hne.
    { intros ->. apply Hs, list_elem_of_fmap. exists (c, f). split; [done|by eapply list_elem_of_lookup_2]. }
    split; [done|]. split; [by apply Hid|]. split; [|by apply Hdel]. by intros [? _]%(delete_other _ _ c f).
  - intros y g Hin. destruct (delete_other (sending (w s)) i c f y) as [_ Hne]; [done|done|apply list_elem_of_fmap; by exists (y, g)|].
    destruct (H3 y g (elem_of_delete _ _ _ Hin)) as (Hidy & Hd & He). split; [by apply Hid|]. split; [by apply Hdel|done].
  - split; [rewrite list_fmap_delete; eapply sublist_NoDup; [exact H4|apply sublist_delete]|].
    apply NoDup_app. split; [done|]. split; [|apply NoDup_singleton]. intros y Hy Hc. apply list_elem_of_singleton in Hc. by subst y.
  - intros y [Hy|Hy]%elem_of_app; [by apply H5|]. apply list_elem_of_singleton in Hy as ->. by eapply lookup_lt_Some.
  - intros y ch g Hy Hb. destruct (decide (y = c)) as [->|Hne].
    + rewrite list_lookup_insert_eq in Hy by (by eapply lookup_lt_Some). injection Hy as <-. cbn in Hb. injection Hb as <-.
      right. by exists x.
    + rewrite list_lookup_insert_ne in Hy by done. by apply (H6 y ch g).
Qed.

Lemma done_inv s i : req_inv s -> req_inv (mkSystem (receiveResponse_done i (w s)) (owners s) (delivered s)).
Proof.
  intros [H1 H2 H3 [H4 H4'] H5 H6].
  assert (sending (receiveResponse_done i (w s)) = delete i (sending (w s))) as Hse by done.
  constructor; cbn [w owners delivered]; rewrite ?Hse; try done.
  - intros id c Hc. destruct (H2 id c Hc) as (Ho & Hi & Hs & Hd). repeat (split; [done|]). split; [|done].
    intros (x & -> & Hx)%list_elem_of_fmap. apply Hs, list_elem_of_fmap. exists x. split; [done|by eapply elem_of_delete].
  - intros c f Hin. by apply H3, (elem_of_delete _ i).
  - split; [|done]. rewrite list_fmap_delete. eapply sublist_NoDup; [exact H4|apply sublist_delete].
Qed.

Lemma clear_loop_spec f l : forall cs,
  NoDup l -> (forall c, c ∈ l -> cs !! c = Some (mkChan None false)) ->
  exists cs', clear_loop f l cs = Ret cs' /\ length cs' = length cs /\
    (forall c, c ∈ l -> cs' !! c = Some (mkChan (Some f) false)) /\ (forall c, c ∉ l -> cs' !! c = cs !! c).
Proof.
  induction l as [|c l IH]; intros cs Hn Hi.
  { exists cs. split; [done|]. split; [done|]. split; [intros c Hc; by apply not_elem_of_nil in Hc|done]. }
  apply NoDup_cons in Hn as [Hc Hn]. pose proof (Hi c (list_elem_of_here _ _)) as Hidle.
  destruct (IH (<[c := mkChan (Some f) false]> cs) Hn) as (cs' & He & Hl & H1 & H2).
  { intros y Hy. rewrite list_lookup_insert_ne by (intros ->; done). apply Hi. by right. }
  exists cs'. cbn [clear_loop]. unfold mbind, outcome_bind, try_send. rewrite Hidle. cbn [closed buf].
  change ((mkChan None false) <| buf := Some f |>) with (mkChan (Some f) false). rewrite length_insert in Hl.
  split; [done|]. split; [done|]. split.
  - intros y [->|Hy]%elem_of_cons; [|by apply H1]. rewrite H2 by done.
    apply list_lookup_insert_eq. by eapply lookup_lt_Some.
  - intros y Hy. apply not_elem_of_cons in Hy as [Hne Hy]. rewrite H2 by done. by apply list_lookup_insert_ne.
Qed.

Lemma waiting_distinct s : req_inv s -> NoDup (map_to_list (responseWaiters (w s))).*2.
Proof.
  intros Hinv. apply NoDup_fmap_2_strong; [|apply NoDup_map_to_list].
  intros [i c] [j d] Hi%elem_of_map_to_list Hj%elem_of_map_to_list He. cbn in He. subst d.
  destruct (ri_waiting _ Hinv _ _ Hi) as [Ho _], (ri_waiting _ Hinv _ _ Hj) as [Ho' _]. rewrite Ho in Ho'. by injection Ho' as ->.
Qed.

Lemma waiting_elem s c : c ∈ (map_to_list (responseWaiters (w s))).*2 <-> exists id, responseWaiters (w s) !! id = Some c.
Proof.
  rewrite list_elem_of_fmap. split.
  - intros ([id c'] & -> & H%elem_of_map_to_list). by exists id.
  - intros [id H]. exists (id, c). split; [done|by apply elem_of_map_to_list].
Qed.

(** Clearing always succeeds: every waiter gets the frame. *)
Lemma clear_spec s f :
  req_inv s -> exists w', clearResponseWaiters f (w s) = Ret w' /\ responseWaiters w' = ∅ /\ sending w' = sending (w s) /\
    length (chans w') = length (chans (w s)) /\
    forall c, chans w' !! c = if decide (c ∈ (map_to_list (responseWaiters (w s))).*2) then Some (mkChan (Some f) false)
                              else chans (w s) !! c.
Proof.
  intros Hinv. destruct (clear_loop_spec f _ (chans (w s)) (waiting_distinct s Hinv)) as (cs' & He & Hl & H1 & H2).
  { intros c [id Hid]%waiting_elem. by destruct (ri_waiting _ Hinv _ _ Hid) as (_ & Hi & _). }
  unfold clearResponseWaiters, mbind, outcome_bind. rewrite He. eexists. split; [done|]. split; [done|]. split; [done|].
  split; [done|]. intros c. destruct (decide _) as [Hin|Hin]; [exact (H1 c Hin)|exact (H2 c Hin)].
Qed.

Lemma clear_inv s f w' :
  req_inv s -> isDisconnectNode f = true -> clearResponseWaiters f (w s) = Ret w' ->
  req_inv (mkSystem w' (owners s) (delivered s ++ (map_to_list (responseWaiters (w s))).*2)).
Proof.
  intros Hinv Hf Hw. destruct (clear_spec s f Hinv) as (w'' & Hw'' & Hr & Hs & Hl & Hc).
  rewrite Hw in Hw''. injection Hw'' as <-. pose proof (waiting_distinct s Hinv) as Hdist.
  destruct Hinv as [H1 H2 H3 [H4 H4'] H5 H6].
  constructor; cbn [w owners delivered]; rewrite ?Hr, ?Hs, ?Hl.
  - done.
  - intros id c. by rewrite lookup_empty.
  - intros c g Hin. destruct (H3 c g Hin) as (Hi & Hd & He).
    assert (c ∉ (map_to_list (responseWaiters (w s))).*2) as Hn.
    { intros [id Hid]%waiting_elem. destruct (H2 _ _ Hid) as (_ & _ & Hns & _).
      apply Hns, list_elem_of_fmap. by exists (c, g). }
    split; [unfold idle; by rewrite Hc, decide_False|]. split; [|done]. by intros [|]%elem_of_app.
  - split; [done|]. apply NoDup_app. split; [done|]. split; [|done].
    intros c Hd [id Hid]%waiting_elem. by destruct (H2 _ _ Hid) as (_ & _ & _ & Hnd).
  - intros c [Hd|[id Hid]%waiting_elem]%elem_of_app; [by apply H5|].
    destruct (H2 _ _ Hid) as (_ & Hi & _). by eapply lookup_lt_Some.
  - intros c ch g. rewrite Hc. destruct (decide _) as [Hin|Hin]; [|apply H6].
    intros [= <-]. cbn. intros [= <-]. by left.
Qed.

(** A change of a channel that is not idle, or to a closed one that no one
    holds. *)
Lemma chan_inv s c ch ww :
  req_inv s -> responseWaiters ww ⊆ responseWaiters (w s) -> sending ww = sending (w s) ->
  chans ww = <[c := ch]> (chans (w s)) -> buf ch = None \/ (exists c0, chans (w s) !! c = Some c0 /\ buf ch = buf c0) ->
  (forall id, responseWaiters ww !! id <> Some c) -> c ∉ (sending (w s)).*1 ->
  req_inv (mkSystem ww (owners s) (delivered s)).
Proof.
  intros [H1 H2 H3 [H4 H4'] H5 H6] Hr Hs Hc Hb Hnw Hns.
  assert (forall y, y <> c -> idle y (w s) -> idle y ww) as Hid.
  { intros y Hne Hy. unfold idle. by rewrite Hc, list_lookup_insert_ne. }
  constructor; cbn [w owners delivered]; rewrite ?Hs, ?Hc, ?length_insert; try done.
  - intros id y Hy. assert (y <> c) as Hne by (intros ->; by apply (Hnw id)).
    destruct (H2 id y) as (Ho & Hi & Hsd & Hd); [by eapply lookup_weaken|]. split; [done|]. split; [by apply Hid|done].
  - intros y g Hin. assert (y <> c) as Hne.
    { intros ->. apply Hns, list_elem_of_fmap. by exists (c, g). }
    destruct (H3 y g Hin) as (Hi & Hd & He). split; [by apply Hid|done].
  - intros y ch' g Hy Hg. destruct (decide (y = c)) as [->|Hne].
    + destruct (decide (c < length (chans (w s)))%nat) as [Hlt|Hlt].
      * rewrite list_lookup_insert_eq in Hy by done. injection Hy as <-. destruct Hb as [Hb|(c0 & H0 & Hb)]; [congruence|].
        apply (H6 c c0); congruence.
      * rewrite list_insert_ge in Hy by lia. by apply (H6 c ch').
    + rewrite list_lookup_insert_ne in Hy by done. by apply (H6 y ch').
Qed.

Lemma receive_inv s c r w' : req_inv s -> receive c (w s) = Some (r, w') -> req_inv (mkSystem w' (owners s) (delivered s)).
Proof.
  intros Hinv Hr. unfold receive in Hr. destruct (chans (w s) !! c) as [ch|] eqn:Ec; [|done].
  destruct (buf ch) as [f|] eqn:Eb; [|destruct (closed ch); [|done]; injection Hr as _ <-; by destruct s].
  injection Hr as _ <-. eapply (chan_inv s c (ch <| buf := None |>)); [done|done|done|done|by left| |].
  - intros id Hid. destruct (ri_waiting _ Hinv _ _ Hid) as (_ & Hi & _). unfold idle in Hi. rewrite Ec in Hi.
    injection Hi as ->. done.
  - intros ([c' f'] & -> & Hin)%list_elem_of_fmap. destruct (ri_sending _ Hinv _ _ Hin) as (Hi & _). cbn in Ec.
    unfold idle in Hi. rewrite Ec in Hi. injection Hi as ->. done.
Qed.

Lemma cancel_inv s id c w' :
  req_inv s -> owners s !! c = Some id -> c ∉ (sending (w s)).*1 -> cancelResponse id c (w s) = Ret w' ->
  req_inv (mkSystem w' (owners s) (delivered s)).
Proof.
  intros Hinv Ho Hns Hw. unfold cancelResponse, close in Hw.
  destruct (chans (w s) !! c) as [ch|] eqn:Ec; [|done]. destruct (closed ch); [done|]. injection Hw as <-.
  eapply (chan_inv s c (ch <| closed := true |>)); [done|apply delete_subseteq|done|done|right; by exists ch| |done].
  intros id' Hid. change (delete id (responseWaiters (w s)) !! id' = Some c) in Hid.
  apply lookup_delete_Some in Hid as [Hne Hid]. destruct (ri_waiting _ Hinv _ _ Hid) as (Ho' & _). rewrite Ho in Ho'. by injection Ho'.
Qed.

Lemma sys_step_inv s s' : req_inv s -> sys_step s s' -> req_inv s'.
Proof.
  intros Hinv Hs. destruct Hs.
  - by apply wait_inv.
  - by apply take_inv.
  - by eapply send_inv.
  - by apply done_inv.
  - by apply (clear_inv s f).
  - by eapply receive_inv.
  - by eapply cancel_inv.
Qed.

Lemma fresh_inv : req_inv fresh_system.
Proof.
  constructor; cbn.
  - done.
  - intros id c. by rewrite lookup_empty.
  - intros c f Hin. by apply not_elem_of_nil in Hin.
  - split; constructor.
  - intros c Hin. by apply not_elem_of_nil in Hin.
  - done.
Qed.

(** C14. In every interleaving of requests, responses, disconnects and
    cancellations in which no channel is cancelled while its response is being
    sent, nothing panics and nothing waits: a send that is pending can be done at
    once, clearing the waiters succeeds, no channel is given two frames, and what
    a channel holds is a response with the id of its request or a disconnect. *)
Theorem waiters_safe s :
  rtc sys_step fresh_system s ->
  (forall i, (i < length (sending (w s)))%nat -> exists w', receiveResponse_send i (w s) = Some (Ret w')) /\
  (forall f, exists w', clearResponseWaiters f (w s) = Ret w') /\
  NoDup (delivered s) /\
  (forall c ch f, chans (w s) !! c = Some ch -> buf ch = Some f -> delivers (owners s !! c) f).
Proof.
  intros Hrun. assert (req_inv s) as Hinv.
  { eapply (rtc_preserved sys_step req_inv); [intros x y Hxy Hx; by eapply sys_step_inv|exact Hrun|exact fresh_inv]. }
  split; [|split; [|split]].
  - intros i Hi. destruct (lookup_lt_is_Some_2 _ _ Hi) as [[c f] Hcf].
    destruct (ri_sending _ Hinv c f) as (Hidle & _); [by eapply list_elem_of_lookup_2|].
    unfold receiveResponse_send. rewrite Hcf, (idle_send _ _ _ Hidle). by eexists.
  - intros f. destruct (clear_spec s f Hinv) as (w' & Hw & _). by exists w'.
  - apply Hinv.
  - apply Hinv.
Qed.

(** The lock does not cover the send: when a request is cancelled, because its
    send failed or its time is over, between the two halves of
    [receiveResponse], the send is to a closed channel and panics. *)
Theorem cancel_race ww id data :
  response_id data = Some id ->
  let '(c, w1) := waitResponse id ww in
  let '(taken, w2) := receiveResponse_take data w1 in
  taken = true /\
  exists w3, cancelResponse id c w2 = Ret w3 /\
    receiveResponse_send (length (sending ww)) w3 = Some (Panic "send on closed channel").
Proof.
  intros Hid. set (c := length (chans ww)).
  set (w1 := ww <| chans := chans ww ++ [mkChan None false] |> <| responseWaiters := <[id := c]> (responseWaiters ww) |>).
  set (w2 := w1 <| responseWaiters := delete id (responseWaiters w1) |> <| sending := sending w1 ++ [(c, Frame data)] |>).
  set (w3 := w2 <| chans := <[c := mkChan None true]> (chans w2) |> <| responseWaiters := delete id (responseWaiters w2) |>).
  assert (chans w2 !! c = Some (mkChan None false)) as Hc.
  { change (chans w2) with (chans ww ++ [mkChan None false]). unfold c. by rewrite lookup_app_r, Nat.sub_diag by lia. }
  change (waitResponse id ww) with (c, w1). cbn match.
  assert (receiveResponse_take data w1 = (true, w2)) as ->.
  { unfold receiveResponse_take. rewrite Hid. change (responseWaiters w1) with (<[id := c]> (responseWaiters ww)).
    by rewrite lookup_insert_eq. }
  split; [done|]. exists w3. split.
  - unfold cancelResponse, close. by rewrite Hc.
  - unfold receiveResponse_send. change (sending w3) with (sending ww ++ [(c, Frame data)]).
    rewrite lookup_app_r, Nat.sub_diag by lia. cbn [lookup list_lookup]. unfold try_send.
    change (chans w3) with (<[c := mkChan None true]> (chans w2)).
    by rewrite list_lookup_insert_eq by (by eapply lookup_lt_Some).
Qed.

(** A query that succeeds has a result of its request: an [iq] of type result,
    as the first response, or as the response to the one retry after a
    disconnect that was not an authentication error and from which the
    connection came back.  The same frame is written again in the second case
    only, and no waiter is left. *)
Theorem sendIQ_success {D} query (sent : iq_error + D) first reconnected sock second w n again w' :
  sendIQ query sent first reconnected sock second w = Ret (Some n, None, again, w') ->
  exists data, sent = inr data /\ Tag n = "iq" /\ attr (Attrs n) "type" = Some (VString "result") /\
  responseWaiters w' !! ID query = None /\
  (first = Got (Frame n) /\ again = [] \/
   exists f, first = Got f /\ isDisconnectNode f = true /\ isAuthErrorDisconnect f = false /\
     NoRetry query = false /\ reconnected = true /\ sock = Some None /\ second = Got (Frame n) /\ again = [data]).
Proof.
  assert (forall res, iqResult res = (Some n, None) -> res = Frame n /\ Tag n = "iq" /\ attr (Attrs n) "type" = Some (VString "result")) as Hres.
  { intros res. unfold iqResult. destruct res as [|m]; [done|]. cbn [frame_node].
    destruct (attr (Attrs m) "type") as [v|] eqn:Ea; [|cbn; by rewrite orb_true_r].
    destruct v; cbn [as_string]; try (cbn; by rewrite orb_true_r).
    destruct (String.eqb_spec (Tag m) "iq"); [|done]. destruct (String.eqb_spec s "result") as [->|].
    - intros [= <-]. done.
    - by destruct (String.eqb_spec s "error"). }
  assert (forall f w, responseWaiters (was_taken (ID query) f w) !! ID query = None) as Htaken.
  { intros f w0. unfold was_taken. cbn. destruct (isDisconnectNode f); [apply lookup_empty|apply lookup_delete_eq]. }
  unfold sendIQ. destruct sent as [|data]; [done|]. destruct first as [res| |]; [|done|done]. intros H. exists data. split; [done|]. revert H.
  destruct (isDisconnectNode res) eqn:Ed.
  - destruct (NoRetry query) eqn:En; [done|]. unfold retryFrame.
    destruct (isAuthErrorDisconnect res) eqn:Ea; [done|]. destruct reconnected; [|done]. cbn [negb].
    destruct sock as [[err|]|]; [| |done]; destruct (waitResponse _ _) as [c w1].
    + destruct (cancelResponse _ _ _); cbn; done.
    + destruct second as [resp| |]; [|done|done]. cbn [mbind outcome_bind].
      destruct (isDisconnectNode resp); [done|]. intros [= Hr <- <-]. apply Hres in Hr as [-> [Ht Hty]].
      split; [done|]. split; [done|]. split; [apply Htaken|]. right. by exists res.
  - intros [= Hr <- <-]. apply Hres in Hr as [-> [Ht Hty]]. split; [done|]. split; [done|]. split; [apply Htaken|]. by left.
Qed.

(** When its context ends, or its time, a retry leaves its waiter in the map, where
    it stays until the next disconnection. *)
Theorem retry_leaves_waiter {D} reqType id (data : D) orig second w :
  isAuthErrorDisconnect orig = false -> (forall f, second <> Got f) ->
  exists e w', retryFrame reqType id data orig true (Some None) second w = Ret (inr e, [data], w') /\
    responseWaiters w' !! id = Some (length (chans w)).
Proof.
  intros Ha Hs. unfold retryFrame. rewrite Ha. cbn. destruct second as [f| |]; [by destruct (Hs f)|..]; eexists _, _; (split; [done|]); apply lookup_insert_eq.
Qed.

(** ** Runs *)

Definition demo_result : node := mkNode "iq" [("id", VString "a1"); ("type", VString "result")] VNil.

(** Two requests; one is answered, the other one is cleared. *)
Definition demo_system : System :=
  mkSystem (mkWaiters ∅ [mkChan None false; mkChan (Some StreamEnd) false] []) ["a1"; "a2"] [0%nat; 1%nat].

Lemma demo_run : rtc sys_step fresh_system demo_system.
Proof.
  eapply rtc_l; [apply (st_wait _ "a1")|]. eapply rtc_l; [apply (st_wait _ "a2")|].
  eapply rtc_l; [apply (st_take _ demo_result)|].
  eapply rtc_l; [eapply (st_send _ 0); vm_compute; reflexivity|].
  eapply rtc_l; [eapply (st_receive _ 0); vm_compute; reflexivity|].
  eapply rtc_l; [eapply (st_clear _ StreamEnd); vm_compute; reflexivity|]. apply rtc_refl.
Qed.

Lemma waiters_safe_witness :
  NoDup (delivered demo_system) /\
  (forall c ch f, chans (w demo_system) !! c = Some ch -> buf ch = Some f -> delivers (owners demo_system !! c) f).
Proof. destruct (waiters_safe demo_system demo_run) as (_ & _ & H). exact H. Defined.

Lemma cancel_race_witness :
  exists w3, cancelResponse "a1" 0 (receiveResponse_take demo_result (waitResponse "a1" (mkWaiters ∅ [] [])).2).2 = Ret w3 /\
    receiveResponse_send 0 w3 = Some (Panic "send on closed channel").
Proof.
  pose proof (cancel_race (mkWaiters ∅ [] []) "a1" demo_result eq_refl) as H. cbn in H. destruct H as [_ H]. exact H.
Defined.

Lemma sendIQ_success_witness :
  let query := mkQuery "w:p" iqGet ServerJID EmptyJID "a1" "" VNil 0 false in
  exists w', sendIQ query (inr (iqNode query)) (Got StreamEnd) true (Some None) (Got (Frame demo_result)) (mkWaiters ∅ [] []) =
    Ret (Some demo_result, None, [iqNode query], w') /\ responseWaiters w' !! "a1" = None.
Proof.
  intros query. eexists. split; [reflexivity|].
  destruct (sendIQ_success query (inr (iqNode query)) (Got StreamEnd) true (Some None) (Got (Frame demo_result)) (mkWaiters ∅ [] []) demo_result _ _ eq_refl)
    as (_ & _ & _ & _ & H & _). exact H.
Defined.
Lemma retry_leaves_waiter_witness : exists e w',
  retryFrame "message send" "a1" demo_result StreamEnd true (Some None) CtxDone (mkWaiters ∅ [] []) = Ret (inr e, [demo_result], w') /\
  responseWaiters w' !! "a1" = Some 0%nat.
Proof. apply (retry_leaves_waiter "message send" "a1" demo_result StreamEnd CtxDone (mkWaiters ∅ [] [])); [reflexivity|discriminate]. Defined.
