(* ===== verification/PreKeys.v ===== *)
(** * [whatsmeow/prekeys.go] and the prekey table of [sqlstore/store.go]

    The nodes that carry prekeys, in both directions, the table that hands out
    their numbers, and their upload.  The public key of a private one and the
    random bytes are parameters. *)
From stdpp Require Import sorting.
From S2P Require Import Prelude GoStrings GoTime Jid BinaryNode BinaryCodec NodeAttrs Requests.

(** ** Keys *)

(** [keys.PreKey]: arrays of 32 and 64 bytes. *)
Record PreKey : Type := mkPreKey { Pub : Bytes; Priv : Bytes; KeyID : Z; Signature : option Bytes }.

(** The bits that [NewKeyPair] fixes in 32 random bytes. *)
Definition clamp (priv : Bytes) : Bytes :=
  alter (fun b => Z.lor (Z.land b 127) 64) 31%nat (alter (fun b => Z.land b 248) 0%nat priv).

Section Keys.
Context (ScalarBaseMult : Bytes -> Bytes).
Definition NewKeyPairFromPrivateKey (priv : Bytes) (id : Z) : PreKey :=
  mkPreKey (ScalarBaseMult priv) priv id None.
Definition NewPreKey (random : Bytes) (keyID : Z) : PreKey := NewKeyPairFromPrivateKey (clamp random) keyID.
End Keys.

(** ** Nodes *)

Definition preKeyToNode (key : PreKey) : node :=
  let keyID := intBytes (KeyID key) 4 false in
  let content := [mkNode "id" [] (VBytes (of_codes (drop 1 keyID))); mkNode "value" [] (VBytes (of_codes (Pub key)))] in
  match Signature key with
  | None => mkNode "key" [] (VNodes content)
  | Some sig => mkNode "skey" [] (VNodes (content ++ [mkNode "signature" [] (VBytes (of_codes sig))]))
  end.
Definition preKeysToNodes (prekeys : list PreKey) : list node := map preKeyToNode prekeys.

Inductive key_error : Type :=
| NoTag (tag : string)
| UnexpectedContent (tag : string)
| UnexpectedLength (tag : string) (n : Z).

Definition as_bytes (v : value) : option Bytes :=
  match v with VBytes s => Some (codes s) | _ => None end.

(** The three readings of [nodeToPreKey]: the child with the tag, of [n] bytes. *)
Definition child_bytes (tag : string) (n : Z) (parent : node) : key_error + Bytes :=
  let child := GetChildByTag parent [tag] in
  if negb (String.eqb (Tag child) tag) then inl (NoTag tag)
  else
    match as_bytes (Content child) with
    | None => inl (UnexpectedContent tag)
    | Some b => if negb (Z.of_nat (length b) =? n) then inl (UnexpectedLength tag (Z.of_nat (length b))) else inr b
    end.

Definition nodeToPreKey (n : node) : key_error + PreKey :=
  match child_bytes "id" 3 n with
  | inl e => inl e
  | inr idBytes =>
      let id := bytesInt (0 :: idBytes) false in
      match child_bytes "value" 32 n with
      | inl e => inl e
      | inr pubkeyBytes =>
          if String.eqb (Tag n) "skey" then
            match child_bytes "signature" 64 n with
            | inl e => inl e
            | inr sigBytes => inr (mkPreKey pubkeyBytes [] id (Some sigBytes))
            end
          else inr (mkPreKey pubkeyBytes [] id None)
      end
  end.

(** [prekey.Bundle] *)
Record Bundle : Type := mkBundle {
  RegistrationID : Z;
  DeviceID : Z;
  PreKeyID : option Z;
  SignedPreKeyID : Z;
  PreKeyPublic : option Bytes;
  SignedPreKeyPublic : Bytes;
  SignedPreKeySignature : Bytes;
  IdentityKey : Bytes }.

Inductive bundle_error : Type :=
| ServerError (errorNode : node)
| InvalidRegistration
| InvalidIdentity
| InvalidPreKey (e : key_error)
| InvalidSignedPreKey (e : key_error).

(** The registration and the identity: bytes of one length. *)
Definition sized_bytes (n : Z) (v : value) : option Bytes :=
  match as_bytes v with
  | Some b => if Z.of_nat (length b) =? n then Some b else None
  | None => None
  end.

(** A missing child reads as its parent: without [skey] the keys node itself is
    read, and its missing signature is dereferenced. *)
Definition nodeToPreKeyBundle (deviceID : Z) (n : node) : outcome (bundle_error + Bundle) :=
  let '(errorNode, ok) := GetOptionalChildByTag n ["error"] in
  if ok && String.eqb (Tag errorNode) "error" then Ret (inl (ServerError errorNode))
  else
    match sized_bytes 4 (Content (GetChildByTag n ["registration"])) with
    | None => Ret (inl InvalidRegistration)
    | Some registrationBytes =>
        let registrationID := bytesInt registrationBytes false in
        let keysNode := match GetOptionalChildByTag n ["keys"] with (k, true) => k | (_, false) => n end in
        match sized_bytes 32 (Content (GetChildByTag keysNode ["identity"])) with
        | None => Ret (inl InvalidIdentity)
        | Some identityKey =>
            let preKey := match GetOptionalChildByTag keysNode ["key"] with
                          | (preKeyNode, true) =>
                              match nodeToPreKey preKeyNode with inl e => inl e | inr k => inr (Some k) end
                          | (_, false) => inr None
                          end in
            match preKey with
            | inl e => Ret (inl (InvalidPreKey e))
            | inr preKey =>
                match nodeToPreKey (GetChildByTag keysNode ["skey"]) with
                | inl e => Ret (inl (InvalidSignedPreKey e))
                | inr signedPreKey =>
                    match Signature signedPreKey with
                    | None => Panic "invalid memory address or nil pointer dereference"
                    | Some sig =>
                        Ret (inr (mkBundle registrationID deviceID (KeyID <$> preKey) (KeyID signedPreKey)
                                    (Pub <$> preKey) (Pub signedPreKey) sig identityKey))
                    end
                end
            end
        end
    end.

(** ** Queries *)

Definition keyQuery (t : infoQueryType) (content : list node) : infoQuery :=
  mkQuery "encrypt" t ServerJID EmptyJID "" "" (VNodes content) 0 false.

Inductive prekey_error : Type :=
| ErrRequest (e : iq_error)
| EmptyResponse.

(** [getServerPreKeyCount] with the result of its query. *)
Definition countQuery : infoQuery := keyQuery iqGet [mkNode "count" [] VNil].
Definition getServerPreKeyCount (resp : iq_error + node) : Z * bool :=
  match resp with
  | inl _ => (0, false)
  | inr resp =>
      let '(val, ag) := Int "value" (AttrGetter (GetChildByTag resp ["count"])) in
      (val, OK ag)
  end.

Definition fetchQuery (users : list JID) : infoQuery :=
  keyQuery iqGet [mkNode "key" []
    (VNodes (map (fun user => mkNode "user" [("jid", VJID user); ("reason", VString "identity")] VNil) users))].

(** The entries of the answer, the last one of a JID winning. *)
Fixpoint readBundles (children : list node) (respData : list (JID * (bundle_error + Bundle)))
  : outcome (list (JID * (bundle_error + Bundle))) :=
  match children with
  | [] => Ret respData
  | child :: children =>
      if negb (String.eqb (Tag child) "user") then readBundles children respData
      else
        let '(jid, _) := getJID "jid" (AttrGetter child) in
        resp ← nodeToPreKeyBundle (Device jid) child;
        readBundles children ((jid, resp) :: respData)
  end.
Definition fetchPreKeys (resp : iq_error + node) : outcome (prekey_error + list (JID * (bundle_error + Bundle))) :=
  match resp with
  | inl e => Ret (inl (ErrRequest e))
  | inr resp =>
      if (length (GetChildren resp) =? 0)%nat then Ret (inl EmptyResponse)
      else
        l ← readBundles (GetChildren (GetChildByTag resp ["list"])) [];
        Ret (inr l)
  end.

(** The entry of a JID in the map; a missing one is the zero value. *)
Fixpoint bundle_of (l : list (JID * (bundle_error + Bundle))) (jid : JID) : option (bundle_error + Bundle) :=
  match l with
  | [] => None
  | (j, r) :: l => if decide (j = jid) then Some r else bundle_of l jid
  end.

Definition fetchPreKeysNoError (retryDevices : list JID) (resp : iq_error + node)
  : outcome (list (JID * option Bundle)) :=
  match retryDevices with
  | [] => Ret []
  | _ =>
      r ← fetchPreKeys resp;
      match r with
      | inl _ => Ret []
      | inr bundlesResp =>
          Ret (omap (fun jid => match bundle_of bundlesResp jid with
                                | Some (inl _) => None
                                | Some (inr b) => Some (jid, Some b)
                                | None => Some (jid, None)
                                end) retryDevices)
      end
  end.

(** ** The table

    A row of [whatsmeow_pre_keys]; [key_id] is the primary key, below 2^24. *)
Record prekey_row : Type := mkPreKeyRow { r_id : Z; r_key : Bytes; r_uploaded : bool }.

Inductive store_error : Type := ErrDB | ErrConstraint | ErrInvalidLength | ErrScan.

(** The table and the fate of the statements to come. *)
Record PreKeyDB : Type := mkPreKeyDB { pk_rows : list prekey_row; pk_faults : list bool }.
#[export] Instance eta_PreKeyDB : Eta PreKeyDB := fun r => mkPreKeyDB (pk_rows r) (pk_faults r).

(** A statement, and the code around it: the error or the result, and the table. *)
Definition Sql (A : Type) : Type := PreKeyDB -> (store_error + A) * PreKeyDB.
#[export] Instance Sql_ret : MRet Sql := fun A a db => (inr a, db).
#[export] Instance Sql_bind : MBind Sql :=
  fun A B f m db => match m db with (inr a, db) => f a db | (inl e, db) => (inl e, db) end.

Definition sql_fail {A} (e : store_error) : Sql A := fun db => (inl e, db).

Definition next_fault (db : PreKeyDB) : bool * PreKeyDB :=
  match pk_faults db with [] => (false, db) | f :: fs => (f, db <| pk_faults := fs |>) end.
Definition query {A} (q : list prekey_row -> A) : Sql A := fun db =>
  let '(fault, db) := next_fault db in
  (if fault then inl ErrDB else inr (q (pk_rows db)), db).
Definition exec (q : list prekey_row -> option (list prekey_row)) : Sql () := fun db =>
  let '(fault, db) := next_fault db in
  if fault then (inl ErrDB, db)
  else
    match q (pk_rows db) with
    | Some rows => (inr (), db <| pk_rows := rows |>)
    | None => (inl ErrConstraint, db)
    end.

(** [ORDER BY key_id] *)
Fixpoint insert_by_id (r : prekey_row) (l : list prekey_row) : list prekey_row :=
  match l with
  | [] => [r]
  | r' :: l' => if r_id r <=? r_id r' then r :: l else r' :: insert_by_id r l'
  end.
Definition order_by_id (l : list prekey_row) : list prekey_row := foldr insert_by_id [] l.

Definition maxKeyID (l : list prekey_row) : option Z :=
  foldr (fun r m => Some (match m with Some z => Z.max (r_id r) z | None => r_id r end)) None l.
Definition insertRow (r : prekey_row) (l : list prekey_row) : option (list prekey_row) :=
  if decide (0 <= r_id r < 2 ^ 24 /\ length (r_key r) = 32%nat /\ r_id r ∉ r_id <$> l) then Some (l ++ [r]) else None.
Definition unuploaded (count : Z) (l : list prekey_row) : list prekey_row :=
  take (Z.to_nat count) (order_by_id (filter (fun r => r_uploaded r = false) l)).
Definition markUploaded (upToID : Z) (l : list prekey_row) : list prekey_row :=
  map (fun r => if r_id r <=? upToID then mkPreKeyRow (r_id r) (r_key r) true else r) l.

Section Table.
Context (ScalarBaseMult : Bytes -> Bytes).

(** The key that is generated is returned with the error, if any. *)
Definition genOnePreKey (random : Bytes) (id : Z) (uploaded : bool) : Sql PreKey :=
  let key := NewPreKey ScalarBaseMult random id in
  _ ← exec (insertRow (mkPreKeyRow (KeyID key) (Priv key) uploaded));
  mret key.

Definition getNextPreKeyID : Sql Z :=
  lastKeyID ← query maxKeyID;
  mret (uint32 (uint32 (default 0 lastKeyID) + 1)).

Definition GenOnePreKey (random : Bytes) : Sql PreKey :=
  nextKeyID ← getNextPreKeyID;
  genOnePreKey random nextKeyID true.

Definition scanPreKey (r : prekey_row) : store_error + PreKey :=
  if negb (length (r_key r) =? 32)%nat then inl ErrInvalidLength
  else inr (NewKeyPairFromPrivateKey ScalarBaseMult (r_key r) (r_id r)).
Fixpoint scanPreKeys (l : list prekey_row) : Sql (list PreKey) :=
  match l with
  | [] => mret []
  | r :: l =>
      match scanPreKey r with
      | inl e => sql_fail e
      | inr k => ks ← scanPreKeys l; mret (k :: ks)
      end
  end.

(** The keys that are still missing, [n] of them from [nextKeyID] on. *)
Fixpoint genMissing (random : nat -> Bytes) (n : nat) (nextKeyID : Z) : Sql (list PreKey) :=
  match n with
  | O => mret []
  | S n =>
      k ← genOnePreKey (random n) nextKeyID false;
      ks ← genMissing random n (uint32 (nextKeyID + 1));
      mret (k :: ks)
  end.

Definition GetOrGenPreKeys (random : nat -> Bytes) (count : Z) : Sql (list PreKey) :=
  rows ← query (unuploaded count);
  newKeys ← scanPreKeys rows;
  let alreadyGeneratedCount := Z.of_nat (length newKeys) in
  if count >? alreadyGeneratedCount then
    nextKeyID ← getNextPreKeyID;
    ks ← genMissing random (Z.to_nat (count - alreadyGeneratedCount)) nextKeyID;
    mret (newKeys ++ ks)
  else mret newKeys.

Definition GetPreKey (id : Z) : Sql (option PreKey) :=
  row ← query (fun l => head (filter (fun r => r_id r = id) l));
  match row with
  | None => mret None
  | Some r => match scanPreKey r with inl e => sql_fail e | inr k => mret (Some k) end
  end.
Definition RemovePreKey (id : Z) : Sql () := exec (fun l => Some (filter (fun r => r_id r <> id) l)).
Definition MarkPreKeysAsUploaded (upToID : Z) : Sql () := exec (fun l => Some (markUploaded upToID l)).
Definition UploadedPreKeyCount : Sql Z := query (fun l => Z.of_nat (length (filter (fun r => r_uploaded r = true) l))).

(** ** The upload *)

Definition WantedPreKeyCount : Z := 50.
Definition MinPreKeyCount : Z := 5.
Definition DjbType : Z := 5.

Definition registrationNode (id : Z) : node := mkNode "registration" [] (VBytes (of_codes (intBytes id 4 false))).
Definition typeNode : node := mkNode "type" [] (VBytes (of_codes [DjbType])).
Definition identityNode (pub : Bytes) : node := mkNode "identity" [] (VBytes (of_codes pub)).

Definition uploadQuery (registrationID : Z) (identity : Bytes) (signedPreKey : PreKey) (preKeys : list PreKey) : infoQuery :=
  keyQuery iqSet [registrationNode registrationID; typeNode; identityNode identity;
                  mkNode "list" [] (VNodes (preKeysToNodes preKeys)); preKeyToNode signedPreKey].

(** [countResp] and [resp] are the results of the two queries.  The results are
    the query that was sent and the time of the last upload. *)
Definition uploadPreKeys (registrationID : Z) (identity : Bytes) (signedPreKey : PreKey) (initialUpload : bool)
    (now1 now2 lastPreKeyUpload : Time) (countResp : iq_error + node) (resp : option iq_error)
    (random : nat -> Bytes) (db : PreKeyDB) : outcome (option infoQuery * Time * PreKeyDB) :=
  if bool_decide (After (Add lastPreKeyUpload (10 * Minute)) now1)
     && ((getServerPreKeyCount countResp).1 >=? WantedPreKeyCount)
  then Ret (None, lastPreKeyUpload, db)
  else
    let wantedCount := if initialUpload then 812 else WantedPreKeyCount in
    match GetOrGenPreKeys random wantedCount db with
    | (inl _, db) => Ret (None, lastPreKeyUpload, db)
    | (inr preKeys, db) =>
        let sent := Some (uploadQuery registrationID identity signedPreKey preKeys) in
        match resp with
        | Some _ => Ret (sent, lastPreKeyUpload, db)
        | None =>
            lastKey ← at_ preKeys (Z.of_nat (length preKeys) - 1);
            match MarkPreKeysAsUploaded (KeyID lastKey) db with
            | (inl _, db) => Ret (sent, lastPreKeyUpload, db)
            | (inr _, db) => Ret (sent, now2, db)
            end
        end
    end.
End Table.

(** ** Reading back what was written *)

Definition is_byte (b : Z) : Prop := 0 <= b < 256.
(** A key that fits its node. *)
Record key_ok (k : PreKey) : Prop := mkKeyOk {
  ko_id : 0 <= KeyID k < 2 ^ 32;
  ko_pub : length (Pub k) = 32%nat /\ Forall is_byte (Pub k);
  ko_sig : forall sig, Signature k = Some sig -> length sig = 64%nat /\ Forall is_byte sig }.

Lemma codes_of_codes l : Forall is_byte l -> codes (of_codes l) = l.
Proof.
  intros Hl. unfold codes, of_codes. rewrite bytes_of_bytes, map_map.
  induction Hl as [|b l Hb _ IH]; [done|]. cbn [map]. rewrite IH. f_equal.
  rewrite N_ascii_embedding; unfold is_byte in Hb; lia.
Qed.

Lemma intBytes_byte v n le : Forall is_byte (intBytes v n le).
Proof.
  unfold intBytes. apply Forall_forall. intros b [i [-> _]]%list_elem_of_fmap.
  apply Z.mod_pos_bound. lia.
Qed.

Lemma id_bytes v : 0 <= v < 2 ^ 32 -> bytesInt (0 :: drop 1 (intBytes v 4 false)) false = v mod 2 ^ 24.
Proof.
  intros Hv. rewrite <- (bytesInt_4 (v mod 2 ^ 24)) by div_lia. f_equal.
  unfold intBytes. cbn [seq map drop].
  change (8 * (Z.of_nat 4 - Z.of_nat 0 - 1)) with 24. change (8 * (Z.of_nat 4 - Z.of_nat 1 - 1)) with 16.
  change (8 * (Z.of_nat 4 - Z.of_nat 2 - 1)) with 8. change (8 * (Z.of_nat 4 - Z.of_nat 3 - 1)) with 0.
  rewrite !shiftr_byte by lia. change (2 ^ 24) with 16777216. change (2 ^ 16) with 65536.
  change (2 ^ 8) with 256. change (2 ^ 0) with 1. set (u := v mod 16777216).
  assert (u / 16777216 mod 256 = 0) as -> by (subst u; div_lia).
  assert (u / 65536 mod 256 = v / 65536 mod 256) as -> by (subst u; div_lia).
  assert (u / 256 mod 256 = v / 256 mod 256) as -> by (subst u; div_lia).
  assert (u / 1 mod 256 = v / 1 mod 256) as -> by (subst u; div_lia). done.
Qed.

Lemma child_lookup n tag :
  GetOptionalChildByTag n [tag] =
  match find (fun x => String.eqb (Tag x) tag) (GetChildren n) with Some c => (c, true) | None => (n, false) end.
Proof.
  cbn [GetOptionalChildByTag]. unfold GetChildrenByTag. induction (GetChildren n) as [|x cs IH]; [done|].
  rewrite filter_cons. cbn [find]. destruct (String.eqb_spec (Tag x) tag) as [He|He].
  - by rewrite decide_True.
  - by rewrite decide_False.
Qed.

Lemma child_bytes_of tag n attrs c b cs :
  Forall is_byte b -> Z.of_nat (length b) = n ->
  find (fun x => String.eqb (Tag x) tag) cs = Some (mkNode tag attrs (VBytes (of_codes b))) ->
  child_bytes tag n (mkNode c [] (VNodes cs)) = inr b.
Proof.
  intros Hb Hn Hf. unfold child_bytes, GetChildByTag. rewrite child_lookup. unfold GetChildren. cbn [Content].
  rewrite Hf. cbn. rewrite String.eqb_refl. cbn. rewrite codes_of_codes by done. by rewrite Hn, Z.eqb_refl.
Qed.

Lemma nodeToPreKey_preKeyToNode k :
  key_ok k -> nodeToPreKey (preKeyToNode k) = inr (mkPreKey (Pub k) [] (KeyID k mod 2 ^ 24) (Signature k)).
Proof.
  intros [Hid [Hlen Hpub] Hsig]. unfold nodeToPreKey, preKeyToNode.
  assert (Forall is_byte (drop 1 (intBytes (KeyID k) 4 false))) as Hb by apply Forall_drop, intBytes_byte.
  destruct (Signature k) as [sig|].
  - destruct (Hsig sig eq_refl) as [Hs Hsb].
    rewrite (child_bytes_of "id" 3 [] _ (drop 1 (intBytes (KeyID k) 4 false))) by done.
    rewrite (child_bytes_of "value" 32 [] _ (Pub k)) by (done || by rewrite Hlen).
    rewrite (child_bytes_of "signature" 64 [] _ sig) by (done || by rewrite Hs). cbn [Tag].
    rewrite id_bytes by done. done.
  - rewrite (child_bytes_of "id" 3 [] _ (drop 1 (intBytes (KeyID k) 4 false))) by done.
    rewrite (child_bytes_of "value" 32 [] _ (Pub k)) by (done || by rewrite Hlen). cbn [Tag].
    rewrite id_bytes by done. done.
Qed.

Lemma sized_bytes_of n b : Forall is_byte b -> Z.of_nat (length b) = n -> sized_bytes n (VBytes (of_codes b)) = Some b.
Proof. intros Hb Hn. unfold sized_bytes. cbn. rewrite codes_of_codes by done. by rewrite Hn, Z.eqb_refl. Qed.

Lemma preKeyToNode_tag k : Tag (preKeyToNode k) = (if Signature k then "skey" else "key").
Proof. unfold preKeyToNode. by destruct (Signature k). Qed.

(** A device publishes its keys, in an upload, which the server hands out in a
    [user] node, or in a retry receipt: whoever reads the node gets the bundle
    of these keys, with the low 24 bits of their numbers. *)
Theorem bundle_roundtrip tag attrs registrationID deviceID identity k sk sig other more :
  0 <= registrationID < 2 ^ 32 -> length identity = 32%nat -> Forall is_byte identity ->
  key_ok k -> key_ok sk -> Signature k = None -> Signature sk = Some sig ->
  Tag other ∉ ["error"; "registration"; "keys"] ->
  let keys := [typeNode; identityNode identity; preKeyToNode k; preKeyToNode sk] in
  let bundle := mkBundle registrationID deviceID (Some (KeyID k mod 2 ^ 24)) (KeyID sk mod 2 ^ 24)
                  (Some (Pub k)) (Pub sk) sig identity in
  nodeToPreKeyBundle deviceID (mkNode tag attrs (VNodes (registrationNode registrationID :: keys))) = Ret (inr bundle) /\
  nodeToPreKeyBundle deviceID
    (mkNode tag attrs (VNodes [other; registrationNode registrationID; mkNode "keys" [] (VNodes (keys ++ more))]))
  = Ret (inr bundle).
Proof.
  intros Hr Hl Hi Hk Hsk Hs Hss Ho. cbn zeta.
  pose proof (preKeyToNode_tag k) as Tk. pose proof (preKeyToNode_tag sk) as Tsk. rewrite Hs in Tk. rewrite Hss in Tsk.
  pose proof (nodeToPreKey_preKeyToNode k Hk) as Pk. pose proof (nodeToPreKey_preKeyToNode sk Hsk) as Psk.
  set (nk := preKeyToNode k) in *. set (nsk := preKeyToNode sk) in *. clearbody nk nsk.
  assert (Tag other <> "error" /\ Tag other <> "registration" /\ Tag other <> "keys") as (Ho1 & Ho2 & Ho3) by set_solver.
  assert (sized_bytes 4 (Content (registrationNode registrationID)) = Some (intBytes registrationID 4 false)) as Cr
    by (apply sized_bytes_of; [apply intBytes_byte|by rewrite length_intBytes]).
  assert (sized_bytes 32 (Content (identityNode identity)) = Some identity) as Ci
    by (apply sized_bytes_of; [done|by rewrite Hl]).
  assert (Tag (registrationNode registrationID) = "registration" /\ Tag (identityNode identity) = "identity"
    /\ Tag typeNode = "type") as (Tr & Ti & Tt) by done.
  set (nr := registrationNode registrationID) in *. set (ni := identityNode identity) in *. set (nt := typeNode) in *.
  clearbody nr ni nt.
  set (rb := intBytes registrationID 4 false) in *. assert (bytesInt rb false = registrationID) as Hrb by by apply bytesInt_4.
  clearbody rb.
  split; unfold nodeToPreKeyBundle, GetChildByTag; rewrite !child_lookup; unfold GetChildren; cbn [Content app find];
    rewrite ?(proj2 (String.eqb_neq _ _) Ho1), ?(proj2 (String.eqb_neq _ _) Ho2), ?(proj2 (String.eqb_neq _ _) Ho3);
    repeat (rewrite ?Tr, ?Ti, ?Tt, ?Tk, ?Tsk, ?Cr, ?Ci, ?child_lookup; cbn -[sized_bytes nodeToPreKey bytesInt]);
    rewrite Pk, Psk; cbn -[bytesInt]; by rewrite Hss, Hrb.
Qed.

(** The error of the server comes first; otherwise the only panic is the
    dereference of the signature that a keys node without [skey] does not have. *)
Theorem bundle_panics_without_skey deviceID n :
  panics (nodeToPreKeyBundle deviceID n) ->
  exists keysNode, keysNode ∈ n :: GetChildren n /\
    (forall c, c ∈ GetChildren keysNode -> Tag c <> "skey") /\
    (exists i, child_bytes "id" 3 keysNode = inr i) /\ (exists p, child_bytes "value" 32 keysNode = inr p).
Proof.
  unfold nodeToPreKeyBundle. intros [msg Hp]. destruct (GetOptionalChildByTag n ["error"]) as [en ok].
  destruct (ok && _); [done|]. destruct (sized_bytes 4 _) as [rb|]; [|done].
  set (keysNode := match GetOptionalChildByTag n ["keys"] with (k, true) => k | (_, false) => n end) in *.
  destruct (sized_bytes 32 _) as [ib|]; [|done].
  match type of Hp with context [match ?x with inl e => Ret (inl (InvalidPreKey e)) | inr _ => _ end] =>
    destruct x as [|pk]; [done|] end.
  exists keysNode. split.
  { subst keysNode. rewrite child_lookup. destruct (find _ _) as [k|] eqn:Hf; [|by left].
    right. apply find_some in Hf as [Hf _]. by apply list_elem_of_In. }
  unfold GetChildByTag in Hp. rewrite child_lookup in Hp. destruct (find _ (GetChildren keysNode)) as [sk|] eqn:Hf.
  - apply find_some in Hf as [_ Hf%String.eqb_eq]. unfold nodeToPreKey in Hp. cbn -[child_bytes] in Hp.
    rewrite Hf in Hp. cbn -[child_bytes] in Hp. destruct (child_bytes "id" 3 sk); [done|]. destruct (child_bytes "value" 32 sk); [done|].
    by destruct (child_bytes "signature" 64 sk).
  - unfold nodeToPreKey in Hp. cbn -[child_bytes keysNode] in Hp. destruct (child_bytes "id" 3 keysNode); [done|].
    destruct (child_bytes "value" 32 keysNode); [done|]. split; [|eauto].
    intros c Hc He. apply list_elem_of_In in Hc. pose proof (find_none _ _ Hf c Hc) as Hn. cbn in Hn.
    by rewrite He, String.eqb_refl in Hn.
Qed.

(** An answer that makes the client panic. *)
Example missing_skey_panics :
  panics (nodeToPreKeyBundle 0 (mkNode "user" [] (VNodes
    [mkNode "registration" [] (VBytes (of_codes (repeat 0 4))); mkNode "identity" [] (VBytes (of_codes (repeat 0 32)));
     mkNode "id" [] (VBytes (of_codes (repeat 0 3))); mkNode "value" [] (VBytes (of_codes (repeat 0 32)))]))).
Proof. eexists. vm_compute. reflexivity. Qed.

(** ** The table: what an upload sends and marks *)

Record rows_ok (l : list prekey_row) : Prop := mkRowsOk {
  ok_ids : NoDup (r_id <$> l);
  ok_row : forall r, r ∈ l -> 0 <= r_id r < 2 ^ 24 /\ length (r_key r) = 32%nat }.

Notation strictly := (StronglySorted (fun a b => r_id a < r_id b)).

Lemma insert_by_id_Permutation r l : insert_by_id r l ≡ₚ r :: l.
Proof.
  induction l as [|r' l IH]; [done|]. cbn [insert_by_id]. destruct (r_id r <=? r_id r'); [done|].
  rewrite IH. apply Permutation_swap.
Qed.

Lemma order_by_id_Permutation l : order_by_id l ≡ₚ l.
Proof. induction l as [|r l IH]; [done|]. cbn. by rewrite insert_by_id_Permutation, IH. Qed.

Lemma insert_by_id_strictly r l : strictly l -> r_id r ∉ r_id <$> l -> strictly (insert_by_id r l).
Proof.
  induction 1 as [|r' l Hl IH Hr]; intros Hn; [by repeat constructor|]. cbn [insert_by_id].
  assert (r_id r <> r_id r' /\ r_id r ∉ r_id <$> l) as [Hne Hn'] by set_solver.
  destruct (Z.leb_spec (r_id r) (r_id r')).
  - constructor; [by constructor|]. constructor; [lia|]. eapply Forall_impl; [exact Hr|]. cbn. lia.
  - constructor; [by apply IH|]. rewrite insert_by_id_Permutation. constructor; [lia|done].
Qed.

Lemma order_by_id_strictly l : NoDup (r_id <$> l) -> strictly (order_by_id l).
Proof.
  induction l as [|r l IH]; [constructor|]. rewrite fmap_cons, NoDup_cons. intros [Hr Hl].
  cbn. apply insert_by_id_strictly; [by apply IH|]. by rewrite order_by_id_Permutation.
Qed.

Lemma insert_by_id_app r a new : (forall x, x ∈ new -> r_id r <= r_id x) -> insert_by_id r (a ++ new) = insert_by_id r a ++ new.
Proof.
  intros Hn. induction a as [|r' a IH].
  - cbn. destruct new as [|x new]; [done|]. cbn. by rewrite (proj2 (Z.leb_le _ _)) by (apply Hn; left).
  - cbn. destruct (r_id r <=? r_id r'); [done|]. by rewrite IH.
Qed.

Lemma order_by_id_sorted l : strictly l -> order_by_id l = l.
Proof.
  induction 1 as [|r l Hl IH Hr]; [done|]. cbn. change (foldr insert_by_id [] l) with (order_by_id l). rewrite IH.
  destruct Hr; [done|]. cbn. by rewrite (proj2 (Z.leb_le _ _)) by lia.
Qed.

Lemma order_by_id_app l new :
  strictly new -> (forall r x, r ∈ l -> x ∈ new -> r_id r < r_id x) -> order_by_id (l ++ new) = order_by_id l ++ new.
Proof.
  intros Hn. induction l as [|r l IH]; intros Hlt; [by apply order_by_id_sorted|].
  cbn. change (foldr insert_by_id [] ?x) with (order_by_id x). rewrite IH by (intros ????; apply Hlt; [by right|done]).
  apply insert_by_id_app. intros x Hx. specialize (Hlt r x ltac:(by left) Hx). lia.
Qed.

(** Up to the [n]-th row of an ordered list are its first [n] rows. *)
Lemma strictly_prefix l n r :
  strictly l -> l !! n = Some r -> filter (fun x => r_id x <= r_id r) l = take (S n) l.
Proof.
  intros Hl. revert n. induction Hl as [|r' l Hl IH Hr]; intros n Hn; [done|]. rewrite filter_cons.
  destruct n as [|n]; cbn [lookup list_lookup] in Hn.
  - injection Hn as ->. rewrite decide_True by lia. cbn [take]. f_equal. rewrite take_0.
    clear IH Hl. induction Hr as [|x l Hx _ IH]; [done|]. rewrite filter_cons, decide_False by lia. done.
  - rewrite decide_True; [cbn [take]; f_equal; by apply IH|].
    rewrite Forall_forall in Hr. pose proof (Hr r (list_elem_of_lookup_2 _ _ _ Hn)). lia.
Qed.

Definition uploaded_ids (l : list prekey_row) : list Z := r_id <$> filter (fun r => r_uploaded r = true) l.

Lemma markUploaded_ids u l :
  uploaded_ids (markUploaded u l)
  ≡ₚ uploaded_ids l ++ (r_id <$> filter (fun r => r_id r <= u) (filter (fun r => r_uploaded r = false) l)).
Proof.
  unfold uploaded_ids, markUploaded. induction l as [|r l IH]; [done|]. cbn [map]. rewrite !filter_cons.
  destruct (r_uploaded r) eqn:Hu; destruct (Z.leb_spec (r_id r) u); cbn [r_uploaded];
    rewrite ?Hu, ?(decide_True (P := true = true)), ?(decide_False (P := true = false)), ?(decide_True (P := false = false)),
      ?(decide_False (P := false = true)) by done; rewrite ?fmap_cons, ?filter_cons, ?decide_True by done; cbn [r_id].
  - rewrite IH. done.
  - rewrite IH. done.
  - rewrite IH. cbn. apply Permutation_middle.
  - rewrite decide_False by lia. done.
Qed.

(** Marking up to the last of the rows that were read marks exactly them. *)
Lemma mark_unuploaded count l r :
  NoDup (r_id <$> l) -> last (unuploaded count l) = Some r ->
  uploaded_ids (markUploaded (r_id r) l) ≡ₚ uploaded_ids l ++ (r_id <$> unuploaded count l).
Proof.
  intros Hnd Hr. rewrite markUploaded_ids. f_equiv. f_equiv. unfold unuploaded in *.
  set (s := order_by_id (filter (fun r => r_uploaded r = false) l)) in *.
  assert (strictly s) as Hs.
  { apply order_by_id_strictly. eapply sublist_NoDup; [exact Hnd|]. apply fmap_sublist, sublist_filter. }
  rewrite <- (order_by_id_Permutation (filter (fun r => r_uploaded r = false) l)). fold s.
  rewrite last_lookup in Hr. set (k := length (take (Z.to_nat count) s)) in *.
  assert (k <> 0%nat) as Hk by (intros H0; rewrite H0 in Hr; cbn in Hr; subst k; by rewrite (nil_length_inv _ H0) in Hr).
  pose proof Hr as Hl. apply lookup_take_Some in Hl as [Hl Hlt].
  rewrite (strictly_prefix s _ r Hs Hl). replace (S (pred k)) with k by lia. subst k.
  rewrite length_take in *. destruct (Nat.le_gt_cases (Z.to_nat count) (length s)).
  - by rewrite Nat.min_l by lia.
  - rewrite Nat.min_r by lia. by rewrite !take_ge by lia.
Qed.

Lemma maxKeyID_spec l :
  match maxKeyID l with
  | None => l = []
  | Some m => m ∈ r_id <$> l /\ forall r, r ∈ l -> r_id r <= m
  end.
Proof.
  induction l as [|r l IH]; [done|]. cbn [maxKeyID foldr].
  change (foldr _ None l) with (maxKeyID l). destruct (maxKeyID l) as [m|].
  - destruct IH as [Hm Hl]. split.
    + destruct (Z.max_spec (r_id r) m) as [[_ ->]|[_ ->]]; [by right|by left].
    + intros x [->|Hx]%elem_of_cons; [lia|]. specialize (Hl x Hx). lia.
  - subst l. split; [by left|]. intros x [->|Hx%not_elem_of_nil]%elem_of_cons; [lia|done].
Qed.

Lemma rows_ok_app l new :
  rows_ok l -> rows_ok new -> (forall r x, r ∈ l -> x ∈ new -> r_id r < r_id x) -> rows_ok (l ++ new).
Proof.
  intros [Hn Hr] [Hn' Hr'] Hlt. split.
  - rewrite fmap_app. apply NoDup_app. split; [done|]. split; [|done].
    intros i [r [-> Hin]]%list_elem_of_fmap [x [He Hx]]%list_elem_of_fmap. specialize (Hlt r x Hin Hx). lia.
  - intros r [H|H]%elem_of_app; eauto.
Qed.

Lemma order_by_id_elem r l : r ∈ order_by_id l <-> r ∈ l.
Proof. by rewrite order_by_id_Permutation. Qed.

Section TableProofs.
Context (ScalarBaseMult : Bytes -> Bytes).
Definition key_of_row (r : prekey_row) : PreKey := NewKeyPairFromPrivateKey ScalarBaseMult (r_key r) (r_id r).

Lemma prekey_query_ok {A} (q : list prekey_row -> A) db : pk_faults db = [] -> query q db = (inr (q (pk_rows db)), db).
Proof. intros Hf. unfold query, next_fault. by rewrite Hf. Qed.

Lemma insertRow_ok r l :
  0 <= r_id r < 2 ^ 24 -> length (r_key r) = 32%nat -> (forall x, x ∈ l -> r_id x < r_id r) -> insertRow r l = Some (l ++ [r]).
Proof.
  intros Hi Hk Hl. unfold insertRow. rewrite decide_True; [done|]. split_and!; [lia|lia|done|].
  intros [x [He Hx]]%list_elem_of_fmap. specialize (Hl x Hx). lia.
Qed.

Lemma length_clamp b : length (clamp b) = length b.
Proof. unfold clamp. etransitivity; apply (length_alter (A:=Z)). Qed.

Lemma genOnePreKey_ok random id up db :
  pk_faults db = [] -> length random = 32%nat -> 0 <= id < 2 ^ 24 -> (forall x, x ∈ pk_rows db -> r_id x < id) ->
  let r := mkPreKeyRow id (clamp random) up in
  genOnePreKey ScalarBaseMult random id up db = (inr (key_of_row r), mkPreKeyDB (pk_rows db ++ [r]) []).
Proof.
  intros Hf Hr Hi Hl. unfold genOnePreKey, exec, next_fault, mbind, Sql_bind. rewrite Hf.
  rewrite insertRow_ok; [|done|change (length (clamp random) = 32%nat); by rewrite length_clamp|done]. by destruct db; cbn in *; subst.
Qed.

Lemma getNextPreKeyID_ok db :
  pk_faults db = [] -> rows_ok (pk_rows db) ->
  exists id, getNextPreKeyID db = (inr id, db) /\ 0 < id <= 2 ^ 24 /\ (forall x, x ∈ pk_rows db -> r_id x < id) /\
    id = default 0 (maxKeyID (pk_rows db)) + 1.
Proof.
  intros Hf [_ Hr]. unfold getNextPreKeyID, mbind, Sql_bind. rewrite prekey_query_ok by done.
  pose proof (maxKeyID_spec (pk_rows db)) as Hm. destruct (maxKeyID (pk_rows db)) as [m|].
  - destruct Hm as [Hin Hle]. apply list_elem_of_fmap in Hin as (r & -> & Hin). pose proof (Hr r Hin) as [? _].
    change (default 0 (Some (r_id r))) with (r_id r).
    eexists. split; [done|]. unfold uint32. rewrite (Z.mod_small (r_id r)) by lia. rewrite Z.mod_small by lia.
    split; [lia|]. split; [|done]. intros x Hx. specialize (Hle x Hx). lia.
  - rewrite Hm. exists 1. split; [done|]. split; [lia|]. split; [|done]. by intros x ?%not_elem_of_nil.
Qed.

Lemma genMissing_ok random n : forall id db,
  (forall i, length (random i) = 32%nat) -> pk_faults db = [] -> 0 <= id -> id + Z.of_nat n <= 2 ^ 24 ->
  (forall x, x ∈ pk_rows db -> r_id x < id) ->
  exists new, genMissing ScalarBaseMult random n id db = (inr (key_of_row <$> new), mkPreKeyDB (pk_rows db ++ new) []) /\
    length new = n /\ strictly new /\
    (forall r, r ∈ new -> id <= r_id r < 2 ^ 24 /\ length (r_key r) = 32%nat /\ r_uploaded r = false).
Proof.
  induction n as [|n IH]; intros id db Hr Hf Hi Hb Hl.
  - exists []. cbn. rewrite app_nil_r. split; [by destruct db; cbn in *; subst|]. split; [done|]. split; [constructor|].
    by intros r ?%not_elem_of_nil.
  - cbn [genMissing]. unfold mbind, Sql_bind. rewrite genOnePreKey_ok by (done || lia).
    set (r := mkPreKeyRow id (clamp (random n)) false).
    unfold uint32. rewrite Z.mod_small by lia.
    destruct (IH (id + 1) (mkPreKeyDB (pk_rows db ++ [r]) [])) as (new & -> & Hn & Hs & Hnew); [done|done|lia|lia| |].
    { cbn. intros x [Hx| ->%list_elem_of_singleton]%elem_of_app; [specialize (Hl x Hx); lia|cbn; lia]. }
    exists (r :: new). cbn [pk_rows]. rewrite <- app_assoc. split; [done|]. split; [cbn; by rewrite Hn|]. split.
    + constructor; [done|]. apply Forall_forall. intros x Hx. specialize (Hnew x Hx). cbn. lia.
    + intros x [->|Hx]%elem_of_cons.
      * cbn [r r_id r_key r_uploaded]. rewrite length_clamp. split; [lia|by split].
      * specialize (Hnew x Hx). destruct Hnew as (? & ? & ?). split; [lia|done].
Qed.

Lemma scanPreKeys_ok l db :
  (forall r, r ∈ l -> length (r_key r) = 32%nat) -> scanPreKeys ScalarBaseMult l db = (inr (key_of_row <$> l), db).
Proof.
  induction l as [|r l IH]; intros Hl; [done|]. cbn [scanPreKeys]. unfold scanPreKey.
  rewrite (Hl r) by (by left). cbn. unfold mbind, Sql_bind. rewrite IH; [done|]. intros x Hx. apply Hl. by right.
Qed.

Lemma strictly_NoDup l : strictly l -> NoDup (r_id <$> l).
Proof.
  induction 1 as [|r l Hl IH Hr]; [constructor|]. rewrite fmap_cons. constructor; [|done].
  intros [x [He Hx]]%list_elem_of_fmap. rewrite Forall_forall in Hr. specialize (Hr x Hx). lia.
Qed.

(** The keys are the first rows, by number, that are not uploaded, once the
    missing ones have been added. *)
Lemma GetOrGenPreKeys_ok random count db :
  (forall i, length (random i) = 32%nat) -> pk_faults db = [] -> rows_ok (pk_rows db) ->
  0 <= count -> default 0 (maxKeyID (pk_rows db)) + count < 2 ^ 24 ->
  exists new, let rows := pk_rows db ++ new in
    GetOrGenPreKeys ScalarBaseMult random count db
      = (inr (key_of_row <$> unuploaded count rows), mkPreKeyDB rows []) /\
    Z.of_nat (length (unuploaded count rows)) = count /\ rows_ok rows /\
    (forall r, r ∈ new -> r_uploaded r = false).
Proof.
  intros Hr Hf Hok Hc Hmax. unfold GetOrGenPreKeys, mbind, Sql_bind. rewrite prekey_query_ok by done.
  assert (forall r, r ∈ unuploaded count (pk_rows db) -> length (r_key r) = 32%nat) as Hlen.
  { intros r Hin. unfold unuploaded in Hin. apply elem_of_take in Hin as (i & Hin & _).
    apply list_elem_of_lookup_2 in Hin. rewrite order_by_id_elem, list_elem_of_filter in Hin.
    destruct Hin as [_ Hin]. by apply (ok_row _ Hok r Hin). }
  rewrite scanPreKeys_ok by done. rewrite length_fmap.
  assert (Z.of_nat (length (unuploaded count (pk_rows db))) <= count) as Hle.
  { unfold unuploaded. rewrite length_take. lia. }
  destruct (Z.gtb_spec count (Z.of_nat (length (unuploaded count (pk_rows db))))) as [Hgt|Hge].
  - destruct (getNextPreKeyID_ok db Hf Hok) as (id & -> & Hid & Hbelow & Hidm).
    destruct (genMissing_ok random (Z.to_nat (count - Z.of_nat (length (unuploaded count (pk_rows db))))) id db)
      as (new & -> & Hn & Hs & Hnew); [done|done|lia|lia|done|].
    exists new. cbn zeta.
    assert (forall r x, r ∈ pk_rows db -> x ∈ new -> r_id r < r_id x) as Hlt.
    { intros r x Hin Hx. specialize (Hbelow r Hin). specialize (Hnew x Hx). lia. }
    assert (unuploaded count (pk_rows db ++ new) = unuploaded count (pk_rows db) ++ new) as Hu.
    { unfold unuploaded in *. rewrite length_take in *. set (ul := filter (fun r => r_uploaded r = false) (pk_rows db)) in *.
      assert (filter (fun r => r_uploaded r = false) (pk_rows db ++ new) = ul ++ new) as ->.
      { rewrite filter_app. f_equal. apply filter_all, Forall_forall. intros x Hx. by apply Hnew. }
      rewrite order_by_id_app; [|done|].
      - rewrite (take_ge (order_by_id ul)) by lia. rewrite take_ge; [done|]. rewrite length_app, Hn. lia.
      - intros r x [_ Hin]%list_elem_of_filter. by apply Hlt. }
    rewrite Hu, fmap_app. split; [done|]. split; [rewrite length_app, Hn; lia|]. split.
    + apply rows_ok_app; [done| |done]. split; [by apply strictly_NoDup|].
      intros r Hin. destruct (Hnew r Hin) as (? & ? & ?). split; [lia|done].
    + intros r Hin. by apply Hnew.
  - exists []. cbn zeta. rewrite app_nil_r. split; [by destruct db; cbn in *; subst|]. split; [lia|]. split; [done|].
    by intros r ?%not_elem_of_nil.
Qed.

Lemma key_of_row_id (l : list prekey_row) : KeyID <$> (key_of_row <$> l) = r_id <$> l.
Proof. rewrite <- list_fmap_compose. by apply list_fmap_ext. Qed.

Lemma markUploaded_rows_ok u l : rows_ok l -> rows_ok (markUploaded u l).
Proof.
  intros [Hn Hr]. unfold markUploaded. split.
  - replace (r_id <$> map _ l) with (r_id <$> l); [done|].
    change (map ?f l) with (f <$> l). rewrite <- list_fmap_compose. apply list_fmap_ext. intros i r _. cbn. by case_match.
  - intros r [x [-> Hx]]%list_elem_of_fmap. destruct (_ <=? _); by apply (Hr x).
Qed.

Lemma markUploaded_elem u l r :
  r ∈ l -> exists r', r' ∈ markUploaded u l /\ r_id r' = r_id r /\ r_key r' = r_key r.
Proof.
  intros Hr. eexists. split; [apply list_elem_of_fmap; by exists r|]. by destruct (_ <=? _).
Qed.

Lemma filter_id_unique l r : NoDup (r_id <$> l) -> r ∈ l -> head (filter (fun x => r_id x = r_id r) l) = Some r.
Proof.
  induction l as [|x l IH]; intros Hn Hr; [by apply not_elem_of_nil in Hr|].
  rewrite fmap_cons, NoDup_cons in Hn. destruct Hn as [Hx Hn]. rewrite filter_cons.
  apply elem_of_cons in Hr as [->|Hr]; [by rewrite decide_True|].
  rewrite decide_False; [by apply IH|]. intros He. apply Hx. rewrite He. apply list_elem_of_fmap. by exists r.
Qed.

Lemma GetPreKey_ok db r :
  pk_faults db = [] -> rows_ok (pk_rows db) -> r ∈ pk_rows db -> GetPreKey ScalarBaseMult (r_id r) db = (inr (Some (key_of_row r)), db).
Proof.
  intros Hf [Hn Hr] Hin. unfold GetPreKey, mbind, Sql_bind. rewrite prekey_query_ok, filter_id_unique by done.
  unfold scanPreKey. destruct (Hr r Hin) as [_ ->]. done.
Qed.

(** An upload sends exactly as many keys as the server is to get.  None of them
    was uploaded before; afterwards exactly they are marked as uploaded in
    addition, and the store still gives each of them, with its private half, to
    whoever decrypts a message that uses it. *)
Theorem upload_marks_sent registrationID identity sk (initialUpload : bool) now1 now2 lastUpload countResp random db :
  let wanted := if initialUpload then 812 else WantedPreKeyCount in
  (forall i, length (random i) = 32%nat) -> pk_faults db = [] -> rows_ok (pk_rows db) ->
  default 0 (maxKeyID (pk_rows db)) + wanted < 2 ^ 24 ->
  Add lastUpload (10 * Minute) <= now1 \/ (getServerPreKeyCount countResp).1 < WantedPreKeyCount ->
  exists ks db',
    uploadPreKeys ScalarBaseMult registrationID identity sk initialUpload now1 now2 lastUpload countResp None random db
      = Ret (Some (uploadQuery registrationID identity sk ks), now2, db') /\
    Z.of_nat (length ks) = wanted /\
    (forall k, k ∈ ks -> KeyID k ∉ uploaded_ids (pk_rows db)) /\
    uploaded_ids (pk_rows db') ≡ₚ uploaded_ids (pk_rows db) ++ (KeyID <$> ks) /\
    (forall k, k ∈ ks -> GetPreKey ScalarBaseMult (KeyID k) db' = (inr (Some k), db')) /\
    rows_ok (pk_rows db') /\ pk_faults db' = [].
Proof.
  intros wanted Hr Hf Hok Hmax Hgate. unfold uploadPreKeys. fold wanted.
  assert (0 < wanted) as Hw by (subst wanted; by destruct initialUpload).
  replace (bool_decide _ && _) with false.
  2:{ symmetry. apply andb_false_iff. destruct Hgate as [Hg|Hg]; [left|right; lia].
      apply bool_decide_eq_false. unfold After. lia. }
  destruct (GetOrGenPreKeys_ok random wanted db) as (new & -> & Hlen & Hok' & Hnew); [done|done|done|lia|done|].
  set (rows := pk_rows db ++ new) in *. set (us := unuploaded wanted rows) in *.
  rewrite length_fmap.
  assert (length us <> 0%nat) as Hne by lia.
  destruct (last us) as [r|] eqn:Hl; [|apply last_None in Hl; by rewrite Hl in Hne].
  assert (at_ (key_of_row <$> us) (Z.of_nat (length us) - 1) = Ret (key_of_row r)) as ->.
  { unfold at_. rewrite (proj2 (Z.ltb_ge _ _)) by lia. rewrite list_lookup_fmap. rewrite last_lookup in Hl.
    replace (Z.to_nat (Z.of_nat (length us) - 1)) with (pred (length us)) by lia. by rewrite Hl. }
  cbn [mbind outcome_bind]. unfold MarkPreKeysAsUploaded, exec, next_fault. cbn [pk_faults pk_rows KeyID key_of_row NewKeyPairFromPrivateKey].
  exists (key_of_row <$> us). eexists. split; [done|]. cbn [pk_rows pk_faults].
  assert (forall x, x ∈ us -> x ∈ filter (fun r => r_uploaded r = false) rows) as Hus.
  { intros x Hx. unfold us, unuploaded in Hx. apply elem_of_take in Hx as (i & Hx & _).
    apply list_elem_of_lookup_2 in Hx. by rewrite order_by_id_elem in Hx. }
  split; [by rewrite length_fmap|]. split; [|split; [|split; [|by split; [apply markUploaded_rows_ok|]]]].
  - intros k [x [-> [Hu Hx]%Hus%list_elem_of_filter]]%list_elem_of_fmap [y [He [Hyu Hy]%list_elem_of_filter]]%list_elem_of_fmap.
    cbn in He. assert (x = y) as ->; [|congruence].
    pose proof (filter_id_unique rows x (ok_ids _ Hok') Hx) as Hfx.
    pose proof (filter_id_unique rows y (ok_ids _ Hok') ltac:(apply elem_of_app; by left)) as Hfy.
    rewrite He in Hfx. rewrite Hfx in Hfy. by injection Hfy.
  - rewrite key_of_row_id. pose proof (mark_unuploaded wanted rows r (ok_ids _ Hok') Hl) as ->. fold us. f_equiv.
    unfold uploaded_ids, rows. rewrite filter_app.
    assert (filter (fun r => r_uploaded r = true) new = []) as ->; [|by rewrite app_nil_r].
    destruct (filter _ new) as [|x l] eqn:He; [done|]. exfalso.
    assert (x ∈ filter (fun r => r_uploaded r = true) new) as [Hxt Hx]%list_elem_of_filter by (rewrite He; by left).
    by rewrite (Hnew x Hx) in Hxt.
  - intros k [x [-> [_ Hx]%Hus%list_elem_of_filter]]%list_elem_of_fmap.
    destruct (markUploaded_elem (r_id r) rows x Hx) as (x' & Hx' & Hi & Hk).
    assert (key_of_row x = key_of_row x') as -> by (unfold key_of_row; by rewrite Hi, Hk).
    change (KeyID (key_of_row x')) with (r_id x'). apply GetPreKey_ok; [done|by apply markUploaded_rows_ok|done].
Qed.

(** The number of a key that was used and removed is given to the next one, if
    it was the largest. *)
Theorem prekey_id_reused random random' db k db1 db2 :
  rows_ok (pk_rows db) -> pk_faults db = [] ->
  GenOnePreKey ScalarBaseMult random db = (inr k, db1) -> RemovePreKey (KeyID k) db1 = (inr (), db2) ->
  length random = 32%nat -> length random' = 32%nat ->
  exists k' db3, GenOnePreKey ScalarBaseMult random' db2 = (inr k', db3) /\ KeyID k' = KeyID k.
Proof.
  intros Hok Hf Hg Hr Hl Hl'. unfold GenOnePreKey, mbind, Sql_bind in *.
  destruct (getNextPreKeyID_ok db Hf Hok) as (id & Hn & Hid & Hbelow & Hmax). rewrite Hn in Hg.
  assert (id < 2 ^ 24) as Hlt.
  { destruct (Z.lt_ge_cases id (2 ^ 24)) as [|Hge]; [done|]. unfold genOnePreKey, exec, next_fault, mbind, Sql_bind, insertRow in Hg.
    rewrite Hf, decide_False in Hg; [done|]. cbn. intros [? _]. lia. }
  rewrite genOnePreKey_ok in Hg by (done || lia). injection Hg as <- <-.
  unfold RemovePreKey, exec, next_fault in Hr. cbn [pk_faults pk_rows KeyID key_of_row NewKeyPairFromPrivateKey r_id] in Hr.
  rewrite filter_app, filter_cons, decide_False in Hr by (cbn; lia). rewrite filter_nil, app_nil_r, filter_all in Hr.
  2:{ apply Forall_forall. intros x Hx. specialize (Hbelow x Hx). lia. }
  injection Hr as <-. cbn [pk_faults pk_rows] in *.
  destruct (getNextPreKeyID_ok (mkPreKeyDB (pk_rows db) [])) as (id' & Hn' & _ & Hbelow' & Hmax'); [done|done|].
  change (upd (p:=pk_rows) (fun _ => pk_rows db) (mkPreKeyDB (pk_rows db ++ [mkPreKeyRow id (clamp random) true]) []))
    with (mkPreKeyDB (pk_rows db) []).
  rewrite Hn'. cbn [pk_rows] in *. assert (id' = id) as -> by lia.
  rewrite genOnePreKey_ok by (done || lia). eexists _, _. split; [done|]. done.
Qed.
End TableProofs.

(** ** Witnesses *)

Definition demo_key (id : Z) (sig : option Bytes) : PreKey := mkPreKey (repeat 9 32) [] id sig.
Definition demo_random (i : nat) : Bytes := repeat (Z.of_nat i) 32.
Definition demo_db : PreKeyDB := mkPreKeyDB [mkPreKeyRow 1 (repeat 1 32) true; mkPreKeyRow 2 (repeat 2 32) false] [].

Lemma demo_rows_ok : rows_ok (pk_rows demo_db).
Proof.
  split; [apply (bool_decide_unpack _); vm_compute; reflexivity|].
  intros r [->|[->|Hr%not_elem_of_nil]%elem_of_cons]%elem_of_cons; [vm_compute; by repeat split|vm_compute; by repeat split|done].
Qed.

Lemma demo_key_ok id sig : 0 <= id < 2 ^ 32 -> sig = None \/ sig = Some (repeat 3 64) -> key_ok (demo_key id sig).
Proof.
  intros Hid Hs. split; [done|cbn; split; [done|repeat constructor; lia]|].
  intros s Hss. cbn in Hss. destruct Hs as [->| ->]; [done|]. injection Hss as <-. split; [done|repeat constructor; lia].
Qed.

Lemma bundle_roundtrip_witness :
  nodeToPreKeyBundle 3 (mkNode "user" [] (VNodes
    [registrationNode 77; typeNode; identityNode (repeat 8 32); preKeyToNode (demo_key (2 ^ 24 + 5) None);
     preKeyToNode (demo_key 6 (Some (repeat 3 64)))]))
  = Ret (inr (mkBundle 77 3 (Some 5) 6 (Some (repeat 9 32)) (repeat 9 32) (repeat 3 64) (repeat 8 32))).
Proof.
  apply (bundle_roundtrip "user" [] 77 3 (repeat 8 32) (demo_key (2 ^ 24 + 5) None) (demo_key 6 (Some (repeat 3 64)))
    (repeat 3 64) (mkNode "retry" [] VNil) []).
  - lia.
  - reflexivity.
  - repeat constructor; lia.
  - apply demo_key_ok; [lia|by left].
  - apply demo_key_ok; [lia|by right].
  - reflexivity.
  - reflexivity.
  - cbn. set_solver.
Defined.

Lemma upload_marks_sent_witness :
  exists ks db',
    uploadPreKeys id 77 (repeat 8 32) (demo_key 6 (Some (repeat 3 64))) false 100 101 zeroTime (inl ErrIQTimedOut) None
      demo_random demo_db
      = Ret (Some (uploadQuery 77 (repeat 8 32) (demo_key 6 (Some (repeat 3 64))) ks), 101, db') /\
    length ks = 50%nat.
Proof.
  destruct (upload_marks_sent id 77 (repeat 8 32) (demo_key 6 (Some (repeat 3 64))) false 100 101 zeroTime
    (inl ErrIQTimedOut) demo_random demo_db) as (ks & db' & Hu & Hl & _).
  - intros i. apply repeat_length.
  - reflexivity.
  - apply demo_rows_ok.
  - vm_compute. reflexivity.
  - right. vm_compute. reflexivity.
  - exists ks, db'. split; [exact Hu|]. unfold WantedPreKeyCount in Hl. lia.
Defined.

Lemma prekey_id_reused_witness :
  exists k' db3, GenOnePreKey id (demo_random 4) demo_db = (inr k', db3) /\ KeyID k' = 3.
Proof.
  destruct (prekey_id_reused id (demo_random 3) (demo_random 4) demo_db (NewPreKey id (demo_random 3) 3)
    (mkPreKeyDB (pk_rows demo_db ++ [mkPreKeyRow 3 (clamp (demo_random 3)) true]) []) demo_db)
    as (k' & db3 & Hg & Hk).
  - apply demo_rows_ok.
  - reflexivity.
  - vm_compute. reflexivity.
  - vm_compute. reflexivity.
  - reflexivity.
  - reflexivity.
  - exists k', db3. split; [exact Hg|exact Hk].
Defined.
