(* ===== verification/MessageSource.v ===== *)
(** * Who sent a message, and where: [whatsmeow/types/message.go] and the parsers
    of [whatsmeow/message.go]

    [parseMessageSource] reads the chat and the sender off the attributes of a
    stanza; [parseMessageInfo] adds the rest of the metadata. *)
From S2P Require Import Prelude GoStrings GoTime Jid BinaryNode NodeAttrs.

Definition AddressingModePN : string := "pn".
Definition AddressingModeLID : string := "lid".

Record BroadcastRecipient : Type := mkRecipient { br_LID : JID; br_PN : JID }.

Record MessageSource : Type := mkSource {
  Chat : JID;
  Sender : JID;
  IsFromMe : bool;
  IsGroup : bool;
  AddressingMode : string;
  SenderAlt : JID;
  RecipientAlt : JID;
  BroadcastListOwner : JID;
  BroadcastRecipients : list BroadcastRecipient }.
#[export] Instance eta_MessageSource : Eta MessageSource := fun r =>
  mkSource (Chat r) (Sender r) (IsFromMe r) (IsGroup r) (AddressingMode r) (SenderAlt r) (RecipientAlt r)
    (BroadcastListOwner r) (BroadcastRecipients r).

Definition zeroSource : MessageSource := mkSource EmptyJID EmptyJID false false "" EmptyJID EmptyJID EmptyJID [].

Definition IsIncomingBroadcast (ms : MessageSource) : bool :=
  (negb (IsFromMe ms) || negb (Jid.IsEmpty (BroadcastListOwner ms))) && IsBroadcastList (Chat ms).
Definition SourceString (ms : MessageSource) : string :=
  if decide (Sender ms = Chat ms) then Jid.String_ (Chat ms)
  else Jid.String_ (Sender ms) +:+ " in " +:+ Jid.String_ (Chat ms).

(** ** The source *)

Inductive parse_error : Type :=
| ErrNotLoggedIn
| AttrErrors (errs : list attr_error).

(** [JID{...}] or the attribute, when it is there. *)
Definition recipient_of (child : node) : BroadcastRecipient :=
  let cag := AttrGetter child in
  let '(mainJID, cag) := getJID "jid" cag in
  if String.eqb (Server mainJID) HiddenUserServer
  then mkRecipient mainJID (OptionalJIDOrEmpty "peer_recipient_pn" cag).1
  else mkRecipient (OptionalJIDOrEmpty "peer_recipient_lid" cag).1 mainJID.
Definition broadcastRecipients (participants : node) : list BroadcastRecipient :=
  map recipient_of (filter (fun child => Tag child = "to") (GetChildren participants)).

Section Source.
(** The JID and the LID of the account; either may be empty. *)
Context (clientID clientLID : JID).

Definition is_own (j : JID) : bool := String.eqb (User j) (User clientID) || String.eqb (User j) (User clientLID).

(** Groups and broadcast lists. *)
Definition groupSource (n : node) (requireParticipant : bool) (from : JID) (source : MessageSource) (ag : AttrUtility)
  : MessageSource * AttrUtility :=
  let source := source <| IsGroup := true |> <| Chat := from |> in
  let '(sender, ag) := if requireParticipant then getJID "participant" ag else OptionalJIDOrEmpty "participant" ag in
  let source := source <| Sender := sender |> in
  let '(alt, ag) := OptionalJIDOrEmpty
    (if String.eqb (AddressingMode source) AddressingModeLID then "participant_pn" else "participant_lid") ag in
  let source := source <| SenderAlt := alt |> in
  let source := if is_own (Sender source) then source <| IsFromMe := true |> else source in
  if String.eqb (Server from) BroadcastServer then
    let '(owner, ag) := OptionalJIDOrEmpty "recipient" ag in
    let source := source <| BroadcastListOwner := owner |> in
    let '(participants, ok) := GetOptionalChildByTag n ["participants"] in
    (if ok && IsFromMe source then source <| BroadcastRecipients := broadcastRecipients participants |> else source, ag)
  else (source, ag).

(** Hosted users count as ordinary ones. *)
Definition unhost (from : JID) : JID :=
  if String.eqb (Server from) HostedServer then from <| Server := DefaultUserServer |>
  else if String.eqb (Server from) HostedLIDServer then from <| Server := HiddenUserServer |>
  else from.

(** The account's own devices. *)
Definition ownSource (from : JID) (source : MessageSource) (ag : AttrUtility) : MessageSource * AttrUtility :=
  let from := unhost from in
  let source := source <| IsFromMe := true |> <| Sender := from |> in
  let '(recipient, ag) := OptionalJID "recipient" ag in
  let source := source <| Chat := match recipient with Some r => r | None => ToNonAD from end |> in
  let '(alt, ag) := OptionalJIDOrEmpty
    (if String.eqb (Server (Chat source)) HiddenUserServer || String.eqb (Server (Chat source)) HostedLIDServer
     then "peer_recipient_pn" else "peer_recipient_lid") ag in
  (source <| RecipientAlt := alt |>, ag).

(** Bots; the errors are those of the [meta] child from here on. *)
Definition botSource (n : node) (from : JID) (source : MessageSource) : MessageSource * AttrUtility :=
  let source := source <| Sender := from |> in
  let ag := AttrGetter (GetChildByTag n ["meta"]) in
  let '(targetChatJID, ag) := OptionalJID "target_chat_jid" ag in
  (source <| Chat := match targetChatJID with Some t => ToNonAD t | None => from end |>, ag).

Definition userSource (from : JID) (source : MessageSource) (ag : AttrUtility) : MessageSource * AttrUtility :=
  let from := unhost from in
  let source := source <| Chat := ToNonAD from |> <| Sender := from |> in
  let '(alt, ag) := OptionalJIDOrEmpty
    (if String.eqb (Server (Sender source)) HiddenUserServer || String.eqb (Server (Chat source)) HostedLIDServer
     then "sender_pn" else "sender_lid") ag in
  (source <| SenderAlt := alt |>, ag).

Definition parseMessageSource (n : node) (requireParticipant : bool) : parse_error + MessageSource :=
  if Jid.IsEmpty clientID then inl ErrNotLoggedIn
  else
    let '(from, ag) := getJID "from" (AttrGetter n) in
    let '(mode, ag) := OptionalString "addressing_mode" ag in
    let source := zeroSource <| AddressingMode := mode |> in
    let '(source, ag) :=
      if String.eqb (Server from) GroupServer || String.eqb (Server from) BroadcastServer
      then groupSource n requireParticipant from source ag
      else if String.eqb (Server from) NewsletterServer then (source <| Chat := from |> <| Sender := from |>, ag)
      else if is_own from then ownSource from source ag
      else if IsBot from then botSource n from source
      else userSource from source ag in
    let source :=
      if negb (Jid.IsEmpty (SenderAlt source)) && (Device (SenderAlt source) =? 0)
      then source <| SenderAlt := (SenderAlt source) <| Device := Device (Sender source) |> |> else source in
    match Error_ ag with
    | Some errs => inl (AttrErrors errs)
    | None => inr source
    end.

(** ** The rest of the metadata *)

Definition EditTypeFirst : string := "first".
Definition EditTypeInner : string := "inner".
Definition EditTypeLast : string := "last".

Record MsgBotInfo : Type := mkBotInfo { EditType : string; EditTargetID : string; EditSenderTimestampMS : Time }.
Record MsgMetaInfo : Type := mkMetaInfo {
  TargetID : string;
  TargetSender : JID;
  TargetChat : JID;
  DeprecatedLIDSession : option bool;
  ThreadMessageID : string;
  ThreadMessageSenderJID : JID }.

(** The results, also with an error: [Errors] of the reader say which. *)
Definition parseMsgBotInfo (n : node) : MsgBotInfo * option (list attr_error) :=
  let ag := AttrGetter (GetChildByTag n ["bot"]) in
  let '(edit, ag) := getString "edit" ag in
  if String.eqb edit EditTypeInner || String.eqb edit EditTypeLast then
    let '(target, ag) := getString "edit_target_id" ag in
    let '(ts, ag) := getUnixMilli "sender_timestamp_ms" ag in
    (mkBotInfo edit target ts, Error_ ag)
  else (mkBotInfo edit "" zeroTime, Error_ ag).

Definition parseMsgMetaInfo (n : node) : MsgMetaInfo * option (list attr_error) :=
  let ag := AttrGetter (GetChildByTag n ["meta"]) in
  let '(target, ag) := OptionalString "target_id" ag in
  let '(sender, ag) := OptionalJIDOrEmpty "target_sender_jid" ag in
  let '(chat, ag) := OptionalJIDOrEmpty "target_chat_jid" ag in
  let '(deprecated, ok, ag) := GetBool "deprecated_lid_session" false ag in
  let '(thread, ag) := OptionalString "thread_msg_id" ag in
  let '(threadSender, ag) := OptionalJIDOrEmpty "thread_msg_sender_jid" ag in
  (mkMetaInfo target sender chat (if ok then Some deprecated else None) thread threadSender, Error_ ag).

(** The certificate of a business, two protocol buffers, one in the other. *)
Context {Certificate Details : Type}.
Context (unmarshalCert : Bytes -> option Certificate) (certDetails : Certificate -> Bytes).
Context (unmarshalDetails : Bytes -> option Details).

Definition parseVerifiedNameContent (n : node) : option (Certificate * Details) :=
  match Content n with
  | VBytes rawCert =>
      match unmarshalCert (codes rawCert) with
      | None => None
      | Some cert =>
          match unmarshalDetails (certDetails cert) with
          | None => None
          | Some details => Some (cert, details)
          end
      end
  | _ => None
  end.

Record MessageInfo : Type := mkInfo {
  mi_Source : MessageSource;
  mi_ID : string;
  ServerID : Z;
  mi_Type : string;
  PushName : string;
  mi_Timestamp : Time;
  Category : string;
  Multicast : bool;
  MediaType : string;
  mi_Edit : string;
  mi_BotInfo : MsgBotInfo;
  mi_MetaInfo : MsgMetaInfo;
  VerifiedName : option (Certificate * Details) }.
#[export] Instance eta_MessageInfo : Eta MessageInfo := fun r =>
  mkInfo (mi_Source r) (mi_ID r) (ServerID r) (mi_Type r) (PushName r) (mi_Timestamp r) (Category r) (Multicast r)
    (MediaType r) (mi_Edit r) (mi_BotInfo r) (mi_MetaInfo r) (VerifiedName r).

(** One child of the stanza; its own errors are only logged. *)
Definition parseInfoChild (info : MessageInfo) (child : node) : MessageInfo :=
  if String.eqb (Tag child) "multicast" then info <| Multicast := true |>
  else if String.eqb (Tag child) "verified_name" then info <| VerifiedName := parseVerifiedNameContent child |>
  else if String.eqb (Tag child) "bot" then info <| mi_BotInfo := (parseMsgBotInfo child).1 |>
  else if String.eqb (Tag child) "meta" then info <| mi_MetaInfo := (parseMsgMetaInfo child).1 |>
  else if String.eqb (Tag child) "franking" then info
  else if String.eqb (Tag child) "trace" then info
  else
    match GetString "mediatype" false (AttrGetter child) with
    | (mediaType, true, _) => info <| MediaType := mediaType |>
    | _ => info
    end.

Definition zeroBotInfo : MsgBotInfo := mkBotInfo "" "" zeroTime.
Definition zeroMetaInfo : MsgMetaInfo := mkMetaInfo "" EmptyJID EmptyJID None "" EmptyJID.

Definition parseMessageInfo (n : node) : parse_error + MessageInfo :=
  match parseMessageSource n true with
  | inl e => inl e
  | inr source =>
      let ag := AttrGetter n in
      let '(id, ag) := getString "id" ag in
      let '(serverID, ag) := OptionalInt "server_id" ag in
      let '(t, ag) := UnixTime "t" ag in
      let '(notify, ag) := OptionalString "notify" ag in
      let '(category, ag) := OptionalString "category" ag in
      let '(type_, ag) := OptionalString "type" ag in
      let '(edit, ag) := OptionalString "edit" ag in
      match Error_ ag with
      | Some errs => inl (AttrErrors errs)
      | None =>
          inr (foldl parseInfoChild
            (mkInfo source id serverID type_ notify t category false "" edit zeroBotInfo zeroMetaInfo None)
            (GetChildren n))
      end
  end.
End Source.

(** ** Whose messages they are *)

Definition from_of (n : node) : JID := (getJID "from" (AttrGetter n)).1.
Definition is_group_jid (j : JID) : bool := String.eqb (Server j) GroupServer || String.eqb (Server j) BroadcastServer.

Section SourceProofs.
Context (clientID clientLID : JID).

Lemma groupSource_own n rp from source ag :
  IsFromMe source = false ->
  let s := (groupSource clientID clientLID n rp from source ag).1 in
  IsFromMe s = is_own clientID clientLID (Sender s) /\ IsGroup s = true /\ Chat s = from.
Proof.
  intros Hs. unfold groupSource. destruct (if rp then _ else _) as [sender ag1].
  destruct (OptionalJIDOrEmpty _ ag1) as [alt ag2]. cbn zeta.
  cbn -[is_own OptionalJIDOrEmpty GetOptionalChildByTag String.eqb].
  destruct (is_own clientID clientLID sender) eqn:Ho; destruct (String.eqb (Server from) BroadcastServer);
    try destruct (OptionalJIDOrEmpty _ ag2); try destruct (GetOptionalChildByTag n _) as [? []];
    cbn -[is_own] in *; rewrite ?Hs, ?Ho; (split; [|done]); unfold is_own in *; cbn in *; rewrite ?Hs, ?Ho; done.
Qed.

(** A stanza is the account's own exactly when its sender, in a group or a
    broadcast list the participant, has the user of one of the account's two
    addresses; only those have the flag of a group. *)
Theorem own_messages_exact n rp s :
  parseMessageSource clientID clientLID n rp = inr s ->
  let from := from_of n in
  IsGroup s = is_group_jid from /\
  IsFromMe s = (if is_group_jid from then is_own clientID clientLID (Sender s)
                else if String.eqb (Server from) NewsletterServer then false else is_own clientID clientLID from).
Proof.
  unfold parseMessageSource, from_of. destruct (Jid.IsEmpty clientID); [done|].
  destruct (getJID "from" (AttrGetter n)) as [from ag]. cbn [fst].
  destruct (OptionalString "addressing_mode" ag) as [mode ag1]. fold (is_group_jid from).
  set (source0 := zeroSource <| AddressingMode := mode |>).
  set (b := if is_group_jid from then _ else _).
  assert (IsGroup b.1 = is_group_jid from /\ IsFromMe b.1 =
    (if is_group_jid from then is_own clientID clientLID (Sender b.1)
     else if String.eqb (Server from) NewsletterServer then false else is_own clientID clientLID from)) as Hb.
  { subst b. destruct (is_group_jid from).
    - destruct (groupSource_own n rp from source0 ag1 eq_refl) as (-> & -> & _). done.
    - destruct (String.eqb (Server from) NewsletterServer); [done|].
      destruct (is_own clientID clientLID from) eqn:Ho.
      + unfold ownSource. destruct (OptionalJID _ ag1) as [r ag2]. by destruct (OptionalJIDOrEmpty _ ag2).
      + destruct (IsBot from).
        * unfold botSource. by destruct (OptionalJID _ _).
        * unfold userSource. by destruct (OptionalJIDOrEmpty _ _). }
  destruct b as [src ag2]. cbn [fst] in Hb.
  destruct (Error_ ag2); [done|]. intros [= <-]. by destruct (_ && _).
Qed.

(** A group stanza without a participant has an empty sender. *)
Lemma group_sender n s :
  parseMessageSource clientID clientLID n false = inr s -> is_group_jid (from_of n) = true ->
  attr (Attrs n) "participant" = None -> Sender s = EmptyJID.
Proof.
  unfold parseMessageSource, from_of. destruct (Jid.IsEmpty clientID); [done|]. intros Hs Hg Hp.
  destruct (getJID "from" (AttrGetter n)) as [from ag] eqn:H1. cbn [fst] in Hg.
  destruct (OptionalString "addressing_mode" ag) as [mode ag1] eqn:H2. fold (is_group_jid from) in Hs. rewrite Hg in Hs.
  assert (au_Attrs ag1 = Attrs n) as Ha.
  { transitivity (au_Attrs ag).
    - unfold OptionalString, value_of, GetString in H2. injection H2 as _ <-. destruct (attr (au_Attrs ag) _) as [[]|]; done.
    - unfold getJID, GetJID in H1. destruct (attr (au_Attrs (AttrGetter n)) "from") as [[]|]; by injection H1 as _ <-. }
  unfold groupSource in Hs. rewrite OptionalJIDOrEmpty_missing in Hs by (by rewrite Ha).
  destruct (OptionalJIDOrEmpty _ ag1) as [alt ag2].
  destruct (String.eqb (Server from) BroadcastServer); try destruct (OptionalJIDOrEmpty _ ag2) as [? ag3];
    try destruct (GetOptionalChildByTag n _) as [? []]; cbn -[is_own] in Hs;
    destruct (is_own clientID clientLID EmptyJID); cbn in Hs;
    destruct (Error_ _) in Hs; try done; injection Hs as <-; by destruct (_ && _).
Qed.
End SourceProofs.

(** While the account's LID is not known, a group stanza without a participant
    counts as the account's own: its empty sender has the user of the empty
    LID. *)
Theorem unknown_lid_owns_unnamed clientID n s :
  parseMessageSource clientID EmptyJID n false = inr s -> is_group_jid (from_of n) = true -> Sender s = EmptyJID ->
  IsFromMe s = true.
Proof.
  intros Hs Hg He. destruct (own_messages_exact clientID EmptyJID n false s Hs) as [_ Hf].
  rewrite Hg, He in Hf. unfold is_own in Hf. rewrite Hf. apply orb_true_r.
Qed.

Lemma unknown_lid_owns_unnamed_witness :
  exists s, parseMessageSource (NewJID "49150" DefaultUserServer) EmptyJID
    (mkNode "receipt" [("from", VJID (NewJID "123-456" GroupServer))] VNil) false = inr s /\ IsFromMe s = true.
Proof.
  eexists. split; [vm_compute; reflexivity|].
  eapply (unknown_lid_owns_unnamed (NewJID "49150" DefaultUserServer)
    (mkNode "receipt" [("from", VJID (NewJID "123-456" GroupServer))] VNil)); vm_compute; reflexivity.
Defined.

Lemma own_messages_exact_witness :
  exists s, parseMessageSource (NewJID "49150" DefaultUserServer) (NewJID "77" HiddenUserServer)
    (mkNode "message" [("from", VJID (NewJID "77" HiddenUserServer)); ("recipient", VJID (NewJID "5" HiddenUserServer))] VNil) true
    = inr s /\ IsFromMe s = true.
Proof.
  set (n := mkNode "message" _ VNil).
  destruct (parseMessageSource (NewJID "49150" DefaultUserServer) (NewJID "77" HiddenUserServer) n true) as [e|s] eqn:He;
    [vm_compute in He; discriminate He|].
  exists s. split; [reflexivity|].
  destruct (own_messages_exact (NewJID "49150" DefaultUserServer) (NewJID "77" HiddenUserServer) n true s He) as [_ ->].
  vm_compute. reflexivity.
Defined.
