(* ===== verification/Receipts.v ===== *)
(** * Receipts and acknowledgements: [whatsmeow/receipt.go]

    What is parsed, dispatched and sent; sending a node and the event handlers
    are parameters. *)
From S2P Require Import Prelude GoStrings GoTime Jid BinaryNode BinaryCodec NodeAttrs MessageSource.

(** [types.BotJIDMap], of [types/botmap.go]: the users of the bots and their
    phone numbers. *)
Definition botUsers : list (string * string) := [
  ("867051314767696", "13135550002"); ("1061492271844689", "13135550005"); ("245886058483988", "13135550009");
  ("3509905702656130", "13135550012"); ("1059680132034576", "13135550013"); ("715681030623646", "13135550014");
  ("1644971366323052", "13135550015"); ("582497970646566", "13135550019"); ("645459357769306", "13135550022");
  ("294997126699143", "13135550023"); ("1522631578502677", "13135550027"); ("719421926276396", "13135550030");
  ("1788488635002167", "13135550031"); ("24232338603080193", "13135550033"); ("689289903143209", "13135550035");
  ("871626054177096", "13135550039"); ("362351902849370", "13135550042"); ("1744617646041527", "13135550043");
  ("893887762270570", "13135550046"); ("1155032702135830", "13135550047"); ("333931965993883", "13135550048");
  ("853748013058752", "13135550049"); ("1559068611564819", "13135550053"); ("890487432705716", "13135550054");
  ("240254602395494", "13135550055"); ("1578420349663261", "13135550062"); ("322908887140421", "13135550065");
  ("3713961535514771", "13135550067"); ("997884654811738", "13135550070"); ("403157239387035", "13135550081");
  ("535242369074963", "13135550082"); ("946293427247659", "13135550083"); ("3664707673802291", "13135550084");
  ("1821827464894892", "13135550085"); ("1760312477828757", "13135550086"); ("439480398712216", "13135550087");
  ("1876735582800984", "13135550088"); ("984025089825661", "13135550089"); ("1001336351558186", "13135550090");
  ("3739346336347061", "13135550091"); ("3632749426974980", "13135550092"); ("427864203481615", "13135550093");
  ("1434734570493055", "13135550094"); ("992873449225921", "13135550095"); ("813087747426445", "13135550096");
  ("806369104931434", "13135550098"); ("1220982902403148", "13135550099"); ("1365893374104393", "13135550100");
  ("686482033622048", "13135550200"); ("1454999838411253", "13135550201"); ("718584497008509", "13135550202");
  ("743520384213443", "13135550301"); ("1147715789823789", "13135550302"); ("1173034540372201", "13135550303");
  ("974785541030953", "13135550304"); ("1122200255531507", "13135550305"); ("899669714813162", "13135550306");
  ("631880108970650", "13135550307"); ("435816149330026", "13135550308"); ("1368717161184556", "13135550309");
  ("7849963461784891", "13135550310"); ("3609617065968984", "13135550312"); ("356273980574602", "13135550313");
  ("1043447920539760", "13135550314"); ("1052764336525346", "13135550315"); ("2631118843732685", "13135550316");
  ("510505411332176", "13135550317"); ("1945664239227513", "13135550318"); ("1518594378764656", "13135550319");
  ("1378821579456138", "13135550320"); ("490214716896013", "13135550321"); ("1028577858870699", "13135550322");
  ("308915665545959", "13135550323"); ("845884253678900", "13135550324"); ("995031308616442", "13135550325");
  ("2787365464763437", "13135550326"); ("1532790990671645", "13135550327"); ("302617036180485", "13135550328");
  ("723376723197227", "13135550329"); ("8393570407377966", "13135550330"); ("1931159970680725", "13135550331");
  ("401073885688605", "13135550332"); ("2234478453565422", "13135550334"); ("814748673882312", "13135550335");
  ("26133635056281592", "13135550336"); ("1439804456676119", "13135550337"); ("889851503172161", "13135550338");
  ("1018283232836879", "13135550339"); ("1012781386779537", "13135559000"); ("823280953239532", "13135559001");
  ("1597090934573334", "13135559002"); ("485965054020343", "13135559003"); ("1033381648363446", "13135559004");
  ("491802010206446", "13135559005"); ("1017139033184870", "13135559006"); ("499638325922174", "13135559008");
  ("468946335863664", "13135559009"); ("1570389776875816", "13135559010"); ("1004342694328995", "13135559011");
  ("1012240323971229", "13135559012"); ("392171787222419", "13135559013"); ("952081212945019", "13135559016");
  ("444507875070178", "13135559017"); ("1274819440594668", "13135559018"); ("1397041101147050", "13135559019");
  ("425657699872640", "13135559020"); ("532292852562549", "13135559021"); ("705863241720292", "13135559022");
  ("476449815183959", "13135559023"); ("488071553854222", "13135559024"); ("468693832665397", "13135559025");
  ("517422564037340", "13135559026"); ("819805466613825", "13135559027"); ("1847708235641382", "13135559028");
  ("716282970644228", "13135559029"); ("521655380527741", "13135559030"); ("476193631941905", "13135559031");
  ("485600497445562", "13135559032"); ("440217235683910", "13135559033"); ("523342446758478", "13135559034");
  ("514784864360240", "13135559035"); ("505790121814530", "13135559036"); ("420008964419580", "13135559037");
  ("492141680204555", "13135559038"); ("388462787271952", "13135559039"); ("423473920752072", "13135559040");
  ("489574180468229", "13135559041"); ("432360635854105", "13135559042"); ("477878201669248", "13135559043");
  ("351656951234045", "13135559044"); ("430178036732582", "13135559045"); ("434537312944552", "13135559046");
  ("1240614300631808", "13135559047"); ("473135945605128", "13135559048"); ("423669800729310", "13135559049");
  ("3685666705015792", "13135559050"); ("504196509016638", "13135559051"); ("346844785189449", "13135559052");
  ("504823088911074", "13135559053"); ("402669415797083", "13135559054"); ("490939640234431", "13135559055");
  ("875124128063715", "13135559056"); ("468788962654605", "13135559057"); ("562386196354570", "13135559058");
  ("372159285928791", "13135559059"); ("531017479591050", "13135559060"); ("1328873881401826", "13135559061");
  ("1608363646390484", "13135559062"); ("1229628561554232", "13135559063"); ("348802211530364", "13135559064");
  ("3708535859420184", "13135559065"); ("415517767742187", "13135559066"); ("479330341612638", "13135559067");
  ("480785414723083", "13135559068"); ("387299107507991", "13135559069"); ("333389813188944", "13135559070");
  ("391794130316996", "13135559071"); ("457893470576314", "13135559072"); ("435550496166469", "13135559073");
  ("1620162702100689", "13135559074"); ("867491058616043", "13135559075"); ("816224117357759", "13135559076");
  ("334065176362830", "13135559077"); ("489973170554709", "13135559078"); ("473060669049665", "13135559079");
  ("1221505815643060", "13135559080"); ("889000703096359", "13135559081"); ("475235961979883", "13135559082");
  ("3434445653519934", "13135559084"); ("524503026827421", "13135559085"); ("1179639046403856", "13135559086");
  ("471563305859144", "13135559087"); ("533896609192881", "13135559088"); ("365443583168041", "13135559089");
  ("836082305329393", "13135559090"); ("1056787705969916", "13135559091"); ("503312598958357", "13135559092");
  ("3718606738453460", "13135559093"); ("826066052850902", "13135559094"); ("1033611345091888", "13135559095");
  ("3868390816783240", "13135559096"); ("7462677740498860", "13135559097"); ("436288576108573", "13135559098");
  ("1047559746718900", "13135559099"); ("1099299455255491", "13135559100"); ("1202037301040633", "13135559101");
  ("1720619402074074", "13135559102"); ("1030422235101467", "13135559103"); ("827238979523502", "13135559104");
  ("1516443722284921", "13135559105"); ("1174442747196709", "13135559106"); ("1653165225503842", "13135559107");
  ("1037648777635013", "13135559108"); ("551617757299900", "13135559109"); ("1158813558718726", "13135559110");
  ("2463236450542262", "13135559111"); ("1550393252501466", "13135559112"); ("2057065188042796", "13135559113");
  ("506163028760735", "13135559114"); ("2065249100538481", "13135559115"); ("1041382867195858", "13135559116");
  ("886500209499603", "13135559117"); ("1491615624892655", "13135559118"); ("486563697299617", "13135559119");
  ("1175736513679463", "13135559120"); ("491811473512352", "13165550064")].
Definition BotJIDMap (j : JID) : option JID :=
  match find (fun r => bool_decide (NewJID r.1 BotServer = j)) botUsers with
  | Some r => Some (NewJID r.2 DefaultUserServer)
  | None => None
  end.

(** ** The types of receipts, of [types/presence.go] *)
Definition ReceiptTypeDelivered : string := "".
Definition ReceiptTypeSender : string := "sender".
Definition ReceiptTypeRetry : string := "retry".
Definition ReceiptTypeRead : string := "read".
Definition ReceiptTypeReadSelf : string := "read-self".
Definition ReceiptTypePlayed : string := "played".
Definition ReceiptTypePlayedSelf : string := "played-self".
Definition ReceiptTypeServerError : string := "server-error".
Definition ReceiptTypeInactive : string := "inactive".
Definition ReceiptTypePeerMsg : string := "peer_msg".
Definition ReceiptTypeHistorySync : string := "hist_sync".

(** [events.Receipt] *)
Record Receipt : Type := mkReceipt {
  r_Source : MessageSource;
  MessageIDs : list string;
  r_Timestamp : Time;
  r_Type : string;
  MessageSender : JID }.
#[export] Instance eta_Receipt : Eta Receipt := fun r =>
  mkReceipt (r_Source r) (MessageIDs r) (r_Timestamp r) (r_Type r) (MessageSender r).

(** ** Parsing *)

(** The receipts that are dispatched for one [participants] node, in order. *)
Definition groupedReceipt (partialReceipt : Receipt) (child : node) : option Receipt :=
  if negb (String.eqb (Tag child) "user") then None
  else
    let ag := AttrGetter child in
    let '(t, ag) := UnixTime "t" ag in
    let '(jid, ag) := getJID "jid" ag in
    if OK ag then Some (partialReceipt <| r_Timestamp := t |> <| r_Source := (r_Source partialReceipt) <| Sender := jid |> |>)
    else None.
Definition handleGroupedReceipt (partialReceipt : Receipt) (participants : node) : list Receipt :=
  let '(key, _) := getString "key" (AttrGetter participants) in
  omap (groupedReceipt (partialReceipt <| MessageIDs := [key] |>)) (GetChildren participants).

Inductive receipt_error : Type :=
| SourceError (e : parse_error)
| MissingParticipants
| BadAttributes (errs : list attr_error).

Definition item_id (item : node) : option string :=
  match as_string (attr (Attrs item) "id") with
  | (id, true) => if String.eqb (Tag item) "item" then Some id else None
  | _ => None
  end.

Section Receipts.
Context (clientID clientLID : JID).

(** The receipt, unless it was grouped, and the receipts dispatched on the way. *)
Definition parseReceipt (n : node) : receipt_error + (option Receipt * list Receipt) :=
  let ag := AttrGetter n in
  match parseMessageSource clientID clientLID n false with
  | inl e => inl (SourceError e)
  | inr source =>
      let '(t, ag) := UnixTime "t" ag in
      let '(type_, ag) := OptionalString "type" ag in
      let '(sender, ag) := OptionalJIDOrEmpty "recipient" ag in
      let receipt := mkReceipt source [] t type_ sender in
      if IsGroup source && Jid.IsEmpty (Sender source) then
        match GetChildrenByTag "participants" n with
        | [] => inl MissingParticipants
        | participantTags => inr (None, concat (map (handleGroupedReceipt receipt) participantTags))
        end
      else
        let '(mainMessageID, ag) := getString "id" ag in
        if negb (OK ag) then inl (BadAttributes (Errors ag))
        else
          let ids :=
            match GetChildren n with
            | [l] => if String.eqb (Tag l) "list" then mainMessageID :: omap item_id (GetChildren l) else [mainMessageID]
            | _ => [mainMessageID]
            end in
          inr (Some (receipt <| MessageIDs := ids |>), [])
  end.

(** ** Acknowledgements *)

Definition NackParsingError : Z := 487.
Definition NackUnrecognizedStanza : Z := 488.
Definition NackUnrecognizedStanzaClass : Z := 489.
Definition NackUnrecognizedStanzaType : Z := 490.
Definition NackInvalidProtobuf : Z := 491.
Definition NackInvalidHostedCompanionStanza : Z := 493.
Definition NackMissingMessageSecret : Z := 495.
Definition NackSignalErrorOldCounter : Z := 496.
Definition NackMessageDeletedOnPeer : Z := 499.
Definition NackUnhandledError : Z := 500.
Definition NackUnsupportedAdminRevoke : Z := 550.
Definition NackUnsupportedLIDGroup : Z := 551.
Definition NackDBOperationFailed : Z := 552.

(** [attrs[key] = node.Attrs[key]] when it is there. *)
Definition copied (key : string) (n : node) : list (string * value) :=
  match attr (Attrs n) key with Some v => [(key, v)] | None => [] end.
(** The attribute or nil, which is not encoded. *)
Definition attr_or_nil (key : string) (n : node) : value := default VNil (attr (Attrs n) key).

Definition ackRecipient (n : node) : list (string * value) :=
  match attr (Attrs n) "recipient" with
  | None => []
  | Some (VJID recipientJID) =>
      if String.eqb (Server recipientJID) BotServer && String.eqb (Tag n) "message"
      then [("recipient", VJID (default recipientJID (BotJIDMap recipientJID)))]
      else [("recipient", VJID recipientJID)]
  | Some v => [("recipient", v)]
  end.

Definition ackNode (n : node) (error : Z) : node :=
  mkNode "ack"
    ([("class", VString (Tag n)); ("id", attr_or_nil "id" n); ("to", attr_or_nil "from" n)]
     ++ copied "participant" n ++ ackRecipient n
     ++ (if String.eqb (Tag n) "message" then [] else copied "type" n)
     ++ (if error =? 0 then [] else [("error", VInt error)])) VNil.

(** The acknowledgement that [maybeDeferredAck] sends: at once, in the
    background, or at the end unless the context is done or it was cancelled. *)
Definition maybeDeferredAck (SynchronousAck ctx_done cancelled : bool) (n : node) : option node :=
  if SynchronousAck then (if ctx_done || cancelled then None else Some (ackNode n 0)) else Some (ackNode n 0).

(** What [handleReceipt] does: the events it dispatches, the receipt that goes
    to the retry handler, and the acknowledgement.  [handle] is whether the
    handlers fail on an event. *)
Definition handleReceipt (SynchronousAck ctx_done : bool) (handle : Receipt -> bool) (n : node)
  : list Receipt * option Receipt * option node :=
  match parseReceipt n with
  | inl _ => ([], None, maybeDeferredAck SynchronousAck ctx_done false n)
  | inr (None, dispatched) => (dispatched, None, maybeDeferredAck SynchronousAck ctx_done false n)
  | inr (Some receipt, dispatched) =>
      (dispatched ++ [receipt], if String.eqb (r_Type receipt) ReceiptTypeRetry then Some receipt else None,
       maybeDeferredAck SynchronousAck ctx_done (handle receipt) n)
  end.
End Receipts.

(** ** Sending receipts *)

(** [ids] must not be empty; more than one receipt type panics.
    [noReadReceipts] is the privacy setting. *)
Definition MarkRead (ids : list string) (timestamp : Time) (chat sender : JID) (receiptTypeExtra : list string)
    (noReadReceipts : bool) : outcome (option node) :=
  match ids with
  | [] => Ret None
  | id0 :: others =>
      match receiptTypeExtra with
      | _ :: _ :: _ => Panic "too many receipt types specified"
      | _ =>
          let receiptType := match receiptTypeExtra with [t] => t | _ => ReceiptTypeRead end in
          let shown := if (String.eqb (Server chat) NewsletterServer || noReadReceipts) && String.eqb receiptType ReceiptTypeRead
                       then ReceiptTypeReadSelf else receiptType in
          let participant := if negb (Jid.IsEmpty sender) && negb (String.eqb (Server chat) DefaultUserServer)
                                && negb (String.eqb (Server chat) HiddenUserServer) && negb (String.eqb (Server chat) MessengerServer)
                             then [("participant", VJID (ToNonAD sender))] else [] in
          let content := match others with
                         | [] => VNil
                         | _ => VNodes [mkNode "list" [] (VNodes (map (fun id => mkNode "item" [("id", VString id)] VNil) others))]
                         end in
          Ret (Some (mkNode "receipt"
            ([("id", VString id0); ("type", VString shown); ("to", VJID chat); ("t", VInt (toUnix timestamp))] ++ participant)
            content))
      end
  end.

(** [sendActiveReceipts] *)
Definition SetForceActiveDeliveryReceipts (active : bool) : Z := if active then 2 else 0.

Definition buildBaseReceipt (id : string) (n : node) : list (string * value) :=
  [("id", VString id); ("to", attr_or_nil "from" n)] ++ copied "recipient" n ++ copied "participant" n.

Definition sendMessageReceipt (sendActiveReceipts : Z) (id type_ : string) (isFromMe : bool) (n : node) : node :=
  mkNode "receipt"
    (buildBaseReceipt id n ++
     (if isFromMe then [("type", VString (if String.eqb type_ "peer_msg" then ReceiptTypePeerMsg else ReceiptTypeSender))]
      else if sendActiveReceipts =? 0 then [("type", VString ReceiptTypeInactive)] else [])) VNil.

(** ** A receipt on its way *)

(** What the server makes of a node that was sent: the format drops what it
    cannot carry, and the receiver sees who it is [from], not whom it was [to]. *)
Definition relayed (from : JID) (n : node) : node :=
  mkNode (Tag n) (("from", VJID from) :: filter (fun kv => kv.1 <> "to") (norm_attrs (Attrs n)))
    (norm_value false (Content n)).

Lemma attr_filter_to key attrs : key <> "to" -> attr (filter (fun kv => kv.1 <> "to") attrs) key = attr attrs key.
Proof.
  intros Hk. induction attrs as [|[k v] attrs IH]; [done|]. rewrite filter_cons. cbn [fst].
  destruct (decide (k <> "to")) as [Ht|Ht]; cbn [attr]; [by rewrite IH|].
  destruct (decide (k = key)) as [->|]; [by destruct Ht|exact IH].
Qed.

Lemma attr_norm key attrs :
  attr (norm_attrs attrs) key =
  match find (fun kv => String.eqb kv.1 key && negb (skipped kv.2)) attrs with
  | Some kv => Some (norm_value true kv.2)
  | None => None
  end.
Proof.
  induction attrs as [|[k v] attrs IH]; [done|]. rewrite norm_attrs_cons. cbn [find fst snd].
  destruct (skipped v); [by rewrite andb_false_r|]. cbn [attr negb]. rewrite andb_true_r.
  destruct (String.eqb_spec k key); [by rewrite decide_True|by rewrite decide_False].
Qed.

Lemma items_read ids :
  Forall (fun id => id <> "") ids ->
  omap item_id (map norm_node (map (fun id => mkNode "item" [("id", VString id)] VNil) ids)) = ids.
Proof.
  induction 1 as [|id ids Hid _ IH]; [done|]. cbn [map omap list_omap]. rewrite IH.
  cbn. by rewrite (proj2 (String.eqb_neq _ _) Hid).
Qed.

(** The receipts that [MarkRead] sends are read, wherever they arrive, as
    receipts of the same messages in the same order, with the time and the type
    that were sent. *)
Theorem read_receipt_roundtrip clientID clientLID ids ts chat sender extra priv n from source :
  MarkRead ids ts chat sender extra priv = Ret (Some n) ->
  Forall (fun id => id <> "") ids -> 0 < toUnix ts <= max_int64 ->
  parseMessageSource clientID clientLID (relayed from n) false = inr source ->
  IsGroup source && Jid.IsEmpty (Sender source) = false ->
  exists type_, attr (Attrs n) "type" = Some (VString type_) /\
    parseReceipt clientID clientLID (relayed from n) =
      inr (Some (mkReceipt source ids (Unix (toUnix ts)) type_ EmptyJID), []).
Proof.
  intros Hm Hids Hts Hs Hg. unfold MarkRead in Hm. destruct ids as [|id0 others]; [done|].
  set (shown := if (_ || priv) && String.eqb _ ReceiptTypeRead then ReceiptTypeReadSelf else _) in Hm.
  set (participant := if negb (Jid.IsEmpty sender) && _ && _ && _ then _ else []) in Hm.
  assert (participant = [] \/ exists j, participant = [("participant", VJID j)]) as Hp.
  { subst participant. destruct (_ && _ && _ && _); [right; by eexists|by left]. }
  clearbody shown participant.
  set (c := match others with [] => VNil | _ => _ end) in Hm.
  assert (n = mkNode "receipt" ([("id", VString id0); ("type", VString shown); ("to", VJID chat); ("t", VInt (toUnix ts))]
            ++ participant) c) as ->.
  { by destruct extra as [|? [|]]; [injection Hm|injection Hm|done]. }
  clear Hm extra. apply Forall_cons in Hids as [Hid0 Hids]. exists shown. split; [done|].
  set (m := relayed from _) in *.
  assert (forall key, key <> "to" -> key <> "from" -> attr (Attrs m) key =
    match find (fun kv => String.eqb kv.1 key && negb (skipped kv.2))
      ([("id", VString id0); ("type", VString shown); ("to", VJID chat); ("t", VInt (toUnix ts))] ++ participant) with
    | Some kv => Some (norm_value true kv.2) | None => None end) as Hattr.
  { intros key Ht Hf. subst m. cbn [relayed Attrs attr]. rewrite decide_False by done.
    rewrite attr_filter_to by done. apply attr_norm. }
  assert (attr (Attrs m) "t" = Some (VString (fmt_d (toUnix ts)))) as Ha_t.
  { rewrite Hattr by done. cbn [find app fst snd String.eqb Ascii.eqb Bool.eqb andb skipped negb norm_value]. done. }
  assert (attr (Attrs m) "id" = Some (VString id0)) as Ha_id.
  { rewrite Hattr by done. cbn. by rewrite (proj2 (String.eqb_neq _ _) Hid0). }
  assert (attr (Attrs m) "recipient" = None) as Ha_r.
  { rewrite Hattr by done. by destruct Hp as [->|[j ->]]. }
  assert (OptionalString "type" (AttrGetter m) = (shown, AttrGetter m)) as Hty.
  { destruct (String.eqb_spec shown "") as [->|Hne].
    - apply OptionalString_missing. cbn [AttrGetter au_Attrs]. rewrite Hattr by done. by destruct Hp as [->|[j ->]].
    - apply OptionalString_found. cbn [AttrGetter au_Attrs]. rewrite Hattr by done. cbn.
      by rewrite (proj2 (String.eqb_neq _ _) Hne). }
  unfold parseReceipt. rewrite Hs, (UnixTime_found "t" (AttrGetter m) _ Ha_t Hts), Hty, (OptionalJIDOrEmpty_missing "recipient" (AttrGetter m) Ha_r), Hg.
  rewrite (getString_found "id" (AttrGetter m) _ Ha_id). change (negb (OK (AttrGetter m))) with false. cbn match.
  assert (GetChildren m = match others with [] => [] | _ =>
    [mkNode "list" [] (VNodes (map norm_node (map (fun id => mkNode "item" [("id", VString id)] VNil) others)))] end) as ->.
  { subst m c. by destruct others. }
  destruct others as [|id1 others]; [done|]. cbn [Tag String.eqb Ascii.eqb Bool.eqb].
  unfold GetChildren. cbn [Content]. by rewrite items_read.
Qed.

(** As long as the account's LID is not known, every receipt that others send in
    a group is dispatched as the account's own. *)
Theorem grouped_receipts_marked_own clientID n rs r :
  parseReceipt clientID EmptyJID n = inr (None, rs) -> attr (Attrs n) "participant" = None -> r ∈ rs ->
  IsFromMe (r_Source r) = true.
Proof.
  unfold parseReceipt. destruct (parseMessageSource clientID EmptyJID n false) as [e|source] eqn:Hs; [done|].
  destruct (UnixTime "t" (AttrGetter n)) as [t ag]. destruct (OptionalString "type" ag) as [ty ag1].
  destruct (OptionalJIDOrEmpty "recipient" ag1) as [sender ag2].
  destruct (IsGroup source && Jid.IsEmpty (Sender source)) eqn:Hg.
  2:{ destruct (getString "id" ag2) as [id ag3]. destruct (negb (OK ag3)); done. }
  intros Hp Hn Hr.
  apply andb_true_iff in Hg as [Hg _].
  destruct (own_messages_exact clientID EmptyJID n false source Hs) as [Hgr Hown].
  rewrite Hg in Hgr. symmetry in Hgr. rewrite Hgr in Hown.
  assert (IsFromMe source = true) as Hf.
  { rewrite Hown. assert (Sender source = EmptyJID) as ->; [|unfold is_own; apply orb_true_r].
    eapply group_sender; eauto. }
  revert Hp. generalize (GetChildrenByTag "participants" n). intros ps Hp.
  assert (rs = concat (map (handleGroupedReceipt (mkReceipt source [] t ty sender)) ps)) as ->
    by (destruct ps; [done|]; by injection Hp).
  apply list_elem_of_In, in_concat in Hr as (l & Hl & Hr). apply in_map_iff in Hl as (x & <- & _).
  apply list_elem_of_In in Hr. unfold handleGroupedReceipt in Hr.
  destruct (getString "key" (AttrGetter x)) as [key agk]. apply list_elem_of_omap in Hr as (child & _ & Hc).
  unfold groupedReceipt in Hc. destruct (negb _); [done|]. destruct (UnixTime "t" (AttrGetter child)) as [t1 a1].
  destruct (getJID "jid" a1) as [j a2]. destruct (OK a2); [|done]. by injection Hc as <-.
Qed.

(** ** Witnesses *)

Definition demo_group : JID := NewJID "123-456" GroupServer.
Definition demo_me : JID := NewJID "49150" DefaultUserServer.
Definition demo_sent : node :=
  mkNode "receipt" [("id", VString "A1"); ("type", VString "read"); ("to", VJID demo_group); ("t", VInt 1700000000);
                    ("participant", VJID (NewJID "5" DefaultUserServer))]
    (VNodes [mkNode "list" [] (VNodes [mkNode "item" [("id", VString "A2")] VNil; mkNode "item" [("id", VString "A3")] VNil])]).

Lemma read_receipt_roundtrip_witness :
  exists source,
    parseReceipt demo_me EmptyJID (relayed demo_group demo_sent)
    = inr (Some (mkReceipt source ["A1"; "A2"; "A3"] (Unix 1700000000) "read" EmptyJID), []).
Proof.
  destruct (parseMessageSource demo_me EmptyJID (relayed demo_group demo_sent) false) as [e|source] eqn:Hs;
    [vm_compute in Hs; discriminate Hs|].
  exists source.
  destruct (read_receipt_roundtrip demo_me EmptyJID ["A1"; "A2"; "A3"] (Unix 1700000000) demo_group
    (NewJID "5" DefaultUserServer) [] false demo_sent demo_group source) as (ty & Hty & Hp).
  - vm_compute. reflexivity.
  - repeat constructor; discriminate.
  - vm_compute. split; [reflexivity|discriminate].
  - exact Hs.
  - revert Hs. vm_compute. intros Hs. injection Hs as <-. reflexivity.
  - vm_compute in Hty. injection Hty as <-. exact Hp.
Defined.

Lemma grouped_receipts_marked_own_witness :
  exists r, parseReceipt demo_me EmptyJID
    (mkNode "receipt" [("from", VJID demo_group); ("t", VString "1700000000")]
       (VNodes [mkNode "participants" [("key", VString "A1")]
          (VNodes [mkNode "user" [("t", VString "1700000000"); ("jid", VJID (NewJID "5" DefaultUserServer))] VNil])]))
    = inr (None, [r]) /\ IsFromMe (r_Source r) = true.
Proof.
  set (n := mkNode "receipt" _ _).
  destruct (parseReceipt demo_me EmptyJID n) as [e|[[r0|] [|r [|? ?]]]] eqn:Hp; try (exfalso; vm_compute in Hp; discriminate Hp).
  exists r. split; [reflexivity|]. apply (grouped_receipts_marked_own demo_me n [r] r Hp); [reflexivity|by left].
Defined.
