(* ===== verification/Retry.v ===== *)
(** * Retries of messages: [whatsmeow/retry.go] and the retry buffer of
    [sqlstore/store.go]

    The messages that were sent are kept, in a ring in memory and in a table, to
    be encrypted again when a receipt asks for it; counters bound both the
    retries that are answered and those that are asked for.  Messages are
    pointers into a heap that the client shares with the application.  The
    encryption and the protocol buffers are parameters. *)
From S2P Require Import Prelude GoStrings GoTime Jid BinaryNode BinaryCodec NodeAttrs Requests LidMap PreKeys MessageSource Receipts.

(** The sender key that a message to a group carries. *)
Record SKDM : Type := mkSKDM { GroupID : string; AxolotlSenderKeyDistributionMessage : Bytes }.

(** Number of messages that are kept in memory. *)
Definition recentMessagesSize : nat := 256.
(** [recentMessageKey] and [incomingRetryKey]: a chat or a user, and a message. *)
Definition recentMessageKey : Type := JID * string.
Definition incomingRetryKey : Type := JID * string.

(** A row of [whatsmeow_retry_buffer]: the first two are the key. *)
Record buffer_row : Type := mkBuffered {
  b_chat : string;
  b_id : string;
  b_format : string;
  b_plaintext : Bytes;
  b_timestamp : Z }.

Section Retry.
(** What this file does not look at in a message of either kind. *)
Context {Body Fb : Type}.

(** [waE2E.Message] *)
Inductive Message : Type :=
| mkMessage (skdm : option SKDM) (deviceSent : option (string * Message)) (body : Body).
Definition skdm_of (m : Message) : option SKDM := match m with mkMessage k _ _ => k end.
Definition set_skdm (k : option SKDM) (m : Message) : Message := match m with mkMessage _ d b => mkMessage k d b end.

(** [RecentMessage]: a pointer to the message, or the other kind. *)
Record RecentMessage : Type := mkRecent { rm_wa : option nat; rm_fb : option Fb }.
Definition IsEmpty (rm : RecentMessage) : bool :=
  match rm_wa rm, rm_fb rm with None, None => true | _, _ => false end.

Record RetryState : Type := mkRetryState {
  heap : list Message;
  recentMessagesMap : gmap recentMessageKey RecentMessage;
  recentMessagesList : list recentMessageKey;
  recentMessagesPtr : nat;
  UseRetryMessageStore : bool;
  lastRetryStoreClear : Time;
  buffer : list buffer_row;
  buffer_faults : list bool;
  LIDs : CachedLIDMap;
  sessionRecreateHistory : gmap JID Time;
  incomingRetryRequestCounter : gmap incomingRetryKey Z;
  messageRetries : gmap string Z }.
#[export] Instance eta_RetryState : Eta RetryState := fun r =>
  mkRetryState (heap r) (recentMessagesMap r) (recentMessagesList r) (recentMessagesPtr r) (UseRetryMessageStore r)
    (lastRetryStoreClear r) (buffer r) (buffer_faults r) (LIDs r) (sessionRecreateHistory r)
    (incomingRetryRequestCounter r) (messageRetries r).

Inductive retry_error : Type :=
| ErrMarshal
| ErrStore
| ErrNoRows
| ErrAlternate (e : lid_error)
| ErrFormat (format : string)
| ErrDecode
| ErrUnmarshal
| ErrMissingRetry
| ErrAttrs (errs : list attr_error)
| ErrNotFound (id : string)
| ErrBundle (e : bundle_error)
| ErrFetch (e : prekey_error)
| ErrNoBundle
| ErrEncrypt
| ErrSendRetry.

(** ** The retry buffer *)

(** One statement; it fails when the next fault says so. *)
Definition buffer_exec (f : list buffer_row -> option (list buffer_row)) (s : RetryState) : bool * RetryState :=
  match buffer_faults s with
  | true :: fs => (false, s <| buffer_faults := fs |>)
  | _ =>
      let s := s <| buffer_faults := tail (buffer_faults s) |> in
      match f (buffer s) with Some rows => (true, s <| buffer := rows |>) | None => (false, s) end
  end.

(** A JID as a column: the empty one is NULL. *)
Definition column (j : JID) : option string := match Value j with SqlString s => Some s | _ => None end.

(** The key is replaced where it is; a column that is NULL violates the schema. *)
Fixpoint upsert (r : buffer_row) (l : list buffer_row) : list buffer_row :=
  match l with
  | [] => [r]
  | x :: l => if decide (b_chat x = b_chat r /\ b_id x = b_id r) then r :: l else x :: upsert r l
  end.
Definition AddOutgoingEvent (chatJID : JID) (id format : string) (plaintext : Bytes) (now : Time) (s : RetryState)
  : bool * RetryState :=
  buffer_exec (fun rows => match column chatJID with
                           | Some chat => Some (upsert (mkBuffered chat id format plaintext (toUnixMilli now)) rows)
                           | None => None
                           end) s.
Definition DeleteOldOutgoingEvents (now : Time) (s : RetryState) : bool * RetryState :=
  let cutoff := toUnixMilli (Add now (- (7 * 24 * Hour))) in
  buffer_exec (fun rows => Some (filter (fun r => ~ b_timestamp r < cutoff) rows)) s.

(** [QueryRow] reads the first row that matches; there may be two. *)
Definition GetOutgoingEvent (chatJID altChatJID : JID) (id : string) (s : RetryState)
  : (retry_error + string * Bytes) * RetryState :=
  match buffer_faults s with
  | true :: fs => (inl ErrStore, s <| buffer_faults := fs |>)
  | _ =>
      let s := s <| buffer_faults := tail (buffer_faults s) |> in
      match head (filter (fun r => (Some (b_chat r) = column chatJID \/ Some (b_chat r) = column altChatJID) /\ b_id r = id)
                         (buffer s)) with
      | Some r => (inr (b_format r, b_plaintext r), s)
      | None => (inl ErrNoRows, s)
      end
  end.

(** ** Recent messages *)

Context (marshalWa : Message -> option Bytes) (unmarshalWa : Bytes -> option Message).
Context (marshalFb : Fb -> option Bytes) (unmarshalFb : Bytes -> option Fb).

(** The part of [addRecentMessage] under the lock. *)
Definition remember (key : recentMessageKey) (msg : RecentMessage) (s : RetryState) : RetryState :=
  let s := match recentMessagesList s !! recentMessagesPtr s with
           | Some old => if String.eqb old.2 "" then s
                         else s <| recentMessagesMap := delete old (recentMessagesMap s) |>
           | None => s
           end in
  let s := s <| recentMessagesMap := <[key := msg]> (recentMessagesMap s) |> in
  let s := s <| recentMessagesList := <[recentMessagesPtr s := key]> (recentMessagesList s) |> in
  let s := s <| recentMessagesPtr := S (recentMessagesPtr s) |> in
  if (length (recentMessagesList s) <=? recentMessagesPtr s)%nat then s <| recentMessagesPtr := 0%nat |> else s.

(** [now_add], [now_since] and [now_clear] are the readings of the clock. *)
Definition addRecentMessage (now_add now_since now_clear : Time) (to : JID) (id : string) (wa : option nat)
    (fb : option Fb) (s : RetryState) : option retry_error * RetryState :=
  let '(err, s) :=
    if UseRetryMessageStore s then
      match (match wa, fb with
             | Some p, _ => match heap s !! p ≫= marshalWa with Some b => inr (Some ("wa", b)) | None => inl ErrMarshal end
             | None, Some f => match marshalFb f with Some b => inr (Some ("fb", b)) | None => inl ErrMarshal end
             | None, None => inr None
             end) with
      | inl e => (Some e, s)
      | inr None => (None, s)
      | inr (Some (format, buf)) =>
          match AddOutgoingEvent to id format buf now_add s with
          | (false, s) => (Some ErrStore, s)
          | (true, s) =>
              if Since now_since (lastRetryStoreClear s) >? 12 * Hour then
                match DeleteOldOutgoingEvents now_clear s with
                | (false, s) => (Some ErrStore, s)
                | (true, s) => (None, s)
                end
              else (None, s)
          end
      end
    else (None, s) in
  match err with
  | Some e => (Some e, s)
  | None => (None, remember (to, id) (mkRecent wa fb) s)
  end.

Definition getRecentMessage (to : JID) (id : string) (s : RetryState) : RecentMessage :=
  default (mkRecent None None) (recentMessagesMap s !! (to, id)).

(** The parsed message is a new one. *)
Definition parseRecentMessage (format : string) (buf : Bytes) (s : RetryState)
  : (retry_error + RecentMessage) * RetryState :=
  if String.eqb format "wa" then
    match unmarshalWa buf with
    | Some m => (inr (mkRecent (Some (length (heap s))) None), s <| heap := heap s ++ [m] |>)
    | None => (inl ErrUnmarshal, s)
    end
  else if String.eqb format "fb" then
    match unmarshalFb buf with
    | Some f => (inr (mkRecent None (Some f)), s)
    | None => (inl ErrUnmarshal, s)
    end
  else (inl (ErrFormat format), s).

(** The other address of a user, by the LID map. *)
Definition altChat (chat : JID) (s : RetryState) : option lid_error * JID * RetryState :=
  if String.eqb (Server chat) DefaultUserServer then
    let '(e, j, m) := GetLIDForPN chat (LIDs s) in (e, j, s <| LIDs := m |>)
  else if String.eqb (Server chat) HiddenUserServer then
    let '(e, j, m) := GetPNForLID chat (LIDs s) in (e, j, s <| LIDs := m |>)
  else (None, EmptyJID, s).

(** [callback] is the application's [GetMessageForRetry]. *)
Definition getMessageForRetry (callback : JID -> JID -> string -> option nat) (sender chat : JID) (messageID : string)
    (s : RetryState) : (retry_error + option RecentMessage) * RetryState :=
  let msg := getRecentMessage chat messageID s in
  if negb (IsEmpty msg) then (inr (Some msg), s)
  else
    let '(err, alt, s) := altChat chat s in
    match err with
    | Some e => (inl (ErrAlternate e), s)
    | None =>
        let msg := if Jid.IsEmpty alt then mkRecent None None else getRecentMessage alt messageID s in
        if negb (IsEmpty msg) then (inr (Some msg), s)
        else if UseRetryMessageStore s then
          match GetOutgoingEvent chat alt messageID s with
          | (inl e, s) => (inl e, s)
          | (inr (format, buf), s) =>
              match parseRecentMessage format buf s with
              | (inl e, s) => (inl e, s)
              | (inr rm, s) => (inr (Some rm), s)
              end
          end
        else
          match callback sender chat messageID with
          | Some p => (inr (Some (mkRecent (Some p) None)), s)
          | None => (inr None, s)
          end
    end.

Definition recreateSessionTimeout : Duration := 1 * Hour.

(** [contains] is [ContainsSession], [None] when it fails; the readings of the
    clock are those of the test and of the assignment. *)
Definition shouldRecreateSession (contains : option bool) (now1 now2 : Time) (retryCount : Z) (jid : JID) (s : RetryState)
  : bool * RetryState :=
  match contains with
  | None => (false, s)
  | Some false => (true, s <| sessionRecreateHistory := <[jid := now2]> (sessionRecreateHistory s) |>)
  | Some true =>
      if retryCount <? 2 then (false, s)
      else
        let again := match sessionRecreateHistory s !! jid with
                     | None => true
                     | Some prevTime => bool_decide (Before (Add prevTime recreateSessionTimeout) now1)
                     end in
        if again then (true, s <| sessionRecreateHistory := <[jid := now2]> (sessionRecreateHistory s) |>)
        else (false, s)
  end.

(** ** Answering a retry receipt *)

(** The group's sender key in a message, or its device-sent wrapper, which is a
    new message.  [create] makes the sender key message of a group; a failure
    is only logged.  For the other kind of message the two results are kept
    beside it. *)
Record Prepared : Type := mkPrepared {
  p_msg : RecentMessage;
  fbSKDM : option SKDM;
  fbDSM : option string }.
Definition prepareRetry (create : string -> option Bytes) (receipt : Receipt) (emptyBody : Body) (msg : RecentMessage)
    (s : RetryState) : Prepared * RetryState :=
  let chat := Jid.String_ (Chat (r_Source receipt)) in
  if IsGroup (r_Source receipt) then
    match create chat with
    | None => (mkPrepared msg None None, s)
    | Some ser =>
        let skdm := Some (mkSKDM chat ser) in
        match rm_wa msg with
        | Some p => (mkPrepared msg None None, s <| heap := alter (set_skdm skdm) p (heap s) |>)
        | None => (mkPrepared msg skdm None, s)
        end
    end
  else if IsFromMe (r_Source receipt) then
    match rm_wa msg with
    | Some p =>
        match heap s !! p with
        | Some m => (mkPrepared (mkRecent (Some (length (heap s))) (rm_fb msg)) None None,
                     s <| heap := heap s ++ [mkMessage None (Some (chat, m)) emptyBody] |>)
        | None => (mkPrepared msg None None, s)
        end
    | None => (mkPrepared msg None (Some chat), s)
    end
  else (mkPrepared msg None None, s).

(** The counter of requests for a message by a user. *)
Definition countRequest (key : incomingRetryKey) (s : RetryState) : Z * RetryState :=
  let internalCounter := wrap64 (default 0 (incomingRetryRequestCounter s !! key) + 1) in
  (internalCounter, s <| incomingRetryRequestCounter := <[key := internalCounter]> (incomingRetryRequestCounter s) |>).

(** The prekeys for the new session, if one is to be made: from the receipt, or
    fetched; [fetched] is the result of the query. *)
Definition retryBundle (hasKeys : bool) (n : node) (sender : JID) (retryCount : Z) (contains : option bool)
    (now1 now2 : Time) (fetched : iq_error + node) (s : RetryState)
  : outcome ((retry_error + option Bundle) * RetryState) :=
  if hasKeys then
    r ← nodeToPreKeyBundle (Device sender) n;
    Ret (match r with inl e => inl (ErrBundle e) | inr b => inr (Some b) end, s)
  else
    let '(recreate, s) := shouldRecreateSession contains now1 now2 retryCount sender s in
    if recreate then
      keys ← fetchPreKeys fetched;
      Ret (match keys with
           | inl e => inl (ErrFetch e)
           | inr keys =>
               match bundle_of keys sender with
               | Some (inl e) => inl (ErrBundle e)
               | Some (inr b) => inr (Some b)
               | None => inl ErrNoBundle
               end
           end, s)
    else Ret (inr None, s).

(** The parameters of the handler; [fbConsumer] decodes the consumer message, if
    there is one, to its attributes: the application's callbacks and the code of
    other files that makes the attributes and the encrypted nodes. *)
Record RetryEnv : Type := mkRetryEnv {
  GetMessageForRetry : JID -> JID -> string -> option nat;
  PreRetryCallback : Receipt -> string -> Z -> option Message -> bool;
  createSKDM : string -> option Bytes;
  waAttrs : Message -> string * string;
  fbConsumer : Fb -> option (option (string * string));
  frankingTag : Fb -> Bytes -> Bytes;
  encryptWa : Bytes -> JID -> option Bundle -> list (string * value) -> option (node * bool);
  encryptFb : Bytes -> option SKDM -> option string -> JID -> option Bundle -> list (string * value) -> option node;
  getMessageContent : node -> Message -> list (string * value) -> bool -> list node;
  sendNode : node -> bool }.

Inductive retry_result : Type :=
| RetryFailed (e : retry_error)
| RetryDropped
| RetryCancelled
| RetrySent (plaintext : Bytes) (n : node).

(** The user whose session is used: the LID of a phone number, if it is known.
    The session of the phone number is then migrated to it. *)
Definition encryptionIdentity (sender : JID) (s : RetryState) : JID * option (JID * JID) * RetryState :=
  if String.eqb (Server sender) DefaultUserServer then
    match GetLIDForPN sender (LIDs s) with
    | (None, lidForPN, m) =>
        if Jid.IsEmpty lidForPN then (sender, None, s <| LIDs := m |>) else (lidForPN, Some (sender, lidForPN), s <| LIDs := m |>)
    | (Some _, _, m) => (sender, None, s <| LIDs := m |>)
    end
  else (sender, None, s).

Definition withCount (n : node) (retryCount : Z) : node :=
  mkNode (Tag n) (setAttr "count" (VInt retryCount) (Attrs n)) (Content n).

(** The last part: the encryption and the node that is sent. *)
Definition sendRetry (env : RetryEnv) (receipt : Receipt) (n : node) (messageID : string) (timestamp : Time)
    (retryCount : Z) (prep : Prepared) (plaintext : Bytes) (bundle : option Bundle) (s : RetryState)
  : retry_result * option (JID * JID) * RetryState :=
  let sender := Sender (r_Source receipt) in
  let isGroup := IsGroup (r_Source receipt) in
  let finish plaintext type_ (content : list (string * value) -> list node) migrated s :=
    let attrs := [("to", attr_or_nil "from" n); ("type", VString type_); ("id", VString messageID);
                  ("t", VInt (toUnix timestamp))]
                 ++ (if isGroup then [] else [("device_fanout", VBool false)])
                 ++ copied "participant" n ++ copied "recipient" n ++ copied "edit" n in
    let m := mkNode "message" attrs (VNodes (content attrs)) in
    (if sendNode env m then RetrySent plaintext m else RetryFailed ErrSendRetry, migrated, s) in
  match rm_wa (p_msg prep) ≫= fun p => heap s !! p, rm_fb (p_msg prep) with
  | Some m, _ =>
      let '(mediaType, type_) := waAttrs env m in
      let encAttrs := if String.eqb mediaType "" then [] else [("mediatype", VString mediaType)] in
      let '(identity, migrated, s) := encryptionIdentity sender s in
      match encryptWa env plaintext identity bundle encAttrs with
      | None => (RetryFailed ErrEncrypt, migrated, s)
      | Some (encrypted, includeDeviceIdentity) =>
          finish plaintext type_ (fun attrs => getMessageContent env (withCount encrypted retryCount) m attrs includeDeviceIdentity)
            migrated s
      end
  | None, Some f =>
      let '(mediaType, type_) := match fbConsumer env f with Some (Some a) => a | _ => ("", "text") end in
      let encAttrs := if String.eqb mediaType "" then [] else [("mediatype", VString mediaType)] in
      match encryptFb env plaintext (fbSKDM prep) (fbDSM prep) sender bundle encAttrs with
      | None => (RetryFailed ErrEncrypt, None, s)
      | Some encrypted =>
          finish plaintext type_ (fun _ => [withCount encrypted retryCount;
            mkNode "franking" [] (VNodes [mkNode "franking_tag" [] (VBytes (of_codes (frankingTag env f plaintext)))])]) None s
      end
  | None, None => (RetryFailed ErrMarshal, None, s)
  end.

(** The plaintext that is encrypted again. *)
Definition marshalRetry (prep : Prepared) (s : RetryState) : option Bytes :=
  match rm_wa (p_msg prep), rm_fb (p_msg prep) with
  | Some p, _ => heap s !! p ≫= marshalWa
  | None, Some f => marshalFb f
  | None, None => None
  end.
Definition undecodable (env : RetryEnv) (msg : RecentMessage) : bool :=
  match rm_fb msg with Some f => match fbConsumer env f with None => true | Some _ => false end | None => false end.

(** The handler: its result, the migration of a session it caused, and the state. *)
Definition handleRetryReceipt (env : RetryEnv) (emptyBody : Body) (receipt : Receipt) (n : node) (contains : option bool)
    (now1 now2 : Time) (fetched : iq_error + node) (s : RetryState)
  : outcome (retry_result * option (JID * JID) * RetryState) :=
  match GetOptionalChildByTag n ["retry"] with
  | (_, false) => Ret (RetryFailed ErrMissingRetry, None, s)
  | (retryChild, true) =>
      let '(messageID, ag) := getString "id" (AttrGetter retryChild) in
      let '(timestamp, ag) := UnixTime "t" ag in
      let '(retryCount, ag) := Int "count" ag in
      match Error_ ag with
      | Some errs => Ret (RetryFailed (ErrAttrs errs), None, s)
      | None =>
          let source := r_Source receipt in
          match getMessageForRetry (GetMessageForRetry env) (Sender source) (Chat source) messageID s with
          | (inl e, s) => Ret (RetryFailed e, None, s)
          | (inr None, s) => Ret (RetryFailed (ErrNotFound messageID), None, s)
          | (inr (Some msg), s) =>
              if undecodable env msg then Ret (RetryFailed ErrDecode, None, s)
              else
                let '(internalCounter, s) := countRequest (Sender source, messageID) s in
                if internalCounter >=? 10 then Ret (RetryDropped, None, s)
                else
                  let '(prep, s) := prepareRetry (createSKDM env) receipt emptyBody msg s in
                  if negb (PreRetryCallback env receipt messageID retryCount (rm_wa (p_msg prep) ≫= fun p => heap s !! p))
                  then Ret (RetryCancelled, None, s)
                  else
                    match marshalRetry prep s with
                    | None => Ret (RetryFailed ErrMarshal, None, s)
                    | Some plaintext =>
                        '(bundle, s) ← retryBundle (GetOptionalChildByTag n ["keys"]).2 n (Sender source) retryCount contains
                                         now1 now2 fetched s;
                        Ret (match bundle with
                             | inl e => (RetryFailed e, None, s)
                             | inr bundle => sendRetry env receipt n messageID timestamp retryCount prep plaintext bundle s
                             end)
                    end
          end
      end
  end.

(** ** Asking for a retry *)

(** The retry that this is, by the counter of the message or by the count that a
    message sent again carries. *)
Definition nextRetry (id : string) (retryCountInMsg : Z) (s : RetryState) : Z * RetryState :=
  let retryCount := wrap64 (default 0 (messageRetries s !! id) + 1) in
  let retryCount := if (retryCount =? 1) && (retryCountInMsg >? 0) then wrap64 (retryCountInMsg + 1) else retryCount in
  (retryCount, s <| messageRetries := <[id := retryCount]> (messageRetries s) |>).

Definition countInMessage (n : node) : Z :=
  match GetChildren n with
  | [child] => if String.eqb (Tag child) "enc" then (OptionalInt "count" (AttrGetter child)).1 else 0
  | _ => 0
  end.

(** The account's keys, and its marshalled identity, if that succeeds. *)
Record Device : Type := mkDevice {
  d_RegistrationID : Z;
  d_IdentityKey : Bytes;
  d_SignedPreKey : PreKey;
  d_Account : option Bytes }.

(** The node, if one is sent, whether the message is requested from the phone,
    and the stores.  [GenOne] is [GenOnePreKey] of the store. *)
Definition sendRetryReceipt (d : Device) (GenOne : Sql PreKey) (n : node) (infoID infoType : string)
    (infoFromMe forceIncludeIdentity : bool) (s : RetryState) (db : PreKeyDB)
  : option node * bool * RetryState * PreKeyDB :=
  let '(id, _) := as_string (attr (Attrs n) "id") in
  let '(retryCount, s) := nextRetry id (countInMessage n) s in
  if retryCount >=? 5 then (None, false, s, db)
  else
    let attrs := buildBaseReceipt infoID n ++ [("type", VString "retry")]
                 ++ (if String.eqb infoType "peer_msg" && infoFromMe then [("category", VString "peer")] else []) in
    let content := [mkNode "retry" [("count", VInt retryCount); ("id", VString id); ("t", attr_or_nil "t" n); ("v", VInt 1)] VNil;
                    registrationNode (d_RegistrationID d)] in
    let asked := retryCount =? 1 in
    if (retryCount >? 1) || forceIncludeIdentity then
      match GenOne db with
      | (inl _, db) => (Some (mkNode "receipt" attrs (VNodes content)), asked, s, db)
      | (inr key, db) =>
          match d_Account d with
          | None => (None, asked, s, db)
          | Some deviceIdentity =>
              let keys := mkNode "keys" [] (VNodes [typeNode; identityNode (d_IdentityKey d); preKeyToNode key;
                            preKeyToNode (d_SignedPreKey d); mkNode "device-identity" [] (VBytes (of_codes deviceIdentity))]) in
              (Some (mkNode "receipt" attrs (VNodes (content ++ [keys]))), asked, s, db)
          end
      end
    else (Some (mkNode "receipt" attrs (VNodes content)), asked, s, db).
End Retry.

(** ** Which messages are found again *)

Section RecentProofs.
Context {Body Fb : Type}.
Notation RetryState := (@RetryState Body Fb).
Notation entry := (recentMessageKey * @RecentMessage Fb)%type.

(** The entries of a log, one after the other. *)
Definition adds (log : list entry) (s : RetryState) : RetryState :=
  foldl (fun s e => remember e.1 e.2 s) s log.

Definition fresh_ring (s : RetryState) : Prop :=
  recentMessagesMap s = ∅ /\ recentMessagesList s = replicate recentMessagesSize (EmptyJID, "") /\ recentMessagesPtr s = 0%nat.

(** When an entry is found: it is the last one with its key, it is among the
    last 256, and no slot of an older entry with the same key has been reused
    since it was added. *)
Definition retrievable (log : list entry) (k : recentMessageKey) (m : RecentMessage) : Prop :=
  exists j, log !! j = Some (k, m) /\ (forall i, (j < i)%nat -> log.*1 !! i <> Some k) /\
    (length log <= j + recentMessagesSize)%nat /\
    (forall i, (i < j < i + recentMessagesSize)%nat -> log.*1 !! i = Some k -> (length log <= i + recentMessagesSize)%nat).

Record ring_inv (log : list entry) (s : RetryState) : Prop := mkRingInv {
  ri_length : length (recentMessagesList s) = recentMessagesSize;
  ri_ptr : recentMessagesPtr s = (length log mod recentMessagesSize)%nat;
  ri_slot : forall i, (i < length log <= i + recentMessagesSize)%nat ->
    recentMessagesList s !! (i mod recentMessagesSize)%nat = log.*1 !! i;
  ri_empty : forall p, (length log <= p < recentMessagesSize)%nat -> recentMessagesList s !! p = Some (EmptyJID, "");
  ri_map : forall k m, recentMessagesMap s !! k = Some m <-> retrievable log k m }.

Lemma mod_shift n : (256 <= n)%nat -> ((n - 256) mod 256 = n mod 256)%nat.
Proof.
  intros Hn. replace (n mod 256)%nat with ((n - 256 + 1 * 256) mod 256)%nat by (f_equal; lia). by rewrite Nat.Div0.mod_add.
Qed.
Lemma mod_succ n : ((n + 1) mod 256 = if (256 <=? S (n mod 256))%nat then 0 else S (n mod 256))%nat.
Proof.
  pose proof (Nat.div_mod_eq n 256) as Hd. pose proof (Nat.mod_upper_bound n 256 ltac:(done)) as Hb.
  symmetry. destruct (Nat.leb_spec 256 (S (n mod 256))).
  - apply (Nat.mod_unique _ _ (n / 256 + 1)); lia.
  - apply (Nat.mod_unique _ _ (n / 256)); lia.
Qed.
Lemma mod_distinct i n : (i < n < i + 256)%nat -> (i mod 256 <> n mod 256)%nat.
Proof.
  intros Hi He. pose proof (Nat.div_mod_eq n 256). pose proof (Nat.div_mod_eq i 256).
  assert (n / 256 = i / 256 \/ n / 256 >= i / 256 + 1 \/ n / 256 + 1 <= i / 256)%nat as [|[|]] by lia; lia.
Qed.

Lemma remember_map key msg (s : RetryState) :
  recentMessagesMap (remember key msg s) =
  <[key := msg]> (match recentMessagesList s !! recentMessagesPtr s with
                  | Some old => if String.eqb old.2 "" then recentMessagesMap s else delete old (recentMessagesMap s)
                  | None => recentMessagesMap s
                  end).
Proof.
  unfold remember. destruct (recentMessagesList s !! recentMessagesPtr s) as [old|]; [destruct (String.eqb old.2 "")|];
    by case_match.
Qed.

Lemma remember_list key msg (s : RetryState) :
  recentMessagesList (remember key msg s) = <[recentMessagesPtr s := key]> (recentMessagesList s).
Proof.
  unfold remember. destruct (recentMessagesList s !! recentMessagesPtr s) as [old|]; [destruct (String.eqb old.2 "")|];
    by case_match.
Qed.

Lemma remember_ptr key msg (s : RetryState) :
  recentMessagesPtr (remember key msg s) =
  if (length (recentMessagesList s) <=? S (recentMessagesPtr s))%nat then 0%nat else S (recentMessagesPtr s).
Proof.
  unfold remember. destruct (recentMessagesList s !! recentMessagesPtr s) as [old|]; [destruct (String.eqb old.2 "")|];
    cbn; rewrite length_insert; by case_match.
Qed.

(** The slot about to be reused holds the key of 256 entries ago. *)
Lemma ring_old log s :
  ring_inv log s ->
  recentMessagesList s !! recentMessagesPtr s =
  if (length log <? recentMessagesSize)%nat then Some (EmptyJID, "") else log.*1 !! (length log - recentMessagesSize)%nat.
Proof.
  intros [Hl Hp Hs He _]. rewrite Hp. destruct (Nat.ltb_spec (length log) recentMessagesSize).
  - rewrite Nat.mod_small by done. by apply He.
  - rewrite <- Hs by (unfold recentMessagesSize in *; lia). f_equal.
    unfold recentMessagesSize in *. by rewrite mod_shift.
Qed.

Lemma retrievable_same log k m m' :
  retrievable (log ++ [(k, m)]) k m' <-> m' = m.
Proof.
  split.
  - intros (j & Hj & Hlast & _). destruct (Nat.lt_trichotomy j (length log)) as [Hlt|[->|Hgt]].
    + exfalso. apply (Hlast (length log)); [done|]. rewrite fmap_app, lookup_app_r by by rewrite length_fmap.
      rewrite length_fmap, Nat.sub_diag. done.
    + rewrite lookup_app_r, Nat.sub_diag in Hj by done. by injection Hj.
    + rewrite lookup_app_r in Hj by lia. apply lookup_lt_Some in Hj. cbn in Hj. lia.
  - intros ->. exists (length log). rewrite lookup_app_r, Nat.sub_diag, length_app by done. cbn [length].
    split; [done|]. split; [|split; [unfold recentMessagesSize; lia|lia]].
    intros i Hi He. apply lookup_lt_Some in He. rewrite length_fmap, length_app in He. cbn in He. lia.
Qed.

Lemma retrievable_other log k m k' m' :
  k' <> k ->
  retrievable (log ++ [(k, m)]) k' m' <->
  retrievable log k' m' /\ ((recentMessagesSize <= length log)%nat -> log.*1 !! (length log - recentMessagesSize)%nat <> Some k').
Proof.
  intros Hne. unfold retrievable. set (n := length log).
  assert (forall i, (log ++ [(k, m)]).*1 !! i = Some k' <-> log.*1 !! i = Some k') as Hk.
  { intros i. rewrite fmap_app. destruct (Nat.lt_ge_cases i (length log.*1)) as [Hlt|Hge].
    - by rewrite lookup_app_l.
    - rewrite lookup_app_r by done. rewrite (lookup_ge_None_2 log.*1) by done. split; [|done].
      destruct (i - length log.*1)%nat; cbn; [by intros [= ?]|done]. }
  assert (forall j, (log ++ [(k, m)]) !! j = Some (k', m') <-> log !! j = Some (k', m')) as Hkm.
  { intros j. destruct (Nat.lt_ge_cases j (length log)) as [Hlt|Hge].
    - by rewrite lookup_app_l.
    - rewrite lookup_app_r by done. rewrite (lookup_ge_None_2 log) by done. split; [|done].
      destruct (j - length log)%nat; cbn; [by intros [= ?]|done]. }
  rewrite length_app. cbn [length]. fold n. split.
  - intros (j & Hj & Hlast & Hlen & Hold). apply Hkm in Hj. pose proof (lookup_lt_Some _ _ _ Hj) as Hjn.
    split.
    + exists j. split; [done|]. split; [intros i Hi Hi'; by apply (Hlast i Hi), Hk|]. split; [lia|].
      intros i Hi Hi'. specialize (Hold i Hi ltac:(by apply Hk)). lia.
    + intros Hn Ho. destruct (Nat.lt_trichotomy j (n - recentMessagesSize)) as [Hlt|[He|Hgt]]; [lia|lia|].
      assert (log.*1 !! (n - recentMessagesSize)%nat = Some k') as Ho' by done.
      specialize (Hold (n - recentMessagesSize)%nat ltac:(lia) ltac:(by apply Hk)). lia.
  - intros [(j & Hj & Hlast & Hlen & Hold) Ho]. exists j. split; [by apply Hkm|].
    pose proof (lookup_lt_Some _ _ _ Hj) as Hjn.
    assert (log.*1 !! j = Some k') as Hjk by (by rewrite list_lookup_fmap, Hj).
    split; [intros i Hi Hi'; by apply (Hlast i Hi), Hk|].
    split.
    + destruct (Nat.eq_dec n (j + recentMessagesSize)) as [He|]; [|lia].
      exfalso. apply Ho; [lia|]. by replace (n - recentMessagesSize)%nat with j by lia.
    + intros i Hi Hi'. apply Hk in Hi'. specialize (Hold i Hi Hi').
      destruct (Nat.eq_dec n (i + recentMessagesSize)) as [He|]; [|lia].
      exfalso. apply Ho; [lia|]. by replace (n - recentMessagesSize)%nat with i by lia.
Qed.

Lemma ring_step (log : list entry) s (k : recentMessageKey) m :
  Forall (fun e => e.1.2 <> "") log -> ring_inv log s -> ring_inv (log ++ [(k, m)]) (remember k m s).
Proof.
  intros Hids Hinv. pose proof (ring_old log s Hinv) as Hold. destruct Hinv as [Hl Hp Hs He Hm].
  assert (recentMessagesSize <> 0%nat) as Hsz by done.
  split.
  - by rewrite remember_list, length_insert.
  - rewrite remember_ptr, Hl, Hp, length_app. cbn [length]. unfold recentMessagesSize.
    by rewrite mod_succ.
  - intros i Hi. rewrite length_app in Hi. cbn [length] in Hi. rewrite remember_list, fmap_app, Hp.
    destruct (Nat.eq_dec i (length log)) as [->|Hne].
    + rewrite list_lookup_insert_eq by (rewrite Hl; by apply Nat.mod_upper_bound).
      rewrite lookup_app_r by by rewrite length_fmap. by rewrite length_fmap, Nat.sub_diag.
    + assert (length log mod recentMessagesSize <> i mod recentMessagesSize)%nat as Hmod
        by (apply not_eq_sym, (mod_distinct i (length log)); unfold recentMessagesSize in Hi; lia).
      rewrite list_lookup_insert_ne by done.
      assert (i < length log)%nat as Hlt by lia.
      rewrite lookup_app_l by (by rewrite length_fmap). apply Hs. lia.
  - intros p Hpl. rewrite length_app in Hpl. cbn [length] in Hpl. rewrite remember_list, Hp.
    rewrite Nat.mod_small by lia. rewrite list_lookup_insert_ne by lia. apply He. lia.
  - intros k' m'. rewrite remember_map, Hold. destruct (decide (k' = k)) as [->|Hne].
    + rewrite lookup_insert_eq, retrievable_same. split; [by intros [= ->]|by intros ->].
    + rewrite lookup_insert_ne by done. rewrite retrievable_other by done.
      destruct (Nat.ltb_spec (length log) recentMessagesSize) as [Hlt|Hge].
      { cbn. rewrite Hm. split; [intros H; split; [done|lia]|by intros []]. }
      destruct (lookup_lt_is_Some_2 log (length log - recentMessagesSize)) as [[k0 m0] H0]; [lia|].
      rewrite list_lookup_fmap, H0. cbn [fmap option_fmap option_map fst].
      pose proof (Forall_lookup_1 _ _ _ _ Hids H0) as Hid. cbn in Hid.
      rewrite (proj2 (String.eqb_neq _ _) Hid). destruct (decide (k0 = k')) as [->|Hk0].
      * rewrite lookup_delete_eq. split; [done|]. intros [_ Hf]. exfalso. apply (Hf Hge). by rewrite ?list_lookup_fmap, ?H0.
      * rewrite lookup_delete_ne by done. rewrite Hm. split; [intros H; split; [done|]|by intros []].
        intros _ Hf. rewrite ?list_lookup_fmap, ?H0 in Hf. by injection Hf.
Qed.

(** C33. After any number of messages whose ids are not empty, a message is found exactly when it is the last
    one added under its chat and id, it is among the last 256, and no older
    entry under the same chat and id has lost its slot since then. *)
Theorem recent_messages_exact log (s : RetryState) k m :
  fresh_ring s -> Forall (fun e => e.1.2 <> "") log ->
  recentMessagesMap (adds log s) !! k = Some m <-> retrievable log k m.
Proof.
  intros (Hm & Hl & Hp) Hids. apply ri_map. induction log as [|[k0 m0] log IH] using rev_ind.
  - split; cbn.
    + by rewrite Hl, length_replicate.
    + by rewrite Hp.
    + lia.
    + intros p Hlt. rewrite Hl. apply lookup_replicate_2. lia.
    + intros k' m'. rewrite Hm, lookup_empty. split; [done|]. intros (j & Hj & _). done.
  - unfold adds. rewrite foldl_app. cbn [foldl fst snd]. apply Forall_app in Hids as [Hids _].
    apply ring_step; [done|]. by apply IH.
Qed.
End RecentProofs.

(** ** How often retries are asked for and answered *)

Section CounterProofs.
Context {Body Fb : Type}.
Notation RetryState := (@RetryState Body Fb).

(** A call of [sendRetryReceipt] with its parameters. *)
Record ask : Type := mkAsk {
  a_device : Device;
  a_gen : Sql PreKey;
  a_node : node;
  a_infoID : string;
  a_infoType : string;
  a_fromMe : bool;
  a_force : bool }.
Definition ask_id (a : ask) : string := (as_string (attr (Attrs (a_node a)) "id")).1.

(** The messages for which a receipt is sent, call by call. *)
Fixpoint ask_run (calls : list ask) (s : RetryState) (db : PreKeyDB) : list string :=
  match calls with
  | [] => []
  | a :: calls =>
      let '(sent, _, s, db) :=
        sendRetryReceipt (a_device a) (a_gen a) (a_node a) (a_infoID a) (a_infoType a) (a_fromMe a) (a_force a) s db in
      (if sent then [ask_id a] else []) ++ ask_run calls s db
  end.

Definition retries (id : string) (s : RetryState) : Z := default 0 (messageRetries s !! id).

Lemma nextRetry_retries id cnt (s : RetryState) id' :
  0 <= retries id s < max_int64 -> cnt < max_int64 ->
  let c := (nextRetry id cnt s).1 in
  retries id' (nextRetry id cnt s).2 = (if decide (id' = id) then c else retries id' s) /\
  retries id s < c <= Z.max (retries id s) cnt + 1.
Proof.
  intros Hc Hm. unfold nextRetry, retries in *. cbn [fst snd messageRetries].
  set (old := default 0 (messageRetries s !! id)) in *.
  set (c := if (wrap64 (old + 1) =? 1) && (cnt >? 0) then wrap64 (cnt + 1) else wrap64 (old + 1)).
  assert (in_int64 (old + 1)) as Ho by (unfold in_int64, min_int64, max_int64 in *; lia).
  assert (old < c <= Z.max old cnt + 1) as Hb.
  { subst c. rewrite (wrap64_id (old + 1)) by done.
    destruct (Z.eqb_spec (old + 1) 1); destruct (Z.gtb_spec cnt 0); cbn [andb]; try lia.
    rewrite wrap64_id by (unfold in_int64, min_int64, max_int64 in *; lia). lia. }
  split; [|exact Hb]. change (messageRetries (upd _ s)) with (<[id := c]> (messageRetries s)).
  destruct (decide (id' = id)) as [->|]; [by rewrite lookup_insert_eq|by rewrite lookup_insert_ne].
Qed.

Lemma sendRetryReceipt_state a (s : RetryState) db sent asked s' db' :
  sendRetryReceipt (a_device a) (a_gen a) (a_node a) (a_infoID a) (a_infoType a) (a_fromMe a) (a_force a) s db
    = (sent, asked, s', db') ->
  s' = (nextRetry (ask_id a) (countInMessage (a_node a)) s).2 /\
  (is_Some sent -> (nextRetry (ask_id a) (countInMessage (a_node a)) s).1 < 5).
Proof.
  unfold sendRetryReceipt, ask_id. destruct (as_string _) as [id ok]. cbn [fst].
  destruct (nextRetry id (countInMessage (a_node a)) s) as [c s1]. cbn [fst snd].
  destruct (Z.geb_spec c 5); [intros [= <- <- <- <-]; split; [done|by intros [? ?]]|].
  destruct ((c >? 1) || a_force a); [|by intros [= <- <- <- <-]].
  destruct (a_gen a db) as [[e|key] db1]; [by intros [= <- <- <- <-]|].
  destruct (d_Account (a_device a)); by intros [= <- <- <- <-].
Qed.

Lemma ask_run_bound calls : forall (s : RetryState) db id,
  (forall id', 0 <= retries id' s <= 2 ^ 62 - Z.of_nat (length calls)) ->
  Forall (fun a => countInMessage (a_node a) < 2 ^ 62 - Z.of_nat (length calls)) calls ->
  Z.of_nat (length (filter (fun x => x = id) (ask_run calls s db))) <= Z.max 0 (4 - retries id s).
Proof.
  induction calls as [|a calls IH]; intros s db id Hs Hc; [cbn; lia|]. cbn [length] in Hs, Hc.
  apply Forall_cons in Hc as [Ha Hc]. cbn [ask_run].
  destruct (sendRetryReceipt _ _ _ _ _ _ _ s db) as [[[sent asked] s'] db'] eqn:Hr.
  apply sendRetryReceipt_state in Hr as [-> Hsent].
  set (cnt := countInMessage (a_node a)) in *. set (aid := ask_id a) in *.
  assert (forall id', retries id' (nextRetry aid cnt s).2 = (if decide (id' = aid) then (nextRetry aid cnt s).1 else retries id' s)
    /\ retries aid s < (nextRetry aid cnt s).1 <= Z.max (retries aid s) cnt + 1) as Hn.
  { intros id'. apply nextRetry_retries; unfold max_int64; pose proof (Hs aid); lia. }
  destruct (nextRetry aid cnt s) as [c s1]. cbn [fst snd] in *.
  rewrite filter_app, length_app, Nat2Z.inj_add.
  assert (Z.of_nat (length (filter (fun x => x = id) (ask_run calls s1 db'))) <= Z.max 0 (4 - retries id s1)) as IH'.
  { apply IH.
    - intros id'. destruct (Hn id') as [-> Hb]. pose proof (Hs id'). pose proof (Hs aid).
      destruct (decide (id' = aid)); lia.
    - eapply Forall_impl; [exact Hc|]. cbn. lia. }
  destruct (Hn id) as [He Hb]. rewrite He in IH'. destruct (decide (id = aid)) as [->|Hne].
  - destruct sent as [m|].
    + specialize (Hsent ltac:(by eexists)). rewrite filter_cons, decide_True by done. cbn. lia.
    + cbn. lia.
  - assert (filter (fun x => x = id) (if sent then [aid] else []) = []) as ->; [|cbn; lia].
    destruct sent; [|done]. by rewrite filter_cons, decide_False.
Qed.

(** However often a message fails to decrypt, at most four retry receipts are
    sent for it. *)
Theorem retry_receipts_bounded calls (s : RetryState) db id :
  messageRetries s = ∅ -> Z.of_nat (length calls) < 2 ^ 61 -> Forall (fun a => countInMessage (a_node a) < 2 ^ 61) calls ->
  (length (filter (fun x => x = id) (ask_run calls s db)) <= 4)%nat.
Proof.
  intros Hm Hl Hc. assert (forall id', retries id' s = 0) as Hz by (intros id'; unfold retries; by rewrite Hm, lookup_empty).
  pose proof (ask_run_bound calls s db id) as Hb. rewrite Hz in Hb.
  enough (Z.of_nat (length (filter (fun x => x = id) (ask_run calls s db))) <= 4) by lia.
  apply Hb; [intros id'; rewrite Hz; lia|]. eapply Forall_impl; [exact Hc|]. cbn. lia.
Qed.

(** The count that a message carries is added to without a check: at the largest
    one the counter wraps around, and the limit is gone. *)
Theorem retry_limit_overflow (s : RetryState) id :
  messageRetries s !! id = None -> (nextRetry id max_int64 s).1 = min_int64.
Proof. intros Hn. unfold nextRetry. cbn [fst]. by rewrite Hn. Qed.

(** *** Answers *)

Context (marshalWa : @Message Body -> option Bytes) (unmarshalWa : Bytes -> option (@Message Body)).
Context (marshalFb : Fb -> option Bytes) (unmarshalFb : Bytes -> option Fb).
Notation handle := (handleRetryReceipt marshalWa unmarshalWa marshalFb unmarshalFb).

Definition requests (key : incomingRetryKey) (s : RetryState) : Z := default 0 (incomingRetryRequestCounter s !! key).
Definition same_requests (s s' : RetryState) : Prop := incomingRetryRequestCounter s' = incomingRetryRequestCounter s.

Lemma altChat_same chat (s : RetryState) : same_requests s (altChat chat s).2.
Proof.
  unfold altChat. destruct (String.eqb (Server chat) DefaultUserServer); [by destruct (GetLIDForPN chat (LIDs s)) as [[? ?] ?]|].
  destruct (String.eqb (Server chat) HiddenUserServer); [by destruct (GetPNForLID chat (LIDs s)) as [[? ?] ?]|done].
Qed.

Lemma parseRecentMessage_same format buf (s : RetryState) :
  same_requests s (parseRecentMessage unmarshalWa unmarshalFb format buf s).2.
Proof. unfold parseRecentMessage. repeat case_match; done. Qed.

Lemma GetOutgoingEvent_same chat alt id (s : RetryState) : same_requests s (GetOutgoingEvent chat alt id s).2.
Proof. unfold GetOutgoingEvent. by repeat case_match. Qed.

Lemma getMessageForRetry_same cb sender chat id (s : RetryState) :
  same_requests s (getMessageForRetry unmarshalWa unmarshalFb cb sender chat id s).2.
Proof.
  unfold getMessageForRetry. destruct (negb (IsEmpty _)); [done|].
  pose proof (altChat_same chat s) as Ha. destruct (altChat chat s) as [[err alt] s1]. cbn [snd] in Ha.
  destruct err; [done|]. destruct (negb _); [done|]. destruct (UseRetryMessageStore s1).
  - pose proof (GetOutgoingEvent_same chat alt id s1) as Hg.
    destruct (GetOutgoingEvent chat alt id s1) as [[e|[format buf]] s2]; cbn [snd] in *; [unfold same_requests in *; congruence|].
    pose proof (parseRecentMessage_same format buf s2) as Hp.
    destruct (parseRecentMessage _ _ format buf s2) as [[e|rm] s3]; cbn [snd] in *; unfold same_requests in *; congruence.
  - by destruct (cb sender chat id).
Qed.

Lemma prepareRetry_same create receipt empty msg (s : RetryState) :
  same_requests s (prepareRetry create receipt empty msg s).2.
Proof. unfold prepareRetry. by repeat case_match. Qed.

Lemma shouldRecreateSession_same contains now1 now2 c jid (s : RetryState) :
  same_requests s (shouldRecreateSession contains now1 now2 c jid s).2.
Proof. unfold shouldRecreateSession. by repeat case_match. Qed.

Lemma retryBundle_same hasKeys n sender c contains now1 now2 fetched (s : RetryState) r s' :
  retryBundle hasKeys n sender c contains now1 now2 fetched s = Ret (r, s') -> same_requests s s'.
Proof.
  unfold retryBundle. destruct hasKeys.
  - destruct (nodeToPreKeyBundle _ _); cbn; [|done]. by intros [= _ <-].
  - pose proof (shouldRecreateSession_same contains now1 now2 c sender s) as Hs.
    destruct (shouldRecreateSession _ _ _ _ _ s) as [[] s1]; cbn [snd] in Hs; [|by intros [= _ <-]].
    destruct (fetchPreKeys fetched); cbn; [|done]. by intros [= _ <-].
Qed.

Lemma encryptionIdentity_same sender (s : RetryState) : same_requests s (encryptionIdentity sender s).2.
Proof. unfold encryptionIdentity. by repeat case_match. Qed.

Lemma sendRetry_same env receipt n id t c prep plaintext bundle (s : RetryState) :
  same_requests s (sendRetry env receipt n id t c prep plaintext bundle s).2.
Proof.
  unfold sendRetry. destruct (rm_wa (p_msg prep) ≫= _) as [m|].
  - destruct (waAttrs env m) as [media ty]. pose proof (encryptionIdentity_same (Sender (r_Source receipt)) s) as He.
    destruct (encryptionIdentity _ s) as [[identity migrated] s1]. cbn [snd] in He.
    by destruct (encryptWa _ _ _ _ _) as [[? ?]|].
  - destruct (rm_fb (p_msg prep)) as [f|]; [|done].
    destruct (match fbConsumer env f with Some (Some a) => a | _ => _ end) as [media ty].
    by destruct (encryptFb _ _ _ _ _ _ _).
Qed.

(** The message that a retry receipt is about. *)
Definition retry_id (n : node) : string := (getString "id" (AttrGetter (GetChildByTag n ["retry"]))).1.

Definition is_sent (r : @retry_result) : bool := match r with RetrySent _ _ => true | _ => false end.

(** A request counts at most once, and only requests with a count below ten are
    answered. *)
Lemma handle_counts env empty receipt n contains now1 now2 fetched (s : RetryState) res mig s' key :
  handle env empty receipt n contains now1 now2 fetched s = Ret (res, mig, s') ->
  (forall k, 0 <= requests k s < max_int64) ->
  let mine := bool_decide (key = (Sender (r_Source receipt), retry_id n)) in
  requests key s <= requests key s' <= requests key s + 1 /\
  (is_sent res && mine = true -> requests key s' = requests key s + 1 /\ requests key s' < 10).
Proof.
  unfold handleRetryReceipt, retry_id, GetChildByTag. intros Hh Hr.
  destruct (GetOptionalChildByTag n ["retry"]) as [child [|]]; [|injection Hh as <- <- <-; cbn; split; [lia|done]].
  cbn [fst]. destruct (getString "id" (AttrGetter child)) as [id ag]. cbn [fst].
  destruct (UnixTime "t" ag) as [t ag1]. destruct (Int "count" ag1) as [c ag2].
  destruct (Error_ ag2); [injection Hh as <- <- <-; cbn; split; [lia|done]|].
  pose proof (getMessageForRetry_same (GetMessageForRetry env) (Sender (r_Source receipt)) (Chat (r_Source receipt)) id s) as H1.
  destruct (getMessageForRetry _ _ _ _ _ _ s) as [[e|[msg|]] s1]; cbn [snd] in H1;
    [injection Hh as <- <- <-; unfold requests, same_requests in *; rewrite H1; cbn; split; [lia|done]| |
     injection Hh as <- <- <-; unfold requests, same_requests in *; rewrite H1; cbn; split; [lia|done]].
  destruct (undecodable env msg); [injection Hh as <- <- <-; unfold requests, same_requests in *; rewrite H1; cbn; split; [lia|done]|].
  set (k := (Sender (r_Source receipt), id)) in *.
  assert (requests k s1 = requests k s) as Hk1 by (unfold requests, same_requests in *; by rewrite H1).
  assert ((countRequest k s1).1 = requests k s + 1) as Hcnt.
  { unfold countRequest. cbn [fst]. fold (requests k s1). rewrite Hk1, wrap64_id; [done|].
    specialize (Hr k). unfold in_int64, min_int64, max_int64 in *. lia. }
  assert (requests key (countRequest k s1).2 = if decide (key = k) then requests k s + 1 else requests key s) as Hkey.
  { rewrite <- Hcnt. unfold requests at 1.
    change (incomingRetryRequestCounter (countRequest k s1).2) with
      (<[k := (countRequest k s1).1]> (incomingRetryRequestCounter s1)).
    destruct (decide (key = k)) as [->|Hne]; [by rewrite lookup_insert_eq|].
    rewrite lookup_insert_ne by done. unfold requests, same_requests in *. by rewrite H1. }
  destruct (countRequest k s1) as [internal s2]. cbn [fst snd] in *. subst internal.
  assert (forall s3, same_requests s2 s3 ->
    requests key s <= requests key s3 <= requests key s + 1 /\
    (key = k -> requests key s3 = requests key s + 1)) as Hlast.
  { intros s3 H3. assert (requests key s3 = requests key s2) as -> by (unfold requests, same_requests in *; by rewrite H3).
    rewrite Hkey. destruct (decide (key = k)) as [->|]; split; (done || lia). }
  destruct (Z.geb_spec (requests k s + 1) 10); [injection Hh as <- <- <-; destruct (Hlast s2 eq_refl); cbn; split; [done|done]|].
  pose proof (prepareRetry_same (createSKDM env) receipt empty msg s2) as H3.
  destruct (prepareRetry _ _ _ _ s2) as [prep s3]. cbn [snd] in H3.
  destruct (negb _); [injection Hh as <- <- <-; destruct (Hlast s3 H3); cbn; split; [done|done]|].
  destruct (marshalRetry _ _ prep s3) as [plaintext|]; [|injection Hh as <- <- <-; destruct (Hlast s3 H3); cbn; split; [done|done]].
  destruct (retryBundle _ _ _ _ _ _ _ _ s3) as [[b s4]|] eqn:Hb; cbn in Hh; [|done].
  apply retryBundle_same in Hb. assert (same_requests s2 s4) as H4 by (unfold same_requests in *; congruence).
  destruct b as [e|b]; [injection Hh as <- <- <-; destruct (Hlast s4 H4); cbn; split; [done|done]|].
  pose proof (sendRetry_same env receipt n id t c prep plaintext b s4) as H5.
  injection Hh as Hh. rewrite Hh in H5. cbn [snd] in H5. assert (same_requests s2 s') as H6 by (unfold same_requests in *; congruence).
  destruct (Hlast s' H6) as [Hb1 Hb2]. split; [done|]. intros [_ Hm%bool_decide_eq_true]%andb_true_iff.
  specialize (Hb2 Hm). subst key. lia.
Qed.

(** Of [n] retry receipts that are handled one after the other, [k] are answers
    to [key]. *)
Inductive answers (key : incomingRetryKey) : RetryState -> nat -> nat -> Prop :=
| answers_none s : answers key s 0 0
| answers_step env empty receipt node contains now1 now2 fetched s res mig s1 n k :
    handle env empty receipt node contains now1 now2 fetched s = Ret (res, mig, s1) ->
    answers key s1 n k ->
    answers key s (S n) ((if is_sent res && bool_decide (key = (Sender (r_Source receipt), retry_id node)) then 1 else 0) + k).

Lemma answers_bound key (s : RetryState) n k :
  answers key s n k -> (forall x, 0 <= requests x s <= max_int64 - Z.of_nat n) -> Z.of_nat k <= Z.max 0 (9 - requests key s).
Proof.
  induction 1 as [s|env empty receipt node contains now1 now2 fetched s res mig s1 n k Hh _ IH]; intros Hs; [lia|].
  assert (forall x, 0 <= requests x s < max_int64) as Hs' by (intros x; pose proof (Hs x); lia).
  assert (Z.of_nat k <= Z.max 0 (9 - requests key s1)) as IH'.
  { apply IH. intros x. pose proof (Hs x). destruct (handle_counts _ _ _ _ _ _ _ _ _ _ _ _ x Hh Hs') as [Hx _]. lia. }
  destruct (handle_counts _ _ _ _ _ _ _ _ _ _ _ _ key Hh Hs') as [Hk Ha].
  destruct (is_sent res && _); [|lia]. destruct (Ha eq_refl). lia.
Qed.

(** C34. However many retry receipts a device sends for a message, at most nine are
    answered. *)
Theorem retries_answered_bounded key (s : RetryState) n k :
  answers key s n k -> incomingRetryRequestCounter s = ∅ -> Z.of_nat n <= max_int64 -> (k <= 9)%nat.
Proof.
  intros Ha He Hn. assert (forall x, requests x s = 0) as Hz by (intros x; unfold requests; by rewrite He, lookup_empty).
  pose proof (answers_bound key s n k Ha) as Hb. rewrite Hz in Hb.
  enough (Z.of_nat k <= 9) by lia. apply Hb. intros x. rewrite Hz. lia.
Qed.
End CounterProofs.

(** ** Messages are shared *)

Section SharingProofs.
Context {Body Fb : Type} (marshalWa : @Message Body -> option Bytes) (marshalFb : Fb -> option Bytes).
Notation RetryState := (@RetryState Body Fb).

(** The sender key for a retry in a group is written into the message that the
    application passed: if the same message was also sent to a user, a later
    retry by that user is answered with the sender key of the group. *)
Theorem skdm_leaks create emptyBody group direct (rm rm' : @RecentMessage Fb) p m ser (s : RetryState) :
  rm_wa rm = Some p -> rm_wa rm' = Some p -> heap s !! p = Some m ->
  IsGroup (r_Source group) = true -> create (Jid.String_ (Chat (r_Source group))) = Some ser ->
  IsGroup (r_Source direct) = false -> IsFromMe (r_Source direct) = false ->
  let s := (prepareRetry create group emptyBody rm s).2 in
  let '(prep, s) := prepareRetry create direct emptyBody rm' s in
  marshalRetry marshalWa marshalFb prep s =
    marshalWa (set_skdm (Some (mkSKDM (Jid.String_ (Chat (r_Source group))) ser)) m).
Proof.
  intros Hp Hp' Hm Hg Hc Hd Hf. unfold prepareRetry. rewrite Hg, Hc, Hp, Hd, Hf. cbn.
  unfold marshalRetry. cbn [p_msg]. rewrite Hp'. change (heap (upd _ s)) with
    (alter (set_skdm (Some (mkSKDM (Jid.String_ (Chat (r_Source group))) ser))) p (heap s)).
  by rewrite list_lookup_alter_eq, Hm.
Qed.
End SharingProofs.

(** ** The theorems at work *)

Definition demo_user : JID := NewJID "491512345" DefaultUserServer.
Definition demo_group : JID := NewJID "120363" GroupServer.
Definition demo_state : @RetryState () () :=
  mkRetryState [mkMessage None None ()] ∅ (replicate recentMessagesSize (EmptyJID, "")) 0 false zeroTime [] []
    (NewCachedLIDMap [] []) ∅ ∅ ∅.
Definition demo_recent : @RecentMessage () := mkRecent (Some 0%nat) None.
Definition demo_log : list (recentMessageKey * @RecentMessage ()) :=
  [((demo_user, "A1"), demo_recent); ((demo_group, "A2"), demo_recent)].

Lemma recent_messages_exact_witness :
  fresh_ring demo_state /\ recentMessagesMap (adds demo_log demo_state) !! (demo_user, "A1") = Some demo_recent.
Proof.
  split; [by repeat split|]. apply (recent_messages_exact demo_log demo_state (demo_user, "A1") demo_recent).
  - by repeat split.
  - repeat constructor; discriminate.
  - exists 0%nat. split; [reflexivity|]. split; [|split].
    + intros [|[|[|i]]] Hi; [lia| |done|done]. vm_compute. discriminate.
    + unfold recentMessagesSize. cbn. lia.
    + intros i Hi. lia.
Defined.

Definition demo_key : PreKey := mkPreKey (repeat 9 32) [] 1 None.
Definition demo_device : Device := mkDevice 77 (repeat 8 32) (mkPreKey (repeat 9 32) [] 6 (Some (repeat 3 64))) (Some [1]).
Definition demo_broken (count : Z) : node :=
  mkNode "message" [("id", VString "A1"); ("from", VJID demo_user); ("t", VString "1700000000")]
    (VNodes [mkNode "enc" [("count", VString (fmt_d count))] VNil]).
Definition demo_ask (count : Z) : ask := mkAsk demo_device (fun db => (inr demo_key, db)) (demo_broken count) "A1" "text" false false.
Definition demo_asks : list ask := [demo_ask 0; demo_ask 1; demo_ask 2; demo_ask 3; demo_ask 4; demo_ask 5].

Lemma retry_receipts_bounded_witness :
  ask_run demo_asks demo_state (mkPreKeyDB [] []) = ["A1"; "A1"; "A1"; "A1"] /\
  (length (filter (fun x => x = "A1") (ask_run demo_asks demo_state (mkPreKeyDB [] []))) <= 4)%nat.
Proof.
  split; [vm_compute; reflexivity|].
  apply (retry_receipts_bounded demo_asks demo_state (mkPreKeyDB [] []) "A1").
  - reflexivity.
  - cbn. lia.
  - repeat constructor; vm_compute; reflexivity.
Defined.

Definition demo_source (chat : JID) : MessageSource := zeroSource <| Chat := chat |> <| Sender := demo_user |>.
Definition demo_receipt (chat : JID) : Receipt :=
  mkReceipt ((demo_source chat) <| IsGroup := String.eqb (Server chat) GroupServer |>) ["A1"] zeroTime "retry" EmptyJID.
Definition demo_request : node :=
  mkNode "receipt" [("from", VJID demo_user); ("id", VString "A1"); ("t", VString "1700000000")]
    (VNodes [mkNode "retry" [("id", VString "A1"); ("t", VString "1700000000"); ("count", VString "1")] VNil]).
Definition demo_env : @RetryEnv () () :=
  mkRetryEnv (fun _ _ _ => Some 0%nat) (fun _ _ _ _ => true) (fun _ => Some [7]) (fun _ => ("", "text")) (fun _ => None)
    (fun _ _ => []) (fun _ _ _ _ => Some (mkNode "enc" [] VNil, false)) (fun _ _ _ _ _ _ => None) (fun n _ _ _ => [n])
    (fun _ => true).
Definition demo_marshal (m : @Message ()) : option Bytes :=
  Some (match skdm_of m with Some k => AxolotlSenderKeyDistributionMessage k | None => [] end).

Definition demo_answer : outcome (@retry_result * option (JID * JID) * @RetryState () ()) :=
  handleRetryReceipt demo_marshal (fun _ => None) (fun _ => None) (fun _ => None) demo_env () (demo_receipt demo_user)
    demo_request (Some true) 0 0 (inl ErrIQTimedOut) demo_state.
Lemma demo_answered :
  (match demo_answer with Ret (res, _, _) => is_sent res | Panic _ => false end) = true.
Proof. vm_compute. reflexivity. Qed.

Lemma retries_answered_bounded_witness :
  exists k, answers demo_marshal (fun _ => None) (fun _ => None) (fun _ => None) (demo_user, "A1") demo_state 1 k /\
    k = 1%nat /\ (k <= 9)%nat.
Proof.
  destruct demo_answer as [[[res mig] s]|] eqn:Hh; [|pose proof demo_answered as H; rewrite Hh in H; discriminate H].
  assert (is_sent res = true) as Hs by (pose proof demo_answered as H; rewrite Hh in H; exact H).
  pose proof (answers_step _ _ _ _ (demo_user, "A1") _ _ _ _ _ _ _ _ _ _ _ _ _ _ Hh (answers_none _ _ _ _ _ s)) as Ha.
  rewrite Hs in Ha. eexists. split; [exact Ha|]. split; [vm_compute; reflexivity|].
  apply (retries_answered_bounded _ _ _ _ _ _ _ _ Ha); [reflexivity|unfold max_int64; lia].
Defined.

Lemma skdm_leaks_witness :
  let s := (prepareRetry (fun _ => Some [7]) (demo_receipt demo_group) () demo_recent demo_state).2 in
  let '(prep, s) := prepareRetry (fun _ => Some [7]) (demo_receipt demo_user) () demo_recent s in
  marshalRetry demo_marshal (fun _ => None) prep s = Some [7].
Proof.
  apply (skdm_leaks demo_marshal (fun _ => None) (fun _ => Some [7]) () (demo_receipt demo_group) (demo_receipt demo_user)
    demo_recent demo_recent 0 (mkMessage None None ()) [7] demo_state); reflexivity.
Defined.
