(* ===== verification/Media.v ===== *)
(** * Media: [whatsmeow/upload.go], [download.go], [download-to-file.go], [mediaconn.go]

    A file is encrypted under a fresh key, uploaded with its hashes, and
    downloaded and checked again, in memory or into a file.  The server is a
    function from the number of the request and its URL to a reply; AES, the
    hashes and the key derivation are parameters.  Slices that may be nil are
    options.  Errors carry what the code tests, not their text. *)
From S2P Require Import Prelude GoStrings GoTime Jid BinaryNode BinaryCodec NodeAttrs Requests Cbc.

(** ** [encoding/base64] *)

Definition base64url : string := "ABCDEFGHIJKLMNOPQRSTUVWXYZabcdefghijklmnopqrstuvwxyz0123456789-_".
Definition sextet (v : Z) : string :=
  match String.get (Z.to_nat (Z.land v 63)) base64url with Some c => String c "" | None => "" end.
Fixpoint EncodeToString (padded : bool) (l : Bytes) : string :=
  match l with
  | a :: b :: c :: l =>
      let v := Z.shiftl a 16 + Z.shiftl b 8 + c in
      sextet (Z.shiftr v 18) +:+ sextet (Z.shiftr v 12) +:+ sextet (Z.shiftr v 6) +:+ sextet v +:+ EncodeToString padded l
  | [a; b] =>
      let v := Z.shiftl a 16 + Z.shiftl b 8 in
      sextet (Z.shiftr v 18) +:+ sextet (Z.shiftr v 12) +:+ sextet (Z.shiftr v 6) +:+ (if padded then "=" else "")
  | [a] =>
      let v := Z.shiftl a 16 in
      sextet (Z.shiftr v 18) +:+ sextet (Z.shiftr v 12) +:+ (if padded then "==" else "")
  | [] => ""
  end.

Example base64_padding : (EncodeToString true [255; 254], EncodeToString false [105]) = ("__4=", "aQ").
Proof. reflexivity. Qed.

(** ** Media types *)

Definition MediaType : Type := string.
Definition MediaImage : MediaType := "WhatsApp Image Keys".
Definition MediaVideo : MediaType := "WhatsApp Video Keys".
Definition MediaAudio : MediaType := "WhatsApp Audio Keys".
Definition MediaDocument : MediaType := "WhatsApp Document Keys".
Definition MediaHistory : MediaType := "WhatsApp History Keys".
Definition MediaAppState : MediaType := "WhatsApp App State Keys".
Definition MediaStickerPack : MediaType := "WhatsApp Sticker Pack Keys".
Definition MediaLinkThumbnail : MediaType := "WhatsApp Link Thumbnail Keys".

(** A missing key of a map gives the empty string. *)
Fixpoint assoc (l : list (string * string)) (k : string) : string :=
  match l with [] => "" | (k', v) :: l => if String.eqb k k' then v else assoc l k end.

Definition classToMediaType : list (string * MediaType) :=
  [("ImageMessage", MediaImage); ("AudioMessage", MediaAudio); ("VideoMessage", MediaVideo);
   ("DocumentMessage", MediaDocument); ("StickerMessage", MediaImage); ("StickerMetadata", MediaImage);
   ("StickerPackMessage", MediaStickerPack); ("HistorySyncNotification", MediaHistory);
   ("ExternalBlobReference", MediaAppState)].
Definition classToThumbnailMediaType : list (string * MediaType) := [("ExtendedTextMessage", MediaLinkThumbnail)].
Definition mediaTypeToMMSType : list (MediaType * string) :=
  [(MediaImage, "image"); (MediaAudio, "audio"); (MediaVideo, "video"); (MediaDocument, "document");
   (MediaHistory, "md-msg-hist"); (MediaAppState, "md-app-state"); (MediaStickerPack, "sticker-pack");
   (MediaLinkThumbnail, "thumbnail-link")].

(** What [GetMediaType] tells apart: the names are those of protobuf messages. *)
Inductive msg_class : Type :=
| StickerPackItem
| ProtoMessage (name : string)
| MediaTypeable (t : MediaType)
| OtherClass.
Record DownloadableMessage : Type := mkDownloadable {
  dm_class : msg_class;
  DirectPath : string;
  MediaKey : option Bytes;
  FileSHA256 : option Bytes;
  FileEncSHA256 : option Bytes }.
Definition GetMediaType (msg : DownloadableMessage) : MediaType :=
  match dm_class msg with
  | StickerPackItem => MediaImage
  | ProtoMessage name => assoc classToMediaType name
  | MediaTypeable t => t
  | OtherClass => ""
  end.

(** ** The servers of the media *)

Record MediaConn : Type := mkMediaConn {
  Auth : string;
  AuthTTL : Z;
  TTL : Z;
  MaxBuckets : Z;
  FetchedAt : Time;
  Hosts : list string }.
Definition Expiry (mc : MediaConn) : Time := Add (FetchedAt mc) (wrap64 (TTL mc * Second)).

Inductive conn_error : Type :=
| ErrConnQuery (e : iq_error)
| ErrConnTag
| ErrConnAttrs (errs : list attr_error)
| ErrConnHost (errs : list attr_error).

Definition mediaConnQuery : infoQuery :=
  mkQuery "w:m" iqSet ServerJID EmptyJID "" "" (VNodes [mkNode "media_conn" [] VNil]) 0 false.

(** The error of a host is reported with the errors of the element around it. *)
Fixpoint readHosts (outer : list attr_error) (children : list node) (hosts : list string) : conn_error + list string :=
  match children with
  | [] => inr hosts
  | child :: children =>
      if negb (String.eqb (Tag child) "host") then readHosts outer children hosts
      else
        let '(hostname, cag) := getString "hostname" (AttrGetter child) in
        if OK cag then readHosts outer children (hosts ++ [hostname]) else inl (ErrConnHost outer)
  end.

(** [now] is the reading of the clock after the response, [resp] the result of
    the query. *)
Definition queryMediaConn (now : Time) (resp : iq_error + node) : conn_error + MediaConn :=
  match resp with
  | inl e => inl (ErrConnQuery e)
  | inr resp =>
      match GetChildren resp with
      | [] => inl ErrConnTag
      | respMC :: _ =>
          if negb (String.eqb (Tag respMC) "media_conn") then inl ErrConnTag
          else
            let '(auth, ag) := getString "auth" (AttrGetter respMC) in
            let '(ttl, ag) := Int "ttl" ag in
            let '(auth_ttl, ag) := Int "auth_ttl" ag in
            let '(max_buckets, ag) := Int "max_buckets" ag in
            if negb (OK ag) then inl (ErrConnAttrs (Errors ag))
            else
              match readHosts (Errors ag) (GetChildren respMC) [] with
              | inl e => inl e
              | inr hosts => inr (mkMediaConn auth auth_ttl ttl max_buckets now hosts)
              end
      end
  end.

(** The result, and the cache. *)
Definition refreshMediaConn (force : bool) (now fetched : Time) (resp : iq_error + node) (cache : option MediaConn)
  : (conn_error + MediaConn) * option MediaConn :=
  match cache with
  | Some mc =>
      if force || bool_decide (After now (Expiry mc)) then
        match queryMediaConn fetched resp with inl e => (inl e, None) | inr mc => (inr mc, Some mc) end
      else (inr mc, Some mc)
  | None => match queryMediaConn fetched resp with inl e => (inl e, None) | inr mc => (inr mc, Some mc) end
  end.

(** ** Replies and errors *)

(** An error of the transport: whether it is the end of the context, a
    [net.Error], and whether its text starts with [stream error:]. *)
Record net_error : Type := mkNetError { is_canceled : bool; is_net : bool; is_stream : bool }.

Inductive media_error : Type :=
| ErrUnknownMediaType
| ErrNoURLPresent
| ErrNothingDownloadableFound
| ErrPathSlash (path : string)
| ErrConn (e : conn_error)
| ErrTransport (e : net_error)
| ErrStatus (code : Z)
| ErrCtx (canceled : bool)
| ErrChecksumLength (n : Z)
| ErrTooShortFile
| ErrInvalidMediaEncSHA256
| ErrInvalidMediaHMAC
| ErrInvalidMediaSHA256
| ErrInvalidUnencryptedMediaSHA256
| ErrDecrypt (e : cbc_error)
| ErrFile
| ErrLastHost (e : media_error).

(** A reply to a download: an error instead of it, a status other than 200, or a
    body that ends well or in an error. *)
Inductive reply : Type :=
| NoReply (e : net_error)
| BadStatus (code : Z)
| Body (content_length : Z) (data : Bytes) (end_ : option net_error).

(** The errors after which no other host is tried. *)
Definition final_error (e : media_error) : bool :=
  match e with
  | ErrInvalidMediaSHA256 => true
  | ErrStatus c => (c =? 403) || (c =? 404) || (c =? 410)
  | ErrTransport e => is_canceled e
  | ErrCtx canceled => canceled
  | _ => false
  end.

(** ** A file *)

(** Each operation takes the next fault: with [Some n] it fails, a write after
    [n] bytes. *)
Record File : Type := mkFile {
  contents : Bytes;
  offset : nat;
  file_faults : list (option nat) }.
#[export] Instance eta_File : Eta File := fun r => mkFile (contents r) (offset r) (file_faults r).

Definition next_file_fault (f : File) : option nat * File :=
  match file_faults f with [] => (None, f) | x :: l => (x, f <| file_faults := l |>) end.
(** The bytes between the end of the file and the place are zeros. *)
Definition put_at (place : nat) (data old : Bytes) : Bytes :=
  take place old ++ replicate (place - length old) 0 ++ data ++ drop (place + length data) old.

Definition file_write (data : Bytes) (f : File) : bool * File :=
  match next_file_fault f with
  | (None, f) => (true, f <| contents := put_at (offset f) data (contents f) |> <| offset := (offset f + length data)%nat |>)
  | (Some n, f) =>
      let data := take n data in
      (false, f <| contents := put_at (offset f) data (contents f) |> <| offset := (offset f + length data)%nat |>)
  end.
Definition file_seek_start (f : File) : bool * File :=
  match next_file_fault f with
  | (None, f) => (true, f <| offset := 0%nat |>)
  | (Some _, f) => (false, f)
  end.
(** The rest of the file, from the offset. *)
Definition file_read_all (f : File) : option Bytes * File :=
  match next_file_fault f with
  | (None, f) => (Some (drop (offset f) (contents f)), f <| offset := Nat.max (offset f) (length (contents f)) |>)
  | (Some _, f) => (None, f)
  end.
(** [ReadAt] fails when there are fewer than [n] bytes. *)
Definition file_read_at (n place : nat) (f : File) : option Bytes * File :=
  match next_file_fault f with
  | (None, f) =>
      let b := take n (drop place (contents f)) in
      (if (length b =? n)%nat then Some b else None, f)
  | (Some _, f) => (None, f)
  end.
Definition file_truncate (n : nat) (f : File) : bool * File :=
  match next_file_fault f with
  | (None, f) => (true, f <| contents := take n (contents f) ++ replicate (n - length (contents f)) 0 |>)
  | (Some _, f) => (false, f)
  end.

(** ** Downloading *)

Definition mediaHMACLength : nat := 10.
Definition zeroHash : Bytes := replicate 32 0.

Section Media.
Context (hkdf_SHA256 : Bytes -> Bytes -> Bytes -> Z -> Bytes).
Context (sha256 : Bytes -> Bytes) (hmac256 : Bytes -> Bytes -> Bytes).
Context {Block : Type} (NewCipher : Bytes -> option Block) (Enc Dec : Block -> Bytes -> Bytes).
(** [retryafter.Should]: the statuses after which the request is made again. *)
Context (retry_status : Z -> bool).
(** The replies by the number of the request and its URL; and, by the number of
    requests made, whether the context ends during the wait after them, and how. *)
Context (server : nat -> string -> reply) (ctx_done : nat -> option bool).

Definition hmac_equal (mac1 mac2 : Bytes) : bool := bool_decide (mac1 = mac2).

(** The IV, the key of the cipher and the key of the checksum. *)
Definition getMediaKeys (mediaKey : option Bytes) (appInfo : MediaType) : Bytes * Bytes * Bytes :=
  let expanded := hkdf_SHA256 (default [] mediaKey) [] (codes appInfo) 112 in
  (take 16 expanded, take 32 (drop 16 expanded), take 32 (drop 48 expanded)).

Definition shouldRetryMediaDownload (e : media_error) : bool :=
  match e with
  | ErrTransport e => negb (is_canceled e) && (is_net e || is_stream e)
  | ErrStatus c => retry_status c
  | _ => false
  end.

Definition doMediaDownloadRequest (url : string) (n : nat) : (media_error + Z * Bytes * option net_error) * nat :=
  (match server n url with
   | NoReply e => inl (ErrTransport e)
   | BadStatus c => inl (ErrStatus c)
   | Body len data e => inr (len, data, e)
   end, S n).

(** *** In memory *)

Definition downloadMedia (url : string) (n : nat) : (media_error + Bytes) * nat :=
  let '(r, n) := doMediaDownloadRequest url n in
  (match r with
   | inl e => inl e
   | inr (_, data, Some e) => inl (ErrTransport e)
   | inr (_, data, None) => inr data
   end, n).

Definition downloadEncryptedMedia (url : string) (checksum : Bytes) (n : nat) : (media_error + Bytes * Bytes) * nat :=
  if negb (length checksum =? 32)%nat then (inl (ErrChecksumLength (Z.of_nat (length checksum))), n)
  else
    let '(r, n) := downloadMedia url n in
    (match r with
     | inl e => inl e
     | inr data =>
         if (length data <=? mediaHMACLength)%nat then inl ErrTooShortFile
         else if negb (bool_decide (sha256 data = checksum)) then inl ErrInvalidMediaEncSHA256
         else inr (take (length data - mediaHMACLength) data, drop (length data - mediaHMACLength) data)
     end, n).

(** The file and its checksum; [last] is the error of the last attempt. *)
Definition attemptDownload (url : string) (checksum : option Bytes) (n : nat) : (media_error + Bytes * option Bytes) * nat :=
  match checksum with
  | None => let '(r, n) := downloadMedia url n in (match r with inl e => inl e | inr file => inr (file, None) end, n)
  | Some c =>
      let '(r, n) := downloadEncryptedMedia url c n in
      (match r with inl e => inl e | inr (file, mac) => inr (file, Some mac) end, n)
  end.
Fixpoint retryDownload (tries : nat) (last : option media_error) (url : string) (checksum : option Bytes) (n : nat)
  : (media_error + Bytes * option Bytes) * nat :=
  match tries with
  | O => (match last with Some e => inl e | None => inr ([], None) end, n)
  | S tries =>
      match attemptDownload url checksum n with
      | (inr r, n) => (inr r, n)
      | (inl e, n) =>
          if negb (shouldRetryMediaDownload e) then (inl e, n)
          else match ctx_done n with
               | Some canceled => (inl (ErrCtx canceled), n)
               | None => retryDownload tries (Some e) url checksum n
               end
      end
  end.
Definition downloadPossiblyEncryptedMediaWithRetries := retryDownload 5 None.

Definition validateMedia (iv file macKey mac : Bytes) : option media_error :=
  if hmac_equal (take mediaHMACLength (hmac256 macKey (iv ++ file))) mac then None else Some ErrInvalidMediaHMAC.

Definition sha256_is (data : Bytes) (hash : option Bytes) : bool :=
  let hash := default [] hash in (length hash =? 32)%nat && bool_decide (sha256 data = hash).

(** The data, the error, and the number of requests made. *)
Definition downloadAndDecrypt (url : string) (mediaKey : option Bytes) (appInfo : MediaType)
    (fileEncSHA256 fileSHA256 : option Bytes) (n : nat) : outcome (option Bytes * option media_error * nat) :=
  let '(iv, cipherKey, macKey) := getMediaKeys mediaKey appInfo in
  let '(r, n) := downloadPossiblyEncryptedMediaWithRetries url fileEncSHA256 n in
  match r with
  | inl e => Ret (None, Some e, n)
  | inr (ciphertext, mac) =>
      match mediaKey, fileEncSHA256, mac with
      | None, None, None =>
          let bad := match fileSHA256 with None => false | Some _ => negb (sha256_is ciphertext fileSHA256) end in
          Ret (Some ciphertext, if bad then Some ErrInvalidUnencryptedMediaSHA256 else None, n)
      | _, _, _ =>
          match validateMedia iv ciphertext macKey (default [] mac) with
          | Some e => Ret (None, Some e, n)
          | None =>
              d ← Decrypt NewCipher Dec cipherKey iv ciphertext;
              Ret (match d with
                   | inl e => (None, Some (ErrDecrypt e), n)
                   | inr data => (Some data, if sha256_is data fileSHA256 then None else Some ErrInvalidMediaSHA256, n)
                   end)
          end
      end
  end.

Definition mediaURL (host directPath : string) (encFileHash : option Bytes) (mmsType : string) : string :=
  "https://" +:+ host +:+ directPath +:+ "&hash=" +:+ EncodeToString true (default [] encFileHash)
  +:+ "&mms-type=" +:+ mmsType +:+ "&__wa-mms=".

(** One host after the other. *)
Fixpoint tryHosts (hosts : list string) (directPath : string) (encFileHash fileHash mediaKey : option Bytes)
    (mediaType : MediaType) (mmsType : string) (n : nat) : outcome (option Bytes * option media_error * nat) :=
  match hosts with
  | [] => Ret (None, None, n)
  | host :: hosts =>
      '(data, err, n) ← downloadAndDecrypt (mediaURL host directPath encFileHash mmsType) mediaKey mediaType encFileHash fileHash n;
      match err with
      | None => Ret (data, None, n)
      | Some e =>
          if final_error e then Ret (data, Some e, n)
          else match hosts with
               | [] => Ret (None, Some (ErrLastHost e), n)
               | _ => tryHosts hosts directPath encFileHash fileHash mediaKey mediaType mmsType n
               end
      end
  end.

(** [conn] is the result of [refreshMediaConn]. *)
Definition DownloadMediaWithPath (conn : conn_error + MediaConn) (directPath : string)
    (encFileHash fileHash mediaKey : option Bytes) (mediaType : MediaType) (mmsType : string) (allowNoHash : bool) (n : nat)
  : outcome (option Bytes * option media_error * nat) :=
  let fileHash := if negb allowNoHash then Some (default zeroHash fileHash) else fileHash in
  if negb (has_prefix directPath "/") then Ret (None, Some (ErrPathSlash directPath), n)
  else
    match conn with
    | inl e => Ret (None, Some (ErrConn e), n)
    | inr mediaConn =>
        let mmsType := if String.eqb mmsType "" then assoc mediaTypeToMMSType mediaType else mmsType in
        tryHosts (Hosts mediaConn) directPath encFileHash fileHash mediaKey mediaType mmsType n
    end.

Definition Download (conn : conn_error + MediaConn) (msg : DownloadableMessage) (n : nat)
  : outcome (option Bytes * option media_error * nat) :=
  let mediaType := GetMediaType msg in
  if String.eqb mediaType "" then Ret (None, Some ErrUnknownMediaType, n)
  else if String.eqb (DirectPath msg) "" then Ret (None, Some ErrNoURLPresent, n)
  else DownloadMediaWithPath conn (DirectPath msg) (FileEncSHA256 msg) (FileSHA256 msg) (MediaKey msg) mediaType
         (assoc mediaTypeToMMSType mediaType) false n.

(** The five kinds of attachment, in the order of the test; [None] for the whole
    is a nil message. *)
Definition DownloadAny (conn : conn_error + MediaConn) (msg : option (list (option DownloadableMessage))) (n : nat)
  : outcome (option Bytes * option media_error * nat) :=
  match msg with
  | None => Ret (None, Some ErrNothingDownloadableFound, n)
  | Some parts =>
      match omap id parts with
      | part :: _ => Download conn part n
      | [] => Ret (None, Some ErrNothingDownloadableFound, n)
      end
  end.

(** The message with its thumbnail's path and hashes in the fields. *)
Definition DownloadThumbnail (conn : conn_error + MediaConn) (name : string) (msg : DownloadableMessage) (n : nat)
  : outcome (option Bytes * option media_error * nat) :=
  let mediaType := assoc classToThumbnailMediaType name in
  if String.eqb mediaType "" then Ret (None, Some ErrUnknownMediaType, n)
  else if (0 <? len (DirectPath msg)) then
    DownloadMediaWithPath conn (DirectPath msg) (FileEncSHA256 msg) (FileSHA256 msg) (MediaKey msg) mediaType
      (assoc mediaTypeToMMSType mediaType) false n
  else Ret (None, Some ErrNoURLPresent, n).

Definition DownloadFB (conn : conn_error + MediaConn) (transport : DownloadableMessage) (mediaType : MediaType) (n : nat)
  : outcome (option Bytes * option media_error * nat) :=
  DownloadMediaWithPath conn (DirectPath transport) (FileEncSHA256 transport) (FileSHA256 transport) (MediaKey transport)
    mediaType (assoc mediaTypeToMMSType mediaType) false n.

Definition DownloadMediaWithOnlyPath (conn : conn_error + MediaConn) (directPath : string) (n : nat)
  : outcome (option Bytes * option media_error * nat) :=
  DownloadMediaWithPath conn directPath None None None "" "" true n.

(** *** Into a file

    [prealloc] is [fallocate] of a length, when the file is an [os.File]. *)
Context (prealloc : option (Z -> Bytes -> option Bytes)).

(** The number of bytes and their hash. *)
Definition downloadMediaToFile (url : string) (file : File) (n : nat) : (media_error + nat * Bytes) * File * nat :=
  let '(r, n) := doMediaDownloadRequest url n in
  match r with
  | inl e => (inl e, file, n)
  | inr (len, data, e) =>
      let '(ok, file) :=
        match prealloc with
        | Some fallocate => if len >? 0 then match fallocate len (contents file) with
                                             | Some c => (true, file <| contents := c |>)
                                             | None => (false, file)
                                             end
                            else (true, file)
        | None => (true, file)
        end in
      if negb ok then (inl ErrFile, file, n)
      else
        let '(ok, file) := file_write data file in
        (if negb ok then inl ErrFile
         else match e with Some e => inl (ErrTransport e) | None => inr (length data, sha256 data) end, file, n)
  end.

Definition downloadEncryptedMediaToFile (url : string) (checksum : Bytes) (file : File) (n : nat)
  : (media_error + Bytes) * File * nat :=
  if negb (length checksum =? 32)%nat then (inl (ErrChecksumLength (Z.of_nat (length checksum))), file, n)
  else
    let '(r, file, n) := downloadMediaToFile url file n in
    match r with
    | inl e => (inl e, file, n)
    | inr (size, hash) =>
        if (size <=? mediaHMACLength)%nat then (inl ErrTooShortFile, file, n)
        else if negb (hmac_equal checksum hash) then (inl ErrInvalidMediaEncSHA256, file, n)
        else
          let '(mac, file) := file_read_at mediaHMACLength (size - mediaHMACLength) file in
          match mac with
          | None => (inl ErrFile, file, n)
          | Some mac =>
              let '(ok, file) := file_truncate (size - mediaHMACLength) file in
              (if ok then inr mac else inl ErrFile, file, n)
          end
    end.

Definition attemptToFile (url : string) (checksum : option Bytes) (file : File) (n : nat)
  : (media_error + option Bytes) * File * nat :=
  match checksum with
  | None =>
      let '(r, file, n) := downloadMediaToFile url file n in
      (match r with inl e => inl e | inr _ => inr None end, file, n)
  | Some c =>
      let '(r, file, n) := downloadEncryptedMediaToFile url c file n in
      (match r with inl e => inl e | inr mac => inr (Some mac) end, file, n)
  end.
(** The error of an attempt is overwritten by the result of the seek after it. *)
Fixpoint retryToFile (tries : nat) (url : string) (checksum : option Bytes) (file : File) (n : nat)
  : (media_error + option Bytes) * File * nat :=
  match tries with
  | O => (inr None, file, n)
  | S tries =>
      match attemptToFile url checksum file n with
      | (inr mac, file, n) => (inr mac, file, n)
      | (inl e, file, n) =>
          if negb (shouldRetryMediaDownload e) then (inl e, file, n)
          else
            let '(ok, file) := file_seek_start file in
            if negb ok then (inl ErrFile, file, n)
            else match ctx_done n with
                 | Some canceled => (inl (ErrCtx canceled), file, n)
                 | None => retryToFile tries url checksum file n
                 end
      end
  end.
Definition downloadPossiblyEncryptedMediaWithRetriesToFile := retryToFile 5.

(** Seek to the start, and read everything. *)
Definition rewind_read (file : File) : option Bytes * File :=
  let '(ok, file) := file_seek_start file in
  if ok then file_read_all file else (None, file).

Definition validateMediaFile (file : File) (iv macKey mac : Bytes) : option media_error * File :=
  let '(data, file) := rewind_read file in
  (match data with
   | None => Some ErrFile
   | Some data => if hmac_equal (take mediaHMACLength (hmac256 macKey (iv ++ data))) mac then None else Some ErrInvalidMediaHMAC
   end, file).

(** [fate] says which operations of [DecryptFile] fail; what it leaves in the
    file when it fails is not modelled. *)
Definition downloadAndDecryptToFile (fate : file_fate) (url : string) (mediaKey : option Bytes) (appInfo : MediaType)
    (fileEncSHA256 fileSHA256 : option Bytes) (file : File) (n : nat) : outcome (option media_error * File * nat) :=
  let '(iv, cipherKey, macKey) := getMediaKeys mediaKey appInfo in
  let '(r, file, n) := downloadPossiblyEncryptedMediaWithRetriesToFile url fileEncSHA256 file n in
  match r with
  | inl e => Ret (Some e, file, n)
  | inr mac =>
      match mediaKey, fileEncSHA256, mac with
      | None, None, None =>
          match fileSHA256 with
          | None => Ret (None, file, n)
          | Some hash =>
              let '(data, file) := rewind_read file in
              Ret (match data with
                   | None => Some ErrFile
                   | Some data => if hmac_equal hash (sha256 data) then None else Some ErrInvalidUnencryptedMediaSHA256
                   end, file, n)
          end
      | _, _, _ =>
          let '(err, file) := validateMediaFile file iv macKey (default [] mac) in
          match err with
          | Some e => Ret (Some e, file, n)
          | None =>
              let '(ok, file) := file_seek_start file in
              if negb ok then Ret (Some ErrFile, file, n)
              else
                d ← DecryptFile NewCipher Dec fate cipherKey iv (contents file);
                match d with
                | inl e => Ret (Some (ErrDecrypt e), file, n)
                | inr plain =>
                    let '(data, file) := rewind_read (file <| contents := plain |>) in
                    Ret (match data with
                         | None => Some ErrFile
                         | Some data => if hmac_equal (default [] fileSHA256) (sha256 data) then None else Some ErrInvalidMediaSHA256
                         end, file, n)
                end
          end
      end
  end.

Fixpoint tryHostsToFile (fate : file_fate) (hosts : list string) (directPath : string) (encFileHash fileHash mediaKey : option Bytes)
    (mediaType : MediaType) (mmsType : string) (file : File) (n : nat) : outcome (option media_error * File * nat) :=
  match hosts with
  | [] => Ret (None, file, n)
  | host :: hosts =>
      '(err, file, n) ← downloadAndDecryptToFile fate (mediaURL host directPath encFileHash mmsType) mediaKey mediaType
                          encFileHash fileHash file n;
      match err with
      | None => Ret (None, file, n)
      | Some e =>
          if final_error e then Ret (Some e, file, n)
          else match hosts with
               | [] => Ret (Some (ErrLastHost e), file, n)
               | _ => tryHostsToFile fate hosts directPath encFileHash fileHash mediaKey mediaType mmsType file n
               end
      end
  end.

Definition DownloadMediaWithPathToFile (fate : file_fate) (conn : conn_error + MediaConn) (directPath : string)
    (encFileHash fileHash mediaKey : option Bytes) (mediaType : MediaType) (mmsType : string) (allowNoHash : bool)
    (file : File) (n : nat) : outcome (option media_error * File * nat) :=
  let fileHash := if negb allowNoHash then Some (default zeroHash fileHash) else fileHash in
  if negb (has_prefix directPath "/") then Ret (Some (ErrPathSlash directPath), file, n)
  else
    match conn with
    | inl e => Ret (Some (ErrConn e), file, n)
    | inr mediaConn =>
        let mmsType := if String.eqb mmsType "" then assoc mediaTypeToMMSType mediaType else mmsType in
        tryHostsToFile fate (Hosts mediaConn) directPath encFileHash fileHash mediaKey mediaType mmsType file n
    end.

Definition DownloadToFile (fate : file_fate) (conn : conn_error + MediaConn) (msg : DownloadableMessage) (file : File) (n : nat)
  : outcome (option media_error * File * nat) :=
  let mediaType := GetMediaType msg in
  if String.eqb mediaType "" then Ret (Some ErrUnknownMediaType, file, n)
  else if String.eqb (DirectPath msg) "" then Ret (Some ErrNoURLPresent, file, n)
  else DownloadMediaWithPathToFile fate conn (DirectPath msg) (FileEncSHA256 msg) (FileSHA256 msg) (MediaKey msg) mediaType
         (assoc mediaTypeToMMSType mediaType) false file n.

Definition DownloadFBToFile (fate : file_fate) (conn : conn_error + MediaConn) (transport : DownloadableMessage)
    (mediaType : MediaType) (file : File) (n : nat) : outcome (option media_error * File * nat) :=
  DownloadMediaWithPathToFile fate conn (DirectPath transport) (FileEncSHA256 transport) (FileSHA256 transport)
    (MediaKey transport) mediaType (assoc mediaTypeToMMSType mediaType) false file n.

Definition DownloadMediaWithOnlyPathToFile (fate : file_fate) (conn : conn_error + MediaConn) (directPath : string)
    (file : File) (n : nat) : outcome (option media_error * File * nat) :=
  DownloadMediaWithPathToFile fate conn directPath None None None "" "" true file n.

(** ** Uploading *)

Record UploadResponse : Type := mkUploadResponse {
  u_URL : string;
  u_DirectPath : string;
  u_Handle : string;
  u_ObjectID : string;
  u_MediaKey : option Bytes;
  u_FileEncSHA256 : option Bytes;
  u_FileSHA256 : option Bytes;
  u_FileLength : Z }.

(** A request: its method, the parts of its URL, its body and the length that
    its header says. *)
Record request : Type := mkRequest {
  rq_Method : string;
  rq_Host : string;
  rq_Path : string;
  rq_Query : list (string * string);
  rq_Body : Bytes;
  rq_ContentLength : Z }.

(** The reply to an upload; the fields that could be decoded are written over
    those of the response. *)
Inductive upload_reply : Type :=
| PostFailed
| PostStatus (code : Z)
| PostBody (url direct_path handle object_id : option string) (ok : bool).
Definition decodeResponse (url direct_path handle object_id : option string) (r : UploadResponse) : UploadResponse :=
  mkUploadResponse (default (u_URL r) url) (default (u_DirectPath r) direct_path) (default (u_Handle r) handle)
    (default (u_ObjectID r) object_id) (u_MediaKey r) (u_FileEncSHA256 r) (u_FileSHA256 r) (u_FileLength r).

Inductive upload_error : Type :=
| UpConn (e : conn_error)
| UpCipher (e : cbc_error)
| UpTempFile
| UpSeek
| UpPost
| UpStatus (code : Z)
| UpDecode.

(** [messenger] is whether there is a [MessengerConfig]. *)
Definition uploadRequest (messenger newsletter : bool) (mediaConn : MediaConn) (body : Bytes) (uploadSize : Z)
    (fileHash : Bytes) (appInfo : MediaType) : outcome request :=
  let token := EncodeToString true fileHash in
  let mmsType := assoc mediaTypeToMMSType appInfo in
  let mmsType := if messenger && String.eqb mmsType "audio" then "ptt" else mmsType in
  let uploadPrefix := if messenger then "wa-msgr/mms" else "mms" in
  let mmsType := if newsletter then "newsletter-" +:+ mmsType else mmsType in
  let uploadPrefix := if newsletter then "newsletter" else uploadPrefix in
  host ← at_ (Hosts mediaConn) (if messenger then Z.of_nat (length (Hosts mediaConn)) - 1 else 0);
  Ret (mkRequest "POST" host ("/" +:+ uploadPrefix +:+ "/" +:+ mmsType +:+ "/" +:+ token)
         [("auth", Auth mediaConn); ("token", token)] body uploadSize).

(** [post] is the server; the request that was made is in the result. *)
Definition rawUpload (messenger newsletter : bool) (conn : conn_error + MediaConn) (post : request -> upload_reply)
    (body : Bytes) (uploadSize : Z) (fileHash : Bytes) (appInfo : MediaType) (resp : UploadResponse)
  : outcome (UploadResponse * option upload_error * option request) :=
  match conn with
  | inl e => Ret (resp, Some (UpConn e), None)
  | inr mediaConn =>
      req ← uploadRequest messenger newsletter mediaConn body uploadSize fileHash appInfo;
      Ret (match post req with
           | PostFailed => (resp, Some UpPost, Some req)
           | PostStatus c => (resp, Some (UpStatus c), Some req)
           | PostBody url path handle object ok => (decodeResponse url path handle object resp, if ok then None else Some UpDecode, Some req)
           end)
  end.

Definition emptyResponse : UploadResponse := mkUploadResponse "" "" "" "" None None None 0.

(** [key] is the 32 random bytes. *)
Definition Upload (messenger : bool) (conn : conn_error + MediaConn) (post : request -> upload_reply)
    (key plaintext : Bytes) (appInfo : MediaType) : outcome (UploadResponse * option upload_error * option request) :=
  let '(iv, cipherKey, macKey) := getMediaKeys (Some key) appInfo in
  c ← Encrypt NewCipher Enc cipherKey (Some iv) None plaintext;
  match c with
  | inl e => Ret (mkUploadResponse "" "" "" "" (Some key) None (Some (sha256 plaintext)) (Z.of_nat (length plaintext)),
                  Some (UpCipher e), None)
  | inr ciphertext =>
      let dataToUpload := ciphertext ++ take 10 (hmac256 macKey (iv ++ ciphertext)) in
      let dataHash := sha256 dataToUpload in
      rawUpload messenger false conn post dataToUpload (Z.of_nat (length dataToUpload)) dataHash appInfo
        (mkUploadResponse "" "" "" "" (Some key) (Some dataHash) (Some (sha256 plaintext)) (Z.of_nat (length plaintext)))
  end.

(** The temporary file: [None] creates an empty one, which may fail; otherwise
    whether it has [WriteAt], and the file.  The plaintext is read from somewhere
    else.  The faults of the reader and of the writes are those of
    [EncryptStream]; [seek_fails] is the seek before the upload. *)
Definition UploadReader (messenger : bool) (conn : conn_error + MediaConn) (post : request -> upload_reply)
    (create_fails : bool) (tempFile : option (bool * File)) (read_error : bool) (write_fails : nat -> bool)
    (mac_write_fails seek_fails : bool) (key plaintext : Bytes) (appInfo : MediaType)
  : outcome (UploadResponse * option upload_error * option request) :=
  let failed e := Ret (mkUploadResponse "" "" "" "" (Some key) None None 0, Some e, None) in
  let '(iv, cipherKey, macKey) := getMediaKeys (Some key) appInfo in
  match (match tempFile with
         | None => if create_fails then None else Some (true, mkFile [] 0 [])
         | Some f => Some f
         end) with
  | None => failed UpTempFile
  | Some (hasWriterAt, file) =>
      r ← EncryptStream NewCipher Enc sha256 hmac256 read_error write_fails mac_write_fails cipherKey iv macKey plaintext;
      match r with
      | inl e => failed (UpCipher e)
      | inr (fileSHA256, fileEncSHA256, fileLength, uploadSize, written) =>
          let resp := mkUploadResponse "" "" "" "" (Some key) (Some fileEncSHA256) (Some fileSHA256) fileLength in
          if seek_fails then Ret (resp, Some UpSeek, None)
          else
            let body := put_at (if hasWriterAt then 0%nat else offset file) written (contents file) in
            rawUpload messenger false conn post body uploadSize fileEncSHA256 appInfo resp
      end
  end.

Definition UploadNewsletter (messenger : bool) (conn : conn_error + MediaConn) (post : request -> upload_reply)
    (data : Bytes) (appInfo : MediaType) : outcome (UploadResponse * option upload_error * option request) :=
  let hash := sha256 data in
  let resp := mkUploadResponse "" "" "" "" None None (Some hash) (Z.of_nat (length data)) in
  rawUpload messenger true conn post data (Z.of_nat (length data)) hash appInfo resp.

(** The data is what is read from the offset of the reader, up to [readable]
    bytes if the reading ends in an error, which is not looked at; the upload
    reads from the start. *)
Definition UploadNewsletterReader (messenger : bool) (conn : conn_error + MediaConn) (post : request -> upload_reply)
    (data : Bytes) (position : nat) (readable : option nat) (seek_fails : bool) (appInfo : MediaType)
  : outcome (UploadResponse * option upload_error * option request) :=
  let hashed := match readable with Some n => take n (drop position data) | None => drop position data end in
  let resp := mkUploadResponse "" "" "" "" None None (Some (sha256 hashed)) (Z.of_nat (length hashed)) in
  if seek_fails then Ret (resp, Some UpSeek, None)
  else rawUpload messenger true conn post data (Z.of_nat (length hashed)) (sha256 hashed) appInfo resp.

(** *** [DeleteMedia] *)

Inductive delete_error : Type :=
| DelConn (e : conn_error)
| DelRequest
| DelStatus (code : Z).

(** [reply] is the status of the reply, if there is one. *)
Definition DeleteMedia (conn : conn_error + MediaConn) (reply : request -> option Z) (appInfo : MediaType)
    (directPath : string) (encFileHash : option Bytes) (encHandle : string) : outcome (option delete_error * option request) :=
  match conn with
  | inl e => Ret (Some (DelConn e), None)
  | inr mediaConn =>
      let directPath := match index_byte directPath "?"%char with
                        | Some (S i) => take_str (S i) directPath
                        | _ => directPath
                        end in
      let token := EncodeToString true (default [] encFileHash) in
      let query := [("token", token); ("d_md", EncodeToString false (codes directPath)); ("auth", Auth mediaConn)]
                   ++ (if String.eqb encHandle "" then [] else [("e_handle", encHandle)]) in
      host ← at_ (Hosts mediaConn) 0;
      let req := mkRequest "DELETE" host ("/mms/" +:+ assoc mediaTypeToMMSType appInfo +:+ "/" +:+ token) query [] 0 in
      Ret (match reply req with
           | None => Some DelRequest
           | Some c => if (c <? 200) || (c >=? 300) then Some (DelStatus c) else None
           end, Some req)
  end.
End Media.

(** ** What is uploaded is what is downloaded *)

Section MediaProofs.
Context (hkdf_SHA256 : Bytes -> Bytes -> Bytes -> Z -> Bytes).
Context (sha256 : Bytes -> Bytes) (hmac256 : Bytes -> Bytes -> Bytes).
Context {Block : Type} (NewCipher : Bytes -> option Block) (Enc Dec : Block -> Bytes -> Bytes).
Context (retry_status : Z -> bool).
Context (server : nat -> string -> reply) (ctx_done : nat -> option bool).
Notation getMediaKeys := (getMediaKeys hkdf_SHA256).
Notation shouldRetry := (shouldRetryMediaDownload retry_status).
Notation attemptDownload := (attemptDownload sha256 server).
Notation retryDownload := (retryDownload sha256 retry_status server ctx_done).
Notation downloadAndDecrypt := (downloadAndDecrypt hkdf_SHA256 sha256 hmac256 NewCipher Dec retry_status server ctx_done).
Notation tryHosts := (tryHosts hkdf_SHA256 sha256 hmac256 NewCipher Dec retry_status server ctx_done).
Notation DownloadMediaWithPath := (DownloadMediaWithPath hkdf_SHA256 sha256 hmac256 NewCipher Dec retry_status server ctx_done).
Notation Upload := (Upload hkdf_SHA256 sha256 hmac256 NewCipher Enc).
Notation UploadReader := (UploadReader hkdf_SHA256 sha256 hmac256 NewCipher Enc).

Lemma sha256_is_spec data hash : sha256_is sha256 data hash = true -> hash = Some (sha256 data) \/ hash = None.
Proof.
  unfold sha256_is. intros [_ H%bool_decide_eq_true]%andb_true_iff. destruct hash as [h|]; [left; cbn in H; by subst|by right].
Qed.

Lemma downloadAndDecrypt_checked url key app enc h n data n' :
  downloadAndDecrypt url key app enc (Some h) n = Ret (data, None, n') -> data ≫= (fun d => Some (sha256 d)) = Some h.
Proof.
  unfold Media.downloadAndDecrypt. destruct (getMediaKeys key app) as [[iv ck] mk].
  destruct (downloadPossiblyEncryptedMediaWithRetries _ _ _ _ url enc n) as [[e|[c mac]] n1]; [done|].
  assert (forall d, sha256_is sha256 d (Some h) = true -> Some (sha256 d) = Some h) as Hs
    by (intros d [Hd|Hd]%sha256_is_spec; [by injection Hd as ->|done]).
  destruct key, enc, mac; try (destruct (validateMedia _ _ _ _ _); [done|];
    destruct (Decrypt _ _ _ _ _) as [[e|d]|]; cbn; try done; destruct (sha256_is _ d _) eqn:Hh; [|done];
    intros [= <- _]; cbn; by apply Hs).
  destruct (sha256_is _ c _) eqn:Hh; [|done]. intros [= <- _]. cbn. by apply Hs.
Qed.

(** C32. Whatever the server answers, a download that ends without an error has the
    hash that was asked for, unless there is no host at all. *)
Theorem download_integrity conn path enc hash key app mms n data n' mc :
  DownloadMediaWithPath conn path enc hash key app mms false n = Ret (data, None, n') -> conn = inr mc -> Hosts mc <> [] ->
  exists d, data = Some d /\ sha256 d = default zeroHash hash.
Proof.
  unfold Media.DownloadMediaWithPath. intros Hd -> Hh. destruct (negb (has_prefix path "/")); [done|].
  cbn [negb] in Hd. set (mms' := if String.eqb mms "" then _ else mms) in *. clearbody mms'.
  destruct (Hosts mc) as [|host hosts]; [done|]. clear Hh. revert host n Hd.
  induction hosts as [|host' hosts IH]; intros host n; cbn [Media.tryHosts];
    destruct (downloadAndDecrypt _ _ _ _ _ n) as [[[d [e|]] n1]|] eqn:Hr; cbn [mbind outcome_bind]; try done.
  2, 4: intros [= -> _]; apply downloadAndDecrypt_checked in Hr; destruct data as [d|]; [|done];
        injection Hr as Hr; by exists d.
  - by destruct (final_error e).
  - destruct (final_error e); [done|]. apply IH.
Qed.

(** *** Retries *)

(** A reply after which the request is made again. *)
Definition retried (r : reply) : bool :=
  match r with
  | NoReply e => shouldRetry (ErrTransport e)
  | BadStatus c => shouldRetry (ErrStatus c)
  | Body _ _ (Some e) => shouldRetry (ErrTransport e)
  | Body _ _ None => false
  end.

Lemma attempt_retried url checksum n :
  retried (server n url) = true -> (forall c, checksum = Some c -> length c = 32%nat) ->
  exists e, attemptDownload url checksum n = (inl e, S n) /\ shouldRetry e = true.
Proof.
  unfold retried, Media.attemptDownload, downloadEncryptedMedia, downloadMedia, doMediaDownloadRequest. intros Hr Hc.
  assert (forall c, checksum = Some c -> (length c =? 32)%nat = true) as Hc' by (intros c Hs; apply Nat.eqb_eq; by apply Hc).
  destruct checksum as [c|]; [rewrite (Hc' c eq_refl)|]; cbn [negb];
    (destruct (server n url) as [e|code|l data [e|]]; [| | |done]); by eexists.
Qed.

(** [j] replies that are retried are without effect, as long as an attempt is left. *)
Lemma retryDownload_skip url checksum j : forall tries n last,
  (j < tries)%nat -> (forall i, (i < j)%nat -> retried (server (n + i) url) = true) ->
  (forall i, (i < j)%nat -> ctx_done (S (n + i)) = None) -> (forall c, checksum = Some c -> length c = 32%nat) ->
  exists last', retryDownload tries last url checksum n = retryDownload (tries - j) last' url checksum (n + j).
Proof.
  induction j as [|j IH]; intros tries n last Hj Hr Hc Hl.
  - exists last. by rewrite Nat.sub_0_r, Nat.add_0_r.
  - destruct tries as [|tries]; [lia|]. cbn [Media.retryDownload].
    destruct (attempt_retried url checksum n) as (e & He & Hs); [|done|].
    { rewrite <- (Nat.add_0_r n). apply Hr. lia. }
    rewrite He, Hs. cbn [negb]. specialize (Hc 0%nat) as Hc0. rewrite Nat.add_0_r in Hc0. rewrite Hc0 by lia.
    replace (S tries - S j)%nat with (tries - j)%nat by lia. replace (n + S j)%nat with (S n + j)%nat by lia.
    apply IH; [lia| | |done]; intros i Hi; replace (S n + i)%nat with (n + S i)%nat by lia; [apply Hr|apply Hc]; lia.
Qed.

(** *** The seal *)

(** The key derivation fills its buffer, the hashes are of 32 bytes, and AES takes
    a key of 32 bytes to a permutation of the blocks. *)
Hypothesis hkdf_length : forall key info, length (hkdf_SHA256 key [] info 112) = 112%nat.
Hypothesis sha256_length : forall d, length (sha256 d) = 32%nat.
Hypothesis hmac256_length : forall k d, length (hmac256 k d) = 32%nat.
Hypothesis cipher_of_key : forall key, length key = 32%nat -> is_Some (NewCipher key).
Hypothesis Enc_length : forall k b, length b = BlockSize -> length (Enc k b) = BlockSize.
Hypothesis Dec_Enc : forall k b, length b = BlockSize -> Dec k (Enc k b) = b.

Lemma getMediaKeys_length key app iv ck mk :
  getMediaKeys key app = (iv, ck, mk) -> length iv = BlockSize /\ is_Some (NewCipher ck).
Proof.
  unfold Media.getMediaKeys. intros [= <- <- <-]. split; [|apply cipher_of_key];
    by rewrite ?length_take, ?length_drop, hkdf_length.
Qed.

Definition ciphertext_of (key : option Bytes) (app : MediaType) (plaintext : Bytes) : Bytes :=
  let '(iv, ck, _) := getMediaKeys key app in
  match NewCipher ck with Some k => (encBlocks Enc k iv (to_blocks (padded plaintext))).1 | None => [] end.
Definition mac_of (key : option Bytes) (app : MediaType) (c : Bytes) : Bytes :=
  let '(iv, _, mk) := getMediaKeys key app in take 10 (hmac256 mk (iv ++ c)).
Definition sealed (key : option Bytes) (app : MediaType) (plaintext : Bytes) : Bytes :=
  let c := ciphertext_of key app plaintext in c ++ mac_of key app c.
Definition sealed_response (key : Bytes) (app : MediaType) (plaintext : Bytes) : UploadResponse :=
  mkUploadResponse "" "" "" "" (Some key) (Some (sha256 (sealed (Some key) app plaintext))) (Some (sha256 plaintext))
    (Z.of_nat (length plaintext)).

Lemma mac_length key app c : length (mac_of key app c) = 10%nat.
Proof. unfold mac_of. destruct (getMediaKeys key app) as [[iv ck] mk]. by rewrite length_take, hmac256_length. Qed.

Lemma Upload_sealed messenger conn post key plaintext app :
  Upload messenger conn post key plaintext app =
  rawUpload messenger false conn post (sealed (Some key) app plaintext)
    (Z.of_nat (length (sealed (Some key) app plaintext))) (sha256 (sealed (Some key) app plaintext)) app
    (sealed_response key app plaintext).
Proof.
  unfold Media.Upload, sealed_response, sealed, mac_of, ciphertext_of.
  destruct (getMediaKeys (Some key) app) as [[iv ck] mk] eqn:Hk.
  destruct (getMediaKeys_length _ _ _ _ _ Hk) as [Hiv [k Hck]]. rewrite Hck.
  pose proof (Encrypt_padded NewCipher Enc ck iv None plaintext k Hck Hiv) as He. change (@Some Bytes iv) with (@Some (list Z) iv). by rewrite He.
Qed.

(** Uploading from a reader, over a temporary file, is uploading the bytes. *)
Theorem UploadReader_Upload messenger conn post key plaintext app :
  UploadReader messenger conn post false None false never false false key plaintext app =
  Upload messenger conn post key plaintext app.
Proof.
  rewrite Upload_sealed. unfold Media.UploadReader, sealed_response, sealed, mac_of, ciphertext_of.
  destruct (getMediaKeys (Some key) app) as [[iv ck] mk] eqn:Hk.
  destruct (getMediaKeys_length _ _ _ _ _ Hk) as [Hiv [k Hck]]. rewrite Hck.
  unfold EncryptStream. rewrite Hck, checkIV_ok by done. cbn [mbind outcome_bind].
  rewrite (encryptLoop_spec Enc k) by (done || lia). cbn [mbind outcome_bind List.app].
  destruct (encBlocks_length Enc Enc_length k iv (padded plaintext) (padded_full _) Hiv) as [Hl _].
  set (c := (encBlocks Enc k iv (to_blocks (padded plaintext))).1) in *.
  unfold put_at. cbn [take drop contents offset length replicate List.app]. rewrite drop_nil, app_nil_r.
  f_equal. rewrite length_app, length_take, hmac256_length, Hl. unfold padded. rewrite length_app, padding_length. lia.
Qed.

Lemma rawUpload_request messenger newsletter conn post body size hash app resp resp' err req :
  rawUpload messenger newsletter conn post body size hash app resp = Ret (resp', err, Some req) ->
  rq_Body req = body /\ u_MediaKey resp' = u_MediaKey resp /\ u_FileEncSHA256 resp' = u_FileEncSHA256 resp /\
  u_FileSHA256 resp' = u_FileSHA256 resp.
Proof.
  unfold rawUpload, uploadRequest. destruct conn as [e|mc]; [done|].
  destruct (at_ (Hosts mc) _) as [host|]; cbn [mbind outcome_bind]; [|done].
  destruct (post _) as [|c|u p h o ok]; intros [= <- <- <-]; done.
Qed.

Lemma attempt_sealed url l key app plaintext n :
  server n url = Body l (sealed key app plaintext) None ->
  let c := ciphertext_of key app plaintext in
  c <> [] -> attemptDownload url (Some (sha256 (sealed key app plaintext))) n = (inr (c, Some (mac_of key app c)), S n).
Proof.
  intros Hs c Hc. unfold Media.attemptDownload, downloadEncryptedMedia, downloadMedia, doMediaDownloadRequest.
  rewrite sha256_length, Hs. cbn [negb Nat.eqb]. rewrite bool_decide_true by done. cbn [negb].
  unfold sealed. fold c. rewrite length_app, mac_length. unfold mediaHMACLength.
  destruct (Nat.leb_spec (length c + 10) 10); [destruct c; [done|simpl in *; lia]|].
  replace (length c + 10 - 10)%nat with (length c) by lia. by rewrite take_app_length, drop_app_length.
Qed.

Lemma ciphertext_nonempty key app plaintext : ciphertext_of key app plaintext <> [].
Proof.
  unfold ciphertext_of. destruct (getMediaKeys key app) as [[iv ck] mk] eqn:Hk.
  destruct (getMediaKeys_length _ _ _ _ _ Hk) as [Hiv [k ->]].
  by destruct (ciphertext_full Enc Enc_length k iv plaintext Hiv).
Qed.

Lemma downloadAndDecrypt_sealed url key app plaintext j l n :
  (j < 5)%nat -> (forall i, (i < j)%nat -> retried (server (n + i) url) = true) ->
  (forall i, (i < j)%nat -> ctx_done (S (n + i)) = None) ->
  server (n + j)%nat url = Body l (sealed key app plaintext) None ->
  downloadAndDecrypt url key app (Some (sha256 (sealed key app plaintext))) (Some (sha256 plaintext)) n
    = Ret (Some plaintext, None, S (n + j)).
Proof.
  intros Hj Hr Hc Hs. unfold Media.downloadAndDecrypt.
  pose proof (attempt_sealed url l key app plaintext (n + j) Hs (ciphertext_nonempty key app plaintext)) as Ha.
  unfold downloadPossiblyEncryptedMediaWithRetries.
  destruct (retryDownload_skip url (Some (sha256 (sealed key app plaintext))) j 5 n None) as [last ->]; [done|done|done| |].
  { intros c [= <-]. apply sha256_length. }
  destruct (5 - j)%nat as [|tries] eqn:Ht; [lia|]. cbn [Media.retryDownload]. rewrite Ha.
  unfold mac_of, ciphertext_of. destruct (getMediaKeys key app) as [[iv ck] mk] eqn:Hk.
  destruct (getMediaKeys_length _ _ _ _ _ Hk) as [Hiv [k Hck]]. rewrite Hck.
  set (c := (encBlocks Enc k iv (to_blocks (padded plaintext))).1).
  pose proof (Decrypt_ciphertext NewCipher Enc Dec Enc_length Dec_Enc ck iv plaintext k Hck Hiv) as Hd. fold c in Hd.
  unfold validateMedia, hmac_equal, sha256_is. cbn [default from_option id].
  destruct key; rewrite bool_decide_true by done; rewrite Hd; cbn [mbind outcome_bind];
    by rewrite sha256_length, bool_decide_true by done.
Qed.

(** C31. What one client uploads, another gets back, by the fields of the response and
    whatever path the server keeps it under, if the first host answers, at the
    fifth attempt at the latest, with the bytes that were uploaded. *)
Theorem media_roundtrip messenger conn post key plaintext app resp err req path mms mc host hosts n j l :
  Upload messenger conn post key plaintext app = Ret (resp, err, Some req) ->
  Hosts mc = host :: hosts -> has_prefix path "/" = true ->
  let url := mediaURL host path (u_FileEncSHA256 resp) (if String.eqb mms "" then assoc mediaTypeToMMSType app else mms) in
  (j < 5)%nat -> (forall i, (i < j)%nat -> retried (server (n + i) url) = true) ->
  (forall i, (i < j)%nat -> ctx_done (S (n + i)) = None) ->
  server (n + j)%nat url = Body l (rq_Body req) None ->
  DownloadMediaWithPath (inr mc) path (u_FileEncSHA256 resp) (u_FileSHA256 resp) (u_MediaKey resp) app mms false n
    = Ret (Some plaintext, None, S (n + j)).
Proof.
  rewrite Upload_sealed. intros Hu%rawUpload_request Hh Hp url Hj Hr Hc Hs. destruct Hu as (Hb & Hk & He & Hf).
  rewrite Hb in Hs. unfold Media.DownloadMediaWithPath. rewrite Hp, Hh. cbn [negb Media.tryHosts]. fold url.
  rewrite He, Hk, Hf in *. cbn [sealed_response u_MediaKey u_FileEncSHA256 u_FileSHA256 default from_option id] in *.
  by rewrite (downloadAndDecrypt_sealed url (Some key) app plaintext j l n).
Qed.

(** *** Into a file *)

Hypothesis Dec_length : forall k b, length b = BlockSize -> length (Dec k b) = BlockSize.
Notation attemptToFile := (attemptToFile sha256 server None).
Notation retryToFile := (retryToFile sha256 retry_status server ctx_done None).
Notation downloadAndDecryptToFile :=
  (downloadAndDecryptToFile hkdf_SHA256 sha256 hmac256 NewCipher Dec retry_status server ctx_done None).
Notation DownloadMediaWithPathToFile :=
  (DownloadMediaWithPathToFile hkdf_SHA256 sha256 hmac256 NewCipher Dec retry_status server ctx_done None).
Notation DownloadMediaWithOnlyPath := (DownloadMediaWithOnlyPath hkdf_SHA256 sha256 hmac256 NewCipher Dec retry_status server ctx_done).
Notation DownloadMediaWithOnlyPathToFile :=
  (DownloadMediaWithOnlyPathToFile hkdf_SHA256 sha256 hmac256 NewCipher Dec retry_status server ctx_done None).
Definition newFile : File := mkFile [] 0 [].

Lemma put_at_start data : put_at 0 data [] = data.
Proof. unfold put_at. cbn. by rewrite drop_nil, app_nil_r. Qed.
Lemma put_at_end data old : put_at (length old) data old = old ++ data.
Proof. unfold put_at. by rewrite take_ge, Nat.sub_diag, drop_ge, app_nil_r by lia. Qed.

Lemma file_write_ok data c o : file_write data (mkFile c o []) = (true, mkFile (put_at o data c) (o + length data) []).
Proof. done. Qed.
Lemma rewind_read_ok c o : rewind_read (mkFile c o []) = (Some c, mkFile c (length c) []).
Proof. done. Qed.

(** The file and the memory see the same, when the reply is not asked for again. *)
Lemma attempt_agrees url checksum n :
  retried (server n url) = false ->
  match attemptToFile url checksum newFile n with
  | (inl e, f, n') => attemptDownload url checksum n = (inl e, n') /\ shouldRetry e = false
  | (inr mac, f, n') => exists c o, f = mkFile c o [] /\ attemptDownload url checksum n = (inr (c, mac), n') /\
                          (mac <> None -> c <> [])
  end.
Proof.
  unfold retried, Media.attemptToFile, Media.attemptDownload, downloadEncryptedMediaToFile, downloadMediaToFile,
    downloadEncryptedMedia, downloadMedia, doMediaDownloadRequest. intros Hr.
  destruct checksum as [ck|].
  - destruct (negb (length ck =? 32)%nat); [done|].
    destruct (server n url) as [e|c|l data [e|]]; [done|done|done|]. cbn [negb].
    unfold newFile. rewrite file_write_ok, put_at_start. cbn [negb Nat.add].
    destruct (Nat.leb_spec (length data) mediaHMACLength) as [|Hl]; [done|]. unfold hmac_equal.
    rewrite (bool_decide_ext (ck = sha256 data) (sha256 data = ck)) by (split; congruence).
    destruct (bool_decide_reflect (sha256 data = ck)); [|done]. unfold file_read_at. cbn [next_file_fault file_faults contents].
    rewrite take_ge, length_drop by (rewrite length_drop; unfold mediaHMACLength in *; lia).
    destruct (Nat.eqb_spec (length data - (length data - mediaHMACLength)) mediaHMACLength); [|unfold mediaHMACLength in *; lia].
    unfold file_truncate. cbn [next_file_fault file_faults contents]. eexists _, _. split; [done|].
    change (contents (mkFile data (length data) [])) with data.
    replace (length data - mediaHMACLength - length data)%nat with 0%nat by lia. rewrite app_nil_r. split; [done|].
    intros _ Hn. apply (f_equal length) in Hn. rewrite length_take in Hn. simpl in Hn. unfold mediaHMACLength in *; lia.
  - destruct (server n url) as [e|c|l data [e|]]; [done|done|done|]. unfold newFile.
    rewrite file_write_ok, put_at_start. eexists _, _. split; [done|]. by split.
Qed.

Lemma retry_agrees url checksum n :
  retried (server n url) = false ->
  match retryToFile 5 url checksum newFile n with
  | (inl e, f, n') => retryDownload 5 None url checksum n = (inl e, n')
  | (inr mac, f, n') => exists c o, f = mkFile c o [] /\ retryDownload 5 None url checksum n = (inr (c, mac), n') /\
                          (mac <> None -> c <> [])
  end.
Proof.
  intros Hr. pose proof (attempt_agrees url checksum n Hr) as Ha. cbn [Media.retryToFile Media.retryDownload].
  destruct (attemptToFile url checksum newFile n) as [[[e|mac] f] n'].
  - destruct Ha as [-> ->]. done.
  - destruct Ha as (c & o & -> & -> & Hc). by exists c, o.
Qed.

(** How a download into a file agrees with one in memory. *)
Definition agrees (to_file : outcome (option media_error * File * nat)) (in_memory : outcome (option Bytes * option media_error * nat))
  : Prop :=
  match to_file with
  | Ret (err, f, n) => exists data, in_memory = Ret (data, err, n) /\ (err = None -> data = Some (contents f))
  | Panic m => in_memory = Panic m
  end.

Lemma hmac_equal_is hash data : hmac_equal (default [] hash) (sha256 data) = sha256_is sha256 data hash.
Proof.
  unfold hmac_equal, sha256_is. cbv zeta. destruct (decide (default [] hash = sha256 data)) as [Hh|Hn].
  - rewrite !bool_decide_true, Hh, sha256_length by congruence. done.
  - rewrite !bool_decide_false by congruence. by destruct (_ =? _)%nat.
Qed.

Lemma downloadAndDecrypt_agrees url key app enc hash n :
  retried (server n url) = false ->
  agrees (downloadAndDecryptToFile no_fault url key app enc hash newFile n) (downloadAndDecrypt url key app enc hash n).
Proof.
  intros Hr. unfold Media.downloadAndDecryptToFile, Media.downloadAndDecrypt, downloadPossiblyEncryptedMediaWithRetriesToFile,
    downloadPossiblyEncryptedMediaWithRetries.
  destruct (getMediaKeys key app) as [[iv ck] mk] eqn:Hk. destruct (getMediaKeys_length _ _ _ _ _ Hk) as [Hiv _].
  pose proof (retry_agrees url enc n Hr) as Ha.
  destruct (retryToFile 5 url enc newFile n) as [[[e|mac] f] n']; [by rewrite Ha; exists None|].
  destruct Ha as (c & o & -> & -> & Hc).
  assert (agrees
    (let '(err, file) := validateMediaFile hmac256 (mkFile c o []) iv mk (default [] mac) in
     match err with
     | Some e => Ret (Some e, file, n')
     | None =>
         let '(ok, file) := file_seek_start file in
         if negb ok then Ret (Some ErrFile, file, n')
         else
           d ← DecryptFile NewCipher Dec no_fault ck iv (contents file);
           match d with
           | inl e => Ret (Some (ErrDecrypt e), file, n')
           | inr plain =>
               let '(data, file) := rewind_read (file <| contents := plain |>) in
               Ret (match data with
                    | None => Some ErrFile
                    | Some data => if hmac_equal (default [] hash) (sha256 data) then None else Some ErrInvalidMediaSHA256
                    end, file, n')
           end
     end)
    (match validateMedia hmac256 iv c mk (default [] mac) with
     | Some e => Ret (None, Some e, n')
     | None =>
         d ← Decrypt NewCipher Dec ck iv c;
         Ret (match d with
              | inl e => (None, Some (ErrDecrypt e), n')
              | inr data => (Some data, if sha256_is sha256 data hash then None else Some ErrInvalidMediaSHA256, n')
              end)
     end)) as Hv.
  { unfold validateMediaFile, validateMedia. rewrite rewind_read_ok.
    destruct (hmac_equal _ _) eqn:Hm; [|by exists None]. cbn [contents file_seek_start next_file_fault file_faults negb].
    change (contents ((mkFile c (length c) []) <| offset := 0%nat |>)) with c. rewrite (DecryptFile_Decrypt NewCipher Dec Dec_length) by done.
    rewrite decide_False.
    2:{ intros [Hn _]. apply Hc; [|done]. intros ->. unfold hmac_equal in Hm. apply bool_decide_eq_true in Hm.
        apply (f_equal length) in Hm. by rewrite length_take, hmac256_length in Hm. }
    destruct (Decrypt NewCipher Dec ck iv c) as [[e|plain]|]; cbn [mbind outcome_bind]; [by exists None| |done].
    change ((mkFile c (length c) []) <| offset := 0%nat |> <| contents := plain |>) with (mkFile plain 0 []).
    rewrite rewind_read_ok, hmac_equal_is. exists (Some plain). split; [done|]. done. }
  destruct key, enc, mac; try exact Hv.
  destruct hash as [h|]; [|by exists (Some c)]. rewrite rewind_read_ok.
  pose proof (hmac_equal_is (Some h) c) as He. cbn [default from_option id] in He. rewrite He. clear Hv.
  exists (Some c). split; [|done]. by destruct (sha256_is sha256 c (Some h)).
Qed.

(** A download into a new file does what a download in memory does, when nothing
    fails on the file, the first host is the only one and its reply is not one
    after which it is asked again. *)
Theorem to_file_agrees mc host path enc hash key app mms allow n :
  Hosts mc = [host] ->
  retried (server n (mediaURL host path enc (if String.eqb mms "" then assoc mediaTypeToMMSType app else mms))) = false ->
  agrees (DownloadMediaWithPathToFile no_fault (inr mc) path enc hash key app mms allow newFile n)
    (DownloadMediaWithPath (inr mc) path enc hash key app mms allow n).
Proof.
  intros Hh Hr. unfold Media.DownloadMediaWithPathToFile, Media.DownloadMediaWithPath. rewrite Hh.
  destruct (negb (has_prefix path "/")); [by exists None|].
  set (hash' := if negb allow then _ else hash). clearbody hash'. cbn [tryHostsToFile Media.tryHosts].
  pose proof (downloadAndDecrypt_agrees _ key app enc hash' n Hr) as Ha. unfold agrees in Ha.
  destruct (downloadAndDecryptToFile _ _ _ _ _ _ _ n) as [[[err f] n']|m]; [|by rewrite Ha].
  destruct Ha as (data & -> & Hd). cbn [mbind outcome_bind]. destruct err as [e|]; [|exists data; by split; [|auto]].
  destruct (final_error e); [exists data; split; [done|discriminate]|by exists None].
Qed.

(** *** What goes wrong in a file *)

(** A server that refuses every attempt for now. *)
Lemma refused_once url n code :
  server n url = BadStatus code ->
  attemptToFile url None newFile n = (inl (ErrStatus code), newFile, S n) /\
  attemptDownload url None n = (inl (ErrStatus code), S n).
Proof.
  intros Hs. unfold Media.attemptToFile, Media.attemptDownload, downloadMediaToFile, downloadMedia, doMediaDownloadRequest.
  by rewrite Hs.
Qed.

Lemma retry_exhausted url code tries : retry_status code = true -> forall n last,
  (forall i, (i < tries)%nat -> server (n + i) url = BadStatus code) ->
  (forall i, (i < tries)%nat -> ctx_done (S (n + i)) = None) ->
  retryToFile tries url None newFile n = (inr None, newFile, (n + tries)%nat) /\
  retryDownload tries last url None n =
    (match (if decide (tries = 0%nat) then last else Some (ErrStatus code)) with Some e => inl e | None => inr ([], None) end,
     (n + tries)%nat).
Proof.
  intros Hc. induction tries as [|tries IH]; intros n last Hs Hx; [by rewrite Nat.add_0_r|].
  pose proof (Hs 0%nat ltac:(lia)) as Hs0. pose proof (Hx 0%nat ltac:(lia)) as Hx0. rewrite Nat.add_0_r in Hs0, Hx0.
  destruct (refused_once url n code Hs0) as [Hf Hm]. cbn [Media.retryToFile Media.retryDownload].
  rewrite Hf, Hm. cbn [shouldRetryMediaDownload]. rewrite Hc. cbn [negb].
  change (file_seek_start newFile) with (true, newFile). cbn [negb]. rewrite Hx0.
  destruct (IH (S n) (Some (ErrStatus code))) as [-> ->]; [intros i Hi..|].
  - replace (S n + i)%nat with (n + S i)%nat by lia. apply Hs. lia.
  - replace (S n + i)%nat with (n + S i)%nat by lia. apply Hx. lia.
  - replace (S n + tries)%nat with (n + S tries)%nat by lia. rewrite (decide_False (P := S tries = 0%nat)) by done.
    by destruct (decide (tries = 0%nat)).
Qed.

(** When every attempt is refused, the download in memory is the error of the last
    one; the download into a file is a success, with nothing in the file: the
    error of the last attempt has been overwritten by that of the seek. *)
Theorem exhausted_retries_succeed mc host path code n :
  Hosts mc = [host] -> has_prefix path "/" = true -> retry_status code = true -> final_error (ErrStatus code) = false ->
  (forall i url, (i < 5)%nat -> server (n + i) url = BadStatus code) -> (forall i, (i < 5)%nat -> ctx_done (S (n + i)) = None) ->
  DownloadMediaWithOnlyPathToFile no_fault (inr mc) path newFile n = Ret (None, newFile, (n + 5)%nat) /\
  DownloadMediaWithOnlyPath (inr mc) path n = Ret (None, Some (ErrLastHost (ErrStatus code)), (n + 5)%nat).
Proof.
  intros Hh Hp Hc He Hs Hx.
  unfold Media.DownloadMediaWithOnlyPathToFile, Media.DownloadMediaWithOnlyPath, Media.DownloadMediaWithPathToFile,
    Media.DownloadMediaWithPath. rewrite Hp, Hh. cbn [negb tryHostsToFile Media.tryHosts].
  set (url := mediaURL _ _ _ _). unfold Media.downloadAndDecryptToFile, Media.downloadAndDecrypt,
    downloadPossiblyEncryptedMediaWithRetriesToFile, downloadPossiblyEncryptedMediaWithRetries.
  destruct (retry_exhausted url code 5 Hc n None) as [-> ->]; [intros i; apply Hs|done|].
  destruct (getMediaKeys None "") as [[iv ck] mk]. rewrite decide_False by done. cbn [mbind outcome_bind]. by rewrite He.
Qed.

(** The offset of the file stays where the body of one host ended when the next
    host is tried: its body goes behind, and what is checked and kept are the
    first bytes of the file.  If the first body was no shorter, nothing of the
    second one is looked at. *)
Lemma second_body_unread url checksum old data l n :
  server n url = Body l data None -> checksum = sha256 data -> (mediaHMACLength < length data <= length old)%nat ->
  attemptToFile url (Some checksum) (mkFile old (length old) []) n =
    (inr (Some (take mediaHMACLength (drop (length data - mediaHMACLength) old))),
     mkFile (take (length data - mediaHMACLength) old) (length old + length data) [], S n).
Proof.
  intros Hs -> [Hl Ho]. unfold Media.attemptToFile, downloadEncryptedMediaToFile, downloadMediaToFile, doMediaDownloadRequest.
  rewrite Hs, sha256_length. cbn [negb Nat.eqb]. rewrite file_write_ok, put_at_end. cbn [negb].
  destruct (Nat.leb_spec (length data) mediaHMACLength) as [|_]; [lia|]. unfold hmac_equal. rewrite bool_decide_true by done.
  unfold file_read_at, file_truncate. cbn [next_file_fault file_faults contents negb]. unfold mediaHMACLength in *.
  rewrite drop_app_le, take_app_le by (rewrite ?length_drop; lia). rewrite length_take, length_drop, Nat.min_l by lia.
  cbn [Nat.eqb]. change (contents (mkFile (old ++ data) (length old + length data) [])) with (old ++ data).
  rewrite length_app, take_app_le by lia. replace (length data - 10 - (length old + length data))%nat with 0%nat by lia.
  by rewrite app_nil_r.
Qed.

(** The first host answers with the wrong bytes, the second with the right ones: in
    memory the file is downloaded, into a file it is not. *)
Theorem second_host_useless mc host1 host2 path key app mms plaintext wrong l1 l2 n :
  let body := sealed key app plaintext in
  let url host := mediaURL host path (Some (sha256 body)) (if String.eqb mms "" then assoc mediaTypeToMMSType app else mms) in
  let '(iv, _, mk) := getMediaKeys key app in
  Hosts mc = [host1; host2] -> has_prefix path "/" = true ->
  server n (url host1) = Body l1 wrong None -> server (S n) (url host2) = Body l2 body None ->
  (length body <= length wrong)%nat -> sha256 wrong <> sha256 body ->
  take 10 (hmac256 mk (iv ++ take (length body - 10) wrong)) <> take 10 (drop (length body - 10) wrong) ->
  DownloadMediaWithPath (inr mc) path (Some (sha256 body)) (Some (sha256 plaintext)) key app mms false n
    = Ret (Some plaintext, None, S (S n)) /\
  exists f, DownloadMediaWithPathToFile no_fault (inr mc) path (Some (sha256 body)) (Some (sha256 plaintext)) key app mms false newFile n
    = Ret (Some (ErrLastHost ErrInvalidMediaHMAC), f, S (S n)).
Proof.
  cbn zeta. destruct (getMediaKeys key app) as [[iv ck] mk] eqn:Hk. intros Hh Hp H1 H2 Hl Hne Hmac.
  set (body := sealed key app plaintext) in *.
  assert (mediaHMACLength < length body)%nat as Hb.
  { unfold body, sealed. rewrite length_app, mac_length. unfold mediaHMACLength.
    pose proof (ciphertext_nonempty key app plaintext). destruct (ciphertext_of key app plaintext); [done|simpl; lia]. }
  unfold Media.DownloadMediaWithPath, Media.DownloadMediaWithPathToFile. rewrite Hp, Hh.
  cbn [negb Media.tryHosts Media.tryHostsToFile default from_option id].
  set (u1 := mediaURL host1 _ _ _) in *. set (u2 := mediaURL host2 _ _ _) in *.
  assert (retried (server n u1) = false) as Hr by by rewrite H1.
  assert (forall f, attemptToFile u1 (Some (sha256 body)) newFile n = f -> f = (inl ErrInvalidMediaEncSHA256, mkFile wrong (length wrong) [], S n)) as Hw.
  { intros f <-. unfold Media.attemptToFile, downloadEncryptedMediaToFile, downloadMediaToFile, doMediaDownloadRequest.
    rewrite sha256_length, H1. cbn [negb Nat.eqb]. unfold newFile. rewrite file_write_ok, put_at_start. cbn [negb].
    destruct (Nat.leb_spec (length wrong) mediaHMACLength); [lia|]. unfold hmac_equal. by rewrite bool_decide_false by congruence. }
  specialize (Hw _ eq_refl). pose proof (attempt_agrees u1 (Some (sha256 body)) n Hr) as Ha. rewrite Hw in Ha. destruct Ha as [Ha _].
  split.
  - assert (downloadAndDecrypt u1 key app (Some (sha256 body)) (Some (sha256 plaintext)) n = Ret (None, Some ErrInvalidMediaEncSHA256, S n)) as ->.
    { unfold Media.downloadAndDecrypt, downloadPossiblyEncryptedMediaWithRetries. rewrite Hk. cbn [Media.retryDownload]. by rewrite Ha. }
    cbn [mbind outcome_bind final_error]. pose proof (downloadAndDecrypt_sealed u2 key app plaintext 0 l2 (S n)) as Hd.
    rewrite Nat.add_0_r in Hd. fold body in Hd. rewrite Hd by (done || lia). done.
  - assert (downloadAndDecryptToFile no_fault u1 key app (Some (sha256 body)) (Some (sha256 plaintext)) newFile n
      = Ret (Some ErrInvalidMediaEncSHA256, mkFile wrong (length wrong) [], S n)) as ->.
    { unfold Media.downloadAndDecryptToFile, downloadPossiblyEncryptedMediaWithRetriesToFile. rewrite Hk. cbn [Media.retryToFile].
      by rewrite Hw. }
    cbn [mbind outcome_bind final_error]. eexists.
    unfold Media.downloadAndDecryptToFile, downloadPossiblyEncryptedMediaWithRetriesToFile. rewrite Hk. cbn [Media.retryToFile].
    rewrite (second_body_unread u2 (sha256 body) wrong body l2 (S n)) by done.
    unfold validateMediaFile. rewrite rewind_read_ok. cbn [default from_option id]. unfold hmac_equal, mediaHMACLength.
    rewrite bool_decide_false by done. destruct key; done.
Qed.
End MediaProofs.

(** ** The theorems at work

    A cipher that reverses its blocks, checksums that cut or pad to 32 bytes, a
    constant key derivation, and a server of one status or one body. *)

Definition demo_hash (d : Bytes) : Bytes := take 32 (d ++ replicate 32 0).
Definition demo_hmac (_ d : Bytes) : Bytes := demo_hash d.
Definition demo_hkdf (_ _ _ : Bytes) (_ : Z) : Bytes := replicate 112 7.
Lemma demo_hash_length d : length (demo_hash d) = 32%nat.
Proof. unfold demo_hash. rewrite length_take, length_app, length_replicate. lia. Qed.
Lemma demo_cipher_of_key key : length key = 32%nat -> is_Some (toy_cipher key).
Proof. destruct key; [done|by eexists]. Qed.

Definition demo_conn (hosts : list string) : MediaConn := mkMediaConn "auth" 60 60 12 0 hosts.
Definition demo_plain : Bytes := [1; 2; 3].
Definition demo_fields (_ : request) : upload_reply := PostBody (Some "https://mmg/x") (Some "/x") None None true.
Definition demo_sealed : Bytes := sealed demo_hkdf demo_hmac toy_cipher toy_enc (Some [5]) MediaImage demo_plain.
(** The first request is refused, the next ones get [demo_sealed]. *)
Definition demo_server (n : nat) (_ : string) : reply := match n with O => BadStatus 503 | _ => Body (-1) demo_sealed None end.
Definition demo_retry (code : Z) : bool := 500 <=? code.

Lemma media_roundtrip_witness :
  exists resp err req,
    Upload demo_hkdf demo_hash demo_hmac toy_cipher toy_enc false (inr (demo_conn ["mmg"])) demo_fields [5] demo_plain MediaImage
      = Ret (resp, err, Some req) /\
    DownloadMediaWithPath demo_hkdf demo_hash demo_hmac toy_cipher toy_enc demo_retry demo_server (fun _ => None)
      (inr (demo_conn ["mmg"])) "/x" (u_FileEncSHA256 resp) (u_FileSHA256 resp) (u_MediaKey resp) MediaImage "" false 0
      = Ret (Some demo_plain, None, 2%nat).
Proof.
  destruct (Upload demo_hkdf demo_hash demo_hmac toy_cipher toy_enc false (inr (demo_conn ["mmg"])) demo_fields [5] demo_plain
    MediaImage) as [[[resp err] [req|]]|] eqn:Hu; try (exfalso; vm_compute in Hu; discriminate Hu).
  exists resp, err, req. split; [reflexivity|].
  apply (media_roundtrip demo_hkdf demo_hash demo_hmac toy_cipher toy_enc toy_enc demo_retry demo_server (fun _ => None)
    (fun _ _ => eq_refl) demo_hash_length (fun _ d => demo_hash_length d) demo_cipher_of_key toy_length toy_inverse
    false (inr (demo_conn ["mmg"])) demo_fields [5] demo_plain MediaImage resp err req "/x" "" (demo_conn ["mmg"]) "mmg" [] 0 1 (-1) Hu).
  - reflexivity.
  - reflexivity.
  - lia.
  - intros [|i] Hi; [vm_compute; reflexivity|lia].
  - reflexivity.
  - assert (match Upload demo_hkdf demo_hash demo_hmac toy_cipher toy_enc false (inr (demo_conn ["mmg"])) demo_fields [5] demo_plain
      MediaImage with Ret (_, _, Some r) => rq_Body r | _ => [] end = demo_sealed) as Hb by (vm_compute; reflexivity).
    rewrite Hu in Hb. rewrite Hb. reflexivity.
Defined.

Lemma download_integrity_witness :
  exists d, Some demo_plain = Some d /\ demo_hash d = demo_hash demo_plain.
Proof.
  apply (download_integrity demo_hkdf demo_hash demo_hmac toy_cipher toy_enc demo_retry demo_server (fun _ => None)
    (inr (demo_conn ["mmg"])) "/x" (Some (demo_hash demo_sealed)) (Some (demo_hash demo_plain)) (Some [5]) MediaImage "" 0
    (Some demo_plain) 2 (demo_conn ["mmg"])).
  - vm_compute. reflexivity.
  - reflexivity.
  - discriminate.
Defined.

Lemma to_file_agrees_witness :
  let to_file := DownloadMediaWithPathToFile demo_hkdf demo_hash demo_hmac toy_cipher toy_enc demo_retry demo_server (fun _ => None) None
    no_fault (inr (demo_conn ["mmg"])) "/x" (Some (demo_hash demo_sealed)) (Some (demo_hash demo_plain)) (Some [5]) MediaImage "" false
    newFile 1 in
  to_file = Ret (None, mkFile demo_plain 3 [], 2%nat) /\
  agrees to_file (DownloadMediaWithPath demo_hkdf demo_hash demo_hmac toy_cipher toy_enc demo_retry demo_server (fun _ => None)
    (inr (demo_conn ["mmg"])) "/x" (Some (demo_hash demo_sealed)) (Some (demo_hash demo_plain)) (Some [5]) MediaImage "" false 1).
Proof.
  cbn zeta. split; [vm_compute; reflexivity|].
  apply (to_file_agrees demo_hkdf demo_hash demo_hmac toy_cipher toy_enc demo_retry demo_server (fun _ => None)
    (fun _ _ => eq_refl) demo_hash_length (fun _ d => demo_hash_length d) demo_cipher_of_key toy_length
    (demo_conn ["mmg"]) "mmg" "/x" (Some (demo_hash demo_sealed)) (Some (demo_hash demo_plain)) (Some [5]) MediaImage "" false 1
    eq_refl eq_refl).
Defined.

Lemma exhausted_retries_succeed_witness :
  DownloadMediaWithOnlyPathToFile demo_hkdf demo_hash demo_hmac toy_cipher toy_enc demo_retry (fun _ _ => BadStatus 503) (fun _ => None)
    None no_fault (inr (demo_conn ["mmg"])) "/x" newFile 0 = Ret (None, newFile, 5%nat).
Proof.
  apply (exhausted_retries_succeed demo_hkdf demo_hash demo_hmac toy_cipher toy_enc demo_retry (fun _ _ => BadStatus 503) (fun _ => None)
    (demo_conn ["mmg"]) "mmg" "/x" 503 0); reflexivity.
Defined.

(** The first host answers with a body of the same length whose checksum is wrong. *)
Definition demo_hosts (_ : nat) (url : string) : reply :=
  Body (-1) (if str_contains url "bad" then replicate (length demo_sealed) 9 else demo_sealed) None.

Lemma second_host_useless_witness :
  DownloadMediaWithPath demo_hkdf demo_hash demo_hmac toy_cipher toy_enc demo_retry demo_hosts (fun _ => None)
    (inr (demo_conn ["bad"; "mmg"])) "/x" (Some (demo_hash demo_sealed)) (Some (demo_hash demo_plain)) (Some [5]) MediaImage "" false 0
    = Ret (Some demo_plain, None, 2%nat).
Proof.
  apply (second_host_useless demo_hkdf demo_hash demo_hmac toy_cipher toy_enc toy_enc demo_retry demo_hosts (fun _ => None)
    (fun _ _ => eq_refl) demo_hash_length (fun _ d => demo_hash_length d) demo_cipher_of_key toy_length toy_inverse
    (demo_conn ["bad"; "mmg"]) "bad" "mmg" "/x" (Some [5]) MediaImage "" demo_plain
    (replicate (length demo_sealed) 9) (-1) (-1) 0).
  - reflexivity.
  - reflexivity.
  - vm_compute. reflexivity.
  - vm_compute. reflexivity.
  - vm_compute. lia.
  - vm_compute. discriminate.
  - vm_compute. discriminate.
Defined.
