(* ===== verification/SqlDB.v ===== *)
(** * Statements on a database that may fail

    A store keeps its tables in a record with the fate of the statements to
    come.  [Faulty] is what a store says of its record; statements, sequences and
    transactions are the same for all of them, and so is the insertion of rows
    that a primary key identifies. *)
From S2P Require Import Prelude GoStrings Jid.
From S2P Require Import PreKeys.

(** The faults in a state, one for each statement to come; after the last one
    no statement fails. *)
Class Faulty (DB : Type) : Type := {
  db_faults : DB -> list bool;
  set_db_faults : list bool -> DB -> DB;
  set_get_faults : forall db, set_db_faults (db_faults db) db = db;
  get_set_faults : forall fs db, db_faults (set_db_faults fs db) = fs }.

Definition Stmt (DB A : Type) : Type := DB -> (store_error + A) * DB.
#[export] Instance Stmt_ret {DB} : MRet (Stmt DB) := fun A a db => (inr a, db).
#[export] Instance Stmt_bind {DB} : MBind (Stmt DB) :=
  fun A B f m db => match m db with (inr a, db) => f a db | (inl e, db) => (inl e, db) end.

Section Statements.
Context {DB : Type} `{Faulty DB}.

Definition stmt_fail {A} (e : store_error) : Stmt DB A := fun db => (inl e, db).
Definition statement {A} (f : DB -> (store_error + A) * DB) : Stmt DB A := fun db =>
  match db_faults db with
  | true :: fs => (inl ErrDB, set_db_faults fs db)
  | false :: fs => f (set_db_faults fs db)
  | [] => f db
  end.
Definition select {A} (f : DB -> A) : Stmt DB A := statement (fun db => (inr (f db), db)).
Definition execute (f : DB -> DB) : Stmt DB () := statement (fun db => (inr (), f db)).
(** [None] is a row that breaks a constraint. *)
Definition execute_checked (f : DB -> option DB) : Stmt DB () := statement (fun db =>
  match f db with Some db => (inr (), db) | None => (inl ErrConstraint, db) end).

(** [DoTxn]: a statement that begins, the body, and one that commits; [restore]
    puts back the tables of the first state when something fails. *)
Definition transaction (restore : DB -> DB -> DB) (body : Stmt DB ()) : Stmt DB () := fun db =>
  match execute id db with
  | (inl e, db) => (inl e, db)
  | (inr _, db0) =>
      match body db0 with
      | (inl e, db) => (inl e, restore db0 db)
      | (inr _, db) =>
          match execute id db with
          | (inl e, db) => (inl e, restore db0 db)
          | (inr _, db) => (inr (), db)
          end
      end
  end.

(** Reading and assigning what is kept in memory. *)
Definition look {A} (f : DB -> A) : Stmt DB A := fun db => (inr (f db), db).
Definition change (f : DB -> DB) : Stmt DB () := fun db => (inr (), f db).

(** ** Without faults *)

Lemma statement_ok {A} (f : DB -> (store_error + A) * DB) db : db_faults db = [] -> statement f db = f db.
Proof. unfold statement. by intros ->. Qed.
Lemma select_ok {A} (f : DB -> A) db : db_faults db = [] -> select f db = (inr (f db), db).
Proof. intros Hf. unfold select. by rewrite statement_ok. Qed.
Lemma execute_ok f db : db_faults db = [] -> execute f db = (inr (), f db).
Proof. intros Hf. unfold execute. by rewrite statement_ok. Qed.
Lemma execute_checked_ok f db db' : db_faults db = [] -> f db = Some db' -> execute_checked f db = (inr (), db').
Proof. intros Hf He. unfold execute_checked. by rewrite statement_ok, He. Qed.
Lemma transaction_ok restore body db db' :
  db_faults db = [] -> body db = (inr (), db') -> db_faults db' = [] -> transaction restore body db = (inr (), db').
Proof. intros Hf Hb Hf'. unfold transaction. rewrite execute_ok by done. cbn [id]. by rewrite Hb, execute_ok. Qed.

(** ** What statements leave alone *)

(** A view of the state that does not depend on the faults. *)
Definition fault_free {X} (view : DB -> X) : Prop := forall fs db, view (set_db_faults fs db) = view db.
Definition keeps {X A} (view : DB -> X) (m : Stmt DB A) : Prop := forall db, view (m db).2 = view db.

Context {X : Type} (view : DB -> X) (Hview : fault_free view).

Lemma keeps_execute f : (forall db, view (f db) = view db) -> keeps view (execute f).
Proof. intros Hf db. unfold execute, statement. destruct (db_faults db) as [|[] ?]; cbn [snd]; by rewrite ?Hf, ?Hview. Qed.
Lemma keeps_select {A} (f : DB -> A) : keeps view (select f).
Proof. intros db. unfold select, statement. destruct (db_faults db) as [|[] ?]; cbn [snd]; by rewrite ?Hview. Qed.
Lemma keeps_bind {A B} (m : Stmt DB A) (f : A -> Stmt DB B) :
  keeps view m -> (forall a, keeps view (f a)) -> keeps view (a ← m; f a).
Proof.
  intros Hm Hf db. unfold mbind, Stmt_bind. specialize (Hm db). destruct (m db) as [[e|a] db']; [done|].
  cbn [snd] in Hm. rewrite <- Hm. apply Hf.
Qed.

(** After a transaction that failed the view is as before, if the restored state
    has the view of the first one. *)
Lemma transaction_failed restore body db e db' :
  (forall db0 db, view db = view db0 -> view (restore db0 db) = view db0) -> keeps view body ->
  transaction restore body db = (inl e, db') -> view db' = view db.
Proof.
  intros Hr Hk. unfold transaction. assert (keeps view (execute id)) as Hid by by apply keeps_execute.
  pose proof (Hid db) as H0. destruct (execute id db) as [[e0|[]] db0]; cbn [snd] in H0; [by intros [= _ <-]|].
  pose proof (Hk db0) as H1. destruct (body db0) as [[e1|[]] db1]; cbn [snd] in H1.
  { intros [= _ <-]. by rewrite Hr. }
  pose proof (Hid db1) as H2. destruct (execute id db1) as [[e2|[]] db2]; cbn [snd] in H2; [|done].
  intros [= _ <-]. rewrite Hr; congruence.
Qed.
(** The same for a view that the restored state has of the first one whatever the
    body did. *)
Lemma transaction_rolled_back restore body db e db' :
  (forall db0 db, view (restore db0 db) = view db0) ->
  transaction restore body db = (inl e, db') -> view db' = view db.
Proof.
  intros Hr. unfold transaction. assert (keeps view (execute id)) as Hid by by apply keeps_execute.
  pose proof (Hid db) as H0. destruct (execute id db) as [[e0|[]] db0]; cbn [snd] in H0; [by intros [= _ <-]|].
  destruct (body db0) as [[e1|[]] db1]; [intros [= _ <-]; by rewrite Hr|].
  destruct (execute id db1) as [[e2|[]] db2]; [|done]. intros [= _ <-]. by rewrite Hr.
Qed.
End Statements.

(** ** What an operation does

    [runs m db Q E]: [m] succeeds with [Q], or fails with [E]; it fails only when
    the database has faults, and leaves no faults where there were none. *)
Section Runs.
Context {DB : Type} `{Faulty DB}.

Definition runs {A} (m : Stmt DB A) (db : DB) (Q : A -> DB -> Prop) (E : DB -> Prop) : Prop :=
  match m db with
  | (inr a, db') => Q a db' /\ (db_faults db = [] -> db_faults db' = [])
  | (inl _, db') => E db' /\ db_faults db <> []
  end.

Lemma runs_ret {A} (a : A) db (Q : A -> DB -> Prop) E : Q a db -> runs (mret a) db Q E.
Proof. by split. Qed.
Lemma runs_look {A} (f : DB -> A) db (Q : A -> DB -> Prop) E : Q (f db) db -> runs (look f) db Q E.
Proof. by split. Qed.
Lemma runs_change (f : DB -> DB) db (Q : () -> DB -> Prop) E :
  db_faults (f db) = db_faults db -> Q () (f db) -> runs (change f) db Q E.
Proof. intros Hf HQ. split; [done|]. by rewrite Hf. Qed.
Lemma runs_bind {A B} (m : Stmt DB A) (f : A -> Stmt DB B) db (Q1 : A -> DB -> Prop) (Q : B -> DB -> Prop) E :
  runs m db Q1 E -> (forall a db', Q1 a db' -> runs (f a) db' Q E) -> runs (a ← m; f a) db Q E.
Proof.
  unfold runs, mbind, Stmt_bind. destruct (m db) as [[e|a] db']; [done|]. intros [H1 Hf1] H2. specialize (H2 a db' H1).
  destruct (f a db') as [[e|b] db'']; destruct H2 as [HQ Hf]; split; auto.
Qed.
Lemma runs_mono {A} (m : Stmt DB A) db (Q1 Q : A -> DB -> Prop) (E1 E : DB -> Prop) :
  runs m db Q1 E1 -> (forall a db', Q1 a db' -> Q a db') -> (forall db', E1 db' -> E db') -> runs m db Q E.
Proof. unfold runs. destruct (m db) as [[e|a] db']; intros [H1 H2] HQ HE; split; auto. Qed.
Lemma runs_statement {A} (f : DB -> (store_error + A) * DB) db (Q : A -> DB -> Prop) (E : DB -> Prop) :
  (forall fs, E (set_db_faults fs db)) ->
  (forall fs, exists a db', f (set_db_faults fs db) = (inr a, db') /\ Q a db' /\ db_faults db' = fs) ->
  runs (statement f) db Q E.
Proof.
  intros HE HQ. unfold runs, statement. destruct (db_faults db) as [|[] fs] eqn:Hf.
  - destruct (HQ []) as (a & db' & Hr & HQ' & Hf'). rewrite <- Hf, set_get_faults in Hr. by rewrite Hr.
  - by split.
  - destruct (HQ fs) as (a & db' & -> & HQ' & Hf'). by split.
Qed.
Lemma runs_select {A} (f : DB -> A) db (Q : A -> DB -> Prop) (E : DB -> Prop) :
  (forall fs, E (set_db_faults fs db)) -> (forall fs, Q (f (set_db_faults fs db)) (set_db_faults fs db)) -> runs (select f) db Q E.
Proof. intros HE HQ. apply runs_statement; [done|]. intros fs. eexists _, _. split; [done|]. split; [done|]. by rewrite get_set_faults. Qed.
Lemma runs_execute (f : DB -> DB) db (Q : () -> DB -> Prop) (E : DB -> Prop) :
  (forall fs, E (set_db_faults fs db)) -> (forall fs, Q () (f (set_db_faults fs db)) /\ db_faults (f (set_db_faults fs db)) = fs) ->
  runs (execute f) db Q E.
Proof. intros HE HQ. apply runs_statement; [done|]. intros fs. destruct (HQ fs). by eexists _, _. Qed.
Lemma runs_execute_checked (f : DB -> option DB) db (Q : () -> DB -> Prop) (E : DB -> Prop) :
  (forall fs, E (set_db_faults fs db)) ->
  (forall fs, exists db', f (set_db_faults fs db) = Some db' /\ Q () db' /\ db_faults db' = fs) ->
  runs (execute_checked f) db Q E.
Proof. intros HE HQ. apply runs_statement; [done|]. intros fs. destruct (HQ fs) as (db' & -> & HQ' & Hf). by eexists _, _. Qed.

(** What the body ends with has to bear the fault of the commit. *)
Lemma runs_transaction restore (body : Stmt DB ()) db (Q : () -> DB -> Prop) (E E1 : DB -> Prop) :
  (forall fs, E (set_db_faults fs db)) ->
  (forall fs db', E1 db' -> E (restore (set_db_faults fs db) db')) ->
  (forall fs, runs body (set_db_faults fs db) (fun _ db' => forall fs', Q () (set_db_faults fs' db') /\ E1 (set_db_faults fs' db')) E1) ->
  runs (transaction restore body) db Q E.
Proof.
  intros HE HR HB. unfold runs, transaction, execute, statement.
  assert (forall fs, (db_faults db = [] -> fs = []) ->
    match (match body (set_db_faults fs db) with
      | (inl e, db1) => (inl e, restore (set_db_faults fs db) db1)
      | (inr _, db1) => match statement (fun db => (inr (), db)) db1 with
          | (inl e, db2) => (inl e, restore (set_db_faults fs db) db2) | (inr _, db2) => (inr (), db2) end end)
    with (inr a, db') => Q a db' /\ (db_faults db = [] -> db_faults db' = []) | (inl _, db') => E db' /\ db_faults db <> [] end) as Hall.
  { intros fs Hfs. specialize (HB fs). unfold runs in HB. rewrite get_set_faults in HB.
    destruct (body (set_db_faults fs db)) as [[e|[]] db1]; destruct HB as [H1 H2]; [split; auto|].
    unfold statement. destruct (db_faults db1) as [|[] fs1] eqn:Hf1.
    - destruct (H1 []) as [HQ _]. rewrite <- Hf1, set_get_faults in HQ. split; auto.
    - split; [by apply HR, H1|]. intros H0. by specialize (H2 (Hfs H0)).
    - split; [by apply H1|]. intros H0. by specialize (H2 (Hfs H0)). }
  destruct (db_faults db) as [|[] fs] eqn:Hf.
  - specialize (Hall [] (fun _ => eq_refl)). assert (set_db_faults [] db = db) as He by (rewrite <- Hf; apply set_get_faults).
    rewrite He in Hall. exact Hall.
  - by split.
  - exact (Hall fs ltac:(done)).
Qed.
End Runs.

(** [slices.Chunk]; [length l] is fuel enough. *)
Fixpoint chunks_of {A} (fuel n : nat) (l : list A) : list (list A) :=
  match fuel, l with
  | S fuel, _ :: _ => take n l :: chunks_of fuel n (drop n l)
  | _, _ => []
  end.
Definition Chunk {A} (l : list A) (n : nat) : list (list A) := chunks_of (length l) n l.
Lemma concat_Chunk {A} (l : list A) n : (0 < n)%nat -> concat (Chunk l n) = l.
Proof.
  intros Hn. unfold Chunk. assert (forall fuel (l : list A), (length l <= fuel)%nat -> concat (chunks_of fuel n l) = l) as H; [|by apply H].
  intros fuel. induction fuel as [|fuel IH]; intros [|a l'] Hl; cbn -[take drop]; try done; [cbn in Hl; lia|].
  rewrite IH; [by rewrite take_drop|]. rewrite length_drop. cbn in *. lia.
Qed.
Lemma Chunk_fmap {A B} (f : A -> B) (l : list A) n : Chunk (f <$> l : list B) n = (fmap f : list A -> list B) <$> Chunk l n.
Proof.
  unfold Chunk. rewrite length_fmap. generalize (length l). intros fuel. revert l.
  induction fuel as [|fuel IH]; intros [|a l]; try done. cbn -[take drop]. rewrite <- IH.
  by rewrite <- fmap_cons, <- fmap_take, <- fmap_drop.
Qed.

(** ** Rows under a primary key *)

(** [dbutil.Dialect] *)
Inductive Dialect : Type :=
| SQLite
| Postgres.
#[export] Instance Dialect_eq_dec : EqDecision Dialect.
Proof. solve_decision. Defined.

(** The text of a JID as an argument; a JID without a server is NULL. *)
Definition jid_key (jid : JID) : option string := match Value jid with SqlString s => Some s | _ => None end.
(** JIDs that are their text. *)
Definition named (j : JID) : Prop := printable j = true /\ Server j <> "".
Lemma named_key j : named j -> jid_key j = Some (String_ j).
Proof. intros [_ Hs]. unfold jid_key, Value. destruct (Server j) as [|c s] eqn:H; [done|]. by destruct (Z.eqb_spec (len (String c s)) 0) as [Hl|_]. Qed.
Lemma named_scan j : named j -> Scan (SqlString (String_ j)) EmptyJID = (j, None).
Proof. intros [Hp _]. cbn. by rewrite JID_print_parse. Qed.
Lemma named_inj j j' : named j -> named j' -> String_ j = String_ j' -> j = j'.
Proof. intros [H _] [H' _] He. pose proof (JID_print_parse j H) as H1. rewrite He, JID_print_parse in H1 by done. by injection H1. Qed.


Section Upsert.
Context {V : Type} (d : Dialect).

(** A row to insert: its key, and what becomes of the row that has the key;
    [None] for a row that breaks NOT NULL, which the keys are taken to be as
    well (PostgreSQL's are; SQLite has rows with NULLs, which no key finds).  A row
    for which the condition of DO UPDATE is false is left alone, the second
    [None].  A statement of PostgreSQL does not write the same row twice. *)
Definition new_row : Type := option (string * (option V -> option V)).
Fixpoint upsert_rows (rows : list new_row) (written : gset string) (m : gmap string V) : option (gmap string V) :=
  match rows with
  | [] => Some m
  | None :: _ => None
  | Some (k, f) :: rows =>
      if bool_decide (d = Postgres /\ k ∈ written) then None
      else match f (m !! k) with
           | Some v => upsert_rows rows ({[k]} ∪ written) (<[k := v]> m)
           | None => upsert_rows rows written m
           end
  end.
Definition upsert (rows : list new_row) (m : gmap string V) : option (gmap string V) := upsert_rows rows ∅ m.

(** Without a condition and without NULLs. *)
Definition set_row (r : string * (option V -> V)) : new_row := Some (r.1, fun v => Some (r.2 v)).
Definition jid_row (user : JID) (f : option V -> V) : new_row :=
  match jid_key user with Some k => set_row (k, f) | None => None end.
Definition set_rows (rows : list (string * (option V -> V))) (m : gmap string V) : gmap string V :=
  foldl (fun m r => <[r.1 := r.2 (m !! r.1)]> m) m rows.

Lemma upsert_rows_ok rows written m :
  NoDup rows.*1 -> (forall k, k ∈ rows.*1 -> k ∉ written) -> upsert_rows (set_row <$> rows) written m = Some (set_rows rows m).
Proof.
  revert written m. induction rows as [|[k f] rows IH]; intros written m; cbn; [done|]. rewrite NoDup_cons. intros [Hk Hn] Hw.
  rewrite bool_decide_false by (intros [_ H]; by apply (Hw k); [left|]). apply IH; [done|]. intros k' Hk'.
  rewrite not_elem_of_union, not_elem_of_singleton. split; [by intros -> |]. apply Hw. by right.
Qed.
Lemma upsert_ok rows m : NoDup rows.*1 -> upsert (set_row <$> rows) m = Some (set_rows rows m).
Proof. intros H. apply upsert_rows_ok; [done|set_solver]. Qed.

Lemma set_rows_app rows rows' m : set_rows (rows ++ rows') m = set_rows rows' (set_rows rows m).
Proof. unfold set_rows. by rewrite foldl_app. Qed.
Lemma set_rows_other rows m k : k ∉ rows.*1 -> set_rows rows m !! k = m !! k.
Proof.
  revert m. induction rows as [|[k' f] rows IH]; intros m; cbn; [done|]. rewrite not_elem_of_cons. intros [Hk H].
  fold (set_rows rows (<[k' := f (m !! k')]> m)). rewrite IH by done. by rewrite lookup_insert_ne.
Qed.
Lemma set_rows_at rows m k f : NoDup rows.*1 -> (k, f) ∈ rows -> set_rows rows m !! k = Some (f (m !! k)).
Proof.
  revert m. induction rows as [|[k' f'] rows IH]; intros m; cbn; [by intros _ ?%elem_of_nil|].
  rewrite NoDup_cons, elem_of_cons. intros [Hk Hn] Hin. fold (set_rows rows (<[k' := f' (m !! k')]> m)). destruct Hin as [[= <- <-]|Hin].
  - rewrite set_rows_other by done. by rewrite lookup_insert_eq.
  - rewrite IH by done. rewrite lookup_insert_ne; [done|]. intros <-. apply Hk. apply (list_elem_of_fmap_2 fst _ _ Hin).
Qed.
End Upsert.
