(* ===== verification/SqlText.v ===== *)
(** * Texts in SQL: [LIKE] and [replace] *)
From S2P Require Import Prelude GoStrings SqlDB.

(** [LIKE]: [%] stands for any text, [_] for any character.  [fold] is what the
    comparison ignores: the case of letters in SQLite, nothing in PostgreSQL
    (whose escape character is not modelled). *)
Definition wild : ascii := "%"%char.
Definition any_char : ascii := "_"%char.
Fixpoint like (fold : ascii -> ascii) (pattern : string) : string -> bool :=
  match pattern with
  | EmptyString => fun s => String.eqb s ""
  | String c pattern =>
      if ascii_dec c wild then
        fix any s := like fold pattern s || match s with EmptyString => false | String _ s => any s end
      else fun s =>
        match s with
        | EmptyString => false
        | String d s => (bool_decide (c = any_char) || bool_decide (fold d = fold c)) && like fold pattern s
        end
  end.

(** [replace]: nothing is replaced for an empty text. *)
Definition sql_replace (s old new : string) : string := if String.eqb old "" then s else replace_all s old new.

(** What each database ignores. *)
Definition fold_of (d : Dialect) : ascii -> ascii := match d with SQLite => lower | Postgres => id end.

(** ** Patterns *)

Section LikeProofs.
Context (fold : ascii -> ascii).

(** A character that stands for itself. *)
Definition plain (c : ascii) : Prop := c <> wild /\ c <> any_char /\ forall d, fold d = fold c -> d = c.
Fixpoint plain_str (s : string) : Prop := match s with EmptyString => True | String c s => plain c /\ plain_str s end.

Lemma like_plain p rest s :
  plain_str p -> like fold (p +:+ rest) s = true <-> exists r, s = p +:+ r /\ like fold rest r = true.
Proof.
  revert s. induction p as [|c p IH]; intros s Hp; [cbn; split; [by exists s|by intros (r & -> & Hr)]|].
  destruct Hp as [(Hw & Ha & Hf) Hp]. cbn [String.append like]. destruct (ascii_dec c wild) as [|_]; [done|].
  rewrite (bool_decide_false (c = any_char)) by done. cbn [orb]. destruct s as [|d s].
  - split; [done|by intros (r & Hr & _)].
  - rewrite andb_true_iff, bool_decide_eq_true, IH by done. split.
    + intros [Hd (r & -> & Hr)]. apply Hf in Hd as ->. by exists r.
    + intros (r & [= -> ->] & Hr). by split; [|exists r].
Qed.

Lemma like_wild s : like fold "%" s = true.
Proof. induction s as [|d s IH]; [done|]. cbn in *. by rewrite IH. Qed.

Lemma like_prefix p s : plain_str p -> like fold (p +:+ "%") s = true <-> exists r, s = p +:+ r.
Proof.
  intros Hp. rewrite like_plain by done. split; [intros (r & -> & _); by exists r|intros (r & ->); exists r; by rewrite like_wild].
Qed.
End LikeProofs.

(** Nothing is replaced where the text does not occur. *)
Lemma replace_all_absent t old new : (0 < String.length old)%nat -> str_contains t old = false -> replace_all t old new = t.
Proof.
  intros Ho. induction t as [|c t IH]; intros Hc; [done|]. rewrite replace_all_cons by done.
  cbn [str_contains] in Hc. apply orb_false_iff in Hc as [Hp Hc]. rewrite Hp. by rewrite IH.
Qed.

(** A pattern that starts with [%]; a text without pattern characters. *)
Lemma like_suffix fold p s : like fold (String wild p) s = true <-> exists a q, s = a +:+ q /\ like fold p q = true.
Proof.
  change (like fold (String wild p) s) with ((fix any s := like fold p s || match s with EmptyString => false | String _ s => any s end) s).
  induction s as [|c s IH]; rewrite orb_true_iff.
  - split; [intros [Hl|?]; [by exists "", ""|done]|]. intros ([|] & [|] & Ha & Hl); try done. by left.
  - rewrite IH. split.
    + intros [Hl|(a & q & -> & Hl)]; [by exists "", (String c s)|by exists (String c a), q].
    + intros ([|x a] & q & Ha & Hl); cbn in Ha; [subst; by left|]. injection Ha as <- ->. right. by exists a, q.
Qed.
Fixpoint literal (p : string) : bool :=
  match p with EmptyString => true | String c p => bool_decide (c <> wild /\ c <> any_char) && literal p end.
Lemma like_length fold p s : literal p = true -> like fold p s = true -> String.length s = String.length p.
Proof.
  revert s. induction p as [|c p IH]; intros s; [by destruct s|]. cbn [literal like]. rewrite andb_true_iff, bool_decide_eq_true.
  intros [[Hw _] Hp]. destruct (ascii_dec c wild); [done|]. destruct s as [|x s]; [done|]. rewrite andb_true_iff. intros [_ Hl].
  cbn [String.length]. by rewrite (IH s).
Qed.
Lemma like_refl fold p : literal p = true -> like fold p p = true.
Proof.
  induction p as [|c p IH]; [done|]. cbn [literal like]. rewrite andb_true_iff, bool_decide_eq_true. intros [[Hw _] Hp].
  destruct (ascii_dec c wild); [done|]. by rewrite (bool_decide_true (fold c = fold c)), orb_true_r, IH.
Qed.
Lemma append_suffix_inj a b p q : String.length p = String.length q -> a +:+ p = b +:+ q -> a = b /\ p = q.
Proof.
  intros Hl. revert b. induction a as [|c a IH]; intros [|x b] He; cbn in He; try by split.
  - subst p. cbn in Hl. rewrite length_append in Hl. lia.
  - subst q. cbn in Hl. rewrite length_append in Hl. lia.
  - injection He as <- He. apply IH in He as [-> ->]. by split.
Qed.
(** Whether a text ends like the pattern, when its end is known. *)
Lemma like_suffix_end fold p a q : literal p = true -> String.length q = String.length p -> like fold (String wild p) (a +:+ q) = like fold p q.
Proof.
  intros Hp Hl. apply eq_iff_eq_true. rewrite like_suffix. split; [|by exists a, q].
  intros (b & r & He & Hr). apply append_suffix_inj in He as [_ ->]; [done|]. by rewrite Hl, (like_length _ _ _ Hp Hr).
Qed.
