(* ===== verification/SignalStore.v ===== *)
(** * Signal's stores: the tables of sessions, identities and sender keys
    ([sqlstore/store.go]), [store/signal.go] and [store/sessioncache.go]

    The rows of one account, by their keys: the account's own JID is the same in
    every statement.  The records of libsignal are parameters, with their
    serialization; they are values here, and what libsignal changes in a record
    without storing it is not seen. *)
From S2P Require Import Prelude GoStrings Jid LidMap PreKeys SqlDB SqlText.

(** ** SQL *)

(** [INSERT ... SELECT ... ON CONFLICT DO UPDATE]: the rows that match are written
    under their new keys, one after the other. *)
Definition copy_rows {K V} `{Countable K} (sel : K -> bool) (g : K -> K) (m : gmap K V) : gmap K V :=
  foldl (fun m r => <[g r.1 := r.2]> m) m (filter (fun r => sel r.1 = true) (map_to_list m)).
Definition delete_rows {K V} `{Countable K} (sel : K -> bool) (m : gmap K V) : gmap K V :=
  filter (fun r => sel r.1 = false) m.

(** ** The tables *)

Record SignalDB : Type := mkSignalDB {
  identities : gmap string Bytes;
  sessions : gmap string (option Bytes);
  senderKeys : gmap (string * string) Bytes;
  migratedPNSessionsCache : gset string;
  sg_faults : list bool }.
#[export] Instance eta_SignalDB : Eta SignalDB := fun r =>
  mkSignalDB (identities r) (sessions r) (senderKeys r) (migratedPNSessionsCache r) (sg_faults r).

#[export] Instance SignalDB_faulty : Faulty SignalDB := {
  db_faults := sg_faults; set_db_faults fs db := db <| sg_faults := fs |>; set_get_faults db := ltac:(by destruct db);
  get_set_faults _ _ := eq_refl }.

(** The tables of the first state, with the cache and the faults of the second. *)
Definition roll_back (before after : SignalDB) : SignalDB :=
  after <| identities := identities before |> <| sessions := sessions before |> <| senderKeys := senderKeys before |>.

Section SignalStore.
Context (fold : ascii -> ascii).
Notation like := (like fold).

(** *** Identities *)

Definition PutIdentity (address : string) (key : Bytes) : Stmt SignalDB () :=
  execute (fun db => db <| identities := <[address := key]> (identities db) |>).
Definition DeleteAllIdentities (phone : string) : Stmt SignalDB () :=
  execute (fun db => db <| identities := delete_rows (like (phone +:+ ":%")) (identities db) |>).
(** The statement is the one of [DeleteAllIdentities]: the address is a pattern. *)
Definition DeleteIdentity (address : string) : Stmt SignalDB () :=
  execute (fun db => db <| identities := delete_rows (like address) (identities db) |>).
Definition IsTrustedIdentity (address : string) (key : Bytes) : Stmt SignalDB bool :=
  existing ← select (fun db => identities db !! address);
  match existing with
  | None => mret true
  | Some existing => if negb (length existing =? 32)%nat then stmt_fail ErrInvalidLength else mret (bool_decide (existing = key))
  end.

(** *** Sessions *)

(** [None] is nil: no row, or NULL. *)
Definition GetSession (address : string) : Stmt SignalDB (option Bytes) := select (fun db => mjoin (sessions db !! address)).
Definition HasSession (address : string) : Stmt SignalDB bool := select (fun db => bool_decide (is_Some (sessions db !! address))).
Definition GetManySessions (addresses : list string) : Stmt SignalDB (gmap string (option Bytes)) :=
  match addresses with
  | [] => mret ∅
  | _ => select (fun db => list_to_map ((fun a => (a, mjoin (sessions db !! a))) <$> addresses))
  end.
Definition PutSession (address : string) (session : option Bytes) : Stmt SignalDB () :=
  execute (fun db => db <| sessions := <[address := session]> (sessions db) |>).
Fixpoint putSessions (l : list (string * option Bytes)) : Stmt SignalDB () :=
  match l with
  | [] => mret ()
  | (addr, sess) :: l => _ ← PutSession addr sess; putSessions l
  end.
(** The sessions in the order of the iteration over the map. *)
Definition PutManySessions (l : list (string * option Bytes)) : Stmt SignalDB () := transaction roll_back (putSessions l).

Definition deleteAllSessions (phone : string) : Stmt SignalDB () :=
  execute (fun db => db <| sessions := delete_rows (like (phone +:+ ":%")) (sessions db) |>).
Definition DeleteAllSessions (phone : string) : Stmt SignalDB () := deleteAllSessions phone.
Definition deleteAllSenderKeys (phone : string) : Stmt SignalDB () :=
  execute (fun db => db <| senderKeys := delete_rows (fun k => like (phone +:+ ":%") k.2) (senderKeys db) |>).
Definition deleteAllIdentityKeys (phone : string) : Stmt SignalDB () :=
  execute (fun db => db <| identities := delete_rows (like (phone +:+ ":%")) (identities db) |>).
Definition DeleteSession (address : string) : Stmt SignalDB () :=
  execute (fun db => db <| sessions := delete address (sessions db) |>).

(** *** Sender keys *)

Definition PutSenderKey (group user : string) (session : Bytes) : Stmt SignalDB () :=
  execute (fun db => db <| senderKeys := <[(group, user) := session]> (senderKeys db) |>).
Definition GetSenderKey (group user : string) : Stmt SignalDB (option Bytes) := select (fun db => senderKeys db !! (group, user)).

(** *** The migration to LIDs *)

Definition migrateSessions (pn lid : string) (m : gmap string (option Bytes)) : gmap string (option Bytes) :=
  copy_rows (like (pn +:+ ":%")) (fun a => sql_replace a pn lid) m.
Definition migrateIdentities (pn lid : string) (m : gmap string Bytes) : gmap string Bytes :=
  copy_rows (like (pn +:+ ":%")) (fun a => sql_replace a pn lid) m.
Definition migrateSenderKeys (pn lid : string) (m : gmap (string * string) Bytes) : gmap (string * string) Bytes :=
  copy_rows (fun k => like (pn +:+ ":%") k.2) (fun k => (k.1, sql_replace k.2 pn lid)) m.

(** After each of the three copies the number of rows is asked for, which may fail. *)
Definition migration (pn lid : string) : Stmt SignalDB () :=
  _ ← execute (fun db => db <| sessions := migrateSessions pn lid (sessions db) |>);
  _ ← select (fun _ => ());
  _ ← deleteAllSessions pn;
  _ ← execute (fun db => db <| identities := migrateIdentities pn lid (identities db) |>);
  _ ← select (fun _ => ());
  _ ← deleteAllIdentityKeys pn;
  _ ← execute (fun db => db <| senderKeys := migrateSenderKeys pn lid (senderKeys db) |>);
  _ ← select (fun _ => ());
  deleteAllSenderKeys pn.
Definition MigratePNToLID (pn lid : JID) : Stmt SignalDB () := fun db =>
  let pnSignal := SignalAddressUser pn in
  if decide (pnSignal ∈ migratedPNSessionsCache db) then (inr (), db)
  else
    let db := db <| migratedPNSessionsCache := {[pnSignal]} ∪ migratedPNSessionsCache db |> in
    transaction roll_back (migration pnSignal (SignalAddressUser lid)) db.
End SignalStore.

(** ** [store/signal.go] and [store/sessioncache.go] *)

Section Device.
(** The records of libsignal; addresses are [SignalAddress.String()]. *)
Context {Session SenderKey : Type} (NewSession : Session) (NewSenderKey : SenderKey).
Context (Serialize : Session -> Bytes) (NewSessionFromBytes : Bytes -> option Session).
Context (SerializeKey : SenderKey -> Bytes) (NewSenderKeyFromBytes : Bytes -> option SenderKey).
(** The order in which a map of sessions is iterated over. *)
Context (order : list (string * option Bytes) -> list (string * option Bytes)).

Inductive device_error : Type :=
| ErrSave (e : store_error)
| ErrLoad (e : store_error)
| ErrDeserialize
| ErrPrefetch (e : store_error).

(** [SaveIdentity] and [Device.IsTrustedIdentity] wrap the error. *)
Definition wrap {A} (f : store_error -> device_error) (m : Stmt SignalDB A) (db : SignalDB) : (device_error + A) * SignalDB :=
  match m db with (inl e, db) => (inl (f e), db) | (inr a, db) => (inr a, db) end.
Definition SaveIdentity (address : string) (key : Bytes) := wrap ErrSave (PutIdentity address key).
Definition IsTrusted (address : string) (key : Bytes) := wrap ErrLoad (IsTrustedIdentity address key).

(** An entry of the cache that a context may carry. *)
Record sessionCacheEntry : Type := mkEntry { Dirty : bool; Found : bool; Record_ : Session }.
Notation sessionCache := (gmap string sessionCacheEntry).

(** The code hands out the record itself, a pointer; here it is a value, so what libsignal does
    to a record before it stores it is not seen by another load in between. *)
Definition getCachedSession (cache : option sessionCache) (addr : string) : option Session :=
  cache ≫= fun c => Record_ <$> (c !! addr).
Definition putCachedSession (cache : option sessionCache) (addr : string) (record : Session) : bool * option sessionCache :=
  match cache with
  | None => (false, None)
  | Some c => (true, Some (<[addr := mkEntry true true record]> c))
  end.

Definition LoadSession (cache : option sessionCache) (addr : string) (db : SignalDB) : (device_error + Session) * SignalDB :=
  match getCachedSession cache addr with
  | Some sess => (inr sess, db)
  | None =>
      match GetSession addr db with
      | (inl e, db) => (inl (ErrLoad e), db)
      | (inr None, db) => (inr NewSession, db)
      | (inr (Some rawSess), db) =>
          (match NewSessionFromBytes rawSess with Some sess => inr sess | None => inl ErrDeserialize end, db)
      end
  end.
Definition StoreSession (cache : option sessionCache) (addr : string) (record : Session) (db : SignalDB)
  : (device_error + ()) * option sessionCache * SignalDB :=
  match putCachedSession cache addr record with
  | (true, cache) => (inr (), cache, db)
  | (false, cache) => let '(r, db) := wrap ErrSave (PutSession addr (Some (Serialize record))) db in (r, cache, db)
  end.
Definition ContainsSession (addr : string) := wrap ErrLoad (HasSession addr).

Definition StoreSenderKey (group sender : string) (key : SenderKey) := wrap ErrSave (PutSenderKey group sender (SerializeKey key)).
Definition LoadSenderKey (group sender : string) (db : SignalDB) : (device_error + SenderKey) * SignalDB :=
  match GetSenderKey group sender db with
  | (inl e, db) => (inl (ErrLoad e), db)
  | (inr None, db) => (inr NewSenderKey, db)
  | (inr (Some rawKey), db) =>
      (match NewSenderKeyFromBytes rawKey with Some key => inr key | None => inl ErrDeserialize end, db)
  end.

(** The entry of an address; a session that cannot be read is left out. *)
Definition prefetch (rawSess : option Bytes) : option sessionCacheEntry :=
  match rawSess with
  | None => Some (mkEntry false false NewSession)
  | Some raw => mkEntry false true <$> NewSessionFromBytes raw
  end.
(** The sessions that exist, and the cache of the new context. *)
Definition WithCachedSessions (addresses : list string) (cache : option sessionCache) (db : SignalDB)
  : (device_error + gmap string bool) * option sessionCache * SignalDB :=
  match addresses with
  | [] => (inr ∅, cache, db)
  | _ =>
      match GetManySessions addresses db with
      | (inl e, db) => (inl (ErrPrefetch e), cache, db)
      | (inr sessions, db) =>
          let wrapped := omap prefetch sessions in (inr (Found <$> wrapped), Some wrapped, db)
      end
  end.
Definition dirtySessions (c : sessionCache) : gmap string (option Bytes) :=
  omap (fun e => if Dirty e then Some (Some (Serialize (Record_ e))) else None) c.
Definition PutCachedSessions (cache : option sessionCache) (db : SignalDB)
  : (device_error + ()) * option sessionCache * SignalDB :=
  match cache with
  | None => (inr (), None, db)
  | Some c =>
      let dirty := order (map_to_list (dirtySessions c)) in
      if (length dirty =? 0)%nat then (inr (), Some ∅, db)
      else
        match wrap ErrSave (PutManySessions dirty) db with
        | (inl e, db) => (inl e, cache, db)
        | (inr _, db) => (inr (), Some ∅, db)
        end
  end.
End Device.

(** ** Rows written one after the other *)

Section Rows.
Context {K V : Type} `{Countable K}.

Lemma fold_put (l : list (K * V)) (m : gmap K V) :
  NoDup l.*1 -> foldl (fun m r => <[r.1 := r.2]> m) m l = list_to_map l ∪ m.
Proof.
  revert m. induction l as [|[k v] l IH]; intros m Hd; cbn [foldl]; [by rewrite list_to_map_nil, (left_id_L ∅ (∪))|].
  cbn in Hd. apply NoDup_cons in Hd as [Hk Hd]. rewrite IH by done. cbn [fst snd]. rewrite list_to_map_cons.
  rewrite <- insert_union_l, insert_union_r; [done|]. by apply not_elem_of_list_to_map_1.
Qed.

(** Writing the rows of a map, in any order, is a union. *)
Lemma fold_put_map (order : list (K * V) -> list (K * V)) (new m : gmap K V) :
  (forall l, order l ≡ₚ l) -> foldl (fun m r => <[r.1 := r.2]> m) m (order (map_to_list new)) = new ∪ m.
Proof.
  intros Ho. assert (NoDup (order (map_to_list new)).*1) as Hd by (rewrite Ho; apply NoDup_fst_map_to_list).
  rewrite fold_put by done. f_equal. rewrite (list_to_map_proper _ (map_to_list new)) by done. apply list_to_map_to_list.
Qed.

Lemma foldl_keys (g : K -> K) (l : list (K * V)) (m : gmap K V) :
  foldl (fun m r => <[g r.1 := r.2]> m) m l = foldl (fun m r => <[r.1 := r.2]> m) m ((fun r => (g r.1, r.2)) <$> l).
Proof. revert m. induction l as [|r l IH]; intros m; [done|]. cbn [foldl fmap list_fmap fst snd]. apply IH. Qed.

Lemma copy_rows_lookup (sel : K -> bool) (g : K -> K) (m : gmap K V) :
  (forall k k', is_Some (m !! k) -> is_Some (m !! k') -> sel k = true -> sel k' = true -> g k = g k' -> k = k') ->
  (forall k v, m !! k = Some v -> sel k = true -> copy_rows sel g m !! g k = Some v) /\
  (forall k', (forall k, is_Some (m !! k) -> sel k = true -> g k <> k') -> copy_rows sel g m !! k' = m !! k').
Proof.
  intros Hinj. set (l := filter (fun r => sel r.1 = true) (map_to_list m)).
  assert (forall k v, (k, v) ∈ l <-> m !! k = Some v /\ sel k = true) as Hl.
  { intros k v. unfold l. rewrite list_elem_of_filter, elem_of_map_to_list. cbn. tauto. }
  assert (NoDup ((fun r => (g r.1, r.2)) <$> l).*1) as Hd.
  { rewrite <- list_fmap_compose. apply NoDup_fmap_2_strong; [|apply NoDup_filter, NoDup_map_to_list].
    intros [k v] [k' v'] [Hk Hs]%Hl [Hk' Hs']%Hl. cbn. intros Hg.
    assert (k = k') as -> by (apply Hinj; by eauto). congruence. }
  assert (copy_rows sel g m = list_to_map ((fun r => (g r.1, r.2)) <$> l) ∪ m) as ->
    by (unfold copy_rows; fold l; rewrite foldl_keys; by apply fold_put).
  split.
  - intros k v Hk Hs. apply lookup_union_Some_l, elem_of_list_to_map; [done|].
    apply list_elem_of_fmap. exists (k, v). split; [done|]. by apply Hl.
  - intros k' Hk'. apply lookup_union_r, not_elem_of_list_to_map_1. rewrite <- list_fmap_compose.
    intros ([k v] & He & [Hk Hs]%Hl)%list_elem_of_fmap. cbn in He. by apply (Hk' k); [eauto|..].
Qed.

Lemma delete_rows_lookup (sel : K -> bool) (m : gmap K V) k :
  delete_rows sel m !! k = if sel k then None else m !! k.
Proof.
  unfold delete_rows. destruct (sel k) eqn:Hs.
  - apply map_lookup_filter_None. right. intros v _. cbn. by rewrite Hs.
  - destruct (m !! k) as [v|] eqn:Hm.
    + by apply map_lookup_filter_Some.
    + apply map_lookup_filter_None. by left.
Qed.
End Rows.

(** ** The cache is not seen *)

(** What libsignal does with a session: it is loaded, and stored again unless
    something fails. *)
Section CacheProofs.
Context {Session : Type} (NewSession : Session).
Context (Serialize : Session -> Bytes) (NewSessionFromBytes : Bytes -> option Session).
Context (order : list (string * option Bytes) -> list (string * option Bytes)).
Notation LoadSession := (LoadSession NewSession NewSessionFromBytes).
Notation StoreSession := (StoreSession Serialize).
Notation WithCachedSessions := (WithCachedSessions NewSession NewSessionFromBytes).
Notation PutCachedSessions := (PutCachedSessions Serialize order).
Notation prefetch := (prefetch NewSession NewSessionFromBytes).
Notation sessionCache := (gmap string (@sessionCacheEntry Session)).

Definition use : Type := string * (Session -> option Session).
Fixpoint run_uses (uses : list use) (cache : option sessionCache) (db : SignalDB)
  : list (device_error + Session) * option sessionCache * SignalDB :=
  match uses with
  | [] => ([], cache, db)
  | (addr, f) :: uses =>
      match LoadSession cache addr db with
      | (inl e, db) => let '(out, cache, db) := run_uses uses cache db in (inl e :: out, cache, db)
      | (inr sess, db) =>
          let '(_, cache, db) := match f sess with
                                 | Some sess => StoreSession cache addr sess db
                                 | None => (inr (), cache, db)
                                 end in
          let '(out, cache, db) := run_uses uses cache db in (inr sess :: out, cache, db)
      end
  end.

Hypothesis deserialize_serialize : forall s, NewSessionFromBytes (Serialize s) = Some s.
Hypothesis order_perm : forall l, order l ≡ₚ l.

(** The cache [c] over the rows [S0] stands for the rows [D]. *)
Definition stands_for (c : sessionCache) (S0 D : gmap string (option Bytes)) : Prop := forall a,
  match c !! a with
  | Some e => if Dirty e then D !! a = Some (Some (Serialize (Record_ e)))
              else D !! a = S0 !! a /\ prefetch (mjoin (S0 !! a)) = Some e
  | None => D !! a = S0 !! a
  end.

Lemma load_direct addr db :
  sg_faults db = [] ->
  LoadSession None addr db =
    (match mjoin (sessions db !! addr) with
     | None => inr NewSession
     | Some raw => match NewSessionFromBytes raw with Some s => inr s | None => inl ErrDeserialize end
     end, db).
Proof.
  intros Hf. unfold SignalStore.LoadSession, GetSession, select. cbn [getCachedSession mbind option_bind].
  rewrite statement_ok by done. cbn [fst snd]. by destruct (mjoin _).
Qed.

Lemma load_cached c addr db D :
  sg_faults db = [] -> stands_for c (sessions db) D ->
  LoadSession (Some c) addr db = ((LoadSession None addr (db <| sessions := D |>)).1, db).
Proof.
  intros Hf Hs. specialize (Hs addr). rewrite load_direct by done. change (sessions (db <| sessions := D |>)) with D. cbn [fst].
  unfold SignalStore.LoadSession at 1, getCachedSession. cbn [mbind option_bind].
  destruct (c !! addr) as [e|] eqn:Hc; cbn [fmap option_fmap option_map].
  - destruct (Dirty e).
    + rewrite Hs. cbn. by rewrite deserialize_serialize.
    + destruct Hs as [-> Hp]. unfold SignalStore.prefetch in Hp. destruct (mjoin _) as [raw|]; [|by injection Hp as <-].
      destruct (NewSessionFromBytes raw); [|done]. by injection Hp as <-.
  - rewrite Hs. unfold GetSession, select. rewrite statement_ok by done. cbn [fst snd]. by destruct (mjoin _).
Qed.

Lemma store_direct addr s db :
  sg_faults db = [] -> StoreSession None addr s db = (inr (), None, db <| sessions := <[addr := Some (Serialize s)]> (sessions db) |>).
Proof.
  intros Hf. unfold SignalStore.StoreSession, wrap, PutSession, execute. cbn [putCachedSession]. by rewrite statement_ok.
Qed.

Lemma stands_for_insert c S0 D addr s :
  stands_for c S0 D -> stands_for (<[addr := mkEntry true true s]> c) S0 (<[addr := Some (Serialize s)]> D).
Proof.
  intros Hs a. destruct (decide (a = addr)) as [->|Hne]; [by rewrite !lookup_insert_eq|].
  rewrite !lookup_insert_ne by done. apply Hs.
Qed.

Lemma run_cached uses : forall c db D,
  sg_faults db = [] -> stands_for c (sessions db) D ->
  let '(out, _, db') := run_uses uses None (db <| sessions := D |>) in
  exists c', run_uses uses (Some c) db = (out, Some c', db) /\
    db' = db <| sessions := sessions db' |> /\ stands_for c' (sessions db) (sessions db').
Proof.
  induction uses as [|[addr f] uses IH]; intros c db D Hf Hs; cbn [run_uses]; [by exists c|].
  rewrite (load_cached c addr db D) by done.
  assert (forall r db', LoadSession None addr (db <| sessions := D |>) = (r, db') -> db' = db <| sessions := D |>) as Hdb
    by (intros r db'; rewrite load_direct by done; by intros [= _ <-]).
  destruct (LoadSession None addr (db <| sessions := D |>)) as [r db1]. specialize (Hdb r db1 eq_refl) as ->. cbn [fst].
  destruct r as [e|sess].
  - pose proof (IH c db D Hf Hs) as Hr. destruct (run_uses uses None _) as [[out ?] db'].
    destruct Hr as (c' & -> & Hd & Hs'). by exists c'.
  - destruct (f sess) as [s|].
    + rewrite store_direct by done. unfold SignalStore.StoreSession at 1. cbn [putCachedSession].
      change (sessions (db <| sessions := D |>)) with D.
      change (db <| sessions := D |> <| sessions := <[addr:=Some (Serialize s)]> D |>) with (db <| sessions := <[addr:=Some (Serialize s)]> D |>).
      pose proof (IH (<[addr := mkEntry true true s]> c) db (<[addr := Some (Serialize s)]> D) Hf (stands_for_insert c _ D addr s Hs)) as Hr.
      destruct (run_uses uses None _) as [[out ?] db']. destruct Hr as (c' & -> & Hd & Hs'). by exists c'.
    + pose proof (IH c db D Hf Hs) as Hr. destruct (run_uses uses None _) as [[out ?] db'].
      destruct Hr as (c' & -> & Hd & Hs'). by exists c'.
Qed.

Lemma putSessions_ok l : forall db,
  sg_faults db = [] -> putSessions l db = (inr (), db <| sessions := foldl (fun m r => <[r.1 := r.2]> m) (sessions db) l |>).
Proof.
  induction l as [|[a s] l IH]; intros db Hf; cbn [putSessions foldl]; [by destruct db|].
  unfold mbind, Stmt_bind, PutSession, execute. rewrite statement_ok by done. cbn [fst snd]. by rewrite IH.
Qed.

Lemma PutCachedSessions_ok c D db :
  sg_faults db = [] -> stands_for c (sessions db) D ->
  PutCachedSessions (Some c) db = (inr (), Some ∅, db <| sessions := D |>).
Proof.
  intros Hf Hs. unfold SignalStore.PutCachedSessions. set (dirty := dirtySessions Serialize c).
  assert (dirty ∪ sessions db = D) as HD.
  { apply map_eq. intros a. specialize (Hs a). unfold dirty, dirtySessions. rewrite lookup_union, lookup_omap.
    destruct (c !! a) as [e|]; cbn [mbind option_bind]; [destruct (Dirty e)|]; rewrite ?Hs; [|destruct Hs as [-> _]|];
      by destruct (sessions db !! a). }
  destruct (Nat.eqb_spec (length (order (map_to_list dirty))) 0) as [H0|H0].
  - assert (dirty = ∅) as He.
    { rewrite order_perm in H0. apply length_zero_iff_nil in H0. by apply map_to_list_empty_iff in H0. }
    rewrite He, (left_id_L ∅ (∪)) in HD. rewrite <- HD. by destruct db.
  - unfold wrap, PutManySessions. erewrite transaction_ok; [|done|by apply putSessions_ok|done].
    by rewrite fold_put_map, HD.
Qed.

(** C11. Sending with a cache of the sessions gives libsignal the sessions that it
    would get without one, and leaves the same rows. *)
Theorem session_cache_refines addresses uses db :
  sg_faults db = [] ->
  let '(_, cache, db1) := WithCachedSessions addresses None db in
  let '(out, cache, db2) := run_uses uses cache db1 in
  let '(r, _, db3) := PutCachedSessions cache db2 in
  r = inr () /\ (out, db3) = let '(out, _, db) := run_uses uses None db in (out, db).
Proof.
  intros Hf. unfold SignalStore.WithCachedSessions. destruct addresses as [|a0 addresses].
  - destruct (run_uses uses None db) as [[out cache] db2] eqn:Hr.
    assert (cache = None) as ->; [|done]. clear Hf. revert out cache db2 db Hr.
    induction uses as [|[addr f] uses IH]; intros out cache db2 db; cbn [run_uses]; [by intros [= _ <- _]|].
    destruct (LoadSession None addr db) as [[e|sess] db1].
    + destruct (run_uses uses None db1) as [[out' cache'] db'] eqn:Hr. intros [= _ <- _]. by eapply IH.
    + destruct (match f sess with Some s => _ | None => _ end) as [[r cache1] db'] eqn:Hs.
      assert (cache1 = None) as ->.
      { destruct (f sess); [|by injection Hs as _ <- _]. unfold SignalStore.StoreSession in Hs. cbn [putCachedSession] in Hs.
        destruct (wrap _ _ db1). by injection Hs as _ <- _. }
      destruct (run_uses uses None db') as [[out' cache'] db''] eqn:Hr. intros [= _ <- _]. by eapply IH.
  - unfold GetManySessions. unfold select. rewrite statement_ok by done. cbn [fst snd].
    set (rows := list_to_map _). set (c := omap prefetch rows).
    assert (stands_for c (sessions db) (sessions db)) as Hc.
    { intros a. unfold c. rewrite lookup_omap. destruct (rows !! a) as [v|] eqn:Hv; cbn [mbind option_bind]; [|done].
      apply elem_of_list_to_map_2, list_elem_of_fmap in Hv as (b & [= -> ->] & _).
      destruct (prefetch _) as [e|] eqn:Hp; [|done].
      assert (Dirty e = false) as ->; [|done]. unfold SignalStore.prefetch in Hp.
      destruct (mjoin _) as [raw|]; [|by injection Hp as <-]. destruct (NewSessionFromBytes raw); [|done]. by injection Hp as <-. }
    pose proof (run_cached uses c db (sessions db) Hf Hc) as Hr.
    assert (db <| sessions := sessions db |> = db) as Hdb by by destruct db. rewrite Hdb in Hr.
    destruct (run_uses uses None db) as [[out ?] db'] eqn:He. destruct Hr as (c' & -> & Hd & Hs).
    rewrite (PutCachedSessions_ok c' (sessions db')) by done. split; [done|]. by rewrite <- Hd.
Qed.
End CacheProofs.

(** ** The migration *)

Lemma plain_digits s : all_digits s = true -> plain_str id (s +:+ ":").
Proof.
  induction s as [|c s IH]; cbn [all_digits String.append plain_str].
  - intros _. split; [|done]. by split; [|split].
  - destruct (digit_val c) eqn:Hc; [|done]. intros Hs. split; [|by apply IH]. split; [|split]; [| |done]; by intros ->.
Qed.

(** The address of a device of a user. *)
Definition address_of (user device : string) : string := user +:+ String ":" device.

Lemma address_inj user user' d d' :
  no_byte ":" user = true -> no_byte ":" user' = true -> address_of user d = address_of user' d' -> user = user' /\ d = d'.
Proof. apply append_inj_sep. Qed.

Lemma replace_address p l d :
  no_byte ":" p = true -> (0 < String.length p)%nat -> (String.length d < String.length p)%nat ->
  sql_replace (address_of p d) p l = address_of l d.
Proof.
  intros Hp Ho Hd. unfold sql_replace, address_of. destruct (String.eqb_spec p "") as [->|_]; [simpl in Ho; lia|].
  rewrite replace_all_hit by done. f_equal. apply replace_all_absent; [done|]. apply not_true_iff_false.
  rewrite str_contains_spec. intros ([|x a] & b & Hab).
  - destruct p as [|c p]; [simpl in Ho; lia|]. injection Hab as <- _. done.
  - injection Hab as _ ->. rewrite !length_append in Hd. lia.
Qed.

(** What the rows [f'] are after the migration, in terms of the rows [f] before. *)
Definition moved {V} (p l : string) (f f' : string -> option V) : Prop :=
  (forall d, f' (address_of l d) = match f (address_of p d) with Some v => Some v | None => f (address_of l d) end) /\
  (forall d, f' (address_of p d) = None) /\
  (forall a, (forall d, a <> address_of p d /\ a <> address_of l d) -> f' a = f a).

Section MigrationProofs.
Context (fold : ascii -> ascii).
Notation like := (like fold).
Context (p l : string).
Hypothesis p_plain : plain_str fold (p +:+ ":").
Hypothesis p_nonempty : (0 < String.length p)%nat.
Hypothesis p_colon : no_byte ":" p = true.
Hypothesis l_colon : no_byte ":" l = true.
Hypothesis p_not_l : p <> l.

Lemma like_address a : like (p +:+ ":%") a = true <-> exists d, a = address_of p d.
Proof.
  change (p +:+ ":%") with (p +:+ (":" +:+ "%")). rewrite <- append_assoc, like_prefix by done.
  split; intros (d & ->); exists d; unfold address_of; by rewrite append_assoc.
Qed.

(** One table, whose keys hold an address in a place [emb]. *)
Lemma copy_delete_moved {K V} `{Countable K} (emb : string -> K) (sel : K -> bool) (g : K -> K) (m : gmap K V) :
  (forall a, sel (emb a) = like (p +:+ ":%") a) -> (forall a, g (emb a) = emb (sql_replace a p l)) ->
  (forall a b, emb a = emb b -> a = b) -> (forall k a, g k = emb a -> exists b, k = emb b) ->
  (forall k k', is_Some (m !! k) -> is_Some (m !! k') -> sel k = true -> sel k' = true -> g k = g k' -> k = k') ->
  (forall d, is_Some (m !! emb (address_of p d)) -> (String.length d < String.length p)%nat) ->
  moved p l (fun a => m !! emb a) (fun a => delete_rows sel (copy_rows sel g m) !! emb a).
Proof.
  intros Hsel Hg Hemb Hg' Hinj Hd. destruct (copy_rows_lookup sel g m Hinj) as [Hc Ho].
  assert (forall d, sel (emb (address_of p d)) = true) as Hsp by (intros d; rewrite Hsel; apply like_address; by exists d).
  assert (forall k a, is_Some (m !! k) -> sel k = true -> g k = emb a -> exists d, k = emb (address_of p d) /\ a = address_of l d) as Hk.
  { intros k a Hk Hs Hgk. destruct (Hg' k a Hgk) as (b & ->). rewrite Hsel in Hs. apply like_address in Hs as (d & ->).
    exists d. split; [done|]. rewrite Hg in Hgk. apply Hemb in Hgk as <-. apply replace_address; [done..|by apply Hd]. }
  split; [|split].
  - intros d. rewrite delete_rows_lookup, Hsel.
    assert (like (p +:+ ":%") (address_of l d) = false) as ->.
    { apply not_true_iff_false. rewrite like_address. intros (d' & He). by apply address_inj in He as [? _]. }
    destruct (m !! emb (address_of p d)) as [v|] eqn:Hm.
    + rewrite <- (replace_address p l d), <- Hg by (done || (apply Hd; by eexists)). by apply Hc.
    + apply Ho. intros k Hsk Hs Hgk. destruct (Hk k _ Hsk Hs Hgk) as (d' & -> & He).
      apply address_inj in He as [_ ->]; [|done..]. rewrite Hm in Hsk. by destruct Hsk.
  - intros d. by rewrite delete_rows_lookup, Hsp.
  - intros a Ha. rewrite delete_rows_lookup, Hsel.
    assert (like (p +:+ ":%") a = false) as -> by (apply not_true_iff_false; rewrite like_address; intros (d & He); by destruct (Ha d)).
    apply Ho. intros k Hsk Hs Hgk. destruct (Hk k _ Hsk Hs Hgk) as (d & _ & He). by destruct (Ha d).
Qed.

Lemma replace_inj a b :
  like (p +:+ ":%") a = true -> like (p +:+ ":%") b = true ->
  (forall d, a = address_of p d \/ b = address_of p d -> (String.length d < String.length p)%nat) ->
  sql_replace a p l = sql_replace b p l -> a = b.
Proof.
  intros (d & ->)%like_address (d' & ->)%like_address Hd. pose proof (Hd d (or_introl eq_refl)).
  pose proof (Hd d' (or_intror eq_refl)). rewrite !replace_address by done. intros He. by apply address_inj in He as [_ ->].
Qed.

(** The device parts of the addresses of [p] are shorter than [p]: they are
    numbers below 65536, and a phone number is longer. *)
Definition short_devices (db : SignalDB) : Prop := forall d,
  is_Some (sessions db !! address_of p d) \/ is_Some (identities db !! address_of p d) \/
  (exists group, is_Some (senderKeys db !! (group, address_of p d))) -> (String.length d < String.length p)%nat.

(** The tables after the migration [f] of [db]. *)
Definition all_moved (db db' : SignalDB) : Prop :=
  moved p l (fun a => sessions db !! a) (fun a => sessions db' !! a) /\
  moved p l (fun a => identities db !! a) (fun a => identities db' !! a) /\
  (forall group, moved p l (fun a => senderKeys db !! (group, a)) (fun a => senderKeys db' !! (group, a))).

Definition after_migration (db : SignalDB) : SignalDB :=
  db <| sessions := delete_rows (like (p +:+ ":%")) (migrateSessions fold p l (sessions db)) |>
     <| identities := delete_rows (like (p +:+ ":%")) (migrateIdentities fold p l (identities db)) |>
     <| senderKeys := delete_rows (fun k => like (p +:+ ":%") k.2) (migrateSenderKeys fold p l (senderKeys db)) |>.

Lemma after_migration_moved db : short_devices db -> all_moved db (after_migration db).
Proof.
  intros Hd. split; [|split].
  - apply (copy_delete_moved id (like (p +:+ ":%")) (fun a => sql_replace a p l)); try done.
    + intros k a _. by exists k.
    + intros k k' Hk Hk' Hs Hs'. apply replace_inj; try done. intros d [-> | ->]; apply Hd; by left.
    + intros d H. apply Hd. by left.
  - apply (copy_delete_moved id (like (p +:+ ":%")) (fun a => sql_replace a p l)); try done.
    + intros k a _. by exists k.
    + intros k k' Hk Hk' Hs Hs'. apply replace_inj; try done. intros d [-> | ->]; apply Hd; right; by left.
    + intros d H. apply Hd. right. by left.
  - intros group.
    apply (copy_delete_moved (fun a => (group, a)) (fun k => like (p +:+ ":%") k.2) (fun k => (k.1, sql_replace k.2 p l))); try done.
    + by intros a b [=].
    + intros [g' k] a [= -> _]. by exists k.
    + intros [g1 k1] [g2 k2] Hk Hk' Hs Hs' [= -> He]. f_equal. revert He. apply replace_inj; try done.
      intros d [-> | ->]; apply Hd; right; right; by eexists.
    + intros d H. apply Hd. right. right. by exists group.
Qed.

Lemma migration_ok db : sg_faults db = [] -> migration fold p l db = (inr (), after_migration db).
Proof.
  intros Hf. unfold migration, deleteAllSessions, deleteAllIdentityKeys, deleteAllSenderKeys, execute, select, mbind, Stmt_bind.
  repeat (rewrite statement_ok by done; cbn [fst snd]). done.
Qed.
End MigrationProofs.

(** C30. A session, an identity or a sender key of a user that is known by a LID from
    now on is found under the LID, and no longer under the number; where the LID
    had one already, that of the number replaces it.  The rows of everybody else
    are as before.  The name of the number is to be free of pattern characters
    and longer than the device numbers. *)
Theorem migration_exact fold pn lid db :
  let p := SignalAddressUser pn in let l := SignalAddressUser lid in
  sg_faults db = [] -> p ∉ migratedPNSessionsCache db ->
  plain_str fold (p +:+ ":") -> no_byte ":" p = true -> no_byte ":" l = true -> p <> l -> p <> "" -> short_devices p db ->
  exists db', MigratePNToLID fold pn lid db = (inr (), db') /\ all_moved p l db db' /\
    migratedPNSessionsCache db' = {[p]} ∪ migratedPNSessionsCache db.
Proof.
  intros p l Hf Hn Hp Hpc Hlc Hne Hp0 Hd. unfold MigratePNToLID. fold p. fold l. rewrite decide_False by done.
  set (db1 := db <| migratedPNSessionsCache := _ |>).
  assert (0 < String.length p)%nat by (destruct p; [done|simpl; lia]).
  exists (after_migration fold p l db1). split; [|split].
  - apply transaction_ok; [done|by apply migration_ok|done].
  - by apply (after_migration_moved fold p l Hp H Hpc Hlc Hne db1).
  - done.
Qed.

(** *** A migration that fails *)

Lemma migration_keeps fold p l : keeps migratedPNSessionsCache (migration fold p l).
Proof. repeat (apply keeps_bind; [(apply keeps_execute || apply keeps_select); done|intros []]). by apply keeps_execute. Qed.

(** The number is noted as migrated before the transaction: when that fails, the
    tables are as before, and every later migration of the number succeeds
    without touching them. *)
Theorem failed_migration_never_retried fold pn lid db e db' :
  MigratePNToLID fold pn lid db = (inl e, db') ->
  sessions db' = sessions db /\ identities db' = identities db /\ senderKeys db' = senderKeys db /\
  forall fold' lid', MigratePNToLID fold' pn lid' db' = (inr (), db').
Proof.
  unfold MigratePNToLID. set (p := SignalAddressUser pn). destruct (decide _) as [|Hn]; [done|]. intros Ht.
  pose proof (transaction_rolled_back sessions (fun _ _ => eq_refl) roll_back _ _ _ _ (fun _ _ => eq_refl) Ht) as Hs.
  pose proof (transaction_rolled_back identities (fun _ _ => eq_refl) roll_back _ _ _ _ (fun _ _ => eq_refl) Ht) as Hi.
  pose proof (transaction_rolled_back senderKeys (fun _ _ => eq_refl) roll_back _ _ _ _ (fun _ _ => eq_refl) Ht) as Hk.
  pose proof (transaction_failed migratedPNSessionsCache (fun _ _ => eq_refl) roll_back _ _ _ _ (fun _ _ H => H) (migration_keeps _ _ _) Ht) as Hm.
  split; [exact Hs|]. split; [exact Hi|]. split; [exact Hk|]. intros fold' lid'.
  rewrite decide_True; [done|]. rewrite Hm. change (p ∈ {[p]} ∪ migratedPNSessionsCache db). set_solver.
Qed.

(** *** Deleting by pattern *)

(** The handler of a change of identity deletes by the user part of the JID; the
    rows of a LID are kept under another name, and survive. *)
Theorem lid_identity_survives fold jid db device :
  Server jid = HiddenUserServer -> no_byte ":" (User jid) = true -> plain_str fold (User jid +:+ ":") ->
  let a := address_of (SignalAddressUser jid) device in
  let db' := (DeleteAllSessions fold (User jid) (DeleteAllIdentities fold (User jid) db).2).2 in
  sessions db' !! a = sessions db !! a /\ identities db' !! a = identities db !! a.
Proof.
  intros Hj Hc Hp a db'.
  assert (like fold (User jid +:+ ":%") a = false) as Hl.
  { apply not_true_iff_false. change (User jid +:+ ":%") with (User jid +:+ (":" +:+ "%")). rewrite <- append_assoc, like_prefix by done.
    unfold a, address_of, SignalAddressUser, ActualAgent. rewrite Hj. cbn [String.eqb Ascii.eqb]. intros (r & Hr).
    change (LIDDomain =? 0) with false in Hr. cbn in Hr. rewrite !append_assoc in Hr. cbn in Hr.
    revert Hr Hc. generalize (User jid). intros u. induction u as [|c u IH]; cbn; [done|]. intros [= Hr]. by destruct (ascii_dec c ":"); [|apply IH]. }
  assert (forall d, sessions (DeleteAllSessions fold (User jid) d).2 !! a = sessions d !! a /\
    identities (DeleteAllSessions fold (User jid) d).2 = identities d) as Hs.
  { intros d. unfold DeleteAllSessions, deleteAllSessions, execute, statement.
    destruct (db_faults d) as [|[|] ?]; cbn; try done; by rewrite delete_rows_lookup, Hl. }
  assert (forall d, identities (DeleteAllIdentities fold (User jid) d).2 !! a = identities d !! a /\
    sessions (DeleteAllIdentities fold (User jid) d).2 = sessions d) as Hi.
  { intros d. unfold DeleteAllIdentities, execute, statement.
    destruct (db_faults d) as [|[|] ?]; cbn; try done; by rewrite delete_rows_lookup, Hl. }
  unfold db'. destruct (Hs (DeleteAllIdentities fold (User jid) db).2) as [-> ->].
  destruct (Hi db) as [-> ->]. done.
Qed.

(** The address that [DeleteIdentity] deletes is a pattern: in that of a LID the
    underscore stands for any character, so the identity of a phone number with
    one more digit in its place goes too. *)
Theorem delete_identity_deletes_another user digit device :
  plain_str id (user +:+ ":") -> plain_str id ("1:" +:+ device) ->
  forall db, sg_faults db = [] ->
  identities (DeleteIdentity id (user +:+ "_1:" +:+ device) db).2 !! (user +:+ String digit ("1:" +:+ device)) = None.
Proof.
  intros Hu Hd db Hf. unfold DeleteIdentity, execute. rewrite statement_ok by done. cbn [fst snd].
  change (identities (db <| identities := ?x |>)) with x. rewrite delete_rows_lookup.
  assert (like id (user +:+ "_1:" +:+ device) (user +:+ String digit ("1:" +:+ device)) = true) as ->; [|done].
  apply like_plain; [by clear -Hu; induction user as [|c u IH]; [|destruct Hu; split; [|apply IH]]|].
  eexists. split; [done|]. change ("_1:" +:+ device) with (String any_char ("1:" +:+ device)).
  cbn [like]. destruct (ascii_dec any_char wild); [done|]. rewrite bool_decide_true by done. cbn [orb andb].
  rewrite <- (append_nil_r ("1:" +:+ device)) at 1. apply like_plain; [done|]. exists "". by rewrite append_nil_r.
Qed.

(** *** Identities *)

(** An identity is trusted unless another one is kept for the address. *)
Theorem trust_on_first_use address key db :
  sg_faults db = [] -> (forall a k, identities db !! a = Some k -> length k = 32%nat) -> length key = 32%nat ->
  IsTrustedIdentity address key db = (inr (match identities db !! address with None => true | Some k => bool_decide (k = key) end), db) /\
  forall other, let db' := (PutIdentity address key db).2 in
    IsTrustedIdentity address other db' = (inr (bool_decide (key = other)), db').
Proof.
  intros Hf Hl Hk. unfold IsTrustedIdentity, PutIdentity, execute, select, mbind, Stmt_bind. split.
  - rewrite statement_ok by done. cbn [fst snd]. destruct (identities db !! address) as [k|] eqn:Hi; [|done]. by rewrite (Hl _ _ Hi).
  - intros other. cbn zeta. rewrite (statement_ok (fun d => (inr (), _))) by done. cbn [fst snd]. rewrite statement_ok by done. cbn [fst snd].
    change (identities (db <| identities := ?x |>)) with x. rewrite lookup_insert_eq, Hk. done.
Qed.

(** ** The theorems at work *)

Definition demo_pn : JID := NewJID "4915123" DefaultUserServer.
Definition demo_lid : JID := NewJID "77" HiddenUserServer.
Definition demo_signal (faults : list bool) : SignalDB :=
  mkSignalDB {["4915123:2" := repeat 1 32]} (<["4915123:0" := Some [1]]> {["77_1:0" := Some [2]]}) {[("g", "4915123:0") := [3]]} ∅ faults.

Example like_examples :
  like lower "12_1:%" "1201:3" = true /\ like lower "12:%" "12_1:3" = false /\ like lower "a%b" "AxyB" = true /\
  like id "a%b" "AxyB" = false.
Proof. vm_compute. done. Qed.

Definition demo_uses : list (@use Bytes) := [("a", fun s => Some (1 :: s)); ("b", fun _ => None); ("a", fun s => Some (2 :: s))].

Lemma session_cache_refines_witness :
  sessions (run_uses (Session := Bytes) [] id Some demo_uses None (demo_signal [])).2 !! "a" = Some (Some [2; 1]) /\
  let '(_, cache, db1) := WithCachedSessions (Session := Bytes) [] Some ["a"] None (demo_signal []) in
  let '(out, cache, db2) := run_uses [] id Some demo_uses cache db1 in
  let '(r, _, db3) := PutCachedSessions id id cache db2 in
  r = inr () /\ (out, db3) = let '(out, _, db) := run_uses [] id Some demo_uses None (demo_signal []) in (out, db).
Proof.
  split; [vm_compute; reflexivity|].
  apply (session_cache_refines (Session := Bytes) [] id Some id (fun _ => eq_refl) (fun l => Permutation_refl l) ["a"] demo_uses
    (demo_signal [])).
  reflexivity.
Defined.

Lemma migration_exact_witness :
  exists db', MigratePNToLID id demo_pn demo_lid (demo_signal []) = (inr (), db') /\
    sessions db' !! "77_1:0" = Some (Some [1]) /\ sessions db' !! "4915123:0" = None.
Proof.
  destruct (migration_exact id demo_pn demo_lid (demo_signal [])) as (db' & Hm & (Hs & _ & _) & _).
  - reflexivity.
  - set_solver.
  - apply (plain_digits "4915123"). reflexivity.
  - reflexivity.
  - reflexivity.
  - discriminate.
  - discriminate.
  - assert (forall (a d : string), a = address_of "4915123" d -> a = "4915123:0" \/ a = "4915123:2" \/ a = "77_1:0" ->
      (String.length d < 7)%nat) as Hd.
    { intros a d -> [H|[H|H]]; unfold address_of in H; cbn in H; try discriminate H; injection H as ->; cbn; lia. }
    intros d H. apply (Hd _ d eq_refl). change (SignalAddressUser demo_pn) with "4915123" in H. cbn [demo_signal sessions identities senderKeys] in H.
    destruct H as [[v H]|[[v H]|(g & v & H)]].
    + apply lookup_insert_Some in H as [[H _]|[_ H]]; [left; symmetry; exact H|].
      apply lookup_singleton_Some in H as [H _]. right. right. symmetry. exact H.
    + apply lookup_singleton_Some in H as [H _]. right. left. symmetry. exact H.
    + apply lookup_singleton_Some in H as [H _]. left. symmetry. apply (f_equal snd) in H. exact H.
  - exists db'. split; [exact Hm|]. destruct Hs as (H1 & H2 & _). split; [exact (H1 "0")|exact (H2 "0")].
Defined.

Lemma failed_migration_never_retried_witness :
  exists e db', MigratePNToLID id demo_pn demo_lid (demo_signal [false; false; true]) = (inl e, db') /\
    MigratePNToLID id demo_pn demo_lid db' = (inr (), db').
Proof.
  destruct (MigratePNToLID id demo_pn demo_lid (demo_signal [false; false; true])) as [[e|u] db'] eqn:Hm.
  - exists e, db'. split; [reflexivity|].
    destruct (failed_migration_never_retried id demo_pn demo_lid _ e db' Hm) as (_ & _ & _ & H). apply H.
  - exfalso. apply (f_equal fst) in Hm. vm_compute in Hm. discriminate Hm.
Defined.

Lemma lid_identity_survives_witness :
  sessions (DeleteAllSessions id "77" (DeleteAllIdentities id "77" (demo_signal [])).2).2 !! "77_1:0" = Some (Some [2]).
Proof.
  apply (lid_identity_survives id demo_lid (demo_signal []) "0").
  - reflexivity.
  - reflexivity.
  - apply (plain_digits "77"). reflexivity.
Defined.

Lemma delete_identity_deletes_another_witness :
  let db := mkSignalDB {["1211:0" := repeat 1 32]} ∅ ∅ ∅ [] in
  identities (DeleteIdentity id "12_1:0" db).2 !! "1211:0" = None.
Proof.
  apply (delete_identity_deletes_another "12" "1" "0").
  - apply (plain_digits "12"). reflexivity.
  - split; [by split; [|split]|]. split; [by split; [|split]|]. split; [by split; [|split]|done].
  - reflexivity.
Defined.

Lemma trust_on_first_use_witness :
  IsTrustedIdentity "5:0" (repeat 7 32) (demo_signal []) = (inr true, demo_signal []).
Proof.
  apply (trust_on_first_use "5:0" (repeat 7 32) (demo_signal [])).
  - reflexivity.
  - intros a k H. cbn [demo_signal identities] in H. apply lookup_singleton_Some in H as [_ <-]. reflexivity.
  - reflexivity.
Defined.
