(* ===== verification/Contacts.v ===== *)
(** * [whatsmeow/store/sqlstore/store.go]: the contacts

    A row has the names of a contact, one column for each source of a name, and
    NULL where nothing is known.  A cache keeps what was read, under the JID and
    not under its text; an entry says [Found = false] when there is no row.  The
    cache is written with the row, except that lists of names clear it and lists
    of redacted phone numbers drop entries from it. *)
From S2P Require Import Prelude GoStrings Jid LidMap PreKeys SqlDB.

(** [types.ContactInfo] *)
Record ContactInfo : Type := mkContactInfo {
  Found : bool; FirstName : string; FullName : string; PushName : string; BusinessName : string; RedactedPhone : string }.
#[export] Instance eta_ContactInfo : Eta ContactInfo := fun r =>
  mkContactInfo (Found r) (FirstName r) (FullName r) (PushName r) (BusinessName r) (RedactedPhone r).

(** [store.ContactEntry], [store.RedactedPhoneEntry] *)
Record ContactEntry : Type := mkContactEntry { ce_JID : JID; ce_FirstName : string; ce_FullName : string }.
Record RedactedPhoneEntry : Type := mkRedacted { rpe_JID : JID; rpe_RedactedPhone : string }.

(** A row of [whatsmeow_contacts] *)
Record ContactRow : Type := mkContactRow {
  first_name : option string; full_name : option string; push_name : option string;
  business_name : option string; redacted_phone : option string }.
#[export] Instance eta_ContactRow : Eta ContactRow := fun r =>
  mkContactRow (first_name r) (full_name r) (push_name r) (business_name r) (redacted_phone r).
Definition new_contact : ContactRow := mkContactRow None None None None None.

Record ContactDB : Type := mkContactDB {
  contacts : gmap string ContactRow; contactCache : gmap JID ContactInfo; ct_faults : list bool }.
#[export] Instance eta_ContactDB : Eta ContactDB := fun r => mkContactDB (contacts r) (contactCache r) (ct_faults r).
#[export] Instance ContactDB_faulty : Faulty ContactDB := {
  db_faults := ct_faults; set_db_faults fs db := db <| ct_faults := fs |>; set_get_faults db := ltac:(by destruct db);
  get_set_faults _ _ := eq_refl }.
Definition ct_restore (before after : ContactDB) : ContactDB := after <| contacts := contacts before |>.

(** ** The statements *)

(** What [ON CONFLICT DO UPDATE] makes of the row, or of none. *)
Definition putContactNameQuery (first full : string) (v : option ContactRow) : ContactRow :=
  (default new_contact v) <| first_name := Some first |> <| full_name := Some full |>.
Definition putRedactedPhoneQuery (phone : string) (v : option ContactRow) : ContactRow :=
  (default new_contact v) <| redacted_phone := Some phone |>.
Definition putPushNameQuery (name : string) (v : option ContactRow) : ContactRow :=
  (default new_contact v) <| push_name := Some name |>.
Definition putBusinessNameQuery (name : string) (v : option ContactRow) : ContactRow :=
  (default new_contact v) <| business_name := Some name |>.

(** The row that [getContact] and [convertContactRow] read. *)
Definition contact_info (v : option ContactRow) : ContactInfo :=
  let r := default new_contact v in
  mkContactInfo (bool_decide (is_Some v)) (default "" (first_name r)) (default "" (full_name r)) (default "" (push_name r))
    (default "" (business_name r)) (default "" (redacted_phone r)).

Section Contacts.
Context (d : Dialect).

Definition put_rows (rows : list new_row) : Stmt ContactDB () :=
  execute_checked (fun db => t ← upsert d rows (contacts db); Some (db <| contacts := t |>)).
Definition put_row (user : JID) (f : option ContactRow -> ContactRow) : Stmt ContactDB () :=
  put_rows [jid_row user f].

(** ** The operations *)

Definition cache_contact (user : JID) (info : ContactInfo) : Stmt ContactDB () :=
  change (fun db => db <| contactCache := <[user := info]> (contactCache db) |>).
Definition getContact (user : JID) : Stmt ContactDB ContactInfo :=
  cached ← look (fun db => contactCache db !! user);
  match cached with
  | Some info => mret info
  | None =>
      row ← select (fun db => k ← jid_key user; contacts db !! k);
      let info := contact_info row in
      _ ← cache_contact user info;
      mret info
  end.
Definition GetContact (user : JID) : Stmt ContactDB ContactInfo := getContact user.

(** Whether the name changed, and what it was. *)
Definition PutPushName (user : JID) (pushName : string) : Stmt ContactDB (bool * string) :=
  cached ← getContact user;
  if negb (String.eqb (PushName cached) pushName) then
    _ ← put_row user (putPushNameQuery pushName);
    _ ← cache_contact user (cached <| PushName := pushName |> <| Found := true |>);
    mret (true, PushName cached)
  else mret (false, "").
Definition PutBusinessName (user : JID) (businessName : string) : Stmt ContactDB (bool * string) :=
  cached ← getContact user;
  if negb (String.eqb (BusinessName cached) businessName) then
    _ ← put_row user (putBusinessNameQuery businessName);
    _ ← cache_contact user (cached <| BusinessName := businessName |> <| Found := true |>);
    mret (true, BusinessName cached)
  else mret (false, "").
Definition PutContactName (user : JID) (firstName fullName : string) : Stmt ContactDB () :=
  cached ← getContact user;
  if negb (String.eqb (FirstName cached) firstName) || negb (String.eqb (FullName cached) fullName) then
    _ ← put_row user (putContactNameQuery firstName fullName);
    cache_contact user (cached <| FirstName := firstName |> <| FullName := fullName |> <| Found := true |>)
  else mret ().

(** [contactBatchSize] rows in a statement.  The JIDs of a list are written with
    [String], so one without a server is not NULL here. *)
Definition contactBatchSize : nat := 300.
Fixpoint put_batches (batches : list (list new_row)) : Stmt ContactDB () :=
  match batches with
  | [] => mret ()
  | b :: batches => _ ← put_rows b; put_batches batches
  end.
Definition put_many (rows : list new_row) : Stmt ContactDB () :=
  transaction ct_restore (put_batches (Chunk rows contactBatchSize)).

(** [exslices.DeduplicateUnsortedOverwriteFunc] with the JID as the key. *)
Context (dedup : forall E, (E -> JID) -> list E -> list E).

Definition name_row (c : ContactEntry) : string * (option ContactRow -> ContactRow) :=
  (String_ (ce_JID c), putContactNameQuery (ce_FirstName c) (ce_FullName c)).
Definition phone_row (c : RedactedPhoneEntry) : string * (option ContactRow -> ContactRow) :=
  (String_ (rpe_JID c), putRedactedPhoneQuery (rpe_RedactedPhone c)).

Definition PutAllContactNames (contacts : list ContactEntry) : Stmt ContactDB () :=
  if (length contacts =? 0)%nat then mret ()
  else
    _ ← put_many ((set_row ∘ name_row) <$> dedup _ ce_JID contacts);
    change (fun db => db <| contactCache := ∅ |>).

(** The entry of the cache stays when it has the number already. *)
Definition drop_cached (cache : gmap JID ContactInfo) (entry : RedactedPhoneEntry) : gmap JID ContactInfo :=
  match cache !! rpe_JID entry with
  | Some cached => if String.eqb (RedactedPhone cached) (rpe_RedactedPhone entry) then cache else delete (rpe_JID entry) cache
  | None => delete (rpe_JID entry) cache
  end.
Definition PutManyRedactedPhones (entries : list RedactedPhoneEntry) : Stmt ContactDB () :=
  if (length entries =? 0)%nat then mret ()
  else
    let entries := dedup _ rpe_JID entries in
    _ ← put_many ((set_row ∘ phone_row) <$> entries);
    change (fun db => db <| contactCache := foldl drop_cached (contactCache db) entries |>).

(** The rows one after the other, until one has a JID that does not parse. *)
Fixpoint iter_contacts (rows : list (string * ContactRow)) (output : gmap JID ContactInfo) : Stmt ContactDB (gmap JID ContactInfo) :=
  match rows with
  | [] => mret output
  | (k, r) :: rows =>
      match Scan (SqlString k) EmptyJID with
      | (_, Some _) => stmt_fail ErrScan
      | (jid, None) =>
          let info := contact_info (Some r) in
          _ ← cache_contact jid info;
          iter_contacts rows (<[jid := info]> output)
      end
  end.
Definition GetAllContacts : Stmt ContactDB (gmap JID ContactInfo) :=
  rows ← select (fun db => map_to_list (contacts db));
  iter_contacts rows ∅.

(** ** The operations as one *)

Inductive contact_op : Type :=
| OpPush (user : JID) (name : string)
| OpBusiness (user : JID) (name : string)
| OpName (user : JID) (first full : string)
| OpNames (l : list ContactEntry)
| OpPhones (l : list RedactedPhoneEntry)
| OpGet (user : JID)
| OpAll.
Inductive contact_answer : Type :=
| Changed (previous : bool * string)
| Done
| Info (info : ContactInfo)
| All (output : gmap JID ContactInfo).

Definition contact_step (op : contact_op) : Stmt ContactDB contact_answer :=
  match op with
  | OpPush u n => x ← PutPushName u n; mret (Changed x)
  | OpBusiness u n => x ← PutBusinessName u n; mret (Changed x)
  | OpName u f l => _ ← PutContactName u f l; mret Done
  | OpNames l => _ ← PutAllContactNames l; mret Done
  | OpPhones l => _ ← PutManyRedactedPhones l; mret Done
  | OpGet u => x ← GetContact u; mret (Info x)
  | OpAll => x ← GetAllContacts; mret (All x)
  end.
Fixpoint contact_run (ops : list contact_op) (db : ContactDB) : list (store_error + contact_answer) * ContactDB :=
  match ops with
  | [] => ([], db)
  | op :: ops =>
      let '(a, db) := contact_step op db in
      let '(l, db) := contact_run ops db in (a :: l, db)
  end.
End Contacts.

(** ** The operations without a cache

    What an operation answers and makes of the rows. *)
Definition contact (t : gmap string ContactRow) (j : JID) : ContactInfo := contact_info (t !! String_ j).

(** The rows after one entry for each of the JIDs of a list was written. *)
Definition one_each {E} (jid : E -> JID) (put : E -> option ContactRow -> ContactRow) (l : list E)
  (t t' : gmap string ContactRow) : Prop :=
  forall k, match t' !! k with
    | Some r => t !! k = Some r /\ k ∉ String_ ∘ jid <$> l \/ exists e, e ∈ l /\ k = String_ (jid e) /\ r = put e (t !! k)
    | None => t !! k = None /\ k ∉ String_ ∘ jid <$> l
    end.

Definition contact_spec (op : contact_op) (t : gmap string ContactRow) (a : contact_answer) (t' : gmap string ContactRow) : Prop :=
  match op with
  | OpPush u n =>
      let old := PushName (contact t u) in
      if String.eqb old n then a = Changed (false, "") /\ t' = t
      else a = Changed (true, old) /\ t' = <[String_ u := putPushNameQuery n (t !! String_ u)]> t
  | OpBusiness u n =>
      let old := BusinessName (contact t u) in
      if String.eqb old n then a = Changed (false, "") /\ t' = t
      else a = Changed (true, old) /\ t' = <[String_ u := putBusinessNameQuery n (t !! String_ u)]> t
  | OpName u f l =>
      a = Done /\
      if String.eqb (FirstName (contact t u)) f && String.eqb (FullName (contact t u)) l then t' = t
      else t' = <[String_ u := putContactNameQuery f l (t !! String_ u)]> t
  | OpNames l => a = Done /\ one_each ce_JID (fun e => putContactNameQuery (ce_FirstName e) (ce_FullName e)) l t t'
  | OpPhones l => a = Done /\ one_each rpe_JID (fun e => putRedactedPhoneQuery (rpe_RedactedPhone e)) l t t'
  | OpGet u => a = Info (contact t u) /\ t' = t
  | OpAll => t' = t /\ exists output, a = All output /\
      forall j info, output !! j = Some info <-> printable j = true /\ is_Some (t !! String_ j) /\ info = contact t j
  end.

(** An operation that fails leaves the rows as they are. *)
Inductive spec_run : list contact_op -> gmap string ContactRow -> list (store_error + contact_answer) -> gmap string ContactRow -> Prop :=
| spec_nil t : spec_run [] t [] t
| spec_ok op ops t a t1 l t2 : contact_spec op t a t1 -> spec_run ops t1 l t2 -> spec_run (op :: ops) t (inr a :: l) t2
| spec_err op ops t e l t2 : spec_run ops t l t2 -> spec_run (op :: ops) t (inl e :: l) t2.

(** JIDs that are their text, and redacted numbers that are not empty. *)
Definition contact_op_ok (op : contact_op) : Prop :=
  match op with
  | OpPush u _ | OpBusiness u _ | OpName u _ _ | OpGet u => named u
  | OpNames l => Forall (fun e => named (ce_JID e)) l
  | OpPhones l => Forall (fun e => named (rpe_JID e) /\ rpe_RedactedPhone e <> "") l
  | OpAll => True
  end.

(** ** The cache and the rows *)

Record ct_coherent (t : gmap string ContactRow) (c : gmap JID ContactInfo) : Prop := mkCtCoherent {
  cached_exact : forall j info, c !! j = Some info -> named j /\ info = contact t j;
  rows_named : forall k, is_Some (t !! k) -> exists j, named j /\ k = String_ j }.

Lemma coherent_empty : ct_coherent ∅ ∅.
Proof. split; [by intros ? ? ?%lookup_empty_Some|by intros ? [? ?%lookup_empty_Some]]. Qed.
Lemma coherent_put t c u r : ct_coherent t c -> named u -> ct_coherent (<[String_ u := r]> t) (<[u := contact_info (Some r)]> c).
Proof.
  intros [Hc Hr] Hu. split.
  - intros j info. rewrite lookup_insert_Some. unfold contact. intros [[<- <-]|[Hne Hj]]; [by rewrite lookup_insert_eq|].
    destruct (Hc _ _ Hj) as [Hn ->]. split; [done|]. rewrite lookup_insert_ne; [done|]. by intros ?%named_inj.
  - intros k [r' Hk]. apply lookup_insert_Some in Hk as [[<- _]|[_ Hk]]; [by exists u|]. apply Hr. by eexists.
Qed.
Lemma coherent_cache t c u : ct_coherent t c -> named u -> ct_coherent t (<[u := contact t u]> c).
Proof. intros [Hc Hr] Hu. split; [|done]. intros j info. rewrite lookup_insert_Some. intros [[<- <-]|[_ Hj]]; [done|by apply Hc]. Qed.

(** ** Each operation *)

Section Exact.
Context (d : Dialect) (dedup : forall E, (E -> JID) -> list E -> list E).
(** One of the entries of each JID stays. *)
Hypothesis dedup_once : forall E (key : E -> JID) l, NoDup (key <$> dedup E key l).
Hypothesis dedup_subset : forall E (key : E -> JID) l, dedup E key l ⊆ l.
Hypothesis dedup_keys : forall E (key : E -> JID) l e, e ∈ l -> key e ∈ key <$> dedup E key l.

(** The rows are those of before, and the cache is coherent. *)
Definition unchanged (db db' : ContactDB) : Prop :=
  contacts db' = contacts db /\ ct_coherent (contacts db') (contactCache db').

Lemma getContact_runs u db : ct_coherent (contacts db) (contactCache db) -> named u ->
  runs (getContact u) db
    (fun info db' => unchanged db db' /\ info = contact (contacts db) u /\ contactCache db' !! u = Some info)
    (unchanged db).
Proof.
  intros Hc Hu. unfold getContact. eapply runs_bind; [by apply (runs_look _ db (fun c db' => c = contactCache db !! u /\ db' = db))|].
  intros c db' [-> ->]. destruct (contactCache db !! u) as [info|] eqn:Hi.
  - apply runs_ret. split; [by split|]. split; [|done]. by apply (cached_exact _ _ Hc) in Hi as [_ ?].
  - eapply runs_bind.
    + apply (runs_select _ db (fun row db' => row = contacts db !! String_ u /\ contacts db' = contacts db /\ contactCache db' = contactCache db)); [by split|].
      intros fs. by rewrite named_key.
    + intros row db' (-> & Ht & Hcc). eapply runs_bind.
      * apply (runs_change _ db' (fun _ db'' => contacts db'' = contacts db /\ contactCache db'' = <[u := contact (contacts db) u]> (contactCache db))); [done|].
        cbn. by rewrite Ht, Hcc.
      * intros [] db'' [Ht' Hc']. apply runs_ret. unfold unchanged. rewrite Ht', Hc'. split; [split; [done|by apply coherent_cache]|].
        split; [done|]. by rewrite lookup_insert_eq.
Qed.

Lemma put_row_runs u f db : named u ->
  runs (put_row d u f) db
    (fun _ db' => contacts db' = <[String_ u := f (contacts db !! String_ u)]> (contacts db) /\ contactCache db' = contactCache db)
    (fun db' => contacts db' = contacts db /\ contactCache db' = contactCache db).
Proof.
  intros Hu. apply runs_execute_checked; [done|]. intros fs. unfold jid_row. rewrite named_key by done.
  change [set_row (String_ u, f)] with (set_row <$> [(String_ u, f)]). rewrite upsert_ok by apply NoDup_singleton.
  by eexists.
Qed.

(** A put of one row, with the cache that the row makes. *)
Lemma put_and_cache_runs {A} u f info (a : A) (m : Stmt ContactDB A) db db0 : unchanged db0 db -> named u ->
  info = contact_info (Some (f (contacts db0 !! String_ u))) ->
  m = (_ ← put_row d u f; _ ← cache_contact u info; mret a) ->
  runs m db
    (fun x db' => x = a /\ contacts db' = <[String_ u := f (contacts db0 !! String_ u)]> (contacts db0) /\ ct_coherent (contacts db') (contactCache db'))
    (unchanged db0).
Proof.
  intros [Ht Hc] Hu -> ->. rewrite Ht in Hc. eapply runs_bind.
  - eapply runs_mono; [by apply put_row_runs|intros ? ? H; exact H|]. intros db' [Ht' Hc']. unfold unchanged. by rewrite Ht', Hc', Ht.
  - intros [] db' [Ht' Hc']. eapply runs_bind.
    + apply (runs_change _ db' (fun _ db'' => contacts db'' = contacts db' /\ contactCache db'' = <[u := contact_info (Some (f (contacts db0 !! String_ u)))]> (contactCache db'))); done.
    + intros [] db'' [Ht'' Hc'']. apply runs_ret. rewrite Ht'', Hc'', Ht', Hc', Ht. split; [done|]. split; [done|]. by apply coherent_put.
Qed.

(** What a step is to satisfy. *)
Definition step_exact (op : contact_op) (db : ContactDB) : Prop :=
  runs (contact_step d dedup op) db
    (fun a db' => contact_spec op (contacts db) a (contacts db') /\ ct_coherent (contacts db') (contactCache db'))
    (unchanged db).

Lemma runs_then {A B} (m : Stmt ContactDB A) (f : A -> B) db Q E :
  runs m db (fun a => Q (f a)) E -> runs (a ← m; mret (f a)) db Q E.
Proof. intros H. eapply runs_bind; [exact H|]. intros a db' HQ. by apply runs_ret. Qed.

(** A write that reads the contact first, with the query [q]. *)
Ltac put_exact q :=
  apply runs_then; eapply runs_bind; [by apply getContact_runs|]; intros info db' (Hn & -> & _); cbn [contact_spec];
  rewrite <- ?negb_andb; match goal with |- context [negb ?b] => destruct b end; cbn [negb];
  [apply runs_ret; destruct Hn; by split|];
  eapply runs_mono; [eapply (put_and_cache_runs _ q); [exact Hn|done| |reflexivity]| |done];
  [unfold contact; by destruct (contacts _ !! _)|intros x db'' (Hx & Ht & Hc'); by rewrite ?Hx, Ht in *].

Lemma push_exact u n db : ct_coherent (contacts db) (contactCache db) -> named u -> step_exact (OpPush u n) db.
Proof. intros Hc Hu. put_exact (putPushNameQuery n). Qed.
Lemma business_exact u n db : ct_coherent (contacts db) (contactCache db) -> named u -> step_exact (OpBusiness u n) db.
Proof. intros Hc Hu. put_exact (putBusinessNameQuery n). Qed.
Lemma name_exact u f l db : ct_coherent (contacts db) (contactCache db) -> named u -> step_exact (OpName u f l) db.
Proof. intros Hc Hu. put_exact (putContactNameQuery f l). Qed.
Lemma get_exact u db : ct_coherent (contacts db) (contactCache db) -> named u -> step_exact (OpGet u) db.
Proof.
  intros Hc Hu. apply runs_then. eapply runs_mono; [by apply getContact_runs| |done].
  intros info db' ([Ht Hc'] & -> & _). by split.
Qed.

(** *** Lists *)

Lemma put_batches_runs (batches : list (list (string * (option ContactRow -> ContactRow)))) db :
  Forall (fun b => NoDup b.*1) batches ->
  runs (put_batches d ((fmap set_row : list _ -> list _) <$> batches)) db
    (fun _ db' => contacts db' = set_rows (concat batches) (contacts db) /\ contactCache db' = contactCache db)
    (fun db' => contactCache db' = contactCache db).
Proof.
  revert db. induction batches as [|b batches IH]; intros db Hn; [by apply runs_ret|]. inversion_clear Hn as [|? ? Hb Hbs].
  cbn [put_batches fmap list_fmap concat]. eapply runs_bind.
  - apply (runs_execute_checked _ db (fun _ db' => contacts db' = set_rows b (contacts db) /\ contactCache db' = contactCache db)); [done|].
    intros fs. cbn. change (list_fmap _ _ set_row b) with (set_row <$> b). rewrite upsert_ok by done. by eexists.
  - intros [] db' [Ht Hc]. eapply runs_mono; [by apply IH| |].
    + intros [] db'' [Ht' Hc']. rewrite Ht', Hc', Ht, Hc. by rewrite set_rows_app.
    + intros db'' Hc'. by rewrite Hc'.
Qed.
Lemma put_many_runs (rows : list (string * (option ContactRow -> ContactRow))) db : NoDup rows.*1 ->
  runs (put_many d (set_row <$> rows)) db
    (fun _ db' => contacts db' = set_rows rows (contacts db) /\ contactCache db' = contactCache db)
    (fun db' => contacts db' = contacts db /\ contactCache db' = contactCache db).
Proof.
  intros Hn. apply (runs_transaction _ _ _ _ _ (fun db' => contactCache db' = contactCache db)); [done|done|].
  intros fs. rewrite Chunk_fmap. eapply runs_mono; [apply put_batches_runs| |done].
  - rewrite Forall_forall. intros b Hb. assert (exists l1 l2, rows = l1 ++ b ++ l2) as (l1 & l2 & ->).
    { rewrite <- (concat_Chunk rows contactBatchSize) by (unfold contactBatchSize; lia).
      apply list_elem_of_split in Hb as (c1 & c2 & ->). rewrite concat_app. cbn. by eexists _, _. }
    rewrite !fmap_app in Hn. by apply NoDup_app in Hn as (_ & _ & (Hn & _ & _)%NoDup_app).
  - intros [] db' [Ht Hc] fs'. rewrite concat_Chunk in Ht by (unfold contactBatchSize; lia). by split.
Qed.

Lemma one_each_nil {E} (jid : E -> JID) put t : one_each jid put [] t t.
Proof. intros k. destruct (t !! k); [left|]; (split; [done|apply not_elem_of_nil]). Qed.

Section OneEach.
Context {E : Type} (jid : E -> JID) (put : E -> option ContactRow -> ContactRow) (l : list E).
Hypothesis l_named : Forall (fun e => named (jid e)) l.
Let row (e : E) : string * (option ContactRow -> ContactRow) := (String_ (jid e), put e).

Lemma rows_nodup : NoDup (row <$> dedup E jid l).*1.
Proof.
  assert ((row <$> dedup E jid l).*1 = String_ <$> (jid <$> dedup E jid l)) as -> by by rewrite <- !list_fmap_compose.
  rewrite Forall_forall in l_named.
  apply NoDup_fmap_2_strong; [|done].
  intros x y (e & -> & He%dedup_subset)%list_elem_of_fmap (e' & -> & He'%dedup_subset)%list_elem_of_fmap. apply named_inj; by apply l_named.
Qed.
Lemma one_each_dedup t : one_each jid put l t (set_rows (row <$> dedup E jid l) t).
Proof.
  intros k. destruct (decide (k ∈ (row <$> dedup E jid l).*1)) as [Hk|Hk].
  - rewrite <- list_fmap_compose in Hk. apply list_elem_of_fmap in Hk as (e & -> & He).
    rewrite (set_rows_at _ _ _ (put e)); [|apply rows_nodup|by apply (list_elem_of_fmap_2 row)].
    right. exists e. split; [by apply dedup_subset in He|done].
  - rewrite set_rows_other by done.
    assert (k ∉ String_ ∘ jid <$> l) as Hl.
    { intros (e & -> & He)%list_elem_of_fmap. apply Hk. apply (dedup_keys E jid) in He as (e' & Hj & He')%list_elem_of_fmap.
      rewrite <- list_fmap_compose. apply list_elem_of_fmap. exists e'. cbn. by rewrite Hj. }
    destruct (t !! k); [by left|done].
Qed.
Lemma one_each_named t t' : one_each jid put l t t' ->
  (forall k, is_Some (t !! k) -> exists j, named j /\ k = String_ j) -> forall k, is_Some (t' !! k) -> exists j, named j /\ k = String_ j.
Proof.
  intros Ho Hr k [r Hk]. specialize (Ho k). rewrite Hk in Ho. rewrite Forall_forall in l_named.
  destruct Ho as [[Ht _]|(e & He & -> & _)]; [apply Hr; by eexists|]. exists (jid e). split; [by apply l_named|done].
Qed.
End OneEach.

Lemma names_exact l db : ct_coherent (contacts db) (contactCache db) -> contact_op_ok (OpNames l) -> step_exact (OpNames l) db.
Proof.
  intros Hc Hl. cbn [contact_op_ok] in Hl. apply (runs_then _ (fun _ : () => Done)). unfold PutAllContactNames.
  destruct l as [|e l']; cbn [length Nat.eqb].
  - apply runs_ret. split; [split; [done|apply one_each_nil]|done].
  - set (l := e :: l') in *. clearbody l. eapply runs_bind.
    + rewrite list_fmap_compose. eapply runs_mono; [apply put_many_runs|intros ? ? H; exact H|].
      * by apply (rows_nodup ce_JID (fun e => putContactNameQuery (ce_FirstName e) (ce_FullName e))).
      * intros db' [Ht Hcc]. unfold unchanged. by rewrite Ht, Hcc.
    + intros [] db' [Ht Hcc]. apply runs_change; [done|]. cbn [contact_spec].
      change (contacts (db' <| contactCache := ∅ |>)) with (contacts db').
      pose proof (one_each_dedup ce_JID (fun e => putContactNameQuery (ce_FirstName e) (ce_FullName e)) l Hl (contacts db)) as Ho.
      change (set_rows _ _) with (set_rows (name_row <$> dedup _ ce_JID l) (contacts db)) in Ho.
      rewrite <- Ht in Ho. split; [by split|]. split; [by intros j info H; change ((∅ : gmap JID ContactInfo) !! j = Some info) in H; rewrite lookup_empty in H|].
      by apply (one_each_named _ _ _ Hl _ _ Ho), Hc.
Qed.

Lemma drop_cached_lookup es c j info : foldl drop_cached c es !! j = Some info ->
  c !! j = Some info /\ forall e, e ∈ es -> rpe_JID e = j -> RedactedPhone info = rpe_RedactedPhone e.
Proof.
  revert c. induction es as [|e es IH]; intros c; cbn; [intros ->; split; [done|]; by intros ? ?%elem_of_nil|].
  intros (He & Hes)%IH. assert (c !! j = Some info /\ (rpe_JID e = j -> RedactedPhone info = rpe_RedactedPhone e)) as [Hc Hp].
  { unfold drop_cached in He. destruct (c !! rpe_JID e) as [x|] eqn:Hx.
    - destruct (String.eqb_spec (RedactedPhone x) (rpe_RedactedPhone e)) as [Heq|].
      + split; [done|]. intros <-. rewrite Hx in He. by injection He as ->.
      + apply lookup_delete_Some in He as [Hne He]. by split.
    - apply lookup_delete_Some in He as [Hne He]. by split. }
  split; [done|]. intros e' [->|He']%elem_of_cons; [done|by apply Hes].
Qed.

Lemma phones_exact l db : ct_coherent (contacts db) (contactCache db) -> contact_op_ok (OpPhones l) -> step_exact (OpPhones l) db.
Proof.
  intros Hc Hl. cbn [contact_op_ok] in Hl. apply Forall_and in Hl as [Hl Hp].
  apply (runs_then _ (fun _ : () => Done)). unfold PutManyRedactedPhones. destruct l as [|e l']; cbn [length Nat.eqb].
  - apply runs_ret. split; [split; [done|apply one_each_nil]|done].
  - set (l := e :: l') in *. clearbody l. set (put e := putRedactedPhoneQuery (rpe_RedactedPhone e)). eapply runs_bind.
    + rewrite list_fmap_compose. eapply runs_mono; [apply put_many_runs|intros ? ? H; exact H|].
      * by apply (rows_nodup rpe_JID put).
      * intros db' [Ht Hcc]. unfold unchanged. by rewrite Ht, Hcc.
    + intros [] db' [Ht Hcc]. apply runs_change; [done|]. cbn [contact_spec].
      change (contacts (db' <| contactCache := ?x |>)) with (contacts db'). change (contactCache (db' <| contactCache := ?x |>)) with x.
      pose proof (one_each_dedup rpe_JID put l Hl (contacts db)) as Ho. change (set_rows _ _) with (set_rows (phone_row <$> dedup _ rpe_JID l) (contacts db)) in Ho.
      rewrite <- Ht in Ho. split; [by split|]. split; [|by apply (one_each_named _ _ _ Hl _ _ Ho), Hc].
      rewrite Hcc. intros j info (Hj & He)%drop_cached_lookup. apply (cached_exact _ _ Hc) in Hj as [Hn ->]. split; [done|].
      unfold contact. destruct (decide (j ∈ rpe_JID <$> dedup _ rpe_JID l)) as [(e0 & -> & He0)%list_elem_of_fmap|Hnot].
      * specialize (He e0 He0 eq_refl). apply dedup_subset in He0 as Hin. rewrite Forall_forall in Hp. specialize (Hp _ Hin).
        rewrite Ht, (set_rows_at _ _ _ (put e0)); [|by apply rows_nodup|by apply (list_elem_of_fmap_2 phone_row)].
        unfold contact in He. destruct (contacts db !! String_ (rpe_JID e0)) as [[f fu pn bn [ph|]]|] eqn:Hrow; cbn in He; [|by rewrite <- He in Hp..].
        unfold put. rewrite <- He. done.
      * rewrite Ht, set_rows_other; [done|]. rewrite <- list_fmap_compose. intros (e0 & Hs & He0)%list_elem_of_fmap. apply Hnot.
        cbn in Hs. apply dedup_subset in He0 as Hin. rewrite Forall_forall in Hl.
        apply named_inj in Hs as ->; [by apply list_elem_of_fmap_2|done|by apply Hl].
Qed.

Definition exact_output (t : gmap string ContactRow) (out : gmap JID ContactInfo) : Prop :=
  forall j info, out !! j = Some info -> named j /\ is_Some (t !! String_ j) /\ info = contact t j.

Lemma iter_contacts_runs t rows : forall out db,
  (forall k r, (k, r) ∈ rows -> t !! k = Some r) -> contacts db = t -> ct_coherent t (contactCache db) -> exact_output t out ->
  runs (iter_contacts rows out) db
    (fun out' db' => contacts db' = t /\ ct_coherent t (contactCache db') /\ exact_output t out' /\
      (forall j, named j -> is_Some (out !! j) \/ String_ j ∈ rows.*1 -> is_Some (out' !! j)))
    (unchanged db).
Proof.
  induction rows as [|[k r] rows IH]; intros out db Hrows Ht Hc Ho; cbn [iter_contacts].
  - apply runs_ret. split; [done|]. split; [done|]. split; [done|]. intros j _ [H|H]; [done|]. by apply elem_of_nil in H.
  - assert (t !! k = Some r) as Hk by (apply Hrows; by left).
    destruct (rows_named _ _ Hc k ltac:(by eexists)) as (j & Hj & ->). rewrite named_scan by done.
    assert (contact_info (Some r) = contact t j) as -> by (unfold contact; by rewrite Hk).
    eapply runs_bind.
    + apply (runs_change _ db (fun _ db' => contacts db' = t /\ contactCache db' = <[j := contact t j]> (contactCache db))); done.
    + intros [] db' [Ht' Hc']. eapply runs_mono; [apply IH|..].
      * intros k' r' H. apply Hrows. by right.
      * done.
      * rewrite Hc'. by apply coherent_cache.
      * intros j' info. rewrite lookup_insert_Some. intros [[<- <-]|[_ H]]; [|by apply Ho]. split; [done|]. split; [by eexists|done].
      * intros out' db'' (H1 & H2 & H3 & H4). split; [done|]. split; [done|]. split; [done|]. intros j' Hn' [H|H]; apply H4; try done.
        -- left. rewrite lookup_insert_is_Some'. by right.
        -- apply elem_of_cons in H as [H|H]; [|by right]. left. apply named_inj in H as ->; [|done..]. rewrite lookup_insert_eq. by eexists.
      * intros db'' [Ht'' Hc'']. unfold unchanged. by rewrite Ht'', Ht', Ht in *.
Qed.
Lemma all_exact db : ct_coherent (contacts db) (contactCache db) -> step_exact OpAll db.
Proof.
  intros Hc. apply runs_then. unfold GetAllContacts. eapply runs_bind.
  - by apply (runs_select _ db (fun rows db' => rows = map_to_list (contacts db) /\ contacts db' = contacts db /\ contactCache db' = contactCache db)).
  - intros rows db' (-> & Ht & Hcc). eapply runs_mono; [apply (iter_contacts_runs (contacts db))|..].
    + intros k r. apply elem_of_map_to_list.
    + done.
    + by rewrite Hcc.
    + by intros j info ?%lookup_empty_Some.
    + intros out db'' (Ht' & Hc' & Ho & Hall). rewrite Ht'. split; [|done]. split; [done|]. exists out. split; [done|].
      intros j info. split; [intros H; destruct (Ho _ _ H) as ([? _] & ? & ?); by split|]. intros (Hp & [r Hr] & ->).
      destruct (rows_named _ _ Hc _ (mk_is_Some _ _ Hr)) as (j' & Hj' & He).
      assert (j' = j) as ->. { destruct Hj' as [Hp' _]. pose proof (JID_print_parse j Hp) as H1. rewrite He, JID_print_parse in H1 by done. by injection H1. }
      destruct (Hall j Hj') as [info Hi]; [right; apply list_elem_of_fmap; by exists (String_ j, r); split; [|apply elem_of_map_to_list]|].
      rewrite Hi. f_equal. by apply Ho.
    + intros db'' [Ht'' Hc'']. unfold unchanged. by rewrite Ht'', Ht in *.
Qed.

Lemma contact_step_exact op db : ct_coherent (contacts db) (contactCache db) -> contact_op_ok op -> step_exact op db.
Proof.
  destruct op; intros; [by apply push_exact|by apply business_exact|by apply name_exact|by apply names_exact|by apply phones_exact|by apply get_exact|by apply all_exact].
Qed.
End Exact.

(** C12. For operations whose JIDs are their own text (a JID that is printed and parsed
    is the same) and whose redacted phone numbers are not empty (for an empty one
    the cache and the rows differ: [empty_phone_stays_unknown]), whatever the
    statements that fail: the answers are those that the rows alone would give,
    and the rows are changed as the operations say; an operation that fails changes
    nothing, and without faults none fails. *)
Theorem contact_cache_transparent d dedup ops db :
  (forall E (key : E -> JID) l, NoDup (key <$> dedup E key l)) -> (forall E (key : E -> JID) l, dedup E key l ⊆ l) ->
  (forall E (key : E -> JID) l e, e ∈ l -> key e ∈ key <$> dedup E key l) ->
  ct_coherent (contacts db) (contactCache db) -> Forall contact_op_ok ops ->
  let '(answers, db') := contact_run d dedup ops db in
  spec_run ops (contacts db) answers (contacts db') /\ ct_coherent (contacts db') (contactCache db') /\
  (ct_faults db = [] -> Forall (fun a => exists x, a = inr x) answers).
Proof.
  intros H1 H2 H3. revert db. induction ops as [|op ops IH]; intros db Hc Ho; cbn [contact_run]; [split; [apply spec_nil|]; split; [done|]; by constructor|].
  inversion_clear Ho as [|? ? Hop Hops]. pose proof (contact_step_exact d dedup H1 H2 H3 op db Hc Hop) as Hs. unfold step_exact, runs in Hs.
  destruct (contact_step d dedup op db) as [[e|a] db1]; destruct Hs as [Hs Hf].
  - destruct Hs as [Ht Hc1]. specialize (IH db1 Hc1 Hops). destruct (contact_run d dedup ops db1) as [l db2].
    rewrite Ht in IH. destruct IH as (Hr & Hc2 & _). split; [by constructor|]. by split.
  - destruct Hs as [Ha Hc1]. specialize (IH db1 Hc1 Hops). destruct (contact_run d dedup ops db1) as [l db2].
    destruct IH as (Hr & Hc2 & Hl). split; [by econstructor|]. split; [done|]. intros H0. constructor; [by eexists|]. apply Hl, Hf, H0.
Qed.

(** An empty redacted number for a contact that is cached as unknown makes a row
    and leaves the entry: [GetContact] goes on saying that there is none. *)
Theorem empty_phone_stays_unknown d (dedup : forall E : Type, (E -> JID) -> list E -> list E) u db :
  named u -> ct_faults db = [] -> contacts db !! String_ u = None -> contactCache db !! u = Some (contact_info None) ->
  dedup RedactedPhoneEntry rpe_JID [mkRedacted u ""] = [mkRedacted u ""] ->
  let db' := (PutManyRedactedPhones d dedup [mkRedacted u ""] db).2 in
  is_Some (contacts db' !! String_ u) /\ (GetContact u db').1 = inr (contact_info None).
Proof.
  intros Hu Hf Ht Hc Hd. unfold PutManyRedactedPhones. cbn [length Nat.eqb]. rewrite Hd. set (e := mkRedacted u "").
  pose proof (put_many_runs d [phone_row e] db (NoDup_singleton _)) as H. unfold runs in H. unfold mbind, Stmt_bind.
  change ((set_row ∘ phone_row) <$> [e]) with (set_row <$> [phone_row e]).
  destruct (put_many d (set_row <$> [phone_row e]) db) as [[err|[]] db1]; destruct H as [H Hf']; [by destruct (Hf' Hf)|destruct H as [Ht' Hc']].
  unfold change. cbn [snd]. change (contacts (db1 <| contactCache := ?x |>)) with (contacts db1). rewrite Ht'. split.
  - rewrite (set_rows_at _ _ _ (phone_row e).2); [by eexists|apply NoDup_singleton|by left].
  - unfold GetContact, getContact, look, mbind, Stmt_bind. cbn [contactCache]. rewrite Hc'. cbn [foldl]. unfold drop_cached. cbn [rpe_JID e].
    change (contactCache (db1 <| contactCache := ?x |>)) with x. rewrite Hc. cbn [String.eqb RedactedPhone contact_info].
    change (String.eqb _ _) with true. cbn iota. by rewrite Hc.
Qed.

(** ** The theorems at work *)

Fixpoint first_each {E : Type} (key : E -> JID) (l : list E) : list E :=
  match l with [] => [] | e :: l => e :: filter (fun x => key x <> key e) (first_each key l) end.
Lemma first_each_subset {E} (key : E -> JID) l : first_each key l ⊆ l.
Proof. induction l as [|e l IH]; intros x; cbn; [done|]. rewrite !elem_of_cons, list_elem_of_filter. intros [->|[_ H]]; [by left|right; by apply IH]. Qed.
Lemma first_each_keys {E} (key : E -> JID) l e : e ∈ l -> key e ∈ key <$> first_each key l.
Proof.
  induction l as [|e' l IH]; cbn; [by intros ?%elem_of_nil|]. rewrite !elem_of_cons. intros [->|H]; [by left|].
  destruct (decide (key e = key e')) as [->|Hne]; [by left|right]. specialize (IH H). apply list_elem_of_fmap in IH as (x & Hx & Hin).
  apply list_elem_of_fmap. exists x. split; [done|]. apply list_elem_of_filter. split; congruence.
Qed.
Lemma first_each_once {E} (key : E -> JID) l : NoDup (key <$> first_each key l).
Proof.
  induction l as [|e l IH]; cbn; [constructor|]. constructor.
  - intros (x & Hx & [Hne _]%list_elem_of_filter)%list_elem_of_fmap. congruence.
  - eapply sublist_NoDup; [apply IH|]. apply fmap_sublist, sublist_filter.
Qed.

Definition demo_contact : JID := NewJID "4915123" DefaultUserServer.
Definition demo_contact_ops : list contact_op :=
  [OpGet demo_contact; OpPush demo_contact "Ann"; OpNames [mkContactEntry demo_contact "A" "Ann B"; mkContactEntry demo_contact "B" "Ann C"];
   OpPhones [mkRedacted demo_contact "+1"]; OpPush demo_contact "Bea"; OpAll].
Definition demo_contacts (faults : list bool) : ContactDB := mkContactDB ∅ ∅ faults.

Lemma contact_cache_transparent_witness :
  let r := contact_run Postgres (@first_each) demo_contact_ops (demo_contacts [false; true]) in
  spec_run demo_contact_ops ∅ r.1 (contacts r.2) /\ ct_coherent (contacts r.2) (contactCache r.2).
Proof.
  intros r. pose proof (contact_cache_transparent Postgres (@first_each) demo_contact_ops (demo_contacts [false; true])
    (@first_each_once) (@first_each_subset) (@first_each_keys)) as H.
  unfold r. destruct (contact_run Postgres (@first_each) demo_contact_ops (demo_contacts [false; true])) as [a db'].
  destruct H as (Hs & Hc & _); [apply coherent_empty| |by split].
  repeat constructor; vm_compute; done.
Defined.
Example demo_contacts_run :
  let r := contact_run Postgres (@first_each) demo_contact_ops (demo_contacts [false; true]) in
  bool_decide (PushName (contact (contacts r.2) demo_contact) = "Bea") = true /\
  bool_decide (FullName (contact (contacts r.2) demo_contact) = "Ann B") = true.
Proof. split; vm_compute; reflexivity. Qed.

Lemma empty_phone_stays_unknown_witness :
  let db := (GetContact demo_contact (demo_contacts [])).2 in
  let db' := (PutManyRedactedPhones SQLite (@first_each) [mkRedacted demo_contact ""] db).2 in
  is_Some (contacts db' !! String_ demo_contact) /\ (GetContact demo_contact db').1 = inr (contact_info None).
Proof.
  intros db db'. apply (empty_phone_stays_unknown SQLite (@first_each) demo_contact db); [by split|vm_compute; reflexivity..].
Defined.
