(* ===== verification/AccountStore.v ===== *)
(** * [whatsmeow/store/sqlstore/store.go]: chat settings, message secrets, privacy
    tokens, NCT salt

    The rows of one account.  A secret or a token that is kept under the phone
    number of a user is also found under the LID, and the other way round: the
    statements look the other name up in the table of [LidMap]. *)
From S2P Require Import Prelude GoStrings GoTime Jid LidMap PreKeys SqlDB SqlText.

(** Rows of [whatsmeow_chat_settings] and [whatsmeow_privacy_tokens]. *)
Record ChatRow : Type := mkChatRow { muted_until : Z; pinned : bool; archived : bool }.
#[export] Instance eta_ChatRow : Eta ChatRow := fun r => mkChatRow (muted_until r) (pinned r) (archived r).
Record TokenRow : Type := mkTokenRow { tk_token : Bytes; tk_timestamp : Z; tk_sender : option Z }.
(** The columns that an insertion does not name. *)
Definition new_chat : ChatRow := mkChatRow 0 false false.

Record AccountDB : Type := mkAccountDB {
  chat_settings : gmap string ChatRow;
  message_secrets : gmap (string * string * string) Bytes;
  privacy_tokens : gmap string TokenRow;
  nct_salt : option Bytes;
  lid_rows : list Row;
  ac_faults : list bool }.
#[export] Instance eta_AccountDB : Eta AccountDB := fun r =>
  mkAccountDB (chat_settings r) (message_secrets r) (privacy_tokens r) (nct_salt r) (lid_rows r) (ac_faults r).
#[export] Instance AccountDB_faulty : Faulty AccountDB := {
  db_faults := ac_faults; set_db_faults fs db := db <| ac_faults := fs |>; set_get_faults db := ltac:(by destruct db);
  get_set_faults _ _ := eq_refl }.
Definition ac_restore (before after : AccountDB) : AccountDB := before <| ac_faults := ac_faults after |>.

(** [types.LocalChatSettings], [store.MessageSecretInsert], [store.PrivacyToken].
    [None] is nil, which is NULL in a statement. *)
Record LocalChatSettings : Type := mkSettings { ls_Found : bool; MutedUntil : Time; Pinned : bool; Archived : bool }.
Record MessageSecretInsert : Type := mkInsert { ms_Chat : JID; ms_Sender : JID; ms_ID : string; ms_Secret : option Bytes }.
Record PrivacyToken : Type := mkToken { pt_User : JID; pt_Token : option Bytes; pt_Timestamp : Time; SenderTimestamp : Time }.
#[export] Instance eta_PrivacyToken : Eta PrivacyToken := fun r => mkToken (pt_User r) (pt_Token r) (pt_Timestamp r) (SenderTimestamp r).

(** The last nanosecond of the year 9999. *)
Definition MutedForever : Time := Unix 253402300799 + 999999999.

Section AccountStore.
Context (d : Dialect).
Notation like := (like (fold_of d)).
(** The row that comes first where a statement does not order them. *)
Context (pick : forall A, list A -> option A).

(** ** Chat settings *)

Definition putChatSettingQuery (chat : JID) (f : ChatRow -> ChatRow) : Stmt AccountDB () :=
  execute_checked (fun db => match upsert d [jid_row chat (fun v => f (default new_chat v))] (chat_settings db) with
    | Some t => Some (db <| chat_settings := t |>) | None => None end).
(** [==] also compares the locations; [utc] says that the one of the argument is
    that of [MutedForever]. *)
Definition muted_value (mutedUntil : Time) (utc : bool) : Z :=
  if bool_decide (mutedUntil = MutedForever) && utc then -1
  else if negb (IsZero mutedUntil) then toUnix mutedUntil else 0.
Definition PutMutedUntil (chat : JID) (mutedUntil : Time) (utc : bool) : Stmt AccountDB () :=
  putChatSettingQuery chat (fun r => r <| muted_until := muted_value mutedUntil utc |>).
Definition PutPinned (chat : JID) (p : bool) : Stmt AccountDB () := putChatSettingQuery chat (fun r => r <| pinned := p |>).
Definition PutArchived (chat : JID) (a : bool) : Stmt AccountDB () := putChatSettingQuery chat (fun r => r <| archived := a |>).

Definition muted_time (mutedUntil : Z) : Time :=
  if mutedUntil <? 0 then MutedForever else if 0 <? mutedUntil then Unix mutedUntil else zeroTime.
Definition GetChatSettings (chat : JID) : Stmt AccountDB LocalChatSettings :=
  row ← select (fun db => match jid_key chat with Some k => chat_settings db !! k | None => None end);
  let r := default new_chat row in
  mret (mkSettings (bool_decide (is_Some row)) (muted_time (muted_until r)) (pinned r) (archived r)).

(** ** The other address of a user *)

Definition lid_suffix : string := "@lid".
Definition pn_suffix : string := "@s.whatsapp.net".
(** The [CASE] of the queries. *)
Definition other_address (t : list Row) (s : string) : option string :=
  if like (String wild lid_suffix) s then
    (fun r : Row => r.2 +:+ pn_suffix) <$> head (filter (fun r => r.1 = sql_replace s lid_suffix "") t)
  else if like (String wild pn_suffix) s then
    (fun r : Row => r.1 +:+ lid_suffix) <$> head (filter (fun r => r.2 = sql_replace s pn_suffix "") t)
  else None.
Definition addresses (t : list Row) (jid : JID) : list string :=
  match jid_key jid with Some s => s :: option_list (other_address t s) | None => [] end.

(** ** Message secrets *)

(** [DO NOTHING] when there is a secret. *)
Definition putMsgSecret (chat sender : JID) (id : string) (secret : option Bytes) : Stmt AccountDB () :=
  execute_checked (fun db =>
    match jid_key (ToNonAD chat), jid_key (ToNonAD sender), secret with
    | Some c, Some s, Some secret =>
        Some (match message_secrets db !! (c, s, id) with
              | Some _ => db
              | None => db <| message_secrets := <[(c, s, id) := secret]> (message_secrets db) |>
              end)
    | _, _, _ => None
    end).
Definition PutMessageSecret := putMsgSecret.
Fixpoint put_secrets (l : list MessageSecretInsert) : Stmt AccountDB () :=
  match l with
  | [] => mret ()
  | i :: l => _ ← putMsgSecret (ms_Chat i) (ms_Sender i) (ms_ID i) (ms_Secret i); put_secrets l
  end.
Definition PutMessageSecrets (inserts : list MessageSecretInsert) : Stmt AccountDB () :=
  if (length inserts =? 0)%nat then mret () else transaction ac_restore (put_secrets inserts).

Definition secret_rows (chat sender : JID) (id : string) (db : AccountDB) : list (string * string * string * Bytes) :=
  filter (fun r => r.1.1.1 ∈ addresses (lid_rows db) (ToNonAD chat) /\ r.1.1.2 ∈ addresses (lid_rows db) (ToNonAD sender) /\ r.1.2 = id)
    (map_to_list (message_secrets db)).
(** The secret, or nil, with the sender it is kept for. *)
Definition GetMessageSecret (chat sender : JID) (id : string) : Stmt AccountDB (option Bytes * JID) :=
  row ← select (fun db => pick _ (secret_rows chat sender id db));
  match row with
  | None => mret (None, EmptyJID)
  | Some (_, s, _, key) =>
      match Scan (SqlString s) EmptyJID with
      | (realSender, None) => mret (Some key, realSender)
      | (_, Some _) => stmt_fail ErrScan
      end
  end.

(** ** Privacy tokens *)

(** [COALESCE] keeps the sender's timestamp when there is no new one. *)
Definition put_token (token : Bytes) (ts : Z) (sender : option Z) (v : option TokenRow) : option TokenRow :=
  match v with
  | None => Some (mkTokenRow token ts sender)
  | Some r => if tk_timestamp r <=? ts then Some (mkTokenRow token ts (match sender with Some s => Some s | None => tk_sender r end)) else None
  end.
Definition token_row (t : PrivacyToken) : new_row :=
  match pt_Token t with
  | None => None
  | Some token =>
      Some (String_ (ToNonAD (pt_User t)),
            put_token token (toUnix (pt_Timestamp t)) (if IsZero (SenderTimestamp t) then None else Some (toUnix (SenderTimestamp t))))
  end.
(** Without tokens the statement has no rows, which is not SQL. *)
Definition PutPrivacyTokens (tokens : list PrivacyToken) : Stmt AccountDB () :=
  execute_checked (fun db => match tokens with
    | [] => None
    | _ => match upsert d (token_row <$> tokens) (privacy_tokens db) with Some t => Some (db <| privacy_tokens := t |>) | None => None end
    end).

(** The [CASE] has an [ELSE]: any other JID is its own other address. *)
Definition token_rows (user : JID) (db : AccountDB) : list (string * TokenRow) :=
  filter (fun r => r.1 ∈ addresses (lid_rows db) user) (map_to_list (privacy_tokens db)).
(** [ORDER BY timestamp DESC LIMIT 1] *)
Definition newest (rows : list (string * TokenRow)) : list (string * TokenRow) :=
  filter (fun r => Forall (fun r' => tk_timestamp r'.2 <= tk_timestamp r.2) rows) rows.
Definition GetPrivacyToken (user : JID) : Stmt AccountDB (option PrivacyToken) :=
  row ← select (fun db => pick _ (newest (token_rows (ToNonAD user) db)));
  mret ((fun r : string * TokenRow =>
    mkToken (ToNonAD user) (Some (tk_token r.2)) (Unix (tk_timestamp r.2)) (match tk_sender r.2 with Some s => Unix s | None => zeroTime end)) <$> row).

(** The number of rows that were deleted. *)
Definition DeleteExpiredPrivacyTokens (cutoff : Time) : Stmt AccountDB Z :=
  statement (fun db =>
    let kept := filter (fun r => toUnix cutoff <= tk_timestamp r.2) (privacy_tokens db) in
    (inr (Z.of_nat (size (privacy_tokens db)) - Z.of_nat (size kept)), db <| privacy_tokens := kept |>)).

(** ** The NCT salt *)

Definition PutNCTSalt (salt : option Bytes) : Stmt AccountDB () :=
  execute_checked (fun db => match salt with Some s => Some (db <| nct_salt := Some s |>) | None => None end).
Definition GetNCTSalt : Stmt AccountDB (option Bytes) := select nct_salt.
Definition DeleteNCTSalt : Stmt AccountDB () := execute (fun db => db <| nct_salt := None |>).
End AccountStore.

(** ** Either address *)

(** The same user by the phone number and by the LID. *)
Inductive alias (t : list Row) : JID -> JID -> Prop :=
| alias_same j : Server j <> "" -> alias t j j
| alias_lid l u : (l, u) ∈ t -> no_byte "@" l = true -> no_byte "@" u = true -> alias t (NewJID u DefaultUserServer) (NewJID l HiddenUserServer)
| alias_pn l u : (l, u) ∈ t -> no_byte "@" l = true -> no_byte "@" u = true -> alias t (NewJID l HiddenUserServer) (NewJID u DefaultUserServer).

Section Addresses.
Context (d : Dialect).

Lemma head_row s t r : one_to_one t -> r ∈ t -> head (filter (fun x => key s x = key s r) t) = Some r.
Proof.
  intros Hone Hr. destruct (filter _ t) as [|r' l] eqn:Hf; cbn.
  - exfalso. by apply (filter_empty (fun x => key s x = key s r) t r Hf Hr).
  - assert (r' ∈ filter (fun x => key s x = key s r) t) as [Hk Hin]%list_elem_of_filter by (rewrite Hf; by left).
    f_equal. by apply (row_unique t Hone s).
Qed.
Lemma other_of_pn t l u : one_to_one t -> (l, u) ∈ t -> no_byte "@" u = true -> other_address d t (u +:+ pn_suffix) = Some (l +:+ lid_suffix).
Proof.
  intros Hone Hin Hu. unfold other_address.
  change pn_suffix with ("@s.whatsapp" +:+ ".net") at 1. rewrite <- append_assoc, like_suffix_end by done.
  assert (like (fold_of d) lid_suffix ".net" = false) as -> by by destruct d.
  rewrite like_suffix_end, like_refl by done. unfold sql_replace. change (String.eqb pn_suffix "") with false. cbn iota.
  assert (replace_all (u +:+ pn_suffix) pn_suffix "" = u) as ->.
  { unfold pn_suffix. rewrite replace_all_skip by done. apply append_nil_r. }
  change (head (filter _ t)) with (head (filter (fun x => key byPN x = key byPN (l, u)) t)). by rewrite head_row.
Qed.
Lemma other_of_lid t l u : one_to_one t -> (l, u) ∈ t -> no_byte "@" l = true -> other_address d t (l +:+ lid_suffix) = Some (u +:+ pn_suffix).
Proof.
  intros Hone Hin Hl. unfold other_address. rewrite like_suffix_end, like_refl by done. unfold sql_replace.
  change (String.eqb lid_suffix "") with false. cbn iota.
  assert (replace_all (l +:+ lid_suffix) lid_suffix "" = l) as ->.
  { unfold lid_suffix. rewrite replace_all_skip by done. apply append_nil_r. }
  change (head (filter _ t)) with (head (filter (fun x => key byLID x = key byLID (l, u)) t)). by rewrite head_row.
Qed.

Lemma String_NewJID u s : u <> "" -> String_ (NewJID u s) = u +:+ String "@" s.
Proof. by destruct u. Qed.
Lemma alias_key t j j' : alias t j j' -> jid_key j = Some (String_ j).
Proof. intros [j0 Hs|l u _ _ _|l u _ _ _]; [|done..]. unfold jid_key, Value. by destruct (Server j0). Qed.
Lemma alias_addresses t j j' : one_to_one t -> alias t j j' -> String_ j ∈ addresses d t j'.
Proof.
  intros Hone Ha. unfold addresses. destruct Ha as [j Hs|l u Hin Hl Hu|l u Hin Hl Hu].
  - rewrite (alias_key t j j) by by constructor. by left.
  - pose proof (key_named t Hone byPN _ Hin) as Hn. pose proof (key_named t Hone byLID _ Hin) as Hn'. cbn in Hn, Hn'.
    rewrite (alias_key t _ (NewJID u DefaultUserServer)) by by constructor. rewrite !String_NewJID by done.
    change (String "@" HiddenUserServer) with lid_suffix. rewrite (other_of_lid t l u) by done. right. by left.
  - pose proof (key_named t Hone byPN _ Hin) as Hn. pose proof (key_named t Hone byLID _ Hin) as Hn'. cbn in Hn, Hn'.
    rewrite (alias_key t _ (NewJID l HiddenUserServer)) by by constructor. rewrite !String_NewJID by done.
    change (String "@" DefaultUserServer) with pn_suffix. rewrite (other_of_pn t l u) by done. right. by left.
Qed.
End Addresses.

(** ** The theorems *)

(** What a row that comes first is, whatever the order. *)
Definition picks (pick : forall A, list A -> option A) : Prop :=
  forall A (l : list A), match pick A l with Some x => x ∈ l | None => l = [] end.

Lemma pick_unique pick {A} (l : list A) x : picks pick -> (forall y, y ∈ l <-> y = x) -> pick A l = Some x.
Proof.
  intros Hp Hl. specialize (Hp A l). destruct (pick A l) as [y|]; [by apply Hl in Hp as ->|]. subst. exfalso. by apply (not_elem_of_nil x), Hl.
Qed.

(** A secret that was put is what a lookup finds under either address of the chat
    and of the sender. *)
Lemma secret_put d pick chat sender chat' sender' id secret db :
  picks pick -> ac_faults db = [] -> one_to_one (lid_rows db) ->
  alias (lid_rows db) (ToNonAD chat) (ToNonAD chat') -> alias (lid_rows db) (ToNonAD sender) (ToNonAD sender') ->
  printable (ToNonAD sender) = true -> secret_rows d chat' sender' id db = [] ->
  let db' := (PutMessageSecret chat sender id (Some secret) db).2 in
  GetMessageSecret d pick chat' sender' id db' = (inr (Some secret, ToNonAD sender), db') /\
  forall other, PutMessageSecret chat sender id (Some other) db' = (inr (), db').
Proof.
  intros Hpick Hf Hone Hc Hs Hp Hnone. set (k := (String_ (ToNonAD chat), String_ (ToNonAD sender), id)).
  assert (String_ (ToNonAD chat) ∈ addresses d (lid_rows db) (ToNonAD chat')) as Hca by by apply alias_addresses.
  assert (String_ (ToNonAD sender) ∈ addresses d (lid_rows db) (ToNonAD sender')) as Hsa by by apply alias_addresses.
  assert (forall k' v, message_secrets db !! k' = Some v -> k'.1.1 ∈ addresses d (lid_rows db) (ToNonAD chat') ->
    k'.1.2 ∈ addresses d (lid_rows db) (ToNonAD sender') -> k'.2 <> id) as Hold.
  { intros k' v Hk' H1 H2 H3. assert ((k', v) ∈ secret_rows d chat' sender' id db) as H; [|rewrite Hnone in H; by apply elem_of_nil in H].
    apply list_elem_of_filter. split; [done|]. by apply elem_of_map_to_list. }
  assert (message_secrets db !! k = None) as Hk. { destruct (message_secrets db !! k) as [v|] eqn:H; [|done]. by destruct (Hold k v H). }
  intros db'. assert (db' = db <| message_secrets := <[k := secret]> (message_secrets db) |>) as ->.
  { unfold db', PutMessageSecret, putMsgSecret. rewrite (alias_key _ _ _ Hc), (alias_key _ _ _ Hs). fold k.
    erewrite execute_checked_ok; [reflexivity|done|]. cbv beta. fold k. by rewrite Hk. }
  split.
  - unfold GetMessageSecret, mbind, Stmt_bind. rewrite select_ok by done. cbn [fst snd].
    rewrite (pick_unique pick _ (k, secret) Hpick).
    + unfold k. cbn [Scan]. by rewrite JID_print_parse.
    + intros [k' v]. unfold secret_rows. rewrite list_elem_of_filter, elem_of_map_to_list.
      change (lid_rows (db <| message_secrets := ?x |>)) with (lid_rows db). change (message_secrets (db <| message_secrets := ?x |>)) with x.
      split; [|intros [= -> ->]; by rewrite lookup_insert_eq].
      intros [(H1 & H2 & H3) Hl]. apply lookup_insert_Some in Hl as [[<- <-]|[_ Hl]]; [done|]. by destruct (Hold _ _ Hl).
  - intros other. unfold PutMessageSecret, putMsgSecret. rewrite (alias_key _ _ _ Hc), (alias_key _ _ _ Hs). fold k.
    erewrite execute_checked_ok; [reflexivity|done|]. cbn. by rewrite lookup_insert_eq.
Qed.

(** A secret is found under either address of the chat and of the sender, with
    the sender it was kept for, and a second secret for the message is ignored. *)
Theorem secret_under_either_address d pick chat sender chat' sender' id secret db :
  picks pick -> ac_faults db = [] -> one_to_one (lid_rows db) ->
  alias (lid_rows db) (ToNonAD chat) (ToNonAD chat') -> alias (lid_rows db) (ToNonAD sender) (ToNonAD sender') ->
  printable (ToNonAD sender) = true -> secret_rows d chat' sender' id db = [] ->
  let db' := (PutMessageSecret chat sender id (Some secret) db).2 in
  GetMessageSecret d pick chat' sender' id db' = (inr (Some secret, ToNonAD sender), db') /\
  forall other, PutMessageSecret chat sender id (Some other) db' = (inr (), db').
Proof. intros. by apply secret_put. Qed.

(** A token that is newer than those kept under either address of the user is the
    one that is found there. *)
Theorem newest_token_found d pick token user b db :
  picks pick -> ac_faults db = [] -> one_to_one (lid_rows db) ->
  alias (lid_rows db) (ToNonAD (pt_User token)) (ToNonAD user) -> pt_Token token = Some b ->
  (forall k r, k ∈ addresses d (lid_rows db) (ToNonAD user) -> privacy_tokens db !! k = Some r -> tk_timestamp r < toUnix (pt_Timestamp token)) ->
  exists sender, (GetPrivacyToken d pick user (PutPrivacyTokens d [token] db).2).1 =
    inr (Some (mkToken (ToNonAD user) (Some b) (Unix (toUnix (pt_Timestamp token))) sender)) /\
    (IsZero (SenderTimestamp token) = false -> sender = Unix (toUnix (SenderTimestamp token))).
Proof.
  intros Hpick Hf Hone Ha Hb Hnew. set (k := String_ (ToNonAD (pt_User token))). set (ts := toUnix (pt_Timestamp token)) in *.
  assert (k ∈ addresses d (lid_rows db) (ToNonAD user)) as Hka by by apply alias_addresses.
  set (s := if IsZero (SenderTimestamp token) then None else Some (toUnix (SenderTimestamp token))).
  assert (exists s', put_token b ts s (privacy_tokens db !! k) = Some (mkTokenRow b ts s') /\ (forall x, s = Some x -> s' = Some x)) as (s' & Hput & Hs').
  { destruct (privacy_tokens db !! k) as [r|] eqn:Hk; cbn [put_token]; [|by exists s].
    specialize (Hnew _ _ Hka Hk). destruct (Z.leb_spec (tk_timestamp r) ts); [|lia]. eexists. split; [done|]. by intros x ->. }
  exists (match s' with Some x => Unix x | None => zeroTime end). split; [|].
  2: { intros Hz. unfold s in Hs'. rewrite Hz in Hs'. by rewrite (Hs' _ eq_refl). }
  assert ((PutPrivacyTokens d [token] db).2 = db <| privacy_tokens := <[k := mkTokenRow b ts s']> (privacy_tokens db) |>) as ->.
  { unfold PutPrivacyTokens. erewrite execute_checked_ok; [reflexivity|done|]. cbn [fmap list_fmap]. unfold upsert, token_row. rewrite Hb.
    fold k ts s. cbn [upsert_rows]. rewrite bool_decide_false by set_solver. by rewrite Hput. }
  unfold GetPrivacyToken, mbind, Stmt_bind. rewrite select_ok by done. cbn [fst snd].
  rewrite (pick_unique pick _ (k, mkTokenRow b ts s') Hpick); [done|]. intros [k' r]. unfold newest, token_rows.
  change (lid_rows (db <| privacy_tokens := ?x |>)) with (lid_rows db). change (privacy_tokens (db <| privacy_tokens := ?x |>)) with x.
  set (rows := filter _ (map_to_list _)).
  assert (forall k' r, (k', r) ∈ rows <-> k' ∈ addresses d (lid_rows db) (ToNonAD user) /\ <[k := mkTokenRow b ts s']> (privacy_tokens db) !! k' = Some r) as Hrows.
  { intros k0 r0. unfold rows. by rewrite list_elem_of_filter, elem_of_map_to_list. }
  assert (Forall (fun r' => tk_timestamp r'.2 <= ts) rows) as Hmax.
  { apply Forall_forall. intros [k0 r0] (H1 & H2)%Hrows. apply lookup_insert_Some in H2 as [[<- <-]|[_ H2]]; cbn; [lia|].
    specialize (Hnew _ _ H1 H2). lia. }
  rewrite list_elem_of_filter, Hrows. split.
  - intros [Hm (H1 & H2)]. apply lookup_insert_Some in H2 as [[<- <-]|[_ H2]]; [done|]. specialize (Hnew _ _ H1 H2).
    rewrite Forall_forall in Hm. specialize (Hm (k, mkTokenRow b ts s')). cbn in Hm.
    assert (tk_timestamp (mkTokenRow b ts s') <= tk_timestamp r) as Hle; [|cbn in Hle; lia].
    apply Hm, Hrows. split; [done|]. by rewrite lookup_insert_eq.
  - intros [= -> ->]. split; [done|]. split; [done|]. by rewrite lookup_insert_eq.
Qed.

(** A chat that is muted for ever, not at all, or until a second after 1970 is read
    back as muted so, and is pinned and archived as before. *)
Theorem mute_roundtrip d chat t utc db :
  ac_faults db = [] -> Server chat <> "" ->
  t = MutedForever /\ utc = true \/ t = zeroTime \/ 0 < toUnix t /\ t mod Second = 0 /\ in_int64 (toUnix t + unixToInternal) ->
  let before := (GetChatSettings chat db).1 in
  let db' := (PutMutedUntil d chat t utc db).2 in
  exists found muted p a, before = inr (mkSettings found muted p a) /\ GetChatSettings chat db' = (inr (mkSettings true t p a), db').
Proof.
  intros Hf Hs Ht before db'.
  assert (exists k, jid_key chat = Some k) as [k Hk] by (unfold jid_key, Value; destruct (Server chat); [done|by eexists]).
  set (r := default new_chat (chat_settings db !! k)).
  assert (db' = db <| chat_settings := <[k := r <| muted_until := muted_value t utc |>]> (chat_settings db) |>) as ->.
  { unfold db', PutMutedUntil, putChatSettingQuery. erewrite execute_checked_ok; [reflexivity|done|]. unfold jid_row. rewrite Hk.
    change [set_row (k, ?f)] with (set_row <$> [(k, f)]). by rewrite upsert_ok by apply NoDup_singleton. }
  unfold before, GetChatSettings, mbind, Stmt_bind. rewrite !select_ok by done. cbn [fst]. rewrite Hk.
  change (chat_settings (db <| chat_settings := ?x |>)) with x. rewrite lookup_insert_eq. cbn [default].
  eexists _, _, _, _. split; [reflexivity|].
  assert (muted_time (muted_value t utc) = t) as H.
  2: { match goal with |- mret ?x ?db = _ => change x with (mkSettings true (muted_time (muted_value t utc)) (pinned r) (archived r)) end. by rewrite H. }
  destruct Ht as [[-> ->]|[->|(Hu & Hm & Hr)]]; [done| |].
  - unfold muted_value. by rewrite bool_decide_false by done.
  - unfold muted_value. assert (t <> MutedForever) as Hne by (intros ->; done). rewrite bool_decide_false by done. cbn [andb].
    assert (IsZero t = false) as -> by (apply Z.eqb_neq; intros ->; done). cbn [negb]. unfold muted_time.
    destruct (Z.ltb_spec (toUnix t) 0); [lia|]. destruct (Z.ltb_spec 0 (toUnix t)); [|lia].
    unfold Unix. rewrite wrap64_id by done. unfold toUnix in *. assert (Second <> 0) by done.
    pose proof (Z.div_mod t Second ltac:(done)) as Hd. rewrite Hm in Hd. lia.
Qed.

(** *** Tokens over time *)

Definition puts (d : Dialect) (batches : list (list PrivacyToken)) (db : AccountDB) : AccountDB :=
  foldl (fun db b => (PutPrivacyTokens d b db).2) db batches.
(** What becomes of a row. *)
Definition no_older (r r' : TokenRow) : Prop :=
  tk_timestamp r <= tk_timestamp r' /\ (is_Some (tk_sender r) -> is_Some (tk_sender r')).
Definition only_newer (m m' : gmap string TokenRow) : Prop := forall k r, m !! k = Some r -> exists r', m' !! k = Some r' /\ no_older r r'.
#[export] Instance only_newer_preorder : PreOrder only_newer.
Proof.
  split; [by intros m k r Hr; exists r|]. intros m1 m2 m3 H1 H2 k r (r' & (r'' & Hr'' & Hle')%H2 & Hle)%H1. exists r''. split; [done|].
  destruct Hle as [? Hs], Hle' as [? Hs']. split; [lia|auto].
Qed.

Lemma put_token_newer b ts s r r' : put_token b ts s (Some r) = Some r' -> no_older r r'.
Proof. cbn. destruct (Z.leb_spec (tk_timestamp r) ts); [|done]. intros [= <-]. split; cbn; [lia|]. destruct s; [by eexists|done]. Qed.
Lemma upsert_tokens_newer d l : forall written m m', upsert_rows d (token_row <$> l) written m = Some m' -> only_newer m m'.
Proof.
  induction l as [|t l IH]; intros written m m'; cbn [fmap list_fmap upsert_rows]; [by intros [= ->]|]. unfold token_row at 1.
  destruct (pt_Token t) as [b|]; [|done]. destruct (bool_decide _); [done|]. destruct (put_token _ _ _ _) as [r|] eqn:Hp; [|apply IH].
  intros H%IH. etrans; [|exact H]. intros k' r' Hr'. destruct (decide (k' = String_ (ToNonAD (pt_User t)))) as [->|Hne].
  - rewrite Hr' in Hp. exists r. rewrite lookup_insert_eq. split; [done|]. by eapply put_token_newer.
  - exists r'. by rewrite lookup_insert_ne.
Qed.
(** Whatever is put, in whatever batches and with whatever failures, the token of
    a JID is not replaced by an older one, and a sender's timestamp, once there,
    is not lost. *)
Theorem token_never_older d batches db k r :
  privacy_tokens db !! k = Some r ->
  exists r', privacy_tokens (puts d batches db) !! k = Some r' /\
    tk_timestamp r <= tk_timestamp r' /\ (is_Some (tk_sender r) -> is_Some (tk_sender r')).
Proof.
  assert (only_newer (privacy_tokens db) (privacy_tokens (puts d batches db))) as H; [|by apply H].
  revert db. induction batches as [|b batches IH]; intros db; cbn [puts foldl]; [done|].
  etrans; [|apply IH]. unfold PutPrivacyTokens, execute_checked, statement. destruct (db_faults db) as [|[] fs]; cbn -[upsert]; [|done|].
  all: destruct b as [|t b]; cbn -[upsert fmap]; [done|].
  all: destruct (upsert _ _ _) eqn:He; cbn; [|done]; by eapply upsert_tokens_newer.
Qed.

(** ** The theorems at work *)

Definition first_row (A : Type) (l : list A) : option A := head l.
Lemma first_row_picks : picks first_row.
Proof. intros A [|x l]; cbn; [done|by left]. Qed.
Definition demo_rows : list Row := [("77", "4915123")].
Lemma demo_rows_one : one_to_one demo_rows.
Proof. split; [intros d r r' ->%list_elem_of_singleton ->%list_elem_of_singleton|intros [] r ->%list_elem_of_singleton]; done. Qed.
Definition demo_account : AccountDB := mkAccountDB ∅ ∅ ∅ None demo_rows [].
Definition demo_pn_jid : JID := NewJID "4915123" DefaultUserServer.
Definition demo_lid_jid : JID := NewJID "77" HiddenUserServer.
Lemma demo_alias : alias demo_rows demo_pn_jid demo_lid_jid.
Proof. by constructor; [left|..]. Qed.

Lemma secret_under_either_address_witness :
  let db' := (PutMessageSecret demo_pn_jid demo_pn_jid "3EB0" (Some [1; 2]) demo_account).2 in
  GetMessageSecret SQLite first_row demo_lid_jid demo_lid_jid "3EB0" db' = (inr (Some [1; 2], demo_pn_jid), db').
Proof.
  exact (proj1 (secret_under_either_address SQLite first_row demo_pn_jid demo_pn_jid demo_lid_jid demo_lid_jid "3EB0" [1; 2] demo_account
    first_row_picks eq_refl demo_rows_one demo_alias demo_alias eq_refl eq_refl)).
Defined.
Lemma newest_token_found_witness :
  exists sender, (GetPrivacyToken Postgres first_row demo_lid_jid (PutPrivacyTokens Postgres [mkToken demo_pn_jid (Some [7]) (Unix 1000) (Unix 900)] demo_account).2).1 =
    inr (Some (mkToken demo_lid_jid (Some [7]) (Unix (toUnix (Unix 1000))) sender)) /\ (IsZero (Unix 900) = false -> sender = Unix (toUnix (Unix 900))).
Proof.
  apply (newest_token_found Postgres first_row (mkToken demo_pn_jid (Some [7]) (Unix 1000) (Unix 900)) demo_lid_jid [7] demo_account
    first_row_picks eq_refl demo_rows_one demo_alias eq_refl). intros k r _ H. change ((∅ : gmap string TokenRow) !! k = Some r) in H. by rewrite lookup_empty in H.
Defined.
Lemma mute_roundtrip_witness :
  let db' := (PutMutedUntil SQLite demo_pn_jid (Unix 1700000000) false (PutPinned SQLite demo_pn_jid true demo_account).2).2 in
  exists found muted p a, (GetChatSettings demo_pn_jid (PutPinned SQLite demo_pn_jid true demo_account).2).1 = inr (mkSettings found muted p a) /\
    GetChatSettings demo_pn_jid db' = (inr (mkSettings true (Unix 1700000000) p a), db').
Proof.
  apply (mute_roundtrip SQLite demo_pn_jid (Unix 1700000000) false (PutPinned SQLite demo_pn_jid true demo_account).2); [reflexivity|done|].
  right. right. vm_compute. by repeat split.
Defined.
Lemma token_never_older_witness :
  exists r', privacy_tokens (puts Postgres [[mkToken demo_pn_jid (Some [8]) (Unix 5) zeroTime]; []; [mkToken demo_pn_jid (Some [9]) (Unix 2000) zeroTime]]
      (demo_account <| privacy_tokens := {["4915123@s.whatsapp.net" := mkTokenRow [7] 1000 (Some 900)]} |>)) !! "4915123@s.whatsapp.net" = Some r' /\
    1000 <= tk_timestamp r' /\ (is_Some (Some 900) -> is_Some (tk_sender r')).
Proof.
  apply (token_never_older Postgres [[mkToken demo_pn_jid (Some [8]) (Unix 5) zeroTime]; []; [mkToken demo_pn_jid (Some [9]) (Unix 2000) zeroTime]]
    (demo_account <| privacy_tokens := {["4915123@s.whatsapp.net" := mkTokenRow [7] 1000 (Some 900)]} |>) "4915123@s.whatsapp.net" (mkTokenRow [7] 1000 (Some 900))).
  by vm_compute.
Defined.
