(* ===== verification/MsgSecret.v ===== *)
(** * Messages encrypted with the secret of another one: [whatsmeow/msgsecret.go]
    and [util/gcmutil]

    A poll, an event or a message in a community carries a secret, which both
    sides keep in the table of [AccountStore]; votes, reactions, comments and
    edits are encrypted with a key made of it.  HKDF, AES-GCM, SHA-256 and the
    protocol buffers are parameters. *)
From S2P Require Import Prelude GoStrings GoTime Jid LidMap BinaryNode BinaryCodec NodeAttrs MessageSource PreKeys SqlDB AccountStore.

Definition EncSecretPollVote : string := "Poll Vote".
Definition EncSecretReaction : string := "Enc Reaction".
Definition EncSecretComment : string := "Enc Comment".
Definition EncSecretReportToken : string := "Report Token".
Definition EncSecretEventResponse : string := "Event Response".
Definition EncSecretEventEdit : string := "Event Edit".
Definition EncSecretMessageEdit : string := "Message Edit".
Definition EncSecretPollEdit : string := "Poll Edit".
Definition EncSecretPollAddOption : string := "Poll Add Option".
Definition EncSecretBotMsg : string := "Bot Message".

(** The fields of the protocol buffers that are used; [None] is a field that is
    not set, for which the getters give the zero value. *)
Record MessageKey : Type := mkMessageKey { RemoteJID : option string; FromMe : option bool; KeyID_ : option string; Participant : option string }.
Definition noKey : MessageKey := mkMessageKey None None None None.
Record EncSecret : Type := mkEncSecret { EncPayload : Bytes; EncIV : Bytes }.
Inductive SecretEncType : Type := UNKNOWN | EVENT_EDIT | MESSAGE_EDIT | MESSAGE_SCHEDULE | POLL_EDIT | POLL_ADD_OPTION.

(** [util/gcmutil] *)
Inductive gcm_error : Type := KeySize | AuthFailed.
Inductive secret_error : Type :=
| NotLoggedIn
| BadOrigSender (e : option jid_error)
| SecretLookup (e : store_error)
| ErrOriginalMessageSecretNotFound
| GcmFailed (e : gcm_error)
| NotEncrypted
| UnsupportedEncType
| BadProto.

Section MsgSecret.
Context (d : Dialect) (pick : forall A, list A -> option A).
Context (hkdf_SHA256 : Bytes -> Bytes -> Bytes -> Z -> Bytes) (sha256 : Bytes -> Bytes).
(** AES-GCM: a key, a nonce, a text, what is authenticated with it. *)
Context (seal : Bytes -> Bytes -> Bytes -> Bytes -> Bytes) (open : Bytes -> Bytes -> Bytes -> Bytes -> option Bytes).

Definition good_key (secretKey : Bytes) : bool := bool_decide (length secretKey ∈ [16; 24; 32]%nat).
(** [Open] and [Seal] panic on a nonce that has not 12 bytes. *)
Definition bad_nonce : string := "crypto/cipher: incorrect nonce length given to GCM".
Definition Decrypt (secretKey iv ciphertext additionalData : Bytes) : outcome (gcm_error + Bytes) :=
  if negb (good_key secretKey) then Ret (inl KeySize)
  else if negb (length iv =? 12)%nat then Panic bad_nonce
  else match open secretKey iv ciphertext additionalData with Some p => Ret (inr p) | None => Ret (inl AuthFailed) end.
Definition Encrypt (secretKey iv plaintext additionalData : Bytes) : outcome (gcm_error + Bytes) :=
  if negb (good_key secretKey) then Ret (inl KeySize)
  else if negb (length iv =? 12)%nat then Panic bad_nonce
  else Ret (inr (seal secretKey iv plaintext additionalData)).

(** ** Keys *)

Definition applyBotMessageHKDF (messageSecret : Bytes) : Bytes := hkdf_SHA256 messageSecret [] (codes EncSecretBotMsg) 32.

Definition generateMsgSecretKey (modificationType : string) (modificationSender : JID) (origMsgID : string) (origMsgSender : JID)
    (origMsgSecret : Bytes) : Bytes * Bytes :=
  let origMsgSenderStr := String_ (ToNonAD origMsgSender) in
  let modificationSenderStr := String_ (ToNonAD modificationSender) in
  let useCaseSecret := codes origMsgID ++ codes origMsgSenderStr ++ codes modificationSenderStr ++ codes modificationType in
  (hkdf_SHA256 origMsgSecret [] useCaseSecret 32,
   if bool_decide (modificationType ∈ [EncSecretPollVote; EncSecretEventResponse; ""])
   then codes origMsgID ++ [0] ++ codes modificationSenderStr else []).

Definition getOrigSenderFromKey (chat sender : JID) (key : MessageKey) : secret_error + JID :=
  if default false (FromMe key) then inr sender
  else if String.eqb (Server chat) DefaultUserServer || String.eqb (Server chat) HiddenUserServer then
    match ParseJID (default "" (RemoteJID key)) with
    | (_, Some e) => inl (BadOrigSender (Some e))
    | (s, None) => inr s
    end
  else
    match ParseJID (default "" (Participant key)) with
    | (s, e) =>
        if negb (String.eqb (Server s) DefaultUserServer) && negb (String.eqb (Server s) HiddenUserServer) then inl (BadOrigSender None)
        else match e with Some e => inl (BadOrigSender (Some e)) | None => inr s end
    end.

(** ** Decryption and encryption

    The message that was received is its chat and its sender. *)

Definition try_decrypt (useCase : string) (sender : JID) (id : string) (origSender : JID) (secret : Bytes) (encrypted : EncSecret) :
    outcome (gcm_error + Bytes) :=
  let '(secretKey, additionalData) := generateMsgSecretKey useCase sender id origSender secret in
  Decrypt secretKey (EncIV encrypted) (EncPayload encrypted) additionalData.

Definition decryptMsgSecret (chat sender : JID) (useCase : string) (encrypted : EncSecret) (origMsgKey : MessageKey) (db : AccountDB) :
    outcome ((secret_error + Bytes) * AccountDB) :=
  match getOrigSenderFromKey chat sender origMsgKey with
  | inl e => Ret (inl e, db)
  | inr origSender =>
      let id := default "" (KeyID_ origMsgKey) in
      match GetMessageSecret d pick chat origSender id db with
      | (inl e, db) => Ret (inl (SecretLookup e), db)
      | (inr (None, _), db) => Ret (inl ErrOriginalMessageSecretNotFound, db)
      | (inr (Some baseEncKey, storedOrigSender), db) =>
          r ← try_decrypt useCase sender id origSender baseEncKey encrypted;
          r ← match r with
              | inl AuthFailed =>
                  if bool_decide (origSender <> storedOrigSender) then try_decrypt useCase sender id storedOrigSender baseEncKey encrypted else Ret r
              | _ => Ret r
              end;
          Ret (match r with inl e => inl (GcmFailed e) | inr p => inr p end, db)
      end
  end.

(** The secret is asked for under the sender that is given; the key is made with
    the one it is kept for. *)
Definition encryptMsgSecret (ownID chat origSender : JID) (origMsgID useCase : string) (plaintext iv : Bytes) (db : AccountDB) :
    outcome ((secret_error + EncSecret) * AccountDB) :=
  if Jid.IsEmpty ownID then Ret (inl NotLoggedIn, db)
  else
    match GetMessageSecret d pick chat origSender origMsgID db with
    | (inl e, db) => Ret (inl (SecretLookup e), db)
    | (inr (None, _), db) => Ret (inl ErrOriginalMessageSecretNotFound, db)
    | (inr (Some baseEncKey, origSender), db) =>
        let '(secretKey, additionalData) := generateMsgSecretKey useCase ownID origMsgID origSender baseEncKey in
        r ← Encrypt secretKey iv plaintext additionalData;
        Ret (match r with inl e => inl (GcmFailed e) | inr c => inr (mkEncSecret c iv) end, db)
    end.

Definition decryptBotMessage (messageSecret : Bytes) (msMsg : EncSecret) (messageID : string) (targetSenderJID sender : JID) :
    outcome (secret_error + Bytes) :=
  r ← try_decrypt "" sender messageID targetSenderJID (applyBotMessageHKDF messageSecret) msMsg;
  Ret (match r with inl e => inl (GcmFailed e) | inr p => inr p end).

(** ** The kinds of messages *)

(** A message that is decrypted and then unmarshalled. *)
Section Kinds.
Context {Msg : Type} (Unmarshal : Bytes -> option Msg) (Marshal : Msg -> option Bytes).

Definition decrypt_as (useCase : string) (chat sender : JID) (enc : option (EncSecret * option MessageKey)) (db : AccountDB) :
    outcome ((secret_error + Msg) * AccountDB) :=
  match enc with
  | None => Ret (inl NotEncrypted, db)
  | Some (encrypted, key) =>
      r ← decryptMsgSecret chat sender useCase encrypted (default noKey key) db;
      Ret (match r.1 with
           | inl e => inl e
           | inr plaintext => match Unmarshal plaintext with Some m => inr m | None => inl BadProto end
           end, r.2)
  end.
Definition DecryptReaction := decrypt_as EncSecretReaction.
Definition DecryptComment := decrypt_as EncSecretComment.
Definition DecryptPollVote := decrypt_as EncSecretPollVote.

Definition secret_type (t : SecretEncType) : option string :=
  match t with
  | EVENT_EDIT => Some EncSecretEventEdit
  | POLL_EDIT => Some EncSecretPollEdit
  | POLL_ADD_OPTION => Some EncSecretPollEdit
  | MESSAGE_EDIT => Some EncSecretMessageEdit
  | _ => None
  end.
(** What is done with the context of the outer message is not part of this. *)
Definition DecryptSecretEncryptedMessage (chat sender : JID) (enc : option (SecretEncType * EncSecret * option MessageKey)) (db : AccountDB) :
    outcome ((secret_error + Msg) * AccountDB) :=
  match enc with
  | None => Ret (inl NotEncrypted, db)
  | Some (t, encrypted, key) =>
      match secret_type t with
      | None => Ret (inl UnsupportedEncType, db)
      | Some secretType => decrypt_as secretType chat sender (Some (encrypted, key)) db
      end
  end.

Definition getKeyFromInfo (info : MessageSource) (id : string) : MessageKey :=
  mkMessageKey (Some (String_ (Chat info))) (Some (IsFromMe info)) (Some id) (if IsGroup info then Some (String_ (Sender info)) else None).

Definition encrypt_as (useCase : string) (ownID : JID) (info : MessageSource) (id : string) (m : Msg) (iv : Bytes) (db : AccountDB) :
    outcome ((secret_error + EncSecret) * AccountDB) :=
  match Marshal m with
  | None => Ret (inl BadProto, db)
  | Some plaintext => encryptMsgSecret ownID (Chat info) (Sender info) id useCase plaintext iv db
  end.
(** The own JID on the side the poll is on. *)
Definition voter (ownPN ownLID : JID) (pollInfo : MessageSource) : JID :=
  if String.eqb (Server (Sender pollInfo)) DefaultUserServer then ownPN else ownLID.
(** [PollUpdateMessage]: the vote, the key of the poll and the time. *)
Definition EncryptPollVote (ownPN ownLID : JID) (pollInfo : MessageSource) (id : string) (vote : Msg) (iv : Bytes) (now : Time) (db : AccountDB) :
    outcome ((secret_error + EncSecret * MessageKey * Z) * AccountDB) :=
  r ← encrypt_as EncSecretPollVote (voter ownPN ownLID pollInfo) pollInfo id vote iv db;
  Ret (match r.1 with inl e => inl e | inr c => inr (c, getKeyFromInfo pollInfo id, toUnixMilli now) end, r.2).
Definition EncryptComment (ownLID : JID) (rootMsgInfo : MessageSource) (id : string) (comment : Msg) (iv : Bytes) (db : AccountDB) :
    outcome ((secret_error + EncSecret * MessageKey) * AccountDB) :=
  r ← encrypt_as EncSecretComment ownLID rootMsgInfo id comment iv db;
  Ret (match r.1 with
       | inl e => inl e
       | inr c => inr (c, mkMessageKey (Some (String_ (Chat rootMsgInfo))) (Some (IsFromMe rootMsgInfo)) (Some id)
                            (Some (String_ (ToNonAD (Sender rootMsgInfo)))))
       end, r.2).
(** The key of the reaction is taken out of what is encrypted, and out of the
    caller's value. *)
Definition EncryptReaction (ownLID : JID) (rootMsgInfo : MessageSource) (id : string) (reactionKey : option MessageKey) (reaction : Msg)
    (iv : Bytes) (db : AccountDB) : outcome ((secret_error + EncSecret * option MessageKey) * AccountDB) :=
  r ← encrypt_as EncSecretReaction ownLID rootMsgInfo id reaction iv db;
  Ret (match r.1 with inl e => inl e | inr c => inr (c, reactionKey) end, r.2).
End Kinds.

(** ** Polls *)

Definition HashPollOptions (optionNames : list string) : list Bytes := map (fun o => sha256 (codes o)) optionNames.
Record PollCreation : Type := mkPoll { pc_Name : string; pc_Options : list string; pc_Selectable : Z; pc_Secret : Bytes }.
(** [random] are the bytes of the new secret. *)
Definition BuildPollCreation (name : string) (optionNames : list string) (selectableOptionCount : Z) (random : Bytes) : PollCreation :=
  let n := if (selectableOptionCount <? 0) || (Z.of_nat (length optionNames) <? selectableOptionCount) then 0 else selectableOptionCount in
  mkPoll name optionNames (uint32 n) random.

Definition BuildPollVote (MarshalVote : list Bytes -> option Bytes) (ownPN ownLID : JID) (pollInfo : MessageSource) (id : string)
    (optionNames : list string) (iv : Bytes) (now : Time) (db : AccountDB) :=
  EncryptPollVote MarshalVote ownPN ownLID pollInfo id (HashPollOptions optionNames) iv now db.
End MsgSecret.

(** ** The theorems *)

Section Roundtrip.
Context (d : Dialect) (pick : forall A, list A -> option A) (pick_ok : picks pick).
Context (hkdf_SHA256 : Bytes -> Bytes -> Bytes -> Z -> Bytes).
Context (seal : Bytes -> Bytes -> Bytes -> Bytes -> Bytes) (open : Bytes -> Bytes -> Bytes -> Bytes -> option Bytes).
Hypothesis hkdf_length : forall ikm salt info n, 0 <= n -> Z.of_nat (length (hkdf_SHA256 ikm salt info n)) = n.
(** What was sealed is opened with the same key, and with no other one. *)
Hypothesis open_seal : forall k iv p ad, open k iv (seal k iv p ad) ad = Some p.
Hypothesis open_other : forall k k' iv p ad ad', k' <> k -> open k' iv (seal k iv p ad) ad' = None.

Lemma generated_key_good t ms id os secret : good_key (generateMsgSecretKey hkdf_SHA256 t ms id os secret).1 = true.
Proof.
  unfold good_key, generateMsgSecretKey. cbn [fst]. apply bool_decide_eq_true.
  match goal with |- length ?k ∈ _ => assert (Z.of_nat (length k) = 32) as H by by apply hkdf_length end.
  match goal with |- ?n ∈ _ => assert (n = 32%nat) as -> by lia end. right. right. by left.
Qed.

(** The sender that is asked for, or the one that the secret is kept for, is the
    one that the key was made with. *)
Lemma decrypt_sealed chat sender useCase key o stored iv p secret k ad db db' :
  getOrigSenderFromKey chat sender key = inr o ->
  GetMessageSecret d pick chat o (default "" (KeyID_ key)) db = (inr (Some secret, stored), db') ->
  generateMsgSecretKey hkdf_SHA256 useCase sender (default "" (KeyID_ key)) stored secret = (k, ad) -> length iv = 12%nat ->
  decryptMsgSecret d pick hkdf_SHA256 open chat sender useCase (mkEncSecret (seal k iv p ad) iv) key db = Ret (inr p, db').
Proof.
  intros Ho Hg Hk Hiv. unfold decryptMsgSecret. rewrite Ho, Hg.
  assert (forall o', try_decrypt hkdf_SHA256 open useCase sender (default "" (KeyID_ key)) o' secret (mkEncSecret (seal k iv p ad) iv) =
    Ret (if bool_decide ((generateMsgSecretKey hkdf_SHA256 useCase sender (default "" (KeyID_ key)) o' secret).1 = k) then inr p else inl AuthFailed)) as Ht.
  { intros o'. unfold try_decrypt. pose proof (generated_key_good useCase sender (default "" (KeyID_ key)) o' secret) as Hgood.
    assert ((generateMsgSecretKey hkdf_SHA256 useCase sender (default "" (KeyID_ key)) o' secret).2 = ad) as Had by by injection Hk.
    destruct (generateMsgSecretKey hkdf_SHA256 useCase sender (default "" (KeyID_ key)) o' secret) as [k' ad']. cbn [fst snd] in *. subst ad'.
    unfold Decrypt. cbn [EncIV EncPayload]. rewrite Hgood, Hiv. cbn [negb Nat.eqb]. destruct (bool_decide_reflect (k' = k)) as [->|Hne].
    - by rewrite open_seal.
    - by rewrite open_other. }
  unfold mbind, outcome_bind. destruct (decide (o = stored)) as [->|Hne].
  - by rewrite Ht, Hk, bool_decide_true.
  - rewrite Ht. destruct (bool_decide _); [done|]. rewrite bool_decide_true by done. by rewrite Ht, Hk, bool_decide_true.
Qed.

Lemma encrypt_sealed ownID chat sender id useCase p iv secret stored k ad db db' :
  Server ownID <> "" -> GetMessageSecret d pick chat sender id db = (inr (Some secret, stored), db') ->
  generateMsgSecretKey hkdf_SHA256 useCase ownID id stored secret = (k, ad) -> length iv = 12%nat ->
  encryptMsgSecret d pick hkdf_SHA256 seal ownID chat sender id useCase p iv db = Ret (inr (mkEncSecret (seal k iv p ad) iv), db').
Proof.
  intros Ho Hg Hk Hiv. unfold encryptMsgSecret, Jid.IsEmpty. destruct (Server ownID) as [|c s] eqn:Hs; [done|].
  assert (len (String c s) =? 0 = false) as -> by (unfold len; cbn [String.length]; apply Z.eqb_neq; lia).
  rewrite Hg, Hk. pose proof (generated_key_good useCase ownID id stored secret) as Hgood. rewrite Hk in Hgood. cbn [fst] in Hgood.
  unfold Encrypt. rewrite Hgood, Hiv. done.
Qed.

Lemma key_of_sender t sender sender' id os secret : ToNonAD sender = ToNonAD sender' ->
  generateMsgSecretKey hkdf_SHA256 t sender id os secret = generateMsgSecretKey hkdf_SHA256 t sender' id os secret.
Proof. intros H. unfold generateMsgSecretKey. by rewrite H. Qed.

(** The sender of a poll in a group, from the key in the vote. *)
Lemma group_key_sender pollInfo id chat sender :
  IsGroup pollInfo = true -> IsFromMe pollInfo = false -> printable (Sender pollInfo) = true ->
  (Server (Sender pollInfo) = DefaultUserServer \/ Server (Sender pollInfo) = HiddenUserServer) ->
  Server chat <> DefaultUserServer -> Server chat <> HiddenUserServer ->
  getOrigSenderFromKey chat sender (getKeyFromInfo pollInfo id) = inr (Sender pollInfo).
Proof.
  intros Hg Hm Hp Hs Hc1 Hc2. unfold getOrigSenderFromKey, getKeyFromInfo. rewrite Hg, Hm. cbn [FromMe RemoteJID Participant default].
  destruct (String.eqb_spec (Server chat) DefaultUserServer); [done|]. destruct (String.eqb_spec (Server chat) HiddenUserServer); [done|].
  unfold Datatypes.id. cbn [orb]. cbn iota. rewrite JID_print_parse by done. destruct Hs as [-> | ->]; done.
Qed.
End Roundtrip.

(** A vote on a poll of a group is read by every member: whoever keeps the secret
    of the poll under an address of its sender, and sees the voter's JID, gets
    the vote. *)
Theorem poll_vote_roundtrip d pick hkdf seal open {Msg} (Marshal : Msg -> option Bytes) (Unmarshal : Bytes -> option Msg)
    chat creator creator' pollInfo id vote iv now ownPN ownLID secret voterDB readerDB reader_sender p :
  picks pick ->
  (forall ikm salt info n, 0 <= n -> Z.of_nat (length (hkdf ikm salt info n)) = n) ->
  (forall k iv p ad, open k iv (seal k iv p ad) ad = Some p) ->
  (forall k k' iv p ad ad', k' <> k -> open k' iv (seal k iv p ad) ad' = None) ->
  Marshal vote = Some p -> Unmarshal p = Some vote -> length iv = 12%nat ->
  (* the poll, as the voter knows it *)
  IsGroup pollInfo = true -> IsFromMe pollInfo = false -> Chat pollInfo = chat -> Server chat = GroupServer -> printable (Sender pollInfo) = true ->
  (Server (Sender pollInfo) = DefaultUserServer \/ Server (Sender pollInfo) = HiddenUserServer) ->
  Server (voter ownPN ownLID pollInfo) <> "" -> ToNonAD reader_sender = ToNonAD (voter ownPN ownLID pollInfo) ->
  (* the two accounts, which had no secret of the poll *)
  ac_faults voterDB = [] -> ac_faults readerDB = [] -> one_to_one (lid_rows voterDB) -> one_to_one (lid_rows readerDB) ->
  alias (lid_rows voterDB) (ToNonAD creator) (ToNonAD (Sender pollInfo)) -> alias (lid_rows readerDB) (ToNonAD creator') (ToNonAD (Sender pollInfo)) ->
  ToNonAD creator' = ToNonAD creator -> printable (ToNonAD creator) = true ->
  secret_rows d chat (Sender pollInfo) id voterDB = [] -> secret_rows d chat (Sender pollInfo) id readerDB = [] ->
  let voterDB := (PutMessageSecret chat creator id (Some secret) voterDB).2 in
  let readerDB := (PutMessageSecret chat creator' id (Some secret) readerDB).2 in
  exists encrypted key,
    EncryptPollVote d pick hkdf seal Marshal ownPN ownLID pollInfo id vote iv now voterDB = Ret (inr (encrypted, key, toUnixMilli now), voterDB) /\
    DecryptPollVote d pick hkdf open Unmarshal chat reader_sender (Some (encrypted, Some key)) readerDB = Ret (inr vote, readerDB).
Proof.
  intros Hpick Hhkdf Hos Hoo Hm Hu Hiv Hg Hme Hchat Hcs Hp Hs Hown Hrs Hfv Hfr H1v H1r Hav Har Hcc Hpc Hnv Hnr vDB rDB.
  assert (alias (lid_rows voterDB) (ToNonAD chat) (ToNonAD chat)) as Hcv by (apply alias_same; cbn; by rewrite Hcs).
  assert (alias (lid_rows readerDB) (ToNonAD chat) (ToNonAD chat)) as Hcr by (apply alias_same; cbn; by rewrite Hcs).
  destruct (secret_put d pick chat creator chat (Sender pollInfo) id secret voterDB) as [Hgv _]; try done.
  destruct (secret_put d pick chat creator' chat (Sender pollInfo) id secret readerDB) as [Hgr _]; try done; [by rewrite Hcc|].
  fold vDB in Hgv. fold rDB in Hgr. rewrite Hcc in Hgr.
  destruct (generateMsgSecretKey hkdf EncSecretPollVote (voter ownPN ownLID pollInfo) id (ToNonAD creator) secret) as [k ad] eqn:Hk.
  exists (mkEncSecret (seal k iv p ad) iv), (getKeyFromInfo pollInfo id). split.
  - unfold EncryptPollVote, encrypt_as. rewrite Hm, Hchat. by erewrite encrypt_sealed.
  - unfold DecryptPollVote, decrypt_as. cbn [default]. erewrite decrypt_sealed; [cbn; by rewrite Hu|done..|idtac|idtac|idtac|idtac].
    + apply group_key_sender; try done; by rewrite Hcs.
    + exact Hgr.
    + cbn [KeyID_ getKeyFromInfo default]. by rewrite (key_of_sender _ _ _ (voter ownPN ownLID pollInfo)).
    + done.
Qed.

(** Whoever sends an encrypted message chooses its IV, and any other length than
    12 bytes is a panic once the secret of the original message was found. *)
Theorem iv_length_panics d pick hkdf open chat sender useCase encrypted key o secret stored db db' :
  getOrigSenderFromKey chat sender key = inr o ->
  GetMessageSecret d pick chat o (default "" (KeyID_ key)) db = (inr (Some secret, stored), db') ->
  (forall ikm salt info n, 0 <= n -> Z.of_nat (length (hkdf ikm salt info n)) = n) -> length (EncIV encrypted) <> 12%nat ->
  decryptMsgSecret d pick hkdf open chat sender useCase encrypted key db = Panic bad_nonce.
Proof.
  intros Ho Hg Hh Hl. unfold decryptMsgSecret. rewrite Ho, Hg.
  assert (try_decrypt hkdf open useCase sender (default "" (KeyID_ key)) o secret encrypted = Panic bad_nonce) as ->; [|done].
  unfold try_decrypt. pose proof (generated_key_good hkdf Hh useCase sender (default "" (KeyID_ key)) o secret) as Hgood.
  destruct (generateMsgSecretKey hkdf useCase sender (default "" (KeyID_ key)) o secret) as [k ad]. cbn [fst] in Hgood.
  unfold Decrypt. rewrite Hgood. by destruct (Nat.eqb_spec (length (EncIV encrypted)) 12).
Qed.

(** ** The theorems at work *)

(** A cipher that writes the key, and knows it again. *)
Definition demo_seal (k iv p ad : Bytes) : Bytes := Z.of_nat (length k) :: k ++ p.
Definition demo_open (k iv c ad : Bytes) : option Bytes :=
  match c with
  | n :: r => if decide (n = Z.of_nat (length k) /\ take (length k) r = k) then Some (drop (length k) r) else None
  | [] => None
  end.
Lemma demo_open_seal k iv p ad : demo_open k iv (demo_seal k iv p ad) ad = Some p.
Proof. unfold demo_open, demo_seal. rewrite decide_True; [by rewrite drop_app_length|]. by rewrite take_app_length. Qed.
Lemma demo_open_other k k' iv p ad ad' : k' <> k -> demo_open k' iv (demo_seal k iv p ad) ad' = None.
Proof.
  intros Hne. unfold demo_open, demo_seal. apply decide_False. intros [Hl Ht]. apply Hne. apply Nat2Z.inj in Hl.
  rewrite <- Ht, <- Hl. by rewrite take_app_length.
Qed.
Definition demo_hkdf (ikm salt info : Bytes) (n : Z) : Bytes := take (Z.to_nat n) (ikm ++ info ++ replicate (Z.to_nat n) 0).
Lemma demo_hkdf_length ikm salt info n : 0 <= n -> Z.of_nat (length (demo_hkdf ikm salt info n)) = n.
Proof. intros Hn. unfold demo_hkdf. rewrite length_take, !length_app, length_replicate. lia. Qed.

Definition demo_group_jid : JID := NewJID "123-456" GroupServer.
Definition demo_poll : MessageSource := zeroSource <| Chat := demo_group_jid |> <| Sender := demo_lid_jid |> <| IsGroup := true |>.
Definition demo_voter : JID := mkJID "88" 0 3 0 HiddenUserServer.

Lemma poll_vote_roundtrip_witness :
  let db := (PutMessageSecret demo_group_jid demo_pn_jid "3EB0" (Some [1; 2]) demo_account).2 in
  exists encrypted key,
    EncryptPollVote SQLite first_row demo_hkdf demo_seal Some demo_pn_jid demo_voter demo_poll "3EB0" [5; 6] (replicate 12 7) 0 db =
      Ret (inr (encrypted, key, toUnixMilli 0), db) /\
    DecryptPollVote SQLite first_row demo_hkdf demo_open Some demo_group_jid demo_voter (Some (encrypted, Some key)) db = Ret (inr [5; 6], db).
Proof.
  apply (poll_vote_roundtrip SQLite first_row demo_hkdf demo_seal demo_open Some Some demo_group_jid demo_pn_jid demo_pn_jid demo_poll "3EB0"
    [5; 6] (replicate 12 7) 0 demo_pn_jid demo_voter [1; 2] demo_account demo_account demo_voter [5; 6]
    first_row_picks demo_hkdf_length demo_open_seal demo_open_other); try done; [by right|exact demo_rows_one|exact demo_rows_one|exact demo_alias|exact demo_alias].
Defined.
Lemma iv_length_panics_witness :
  let db := (PutMessageSecret demo_group_jid demo_lid_jid "3EB0" (Some [1; 2]) demo_account).2 in
  decryptMsgSecret SQLite first_row demo_hkdf demo_open demo_group_jid demo_voter EncSecretPollVote (mkEncSecret [1] [])
    (getKeyFromInfo demo_poll "3EB0") db = Panic bad_nonce.
Proof.
  intros db. apply (iv_length_panics SQLite first_row demo_hkdf demo_open _ _ _ _ _ demo_lid_jid [1; 2] demo_lid_jid db db);
    [vm_compute; reflexivity|vm_compute; reflexivity|exact demo_hkdf_length|done].
Defined.
