(* ===== verification/Decrypt.v ===== *)
(** * Decrypting messages: [whatsmeow/message.go], and the event buffer of
    [sqlstore/store.go]

    A message that was decrypted cannot be decrypted again: the ratchet has
    moved on.  So the text is written to a buffer in the transaction of the
    decryption, under a hash of the ciphertext; a stanza that is delivered again
    takes it from there, until a handler has seen it and the text is cleared.
    libsignal, the protocol buffers and what is done with a message are
    parameters. *)
From S2P Require Import Prelude GoStrings GoTime Jid LidMap BinaryNode BinaryCodec NodeAttrs MessageSource Receipts PreKeys SqlDB SqlText SignalStore AccountStore MsgSecret.

(** A row of [whatsmeow_event_buffer], by its hash; [None] is NULL. *)
Record BufferRow : Type := mkBufferRow { br_plaintext : option Bytes; br_server : Z; br_insert : Z }.
(** [store.BufferedEvent] *)
Record BufferedEvent : Type := mkBufferedEvent { be_Plaintext : option Bytes; be_InsertTime : Time; be_ServerTime : Time }.

Record DecDB : Type := mkDecDB {
  dc_signal : SignalDB;
  dc_account : AccountDB;
  dc_buffer : gmap Bytes BufferRow;
  lastDecryptedBufferClear : Time;
  dc_faults : list bool }.
#[export] Instance eta_DecDB : Eta DecDB := fun r =>
  mkDecDB (dc_signal r) (dc_account r) (dc_buffer r) (lastDecryptedBufferClear r) (dc_faults r).
#[export] Instance DecDB_faulty : Faulty DecDB := {
  db_faults := dc_faults; set_db_faults fs db := db <| dc_faults := fs |>; set_get_faults db := ltac:(by destruct db);
  get_set_faults _ _ := eq_refl }.
(** The tables of the first state. *)
Definition dc_restore (before after : DecDB) : DecDB :=
  after <| dc_signal := roll_back (dc_signal before) (dc_signal after) |> <| dc_buffer := dc_buffer before |>.

(** What [errors.Is] tells apart. *)
Inductive dec_error : Type :=
| DecStore (e : store_error)
| EventAlreadyProcessed
| ErrOldCounter
| ErrUntrustedIdentity
| ErrNoSenderKeyForUser
| ErrCanceled
| DecOther.

(** Code that may fail on a state. *)
Definition Dec (S A : Type) : Type := S -> (dec_error + A) * S.
#[export] Instance Dec_ret {S} : MRet (Dec S) := fun A a s => (inr a, s).
#[export] Instance Dec_bind {S} : MBind (Dec S) := fun A B f m s => match m s with (inr a, s) => f a s | (inl e, s) => (inl e, s) end.
Definition dec_fail {S A} (e : dec_error) : Dec S A := fun s => (inl e, s).
Definition from_stmt {S A} (m : Stmt S A) : Dec S A := fun s => match m s with (inl e, s) => (inl (DecStore e), s) | (inr a, s) => (inr a, s) end.
Definition on_signal {A} (m : Dec SignalDB A) : Dec DecDB A := fun db =>
  match m (dc_signal db) with (r, s) => (r, db <| dc_signal := s |>) end.

(** ** The event buffer *)

Definition GetBufferedEvent (hash : Bytes) : Stmt DecDB (option BufferedEvent) :=
  row ← select (fun db => dc_buffer db !! hash);
  mret ((fun r => mkBufferedEvent (br_plaintext r) (UnixMilli (br_insert r)) (Unix (br_server r))) <$> row).
(** A second row for a hash breaks the primary key. *)
Definition PutBufferedEvent (hash plaintext : Bytes) (serverTimestamp now : Time) : Stmt DecDB () :=
  execute_checked (fun db => match dc_buffer db !! hash with
    | Some _ => None
    | None => Some (db <| dc_buffer := <[hash := mkBufferRow (Some plaintext) (toUnix serverTimestamp) (toUnixMilli now)]> (dc_buffer db) |>)
    end).
Definition ClearBufferedEventPlaintext (hash : Bytes) : Stmt DecDB () :=
  execute (fun db => db <| dc_buffer := alter (fun r => mkBufferRow None (br_server r) (br_insert r)) hash (dc_buffer db) |>).
(** Fourteen days. *)
Definition DeleteOldBufferedHashes (now : Time) : Stmt DecDB () :=
  execute (fun db => db <| dc_buffer := filter (fun r => toUnixMilli (Add now (- (14 * 24 * Hour))) <= br_insert r.2) (dc_buffer db) |>).
(** [DoTxn] with a function that fails like a decryption; what it puts in a
    variable of the caller is its result. *)
Definition DoDecryptionTxn {A} (fn : Dec DecDB A) : Dec DecDB A := fun db =>
  match execute id db with
  | (inl e, db) => (inl (DecStore e), db)
  | (inr _, db0) =>
      match fn db0 with
      | (inl e, db) => (inl e, dc_restore db0 db)
      | (inr a, db) =>
          match execute id db with
          | (inl e, db) => (inl (DecStore e), dc_restore db0 db)
          | (inr _, db) => (inr a, db)
          end
      end
  end.

(** ** Padding *)

Definition last_byte (plaintext : Bytes) : Z := default 0 (last plaintext).
Definition isValidPadding (plaintext : Bytes) : bool :=
  let n := Z.to_nat (last_byte plaintext) in
  bool_decide ((n <= length plaintext)%nat /\ drop (length plaintext - n) plaintext = replicate n (last_byte plaintext)).
(** [None] is one of the two errors. *)
Definition unpadMessage (plaintext : Bytes) (version : Z) : option Bytes :=
  if version =? 3 then Some plaintext
  else if (length plaintext =? 0)%nat then None
  else if negb (isValidPadding plaintext) then None
  else Some (take (length plaintext - Z.to_nat (last_byte plaintext)) plaintext).
(** [random] is the byte that is drawn. *)
Definition padMessage (plaintext : Bytes) (random : Z) : Bytes :=
  let pad := Z.land random 15 in
  let pad := if pad =? 0 then 15 else pad in
  plaintext ++ replicate (Z.to_nat pad) pad.

(** ** Decryption *)

Section Decrypt.
Context (d : Dialect) (pick : forall A, list A -> option A).
Context (hkdf_SHA256 : Bytes -> Bytes -> Bytes -> Z -> Bytes) (sha256 : Bytes -> Bytes) (open : Bytes -> Bytes -> Bytes -> Bytes -> option Bytes).
(** The messages of libsignal, and its ciphers: with a session, where [true] is a
    message that starts one, and with the sender key of a group. *)
Context {Msg : Type} (parsePreKey parseSignal parseSenderKey : Bytes -> option Msg).
Context (session_decrypt : bool -> string * Z -> Msg -> Dec SignalDB Bytes) (group_decrypt : string -> string * Z -> Msg -> Dec SignalDB Bytes).
Context (unmarshalSecret : Bytes -> option EncSecret).
(** The settings of the client, and its addresses. *)
Context (EnableDecryptedEventBuffer AutoTrustIdentity : bool) (ownID ownLID : JID).
(** [protocol.SignalAddress.String] *)
Definition address_string (a : string * Z) : string := a.1 +:+ ":" +:+ fmt_d a.2.

Definition hash_input (ciphertext : Bytes) (extraHashData : list string) : Bytes :=
  ciphertext ++ concat (map (fun part => 0 :: codes part) extraHashData) ++ [0; 0].
Definition zero_hash : Bytes := replicate 32 0.

(** The text and the hash. *)
Definition bufferedDecrypt (ciphertext : Bytes) (serverTimestamp now : Time) (decrypt : Dec SignalDB Bytes) (extraHashData : list string) :
    Dec DecDB (Bytes * Bytes) :=
  if negb EnableDecryptedEventBuffer then
    plaintext ← on_signal decrypt;
    mret (plaintext, zero_hash)
  else
    let hash := sha256 (hash_input ciphertext extraHashData) in
    buf ← from_stmt (GetBufferedEvent hash);
    match buf with
    | Some buf => match be_Plaintext buf with None => dec_fail EventAlreadyProcessed | Some p => mret (p, hash) end
    | None =>
        DoDecryptionTxn (
          plaintext ← on_signal decrypt;
          _ ← from_stmt (PutBufferedEvent hash plaintext serverTimestamp now);
          mret (plaintext, hash))
    end.

(** What is handed to the handlers is not part of this. *)
Definition clearUntrustedIdentity (target : string * Z) : Dec SignalDB () :=
  _ ← from_stmt (DeleteIdentity (fold_of d) (address_string target));
  from_stmt (DeleteSession (address_string target)).

Definition decryptPreKey (from : string * Z) (m : Msg) : Dec SignalDB Bytes := fun s =>
  match session_decrypt true from m s with
  | (inl ErrUntrustedIdentity, s) =>
      if AutoTrustIdentity then (_ ← clearUntrustedIdentity from; session_decrypt true from m) s else (inl ErrUntrustedIdentity, s)
  | r => r
  end.

(** The text without its padding, and the hash. *)
Definition unpadded (child : node) (r : Bytes * Bytes) : Dec DecDB (Bytes * Bytes) :=
  match unpadMessage r.1 (Int "v" (AttrGetter child)).1 with Some p => mret (p, r.2) | None => dec_fail DecOther end.
Definition decryptDM (child : node) (from : JID) (isPreKey : bool) (serverTS now : Time) : Dec DecDB (Bytes * Bytes) :=
  match as_bytes (Content child) with
  | None => dec_fail DecOther
  | Some content =>
      if isPreKey then
        match parsePreKey content with
        | None => dec_fail DecOther
        | Some m => r ← bufferedDecrypt content serverTS now (decryptPreKey (SignalAddress from) m) ["prekey"; String_ from]; unpadded child r
        end
      else
        match parseSignal content with
        | None => dec_fail DecOther
        | Some m => r ← bufferedDecrypt content serverTS now (session_decrypt false (SignalAddress from) m) ["normal"; String_ from]; unpadded child r
        end
  end.
Definition decryptGroupMsg (child : node) (from chat : JID) (serverTS now : Time) : Dec DecDB (Bytes * Bytes) :=
  match as_bytes (Content child) with
  | None => dec_fail DecOther
  | Some content =>
      match parseSenderKey content with
      | None => dec_fail DecOther
      | Some m =>
          r ← bufferedDecrypt content serverTS now (group_decrypt (String_ chat) (SignalAddress from) m) ["senderkey"; String_ chat; String_ from];
          unpadded child r
      end
  end.

(** ** The stanza *)

(** What becomes visible, in order.  [Handled] is a message that was given to the
    handlers, by the hash it has in the buffer. *)
Inductive handling : Type :=
| Unparsed
| HandlerFailed
| Processed (protobufFailed cleared : bool).
Inductive action : Type :=
| SendAck (code : Z)
| SendReceipt
| SendRetryReceipt (isUnavailable : bool)
| RequestFromPhone
| Undecryptable (isUnavailable : bool)
| Handled (hash : option Bytes) (plaintext : Bytes) (h : handling)
| StartPurge.

(** What is remembered from child to child. *)
Record flags : Type := mkFlags { containsDirectMsg : bool; recognizedStanza : bool; protobufFailed : bool }.
#[export] Instance eta_flags : Eta flags := fun r => mkFlags (containsDirectMsg r) (recognizedStanza r) (protobufFailed r).
Inductive flow : Type := Next (fl : flags) | Return | Panicked.

Context {Certificate Details : Type}.
Notation MessageInfo := (@MessageInfo Certificate Details).

(** A message to a bot that is encrypted with a secret: [None] is a panic. *)
Definition decryptBot (info : MessageInfo) (child : node) : DecDB -> option (dec_error + Bytes) * DecDB := fun db =>
  let target := TargetSender (mi_MetaInfo info) in
  let targetSenderJID :=
    if String.eqb (User target) "" then (if String.eqb (Server (Sender (mi_Source info))) BotServer then ownLID else ownID) else target in
  let edit := EditType (mi_BotInfo info) in
  let decryptMessageID :=
    if String.eqb edit EditTypeInner || String.eqb edit EditTypeLast then EditTargetID (mi_BotInfo info) else mi_ID info in
  match GetMessageSecret d pick (Chat (mi_Source info)) targetSenderJID (TargetID (mi_MetaInfo info)) (dc_account db) with
  | (r, a) =>
      let db := db <| dc_account := a |> in
      match r with
      | inl e => (Some (inl DecOther), db)
      | inr (None, _) => (Some (inl DecOther), db)
      | inr (Some secret, _) =>
          match as_bytes (Content child) with
          | None => (None, db)
          | Some content =>
              match unmarshalSecret content with
              | None => (Some (inl DecOther), db)
              | Some msMsg =>
                  (match decryptBotMessage hkdf_SHA256 open secret msMsg decryptMessageID targetSenderJID (Sender (mi_Source info)) with
                   | Panic _ => None
                   | Ret (inl _) => Some (inl DecOther)
                   | Ret (inr p) => Some (inr p)
                   end, db)
              end
          end
      end
  end.

(** What is done with a message of version 2 and of version 3: [None] when the
    protocol buffer does not parse; whether a handler failed; in version 3 also
    whether the message was not understood. *)
Context (handleMessage : MessageInfo -> Bytes -> Z -> DecDB -> option bool * DecDB)
  (handleArmadillo : MessageInfo -> Bytes -> Z -> DecDB -> bool * bool * DecDB).
(** Whether the context of the client is over; the time. *)
Context (ctx_done : bool) (now : Time).

Definition process (info : MessageInfo) (hash : option Bytes) (decrypted : Bytes) (v retryCount : Z) (fl : flags) (db : DecDB) :
    list action * flow * DecDB :=
  let finish (hf pf : bool) (db : DecDB) :=
    let fl := fl <| protobufFailed := pf |> in
    if hf then ([Handled hash decrypted HandlerFailed], Return, db)
    else
      match hash with
      | Some h =>
          if EnableDecryptedEventBuffer then
            let '(r, db) := ClearBufferedEventPlaintext h db in
            let cleared := match r with inr _ => true | inl _ => false end in
            if bool_decide (12 * Hour < Since now (lastDecryptedBufferClear db)) && negb ctx_done
            then ([Handled hash decrypted (Processed pf cleared); StartPurge], Next fl, db <| lastDecryptedBufferClear := now |>)
            else ([Handled hash decrypted (Processed pf cleared)], Next fl, db)
          else ([Handled hash decrypted (Processed pf false)], Next fl, db)
      | None => ([Handled hash decrypted (Processed pf false)], Next fl, db)
      end in
  if v =? 2 then
    match handleMessage info decrypted retryCount db with
    | (None, db) => ([Handled hash decrypted Unparsed], Next (fl <| protobufFailed := true |>), db)
    | (Some hf, db) => finish hf false db
    end
  else if v =? 3 then let '(hf, pf, db) := handleArmadillo info decrypted retryCount db in finish hf pf db
  else finish false (protobufFailed fl) db.

Definition decrypt_failed (encType : string) (fl : flags) (e : dec_error) : list action * flow :=
  match e with
  | EventAlreadyProcessed | ErrOldCounter => ([], Next fl)
  | _ =>
      if ctx_done || match e with ErrCanceled => true | _ => false end then ([], Return)
      else
        let isUnavailable := String.eqb encType "skmsg" && negb (containsDirectMsg fl) && match e with ErrNoSenderKeyForUser => true | _ => false end in
        ((if String.eqb encType "msmsg" then [SendAck NackMissingMessageSecret] else [SendRetryReceipt isUnavailable; SendAck 0]) ++
         [Undecryptable isUnavailable], Return)
  end.

Definition decryptChild (info : MessageInfo) (senderEncryptionJID : JID) (child : node) (fl : flags) (db : DecDB) : list action * flow * DecDB :=
  if negb (String.eqb (Tag child) "enc") then ([], Next fl, db)
  else
    let fl := fl <| recognizedStanza := true |> in
    match GetString "type" false (AttrGetter child) with
    | (_, false, _) => ([], Next fl, db)
    | (encType, true, _) =>
        let done (fl : flags) (r : dec_error + Bytes * option Bytes) (db : DecDB) :=
          match r with
          | inl e => (decrypt_failed encType fl e, db)
          | inr (decrypted, hash) =>
              process info hash decrypted (Int "v" (AttrGetter child)).1 (OptionalInt "count" (AttrGetter child)).1 fl db
          end in
        let with_hash (m : (dec_error + Bytes * Bytes) * DecDB) :=
          (match m.1 with inl e => inl e | inr (p, h) => inr (p, Some h) end, m.2) in
        if String.eqb encType "pkmsg" || String.eqb encType "msg" then
          let '(r, db) := with_hash (decryptDM child senderEncryptionJID (String.eqb encType "pkmsg") (mi_Timestamp info) now db) in
          done (fl <| containsDirectMsg := true |>) r db
        else if IsGroup (mi_Source info) && String.eqb encType "skmsg" then
          let '(r, db) := with_hash (decryptGroupMsg child senderEncryptionJID (Chat (mi_Source info)) (mi_Timestamp info) now db) in
          done fl r db
        else if String.eqb encType "msmsg" && IsBot (Sender (mi_Source info)) then
          match decryptBot info child db with
          | (None, db) => ([], Panicked, db)
          | (Some r, db) => done fl (match r with inl e => inl e | inr p => inr (p, None) end) db
          end
        else ([], Next fl, db)
    end.

Fixpoint decryptChildren (info : MessageInfo) (senderEncryptionJID : JID) (children : list node) (fl : flags) (db : DecDB) :
    list action * flow * DecDB :=
  match children with
  | [] => ([], Next fl, db)
  | child :: children =>
      match decryptChild info senderEncryptionJID child fl db with
      | (acts, Next fl, db) =>
          let '(acts', f, db) := decryptChildren info senderEncryptionJID children fl db in (acts ++ acts', f, db)
      | r => r
      end
  end.

(** The address that the sessions are kept under: the LID when it is known, from
    the stanza or from the table ([Some EmptyJID] is no LID, [None] an error);
    the one from the table is noted in the [SenderAlt] of the message. *)
Definition senderEncryption (info : MessageInfo) (GetLIDForPN : JID -> option JID) (db : DecDB) : JID * MessageInfo * DecDB :=
  let sender := Sender (mi_Source info) in
  let migrate (lid : JID) (info : MessageInfo) := (lid, info, (on_signal (from_stmt (MigratePNToLID (fold_of d) sender lid)) db).2) in
  if String.eqb (Server sender) DefaultUserServer && negb (IsBot sender) then
    if String.eqb (Server (SenderAlt (mi_Source info))) HiddenUserServer then migrate (SenderAlt (mi_Source info)) info
    else match GetLIDForPN sender with
         | None => (sender, info, db)
         | Some lid => if Jid.IsEmpty lid then (sender, info, db) else migrate lid (info <| mi_Source := (mi_Source info) <| SenderAlt := lid |> |>)
         end
  else (sender, info, db).

Definition decryptMessages (info : MessageInfo) (n : node) (GetLIDForPN : JID -> option JID) (db : DecDB) : list action * DecDB :=
  let '(unavailableNode, ok) := GetOptionalChildByTag n ["unavailable"] in
  if ok && (length (GetChildrenByTag "enc" n) =? 0)%nat then ([RequestFromPhone; SendAck 0; Undecryptable true], db)
  else
    let '(senderEncryptionJID, info, db) := senderEncryption info GetLIDForPN db in
    match decryptChildren info senderEncryptionJID (GetChildren n) (mkFlags false false false) db with
    | (acts, Return, db) => (acts, db)
    | (acts, Panicked, db) => (acts ++ [SendAck 0], db)
    | (acts, Next fl, db) =>
        (acts ++ [if negb (recognizedStanza fl) then SendAck NackUnrecognizedStanza
                  else if protobufFailed fl then SendAck NackInvalidProtobuf else SendReceipt], db)
    end.
End Decrypt.

(** ** Padding *)

Lemma last_byte_pad p n b : (0 < n)%nat -> last_byte (p ++ replicate n b) = b.
Proof.
  intros Hn. unfold last_byte. destruct n as [|n]; [lia|]. rewrite replicate_S_end, app_assoc. by rewrite last_snoc.
Qed.
(** Whatever byte is drawn. *)
Theorem unpad_padMessage p random v : v <> 3 -> unpadMessage (padMessage p random) v = Some p.
Proof.
  intros Hv. unfold padMessage. set (b := if Z.land random 15 =? 0 then 15 else Z.land random 15).
  assert (0 < b <= 15) as Hb.
  { assert (Z.land random 15 = random mod 16) as Hl by (change 15 with (Z.ones 4); by rewrite Z.land_ones).
    unfold b. rewrite Hl. pose proof (Z.mod_pos_bound random 16 ltac:(lia)). destruct (Z.eqb_spec (random mod 16) 0); lia. }
  clearbody b. unfold unpadMessage, isValidPadding. destruct (Z.eqb_spec v 3); [done|]. rewrite last_byte_pad by lia.
  rewrite length_app, length_replicate. destruct (Nat.eqb_spec (length p + Z.to_nat b) 0); [lia|].
  replace (length p + Z.to_nat b - Z.to_nat b)%nat with (length p) by lia.
  rewrite drop_app_length, take_app_length. rewrite bool_decide_true; [done|]. split; [lia|done].
Qed.

(** ** What the hash is of

    The address has no zero bytes, and the chat of a group has an [@]. *)
Lemma codes_zero s : no_byte Ascii.zero s = true -> 0 ∉ codes s.
Proof.
  induction s as [|c s IH]; [intros _; apply not_elem_of_nil|]. change (codes (String c s)) with (Z.of_N (N_of_ascii c) :: codes s).
  cbn [no_byte]. destruct (ascii_dec c Ascii.zero) as [|Hc]; [done|]. intros Hs. apply not_elem_of_cons. split; [|by apply IH].
  intros H. apply Hc. assert (N_of_ascii c = 0%N) as H0 by lia. rewrite <- (ascii_N_embedding c), H0. done.
Qed.

Lemma first_sep_inj (s t a b : list Z) : 0 ∉ s -> 0 ∉ t -> s ++ 0 :: a = t ++ 0 :: b -> s = t /\ a = b.
Proof.
  revert t. induction s as [|x s IH]; intros [|y t] Hs Ht He; cbn in He; injection He; clear He; intros; subst; try done.
  - exfalso. apply Ht. by left.
  - exfalso. apply Hs. by left.
  - destruct (IH t) as [-> ->]; [set_solver|set_solver|done|done].
Qed.
Lemma last_sep_inj (s t a b : list Z) : 0 ∉ s -> 0 ∉ t -> a ++ 0 :: s = b ++ 0 :: t -> a = b /\ s = t.
Proof.
  intros Hs Ht He. apply (f_equal reverse) in He. rewrite !reverse_app, !reverse_cons, <- !app_assoc in He. cbn in He.
  apply first_sep_inj in He as [H1 H2]; [|by rewrite elem_of_reverse..]. split; [by apply (inj reverse)|by apply (inj reverse)].
Qed.
Lemma codes_inj s t : codes s = codes t -> s = t.
Proof. intros H. apply (f_equal of_codes) in H. by rewrite !of_codes_codes in H. Qed.

(** Where a ciphertext comes from: a session, whether it starts one, or a group. *)
Inductive cipher_source : Type :=
| FromSession (isPreKey : bool) (from : string)
| FromGroup (chat from : string).
Definition hash_data (k : cipher_source) : list string :=
  match k with
  | FromSession true from => ["prekey"; from]
  | FromSession false from => ["normal"; from]
  | FromGroup chat from => ["senderkey"; chat; from]
  end.
Definition source_ok (k : cipher_source) : Prop :=
  match k with
  | FromSession _ from => no_byte Ascii.zero from = true
  | FromGroup chat from => no_byte Ascii.zero from = true /\ no_byte Ascii.zero chat = true /\ chat <> "prekey" /\ chat <> "normal"
  end.

Lemma hash_input_2 c a b : hash_input c [a; b] = ((c ++ 0 :: codes a) ++ 0 :: codes b) ++ [0; 0].
Proof. unfold hash_input. cbn [map concat]. by repeat (rewrite <- ?app_assoc; cbn [app]). Qed.
Lemma hash_input_3 c a b e : hash_input c [a; b; e] = (((c ++ 0 :: codes a) ++ 0 :: codes b) ++ 0 :: codes e) ++ [0; 0].
Proof. unfold hash_input. cbn [map concat]. by repeat (rewrite <- ?app_assoc; cbn [app]). Qed.
Lemma last_field a b s t : no_byte Ascii.zero s = true -> no_byte Ascii.zero t = true -> a ++ 0 :: codes s = b ++ 0 :: codes t -> a = b /\ s = t.
Proof. intros Hs Ht H. apply last_sep_inj in H as [H1 H2]; [|by apply codes_zero..]. split; [done|by apply codes_inj]. Qed.
(** Two messages have the same hash input only when they are the same message from
    the same device in the same chat. *)
Theorem hash_input_injective c c' k k' :
  source_ok k -> source_ok k' -> hash_input c (hash_data k) = hash_input c' (hash_data k') -> c = c' /\ k = k'.
Proof.
  intros Hk Hk' He.
  destruct k as [[] f|ch f], k' as [[] f'|ch' f']; cbn [hash_data] in He; cbn [source_ok] in Hk, Hk'; repeat match goal with H : _ /\ _ |- _ => destruct H end;
    rewrite ?hash_input_2, ?hash_input_3 in He; apply app_inv_tail in He;
    repeat (apply last_field in He as [He ?]; [|done|done]); subst; done.
Qed.

(** ** A message in the buffer *)

(** [None]: not there; [Some (Some p)]: decrypted to [p]; [Some None]: done. *)
Definition phase (h : Bytes) (db : DecDB) : option (option Bytes) := br_plaintext <$> dc_buffer db !! h.
Definition text_of (p text : Bytes) : Prop := exists v, unpadMessage p v = Some text.
Definition not_cleared (hd : handling) : bool := match hd with Processed _ true => false | _ => true end.
(** What is handed to the handlers under a hash. *)
Definition of_hash (h : Bytes) (a : action) : bool := match a with Handled (Some h') _ _ => bool_decide (h' = h) | _ => false end.
Definition proj (h : Bytes) (acts : list action) : list action := filter (fun a => of_hash h a = true) acts.

(** The life of a message: it is decrypted, to a text that [came] from libsignal,
    handed over, perhaps more than once, and cleared; nothing comes after that. *)
Inductive life (came : Bytes -> Bytes -> Prop) (h : Bytes) : option (option Bytes) -> list action -> option (option Bytes) -> Prop :=
| life_stays ph : life came h ph [] ph
| life_buffered p evs ph : came h p -> life came h (Some (Some p)) evs ph -> life came h None evs ph
| life_tried p text hd evs ph : text_of p text -> not_cleared hd = true -> life came h (Some (Some p)) evs ph ->
    life came h (Some (Some p)) (Handled (Some h) text hd :: evs) ph
| life_cleared p text pf : text_of p text -> life came h (Some (Some p)) [Handled (Some h) text (Processed pf true)] (Some None).

Section Lives.
Context (came : Bytes -> Bytes -> Prop).
Notation life := (life came).
Lemma life_trans h ph1 e1 ph2 e2 ph3 : life h ph1 e1 ph2 -> life h ph2 e2 ph3 -> life h ph1 (e1 ++ e2) ph3.
Proof.
  induction 1 as [ph|p evs ph Hc H IH|p text hd evs ph Ht Hn H IH|p text pf Ht]; intros H2; cbn.
  - done.
  - by eapply life_buffered, IH.
  - constructor; auto.
  - inversion H2; subst. by constructor.
Qed.
Lemma life_shape h evs p ph : life h (Some (Some p)) evs ph ->
  exists tries rest, evs = tries ++ rest /\
    Forall (fun a => exists text hd, a = Handled (Some h) text hd /\ text_of p text /\ not_cleared hd = true) tries /\
    (rest = [] \/ exists text pf, rest = [Handled (Some h) text (Processed pf true)] /\ text_of p text).
Proof.
  remember (Some (Some p)) as ph0 eqn:Hp. induction 1 as [ph|p' evs ph Hc H IH|p' text hd evs ph Ht Hn H IH|p' text pf Ht]; try done.
  - exists [], []. split; [done|]. split; [constructor|by left].
  - injection Hp as ->. destruct (IH eq_refl) as (tries & rest & -> & Hf & Hr). exists (Handled (Some h) text hd :: tries), rest.
    split; [done|]. split; [|done]. constructor; [by exists text, hd|done].
  - injection Hp as ->. exists [], [Handled (Some h) text (Processed pf true)]. split; [done|]. split; [constructor|]. right. by exists text, pf.
Qed.

(** What one piece of code does: for the message with hash [h]; to when its row was
    inserted; without faults, nothing processed stays in the buffer. *)
Definition inserted_after (t0 : Time) (h : Bytes) (db : DecDB) : Prop := forall r, dc_buffer db !! h = Some r -> toUnixMilli t0 <= br_insert r.
Definition cleared_all (acts : list action) : Prop := Forall (fun a => match a with Handled (Some _) _ (Processed _ c) => c = true | _ => True end) acts.
Record advance (t0 : Time) (h : Bytes) (db : DecDB) (acts : list action) (db' : DecDB) : Prop := mkAdvance {
  adv_life : life h (phase h db) (proj h acts) (phase h db');
  adv_insert : inserted_after t0 h db -> inserted_after t0 h db';
  adv_faults : dc_faults db = [] -> dc_faults db' = [] /\ cleared_all acts }.

Lemma advance_trans t0 h db1 a1 db2 a2 db3 : advance t0 h db1 a1 db2 -> advance t0 h db2 a2 db3 -> advance t0 h db1 (a1 ++ a2) db3.
Proof.
  intros [L1 I1 F1] [L2 I2 F2]. split; [|auto|].
  - unfold proj in *. rewrite filter_app. by eapply life_trans.
  - intros H. apply F1 in H as [H Hc]. apply F2 in H as [H Hc']. split; [done|]. by apply Forall_app.
Qed.
(** Code that leaves the buffer and the faults alone, and handles nothing. *)
Lemma advance_same t0 h db acts db' :
  dc_buffer db' = dc_buffer db -> dc_faults db' = dc_faults db -> Forall (fun a => match a with Handled (Some _) _ _ => False | _ => True end) acts ->
  advance t0 h db acts db'.
Proof.
  intros Hb Hf Ha. assert (proj h acts = []) as Hp.
  { induction Ha as [|a acts H Ha IH]; [done|]. unfold proj. rewrite filter_cons_False; [exact IH|]. by destruct a as [| | | | |[]|]. }
  split.
  - rewrite Hp. unfold phase. rewrite Hb. constructor.
  - unfold inserted_after. by rewrite Hb.
  - rewrite Hf. intros H. split; [done|]. eapply Forall_impl; [exact Ha|]. by intros [| | | | |[]|].
Qed.

End Lives.

Section Life.
Context (d : Dialect) (pick : forall A, list A -> option A).
Context (hkdf_SHA256 : Bytes -> Bytes -> Bytes -> Z -> Bytes) (sha256 : Bytes -> Bytes) (open : Bytes -> Bytes -> Bytes -> Bytes -> option Bytes).
Context {Msg : Type} (parsePreKey parseSignal parseSenderKey : Bytes -> option Msg).
Context (session_decrypt : bool -> string * Z -> Msg -> Dec SignalDB Bytes) (group_decrypt : string -> string * Z -> Msg -> Dec SignalDB Bytes).
Context (unmarshalSecret : Bytes -> option EncSecret) (AutoTrustIdentity : bool) (ownID ownLID : JID).

(** *** The decryption *)

(** The text that libsignal made of a ciphertext with this hash, in some state of
    the sessions and keys. *)
Inductive decrypts_to : Bytes -> Bytes -> Prop :=
| decrypts_session (isPreKey : bool) (content : Bytes) (from : JID) (m : Msg) (s : SignalDB) (p : Bytes) (s' : SignalDB) :
    (if isPreKey then parsePreKey else parseSignal) content = Some m ->
    (if isPreKey then decryptPreKey d session_decrypt AutoTrustIdentity (SignalAddress from) m else session_decrypt false (SignalAddress from) m) s = (inr p, s') ->
    decrypts_to (sha256 (hash_input content [if isPreKey then "prekey" else "normal"; String_ from])) p
| decrypts_group (content : Bytes) (from chat : JID) (m : Msg) (s : SignalDB) (p : Bytes) (s' : SignalDB) :
    parseSenderKey content = Some m -> group_decrypt (String_ chat) (SignalAddress from) m s = (inr p, s') ->
    decrypts_to (sha256 (hash_input content ["senderkey"; String_ chat; String_ from])) p.
Notation advance := (advance decrypts_to).
Notation advance_same := (advance_same decrypts_to).
Notation advance_trans := (advance_trans decrypts_to).

(** The buffer has the row of the message, which was there or is new. *)
Definition grown (now : Time) (h : Bytes) (p : Bytes) (db db' : DecDB) : Prop :=
  (forall k, k <> h -> dc_buffer db' !! k = dc_buffer db !! k) /\
  exists r, dc_buffer db' !! h = Some r /\ br_plaintext r = Some p /\
    (dc_buffer db !! h = Some r \/ dc_buffer db !! h = None /\ br_insert r = toUnixMilli now /\ decrypts_to h p).
Definition same_tables (db db' : DecDB) : Prop :=
  dc_buffer db' = dc_buffer db /\ sessions (dc_signal db') = sessions (dc_signal db) /\
  identities (dc_signal db') = identities (dc_signal db) /\ senderKeys (dc_signal db') = senderKeys (dc_signal db).

Lemma on_signal_keeps {A} (m : Dec SignalDB A) db : dc_buffer (on_signal m db).2 = dc_buffer db /\ dc_faults (on_signal m db).2 = dc_faults db.
Proof. unfold on_signal. by destruct (m (dc_signal db)). Qed.

Lemma DoDecryptionTxn_spec {A} (fn : Dec DecDB A) db (Q : A -> DecDB -> Prop) :
  (forall fs, (dc_faults db = [] -> fs = []) ->
     match fn (db <| dc_faults := fs |>) with
     | (inr a, db') => (forall fs', Q a (db' <| dc_faults := fs' |>)) /\ (fs = [] -> dc_faults db' = [])
     | (inl _, db') => fs = [] -> dc_faults db' = []
     end) ->
  let '(r, db') := DoDecryptionTxn fn db in
  (dc_faults db = [] -> dc_faults db' = []) /\ match r with inl _ => same_tables db db' | inr a => Q a db' end.
Proof.
  intros Hfn. unfold DoDecryptionTxn.
  assert (forall fs, (dc_faults db = [] -> fs = []) ->
    let '(r, db') := (match fn (db <| dc_faults := fs |>) with
      | (inl e, db1) => (inl e, dc_restore (db <| dc_faults := fs |>) db1)
      | (inr a, db1) => match execute id db1 with
          | (inl e, db1) => (inl (DecStore e), dc_restore (db <| dc_faults := fs |>) db1) | (inr _, db1) => (inr a, db1) end
      end) in (dc_faults db = [] -> dc_faults db' = []) /\ match r with inl _ => same_tables db db' | inr a => Q a db' end) as Hall.
  { intros fs Hfs. specialize (Hfn fs Hfs). destruct (fn _) as [[e|a] db1].
    - split; [intros H; by apply Hfn, Hfs|done].
    - destruct Hfn as [HQ Hf]. unfold execute, statement. change (db_faults db1) with (dc_faults db1).
      destruct (dc_faults db1) as [|[] fs1] eqn:Hf1.
      + split; [done|]. specialize (HQ []). rewrite <- Hf1 in HQ. by destruct db1.
      + split; [intros H; by specialize (Hf (Hfs H))|done].
      + split; [intros H; by specialize (Hf (Hfs H))|apply (HQ fs1)]. }
  unfold execute at 1, statement. change (db_faults db) with (dc_faults db). destruct (dc_faults db) as [|[] fs] eqn:Hf.
  - specialize (Hall [] (fun _ => eq_refl)). assert (db <| dc_faults := [] |> = db) as He by (rewrite <- Hf; by destruct db).
    rewrite He in Hall. exact Hall.
  - by split.
  - exact (Hall fs ltac:(done)).
Qed.

Lemma PutBufferedEvent_runs h p ts now db : dc_buffer db !! h = None ->
  runs (PutBufferedEvent h p ts now) db
    (fun _ db' => dc_buffer db' = <[h := mkBufferRow (Some p) (toUnix ts) (toUnixMilli now)]> (dc_buffer db)) (fun _ => True).
Proof.
  intros Hn. apply runs_execute_checked; [done|]. intros fs. change (dc_buffer (set_db_faults fs db)) with (dc_buffer db). rewrite Hn. by eexists.
Qed.
Lemma PutBufferedEvent_signal h p ts now db : dc_signal (PutBufferedEvent h p ts now db).2 = dc_signal db.
Proof.
  unfold PutBufferedEvent, execute_checked, statement. change (db_faults db) with (dc_faults db).
  assert (forall fs, dc_signal (set_db_faults fs db) = dc_signal db) as Hs by done.
  destruct (dc_faults db) as [|[] fs]; repeat case_match; simplify_eq; try done.
Qed.
Lemma bufferedDecrypt_spec c ts now dec extra db :
  let h := sha256 (hash_input c extra) in
  let '(r, db') := bufferedDecrypt sha256 true c ts now dec extra db in
  (dc_faults db = [] -> dc_faults db' = []) /\
  match r with
  | inl _ => same_tables db db'
  | inr (p, h') => h' = h /\
      (br_plaintext <$> dc_buffer db !! h = Some (Some p) /\ same_tables db db' \/
       dc_buffer db !! h = None /\ dec (dc_signal db) = (inr p, dc_signal db') /\
       dc_buffer db' = <[h := mkBufferRow (Some p) (toUnix ts) (toUnixMilli now)]> (dc_buffer db))
  end.
Proof.
  intros h. unfold bufferedDecrypt. cbn [negb]. fold h. unfold mbind at 1, Dec_bind at 1, from_stmt at 1, GetBufferedEvent.
  unfold mbind at 1, Stmt_bind at 1, select, statement. change (db_faults db) with (dc_faults db).
  assert (forall fs, (dc_faults db = [] -> fs = []) ->
    let '(r, db') := (match (fun r => mkBufferedEvent (br_plaintext r) (UnixMilli (br_insert r)) (Unix (br_server r))) <$> dc_buffer db !! h with
      | Some buf => match be_Plaintext buf with None => dec_fail EventAlreadyProcessed | Some p => mret (p, h) end
      | None => DoDecryptionTxn (p ← on_signal dec; _ ← from_stmt (PutBufferedEvent h p ts now); mret (p, h))
      end) (db <| dc_faults := fs |>) in
    (dc_faults db = [] -> dc_faults db' = []) /\
    match r with
    | inl _ => same_tables db db'
    | inr (p, h') => h' = h /\
        (br_plaintext <$> dc_buffer db !! h = Some (Some p) /\ same_tables db db' \/
         dc_buffer db !! h = None /\ dec (dc_signal db) = (inr p, dc_signal db') /\
         dc_buffer db' = <[h := mkBufferRow (Some p) (toUnix ts) (toUnixMilli now)]> (dc_buffer db))
    end) as Hall.
  { intros fs Hfs. destruct (dc_buffer db !! h) as [row|] eqn:Hrow; cbn [fmap option_fmap option_map be_Plaintext].
    - destruct (br_plaintext row) as [p|] eqn:Hp; cbn; [|by split].
      split; [done|]. split; [done|]. left. by split.
    - pose proof (DoDecryptionTxn_spec (p ← on_signal dec; _ ← from_stmt (PutBufferedEvent h p ts now); mret (p, h))
        (db <| dc_faults := fs |>) (fun a db' => a.2 = h /\ dec (dc_signal db) = (inr a.1, dc_signal db') /\
           dc_buffer db' = <[h := mkBufferRow (Some a.1) (toUnix ts) (toUnixMilli now)]> (dc_buffer db))) as Hs.
      destruct (DoDecryptionTxn _ _) as [r db']. destruct Hs as [Hf HQ].
      { intros fs0 Hf0. set (db0 := _ <| dc_faults := fs0 |>). change fs0 with (dc_faults db0). unfold mbind, Dec_bind. pose proof (on_signal_keeps dec db0) as [Hb1 Hf1].
        assert (on_signal dec db0 = ((dec (dc_signal db)).1, db0 <| dc_signal := (dec (dc_signal db)).2 |>)) as Hon.
        { unfold on_signal. change (dc_signal db0) with (dc_signal db). by destruct (dec (dc_signal db)). }
        rewrite Hon in Hb1, Hf1 |- *. destruct (dec (dc_signal db)) as [[e|p] s1]; cbn [fst snd] in *; [by rewrite Hf1|].
        set (db1 := db0 <| dc_signal := s1 |>) in *.
        assert (dc_buffer db1 = dc_buffer db) as Hb by done.
        pose proof (PutBufferedEvent_runs h p ts now db1 ltac:(by rewrite Hb)) as Hr. unfold from_stmt, runs in *.
        assert (dc_signal (PutBufferedEvent h p ts now db1).2 = s1) as Hs1.
        { by rewrite PutBufferedEvent_signal. }
        destruct (PutBufferedEvent h p ts now db1) as [[e|[]] db2]; destruct Hr as [Hr Hf2]; [intros H; by rewrite <- Hf1 in H|].
        split; [|intros H; apply Hf2; by rewrite <- Hf1 in H]. intros fs'. split; [done|]. rewrite Hb in Hr. split; [|exact Hr].
        cbn in Hs1 |- *. by rewrite Hs1. }
      split; [auto|]. destruct r as [e|[p h']]; [exact HQ|]. destruct HQ as (Hh & Hd & Hg). split; [exact Hh|]. by right. }
  destruct (dc_faults db) as [|[] fs] eqn:Hf; cbn -[DoDecryptionTxn].
  - specialize (Hall [] (fun _ => eq_refl)). assert (db <| dc_faults := [] |> = db) as He by (rewrite <- Hf; by destruct db).
    rewrite He in Hall. exact Hall.
  - by split.
  - exact (Hall fs ltac:(done)).
Qed.

Lemma same_grown now h p db db' : br_plaintext <$> dc_buffer db !! h = Some (Some p) -> same_tables db db' -> grown now h p db db'.
Proof.
  intros Hr [Hb _]. split; [by rewrite Hb|]. destruct (dc_buffer db !! h) as [r|] eqn:Hrow; [|done]. cbn in Hr. injection Hr as Hr.
  exists r. rewrite Hb. by split; [|split; [|left]].
Qed.
Lemma new_grown now ts h p db db' : dc_buffer db !! h = None -> decrypts_to h p ->
  dc_buffer db' = <[h := mkBufferRow (Some p) ts (toUnixMilli now)]> (dc_buffer db) -> grown now h p db db'.
Proof.
  intros Hn Hc Hb. split; [intros k Hk; by rewrite Hb, lookup_insert_ne|]. eexists. rewrite Hb, lookup_insert_eq. by split; [|split; [|right]].
Qed.

(** A text, with the row that it is from. *)
Definition decrypted (now : Time) (r : dec_error + Bytes * Bytes) (db db' : DecDB) : Prop :=
  (dc_faults db = [] -> dc_faults db' = []) /\
  match r with
  | inl _ => dc_buffer db' = dc_buffer db \/ exists h p, grown now h p db db'
  | inr (text, h) => exists p, grown now h p db db' /\ text_of p text
  end.
Lemma buffered_unpadded child c ts now dec extra db :
  (forall s p s', dec s = (inr p, s') -> decrypts_to (sha256 (hash_input c extra)) p) ->
  let '(r, db') := (r ← bufferedDecrypt sha256 true c ts now dec extra; unpadded child r) db in decrypted now r db db'.
Proof.
  intros Hdec. unfold mbind, Dec_bind. pose proof (bufferedDecrypt_spec c ts now dec extra db) as Hs. cbn zeta in Hs.
  destruct (bufferedDecrypt _ _ _ _ _ _ _ _) as [[e|[p h]] db']; destruct Hs as [Hf Hs].
  - split; [done|]. left. apply Hs.
  - destruct Hs as [-> Hs]. assert (grown now (sha256 (hash_input c extra)) p db db') as Hg.
    { destruct Hs as [[Hr Hsame]|(Hr & Hd & Hb)]; [apply same_grown|eapply new_grown]; eauto. }
    unfold unpadded. cbn [fst snd].
    destruct (unpadMessage p _) as [text|] eqn:Ht; cbn; (split; [done|]).
    + exists p. split; [done|]. by eexists.
    + right. by eexists _, _.
Qed.
Lemma failed_decrypted now e db : decrypted now (inl e) db db.
Proof. split; [done|]. by left. Qed.
Notation decryptDM := (decryptDM d sha256 parsePreKey parseSignal session_decrypt true AutoTrustIdentity).
Notation decryptGroupMsg := (decryptGroupMsg sha256 parseSenderKey group_decrypt true).
Lemma decryptDM_spec child from isPreKey ts now db :
  let '(r, db') := decryptDM child from isPreKey ts now db in decrypted now r db db'.
Proof.
  unfold Decrypt.decryptDM. destruct (as_bytes _); [|apply failed_decrypted].
  destruct isPreKey; [destruct (parsePreKey _) eqn:Hp|destruct (parseSignal _) eqn:Hp]; try apply failed_decrypted; apply buffered_unpadded; intros s p s' Hd.
  - by eapply (decrypts_session true).
  - by eapply (decrypts_session false).
Qed.
Lemma decryptGroupMsg_spec child from chat ts now db :
  let '(r, db') := decryptGroupMsg child from chat ts now db in decrypted now r db db'.
Proof.
  unfold Decrypt.decryptGroupMsg. destruct (as_bytes _); [|apply failed_decrypted].
  destruct (parseSenderKey _) eqn:Hp; [|apply failed_decrypted]. apply buffered_unpadded. intros s p s' Hd. by eapply decrypts_group.
Qed.

(** The row of [h] after the decryption of some message. *)
Lemma grown_advance t0 now h h' p db db' :
  toUnixMilli t0 <= toUnixMilli now -> grown now h' p db db' -> (dc_faults db = [] -> dc_faults db' = []) -> advance t0 h db [] db'.
Proof.
  intros Hn (Hother & r & Hr & Hp & Hold) Hf. split; [| |intros H; split; [auto|constructor]].
  - unfold phase. destruct (decide (h = h')) as [->|Hne].
    + rewrite Hr. cbn. rewrite Hp. destruct Hold as [Ho|(Ho & _ & Hc)]; rewrite Ho; cbn; [rewrite Hp; constructor|]. eapply life_buffered; [exact Hc|constructor].
    + rewrite Hother by done. constructor.
  - intros Hi r' Hr'. destruct (decide (h = h')) as [->|Hne].
    + rewrite Hr in Hr'. injection Hr' as <-. destruct Hold as [Ho|(_ & Hi' & _)]; [by apply Hi|lia].
    + apply Hi. by rewrite <- Hother.
Qed.

(** *** The handlers *)

Context {Certificate Details : Type}.
Notation MessageInfo := (@MessageInfo Certificate Details).
Context (handleMessage : MessageInfo -> Bytes -> Z -> DecDB -> option bool * DecDB)
  (handleArmadillo : MessageInfo -> Bytes -> Z -> DecDB -> bool * bool * DecDB).
Context (ctx_done : bool) (now t0 : Time).
(** The handlers do not write to the buffer, and time moves on. *)
Hypothesis handle_keeps : forall i p n db,
  dc_buffer (handleMessage i p n db).2 = dc_buffer db /\ dc_faults (handleMessage i p n db).2 = dc_faults db.
Hypothesis handle_keeps' : forall i p n db,
  dc_buffer (handleArmadillo i p n db).2 = dc_buffer db /\ dc_faults (handleArmadillo i p n db).2 = dc_faults db.
Hypothesis now_after : toUnixMilli t0 <= toUnixMilli now.

Notation process := (process true handleMessage handleArmadillo ctx_done now).

Lemma clear_runs h db :
  runs (ClearBufferedEventPlaintext h) db
    (fun _ db' => dc_buffer db' = alter (fun r => mkBufferRow None (br_server r) (br_insert r)) h (dc_buffer db))
    (fun db' => dc_buffer db' = dc_buffer db).
Proof. by apply runs_execute. Qed.

(** The message is handed over once more; [pending] is its row. *)
Lemma handled_advance h h' text p hd db rest :
  dc_buffer db !! h' ≫= br_plaintext = Some p -> text_of p text -> not_cleared hd = true ->
  Forall (fun a => match a with Handled (Some _) _ _ => False | _ => True end) rest ->
  (dc_faults db = [] -> match hd with Processed _ c => c = true | _ => True end) ->
  advance t0 h db (Handled (Some h') text hd :: rest) db.
Proof.
  intros Hp Ht Hn Hr Hf. pose proof (advance_same t0 h db rest db eq_refl eq_refl Hr) as [Hl _ Hc]. split; [|done|].
  - unfold proj in *. destruct (decide (h' = h)) as [->|Hne].
    + rewrite filter_cons_True by (cbn; by apply bool_decide_eq_true). unfold phase in *.
      destruct (dc_buffer db !! h) as [r|]; [|done]. cbn in *. rewrite Hp in *. by constructor.
    + rewrite filter_cons_False; [done|]. cbn. by rewrite bool_decide_false.
  - intros H0. destruct (Hc H0) as [_ Hca]. split; [done|]. constructor; [|done]. destruct hd; try done. by apply Hf.
Qed.
Lemma cleared_advance h h' text p pf db db' rest :
  dc_buffer db !! h' ≫= br_plaintext = Some p -> text_of p text ->
  dc_buffer db' = alter (fun r => mkBufferRow None (br_server r) (br_insert r)) h' (dc_buffer db) -> (dc_faults db = [] -> dc_faults db' = []) ->
  Forall (fun a => match a with Handled (Some _) _ _ => False | _ => True end) rest ->
  advance t0 h db (Handled (Some h') text (Processed pf true) :: rest) db'.
Proof.
  intros Hp Ht Hb Hf Hr. pose proof (advance_same t0 h db rest db eq_refl eq_refl Hr) as [Hl _ Hc].
  assert (proj h rest = []) as Hrest. { clear -Hr. induction Hr as [|a l H Hr IH]; [done|]. unfold proj. rewrite filter_cons_False; [exact IH|]. by destruct a as [| | | | |[]|]. }
  split.
  - unfold proj in *. destruct (decide (h' = h)) as [->|Hne].
    + rewrite filter_cons_True by (cbn; by apply bool_decide_eq_true). rewrite Hrest. unfold phase. rewrite Hb, lookup_alter_eq.
      destruct (dc_buffer db !! h) as [r|]; [|done]. cbn in *. rewrite Hp. by constructor.
    + rewrite filter_cons_False by (cbn; by rewrite bool_decide_false). rewrite Hrest. unfold phase. rewrite Hb, lookup_alter_ne by done. constructor.
  - intros Hi r. rewrite Hb, lookup_alter_Some. intros [[<- (r' & Hr' & ->)]|[_ H]]; [by apply (Hi r')|by apply Hi].
  - intros H0. split; [auto|]. destruct (Hc H0) as [_ Hca]. by constructor.
Qed.

Lemma process_advance h info h' text p v n fl db :
  dc_buffer db !! h' ≫= br_plaintext = Some p -> text_of p text ->
  let '(acts, f, db') := process info (Some h') text v n fl db in advance t0 h db acts db'.
Proof.
  intros Hp Ht.
  assert (forall (hf pf : bool) (db1 : DecDB), dc_buffer db1 = dc_buffer db -> dc_faults db1 = dc_faults db ->
    let '(acts, f, db') := (if hf then ([Handled (Some h') text HandlerFailed], Return, db1)
      else let '(r, db2) := ClearBufferedEventPlaintext h' db1 in
        let cleared := match r with inr _ => true | inl _ => false end in
        if bool_decide (12 * Hour < Since now (lastDecryptedBufferClear db2)) && negb ctx_done
        then ([Handled (Some h') text (Processed pf cleared); StartPurge], Next (fl <| protobufFailed := pf |>), db2 <| lastDecryptedBufferClear := now |>)
        else ([Handled (Some h') text (Processed pf cleared)], Next (fl <| protobufFailed := pf |>), db2)) in advance t0 h db acts db') as Hfinish.
  { intros hf pf db1 Hb Hf. assert (advance t0 h db [] db1) as H1 by (apply advance_same; [done|done|constructor]).
    assert (dc_buffer db1 !! h' ≫= br_plaintext = Some p) as Hp1 by by rewrite Hb.
    destruct hf; [apply (advance_trans _ _ _ [] db1); [done|]; by eapply handled_advance|].
    pose proof (clear_runs h' db1) as Hr. unfold runs in Hr. destruct (ClearBufferedEventPlaintext h' db1) as [[e|[]] db2]; destruct Hr as [Hb2 Hf2].
    - (* the text stays *)
      assert (forall rest, Forall (fun a => match a with Handled (Some _) _ _ => False | _ => True end) rest ->
        advance t0 h db1 (Handled (Some h') text (Processed pf false) :: rest) db2) as Hadv.
      { intros rest Hrest. change (advance t0 h db1 ((Handled (Some h') text (Processed pf false) :: rest)) db2).
        rewrite <- (app_nil_r (_ :: rest)). apply (advance_trans _ _ _ _ db1); [by eapply handled_advance|].
        split; [|unfold inserted_after; by rewrite Hb2|done]. unfold phase. rewrite Hb2. constructor. }
      destruct (_ && _); apply (advance_trans _ _ _ [] db1); try done; [|by apply Hadv].
      rewrite <- (app_nil_r [_; _]). apply (advance_trans _ _ _ _ db2); [apply Hadv; by repeat constructor|apply advance_same; [done|done|constructor]].
    - destruct (_ && _); apply (advance_trans _ _ _ [] db1); try done.
      + rewrite <- (app_nil_r [_; _]). apply (advance_trans _ _ _ _ db2); [|apply advance_same; [done|done|constructor]].
        eapply cleared_advance; [done|done|done|done|by repeat constructor].
      + eapply cleared_advance; [done|done|done|done|constructor]. }
  unfold Decrypt.process. destruct (v =? 2).
  - destruct (handle_keeps info text n db) as [Hb Hf]. destruct (handleMessage info text n db) as [[hf|] db1]; cbn [snd] in *; [by apply Hfinish|].
    apply (advance_trans _ _ _ [] db1); [apply advance_same; [done|done|constructor]|]. eapply handled_advance; [by rewrite Hb|done..].
  - destruct (v =? 3); [|by apply (Hfinish false)].
    destruct (handle_keeps' info text n db) as [Hb Hf]. destruct (handleArmadillo info text n db) as [[hf pf] db1]; cbn [snd] in *. by apply Hfinish.
Qed.

Lemma process_none h info text v n fl db : let '(acts, f, db') := process info None text v n fl db in advance t0 h db acts db'.
Proof.
  assert (forall (hd : handling) (db1 : DecDB), dc_buffer db1 = dc_buffer db -> dc_faults db1 = dc_faults db -> advance t0 h db [Handled None text hd] db1) as H
    by (intros; by apply advance_same; [..|repeat constructor]).
  unfold Decrypt.process. destruct (v =? 2).
  - destruct (handle_keeps info text n db) as [Hb Hf]. destruct (handleMessage info text n db) as [[[]|] db1]; by apply H.
  - destruct (v =? 3); [|by apply H].
    destruct (handle_keeps' info text n db) as [Hb Hf]. destruct (handleArmadillo info text n db) as [[[] pf] db1]; by apply H.
Qed.

(** *** The stanza *)

Notation decryptChild := (decryptChild d pick hkdf_SHA256 sha256 open parsePreKey parseSignal parseSenderKey session_decrypt group_decrypt
  unmarshalSecret true AutoTrustIdentity ownID ownLID handleMessage handleArmadillo ctx_done now).
Notation decryptChildren := (decryptChildren d pick hkdf_SHA256 sha256 open parsePreKey parseSignal parseSenderKey session_decrypt group_decrypt
  unmarshalSecret true AutoTrustIdentity ownID ownLID handleMessage handleArmadillo ctx_done now).
Notation decryptMessages := (decryptMessages d pick hkdf_SHA256 sha256 open parsePreKey parseSignal parseSenderKey session_decrypt group_decrypt
  unmarshalSecret true AutoTrustIdentity ownID ownLID handleMessage handleArmadillo ctx_done now).

Lemma failed_quiet encType fl e : Forall (fun a => match a with Handled (Some _) _ _ => False | _ => True end) (decrypt_failed ctx_done encType fl e).1.
Proof. unfold decrypt_failed. destruct e; try constructor; (destruct (ctx_done || _); [constructor|]); destruct (String.eqb encType "msmsg"); by repeat constructor. Qed.
Lemma decrypted_advance h r db db' : decrypted now r db db' -> advance t0 h db [] db'.
Proof.
  intros [Hf Hr]. destruct r as [e|[text h']].
  - destruct Hr as [Hb|(h' & p & Hg)]; [|by eapply grown_advance].
    split; [unfold phase; rewrite Hb; constructor|unfold inserted_after; by rewrite Hb|intros H; split; [auto|constructor]].
  - destruct Hr as (p & Hg & _). by eapply grown_advance.
Qed.
Lemma child_advance h (info : MessageInfo) sej child fl db : let '(acts, f, db') := decryptChild info sej child fl db in advance t0 h db acts db'.
Proof.
  assert (forall db, advance t0 h db [] db) as Hrefl by (intros; by apply advance_same).
  unfold Decrypt.decryptChild. destruct (negb _); [done|]. destruct (GetString _ _ _) as [[encType []] ?]; [|done].
  assert (forall fl r db db', decrypted now r db db' ->
    let '(acts, f, db'') := (match (match r with inl e => inl e | inr (p, h) => inr (p, Some h) end) with
      | inl e => (decrypt_failed ctx_done encType fl e, db')
      | inr (text, hash) => process info hash text (Int "v" (AttrGetter child)).1 (OptionalInt "count" (AttrGetter child)).1 fl db'
      end) in advance t0 h db acts db'') as Hdone.
  { intros fl0 r db0 db' Hd. pose proof (decrypted_advance h r db0 db' Hd) as H0. destruct r as [e|[text h']].
    - pose proof (failed_quiet encType fl0 e) as Hq. destruct (decrypt_failed ctx_done encType fl0 e) as [acts f]. cbn [fst] in Hq.
      apply (advance_trans _ _ _ [] db'); [done|]. by apply advance_same.
    - destruct Hd as (_ & p & (_ & r & Hr & Hp & _) & Ht).
      pose proof (process_advance h info h' text p (Int "v" (AttrGetter child)).1 (OptionalInt "count" (AttrGetter child)).1 fl0 db'
        ltac:(by rewrite Hr) Ht) as Hproc. destruct (process _ _ _ _ _ _ _) as [[acts f] db'']. by apply (advance_trans _ _ _ [] db'). }
  destruct (String.eqb encType "pkmsg" || _).
  - pose proof (decryptDM_spec child sej (String.eqb encType "pkmsg") (mi_Timestamp info) now db) as Hs.
    destruct (decryptDM _ _ _ _ _ _) as [r db']. cbn [fst snd]. by apply Hdone.
  - destruct (_ && _).
    + pose proof (decryptGroupMsg_spec child sej (Chat (mi_Source info)) (mi_Timestamp info) now db) as Hs.
      destruct (decryptGroupMsg _ _ _ _ _ _) as [r db']. cbn [fst snd]. by apply Hdone.
    + destruct (_ && _); [|done]. unfold decryptBot. destruct (GetMessageSecret _ _ _ _ _ _) as [r acc].
      set (db1 := db <| dc_account := acc |>).
      assert (advance t0 h db [] db1) as H1 by (by apply advance_same).
      assert (forall e, let '(acts, f, db'') := (decrypt_failed ctx_done encType (fl <| recognizedStanza := true |>) e, db1) in advance t0 h db acts db'') as Hfail.
      { intros e. pose proof (failed_quiet encType (fl <| recognizedStanza := true |>) e) as Hq.
        destruct (decrypt_failed _ _ _ e) as [acts f]. cbn [fst] in Hq. apply (advance_trans _ _ _ [] db1); [done|]. by apply advance_same. }
      destruct r as [e|[[secret|] ?]]; [apply Hfail| |apply Hfail].
      destruct (as_bytes _); [|done]. destruct (unmarshalSecret _); [|apply Hfail]. destruct (decryptBotMessage _ _ _ _ _ _ _) as [[e0|text]|]; [apply Hfail| |done].
      pose proof (process_none h info text (Int "v" (AttrGetter child)).1 (OptionalInt "count" (AttrGetter child)).1 (fl <| recognizedStanza := true |>) db1) as Hproc.
      destruct (process _ _ _ _ _ _ _) as [[acts f] db'']. by apply (advance_trans _ _ _ [] db1).
Qed.
Lemma children_advance h (info : MessageInfo) sej children : forall fl db, let '(acts, f, db') := decryptChildren info sej children fl db in advance t0 h db acts db'.
Proof.
  induction children as [|child children IH]; intros fl db; cbn [Decrypt.decryptChildren]; [by apply advance_same|].
  pose proof (child_advance h info sej child fl db) as Hc. destruct (decryptChild _ _ _ _ _) as [[acts [fl'| |]] db']; [|done..].
  specialize (IH fl' db'). destruct (decryptChildren _ _ _ _ _) as [[acts' f] db'']. by eapply advance_trans.
Qed.
Lemma messages_advance h (info : MessageInfo) n lids db : let '(acts, db') := decryptMessages info n lids db in advance t0 h db acts db'.
Proof.
  unfold Decrypt.decryptMessages. destruct (GetOptionalChildByTag _ _) as [u ok]. destruct (_ && _); [apply advance_same; by repeat constructor|].
  assert (advance t0 h db [] (senderEncryption d info lids db).2) as H1.
  { unfold senderEncryption. assert (forall m : Dec SignalDB (), advance t0 h db [] (on_signal m db).2) as Hs.
    { intros m. destruct (on_signal_keeps m db). by apply advance_same. }
    repeat case_match; cbn [snd]; try apply Hs; by apply advance_same. }
  destruct (senderEncryption d info lids db) as [[sej info1] db1]. cbn [snd] in H1.
  pose proof (children_advance h info1 sej (GetChildren n) (mkFlags false false false) db1) as Hc.
  destruct (decryptChildren _ _ _ _ _) as [[acts [fl| |]] db2].
  - change acts with ([] ++ acts) in Hc |- *. eapply advance_trans; [exact (advance_trans _ _ _ _ _ _ _ H1 Hc)|]. apply advance_same; [done|done|]. by repeat case_match; repeat constructor.
  - by apply (advance_trans _ _ _ [] db1).
  - eapply advance_trans; [exact (advance_trans _ _ _ _ _ _ _ H1 Hc)|]. apply advance_same; by repeat constructor.
Qed.
End Life.

(** ** Deliveries *)

(** A stanza arrives, again or for the first time, with what its handlers do; or
    old rows are deleted.  A process that dies after a handler has run is a
    statement that fails: the text was not cleared. *)
Inductive delivery {Certificate Details : Type} : Type :=
| Arrives (info : @MessageInfo Certificate Details) (n : node) (GetLIDForPN : JID -> option JID)
    (handleMessage : @MessageInfo Certificate Details -> Bytes -> Z -> DecDB -> option bool * DecDB)
    (handleArmadillo : @MessageInfo Certificate Details -> Bytes -> Z -> DecDB -> bool * bool * DecDB)
    (ctx_done : bool) (now : Time)
| Purges (now : Time).
Arguments delivery : clear implicits.

Section Deliveries.
Context (d : Dialect) (pick : forall A, list A -> option A).
Context (hkdf_SHA256 : Bytes -> Bytes -> Bytes -> Z -> Bytes) (sha256 : Bytes -> Bytes) (open : Bytes -> Bytes -> Bytes -> Bytes -> option Bytes).
Context {Msg : Type} (parsePreKey parseSignal parseSenderKey : Bytes -> option Msg).
Context (session_decrypt : bool -> string * Z -> Msg -> Dec SignalDB Bytes) (group_decrypt : string -> string * Z -> Msg -> Dec SignalDB Bytes).
Context (unmarshalSecret : Bytes -> option EncSecret) (EnableDecryptedEventBuffer AutoTrustIdentity : bool) (ownID ownLID : JID).
Context {Certificate Details : Type}.

Definition deliver (x : delivery Certificate Details) (db : DecDB) : list action * DecDB :=
  match x with
  | Arrives info n lids handleMessage handleArmadillo ctx_done now =>
      decryptMessages d pick hkdf_SHA256 sha256 open parsePreKey parseSignal parseSenderKey session_decrypt group_decrypt unmarshalSecret
        EnableDecryptedEventBuffer AutoTrustIdentity ownID ownLID handleMessage handleArmadillo ctx_done now info n lids db
  | Purges now => ([], (DeleteOldBufferedHashes now db).2)
  end.
Fixpoint deliver_all (l : list (delivery Certificate Details)) (db : DecDB) : list action * DecDB :=
  match l with
  | [] => ([], db)
  | x :: l => let '(acts, db) := deliver x db in let '(acts', db) := deliver_all l db in (acts ++ acts', db)
  end.
(** The handlers do not write to the buffer; everything happens within fourteen
    days from [t0] on. *)
Definition delivery_ok (t0 : Time) (x : delivery Certificate Details) : Prop :=
  match x with
  | Arrives _ _ _ handleMessage handleArmadillo _ now =>
      toUnixMilli t0 <= toUnixMilli now /\
      (forall i p n db, dc_buffer (handleMessage i p n db).2 = dc_buffer db /\ dc_faults (handleMessage i p n db).2 = dc_faults db) /\
      (forall i p n db, dc_buffer (handleArmadillo i p n db).2 = dc_buffer db /\ dc_faults (handleArmadillo i p n db).2 = dc_faults db)
  | Purges now => toUnixMilli (Add now (- (14 * 24 * Hour))) <= toUnixMilli t0
  end.

Notation decrypts_to := (decrypts_to d sha256 parsePreKey parseSignal parseSenderKey session_decrypt group_decrypt AutoTrustIdentity).
Notation advance := (advance decrypts_to).
Lemma purge_advance t0 h now db : toUnixMilli (Add now (- (14 * 24 * Hour))) <= toUnixMilli t0 -> inserted_after t0 h db ->
  advance t0 h db [] (DeleteOldBufferedHashes now db).2.
Proof.
  intros Hn Hi.
  assert (runs (DeleteOldBufferedHashes now) db (fun _ db' => dc_buffer db' !! h = dc_buffer db !! h) (fun db' => dc_buffer db' !! h = dc_buffer db !! h)) as Hr.
  { apply runs_execute; [done|]. intros fs. split; [|done]. apply option_eq. intros r.
    change (dc_buffer (set_db_faults fs db)) with (dc_buffer db). change (dc_buffer (_ <| dc_buffer := ?x |>)) with x.
    rewrite map_lookup_filter_Some. split; [by intros [? _]|]. intros H. split; [done|]. cbn. specialize (Hi r H). lia. }
  assert (dc_buffer (DeleteOldBufferedHashes now db).2 !! h = dc_buffer db !! h /\ (dc_faults db = [] -> dc_faults (DeleteOldBufferedHashes now db).2 = [])) as [Hb Hf].
  { unfold runs in Hr. destruct (DeleteOldBufferedHashes now db) as [[e|[]] db']; cbn [snd]; destruct Hr as [Hr Hf]; [|done]. split; [done|]. intros H. by destruct (Hf H). }
  split.
  - unfold phase. rewrite Hb. constructor.
  - intros _ r. rewrite Hb. apply Hi.
  - intros H. split; [auto|constructor].
Qed.
Lemma deliver_all_advance t0 h l : EnableDecryptedEventBuffer = true -> Forall (delivery_ok t0) l -> forall db, inserted_after t0 h db ->
  let '(acts, db') := deliver_all l db in advance t0 h db acts db'.
Proof.
  intros Hon. induction 1 as [|x l Hx Hl IH]; intros db Hi; cbn [deliver_all]; [by apply advance_same|].
  assert (let '(acts, db') := deliver x db in advance t0 h db acts db') as H1.
  { destruct x as [info n lids hm ha cd now|now]; cbn [deliver delivery_ok] in *; [|by apply purge_advance].
    destruct Hx as (Hn & Hm & Ha). rewrite Hon. by apply messages_advance. }
  destruct (deliver x db) as [acts db1]. specialize (IH db1 (adv_insert _ _ _ _ _ _ H1 Hi)).
  destruct (deliver_all l db1) as [acts' db2]. by eapply advance_trans.
Qed.
End Deliveries.

(** C3. With [EnableDecryptedEventBuffer] on, which is not the default: when a
    stanza is delivered any number of times, in whatever company and whatever
    statements fail, and the rows of that time are not yet fourteen days old when
    old rows are deleted, then the handlers (which do not write to the buffer) see
    one text of a message that was not in the buffer before: one that libsignal
    decrypted a ciphertext of its hash to, without the padding.  It is handed to
    them until they are done with it and it is cleared, and never after that.
    Without failing statements, it is handed over again only when a handler had
    failed, or the text did not parse. *)
Theorem message_handled_once d pick hkdf sha256 open {Msg} (parsePreKey parseSignal parseSenderKey : Bytes -> option Msg)
    session_decrypt group_decrypt unmarshalSecret EnableDecryptedEventBuffer AutoTrustIdentity ownID ownLID {Certificate Details} t0 h
    (l : list (delivery Certificate Details)) db :
  EnableDecryptedEventBuffer = true -> Forall (delivery_ok t0) l -> dc_buffer db !! h = None ->
  let '(trace, db') := deliver_all d pick hkdf sha256 open parsePreKey parseSignal parseSenderKey session_decrypt group_decrypt
    unmarshalSecret EnableDecryptedEventBuffer AutoTrustIdentity ownID ownLID l db in
  proj h trace = [] \/
  exists p tries rest, proj h trace = tries ++ rest /\
    decrypts_to d sha256 parsePreKey parseSignal parseSenderKey session_decrypt group_decrypt AutoTrustIdentity h p /\
    Forall (fun a => exists text hd, a = Handled (Some h) text hd /\ text_of p text /\ not_cleared hd = true /\
      (dc_faults db = [] -> hd = HandlerFailed \/ hd = Unparsed)) tries /\
    (rest = [] \/ exists text pf, rest = [Handled (Some h) text (Processed pf true)] /\ text_of p text).
Proof.
  intros Hon Hl Hb. pose proof (deliver_all_advance d pick hkdf sha256 open parsePreKey parseSignal parseSenderKey session_decrypt group_decrypt
    unmarshalSecret EnableDecryptedEventBuffer AutoTrustIdentity ownID ownLID t0 h l Hon Hl db ltac:(intros r; by rewrite Hb)) as Ha.
  destruct (deliver_all _ _ _ _ _ _ _ _ _ _ _ _ _ _ _ _ _) as [trace db']. destruct Ha as [Hlife _ Hf].
  unfold phase in Hlife at 1. rewrite Hb in Hlife. cbn in Hlife. inversion Hlife as [ph|p evs ph Hcame H|p text hd evs ph|p text pf]; subst; try done; [by left|right].
  destruct (life_shape _ _ _ _ _ H) as (tries & rest & He & Ht & Hr). exists p, tries, rest. split; [done|]. split; [done|]. split; [|done].
  apply Forall_forall. intros a Ha. rewrite Forall_forall in Ht. destruct (Ht a Ha) as (text & hd & -> & Htext & Hn).
  exists text, hd. split; [done|]. split; [done|]. split; [done|]. intros H0. destruct (Hf H0) as [_ Hc].
  assert (Handled (Some h) text hd ∈ trace) as Hin.
  { assert (Handled (Some h) text hd ∈ proj h trace) as Hin by (rewrite He; apply elem_of_app; by left). by apply list_elem_of_filter in Hin as [_ ?]. }
  unfold cleared_all in Hc. rewrite Forall_forall in Hc. specialize (Hc _ Hin). destruct hd; [by right|by left|]. cbn in Hc. by subst.
Qed.

(** C13. With [EnableDecryptedEventBuffer] on, which is not the default, a decryption
    that fails leaves the sessions, the keys and the buffer as they were; one that
    gives a text found it in the buffer and touched nothing, or libsignal made it
    of the ciphertext: then the signal tables are the ones libsignal left, and the
    buffer has a new row with the text.  With the option off, the text, the error
    and the tables are those of libsignal, whatever it left behind, and the buffer
    is not used. *)
Theorem decryption_atomic sha256 EnableDecryptedEventBuffer ciphertext ts now decrypt extra db :
  let h := sha256 (hash_input ciphertext extra) in
  let unchanged db' := dc_buffer db' = dc_buffer db /\ sessions (dc_signal db') = sessions (dc_signal db) /\
    identities (dc_signal db') = identities (dc_signal db) /\ senderKeys (dc_signal db') = senderKeys (dc_signal db) in
  let '(r, db') := bufferedDecrypt sha256 EnableDecryptedEventBuffer ciphertext ts now decrypt extra db in
  if EnableDecryptedEventBuffer then
    match r with
    | inl _ => unchanged db'
    | inr (p, h') => h' = h /\
        (br_plaintext <$> dc_buffer db !! h = Some (Some p) /\ unchanged db' \/
         dc_buffer db !! h = None /\ decrypt (dc_signal db) = (inr p, dc_signal db') /\
         dc_buffer db' = <[h := mkBufferRow (Some p) (toUnix ts) (toUnixMilli now)]> (dc_buffer db))
    end
  else
    dc_buffer db' = dc_buffer db /\
    match r with
    | inl e => decrypt (dc_signal db) = (inl e, dc_signal db')
    | inr (p, h') => decrypt (dc_signal db) = (inr p, dc_signal db') /\ h' = zero_hash
    end.
Proof.
  intros h unchanged. destruct EnableDecryptedEventBuffer.
  - pose proof (bufferedDecrypt_spec sha256 ciphertext ts now decrypt extra db) as Hs. cbn zeta in Hs. fold h in Hs.
    destruct (bufferedDecrypt _ _ _ _ _ _ _ _) as [[e|[p h']] db']; by destruct Hs as [_ Hs].
  - cbn. unfold mbind, Dec_bind, on_signal. by destruct (decrypt (dc_signal db)) as [[e|p] s].
Qed.

(** ** The theorems at work *)

Definition demo_sha (x : Bytes) : Bytes := take 32 (x ++ replicate 32 0).
Definition demo_db (faults : list bool) : DecDB := mkDecDB (mkSignalDB ∅ ∅ ∅ ∅ []) demo_account ∅ 0 faults.
Definition demo_info : @MessageInfo () () :=
  mkInfo (zeroSource <| Sender := demo_lid_jid |> <| Chat := demo_lid_jid |>) "3EB0" 0 "text" "" (Unix 1700000000) "" false "" ""
    zeroBotInfo zeroMetaInfo None.
Definition demo_stanza : node :=
  mkNode "message" [] (VNodes [mkNode "enc" [("type", VString "msg"); ("v", VString "2")] (VBytes "c")]).
Definition demo_hash : Bytes := demo_sha (hash_input (codes "c") ["normal"; String_ demo_lid_jid]).
(** It arrives three times; the first time a handler fails. *)
Definition demo_deliveries : list (delivery () ()) :=
  (fun failed => Arrives demo_info demo_stanza (fun _ => None) (fun _ _ _ db => (Some failed, db)) (fun _ _ _ db => (failed, false, db)) false (Unix 1700000001))
    <$> [true; false; false].
Definition demo_cipher : Dec SignalDB Bytes := mret [104; 1].
Definition demo_run (faults : list bool) : list action * DecDB :=
  deliver_all SQLite first_row demo_hkdf demo_sha demo_open Some Some Some (fun _ _ _ => demo_cipher) (fun _ _ _ => demo_cipher) (fun _ => None)
    true true demo_pn_jid demo_lid_jid demo_deliveries (demo_db faults).

Example demo_runs :
  (demo_run []).1 = [Handled (Some demo_hash) [104] HandlerFailed; Handled (Some demo_hash) [104] (Processed false true); StartPurge; SendReceipt; SendReceipt] /\
  (* the statement that clears the text fails *)
  (demo_run [false; false; false; false; false; true]).1 =
    [Handled (Some demo_hash) [104] HandlerFailed; Handled (Some demo_hash) [104] (Processed false false); StartPurge; SendReceipt;
     Handled (Some demo_hash) [104] (Processed false true); SendReceipt].
Proof. split; vm_compute; reflexivity. Qed.

Lemma unpad_padMessage_witness : unpadMessage (padMessage [104; 105] 16) 2 = Some [104; 105].
Proof. apply unpad_padMessage. done. Defined.
Lemma hash_input_injective_witness :
  [1; 0] = [1; 0] /\ FromGroup "1@g.us" "77@lid" = FromGroup "1@g.us" "77@lid".
Proof. apply hash_input_injective; [done|done|reflexivity]. Defined.
Lemma message_handled_once_witness :
  let '(trace, db') := demo_run [] in
  proj demo_hash trace = [] \/
  exists p tries rest, proj demo_hash trace = tries ++ rest /\
    decrypts_to SQLite demo_sha Some Some Some (fun _ _ _ => demo_cipher) (fun _ _ _ => demo_cipher) true demo_hash p /\
    Forall (fun a => exists text hd, a = Handled (Some demo_hash) text hd /\ text_of p text /\ not_cleared hd = true /\
      (dc_faults (demo_db []) = [] -> hd = HandlerFailed \/ hd = Unparsed)) tries /\
    (rest = [] \/ exists text pf, rest = [Handled (Some demo_hash) text (Processed pf true)] /\ text_of p text).
Proof.
  apply (message_handled_once SQLite first_row demo_hkdf demo_sha demo_open Some Some Some (fun _ _ _ => demo_cipher) (fun _ _ _ => demo_cipher)
    (fun _ => None) true true demo_pn_jid demo_lid_jid (Unix 1700000000) demo_hash demo_deliveries (demo_db [])); [done| |done].
  repeat constructor; vm_compute; discriminate.
Defined.
