(* ===== verification/DeviceStore.v ===== *)
(** * [whatsmeow/store/store.go] and [store/sqlstore/container.go]: the devices

    The device of a client and the table that keeps devices.  The tables of an
    account refer to the row of its device; one of them, the identities, stands
    for them all here.  The public key of a private one, the random bytes and
    the signatures are parameters. *)
From S2P Require Import Prelude GoStrings GoTime Jid BinaryNode FrameSocket Noise PreKeys LidMap SqlDB.

(** ** Devices *)

(** [waAdv.ADVSignedDeviceIdentity]; [None] is a field that is not set. *)
Record SignedDeviceIdentity : Type := mkIdentity {
  Details : option Bytes;
  AccountSignatureKey : option Bytes;
  AccountSignature : option Bytes;
  DeviceSignature : option Bytes }.
#[export] Instance eta_SignedDeviceIdentity : Eta SignedDeviceIdentity := fun r =>
  mkIdentity (Details r) (AccountSignatureKey r) (AccountSignature r) (DeviceSignature r).

(** The stores of a device: none yet, those of an account by the text of its
    JID, or the ones that refuse everything. *)
Inductive Stores : Type :=
| NilStores
| SQLStore (jid : string)
| NoopStore.

Record Device : Type := mkDevice {
  NoiseKey : Noise.KeyPair;
  IdentityKey : Noise.KeyPair;
  SignedPreKey : PreKey;
  RegistrationID : Z;
  AdvSecretKey : Bytes;
  ID : option JID;
  LID : JID;
  Account : option SignedDeviceIdentity;
  Platform : string;
  BusinessName : string;
  PushName : string;
  LIDMigrationTimestamp : Z;
  FacebookUUID : Bytes;
  Initialized : bool;
  Deleted : bool;
  stores : Stores }.
#[export] Instance eta_Device : Eta Device := fun r =>
  mkDevice (NoiseKey r) (IdentityKey r) (SignedPreKey r) (RegistrationID r) (AdvSecretKey r) (ID r) (LID r) (Account r)
    (Platform r) (BusinessName r) (PushName r) (LIDMigrationTimestamp r) (FacebookUUID r) (Initialized r) (Deleted r) (stores r).

(** The receiver may be nil. *)
Definition GetJID (device : option Device) : JID :=
  match device with
  | None => EmptyJID
  | Some device => match ID device with None => EmptyJID | Some id => id end
  end.
Definition GetLID (device : option Device) : JID :=
  match device with None => EmptyJID | Some device => LID device end.

(** The LID map is set with the stores. *)
Definition GetAltJID (device : option Device) (jid : JID) (s : CachedLIDMap) : outcome (option lid_error * JID * CachedLIDMap) :=
  match device with
  | None => Ret (None, EmptyJID, s)
  | Some device =>
      if String.eqb (Server jid) DefaultUserServer then
        if Initialized device then Ret (GetLIDForPN jid s) else Panic "nil pointer dereference"
      else if String.eqb (Server jid) HiddenUserServer then
        if Initialized device then Ret (GetPNForLID jid s) else Panic "nil pointer dereference"
      else Ret (None, EmptyJID, s)
  end.

Definition SetAllStores (s : Stores) (device : Device) : Device := device <| stores := s |>.

(** ** Tables *)

Record DeviceRow : Type := mkDeviceRow {
  dr_jid : option string;
  dr_lid : option string;
  dr_registration_id : Z;
  dr_noise_key : Bytes;
  dr_identity_key : Bytes;
  dr_signed_pre_key : Bytes;
  dr_signed_pre_key_id : Z;
  dr_signed_pre_key_sig : Bytes;
  dr_adv_key : Bytes;
  dr_adv_details : Bytes;
  dr_adv_account_sig : Bytes;
  dr_adv_account_sig_key : Bytes;
  dr_adv_device_sig : Bytes;
  dr_platform : string;
  dr_business_name : string;
  dr_push_name : string;
  dr_facebook_uuid : option Bytes;
  dr_lid_migration_ts : Z }.
#[export] Instance eta_DeviceRow : Eta DeviceRow := fun r =>
  mkDeviceRow (dr_jid r) (dr_lid r) (dr_registration_id r) (dr_noise_key r) (dr_identity_key r) (dr_signed_pre_key r)
    (dr_signed_pre_key_id r) (dr_signed_pre_key_sig r) (dr_adv_key r) (dr_adv_details r) (dr_adv_account_sig r)
    (dr_adv_account_sig_key r) (dr_adv_device_sig r) (dr_platform r) (dr_business_name r) (dr_push_name r)
    (dr_facebook_uuid r) (dr_lid_migration_ts r).

Record DeviceDB : Type := mkDeviceDB {
  devices : list DeviceRow;
  identities : gmap (string * string) Bytes;
  dv_faults : list bool }.
#[export] Instance eta_DeviceDB : Eta DeviceDB := fun r => mkDeviceDB (devices r) (identities r) (dv_faults r).
#[export] Instance DeviceDB_faulty : Faulty DeviceDB := {
  db_faults := dv_faults; set_db_faults fs db := db <| dv_faults := fs |>; set_get_faults db := ltac:(by destruct db);
  get_set_faults _ _ := eq_refl }.

(** The CHECK constraints.  The key is NOT NULL in PostgreSQL only: SQLite takes
    a NULL in a primary key of type TEXT. *)
Definition row_allowed (d : Dialect) (r : DeviceRow) : bool :=
  (bool_decide (d = SQLite) || bool_decide (is_Some (dr_jid r))) &&
  in_range 0 (2 ^ 32 - 1) (dr_registration_id r) &&
  (length (dr_noise_key r) =? 32)%nat && (length (dr_identity_key r) =? 32)%nat && (length (dr_signed_pre_key r) =? 32)%nat &&
  in_range 0 (2 ^ 24 - 1) (dr_signed_pre_key_id r) && (length (dr_signed_pre_key_sig r) =? 64)%nat &&
  (length (dr_adv_account_sig r) =? 64)%nat && (length (dr_adv_account_sig_key r) =? 32)%nat &&
  (length (dr_adv_device_sig r) =? 64)%nat.

(** [insertDeviceQuery]: of a row that is there, five columns are updated.  No
    two NULLs are in conflict. *)
Definition update_row (new old : DeviceRow) : DeviceRow :=
  old <| dr_lid := dr_lid new |> <| dr_platform := dr_platform new |> <| dr_business_name := dr_business_name new |>
      <| dr_push_name := dr_push_name new |> <| dr_lid_migration_ts := dr_lid_migration_ts new |>.
Definition same_key (k : string) (r : DeviceRow) : bool := bool_decide (dr_jid r = Some k).
Definition insert_row (new : DeviceRow) (t : list DeviceRow) : list DeviceRow :=
  match dr_jid new with
  | Some k => if existsb (same_key k) t then map (fun r => if same_key k r then update_row new r else r) t else t ++ [new]
  | None => t ++ [new]
  end.

Inductive device_error : Type :=
| ErrDeviceIDMustBeSet
| ErrDeviceDeleted
| ErrStore (e : store_error).

Definition nil_dereference : string := "invalid memory address or nil pointer dereference".
Definition uuid_Nil : Bytes := repeat 0 16.

Section Container.
Context (d : Dialect) (ScalarBaseMult : Bytes -> Bytes).
(** A signature with a private key, as it came out. *)
Context (CalculateSignature : Bytes -> Bytes -> Bytes).

Definition pair_of (priv : Bytes) : Noise.KeyPair := Noise.mkKeyPair (ScalarBaseMult priv) priv.
Definition NewKeyPair (random : Bytes) : Noise.KeyPair := pair_of (clamp random).

(** The type byte of the curve comes first. *)
Definition Sign (kp : Noise.KeyPair) (keyToSign : Bytes) : Bytes := CalculateSignature (Noise.Priv kp) (5 :: keyToSign).
Definition CreateSignedPreKey (kp : Noise.KeyPair) (random : Bytes) (keyID : Z) : PreKey :=
  let newKey := NewPreKey ScalarBaseMult random keyID in
  mkPreKey (Pub newKey) (Priv newKey) (KeyID newKey) (Some (Sign kp (Pub newKey))).

(** ** The container *)

Definition NewDevice (noiseRandom identityRandom preKeyRandom : Bytes) (registrationID : Z) (advSecretKey : Bytes) : Device :=
  let identityKey := NewKeyPair identityRandom in
  mkDevice (NewKeyPair noiseRandom) identityKey (CreateSignedPreKey identityKey preKeyRandom 1) registrationID advSecretKey
    None EmptyJID None "" "" "" 0 uuid_Nil false false NilStores.

Definition initializeDevice (device : Device) : outcome Device :=
  match ID device with
  | None => Panic nil_dereference
  | Some id => Ret ((SetAllStores (SQLStore (String_ id)) device) <| Initialized := true |>)
  end.

(** A column into a JID. *)
Definition scan_jid (v : option string) : option JID :=
  match Scan (match v with Some s => SqlString s | None => SqlNil end) EmptyJID with (j, None) => Some j | (_, Some _) => None end.
(** A column into a pointer to one: NULL is nil. *)
Definition scan_jid_ptr (v : option string) : option (option JID) :=
  match v with None => Some None | Some _ => Some <$> scan_jid v end.
(** A column into an [uint32]. *)
Definition scan_uint32 (z : Z) : option Z := if in_range 0 (2 ^ 32 - 1) z then Some z else None.

Definition scan_columns (r : DeviceRow) : option Device :=
  id ← scan_jid_ptr (dr_jid r);
  lid ← scan_jid (dr_lid r);
  reg ← scan_uint32 (dr_registration_id r);
  keyID ← scan_uint32 (dr_signed_pre_key_id r);
  Some (mkDevice (pair_of (dr_noise_key r)) (pair_of (dr_identity_key r))
    (mkPreKey (ScalarBaseMult (dr_signed_pre_key r)) (dr_signed_pre_key r) keyID (Some (dr_signed_pre_key_sig r)))
    reg (dr_adv_key r) id lid
    (Some (mkIdentity (Some (dr_adv_details r)) (Some (dr_adv_account_sig_key r)) (Some (dr_adv_account_sig r)) (Some (dr_adv_device_sig r))))
    (dr_platform r) (dr_business_name r) (dr_push_name r) (dr_lid_migration_ts r)
    (default uuid_Nil (dr_facebook_uuid r)) false false NilStores).
Definition bad_lengths (r : DeviceRow) : bool :=
  negb (length (dr_noise_key r) =? 32)%nat || negb (length (dr_identity_key r) =? 32)%nat ||
  negb (length (dr_signed_pre_key r) =? 32)%nat || negb (length (dr_signed_pre_key_sig r) =? 64)%nat.
Definition scanDevice (r : DeviceRow) : outcome (store_error + Device) :=
  match scan_columns r with
  | None => Ret (inl ErrScan)
  | Some device => if bad_lengths r then Ret (inl ErrInvalidLength) else device ← initializeDevice device; Ret (inr device)
  end.

(** The rows as the database lists them; the first row that cannot be read ends
    the list. *)
Fixpoint scan_all (rows : list DeviceRow) : outcome (store_error + list Device) :=
  match rows with
  | [] => Ret (inr [])
  | r :: rows =>
      x ← scanDevice r;
      match x with
      | inl e => Ret (inl e)
      | inr device => l ← scan_all rows; Ret (match l with inl e => inl e | inr l => inr (device :: l) end)
      end
  end.
Definition GetAllDevices (db : DeviceDB) : outcome ((store_error + list Device) * DeviceDB) :=
  match select devices db with
  | (inl e, db) => Ret (inl e, db)
  | (inr rows, db) => l ← scan_all rows; Ret (l, db)
  end.
(** [fresh] is the new device, should there be none. *)
Definition GetFirstDevice (fresh : Device) (db : DeviceDB) : outcome ((store_error + Device) * DeviceDB) :=
  '(l, db) ← GetAllDevices db;
  Ret (match l with inl e => inl e | inr l => inr (match l with [] => fresh | device :: _ => device end) end, db).

Definition row_of_jid (jid : JID) (db : DeviceDB) : option DeviceRow :=
  match jid_key jid with Some k => find (same_key k) (devices db) | None => None end.
Definition GetDevice (jid : JID) (db : DeviceDB) : outcome ((store_error + option Device) * DeviceDB) :=
  match select (row_of_jid jid) db with
  | (inl e, db) => Ret (inl e, db)
  | (inr None, db) => Ret (inr None, db)
  | (inr (Some r), db) => x ← scanDevice r; Ret (match x with inl e => inl e | inr device => inr (Some device) end, db)
  end.

(** The values of the statement; [None] where a column that is NOT NULL gets
    nil. *)
Definition device_row (id : JID) (device : Device) (account : SignedDeviceIdentity) (sig : Bytes) : option DeviceRow :=
  details ← Details account; accountSig ← AccountSignature account; accountSigKey ← AccountSignatureKey account;
  deviceSig ← DeviceSignature account;
  Some (mkDeviceRow (jid_key id) (jid_key (LID device)) (RegistrationID device) (Noise.Priv (NoiseKey device))
    (Noise.Priv (IdentityKey device)) (Priv (SignedPreKey device)) (KeyID (SignedPreKey device)) sig (AdvSecretKey device)
    details accountSig accountSigKey deviceSig (Platform device) (BusinessName device) (PushName device)
    (if bool_decide (FacebookUUID device = uuid_Nil) then None else Some (FacebookUUID device)) (LIDMigrationTimestamp device)).
Definition insertDevice (row : option DeviceRow) : Stmt DeviceDB () :=
  execute_checked (fun db => match row with
    | Some r => if row_allowed d r then Some (db <| devices := insert_row r (devices db) |>) else None
    | None => None
    end).

(** The device gets its stores whether the statement succeeds or not. *)
Definition PutDevice (device : Device) (db : DeviceDB) : outcome (option device_error * Device * DeviceDB) :=
  match ID device with
  | None => Ret (Some ErrDeviceIDMustBeSet, device, db)
  | Some id =>
      match Signature (SignedPreKey device), Account device with
      | Some sig, Some account =>
          let '(r, db) := insertDevice (device_row id device account sig) db in
          device ← (if negb (Initialized device) then initializeDevice device else Ret device);
          Ret (match r with inl e => Some (ErrStore e) | inr _ => None end, device, db)
      | _, _ => Panic nil_dereference
      end
  end.

(** What refers to the row goes with it. *)
Definition remove_device (jid : JID) (db : DeviceDB) : DeviceDB :=
  match jid_key jid with
  | Some k => db <| devices := filter (fun r => same_key k r = false) (devices db) |>
                 <| identities := filter (fun e : string * string * Bytes => e.1.1 <> k) (identities db) |>
  | None => db
  end.
Definition DeleteDevice (device : Device) (db : DeviceDB) : option device_error * DeviceDB :=
  match ID device with
  | None => (Some ErrDeviceIDMustBeSet, db)
  | Some id => match execute (remove_device id) db with
               | (inl e, db) => (Some (ErrStore e), db)
               | (inr _, db) => (None, db)
               end
  end.

(** ** [Device] *)

Definition Save (device : Device) (db : DeviceDB) : outcome (option device_error * Device * DeviceDB) :=
  if Deleted device then Ret (Some ErrDeviceDeleted, device, db) else PutDevice device db.

Definition Delete (device : Device) (db : DeviceDB) : option device_error * Device * DeviceDB :=
  if Deleted device then (None, device, db)
  else match DeleteDevice device db with
       | (Some e, db) => (Some e, device, db)
       | (None, db) => (None, SetAllStores NoopStore (device <| ID := None |> <| LID := EmptyJID |> <| Deleted := true |>), db)
       end.

(** [PutIdentity] of the device's stores; the row of the device has to exist. *)
Definition PutIdentity (device : Device) (address : string) (key : Bytes) (db : DeviceDB) : outcome (option device_error * DeviceDB) :=
  match stores device with
  | NilStores => Panic nil_dereference
  | NoopStore => Ret (Some ErrDeviceDeleted, db)
  | SQLStore k =>
      let '(r, db) := execute_checked (fun db =>
        if existsb (same_key k) (devices db) && (length key =? 32)%nat
        then Some (db <| identities := <[(k, address) := key]> (identities db) |>) else None) db in
      Ret (match r with inl e => Some (ErrStore e) | inr _ => None end, db)
  end.
End Container.

(** ** The table *)

Lemma find_insert k new t :
  dr_jid new = Some k ->
  find (same_key k) (insert_row new t) = Some (match find (same_key k) t with Some old => update_row new old | None => new end).
Proof.
  intros Hk. assert (same_key k new = true) as Hn by (unfold same_key; by rewrite bool_decide_true).
  unfold insert_row. rewrite Hk. destruct (existsb (same_key k) t) eqn:He.
  - induction t as [|r t IH]; [done|]. cbn in *. destruct (same_key k r) eqn:Hr; cbn [find].
    + assert (same_key k (update_row new r) = true) as -> by done. done.
    + rewrite Hr. by apply IH.
  - induction t as [|r t IH]; cbn in *; [by rewrite Hn|]. apply orb_false_iff in He as [Hr He]. rewrite Hr. by apply IH.
Qed.
Lemma find_insert_other k k' new t :
  dr_jid new = Some k -> k' <> k -> find (same_key k') (insert_row new t) = find (same_key k') t.
Proof.
  intros Hk Hne. assert (same_key k' new = false) as Hn by (unfold same_key; rewrite bool_decide_false; [done|congruence]).
  unfold insert_row. rewrite Hk. destruct (existsb (same_key k) t).
  - induction t as [|r t IH]; [done|]. cbn. destruct (same_key k r) eqn:Hr; [|by destruct (same_key k' r)].
    unfold same_key in Hr. apply bool_decide_eq_true in Hr.
    assert (same_key k' r = false) as Hr' by (unfold same_key; rewrite bool_decide_false; [done|congruence]).
    assert (same_key k' (update_row new r) = false) as -> by done. rewrite Hr'. done.
  - induction t as [|r t IH]; cbn; [by rewrite Hn|]. by destruct (same_key k' r).
Qed.
Lemma find_remove k k' t :
  find (same_key k') (filter (fun r => same_key k r = false) t) = if bool_decide (k' = k) then None else find (same_key k') t.
Proof.
  induction t as [|r t IH]; [by destruct (bool_decide _)|]. rewrite filter_cons. destruct (decide _) as [Hr|Hr]; cbn [find].
  - destruct (same_key k' r) eqn:Hr'; [|done]. rewrite bool_decide_false; [done|]. intros ->. congruence.
  - rewrite IH. destruct (same_key k' r) eqn:Hr'; [|done]. apply not_false_is_true in Hr.
    unfold same_key in *. apply bool_decide_eq_true in Hr, Hr'. by rewrite bool_decide_true by congruence.
Qed.


(** ** What is saved comes back *)

Section Saved.
Context (d : Dialect) (ScalarBaseMult : Bytes -> Bytes).
Notation scanDevice := (scanDevice ScalarBaseMult).
Notation GetDevice := (GetDevice ScalarBaseMult).
Notation pair_of := (pair_of ScalarBaseMult).

(** A new device that was paired: it has a JID, its key pairs are pairs, and the
    table takes its values. *)
Record paired_device (device : Device) (id : JID) : Prop := mkPaired {
  pd_id : ID device = Some id /\ named id;
  pd_lid : LID device = EmptyJID \/ named (LID device);
  pd_noise : NoiseKey device = pair_of (Noise.Priv (NoiseKey device));
  pd_identity : IdentityKey device = pair_of (Noise.Priv (IdentityKey device));
  pd_pre_key : Pub (SignedPreKey device) = ScalarBaseMult (Priv (SignedPreKey device));
  pd_new : Initialized device = false /\ Deleted device = false;
  pd_row : exists account sig row, Account device = Some account /\ Signature (SignedPreKey device) = Some sig /\
    device_row id device account sig = Some row /\ row_allowed d row = true }.

Definition initialised (id : JID) (device : Device) : Device :=
  (SetAllStores (SQLStore (String_ id)) device) <| Initialized := true |>.

Lemma scan_lid j : j = EmptyJID \/ named j -> scan_jid (jid_key j) = Some j.
Proof. intros [->|Hn]; [done|]. unfold scan_jid. rewrite named_key by done. by rewrite named_scan. Qed.

Lemma row_allowed_spec r :
  row_allowed d r = true -> bad_lengths r = false /\
  scan_uint32 (dr_registration_id r) = Some (dr_registration_id r) /\ scan_uint32 (dr_signed_pre_key_id r) = Some (dr_signed_pre_key_id r).
Proof.
  unfold row_allowed, bad_lengths, scan_uint32, in_range. rewrite !andb_true_iff. intros H. destruct_and! H.
  repeat match goal with H : (_ =? _)%nat = true |- _ => rewrite H; clear H end.
  repeat match goal with H : (_ <=? _) = true |- _ => apply Z.leb_le in H end.
  split; [done|]. split; rewrite (proj2 (andb_true_iff _ _)); try done; split; apply Z.leb_le; lia.
Qed.

Lemma scan_saved device id account sig row :
  paired_device device id -> Account device = Some account -> Signature (SignedPreKey device) = Some sig ->
  device_row id device account sig = Some row -> row_allowed d row = true ->
  scanDevice row = Ret (inr (initialised id device)).
Proof.
  intros [[Hid Hn] Hl Hnk Hik Hpk [Hin Hdel] _] Ha Hs Hr Hok. unfold scanDevice.
  destruct (row_allowed_spec row Hok) as (Hb & Hreg & Hkey). rewrite Hb. clear Hok Hb.
  destruct account as [[details|] [ask|] [asig|] [ds|]]; try done. cbn in Hr. injection Hr as <-. cbn in Hreg, Hkey.
  unfold scan_columns. cbn [dr_jid dr_lid dr_registration_id dr_signed_pre_key_id]. rewrite Hreg, Hkey, scan_lid by done.
  rewrite named_key by done. cbn [scan_jid_ptr]. unfold scan_jid. rewrite named_scan by done. cbn.
  unfold initializeDevice, initialised, SetAllStores. cbn. f_equal. f_equal.
  destruct device as [nk ik spk reg adv id0 lid acc plat biz push ts uuid ini del st]. cbn in *. subst.
  destruct spk as [pub priv kid sg]. cbn in *. subst. cbn. cbn.
  rewrite <- Hnk, <- Hik. case_bool_decide; subst; done.
Qed.

(** What the table keeps of a device when another one is saved under its JID. *)
Definition merged (new old : Device) : Device :=
  old <| LID := LID new |> <| Platform := Platform new |> <| BusinessName := BusinessName new |> <| PushName := PushName new |>
      <| LIDMigrationTimestamp := LIDMigrationTimestamp new |>.

Lemma save_ok device id db :
  paired_device device id -> dv_faults db = [] ->
  exists row, dr_jid row = Some (String_ id) /\ scanDevice row = Ret (inr (initialised id device)) /\
    Save d device db = Ret (None, initialised id device, db <| devices := insert_row row (devices db) |>).
Proof.
  intros Hp Hf. pose proof Hp as [[Hid Hn] _ _ _ _ [Hin Hdel] (account & sig & row & Ha & Hs & Hr & Hok)].
  exists row. split; [|split; [by eapply scan_saved|]].
  - destruct account as [[?|] [?|] [?|] [?|]]; try done. injection Hr as <-. by apply named_key.
  - unfold Save, PutDevice, insertDevice. rewrite Hdel, Hid, Hs, Ha, Hr.
    rewrite (execute_checked_ok _ _ (db <| devices := insert_row row (devices db) |>)) by (done || by rewrite Hok).
    rewrite Hin. unfold initializeDevice. by rewrite Hid.
Qed.

Lemma get_row id db : named id -> dv_faults db = [] ->
  GetDevice id db = match find (same_key (String_ id)) (devices db) with
    | None => Ret (inr None, db)
    | Some r => x ← scanDevice r; Ret (match x with inl e => inl e | inr device => inr (Some device) end, db)
    end.
Proof. intros Hn Hf. unfold GetDevice, row_of_jid. by rewrite select_ok, named_key. Qed.

Lemma get_other row id other db :
  dr_jid row = Some (String_ id) -> named id -> named other -> other <> id -> dv_faults db = [] ->
  let db' := db <| devices := insert_row row (devices db) |> in
  GetDevice other db' = (r ← GetDevice other db; Ret (r.1, db')).
Proof.
  intros Hr Hn Ho Hne Hf db'. rewrite !get_row by done. unfold db' at 1. cbn [devices].
  change (devices (db <| devices := ?x |>)) with x. rewrite (find_insert_other (String_ id)).
  - destruct (find _ _); [|done]. by destruct (scanDevice _) as [[]|].
  - done.
  - by intros ?%named_inj.
Qed.

(** A device saved under a new JID is the one that is loaded under it, but
    for its stores; other JIDs load what they loaded before. *)
Theorem saved_device_loads device id db :
  paired_device device id -> dv_faults db = [] -> GetDevice id db = Ret (inr None, db) ->
  exists db', Save d device db = Ret (None, initialised id device, db') /\
    GetDevice id db' = Ret (inr (Some (initialised id device)), db') /\
    forall other, named other -> other <> id -> GetDevice other db' = (r ← GetDevice other db; Ret (r.1, db')).
Proof.
  intros Hp Hf Hnone. destruct (save_ok device id db Hp Hf) as (row & Hk & Hscan & Hs). pose proof Hp as [[_ Hn] _ _ _ _ _ _].
  rewrite get_row in Hnone by done. destruct (find _ _) eqn:Hfind; [by destruct (scanDevice d0) as [[]|]|].
  eexists. split; [exact Hs|]. split; [|intros other Ho Hne; by apply (get_other row id)].
  rewrite get_row by done. change (devices (db <| devices := ?x |>)) with x. by rewrite (find_insert (String_ id)), Hfind, Hscan by done.
Qed.

Lemma scan_updated new old n o :
  scanDevice new = Ret (inr n) -> scanDevice old = Ret (inr o) -> scanDevice (update_row new old) = Ret (inr (merged n o)).
Proof.
  unfold scanDevice, scan_columns. change (dr_jid (update_row new old)) with (dr_jid old).
  change (dr_lid (update_row new old)) with (dr_lid new).
  change (dr_registration_id (update_row new old)) with (dr_registration_id old).
  change (dr_signed_pre_key_id (update_row new old)) with (dr_signed_pre_key_id old).
  change (bad_lengths (update_row new old)) with (bad_lengths old).
  destruct (scan_jid_ptr (dr_jid new)) as [[|]|]; cbn [mbind option_bind]; [| |done];
  (destruct (scan_jid (dr_lid new)); cbn [mbind option_bind]; [|done]);
  (destruct (scan_uint32 (dr_registration_id new)); cbn [mbind option_bind]; [|done]);
  (destruct (scan_uint32 (dr_signed_pre_key_id new)); cbn [mbind option_bind]; [|done]);
  (destruct (bad_lengths new); [done|]); [|done].
  destruct (scan_jid_ptr (dr_jid old)) as [[|]|]; cbn [mbind option_bind]; [| |done];
  (destruct (scan_jid (dr_lid old)); cbn [mbind option_bind]; [|done]);
  (destruct (scan_uint32 (dr_registration_id old)); cbn [mbind option_bind]; [|done]);
  (destruct (scan_uint32 (dr_signed_pre_key_id old)); cbn [mbind option_bind]; [|done]);
  (destruct (bad_lengths old); [done|]); [|done].
  intros [= <-] [= <-]. done.
Qed.

(** A device saved under a JID that the table has leaves the keys of the old
    one there: what is loaded next is the old device with the new LID, names,
    platform and time of migration. *)
Theorem resaved_device_keeps_keys device id old db :
  paired_device device id -> dv_faults db = [] -> GetDevice id db = Ret (inr (Some old), db) ->
  exists db', Save d device db = Ret (None, initialised id device, db') /\
    GetDevice id db' = Ret (inr (Some (merged device old)), db').
Proof.
  intros Hp Hf Hold. destruct (save_ok device id db Hp Hf) as (row & Hk & Hscan & Hs). pose proof Hp as [[_ Hn] _ _ _ _ _ _].
  rewrite get_row in Hold by done. destruct (find _ _) as [r|] eqn:Hfind; [|done].
  destruct (scanDevice r) as [[e|o]|] eqn:Ho; [done| |done]. injection Hold as ->.
  eexists. split; [exact Hs|]. rewrite get_row by done. change (devices (db <| devices := ?x |>)) with x.
  rewrite (find_insert (String_ id)), Hfind by done. by rewrite (scan_updated _ _ _ _ Hscan Ho).
Qed.

(** A device that is deleted is not found again, its identities are gone with
    it, and nothing of another JID is. *)
Theorem deleted_device_gone device id db :
  ID device = Some id -> named id -> Deleted device = false -> dv_faults db = [] ->
  exists device' db', Delete device db = (None, device', db') /\ ID device' = None /\ Deleted device' = true /\
    (forall db'', Save d device' db'' = Ret (Some ErrDeviceDeleted, device', db'')) /\
    GetDevice id db' = Ret (inr None, db') /\
    (forall a, identities db' !! (String_ id, a) = None) /\
    (forall other, named other -> other <> id -> GetDevice other db' = (r ← GetDevice other db; Ret (r.1, db'))) /\
    (forall k a, k <> String_ id -> identities db' !! (k, a) = identities db !! (k, a)).
Proof.
  intros Hid Hn Hdel Hf. unfold Delete, DeleteDevice. rewrite Hdel, Hid, execute_ok by done. unfold remove_device. rewrite named_key by done.
  eexists _, _. split; [done|]. do 3 (split; [done|]). change (devices (db <| devices := ?x |> <| identities := ?y |>)) with x.
  change (identities (db <| devices := ?x |> <| identities := ?y |>)) with y. split; [|split; [|split]].
  - rewrite get_row by done. change (devices (db <| devices := ?x |> <| identities := ?y |>)) with x. by rewrite find_remove, bool_decide_true.
  - intros a. apply map_lookup_filter_None_2. right. intros v _ Hne. by apply Hne.
  - intros other Ho Hne. rewrite !get_row by done. change (devices (db <| devices := ?x |> <| identities := ?y |>)) with x.
    rewrite find_remove, bool_decide_false by (by intros ?%named_inj). destruct (find _ _); [|done]. by destruct (scanDevice _) as [[]|].
  - intros k a Hne. rewrite map_lookup_filter. destruct (identities db !! (k, a)); [|done]. cbn. by rewrite option_guard_True.
Qed.
End Saved.

(** SQLite takes a device whose JID has no server; every list of the devices
    panics from then on. *)
Theorem null_device_panics ScalarBaseMult device id db :
  paired_device SQLite ScalarBaseMult device id -> dv_faults db = [] ->
  (forall r, r ∈ devices db -> exists x, scanDevice ScalarBaseMult r = Ret (inr x)) ->
  exists db' x, Save SQLite (device <| ID := Some EmptyJID |>) db = Ret (None, x, db') /\
    panics (GetAllDevices ScalarBaseMult db').
Proof.
  intros [[Hid Hn] Hl Hnk Hik Hpk [Hin Hdel] (account & sig & row & Ha & Hs & Hr & Hok)] Hf Hall.
  unfold Save, PutDevice, insertDevice. cbn [ID Deleted Signature SignedPreKey Account Initialized].
  assert (device_row EmptyJID (device <| ID := Some EmptyJID |>) account sig = Some (row <| dr_jid := None |>)) as Hr'.
  { destruct account as [[?|] [?|] [?|] [?|]]; try done. injection Hr as <-. done. }
  assert (row_allowed SQLite (row <| dr_jid := None |>) = true) as Hok' by exact Hok.
  change (Deleted (device <| ID := ?x |>)) with (Deleted device). change (ID (device <| ID := ?x |>)) with x.
  change (SignedPreKey (device <| ID := ?x |>)) with (SignedPreKey device). change (Account (device <| ID := ?x |>)) with (Account device).
  change (Initialized (device <| ID := ?x |>)) with (Initialized device). rewrite Hdel, Hs, Ha, Hr', Hin.
  rewrite (execute_checked_ok _ _ (db <| devices := devices db ++ [row <| dr_jid := None |>] |>)) by (done || by rewrite Hok').
  eexists _, _. split; [done|]. unfold GetAllDevices. rewrite select_ok by done. change (devices (db <| devices := ?x |>)) with x.
  assert (scan_all ScalarBaseMult (devices db ++ [row <| dr_jid := None |>]) = Panic nil_dereference) as ->; [|by eexists].
  induction (devices db) as [|r rows IH]; cbn [app scan_all].
  - unfold scanDevice. destruct (row_allowed_spec SQLite row Hok) as (Hb & Hreg & Hkey).
    unfold scan_columns. change (dr_registration_id (row <| dr_jid := None |>)) with (dr_registration_id row).
    change (dr_signed_pre_key_id (row <| dr_jid := None |>)) with (dr_signed_pre_key_id row).
    change (dr_lid (row <| dr_jid := None |>)) with (dr_lid row). change (dr_jid (row <| dr_jid := None |>)) with (@None string).
    change (bad_lengths (row <| dr_jid := None |>)) with (bad_lengths row). rewrite Hb, Hreg, Hkey. cbn.
    assert (scan_jid (dr_lid row) = Some (LID device)) as ->; [|done].
    destruct account as [[?|] [?|] [?|] [?|]]; try done. injection Hr as <-. by apply scan_lid.
  - destruct (Hall r) as [x ->]; [by left|]. cbn. rewrite IH; [done|]. intros r' Hr''. apply Hall. by right.
Qed.

(** ** The theorems at work *)

Definition demo_account : SignedDeviceIdentity :=
  mkIdentity (Some [1; 2]) (Some (repeat 3 32)) (Some (repeat 4 64)) (Some (repeat 5 64)).
Definition demo_jid : JID := NewADJID "4915123" 0 7.
Definition demo_device : Device :=
  (NewDevice id (fun _ _ => repeat 6 64) (repeat 1 32) (repeat 2 32) (repeat 3 32) 77 (repeat 9 32))
    <| ID := Some demo_jid |> <| LID := NewADJID "88" 1 7 |> <| Account := Some demo_account |> <| Platform := "android" |>.
Lemma demo_paired : paired_device SQLite id demo_device demo_jid.
Proof.
  split; try done; [right; split; by vm_compute|]. eexists demo_account, (repeat 6 64), _. split; [done|]. split; [done|].
  split; [reflexivity|by vm_compute].
Qed.
Definition demo_devices : DeviceDB := mkDeviceDB [] {[("1@s.whatsapp.net", "2:0") := repeat 1 32]} [].

Lemma saved_device_loads_witness :
  GetDevice id demo_jid demo_devices = Ret (inr None, demo_devices) /\
  exists db', Save SQLite demo_device demo_devices = Ret (None, initialised demo_jid demo_device, db') /\
    GetDevice id demo_jid db' = Ret (inr (Some (initialised demo_jid demo_device)), db').
Proof.
  split; [reflexivity|]. destruct (saved_device_loads SQLite id demo_device demo_jid demo_devices demo_paired eq_refl eq_refl) as (db' & H1 & H2 & _).
  by exists db'.
Defined.
