(* ===== verification/Pairing.v ===== *)
(** * [whatsmeow/pair.go] and [pair-code.go]

    How a new device is linked to an account: by the codes of the server, which
    the primary device scans, or by a code that the user enters there.  The
    primitives and the protocol buffers are parameters. *)
From S2P Require Import Prelude GoStrings GoTime Jid BinaryNode BinaryCodec FrameSocket Noise PreKeys NodeAttrs Requests LidMap SqlDB DeviceStore.

Definition AdvAccountSignaturePrefix : Bytes := [6; 0].
Definition AdvDeviceSignaturePrefix : Bytes := [6; 1].
Definition AdvHostedAccountSignaturePrefix : Bytes := [6; 5].
Definition AdvHostedDeviceSignaturePrefix : Bytes := [6; 6].

(** ** Texts for bytes

    The bits, from the first byte's highest on, in groups of [w]; the last group
    is filled up with zeros and the text with [=]. *)
Definition byte_bits (b : Z) : list bool := map (Z.testbit b) [7; 6; 5; 4; 3; 2; 1; 0].
Definition bits_value (l : list bool) : Z := foldl (fun v b => 2 * v + Z.b2z b) 0 l.
Fixpoint bit_groups (fuel : nat) (w : nat) (l : list bool) : list Z :=
  match fuel, l with
  | S fuel, _ :: _ => bits_value (take w l ++ repeat false (w - length l)) :: bit_groups fuel w (drop w l)
  | _, _ => []
  end.
Definition encode_bits (alphabet : string) (w unit : nat) (src : Bytes) : string :=
  let bits := concat (map byte_bits src) in
  let chars := map (fun v => default "="%char (bytes alphabet !! Z.to_nat v)) (bit_groups (length bits) w bits) in
  of_bytes (chars ++ repeat "="%char ((unit - length chars mod unit) mod unit)).
Definition linkingBase32 : Bytes -> string := encode_bits "123456789ABCDEFGHJKLMNPQRSTVWXYZ" 5 8.
(** [base64.StdEncoding] *)
Definition StdEncoding : Bytes -> string := encode_bits "ABCDEFGHIJKLMNOPQRSTUVWXYZabcdefghijklmnopqrstuvwxyz0123456789+/" 6 4.

Example encodings :
  StdEncoding [104; 105; 33; 255] = "aGkh/w==" /\ linkingBase32 [255; 0; 1; 2; 3] = "ZW1131H4".
Proof. split; reflexivity. Qed.

(** ** Messages *)

(** [ADVSignedDeviceIdentityHMAC] and [ADVDeviceIdentity], with their account type
    and their device type as whether it is hosted. *)
Record DeviceIdentityHMAC : Type := mkContainer { hc_Details : Bytes; hc_HMAC : Bytes; hc_hosted : bool }.
Record DeviceIdentityDetails : Type := mkDetails { KeyIndex : Z; dd_hosted : bool }.

Inductive pair_error : Type :=
| PairProtoError (msg : string)
| ErrPairInvalidDeviceIdentityHMAC
| ErrPairInvalidDeviceSignature
| ErrPairRejectedLocally
| PairDatabaseError (msg : string) (e : device_error)
| ErrPairSend.
Inductive code_error : Type :=
| ErrPhoneNumberTooShort
| ErrPhoneNumberIsNotInternational
| ErrRequest (e : option iq_error)
| ElementMissing (tag in_ : string)
| UnexpectedType
| NoPendingPairing
| PairingRefMismatch
| UnexpectedPubLength (n : Z)
| SharedSecret (what : string).

Inductive pair_event : Type :=
| QR (Codes : list string)
| PairSuccess (ID LID : JID) (BusinessName Platform : string)
| PairError (ID LID : JID) (BusinessName Platform : string) (e : pair_error).
(** What the client does besides its state, in this order. *)
Inductive pair_effect : Type :=
| Sent (n : node)
| Queried (q : infoQuery)
| Dispatched (evt : pair_event)
| UnlockedDisconnect
| SendUnifiedSession.

Record phoneLinkingCache : Type := mkLinking { lc_jid : JID; keyPair : Noise.KeyPair; linkingCode : string; pairingRef : string }.

Record Client : Type := mkClient {
  Store : Device;
  db : DeviceDB;
  LIDs : CachedLIDMap;
  phoneLinking : option phoneLinkingCache;
  serverTimeOffset : Z;
  expectedDisconnect : bool;
  forceAutoReconnect : bool;
  did : list pair_effect }.
#[export] Instance eta_Client : Eta Client := fun r =>
  mkClient (Store r) (db r) (LIDs r) (phoneLinking r) (serverTimeOffset r) (expectedDisconnect r) (forceAutoReconnect r) (did r).

Definition effect (e : pair_effect) (c : Client) : Client := c <| did := did c ++ [e] |>.
Definition expectDisconnect (c : Client) : Client := c <| forceAutoReconnect := false |> <| expectedDisconnect := true |>.
Definition Disconnect (c : Client) : Client := effect UnlockedDisconnect (expectDisconnect c).

(** [StoreLIDPNMapping]; an error is logged. *)
Definition StoreLIDPNMapping (first second : JID) (c : Client) : Client :=
  let put (lid pn : JID) := c <| LIDs := (PutLIDMapping lid pn (LIDs c)).2 |> in
  if String.eqb (Server first) HiddenUserServer && String.eqb (Server second) DefaultUserServer then put first second
  else if String.eqb (Server first) DefaultUserServer && String.eqb (Server second) HiddenUserServer then put second first
  else c.

Definition concatBytes (data : list Bytes) : Bytes := concat data.

(** [Time.Round(time.Second)], counted from the zero time. *)
Definition RoundSecond (t : Time) : Time :=
  let r := t mod Second in if r + r <? Second then t - r else t + (Second - r).

Section Pairing.
Context (d : Dialect) (ScalarBaseMult : Bytes -> Bytes) (CalculateSignature : Bytes -> Bytes -> Bytes).
Context (VerifySignature : Bytes -> Bytes -> Bytes -> bool).
Context (hmac_sha256 : Bytes -> Bytes -> Bytes).
Context (unmarshalContainer : Bytes -> option DeviceIdentityHMAC) (unmarshalIdentity : Bytes -> option SignedDeviceIdentity).
Context (unmarshalDetails : Bytes -> option DeviceIdentityDetails) (marshalIdentity : SignedDeviceIdentity -> option Bytes).
(** Which nodes the socket takes. *)
Context (send_ok : node -> bool).
Context (PrePairCallback : option (JID -> string -> string -> bool)).

Definition sendNode (n : node) (c : Client) : bool * Client := if send_ok n then (true, effect (Sent n) c) else (false, c).

Definition errorNode (id : string) (code : Z) (text : string) : node :=
  mkNode "iq" [("to", VJID ServerJID); ("type", VString "error"); ("id", VString id)]
    (VNodes [mkNode "error" [("code", VInt code); ("text", VString text)] VNil]).
Definition sendPairError (id : string) (code : Z) (text : string) (c : Client) : Client := (sendNode (errorNode id code text) c).2.

(** ** Signatures *)

Definition verifyAccountSignature (deviceIdentity : SignedDeviceIdentity) (ikp : Noise.KeyPair) (isHosted : bool) : bool :=
  match AccountSignatureKey deviceIdentity, AccountSignature deviceIdentity with
  | Some signatureKey, Some signature =>
      if negb (length signatureKey =? 32)%nat || negb (length signature =? 64)%nat then false
      else
        let prefix := if isHosted then AdvHostedAccountSignaturePrefix else AdvAccountSignaturePrefix in
        VerifySignature signatureKey (concatBytes [prefix; default [] (Details deviceIdentity); Noise.Pub ikp]) signature
  | _, _ => false
  end.

Definition generateDeviceSignature (deviceIdentity : SignedDeviceIdentity) (ikp : Noise.KeyPair) : Bytes :=
  CalculateSignature (Noise.Priv ikp)
    (concatBytes [AdvDeviceSignaturePrefix; default [] (Details deviceIdentity); Noise.Pub ikp; default [] (AccountSignatureKey deviceIdentity)]).

(** ** [handlePair] *)

Definition pair_message (container : DeviceIdentityHMAC) : Bytes :=
  (if hc_hosted container then AdvHostedAccountSignaturePrefix else []) ++ hc_Details container.

Definition signNode (reqID : string) (keyIndex : Z) (identity : Bytes) : node :=
  mkNode "iq" [("to", VJID ServerJID); ("type", VString "result"); ("id", VString reqID)]
    (VNodes [mkNode "pair-device-sign" []
      (VNodes [mkNode "device-identity" [("key-index", VInt keyIndex)] (VBytes (of_codes identity))])]).

Definition signal_address (jid : JID) : string := SignalAddressUser jid +:+ ":" +:+ fmt_d (Jid.Device jid).

(** From the changed store on. *)
Definition savePairing (reqID : string) (mainDeviceLID : JID) (mainDeviceIdentity selfSigned : Bytes) (keyIndex : Z) (lid jid : JID)
    (c : Client) : outcome (option pair_error * Client) :=
  '(err, device, db') ← Save d (Store c) (db c);
  let c := c <| Store := device |> <| db := db' |> in
  match err with
  | Some e => Ret (Some (PairDatabaseError "failed to save device store" e), sendPairError reqID 500 "internal-error" c)
  | None =>
      let c := StoreLIDPNMapping lid jid c in
      '(err, db') ← PutIdentity (Store c) (signal_address mainDeviceLID) mainDeviceIdentity (db c);
      let c := c <| db := db' |> in
      let drop (c : Client) := let '(_, device, db') := Delete (Store c) (db c) in c <| Store := device |> <| db := db' |> in
      match err with
      | Some e => Ret (Some (PairDatabaseError "failed to store main device identity" e), sendPairError reqID 500 "internal-error" (drop c))
      | None =>
          let c := expectDisconnect c in
          match sendNode (signNode reqID keyIndex selfSigned) c with
          | (false, c) => Ret (Some ErrPairSend, drop c)
          | (true, c) => Ret (None, c)
          end
      end
  end.

Definition handlePair (deviceIdentityBytes : Bytes) (reqID businessName platform : string) (jid lid : JID) (c : Client)
    : outcome (option pair_error * Client) :=
  let refuse (code : Z) (text : string) (e : pair_error) (c : Client) := Ret (Some e, sendPairError reqID code text c) in
  match unmarshalContainer deviceIdentityBytes with
  | None => refuse 500 "internal-error" (PairProtoError "failed to parse device identity container in pair success message") c
  | Some container =>
      if negb (bool_decide (hmac_sha256 (AdvSecretKey (Store c)) (pair_message container) = hc_HMAC container)) then
        refuse 401 "hmac-mismatch" ErrPairInvalidDeviceIdentityHMAC c
      else
        match unmarshalIdentity (hc_Details container) with
        | None => refuse 500 "internal-error" (PairProtoError "failed to parse signed device identity in pair success message") c
        | Some deviceIdentity =>
            match unmarshalDetails (default [] (Details deviceIdentity)) with
            | None => refuse 500 "internal-error" (PairProtoError "failed to parse device identity details in pair success message") c
            | Some details =>
                if negb (verifyAccountSignature deviceIdentity (IdentityKey (Store c)) (dd_hosted details)) then
                  refuse 401 "signature-mismatch" ErrPairInvalidDeviceSignature c
                else
                  let deviceIdentity := deviceIdentity <| DeviceSignature := Some (generateDeviceSignature deviceIdentity (IdentityKey (Store c))) |> in
                  if negb (match PrePairCallback with Some f => f jid platform businessName | None => true end) then
                    refuse 500 "internal-error" ErrPairRejectedLocally c
                  else
                    let c := c <| Store := (Store c) <| Account := Some deviceIdentity |> |> in
                    let mainDeviceLID := mkJID (User lid) (RawAgent lid) 0 (Integrator lid) (Server lid) in
                    let mainDeviceIdentity := default [] (AccountSignatureKey deviceIdentity) in
                    match marshalIdentity (deviceIdentity <| AccountSignatureKey := None |>) with
                    | None => refuse 500 "internal-error" (PairProtoError "failed to marshal self-signed device identity") c
                    | Some selfSigned =>
                        let c := c <| Store := (Store c) <| ID := Some jid |> <| LID := lid |> <| BusinessName := businessName |>
                                         <| Platform := platform |> |> in
                        savePairing reqID mainDeviceLID mainDeviceIdentity selfSigned (KeyIndex details) lid jid c
                    end
            end
        end
  end.

(** ** [handleIQ] *)

(** The request has an id, or the conversion panics; the rest runs in a
    goroutine. *)
Definition handlePairSuccess (n : node) (now : Time) (c : Client) : outcome Client :=
  match as_string (attr (Attrs n) "id") with
  | (_, false) => Panic "interface conversion"
  | (id, true) =>
      let pairSuccess := GetChildByTag n ["pair-success"] in
      let deviceIdentityBytes := default [] (as_bytes (Content (GetChildByTag pairSuccess ["device-identity"]))) in
      let businessName := (as_string (attr (Attrs (GetChildByTag pairSuccess ["biz"])) "name")).1 in
      let as_jid (v : option value) := match v with Some (VJID j) => j | _ => EmptyJID end in
      let jid := as_jid (attr (Attrs (GetChildByTag pairSuccess ["device"])) "jid") in
      let lid := as_jid (attr (Attrs (GetChildByTag pairSuccess ["device"])) "lid") in
      let platform := (as_string (attr (Attrs (GetChildByTag pairSuccess ["platform"])) "name")).1 in
      let c := c <| serverTimeOffset := Sub (UnixTime "t" (AttrGetter n)).1 (RoundSecond now) |> in
      '(err, c) ← handlePair deviceIdentityBytes id businessName platform jid lid c;
      Ret (match err with
           | Some e => effect (Dispatched (PairError jid lid businessName platform e)) (Disconnect c)
           | None => effect (Dispatched (PairSuccess jid lid businessName platform)) (effect SendUnifiedSession c)
           end)
  end.

(** [PairClientType] *)
Definition PairClientUnknown : string := "0".
Definition PairClientChrome : string := "1".
Definition PairClientEdge : string := "2".
Definition PairClientFirefox : string := "3".
Definition PairClientIE : string := "4".
Definition PairClientOpera : string := "5".
Definition PairClientSafari : string := "6".
Definition PairClientUWP : string := "8".
Definition PairClientOtherWebClient : string := "9".
Definition PairClientMacOS : string := "c".
Definition PairClientAndroid : string := "e".

(** The platforms are enumerations of protocol buffers, by their numbers. *)
Definition getQRClientType (QRClientType : string) (devicePlatform userAgentPlatform : Z) : string :=
  if negb (String.eqb QRClientType "") then QRClientType
  else
    match devicePlatform with
    | 1 => PairClientChrome | 2 => PairClientFirefox | 6 => PairClientEdge | 3 => PairClientIE | 4 => PairClientOpera
    | 5 => PairClientSafari | 21 => PairClientUWP | 16 => PairClientAndroid
    | _ => match userAgentPlatform with 14 => PairClientOtherWebClient | 24 => PairClientMacOS | _ => PairClientUnknown end
    end.

Definition makeQRData (ref : string) (clientType : string) (device : Device) : string :=
  "https://wa.me/settings/linked_devices#" +:+ ref +:+ "," +:+ StdEncoding (Noise.Pub (NoiseKey device)) +:+ "," +:+
  StdEncoding (Noise.Pub (IdentityKey device)) +:+ "," +:+ StdEncoding (AdvSecretKey device) +:+ "," +:+ clientType.

(** A node for an attribute that is not there has nil. *)
Definition attr_value (n : node) (key : string) : value := default VNil (attr (Attrs n) key).
Definition ref_code (clientType : string) (device : Device) (child : node) : option string :=
  if negb (String.eqb (Tag child) "ref") then None
  else match Content child with VBytes content => Some (makeQRData content clientType device) | _ => None end.
Definition handlePairDevice (clientType : string) (n : node) (c : Client) : Client :=
  let pairDevice := GetChildByTag n ["pair-device"] in
  let c := (sendNode (mkNode "iq" [("to", attr_value n "from"); ("id", attr_value n "id"); ("type", VString "result")] VNil) c).2 in
  effect (Dispatched (QR (omap (ref_code clientType (Store c)) (GetChildren pairDevice)))) c.

(** Whether the IQ comes from the server: the attribute is a JID, and this one. *)
Definition from_server (n : node) : bool :=
  match attr (Attrs n) "from" with Some (VJID j) => bool_decide (j = ServerJID) | _ => false end.
Definition handleIQ (clientType : string) (now : Time) (n : node) (c : Client) : outcome Client :=
  match GetChildren n with
  | [child] =>
      if negb (from_server n) then Ret c
      else if String.eqb (Tag child) "pair-device" then Ret (handlePairDevice clientType n c)
      else if String.eqb (Tag child) "pair-success" then handlePairSuccess n now c
      else Ret c
  | _ => Ret c
  end.
End Pairing.

(** ** [pair-code.go] *)

Section LinkCode.
Context (ScalarBaseMult : Bytes -> Bytes).
Context (pbkdf2 : Bytes -> Bytes -> Bytes) (ctr : Bytes -> Bytes -> Bytes -> Bytes).
Context (X25519 : Bytes -> Bytes -> option Bytes) (hkdf_SHA256 : Bytes -> Bytes -> Bytes -> Z -> Bytes).
Context (gcmSeal : Bytes -> Bytes -> Bytes -> Bytes -> Bytes).
(** The rest of [sendIQ]. *)
Context (sendIQ : infoQuery -> option node * option iq_error).

(** 32 bytes for the key, 32 for the salt, 16 for the vector, 5 for the code. *)
Record pair_random : Type := mkRandom { pr_key : Bytes; pr_salt : Bytes; pr_iv : Bytes; pr_code : Bytes }.

(** The public key is encrypted where it is: the pair that is kept has the
    encrypted one. *)
Definition generateCompanionEphemeralKey (random : pair_random) : Noise.KeyPair * Bytes * string :=
  let ephemeralKeyPair := NewKeyPair ScalarBaseMult (pr_key random) in
  let encodedLinkingCode := linkingBase32 (pr_code random) in
  let linkCodeKey := pbkdf2 (codes encodedLinkingCode) (pr_salt random) in
  let encryptedPubkey := ctr linkCodeKey (pr_iv random) (Noise.Pub ephemeralKeyPair) in
  (Noise.mkKeyPair encryptedPubkey (Noise.Priv ephemeralKeyPair), pr_salt random ++ pr_iv random ++ encryptedPubkey, encodedLinkingCode).

Definition is_digit (c : ascii) : bool := in_range 48 57 (Z.of_N (N_of_ascii c)).
Definition only_numbers (s : string) : string := of_bytes (filter (fun c => is_digit c = true) (bytes s)).

Definition md_query (content : node) : infoQuery := mkQuery "md" iqSet ServerJID EmptyJID "" "" (VNodes [content]) 0 false.
Definition helloNode (jid : JID) (showPushNotification : bool) (ephemeralKey authKey : Bytes) (clientType displayName : string) : node :=
  mkNode "link_code_companion_reg"
    [("jid", VJID jid); ("stage", VString "companion_hello"); ("should_show_push_notification", VString (fmt_bool showPushNotification))]
    (VNodes [mkNode "link_code_pairing_wrapped_companion_ephemeral_pub" [] (VBytes (of_codes ephemeralKey));
             mkNode "companion_server_auth_key_pub" [] (VBytes (of_codes authKey));
             mkNode "companion_platform_id" [] (VString clientType);
             mkNode "companion_platform_display" [] (VString displayName);
             mkNode "link_code_pairing_nonce" [] (VBytes (of_codes [0]))]).

Definition PairPhone (random : pair_random) (phone : string) (showPushNotification : bool) (clientType displayName : string) (c : Client)
    : (code_error + string) * Client :=
  let '(ephemeralKeyPair, ephemeralKey, encodedLinkingCode) := generateCompanionEphemeralKey random in
  let phone := only_numbers phone in
  if len phone <=? 6 then (inl ErrPhoneNumberTooShort, c)
  else if has_prefix phone "0" then (inl ErrPhoneNumberIsNotInternational, c)
  else
    let jid := NewJID phone DefaultUserServer in
    let query := md_query (helloNode jid showPushNotification ephemeralKey (Noise.Pub (NoiseKey (Store c))) clientType displayName) in
    let c := effect (Queried query) c in
    match sendIQ query with
    | (_, Some e) => (inl (ErrRequest (Some e)), c)
    | (None, None) => (inl (ErrRequest None), c)
    | (Some resp, None) =>
        match GetOptionalChildByTag resp ["link_code_companion_reg"; "link_code_pairing_ref"] with
        | (_, false) => (inl (ElementMissing "link_code_pairing_ref" "code link registration response"), c)
        | (refNode, true) =>
            match Content refNode with
            | VBytes ref =>
                (inr (take_str 4 encodedLinkingCode +:+ "-" +:+ drop_str 4 encodedLinkingCode),
                 c <| phoneLinking := Some (mkLinking jid ephemeralKeyPair encodedLinkingCode ref) |>)
            | _ => (inl UnexpectedType, c)
            end
        end
    end.

(** The random bytes of an answer: 32, 32 and 12. *)
Record finish_random : Type := mkFinishRandom { advSecretRandom : Bytes; keyBundleSalt : Bytes; keyBundleNonce : Bytes }.

Definition keyBundleInfo : Bytes := codes "link_code_pairing_key_bundle_encryption_key".
Definition advSecretInfo : Bytes := codes "adv_secret".
Definition finishNode (jid : JID) (wrappedKeyBundle identityPub ref : Bytes) : node :=
  mkNode "link_code_companion_reg" [("jid", VJID jid); ("stage", VString "companion_finish")]
    (VNodes [mkNode "link_code_pairing_wrapped_key_bundle" [] (VBytes (of_codes wrappedKeyBundle));
             mkNode "companion_identity_public" [] (VBytes (of_codes identityPub));
             mkNode "link_code_pairing_ref" [] (VBytes (of_codes ref))]).

Definition decryptPrimaryPub (linkingCode : string) (wrapped : Bytes) : Bytes :=
  ctr (pbkdf2 (codes linkingCode) (take 32 wrapped)) (take 16 (drop 32 wrapped)) (take 32 (drop 48 wrapped)).
Definition wrapKeyBundle (sharedSecret identityPub primaryIdentityPub : Bytes) (r : finish_random) : Bytes :=
  let key := hkdf_SHA256 sharedSecret (keyBundleSalt r) keyBundleInfo 32 in
  concatBytes [keyBundleSalt r; keyBundleNonce r;
    gcmSeal key (keyBundleNonce r) (concatBytes [identityPub; primaryIdentityPub; advSecretRandom r]) []].

(** The secret is kept before the query is sent. *)
Definition handleCodePairNotification (parentNode : node) (r : finish_random) (c : Client) : option code_error * Client :=
  match GetOptionalChildByTag parentNode ["link_code_companion_reg"] with
  | (_, false) => (Some (ElementMissing "link_code_companion_reg" "notification"), c)
  | (n, true) =>
      match phoneLinking c with
      | None => (Some NoPendingPairing, c)
      | Some linkCache =>
          let ref := default [] (as_bytes (Content (GetChildByTag n ["link_code_pairing_ref"]))) in
          if negb (String.eqb (of_codes ref) (pairingRef linkCache)) then (Some PairingRefMismatch, c)
          else
            match as_bytes (Content (GetChildByTag n ["link_code_pairing_wrapped_primary_ephemeral_pub"])) with
            | None => (Some (ElementMissing "link_code_pairing_wrapped_primary_ephemeral_pub" "notification"), c)
            | Some wrapped =>
                if (length wrapped <? 80)%nat then (Some (UnexpectedPubLength (Z.of_nat (length wrapped))), c)
                else
                  match as_bytes (Content (GetChildByTag n ["primary_identity_pub"])) with
                  | None => (Some (ElementMissing "primary_identity_pub" "notification"), c)
                  | Some primaryIdentityPub =>
                      let primaryPub := decryptPrimaryPub (linkingCode linkCache) wrapped in
                      match X25519 (Noise.Priv (keyPair linkCache)) primaryPub with
                      | None => (Some (SharedSecret "ephemeral"), c)
                      | Some ephemeralSharedSecret =>
                          let identity := IdentityKey (Store c) in
                          let wrappedKeyBundle := wrapKeyBundle ephemeralSharedSecret (Noise.Pub identity) primaryIdentityPub r in
                          match X25519 (Noise.Priv identity) primaryIdentityPub with
                          | None => (Some (SharedSecret "identity"), c)
                          | Some identitySharedKey =>
                              let advSecret := hkdf_SHA256 (ephemeralSharedSecret ++ identitySharedKey ++ advSecretRandom r) [] advSecretInfo 32 in
                              let c := c <| Store := (Store c) <| AdvSecretKey := advSecret |> |> in
                              let query := md_query (finishNode (lc_jid linkCache) wrappedKeyBundle (Noise.Pub identity) ref) in
                              (match sendIQ query with (_, Some e) => Some (ErrRequest (Some e)) | (_, None) => None end,
                               effect (Queried query) c)
                          end
                      end
                  end
            end
      end
  end.
(** An error is logged. *)
Definition tryHandleCodePairNotification (parentNode : node) (r : finish_random) (c : Client) : Client :=
  (handleCodePairNotification parentNode r c).2.
End LinkCode.

(** ** Who can pair *)

Section Authentication.
Context (d : Dialect) (ScalarBaseMult : Bytes -> Bytes) (CalculateSignature : Bytes -> Bytes -> Bytes).
Context (VerifySignature : Bytes -> Bytes -> Bytes -> bool) (hmac_sha256 : Bytes -> Bytes -> Bytes).
Context (unmarshalContainer : Bytes -> option DeviceIdentityHMAC) (unmarshalIdentity : Bytes -> option SignedDeviceIdentity).
Context (unmarshalDetails : Bytes -> option DeviceIdentityDetails) (marshalIdentity : SignedDeviceIdentity -> option Bytes).
Context (send_ok : node -> bool) (PrePairCallback : option (JID -> string -> string -> bool)).
Notation handlePair := (handlePair d CalculateSignature VerifySignature hmac_sha256 unmarshalContainer unmarshalIdentity unmarshalDetails
  marshalIdentity send_ok PrePairCallback).
Notation savePairing := (savePairing d send_ok).
Notation generateDeviceSignature := (generateDeviceSignature CalculateSignature).

(** The message was made by one who has the secret of the device, and carries the
    signature of an account on the device's identity. *)
Record authentic (message : Bytes) (device : Device) (identity : SignedDeviceIdentity) (details : DeviceIdentityDetails)
    (accountKey : Bytes) : Prop := mkAuthentic {
  au_mac : exists container, unmarshalContainer message = Some container /\
    hmac_sha256 (AdvSecretKey device) (pair_message container) = hc_HMAC container /\
    unmarshalIdentity (hc_Details container) = Some identity;
  au_details : unmarshalDetails (default [] (Details identity)) = Some details;
  au_key : AccountSignatureKey identity = Some accountKey /\ length accountKey = 32%nat;
  au_signature : exists signature, AccountSignature identity = Some signature /\ length signature = 64%nat /\
    VerifySignature accountKey
      ((if dd_hosted details then AdvHostedAccountSignaturePrefix else AdvAccountSignaturePrefix) ++
       default [] (Details identity) ++ Noise.Pub (IdentityKey device)) signature = true }.

Definition accepted (jid : JID) (platform businessName : string) : Prop :=
  forall f, PrePairCallback = Some f -> f jid platform businessName = true.

(** The identity with the signature of this device. *)
Definition account_of (identity : SignedDeviceIdentity) (device : Device) : SignedDeviceIdentity :=
  identity <| DeviceSignature := Some (generateDeviceSignature identity (IdentityKey device)) |>.
Definition paired_store (identity : SignedDeviceIdentity) (jid lid : JID) (businessName platform : string) (device : Device) : Device :=
  device <| Account := Some (account_of identity device) |> <| ID := Some jid |> <| LID := lid |> <| BusinessName := businessName |>
         <| Platform := platform |>.

Lemma sendPairError_store id code text c :
  let c' := sendPairError send_ok id code text c in Store c' = Store c /\ db c' = db c /\ LIDs c' = LIDs c.
Proof. unfold sendPairError, sendNode. by destruct (send_ok _). Qed.

Lemma handlePair_cases message reqID businessName platform jid lid c r c' :
  handlePair message reqID businessName platform jid lid c = Ret (r, c') ->
  (Store c' = Store c /\ db c' = db c /\ LIDs c' = LIDs c /\ r <> None) \/
  exists identity details accountKey, authentic message (Store c) identity details accountKey /\ accepted jid platform businessName /\
    let self := (account_of identity (Store c)) <| AccountSignatureKey := None |> in
    (marshalIdentity self = None /\ r <> None /\ db c' = db c /\ Store c' = (Store c) <| Account := Some (account_of identity (Store c)) |>) \/
    exists selfSigned, marshalIdentity self = Some selfSigned /\
      savePairing reqID (mkJID (User lid) (RawAgent lid) 0 (Integrator lid) (Server lid)) accountKey selfSigned (KeyIndex details) lid jid
        (c <| Store := paired_store identity jid lid businessName platform (Store c) |>) = Ret (r, c').
Proof.
  unfold handlePair. intros H.
  assert (forall e code text c0, Ret (Some e, sendPairError send_ok reqID code text c0) = Ret (r, c') ->
    Store c' = Store c0 /\ db c' = db c0 /\ LIDs c' = LIDs c0 /\ r <> None) as Hrefuse.
  { intros e code text c0 [= <- <-]. destruct (sendPairError_store reqID code text c0) as (H1 & H2 & H3). done. }
  destruct (unmarshalContainer message) as [container|] eqn:Hc; [|left; eapply Hrefuse, H].
  case_bool_decide as Hmac; cbn [negb] in H; [|left; eapply Hrefuse, H].
  destruct (unmarshalIdentity (hc_Details container)) as [identity|] eqn:Hi; [|left; eapply Hrefuse, H].
  destruct (unmarshalDetails _) as [details|] eqn:Hd; [|left; eapply Hrefuse, H].
  destruct (verifyAccountSignature _ _ _ _) eqn:Hv; cbn [negb] in H; [|left; eapply Hrefuse, H].
  destruct (match PrePairCallback with Some f => f jid platform businessName | None => true end) eqn:Hcb; cbn [negb] in H;
    [|left; eapply Hrefuse, H].
  right. unfold verifyAccountSignature in Hv. destruct (AccountSignatureKey identity) as [key|] eqn:Hk; [|done].
  destruct (AccountSignature identity) as [sig|] eqn:Hs; [|done].
  destruct (Nat.eqb_spec (length key) 32) as [Hlk|]; [|done]. destruct (Nat.eqb_spec (length sig) 64) as [Hls|]; [|done]. cbn in Hv.
  exists identity, details, key. split; [|split].
  - split; [by exists container|done|done|]. exists sig. split; [done|]. split; [done|]. cbn in Hv. by rewrite app_nil_r in Hv.
  - intros f Hf. by rewrite Hf in Hcb.
  - cbn zeta. fold (account_of identity (Store c)) in H.
    change (AccountSignatureKey (account_of identity (Store c))) with (AccountSignatureKey identity) in H. rewrite Hk in H. cbn [default] in H.
    destruct (marshalIdentity _) as [selfSigned|]; [right; by exists selfSigned|left].
    destruct (Hrefuse _ _ _ _ H) as (H1 & H2 & _ & H4). done.
Qed.

(** *** What the rest of the pairing leaves *)

Lemma save_result device db err device' db' :
  Save d device db = Ret (err, device', db') ->
  device' = device \/ exists id, ID device = Some id /\ device' = initialised id device.
Proof.
  unfold Save, PutDevice. destruct (Deleted device); [intros [= _ <- _]; by left|].
  destruct (ID device) as [id|] eqn:Hid; [|intros [= _ <- _]; by left].
  destruct (Signature _); [|done]. destruct (Account device) as [account|]; [|done]. destruct (insertDevice _ _ _) as [r ?].
  destruct (Initialized device); cbn; [intros [= _ <- _]; by left|]. unfold initializeDevice. rewrite Hid. intros [= _ <- _]. right.
  by exists id.
Qed.

Lemma savePairing_done reqID main key selfSigned idx lid jid c c' :
  savePairing reqID main key selfSigned idx lid jid c = Ret (None, c') ->
  exists db', Save d (Store c) (db c) = Ret (None, Store c', db') /\
    (exists db'', PutIdentity (Store c') (signal_address main) key db' = Ret (None, db'') /\ db c' = db'') /\
    LIDs c' = LIDs (StoreLIDPNMapping lid jid c) /\ did c' = did c ++ [Sent (signNode reqID idx selfSigned)] /\
    expectedDisconnect c' = true /\ forceAutoReconnect c' = false.
Proof.
  unfold savePairing. destruct (Save d (Store c) (db c)) as [[[[e|] device] db1]|]; cbn; [done| |done].
  set (c1 := StoreLIDPNMapping lid jid (c <| Store := device |> <| db := db1 |>)).
  assert (Store c1 = device /\ db c1 = db1 /\ did c1 = did c /\ LIDs c1 = LIDs (StoreLIDPNMapping lid jid c)) as (Hs & Hd & Hdid & Hl).
  { unfold c1, StoreLIDPNMapping. repeat case_match; done. }
  clearbody c1. rewrite Hs, Hd. destruct (PutIdentity device (signal_address main) key db1) as [[[e|] db2]|] eqn:Hp; cbn; [done| |done].
  unfold sendNode. destruct (send_ok _); [|done]. intros [= <-]. cbn. exists db1. split; [by rewrite Hs|]. split; [exists db2; by rewrite Hs|].
  split; [done|]. by rewrite Hdid.
Qed.

(** C25. The device and its tables stay as they are unless the message was made with
    the secret of the device and carries an account's signature of its identity;
    a pairing that succeeds keeps exactly that account, with this device's own
    signature, and tells the server. *)
Theorem pairing_authenticated message reqID businessName platform jid lid c r c' :
  handlePair message reqID businessName platform jid lid c = Ret (r, c') ->
  (r <> None /\ Store c' = Store c /\ db c' = db c /\ LIDs c' = LIDs c) \/
  exists identity details accountKey, authentic message (Store c) identity details accountKey /\ accepted jid platform businessName /\
    (r = None -> exists selfSigned,
      marshalIdentity ((account_of identity (Store c)) <| AccountSignatureKey := None |>) = Some selfSigned /\
      Account (Store c') = Some (account_of identity (Store c)) /\ ID (Store c') = Some jid /\ LID (Store c') = lid /\
      AdvSecretKey (Store c') = AdvSecretKey (Store c) /\ expectedDisconnect c' = true /\
      did c' = did c ++ [Sent (signNode reqID (KeyIndex details) selfSigned)]).
Proof.
  intros H. apply handlePair_cases in H as [(H1 & H2 & H3 & H4)|(identity & details & key & Ha & Hacc & H)]; [by left|right].
  exists identity, details, key. split; [done|]. split; [done|]. cbn zeta in H.
  destruct H as [(_ & Hr & _)|(selfSigned & Hm & H)]; [done|]. intros ->. exists selfSigned. split; [done|].
  apply savePairing_done in H as (db' & Hs & _ & _ & Hdid & He & _).
  apply save_result in Hs as [Hs|(id & Hid & Hs)]; rewrite Hs; done.
Qed.
End Authentication.

(** ** What is kept of a pairing *)

Section Kept.
Context (d : Dialect) (ScalarBaseMult : Bytes -> Bytes) (CalculateSignature : Bytes -> Bytes -> Bytes).
Context (VerifySignature : Bytes -> Bytes -> Bytes -> bool) (hmac_sha256 : Bytes -> Bytes -> Bytes).
Context (unmarshalContainer : Bytes -> option DeviceIdentityHMAC) (unmarshalIdentity : Bytes -> option SignedDeviceIdentity).
Context (unmarshalDetails : Bytes -> option DeviceIdentityDetails) (marshalIdentity : SignedDeviceIdentity -> option Bytes).
Context (send_ok : node -> bool) (PrePairCallback : option (JID -> string -> string -> bool)).
Notation handlePair := (handlePair d CalculateSignature VerifySignature hmac_sha256 unmarshalContainer unmarshalIdentity unmarshalDetails
  marshalIdentity send_ok PrePairCallback).

(** A device that [NewDevice] made: its key pairs are pairs and it has no stores. *)
Record unpaired_device (device : Device) : Prop := mkUnpaired {
  up_noise : NoiseKey device = pair_of ScalarBaseMult (Noise.Priv (NoiseKey device));
  up_identity : IdentityKey device = pair_of ScalarBaseMult (Noise.Priv (IdentityKey device));
  up_pre_key : Pub (SignedPreKey device) = ScalarBaseMult (Priv (SignedPreKey device));
  up_new : Initialized device = false /\ Deleted device = false }.
Lemma NewDevice_unpaired r1 r2 r3 reg adv : unpaired_device (NewDevice ScalarBaseMult CalculateSignature r1 r2 r3 reg adv).
Proof. by split. Qed.

Lemma saved_is_paired device id dv device' db' :
  unpaired_device device -> ID device = Some id -> named id -> LID device = EmptyJID \/ named (LID device) -> dv_faults dv = [] ->
  Save d device dv = Ret (None, device', db') -> paired_device d ScalarBaseMult device id /\ dv_faults db' = [].
Proof.
  intros [Hnk Hik Hpk [Hin Hdel]] Hid Hn Hl Hf Hs. unfold Save, PutDevice, insertDevice in Hs. rewrite Hdel, Hid in Hs.
  destruct (Signature (SignedPreKey device)) as [sig|] eqn:Hsig; [|done]. destruct (Account device) as [account|] eqn:Hacc; [|done].
  unfold execute_checked in Hs. rewrite statement_ok in Hs by done.
  destruct (device_row id device account sig) as [row|] eqn:Hrow; [destruct (row_allowed d row) eqn:Hok|].
  - split; [|rewrite Hin in Hs; unfold initializeDevice in Hs; rewrite Hid in Hs; by injection Hs as _ <-].
    split; try done. by exists account, sig, row.
  - rewrite Hin in Hs. unfold initializeDevice in Hs. by rewrite Hid in Hs.
  - rewrite Hin in Hs. unfold initializeDevice in Hs. by rewrite Hid in Hs.
Qed.

Lemma PutIdentity_devices device a key dv r dv' :
  dv_faults dv = [] -> PutIdentity device a key dv = Ret (r, dv') -> devices dv' = devices dv /\ dv_faults dv' = [].
Proof.
  intros Hf. unfold PutIdentity. destruct (stores device); [done| |by intros [= _ <-]].
  unfold execute_checked. rewrite statement_ok by done. destruct (existsb _ _ && _); by intros [= _ <-].
Qed.

Lemma get_same_devices id dv dv' : devices dv = devices dv' -> named id -> dv_faults dv = [] -> dv_faults dv' = [] ->
  forall x, GetDevice ScalarBaseMult id dv = Ret (x, dv) -> GetDevice ScalarBaseMult id dv' = Ret (x, dv').
Proof.
  intros Hd Hn Hf Hf' x. rewrite !get_row, <- Hd by done. destruct (find _ _) as [r|]; [|by intros [= <-]].
  destruct (scanDevice _ r); cbn; [|done]. by intros [= <-].
Qed.

(** After a pairing that succeeds the account can be loaded again: what the
    table gives under the JID is the device of the client, with its keys, its
    secret and the account as it was signed. *)
Theorem pairing_survives_restart message reqID businessName platform jid lid c c' :
  handlePair message reqID businessName platform jid lid c = Ret (None, c') ->
  unpaired_device (Store c) -> named jid -> lid = EmptyJID \/ named lid -> dv_faults (db c) = [] ->
  GetDevice ScalarBaseMult jid (db c) = Ret (inr None, db c) ->
  GetDevice ScalarBaseMult jid (db c') = Ret (inr (Some (Store c')), db c').
Proof.
  intros H [Hnk Hik Hpk Hnew] Hn Hl Hf Hnone. apply handlePair_cases in H as [(_ & _ & _ & ?)|(identity & details & key & _ & _ & H)]; [done|].
  cbn zeta in H. destruct H as [(_ & ? & _)|(selfSigned & _ & H)]; [done|].
  apply savePairing_done in H as (db1 & Hs & (db2 & Hp & Hdb) & _).
  set (device := paired_store CalculateSignature identity jid lid businessName platform (Store c)) in Hs.
  change (Save d device (db c) = Ret (None, Store c', db1)) in Hs.
  destruct (saved_is_paired device jid (db c) (Store c') db1) as [Hpd Hf1]; [by split|done..|].
  destruct (PutIdentity_devices _ _ _ _ _ _ Hf1 Hp) as [Hd2 Hf2]. rewrite <- Hdb in Hd2, Hf2.
  destruct (save_ok d ScalarBaseMult device jid (db c) Hpd Hf) as (row & Hk & Hscan & Hs'). rewrite Hs' in Hs. injection Hs as <- <-.
  apply (get_same_devices jid ((db c) <| devices := insert_row row (devices (db c)) |>)); [by rewrite Hd2|done|done|done|].
  rewrite get_row in Hnone |- * by done. change (devices ((db c) <| devices := ?x |>)) with x.
  rewrite (find_insert (String_ jid)) by done. destruct (find _ _) as [r|]; [by destruct (scanDevice _ r) as [[]|]|]. by rewrite Hscan.
Qed.

(** A pairing whose device cannot be saved fails, and the client has the new
    JID nevertheless: it takes itself to be logged in, with no row behind it. *)
Theorem failed_save_keeps_id message reqID businessName platform jid lid c identity details key faults selfSigned :
  authentic VerifySignature hmac_sha256 unmarshalContainer unmarshalIdentity unmarshalDetails message (Store c) identity details key ->
  accepted PrePairCallback jid platform businessName ->
  marshalIdentity ((account_of CalculateSignature identity (Store c)) <| AccountSignatureKey := None |>) = Some selfSigned ->
  Deleted (Store c) = false -> is_Some (Signature (SignedPreKey (Store c))) -> dv_faults (db c) = true :: faults ->
  exists c', handlePair message reqID businessName platform jid lid c =
      Ret (Some (PairDatabaseError "failed to save device store" (ErrStore PreKeys.ErrDB)), c') /\
    ID (Store c') = Some jid /\ devices (db c') = devices (db c).
Proof.
  intros [(container & Hc & Hmac & Hi) Hd [Hk Hlk] (sig & Hs & Hls & Hv)] Hacc Hm Hdel [psig Hps] Hf.
  unfold handlePair. rewrite Hc, bool_decide_true by done. cbn [negb]. rewrite Hi, Hd. unfold verifyAccountSignature.
  rewrite Hk, Hs, Hlk, Hls. cbn [Nat.eqb negb orb]. unfold concatBytes. cbn [concat]. rewrite (app_nil_r (Noise.Pub _)).
  match goal with |- context [VerifySignature key ?m sig] => assert (VerifySignature key m sig = true) as -> by exact Hv end. cbn [negb].
  assert ((match PrePairCallback with Some f => f jid platform businessName | None => true end) = true) as ->.
  { destruct PrePairCallback as [f|] eqn:Hcb; [|done]. by apply Hacc. }
  cbn [negb]. fold (account_of CalculateSignature identity (Store c)). rewrite Hm. unfold savePairing, Save, PutDevice.
  match goal with |- context [Deleted (Store ?c0)] => set (c1 := c0) end.
  change (Deleted (Store c1)) with (Deleted (Store c)). change (ID (Store c1)) with (Some jid).
  change (SignedPreKey (Store c1)) with (SignedPreKey (Store c)). rewrite Hdel, Hps.
  change (Account (Store c1)) with (Some (account_of CalculateSignature identity (Store c))).
  change (db c1) with (db c). unfold insertDevice, execute_checked, statement. change (db_faults (db c)) with (dv_faults (db c)). rewrite Hf.
  assert (forall dev, ID dev = Some jid -> exists dev', (if negb (Initialized dev) then initializeDevice dev else Ret dev) = Ret dev' /\ ID dev' = Some jid) as Hinit.
  { intros dev Hdev. destruct (Initialized dev); [by exists dev|]. unfold initializeDevice. rewrite Hdev. by eexists. }
  destruct (Hinit (Store c1) eq_refl) as (dev' & -> & Hid). cbn. eexists. split; [done|].
  match goal with |- context [sendPairError ?s ?a ?b ?t ?x] => destruct (sendPairError_store s a b t x) as (-> & -> & _) end. done.
Qed.
End Kept.

(** ** The other side of a linking code

    The primary device gets the code from its user, and answers the hello of the
    new device; from the new device's answer it makes the secret. *)
Section Primary.
Context (pbkdf2 : Bytes -> Bytes -> Bytes) (ctr : Bytes -> Bytes -> Bytes -> Bytes).
Context (X25519 : Bytes -> Bytes -> option Bytes) (hkdf_SHA256 : Bytes -> Bytes -> Bytes -> Z -> Bytes).
Context (gcmOpen : Bytes -> Bytes -> Bytes -> Bytes -> option Bytes).

(** The code as it is typed, without the dash. *)
Definition typed (shown : string) : string := take_str 4 shown +:+ drop_str 5 shown.

Definition answer_content (code : string) (eph identity : Noise.KeyPair) (salt iv : Bytes) (ref : string) : node :=
  mkNode "link_code_companion_reg" []
    (VNodes [mkNode "link_code_pairing_wrapped_primary_ephemeral_pub" []
               (VBytes (of_codes (salt ++ iv ++ ctr (pbkdf2 (codes code) salt) iv (Noise.Pub eph))));
             mkNode "primary_identity_pub" [] (VBytes (of_codes (Noise.Pub identity)));
             mkNode "link_code_pairing_ref" [] (VBytes ref)]).
Definition primary_answer (code : string) (eph identity : Noise.KeyPair) (salt iv : Bytes) (ref : string) : node :=
  mkNode "notification" [] (VNodes [answer_content code eph identity salt iv ref]).

Definition content_of (tag : string) (n : node) : option Bytes := as_bytes (Content (GetChildByTag n [tag])).
Definition primary_secret (code : string) (eph identity : Noise.KeyPair) (hello finish : node) : option Bytes :=
  wrapped ← content_of "link_code_pairing_wrapped_companion_ephemeral_pub" hello;
  bundle ← content_of "link_code_pairing_wrapped_key_bundle" finish;
  shared ← X25519 (Noise.Priv eph) (decryptPrimaryPub pbkdf2 ctr code wrapped);
  plaintext ← gcmOpen (hkdf_SHA256 shared (take 32 bundle) keyBundleInfo 32) (take 12 (drop 32 bundle)) (drop 44 bundle) [];
  identityShared ← X25519 (Noise.Priv identity) (take 32 plaintext);
  if bool_decide (take 32 (drop 32 plaintext) = Noise.Pub identity)
  then Some (hkdf_SHA256 (shared ++ identityShared ++ drop 64 plaintext) [] advSecretInfo 32) else None.
End Primary.

Lemma linking_code_length l : length l = 5%nat -> String.length (linkingBase32 l) = 8%nat.
Proof. intros Hl. do 5 (destruct l as [|? l]; [done|]). by destruct l. Qed.
(** The first child is found by its tag. *)
Lemma content_first tag b rest top attrs :
  content_of tag (mkNode top attrs (VNodes (mkNode tag [] (VBytes b) :: rest))) = Some (codes b).
Proof. unfold content_of, GetChildByTag. rewrite child_lookup. cbn -[codes String.eqb]. by rewrite String.eqb_refl. Qed.

Lemma typed_shown code :
  String.length code = 8%nat -> typed (take_str 4 code +:+ "-" +:+ drop_str 4 code) = code.
Proof. intros Hl. do 8 (destruct code as [|? code]; [done|]). destruct code; [done|done]. Qed.

Section Agreement.
Context (ScalarBaseMult : Bytes -> Bytes) (pbkdf2 : Bytes -> Bytes -> Bytes) (ctr : Bytes -> Bytes -> Bytes -> Bytes).
Context (X25519 : Bytes -> Bytes -> option Bytes) (hkdf_SHA256 : Bytes -> Bytes -> Bytes -> Z -> Bytes).
Context (gcmSeal : Bytes -> Bytes -> Bytes -> Bytes -> Bytes) (gcmOpen : Bytes -> Bytes -> Bytes -> Bytes -> option Bytes).
Context (sendIQ : infoQuery -> option node * option iq_error).
(** Public keys, with Diffie and Hellman's exchange; a stream cipher; an
    authenticated one. *)
Hypothesis public_key : forall a, length (ScalarBaseMult a) = 32%nat /\ Forall is_byte (ScalarBaseMult a).
Hypothesis exchange : forall a b, X25519 a (ScalarBaseMult b) = X25519 b (ScalarBaseMult a).
Hypothesis ctr_stream : forall k iv p, ctr k iv (ctr k iv p) = p /\ length (ctr k iv p) = length p.
Hypothesis ctr_bytes : forall k iv p, Forall is_byte p -> Forall is_byte (ctr k iv p).
Hypothesis gcm_opens : forall k n p a, gcmOpen k n (gcmSeal k n p a) a = Some p.
Hypothesis gcm_bytes : forall k n p a, Forall is_byte p -> Forall is_byte (gcmSeal k n p a).
Notation PairPhone := (PairPhone ScalarBaseMult pbkdf2 ctr sendIQ).
Notation handleCodePairNotification := (handleCodePairNotification pbkdf2 ctr X25519 hkdf_SHA256 gcmSeal sendIQ).
Notation primary_answer := (primary_answer pbkdf2 ctr).
Notation primary_secret := (primary_secret pbkdf2 ctr X25519 hkdf_SHA256 gcmOpen).

(** So many bytes. *)
Definition sized (n : nat) (l : Bytes) : Prop := length l = n /\ Forall is_byte l.

Lemma decrypt_wrapped code salt iv pub :
  sized 32 salt -> sized 16 iv -> sized 32 pub ->
  decryptPrimaryPub pbkdf2 ctr code (salt ++ iv ++ ctr (pbkdf2 (codes code) salt) iv pub) = pub.
Proof.
  intros [Hs _] [Hi _] [Hp _]. unfold decryptPrimaryPub.
  assert (length (ctr (pbkdf2 (codes code) salt) iv pub) = 32%nat) as Hc by (by rewrite (proj2 (ctr_stream _ _ _))).
  rewrite <- Hs at 1. rewrite take_app_length. rewrite <- Hs at 1. rewrite drop_app_length.
  rewrite <- Hi at 1. rewrite take_app_length. rewrite (app_assoc salt iv).
  assert (48%nat = length (salt ++ iv)) as -> by (rewrite length_app; lia). rewrite drop_app_length.
  rewrite <- Hc, take_ge by lia. apply ctr_stream.
Qed.

Lemma split3 (a b c : Bytes) :
  length a = 32%nat -> length b = 32%nat ->
  take 32 (concatBytes [a; b; c]) = a /\ take 32 (drop 32 (concatBytes [a; b; c])) = b /\ drop 64 (concatBytes [a; b; c]) = c.
Proof.
  intros Ha Hb. unfold concatBytes. cbn [concat]. rewrite app_nil_r. split; [|split].
  - by rewrite take_app_length'.
  - rewrite drop_app_length' by done. by rewrite take_app_length'.
  - rewrite app_assoc. assert (64%nat = length (a ++ b)) as -> by (rewrite length_app; lia). by rewrite drop_app_length.
Qed.
Lemma bundle_parts shared pub pub' r :
  sized 32 (keyBundleSalt r) -> sized 12 (keyBundleNonce r) ->
  let bundle := wrapKeyBundle hkdf_SHA256 gcmSeal shared pub pub' r in
  take 32 bundle = keyBundleSalt r /\ take 12 (drop 32 bundle) = keyBundleNonce r /\
  drop 44 bundle = gcmSeal (hkdf_SHA256 shared (keyBundleSalt r) keyBundleInfo 32) (keyBundleNonce r)
    (concatBytes [pub; pub'; advSecretRandom r]) [].
Proof.
  intros [Hs _] [Hn _]. unfold wrapKeyBundle, concatBytes. cbn [concat]. rewrite !app_nil_r. split; [|split].
  - by rewrite take_app_length'.
  - rewrite drop_app_length' by done. by rewrite take_app_length'.
  - rewrite app_assoc. assert (44%nat = length (keyBundleSalt r ++ keyBundleNonce r)) as -> by (rewrite length_app; lia). by rewrite drop_app_length.
Qed.

Lemma shown_code random phone push clientType displayName c c1 shown :
  sized 32 (pr_salt random) -> sized 16 (pr_iv random) -> sized 5 (pr_code random) ->
  PairPhone random phone push clientType displayName c = (inr shown, c1) ->
  exists hello ref jid, did c1 = did c ++ [Queried (md_query hello)] /\ Store c1 = Store c /\
    let '(kp, key, code) := generateCompanionEphemeralKey ScalarBaseMult pbkdf2 ctr random in
    typed shown = code /\ phoneLinking c1 = Some (mkLinking jid kp code ref) /\
    content_of "link_code_pairing_wrapped_companion_ephemeral_pub" hello = Some key.
Proof.
  intros Hs Hi Hc. unfold PairPhone. destruct (generateCompanionEphemeralKey _ _ _ _) as [[kp key] code] eqn:Hg.
  destruct (len (only_numbers phone) <=? 6); [done|]. destruct (has_prefix _ _); [done|].
  set (hello := helloNode _ _ _ _ _ _). destruct (sendIQ (md_query hello)) as [[resp|] [e|]]; try done.
  destruct (GetOptionalChildByTag resp _) as [refNode []]; [|done]. destruct (Content refNode); try done.
  intros [= <- <-]. exists hello. eexists _, _. split; [done|]. split; [done|].
  unfold generateCompanionEphemeralKey in Hg. injection Hg as <- <- <-. split; [|split; [done|]].
  - apply typed_shown, linking_code_length, Hc.
  - etransitivity; [by apply content_first|]. rewrite codes_of_codes; [done|].
    destruct (public_key (clamp (pr_key random))), Hs, Hi. repeat apply Forall_app_2; auto.
Qed.

(** C29. The primary device that is given the code that [PairPhone] shows, and
    answers with it, makes from the new device's answer the secret that the new
    device keeps, by which the pairing is authenticated afterwards. *)
Theorem link_code_agreement random phone push clientType displayName c c1 shown ephPriv idPriv idPriv' salt iv ref r c2 :
  sized 32 (pr_salt random) -> sized 16 (pr_iv random) -> sized 5 (pr_code random) ->
  sized 32 salt -> sized 16 iv ->
  sized 32 (advSecretRandom r) -> sized 32 (keyBundleSalt r) -> sized 12 (keyBundleNonce r) ->
  IdentityKey (Store c) = pair_of ScalarBaseMult idPriv ->
  PairPhone random phone push clientType displayName c = (inr shown, c1) ->
  let eph := pair_of ScalarBaseMult ephPriv in let identity := pair_of ScalarBaseMult idPriv' in
  handleCodePairNotification (primary_answer (typed shown) eph identity salt iv ref) r c1 = (None, c2) ->
  exists hello finish, did c2 = did c ++ [Queried (md_query hello); Queried (md_query finish)] /\
    primary_secret (typed shown) eph identity hello finish = Some (AdvSecretKey (Store c2)).
Proof.
  intros Hrs Hri Hrc Hs Hi Ha Hbs Hbn Hid Hp eph identity Hh.
  destruct (shown_code _ _ _ _ _ _ _ _ Hrs Hri Hrc Hp) as (hello & ref0 & jid & Hdid & Hst & Hg). unfold generateCompanionEphemeralKey in Hg.
  cbn [Noise.Pub Noise.Priv NewKeyPair pair_of] in Hg. destruct Hg as (Ht & Hlink & Hhello).
  set (priv := clamp (pr_key random)) in *. set (code := typed shown) in *.
  destruct (public_key ephPriv) as [Hel Heb], (public_key idPriv') as [Hil Hib], (public_key idPriv) as [Hml Hmb], (public_key priv) as [Hpl Hpb].
  assert (Forall is_byte (salt ++ iv ++ ctr (pbkdf2 (codes code) salt) iv (ScalarBaseMult ephPriv))) as Hwb
    by (destruct Hs, Hi; repeat apply Forall_app_2; auto).
  set (reg := answer_content pbkdf2 ctr code eph identity salt iv ref).
  unfold handleCodePairNotification in Hh.
  change (GetOptionalChildByTag (primary_answer code eph identity salt iv ref) ["link_code_companion_reg"]) with (reg, true) in Hh.
  rewrite Hlink in Hh. cbn [pairingRef linkingCode keyPair lc_jid] in Hh.
  change (as_bytes (Content (GetChildByTag reg ["link_code_pairing_ref"]))) with (Some (codes ref)) in Hh.
  change (as_bytes (Content (GetChildByTag reg ["link_code_pairing_wrapped_primary_ephemeral_pub"]))) with
    (Some (codes (of_codes (salt ++ iv ++ ctr (pbkdf2 (codes code) salt) iv (ScalarBaseMult ephPriv))))) in Hh.
  change (as_bytes (Content (GetChildByTag reg ["primary_identity_pub"]))) with (Some (codes (of_codes (ScalarBaseMult idPriv')))) in Hh.
  cbn [default from_option id] in Hh. rewrite of_codes_codes in Hh. destruct (String.eqb ref ref0); cbn [negb] in Hh; [|done].
  rewrite !codes_of_codes in Hh by done. destruct (length _ <? 80)%nat; [done|].
  rewrite <- Ht in Hh. rewrite decrypt_wrapped in Hh by done. cbn [Noise.Priv] in Hh. rewrite exchange in Hh.
  destruct (X25519 ephPriv (ScalarBaseMult priv)) as [shared|] eqn:Hsh; [|done]. rewrite Hst, Hid in Hh. cbn [Noise.Pub Noise.Priv pair_of] in Hh.
  rewrite exchange in Hh. destruct (X25519 idPriv' (ScalarBaseMult idPriv)) as [idShared|] eqn:Hsi; [|done].
  set (bundle := wrapKeyBundle hkdf_SHA256 gcmSeal shared (ScalarBaseMult idPriv) (ScalarBaseMult idPriv') r) in Hh.
  set (finish := finishNode jid bundle (ScalarBaseMult idPriv) (codes ref)) in Hh.
  injection Hh as _ <-. exists hello, finish. split; [cbn; by rewrite Hdid, <- app_assoc|].
  assert (Forall is_byte bundle) as Hbb.
  { unfold bundle, wrapKeyBundle, concatBytes. cbn [concat]. rewrite !app_nil_r. destruct Hbs, Hbn, Ha. repeat apply Forall_app_2; auto.
    apply gcm_bytes. repeat apply Forall_app_2; auto. }
  assert (content_of "link_code_pairing_wrapped_key_bundle" finish = Some bundle) as Hf.
  { unfold finish, finishNode. rewrite content_first. by rewrite codes_of_codes. }
  unfold primary_secret. rewrite Hhello, Hf. cbn [mbind option_bind]. rewrite <- Ht, decrypt_wrapped by done.
  cbn [Noise.Priv eph pair_of]. rewrite Hsh. cbn [mbind option_bind].
  destruct (bundle_parts shared (ScalarBaseMult idPriv) (ScalarBaseMult idPriv') r) as (H1 & H2 & H3); [done|done|].
  fold bundle in H1, H2, H3. rewrite H1, H2, H3.
  rewrite gcm_opens. cbn [mbind option_bind].
  destruct (split3 (ScalarBaseMult idPriv) (ScalarBaseMult idPriv') (advSecretRandom r)) as (-> & -> & ->); [done|done|].
  cbn [Noise.Priv Noise.Pub identity pair_of]. rewrite Hsi. cbn [mbind option_bind]. by rewrite bool_decide_true.
Qed.
End Agreement.

(** ** The theorems at work *)

Definition toy_base (a : Bytes) : Bytes := repeat (hd 0 a mod 256) 32.
Definition toy_x25519 (a p : Bytes) : option Bytes := Some (repeat ((hd 0 a mod 256) * hd 0 p mod 256) 32).
Definition toy_ctr (k iv p : Bytes) : Bytes := map (fun b => 255 - b) p.
Definition toy_hkdf (key salt info : Bytes) (n : Z) : Bytes := map (fun b => b mod 256) (key ++ info).
Definition toy_seal (k n p a : Bytes) : Bytes := p ++ [7].
Definition toy_open (k n c a : Bytes) : option Bytes := Some (removelast c).

Lemma toy_public a : length (toy_base a) = 32%nat /\ Forall is_byte (toy_base a).
Proof. split; [done|]. apply Forall_forall. intros x ->%list_elem_of_In%repeat_spec. pose proof (Z.mod_pos_bound (hd 0 a) 256 eq_refl). unfold is_byte. lia. Qed.
Lemma toy_exchange a b : toy_x25519 a (toy_base b) = toy_x25519 b (toy_base a).
Proof. unfold toy_x25519. cbn [toy_base repeat hd]. by rewrite Z.mul_comm. Qed.
Lemma toy_stream k iv p : toy_ctr k iv (toy_ctr k iv p) = p /\ length (toy_ctr k iv p) = length p.
Proof. split; [|apply length_map]. unfold toy_ctr. rewrite map_map. rewrite <- (map_id p) at 2. apply map_ext. lia. Qed.
Lemma toy_ctr_bytes k iv p : Forall is_byte p -> Forall is_byte (toy_ctr k iv p).
Proof. intros H. apply Forall_map. eapply Forall_impl; [exact H|]. unfold is_byte. lia. Qed.
Lemma toy_opens k n p a : toy_open k n (toy_seal k n p a) a = Some p.
Proof. unfold toy_open, toy_seal. by rewrite removelast_last. Qed.
Lemma toy_seal_bytes k n p a : Forall is_byte p -> Forall is_byte (toy_seal k n p a).
Proof. intros H. apply Forall_app_2; [done|]. repeat constructor; lia. Qed.
Lemma sized_repeat n b : is_byte b -> sized n (repeat b n).
Proof. intros H. split; [apply repeat_length|apply Forall_forall; by intros x ->%list_elem_of_In%repeat_spec]. Qed.

Definition demo_random : pair_random := mkRandom (repeat 3 32) (repeat 4 32) (repeat 5 16) (repeat 6 5).
Definition demo_finish : finish_random := mkFinishRandom (repeat 8 32) (repeat 9 32) (repeat 10 12).
Definition demo_unpaired : Device :=
  NewDevice toy_base (fun _ _ => repeat 6 64) (repeat 1 32) (repeat 2 32) (repeat 3 32) 77 (repeat 9 32).
Definition demo_client (faults : list bool) : Client :=
  mkClient demo_unpaired (mkDeviceDB [] ∅ faults) (NewCachedLIDMap [] []) None 0 false true [].
Definition demo_iq (q : infoQuery) : option node * option iq_error :=
  (Some (mkNode "iq" [] (VNodes [mkNode "link_code_companion_reg" [] (VNodes [mkNode "link_code_pairing_ref" [] (VBytes "ref")])])), None).

Definition demo_shown : string := "1R41-D2H7".
Definition demo_paired_phone := PairPhone toy_base (fun a _ => a) toy_ctr demo_iq demo_random "+49 151 23456" true "1" "Chrome (Linux)" (demo_client []).
Definition demo_answer : node :=
  primary_answer (fun a _ => a) toy_ctr (typed demo_shown) (pair_of toy_base (repeat 20 32)) (pair_of toy_base (repeat 21 32))
    (repeat 22 32) (repeat 23 16) "ref".
Definition demo_notified : option code_error * Client :=
  handleCodePairNotification (fun a _ => a) toy_ctr toy_x25519 toy_hkdf toy_seal demo_iq demo_answer demo_finish demo_paired_phone.2.

Lemma link_code_agreement_witness :
  demo_paired_phone.1 = inr demo_shown /\ demo_notified.1 = None /\
  exists hello finish, did demo_notified.2 = [Queried (md_query hello); Queried (md_query finish)] /\
    primary_secret (fun a _ => a) toy_ctr toy_x25519 toy_hkdf toy_open (typed demo_shown) (pair_of toy_base (repeat 20 32))
      (pair_of toy_base (repeat 21 32)) hello finish = Some (AdvSecretKey (Store demo_notified.2)).
Proof.
  split; [by vm_compute|]. split; [by vm_compute|].
  refine (link_code_agreement toy_base (fun a _ => a) toy_ctr toy_x25519 toy_hkdf toy_seal toy_open demo_iq
    toy_public toy_exchange toy_stream toy_ctr_bytes toy_opens toy_seal_bytes demo_random "+49 151 23456" true "1" "Chrome (Linux)"
    (demo_client []) demo_paired_phone.2 demo_shown (repeat 20 32) (clamp (repeat 2 32)) (repeat 21 32) (repeat 22 32) (repeat 23 16) "ref"
    demo_finish demo_notified.2 _ _ _ _ _ _ _ _ _ _ _);
    try (by apply sized_repeat); by vm_compute.
Defined.

Definition demo_identity : SignedDeviceIdentity := mkIdentity (Some [1]) (Some (repeat 3 32)) (Some (repeat 4 64)) None.
Notation demo_pair callback mac faults :=
  (handlePair SQLite (fun _ _ => repeat 6 64) (fun k m s => bool_decide (k = repeat 3 32 /\ hd 0 m = 6)) (fun k m => k)
    (fun b => Some (mkContainer b mac false)) (fun _ => Some demo_identity) (fun _ => Some (mkDetails 4 false)) (fun _ => Some [5])
    (fun _ => true) callback [1; 2] "id" "Shop" "android" demo_jid (NewADJID "88" 1 7) (demo_client faults)).
Definition paired_client (r : outcome (option pair_error * Client)) : Client := match r with Ret (_, c) => c | Panic _ => demo_client [] end.

Lemma pairing_authenticated_witness :
  demo_pair None (repeat 9 32) [] = Ret (None, paired_client (demo_pair None (repeat 9 32) [])) /\
  Account (Store (paired_client (demo_pair None (repeat 9 32) []))) = Some (demo_identity <| DeviceSignature := Some (repeat 6 64) |>).
Proof.
  assert (demo_pair None (repeat 9 32) [] = Ret (None, paired_client (demo_pair None (repeat 9 32) []))) as H by by vm_compute.
  split; [exact H|].
  destruct (pairing_authenticated _ _ _ _ _ _ _ _ _ _ _ _ _ _ _ _ _ _ _ H) as [(H0 & _)|(i & dt & k & [(ct & Hc & _ & Hi) _ _ _] & _ & Hk)].
  - by destruct H0.
  - injection Hi as <-. destruct (Hk eq_refl) as (selfSigned & _ & Ha & _). exact Ha.
Defined.

Lemma pairing_survives_restart_witness :
  let c' := paired_client (demo_pair None (repeat 9 32) []) in
  demo_pair None (repeat 9 32) [] = Ret (None, c') /\ GetDevice toy_base demo_jid (db c') = Ret (inr (Some (Store c')), db c').
Proof.
  intros c'. assert (demo_pair None (repeat 9 32) [] = Ret (None, c')) as H by by vm_compute. split; [exact H|].
  apply (pairing_survives_restart _ _ _ _ _ _ _ _ _ _ _ _ _ _ _ _ _ _ _ H);
    [by split|split; by vm_compute|right; split; by vm_compute|done|by vm_compute].
Defined.

Example pairing_refusals :
  match demo_pair None (repeat 8 32) [] with
  | Ret (Some ErrPairInvalidDeviceIdentityHMAC, c) => did c = [Sent (errorNode "id" 401 "hmac-mismatch")]
  | _ => False
  end /\
  match demo_pair (Some (fun _ _ _ => false)) (repeat 9 32) [] with Ret (Some ErrPairRejectedLocally, c) => ID (Store c) = None | _ => False end /\
  match demo_pair None (repeat 9 32) [true] with Ret (Some (PairDatabaseError _ _), c) => ID (Store c) = Some demo_jid | _ => False end.
Proof. split; [|split]; by vm_compute. Qed.
