(* ===== verification/QrChannel.v ===== *)
(** * [whatsmeow/qrchan.go]

    The channel of QR codes.  A goroutine per QR event emits codes and the
    handler of events ends the channel; both run at once with the reader, and
    with handlers for other events.  The steps are the operations on what they
    share: an atomic flag and two channels. *)
From S2P Require Import Prelude GoStrings GoTime Jid BinaryNode NodeAttrs DeviceStore Pairing.

Record QRChannelItem : Type := mkItem { it_Event : string; it_Error : option pair_error; it_Code : string; it_Timeout : Duration }.
Definition QRChannelEventCode : string := "code".
Definition QRChannelEventError : string := "error".
Definition item (e : string) : QRChannelItem := mkItem e None "" 0.
Definition QRChannelSuccess : QRChannelItem := item "success".
Definition QRChannelTimeout : QRChannelItem := item "timeout".
Definition QRChannelErrUnexpectedEvent : QRChannelItem := item "err-unexpected-state".
Definition QRChannelClientOutdated : QRChannelItem := item "err-client-outdated".
Definition QRChannelScannedWithoutMultidevice : QRChannelItem := item "err-scanned-without-multidevice".

(** The events, as far as the handler tells them apart. *)
Inductive qr_event : Type :=
| EvQR (codes : list string)
| EvQRScannedWithoutMultidevice
| EvClientOutdated
| EvPairSuccess
| EvPairError (e : pair_error)
| EvDisconnected
| EvConnected
| EvConnectFailure
| EvLoggedOut
| EvTemporaryBan
| EvOther.

(** What the goroutines share: the flag, the output with its 8 places, the signal
    to stop; and what they did to the client. *)
Record Shared : Type := mkShared {
  closed : bool;
  output : list QRChannelItem;
  output_closed : bool;
  stopQRs_closed : bool;
  disconnects : nat;
  removals : nat }.
#[export] Instance eta_Shared : Eta Shared := fun r =>
  mkShared (closed r) (output r) (output_closed r) (stopQRs_closed r) (disconnects r) (removals r).
Definition capacity : nat := 8.

Inductive qr_panic : Type := SendOnClosed | CloseOutputTwice | CloseStopTwice.

(** A send to the output that blocks ([None]) or not. *)
Definition send_output (i : QRChannelItem) (s : Shared) : option (qr_panic + Shared) :=
  if output_closed s then Some (inl SendOnClosed)
  else if (length (output s) <? capacity)%nat then Some (inr (s <| output := output s ++ [i] |>))
  else None.
Definition close_output (s : Shared) : qr_panic + Shared :=
  if output_closed s then inl CloseOutputTwice else inr (s <| output_closed := true |>).
Definition close_stopQRs (s : Shared) : qr_panic + Shared :=
  if stopQRs_closed s then inl CloseStopTwice else inr (s <| stopQRs_closed := true |>).
(** [close]: the swap, and whether it was the first. *)
Definition swap_closed (s : Shared) : bool * Shared := (negb (closed s), s <| closed := true |>).
Definition abandon (s : Shared) : Shared := s <| removals := S (removals s) |> <| disconnects := S (disconnects s) |>.

(** ** [emitQRs]

    Where a goroutine is, with the codes that it has left: at the head of the
    loop; before the send; in the second select; with the flag won, before the
    last send and before the close.  [after] is where it goes then. *)
Inductive emitter : Type :=
| AtTop (codes : list string)
| BeforeSend (timeout : Duration) (code : string) (codes : list string)
| Waiting (timeout : Duration) (codes : list string)
| LastSend
| LastClose (again : option (list string))
| EmitterDone.

(** What the second select takes. *)
Inductive wake : Type := TimeAfter | StopSignal | ExpectedDisconnect | CtxDone.

Definition after_close (again : option (list string)) : emitter :=
  match again with None => EmitterDone | Some codes => AtTop codes end.
Definition emit_step (w : wake) (e : emitter) (s : Shared) : option (qr_panic + emitter * Shared) :=
  match e with
  | AtTop [] => let '(first, s) := swap_closed s in Some (inr (if first then LastSend else EmitterDone, s))
  | AtTop (code :: codes) =>
      if closed s then Some (inr (EmitterDone, s))
      else
        let timeout := if (length (code :: codes) =? 6)%nat then 60 * Second else 20 * Second in
        Some (inr (BeforeSend timeout code codes, s))
  | BeforeSend timeout code codes =>
      match send_output (mkItem QRChannelEventCode None code timeout) s with
      | Some (inl p) => Some (inl p)
      | Some (inr s) => Some (inr (Waiting timeout codes, s))
      | None => let '(first, s) := swap_closed s in Some (inr (if first then LastClose None else EmitterDone, s))
      end
  | Waiting _ codes =>
      match w with
      | TimeAfter => Some (inr (AtTop codes, s))
      | StopSignal => if stopQRs_closed s then Some (inr (EmitterDone, s)) else None
      | ExpectedDisconnect => Some (inr (EmitterDone, s))
      | CtxDone => let '(first, s) := swap_closed s in Some (inr (if first then LastClose (Some codes) else AtTop codes, s))
      end
  | LastSend =>
      match send_output QRChannelTimeout s with
      | Some (inl p) => Some (inl p)
      | Some (inr s) => Some (inr (LastClose None, s))
      | None => None
      end
  | LastClose again =>
      Some (match close_output s with inl p => inl p | inr s => inr (after_close again, abandon s) end)
  | EmitterDone => None
  end.

(** ** [handleEvent]

    [dispatchEvent] recovers a panic of the handler: the call has ended then. *)

Inductive handler : Type :=
| Called (evt : qr_event)
| Scanned
| BeforeStop (out : QRChannelItem)
| BeforeSwap (out : QRChannelItem)
| FinalSend (out : QRChannelItem)
| FinalClose
| HandlerDone (emits : option (list string))
| HandlerPanicked (p : qr_panic).

(** [None] for the events that do not end the channel. *)
Definition outputType (evt : qr_event) : option QRChannelItem :=
  match evt with
  | EvClientOutdated => Some QRChannelClientOutdated
  | EvPairSuccess => Some QRChannelSuccess
  | EvPairError e => Some (mkItem QRChannelEventError (Some e) "" 0)
  | EvDisconnected => Some QRChannelTimeout
  | EvConnected | EvConnectFailure | EvLoggedOut | EvTemporaryBan => Some QRChannelErrUnexpectedEvent
  | EvQR _ | EvQRScannedWithoutMultidevice | EvOther => None
  end.

Definition remove_handler (s : Shared) : Shared := s <| removals := S (removals s) |>.
Definition handle_step (h : handler) (s : Shared) : option (qr_panic + handler * Shared) :=
  match h with
  | Called evt =>
      if closed s then Some (inr (HandlerDone None, s))
      else Some (inr (match evt with
                      | EvQR codes => HandlerDone (Some codes)
                      | EvQRScannedWithoutMultidevice => Scanned
                      | _ => match outputType evt with Some out => BeforeStop out | None => HandlerDone None end
                      end, s))
  | Scanned =>
      match send_output QRChannelScannedWithoutMultidevice s with
      | Some (inl p) => Some (inl p)
      | Some (inr s) => Some (inr (HandlerDone None, s))
      | None => None
      end
  | BeforeStop out => Some (match close_stopQRs s with inl p => inl p | inr s => inr (BeforeSwap out, s) end)
  | BeforeSwap out =>
      let '(first, s) := swap_closed s in
      Some (inr (if first then (FinalSend out, s) else (HandlerDone None, remove_handler s)))
  | FinalSend out =>
      match send_output out s with
      | Some (inl p) => Some (inl p)
      | Some (inr s) => Some (inr (FinalClose, s))
      | None => None
      end
  | FinalClose => Some (match close_output s with inl p => inl p | inr s => inr (HandlerDone None, remove_handler s) end)
  | HandlerDone _ | HandlerPanicked _ => None
  end.

(** ** [GetQRChannel] *)

Inductive qr_error : Type := ErrQRAlreadyConnected | ErrQRStoreContainsID.
Definition new_shared : Shared := mkShared false [] false false 0 0.
Definition GetQRChannel (isConnected : bool) (device : Device) : qr_error + Shared :=
  if isConnected then inl ErrQRAlreadyConnected
  else match ID device with Some _ => inl ErrQRStoreContainsID | None => inr new_shared end.

(** ** All together

    The goroutines and the calls of the handler that were ever started, and what
    the reader has taken.  A panic of a goroutine ends the program, one of the handler
    only its call. *)
Record World : Type := mkWorld { shared : Shared; emitters : list emitter; handlers : list handler; taken : list QRChannelItem }.
Definition new_world : World := mkWorld new_shared [] [] [].

(** A call that has just got codes starts a goroutine. *)
Definition spawn (h : handler) (es : list emitter) : list emitter :=
  match h with HandlerDone (Some codes) => es ++ [AtTop codes] | _ => es end.

Inductive qr_step : World -> qr_panic + World -> Prop :=
| qr_call w evt : qr_step w (inr (mkWorld (shared w) (emitters w) (handlers w ++ [Called evt]) (taken w)))
| qr_take w i rest s :
    output (shared w) = i :: rest -> s = (shared w) <| output := rest |> ->
    qr_step w (inr (mkWorld s (emitters w) (handlers w) (taken w ++ [i])))
| qr_emit w k e wk e' s :
    emitters w !! k = Some e -> emit_step wk e (shared w) = Some (inr (e', s)) ->
    qr_step w (inr (mkWorld s (<[k := e']> (emitters w)) (handlers w) (taken w)))
| qr_emit_panic w k e wk p : emitters w !! k = Some e -> emit_step wk e (shared w) = Some (inl p) -> qr_step w (inl p)
| qr_handle w k h h' s :
    handlers w !! k = Some h -> handle_step h (shared w) = Some (inr (h', s)) ->
    qr_step w (inr (mkWorld s (spawn h' (emitters w)) (<[k := h']> (handlers w)) (taken w)))
| qr_handle_panic w k h p :
    handlers w !! k = Some h -> handle_step h (shared w) = Some (inl p) ->
    qr_step w (inr (mkWorld (shared w) (emitters w) (<[k := HandlerPanicked p]> (handlers w)) (taken w))).

Definition qr_next (w w' : World) : Prop := qr_step w (inr w').

(** ** The output ends once *)

(** A value that ends the channel. *)
Definition final (i : QRChannelItem) : bool :=
  negb (String.eqb (it_Event i) QRChannelEventCode) && negb (String.eqb (it_Event i) (it_Event QRChannelScannedWithoutMultidevice)).
Definition finals (l : list QRChannelItem) : nat := sum_list_with (fun i => if final i then 1%nat else 0%nat) l.
(** The value that a handler is about to send ends the channel. *)
Definition handler_ok (h : handler) : Prop :=
  match h with BeforeStop out | BeforeSwap out | FinalSend out => final out = true | HandlerPanicked p => p <> CloseOutputTwice | _ => True end.

(** Those that have won the flag, and those that still have to send their value. *)
Definition e_won (e : emitter) : nat := match e with LastSend | LastClose _ => 1 | _ => 0 end.
Definition h_won (h : handler) : nat := match h with FinalSend _ | FinalClose => 1 | _ => 0 end.
Definition e_pending (e : emitter) : nat := match e with LastSend => 1 | _ => 0 end.
Definition h_pending (h : handler) : nat := match h with FinalSend _ => 1 | _ => 0 end.
Definition won (w : World) : nat := (sum_list_with e_won (emitters w) + sum_list_with h_won (handlers w))%nat.
Definition pending (w : World) : nat := (sum_list_with e_pending (emitters w) + sum_list_with h_pending (handlers w))%nat.
Definition nat_of (b : bool) : nat := if b then 1%nat else 0%nat.

Record qr_inv (w : World) : Prop := mkQrInv {
  qi_won : (won w + nat_of (output_closed (shared w)))%nat = nat_of (closed (shared w));
  qi_finals : (finals (taken w) + finals (output (shared w)) + pending w <= nat_of (closed (shared w)))%nat;
  qi_handlers : Forall handler_ok (handlers w) }.

Lemma sum_insert {A} (f : A -> nat) l k x y :
  l !! k = Some x -> (sum_list_with f (<[k := y]> l) + f x = sum_list_with f l + f y)%nat.
Proof.
  revert k. induction l as [|a l IH]; intros [|k] H; [done|done|injection H as ->; cbn; lia|]. specialize (IH k H). change (<[S k:=y]> (a :: l)) with (a :: <[k:=y]> l). cbn [sum_list_with]. lia.
Qed.
Lemma sum_snoc {A} (f : A -> nat) l x : sum_list_with f (l ++ [x]) = (sum_list_with f l + f x)%nat.
Proof. rewrite sum_list_with_app. cbn. lia. Qed.
Lemma sum_ge {A} (f : A -> nat) l k x : l !! k = Some x -> (f x <= sum_list_with f l)%nat.
Proof.
  revert k. induction l as [|a l IH]; intros [|k] H; [done|done|injection H as ->; cbn; lia|]. specialize (IH k H). cbn. lia.
Qed.

Lemma output_final evt out : outputType evt = Some out -> final out = true.
Proof. destruct evt; try done; by intros [= <-]. Qed.

Lemma send_output_ok i s s' : send_output i s = Some (inr s') -> output_closed s = false /\ s' = s <| output := output s ++ [i] |>.
Proof. unfold send_output. destruct (output_closed s); [done|]. destruct (_ <? _)%nat; [|done]. by intros [= <-]. Qed.
Lemma send_output_bad i s p : send_output i s = Some (inl p) -> output_closed s = true /\ p = SendOnClosed.
Proof. unfold send_output. destruct (output_closed s); [by intros [= <-]|]. by destruct (_ <? _)%nat. Qed.

(** A step of a goroutine: what it wins and what it sends. *)
Record balanced (won won' pend pend' : nat) (s s' : Shared) : Prop := mkBalanced {
  ba_won : (won' + nat_of (output_closed s') + nat_of (closed s) = won + nat_of (output_closed s) + nat_of (closed s'))%nat;
  ba_finals : (finals (output s') + pend' + nat_of (closed s) <= finals (output s) + pend + nat_of (closed s'))%nat }.

Lemma emit_balanced wk e s e' s' :
  emit_step wk e s = Some (inr (e', s')) -> balanced (e_won e) (e_won e') (e_pending e) (e_pending e') s s'.
Proof.
  destruct e as [[|code codes]|timeout code codes|timeout codes| |again|]; cbn -[Nat.eqb send_output Nat.leb]; intros H.
  - injection H as <- <-. destruct s as [[] ? ? ? ? ?]; split; cbn; lia.
  - destruct (closed s); injection H as <- <-; by split.
  - destruct (send_output _ s) as [[|s1]|] eqn:Hs; [done| |].
    + apply send_output_ok in Hs as [Ho ->]. injection H as <- <-. split; cbn; [done|]. unfold finals. rewrite sum_snoc. cbn. lia.
    + injection H as <- <-. destruct s as [[] ? ? ? ? ?]; split; cbn; lia.
  - destruct wk; [injection H as <- <-; by split| |injection H as <- <-; by split|].
    + destruct (stopQRs_closed s); [|done]. injection H as <- <-. by split.
    + injection H as <- <-. destruct s as [[] ? ? ? ? ?]; split; cbn; lia.
  - destruct (send_output _ s) as [[|s1]|] eqn:Hs; [done| |done]. apply send_output_ok in Hs as [Ho ->]. injection H as <- <-.
    split; cbn; [done|]. unfold finals. rewrite sum_snoc. cbn. lia.
  - unfold close_output in H. destruct (output_closed s) eqn:Ho; [done|]. injection H as <- <-.
    destruct s as [c ? ? ? ? ?]. cbn in Ho. subst. destruct again, c; split; cbn; lia.
  - done.
Qed.
Lemma handle_balanced h s h' s' :
  handler_ok h -> handle_step h s = Some (inr (h', s')) ->
  balanced (h_won h) (h_won h') (h_pending h) (h_pending h') s s' /\ handler_ok h'.
Proof.
  destruct h as [evt| |out|out|out| |emits|p]; cbn -[send_output]; intros Hok H.
  - destruct (closed s); [injection H as <- <-; by split|].
    destruct evt; injection H as <- <-; by split.
  - destruct (send_output _ s) as [[|s1]|] eqn:Hs; [done| |done]. apply send_output_ok in Hs as [Ho ->]. injection H as <- <-.
    split; [|done]. split; cbn; [done|]. unfold finals. rewrite sum_snoc. cbn. lia.
  - unfold close_stopQRs in H. destruct (stopQRs_closed s); [done|]. injection H as <- <-. by split.
  - destruct s as [[] ? ? ? ? ?]; injection H as <- <-; (split; [|done]); split; cbn; lia.
  - destruct (send_output out s) as [[|s1]|] eqn:Hs; [done| |done]. apply send_output_ok in Hs as [Ho ->]. injection H as <- <-.
    split; [|done]. split; cbn; [done|]. unfold finals. rewrite sum_snoc, Hok. lia.
  - unfold close_output in H. destruct (output_closed s) eqn:Ho; [done|]. injection H as <- <-. split; [|done].
    destruct s as [c ? ? ? ? ?]. cbn in Ho. subst. destruct c; split; cbn; lia.
  - done.
  - done.
Qed.

(** Where a panic can come from. *)
Lemma emit_bad wk e s p :
  emit_step wk e s = Some (inl p) -> output_closed s = true /\ (p = SendOnClosed \/ p = CloseOutputTwice /\ e_won e = 1%nat).
Proof.
  destruct e as [[|? ?]|? ? ?|? ?| |?|]; cbn -[send_output Nat.eqb]; intros He; try done.
  - by destruct (closed _).
  - destruct (send_output _ _) as [[q|]|] eqn:Hs; [|done|done]. apply send_output_bad in Hs as [? ->]. injection He as <-. auto.
  - destruct wk; try done. by destruct (stopQRs_closed _).
  - destruct (send_output _ _) as [[q|]|] eqn:Hs; [|done|done]. apply send_output_bad in Hs as [? ->]. injection He as <-. auto.
  - unfold close_output in He. destruct (output_closed s); [|done]. injection He as <-. auto.
Qed.
Lemma handle_bad h s p :
  handle_step h s = Some (inl p) ->
  h = Scanned /\ p = SendOnClosed \/ (exists out, h = BeforeStop out /\ p = CloseStopTwice /\ stopQRs_closed s = true) \/
  h_won h = 1%nat /\ output_closed s = true.
Proof.
  destruct h; cbn -[send_output]; intros He; try done.
  - by destruct (closed _).
  - destruct (send_output _ _) as [[q|]|] eqn:Hs; [|done|done]. apply send_output_bad in Hs as [? ->]. injection He as <-. auto.
  - unfold close_stopQRs in He. destruct (stopQRs_closed s); [|done]. injection He as <-. right. left. by eexists.
  - destruct (send_output _ _) as [[q|]|] eqn:Hs; [|done|done]. apply send_output_bad in Hs as [? ->]. auto.
  - unfold close_output in He. destruct (output_closed s); [|done]. auto.
Qed.

Lemma spawn_sums h es : sum_list_with e_won (spawn h es) = sum_list_with e_won es /\ sum_list_with e_pending (spawn h es) = sum_list_with e_pending es.
Proof. unfold spawn. repeat case_match; try done. rewrite !sum_snoc. cbn [e_won e_pending]. lia. Qed.

Lemma qr_inv_preserved : preserved qr_next qr_inv.
Proof.
  intros w w' Hstep [Hw Hf Hh]. unfold qr_next in Hstep. inversion Hstep as [w0 evt|w0 i rest s Ho Hs|w0 k e wk e' s Hk He| |w0 k h h' s Hk He|w0 k h p Hk He]; subst w0; subst w'.
  - split; unfold won, pending in *; cbn [shared emitters handlers taken] in *; rewrite ?sum_snoc; cbn [h_won h_pending]; [lia|lia|]. apply Forall_app. split; [done|]. by constructor.
  - subst s. split; [done| |done]. unfold pending, finals in *. cbn [shared emitters handlers taken] in *. rewrite sum_snoc.
    rewrite Ho in Hf. change (output ((shared w) <| output := rest |>)) with rest. cbn [sum_list_with] in Hf.
    change (closed ((shared w) <| output := rest |>)) with (closed (shared w)). lia.
  - apply emit_balanced in He as [H1 H2]. pose proof (sum_insert e_won _ _ _ e' Hk) as Hi1. pose proof (sum_insert e_pending _ _ _ e' Hk) as Hi2.
    split; unfold won, pending in *; cbn [shared emitters handlers taken] in *; [lia|lia|done].
  - pose proof (proj1 (Forall_lookup _ _) Hh _ _ Hk) as Hok. apply handle_balanced in He as [[H1 H2] Hok']; [|done].
    pose proof (sum_insert h_won _ _ _ h' Hk) as Hi1. pose proof (sum_insert h_pending _ _ _ h' Hk) as Hi2.
    destruct (spawn_sums h' (emitters w)) as [Hs1 Hs2].
    split; unfold won, pending in *; cbn [shared emitters handlers taken] in *; [lia|lia|]. by apply Forall_insert.
  - assert (h_won h = 0%nat /\ h_pending h = 0%nat /\ p <> CloseOutputTwice) as (H1 & H2 & H3).
    { apply handle_bad in He as [[-> ->]|[(out & -> & -> & _)|[H1 H2]]]; [done|done|]. exfalso.
      pose proof (sum_ge h_won _ _ _ Hk). unfold won in Hw. rewrite H2 in Hw. destruct (closed _); cbn in Hw; lia. }
    pose proof (sum_insert h_won _ _ _ (HandlerPanicked p) Hk) as Hi1. pose proof (sum_insert h_pending _ _ _ (HandlerPanicked p) Hk) as Hi2.
    split; unfold won, pending in *; cbn [shared emitters handlers taken h_won h_pending] in *; [lia|lia|]. by apply Forall_insert.
Qed.

(** C27. However the goroutines, the events and the reader interleave, also after panics of the
    handler, the output is closed at most once, and at most one value that ends it is ever sent. *)
Theorem qr_ends_once w :
  rtc qr_next new_world w ->
  (forall p, qr_step w (inl p) -> p <> CloseOutputTwice) /\ HandlerPanicked CloseOutputTwice ∉ handlers w /\
  (finals (taken w) + finals (output (shared w)) <= 1)%nat.
Proof.
  intros Hr. assert (qr_inv w) as [Hw Hf Hh].
  { eapply (rtc_preserved _ _ _ _ qr_inv_preserved); [exact Hr|]. split; cbn; [done|done|constructor]. }
  split; [|split; [|destruct (closed (shared w)); cbn in Hf; lia]].
  - intros p Hp ->. inversion Hp as [| | |w0 k e wk p0 Hk He| |]; subst.
    apply emit_bad in He as [Ho [|[_ H1]]]; [done|]. pose proof (sum_ge e_won _ _ _ Hk). unfold won in Hw. rewrite Ho in Hw.
    destruct (closed _); cbn in Hw; lia.
  - intros Hin. by apply (proj1 (Forall_forall _ _) Hh) in Hin.
Qed.

(** *** The races *)

(** A run of one thing after the other: an event, the reader, a goroutine, a
    handler. *)
Inductive move : Type := Call (evt : qr_event) | Take | Emit (k : nat) (wk : wake) | Handle (k : nat).
Definition do_move (m : move) (w : World) : option (qr_panic + World) :=
  match m with
  | Call evt => Some (inr (mkWorld (shared w) (emitters w) (handlers w ++ [Called evt]) (taken w)))
  | Take => match output (shared w) with
            | i :: rest => Some (inr (mkWorld ((shared w) <| output := rest |>) (emitters w) (handlers w) (taken w ++ [i])))
            | [] => None
            end
  | Emit k wk =>
      e ← emitters w !! k;
      match emit_step wk e (shared w) with
      | Some (inr (e', s)) => Some (inr (mkWorld s (<[k := e']> (emitters w)) (handlers w) (taken w)))
      | Some (inl p) => Some (inl p)
      | None => None
      end
  | Handle k =>
      h ← handlers w !! k;
      match handle_step h (shared w) with
      | Some (inr (h', s)) => Some (inr (mkWorld s (spawn h' (emitters w)) (<[k := h']> (handlers w)) (taken w)))
      | Some (inl p) => Some (inr (mkWorld (shared w) (emitters w) (<[k := HandlerPanicked p]> (handlers w)) (taken w)))
      | None => None
      end
  end.
Fixpoint do_moves (l : list move) (w : World) : option World :=
  match l with
  | [] => Some w
  | m :: l => match do_move m w with Some (inr w) => do_moves l w | _ => None end
  end.

Lemma do_move_step m w r : do_move m w = Some r -> qr_step w r.
Proof.
  destruct m as [evt| |k wk|k]; cbn.
  - intros [= <-]. constructor.
  - destruct (output (shared w)) as [|i rest] eqn:Ho; [done|]. intros [= <-]. by eapply qr_take.
  - destruct (emitters w !! k) as [e|] eqn:Hk; cbn; [|done]. destruct (emit_step wk e (shared w)) as [[p|[e' s]]|] eqn:He; [| |done];
      intros [= <-]; [by eapply qr_emit_panic|by eapply qr_emit].
  - destruct (handlers w !! k) as [h|] eqn:Hk; cbn; [|done]. destruct (handle_step h (shared w)) as [[p|[h' s]]|] eqn:He; [| |done];
      intros [= <-]; [by eapply qr_handle_panic|by eapply qr_handle].
Qed.
Lemma do_moves_rtc l w w' : do_moves l w = Some w' -> rtc qr_next w w'.
Proof.
  revert w. induction l as [|m l IH]; intros w; cbn; [by intros [= ->]|]. destruct (do_move m w) as [[|w1]|] eqn:Hm; try done.
  intros H. eapply rtc_l; [exact (do_move_step _ _ _ Hm)|by apply IH].
Qed.

Definition codes_1 : list move := [Call (EvQR ["a"; "b"]); Handle 0].
(** The goroutine has looked at the flag and not sent yet; the handler ends the
    channel between the two. *)
Definition send_race : list move := codes_1 ++ [Emit 0 TimeAfter; Call EvPairSuccess; Handle 1; Handle 1; Handle 1; Handle 1].
(** Two final events whose calls overlap. *)
Definition stop_race : list move := [Call EvConnected; Call EvPairSuccess; Handle 0; Handle 1; Handle 0].

(** The flag does not keep the goroutines apart: a code can be sent behind the
    value that ends the channel, or to the channel that is closed already, which
    panics in a goroutine of its own, and two final events whose handlers overlap close the
    signal twice. *)
Theorem qr_races :
  (exists w, rtc qr_next new_world w /\ qr_step w (inl SendOnClosed)) /\
  (exists w, rtc qr_next new_world w /\ HandlerPanicked CloseStopTwice ∈ handlers w) /\
  (exists w, rtc qr_next new_world w /\ it_Event <$> taken w = ["success"; "code"] /\ output_closed (shared w) = false).
Proof.
  split; [|split].
  - destruct (do_moves (send_race ++ [Handle 1]) new_world) as [w|] eqn:H; [|by vm_compute in H]. exists w.
    split; [by apply (do_moves_rtc _ _ _ H)|]. apply (do_move_step (Emit 0 TimeAfter)). vm_compute in H. by injection H as <-.
  - destruct (do_moves (stop_race ++ [Handle 1]) new_world) as [w|] eqn:H; [|by vm_compute in H]. exists w.
    split; [by apply (do_moves_rtc _ _ _ H)|]. vm_compute in H. injection H as <-. right. left.
  - destruct (do_moves (send_race ++ [Emit 0 TimeAfter; Take; Take]) new_world) as [w|] eqn:H; [|by vm_compute in H]. exists w.
    split; [by apply (do_moves_rtc _ _ _ H)|]. vm_compute in H. by injection H as <-.
Qed.

(** A code, then a pairing: the reader gets the code and the end, and the output is
    closed. *)
Lemma qr_ends_once_witness :
  exists w, do_moves (codes_1 ++ [Emit 0 TimeAfter; Emit 0 TimeAfter; Call EvPairSuccess; Handle 1; Handle 1; Handle 1; Handle 1; Handle 1; Take; Take]) new_world = Some w /\
    it_Event <$> taken w = ["code"; "success"] /\ output_closed (shared w) = true /\
    (forall p, qr_step w (inl p) -> p <> CloseOutputTwice) /\ HandlerPanicked CloseOutputTwice ∉ handlers w /\
    (finals (taken w) + finals (output (shared w)) <= 1)%nat.
Proof.
  destruct (do_moves _ new_world) as [w|] eqn:H; [|by vm_compute in H]. exists w. split; [done|].
  assert (it_Event <$> taken w = ["code"; "success"] /\ output_closed (shared w) = true) as [H1 H2] by (vm_compute in H; by injection H as <-).
  split; [done|]. split; [done|]. by apply qr_ends_once, (do_moves_rtc _ _ _ H).
Defined.

(** *** Events one at a time *)

(** The handler is called when no call is under way. *)
Definition idle (h : handler) : Prop := match h with HandlerDone _ | HandlerPanicked _ => True | _ => False end.
Definition seq_next (w w' : World) : Prop :=
  qr_next w w' /\ ((length (handlers w) < length (handlers w'))%nat -> Forall idle (handlers w)).

(** At most the last call is under way; the signal is closed by a call that is at
    the swap, or the flag is set. *)
Definition last_call (P : handler -> Prop) (l : list handler) : Prop :=
  l = [] \/ exists l' h, l = l' ++ [h] /\ Forall idle l' /\ P h.
Definition stop_ok (s : Shared) (h : handler) : Prop :=
  match h with
  | BeforeStop _ => stopQRs_closed s = false
  | BeforeSwap _ => True
  | _ => stopQRs_closed s = true -> closed s = true
  end.
Definition seq_inv (w : World) : Prop :=
  (handlers w = [] -> stopQRs_closed (shared w) = false) /\ last_call (stop_ok (shared w)) (handlers w) /\ HandlerPanicked CloseStopTwice ∉ handlers w.

(** What emitters and the reader do keeps this. *)
Lemma emit_flags wk e s e' s' :
  emit_step wk e s = Some (inr (e', s')) -> stopQRs_closed s' = stopQRs_closed s /\ (closed s = true -> closed s' = true).
Proof.
  destruct e as [[|code codes]|timeout code codes|timeout codes| |again|]; cbn -[send_output Nat.eqb]; intros H.
  - by injection H as <- <-.
  - destruct (closed s) eqn:Hc; by injection H as <- <-.
  - destruct (send_output _ s) as [[|s1]|] eqn:Hs; [done| |by injection H as <- <-].
    apply send_output_ok in Hs as [_ ->]. by injection H as <- <-.
  - destruct wk; [|destruct (stopQRs_closed s) eqn:Hc; [|done]| |]; by injection H as <- <-.
  - destruct (send_output _ s) as [[|s1]|] eqn:Hs; [done| |done]. apply send_output_ok in Hs as [_ ->]. by injection H as <- <-.
  - unfold close_output in H. destruct (output_closed s); [done|]. by injection H as <- <-.
  - done.
Qed.
Lemma stop_ok_mono s s' h :
  stopQRs_closed s' = stopQRs_closed s -> (closed s = true -> closed s' = true) -> stop_ok s h -> stop_ok s' h.
Proof. intros H1 H2. destruct h; cbn; rewrite ?H1; auto. Qed.

Lemma handle_stop h s h' s' :
  stop_ok s h -> handle_step h s = Some (inr (h', s')) -> stop_ok s' h'.
Proof.
  destruct h as [evt| |out|out|out| |emits|p]; cbn -[send_output]; intros Hok H.
  - destruct (closed s) eqn:Hc; [injection H as <- <-; by intros _|]. destruct evt; injection H as <- <-; try exact Hok; cbn;
      (destruct (stopQRs_closed s); [by specialize (Hok eq_refl)|done]).
  - destruct (send_output _ s) as [[|s1]|] eqn:Hs; [done| |done]. apply send_output_ok in Hs as [_ ->]. injection H as <- <-. exact Hok.
  - unfold close_stopQRs in H. rewrite Hok in H. by injection H as <- <-.
  - destruct (closed s); injection H as <- <-; by intros.
  - destruct (send_output _ s) as [[|s1]|] eqn:Hs; [done| |done]. apply send_output_ok in Hs as [_ ->]. injection H as <- <-. exact Hok.
  - unfold close_output in H. destruct (output_closed s); [done|]. injection H as <- <-. exact Hok.
  - done.
  - done.
Qed.

Lemma handle_no_panic h s h' s' p : handle_step h s = Some (inr (h', s')) -> h' <> HandlerPanicked p.
Proof.
  destruct h as [evt| |out|out|out| |emits|q]; cbn -[send_output]; intros H ->; try done.
  - destruct (closed s); [done|]. by destruct evt.
  - by destruct (send_output _ s) as [[]|].
  - by destruct (close_stopQRs s).
  - by destruct (closed s).
  - by destruct (send_output _ s) as [[]|].
  - by destruct (close_output s).
Qed.
Lemma last_active P l k h :
  last_call P l -> l !! k = Some h -> ~ idle h -> exists l', l = l' ++ [h] /\ k = length l' /\ Forall idle l' /\ P h.
Proof.
  intros [->|(l' & h0 & -> & Hl & Hp)] Hk Hh; [done|]. apply lookup_app_Some in Hk as [Hk|[Hle Hk]].
  - by specialize (proj1 (Forall_lookup _ _) Hl _ _ Hk) as H.
  - apply list_lookup_singleton_Some in Hk as [Hk <-]. exists l'. repeat split; [lia|done|done].
Qed.

Lemma not_among p (l : list handler) (k : nat) h : HandlerPanicked p ∉ l -> h <> HandlerPanicked p -> HandlerPanicked p ∉ <[k := h]> l.
Proof.
  intros Hl Hh [j Hj]%list_elem_of_lookup. destruct (decide (j = k)) as [->|Hne].
  - assert (k < length l)%nat by (apply lookup_lt_Some in Hj; by rewrite length_insert in Hj). rewrite list_lookup_insert_eq in Hj by done. congruence.
  - rewrite list_lookup_insert_ne in Hj by done. apply Hl. by eapply list_elem_of_lookup_2.
Qed.
Lemma seq_inv_preserved : preserved seq_next seq_inv.
Proof.
  intros w w' [Hstep Hseq] (Hn & Hl & Hno). unfold qr_next in Hstep.
  inversion Hstep as [w0 evt|w0 i rest s Ho Hs|w0 k e wk e' s Hk He| |w0 k h h' s Hk He|w0 k h p Hk He]; subst w0; subst w'; cbn [handlers shared] in *.
  - assert (Forall idle (handlers w)) as Hid by (apply Hseq; rewrite length_app; cbn; lia). split; [by intros [_ ?]%app_nil|].
    split; [|by intros [?|?%list_elem_of_singleton]%elem_of_app].
    right. exists (handlers w), (Called evt). split; [done|]. split; [done|]. cbn. intros Hc. destruct Hl as [Hl|(l & h & Hl & _ & Hp)].
    + by rewrite (Hn Hl) in Hc.
    + assert (idle h) as Hh by (rewrite Hl in Hid; apply Forall_app in Hid as [_ Hid]; by inversion Hid). destruct h; try done; by apply Hp.
  - subst s. split; [exact Hn|]. split; [|done]. destruct Hl as [Hl|(l & h & Hl & Hi & Hp)]; [by left|]. right. exists l, h. split; [done|]. split; [done|].
    by apply (stop_ok_mono (shared w)).
  - apply emit_flags in He as [H1 H2]. split; [intros Hnil; cbn [shared]; rewrite H1; exact (Hn Hnil)|]. split; [|done].
    destruct Hl as [Hl|(l & h & Hl & Hi & Hp)]; [by left|].
    right. exists l, h. split; [done|]. split; [done|]. by apply (stop_ok_mono (shared w)).
  - assert (~ idle h) as Hh by (destruct h; cbn in He |- *; first [by intros [] | done]). destruct (last_active _ _ _ _ Hl Hk Hh) as (l & Hw & -> & Hi & Hp).
    split; [|split; [|apply not_among; [done|by eapply handle_no_panic]]].
    all: rewrite Hw, insert_app_r_alt by lia; rewrite Nat.sub_diag; cbn.
    1: by intros [_ ?]%app_nil.
    right. exists l, h'. split; [done|]. split; [done|]. by eapply handle_stop.
  - assert (~ idle h) as Hh by (destruct h; cbn in He |- *; first [by intros [] | done]). destruct (last_active _ _ _ _ Hl Hk Hh) as (l & Hw & -> & Hi & Hp).
    assert (p <> CloseStopTwice /\ stop_ok (shared w) (HandlerPanicked p)) as [H1 H2].
    { destruct (handle_bad _ _ _ He) as [[-> ->]|[(out & -> & -> & Hc)|[Hwon _]]]; [by split|cbn in Hp; congruence|].
      split; [|by destruct h]. intros ->. destruct h; try done; cbn -[send_output] in He.
      - destruct (send_output _ _) as [[q|]|] eqn:Hs; [|done|done]. by apply send_output_bad in Hs as [_ ->].
      - unfold close_output in He. by destruct (output_closed _). }
    split; [|split; [|apply not_among; [done|by intros [=]]]].
    all: rewrite Hw, insert_app_r_alt by lia; rewrite Nat.sub_diag; cbn.
    1: by intros [_ ?]%app_nil.
    right. exists l, (HandlerPanicked p). by split.
Qed.

(** While the events come one at a time, the signal is never closed twice. *)
Theorem stop_once_in_sequence w :
  rtc seq_next new_world w -> HandlerPanicked CloseStopTwice ∉ handlers w /\ ~ qr_step w (inl CloseStopTwice).
Proof.
  intros Hr. assert (seq_inv w) as (_ & _ & Hno).
  { eapply (rtc_preserved _ _ _ _ seq_inv_preserved); [exact Hr|]. split; [done|]. split; [by left|by intros ?%elem_of_nil]. }
  split; [done|]. intros Hp. inversion Hp as [| | |w0 k e wk p0 Hk He| |]; subst. by apply emit_bad in He as [_ [|[? _]]].
Qed.

(** ** A goroutine by itself *)

Fixpoint emit_alone (fuel : nat) (e : emitter) (s : Shared) : option (qr_panic + emitter * Shared) :=
  match fuel with
  | O => Some (inr (e, s))
  | S fuel => match emit_step TimeAfter e s with
              | Some (inr (e, s)) => emit_alone fuel e s
              | Some (inl p) => Some (inl p)
              | None => Some (inr (e, s))
              end
  end.
Fixpoint code_items (codes : list string) : list QRChannelItem :=
  match codes with
  | [] => []
  | code :: codes' =>
      mkItem QRChannelEventCode None code (if (length codes =? 6)%nat then 60 * Second else 20 * Second) :: code_items codes'
  end.

Lemma emit_alone_from codes s :
  closed s = false -> output_closed s = false -> (length (output s) + length codes < capacity)%nat ->
  emit_alone (3 * length codes + 4) (AtTop codes) s =
    Some (inr (EmitterDone, abandon (s <| closed := true |> <| output := output s ++ code_items codes ++ [QRChannelTimeout] |> <| output_closed := true |>))).
Proof.
  revert s. induction codes as [|code codes IH]; intros s Hc Ho Hl; destruct s as [c o oc sc di re]; cbn in Hc, Ho, Hl; subst.
  - cbn -[Nat.ltb]. unfold send_output. cbn -[Nat.ltb]. rewrite (proj2 (Nat.ltb_lt _ _)) by (unfold capacity in *; lia). done.
  - assert (3 * length (code :: codes) + 4 = S (S (S (3 * length codes + 4))))%nat as -> by (cbn; lia).
    cbn -[Nat.ltb Nat.eqb Nat.mul]. unfold send_output. cbn -[Nat.ltb Nat.eqb Nat.mul].
    rewrite (proj2 (Nat.ltb_lt _ _)) by (unfold capacity in *; lia).
    cbn -[Nat.ltb Nat.eqb Nat.mul]. rewrite IH; [|done|done|cbn -[Nat.mul]; rewrite length_app; cbn; unfold capacity in *; lia].
    f_equal. f_equal. f_equal. cbn -[Nat.eqb]. by rewrite <- app_assoc.
Qed.

(** Left alone, the goroutine sends the codes in their order, the first of six
    for a minute and each other for twenty seconds, then the timeout; it closes
    the channel and disconnects. *)
Theorem codes_emitted codes :
  (length codes < capacity)%nat ->
  exists s, emit_alone (3 * length codes + 4) (AtTop codes) new_shared = Some (inr (EmitterDone, s)) /\
    output s = code_items codes ++ [QRChannelTimeout] /\ output_closed s = true /\ disconnects s = 1%nat /\ removals s = 1%nat.
Proof. intros Hl. eexists. split; [by apply emit_alone_from|]. done. Qed.
