(* ===== verification/Connection.v ===== *)
(** * [whatsmeow/client.go], [keepalive.go], [connectionevents.go]: the connection

    Connecting, disconnecting and reconnecting, as steps of the goroutines that
    do it.  What holds the lock of the socket is one step; the sockets are those
    of [FrameSocket] and [Noise], with their callbacks. *)
From S2P Require Import Prelude GoStrings GoTime Jid Events BinaryNode FrameSocket Noise NodeAttrs LidMap PreKeys SqlDB DeviceStore Pairing.

(** ** State *)

(** A noise socket on its frame socket; the keys do not matter here. *)
Notation Sock := (NoiseSocket (AEAD := ()) * FrameSocket)%type.
Definition sock_connected (s : Sock) : bool := IsConnected s.2.

(** Whether the error is one of the network, the status code that it carries, and
    whether it is [ErrDialFailed]. *)
Definition isRetryableConnectError (network : bool) (statusErr : option Z) (dialFailed : bool) : bool :=
  network ||
  match statusErr with
  | Some code => bool_decide (code ∈ [408; 500; 501; 502; 503; 504])
  | None => dialFailed
  end.

(** How an attempt to connect ends, with what [isRetryableConnectError] says of the
    error.  [OpenedLost]: the server closed while the
    handshake ended, before the callback was set. *)
Inductive attempt : Type :=
| DialFailed (retryable : bool)
| HandshakeFailed (retryable : bool)
| Opened
| OpenedLost.
Inductive connect_error : Type :=
| ConnDeviceDeleted
| ErrAlreadyConnected
| ErrConnect (retryable : bool).

(** Where a goroutine of [autoReconnect] is. *)
Inductive reconnecting : Type :=
| AtDelay
| InDelay (delay : Duration)
| DelayOver
| AttemptFailed (err : connect_error).
Inductive task : Type :=
| Callback (i : nat) (remote : bool)
| AutoReconnect (r : reconnecting)
| KeepAliveReset
| LoginDisconnect
| LoginConnect.

Inductive conn_event : Type :=
| Disconnected
| ManualLoginReconnect
| LoggedOut (OnConnect : bool) (Reason : Z)
| StreamReplaced
| CATRefreshError
| StreamError (Code : string) (Raw : node)
| TemporaryBan (Code : Z) (Expire : Duration)
| ClientOutdated
| ConnectFailure (Reason : Z) (Message : string) (Raw : node)
| KeepAliveTimeout (ErrorCount : Z) (LastSuccess : Time)
| KeepAliveRestored
| Connected
| OfflineSyncPreview (Total AppDataChanges Messages Notifications Receipts : Z)
| OfflineSyncCompleted (Count : Z)
| QRScannedWithoutMultidevice.
Inductive conn_effect : Type :=
| Event (e : conn_event)
| ClearWaiters (f : option node)
| DeleteExpiredTokens
| UploadPreKeys (initial : bool)
| SetPassive (passive : bool)
| CloseSocketWait.

(** [abandoned] are the frame sockets of the attempts that failed. *)
Record Conn : Type := mkConn {
  cl : Client;
  sockets : list Sock;
  abandoned : list FrameSocket;
  socket : option nat;
  isLoggedIn : bool;
  EnableAutoReconnect : bool;
  InitialAutoReconnect : bool;
  DisableLoginAutoReconnect : bool;
  AutoReconnectErrors : Z;
  LastSuccessfulConnect : Time;
  tasks : list task;
  effects : list conn_effect }.
#[export] Instance eta_Conn : Eta Conn := fun r =>
  mkConn (cl r) (sockets r) (abandoned r) (socket r) (isLoggedIn r) (EnableAutoReconnect r) (InitialAutoReconnect r) (DisableLoginAutoReconnect r)
    (AutoReconnectErrors r) (LastSuccessfulConnect r) (tasks r) (effects r).

Definition do_ (e : conn_effect) (c : Conn) : Conn := c <| effects := effects c ++ [e] |>.
Definition start (t : list task) (c : Conn) : Conn := c <| tasks := tasks c ++ t |>.
Definition expect (c : Conn) : Conn := c <| cl := expectDisconnect (cl c) |>.
Definition resetExpectedDisconnect (c : Conn) : Conn :=
  c <| cl := (cl c) <| forceAutoReconnect := false |> <| expectedDisconnect := false |> |>.

(** ** Sockets *)

Definition stop_socket (i : nat) (disconnect allowOnDisconnect : bool) (c : Conn) : Conn :=
  match sockets c !! i with
  | None => c
  | Some s =>
      let '(ns, fs, calls) := Stop disconnect allowOnDisconnect s.1 s.2 in
      start (map (Callback i) calls) (c <| sockets := <[i := (ns, fs)]> (sockets c) |>)
  end.
Definition close_socket (i : nat) (code : Z) (c : Conn) : Conn :=
  match sockets c !! i with
  | None => c
  | Some s =>
      let '(fs, calls) := Close code s.2 in
      start (map (Callback i) calls) (c <| sockets := <[i := (s.1, fs)]> (sockets c) |>)
  end.

Definition unlockedDisconnect (c : Conn) : Conn :=
  match socket c with
  | None => c
  | Some i => do_ (ClearWaiters None) ((stop_socket i true false c) <| socket := None |>)
  end.

(** [fs.Close(0)] where an attempt failed; the socket has no callback yet. *)
Definition abandon (fs : FrameSocket) (c : Conn) : Conn := c <| abandoned := abandoned c ++ [(Close 0 fs).1] |>.
(** The two loops that it starts end with the socket's context. *)
Definition unlockedConnect (r : attempt) (c : Conn) : option connect_error * Conn :=
  if Deleted (Store (cl c)) then (Some ConnDeviceDeleted, c)
  else if match socket c with Some i => match sockets c !! i with Some s => sock_connected s | None => false end | None => false end
  then (Some ErrAlreadyConnected, c)
  else
    let c := resetExpectedDisconnect (unlockedDisconnect c) in
    match FrameSocket.Connect (match r with DialFailed _ => false | _ => true end) NewFrameSocket with
    | (Some _, fs) => (Some (ErrConnect (match r with DialFailed b => b | _ => false end)), abandon fs c)
    | (None, fs) =>
        match r with
        | DialFailed b => (Some (ErrConnect b), abandon fs c)
        | HandshakeFailed b => (Some (ErrConnect b), abandon fs c)
        | Opened | OpenedLost =>
            let fs := match r with OpenedLost => (Close 0 fs).1 | _ => fs end in
            let s := newNoiseSocket (AEAD := ()) () () fs in
            (None, c <| socket := Some (length (sockets c)) |> <| sockets := sockets c ++ [s] |>)
        end
    end.

Definition ConnectContext (r : attempt) (c : Conn) : option connect_error * Conn :=
  let '(err, c) := unlockedConnect r c in
  match err with
  | Some (ErrConnect true) =>
      if InitialAutoReconnect c && EnableAutoReconnect c
      then (None, start [AutoReconnect AtDelay] (do_ (Event Disconnected) c)) else (err, c)
  | _ => (err, c)
  end.

(** The waiting loop of [autoReconnect] is entered only with auto-reconnection and
    a JID. *)
Definition start_autoReconnect (c : Conn) : Conn := start [AutoReconnect AtDelay] c.

Definition onDisconnect (i : nat) (remote : bool) (c : Conn) : Conn :=
  let c := stop_socket i false false c in
  if bool_decide (socket c = Some i) then
    let c := do_ (ClearWaiters None) (c <| socket := None |>) in
    if expectedDisconnect (cl c) then c
    else
      let forced := forceAutoReconnect (cl c) in
      let c := c <| cl := (cl c) <| forceAutoReconnect := false |> |> in
      if forced || remote then start_autoReconnect (do_ (Event Disconnected) c) else c
  else c.

Definition DisconnectConn (c : Conn) : Conn := unlockedDisconnect (expect c).
Definition ResetConnection (c : Conn) : Conn :=
  let c := c <| cl := (cl c) <| forceAutoReconnect := true |> |> in
  match socket c with None => c | Some i => do_ (ClearWaiters None) (stop_socket i true true c) end.

(** ** [autoReconnect] *)

(** What the goroutine meets: the delay passes, the disconnection is found to be
    expected, the context ends; and how the attempt ends, with what the hook says
    of it. *)
Inductive task_wake : Type := DelayPasses | FoundExpected | ContextEnds.
Definition reconnect_step (wk : task_wake) (r : attempt) (hook : option bool) (st : reconnecting) (c : Conn) : option (option reconnecting * Conn) :=
  match st with
  | AtDelay =>
      if negb (EnableAutoReconnect c) || negb (bool_decide (is_Some (ID (Store (cl c))))) then Some (None, c)
      else Some (Some (InDelay (AutoReconnectErrors c * 2 * Second)), c <| AutoReconnectErrors := AutoReconnectErrors c + 1 |>)
  | InDelay delay =>
      match wk with
      | DelayPasses => Some (Some DelayOver, c)
      | FoundExpected => if expectedDisconnect (cl c) then Some (None, c) else None
      | ContextEnds => Some (None, c)
      end
  | DelayOver =>
      let '(err, c) := unlockedConnect r c in
      Some (match err with
            | None | Some ErrAlreadyConnected => None
            | Some err => Some (AttemptFailed err)
            end, c)
  | AttemptFailed _ =>
      if expectedDisconnect (cl c) then Some (None, c)
      else match hook with
           | Some false => Some (None, c)
           | _ => Some (Some (InDelay (AutoReconnectErrors c * 2 * Second)), c <| AutoReconnectErrors := AutoReconnectErrors c + 1 |>)
           end
  end.

(** ** Steps *)

(** A task goes on: it is done ([None]) or has another part left. *)
Definition run_task (wk : task_wake) (r : attempt) (hook : option bool) (t : task) (c : Conn) : option (option task * Conn) :=
  match t with
  | Callback i remote => Some (None, onDisconnect i remote c)
  | AutoReconnect st =>
      match reconnect_step wk r hook st c with
      | Some (Some st, c) => Some (Some (AutoReconnect st), c)
      | Some (None, c) => Some (None, c)
      | None => None
      end
  | KeepAliveReset => Some (Some (AutoReconnect AtDelay), resetExpectedDisconnect c)
  | LoginDisconnect => Some (Some LoginConnect, DisconnectConn c)
  | LoginConnect => Some (None, (unlockedConnect r c).2)
  end.
Definition set_task (k : nat) (t : option task) (l : list task) : list task :=
  match t with Some t => <[k := t]> l | None => delete k l end.

(** The attempts that may happen, and what a delay that is over may wake up to. *)
Inductive conn_step (may : attempt -> Prop) (awake : task_wake -> Conn -> Prop) : relation Conn :=
| cs_connect c r : may r -> conn_step may awake c (ConnectContext r c).2
| cs_disconnect c : conn_step may awake c (DisconnectConn c)
| cs_reset c : conn_step may awake c (ResetConnection c)
| cs_remote c i : conn_step may awake c (close_socket i 0 c)
| cs_expect c : conn_step may awake c (expect c)
| cs_keepalive c : EnableAutoReconnect c = true -> conn_step may awake c (start [KeepAliveReset] (DisconnectConn c))
| cs_login c : conn_step may awake c (start [LoginDisconnect] c)
| cs_success c : conn_step may awake c (c <| AutoReconnectErrors := 0 |> <| isLoggedIn := true |>)
| cs_task c k t wk r hook t' c' :
    tasks c !! k = Some t -> may r -> awake wk c -> run_task wk r hook t c = Some (t', c') ->
    conn_step may awake c (c' <| tasks := set_task k t' (tasks c') |>).
Definition any_step : relation Conn := conn_step (fun _ => True) (fun _ _ => True).

(** ** One connection *)

Definition is_callback (t : task) : Prop := match t with Callback _ _ => True | _ => False end.

(** Only the current socket is open, it is in use and has its callback; the
    callbacks that wait are those of sockets that are closed.  With [noticed], a
    current socket that is closed has such a callback. *)
Record sock_inv (noticed : Prop) (ss : list Sock) (cur : option nat) (ts : list task) : Prop := mkSockInv {
  si_open : forall i s, ss !! i = Some s -> sock_connected s = true -> cur = Some i /\ destroyed s.1 = false /\ OnDisconnect s.2 = true;
  si_current : forall i, cur = Some i -> is_Some (ss !! i);
  si_callback : forall i r, Callback i r ∈ ts -> exists s, ss !! i = Some s /\ sock_connected s = false;
  si_noticed : noticed -> forall i s, cur = Some i -> ss !! i = Some s -> sock_connected s = false -> exists r, Callback i r ∈ ts }.
Definition conn_inv (noticed : Prop) (c : Conn) : Prop := sock_inv noticed (sockets c) (socket c) (tasks c).

Lemma inv_close noticed ss cur ts i s s' calls :
  sock_inv noticed ss cur ts -> ss !! i = Some s -> sock_connected s' = false ->
  (forall t, t ∈ calls -> exists r, t = Callback i r) ->
  (noticed -> cur = Some i -> sock_connected s = true -> exists r, Callback i r ∈ calls) ->
  sock_inv noticed (<[i := s']> ss) cur (ts ++ calls).
Proof.
  intros [H1 H2 H3 H4] Hi Hs' Hc Hn. assert (i < length ss)%nat as Hlt by by eapply lookup_lt_Some. split.
  - intros j sj Hj Hcj. destruct (decide (j = i)) as [->|Hne].
    + rewrite list_lookup_insert_eq in Hj by done. injection Hj as <-. congruence.
    + rewrite list_lookup_insert_ne in Hj by done. by apply H1.
  - intros j Hj. apply H2 in Hj as [sj Hj]. apply lookup_lt_is_Some. rewrite length_insert. by eapply lookup_lt_Some.
  - intros j r. rewrite elem_of_app. intros Hin. destruct (decide (j = i)) as [->|Hne]; [exists s'; by rewrite list_lookup_insert_eq|].
    rewrite list_lookup_insert_ne by done. destruct Hin as [Hin|Hin]; [by apply (H3 j r)|]. apply Hc in Hin as [? [= ? ?]]. by subst.
  - intros Hnot j sj Hcur Hj Hcj. destruct (decide (j = i)) as [->|Hne].
    + destruct (sock_connected s) eqn:Hs.
      * destruct (Hn Hnot Hcur eq_refl) as [r Hr]. exists r. apply elem_of_app. by right.
      * destruct (H4 Hnot i s Hcur Hi Hs) as [r Hr]. exists r. apply elem_of_app. by left.
    + rewrite list_lookup_insert_ne in Hj by done. destruct (H4 Hnot j sj Hcur Hj Hcj) as [r Hr]. exists r. apply elem_of_app. by left.
Qed.
Lemma inv_drop noticed ss i s ts :
  sock_inv False ss (Some i) ts -> ss !! i = Some s -> sock_connected s = false -> sock_inv noticed ss None ts.
Proof.
  intros [H1 H2 H3 H4] Hi Hs. split; [|done|done|done]. intros j sj Hj Hc. destruct (H1 j sj Hj Hc) as ([= ->] & _). congruence.
Qed.
Lemma inv_push noticed ss ts s :
  sock_inv noticed ss None ts -> sock_connected s = true /\ destroyed s.1 = false /\ OnDisconnect s.2 = true \/ sock_connected s = false /\ ~ noticed ->
  sock_inv noticed (ss ++ [s]) (Some (length ss)) ts.
Proof.
  intros [H1 H2 H3 H4] Hs. split.
  - intros i si Hi Hc. apply lookup_app_Some in Hi as [Hi|[Hle Hi]]; [by destruct (H1 i si Hi Hc)|].
    apply list_lookup_singleton_Some in Hi as [Hi <-]. destruct Hs as [(_ & ? & ?)|[? _]]; [|congruence]. split; [f_equal; lia|done].
  - intros i [= <-]. apply lookup_lt_is_Some. rewrite length_app. cbn. lia.
  - intros i r Hin. destruct (H3 i r Hin) as (si & Hi & Hc). exists si. split; [by apply lookup_app_l_Some|done].
  - intros Hnot i si [= <-] Hi Hc. rewrite lookup_app_r in Hi by lia. rewrite Nat.sub_diag in Hi. injection Hi as <-.
    destruct Hs as [(? & _)|[_ ?]]; [congruence|done].
Qed.

Lemma inv_weaken noticed ss cur ts : sock_inv noticed ss cur ts -> sock_inv False ss cur ts.
Proof. intros [H1 H2 H3 H4]. by split. Qed.

(** [Stop] and [Close] on a socket of the invariant. *)
Lemma stop_inv noticed i disconnect allow c s :
  conn_inv noticed c -> sockets c !! i = Some s -> (disconnect = true \/ sock_connected s = false) -> (noticed -> allow = true \/ socket c <> Some i \/ sock_connected s = false) ->
  let c' := stop_socket i disconnect allow c in
  conn_inv noticed c' /\ socket c' = socket c /\ (exists s', sockets c' !! i = Some s' /\ sock_connected s' = false) /\
  (forall t, t ∈ tasks c' -> t ∈ tasks c \/ is_callback t) /\ (exists l, tasks c' = tasks c ++ l) /\ cl c' = cl c /\
  (allow = false -> tasks c' = tasks c).
Proof.
  intros Hinv Hi Hd Ha c'. destruct s as [ns fs]. assert (i < length (sockets c))%nat as Hlt by by eapply lookup_lt_Some.
  assert (exists s' calls, c' = start calls (c <| sockets := <[i := s']> (sockets c) |>) /\ sock_connected s' = false /\
    (forall t, t ∈ calls -> exists r, t = Callback i r) /\ (allow = false -> calls = []) /\
    (noticed -> socket c = Some i -> sock_connected (ns, fs) = true -> exists r, Callback i r ∈ calls)) as (s' & calls & -> & Hs' & Hc & Hal & Hn).
  { unfold c', stop_socket. rewrite Hi. unfold Stop, Close, sock_connected, IsConnected in *. cbn [fst snd] in *.
    destruct (destroyed ns) eqn:Hds.
    - assert (conn fs = false) as Hcf.
      { destruct (conn fs) eqn:Hcf; [|done]. destruct (si_open _ _ _ _ Hinv i (ns, fs) Hi Hcf) as (_ & ? & _). cbn in *. congruence. }
      eexists (ns, fs), []. split; [done|]. split; [done|]. split; [by intros t ?%elem_of_nil|]. split; [done|]. by rewrite Hcf.
    - destruct disconnect.
      + destruct allow; cbn [negb].
        * destruct (conn fs) eqn:Hcf; cbn [negb].
          -- eexists (_, _), _. split; [done|]. split; [done|]. split; [|split; [done|]].
             ++ intros t (r & -> & _)%list_elem_of_fmap. by eexists.
             ++ intros _ Hcur _. destruct (si_open _ _ _ _ Hinv i (ns, fs) Hi Hcf) as (_ & _ & Hon). cbn in Hon.
                change (OnDisconnect (fs <| conn := false |> <| closed := true |>)) with (OnDisconnect fs). rewrite Hon. eexists. by left.
          -- eexists (_, _), []. split; [done|]. split; [done|]. split; [by intros t ?%elem_of_nil|]. done.
        * change (conn (fs <| OnDisconnect := false |>)) with (conn fs). destruct (conn fs) eqn:Hcf; cbn [negb].
          -- eexists (_, _), []. split; [done|]. split; [done|]. split; [by intros t ?%elem_of_nil|]. split; [done|].
             intros Hnot Hcur _. by destruct (Ha Hnot) as [?|[?|?]].
          -- eexists (_, _), []. split; [done|]. split; [done|]. split; [by intros t ?%elem_of_nil|]. done.
      + destruct Hd as [?|Hcf]; [done|]. eexists (_, _), []. split; [done|]. destruct allow; cbn [negb snd];
          (split; [done|]); (split; [by intros t ?%elem_of_nil|]); (split; [done|]); by rewrite Hcf. }
  split; [by eapply inv_close|]. split; [done|]. split; [exists s'; split; [by apply list_lookup_insert_eq|done]|].
  split; [|split; [by eexists|split; [done|]]].
  - intros t [?|Hin]%elem_of_app; [by left|right]. by apply Hc in Hin as [r ->].
  - intros Hf. cbn. rewrite (Hal Hf). apply app_nil_r.
Qed.

Lemma unlockedDisconnect_inv noticed c :
  conn_inv noticed c -> let c' := unlockedDisconnect c in
  conn_inv noticed c' /\ socket c' = None /\ tasks c' = tasks c /\ cl c' = cl c.
Proof.
  intros Hinv. unfold unlockedDisconnect. destruct (socket c) as [i|] eqn:Hcur; [|done].
  destruct (si_current _ _ _ _ Hinv i Hcur) as [s Hi].
  destruct (stop_inv False i true false c s (inv_weaken _ _ _ _ Hinv) Hi) as (H1 & H2 & (s' & H3 & H4) & _ & _ & H5 & H6); [by left|done|].
  split; [|split; [done|split; [by apply H6|done]]]. unfold conn_inv in *. rewrite H2, Hcur in H1. by eapply inv_drop.
Qed.

(** The same for what the client does without the sockets. *)
Lemma inv_tasks noticed ss cur ts ts' :
  (forall i r, Callback i r ∈ ts' <-> Callback i r ∈ ts) -> sock_inv noticed ss cur ts -> sock_inv noticed ss cur ts'.
Proof.
  intros Ht [H1 H2 H3 H4]. split; [done|done| |].
  - intros i r Hin%Ht. by apply (H3 i r).
  - intros Hn i s Hc Hi Hs. destruct (H4 Hn i s Hc Hi Hs) as [r Hr]. exists r. by apply Ht.
Qed.
Lemma start_inv noticed t c : ~ is_callback t -> conn_inv noticed c -> conn_inv noticed (start [t] c).
Proof.
  intros Ht. apply inv_tasks. intros i r. cbn. rewrite elem_of_app, list_elem_of_singleton. split; [|by left]. intros [?|<-]; [done|]. by destruct Ht.
Qed.

Lemma set_task_callbacks k t t' ts i r :
  ts !! k = Some t -> ~ is_callback t -> (forall t0, t' = Some t0 -> ~ is_callback t0) ->
  Callback i r ∈ set_task k t' ts <-> Callback i r ∈ ts.
Proof.
  intros Hk Ht Ht'. destruct t' as [t'|]; cbn.
  - split; intros Hin.
    + apply list_elem_of_lookup in Hin as [j Hj]. destruct (decide (j = k)) as [->|Hne].
      * rewrite list_lookup_insert_eq in Hj by by eapply lookup_lt_Some. injection Hj as ->. by destruct (Ht' _ eq_refl).
      * rewrite list_lookup_insert_ne in Hj by done. by eapply list_elem_of_lookup_2.
    + apply list_elem_of_lookup in Hin as [j Hj]. apply list_elem_of_lookup. exists j. rewrite list_lookup_insert_ne; [done|].
      intros ->. rewrite Hk in Hj. injection Hj as ->. by destruct Ht.
  - assert (Callback i r ∈ ts <-> Callback i r ∈ t :: delete k ts) as -> by (by rewrite <- (delete_Permutation ts k t Hk)).
    rewrite elem_of_cons. split; [by right|]. intros [<-|?]; [by destruct Ht|done].
Qed.
Lemma inv_remove noticed ss cur ts k i r :
  ts !! k = Some (Callback i r) -> cur <> Some i -> sock_inv noticed ss cur ts -> sock_inv noticed ss cur (delete k ts).
Proof.
  intros Hk Hne [H1 H2 H3 H4]. pose proof (delete_Permutation ts k _ Hk) as Hp. split; [done|done| |].
  - intros j rj Hin. apply (H3 j rj). rewrite Hp. by right.
  - intros Hn j s Hc Hj Hs. destruct (H4 Hn j s Hc Hj Hs) as [rj Hr]. exists rj. rewrite Hp in Hr. apply elem_of_cons in Hr as [[= -> ->]|?]; done.
Qed.

Lemma unlockedConnect_inv noticed r c :
  (noticed -> r <> OpenedLost) -> conn_inv noticed c -> conn_inv noticed (unlockedConnect r c).2 /\ tasks (unlockedConnect r c).2 = tasks c.
Proof.
  intros Hr Hinv. unfold unlockedConnect. destruct (Deleted _); [done|]. destruct (match socket c with Some i => _ | None => false end); [done|].
  destruct (unlockedDisconnect_inv noticed c Hinv) as (H1 & H2 & H3 & _). set (c1 := unlockedDisconnect c) in *.
  assert (conn_inv noticed (resetExpectedDisconnect c1)) as H1' by done.
  destruct r as [b| | |]; cbn [FrameSocket.Connect conn NewFrameSocket negb]; [done|done| |].
  - split; [|done]. apply inv_push; [|by left]. unfold conn_inv in H1. by rewrite H2 in H1.
  - split; [|done]. apply inv_push; [unfold conn_inv in H1; by rewrite H2 in H1|]. right. split; [done|]. intros Hn. by apply (Hr Hn).
Qed.

Lemma onDisconnect_inv noticed i remote c s :
  conn_inv noticed c -> sockets c !! i = Some s -> sock_connected s = false ->
  let c' := onDisconnect i remote c in
  conn_inv noticed c' /\ socket c' <> Some i /\ exists l, tasks c' = tasks c ++ l /\ (l = [] \/ l = [AutoReconnect AtDelay]).
Proof.
  intros Hinv Hi Hs. unfold onDisconnect. destruct (stop_inv noticed i false false c s Hinv Hi) as (H1 & H2 & (s' & H3 & H4) & _ & _ & H5 & H6);
    [by right|by intros _; right; right|].
  set (c1 := stop_socket i false false c) in *. rewrite H2. destruct (bool_decide_reflect (socket c = Some i)) as [Hc|Hc].
  - assert (sock_inv noticed (sockets c1) None (tasks c)) as Hdrop.
    { unfold conn_inv in H1. rewrite H2, Hc in H1. rewrite <- (H6 eq_refl). eapply inv_drop; [by eapply inv_weaken|done|done]. }
    cbn zeta. match goal with |- context [if expectedDisconnect ?x then _ else _] => destruct (expectedDisconnect x) end.
    + split; [unfold conn_inv; cbn; by rewrite (H6 eq_refl)|]. split; [done|]. exists []. split; [cbn; by rewrite app_nil_r, (H6 eq_refl)|by left].
    + match goal with |- context [if ?b then _ else _] => destruct b end.
      * split; [|split; [done|]].
        -- apply start_inv; [by intros []|]. unfold conn_inv. cbn. by rewrite (H6 eq_refl).
        -- exists [AutoReconnect AtDelay]. cbn. split; [by rewrite (H6 eq_refl)|by right].
      * split; [unfold conn_inv; cbn; by rewrite (H6 eq_refl)|]. split; [done|]. exists []. split; [cbn; by rewrite app_nil_r, (H6 eq_refl)|by left].
  - split; [done|]. split; [by rewrite H2|]. exists []. rewrite app_nil_r. split; [by apply H6|by left].
Qed.

Lemma close_inv noticed i c : conn_inv noticed c -> conn_inv noticed (close_socket i 0 c).
Proof.
  intros Hinv. unfold close_socket. destruct (sockets c !! i) as [[ns fs]|] eqn:Hi; [|done]. unfold Close. cbn [fst snd].
  destruct (conn fs) eqn:Hc; cbn [negb].
  - eapply inv_close; [exact Hinv|exact Hi|done| |].
    + by intros t (r & -> & _)%list_elem_of_fmap; eexists.
    + intros _ Hcur _. destruct (si_open _ _ _ _ Hinv i (ns, fs) Hi Hc) as (_ & _ & Hon). cbn in Hon.
      change (OnDisconnect (fs <| conn := false |> <| FrameSocket.closed := true |>)) with (OnDisconnect fs). rewrite Hon. eexists. by left.
  - eapply inv_close; [exact Hinv|exact Hi|done|by intros t ?%elem_of_nil|]. intros _ _ Hc'. cbn in Hc'. unfold sock_connected, IsConnected in Hc'. cbn in Hc'. congruence.
Qed.

Section Invariant.
Context (may : attempt -> Prop) (awake : task_wake -> Conn -> Prop) (noticed : Prop).
Hypothesis may_be_lost : noticed -> ~ may OpenedLost.

Lemma conn_inv_preserved : preserved (conn_step may awake) (conn_inv noticed).
Proof.
  assert (forall r, may r -> noticed -> r <> OpenedLost) as Hlost by (intros r Hr Hn ->; by apply may_be_lost).
  intros c c' Hstep Hinv. destruct Hstep as [c r Hr|c|c|c i|c|c He|c|c|c k t wk r hook t' c' Hk Hr Haw Hrun].
  - unfold ConnectContext. pose proof (unlockedConnect_inv noticed r c (Hlost r Hr) Hinv) as [H1 _]. destruct (unlockedConnect r c) as [[[| |[]]|] c1]; cbn in *; try done.
    destruct (_ && _); [|done]. by apply start_inv; [intros []|].
  - by destruct (unlockedDisconnect_inv noticed (expect c)) as (? & _).
  - unfold ResetConnection. cbn zeta. match goal with |- context [stop_socket _ _ _ ?x] => set (c1 := x) end.
    change (socket c1) with (socket c). destruct (socket c) as [i|] eqn:Hc; [|done].
    destruct (si_current _ _ _ _ Hinv i Hc) as [s Hi]. by destruct (stop_inv noticed i true true c1 s) as (? & _); [done|done|by left|by intros _; left|].
  - by apply close_inv.
  - done.
  - destruct (unlockedDisconnect_inv noticed (expect c)) as (? & _); [done|]. by apply start_inv; [intros []|].
  - by apply start_inv; [intros []|].
  - done.
  - unfold conn_inv. change (sock_inv noticed (sockets c') (socket c') (set_task k t' (tasks c'))).
    destruct t as [i remote|st| | |]; cbn in Hrun.
    + injection Hrun as <- <-. destruct (si_callback _ _ _ _ Hinv i remote) as (s & Hi & Hs); [by eapply list_elem_of_lookup_2|].
      destruct (onDisconnect_inv noticed i remote c s Hinv Hi Hs) as (H1 & H2 & l & H3 & _). cbn.
      apply (inv_remove _ _ _ _ k i remote); [|done|done]. rewrite H3. by apply lookup_app_l_Some.
    + assert (conn_inv noticed c' /\ tasks c' = tasks c /\ (forall t0, t' = Some t0 -> ~ is_callback t0)) as (H1 & H2 & H3).
      { destruct (reconnect_step wk r hook st c) as [[st' c1]|] eqn:Hs; [|done].
        assert (c' = c1 /\ (forall t0, t' = Some t0 -> ~ is_callback t0)) as [-> H3].
        { destruct st'; injection Hrun as <- <-; (split; [done|]); intros t0; [by intros [= <-] []|by intros [=]]. }
        split; [|split; [|done]]; destruct st; cbn in Hs.
        - destruct (_ || _); by injection Hs as _ <-.
        - destruct wk; [|destruct (expectedDisconnect _); [|done]|]; by injection Hs as _ <-.
        - pose proof (unlockedConnect_inv noticed r c (Hlost r Hr) Hinv) as [? _]. destruct (unlockedConnect r c). by injection Hs as _ <-.
        - destruct (expectedDisconnect _); [by injection Hs as _ <-|]. destruct hook as [[]|]; by injection Hs as _ <-.
        - destruct (_ || _); by injection Hs as _ <-.
        - destruct wk; [|destruct (expectedDisconnect _); [|done]|]; by injection Hs as _ <-.
        - pose proof (unlockedConnect_inv noticed r c (Hlost r Hr) Hinv) as [_ ?]. destruct (unlockedConnect r c). by injection Hs as _ <-.
        - destruct (expectedDisconnect _); [by injection Hs as _ <-|]. destruct hook as [[]|]; by injection Hs as _ <-. }
      eapply inv_tasks; [|exact H1]. intros i0 r0. rewrite H2. by eapply set_task_callbacks; [exact Hk|intros []|].
    + injection Hrun as <- <-. eapply inv_tasks; [|exact Hinv]. intros i0 r0. eapply set_task_callbacks; [exact Hk|by intros []|by intros ? [= <-] []].
    + injection Hrun as <- <-. destruct (unlockedDisconnect_inv noticed (expect c)) as (H1 & _ & H2 & _); [done|].
      eapply inv_tasks; [|exact H1]. intros i0 r0. unfold DisconnectConn. rewrite H2. eapply set_task_callbacks; [exact Hk|by intros []|by intros ? [= <-] []].
    + injection Hrun as <- <-. destruct (unlockedConnect_inv noticed r c (Hlost r Hr) Hinv) as [H1 H2].
      eapply inv_tasks; [|exact H1]. intros i0 r0. rewrite H2. eapply set_task_callbacks; [exact Hk|by intros []|by intros ? [=]].
Qed.
End Invariant.

(** A client that was not connected yet. *)
Definition new_conn (client : Client) (enable initial : bool) : Conn := mkConn client [] [] None false enable initial false 0 zeroTime [] [].
Lemma new_conn_inv noticed client enable initial : conn_inv noticed (new_conn client enable initial).
Proof. split; cbn; [done|done|by intros i r ?%elem_of_nil|done]. Qed.

Lemma reachable_inv client enable initial c : rtc any_step (new_conn client enable initial) c -> conn_inv False c.
Proof. intros Hr. eapply (rtc_preserved _ _ _ _ (conn_inv_preserved _ _ False _)); [exact Hr|apply new_conn_inv]. Unshelve. done. Qed.

(** Every attempt that fails closes its socket. *)
Definition none_left_open (c : Conn) : Prop := Forall (fun fs => IsConnected fs = false) (abandoned c).
Lemma stop_abandoned i a b c : abandoned (stop_socket i a b c) = abandoned c.
Proof. unfold stop_socket. destruct (sockets c !! i) as [[ns fs]|]; [|done]. by destruct (Stop a b _ _) as [[ns' fs'] calls]. Qed.
Lemma close_abandoned i code c : abandoned (close_socket i code c) = abandoned c.
Proof. unfold close_socket. destruct (sockets c !! i) as [[ns fs]|]; [|done]. by destruct (Close code _). Qed.
Lemma unlockedDisconnect_abandoned c : abandoned (unlockedDisconnect c) = abandoned c.
Proof. unfold unlockedDisconnect. destruct (socket c); [apply stop_abandoned|done]. Qed.
Lemma onDisconnect_abandoned i remote c : abandoned (onDisconnect i remote c) = abandoned c.
Proof.
  unfold onDisconnect. rewrite <- (stop_abandoned i false false c). set (c1 := stop_socket _ _ _ c). cbn zeta.
  repeat match goal with |- context [if ?b then _ else _] => destruct b end; done.
Qed.
Lemma close_connected code fs : IsConnected (Close code fs).1 = false.
Proof. unfold Close, IsConnected. by destruct (conn fs) eqn:Hc. Qed.
Lemma unlockedConnect_closed r c : none_left_open c -> none_left_open (unlockedConnect r c).2.
Proof.
  intros H. unfold unlockedConnect. destruct (Deleted _); [done|]. destruct (match socket c with Some i => _ | None => false end); [done|].
  assert (none_left_open (resetExpectedDisconnect (unlockedDisconnect c))) as H' by (unfold none_left_open; cbn; by rewrite unlockedDisconnect_abandoned).
  destruct r; cbn; try done; apply Forall_app; (split; [done|]); apply Forall_singleton, close_connected.
Qed.
Lemma reconnect_closed wk r hook st c st' c' : reconnect_step wk r hook st c = Some (st', c') -> none_left_open c -> none_left_open c'.
Proof.
  destruct st; cbn; intros H Hc.
  - destruct (_ || _); by injection H as _ <-.
  - destruct wk; [|destruct (expectedDisconnect _); [|done]|]; by injection H as _ <-.
  - pose proof (unlockedConnect_closed r c Hc) as Hr. destruct (unlockedConnect r c). by injection H as _ <-.
  - destruct (expectedDisconnect _); [by injection H as _ <-|]. destruct hook as [[]|]; by injection H as _ <-.
Qed.
Lemma none_left_open_preserved : preserved any_step none_left_open.
Proof.
  intros c c' Hstep H. destruct Hstep as [c r _|c|c|c i|c|c He|c|c|c k t wk r hook t' c' Hk _ _ Hrun]; try done.
  - unfold ConnectContext. pose proof (unlockedConnect_closed r c H) as Hc. destruct (unlockedConnect r c) as [[[| |[]]|] c1]; try done. cbn. by destruct (_ && _).
  - unfold none_left_open, DisconnectConn. by rewrite unlockedDisconnect_abandoned.
  - unfold none_left_open, ResetConnection. cbn. destruct (socket c); [|done]. cbn. by rewrite stop_abandoned.
  - unfold none_left_open. by rewrite close_abandoned.
  - unfold none_left_open. cbn. unfold DisconnectConn. by rewrite unlockedDisconnect_abandoned.
  - change (none_left_open c'). destruct t as [i remote|st| | |]; cbn in Hrun.
    + injection Hrun as _ <-. unfold none_left_open. by rewrite onDisconnect_abandoned.
    + destruct (reconnect_step wk r hook st c) as [[[st'|] c1]|] eqn:Hs; [..|done]; injection Hrun as _ <-; by eapply reconnect_closed.
    + by injection Hrun as _ <-.
    + injection Hrun as _ <-. unfold none_left_open, DisconnectConn. by rewrite unlockedDisconnect_abandoned.
    + injection Hrun as _ <-. by apply unlockedConnect_closed.
Qed.

(** C26. However the goroutines interleave, the client has at most one open
    connection, the one of its current socket; the sockets of attempts that failed are closed. *)
Theorem one_connection client enable initial c :
  rtc any_step (new_conn client enable initial) c ->
  (forall i s, sockets c !! i = Some s -> sock_connected s = true -> socket c = Some i) /\
  Forall (fun fs => IsConnected fs = false) (abandoned c).
Proof.
  intros Hr. split.
  - intros i s Hi Hs. by destruct (si_open _ _ _ _ (reachable_inv _ _ _ _ Hr) i s Hi Hs).
  - change (none_left_open c). eapply (rtc_preserved _ _ _ _ none_left_open_preserved); [exact Hr|by apply Forall_nil].
Qed.

(** When no attempt is lost, a current socket that is closed has a callback on
    its way, which takes it away and starts reconnecting. *)
Theorem dead_socket_noticed client enable initial c i s :
  rtc (conn_step (fun r => r <> OpenedLost) (fun _ _ => True)) (new_conn client enable initial) c ->
  socket c = Some i -> sockets c !! i = Some s -> sock_connected s = false ->
  exists k remote, tasks c !! k = Some (Callback i remote) /\
    let c' := onDisconnect i remote c in
    socket c' = None /\
    (expectedDisconnect (cl c) = false -> remote || forceAutoReconnect (cl c) = true ->
     tasks c' = tasks c ++ [AutoReconnect AtDelay] /\ Event Disconnected ∈ effects c').
Proof.
  intros Hr Hc Hi Hs. assert (conn_inv True c) as Hinv.
  { eapply (rtc_preserved _ _ _ _ (conn_inv_preserved _ _ True _)); [exact Hr|apply new_conn_inv]. Unshelve. intros _ H. by apply H. }
  destruct (si_noticed _ _ _ _ Hinv I i s Hc Hi Hs) as [r Hin]. apply list_elem_of_lookup in Hin as [k Hk]. exists k, r. split; [done|].
  destruct (stop_inv True i false false c s Hinv Hi) as (_ & H2 & _ & _ & _ & H5 & H6); [by right|by intros _; right; right|].
  unfold onDisconnect. set (c1 := stop_socket i false false c) in *. rewrite H2, bool_decide_true by done.
  change (expectedDisconnect (cl (do_ (ClearWaiters None) (c1 <| socket := None |>)))) with (expectedDisconnect (cl c1)).
  change (forceAutoReconnect (cl (do_ (ClearWaiters None) (c1 <| socket := None |>)))) with (forceAutoReconnect (cl c1)). rewrite H5.
  cbn zeta. destruct (expectedDisconnect (cl c)); [done|]. split; [by destruct (_ || _)|]. intros _ Hf. rewrite orb_comm, Hf. split.
  - cbn. by rewrite (H6 eq_refl).
  - cbn. apply elem_of_app. right. by left.
Qed.

(** A server that closes between the last message of the handshake and the
    callback leaves the client with a closed socket, nothing under way and no
    disconnection reported. *)
Theorem lost_close_never_noticed client initial :
  Deleted (Store client) = false -> is_Some (ID (Store client)) ->
  exists c i s, rtc any_step (new_conn client true initial) c /\ socket c = Some i /\ sockets c !! i = Some s /\
    sock_connected s = false /\ tasks c = [] /\ expectedDisconnect (cl c) = false /\ Event Disconnected ∉ effects c.
Proof.
  intros Hd Hid. set (c := (ConnectContext OpenedLost (new_conn client true initial)).2).
  assert (c = (new_conn client true initial) <| cl := client <| forceAutoReconnect := false |> <| expectedDisconnect := false |> |>
    <| sockets := [newNoiseSocket (AEAD := ()) () () (Close 0 (NewFrameSocket <| conn := true |>)).1] |> <| socket := Some 0%nat |>) as Hc.
  { unfold c, ConnectContext, unlockedConnect. cbn. by rewrite Hd. }
  exists c, 0%nat. eexists. split; [apply rtc_once; by apply cs_connect|]. rewrite Hc. do 5 (split; [done|]). by intros ?%elem_of_nil.
Qed.

(** *** Disconnecting for good *)

(** A goroutine that waits sees the disconnection before its delay is over. *)
Definition prompt (wk : task_wake) (c : Conn) : Prop := expectedDisconnect (cl c) = true -> wk <> DelayPasses.
(** Nothing is about to connect. *)
Definition calm_task (t : task) : Prop :=
  match t with
  | Callback _ _ | AutoReconnect AtDelay | AutoReconnect (InDelay _) | AutoReconnect (AttemptFailed _) => True
  | _ => False
  end.
(** The steps of everything but what is [undoing] below. *)
Inductive calm_step : relation Conn :=
| calm_disconnect c : calm_step c (DisconnectConn c)
| calm_reset c : calm_step c (ResetConnection c)
| calm_remote c i : calm_step c (close_socket i 0 c)
| calm_expect c : calm_step c (expect c)
| calm_success c : calm_step c (c <| AutoReconnectErrors := 0 |> <| isLoggedIn := true |>)
| calm_run c k t wk r hook t' c' :
    tasks c !! k = Some t -> prompt wk c -> run_task wk r hook t c = Some (t', c') ->
    calm_step c (c' <| tasks := set_task k t' (tasks c') |>).
(** What may end a disconnection: the user connects, a ping that was sent before it fails, a
    login that was accepted before it goes on, or the delay of an attempt passes although the
    event of the disconnection is there too: a [select] takes either. *)
Inductive undoing : relation Conn :=
| un_connect c r : undoing c (ConnectContext r c).2
| un_keepalive c : EnableAutoReconnect c = true -> undoing c (start [KeepAliveReset] (DisconnectConn c))
| un_login c : undoing c (start [LoginDisconnect] c)
| un_delay c k delay :
    tasks c !! k = Some (AutoReconnect (InDelay delay)) ->
    undoing c (c <| tasks := <[k := AutoReconnect DelayOver]> (tasks c) |>).
Lemma calm_or_undoing c c' : any_step c c' -> calm_step c c' \/ undoing c c'.
Proof.
  intros [c0 r _|c0|c0|c0 i|c0|c0 He|c0|c0|c0 k t wk r hook t' c1 Hk _ _ Hrun]; try (left; by constructor); try (right; by constructor).
  destruct wk; [|left; by eapply (calm_run _ k t _ r hook); [exact Hk| |exact Hrun]..].
  assert ((exists delay, t = AutoReconnect (InDelay delay)) \/ run_task ContextEnds r hook t c0 = run_task DelayPasses r hook t c0) as [[delay ->]|He].
  { destruct t as [| [|delay| |] | | |]; try (by right). left. by exists delay. }
  - right. cbn in Hrun. injection Hrun as <- <-. by eapply un_delay.
  - left. rewrite <- He in Hrun. by eapply (calm_run _ k t ContextEnds r hook).
Qed.

Record calm (c : Conn) : Prop := mkCalm {
  cm_socket : socket c = None;
  cm_expected : expectedDisconnect (cl c) = true;
  cm_tasks : Forall calm_task (tasks c) }.

Lemma stop_frame i a b c : exists l, stop_socket i a b c = start (map (Callback i) l) (c <| sockets := sockets (stop_socket i a b c) |>).
Proof.
  unfold stop_socket. destruct (sockets c !! i) as [[ns fs]|]; [|exists []; destruct c; unfold start; cbn; by rewrite app_nil_r].
  destruct (Stop a b _ _) as [[ns' fs'] calls]. by exists calls.
Qed.
Lemma calm_callbacks i l : Forall calm_task (map (Callback i) l).
Proof. apply Forall_map, Forall_true. by intros. Qed.

Lemma calm_preserved : preserved calm_step calm.
Proof.
  intros c c' Hstep [Hs He Ht]. destruct Hstep as [c|c|c i|c|c|c k t wk r hook t' c' Hk Hp Hrun]; [..|by split|by split|].
  - unfold DisconnectConn, unlockedDisconnect. change (socket (expect c)) with (socket c). by rewrite Hs.
  - unfold ResetConnection. cbn. by rewrite Hs.
  - unfold close_socket. destruct (sockets c !! i) as [[ns fs]|]; [|by split]. destruct (Close 0 _) as [fs' calls].
    split; [done|done|]. cbn. apply Forall_app. split; [done|apply calm_callbacks].
  - assert (calm c' /\ forall t0, t' = Some t0 -> calm_task t0) as [[H1 H2 H3] H4].
    { pose proof (proj1 (Forall_lookup _ _) Ht _ _ Hk) as Hct. destruct t as [i remote|st| | |]; cbn in Hrun, Hct; try done.
      - injection Hrun as <- <-. split; [|by intros t0 [=]]. unfold onDisconnect. destruct (stop_frame i false false c) as [l ->].
        set (c1 := start _ _). change (socket c1) with (socket c). rewrite Hs, bool_decide_false by done. split; [done|done|].
        cbn. apply Forall_app. split; [done|apply calm_callbacks].
      - destruct st; try done; cbn in Hrun.
        + destruct (_ || _); injection Hrun as <- <-; (split; [by split|]); [by intros ? [=]|by intros t0 [= <-]].
        + destruct wk; [by destruct (Hp He)|rewrite He in Hrun|]; injection Hrun as <- <-; (split; [by split|by intros ? [=]]).
        + rewrite He in Hrun. injection Hrun as <- <-. split; [by split|by intros ? [=]]. }
    split; [done|done|]. cbn. destruct t' as [t'|]; cbn; [apply Forall_insert; [done|by apply H4]|].
    apply Forall_forall. intros x Hx. eapply (proj1 (Forall_forall _ _) H3). eapply elem_of_sublist; [exact Hx|apply sublist_delete].
Qed.

Lemma DisconnectConn_calm c : Forall calm_task (tasks c) -> conn_inv False c -> calm (DisconnectConn c).
Proof.
  intros Ht Hinv. destruct (unlockedDisconnect_inv False (expect c)) as (_ & H2 & H3 & H4); [done|].
  unfold DisconnectConn. split; [done|by rewrite H4|by rewrite H3].
Qed.
Lemma calm_until c c' : rtc any_step c c' -> calm c ->
  calm c' \/ exists c1 c2, rtc any_step c c1 /\ calm c1 /\ undoing c1 c2 /\ rtc any_step c2 c'.
Proof.
  induction 1 as [c|c c1 c' Hstep Hr IH]; intros Hc; [by left|]. destruct (calm_or_undoing c c1 Hstep) as [Hs|Hu].
  - destruct (IH (calm_preserved _ _ Hs Hc)) as [?|(c2 & c3 & H2 & H3 & H4 & H5)]; [by left|]. right. exists c2, c3. split; [by eapply rtc_l|done].
  - right. exists c, c1. by split; [apply rtc_refl|].
Qed.

(** C28. After [Disconnect], in a state in which the sockets are as [one_connection] says
    and no attempt to connect is under way, the client stays disconnected through every
    step that is not [undoing]: what the server does, callbacks that come late, goroutines
    that wait to connect again, resets and further disconnections. In a run of any steps
    it is disconnected until the first of these four happens: a call to connect, a
    keepalive ping that failed, the goroutine of a login (stream error 515), or a goroutine
    that waits to connect again and whose delay passes before it sees the disconnection. *)
Theorem disconnect_is_final c c' :
  Forall calm_task (tasks c) -> conn_inv False c ->
  (rtc calm_step (DisconnectConn c) c' -> socket c' = None /\ expectedDisconnect (cl c') = true) /\
  (rtc any_step (DisconnectConn c) c' ->
   socket c' = None /\ expectedDisconnect (cl c') = true \/
   exists c1 c2, rtc any_step (DisconnectConn c) c1 /\ socket c1 = None /\ expectedDisconnect (cl c1) = true /\
     undoing c1 c2 /\ rtc any_step c2 c').
Proof.
  intros Ht Hinv. pose proof (DisconnectConn_calm c Ht Hinv) as Hc. split; intros Hr.
  - assert (calm c') as [? ? _]; [|done]. by eapply (rtc_preserved _ _ _ _ calm_preserved).
  - destruct (calm_until _ _ Hr Hc) as [[? ? _]|(c1 & c2 & H1 & [? ? _] & H3 & H4)]; [by left|]. right. by exists c1, c2.
Qed.

(** A run, one step after the other. *)
Inductive conn_move : Type := MConnect (r : attempt) | MDisconnect | MRemote (i : nat) | MKeepAlive | MTask (k : nat) (r : attempt).
Definition do_conn_move (m : conn_move) (c : Conn) : option Conn :=
  match m with
  | MConnect r => Some (ConnectContext r c).2
  | MDisconnect => Some (DisconnectConn c)
  | MRemote i => Some (close_socket i 0 c)
  | MKeepAlive => if EnableAutoReconnect c then Some (start [KeepAliveReset] (DisconnectConn c)) else None
  | MTask k r =>
      t ← tasks c !! k;
      match run_task DelayPasses r None t c with Some (t', c') => Some (c' <| tasks := set_task k t' (tasks c') |>) | None => None end
  end.
Fixpoint conn_moves (l : list conn_move) (c : Conn) : option Conn :=
  match l with [] => Some c | m :: l => match do_conn_move m c with Some c => conn_moves l c | None => None end end.
Lemma conn_moves_rtc l c c' : conn_moves l c = Some c' -> rtc any_step c c'.
Proof.
  revert c. induction l as [|m l IH]; intros c; cbn; [by intros [= ->]|]. destruct (do_conn_move m c) as [c1|] eqn:Hm; [|done].
  intros H. eapply rtc_l; [|by apply IH]. clear H. destruct m; cbn in Hm; try (injection Hm as <-; by constructor).
  - destruct (EnableAutoReconnect c) eqn:He; [|done]. injection Hm as <-. by constructor.
  - destruct (tasks c !! k) as [t|] eqn:Hk; cbn in Hm; [|done]. destruct (run_task _ _ _ t c) as [[t' c2]|] eqn:Hr; [|done].
    injection Hm as <-. by eapply cs_task.
Qed.

Definition demo_logged_in : Client := (demo_client []) <| Store := demo_unpaired <| ID := Some demo_jid |> |>.
(** Connected, closed by the server, and waiting to connect again. *)
Definition delay_over : list conn_move := [MConnect Opened; MRemote 0; MTask 0 Opened; MTask 0 Opened; MTask 0 Opened].

(** Connected, closed by the server, and connected again after an attempt whose handshake failed. *)
Definition reconnected : list conn_move := delay_over ++ [MTask 0 (HandshakeFailed true); MTask 0 Opened; MTask 0 Opened; MTask 0 Opened].
Lemma one_connection_witness :
  exists c s, conn_moves reconnected (new_conn demo_logged_in true false) = Some c /\ length (sockets c) = 2%nat /\
    sockets c !! 1%nat = Some s /\ sock_connected s = true /\ socket c = Some 1%nat /\
    length (abandoned c) = 1%nat /\ Forall (fun fs => IsConnected fs = false) (abandoned c).
Proof.
  destruct (conn_moves reconnected (new_conn demo_logged_in true false)) as [c|] eqn:Hc; [|by vm_compute in Hc].
  pose proof (one_connection demo_logged_in true false c (conn_moves_rtc _ _ _ Hc)) as [H Hab].
  assert (exists s, length (sockets c) = 2%nat /\ sockets c !! 1%nat = Some s /\ sock_connected s = true) as (s & Hl & Hs & Ho).
  { vm_compute in Hc. injection Hc as <-. eexists. by vm_compute. }
  exists c, s. do 4 (split; [done|]). split; [by apply (H 1%nat s)|]. split; [by vm_compute in Hc; injection Hc as <-|done].
Defined.

(** The client is disconnected while it waits to connect again; the goroutine that
    waits finds out and ends. *)
Lemma disconnect_is_final_witness :
  exists c c', conn_moves (take 4 delay_over) (new_conn demo_logged_in true false) = Some c /\
    tasks c = [AutoReconnect (InDelay 0)] /\ calm_step (DisconnectConn c) c' /\ tasks c' = [] /\
    socket c' = None /\ expectedDisconnect (cl c') = true.
Proof.
  destruct (conn_moves (take 4 delay_over) (new_conn demo_logged_in true false)) as [c|] eqn:Hc; [|by vm_compute in Hc].
  pose proof (reachable_inv _ _ _ _ (conn_moves_rtc _ _ _ Hc)) as Hinv.
  assert (tasks c = [AutoReconnect (InDelay 0)] /\ socket c = None) as [Ht Hn] by (by vm_compute in Hc; injection Hc as <-).
  assert (DisconnectConn c = expect c) as Hd by (unfold DisconnectConn, unlockedDisconnect; cbn; by rewrite Hn).
  assert (calm_step (DisconnectConn c) ((DisconnectConn c) <| tasks := [] |>)) as Hstep.
  { assert ((DisconnectConn c) <| tasks := [] |> = (DisconnectConn c) <| tasks := set_task 0 None (tasks (DisconnectConn c)) |>) as -> by (rewrite Hd; cbn; by rewrite Ht).
    apply (calm_run _ 0%nat (AutoReconnect (InDelay 0)) FoundExpected Opened None); [rewrite Hd; cbn; by rewrite Ht|done|rewrite Hd; reflexivity]. }
  exists c, ((DisconnectConn c) <| tasks := [] |>). do 4 (split; [done|]).
  apply (disconnect_is_final c); [rewrite Ht; by repeat constructor|done|by apply rtc_once].
Defined.

(** An attempt whose delay is over when [Disconnect] is called connects the
    client again, and so does a ping that failed at that time. *)
Theorem disconnect_undone :
  exists client, (forall before after, (before, after) ∈ [(delay_over, [MTask 0 Opened]);
    ([MConnect Opened; MKeepAlive], [MTask 0 Opened; MTask 0 Opened; MTask 0 Opened; MTask 0 Opened])] ->
    exists c c', conn_moves before (new_conn client true false) = Some c /\ rtc any_step (new_conn client true false) c /\
      conn_moves after (DisconnectConn c) = Some c' /\ rtc any_step (DisconnectConn c) c' /\
      (exists i s, socket c' = Some i /\ sockets c' !! i = Some s /\ sock_connected s = true)).
Proof.
  exists demo_logged_in. intros before after Hin.
  assert (exists c c', conn_moves before (new_conn demo_logged_in true false) = Some c /\ conn_moves after (DisconnectConn c) = Some c' /\
    (exists i s, socket c' = Some i /\ sockets c' !! i = Some s /\ sock_connected s = true)) as (c & c' & H1 & H2 & H3).
  { rewrite !elem_of_cons, elem_of_nil in Hin. destruct Hin as [[= -> ->]|[[= -> ->]|[]]].
    - eexists _, _. split; [by vm_compute|]. split; [by vm_compute|]. exists 1%nat. eexists. by vm_compute.
    - eexists _, _. split; [by vm_compute|]. split; [by vm_compute|]. exists 1%nat. eexists. by vm_compute. }
  exists c, c'. split; [done|]. split; [by eapply conn_moves_rtc|]. split; [done|]. split; [by eapply conn_moves_rtc|done].
Qed.

(** ** The delays *)

(** A goroutine whose attempts all fail: the delays that it waits for. *)
Fixpoint failing (n : nat) (c : Conn) (st : reconnecting) : list Duration * Conn :=
  match n with
  | O => ([], c)
  | S n =>
      match reconnect_step DelayPasses (DialFailed true) None st c with
      | Some (Some (InDelay delay as st), c) => let '(l, c) := failing n c st in (delay :: l, c)
      | Some (Some st, c) => failing n c st
      | _ => ([], c)
      end
  end.

Lemma failing_from n c err :
  Deleted (Store (cl c)) = false -> socket c = None -> expectedDisconnect (cl c) = false ->
  failing (3 * n) c (AttemptFailed err) =
    (map (fun k => (AutoReconnectErrors c + Z.of_nat k) * 2 * Second) (seq 0 n),
     (failing (3 * n) c (AttemptFailed err)).2) /\
  AutoReconnectErrors (failing (3 * n) c (AttemptFailed err)).2 = AutoReconnectErrors c + Z.of_nat n.
Proof.
  revert c err. induction n as [|n IH]; intros c err Hd Hs He; [cbn; split; [done|lia]|].
  assert (3 * S n = S (S (S (3 * n))))%nat as -> by lia. cbn -[Nat.mul seq]. rewrite He. cbn -[Nat.mul seq].
  unfold unlockedConnect. cbn -[Nat.mul seq]. rewrite Hd, Hs. unfold unlockedDisconnect. cbn -[Nat.mul seq]. rewrite Hs. cbn -[Nat.mul seq].
  match goal with |- context [failing (3 * n) ?x (AttemptFailed ?e)] => set (c1 := x); destruct (IH c1 e) as [H1 H2]; [done|done|done|] end.
  assert (AutoReconnectErrors c1 = AutoReconnectErrors c + 1) as Hc1 by done.
  destruct (failing (3 * n) c1 _) as [l c2]. cbn in H1, H2 |- *. injection H1 as ->. split; [|lia].
  f_equal. f_equal; [f_equal; lia|]. rewrite <- seq_shift, map_map. apply map_ext. intros k. f_equal. lia.
Qed.

(** While every attempt fails, the k-th delay is twice the number of failures so
    far in seconds, without bound; the count is kept until a login succeeds. *)
Theorem reconnect_delays n c :
  Deleted (Store (cl c)) = false -> socket c = None -> expectedDisconnect (cl c) = false ->
  EnableAutoReconnect c = true -> is_Some (ID (Store (cl c))) ->
  let r := failing (3 * S n) c AtDelay in
  r.1 = map (fun k => (AutoReconnectErrors c + Z.of_nat k) * 2 * Second) (seq 0 (S n)) /\
  AutoReconnectErrors r.2 = AutoReconnectErrors c + Z.of_nat (S n).
Proof.
  intros Hd Hs He Hen Hid. cbn zeta. assert (3 * S n = S (S (S (3 * n))))%nat as -> by lia. cbn -[Nat.mul seq]. rewrite Hen, bool_decide_true by done.
  cbn -[Nat.mul seq]. unfold unlockedConnect. cbn -[Nat.mul seq]. rewrite Hd, Hs. unfold unlockedDisconnect. cbn -[Nat.mul seq]. rewrite Hs. cbn -[Nat.mul seq].
  match goal with |- context [failing (3 * n) ?x (AttemptFailed ?e)] => set (c1 := x); destruct (failing_from n c1 e) as [H1 H2]; [done|done|done|] end.
  destruct (failing (3 * n) c1 _) as [l c2]. cbn in H1, H2 |- *. injection H1 as ->. split; [|lia].
  f_equal; [f_equal; lia|]. rewrite <- seq_shift, map_map. apply map_ext. intros k. f_equal. lia.
Qed.
