(* ===== verification/ConnEvents.v ===== *)
(** * [whatsmeow/connectionevents.go], [keepalive.go] and the events of [client.go]

    What the client does with the nodes that end or begin a session, with a ping
    that fails, and with its list of event handlers. *)
From S2P Require Import Prelude GoStrings GoTime Jid Events BinaryNode FrameSocket Noise NodeAttrs Requests LidMap PreKeys SqlDB DeviceStore Pairing Connection.

(** ** [connectionevents.go] *)

Definition with_client (f : Client -> Client) (c : Conn) : Conn := c <| cl := f (cl c) |>.
Definition set_logged_in (b : bool) (c : Conn) : Conn := c <| isLoggedIn := b |>.
(** An error is logged. *)
Definition delete_store (c : Conn) : Conn :=
  let '(_, device, db') := Delete (Store (cl c)) (db (cl c)) in with_client (fun cl => cl <| Store := device |> <| db := db' |>) c.

(** [RefreshCAT] is nil, or gives whether it succeeded. *)
Definition refresh (ok : bool) (c : Conn) : Conn := if ok then c else do_ (Event CATRefreshError) (expect c).

Definition handleStreamError (RefreshCAT : option bool) (n : node) (c : Conn) : Conn :=
  let c := do_ (ClearWaiters (Some n)) (set_logged_in false c) in
  let '(code, _) := as_string (attr (Attrs n) "code") in
  let '(conflict, _) := GetOptionalChildByTag n ["conflict"] in
  let '(conflictType, _) := OptionalString "type" (AttrGetter conflict) in
  if String.eqb code "515" then
    if DisableLoginAutoReconnect c then do_ (Event ManualLoginReconnect) c else start [LoginDisconnect] c
  else if String.eqb code "401" && String.eqb conflictType "device_removed" then
    delete_store (do_ (Event (LoggedOut false ConnectFailureLoggedOut)) (expect c))
  else if String.eqb conflictType "replaced" then do_ (Event StreamReplaced) (expect c)
  else if String.eqb code "503" then c
  else
    match RefreshCAT with
    | Some ok =>
        if String.eqb code (NumberString ConnectFailureCATInvalid) || String.eqb code (NumberString ConnectFailureCATExpired) then refresh ok c
        else do_ (Event (StreamError code n)) c
    | None => do_ (Event (StreamError code n)) c
    end.

Definition ConnectFailureServiceUnavailable : Z := 503.
Definition ConnectFailureInternalServerError : Z := 500.

(** The attributes are read one after the other; the node [offline_preview] has
    five. *)
Definition ib_child (child : node) (c : Conn) : Conn :=
  let int (key : string) := (Int key (AttrGetter child)).1 in
  if String.eqb (Tag child) "downgrade_webclient" then do_ (Event QRScannedWithoutMultidevice) c
  else if String.eqb (Tag child) "offline_preview" then
    do_ (Event (OfflineSyncPreview (int "count") (int "appdata") (int "message") (int "notification") (int "receipt"))) c
  else if String.eqb (Tag child) "offline" then do_ (Event (OfflineSyncCompleted (int "count"))) c
  else c.
Definition handleIB (n : node) (c : Conn) : Conn := foldl (fun c child => ib_child child c) c (GetChildren n).

Definition is_CAT (reason : Z) : bool := (reason =? ConnectFailureCATInvalid) || (reason =? ConnectFailureCATExpired).
Definition will_reconnect (reason : Z) : bool :=
  (reason =? ConnectFailureServiceUnavailable) || (reason =? ConnectFailureInternalServerError) || is_CAT reason.

Definition handleConnectFailure (RefreshCAT : option bool) (n : node) (c : Conn) : outcome Conn :=
  let '(reason, ag) := Int "reason" (AttrGetter n) in
  let '(message, ag) := OptionalString "message" ag in
  let willAutoReconnect := will_reconnect reason in
  let c := if willAutoReconnect then c else expect c in
  if IsLoggedOut reason then Ret (delete_store (do_ (Event (LoggedOut true reason)) c))
  else if reason =? ConnectFailureTempBanned then
    Ret (do_ (Event (TemporaryBan (Int "code" ag).1 (wrap64 ((Int "expire" ag).1 * Second)))) c)
  else if reason =? ConnectFailureClientOutdated then Ret (do_ (Event ClientOutdated) c)
  else if is_CAT reason then
    match RefreshCAT with
    | None => Panic nil_dereference
    | Some ok => Ret (refresh ok c)
    end
  else if willAutoReconnect then Ret c
  else Ret (do_ (Event (ConnectFailure reason message n)) c).

(** The goroutine after a login; [None] where a query failed. *)
Definition after_login (dbCount serverCount : option Z) (c : Conn) : Conn :=
  let c := match dbCount, serverCount with
           | Some dbCount, Some serverCount =>
               if (serverCount <? MinPreKeyCount) || (dbCount <? MinPreKeyCount)
               then do_ (UploadPreKeys ((dbCount =? 0) && (serverCount =? 0))) c else c
           | _, _ => c
           end in
  do_ CloseSocketWait (do_ (Event Connected) (do_ (SetPassive false) c)).

Definition handleConnectSuccess (d : Dialect) (n : node) (now : Time) (dbCount serverCount : option Z) (c : Conn) : outcome Conn :=
  let c := set_logged_in true (c <| LastSuccessfulConnect := now |> <| AutoReconnectErrors := 0 |>) in
  let '(nodeLID, ag) := getJID "lid" (AttrGetter n) in
  let c := with_client (fun cl => cl <| serverTimeOffset := Sub (UnixTime "t" ag).1 (RoundSecond now) |>) c in
  let stored := LID (Store (cl c)) in
  let stored := if negb (IsEmpty stored) && negb (IsEmpty nodeLID) && negb (bool_decide (stored = nodeLID)) then EmptyJID else stored in
  let c := with_client (fun cl => cl <| Store := (Store cl) <| LID := stored |> |>) c in
  c ← (if IsEmpty stored && negb (IsEmpty nodeLID) then
         let device := (Store (cl c)) <| LID := nodeLID |> in
         '(_, device, db') ← Save d device (db (cl c));
         Ret (with_client (fun cl => StoreLIDPNMapping (GetLID (Some device)) (GetJID (Some device)) (cl <| Store := device |> <| db := db' |>)) c)
       else Ret c);
  Ret (after_login dbCount serverCount (do_ DeleteExpiredTokens c)).

Definition passiveQuery (passive : bool) : infoQuery :=
  mkQuery "passive" iqSet ServerJID EmptyJID "" "" (VNodes [mkNode (if passive then "passive" else "active") [] VNil]) 0 false.

(** ** [keepalive.go] *)

Definition KeepAliveResponseDeadline : Duration := 10 * Second.
Definition KeepAliveIntervalMin : Duration := 20 * Second.
Definition KeepAliveIntervalMax : Duration := 30 * Second.
Definition KeepAliveMaxFailTime : Duration := 3 * Minute.

(** The interval in milliseconds, from a random number. *)
Definition keepAliveInterval (draw : Z) : outcome Z :=
  let ms := KeepAliveIntervalMax / Millisecond - KeepAliveIntervalMin / Millisecond in
  r ← IntN ms draw; Ret (r + KeepAliveIntervalMin / Millisecond).

Definition keepAliveQuery : infoQuery := mkQuery "w:p" iqGet ServerJID EmptyJID "" "" VNil 0 false.
(** The send and the wait of a ping: whether its context is over after the send,
    the error of the send, what ends the wait. *)
Inductive ping_end : Type := PingAnswered | PingTimeout | PingContextDone.
Definition sendKeepAlive (ctx_err send_err : bool) (e : ping_end) : bool * bool :=
  if ctx_err then (false, false)
  else if send_err then (false, true)
  else match e with PingAnswered => (true, true) | PingTimeout => (false, true) | PingContextDone => (false, false) end.

Record KeepAlive : Type := mkKeepAlive { lastSuccess : Time; errorCount : Z }.
(** A turn of the loop after its wait; [None] when it ends. *)
Definition keepAliveTurn (ping : bool * bool) (now : Time) (k : KeepAlive) (c : Conn) : option KeepAlive * Conn :=
  let '(isSuccess, shouldContinue) := ping in
  if negb shouldContinue then (None, c)
  else if negb isSuccess then
    let k := mkKeepAlive (lastSuccess k) (errorCount k + 1) in
    let c := do_ (Event (KeepAliveTimeout (errorCount k) (lastSuccess k))) c in
    (Some k, if EnableAutoReconnect c && (KeepAliveMaxFailTime <? Sub now (lastSuccess k))
             then start [KeepAliveReset] (DisconnectConn c) else c)
  else (Some (mkKeepAlive now 0), if 0 <? errorCount k then do_ (Event KeepAliveRestored) c else c).

(** ** Handlers of events *)

Section Handlers.
Context {E : Type}.

(** A handler says whether it succeeded, or panics. *)
Definition wrappedEventHandler : Type := (E -> outcome bool) * Z.
Definition AddEventHandlerWithSuccessStatus (fn : E -> outcome bool) (nextHandlerID : Z) (l : list wrappedEventHandler)
    : Z * list wrappedEventHandler :=
  let nextID := uint32 (nextHandlerID + 1) in (nextID, l ++ [(fn, nextID)]).
Definition AddEventHandler (fn : E -> option string) : Z -> list wrappedEventHandler -> Z * list wrappedEventHandler :=
  AddEventHandlerWithSuccessStatus (fun e => match fn e with None => Ret true | Some msg => Panic msg end).

(** The index of the handler; then the elements behind it are moved, and the
    last place is cut off. *)
Fixpoint handler_index (id : Z) (l : list wrappedEventHandler) : option nat :=
  match l with
  | [] => None
  | h :: l => if h.2 =? id then Some O else S <$> handler_index id l
  end.
Definition RemoveEventHandler (id : Z) (l : list wrappedEventHandler) : bool * list wrappedEventHandler :=
  match handler_index id l with
  | None => (false, l)
  | Some index =>
      (true,
       if (index =? 0)%nat then drop 1 l
       else
         let moved := if (index <? length l - 1)%nat then take index l ++ drop (S index) l ++ drop (length l - 1) l else l in
         take (length l - 1) moved)
  end.
Definition RemoveEventHandlers (l : list wrappedEventHandler) : list wrappedEventHandler := [].

(** The first handler that fails ends the loop; a panic ends it as well, and the
    result is still false. *)
Fixpoint dispatch_loop (evt : E) (l : list wrappedEventHandler) : bool * list Z :=
  match l with
  | [] => (false, [])
  | (fn, id) :: l =>
      match fn evt with
      | Panic _ => (false, [id])
      | Ret false => (true, [id])
      | Ret true => let '(failed, ids) := dispatch_loop evt l in (failed, id :: ids)
      end
  end.
(** Whether a handler failed, and the handlers that were called. *)
Definition dispatchEvent (evt : E) (l : list wrappedEventHandler) : bool * list Z := dispatch_loop evt l.
End Handlers.

(** ** Frames *)

Definition nodeHandlers : list string :=
  ["message"; "appdata"; "receipt"; "call"; "chatstate"; "presence"; "notification"; "success"; "failure"; "stream:error"; "iq"; "ib"].
Definition handlerQueueSize : nat := 2048.
(** The queue, and the nodes that wait in goroutines of their own for a place. *)
Record NodeQueue : Type := mkNodeQueue { handlerQueue : list node; overflow : list node }.
Definition enqueue (n : node) (q : NodeQueue) : NodeQueue :=
  if (length (handlerQueue q) <? handlerQueueSize)%nat then mkNodeQueue (handlerQueue q ++ [n]) (overflow q)
  else mkNodeQueue (handlerQueue q) (overflow q ++ [n]).

(** The queue and the waiters of requests; a decoder that panics stops the
    process. *)
Definition handleFrame (zlib : list Z -> string + list Z) (data : list Z) (q : NodeQueue) (w : Waiters) : outcome (NodeQueue * Waiters) :=
  r ← Unpack zlib data;
  match r with
  | inl _ => Ret (q, w)
  | inr decompressed =>
      match Unmarshal decompressed with
      | PPanic msg => Panic msg
      | POk n _ =>
          if String.eqb (Tag n) "xmlstreamend" then Ret (q, w)
          else
            let '(handled, w) := receiveResponse_take n w in
            if handled then Ret (q, w)
            else if bool_decide (Tag n ∈ nodeHandlers) then Ret (enqueue n q, w) else Ret (q, w)
      | PErr _ | Fuel => Ret (q, w)
      end
  end.

(** ** Sessions *)

Definition unifiedOffset : Duration := 3 * 24 * Hour.
Definition week : Duration := 7 * 24 * Hour.
(** The remainder has the sign of the time since 1970. *)
Definition getUnifiedSessionID (now : Time) (serverTimeOffset : Z) : string :=
  fmt_d (Z.rem (toUnixMilli (Add (Add now serverTimeOffset) unifiedOffset)) (week / Millisecond)).
Definition unifiedSessionNode (now : Time) (serverTimeOffset : Z) : node :=
  mkNode "ib" [] (VNodes [mkNode "unified_session" [("id", VString (getUnifiedSessionID now serverTimeOffset))] VNil]).

Inductive logout_error : Type := LogoutMessenger | LogoutNotLoggedIn | LogoutRequest (e : iq_error) | LogoutDelete (e : device_error).
Definition logoutQuery (ownID : JID) : infoQuery :=
  mkQuery "md" iqSet ServerJID EmptyJID "" ""
    (VNodes [mkNode "remove-companion-device" [("jid", VJID ownID); ("reason", VString "user_initiated")] VNil]) 0 false.
Definition Logout (messenger : bool) (sendIQ : infoQuery -> option node * option iq_error) (c : Conn) : option logout_error * Conn :=
  if messenger then (Some LogoutMessenger, c)
  else
    let ownID := GetJID (Some (Store (cl c))) in
    if IsEmpty ownID then (Some LogoutNotLoggedIn, c)
    else
      match sendIQ (logoutQuery ownID) with
      | (_, Some e) => (Some (LogoutRequest e), c)
      | (_, None) =>
          let c := DisconnectConn c in
          let '(err, device, db') := Delete (Store (cl c)) (db (cl c)) in
          (LogoutDelete <$> err, with_client (fun cl => cl <| Store := device |> <| db := db' |>) c)
      end.

(** ** The end of a session *)

Lemma delete_store_expected c : expectedDisconnect (cl (delete_store c)) = expectedDisconnect (cl c).
Proof. unfold delete_store. by destruct (Delete _ _) as [[? ?] ?]. Qed.

(** What a failure to connect leaves: whether the disconnection is expected, so
    that nothing reconnects, and whether the account is deleted. *)
Definition failure_expects (RefreshCAT : option bool) (reason : Z) : bool :=
  negb (will_reconnect reason) || (is_CAT reason && bool_decide (RefreshCAT = Some false)).

Lemma not_both reason : is_CAT reason = true -> IsLoggedOut reason = false /\ (reason =? ConnectFailureTempBanned) = false /\ (reason =? ConnectFailureClientOutdated) = false.
Proof.
  unfold is_CAT, IsLoggedOut. rewrite orb_true_iff, !Z.eqb_eq. by intros [->| ->].
Qed.

(** After a failure to connect the client reconnects by itself exactly when the
    server was unavailable or a token was refreshed; the account is deleted
    exactly when the reason says that it was logged out, and stays in place
    otherwise. *)
Theorem connect_failure_exact RefreshCAT n c c' :
  handleConnectFailure RefreshCAT n c = Ret c' ->
  let reason := (Int "reason" (AttrGetter n)).1 in
  expectedDisconnect (cl c') = expectedDisconnect (cl c) || failure_expects RefreshCAT reason /\
  (if IsLoggedOut reason
   then Store (cl c') = (Delete (Store (cl c)) (db (cl c))).1.2 /\ db (cl c') = (Delete (Store (cl c)) (db (cl c))).2
   else Store (cl c') = Store (cl c) /\ db (cl c') = db (cl c)).
Proof.
  unfold handleConnectFailure, failure_expects. destruct (Int "reason" (AttrGetter n)) as [reason ag]. destruct (OptionalString "message" ag) as [message ag'].
  cbn [fst]. intros H.
  destruct (is_CAT reason) eqn:Hcat.
  - destruct (not_both reason Hcat) as (H1 & H2 & H3). rewrite H1, H2, H3 in H. rewrite H1. unfold will_reconnect in *. rewrite Hcat, !orb_true_r in *.
    destruct RefreshCAT as [[]|]; [| |done]; injection H as <-; cbn; rewrite ?orb_false_r, ?orb_true_r; done.
  - destruct (IsLoggedOut reason) eqn:Hlo.
    + injection H as <-. rewrite delete_store_expected. split; [|unfold delete_store; destruct (will_reconnect reason); cbn;
        by destruct (Delete (Store (cl c)) (db (cl c))) as [[? ?] ?]].
      destruct (will_reconnect reason); cbn; by rewrite ?orb_false_r, ?orb_true_r.
    + destruct (reason =? ConnectFailureTempBanned); [injection H as <-; destruct (will_reconnect reason); cbn; by rewrite ?orb_false_r, ?orb_true_r|].
      destruct (reason =? ConnectFailureClientOutdated); [injection H as <-; destruct (will_reconnect reason); cbn; by rewrite ?orb_false_r, ?orb_true_r|].
      destruct (will_reconnect reason); injection H as <-; cbn; by rewrite ?orb_false_r, ?orb_true_r.
Qed.

(** The account of a client that the server logged out is gone from the database. *)
Lemma connect_failure_exact_witness :
  let n := mkNode "failure" [("reason", VString "401")] VNil in
  let c := new_conn demo_logged_in true true in
  exists c', handleConnectFailure None n c = Ret c' /\ expectedDisconnect (cl c) = false /\ expectedDisconnect (cl c') = true /\
    ID (Store (cl c')) = None.
Proof.
  cbn zeta. destruct (handleConnectFailure _ _ _) as [c'|] eqn:Hc; [|by vm_compute in Hc]. exists c'. split; [done|].
  destruct (connect_failure_exact None (mkNode "failure" [("reason", VString "401")] VNil) (new_conn demo_logged_in true true) c' Hc) as [-> [-> _]].
  by vm_compute.
Defined.

(** A failure that asks for a new token panics when the client has no function
    that gets one, which the handler of stream errors looks for. *)
Theorem cat_failure_panics n c :
  panics (handleConnectFailure None n c) <->
  (Int "reason" (AttrGetter n)).1 = ConnectFailureCATInvalid \/ (Int "reason" (AttrGetter n)).1 = ConnectFailureCATExpired.
Proof.
  unfold handleConnectFailure. destruct (Int "reason" (AttrGetter n)) as [reason ag]. destruct (OptionalString "message" ag) as [message ag'].
  cbn [fst]. rewrite <- !Z.eqb_eq, <- orb_true_iff. change ((reason =? _) || (reason =? _)) with (is_CAT reason). split.
  - intros [msg H]. destruct (IsLoggedOut reason); [done|]. destruct (reason =? ConnectFailureTempBanned); [done|].
    destruct (reason =? ConnectFailureClientOutdated); [done|]. destruct (is_CAT reason); [done|]. by destruct (will_reconnect reason).
  - intros Hcat. destruct (not_both reason Hcat) as (-> & -> & ->). rewrite Hcat. by eexists.
Qed.

(** ** Handlers of events *)

Section HandlerLists.
Context {E : Type}.
Notation wrappedEventHandler := (@wrappedEventHandler E).

Lemma handler_index_split id (l : list wrappedEventHandler) k :
  handler_index id l = Some k -> exists l1 h l2, l = l1 ++ h :: l2 /\ length l1 = k /\ h.2 = id /\ id ∉ l1.*2.
Proof.
  revert k. induction l as [|h l IH]; intros k; cbn; [done|]. destruct (Z.eqb_spec (h.2) id) as [Hh|Hh].
  - intros [= <-]. exists [], h, l. repeat split; [done|apply not_elem_of_nil].
  - destruct (handler_index id l) as [k'|]; cbn; [|done]. intros [= <-]. destruct (IH k' eq_refl) as (l1 & h' & l2 & -> & <- & Hi & Hn).
    exists (h :: l1), h', l2. repeat split; [done|]. cbn. by apply not_elem_of_cons.
Qed.
Lemma handler_index_none id (l : list wrappedEventHandler) : handler_index id l = None -> id ∉ l.*2.
Proof.
  induction l as [|h l IH]; cbn; [by intros _ ?%elem_of_nil|]. destruct (Z.eqb_spec (h.2) id) as [|Hh]; [done|].
  destruct (handler_index id l); [done|]. intros _. apply not_elem_of_cons. split; [congruence|by apply IH].
Qed.

(** Removing a handler takes away exactly the one that has the number, and keeps
    the others in their order. *)
Theorem remove_handler_exact id (l : list wrappedEventHandler) :
  NoDup l.*2 -> RemoveEventHandler id l = (bool_decide (id ∈ l.*2), filter (fun h => h.2 <> id) l).
Proof.
  intros Hn. unfold RemoveEventHandler. destruct (handler_index id l) as [k|] eqn:Hk.
  - apply handler_index_split in Hk as (l1 & h & l2 & -> & <- & Hh & Hni). rewrite fmap_app, fmap_cons in Hn |- *.
    apply NoDup_app in Hn as (_ & _ & [Hn _]%NoDup_cons).
    rewrite bool_decide_true by (rewrite elem_of_app; right; rewrite Hh; by left). f_equal.
    assert (forall l', id ∉ l'.*2 -> filter (fun h : wrappedEventHandler => h.2 <> id) l' = l') as Hf.
    { intros l'. induction l' as [|h' l' IH]; [done|]. rewrite fmap_cons. intros [Hne Hin]%not_elem_of_cons. rewrite filter_cons_True by congruence. f_equal. by apply IH. }
    rewrite filter_app, filter_cons_False, !Hf by (try done; rewrite <- Hh; done || (intros Hx; by apply Hx)).
    rewrite length_app. cbn [length]. replace (length l1 + S (length l2) - 1)%nat with (length l1 + length l2)%nat by lia.
    destruct (Nat.eqb_spec (length l1) 0) as [Hz|Hz]; [by apply length_zero_iff_nil in Hz as ->|].
    destruct (Nat.ltb_spec (length l1) (length l1 + length l2)) as [Hlt|Hge].
    + rewrite take_app_length, (app_assoc l1). rewrite (cons_middle h l1 l2), (app_assoc l1).
      rewrite drop_app_length' by (rewrite length_app; cbn; lia). rewrite take_app_length'; [done|]. rewrite length_app. lia.
    + assert (l2 = []) as -> by (apply length_zero_iff_nil; lia). rewrite take_app_length'; [by rewrite app_nil_r|cbn; lia].
  - apply handler_index_none in Hk. rewrite bool_decide_false by done. f_equal. clear Hn. induction l as [|h l IH]; [done|].
    rewrite fmap_cons in Hk. apply not_elem_of_cons in Hk as [Hne Hin]. rewrite filter_cons_True by congruence. f_equal. by apply IH.
Qed.

(** Dispatching calls the handlers in their order up to the first that does not
    succeed; it reports a failure for one that says so, and none for a panic. *)
Theorem dispatch_exact evt (l : list wrappedEventHandler) :
  (exists good bad rest, l = good ++ bad :: rest /\ Forall (fun h => h.1 evt = Ret true) good /\ bad.1 evt <> Ret true /\
     dispatchEvent evt l = (match bad.1 evt with Ret false => true | _ => false end, (good ++ [bad]).*2)) \/
  Forall (fun h => h.1 evt = Ret true) l /\ dispatchEvent evt l = (false, l.*2).
Proof.
  induction l as [|[fn id] l IH]; [by right|]. unfold dispatchEvent in *. cbn [dispatch_loop].
  destruct (fn evt) as [[]|msg] eqn:Hf.
  - destruct IH as [(good & bad & rest & -> & Hg & Hb & ->)|[Hg ->]].
    + left. exists ((fn, id) :: good), bad, rest. split; [done|]. split; [by constructor|]. by split.
    + right. split; [by constructor|done].
  - left. exists [], (fn, id), l. split; [done|]. split; [done|]. cbn. by rewrite Hf.
  - left. exists [], (fn, id), l. split; [done|]. split; [done|]. cbn. by rewrite Hf.
Qed.
End HandlerLists.

(** ** The beginning of one *)

Lemma store_mapping_store first second c : Store (StoreLIDPNMapping first second c) = Store c.
Proof. unfold StoreLIDPNMapping. by repeat case_match. Qed.
Lemma after_login_frame a b c : cl (after_login a b c) = cl c /\ isLoggedIn (after_login a b c) = isLoggedIn c /\ AutoReconnectErrors (after_login a b c) = AutoReconnectErrors c.
Proof. unfold after_login. by destruct a, b; [destruct (_ || _)|..]. Qed.

(** After a login the account has the LID that the server named, whatever it had
    before; the count of failed attempts starts again. *)
Theorem login_updates_lid d n now dbCount serverCount c c' :
  handleConnectSuccess d n now dbCount serverCount c = Ret c' ->
  let nodeLID := (getJID "lid" (AttrGetter n)).1 in
  LID (Store (cl c')) = (if IsEmpty nodeLID then LID (Store (cl c)) else nodeLID) /\ isLoggedIn c' = true /\ AutoReconnectErrors c' = 0.
Proof.
  unfold handleConnectSuccess. destruct (getJID "lid" (AttrGetter n)) as [nodeLID ag]. cbn [fst]. intros H.
  match type of H with context [with_client (fun cl => cl <| serverTimeOffset := _ |>) ?x] => set (c1 := with_client (fun cl => cl <| serverTimeOffset := Sub (UnixTime "t" ag).1 (RoundSecond now) |>) x) in * end.
  assert (LID (Store (cl c1)) = LID (Store (cl c)) /\ isLoggedIn c1 = true /\ AutoReconnectErrors c1 = 0) as (HL & Hi & He) by done. clearbody c1.
  rewrite HL in H. set (stored := if negb (IsEmpty (LID (Store (cl c)))) && negb (IsEmpty nodeLID) && _ then EmptyJID else LID (Store (cl c))) in *.
  assert (forall c2, LID (Store (cl c2)) = (if IsEmpty nodeLID then LID (Store (cl c)) else nodeLID) -> isLoggedIn c2 = true -> AutoReconnectErrors c2 = 0 ->
    Ret (after_login dbCount serverCount (do_ DeleteExpiredTokens c2)) = Ret c' ->
    LID (Store (cl c')) = (if IsEmpty nodeLID then LID (Store (cl c)) else nodeLID) /\ isLoggedIn c' = true /\ AutoReconnectErrors c' = 0) as Hend.
  { intros c2 H1 H2 H3 [= <-]. destruct (after_login_frame dbCount serverCount (do_ DeleteExpiredTokens c2)) as (-> & -> & ->). done. }
  destruct (IsEmpty stored && negb (IsEmpty nodeLID)) eqn:Hb.
  - apply andb_true_iff in Hb as [_ Hb]. apply negb_true_iff in Hb.
    match type of H with context [Save d ?dev ?x] => destruct (Save d dev x) as [[[err device] db']|] eqn:Hs end; [|done].
    cbn in H. refine (Hend _ _ _ _ H); [|exact Hi|exact He]. cbn. rewrite store_mapping_store. rewrite Hb.
    apply save_result in Hs as [->|(id & _ & ->)]; done.
  - cbn in H. refine (Hend _ _ _ _ H); [|exact Hi|exact He]. cbn. unfold stored in *. destruct (IsEmpty nodeLID) eqn:Hn.
    + by rewrite andb_false_r.
    + rewrite andb_true_r in Hb. rewrite andb_true_r in Hb |- *. destruct (IsEmpty (LID (Store (cl c)))) eqn:Hl; cbn in Hb |- *; [congruence|].
      destruct (bool_decide_reflect (LID (Store (cl c)) = nodeLID)) as [Heq|Hne]; cbn in Hb |- *; [done|]. by rewrite andb_false_r in Hb || discriminate Hb.
Qed.

(** The number of a unified session is one of the milliseconds of a week. *)
Theorem unified_session_bounds now offset :
  Unix 0 <= Add (Add now offset) unifiedOffset ->
  exists k, getUnifiedSessionID now offset = fmt_d k /\ 0 <= k < 604800000.
Proof.
  intros H. eexists. split; [done|]. assert (0 <= toUnixMilli (Add (Add now offset) unifiedOffset)) as Hp.
  { unfold toUnixMilli. set (t := Add _ _) in *. assert (unixToInternal * 1000 * Millisecond <= t) as Ht by (by vm_compute (Unix 0) in H; vm_compute (unixToInternal * 1000 * Millisecond)).
    pose proof (Z.div_le_lower_bound t Millisecond (unixToInternal * 1000)). unfold Millisecond in *. lia. }
  change (week / Millisecond) with 604800000. rewrite Z.rem_mod_nonneg by lia. apply Z.mod_pos_bound. lia.
Qed.
