(* ===== verification/UserDevices.v ===== *)
(** * [whatsmeow/user.go], [notification.go]: the devices of users

    The client keeps the devices of the users that it writes to, asks the server
    for those of the others, and follows the notifications of changes.  The lists
    are slices of Go: an entry of the cache and a variable may share an array,
    and the notifications change lists in place.  The hash and the growth of
    arrays are parameters. *)
From stdpp Require Import sorting.
From S2P Require Import Prelude GoStrings GoTime Jid BinaryNode FrameSocket Noise NodeAttrs Requests PreKeys LidMap SqlDB DeviceStore Pairing.

(** ** Slices

    A slice starts at the beginning of its array; the nil slice has none. *)
Record Slice : Type := mkSlice { sl_array : option nat; sl_len : nat }.
Definition nil_slice : Slice := mkSlice None 0.
Notation Arrays := (list (list JID)).
Definition cells (h : Arrays) (s : Slice) : list JID := match sl_array s with Some a => default [] (h !! a) | None => [] end.
Definition elems (h : Arrays) (s : Slice) : list JID := take (sl_len s) (cells h s).

Section Slices.
(** The capacity of the array that [append] makes for a number of elements. *)
Context (grow : nat -> nat).

Definition append (x : JID) (s : Slice) (h : Arrays) : Slice * Arrays :=
  let n := sl_len s in
  match sl_array s with
  | Some a =>
      if (n <? length (cells h s))%nat then (mkSlice (Some a) (S n), <[a := <[n := x]> (cells h s)]> h)
      else (mkSlice (Some (length h)) (S n), h ++ [elems h s ++ x :: repeat EmptyJID (grow (S n) - S n)])
  | None => (mkSlice (Some (length h)) (S n), h ++ [elems h s ++ x :: repeat EmptyJID (grow (S n) - S n)])
  end.
(** [make] with a capacity; [append] finds room. *)
Definition make (capacity : nat) (h : Arrays) : Slice * Arrays := (mkSlice (Some (length h)) 0, h ++ [repeat EmptyJID capacity]).
Definition append_all (l : list JID) (s : Slice) (h : Arrays) : Slice * Arrays :=
  foldl (fun sh x => append x sh.1 sh.2) (s, h) l.
(** [slices.DeleteFunc]: what stays is moved to the front, the rest of the slice
    is cleared. *)
Definition DeleteFunc (del : JID -> bool) (s : Slice) (h : Arrays) : Slice * Arrays :=
  match sl_array s with
  | None => (s, h)
  | Some a =>
      let kept := filter (fun x => del x = false) (elems h s) in
      (mkSlice (Some a) (length kept),
       <[a := kept ++ repeat EmptyJID (length (elems h s) - length kept) ++ drop (sl_len s) (cells h s)]> h)
  end.
End Slices.

(** ** The cache *)

Record deviceCache : Type := mkDeviceCache { devices : Slice; dhash : string }.
Definition no_devices : deviceCache := mkDeviceCache nil_slice "".
Record UserDevices : Type := mkUserDevices { arrays : Arrays; userDevicesCache : gmap JID deviceCache }.
#[export] Instance eta_UserDevices : Eta UserDevices := fun r => mkUserDevices (arrays r) (userDevicesCache r).

Definition RawStdEncoding : Bytes -> string := encode_bits "ABCDEFGHIJKLMNOPQRSTUVWXYZabcdefghijklmnopqrstuvwxyz0123456789+/" 6 1.
(** [sort.Strings] *)
Definition string_le (a b : string) : Prop := String.leb a b = true.
#[export] Instance string_le_dec a b : Decision (string_le a b).
Proof. unfold string_le. apply _. Defined.
Definition sort_strings (l : list string) : list string := merge_sort string_le l.

(** ** Queries *)

Record BotListInfo : Type := mkBot { BotJID : JID; PersonaID : string }.
Inductive user_error : Type :=
| UserIQ (e : iq_error)
| UnknownUserServer (server : string)
| UserElementMissing (tag in_ : string).

(** The node of a user; the last bot of that name counts. *)
Definition usyncUser (bots : list BotListInfo) (jid : JID) : user_error + node :=
  let jid := ToNonAD jid in
  if String.eqb (Server jid) LegacyUserServer then inr (mkNode "user" [] (VNodes [mkNode "contact" [] (VString (String_ jid))]))
  else if String.eqb (Server jid) DefaultUserServer || String.eqb (Server jid) HiddenUserServer then
    inr (mkNode "user" [("jid", VJID jid)]
      (if IsBot jid then
         let personaID := foldl (fun p bot => if String.eqb (User (BotJID bot)) (User jid) then PersonaID bot else p) "" bots in
         VNodes [mkNode "bot" [] (VNodes [mkNode "profile" [("persona_id", VString personaID)] VNil])]
       else VNil))
  else inl (UnknownUserServer (Server jid)).
Fixpoint usyncUsers (bots : list BotListInfo) (jids : list JID) : user_error + list node :=
  match jids with
  | [] => inr []
  | jid :: jids =>
      match usyncUser bots jid with
      | inl e => inl e
      | inr n => match usyncUsers bots jids with inl e => inl e | inr l => inr (n :: l) end
      end
  end.
Definition usyncQuery (sid mode context : string) (query users : list node) : infoQuery :=
  mkQuery "usync" iqGet ServerJID EmptyJID "" ""
    (VNodes [mkNode "usync" [("sid", VString sid); ("mode", VString mode); ("last", VString "true"); ("index", VString "0"); ("context", VString context)]
       (VNodes [mkNode "query" [] (VNodes query); mkNode "list" [] (VNodes users)])]) 0 false.

Definition fbUsersQuery (jids : list JID) : infoQuery :=
  mkQuery "fbid:devices" iqGet ServerJID EmptyJID "" ""
    (VNodes [mkNode "users" [] (VNodes (map (fun jid => mkNode "user" [("jid", VJID jid)] VNil) jids))]) 0 false.

(** Where the devices of a user come from. *)
Inductive source : Type := FromCache (l : list JID) | AskFB | BotItself | AskServer.
#[export] Instance source_eq_dec : EqDecision source.
Proof. solve_decision. Defined.

Section Devices.
Context (grow : nat -> nat) (sha256 : Bytes -> Bytes).

Definition participantListHashV2 (participants : list JID) : string :=
  "2:" +:+ RawStdEncoding (take 6 (sha256 (codes (join (sort_strings (map ADString participants)) "")))).

(** A hosted device is one of the hosted server; [user] keeps the last device
    number, which the next one overwrites. *)
Definition parseDevice_node (user : JID) (device : node) : option JID :=
  let '(deviceID, ok, _) := GetInt64 "id" true (AttrGetter device) in
  let isHosted := (getBool "is_hosted" (AttrGetter device)).1 in
  if negb (String.eqb (Tag device) "device") || negb ok then None
  else
    let user := user <| Jid.Device := uint16 deviceID |> in
    Some (if isHosted then user <| Server := if String.eqb (Server user) HiddenUserServer then HostedLIDServer else HostedServer |> else user).
Definition parseDeviceList (user : JID) (deviceNode : node) (h : Arrays) : Slice * Arrays :=
  let deviceList := GetChildByTag deviceNode ["device-list"] in
  if negb (String.eqb (Tag deviceNode) "devices") || negb (String.eqb (Tag deviceList) "device-list") then (nil_slice, h)
  else
    let '(s, h) := make (length (GetChildren deviceList)) h in
    append_all grow (omap (parseDevice_node user) (GetChildren deviceList)) s h.
Definition parseFBDevice (user : JID) (device : node) : option JID :=
  let '(deviceID, ok, _) := GetInt64 "id" true (AttrGetter device) in
  if negb (String.eqb (Tag device) "device") || negb ok then None else Some (user <| Jid.Device := uint16 deviceID |>).
Definition parseFBDeviceList (user : JID) (deviceList : node) (h : Arrays) : deviceCache * Arrays :=
  let '(s, h) := make (length (GetChildren deviceList)) h in
  let '(s, h) := append_all grow (omap (parseFBDevice user) (GetChildren deviceList)) s h in
  (mkDeviceCache s (getString "dhash" (AttrGetter deviceList)).1, h).

Definition put_devices (k : JID) (e : deviceCache) (ud : UserDevices) : UserDevices :=
  ud <| userDevicesCache := <[k := e]> (userDevicesCache ud) |>.
Definition drop_devices (k : JID) (ud : UserDevices) : UserDevices := ud <| userDevicesCache := delete k (userDevicesCache ud) |>.

(** ** [GetUserDevices] *)

Context (sendIQ : infoQuery -> option node * option iq_error).

(** A response without an error is a node. *)
Definition usync (sid mode context : string) (jids : list JID) (bots : list BotListInfo) (query : list node) : user_error + node :=
  match usyncUsers bots jids with
  | inl e => inl e
  | inr users =>
      match sendIQ (usyncQuery sid mode context query users) with
      | (_, Some e) => inl (UserIQ e)
      | (resp, None) =>
          match GetOptionalChildByTag (default (mkNode "" [] VNil) resp) ["usync"; "list"] with
          | (list, true) => inr list
          | (_, false) => inl (UserElementMissing "list" "response to usync query")
          end
      end
  end.

Definition user_jid (user : node) : option JID :=
  match attr (Attrs user) "jid" with
  | Some (VJID jid) => if String.eqb (Tag user) "user" then Some jid else None
  | _ => None
  end.
Definition syncUser (acc : list JID * UserDevices) (user : node) : list JID * UserDevices :=
  match user_jid user with
  | None => acc
  | Some jid =>
      let '(s, h) := parseDeviceList jid (GetChildByTag user ["devices"]) (arrays acc.2) in
      (acc.1 ++ elems h s, put_devices jid (mkDeviceCache s (participantListHashV2 (elems h s))) (acc.2 <| arrays := h |>))
  end.
Definition syncFBUser (acc : list JID * UserDevices) (user : node) : list JID * UserDevices :=
  match user_jid user with
  | None => acc
  | Some jid =>
      let '(e, h) := parseFBDeviceList jid (GetChildByTag user ["devices"]) (arrays acc.2) in
      (acc.1 ++ elems h (devices e), put_devices jid e (acc.2 <| arrays := h |>))
  end.

Definition getFBIDDevicesInternal (jids : list JID) : user_error + node :=
  match sendIQ (fbUsersQuery jids) with
  | (_, Some e) => inl (UserIQ e)
  | (resp, None) =>
      match GetOptionalChildByTag (default (mkNode "" [] VNil) resp) ["users"] with
      | (list, true) => inr list
      | (_, false) => inl (UserElementMissing "users" "response to fbid devices query")
      end
  end.
(** [slices.Chunk]; [fuel] is the number of elements. *)
Fixpoint chunks {A} (fuel n : nat) (l : list A) : list (list A) :=
  match fuel, l with
  | S fuel, _ :: _ => take n l :: chunks fuel n (drop n l)
  | _, _ => []
  end.
Fixpoint getFBIDDevices (chunks : list (list JID)) (acc : list JID) (ud : UserDevices) : (user_error + list JID) * UserDevices :=
  match chunks with
  | [] => (inr acc, ud)
  | chunk :: chunks =>
      match getFBIDDevicesInternal chunk with
      | inl e => (inl e, ud)
      | inr list => let '(acc, ud) := foldl syncFBUser (acc, ud) (GetChildren list) in getFBIDDevices chunks acc ud
      end
  end.

Definition device_source (ud : UserDevices) (jid : JID) : source :=
  match userDevicesCache ud !! jid with
  | Some cached => if (0 <? sl_len (devices cached))%nat then FromCache (elems (arrays ud) (devices cached))
                   else if String.eqb (Server jid) MessengerServer then AskFB else if IsBot jid then BotItself else AskServer
  | None => if String.eqb (Server jid) MessengerServer then AskFB else if IsBot jid then BotItself else AskServer
  end.
Definition known_devices (ud : UserDevices) (jids : list JID) : list JID :=
  concat (map (fun jid => match device_source ud jid with FromCache l => l | BotItself => [jid] | _ => [] end) jids).
Definition to_sync (ud : UserDevices) (jids : list JID) : list JID :=
  filter (fun jid => device_source ud jid = AskServer) jids.
Definition to_sync_fb (ud : UserDevices) (jids : list JID) : list JID :=
  filter (fun jid => device_source ud jid = AskFB) jids.

Definition GetUserDevices (sid : string) (jids : list JID) (ud : UserDevices) : (user_error + list JID) * UserDevices :=
  let jidsToSync := to_sync ud jids in
  let fbJIDsToSync := to_sync_fb ud jids in
  let known := known_devices ud jids in
  let fb (acc : list JID) (ud : UserDevices) := getFBIDDevices (chunks (length fbJIDsToSync) 15 fbJIDsToSync) acc ud in
  match jidsToSync with
  | [] => fb known ud
  | _ =>
      match usync sid "query" "message" jidsToSync [] [mkNode "devices" [("version", VString "2")] VNil] with
      | inl e => (inl e, ud)
      | inr list => let '(acc, ud) := foldl syncUser (known, ud) (GetChildren list) in fb acc ud
      end
  end.

(** ** Notifications *)

Record changing : Type := mkChanging { ch_ud : UserDevices; cached : deviceCache; cachedLID : deviceCache }.
#[export] Instance eta_changing : Eta changing := fun r => mkChanging (ch_ud r) (cached r) (cachedLID r).

(** A list of a variable is changed: its slice and the arrays. *)
Definition change (f : Slice -> Arrays -> Slice * Arrays) (e : deviceCache) (ud : UserDevices) : deviceCache * UserDevices :=
  let '(s, h) := f (devices e) (arrays ud) in (mkDeviceCache s (dhash e), ud <| arrays := h |>).
Definition confirm (k : JID) (e : deviceCache) (hash : string) (ud : UserDevices) : UserDevices :=
  if String.eqb (participantListHashV2 (elems (arrays ud) (devices e))) hash then put_devices k e ud else drop_devices k ud.

(** The case of an addition or a removal, which [f] is. *)
Definition device_changed (from : JID) (fromLID : option JID) (deviceHash deviceLIDHash : string) (changedDeviceJID : JID)
    (changedDeviceLID : option JID) (f : JID -> Slice -> Arrays -> Slice * Arrays) (st : changing) : changing :=
  let '(e, ud) := change (f changedDeviceJID) (cached st) (ch_ud st) in
  let '(eLID, ud) := match changedDeviceLID with Some lid => change (f lid) (cachedLID st) ud | None => (cachedLID st, ud) end in
  let ud := confirm from e deviceHash ud in
  let ud := match fromLID, changedDeviceLID with
            | Some k, Some _ => if String.eqb deviceLIDHash "" then ud else confirm k eLID deviceLIDHash ud
            | _, _ => ud
            end in
  mkChanging ud e eLID.
Definition deviceChange (from : JID) (fromLID : option JID) (st : changing) (child : node) : changing :=
  let cag := AttrGetter child in
  let '(deviceHash, cag) := getString "device_hash" cag in
  let '(deviceLIDHash, cag) := OptionalString "device_lid_hash" cag in
  let deviceChild := (GetOptionalChildByTag child ["device"]).1 in
  let changedDeviceJID := (getJID "jid" (AttrGetter deviceChild)).1 in
  let changedDeviceLID := (OptionalJID "lid" (AttrGetter deviceChild)).1 in
  let changed := device_changed from fromLID deviceHash deviceLIDHash changedDeviceJID changedDeviceLID in
  if String.eqb (Tag child) "add" then changed (append grow) st
  else if String.eqb (Tag child) "remove" then changed (fun jid => DeleteFunc (fun existing => bool_decide (existing = jid))) st
  else if String.eqb (Tag child) "update" then st <| ch_ud := drop_devices from (ch_ud st) |>
  else st.

Definition handleDeviceNotification (n : node) (c : Client) (ud : UserDevices) : Client * UserDevices :=
  let '(from, ag) := getJID "from" (AttrGetter n) in
  let '(fromLID, _) := OptionalJID "lid" ag in
  let c := match fromLID with Some lid => StoreLIDPNMapping lid from c | None => c end in
  match userDevicesCache ud !! from with
  | None => (c, ud)
  | Some cached =>
      let cachedLID := match fromLID with Some lid => default no_devices (userDevicesCache ud !! lid) | None => no_devices end in
      (c, ch_ud (foldl (deviceChange from fromLID) (mkChanging ud cached cachedLID) (GetChildren n)))
  end.

Definition handleFBDeviceNotification (n : node) (ud : UserDevices) : UserDevices :=
  let '(jid, _) := getJID "from" (AttrGetter n) in
  let '(e, h) := parseFBDeviceList jid (GetChildByTag n ["devices"]) (arrays ud) in
  put_devices jid e (ud <| arrays := h |>).

Definition ownDevice (altJID : JID) (child : node) : option (JID * JID) :=
  let jid := (getJID "jid" (AttrGetter child)).1 in
  if String.eqb (Tag child) "device" && negb (IsEmpty jid) then Some (jid, altJID <| Jid.Device := Jid.Device jid |>) else None.
Definition handleOwnDevicesNotification (n : node) (fromJID ownJID lid : JID) (ud : UserDevices) : UserDevices :=
  let ownLID := ToNonAD lid in
  let ownID := ToNonAD ownJID in
  if IsEmpty ownID then ud
  else
    let fromJIDPlain := ToNonAD fromJID in
    match (if bool_decide (fromJIDPlain = ownID) then Some ownLID else if bool_decide (fromJIDPlain = ownLID) then Some ownID else None) with
    | None => ud
    | Some altJID =>
        let expectedNewHash := (getString "dhash" (AttrGetter n)).1 in
        let pairs := omap (ownDevice altJID) (GetChildren n) in
        let '(newDeviceList, h) := append_all grow pairs.*1 nil_slice (arrays ud) in
        let '(altDeviceList, h) := append_all grow pairs.*2 nil_slice h in
        let ud := ud <| arrays := h |> in
        let newHash := participantListHashV2 pairs.*1 in
        if negb (String.eqb newHash expectedNewHash) then drop_devices ownLID (drop_devices ownID ud)
        else put_devices altJID (mkDeviceCache altDeviceList (participantListHashV2 pairs.*2))
               (put_devices fromJIDPlain (mkDeviceCache newDeviceList expectedNewHash) ud)
    end.
End Devices.

(** ** The hash of a list *)

Lemma string_le_total a b : string_le a b \/ string_le b a.
Proof. apply String.leb_total. Qed.
Lemma string_le_antisym a b : string_le a b -> string_le b a -> a = b.
Proof. apply String.leb_antisym. Qed.
Lemma string_le_cons a s b t :
  string_le (String a s) (String b t) <-> (N_of_ascii a < N_of_ascii b)%N \/ a = b /\ string_le s t.
Proof.
  unfold string_le, String.leb. cbn. unfold Ascii.compare. destruct (N.compare_spec (N_of_ascii a) (N_of_ascii b)) as [He|Hl|Hg].
  - assert (a = b) as -> by (rewrite <- (ascii_N_embedding a), <- (ascii_N_embedding b); by f_equal). split; [by right|by intros [?|[_ ?]]; [lia|]].
  - by split; [left|].
  - split; [done|]. intros [?|[-> _]]; lia.
Qed.
Lemma string_le_trans : Transitive string_le.
Proof.
  intros s. induction s as [|a s IH]; intros t u; [by destruct u|]. destruct t as [|b t]; [done|]. destruct u as [|c u]; [done|].
  rewrite !string_le_cons. intros [?|[-> ?]] [?|[-> ?]]; [left; lia|by left|by left|right]. split; [done|]. by eapply IH.
Qed.
Lemma sort_strings_perm l l' : l ≡ₚ l' -> sort_strings l = sort_strings l'.
Proof.
  intros Hp. apply (StronglySorted_unique_strong string_le).
  - intros ? ? _ _. apply string_le_antisym.
  - apply StronglySorted_merge_sort; [apply string_le_trans|intros ? ?; apply string_le_total].
  - apply StronglySorted_merge_sort; [apply string_le_trans|intros ? ?; apply string_le_total].
  - unfold sort_strings. by rewrite !merge_sort_Permutation.
Qed.

(** The hash of a list of devices does not depend on the order of the list. *)
Theorem device_hash_unordered sha256 l l' : l ≡ₚ l' -> participantListHashV2 sha256 l = participantListHashV2 sha256 l'.
Proof. intros Hp. unfold participantListHashV2. by rewrite (sort_strings_perm (map ADString l) (map ADString l')); [|apply Permutation_map]. Qed.

(** ** Arrays that are changed *)

Definition wf_slice (h : Arrays) (s : Slice) : Prop :=
  match sl_array s with Some a => exists cs, h !! a = Some cs /\ (sl_len s <= length cs)%nat | None => sl_len s = 0%nat end.

(** An operation takes the slice [s] to [s'], with these elements; it writes to the
    array of [s] and to new ones. *)
Record edits (h h' : Arrays) (s s' : Slice) (l : list JID) : Prop := mkEdits {
  ed_wf : wf_slice h' s';
  ed_elems : elems h' s' = l;
  ed_len : (length h <= length h')%nat;
  ed_cap : forall a cs, h !! a = Some cs -> exists cs', h' !! a = Some cs' /\ (length cs <= length cs')%nat;
  ed_frame : forall a, (a < length h)%nat -> sl_array s <> Some a -> h' !! a = h !! a;
  ed_owner : sl_array s' = sl_array s \/ exists a, sl_array s' = Some a /\ (length h <= a)%nat }.

Lemma edits_wf h h' s s' l t : edits h h' s s' l -> wf_slice h t -> wf_slice h' t.
Proof.
  intros He. unfold wf_slice. destruct (sl_array t) as [a|]; [|done]. intros (cs & Hcs & Hl).
  destruct (ed_cap _ _ _ _ _ He a cs Hcs) as (cs' & Hcs' & Hl'). exists cs'. split; [done|lia].
Qed.
Lemma edits_other h h' s s' l t :
  edits h h' s s' l -> wf_slice h t -> (forall a, sl_array t = Some a -> sl_array s <> Some a) -> wf_slice h' t /\ elems h' t = elems h t.
Proof.
  intros He Ht Hn. unfold wf_slice, elems, cells in *. destruct (sl_array t) as [a|] eqn:Ha; [|done].
  destruct Ht as (cs & Hcs & Hl). rewrite (ed_frame _ _ _ _ _ He a (lookup_lt_Some _ _ _ Hcs) (Hn a eq_refl)), Hcs. split; [by exists cs|done].
Qed.

Lemma elems_length h s : wf_slice h s -> length (elems h s) = sl_len s.
Proof.
  unfold wf_slice, elems, cells. destruct (sl_array s) as [a|]; [intros (cs & -> & Hl)|intros ->; by rewrite take_0].
  cbn. rewrite length_take. lia.
Qed.

(** A new array at the end. *)
Lemma edits_alloc h s cs n l :
  (n <= length cs)%nat -> take n cs = l -> edits h (h ++ [cs]) s (mkSlice (Some (length h)) n) l.
Proof.
  intros Hn Hl. split.
  - cbn. exists cs. split; [|done]. by apply list_lookup_middle.
  - unfold elems, cells. cbn. by rewrite list_lookup_middle.
  - rewrite length_app. lia.
  - intros a cs' Ha. exists cs'. split; [by apply lookup_app_l_Some|done].
  - intros a Ha _. by apply lookup_app_l.
  - right. eexists. split; [done|]. lia.
Qed.
Lemma edits_write h s cs cs' a n l :
  sl_array s = Some a -> h !! a = Some cs -> (n <= length cs')%nat -> (length cs <= length cs')%nat -> take n cs' = l -> edits h (<[a := cs']> h) s (mkSlice (Some a) n) l.
Proof.
  intros Ha Hcs Hn Hc Hl. pose proof (lookup_lt_Some _ _ _ Hcs). split.
  - cbn. exists cs'. split; [|done]. by apply list_lookup_insert_eq.
  - unfold elems, cells. cbn. by rewrite list_lookup_insert_eq.
  - by rewrite length_insert.
  - intros b cs0 Hb. destruct (decide (a = b)) as [<-|Hne].
    + exists cs'. split; [by apply list_lookup_insert_eq|]. by simplify_eq.
    + exists cs0. split; [by rewrite list_lookup_insert_ne|done].
  - intros b _ Hb. apply list_lookup_insert_ne. congruence.
  - by left.
Qed.

Lemma edits_append grow x s h : wf_slice h s -> edits h (append grow x s h).2 s (append grow x s h).1 (elems h s ++ [x]).
Proof.
  intros Hs. pose proof (elems_length h s Hs) as Hlen. unfold append.
  assert (edits h (h ++ [elems h s ++ x :: repeat EmptyJID (grow (S (sl_len s)) - S (sl_len s))]) s
    (mkSlice (Some (length h)) (S (sl_len s))) (elems h s ++ [x])) as Hnew.
  { apply edits_alloc; [rewrite length_app; cbn; lia|]. rewrite (cons_middle x (elems h s)), app_assoc. apply take_app_length'. rewrite length_app. cbn. lia. }
  destruct (sl_array s) as [a|] eqn:Ha; [|done]. destruct (Nat.ltb_spec (sl_len s) (length (cells h s))) as [Hlt|]; [|done].
  unfold wf_slice in Hs. rewrite Ha in Hs. destruct Hs as (cs & Hcs & Hle). assert (cells h s = cs) as Hc by (unfold cells; by rewrite Ha, Hcs).
  rewrite Hc in Hlt |- *. eapply edits_write; [done|done|rewrite length_insert; lia|by rewrite length_insert|].
  unfold elems. rewrite Hc. rewrite (take_S_r _ _ x); [|by apply list_lookup_insert_eq]. f_equal. by apply take_insert_ge.
Qed.
Lemma edits_delete del s h :
  wf_slice h s -> edits h (DeleteFunc del s h).2 s (DeleteFunc del s h).1 (filter (fun x => del x = false) (elems h s)).
Proof.
  intros Hs. pose proof (elems_length h s Hs) as Hlen. unfold DeleteFunc. destruct (sl_array s) as [a|] eqn:Ha.
  - unfold wf_slice in Hs. rewrite Ha in Hs. destruct Hs as (cs & Hcs & Hle).
    assert (cells h s = cs) as Hc by (unfold cells; by rewrite Ha, Hcs). pose proof (length_filter (fun x => del x = false) (elems h s)).
    eapply edits_write; [done|done|rewrite length_app; lia| |by apply take_app_length].
    rewrite !length_app, repeat_length, length_drop, Hc. lia.
  - cbn. unfold wf_slice in Hs. rewrite Ha in Hs. assert (elems h s = []) as Hn by (unfold elems; by rewrite Hs, take_0).
    split; [by unfold wf_slice; rewrite Ha|by rewrite Hn|done|by eauto|done|by left].
Qed.
Lemma edits_refl h s : wf_slice h s -> edits h h s s (elems h s).
Proof. intros. split; [done|done|done|by eauto|done|by left]. Qed.
Lemma edits_trans h1 h2 h3 s1 s2 s3 l2 l3 : edits h1 h2 s1 s2 l2 -> edits h2 h3 s2 s3 l3 -> edits h1 h3 s1 s3 l3.
Proof.
  intros H1 H2. split.
  - apply (ed_wf _ _ _ _ _ H2).
  - apply (ed_elems _ _ _ _ _ H2).
  - pose proof (ed_len _ _ _ _ _ H1). pose proof (ed_len _ _ _ _ _ H2). lia.
  - intros a cs Ha. destruct (ed_cap _ _ _ _ _ H1 a cs Ha) as (cs1 & Ha1 & Hl1). destruct (ed_cap _ _ _ _ _ H2 a cs1 Ha1) as (cs2 & Ha2 & Hl2).
    exists cs2. split; [done|lia].
  - intros a Ha Hn. pose proof (ed_len _ _ _ _ _ H1). rewrite (ed_frame _ _ _ _ _ H2); [by apply (ed_frame _ _ _ _ _ H1)|lia|].
    destruct (ed_owner _ _ _ _ _ H1) as [->|(b & -> & Hb)]; [done|]. intros [= ->]. lia.
  - destruct (ed_owner _ _ _ _ _ H2) as [->|(b & Hb & Hle)]; [apply (ed_owner _ _ _ _ _ H1)|].
    right. exists b. split; [done|]. pose proof (ed_len _ _ _ _ _ H1). lia.
Qed.
Lemma edits_append_all grow l s h : wf_slice h s -> edits h (append_all grow l s h).2 s (append_all grow l s h).1 (elems h s ++ l).
Proof.
  unfold append_all. revert s h. induction l as [|x l IH]; intros s h Hs; cbn; [rewrite app_nil_r; by apply edits_refl|].
  pose proof (edits_append grow x s h Hs) as H1. specialize (IH _ _ (ed_wf _ _ _ _ _ H1)). rewrite (ed_elems _ _ _ _ _ H1), <- app_assoc in IH.
  destruct (append grow x s h) as [s1 h1]. cbn in *. by eapply edits_trans.
Qed.
(** A new slice does not write to any array that was there. *)
Lemma edits_make n h : edits h (make n h).2 nil_slice (make n h).1 [].
Proof. unfold make. cbn. apply edits_alloc; [lia|by rewrite take_0]. Qed.
Lemma edits_made grow n l h : let r := append_all grow l (make n h).1 (make n h).2 in edits h r.2 nil_slice r.1 l.
Proof.
  cbn zeta. eapply edits_trans; [apply edits_make|]. pose proof (edits_append_all grow l _ _ (ed_wf _ _ _ _ _ (edits_make n h))) as H.
  by rewrite (ed_elems _ _ _ _ _ (edits_make n h)) in H.
Qed.

(** ** The cache

    Its entries are slices of arrays of their own. *)
Record ud_ok (ud : UserDevices) : Prop := mkUdOk {
  uo_wf : forall k e, userDevicesCache ud !! k = Some e -> wf_slice (arrays ud) (devices e);
  uo_apart : forall k1 k2 e1 e2 a, userDevicesCache ud !! k1 = Some e1 -> userDevicesCache ud !! k2 = Some e2 ->
    sl_array (devices e1) = Some a -> sl_array (devices e2) = Some a -> k1 = k2 }.
(** The list of a user, if the cache has one. *)
Definition listed (ud : UserDevices) (k : JID) : option (list JID) := (fun e => elems (arrays ud) (devices e)) <$> userDevicesCache ud !! k.

(** A slice that no entry but that of [k] shares. *)
Definition owned (ud : UserDevices) (k : option JID) (s : Slice) : Prop :=
  wf_slice (arrays ud) s /\
  forall k' e a, userDevicesCache ud !! k' = Some e -> sl_array (devices e) = Some a -> sl_array s = Some a -> Some k' = k.

(** The list of an entry changes; no other list does, and the entry of [k] may
    be wrong from then on. *)
Lemma change_owned f k e ud :
  ud_ok ud -> owned ud k (devices e) -> (forall s h, wf_slice h s -> exists l, edits h (f s h).2 s (f s h).1 l) ->
  let r := change f e ud in
  ud_ok r.2 /\ owned r.2 k (devices r.1) /\ userDevicesCache r.2 = userDevicesCache ud /\
  (forall k', Some k' <> k -> listed r.2 k' = listed ud k') /\
  (forall t k', k' <> k -> owned ud k' t -> (forall a, sl_array t = Some a -> sl_array (devices e) <> Some a) ->
     owned r.2 k' t /\ (forall a, sl_array t = Some a -> sl_array (devices r.1) <> Some a)).
Proof.
  intros [Hwf Hap] [Hs Hown] Hf. unfold change. destruct (Hf (devices e) (arrays ud) Hs) as [l He]. destruct (f (devices e) (arrays ud)) as [s h]. cbn in *.
  assert (forall k' e' a, userDevicesCache ud !! k' = Some e' -> sl_array (devices e') = Some a -> sl_array s = Some a -> Some k' = k) as Hown'.
  { intros k' e' a Hk Ha1 Ha2. destruct (ed_owner _ _ _ _ _ He) as [Ho|(b & Hb & Hle)]; [eapply Hown; [done..|congruence]|].
    pose proof (Hwf _ _ Hk) as Hw. unfold wf_slice in Hw. rewrite Ha1 in Hw. destruct Hw as (cs & Hcs & _). apply lookup_lt_Some in Hcs. rewrite Hb in Ha2. injection Ha2 as ->. lia. }
  assert (forall k' e', Some k' <> k -> userDevicesCache ud !! k' = Some e' -> wf_slice h (devices e') /\ elems h (devices e') = elems (arrays ud) (devices e')) as Hkeep.
  { intros k' e' Hne Hk. eapply edits_other; [exact He|by eapply Hwf|]. intros a Ha1 Ha2. apply Hne. by eapply Hown. }
  split; [split; cbn|split; [|split; [done|split]]].
  - intros k' e' Hk. eapply edits_wf; [exact He|by eapply Hwf].
  - intros k1 k2 e1 e2 a. by apply Hap.
  - split; [exact (ed_wf _ _ _ _ _ He)|done].
  - intros k' Hne. unfold listed. cbn. destruct (userDevicesCache ud !! k') as [e'|] eqn:Hk; [|done]. cbn. f_equal. by apply (Hkeep k').
  - intros t k' Hne [Ht Hto] Hta. destruct (edits_other _ _ _ _ _ t He Ht Hta) as [Ht' _]. split; [split; [done|]|].
    + intros k2 e2 a. by apply Hto.
    + intros a Ha. destruct (ed_owner _ _ _ _ _ He) as [->|(b & -> & Hle)]; [by apply Hta|]. intros [= ->].
      unfold wf_slice in Ht. rewrite Ha in Ht. destruct Ht as (cs & Hcs & _). apply lookup_lt_Some in Hcs. lia.
Qed.

Section Confirmed.
Context (grow : nat -> nat) (sha256 : Bytes -> Bytes).
Notation hash_of := (participantListHashV2 sha256).
Notation confirm := (confirm sha256).

Lemma drop_ok k ud : ud_ok ud -> ud_ok (drop_devices k ud).
Proof.
  intros [Hwf Hap]. split; cbn.
  - intros k' e [_ He]%lookup_delete_Some. by apply (Hwf k').
  - intros k1 k2 e1 e2 a [_ H1]%lookup_delete_Some [_ H2]%lookup_delete_Some. by apply (Hap k1 k2).
Qed.
Lemma drop_owned k k' s ud : owned ud k' s -> owned (drop_devices k ud) k' s.
Proof. intros [Hs Ho]. split; [done|]. cbn. intros k2 e a [_ H]%lookup_delete_Some. by apply Ho. Qed.
Lemma put_ok k e ud : ud_ok ud -> owned ud (Some k) (devices e) -> ud_ok (put_devices k e ud).
Proof.
  intros [Hwf Hap] [Hs Ho]. split; cbn.
  - intros k' e' [[<- <-]|[_ H]]%lookup_insert_Some; [done|by apply (Hwf k')].
  - intros k1 k2 e1 e2 a [[<- <-]|[N1 H1]]%lookup_insert_Some [[<- <-]|[N2 H2]]%lookup_insert_Some Ha1 Ha2; [done| | |by apply (Hap k1 k2 e1 e2 a)].
    + pose proof (Ho _ _ _ H2 Ha2 Ha1). congruence.
    + pose proof (Ho _ _ _ H1 Ha1 Ha2). congruence.
Qed.
(** The entry of another user does not get hold of a slice apart from its own. *)
Lemma put_owned k e k' s ud :
  owned ud k' s -> Some k = k' \/ (forall a, sl_array s = Some a -> sl_array (devices e) <> Some a) -> owned (put_devices k e ud) k' s.
Proof.
  intros [Hs Ho] Hk. split; [done|]. cbn. intros k2 e2 a [[<- <-]|[_ H]]%lookup_insert_Some Ha1 Ha2; [|by eapply Ho].
  destruct Hk as [->|Hk]; [done|by destruct (Hk a Ha2)].
Qed.

Lemma confirm_spec k e hash ud :
  ud_ok ud -> owned ud (Some k) (devices e) ->
  let ud' := confirm k e hash ud in
  ud_ok ud' /\ arrays ud' = arrays ud /\ owned ud' (Some k) (devices e) /\
  (forall k', k' <> k -> listed ud' k' = listed ud k') /\
  (listed ud' k = None \/ exists l, listed ud' k = Some l /\ hash_of l = hash) /\
  (forall k' s, owned ud k' s -> (forall a, sl_array s = Some a -> sl_array (devices e) <> Some a) -> owned ud' k' s).
Proof.
  intros Hok Ho. unfold UserDevices.confirm. destruct (String.eqb_spec (hash_of (elems (arrays ud) (devices e))) hash) as [Hh|Hh]; cbn zeta.
  - split; [by apply put_ok|]. split; [done|]. split; [apply put_owned; [done|by left]|]. split; [|split].
    + intros k' Hne. unfold listed. cbn. by rewrite lookup_insert_ne by done.
    + right. exists (elems (arrays ud) (devices e)). split; [|done]. unfold listed. cbn. by rewrite lookup_insert_eq.
    + intros k' s Hs Hap. apply put_owned; [done|by right].
  - split; [by apply drop_ok|]. split; [done|]. split; [by apply drop_owned|]. split; [|split].
    + intros k' Hne. unfold listed. cbn. by rewrite lookup_delete_ne by done.
    + left. unfold listed. cbn. by rewrite lookup_delete_eq.
    + intros k' s Hs _. by apply drop_owned.
Qed.

Definition device_hash (child : node) : string := (getString "device_hash" (AttrGetter child)).1.
Definition device_lid_hash (child : node) : string := (OptionalString "device_lid_hash" (getString "device_hash" (AttrGetter child)).2).1.
Definition changed_lid (child : node) : option JID := (OptionalJID "lid" (AttrGetter (GetOptionalChildByTag child ["device"]).1)).1.
Definition well_hashed (child : node) : Prop := is_Some (changed_lid child) -> device_lid_hash child <> "".

Record changing_ok (from : JID) (fromLID : option JID) (st : changing) : Prop := mkChangingOk {
  co_ud : ud_ok (ch_ud st);
  co_cached : owned (ch_ud st) (Some from) (devices (cached st));
  co_lid : owned (ch_ud st) fromLID (devices (cachedLID st));
  co_apart : forall a, sl_array (devices (cachedLID st)) = Some a -> sl_array (devices (cached st)) <> Some a }.

(** What a child leaves of the list of a user: what it was, nothing, or a list that
    has the hash that the child names. *)
Definition follows (from : JID) (fromLID : option JID) (child : node) (k : JID) (before after : option (list JID)) : Prop :=
  after = before \/ after = None \/
  (exists l, after = Some l /\ (k = from /\ hash_of l = device_hash child \/ fromLID = Some k /\ hash_of l = device_lid_hash child)).

Lemma changed_spec from fromLID st child jid f :
  changing_ok from fromLID st -> fromLID <> Some from -> (is_Some fromLID -> well_hashed child) ->
  (forall x s h, wf_slice h s -> exists l, edits h (f x s h).2 s (f x s h).1 l) ->
  let st' := device_changed sha256 from fromLID (device_hash child) (device_lid_hash child) jid (changed_lid child) f st in
  changing_ok from fromLID st' /\ forall k, follows from fromLID child k (listed (ch_ud st) k) (listed (ch_ud st') k).
Proof.
  intros [Hok Hc Hl Hap] Hne Hwh Hf. cbn zeta. unfold device_changed.
  rewrite (surjective_pairing (change _ (cached st) (ch_ud st))). rewrite (surjective_pairing (match changed_lid child with Some _ => _ | None => _ end)).
  destruct (change_owned (f jid) (Some from) (cached st) (ch_ud st) Hok Hc (Hf _))
    as (Hok1 & Hc1 & Hcache1 & Hlist1 & Hoth1).
  set (r1 := change _ (cached st) (ch_ud st)) in *.
  assert (owned r1.2 fromLID (devices (cachedLID st)) /\ (forall a, sl_array (devices (cachedLID st)) = Some a -> sl_array (devices r1.1) <> Some a)) as [Hl1 Hap1].
  { by apply Hoth1. }
  assert (exists ud2, ud2 = (match changed_lid child with Some lid => change (f lid) (cachedLID st) r1.2 | None => (cachedLID st, r1.2) end).2 /\
    ud_ok ud2 /\ owned ud2 (Some from) (devices r1.1) /\ userDevicesCache ud2 = userDevicesCache r1.2 /\
    (forall k', Some k' <> fromLID \/ changed_lid child = None -> listed ud2 k' = listed r1.2 k') /\
    let eL := (match changed_lid child with Some lid => change (f lid) (cachedLID st) r1.2 | None => (cachedLID st, r1.2) end).1 in
    owned ud2 fromLID (devices eL) /\ (forall a, sl_array (devices eL) = Some a -> sl_array (devices r1.1) <> Some a))
    as (ud2 & Hud2 & Hok2 & Hc2 & Hcache2 & Hlist2 & Hl2 & Hap2).
  { destruct (changed_lid child) as [lid|]; [|exists r1.2; do 5 (split; [done|]); split; [exact Hl1|exact Hap1]].
    destruct (change_owned (f lid) fromLID (cachedLID st) r1.2 Hok1 Hl1 (Hf _)) as (Ho & Hl2 & Hc2 & Hli & Hot). eexists. split; [done|].
    split; [done|]. destruct (Hot (devices r1.1) (Some from)) as [Hcc Haa]; [done|done|intros a H1 H2; by apply (Hap1 a)|].
    split; [done|]. split; [done|]. split; [intros k' [?|?]; [by apply Hli|done]|]. split; [done|]. intros a H1 H2. by apply (Haa a). }
  rewrite <- Hud2. set (eL := (match changed_lid child with Some lid => _ | None => _ end).1) in *.
  destruct (confirm_spec from r1.1 (device_hash child) ud2 Hok2 Hc2) as (Hok3 & _ & Hc3 & Hlist3 & Hfrom3 & Hoth3).
  set (ud3 := confirm from r1.1 (device_hash child) ud2) in *. specialize (Hoth3 fromLID (devices eL) Hl2 Hap2).
  assert (forall k, k <> from -> Some k <> fromLID \/ changed_lid child = None -> listed ud3 k = listed (ch_ud st) k) as Hkeep.
  { intros k Hk Hk'. rewrite Hlist3, Hlist2 by done. apply Hlist1. congruence. }
  assert (forall k, k = from \/ Some k <> fromLID \/ changed_lid child = None -> follows from fromLID child k (listed (ch_ud st) k) (listed ud3 k)) as Hfollow3.
  { intros k Hk. destruct (decide (k = from)) as [->|Hne']; [|left; apply Hkeep; [done|by destruct Hk]].
    destruct Hfrom3 as [?|(l & Hll & Hh)]; [by right; left|]. right. right. exists l. split; [done|by left]. }
  destruct fromLID as [kl|]; [|by split; [split|intros k; apply Hfollow3; right; left]].
  destruct (changed_lid child) as [lid|] eqn:Hlid; [|by split; [split|intros k; apply Hfollow3; right; right]].
  destruct (String.eqb_spec (device_lid_hash child) "") as [He|_]; [exfalso; by apply (Hwh ltac:(done)); [rewrite Hlid|]|].
  destruct (confirm_spec kl eL (device_lid_hash child) ud3 Hok3 Hoth3) as (Hok4 & _ & Hl4 & Hlist4 & Hfrom4 & Hoth4).
  split; [split; cbn; [done| |done|done]|].
  - apply Hoth4; [done|]. intros a H1 H2. by apply (Hap2 a).
  - intros k. destruct (decide (k = kl)) as [->|Hk].
    + destruct Hfrom4 as [?|(l & Hll & Hh)]; [by right; left|]. right. right. exists l. split; [done|by right].
    + rewrite Hlist4 by done. apply Hfollow3. right. left. congruence.
Qed.

(** The children of a notification, one after the other. *)
Lemma deviceChange_spec from fromLID st child :
  changing_ok from fromLID st -> fromLID <> Some from -> (is_Some fromLID -> well_hashed child) ->
  let st' := deviceChange grow sha256 from fromLID st child in
  changing_ok from fromLID st' /\ forall k, follows from fromLID child k (listed (ch_ud st) k) (listed (ch_ud st') k).
Proof.
  intros Hst Hne Hwh. pose proof (fun jid f => changed_spec from fromLID st child jid f Hst Hne Hwh) as Hch.
  cbn zeta in *. unfold deviceChange, device_hash, device_lid_hash, changed_lid in *.
  destruct (getString "device_hash" (AttrGetter child)) as [dh cag]. cbn [fst snd] in *. destruct (OptionalString "device_lid_hash" cag) as [dlh cag']. cbn [fst snd] in *.
  destruct (String.eqb (Tag child) "add"); [|destruct (String.eqb (Tag child) "remove"); [|destruct (String.eqb (Tag child) "update"); [|split; [done|by left]]]].
  - apply Hch. intros x s h Hs. eexists. by apply edits_append.
  - apply Hch. intros x s h Hs. eexists. by apply edits_delete.
  - destruct Hst as [Hok Hc Hl Hap]. split; [split; cbn; [by apply drop_ok|by apply drop_owned|by apply drop_owned|done]|].
    intros k. unfold follows, listed. cbn. destruct (decide (k = from)) as [->|Hk]; [right; left; by rewrite lookup_delete_eq|left; by rewrite lookup_delete_ne by done].
Qed.

(** C15. After a notification the devices of every user are what they were, or not
    known, or a list whose hash the notification named; and no two lists of the
    cache share their array.  Provided that a change of a LID comes with its
    hash. *)
Theorem device_lists_confirmed n c ud :
  let from := (getJID "from" (AttrGetter n)).1 in
  let fromLID := (OptionalJID "lid" (getJID "from" (AttrGetter n)).2).1 in
  ud_ok ud -> fromLID <> Some from -> (is_Some fromLID -> Forall well_hashed (GetChildren n)) ->
  let ud' := (handleDeviceNotification grow sha256 n c ud).2 in
  ud_ok ud' /\
  forall k, listed ud' k = listed ud k \/ listed ud' k = None \/
    (exists l child, listed ud' k = Some l /\ child ∈ GetChildren n /\
       (k = from /\ hash_of l = device_hash child \/ fromLID = Some k /\ hash_of l = device_lid_hash child)).
Proof.
  unfold handleDeviceNotification. destruct (getJID "from" (AttrGetter n)) as [from ag]. cbn [fst snd].
  destruct (OptionalJID "lid" ag) as [fromLID ag']. cbn [fst snd]. cbn zeta. intros Hok Hne Hwh.
  destruct (userDevicesCache ud !! from) as [e|] eqn:Hfrom; [|split; [done|by left]]. cbn [snd].
  set (eL := match fromLID with Some lid => _ | None => _ end). set (st := mkChanging ud e eL).
  assert (changing_ok from fromLID st) as Hst.
  { assert (owned ud (Some from) (devices e)) as Ho.
    { split; [by apply (uo_wf _ Hok from)|]. intros k' e' a Hk H1 H2. f_equal. by apply (uo_apart _ Hok k' from e' e a). }
    assert (forall lid e', fromLID = Some lid -> userDevicesCache ud !! lid = Some e' -> eL = e') as HeL by (intros lid e' -> He'; unfold eL; by rewrite He').
    assert ((exists lid, fromLID = Some lid /\ userDevicesCache ud !! lid = Some eL) \/ eL = no_devices) as [(lid & -> & Hlid)| ->].
    { unfold eL. destruct fromLID as [lid|]; [|by right]. destruct (userDevicesCache ud !! lid) as [e'|] eqn:He'; [|by right]. left. by exists lid. }
    - split; cbn; [done|done| |].
      + split; [by apply (uo_wf _ Hok lid)|]. intros k' e' a Hk H1 H2. f_equal. by apply (uo_apart _ Hok k' lid e' eL a).
      + intros a H1 H2. apply Hne. f_equal. by apply (uo_apart _ Hok lid from eL e a).
    - split; cbn; [done|done| |done]. split; [done|]. done. }
  assert (ud = ch_ud st) as Hud by done. clearbody st. rewrite Hud. rename Hwh into Hall.
  assert (forall l, (is_Some fromLID -> Forall well_hashed l) -> let st' := foldl (deviceChange grow sha256 from fromLID) st l in changing_ok from fromLID st' /\
    forall k, listed (ch_ud st') k = listed (ch_ud st) k \/ listed (ch_ud st') k = None \/
      (exists ll child, listed (ch_ud st') k = Some ll /\ child ∈ l /\
         (k = from /\ hash_of ll = device_hash child \/ fromLID = Some k /\ hash_of ll = device_lid_hash child))) as Hl.
  { intros l. induction l as [|child l IH] using rev_ind; intros Hl; [split; [done|by left]|]. cbn zeta. rewrite foldl_app. cbn [foldl].
    destruct IH as [Hst1 Hk1]; [intros Hs; specialize (Hl Hs); by apply Forall_app in Hl as [? _]|]. set (st1 := foldl _ st l) in *.
    destruct (deviceChange_spec from fromLID st1 child Hst1 Hne) as [Hst2 Hk2].
    { intros Hs. specialize (Hl Hs). apply Forall_app in Hl as [_ Hl]. exact (Forall_inv Hl). }
    split; [done|]. intros k. destruct (Hk2 k) as [->|[?|(ll & Hll & Hh)]].
    - destruct (Hk1 k) as [?|[?|(ll & child' & Hll & Hin & Hh)]]; [by left|by right; left|]. right. right. exists ll, child'. split; [done|].
      split; [|done]. apply elem_of_app. by left.
    - by right; left.
    - right. right. exists ll, child. split; [done|]. split; [apply elem_of_app; right; by left|done]. }
  destruct (Hl (GetChildren n) Hall) as [[Hok' _ _ _] Hk]. by split.
Qed.
End Confirmed.

(** ** What goes wrong without the hash *)

Definition demo_pn : JID := NewJID "49151" DefaultUserServer.
Definition demo_lid : JID := NewJID "88" HiddenUserServer.
(** Two devices, known under the number and under the LID. *)
Definition demo_ud : UserDevices :=
  mkUserDevices [[demo_pn; demo_pn <| Jid.Device := 1 |>]; [demo_lid; demo_lid <| Jid.Device := 1 |>]]
    (<[demo_pn := mkDeviceCache (mkSlice (Some 0%nat) 2) ""]> {[demo_lid := mkDeviceCache (mkSlice (Some 1%nat) 2) ""]}).
(** The first of them is removed; [hashes] are the attributes with the hashes. *)
Definition demo_removal (hashes : list (string * value)) : node :=
  mkNode "notification" [("from", VJID demo_pn); ("lid", VJID demo_lid)]
    (VNodes [mkNode "remove" hashes (VNodes [mkNode "device" [("jid", VJID demo_pn); ("lid", VJID demo_lid)] VNil])]).

(** A removal that names a LID without its hash clears the array under the entry
    of the LID, which keeps its length: the list ends with an empty JID, and that
    is what the client takes for a device from then on. *)
Theorem unhashed_removal_corrupts grow sha256 sendIQ sid c :
  let ud := (handleDeviceNotification grow sha256 (demo_removal [("device_hash", VString (participantListHashV2 sha256 [demo_pn <| Jid.Device := 1 |>]))]) c demo_ud).2 in
  listed ud demo_pn = Some [demo_pn <| Jid.Device := 1 |>] /\
  listed ud demo_lid = Some [demo_lid <| Jid.Device := 1 |>; EmptyJID] /\
  (GetUserDevices grow sha256 sendIQ sid [demo_lid] ud).1 = inr [demo_lid <| Jid.Device := 1 |>; EmptyJID].
Proof.
  set (hash := participantListHashV2 sha256 _). cbn zeta.
  assert ((handleDeviceNotification grow sha256 (demo_removal [("device_hash", VString hash)]) c demo_ud).2 =
    put_devices demo_pn (mkDeviceCache (mkSlice (Some 0%nat) 1) "")
      (demo_ud <| arrays := [[demo_pn <| Jid.Device := 1 |>; EmptyJID]; [demo_lid <| Jid.Device := 1 |>; EmptyJID]] |>)) as ->.
  { set (st := mkChanging demo_ud (mkDeviceCache (mkSlice (Some 0%nat) 2) "") (mkDeviceCache (mkSlice (Some 1%nat) 2) "")).
    transitivity (ch_ud (device_changed sha256 demo_pn (Some demo_lid) hash "" demo_pn (Some demo_lid)
      (fun jid => DeleteFunc (fun existing => bool_decide (existing = jid))) st)); [reflexivity|].
    unfold device_changed.
    replace (change _ (cached st) _) with (mkDeviceCache (mkSlice (Some 0%nat) 1) "",
      demo_ud <| arrays := [[demo_pn <| Jid.Device := 1 |>; EmptyJID]; [demo_lid; demo_lid <| Jid.Device := 1 |>]] |>) by (by vm_compute).
    replace (change _ (cachedLID st) _) with (mkDeviceCache (mkSlice (Some 1%nat) 1) "",
      demo_ud <| arrays := [[demo_pn <| Jid.Device := 1 |>; EmptyJID]; [demo_lid <| Jid.Device := 1 |>; EmptyJID]] |>) by (by vm_compute).
    change (String.eqb "" "") with true. cbv iota. unfold confirm. replace (elems _ _) with [demo_pn <| Jid.Device := 1 |>] by (by vm_compute). fold hash. by rewrite String.eqb_refl. }
  split; [by vm_compute|]. split; by vm_compute.
Qed.

(** ** The own devices *)

Section Own.
Context (grow : nat -> nat) (sha256 : Bytes -> Bytes).
Notation hash_of := (participantListHashV2 sha256).

(** A slice made of new arrays goes into the cache. *)
Lemma put_new k e ud h s l :
  ud_ok ud -> edits (arrays ud) h nil_slice s l -> sl_array (devices e) = sl_array s -> sl_len (devices e) = sl_len s ->
  let ud' := put_devices k e (ud <| arrays := h |>) in
  ud_ok ud' /\ listed ud' k = Some l /\ (forall k', k' <> k -> listed ud' k' = listed ud k').
Proof.
  intros Hok He Ha Hn. assert (devices e = s) as Hs by (destruct (devices e), s; cbn in *; congruence).
  assert (forall k' e', userDevicesCache ud !! k' = Some e' -> wf_slice h (devices e') /\ elems h (devices e') = elems (arrays ud) (devices e')) as Hkeep.
  { intros k' e' Hk. apply (edits_other _ _ _ _ _ _ He); [by apply (uo_wf _ Hok k')|done]. }
  assert (forall k' e' a, userDevicesCache ud !! k' = Some e' -> sl_array (devices e') = Some a -> sl_array s <> Some a) as Hfresh.
  { intros k' e' a Hk Ha1 Ha2. pose proof (uo_wf _ Hok _ _ Hk) as Hw. unfold wf_slice in Hw. rewrite Ha1 in Hw. destruct Hw as (cs & Hcs & _).
    apply lookup_lt_Some in Hcs. destruct (ed_owner _ _ _ _ _ He) as [Ho|(b & Hb & Hle)]; [rewrite Ho in Ha2; done|]. rewrite Hb in Ha2. injection Ha2 as ->. lia. }
  cbn zeta. split; [apply put_ok|split].
  - split; cbn; [intros k' e' Hk; by apply (Hkeep k')|apply (uo_apart _ Hok)].
  - split; [cbn; rewrite Hs; by apply (ed_wf _ _ _ _ _ He)|]. cbn. intros k' e' a Hk H1 H2. rewrite Hs in H2. by destruct (Hfresh _ _ _ Hk H1).
  - unfold listed. cbn. rewrite lookup_insert_eq. cbn. by rewrite Hs, (ed_elems _ _ _ _ _ He).
  - intros k' Hne. unfold listed. cbn. rewrite lookup_insert_ne by done. destruct (userDevicesCache ud !! k') as [e'|] eqn:Hk; [|done]. cbn. f_equal. by apply (Hkeep k').
Qed.

Lemma edits_new l h : edits h (append_all grow l nil_slice h).2 nil_slice (append_all grow l nil_slice h).1 l.
Proof. apply (edits_append_all grow l nil_slice h). done. Qed.

(** A notification of the account's own devices leaves the two lists of the
    account, under the number and under the LID, in step: either the one that was
    sent has the hash that came with it and the other has the same device numbers,
    or both are gone; other users are not touched. *)
Theorem own_devices_in_step n fromJID ownJID lid ud :
  let ownID := ToNonAD ownJID in
  let ownLID := ToNonAD lid in
  ud_ok ud -> IsEmpty ownID = false -> ownID <> ownLID -> ToNonAD fromJID = ownID \/ ToNonAD fromJID = ownLID ->
  let ud' := handleOwnDevicesNotification grow sha256 n fromJID ownJID lid ud in
  let other := if bool_decide (ToNonAD fromJID = ownID) then ownLID else ownID in
  ud_ok ud' /\
  (listed ud' ownID = None /\ listed ud' ownLID = None \/
   exists l, listed ud' (ToNonAD fromJID) = Some l /\ hash_of l = (getString "dhash" (AttrGetter n)).1 /\
     listed ud' other = Some (map (fun jid => other <| Jid.Device := Jid.Device jid |>) l)) /\
  forall k, k <> ownID -> k <> ownLID -> listed ud' k = listed ud k.
Proof.
  cbn zeta. intros Hok Hne Hdiff Hfrom. unfold handleOwnDevicesNotification. rewrite Hne.
  set (ownID := ToNonAD ownJID) in *. set (ownLID := ToNonAD lid) in *. set (from := ToNonAD fromJID) in *.
  set (other := if bool_decide (from = ownID) then ownLID else ownID).
  assert ((if bool_decide (from = ownID) then Some ownLID else if bool_decide (from = ownLID) then Some ownID else None) = Some other) as ->.
  { unfold other. destruct (bool_decide_reflect (from = ownID)) as [|Hn]; [done|]. destruct Hfrom as [?|?]; [done|]. by rewrite bool_decide_true. }
  assert (from <> other /\ (forall k, k <> ownID -> k <> ownLID -> k <> from /\ k <> other)) as [Hfo Hother].
  { unfold other. destruct (bool_decide_reflect (from = ownID)); destruct Hfrom; split; try congruence; intros k ? ?; split; congruence. }
  set (pairs := omap (ownDevice other) (GetChildren n)).
  assert (pairs.*2 = map (fun jid => other <| Jid.Device := Jid.Device jid |>) pairs.*1) as Hpairs.
  { unfold pairs. induction (GetChildren n) as [|child l IH]; [done|]. cbn. assert (forall x, ownDevice other child = Some x -> x.2 = other <| Jid.Device := Jid.Device x.1 |>) as Hx.
    { intros x. unfold ownDevice. destruct (_ && _); [|done]. by intros [= <-]. }
    destruct (ownDevice other child) as [x|]; [|exact IH]. cbn. rewrite (Hx x eq_refl). f_equal. exact IH. }
  pose proof (edits_new pairs.*1 (arrays ud)) as H1. destruct (append_all grow pairs.*1 nil_slice (arrays ud)) as [new h1]. cbn [fst snd] in H1.
  pose proof (edits_new pairs.*2 h1) as H2. destruct (append_all grow pairs.*2 nil_slice h1) as [alt h2]. cbn [fst snd] in H2.
  assert (ud_ok (ud <| arrays := h2 |>) /\ forall k, listed (ud <| arrays := h2 |>) k = listed ud k) as [Hok2 Hl2].
  { assert (forall k e, userDevicesCache ud !! k = Some e -> wf_slice h2 (devices e) /\ elems h2 (devices e) = elems (arrays ud) (devices e)) as Hkeep.
    { intros k e Hk. destruct (edits_other _ _ _ _ _ (devices e) H1) as [Hw1 He1]; [by apply (uo_wf _ Hok k)|done|].
      destruct (edits_other _ _ _ _ _ (devices e) H2) as [Hw2 He2]; [done|done|]. split; [done|]. by rewrite He2. }
    split; [split; cbn; [intros k e Hk; by apply (Hkeep k)|apply (uo_apart _ Hok)]|].
    intros k. unfold listed. cbn. destruct (userDevicesCache ud !! k) as [e|] eqn:Hk; [|done]. cbn. f_equal. by apply (Hkeep k). }
  destruct (String.eqb_spec (hash_of pairs.*1) (getString "dhash" (AttrGetter n)).1) as [Hh|Hh]; cbn [negb].
  - destruct (put_new from (mkDeviceCache new (getString "dhash" (AttrGetter n)).1) ud h1 new pairs.*1) as (Hok3 & Hf3 & Ho3); [done..|].
    set (ud1 := put_devices from _ (ud <| arrays := h1 |>)) in *.
    destruct (put_new other (mkDeviceCache alt (hash_of pairs.*2)) ud1 h2 alt pairs.*2) as (Hok4 & Hf4 & Ho4); [done..|].
    change (put_devices other _ (put_devices from _ _)) with (put_devices other (mkDeviceCache alt (hash_of pairs.*2)) (ud1 <| arrays := h2 |>)).
    split; [done|]. split.
    + right. exists pairs.*1. split; [by rewrite Ho4|]. split; [done|]. by rewrite Hf4, Hpairs.
    + intros k Hk1 Hk2. destruct (Hother k Hk1 Hk2). rewrite Ho4, Ho3; done.
  - split; [by apply drop_ok, drop_ok|]. split.
    + left. unfold listed. cbn. rewrite lookup_delete_ne by done. by rewrite !lookup_delete_eq.
    + intros k Hk1 Hk2. rewrite <- Hl2. unfold listed. cbn. by rewrite !lookup_delete_ne by done.
Qed.
End Own.

(** ** Asking the server *)

Section Asking.
Context (grow : nat -> nat) (sha256 : Bytes -> Bytes).

(** The devices in the node of a user. *)
Definition user_devices (jid : JID) (user : node) : list JID :=
  let deviceNode := GetChildByTag user ["devices"] in
  let deviceList := GetChildByTag deviceNode ["device-list"] in
  if negb (String.eqb (Tag deviceNode) "devices") || negb (String.eqb (Tag deviceList) "device-list") then []
  else omap (parseDevice_node jid) (GetChildren deviceList).
Lemma parseDeviceList_spec jid user h :
  let r := parseDeviceList grow jid (GetChildByTag user ["devices"]) h in edits h r.2 nil_slice r.1 (user_devices jid user).
Proof.
  unfold parseDeviceList, user_devices. destruct (_ || _); [by apply (edits_refl h nil_slice)|]. exact (edits_made grow _ _ h).
Qed.

Definition answered (users : list node) : list (JID * list JID) :=
  omap (fun user => (fun jid => (jid, user_devices jid user)) <$> user_jid user) users.

Lemma syncUsers_spec users acc ud :
  ud_ok ud -> NoDup (answered users).*1 ->
  let r := foldl (syncUser grow sha256) (acc, ud) users in
  r.1 = acc ++ concat (answered users).*2 /\ ud_ok r.2 /\
  forall k, (forall l, (k, l) ∈ answered users -> listed r.2 k = Some l) /\ (k ∉ (answered users).*1 -> listed r.2 k = listed ud k).
Proof.
  revert acc ud. induction users as [|user users IH]; intros acc ud Hok Hnd; cbn zeta; cbn [foldl].
  { split; [by rewrite app_nil_r|]. split; [done|]. intros k. split; [by intros l ?%elem_of_nil|done]. }
  unfold syncUser at 2 4 6 8. unfold answered in *. cbn [omap list_omap] in *. destruct (user_jid user) as [jid|] eqn:Hj; cbn [fmap option_fmap option_map] in *; [|by apply IH].
  pose proof (parseDeviceList_spec jid user (arrays ud)) as He. cbn zeta in He. cbn [snd] in *.
  destruct (parseDeviceList grow jid _ (arrays ud)) as [s h]. cbn [fst snd] in *.
  destruct (put_new jid (mkDeviceCache s (participantListHashV2 sha256 (elems h s))) ud h s _ Hok He eq_refl eq_refl) as (Hok1 & Hl1 & Ho1).
  rewrite fmap_cons in Hnd. apply NoDup_cons in Hnd as [Hni Hnd]. destruct (IH (acc ++ elems h s) _ Hok1 Hnd) as (Hr & Hok2 & Hk2).
  split; [|split; [done|]].
  - rewrite Hr, <- app_assoc. f_equal. rewrite fmap_cons. cbn. f_equal. exact (ed_elems _ _ _ _ _ He).
  - intros k. destruct (Hk2 k) as [Hin Hout]. split.
    + intros l [[= -> ->]|Hl]%elem_of_cons; [|by apply Hin]. by rewrite Hout.
    + intros Hk. rewrite fmap_cons in Hk. apply not_elem_of_cons in Hk as [Hne Hk]. rewrite (Hout Hk). by apply Ho1.
Qed.

Lemma source_listed ud jid l : ud_ok ud -> listed ud jid = Some l -> l <> [] -> device_source ud jid = FromCache l.
Proof.
  intros Hok Hl Hne. unfold device_source. unfold listed in Hl. destruct (userDevicesCache ud !! jid) as [e|] eqn:He; [|done]. injection Hl as <-.
  pose proof (elems_length _ _ (uo_wf _ Hok _ _ He)). destruct (Nat.ltb_spec 0 (sl_len (devices e))); [done|]. destruct (elems _ _); [done|]. cbn in *. lia.
Qed.
Lemma source_ext ud ud' jid : ud_ok ud -> ud_ok ud' -> listed ud' jid = listed ud jid -> device_source ud' jid = device_source ud jid.
Proof.
  intros Hok Hok' Hl. unfold device_source, listed in *. destruct (userDevicesCache ud !! jid) as [e|] eqn:He, (userDevicesCache ud' !! jid) as [e'|] eqn:He'; try done.
  injection Hl as Hl. rewrite Hl. by rewrite <- (elems_length _ _ (uo_wf _ Hok _ _ He)), <- (elems_length _ _ (uo_wf _ Hok' _ _ He')), Hl.
Qed.

(** Once the server has named the devices of every user that it was asked for,
    asking for the same users again gives the same devices and sends no query,
    whatever the server would say. *)
Theorem devices_cached sendIQ sendIQ' sid sid' jids ud ds ud' :
  ud_ok ud -> NoDup jids -> Forall (fun jid => Server jid <> MessengerServer) jids ->
  GetUserDevices grow sha256 sendIQ sid jids ud = (inr ds, ud') ->
  (forall list, usync sendIQ sid "query" "message" (to_sync ud jids) [] [mkNode "devices" [("version", VString "2")] VNil] = inr list ->
     (answered (GetChildren list)).*1 ≡ₚ to_sync ud jids /\ Forall (fun l => l <> []) (answered (GetChildren list)).*2) ->
  exists ds', GetUserDevices grow sha256 sendIQ' sid' jids ud' = (inr ds', ud') /\ ds' ≡ₚ ds.
Proof.
  intros Hok Hnd Hfb Hget Hans.
  assert (forall ud, to_sync_fb ud jids = []) as Hnofb.
  { intros u. unfold to_sync_fb. clear -Hfb. induction Hfb as [|jid jids Hj _ IH]; [done|]. rewrite filter_cons_False; [done|].
    unfold device_source. apply String.eqb_neq in Hj. rewrite Hj. destruct (userDevicesCache u !! jid) as [e|]; [destruct (0 <? _)%nat; [done|]|]; by destruct (IsBot jid). }
  assert (forall u, to_sync u jids = [] -> GetUserDevices grow sha256 sendIQ' sid' jids u = (inr (known_devices u jids), u)) as Hagain.
  { intros u Hu. unfold GetUserDevices. by rewrite Hu, Hnofb. }
  unfold GetUserDevices in Hget. rewrite Hnofb in Hget. cbn [length chunks getFBIDDevices] in Hget.
  destruct (to_sync ud jids) as [|j js] eqn:Hsync.
  { injection Hget as <- <-. exists (known_devices ud jids). split; [by apply Hagain|done]. }
  rewrite <- Hsync in *. clear j js Hsync. destruct (usync _ _ _ _ _ _ _) as [e|list]; [done|]. destruct (Hans list eq_refl) as [Hperm Hne]. clear Hans.
  destruct (syncUsers_spec (GetChildren list) (known_devices ud jids) ud Hok) as (Hr & Hok' & Hk).
  { rewrite Hperm. unfold to_sync. by apply NoDup_filter. }
  destruct (foldl (syncUser grow sha256) _ _) as [acc u]. cbn [fst snd] in *. injection Hget as <- <-. set (ans := answered (GetChildren list)) in *.
  assert (forall jid, jid ∈ jids -> device_source ud jid = AskServer -> exists l, (jid, l) ∈ ans /\ device_source u jid = FromCache l) as Hasked.
  { intros jid Hin Hs. assert (jid ∈ ans.*1) as [[jid' l] [Hj Hl]]%list_elem_of_fmap.
    { rewrite Hperm. unfold to_sync. by apply list_elem_of_filter. }
    cbn in Hj. subst jid'. exists l. split; [done|]. apply source_listed; [done|by apply Hk|]. apply (proj1 (Forall_forall _ _) Hne). apply list_elem_of_fmap. by exists (jid, l). }
  assert (forall jid, device_source ud jid <> AskServer -> device_source u jid = device_source ud jid) as Hsame.
  { intros jid Hs. apply source_ext; [done|done|]. apply Hk. rewrite Hperm. unfold to_sync. rewrite list_elem_of_filter. by intros []. }
  assert (to_sync u jids = []) as Hu.
  { destruct (to_sync u jids) as [|jid l] eqn:Hu; [done|exfalso]. assert (jid ∈ to_sync u jids) as [Hs Hin]%list_elem_of_filter by (rewrite Hu; by left). destruct (decide (device_source ud jid = AskServer)) as [Ha|Ha].
    - destruct (Hasked jid Hin Ha) as (l' & _ & Hl'). congruence.
    - rewrite (Hsame jid Ha) in Hs. done. }
  exists (known_devices u jids). split; [by apply Hagain|]. rewrite Hr.
  set (g jid := default [] (listed u jid)).
  assert (forall l, l ⊆ jids -> known_devices u l ≡ₚ known_devices ud l ++ concat (map g (to_sync ud l))) as Hall.
  { intros l. induction l as [|jid l IH]; intros Hl; [done|]. specialize (IH ltac:(set_solver)). unfold known_devices, to_sync in *. cbn [map concat].
    destruct (decide (device_source ud jid = AskServer)) as [Ha|Ha].
    - destruct (Hasked jid ltac:(set_solver) Ha) as (l' & Hin & ->). rewrite filter_cons_True, Ha by done. cbn [map concat app].
      assert (g jid = l') as -> by (unfold g; by rewrite (proj1 (Hk jid) l' Hin)). rewrite IH. apply Permutation_app_swap_app.
    - rewrite (Hsame jid Ha), filter_cons_False by done. by rewrite IH, app_assoc. }
  rewrite (Hall jids) by done. apply Permutation_app_head. rewrite <- flat_map_concat_map, <- (Permutation_flat_map g Hperm), flat_map_concat_map.
  assert (map g ans.*1 = ans.*2) as ->; [|done]. assert (forall x, x ∈ ans -> g x.1 = x.2) as Hg.
  { intros [k l] Hin. unfold g. cbn. by rewrite (proj1 (Hk k) l Hin). }
  clear -Hg. induction ans as [|x ans IH]; [done|]. cbn. rewrite Hg by (by left). f_equal. apply IH. intros y Hy. apply Hg. by right.
Qed.
End Asking.

(** ** Examples *)

Lemma demo_ud_ok : ud_ok demo_ud.
Proof.
  assert (forall k e, userDevicesCache demo_ud !! k = Some e -> k = demo_pn /\ devices e = mkSlice (Some 0%nat) 2 \/ k = demo_lid /\ devices e = mkSlice (Some 1%nat) 2) as He.
  { intros k e. unfold demo_ud. cbn [userDevicesCache]. rewrite lookup_insert_Some, lookup_singleton_Some. intros [[<- <-]|[_ [<- <-]]]; [by left|by right]. }
  split.
  - intros k e [[_ ->]|[_ ->]]%He; cbn; eexists; (split; [reflexivity|]); cbn; lia.
  - intros k1 k2 e1 e2 a [[-> H1]|[-> H1]]%He [[-> H2]|[-> H2]]%He; rewrite H1, H2; cbn; congruence.
Qed.

(** With both hashes the removal leaves the other device in both lists. *)
Lemma device_lists_confirmed_witness :
  let hash l := participantListHashV2 id l in
  let n := demo_removal [("device_hash", VString (hash [demo_pn <| Jid.Device := 1 |>])); ("device_lid_hash", VString (hash [demo_lid <| Jid.Device := 1 |>]))] in
  let ud := (handleDeviceNotification (fun n => n) id n (demo_client []) demo_ud).2 in
  listed demo_ud demo_lid <> listed ud demo_lid /\ listed ud demo_lid = Some [demo_lid <| Jid.Device := 1 |>] /\ ud_ok ud.
Proof.
  set (n := demo_removal [("device_hash", VString (participantListHashV2 id [demo_pn <| Jid.Device := 1 |>]));
    ("device_lid_hash", VString (participantListHashV2 id [demo_lid <| Jid.Device := 1 |>]))]).
  split; [by vm_compute|]. split; [by vm_compute|].
  apply (device_lists_confirmed (fun n => n) id n (demo_client []) demo_ud demo_ud_ok); [by vm_compute|].
  intros _. apply Forall_singleton. intros _. by vm_compute.
Defined.

(** The server names two devices of the number, one of them hosted. *)
Definition demo_server (q : infoQuery) : option node * option iq_error :=
  (Some (mkNode "iq" [] (VNodes [mkNode "usync" [] (VNodes [mkNode "list" [] (VNodes
     [mkNode "user" [("jid", VJID (NewJID "33" DefaultUserServer))] (VNodes [mkNode "devices" [] (VNodes [mkNode "device-list" [] (VNodes
        [mkNode "device" [("id", VString "0")] VNil; mkNode "device" [("id", VString "7"); ("is_hosted", VString "true")] VNil])])])])])])), None).
Definition demo_asked : list JID := [NewJID "33" DefaultUserServer; demo_lid].
Lemma devices_cached_witness :
  exists ds ud' ds', GetUserDevices (fun n => n) id demo_server "1" demo_asked demo_ud = (inr ds, ud') /\ length ds = 4%nat /\
    GetUserDevices (fun n => n) id (fun _ => (None, Some ErrIQTimedOut)) "2" demo_asked ud' = (inr ds', ud') /\ ds' ≡ₚ ds.
Proof.
  destruct (GetUserDevices (fun n => n) id demo_server "1" demo_asked demo_ud) as [[e|ds] ud'] eqn:H; [by vm_compute in H|].
  destruct (devices_cached (fun n => n) id demo_server (fun _ => (None, Some ErrIQTimedOut)) "1" "2" demo_asked demo_ud ds ud') as (ds' & H1 & H2).
  - apply demo_ud_ok.
  - by apply (bool_decide_unpack _); vm_compute.
  - by repeat constructor.
  - exact H.
  - intros list [= <-]. split; [by vm_compute|]. by repeat constructor.
  - exists ds, ud', ds'. split; [done|]. split; [|done]. vm_compute in H. by injection H as <- _.
Defined.
