(* ===== verification/TcTokens.v ===== *)
(** * [whatsmeow/tctoken.go], [cstoken.go] and their notifications

    A trusted contact token shows a user that its contact may write to it.  The
    client keeps the tokens that it gets, in buckets of seven days, and issues
    its own when a new bucket begins.  Every reading of the clock is an argument;
    the goroutine that prunes the table is a step of its own. *)
From S2P Require Import Prelude GoStrings GoTime Jid BinaryNode NodeAttrs Requests LidMap PreKeys SqlDB SqlText SignalStore AccountStore.

Definition tcTokenBucketDuration : Z := 604800.
Definition tcTokenNumBuckets : Z := 4.
Definition tcTokenDBPruneInterval : Duration := 24 * Hour.

(** The division of integers rounds to zero. *)
Definition bucket (t : Time) : Z := Z.quot (toUnix t) tcTokenBucketDuration.
Definition currentTCTokenCutoffTimestamp (now : Time) : Time :=
  Unix ((bucket now - (tcTokenNumBuckets - 1)) * tcTokenBucketDuration).
Definition isTCTokenExpired (now timestamp : Time) : bool :=
  if IsZero timestamp then true else timestamp <? currentTCTokenCutoffTimestamp now.
Definition shouldSendNewTCToken (now senderTimestamp : Time) : bool :=
  if IsZero senderTimestamp then true else bucket senderTimestamp <? bucket now.

Definition is_person (jid : JID) : bool :=
  let jid := ToNonAD jid in
  (String.eqb (Server jid) DefaultUserServer || String.eqb (Server jid) HiddenUserServer) &&
  negb (String.eqb (User jid) (User PSAJID)) && negb (IsBot jid).
Definition shouldSendTCTokenInChatAction : JID -> bool := is_person.
Definition shouldSendCsToken : JID -> bool := is_person.

(** The maps of the client, its tables, and whether a goroutine that prunes is on
    its way, which holds the lock. *)
Record Tokens : Type := mkTokens {
  account : AccountDB;
  lids : CachedLIDMap;
  tcTokenSenderTS : gmap JID Time;
  lastTCTokenSenderTSCleanup : Time;
  lastTCTokenDBPrune : Time;
  pruning : bool }.
#[export] Instance eta_Tokens : Eta Tokens := fun r =>
  mkTokens (account r) (lids r) (tcTokenSenderTS r) (lastTCTokenSenderTSCleanup r) (lastTCTokenDBPrune r) (pruning r).

Definition lid_for_pn (pn : JID) (s : Tokens) : option JID * Tokens :=
  match GetLIDForPN pn (lids s) with
  | (Some _, _, m) => (None, s <| lids := m |>)
  | (None, lid, m) => (Some lid, s <| lids := m |>)
  end.
Definition on_account {A} (m : Stmt AccountDB A) (s : Tokens) : (store_error + A) * Tokens :=
  match m (account s) with (r, a) => (r, s <| account := a |>) end.

Definition resolveTCTokenStorageLID (jid : JID) (s : Tokens) : JID * Tokens :=
  let storageJID := ToNonAD jid in
  if negb (String.eqb (Server storageJID) DefaultUserServer) then (storageJID, s)
  else match lid_for_pn storageJID s with
       | (None, s) => (storageJID, s)
       | (Some lid, s) => (if IsEmpty lid then storageJID else ToNonAD lid, s)
       end.

Definition getTCTokenSenderTS (jid : JID) (s : Tokens) : Time := default zeroTime (tcTokenSenderTS s !! ToNonAD jid).
(** [since], [now] and [cutoff] are the three readings of the clock. *)
Definition unlockedCleanupTCTokenSenderTSMap (since now cutoff : Time) (s : Tokens) : Tokens :=
  if Since since (lastTCTokenSenderTSCleanup s) <? tcTokenBucketDuration * Second then s
  else
    let cutoffTimestamp := currentTCTokenCutoffTimestamp cutoff in
    s <| lastTCTokenSenderTSCleanup := now |> <| tcTokenSenderTS := filter (fun e => cutoffTimestamp <= e.2) (tcTokenSenderTS s) |>.
Definition validateAndSetTCTokenSenderTS (now since now' cutoff : Time) (jid : JID) (stored : Time) (s : Tokens) : bool * Tokens :=
  let key := ToNonAD jid in
  match tcTokenSenderTS s !! key with
  | Some _ => (true, s)
  | None =>
      if IsZero stored || (stored <? currentTCTokenCutoffTimestamp now) then (false, s)
      else (true, unlockedCleanupTCTokenSenderTSMap since now' cutoff (s <| tcTokenSenderTS := <[key := stored]> (tcTokenSenderTS s) |>))
  end.
Definition setTCTokenSenderTS (since now cutoff : Time) (jid : JID) (ts : Time) (s : Tokens) : Tokens :=
  unlockedCleanupTCTokenSenderTSMap since now cutoff (s <| tcTokenSenderTS := <[ToNonAD jid := ts]> (tcTokenSenderTS s) |>).

(** Starts the goroutine; it runs [prune]. *)
Definition deleteExpiredPrivacyTokens (since now : Time) (s : Tokens) : Tokens :=
  if pruning s then s
  else if Since since (lastTCTokenDBPrune s) <? tcTokenDBPruneInterval then s
  else s <| lastTCTokenDBPrune := now |> <| pruning := true |>.
Definition prune (now : Time) (s : Tokens) : Tokens :=
  (on_account (DeleteExpiredPrivacyTokens (currentTCTokenCutoffTimestamp now)) s).2 <| pruning := false |>.

(** The readings of the clock of a call: the seven are those of the pruning, of the
    timestamp and of the token. *)
Record clock : Type := mkClock { c_prune_since : Time; c_prune_now : Time; c_valid : Time; c_since : Time; c_now : Time; c_cutoff : Time; c_expired : Time }.

Section Tokens.
Context (d : Dialect) (pick : forall A, list A -> option A).

(** [None] is an error; [Some None] is no token. *)
Definition ensureTCToken (c : clock) (jid : JID) (s : Tokens) : option (option Bytes) * Tokens :=
  let s := deleteExpiredPrivacyTokens (c_prune_since c) (c_prune_now c) s in
  let '(storageJID, s) := resolveTCTokenStorageLID jid s in
  match on_account (GetPrivacyToken d pick storageJID) s with
  | (inl _, s) => (None, s)
  | (inr None, s) => (Some None, s)
  | (inr (Some existing), s) =>
      let '(_, s) := validateAndSetTCTokenSenderTS (c_valid c) (c_since c) (c_now c) (c_cutoff c) storageJID (SenderTimestamp existing) s in
      let token := default [] (pt_Token existing) in
      (Some (if (0 <? length token)%nat && negb (isTCTokenExpired (c_expired c) (pt_Timestamp existing)) then Some token else None), s)
  end.

Definition tokenQuery (jid : JID) (timestamp : Time) : infoQuery :=
  mkQuery "privacy" iqSet ServerJID EmptyJID "" ""
    (VNodes [mkNode "tokens" [] (VNodes [mkNode "token"
      [("jid", VJID (ToNonAD jid)); ("t", VString (fmt_d (toUnix timestamp))); ("type", VString "trusted_contact")] VNil])]) 0 false.
Context (sendIQ : infoQuery -> option node * option iq_error).
Definition issuePrivacyToken (jid : JID) (timestamp : Time) : option node * option iq_error := sendIQ (tokenQuery jid timestamp).

Definition issuePrivacyTokenAndSave (since now cutoff : Time) (jid : JID) (senderTimestamp : Time) (s : Tokens) : Tokens :=
  let storageJID := ToNonAD jid in
  match issuePrivacyToken storageJID senderTimestamp with
  | (_, Some _) => s
  | (_, None) =>
      let s := setTCTokenSenderTS since now cutoff storageJID senderTimestamp s in
      match on_account (GetPrivacyToken d pick storageJID) s with
      | (inl _, s) | (inr None, s) => s
      | (inr (Some existing), s) =>
          if (length (default [] (pt_Token existing)) =? 0)%nat then s
          else (on_account (PutPrivacyTokens d [existing <| SenderTimestamp := senderTimestamp |>]) s).2
      end
  end.

(** ** [cstoken.go] *)

Context (hmac_sha256 : Bytes -> Bytes -> Bytes).
(** Nil is the empty list. *)
Definition generateCsToken (jid : JID) (s : Tokens) : Bytes * Tokens :=
  if negb (shouldSendCsToken jid) then ([], s)
  else
    match on_account GetNCTSalt s with
    | (inl _, s) => ([], s)
    | (inr salt, s) =>
        let salt := default [] salt in
        if (length salt =? 0)%nat then ([], s)
        else
          let '(recipient, s) :=
            if String.eqb (Server jid) HiddenUserServer then (Some (ToNonAD jid), s)
            else if String.eqb (Server jid) DefaultUserServer then
              match lid_for_pn (ToNonAD jid) s with
              | (None, s) => (None, s)
              | (Some lid, s) => (if IsEmpty lid then None else Some (ToNonAD lid), s)
              end
            else (None, s) in
          match recipient with
          | None => ([], s)
          | Some recipientLID =>
              if negb (String.eqb (Server recipientLID) HiddenUserServer) then ([], s)
              else (hmac_sha256 salt (codes (String_ recipientLID)), s)
          end
    end.
Definition storeNCTSalt (salt : Bytes) (s : Tokens) : option store_error * Tokens :=
  if (length salt =? 0)%nat then (None, s)
  else match on_account (PutNCTSalt (Some salt)) s with (inl e, s) => (Some e, s) | (inr _, s) => (None, s) end.
Definition clearNCTSalt (s : Tokens) : option store_error * Tokens :=
  match on_account DeleteNCTSalt s with (inl e, s) => (Some e, s) | (inr _, s) => (None, s) end.

(** ** Notifications *)

(** A token in a notification; missing attributes are only logged. *)
Definition token_child (child : node) : option (Bytes * Time) :=
  let ag := AttrGetter child in
  if negb (String.eqb (Tag child) "token") then None
  else
    let '(tokenType, ag) := getString "type" ag in
    if negb (String.eqb tokenType "trusted_contact") then None
    else match as_bytes (Content child) with Some token => Some (token, (UnixTime "t" ag).1) | None => None end.
Definition handlePrivacyTokenNotification (ownID : JID) (n : node) (s : Tokens) : Tokens :=
  if IsEmpty ownID then s
  else
    let tokens := GetChildByTag n ["tokens"] in
    if negb (String.eqb (Tag tokens) "tokens") then s
    else
      let '(from, ag) := getJID "from" (AttrGetter n) in
      let sender := ToNonAD from in
      let '(lid, ag) := OptionalJIDOrEmpty "sender_lid" ag in
      let senderLID := ToNonAD lid in
      let '(senderLID, s) := if IsEmpty senderLID then resolveTCTokenStorageLID sender s else (senderLID, s) in
      if negb (OK ag) then s
      else foldl (fun s token => (on_account (PutPrivacyTokens d [mkToken senderLID (Some token.1) token.2 zeroTime]) s).2) s
             (omap token_child (GetChildren tokens)).

(** What an encryption notification does outside of the tokens: with the number of
    prekeys that are left, or with the identity of a user. *)
Inductive encrypt_effect : Type := UploadPreKeysAgain | ReissueToken (jid : JID) (senderTS : Time) | IdentityChange (jid : JID) (timestamp : Time).
Definition handleEncryptNotification (now since now' cutoff : Time) (n : node) (signal : SignalDB) (s : Tokens) : list encrypt_effect * SignalDB * Tokens :=
  let from := (getJID "from" (AttrGetter n)).1 in
  if bool_decide (from = ServerJID) then
    let '(otksLeft, ag) := Int "value" (AttrGetter (GetChildByTag n ["count"])) in
    (if negb (OK ag) then [] else if otksLeft <? MinPreKeyCount then [UploadPreKeysAgain] else [], signal, s)
  else if (GetOptionalChildByTag n ["identity"]).2 then
    let signal := (DeleteAllIdentities (fold_of d) (User from) signal).2 in
    let signal := (DeleteAllSessions (fold_of d) (User from) signal).2 in
    let '(storageLID, s) := resolveTCTokenStorageLID from s in
    let '(pt, s) := on_account (GetPrivacyToken d pick storageLID) s in
    let storedSenderTS := match pt with inr (Some pt) => SenderTimestamp pt | _ => zeroTime end in
    let '(ok, s) := validateAndSetTCTokenSenderTS now since now' cutoff storageLID storedSenderTS s in
    let senderTS := getTCTokenSenderTS storageLID s in
    ((if ok && negb (IsZero senderTS) then [ReissueToken storageLID senderTS] else []) ++ [IdentityChange from (UnixTime "t" (AttrGetter n)).1], signal, s)
  else ([], signal, s).
End Tokens.

(** ** Buckets *)

(** From 1970 on, as long as the seconds are no problem. *)
Definition in_era (t : Time) : Prop := 0 <= toUnix t < 2 ^ 40.

Lemma Unix_eq k : - 2 ^ 40 <= k < 2 ^ 40 -> Unix k = (k + unixToInternal) * Second.
Proof. intros H. unfold Unix. rewrite wrap64_id; [done|]. unfold in_int64, min_int64, max_int64, unixToInternal. lia. Qed.
Lemma toUnix_Unix k : - 2 ^ 40 <= k < 2 ^ 40 -> toUnix (Unix k) = k.
Proof. intros H. rewrite Unix_eq by done. unfold toUnix. rewrite Z.div_mul; [lia|done]. Qed.
Lemma before_Unix t k : - 2 ^ 40 <= k < 2 ^ 40 -> (t <? Unix k) = (toUnix t <? k).
Proof.
  intros H. rewrite Unix_eq by done. apply eq_bool_prop_intro. rewrite !Is_true_true, !Z.ltb_lt. unfold toUnix.
  pose proof (Z.div_mod t Second ltac:(done)). pose proof (Z.mod_pos_bound t Second ltac:(done)). unfold Second, Millisecond in *. lia.
Qed.
Lemma bucket_eq t : in_era t -> bucket t = toUnix t / tcTokenBucketDuration.
Proof. intros [H _]. unfold bucket. apply Z.quot_div_nonneg; [done|reflexivity]. Qed.
Lemma bucket_bounds t : in_era t -> bucket t * tcTokenBucketDuration <= toUnix t < (bucket t + 1) * tcTokenBucketDuration.
Proof.
  intros H. rewrite bucket_eq by done. unfold tcTokenBucketDuration.
  pose proof (Z.div_mod (toUnix t) 604800 ltac:(done)). pose proof (Z.mod_pos_bound (toUnix t) 604800 ltac:(done)). lia.
Qed.
Definition cutoff_seconds (now : Time) : Z := (bucket now - 3) * tcTokenBucketDuration.
Lemma cutoff_range now : in_era now -> - 2 ^ 40 <= cutoff_seconds now < 2 ^ 40.
Proof. intros H. pose proof (bucket_bounds now H). destruct H. unfold cutoff_seconds, tcTokenBucketDuration in *. lia. Qed.
Lemma before_cutoff now t : in_era now -> (t <? currentTCTokenCutoffTimestamp now) = (toUnix t <? cutoff_seconds now).
Proof. intros H. by apply before_Unix, cutoff_range. Qed.
Lemma toUnix_cutoff now : in_era now -> toUnix (currentTCTokenCutoffTimestamp now) = cutoff_seconds now.
Proof. intros H. by apply toUnix_Unix, cutoff_range. Qed.
Lemma toUnix_mono t t' : t <= t' -> toUnix t <= toUnix t'.
Proof. intros H. unfold toUnix. enough (t / Second <= t' / Second) by lia. by apply Z.div_le_mono. Qed.
Lemma bucket_mono t t' : in_era t -> in_era t' -> t <= t' -> bucket t <= bucket t'.
Proof. intros H H' Hle. rewrite !bucket_eq by done. apply Z.div_le_mono; [done|by apply toUnix_mono]. Qed.
Lemma zero_not_in_era : ~ in_era zeroTime.
Proof. intros [H _]. by compute in H. Qed.
Lemma era_not_zero t : in_era t -> IsZero t = false.
Proof. intros H. unfold IsZero. apply Z.eqb_neq. intros ->. by apply zero_not_in_era. Qed.

(** A token counts for three weeks at least and for less than four; once it is
    expired it stays so, and one from the bucket of today or later is not expired. *)
Theorem token_window now ts :
  in_era now -> in_era ts ->
  (isTCTokenExpired now ts = false -> toUnix now - 28 * 86400 < toUnix ts) /\
  (toUnix now - 21 * 86400 <= toUnix ts -> isTCTokenExpired now ts = false) /\
  (forall later, in_era later -> now <= later -> isTCTokenExpired now ts = true -> isTCTokenExpired later ts = true) /\
  (shouldSendNewTCToken now ts = false -> isTCTokenExpired now ts = false).
Proof.
  intros Hn Ht. unfold isTCTokenExpired, shouldSendNewTCToken. rewrite (era_not_zero ts), before_cutoff by done.
  pose proof (bucket_bounds now Hn). pose proof (bucket_bounds ts Ht). unfold cutoff_seconds, tcTokenBucketDuration in *. repeat split.
  - intros Hc%Z.ltb_ge. lia.
  - intros Hc. apply Z.ltb_ge. lia.
  - intros later Hl Hle Hc%Z.ltb_lt. rewrite before_cutoff by done. apply Z.ltb_lt. pose proof (bucket_mono now later Hn Hl Hle).
    unfold cutoff_seconds, tcTokenBucketDuration. lia.
  - intros Hc%Z.ltb_ge. apply Z.ltb_ge. lia.
Qed.

(** ** The timestamps of the tokens that were issued *)

Lemma cleanup_lookup since now cutoff s jid :
  tcTokenSenderTS (unlockedCleanupTCTokenSenderTSMap since now cutoff s) !! jid = tcTokenSenderTS s !! jid \/
  exists ts, tcTokenSenderTS s !! jid = Some ts /\ ts < currentTCTokenCutoffTimestamp cutoff /\
    tcTokenSenderTS (unlockedCleanupTCTokenSenderTSMap since now cutoff s) !! jid = None.
Proof.
  unfold unlockedCleanupTCTokenSenderTSMap. destruct (_ <? _); [by left|]. cbn.
  rewrite map_lookup_filter. destruct (tcTokenSenderTS s !! jid) as [ts|] eqn:He; cbn; [|by left].
  destruct (decide (currentTCTokenCutoffTimestamp cutoff <= ts)) as [Hd|Hd]; [left; by rewrite option_guard_True|].
  right. exists ts. rewrite option_guard_False by done. repeat split. lia.
Qed.
(** A cleanup is not seen in what is due. *)
Lemma cleanup_due since now cutoff s jid later :
  in_era cutoff -> in_era later -> cutoff <= later -> (forall ts, tcTokenSenderTS s !! ToNonAD jid = Some ts -> in_era ts) ->
  shouldSendNewTCToken later (getTCTokenSenderTS jid (unlockedCleanupTCTokenSenderTSMap since now cutoff s)) =
  shouldSendNewTCToken later (getTCTokenSenderTS jid s).
Proof.
  intros Hc Hl Hle Hera. unfold getTCTokenSenderTS. destruct (cleanup_lookup since now cutoff s (ToNonAD jid)) as [->|(ts & He & Hb & Hn)]; [done|].
  rewrite He, Hn. cbn [default from_option]. specialize (Hera ts He). unfold shouldSendNewTCToken at 2. rewrite era_not_zero by done.
  cbn. symmetry. apply Z.ltb_lt. apply Z.ltb_lt in Hb. rewrite before_cutoff in Hb by done. apply Z.ltb_lt in Hb.
  pose proof (bucket_bounds ts Hera). pose proof (bucket_mono cutoff later Hc Hl Hle). unfold cutoff_seconds, tcTokenBucketDuration in *. lia.
Qed.

(** When a token was issued, the next one is due when another bucket has begun, whatever
    the cleanup of the map removes; for other users nothing changes. *)
Theorem issued_once_per_bucket since now cutoff jid ts s other later :
  in_era ts -> in_era cutoff -> in_era later -> cutoff <= later -> map_Forall (fun _ => in_era) (tcTokenSenderTS s) ->
  let s' := setTCTokenSenderTS since now cutoff jid ts s in
  shouldSendNewTCToken later (getTCTokenSenderTS jid s') = (bucket ts <? bucket later) /\
  (ToNonAD other <> ToNonAD jid ->
   shouldSendNewTCToken later (getTCTokenSenderTS other s') = shouldSendNewTCToken later (getTCTokenSenderTS other s)) /\
  map_Forall (fun _ => in_era) (tcTokenSenderTS s').
Proof.
  intros Ht Hc Hl Hle Hera. unfold setTCTokenSenderTS. set (s1 := s <| tcTokenSenderTS := _ |>).
  assert (map_Forall (fun _ => in_era) (tcTokenSenderTS s1)) as Hera' by by apply map_Forall_insert_2.
  cbn zeta. rewrite !cleanup_due by (done || by apply Hera'). split; [|split].
  - unfold getTCTokenSenderTS. cbn [tcTokenSenderTS s1]. unfold s1. cbn. rewrite lookup_insert_eq. cbn.
    unfold shouldSendNewTCToken. by rewrite era_not_zero.
  - intros Hne. unfold getTCTokenSenderTS, s1. cbn. by rewrite lookup_insert_ne.
  - intros k t Hk. destruct (cleanup_lookup since now cutoff s1 k) as [He|(? & _ & _ & He)]; rewrite He in Hk; [|done]. by eapply Hera'.
Qed.

(** ** Pruning *)

Section Pruning.
Context (d : Dialect) (pick : forall A, list A -> option A) (Hpick : picks pick).

Definition kept_from (cut : Z) (db : AccountDB) : AccountDB :=
  db <| privacy_tokens := filter (fun r => cut <= tk_timestamp r.2) (privacy_tokens db) |>.
Lemma prune_account p s : ac_faults (account s) = [] -> in_era p -> account (prune p s) = kept_from (cutoff_seconds p) (account s).
Proof.
  intros Hf Hp. unfold prune, on_account, DeleteExpiredPrivacyTokens, statement. destruct s as [a m ts c pr b]. cbn in *. rewrite Hf. cbn.
  by rewrite toUnix_cutoff.
Qed.
Lemma token_rows_kept cut user db r : r ∈ token_rows d user (kept_from cut db) <-> r ∈ token_rows d user db /\ cut <= tk_timestamp r.2.
Proof.
  destruct r as [k r]. unfold token_rows. rewrite !list_elem_of_filter, !elem_of_map_to_list. unfold kept_from. cbn.
  rewrite map_lookup_filter_Some. cbn. tauto.
Qed.
Lemma newest_elem rows r : r ∈ newest rows <-> r ∈ rows /\ forall r', r' ∈ rows -> tk_timestamp r'.2 <= tk_timestamp r.2.
Proof. unfold newest. rewrite list_elem_of_filter, Forall_forall. tauto. Qed.
Lemma newest_exists rows : rows <> [] -> exists r, r ∈ newest rows.
Proof.
  induction rows as [|r rows IH]; [done|]. intros _. destruct rows as [|r2 rows'].
  - exists r. apply newest_elem. split; [by left|]. by intros r' ->%list_elem_of_singleton.
  - destruct IH as [m [Hm Hmax]%newest_elem]; [done|]. destruct (decide (tk_timestamp r.2 <= tk_timestamp m.2)) as [Hle|Hgt].
    + exists m. apply newest_elem. split; [by right|]. intros r' [->|Hr]%elem_of_cons; [done|by apply Hmax].
    + exists r. apply newest_elem. split; [by left|]. intros r' [->|Hr]%elem_of_cons; [done|]. specialize (Hmax _ Hr). lia.
Qed.
Lemma pick_nil : pick (string * TokenRow) [] = None.
Proof. pose proof (Hpick _ ([] : list (string * TokenRow))) as H. destruct (pick _ []) as [y|]; [|done]. by apply not_elem_of_nil in H. Qed.
(** The newest row is the one that is picked, before and after. *)
Lemma pick_kept cut user db :
  (forall r r', r ∈ token_rows d user db -> r' ∈ token_rows d user db -> tk_timestamp r.2 = tk_timestamp r'.2 -> r = r') ->
  pick _ (newest (token_rows d user (kept_from cut db))) =
  match pick _ (newest (token_rows d user db)) with
  | Some r => if decide (cut <= tk_timestamp r.2) then Some r else None
  | None => None
  end.
Proof.
  intros Hone. pose proof (Hpick _ (newest (token_rows d user db))) as Hp.
  destruct (pick _ (newest (token_rows d user db))) as [r|] eqn:He.
  - apply newest_elem in Hp as [Hr Hmax]. destruct (decide _) as [Hc|Hc].
    + apply (pick_unique pick _ r Hpick). intros y. rewrite newest_elem, token_rows_kept. split.
      * intros [[Hy _] Hy']. specialize (Hy' r ltac:(by apply token_rows_kept)). specialize (Hmax y Hy). apply Hone; [done..|lia].
      * intros ->. split; [done|]. intros r' [Hr' _]%token_rows_kept. by apply Hmax.
    + destruct (token_rows d user (kept_from cut db)) as [|x l] eqn:Hk.
      { by apply pick_nil. }
      assert (x ∈ token_rows d user (kept_from cut db)) as [Hx Hx']%token_rows_kept by (rewrite Hk; by left). specialize (Hmax x Hx). lia.
  - destruct (token_rows d user (kept_from cut db)) as [|x l] eqn:Hk.
    { by apply pick_nil. }
    assert (x ∈ token_rows d user (kept_from cut db)) as [Hx _]%token_rows_kept by (rewrite Hk; by left).
    destruct (newest_exists (token_rows d user db)) as [y Hy]; [intros Hn; rewrite Hn in Hx; by apply not_elem_of_nil in Hx|].
    rewrite Hp in Hy. by apply not_elem_of_nil in Hy.
Qed.

Lemma prune_rest p s :
  lids (prune p s) = lids s /\ tcTokenSenderTS (prune p s) = tcTokenSenderTS s.
Proof. unfold prune, on_account. destruct (DeleteExpiredPrivacyTokens _ _). by destruct s. Qed.
Lemma resolve_lids jid s s' : lids s = lids s' ->
  (resolveTCTokenStorageLID jid s).1 = (resolveTCTokenStorageLID jid s').1.
Proof.
  intros H. unfold resolveTCTokenStorageLID, lid_for_pn. destruct (negb _); [done|]. rewrite H.
  by destruct (GetLIDForPN _ _) as [[[|] ?] ?].
Qed.
Lemma resolve_account jid s : account (resolveTCTokenStorageLID jid s).2 = account s.
Proof.
  unfold resolveTCTokenStorageLID, lid_for_pn. destruct (negb _); [done|]. by destruct (GetLIDForPN _ _) as [[[|] ?] ?]; destruct s.
Qed.

(** The token as the database has it. *)
Definition token_of (c : clock) (row : option (string * TokenRow)) : option Bytes :=
  match row with
  | Some r => if (0 <? length (tk_token r.2))%nat && negb (isTCTokenExpired (c_expired c) (Unix (tk_timestamp r.2))) then Some (tk_token r.2) else None
  | None => None
  end.
Lemma ensure_eq c jid s : ac_faults (account s) = [] ->
  (ensureTCToken d pick c jid s).1 = Some (token_of c (pick _ (newest (token_rows d (ToNonAD (resolveTCTokenStorageLID jid s).1) (account s))))).
Proof.
  intros Hf. unfold ensureTCToken. set (s0 := deleteExpiredPrivacyTokens _ _ s).
  assert (account s0 = account s /\ lids s0 = lids s) as [Ha Hl].
  { unfold s0, deleteExpiredPrivacyTokens. destruct (pruning s); [done|]. destruct (_ <? _); by destruct s. }
  rewrite <- (resolve_lids jid s0 s Hl), <- Ha, <- (resolve_account jid s0).
  assert (ac_faults (account (resolveTCTokenStorageLID jid s0).2) = []) as Hf' by by rewrite resolve_account, Ha.
  destruct (resolveTCTokenStorageLID jid s0) as [storage s1]. cbn [fst snd] in *. unfold on_account, GetPrivacyToken, mbind, Stmt_bind.
  rewrite select_ok by done. cbn. destruct (pick _ _) as [[k r]|]; cbn; [|done]. by destruct (validateAndSetTCTokenSenderTS _ _ _ _ _ _).
Qed.
End Pruning.

(** A pruning of the table is not seen in the tokens that are sent, when it does not run
    ahead of the clock and no two rows of the user are of the same second. *)
Theorem pruning_not_seen d pick p c jid s :
  picks pick -> ac_faults (account s) = [] -> in_era p -> in_era (c_expired c) -> p <= c_expired c ->
  let rows := token_rows d (ToNonAD (resolveTCTokenStorageLID jid s).1) (account s) in
  (forall r r', r ∈ rows -> r' ∈ rows -> tk_timestamp r.2 = tk_timestamp r'.2 -> r = r') ->
  (forall r, r ∈ rows -> 0 <= tk_timestamp r.2 < 2 ^ 40) ->
  (ensureTCToken d pick c jid (prune p s)).1 = (ensureTCToken d pick c jid s).1 /\
  (forall k r, privacy_tokens (account (prune p s)) !! k = Some r -> toUnix p - 28 * 86400 < tk_timestamp r).
Proof.
  intros Hpick Hf Hp Hc Hle rows Hone Hera. pose proof (prune_account p s Hf Hp) as Ha. split.
  - rewrite !(ensure_eq d pick c) by (done || by rewrite Ha).
    rewrite (resolve_lids jid (prune p s) s) by apply prune_rest. rewrite Ha, (pick_kept d pick Hpick) by done.
    fold rows. pose proof (Hpick _ (newest rows)) as Hin. destruct (pick _ (newest rows)) as [r|]; [|done].
    apply newest_elem in Hin as [Hr _]. destruct (decide _) as [|Hlt]; [done|]. f_equal. symmetry. cbn. specialize (Hera r Hr).
    replace (isTCTokenExpired _ _) with true; [by rewrite andb_false_r|]. symmetry. unfold isTCTokenExpired. rewrite before_cutoff by done.
    rewrite toUnix_Unix by lia. destruct (IsZero _); [done|]. apply Z.ltb_lt.
    pose proof (bucket_mono p (c_expired c) Hp Hc Hle). unfold cutoff_seconds, tcTokenBucketDuration in *. lia.
  - intros k r. rewrite Ha. unfold kept_from. cbn. rewrite map_lookup_filter_Some. cbn. intros [_ Hk].
    pose proof (bucket_bounds p Hp). unfold cutoff_seconds, tcTokenBucketDuration in *. lia.
Qed.

(** ** The theorems at work *)

Definition demo_now : Time := Unix 1700000000.
Definition demo_later : Time := demo_now + 604800 * Second.
Definition demo_clock : clock := mkClock demo_later demo_later demo_later demo_later demo_later demo_later demo_later.
Definition demo_tokens : Tokens :=
  mkTokens (mkAccountDB ∅ ∅ {["77@lid" := mkTokenRow [7] 1600000000 None]} None [("77", "4915123")] [])
    (NewCachedLIDMap [("77", "4915123")] []) {[NewJID "78" HiddenUserServer := Unix 1600000000]} zeroTime zeroTime false.
Lemma demo_era : in_era demo_now /\ in_era demo_later.
Proof. by split. Qed.
Lemma demo_tokens_era : map_Forall (fun _ => in_era) (tcTokenSenderTS demo_tokens).
Proof. refine (proj2 (map_Forall_singleton (fun _ => in_era) (NewJID "78" HiddenUserServer) (Unix 1600000000)) _). by split. Qed.

Lemma token_window_witness : isTCTokenExpired demo_later demo_now = false /\ shouldSendNewTCToken demo_later demo_now = true.
Proof. split; [|done]. exact (proj1 (proj2 (token_window demo_later demo_now (proj2 demo_era) (proj1 demo_era))) ltac:(done)). Defined.
Lemma issued_once_per_bucket_witness :
  let s' := setTCTokenSenderTS demo_now demo_now demo_now (mkJID "77" 0 3 0 HiddenUserServer) demo_now demo_tokens in
  shouldSendNewTCToken demo_later (getTCTokenSenderTS (NewJID "77" HiddenUserServer) s') = (bucket demo_now <? bucket demo_later) /\
  tcTokenSenderTS s' !! NewJID "78" HiddenUserServer = None.
Proof.
  split; [|by vm_compute].
  exact (proj1 (issued_once_per_bucket demo_now demo_now demo_now (mkJID "77" 0 3 0 HiddenUserServer) demo_now demo_tokens (NewJID "77" HiddenUserServer) demo_later
    (proj1 demo_era) (proj1 demo_era) (proj2 demo_era) ltac:(by vm_compute) demo_tokens_era)).
Defined.
Lemma pruning_not_seen_witness :
  (ensureTCToken SQLite first_row demo_clock (NewJID "4915123" DefaultUserServer) (prune demo_now demo_tokens)).1 = Some None /\
  privacy_tokens (account (prune demo_now demo_tokens)) = ∅.
Proof.
  split; [|by vm_compute].
  assert (token_rows SQLite (ToNonAD (resolveTCTokenStorageLID (NewJID "4915123" DefaultUserServer) demo_tokens).1) (account demo_tokens) =
    [("77@lid", mkTokenRow [7] 1600000000 None)]) as Hrows by by vm_compute.
  pose proof (pruning_not_seen SQLite first_row demo_now demo_clock (NewJID "4915123" DefaultUserServer) demo_tokens first_row_picks eq_refl
    (proj1 demo_era) (proj2 demo_era) ltac:(by vm_compute)) as H.
  cbn zeta in H. rewrite Hrows in H. etrans; [apply H|by vm_compute]; [intros r r' Hr Hr' _|intros r Hr].
  - rewrite list_elem_of_singleton in Hr. rewrite list_elem_of_singleton in Hr'. by subst.
  - apply list_elem_of_singleton in Hr as ->. clear. by split.
Defined.
