(* ===== verification/MessageKinds.v ===== *)
(** * [whatsmeow/send.go]: the kinds of messages, their keys and builders

    What the client looks at in a [waE2E.Message].  The contents that it hands on
    unread are bytes; a scalar with a getter is what the getter returns.  A message
    in a wrapper is a pointer that may be nil, and a read through nil panics. *)
From S2P Require Import Prelude GoStrings GoTime Jid BinaryNode BinaryCodec MessageSource MsgSecret Retry DeviceStore.

Definition Opaque : Type := Bytes.

(** [waE2E.ProtocolMessage]; the types are numbers. *)
Definition ProtocolMessage_REVOKE : Z := 0.
Definition ProtocolMessage_EPHEMERAL_SETTING : Z := 3.
Definition ProtocolMessage_APP_STATE_SYNC_KEY_REQUEST : Z := 7.
Definition ProtocolMessage_MESSAGE_EDIT : Z := 14.
Definition ProtocolMessage_PEER_DATA_OPERATION_REQUEST_MESSAGE : Z := 16.
Definition HISTORY_SYNC_ON_DEMAND : Z := 3.
Definition PLACEHOLDER_MESSAGE_RESEND : Z := 4.
Definition UNDO_KEEP_FOR_ALL : Z := 2.

Record HistorySyncOnDemandRequest : Type := mkHistoryRequest {
  ChatJID : string; OldestMsgID : string; OldestMsgFromMe : bool; OnDemandMsgCount : Z; OldestMsgTimestampMS : Z }.
Record PeerDataRequest : Type := mkPeerData {
  PeerDataOperationRequestType : Z; PlaceholderMessageResendRequest : list MessageKey; HistorySync : option HistorySyncOnDemandRequest }.
Record ProtocolMessage {M : Type} : Type := mkProtocol {
  pm_Type : Z; pm_Key : option MessageKey; pm_EditedMessage : option M; pm_PeerData : option PeerDataRequest;
  pm_TimestampMS : Z; pm_Expiration : Z; pm_SettingTimestamp : Z }.
Arguments ProtocolMessage : clear implicits.
Arguments mkProtocol {M}.
Record ReactionMessage : Type := mkReaction { rx_Key : option MessageKey; rx_Text : string; rx_TimestampMS : Z }.
Record ContextInfo : Type := mkContextInfo { MessageSecret : option Bytes; BotMetadata : option Opaque; BotMessageSecret : option Bytes }.
#[export] Instance eta_ContextInfo : Eta ContextInfo := fun r => mkContextInfo (MessageSecret r) (BotMetadata r) (BotMessageSecret r).

(** The fields of [waE2E.Message] other than those that [Retry.Message] has; a
    [waE2E.FutureProofMessage] is the pointer in it. *)
Inductive Body : Type := mkBody {
  ViewOnceMessage : option (option (@Message Body));
  ViewOnceMessageV2 : option (option (@Message Body));
  ViewOnceMessageV2Extension : option (option (@Message Body));
  LottieStickerMessage : option (option (@Message Body));
  EphemeralMessage : option (option (@Message Body));
  DocumentWithCaptionMessage : option (option (@Message Body));
  EditedMessage : option (option (@Message Body));
  BotInvokeMessage : option (option (@Message Body));
  Protocol : option (ProtocolMessage (@Message Body));
  Reaction : option ReactionMessage;
  KeepInChatMessage : option (option MessageKey * Z);
  MessageContextInfo : option ContextInfo;
  Conversation : option string;
  ExtendedTextMessage : option (option string * Opaque);
  AudioMessage : option (bool * Opaque);
  VideoMessage : option (bool * Opaque);
  ListMessage : option (Z * Opaque);
  EncReactionMessage : option Opaque; EncEventResponseMessage : option Opaque;
  PollCreationMessage : option Opaque; PollUpdateMessage : option Opaque; PinInChatMessage : option Opaque;
  ImageMessage : option Opaque; StickerMessage : option Opaque; DocumentMessage : option Opaque;
  ContactMessage : option Opaque; ContactsArrayMessage : option Opaque; ListResponseMessage : option Opaque;
  ButtonsMessage : option Opaque; ButtonsResponseMessage : option Opaque; OrderMessage : option Opaque;
  ProductMessage : option Opaque; InteractiveResponseMessage : option Opaque; TemplateMessage : option Opaque;
  OtherFields : Opaque }.
#[export] Instance eta_Body : Eta Body := fun r =>
  mkBody (ViewOnceMessage r) (ViewOnceMessageV2 r) (ViewOnceMessageV2Extension r) (LottieStickerMessage r) (EphemeralMessage r)
    (DocumentWithCaptionMessage r) (EditedMessage r) (BotInvokeMessage r) (Protocol r) (Reaction r) (KeepInChatMessage r) (MessageContextInfo r)
    (Conversation r) (ExtendedTextMessage r) (AudioMessage r) (VideoMessage r) (ListMessage r) (EncReactionMessage r) (EncEventResponseMessage r)
    (PollCreationMessage r) (PollUpdateMessage r) (PinInChatMessage r) (ImageMessage r) (StickerMessage r) (DocumentMessage r)
    (ContactMessage r) (ContactsArrayMessage r) (ListResponseMessage r) (ButtonsMessage r) (ButtonsResponseMessage r) (OrderMessage r)
    (ProductMessage r) (InteractiveResponseMessage r) (TemplateMessage r) (OtherFields r).
Definition noBody : Body :=
  mkBody None None None None None None None None None None None None None None None None None None None None None None None None None None None
    None None None None None None None [].
Definition WaMessage : Type := @Message Body.
Definition body_of (m : WaMessage) : Body := match m with mkMessage _ _ b => b end.
Definition of_body (b : Body) : WaMessage := mkMessage None None b.
Definition present {A} (o : option A) : bool := match o with Some _ => true | None => false end.

(** ** What a message is announced as *)

Notation "'inside' w 'with' f 'else' e" := (match w with Some (Some (mkMessage _ _ b)) => f b | Some None => Panic nil_dereference | None => e end)
  (at level 200, f at level 10, right associativity).

Fixpoint getMediaTypeFromMessage (msg : Body) : outcome string :=
  inside ViewOnceMessage msg with getMediaTypeFromMessage else
  inside ViewOnceMessageV2 msg with getMediaTypeFromMessage else
  inside ViewOnceMessageV2Extension msg with getMediaTypeFromMessage else
  inside LottieStickerMessage msg with getMediaTypeFromMessage else
  inside EphemeralMessage msg with getMediaTypeFromMessage else
  inside DocumentWithCaptionMessage msg with getMediaTypeFromMessage else
  Ret (
  if match ExtendedTextMessage msg with Some (title, _) => present title | None => false end then "url"
  else if present (ImageMessage msg) then "image"
  else if present (StickerMessage msg) then "sticker"
  else if present (DocumentMessage msg) then "document"
  else match AudioMessage msg with Some (ptt, _) => if ptt : bool then "ptt" else "audio" | None =>
  match VideoMessage msg with Some (gif, _) => if gif : bool then "gif" else "video" | None =>
  if present (ContactMessage msg) then "vcard"
  else if present (ContactsArrayMessage msg) then "contact_array"
  else if present (ListMessage msg) then "list"
  else if present (ListResponseMessage msg) then "list_response"
  else if present (ButtonsResponseMessage msg) then "buttons_response"
  else if present (OrderMessage msg) then "order"
  else if present (ProductMessage msg) then "product"
  else if present (InteractiveResponseMessage msg) then "native_flow_response"
  else "" end end).

Fixpoint getTypeFromMessage (msg : Body) : outcome string :=
  inside ViewOnceMessage msg with getTypeFromMessage else
  inside ViewOnceMessageV2 msg with getTypeFromMessage else
  inside ViewOnceMessageV2Extension msg with getTypeFromMessage else
  inside LottieStickerMessage msg with getTypeFromMessage else
  inside EphemeralMessage msg with getTypeFromMessage else
  inside DocumentWithCaptionMessage msg with getTypeFromMessage else
  if present (Reaction msg) || present (EncReactionMessage msg) then Ret "reaction"
  else if present (PollCreationMessage msg) || present (PollUpdateMessage msg) then Ret "poll"
  else mediaType ← getMediaTypeFromMessage msg; Ret (if negb (String.eqb mediaType "") then "media" else "text").

Fixpoint getButtonTypeFromMessage (msg : Body) : outcome string :=
  inside ViewOnceMessage msg with getButtonTypeFromMessage else
  inside ViewOnceMessageV2 msg with getButtonTypeFromMessage else
  inside EphemeralMessage msg with getButtonTypeFromMessage else
  Ret (
  if present (ButtonsMessage msg) then "buttons"
  else if present (ButtonsResponseMessage msg) then "buttons_response"
  else if present (ListMessage msg) then "list"
  else if present (ListResponseMessage msg) then "list_response"
  else if present (InteractiveResponseMessage msg) then "interactive_response"
  else "").

(** [waE2E.ListMessage_ListType_name], in lower case; a map has an empty string for
    other keys. *)
Definition list_type_name (t : Z) : string :=
  match t with 0 => "UNKNOWN" | 1 => "SINGLE_SELECT" | 2 => "PRODUCT_LIST" | _ => "" end.
Fixpoint getButtonAttributes (msg : Body) : outcome (list (string * value)) :=
  inside ViewOnceMessage msg with getButtonAttributes else
  inside ViewOnceMessageV2 msg with getButtonAttributes else
  inside EphemeralMessage msg with getButtonAttributes else
  Ret (
  if present (TemplateMessage msg) then []
  else match ListMessage msg with
       | Some (t, _) => [("v", VString "2"); ("type", VString (to_lower (list_type_name t)))]
       | None => []
       end).

(** [types.EditAttribute] *)
Definition EditAttributeEmpty : string := "".
Definition EditAttributeMessageEdit : string := "1".
Definition EditAttributePinInChat : string := "2".
Definition EditAttributeAdminEdit : string := "3".
Definition EditAttributeSenderRevoke : string := "7".
Definition EditAttributeAdminRevoke : string := "8".
Definition RemoveReactionText : string := "".

Definition from_me (k : MessageKey) : bool := default false (FromMe k).
Fixpoint getEditAttribute (msg : Body) : string :=
  match EditedMessage msg with
  | Some (Some (mkMessage _ _ b)) => getEditAttribute b
  | _ =>
      match Protocol msg with
      | Some (mkProtocol t (Some key) edited _ _ _ _) =>
          if t =? ProtocolMessage_REVOKE then if from_me key then EditAttributeSenderRevoke else EditAttributeAdminRevoke
          else if (t =? ProtocolMessage_MESSAGE_EDIT) && present edited then EditAttributeMessageEdit
          else EditAttributeEmpty
      | _ =>
          if match Reaction msg with Some r => String.eqb (rx_Text r) RemoveReactionText | None => false end then EditAttributeSenderRevoke
          else if match KeepInChatMessage msg with Some (Some key, t) => from_me key && (t =? UNDO_KEEP_FOR_ALL) | _ => false end then EditAttributeSenderRevoke
          else if present (PinInChatMessage msg) then EditAttributePinInChat
          else EditAttributeEmpty
      end
  end.

(** ** Builders *)

Section Builders.
Context (ownID ownLID : JID).

Definition BuildMessageKey (chat sender : JID) (id : string) : MessageKey :=
  if negb (Jid.IsEmpty sender) && negb (String.eqb (User sender) (User ownID)) && negb (String.eqb (User sender) (User ownLID)) then
    mkMessageKey (Some (String_ chat)) (Some false) (Some id)
      (if negb (String.eqb (Server chat) DefaultUserServer) && negb (String.eqb (Server chat) HiddenUserServer) && negb (String.eqb (Server chat) MessengerServer)
       then Some (String_ (ToNonAD sender)) else None)
  else mkMessageKey (Some (String_ chat)) (Some true) (Some id) None.

Definition noProtocol : ProtocolMessage WaMessage := mkProtocol 0 None None None 0 0 0.
Definition with_protocol (p : ProtocolMessage WaMessage) : WaMessage := of_body (noBody <| Protocol := Some p |>).
Definition BuildRevoke (chat sender : JID) (id : string) : WaMessage :=
  with_protocol (mkProtocol ProtocolMessage_REVOKE (Some (BuildMessageKey chat sender id)) None None 0 0 0).
Definition BuildReaction (now : Time) (chat sender : JID) (id reaction : string) : WaMessage :=
  of_body (noBody <| Reaction := Some (mkReaction (Some (BuildMessageKey chat sender id)) reaction (toUnixMilli now)) |>).
Definition BuildUnavailableMessageRequest (chat sender : JID) (id : string) : WaMessage :=
  with_protocol (mkProtocol ProtocolMessage_PEER_DATA_OPERATION_REQUEST_MESSAGE None None
    (Some (mkPeerData PLACEHOLDER_MESSAGE_RESEND [BuildMessageKey chat sender id] None)) 0 0 0).
Definition int32 (z : Z) : Z := (z + 2 ^ 31) mod 2 ^ 32 - 2 ^ 31.
Definition BuildHistorySyncRequest {Certificate Details} (info : @MessageInfo Certificate Details) (count : Z) : WaMessage :=
  with_protocol (mkProtocol ProtocolMessage_PEER_DATA_OPERATION_REQUEST_MESSAGE None None
    (Some (mkPeerData HISTORY_SYNC_ON_DEMAND [] (Some (mkHistoryRequest (String_ (Chat (mi_Source info))) (mi_ID info) (IsFromMe (mi_Source info))
      (int32 count) (toUnix (mi_Timestamp info)))))) 0 0 0).
Definition EditWindow : Duration := 20 * Minute.
Definition BuildEdit (now : Time) (chat : JID) (id : string) (newContent : option WaMessage) : WaMessage :=
  of_body (noBody <| EditedMessage := Some (Some (with_protocol
    (mkProtocol ProtocolMessage_MESSAGE_EDIT (Some (mkMessageKey (Some (String_ chat)) (Some true) (Some id) None)) newContent None (toUnixMilli now) 0 0))) |>).
End Builders.

(** ** Disappearing messages *)

Definition DisappearingTimerOff : Duration := 0.
Definition DisappearingTimer24Hours : Duration := 24 * Hour.
Definition DisappearingTimer7Days : Duration := 7 * 24 * Hour.
Definition DisappearingTimer90Days : Duration := 90 * 24 * Hour.
Definition timer_names : list (Duration * list string) :=
  [(DisappearingTimerOff, ["0d"; "0h"; "0s"; "0"; "off"]);
   (DisappearingTimer24Hours, ["1day"; "day"; "1d"; "1"; "24h"; "24"; "86400s"; "86400"]);
   (DisappearingTimer7Days, ["1week"; "week"; "7d"; "7"; "168h"; "168"; "604800s"; "604800"]);
   (DisappearingTimer90Days, ["3months"; "3m"; "3mo"; "90d"; "90"; "2160h"; "2160"; "7776000s"; "7776000"])].
Definition ParseDisappearingTimerString (val : string) : Duration * bool :=
  let val := replace_all (to_lower val) " " "" in
  match find (fun t => existsb (String.eqb val) t.2) timer_names with Some t => (t.1, true) | None => (0, false) end.

(** ** Identifiers of messages *)

Definition WebMessageIDPrefix : string := "3EB0".
(** [strings.ToUpper(hex.EncodeToString(b))] *)
Definition upper_digit (d : Z) : ascii := ascii_of_N (Z.to_N (if d <? 10 then 48 + d else 55 + d)).
Fixpoint upper_hex (b : Bytes) : string :=
  match b with [] => "" | x :: b => String (upper_digit (x / 16)) (String (upper_digit (x mod 16)) (upper_hex b)) end.

Definition randomMask : Z := 2 ^ 22 - 1.
(** [random] are the four random bytes as a number. *)
Definition GenerateFacebookMessageID (now : Time) (random : Z) : Z := Z.lor (wrap64 (Z.shiftl (toUnixMilli now) 22)) (Z.land random randomMask).
Definition oldGenerateMessageID (random : Bytes) : string := WebMessageIDPrefix +:+ upper_hex random.
Definition messageIDInput (ownID : JID) (now : Time) (random : Bytes) : Bytes :=
  intBytes (toUnix now) 8 false ++ (if Jid.IsEmpty ownID then [] else codes (User ownID) ++ codes "@c.us") ++ random.
Definition GenerateMessageID (sha256 : Bytes -> Bytes) (hasMessengerConfig : bool) (ownID : JID) (now : Time) (random4 : Z) (random : Bytes) : string :=
  if hasMessengerConfig then fmt_d (GenerateFacebookMessageID now random4)
  else WebMessageIDPrefix +:+ upper_hex (take 9 (sha256 (messageIDInput ownID now random))).

(** ** The kind is that of the innermost message *)

(** Through the six wrappers that the type and the media type look into. *)
Fixpoint innermost (msg : Body) : outcome Body :=
  inside ViewOnceMessage msg with innermost else
  inside ViewOnceMessageV2 msg with innermost else
  inside ViewOnceMessageV2Extension msg with innermost else
  inside LottieStickerMessage msg with innermost else
  inside EphemeralMessage msg with innermost else
  inside DocumentWithCaptionMessage msg with innermost else Ret msg.
Definition bare (msg : Body) : bool :=
  negb (present (ViewOnceMessage msg) || present (ViewOnceMessageV2 msg) || present (ViewOnceMessageV2Extension msg) ||
        present (LottieStickerMessage msg) || present (EphemeralMessage msg) || present (DocumentWithCaptionMessage msg)).

Section Unwrapping.
Context {A : Type} (f : Body -> outcome A) (g : Body -> outcome A).
Context (Hf : forall msg, f msg =
  inside ViewOnceMessage msg with f else
  inside ViewOnceMessageV2 msg with f else
  inside ViewOnceMessageV2Extension msg with f else
  inside LottieStickerMessage msg with f else
  inside EphemeralMessage msg with f else
  inside DocumentWithCaptionMessage msg with f else g msg).
Lemma unwrap_innermost : forall msg, f msg = (b ← innermost msg; g b).
Proof.
  fix IH 1. intros msg. rewrite Hf. destruct msg. cbn [innermost ViewOnceMessage ViewOnceMessageV2 ViewOnceMessageV2Extension LottieStickerMessage
    EphemeralMessage DocumentWithCaptionMessage].
  repeat match goal with |- context [match ?w with Some _ => _ | None => _ end] => is_var w; destruct w as [[[? ? b]|]|]; [exact (IH b)|reflexivity|] end.
  reflexivity.
Qed.
End Unwrapping.
Lemma innermost_bare : forall msg b, innermost msg = Ret b -> bare b = true.
Proof.
  fix IH 1. intros msg b. destruct msg. cbn [innermost ViewOnceMessage ViewOnceMessageV2 ViewOnceMessageV2Extension LottieStickerMessage
    EphemeralMessage DocumentWithCaptionMessage].
  repeat match goal with |- context [match ?w with Some _ => _ | None => _ end] => is_var w; destruct w as [[[? ? c]|]|]; [exact (IH c b)|discriminate|] end.
  by intros [= <-].
Qed.
Definition strip (msg : Body) : Body :=
  msg <| ViewOnceMessage := None |> <| ViewOnceMessageV2 := None |> <| ViewOnceMessageV2Extension := None |> <| LottieStickerMessage := None |>
    <| EphemeralMessage := None |> <| DocumentWithCaptionMessage := None |>.
Lemma strip_bare b : bare b = true -> strip b = b.
Proof.
  destruct b. unfold bare. cbn. rewrite negb_true_iff, !orb_false_iff.
  intros (((((H1 & H2) & H3) & H4) & H5) & H6).
  repeat match goal with H : present ?w = false |- _ => destruct w; [discriminate|clear H] end. reflexivity.
Qed.
Lemma by_innermost {A} (f : Body -> outcome A) msg :
  (forall msg, f msg =
    inside ViewOnceMessage msg with f else
    inside ViewOnceMessageV2 msg with f else
    inside ViewOnceMessageV2Extension msg with f else
    inside LottieStickerMessage msg with f else
    inside EphemeralMessage msg with f else
    inside DocumentWithCaptionMessage msg with f else f (strip msg)) ->
  f msg = (b ← innermost msg; f b).
Proof.
  intros Hf. rewrite (unwrap_innermost f (fun b => f (strip b)) Hf). destruct (innermost msg) as [b|] eqn:Hb; [|done].
  cbn. by rewrite strip_bare by by eapply innermost_bare.
Qed.
Lemma media_innermost msg : getMediaTypeFromMessage msg = (b ← innermost msg; getMediaTypeFromMessage b).
Proof. apply by_innermost. intros []. reflexivity. Qed.
Lemma type_innermost msg : getTypeFromMessage msg = (b ← innermost msg; getTypeFromMessage b).
Proof.
  apply by_innermost. intros [[[[]|]|] [[[]|]|] [[[]|]|] [[[]|]|] [[[]|]|] [[[]|]|]]; reflexivity.
Qed.
Lemma media_bare b : bare b = true -> exists m, getMediaTypeFromMessage b = Ret m.
Proof.
  destruct b. unfold bare. cbn. rewrite negb_true_iff, !orb_false_iff.
  intros (((((H1 & H2) & H3) & H4) & H5) & H6).
  repeat match goal with H : present ?w = false |- _ => destruct w; [discriminate|clear H] end. eauto.
Qed.
Lemma type_bare b : bare b = true -> exists m, getMediaTypeFromMessage b = Ret m /\
  getTypeFromMessage b = Ret (if present (Reaction b) || present (EncReactionMessage b) then "reaction"
    else if present (PollCreationMessage b) || present (PollUpdateMessage b) then "poll"
    else if negb (String.eqb m "") then "media" else "text").
Proof.
  intros Hb. destruct (media_bare b Hb) as [m Hm]. exists m. split; [done|].
  transitivity (if present (Reaction b) || present (EncReactionMessage b) then Ret "reaction"
    else if present (PollCreationMessage b) || present (PollUpdateMessage b) then Ret "poll"
    else mediaType ← getMediaTypeFromMessage b; Ret (if negb (String.eqb mediaType "") then "media" else "text")).
  - destruct b. unfold bare in Hb. cbn in Hb. rewrite negb_true_iff, !orb_false_iff in Hb.
    destruct Hb as (((((H1 & H2) & H3) & H4) & H5) & H6). clear Hm.
    repeat match goal with H : present ?w = false |- _ => destruct w; [discriminate|clear H] end. reflexivity.
  - rewrite Hm. by repeat destruct (_ || _).
Qed.

(** The type of a message and its media type are those of the innermost message, in
    whatever order the wrappers are nested, and panic when there is none; a message is of type
    media exactly when it has a media type and is neither a reaction nor a poll. *)
Theorem kind_of_innermost msg :
  match innermost msg with
  | Panic e => getTypeFromMessage msg = Panic e /\ getMediaTypeFromMessage msg = Panic e
  | Ret b => exists m, getMediaTypeFromMessage msg = Ret m /\
      getTypeFromMessage msg = Ret (if present (Reaction b) || present (EncReactionMessage b) then "reaction"
        else if present (PollCreationMessage b) || present (PollUpdateMessage b) then "poll"
        else if negb (String.eqb m "") then "media" else "text")
  end.
Proof.
  rewrite type_innermost, media_innermost. destruct (innermost msg) as [b|e] eqn:Hb; [|done]. apply type_bare. by eapply innermost_bare.
Qed.

(** ** Keys *)

(** Whether a key is one for the client's own message. *)
Definition is_own (ownID ownLID sender : JID) : bool :=
  Jid.IsEmpty sender || String.eqb (User sender) (User ownID) || String.eqb (User sender) (User ownLID).
Definition is_dm (chat : JID) : bool := String.eqb (Server chat) DefaultUserServer || String.eqb (Server chat) HiddenUserServer.

(** Who wrote a message is found in the key that names it: the client, the other side of a
    direct chat, or the member of a group without its device. *)
Theorem key_names_sender ownID ownLID chat sender id :
  String.eqb (Server chat) MessengerServer = false ->
  printable chat = true -> printable (ToNonAD sender) = true -> is_own ownID ownLID sender || is_dm sender = true ->
  getOrigSenderFromKey chat ownID (BuildMessageKey ownID ownLID chat sender id) =
  inr (if is_own ownID ownLID sender then ownID else if is_dm chat then chat else ToNonAD sender).
Proof.
  intros Hm Hc Hs Hsrv. unfold getOrigSenderFromKey, BuildMessageKey, is_own, is_dm in *. rewrite Hm.
  destruct (Jid.IsEmpty sender), (String.eqb (User sender) (User ownID)), (String.eqb (User sender) (User ownLID)); try reflexivity.
  destruct (String.eqb (Server chat) DefaultUserServer), (String.eqb (Server chat) HiddenUserServer); cbn -[ParseJID ToNonAD String_];
    rewrite JID_print_parse by done; try reflexivity.
  change (Server (ToNonAD sender)) with (Server sender). cbn [orb] in Hsrv. rewrite <- negb_orb, Hsrv. reflexivity.
Qed.
Lemma key_names_sender_witness :
  getOrigSenderFromKey (NewJID "123-4" GroupServer) (mkJID "49" 0 2 0 DefaultUserServer)
    (BuildMessageKey (mkJID "49" 0 2 0 DefaultUserServer) (NewJID "77" HiddenUserServer) (NewJID "123-4" GroupServer) (mkJID "88" 0 5 0 HiddenUserServer) "3EB0")
  = inr (NewJID "88" HiddenUserServer).
Proof.
  exact (key_names_sender (mkJID "49" 0 2 0 DefaultUserServer) (NewJID "77" HiddenUserServer) (NewJID "123-4" GroupServer)
    (mkJID "88" 0 5 0 HiddenUserServer) "3EB0" eq_refl eq_refl eq_refl eq_refl).
Defined.

(** What the builders build is announced as it should be: a revocation by the author or by an
    admin, a reaction or its removal, an edit. *)
Theorem builders_announced ownID ownLID now chat sender id :
  getEditAttribute (body_of (BuildRevoke ownID ownLID chat sender id)) =
    (if is_own ownID ownLID sender then EditAttributeSenderRevoke else EditAttributeAdminRevoke) /\
  (forall reaction, getTypeFromMessage (body_of (BuildReaction ownID ownLID now chat sender id reaction)) = Ret "reaction" /\
    getEditAttribute (body_of (BuildReaction ownID ownLID now chat sender id reaction)) =
      if String.eqb reaction "" then EditAttributeSenderRevoke else EditAttributeEmpty) /\
  (forall content, getTypeFromMessage (body_of (BuildEdit now chat id content)) = Ret "text" /\
    getEditAttribute (body_of (BuildEdit now chat id content)) = if present content then EditAttributeMessageEdit else EditAttributeEmpty).
Proof.
  split; [|split; [done|by intros []]]. unfold BuildRevoke, BuildMessageKey, is_own, with_protocol, of_body. cbn -[Jid.IsEmpty].
  by destruct (Jid.IsEmpty sender), (String.eqb (User sender) (User ownID)), (String.eqb (User sender) (User ownLID)).
Qed.

(** ** Identifiers *)

Fixpoint all_chars (p : ascii -> bool) (s : string) : bool := match s with "" => true | String c s => p c && all_chars p s end.
Lemma upper_digit_hex d : 0 <= d < 16 -> hexChar (Z.of_N (N_of_ascii (upper_digit d))) = true.
Proof.
  intros Hd. assert (d ∈ seqZ 0 16) as Hin by (apply elem_of_seqZ; lia).
  assert (Forall (fun d => hexChar (Z.of_N (N_of_ascii (upper_digit d))) = true) (seqZ 0 16)) as Hall by (vm_compute; repeat constructor).
  by eapply Forall_forall in Hall.
Qed.
Lemma upper_hex_chars b : Forall (fun x => 0 <= x < 256) b ->
  String.length (upper_hex b) = (2 * length b)%nat /\ all_chars (fun c => hexChar (Z.of_N (N_of_ascii c))) (upper_hex b) = true.
Proof.
  induction 1 as [|x b Hx Hb [IH1 IH2]]; [done|]. cbn [upper_hex String.length length all_chars]. rewrite IH1, IH2.
  rewrite !upper_digit_hex; [split; [lia|done]|by apply Z.mod_pos_bound|].
  split; [apply Z.div_pos; lia|]. apply Z.div_lt_upper_bound; lia.
Qed.

Lemma or_mask a r : Z.lor (Z.shiftl a 22) (Z.land r randomMask) = a * 2 ^ 22 + r mod 2 ^ 22.
Proof.
  change randomMask with (Z.ones 22). rewrite (Z.land_ones r 22) by done. apply lor_shiftl_add; [done|]. by apply Z.mod_pos_bound.
Qed.
(** Until September 2039 the number that identifies a message is positive and its first bits
    are the millisecond, so that it grows with time; then it turns negative. *)
Theorem facebook_id_bounds now random :
  (0 <= toUnixMilli now < 2 ^ 41 -> 0 <= GenerateFacebookMessageID now random < 2 ^ 63 /\
    Z.shiftr (GenerateFacebookMessageID now random) 22 = toUnixMilli now) /\
  (2 ^ 41 <= toUnixMilli now < 2 ^ 42 -> GenerateFacebookMessageID now random < 0).
Proof.
  unfold GenerateFacebookMessageID. set (ms := toUnixMilli now). pose proof (Z.mod_pos_bound random (2 ^ 22) ltac:(done)) as Hr. split; intros Hms.
  - rewrite wrap64_id by (rewrite Z.shiftl_mul_pow2 by done; unfold in_int64, min_int64, max_int64; lia).
    rewrite or_mask, Z.shiftr_div_pow2 by done. split; [lia|]. rewrite Z.div_add_l, (Z.div_small (random mod _)) by done. lia.
  - replace (wrap64 (Z.shiftl ms 22)) with (Z.shiftl (ms - 2 ^ 42) 22).
    + rewrite or_mask. lia.
    + rewrite !Z.shiftl_mul_pow2 by done. unfold wrap64. rewrite (Z.mod_eq _ (2 ^ 64)) by done.
      rewrite <- (Z.div_unique_pos (ms * 2 ^ 22 + 2 ^ 63) (2 ^ 64) 1 (ms * 2 ^ 22 + 2 ^ 63 - 2 ^ 64)) by lia. lia.
Qed.
Lemma facebook_id_bounds_witness : 0 <= GenerateFacebookMessageID (UnixMilli 1700000000000) (-1) < 2 ^ 63.
Proof. apply (facebook_id_bounds (UnixMilli 1700000000000) (-1)). by split. Defined.

(** An identifier has the prefix and eighteen digits, which the binary codec packs. *)
Theorem message_id_packs sha256 ownID now random4 random :
  (forall x, length (sha256 x) = 32%nat) -> (forall x, Forall (fun b => 0 <= b < 256) (sha256 x)) ->
  let id := GenerateMessageID sha256 false ownID now random4 random in
  String.length id = 22%nat /\ validateHex id = true /\ exists digits, id = WebMessageIDPrefix +:+ digits.
Proof.
  intros Hlen Hbyte id. unfold id, GenerateMessageID. set (h := take 9 _).
  assert (length h = 9%nat) as Hl by (unfold h; rewrite length_take, Hlen; done).
  destruct (upper_hex_chars h) as [Hu Hc]; [by apply Forall_take|].
  assert (String.length (WebMessageIDPrefix +:+ upper_hex h) = 22%nat) as Hn by (rewrite length_append, Hu, Hl; done).
  split; [done|]. split; [|by eexists]. unfold validateHex.
  assert (len (WebMessageIDPrefix +:+ upper_hex h) = 22) as -> by (unfold len; by rewrite Hn).
  change (codes (WebMessageIDPrefix +:+ upper_hex h)) with (codes WebMessageIDPrefix ++ codes (upper_hex h)).
  rewrite forallb_app. apply andb_true_iff. split; [done|].
  clear -Hc. induction (upper_hex h) as [|c s IH]; [done|]. cbn [all_chars] in Hc. apply andb_true_iff in Hc as [H1 H2].
  change (codes (String c s)) with (Z.of_N (N_of_ascii c) :: codes s). cbn [forallb]. by rewrite H1, IH.
Qed.
Lemma message_id_packs_witness :
  validateHex (GenerateMessageID (fun x => replicate 32 (Z.of_nat (length x) mod 256)) false EmptyJID (Unix 5) 0 [1; 2]) = true.
Proof.
  apply (message_id_packs (fun x => replicate 32 (Z.of_nat (length x) mod 256)) EmptyJID (Unix 5) 0 [1; 2]).
  - intros x. apply length_replicate.
  - intros x. apply Forall_replicate, Z.mod_pos_bound. done.
Defined.

(** Neither case nor spaces matter in a timer, and what is parsed is one of the four. *)
Theorem timer_spellings s :
  ParseDisappearingTimerString (to_lower s) = ParseDisappearingTimerString s /\
  ((ParseDisappearingTimerString s).2 = true -> (ParseDisappearingTimerString s).1 ∈ timer_names.*1) /\
  ((ParseDisappearingTimerString s).2 = false -> (ParseDisappearingTimerString s).1 = 0).
Proof.
  assert (forall s, to_lower (to_lower s) = to_lower s) as Hl.
  { clear s. induction s as [|c s IH]; [done|]. cbn. rewrite IH. f_equal. by destruct c as [[] [] [] [] [] [] [] []]. }
  unfold ParseDisappearingTimerString. rewrite Hl. split; [done|].
  destruct (find _ _) as [t|] eqn:Hf; [|done]. apply find_some in Hf as [Hin _]. split; [|done]. intros _. cbn [fst].
  apply list_elem_of_fmap. exists t. split; [done|]. by apply list_elem_of_In.
Qed.
