(* ===== verification/ReportingToken.v ===== *)
(** * [whatsmeow/reportingtoken.go]

    The token with which the server can be told about a message: a MAC of the parts
    of its protocol buffer that a table lists.  The parser works on slices, so that
    it sees their capacity; integers wrap; it is run with fuel, since on a malformed
    buffer it need not stop.  [sort.Slice] and HMAC are parameters. *)
From stdpp Require Import sorting.
From S2P Require Import Prelude GoStrings GoTime Jid BinaryNode BinaryCodec MsgSecret Retry MessageKinds.

(** [reportingField] *)
Inductive reportingField : Type := mkField { FieldNumber : Z; IsMessage : bool; Subfields : list reportingField }.
Definition leaf (f : Z) : reportingField := mkField f false [].
Definition message (f : Z) : reportingField := mkField f true [].
Definition group (f : Z) (s : list reportingField) : reportingField := mkField f false s.
(** [reportingfields.json] *)
Definition getReportingFields : list reportingField :=
  [leaf 1;
   group 3 [leaf 2; leaf 3; leaf 8; leaf 11; group 17 [leaf 21; leaf 22]; leaf 25];
   group 4 [leaf 1; leaf 16; group 17 [leaf 21; leaf 22]];
   group 5 [leaf 3; leaf 4; leaf 5; leaf 16; group 17 [leaf 21; leaf 22]];
   group 6 [leaf 1; group 17 [leaf 21; leaf 22]; leaf 30];
   group 7 [leaf 2; leaf 7; leaf 10; group 17 [leaf 21; leaf 22]; leaf 20];
   group 8 [leaf 2; leaf 7; leaf 9; group 17 [leaf 21; leaf 22]; leaf 21];
   group 9 [leaf 2; leaf 6; leaf 7; leaf 13; group 17 [leaf 21; leaf 22]; leaf 20];
   group 12 [leaf 1; leaf 2; message 14; leaf 15];
   group 18 [leaf 6; leaf 16; group 17 [leaf 21; leaf 22]];
   group 26 [leaf 4; leaf 5; leaf 8; leaf 13; group 17 [leaf 21; leaf 22]];
   group 28 [leaf 1; leaf 2; leaf 4; leaf 5; leaf 6; group 7 [leaf 21; leaf 22]];
   group 37 [message 1];
   group 49 [leaf 2; group 3 [leaf 1; leaf 2]; group 5 [leaf 21; leaf 22]; group 8 [leaf 1; leaf 2]];
   group 53 [message 1];
   group 55 [message 1];
   group 58 [message 1];
   group 59 [message 1];
   group 60 [leaf 2; group 3 [leaf 1; leaf 2]; group 5 [leaf 21; leaf 22]; group 8 [leaf 1; leaf 2]];
   group 64 [leaf 2; group 3 [leaf 1; leaf 2]; group 5 [leaf 21; leaf 22]; group 8 [leaf 1; leaf 2]];
   group 66 [leaf 2; leaf 6; leaf 7; leaf 13; group 17 [leaf 21; leaf 22]; leaf 20];
   group 74 [message 1];
   group 87 [message 1];
   group 88 [leaf 1; group 2 [leaf 1]; group 3 [leaf 21; leaf 22]];
   group 92 [message 1];
   group 93 [message 1];
   group 94 [message 1]].

Definition getConfigForField (fields : list reportingField) (fieldNum : Z) : option reportingField :=
  find (fun f => FieldNumber f =? fieldNum) fields.

(** ** [encoding/binary] *)

Definition MaxVarintLen64 : nat := 10.
(** From the [i]th byte on; the shift of an [uint64] drops the high bits. *)
Fixpoint uvarint (i : nat) (x : Z) (buf : Bytes) : Z * Z :=
  match buf with
  | [] => (0, 0)
  | b :: buf =>
      if Nat.eqb i MaxVarintLen64 then (0, - (Z.of_nat i + 1))
      else if b <? 128 then
        if Nat.eqb i (MaxVarintLen64 - 1) && (1 <? b) then (0, - (Z.of_nat i + 1))
        else (Z.lor x (Z.shiftl b (7 * Z.of_nat i) mod 2 ^ 64), Z.of_nat i + 1)
      else uvarint (S i) (Z.lor x (Z.shiftl (Z.land b 127) (7 * Z.of_nat i) mod 2 ^ 64)) buf
  end.
Definition Uvarint (buf : Bytes) : Z * Z := uvarint 0 0 buf.
(** [PutUvarint], into a buffer that is large enough. *)
Fixpoint put_uvarint (fuel : nat) (x : Z) : Bytes :=
  match fuel with
  | O => []
  | S fuel => if x <? 128 then [x] else Z.lor (x mod 128) 128 :: put_uvarint fuel (Z.shiftr x 7)
  end.
Definition PutUvarint (x : Z) : Bytes := put_uvarint MaxVarintLen64 x.

(** ** The parser *)

Definition wireVarint : Z := 0.
Definition wire64bit : Z := 1.
Definition wireBytes : Z := 2.
Definition wire32bit : Z := 5.

(** A slice: the bytes up to its capacity, and its length. *)
Record Slice : Type := mkSlice { backing : Bytes; len_ : nat }.
Definition whole (b : Bytes) : Slice := mkSlice b (length b).
Definition bytes_of (s : Slice) : Bytes := take (len_ s) (backing s).
Definition out_of_range : string := "slice bounds out of range".
(** [s[i:]] is bounded by the length, [s[i:j]] by the capacity. *)
Definition from (i : Z) (s : Slice) : outcome Bytes :=
  if (0 <=? i) && (i <=? Z.of_nat (len_ s)) then Ret (drop (Z.to_nat i) (bytes_of s)) else Panic out_of_range.
Definition slice (i j : Z) (s : Slice) : outcome Slice :=
  if (0 <=? i) && (i <=? j) && (j <=? Z.of_nat (length (backing s)))
  then Ret (mkSlice (drop (Z.to_nat i) (backing s)) (Z.to_nat (j - i))) else Panic out_of_range.

Definition field : Type := Z * Bytes.
(** What a step of the loop does: it goes on, it stops, or the function returns nil. *)
Inductive step : Type := Continue (i : Z) (fields : list field) | Break | ReturnNil.

Section Token.
(** [sort.Slice], with the function that compares. *)
Context (sort_Slice : (field -> field -> bool) -> list field -> list field).

(** One round, with the recursion as a parameter; [None] is out of fuel. *)
Definition parse_field (rec : Slice -> list reportingField -> option (outcome Bytes)) (data : Slice) (config : list reportingField) (i : Z) (fields : list field) :
    option (outcome step) :=
  let varint_at (i : Z) : outcome (Z * Z) := b ← from i data; Ret (Uvarint b) in
  let keep (num fieldStart i : Z) : outcome step := b ← slice fieldStart i data; Ret (Continue i (fields ++ [(num, bytes_of b)])) in
  match varint_at i with
  | Panic e => Some (Panic e)
  | Ret (tag, tagLen) =>
      if tagLen <=? 0 then Some (Ret Break)
      else
        let fieldNum := wrap64 (Z.shiftr tag 3) in
        let wireType := Z.land tag 7 in
        let fieldStart := i in
        let i := wrap64 (i + tagLen) in
        match getConfigForField config fieldNum with
        | None =>
            Some (
              if wireType =? wireVarint then '(_, n) ← varint_at i; Ret (Continue (wrap64 (i + n)) fields)
              else if wireType =? wire64bit then Ret (Continue (wrap64 (i + 8)) fields)
              else if wireType =? wireBytes then '(l, n) ← varint_at i; Ret (Continue (wrap64 (i + (n + wrap64 l))) fields)
              else if wireType =? wire32bit then Ret (Continue (wrap64 (i + 4)) fields)
              else Ret ReturnNil)
        | Some fieldCfg =>
            if wireType =? wireVarint then Some ('(_, n) ← varint_at i; keep fieldNum fieldStart (wrap64 (i + n)))
            else if wireType =? wire64bit then Some (keep fieldNum fieldStart (wrap64 (i + 8)))
            else if wireType =? wireBytes then
              match varint_at i with
              | Panic e => Some (Panic e)
              | Ret (l, n) =>
                  let valStart := wrap64 (i + n) in
                  let valEnd := wrap64 (valStart + wrap64 l) in
                  if IsMessage fieldCfg || negb (Nat.eqb (length (Subfields fieldCfg)) 0) then
                    match slice valStart valEnd data with
                    | Panic e => Some (Panic e)
                    | Ret val =>
                        match rec val (Subfields fieldCfg) with
                        | None => None
                        | Some (Panic e) => Some (Panic e)
                        | Some (Ret sub) =>
                            Some (Ret (Continue valEnd (if Nat.eqb (length sub) 0 then fields
                              else fields ++ [(fieldNum, PutUvarint tag ++ PutUvarint (Z.of_nat (length sub)) ++ sub)])))
                        end
                    end
                  else Some (b ← slice fieldStart valEnd data; Ret (Continue valEnd (fields ++ [(fieldNum, bytes_of b)])))
              end
            else if wireType =? wire32bit then Some (keep fieldNum fieldStart (wrap64 (i + 4)))
            else Some (Ret ReturnNil)
        end
  end.
Definition finish (fields : list field) : Bytes := concat (snd <$> sort_Slice (fun a b => a.1 <? b.1) fields).

Fixpoint parse_loop (fuel : nat) (data : Slice) (config : list reportingField) (i : Z) (fields : list field) : option (outcome Bytes) :=
  match fuel with
  | O => None
  | S fuel =>
      if i <? Z.of_nat (len_ data) then
        match parse_field (fun data config => parse_loop fuel data config 0 []) data config i fields with
        | None => None
        | Some (Panic e) => Some (Panic e)
        | Some (Ret (Continue i fields)) => parse_loop fuel data config i fields
        | Some (Ret Break) => Some (Ret (finish fields))
        | Some (Ret ReturnNil) => Some (Ret [])
        end
      else Some (Ret (finish fields))
  end.
Definition extractReportingTokenContent (fuel : nat) (data : Slice) (config : list reportingField) : option (outcome Bytes) :=
  parse_loop fuel data config 0 [].
Definition getReportingToken (fuel : nat) (messageProtobuf : Slice) : option (outcome Bytes) :=
  extractReportingTokenContent fuel messageProtobuf getReportingFields.

(** ** The node *)

Context (SendReportingTokens : bool) (hkdf_SHA256 : Bytes -> Bytes -> Bytes -> Z -> Bytes) (hmac_sha256 : Bytes -> Bytes -> Bytes).

Definition shouldIncludeReportingToken (m : Body) : bool :=
  SendReportingTokens &&
  negb (present (Reaction m)) && negb (present (EncReactionMessage m)) && negb (present (EncEventResponseMessage m)) && negb (present (PollUpdateMessage m)).
Definition secret_of (m : Body) : option Bytes := MessageContextInfo m ≫= MessageSecret.
Definition getMessageReportingToken (fuel : nat) (msgProtobuf : Slice) (msg : Body) (senderJID remoteJID : JID) (messageID : string) : option (outcome node) :=
  let '(reportingSecret, _) := generateMsgSecretKey hkdf_SHA256 EncSecretReportToken remoteJID messageID senderJID (default [] (secret_of msg)) in
  match getReportingToken fuel msgProtobuf with
  | None => None
  | Some (Panic e) => Some (Panic e)
  | Some (Ret content) =>
      Some (Ret (mkNode "reporting" [] (VNodes [mkNode "reporting_token" [("v", VString "2")] (VBytes (of_codes (take 16 (hmac_sha256 reportingSecret content))))])))
  end.
End Token.

(** ** Numbers of variable length *)

Lemma put_byte x : 0 <= x -> Z.lor (x mod 128) 128 = x mod 128 + 128.
Proof.
  intros Hx. rewrite Z.lor_comm. change 128 with (Z.shiftl 1 7) at 1. pose proof (Z.mod_pos_bound x 128 ltac:(done)).
  rewrite lor_shiftl_add by (done || lia). lia.
Qed.
Lemma land_127 x : 0 <= x -> Z.land (x mod 128 + 128) 127 = x mod 128.
Proof.
  intros Hx. change 127 with (Z.ones 7). rewrite Z.land_ones by done. change (2 ^ 7) with 128.
  replace (x mod 128 + 128) with (x mod 128 + 1 * 128) by lia. by rewrite Z.mod_add, Z.mod_mod.
Qed.
Lemma lor_acc acc b k : 0 <= k -> 0 <= acc < 2 ^ k -> 0 <= b * 2 ^ k < 2 ^ 64 -> Z.lor acc (Z.shiftl b k mod 2 ^ 64) = acc + b * 2 ^ k.
Proof.
  intros Hk Ha Hb. rewrite Z.mod_small by (rewrite Z.shiftl_mul_pow2 by done; lia). rewrite Z.lor_comm, lor_shiftl_add by done. lia.
Qed.
Lemma uvarint_put fuel : forall i acc x rest, (i + fuel = MaxVarintLen64)%nat -> 0 <= x < 2 ^ (64 - 7 * Z.of_nat i) -> 0 <= acc < 2 ^ (7 * Z.of_nat i) ->
  uvarint i acc (put_uvarint fuel x ++ rest) = (acc + x * 2 ^ (7 * Z.of_nat i), Z.of_nat i + Z.of_nat (length (put_uvarint fuel x))).
Proof.
  unfold MaxVarintLen64. induction fuel as [|fuel IH]; intros i acc x rest Hi Hx Ha.
  { assert (i = 10%nat) as -> by lia. change (2 ^ (64 - 7 * Z.of_nat 10)) with 0 in Hx. lia. }
  assert (2 ^ (64 - 7 * Z.of_nat i) * 2 ^ (7 * Z.of_nat i) = 2 ^ 64) as H64 by (rewrite <- Z.pow_add_r by lia; f_equal; lia).
  assert (0 < 2 ^ (7 * Z.of_nat i)) as Hp by (apply Z.pow_pos_nonneg; lia).
  assert (0 <= x * 2 ^ (7 * Z.of_nat i) < 2 ^ 64) as Hb by nia.
  assert (i = 9%nat -> x < 2) as H9 by (intros ->; change (2 ^ (64 - 7 * Z.of_nat 9)) with 2 in Hx; lia).
  cbn [put_uvarint]. destruct (Z.ltb_spec x 128) as [Hlt|Hge]; cbn [app uvarint]; change (Nat.eqb i MaxVarintLen64) with (Nat.eqb i 10);
    change (Nat.eqb i (MaxVarintLen64 - 1)) with (Nat.eqb i 9); (destruct (Nat.eqb_spec i 10); [lia|]).
  - rewrite (proj2 (Z.ltb_lt _ _)) by done. replace (_ && _) with false.
    + rewrite lor_acc by (done || lia). reflexivity.
    + destruct (Nat.eqb_spec i 9) as [He|]; [|done]. destruct (Z.ltb_spec 1 x); [|done]. specialize (H9 He). lia.
  - rewrite put_byte by lia. pose proof (Z.mod_pos_bound x 128 ltac:(done)) as Hm. rewrite (proj2 (Z.ltb_ge _ _)) by lia.
    rewrite land_127 by lia. pose proof (Z.div_mod x 128 ltac:(done)) as Hdm. assert (i <> 9%nat) by (intros He; specialize (H9 He); lia).
    rewrite lor_acc by (lia || nia). rewrite Z.shiftr_div_pow2 by done. change (2 ^ 7) with 128.
    assert (2 ^ (7 * Z.of_nat (S i)) = 128 * 2 ^ (7 * Z.of_nat i)) as HS by (replace (7 * Z.of_nat (S i)) with (7 + 7 * Z.of_nat i) by lia; rewrite Z.pow_add_r by lia; done).
    assert (2 ^ (64 - 7 * Z.of_nat i) = 128 * 2 ^ (64 - 7 * Z.of_nat (S i))) as HS'
      by (replace (64 - 7 * Z.of_nat i) with (7 + (64 - 7 * Z.of_nat (S i))) by lia; rewrite Z.pow_add_r by lia; done).
    rewrite IH; [|lia| |rewrite HS; nia].
    + cbn [length]. f_equal; [rewrite HS; nia|lia].
    + split; [apply Z.div_pos; lia|]. apply Z.div_lt_upper_bound; lia.
Qed.
Definition uint64_ok (x : Z) : Prop := 0 <= x < 2 ^ 64.
Lemma Uvarint_put x rest : uint64_ok x -> Uvarint (PutUvarint x ++ rest) = (x, Z.of_nat (length (PutUvarint x))).
Proof. intros Hx. unfold Uvarint, PutUvarint. rewrite uvarint_put by done. f_equal. change (2 ^ (7 * Z.of_nat 0)) with 1. lia. Qed.
Lemma PutUvarint_length x : (1 <= length (PutUvarint x) <= 10)%nat.
Proof.
  split; [unfold PutUvarint, MaxVarintLen64; cbn; destruct (x <? 128); cbn; lia|].
  unfold PutUvarint. change 10%nat with MaxVarintLen64. generalize MaxVarintLen64. intros fuel. revert x.
  induction fuel as [|fuel IH]; intros x; cbn; [done|]. destruct (x <? 128); cbn; [lia|]. specialize (IH (Z.shiftr x 7)). lia.
Qed.

(** ** Well-formed messages

    A field of a protocol buffer, as it is written on the wire. *)
Inductive wfield : Type :=
| WVarint (num n : Z) | W64 (num : Z) (b : Bytes) | WBytes (num : Z) (b : Bytes) | WMsg (num : Z) (l : list wfield) | W32 (num : Z) (b : Bytes).
Definition num_of (f : wfield) : Z := match f with WVarint n _ | W64 n _ | WBytes n _ | WMsg n _ | W32 n _ => n end.
Definition type_of (f : wfield) : Z :=
  match f with WVarint _ _ => wireVarint | W64 _ _ => wire64bit | WBytes _ _ | WMsg _ _ => wireBytes | W32 _ _ => wire32bit end.
Definition tag_of (f : wfield) : Z := num_of f * 8 + type_of f.
Definition with_length (b : Bytes) : Bytes := PutUvarint (Z.of_nat (length b)) ++ b.
Fixpoint encode_field (f : wfield) : Bytes :=
  PutUvarint (tag_of f) ++
  match f with WVarint _ n => PutUvarint n | W64 _ b | W32 _ b => b | WBytes _ b => with_length b | WMsg _ l => with_length (concat (map encode_field l)) end.
Definition encode (l : list wfield) : Bytes := concat (map encode_field l).

(** Whether the content of a field is parsed. *)
Definition wants (c : reportingField) : bool := IsMessage c || negb (Nat.eqb (length (Subfields c)) 0).
(** What is parsed is a message. *)
Fixpoint conforms (cfg : list reportingField) (f : wfield) : Prop :=
  1 <= num_of f < 2 ^ 29 /\
  match f with
  | WVarint _ n => uint64_ok n
  | W64 _ b => length b = 8%nat
  | W32 _ b => length b = 4%nat
  | WBytes n _ => match getConfigForField cfg n with Some c => wants c = false | None => True end
  | WMsg n l => match getConfigForField cfg n with Some c => if wants c then foldr and True (map (conforms (Subfields c)) l) else True | None => True end
  end.

(** What [sort.Slice] promises for a function that is a strict weak order: it is not
    stable. *)
Record strict_weak (less : field -> field -> bool) : Prop := mkStrictWeak {
  less_irrefl : forall a, less a a = false;
  less_trans : forall a b c, less a b = true -> less b c = true -> less a c = true;
  less_neither : forall a b c, less a b = false -> less b a = false -> less b c = false -> less c b = false -> less a c = false /\ less c a = false }.
Definition sorts (sort_Slice : (field -> field -> bool) -> list field -> list field) : Prop :=
  forall less l, strict_weak less -> sort_Slice less l ≡ₚ l /\ StronglySorted (fun a b => less b a = false) (sort_Slice less l).
Lemma number_strict_weak : strict_weak (fun a b => a.1 <? b.1).
Proof.
  split; [intros a; apply Z.ltb_irrefl|intros a b c; rewrite !Z.ltb_lt; lia|]. intros a b c. rewrite !Z.ltb_ge. lia.
Qed.
Definition in_order (l : list field) : Prop := StronglySorted (fun a b => a.1 <= b.1) l.

(** What the content of a token is, apart from how it is computed: the fields that
    the table lists, whole, or, when they are messages of which the table lists
    parts, with the content of those and its length; fields of which nothing is
    left are left out; and all in the order of their numbers, on every level. *)
Inductive listed : list reportingField -> wfield -> list field -> Prop :=
| listed_not cfg f : getConfigForField cfg (num_of f) = None -> listed cfg f []
| listed_whole cfg f c : getConfigForField cfg (num_of f) = Some c -> (forall n l, f = WMsg n l -> wants c = false) ->
    listed cfg f [(num_of f, encode_field f)]
| listed_empty cfg n l c : getConfigForField cfg n = Some c -> wants c = true -> reported (Subfields c) l [] -> listed cfg (WMsg n l) []
| listed_parts cfg n l c sub : getConfigForField cfg n = Some c -> wants c = true -> reported (Subfields c) l sub -> sub <> [] ->
    listed cfg (WMsg n l) [(n, PutUvarint (tag_of (WMsg n l)) ++ with_length sub)]
with reported : list reportingField -> list wfield -> Bytes -> Prop :=
| reported_all cfg l parts ordered : Forall2 (listed cfg) l parts -> ordered ≡ₚ concat parts -> in_order ordered ->
    reported cfg l (concat (snd <$> ordered)).

Lemma wfield_nested (P : wfield -> Prop) : (forall f, (forall n l, f = WMsg n l -> Forall P l) -> P f) -> forall f, P f.
Proof.
  intros H. fix IH 1. intros [n x|n b|n b|n l|n b]; try (by apply H).
  assert (Forall P l) as Hl by (induction l as [|g l IHl]; constructor; [apply IH|exact IHl]). apply H. intros n' l' E. by injection E as <- <-.
Qed.

Section Correct.
Context (sort_Slice : (field -> field -> bool) -> list field -> list field).
Context (Hsort : sorts sort_Slice).
Lemma sort_perm l : sort_Slice (fun a b => a.1 <? b.1) l ≡ₚ l.
Proof. apply (Hsort _ l number_strict_weak). Qed.
Lemma sort_in_order l : in_order (sort_Slice (fun a b => a.1 <? b.1) l).
Proof.
  destruct (Hsort _ l number_strict_weak) as [_ H]. unfold in_order. eapply StronglySorted_ind; [constructor| |exact H].
  intros a l' _ IH Ha. constructor; [done|]. eapply Forall_impl; [exact Ha|]. intros b. cbn. rewrite Z.ltb_ge. lia.
Qed.

(** What the token is made of: the fields of the table, with their parts that are in it. *)
Fixpoint report_field (cfg : list reportingField) (f : wfield) : list field :=
  match getConfigForField cfg (num_of f) with
  | None => []
  | Some c =>
      match f with
      | WMsg n l =>
          if wants c then
            let sub := finish sort_Slice (concat (map (report_field (Subfields c)) l)) in
            if Nat.eqb (length sub) 0 then [] else [(n, PutUvarint (tag_of f) ++ with_length sub)]
          else [(n, encode_field f)]
      | _ => [(num_of f, encode_field f)]
      end
  end.
Definition report (cfg : list reportingField) (l : list wfield) : list field := concat (map (report_field cfg) l).

(** A position in a slice. *)
Record at_pos (data : Slice) (pre rest post : Bytes) : Prop := mkAt {
  at_backing : backing data = pre ++ rest ++ post;
  at_len : len_ data = (length pre + length rest)%nat;
  at_small : Z.of_nat (length (backing data)) < 2 ^ 62 }.

Lemma bytes_of_at data pre rest post : at_pos data pre rest post -> bytes_of data = pre ++ rest.
Proof. intros [Hb Hl _]. unfold bytes_of. rewrite Hb, Hl, app_assoc. apply take_app_length'. by rewrite length_app. Qed.
Lemma at_bound data pre rest post : at_pos data pre rest post -> Z.of_nat (length pre) + Z.of_nat (length rest) + Z.of_nat (length post) < 2 ^ 62.
Proof. intros [Hb _ Hs]. rewrite Hb, !length_app in Hs. lia. Qed.
Lemma from_at data pre rest post : at_pos data pre rest post -> from (Z.of_nat (length pre)) data = Ret rest.
Proof.
  intros H. unfold from. rewrite (bytes_of_at _ _ _ _ H). destruct H as [_ Hl _]. rewrite Hl.
  rewrite (proj2 (Z.leb_le 0 _)), (proj2 (Z.leb_le _ _)) by lia. cbn [andb]. by rewrite Nat2Z.id, drop_app_length.
Qed.
Lemma at_move data pre x rest post : at_pos data pre (x ++ rest) post -> at_pos data (pre ++ x) rest post.
Proof. intros [Hb Hl Hs]. split; [by rewrite Hb, <- !app_assoc|rewrite length_app in *; lia|done]. Qed.
(** A slice in the middle; it may grow to the end of its backing array. *)
Lemma slice_at data pre x rest post : at_pos data pre (x ++ rest) post ->
  exists s, slice (Z.of_nat (length pre)) (Z.of_nat (length pre) + Z.of_nat (length x)) data = Ret s /\ at_pos s [] x (rest ++ post).
Proof.
  intros [Hb Hl Hs]. eexists. unfold slice. rewrite Hb, !length_app.
  rewrite !(proj2 (Z.leb_le _ _)) by lia. cbn [andb]. split; [reflexivity|]. split; cbn [backing len_].
  - rewrite Nat2Z.id, drop_app_length. by rewrite <- app_assoc.
  - cbn. lia.
  - rewrite Nat2Z.id, drop_app_length, !length_app. rewrite Hb, !length_app in Hs. lia.
Qed.
Lemma wrap_small x : 0 <= x < 2 ^ 63 -> wrap64 x = x.
Proof. intros H. apply wrap64_id. unfold in_int64, min_int64, max_int64. lia. Qed.

Lemma tag_parts f : 1 <= num_of f < 2 ^ 29 -> uint64_ok (tag_of f) /\ wrap64 (Z.shiftr (tag_of f) 3) = num_of f /\ Z.land (tag_of f) 7 = type_of f.
Proof.
  intros Hn. unfold tag_of. assert (0 <= type_of f < 8) as Ht by (destruct f; cbn; unfold wireVarint, wire64bit, wireBytes, wire32bit; lia).
  split; [unfold uint64_ok; lia|]. rewrite Z.shiftr_div_pow2 by done. change 7 with (Z.ones 3). rewrite Z.land_ones by done. change (2 ^ 3) with 8.
  rewrite Z.div_add_l, Z.div_small, Z.add_0_r by lia. rewrite wrap_small by lia. split; [done|].
  rewrite Z.add_comm, Z.mod_add, Z.mod_small by lia. done.
Qed.
Lemma finish_nil : finish sort_Slice [] = [].
Proof. unfold finish. assert (sort_Slice (fun a b => a.1 <? b.1) [] = []) as -> by (apply Permutation_nil; symmetry; apply sort_perm). done. Qed.

Lemma varint_at data pre x rest post : at_pos data pre (PutUvarint x ++ rest) post -> uint64_ok x ->
  (b ← from (Z.of_nat (length pre)) data; Ret (Uvarint b)) = Ret (x, Z.of_nat (length (PutUvarint x))).
Proof. intros H Hx. rewrite (from_at _ _ _ _ H). change (Ret (Uvarint (PutUvarint x ++ rest)) = Ret (x, Z.of_nat (length (PutUvarint x)))). by rewrite Uvarint_put. Qed.
Lemma advance data pre x rest post : at_pos data pre (x ++ rest) post ->
  wrap64 (Z.of_nat (length pre) + Z.of_nat (length x)) = Z.of_nat (length (pre ++ x)).
Proof. intros H. apply at_bound in H. rewrite length_app in H. rewrite length_app, wrap_small; lia. Qed.
Lemma slice_field data pre x rest post : at_pos data pre (x ++ rest) post ->
  (b ← slice (Z.of_nat (length pre)) (Z.of_nat (length (pre ++ x))) data; Ret (bytes_of b)) = Ret x.
Proof.
  intros H. destruct (slice_at _ _ _ _ _ H) as (s & Hs & Ha). rewrite length_app, Nat2Z.inj_add, Hs. cbn. f_equal.
  by rewrite (bytes_of_at _ _ _ _ Ha).
Qed.
(** The field that is kept. *)
Lemma keep_at data pre x rest post num fields : at_pos data pre (x ++ rest) post ->
  (b ← slice (Z.of_nat (length pre)) (Z.of_nat (length (pre ++ x))) data; Ret (Continue (Z.of_nat (length (pre ++ x))) (fields ++ [(num, bytes_of b)]))) =
  Ret (Continue (Z.of_nat (length (pre ++ x))) (fields ++ [(num, x)])).
Proof. intros H. apply slice_field in H. destruct (slice _ _ _) as [s|]; [|done]. cbn in *. by injection H as ->. Qed.

Definition body_of_field (f : wfield) : Bytes :=
  match f with WVarint _ n => PutUvarint n | W64 _ b | W32 _ b => b | WBytes _ b => with_length b | WMsg _ l => with_length (encode l) end.
Lemma encode_split f : encode_field f = PutUvarint (tag_of f) ++ body_of_field f.
Proof. by destruct f. Qed.

(** The length and the content of a field of bytes. *)
Lemma bytes_at data pre b rest post : at_pos data pre (with_length b ++ rest) post ->
  (b ← from (Z.of_nat (length pre)) data; Ret (Uvarint b)) = Ret (Z.of_nat (length b), Z.of_nat (length (PutUvarint (Z.of_nat (length b))))) /\
  wrap64 (Z.of_nat (length b)) = Z.of_nat (length b) /\
  wrap64 (Z.of_nat (length pre) + (Z.of_nat (length (PutUvarint (Z.of_nat (length b)))) + Z.of_nat (length b))) = Z.of_nat (length (pre ++ with_length b)) /\
  wrap64 (Z.of_nat (length pre) + Z.of_nat (length (PutUvarint (Z.of_nat (length b))))) = Z.of_nat (length (pre ++ PutUvarint (Z.of_nat (length b)))) /\
  wrap64 (Z.of_nat (length (pre ++ PutUvarint (Z.of_nat (length b)))) + Z.of_nat (length b)) = Z.of_nat (length (pre ++ with_length b)) /\
  at_pos data (pre ++ PutUvarint (Z.of_nat (length b))) (b ++ rest) post.
Proof.
  intros H. pose proof (at_bound _ _ _ _ H) as Hb. pose proof H as H'. unfold with_length in *. rewrite <- app_assoc in H'.
  rewrite !length_app in *. repeat split.
  - apply (varint_at _ _ _ _ _ H'). unfold uint64_ok. lia.
  - apply wrap_small. lia.
  - rewrite wrap_small by lia. lia.
  - rewrite wrap_small by lia. lia.
  - rewrite wrap_small by lia. lia.
  - by apply (at_move _ _ _ _ _ H').
  - by apply (at_move _ _ _ _ _ H').
  - by apply (at_move _ _ _ _ _ H').
Qed.
(** The parts of a field, found one after the other. *)
Lemma tag_at data cfg pre f rest post : at_pos data pre (encode_field f ++ rest) post -> conforms cfg f ->
  (b ← from (Z.of_nat (length pre)) data; Ret (Uvarint b)) = Ret (tag_of f, Z.of_nat (length (PutUvarint (tag_of f)))) /\
  wrap64 (Z.of_nat (length pre) + Z.of_nat (length (PutUvarint (tag_of f)))) = Z.of_nat (length (pre ++ PutUvarint (tag_of f))) /\
  wrap64 (Z.shiftr (tag_of f) 3) = num_of f /\ Z.land (tag_of f) 7 = type_of f /\
  at_pos data (pre ++ PutUvarint (tag_of f)) (body_of_field f ++ rest) post /\
  pre ++ encode_field f = (pre ++ PutUvarint (tag_of f)) ++ body_of_field f.
Proof.
  intros Hat Hc. assert (1 <= num_of f < 2 ^ 29) as Hn by by destruct f; apply Hc.
  destruct (tag_parts f Hn) as (Htag & Hnum & Hty). rewrite encode_split, <- app_assoc in Hat.
  split; [by apply (varint_at _ _ _ _ _ Hat)|]. split; [by apply (advance _ _ _ _ _ Hat)|]. split; [done|]. split; [done|].
  split; [by apply (at_move _ _ _ _ _ Hat)|]. rewrite encode_split. apply app_assoc.
Qed.
Ltac go_on := unfold wireVarint, wire64bit, wireBytes, wire32bit; cbn [Z.eqb Pos.eqb mbind outcome_bind].
(** A field that the table does not have is skipped. *)
Lemma step_skipped rec data cfg pre f rest post fields :
  at_pos data pre (encode_field f ++ rest) post -> conforms cfg f -> getConfigForField cfg (num_of f) = None ->
  parse_field rec data cfg (Z.of_nat (length pre)) fields = Some (Ret (Continue (Z.of_nat (length (pre ++ encode_field f))) fields)).
Proof.
  intros Hat Hc Hcfg. destruct (tag_at _ _ _ _ _ _ Hat Hc) as (Htag & Hadv & Hnum & Hty & Hat2 & Hpos).
  unfold parse_field. rewrite Htag. pose proof (PutUvarint_length (tag_of f)) as Htl. rewrite (proj2 (Z.leb_gt _ _)) by lia.
  rewrite Hnum, Hty, Hadv, Hcfg, Hpos. f_equal. destruct f as [n x|n b|n b|n l|n b]; cbn [type_of body_of_field] in *; go_on.
  - rewrite (varint_at _ _ _ _ _ Hat2) by apply Hc. go_on. by rewrite (advance _ _ _ _ _ Hat2).
  - assert (8 = Z.of_nat (length b)) as -> by (destruct Hc as [_ ->]; done). go_on. by rewrite (advance _ _ _ _ _ Hat2).
  - destruct (bytes_at _ _ _ _ _ Hat2) as (H1 & H2 & H3 & _). rewrite H1. go_on. by rewrite H2, H3.
  - destruct (bytes_at _ _ _ _ _ Hat2) as (H1 & H2 & H3 & _). rewrite H1. go_on. by rewrite H2, H3.
  - assert (4 = Z.of_nat (length b)) as -> by (destruct Hc as [_ ->]; done). go_on. by rewrite (advance _ _ _ _ _ Hat2).
Qed.
(** One that it has is kept, or its parts are. *)
Lemma step_kept rec data cfg pre f rest post fields c :
  at_pos data pre (encode_field f ++ rest) post -> conforms cfg f -> getConfigForField cfg (num_of f) = Some c ->
  (forall n l s post', f = WMsg n l -> wants c = true -> at_pos s [] (encode l) post' ->
   rec s (Subfields c) = Some (Ret (finish sort_Slice (report (Subfields c) l)))) ->
  parse_field rec data cfg (Z.of_nat (length pre)) fields =
  Some (Ret (Continue (Z.of_nat (length (pre ++ encode_field f))) (fields ++ report_field cfg f))).
Proof.
  intros Hat Hc Hcfg Hrec. destruct (tag_at _ _ _ _ _ _ Hat Hc) as (Htag & Hadv & Hnum & Hty & Hat2 & Hpos).
  unfold parse_field. rewrite Htag. pose proof (PutUvarint_length (tag_of f)) as Htl. rewrite (proj2 (Z.leb_gt _ _)) by lia.
  rewrite Hnum, Hty, Hadv, Hcfg. change (IsMessage c || _) with (wants c).
  destruct f as [n x|n b|n b|n l|n b]; cbn [type_of body_of_field report_field num_of] in *; rewrite Hcfg; go_on.
  - rewrite (varint_at _ _ _ _ _ Hat2) by apply Hc. go_on. rewrite (advance _ _ _ _ _ Hat2), <- Hpos. f_equal. by apply (keep_at _ _ _ rest post).
  - assert (8 = Z.of_nat (length b)) as -> by (destruct Hc as [_ ->]; done). rewrite (advance _ _ _ _ _ Hat2), <- Hpos. f_equal. by apply (keep_at _ _ _ rest post).
  - destruct (bytes_at _ _ _ _ _ Hat2) as (H1 & H2 & H3 & H4 & H5 & H6). go_on. rewrite H1, H2, H4, H5, <- Hpos.
    destruct Hc as [_ Hc]. rewrite Hcfg in Hc. rewrite Hc. f_equal. by apply (keep_at _ _ _ rest post).
  - destruct (bytes_at _ _ _ _ _ Hat2) as (H1 & H2 & H3 & H4 & H5 & H6). go_on. rewrite H1, H2, H4, H5.
    destruct (wants c) eqn:Hw; [|rewrite <- Hpos; f_equal; by apply (keep_at _ _ _ rest post)].
    destruct (slice_at _ _ _ _ _ H6) as (s & Hs & Has). apply at_bound in Hat2. rewrite <- H5, wrap_small, Hs.
    + rewrite (Hrec n l s _ eq_refl eq_refl Has), Hpos.
      replace (Z.of_nat (length _) + Z.of_nat (length (encode l))) with (Z.of_nat (length ((pre ++ PutUvarint (tag_of (WMsg n l))) ++ with_length (encode l)))).
      * fold (report (Subfields c) l). destruct (Nat.eqb _ 0); [by rewrite app_nil_r|done].
      * unfold with_length. rewrite !length_app. lia.
    + unfold with_length in Hat2. rewrite !length_app in *. lia.
  - assert (4 = Z.of_nat (length b)) as -> by (destruct Hc as [_ ->]; done). rewrite (advance _ _ _ _ _ Hat2), <- Hpos. f_equal. by apply (keep_at _ _ _ rest post).
Qed.

Lemma conforms_parts cfg n l c : conforms cfg (WMsg n l) -> getConfigForField cfg n = Some c -> wants c = true -> Forall (conforms (Subfields c)) l.
Proof.
  cbn. intros [_ H] Hc Hw. rewrite Hc, Hw in H. clear -H. induction l as [|f l IH]; [done|]. cbn in H. destruct H. constructor; [done|by apply IH].
Qed.
Lemma encode_field_pos f : (1 <= length (encode_field f))%nat.
Proof. rewrite encode_split, length_app. pose proof (PutUvarint_length (tag_of f)). lia. Qed.
Lemma message_shorter n l : (length (encode l) < length (encode_field (WMsg n l)))%nat.
Proof. rewrite encode_split, length_app. cbn [body_of_field]. unfold with_length. rewrite length_app. pose proof (PutUvarint_length (tag_of (WMsg n l))). lia. Qed.

Lemma parse_ok fuel : forall data cfg pre l post fields,
  at_pos data pre (encode l) post -> Forall (conforms cfg) l -> (length (encode l) < fuel)%nat ->
  parse_loop sort_Slice fuel data cfg (Z.of_nat (length pre)) fields = Some (Ret (finish sort_Slice (fields ++ report cfg l))).
Proof.
  induction fuel as [|fuel IH]; [lia|]. intros data cfg pre l post fields Hat Hc Hf. cbn [parse_loop].
  rewrite (at_len _ _ _ _ Hat). destruct l as [|f l].
  { rewrite (proj2 (Z.ltb_ge _ _)) by (cbn; lia). by rewrite app_nil_r. }
  apply Forall_cons in Hc as [Hcf Hcl]. change (encode (f :: l)) with (encode_field f ++ encode l) in *. rewrite length_app in *.
  pose proof (encode_field_pos f). rewrite (proj2 (Z.ltb_lt _ _)) by lia.
  assert (parse_field (fun data config => parse_loop sort_Slice fuel data config 0 []) data cfg (Z.of_nat (length pre)) fields =
    Some (Ret (Continue (Z.of_nat (length (pre ++ encode_field f))) (fields ++ report_field cfg f)))) as ->.
  - destruct (getConfigForField cfg (num_of f)) as [c|] eqn:Hg.
    + apply (step_kept _ _ _ _ _ (encode l) post _ c); try done. intros n l' s post' -> Hw Has.
      apply (IH s (Subfields c) [] l' post' []); [done|by eapply conforms_parts|]. pose proof (message_shorter n l'). lia.
    + rewrite (step_skipped _ _ _ _ _ (encode l) post) by done. do 3 f_equal. destruct f; cbn [num_of report_field] in *; by rewrite Hg, app_nil_r.
  - rewrite (IH data cfg _ l post); [|by apply at_move|done|lia]. do 3 f_equal. unfold report. cbn [map concat]. by rewrite <- app_assoc.
Qed.

(** The content is what the table says. *)
Lemma listed_report f : forall cfg, listed cfg f (report_field cfg f).
Proof.
  induction f as [f IH] using wfield_nested. intros cfg.
  destruct (getConfigForField cfg (num_of f)) as [c|] eqn:Hc.
  - destruct f as [n x|n b|n b|n l|n b]; cbn [report_field num_of] in *; rewrite Hc;
      try match goal with |- listed _ ?f [_] => by apply (listed_whole cfg f c Hc) end.
    destruct (wants c) eqn:Hw; [|by apply (listed_whole cfg (WMsg n l) c Hc); intros ? ? [= <- <-]].
    assert (reported (Subfields c) l (finish sort_Slice (report (Subfields c) l))) as Hr.
    { apply (reported_all _ _ (map (report_field (Subfields c)) l)); [|apply sort_perm|apply sort_in_order].
      specialize (IH n l eq_refl). clear -IH. induction IH; constructor; auto. }
    fold (report (Subfields c) l). destruct (Nat.eqb_spec (length (finish sort_Slice (report (Subfields c) l))) 0) as [H0|H0].
    + apply length_zero_iff_nil in H0. rewrite H0 in Hr. by apply (listed_empty cfg n l c).
    + apply (listed_parts cfg n l c); [done..|]. by intros H; rewrite H in H0.
  - destruct f; cbn [report_field num_of] in *; rewrite Hc; by apply listed_not.
Qed.
Lemma reported_report cfg l : reported cfg l (finish sort_Slice (report cfg l)).
Proof.
  apply (reported_all _ _ (map (report_field cfg) l)); [|apply sort_perm|apply sort_in_order].
  induction l; constructor; [apply listed_report|done].
Qed.
End Correct.

(** C20. On the encoding of a message the parser ends within as many rounds as there are bytes
    and one more, does not panic, and yields exactly the parts that the table lists, in the
    order of their numbers on every level, with messages of which parts are left out given
    their new length - for every [sort.Slice] that sorts by the function it is given. *)
Theorem token_content sort_Slice fuel cfg l :
  sorts sort_Slice ->
  Forall (conforms cfg) l -> (length (encode l) < fuel)%nat -> Z.of_nat (length (encode l)) < 2 ^ 62 ->
  exists content, extractReportingTokenContent sort_Slice fuel (whole (encode l)) cfg = Some (Ret content) /\ reported cfg l content.
Proof.
  intros Hsort Hc Hf Hs. exists (finish sort_Slice (report sort_Slice cfg l)). split; [|by apply reported_report].
  unfold extractReportingTokenContent. apply (parse_ok sort_Slice fuel _ cfg [] l []); [|done..].
  split; cbn; [by rewrite app_nil_r|done|done].
Qed.

(** ** The order of the fields *)

Lemma sorted_unique (l l' : list field) :
  l ≡ₚ l' -> NoDup l.*1 -> StronglySorted (fun a b => a.1 <= b.1) l -> StronglySorted (fun a b => a.1 <= b.1) l' -> l = l'.
Proof.
  intros Hp. revert l' Hp. induction l as [|a l IH]; intros l' Hp Hd Hs Hs'; [by apply Permutation_nil in Hp|].
  destruct l' as [|b l']; [by symmetry in Hp; apply Permutation_nil_cons in Hp|].
  inversion Hs as [|? ? Hs1 Ha]; subst. inversion Hs' as [|? ? Hs1' Hb]; subst. cbn in Hd. apply NoDup_cons in Hd as [Hd1 Hd2].
  assert (a = b) as <-.
  { assert (a ∈ b :: l') as [|Hin]%elem_of_cons by (rewrite <- Hp; by left); [done|].
    assert (b ∈ a :: l) as [|Hin']%elem_of_cons by (rewrite Hp; by left); [done|].
    exfalso. apply Hd1. rewrite Forall_forall in Ha, Hb. specialize (Ha _ Hin'). specialize (Hb _ Hin).
    assert (a.1 = b.1) as -> by lia. by apply list_elem_of_fmap_2. }
  f_equal. apply IH; try done. by eapply Permutation.Permutation_cons_inv.
Qed.
Lemma report_perm sort_Slice cfg l l' : l ≡ₚ l' -> report sort_Slice cfg l ≡ₚ report sort_Slice cfg l'.
Proof.
  intros Hp. unfold report. induction Hp as [|f l l' _ IH|f g l|l l' l'' _ IH1 _ IH2]; cbn [map concat]; [done|by rewrite IH| |by rewrite IH1].
  rewrite !app_assoc. by rewrite (Permutation_app_comm (report_field sort_Slice cfg g)).
Qed.

(** The order in which the fields of a message are encoded is of no matter, when no field of
    the table is repeated. *)
Theorem token_unordered sort_Slice fuel fuel' cfg l l' :
  sorts sort_Slice -> l ≡ₚ l' -> Forall (conforms cfg) l -> NoDup (report sort_Slice cfg l).*1 ->
  (length (encode l) < fuel)%nat -> (length (encode l') < fuel')%nat -> Z.of_nat (length (encode l)) < 2 ^ 62 ->
  extractReportingTokenContent sort_Slice fuel (whole (encode l)) cfg = extractReportingTokenContent sort_Slice fuel' (whole (encode l')) cfg.
Proof.
  intros Hsort Hp Hc Hd Hf Hf' Hs. unfold extractReportingTokenContent.
  assert (length (encode l') = length (encode l)) as He.
  { unfold encode. clear -Hp. induction Hp as [|f l l' _ IH|f g l|l l' l'' _ IH1 _ IH2]; cbn [map concat]; rewrite ?length_app; lia. }
  assert (forall x n, Forall (conforms cfg) x -> (length (encode x) < n)%nat -> Z.of_nat (length (encode x)) < 2 ^ 62 ->
    parse_loop sort_Slice n (whole (encode x)) cfg 0 [] = Some (Ret (finish sort_Slice (report sort_Slice cfg x)))) as Hok.
  { intros x n Hx Hn Hx'. apply (parse_ok sort_Slice n _ cfg [] x []); [|done..]. split; cbn; [by rewrite app_nil_r|done|done]. }
  rewrite !Hok; [|by rewrite <- Hp|done|lia|done..]. unfold finish. do 4 f_equal.
  pose proof (sort_perm sort_Slice Hsort) as Hsp. apply sorted_unique; [by rewrite !Hsp, (report_perm _ _ _ _ Hp)|by rewrite Hsp|by apply sort_in_order..].
Qed.

(** ** What does not enter the token *)

(** The fields of the table that hold a message in a wrapper. *)
Definition wrappers : list Z := [37; 53; 55; 58; 59; 74; 87; 92; 93; 94].
(** A flag of the table marks parts that are messages themselves; it has them parsed with an
    empty table.  So the content of a wrapped message does not enter the token at all. *)
Theorem wrapped_not_reported sort_Slice fuel n inner inner' :
  sorts sort_Slice -> n ∈ wrappers -> Forall (conforms []) inner -> Forall (conforms []) inner' ->
  let l := [WMsg n [WMsg 1 inner]] in let l' := [WMsg n [WMsg 1 inner']] in
  (length (encode l) < fuel)%nat -> (length (encode l') < fuel)%nat -> Z.of_nat fuel < 2 ^ 62 ->
  getReportingToken sort_Slice fuel (whole (encode l)) = Some (Ret []) /\ getReportingToken sort_Slice fuel (whole (encode l')) = Some (Ret []).
Proof.
  intros Hp Hn Hi Hi' l l' Hf Hf' Hs.
  assert (forall inner, Forall (conforms []) inner -> (length (encode [WMsg n [WMsg 1%Z inner]]) < fuel)%nat ->
    getReportingToken sort_Slice fuel (whole (encode [WMsg n [WMsg 1%Z inner]])) = Some (Ret [])) as H; [|split; by apply H].
  clear -Hp Hn Hs. intros inner Hi Hf. unfold getReportingToken, extractReportingTokenContent.
  assert (exists c, getConfigForField getReportingFields n = Some c /\ wants c = true /\ Subfields c = [message 1] /\ 1 <= n < 2 ^ 29) as (c & Hc & Hw & Hsub & Hr).
  { unfold wrappers in Hn. repeat (apply elem_of_cons in Hn as [->|Hn]; [eexists; repeat split; vm_compute; done|]). by apply not_elem_of_nil in Hn. }
  rewrite (parse_ok sort_Slice fuel _ getReportingFields [] [WMsg n [WMsg 1 inner]] []);
    [|split; cbn -[encode]; [by rewrite app_nil_r|done|lia]| |done].
  - unfold report. cbn [map concat report_field num_of app]. rewrite Hc, Hw, Hsub. cbn -[encode_field finish PutUvarint].
    assert (concat (map (report_field sort_Slice []) inner) = []) as ->.
    { clear -inner. induction inner as [|f l IH]; [done|]. cbn. rewrite IH. by destruct f. }
    repeat (rewrite !finish_nil by done; cbn [length Nat.eqb app]). done.
  - constructor; [|done]. split; [done|]. rewrite Hc, Hw, Hsub. cbn -[conforms]. split; [|done]. split; [done|]. cbn -[conforms].
    clear -Hi. by induction Hi.
Qed.

Definition malformed : Bytes := [16; 0; 16; 0; 16; 0; 16; 0; 16; 0; 16] ++ replicate 11 255.
(** On bytes that are no message the parser need not end: an overlong length moves it back. *)
Theorem malformed_never_ends sort_Slice fuel : getReportingToken sort_Slice fuel (whole malformed) = None.
Proof.
  unfold getReportingToken, extractReportingTokenContent. generalize (@nil field) as fields.
  assert (forall rec fields, Forall (fun p => parse_field rec (whole malformed) getReportingFields p.1 fields = Some (Ret (Continue p.2 fields)))
    [(0, 2); (2, 4); (4, 6); (6, 8); (8, 10); (10, 0)]) as Hstep by (intros; repeat constructor).
  induction fuel as [fuel IH] using lt_wf_ind. intros fields.
  do 6 (destruct fuel as [|fuel]; [done|]; cbn [parse_loop]; change (len_ (whole malformed)) with 22%nat;
    pose proof (Hstep (fun data config => parse_loop sort_Slice fuel data config 0 []) fields) as Hs;
    rewrite !Forall_cons in Hs; destruct Hs as (H1 & H2 & H3 & H4 & H5 & H6 & _); cbn [fst snd] in *;
    first [rewrite H1|rewrite H2|rewrite H3|rewrite H4|rewrite H5|rewrite H6]; clear H1 H2 H3 H4 H5 H6; cbn -[parse_loop whole malformed getReportingFields]).
  apply IH. lia.
Qed.

(** ** The theorems at work *)

(** An insertion sort. *)
Fixpoint insert_field (less : field -> field -> bool) (x : field) (l : list field) : list field :=
  match l with [] => [x] | y :: l => if less x y then x :: y :: l else y :: insert_field less x l end.
Definition demo_sort (less : field -> field -> bool) (l : list field) : list field := foldr (insert_field less) [] l.
Lemma insert_field_perm less x l : insert_field less x l ≡ₚ x :: l.
Proof. induction l as [|y l IH]; [done|]. cbn. destruct (less x y); [done|]. rewrite IH. apply perm_swap. Qed.
Lemma insert_field_sorted less x l : strict_weak less ->
  StronglySorted (fun a b => less b a = false) l -> StronglySorted (fun a b => less b a = false) (insert_field less x l).
Proof.
  intros [Hi Ht Hn]. induction 1 as [|y l Hl IH Hy]; cbn; [by repeat constructor|].
  destruct (less x y) eqn:Hxy.
  - assert (less y x = false) as Hyx by (destruct (less y x) eqn:H; [|done]; by rewrite <- (Hi x), (Ht x y x Hxy H)).
    constructor; [by constructor|]. constructor; [done|]. eapply Forall_impl; [exact Hy|]. intros z Hz.
    destruct (less z x) eqn:Hzx; [|done]. by rewrite <- Hz, (Ht z x y Hzx Hxy).
  - constructor; [done|]. rewrite insert_field_perm. by constructor.
Qed.
Lemma demo_sort_ok : sorts demo_sort.
Proof.
  intros less l Hw. induction l as [|x l [Hp Hs]]; [split; [done|constructor]|]. cbn. split; [rewrite insert_field_perm; by constructor|by apply insert_field_sorted].
Qed.

(** An image with a caption and a text, and a view once message. *)
Ltac conform := repeat apply Forall_cons_2; [vm_compute; repeat split; discriminate..|apply Forall_nil_2].
Definition demo_message : list wfield :=
  [WMsg 3 [WBytes 1 [9; 9]; WBytes 3 [104; 105]; WVarint 11 300]; WBytes 1 [111; 107]; WBytes 2 [7]].
Lemma demo_conforms : Forall (conforms getReportingFields) demo_message.
Proof. conform. Qed.
Lemma token_content_witness :
  extractReportingTokenContent demo_sort 100 (whole (encode demo_message)) getReportingFields =
    Some (Ret [10; 2; 111; 107; 26; 7; 26; 2; 104; 105; 88; 172; 2]) /\
  reported getReportingFields demo_message [10; 2; 111; 107; 26; 7; 26; 2; 104; 105; 88; 172; 2].
Proof.
  destruct (token_content demo_sort 100 getReportingFields demo_message demo_sort_ok demo_conforms) as (content & He & Hr);
    [vm_compute; lia|by vm_compute|].
  assert (Some (Ret content) = Some (Ret [10; 2; 111; 107; 26; 7; 26; 2; 104; 105; 88; 172; 2])) as Hc by (rewrite <- He; vm_compute; reflexivity).
  injection Hc as ->. by split.
Defined.
Lemma token_unordered_witness :
  extractReportingTokenContent demo_sort 100 (whole (encode demo_message)) getReportingFields =
  extractReportingTokenContent demo_sort 200 (whole (encode (rev demo_message))) getReportingFields.
Proof.
  apply (token_unordered demo_sort 100 200 getReportingFields demo_message (rev demo_message) demo_sort_ok);
    [apply Permutation.Permutation_rev|apply demo_conforms|vm_compute; repeat constructor; set_solver|vm_compute; lia|vm_compute; lia|by vm_compute].
Defined.
Lemma wrapped_not_reported_witness :
  getReportingToken demo_sort 100 (whole (encode [WMsg 37 [WMsg 1 [WBytes 1 [1; 2; 3]]]])) = Some (Ret []) /\
  getReportingToken demo_sort 100 (whole (encode [WMsg 37 [WMsg 1 [WBytes 1 [4]]]])) = Some (Ret []).
Proof.
  apply (wrapped_not_reported demo_sort 100 37 [WBytes 1 [1; 2; 3]] [WBytes 1 [4]]);
    [exact demo_sort_ok|by left|conform|conform|vm_compute; lia|vm_compute; lia|by vm_compute].
Defined.
