(* ===== verification/Encrypt.v ===== *)
(** * [whatsmeow/send.go]: encryption for devices

    A message is encrypted once for every device, with the session that the client
    shares with it, or with one that it starts from a prekey bundle.  The sessions
    are read ahead into the cache of the context and written back at the end.
    libsignal works on that cache and the tables and is a parameter. *)
From S2P Require Import Prelude GoStrings GoTime Jid BinaryNode NodeAttrs Requests LidMap PreKeys SqlDB SqlText SignalStore Decrypt.

(** The store of a context: the cache of sessions that it may carry, and the tables. *)
Record Signal {Session : Type} : Type := mkSignal { sg_cache : option (gmap string (@sessionCacheEntry Session)); sg_db : SignalDB }.
Arguments Signal : clear implicits.
#[export] Instance eta_Signal {Session} : Eta (Signal Session) := fun r => mkSignal _ (sg_cache r) (sg_db r).

(** The steps of a call that can fail. *)
Inductive enc_error : Type :=
| EncLIDs (e : lid_error)
| EncPrefetch | EncSave
| EncBundle (e : dec_error)
| EncStore
| ErrNoSession (addr : string)
| EncCipher (e : dec_error).

Section Encrypt.
Context (d : Dialect) {Session : Type} (NewSession : Session) (Serialize : Session -> Bytes) (NewSessionFromBytes : Bytes -> option Session).
(** The orders in which maps are iterated over. *)
Context (order : list (string * option Bytes) -> list (string * option Bytes)) (shuffle : list string -> list string).
(** libsignal: a session from a bundle, and a message that starts a session or not. *)
Context (ProcessBundle : string * Z -> Bundle -> Dec (Signal Session) ()).
Context (CipherEncrypt : string * Z -> Bytes -> Dec (Signal Session) (bool * Bytes)).
Context (AutoTrustIdentity hasMessengerConfig : bool) (ownJID ownLID : JID).

(** A statement on the tables. *)
Definition on_db {A} (m : Dec SignalDB A) : Dec (Signal Session) A := fun s =>
  match m (sg_db s) with (r, db) => (r, s <| sg_db := db |>) end.

Definition copyAttrs (from to : list (string * value)) : list (string * value) := foldl (fun m kv => setAttr kv.1 kv.2 m) to from.

(** The session of a device: from a bundle, or one that has to be there. *)
Definition process_bundle (addr : string * Z) (bundle : Bundle) : Dec (Signal Session) () := fun s =>
  match ProcessBundle addr bundle s with
  | (inl ErrUntrustedIdentity, s) =>
      if AutoTrustIdentity then (_ ← on_db (Decrypt.clearUntrustedIdentity d addr); ProcessBundle addr bundle) s else (inl ErrUntrustedIdentity, s)
  | r => r
  end.
Definition ensure_session (addr : string * Z) (bundle : option Bundle) (existingSessions : gmap string bool) (s : Signal Session) :
    option enc_error * Signal Session :=
  match bundle with
  | Some bundle => match process_bundle addr bundle s with (inl e, s) => (Some (EncBundle e), s) | (inr _, s) => (None, s) end
  | None =>
      let checked (exists_ : bool) s := (if exists_ then None else Some (ErrNoSession (address_string addr)), s) in
      match existingSessions !! address_string addr with
      | Some sessionExists => checked sessionExists s
      | None =>
          match ContainsSession (address_string addr) (sg_db s) with
          | (inl _, db) => (Some EncStore, s <| sg_db := db |>)
          | (inr sessionExists, db) => checked sessionExists (s <| sg_db := db |>)
          end
      end
  end.
(** [pad] is the byte that is drawn for the padding. *)
Definition encryptMessageForDevice (pad : Z) (plaintext : Bytes) (to : JID) (bundle : option Bundle) (extraAttrs : list (string * value))
    (existingSessions : gmap string bool) (s : Signal Session) : (enc_error + node * bool) * Signal Session :=
  match ensure_session (SignalAddress to) bundle existingSessions s with
  | (Some e, s) => (inl e, s)
  | (None, s) =>
      match CipherEncrypt (SignalAddress to) (padMessage plaintext pad) s with
      | (inl e, s) => (inl (EncCipher e), s)
      | (inr (isPreKey, ciphertext), s) =>
          let encAttrs := copyAttrs extraAttrs [("v", VString "2"); ("type", VString (if isPreKey : bool then "pkmsg" else "msg"))] in
          let includeDeviceIdentity := match attr encAttrs "type" with Some (VString t) => String.eqb t "pkmsg" | _ => false end && negb hasMessengerConfig in
          (inr (mkNode "enc" encAttrs (VBytes (of_codes ciphertext)), includeDeviceIdentity), s)
      end
  end.
Definition encryptMessageForDeviceAndWrap (pad : Z) (plaintext : Bytes) (wireIdentity encryptionIdentity : JID) (bundle : option Bundle)
    (encAttrs : list (string * value)) (existingSessions : gmap string bool) (s : Signal Session) : (enc_error + node * bool) * Signal Session :=
  match encryptMessageForDevice pad plaintext encryptionIdentity bundle encAttrs existingSessions s with
  | (inl e, s) => (inl e, s)
  | (inr (n, includeDeviceIdentity), s) => (inr (mkNode "to" [("jid", VJID wireIdentity)] (VNodes [n]), includeDeviceIdentity), s)
  end.

(** ** All devices *)

(** The LID of a device that is known by its phone number, when there is one.  The
    sessions of the number move to it; an error of that is only logged. *)
Definition known_lid (lidMappings : gmap JID JID) (jid : JID) : option JID :=
  if String.eqb (Server jid) DefaultUserServer then
    match lidMappings !! jid with Some lid => if Jid.IsEmpty lid then None else Some lid | None => None end
  else None.
Definition encryption_identity (lidMappings : gmap JID JID) (jid : JID) : JID := default jid (known_lid lidMappings jid).
Definition migrateSessionStore (pn lid : JID) (db : SignalDB) : SignalDB := (MigratePNToLID (fold_of d) pn lid db).2.
Definition migrate (lidMappings : gmap JID JID) (db : SignalDB) (jid : JID) : SignalDB :=
  match known_lid lidMappings jid with Some lid => migrateSessionStore jid lid db | None => db end.
Definition session_address (lidMappings : gmap JID JID) (jid : JID) : string := address_string (SignalAddress (encryption_identity lidMappings jid)).
(** [sessionAddressToJID]: the last of the devices with an address. *)
Definition address_owners (lidMappings : gmap JID JID) (allDevices : list JID) : gmap string JID :=
  foldl (fun m jid => <[session_address lidMappings jid := jid]> m) ∅ allDevices.

(** The plaintext for a device: nothing for the one that sends. *)
Definition plaintext_for (msgPlaintext : Bytes) (dsmPlaintext : option Bytes) (jid : JID) : option Bytes :=
  match dsmPlaintext with
  | Some dsm =>
      if String.eqb (User jid) (User ownJID) || String.eqb (User jid) (User ownLID) then
        if bool_decide (jid = ownJID) || bool_decide (jid = ownLID) then None else Some dsm
      else Some msgPlaintext
  | None => Some msgPlaintext
  end.
(** [bundles[jid]]: nil for a missing entry. *)
Fixpoint bundle_for (bundles : list (JID * option Bundle)) (jid : JID) : option Bundle :=
  match bundles with [] => None | (j, b) :: bundles => if decide (j = jid) then b else bundle_for bundles jid end.
(** A device that fails is left out, unless the context has ended by then. *)
Fixpoint encrypt_loop (pad : JID -> Z) (ctx_ended : JID -> bool) (msgPlaintext : Bytes) (dsmPlaintext : option Bytes) (lidMappings : gmap JID JID)
    (bundles : list (JID * option Bundle)) (encAttrs : list (string * value)) (existingSessions : gmap string bool) (devices : list JID)
    (s : Signal Session) : (enc_error + list node * bool) * Signal Session :=
  let rest := encrypt_loop pad ctx_ended msgPlaintext dsmPlaintext lidMappings bundles encAttrs existingSessions in
  match devices with
  | [] => (inr ([], false), s)
  | jid :: devices =>
      match plaintext_for msgPlaintext dsmPlaintext jid with
      | None => rest devices s
      | Some plaintext =>
          match encryptMessageForDeviceAndWrap (pad jid) plaintext jid (encryption_identity lidMappings jid) (bundle_for bundles jid) encAttrs existingSessions s with
          | (inl e, s) => if ctx_ended jid then (inl e, s) else rest devices s
          | (inr (n, isPreKey), s) =>
              match rest devices s with
              | (inl e, s) => (inl e, s)
              | (inr (nodes, include), s) => (inr (n :: nodes, isPreKey || include), s)
              end
          end
      end
  end.

Context (fetch : list JID -> iq_error + node).
(** The devices without a session, in the order of the map; the bundles come from
    the server. *)
Definition retry_devices (lidMappings : gmap JID JID) (allDevices : list JID) (existingSessions : gmap string bool) : list JID :=
  let owners := address_owners lidMappings allDevices in
  omap (fun addr => if default true (existingSessions !! addr) then None else Some (default EmptyJID (owners !! addr)))
    (shuffle (map_to_list existingSessions).*1).
Definition encryptMessageForDevices (pad : JID -> Z) (ctx_ended : JID -> bool) (allDevices : list JID) (msgPlaintext : Bytes) (dsmPlaintext : option Bytes)
    (encAttrs : list (string * value)) (lids : CachedLIDMap) (db : SignalDB) : outcome ((enc_error + list node * bool) * CachedLIDMap * SignalDB) :=
  match GetManyLIDsForPNs (filter (fun jid => Server jid = DefaultUserServer) allDevices) lids with
  | (Some e, _, lids) => Ret (inl (EncLIDs e), lids, db)
  | (None, lidMappings, lids) =>
      let db := foldl (migrate lidMappings) db allDevices in
      match WithCachedSessions NewSession NewSessionFromBytes (session_address lidMappings <$> allDevices) None db with
      | (inl _, _, db) => Ret (inl EncPrefetch, lids, db)
      | (inr existingSessions, cache, db) =>
          let retryDevices := retry_devices lidMappings allDevices existingSessions in
          bundles ← fetchPreKeysNoError retryDevices (fetch retryDevices);
          match encrypt_loop pad ctx_ended msgPlaintext dsmPlaintext lidMappings bundles encAttrs existingSessions allDevices (mkSignal _ cache db) with
          | (inl e, s) => Ret (inl e, lids, sg_db s)
          | (inr result, s) =>
              match PutCachedSessions Serialize order (sg_cache s) (sg_db s) with
              | (inl _, _, db) => Ret (inl EncSave, lids, db)
              | (inr _, _, db) => Ret (inr result, lids, db)
              end
          end
      end
  end.
End Encrypt.

(** ** What the devices receive *)

Section Readers.
Context (d : Dialect) {Session : Type} (NewSession : Session) (Serialize : Session -> Bytes) (NewSessionFromBytes : Bytes -> option Session).
Context (order : list (string * option Bytes) -> list (string * option Bytes)) (shuffle : list string -> list string).
Context (ProcessBundle : string * Z -> Bundle -> Dec (Signal Session) ()).
Context (CipherEncrypt : string * Z -> Bytes -> Dec (Signal Session) (bool * Bytes)).
Context (AutoTrustIdentity hasMessengerConfig : bool) (ownJID ownLID : JID).
Context (fetch : list JID -> iq_error + node).
(** What the device with an address reads in a ciphertext. *)
Context (opens : string * Z -> Bytes -> option Bytes).
Definition ideal_cipher : Prop := forall addr plaintext s isPreKey c s',
  CipherEncrypt addr plaintext s = (inr (isPreKey, c), s') -> opens addr c = Some plaintext /\ Forall is_byte c.
Context (Hideal : ideal_cipher).

(** The node for a device, which reads the plaintext in it. *)
Definition readable (lidMappings : gmap JID JID) (jid : JID) (plaintext : Bytes) (n : node) : Prop :=
  exists enc c padded, n = mkNode "to" [("jid", VJID jid)] (VNodes [enc]) /\ Tag enc = "enc" /\ as_bytes (Content enc) = Some c /\
    opens (SignalAddress (encryption_identity lidMappings jid)) c = Some padded /\ unpadMessage padded 2 = Some plaintext.

Notation loop := (encrypt_loop d ProcessBundle CipherEncrypt AutoTrustIdentity hasMessengerConfig ownJID ownLID).
Notation wrap_one := (encryptMessageForDeviceAndWrap d ProcessBundle CipherEncrypt AutoTrustIdentity hasMessengerConfig).

Lemma wrap_readable pad plaintext jid lm bundle attrs existing s n inc s' :
  wrap_one pad plaintext jid (encryption_identity lm jid) bundle attrs existing s = (inr (n, inc), s') -> readable lm jid plaintext n.
Proof.
  unfold encryptMessageForDeviceAndWrap, encryptMessageForDevice. destruct (ensure_session _ _ _ _ _ _ _) as [[e|] s1]; [done|].
  destruct (CipherEncrypt _ _ s1) as [[e|[isPreKey c]] s2] eqn:He; [done|]. intros [= <- _ _]. apply Hideal in He as [Ho Hb].
  eexists _, c, _. split; [done|]. split; [done|]. split; [cbn; by rewrite codes_of_codes|]. split; [done|]. by apply unpad_padMessage.
Qed.

(** The nodes are those of some of the devices, in their order. *)
Definition served (msg : Bytes) (dsm : option Bytes) (lm : gmap JID JID) (devices : list JID) (nodes : list node) : Prop :=
  exists sent, sublist sent devices /\
    Forall2 (fun jid n => exists plaintext, plaintext_for ownJID ownLID msg dsm jid = Some plaintext /\ readable lm jid plaintext n) sent nodes.
Lemma loop_served pad ended msg dsm lm bundles attrs existing devices : forall s nodes inc s',
  loop pad ended msg dsm lm bundles attrs existing devices s = (inr (nodes, inc), s') -> served msg dsm lm devices nodes.
Proof.
  induction devices as [|jid devices IH]; intros s nodes inc s'; cbn [encrypt_loop].
  { intros [= <- _ _]. exists []. split; [constructor|constructor]. }
  assert (forall s nodes inc s', loop pad ended msg dsm lm bundles attrs existing devices s = (inr (nodes, inc), s') -> served msg dsm lm (jid :: devices) nodes) as Hskip.
  { intros s0 nodes0 inc0 s0' H. apply IH in H as (sent & Hs & Hn). exists sent. split; [by constructor|done]. }
  destruct (plaintext_for _ _ _ _ _) as [plaintext|] eqn:Hp; [|apply Hskip].
  destruct (wrap_one _ _ _ _ _ _ _ _) as [[e|[n isPreKey]] s1] eqn:He; [destruct (ended jid); [done|apply Hskip]|].
  destruct (loop _ _ _ _ _ _ _ _ devices s1) as [[e|[nodes' inc']] s2] eqn:Hl; [done|]. intros [= <- _ _].
  apply IH in Hl as (sent & Hs & Hn). exists (jid :: sent). split; [by constructor|]. constructor; [|done].
  exists plaintext. split; [done|]. by eapply wrap_readable.
Qed.
End Readers.

(** What one of the devices gets: the sender nothing of a message with a copy for its own
    devices, these the copy, all others the message. *)
Lemma plaintext_for_spec ownJID ownLID msg dsm jid p :
  plaintext_for ownJID ownLID msg (Some dsm) jid = Some p ->
  jid <> ownJID /\ jid <> ownLID /\
  (p = if String.eqb (User jid) (User ownJID) || String.eqb (User jid) (User ownLID) then dsm else msg).
Proof.
  unfold plaintext_for. destruct (_ || _) eqn:Hown.
  - destruct (bool_decide (jid = ownJID)) eqn:H1, (bool_decide (jid = ownLID)) eqn:H2; try done.
    apply bool_decide_eq_false in H1, H2. by intros [= <-].
  - apply orb_false_iff in Hown as [H1 H2]. apply String.eqb_neq in H1, H2. intros [= <-]. split; [by intros ->|]. split; [by intros ->|done].
Qed.

(** What a device reads in the part of a direct message that is for it: the message, or the
    copy that says who it was for when it is another device of the sender.  The device that
    sends has no part, and the parts are in the order of the devices. *)
Theorem devices_read d {Session} (NewSession : Session) Serialize NewSessionFromBytes order shuffle ProcessBundle CipherEncrypt trust messenger ownJID ownLID fetch
    opens pad ended devices msg dsm attrs lids db nodes inc lids' db' :
  ideal_cipher CipherEncrypt opens ->
  encryptMessageForDevices d NewSession Serialize NewSessionFromBytes order shuffle ProcessBundle CipherEncrypt trust messenger ownJID ownLID fetch
    pad ended devices msg (Some dsm) attrs lids db = Ret (inr (nodes, inc), lids', db') ->
  exists lidMappings sent, sublist sent devices /\ ownJID ∉ sent /\ ownLID ∉ sent /\
    Forall2 (fun jid n => readable opens lidMappings jid
      (if String.eqb (User jid) (User ownJID) || String.eqb (User jid) (User ownLID) then dsm else msg) n) sent nodes.
Proof.
  intros Hideal. unfold encryptMessageForDevices. destruct (GetManyLIDsForPNs _ _) as [[[e|] lm] lids1]; [done|].
  destruct (WithCachedSessions _ _ _ _ _) as [[[e|existing] cache] db1]; [done|].
  destruct (fetchPreKeysNoError _ _) as [bundles|]; [|done]. cbn -[encrypt_loop PutCachedSessions].
  destruct (encrypt_loop _ _ _ _ _ _ _ _ _ _ _ _ _ _ _ _ _) as [[e|[nodes0 inc0]] s] eqn:Hl; [done|].
  destruct (PutCachedSessions _ _ _ _) as [[[e|[]] c] db2]; [done|]. intros [= <- <- <- <-].
  apply (loop_served _ _ _ _ _ _ _ opens Hideal) in Hl as (sent & Hsub & Hn). exists lm, sent. split; [done|].
  assert (forall jid, jid ∈ sent -> jid <> ownJID /\ jid <> ownLID) as Hne.
  { intros jid Hin. eapply Forall2_Forall_l in Hn. 2: { apply Forall_forall. intros n _ jid' (p & Hp & _). exact (ex_intro _ p Hp). }
    rewrite Forall_forall in Hn. destruct (Hn _ Hin) as [p Hp]. apply plaintext_for_spec in Hp as (H1 & H2 & _). done. }
  split; [intros Hin; by destruct (Hne _ Hin)|]. split; [intros Hin; by destruct (Hne _ Hin)|].
  eapply Forall2_impl; [exact Hn|]. intros jid n (p & Hp & Hr). by apply plaintext_for_spec in Hp as (_ & _ & ->).
Qed.

(** ** That every device is served *)

Lemma migrate_faults d lm db jid : sg_faults db = [] -> sg_faults (migrate d lm db jid) = [].
Proof.
  intros Hf. unfold migrate, migrateSessionStore, MigratePNToLID. destruct (known_lid lm jid) as [lid|]; [|done]. destruct (decide _); [done|].
  set (db1 := db <| migratedPNSessionsCache := _ |>). assert (sg_faults db1 = []) as Hf1 by done.
  erewrite (transaction_ok roll_back _ db1); [|exact Hf1|by apply migration_ok|done]. done.
Qed.
Lemma migrate_all_faults d lm devices db : sg_faults db = [] -> sg_faults (foldl (migrate d lm) db devices) = [].
Proof. revert db. induction devices as [|jid devices IH]; intros db Hf; [done|]. apply IH. by apply migrate_faults. Qed.
Lemma tabulate_lookup {A} (f : string -> A) (l : list string) a : a ∈ l -> (list_to_map ((fun a => (a, f a)) <$> l) : gmap string A) !! a = Some (f a).
Proof.
  induction l as [|b l IH]; intros Ha; [by apply not_elem_of_nil in Ha|]. cbn. destruct (decide (b = a)) as [->|Hne]; [by rewrite lookup_insert_eq|].
  rewrite lookup_insert_ne by done. apply IH. apply elem_of_cons in Ha as [->|]; done.
Qed.
Lemma owners_lookup lm devices : NoDup (session_address lm <$> devices) -> forall (m : gmap string JID) jid, jid ∈ devices ->
  foldl (fun m jid => <[session_address lm jid := jid]> m) m devices !! session_address lm jid = Some jid.
Proof.
  induction devices as [|j devices IH]; intros Hnd m jid Hin; [by apply not_elem_of_nil in Hin|]. cbn in *. apply NoDup_cons in Hnd as [Hn Hnd].
  destruct (decide (jid ∈ devices)) as [Hd|Hd]; [by apply IH|]. apply elem_of_cons in Hin as [->|]; [|done]. clear IH Hnd Hd.
  assert (forall l (m : gmap string JID), session_address lm j ∉ session_address lm <$> l -> m !! session_address lm j = Some j ->
    foldl (fun m jid => <[session_address lm jid := jid]> m) m l !! session_address lm j = Some j) as H.
  { clear. induction l as [|i l IH]; intros m Hn Hm; [done|]. cbn in *. apply not_elem_of_cons in Hn as [H1 H2]. apply IH; [done|]. by rewrite lookup_insert_ne. }
  apply H; [done|]. by rewrite lookup_insert_eq.
Qed.

(** libsignal and the server at their best: no session or bundle is refused. *)
Record willing {Session : Type} (NewSessionFromBytes : Bytes -> option Session) (shuffle : list string -> list string)
    (ProcessBundle : string * Z -> Bundle -> Dec (Signal Session) ()) (CipherEncrypt : string * Z -> Bytes -> Dec (Signal Session) (bool * Bytes))
    (fetch : list JID -> iq_error + node) (allDevices : list JID) : Prop := mkWilling {
  w_parse : forall raw, is_Some (NewSessionFromBytes raw);
  w_shuffle : forall l, shuffle l ≡ₚ l;
  w_bundle : forall addr b s, exists s', ProcessBundle addr b s = (inr (), s') /\ (sg_faults (sg_db s) = [] -> sg_faults (sg_db s') = []);
  w_cipher : forall addr p s, exists r s', CipherEncrypt addr p s = (inr r, s') /\ (sg_faults (sg_db s) = [] -> sg_faults (sg_db s') = []);
  w_fetch : forall devices, devices ⊆ allDevices -> exists bundles, fetchPreKeysNoError devices (fetch devices) = Ret bundles /\
    forall jid, jid ∈ devices -> is_Some (bundle_for bundles jid) }.

Section Served.
Context (d : Dialect) {Session : Type} (NewSession : Session) (Serialize : Session -> Bytes) (NewSessionFromBytes : Bytes -> option Session).
Context (order : list (string * option Bytes) -> list (string * option Bytes)) (shuffle : list string -> list string).
Context (ProcessBundle : string * Z -> Bundle -> Dec (Signal Session) ()).
Context (CipherEncrypt : string * Z -> Bytes -> Dec (Signal Session) (bool * Bytes)).
Context (AutoTrustIdentity hasMessengerConfig : bool) (ownJID ownLID : JID).
Context (fetch : list JID -> iq_error + node) (all : list JID) (Hw : willing NewSessionFromBytes shuffle ProcessBundle CipherEncrypt fetch all).

Notation loop := (encrypt_loop d ProcessBundle CipherEncrypt AutoTrustIdentity hasMessengerConfig ownJID ownLID).

(** A device with a session or with a bundle. *)
Definition reachable (lm : gmap JID JID) (bundles : list (JID * option Bundle)) (existing : gmap string bool) (jid : JID) : Prop :=
  existing !! session_address lm jid = Some true \/ is_Some (bundle_for bundles jid).
Definition wire_jid (n : node) : option value := attr (Attrs n) "jid".
Definition recipients (msg : Bytes) (dsm : option Bytes) (devices : list JID) : list JID :=
  filter (fun jid => is_Some (plaintext_for ownJID ownLID msg dsm jid)) devices.

Lemma ensure_reachable lm bundles existing jid s : reachable lm bundles existing jid -> exists s',
  ensure_session d ProcessBundle AutoTrustIdentity (SignalAddress (encryption_identity lm jid)) (bundle_for bundles jid) existing s = (None, s') /\
  (sg_faults (sg_db s) = [] -> sg_faults (sg_db s') = []).
Proof.
  intros Hr. unfold ensure_session. destruct (bundle_for bundles jid) as [b|] eqn:Hb.
  - destruct (w_bundle _ _ _ _ _ _ Hw (SignalAddress (encryption_identity lm jid)) b s) as (s' & Hp & Hf). exists s'. unfold process_bundle. by rewrite Hp.
  - destruct Hr as [Hr|[? ?]]; [|congruence]. unfold session_address in Hr. rewrite Hr. by exists s.
Qed.
Lemma loop_complete pad ended msg dsm lm bundles attrs existing devices : forall s, Forall (reachable lm bundles existing) devices ->
  exists nodes inc s', loop pad ended msg dsm lm bundles attrs existing devices s = (inr (nodes, inc), s') /\
    wire_jid <$> nodes = Some ∘ VJID <$> recipients msg dsm devices /\ (sg_faults (sg_db s) = [] -> sg_faults (sg_db s') = []).
Proof.
  induction devices as [|jid devices IH]; intros s Hr; cbn [encrypt_loop]; [by eexists _, _, _|].
  apply Forall_cons in Hr as [Hj Hr]. unfold recipients. rewrite filter_cons. destruct (plaintext_for _ _ _ _ _) as [p|].
  2: { rewrite decide_False by by intros []. by apply IH. }
  rewrite decide_True by done. unfold encryptMessageForDeviceAndWrap, encryptMessageForDevice.
  destruct (ensure_reachable lm bundles existing jid s Hj) as (s1 & -> & Hf1).
  destruct (w_cipher _ _ _ _ _ _ Hw (SignalAddress (encryption_identity lm jid)) (padMessage p (pad jid)) s1) as ([isPreKey c] & s2 & -> & Hf2).
  destruct (IH s2 Hr) as (nodes & inc & s3 & -> & Hn & Hf3). eexists _, _, s3. split; [done|]. split; [|tauto].
  cbn [fmap list_fmap]. by rewrite Hn.
Qed.

(** The sessions that are read ahead, when no statement fails. *)
Definition session_found (db : SignalDB) (a : string) : bool := bool_decide (is_Some (mjoin (sessions db !! a))).
Lemma prefetch_all devices lm db : sg_faults db = [] -> devices <> [] -> exists existing cache,
  WithCachedSessions NewSession NewSessionFromBytes (session_address lm <$> devices) None db = (inr existing, cache, db) /\
  (forall jid, jid ∈ devices -> existing !! session_address lm jid = Some (session_found db (session_address lm jid))).
Proof.
  intros Hf Hne. unfold WithCachedSessions, GetManySessions. destruct devices as [|j l]; [done|]. set (devices := j :: l) in *. clearbody devices. clear j l.
  destruct (session_address lm <$> devices) as [|a l] eqn:Ha; [destruct devices; done|]. rewrite <- Ha. clear a l Ha. rewrite select_ok by done.
  eexists _, _. split; [reflexivity|]. intros jid Hin. rewrite lookup_fmap, lookup_omap, tabulate_lookup by by apply list_elem_of_fmap_2.
  cbn [mbind option_bind prefetch fmap option_fmap option_map]. unfold session_found. destruct (mjoin (sessions db !! session_address lm jid)) as [raw|]; [|done].
  cbn [prefetch]. by destruct (w_parse _ _ _ _ _ _ Hw raw) as [x ->].
Qed.
Lemma retry_members lm devices existing : NoDup (session_address lm <$> devices) -> (forall a, is_Some (existing !! a) -> a ∈ session_address lm <$> devices) ->
  retry_devices shuffle lm devices existing ⊆ devices /\
  forall jid, jid ∈ devices -> existing !! session_address lm jid = Some false -> jid ∈ retry_devices shuffle lm devices existing.
Proof.
  intros Hnd Hkeys. unfold retry_devices, address_owners. split.
  - intros jid (a & Ha & He)%list_elem_of_omap. rewrite (w_shuffle _ _ _ _ _ _ Hw) in Ha. apply list_elem_of_fmap in Ha as ([a' b] & -> & Ha%elem_of_map_to_list).
    cbn [fst] in *. rewrite Ha in He. cbn in He. destruct b; [done|]. 
    assert (a' ∈ session_address lm <$> devices) as (j & -> & Hj)%list_elem_of_fmap by (apply Hkeys; by rewrite Ha).
    rewrite owners_lookup in He by done. by injection He as <-.
  - intros jid Hin He. apply list_elem_of_omap. exists (session_address lm jid). split.
    + rewrite (w_shuffle _ _ _ _ _ _ Hw). apply list_elem_of_fmap. exists (session_address lm jid, false). split; [done|]. by apply elem_of_map_to_list.
    + rewrite He. cbn [default from_option]. by rewrite owners_lookup.
Qed.
End Served.

(** C17. When no statement fails and neither libsignal nor the server refuses a device, each
    device that is to get the message has its part, in the order of the list; addresses that
    two devices share are excluded. *)
Theorem all_devices_served d {Session} (NewSession : Session) Serialize NewSessionFromBytes order shuffle ProcessBundle CipherEncrypt trust messenger ownJID ownLID fetch
    pad ended devices msg dsm attrs lids db lm lids' :
  willing NewSessionFromBytes shuffle ProcessBundle CipherEncrypt fetch devices ->
  GetManyLIDsForPNs (filter (fun jid => Server jid = DefaultUserServer) devices) lids = (None, lm, lids') ->
  NoDup (session_address lm <$> devices) -> sg_faults db = [] ->
  exists nodes inc db',
    encryptMessageForDevices d NewSession Serialize NewSessionFromBytes order shuffle ProcessBundle CipherEncrypt trust messenger ownJID ownLID fetch
      pad ended devices msg dsm attrs lids db = Ret (inr (nodes, inc), lids', db') /\
    wire_jid <$> nodes = Some ∘ VJID <$> recipients ownJID ownLID msg dsm devices.
Proof.
  intros Hw Hl Hnd Hf. unfold encryptMessageForDevices. rewrite Hl. pose proof (migrate_all_faults d lm devices db Hf) as Hf'.
  set (db1 := foldl _ _ _) in *. clearbody db1. destruct (decide (devices = [])) as [->|Hne].
  { assert (shuffle [] = []) as Hs by (apply Permutation_nil; symmetry; apply (w_shuffle _ _ _ _ _ _ Hw)).
    cbn [fmap list_fmap WithCachedSessions]. unfold retry_devices. rewrite map_to_list_empty. cbn [fmap list_fmap]. rewrite Hs. by eexists _, _, _. }
  destruct (prefetch_all NewSession _ _ _ _ _ _ Hw devices lm db1 Hf' Hne) as (existing & cache & Hpre & Hex).
  pose proof Hpre as Hkeys. rewrite Hpre.
  assert (forall a, is_Some (existing !! a) -> a ∈ session_address lm <$> devices) as Hdom.
  { clear -Hkeys Hf'. unfold WithCachedSessions, GetManySessions in Hkeys. destruct (session_address lm <$> devices) as [|b l] eqn:Hb.
    { injection Hkeys as <- _. intros a [x Hx]. by rewrite lookup_empty in Hx. }
    rewrite <- Hb in *. clear b l Hb. rewrite select_ok in Hkeys by done. injection Hkeys as <- _. intros a [x Hx].
    rewrite lookup_fmap, lookup_omap in Hx. destruct (_ !! a) as [raw|] eqn:Ha; [|done].
    apply elem_of_list_to_map_2 in Ha. apply list_elem_of_fmap in Ha as (a' & [= -> _] & Ha). done. }
  destruct (retry_members _ _ _ _ _ _ Hw lm devices existing Hnd Hdom) as [Hsub Hmem].
  destruct (w_fetch _ _ _ _ _ _ Hw _ Hsub) as (bundles & Hbs & Hb). rewrite Hbs. cbn [mbind outcome_bind].
  destruct (loop_complete d NewSession Serialize _ shuffle ProcessBundle CipherEncrypt trust messenger ownJID ownLID fetch devices Hw pad ended msg dsm lm bundles attrs existing devices (mkSignal _ cache db1))
    as (nodes & inc & s & -> & Hn & Hfs).
  { apply Forall_forall. intros jid Hin. specialize (Hex jid Hin). destruct (session_found db1 (session_address lm jid)) eqn:Hfound; [by left|].
    right. apply Hb, Hmem; done. }
  specialize (Hfs Hf'). cbn [fst snd]. unfold PutCachedSessions. destruct (sg_cache s) as [c|]; [|by eexists _, _, _].
  destruct (Nat.eqb _ 0); [by eexists _, _, _|]. unfold wrap, PutManySessions.
  erewrite transaction_ok; [|exact Hfs|by apply putSessions_ok|exact Hfs]. by eexists _, _, _.
Qed.

(** ** The theorems at work *)

Definition demo_peer : JID := mkJID "77" 0 3 0 HiddenUserServer.
Definition demo_own : JID := mkJID "4915123" 0 2 0 DefaultUserServer.
Definition demo_own_lid : JID := mkJID "55" 0 2 0 HiddenUserServer.
Definition demo_phone : JID := mkJID "55" 0 0 0 HiddenUserServer.
(** A cipher that leaves bytes as they are, with sessions that count the messages. *)
Definition toy_cipher (addr : string * Z) (p : Bytes) : Dec (Signal Bytes) (bool * Bytes) := fun s =>
  if forallb (fun b => (0 <=? b) && (b <? 256)) p then (inr (false, p), s) else (inl DecOther, s).
Definition toy_count (addr : string * Z) (p : Bytes) : Dec (Signal Bytes) (bool * Bytes) := fun s =>
  (inr (false, p), s <| sg_cache := (fun c => <[address_string addr := mkEntry true true p]> c) <$> sg_cache s |>).
Definition toy_process (addr : string * Z) (b : Bundle) : Dec (Signal Bytes) () := fun s =>
  (inr (), s <| sg_cache := (fun c => <[address_string addr := mkEntry true true (IdentityKey b)]> c) <$> sg_cache s |>).
Definition demo_response : node :=
  mkNode "iq" [] (VNodes [mkNode "list" [] (VNodes [mkNode "user" [("jid", VJID demo_peer)] (VNodes
    [registrationNode 77; typeNode; identityNode (repeat 8 32); preKeyToNode (demo_key (2 ^ 24 + 5) None);
     preKeyToNode (demo_key 6 (Some (repeat 3 64)))])])]).
Definition demo_tables : SignalDB :=
  mkSignalDB ∅ {["55_1:0" := Some [2]]} ∅ ∅ [].

Lemma toy_cipher_ideal : ideal_cipher toy_cipher (fun _ c => Some c).
Proof.
  intros addr p s i c s'. unfold toy_cipher. destruct (forallb _ p) eqn:Hf; [|done]. intros [= <- <- <-]. split; [done|].
  apply Forall_forall. intros b Hb. apply list_elem_of_In in Hb. apply forallb_forall with (x := b) in Hf; [|done]. unfold is_byte. lia.
Qed.
Lemma devices_read_witness :
  exists lidMappings sent nodes, sublist sent [demo_phone; demo_own_lid; demo_peer] /\ demo_own_lid ∉ sent /\ length nodes = 2%nat /\
    Forall2 (fun jid n => readable (fun _ c => Some c) lidMappings jid (if String.eqb (User jid) "4915123" || String.eqb (User jid) "55" then [5] else [6]) n) sent nodes.
Proof.
  set (run := encryptMessageForDevices SQLite [] id Some id id toy_process toy_cipher false false demo_own demo_own_lid (fun _ => inr demo_response)
    (fun _ => 3) (fun _ => false) [demo_phone; demo_own_lid; demo_peer] [6] (Some [5]) [] (NewCachedLIDMap [] []) demo_tables).
  assert (exists nodes inc lids' db', run = Ret (inr (nodes, inc), lids', db') /\ length nodes = 2%nat) as (nodes & inc & lids' & db' & Hr & Hl).
  { eexists _, _, _, _. split; [unfold run; vm_compute; reflexivity|reflexivity]. }
  destruct (devices_read SQLite [] id Some id id toy_process toy_cipher false false demo_own demo_own_lid (fun _ => inr demo_response) (fun _ c => Some c)
    (fun _ => 3) (fun _ => false) [demo_phone; demo_own_lid; demo_peer] [6] [5] [] (NewCachedLIDMap [] []) demo_tables nodes inc lids' db'
    toy_cipher_ideal Hr) as (lm & sent & Hs & _ & Ho & Hn).
  exists lm, sent, nodes. split; [exact Hs|]. split; [exact Ho|]. split; [exact Hl|exact Hn].
Defined.

Lemma demo_willing : willing Some id toy_process toy_count (fun _ => inr demo_response) [demo_peer].
Proof.
  split; [by eexists|done|intros; by eexists|intros; by eexists _, _|].
  intros devices Hsub. destruct devices as [|x devices].
  { exists []. split; [done|]. intros jid H. by apply not_elem_of_nil in H. }
  assert (exists b, fetchPreKeys (inr demo_response) = Ret (inr [(demo_peer, inr b)])) as [b Hb] by (eexists; vm_compute; reflexivity).
  unfold fetchPreKeysNoError. rewrite Hb. cbn [mbind outcome_bind]. eexists. split; [reflexivity|]. intros jid Hin.
  assert (jid = demo_peer) as -> by (apply Hsub in Hin; by apply list_elem_of_singleton in Hin).
  assert (x = demo_peer) as -> by (assert (x ∈ x :: devices) as Hx by (by left); apply Hsub in Hx; by apply list_elem_of_singleton in Hx).
  cbn -[demo_peer]. rewrite decide_True by done. cbn -[demo_peer]. rewrite decide_True by done. done.
Qed.
Lemma all_devices_served_witness :
  exists nodes inc db',
    encryptMessageForDevices SQLite [] id Some id id toy_process toy_count false false demo_own demo_own_lid (fun _ => inr demo_response)
      (fun _ => 3) (fun _ => false) [demo_peer] [6] None [] (NewCachedLIDMap [] []) (demo_tables <| sessions := ∅ |>) = Ret (inr (nodes, inc), NewCachedLIDMap [] [], db') /\
    wire_jid <$> nodes = [Some (VJID demo_peer)].
Proof.
  exact (all_devices_served SQLite [] id Some id id toy_process toy_count false false demo_own demo_own_lid (fun _ => inr demo_response)
    (fun _ => 3) (fun _ => false) [demo_peer] [6] None [] (NewCachedLIDMap [] []) (demo_tables <| sessions := ∅ |>) ∅ (NewCachedLIDMap [] [])
    demo_willing eq_refl (NoDup_singleton _) eq_refl).
Defined.
