(* ===== verification/GroupParse.v ===== *)
(** * [whatsmeow/group.go], [types/group.go]: what the server says about groups

    The parsers of groups, of their members and of the changes to them.  A reader
    of attributes collects its errors; those of a part of a group are only
    logged, those of a change make the whole notification fail. *)
From S2P Require Import Prelude GoStrings GoTime Jid BinaryNode NodeAttrs Requests LidMap SqlDB Contacts.

(** ** Reading attributes *)

Definition Reading (A : Type) : Type := AttrUtility -> A * AttrUtility.
#[export] Instance Reading_ret : MRet Reading := fun A a ag => (a, ag).
#[export] Instance Reading_bind : MBind Reading := fun A B f m ag => let '(a, ag) := m ag in f a ag.
Definition reads {A} (f : AttrUtility -> A * AttrUtility) : Reading A := f.

(** ** The data *)

Record GroupName : Type := mkGroupName { Name : string; NameSetAt : Time; NameSetBy : JID; NameSetByPN : JID }.
Record GroupTopic : Type := mkGroupTopic { Topic : string; TopicID : string; TopicSetAt : Time; TopicSetBy : JID; TopicSetByPN : JID; TopicDeleted : bool }.
Record GroupAnnounce : Type := mkGroupAnnounce { IsAnnounce : bool; AnnounceVersionID : string }.
Record GroupEphemeral : Type := mkGroupEphemeral { IsEphemeral : bool; DisappearingTimer : Z }.
Record GroupParent : Type := mkGroupParent { IsParent : bool; DefaultMembershipApprovalMode : string }.
Record AddRequest : Type := mkAddRequest { Code : string; Expiration : Time }.
Record GroupParticipant : Type := mkParticipant {
  gp_JID : JID; PhoneNumber : JID; gp_LID : JID; IsAdmin : bool; IsSuperAdmin : bool; DisplayName : string;
  ErrorCode : Z; gp_AddRequest : option AddRequest }.
#[export] Instance eta_GroupParticipant : Eta GroupParticipant := fun r =>
  mkParticipant (gp_JID r) (PhoneNumber r) (gp_LID r) (IsAdmin r) (IsSuperAdmin r) (DisplayName r) (ErrorCode r) (gp_AddRequest r).
Record GroupInfo : Type := mkGroupInfo {
  gi_JID : JID; OwnerJID : JID; OwnerPN : JID;
  gi_Name : GroupName; gi_Topic : GroupTopic; IsLocked : bool; gi_Announce : GroupAnnounce; gi_Ephemeral : GroupEphemeral; IsIncognito : bool;
  gi_Parent : GroupParent; LinkedParentJID : JID; IsDefaultSubGroup : bool; IsJoinApprovalRequired : bool;
  AddressingMode : string; GroupCreated : Time; CreatorCountryCode : string;
  gi_ParticipantVersionID : string; Participants : list GroupParticipant; ParticipantCount : Z;
  MemberAddMode : string; gi_Suspended : bool }.
#[export] Instance eta_GroupInfo : Eta GroupInfo := fun r =>
  mkGroupInfo (gi_JID r) (OwnerJID r) (OwnerPN r) (gi_Name r) (gi_Topic r) (IsLocked r) (gi_Announce r) (gi_Ephemeral r) (IsIncognito r)
    (gi_Parent r) (LinkedParentJID r) (IsDefaultSubGroup r) (IsJoinApprovalRequired r) (AddressingMode r) (GroupCreated r) (CreatorCountryCode r)
    (gi_ParticipantVersionID r) (Participants r) (ParticipantCount r) (MemberAddMode r) (gi_Suspended r).
Record GroupLinkTarget : Type := mkLinkTarget { lt_JID : JID; lt_Name : GroupName; lt_IsDefaultSubGroup : bool }.
Record GroupLinkChange : Type := mkLinkChange { lc_Type : string; UnlinkReason : string; lc_Group : GroupLinkTarget }.

Definition noName : GroupName := mkGroupName "" zeroTime EmptyJID EmptyJID.
Definition noTopic : GroupTopic := mkGroupTopic "" "" zeroTime EmptyJID EmptyJID false.

(** ** Groups and members *)

(** [Content.([]byte)], as a string. *)
Definition bytes_content (n : node) : option string := match Content n with VBytes b => Some b | _ => None end.

Definition parseAddRequest (n : node) : AddRequest :=
  let ag := AttrGetter n in
  let '(code, ag) := getString "code" ag in
  let '(expiration, _) := UnixTime "expiration" ag in
  mkAddRequest code expiration.
Definition parseParticipant (child : node) : Reading GroupParticipant :=
  pcpType ← reads (OptionalString "type");
  jid ← reads (getJID "jid");
  displayName ← reads (OptionalString "display_name");
  let isSuper := String.eqb pcpType "superadmin" in
  let participant := mkParticipant jid EmptyJID EmptyJID (String.eqb pcpType "admin" || isSuper) isSuper displayName 0 None in
  participant ←
    (if String.eqb (Server jid) HiddenUserServer then
       pn ← reads (OptionalJIDOrEmpty "phone_number"); mret (participant <| gp_LID := jid |> <| PhoneNumber := pn |>)
     else if String.eqb (Server jid) DefaultUserServer then
       lid ← reads (OptionalJIDOrEmpty "lid"); mret (participant <| PhoneNumber := jid |> <| gp_LID := lid |>)
     else mret participant);
  errorCode ← reads (OptionalInt "error");
  mret (if errorCode =? 0 then participant
        else match GetOptionalChildByTag child ["add_request"] with
             | (addRequest, true) => participant <| ErrorCode := errorCode |> <| gp_AddRequest := Some (parseAddRequest addRequest) |>
             | (_, false) => participant <| ErrorCode := errorCode |>
             end).

(** A child of a group; errors in it are only logged. *)
Definition parse_group_child (g : GroupInfo) (child : node) : GroupInfo :=
  let ag := AttrGetter child in
  let tag := Tag child in
  if String.eqb tag "participant" then g <| Participants := Participants g ++ [(parseParticipant child ag).1] |>
  else if String.eqb tag "description" then
    match GetOptionalChildByTag child ["body"] with
    | (body, true) =>
        g <| gi_Topic := (
          (id ← reads (getString "id"); by_ ← reads (OptionalJIDOrEmpty "participant"); byPN ← reads (OptionalJIDOrEmpty "participant_pn");
           at_ ← reads (UnixTime "t");
           mret (mkGroupTopic (default "" (bytes_content body)) id at_ by_ byPN (TopicDeleted (gi_Topic g)))) ag).1 |>
    | (_, false) => g
    end
  else if String.eqb tag "announcement" then g <| gi_Announce := mkGroupAnnounce true (AnnounceVersionID (gi_Announce g)) |>
  else if String.eqb tag "locked" then g <| IsLocked := true |>
  else if String.eqb tag "ephemeral" then g <| gi_Ephemeral := mkGroupEphemeral true (uint32 (Uint64 "expiration" ag).1) |>
  else if String.eqb tag "member_add_mode" then g <| MemberAddMode := default "" (bytes_content child) |>
  else if String.eqb tag "linked_parent" then g <| LinkedParentJID := (getJID "jid" ag).1 |>
  else if String.eqb tag "default_sub_group" then g <| IsDefaultSubGroup := true |>
  else if String.eqb tag "parent" then g <| gi_Parent := mkGroupParent true (OptionalString "default_membership_approval_mode" ag).1 |>
  else if String.eqb tag "incognito" then g <| IsIncognito := true |>
  else if String.eqb tag "membership_approval_mode" then g <| IsJoinApprovalRequired := true |>
  else if String.eqb tag "suspended" then g <| gi_Suspended := true |>
  else g.
Definition parse_group_attrs : Reading GroupInfo :=
  id ← reads (getString "id");
  owner ← reads (OptionalJIDOrEmpty "creator"); ownerPN ← reads (OptionalJIDOrEmpty "creator_pn");
  name ← reads (OptionalString "subject"); s_t ← reads (OptionalUnixTime "s_t");
  s_o ← reads (OptionalJIDOrEmpty "s_o"); s_o_pn ← reads (OptionalJIDOrEmpty "s_o_pn");
  created ← reads (OptionalUnixTime "creation"); country ← reads (OptionalString "creator_country_code");
  a_v ← reads (OptionalString "a_v_id"); p_v ← reads (OptionalString "p_v_id"); size ← reads (OptionalInt "size");
  mode ← reads (OptionalString "addressing_mode");
  mret (mkGroupInfo (NewJID id GroupServer) owner ownerPN (mkGroupName name s_t s_o s_o_pn) noTopic false (mkGroupAnnounce false a_v)
    (mkGroupEphemeral false 0) false (mkGroupParent false "") EmptyJID false false mode created country p_v [] size "" false).
(** The group is returned with the errors. *)
Definition parseGroupNode (groupNode : node) : GroupInfo * option (list attr_error) :=
  let '(group, ag) := parse_group_attrs (AttrGetter groupNode) in
  (foldl parse_group_child group (GetChildren groupNode), Error_ ag).

Definition parseGroupLinkTargetNode (groupNode : node) : GroupLinkTarget * option (list attr_error) :=
  let '(target, ag) := (
    jid ← reads (OptionalJIDOrEmpty "jid");
    jidKey ← (if Jid.IsEmpty jid then id ← reads (getString "id"); mret (NewJID id GroupServer) else mret jid);
    name ← reads (OptionalString "subject"); s_t ← reads (OptionalUnixTime "s_t");
    mret (mkLinkTarget jidKey (mkGroupName name s_t EmptyJID EmptyJID)
      (String.eqb (Tag (GetChildByTag groupNode ["default_sub_group"])) "default_sub_group"))) (AttrGetter groupNode) in
  (target, Error_ ag).

(** [child.Attrs[key].(types.JID)] *)
Definition jid_attr (child : node) (key : string) : option JID := match attr (Attrs child) key with Some (VJID j) => Some j | _ => None end.
Definition nonempty (j : option JID) : option JID := match j with Some j => if Jid.IsEmpty j then None else Some j | None => None end.
Definition participant_jid (child : node) : option JID := if String.eqb (Tag child) "participant" then jid_attr child "jid" else None.
Definition participant_pair (child : node) : option LIDMapping :=
  match participant_jid child with
  | None => None
  | Some jid =>
      if String.eqb (Server jid) HiddenUserServer then mkMapping jid <$> nonempty (jid_attr child "phone_number")
      else if String.eqb (Server jid) DefaultUserServer then (fun lid => mkMapping lid jid) <$> nonempty (jid_attr child "lid")
      else None
  end.
Definition parseParticipantList (n : node) : list JID * list LIDMapping :=
  (omap participant_jid (GetChildren n), omap participant_pair (GetChildren n)).

(** ** Changes *)

(** [events.GroupInfo]; a pointer is an option. *)
Record GroupChange : Type := mkChange {
  gc_JID : JID; Notify : string; gc_Sender : option JID; gc_SenderPN : option JID; gc_Timestamp : Time;
  gc_Name : option GroupName; gc_Topic : option GroupTopic; gc_Locked : option bool; gc_Announce : option GroupAnnounce; gc_Ephemeral : option GroupEphemeral;
  MembershipApprovalMode : option bool; gc_Delete : option (bool * string); Link : option GroupLinkChange; Unlink : option GroupLinkChange;
  NewInviteLink : option string; PrevParticipantVersionID : string; gc_ParticipantVersionID : string; JoinReason : string;
  Join : list JID; Leave : list JID; Promote : list JID; Demote : list JID; gc_Suspended : bool; Unsuspended : bool; UnknownChanges : list node }.
#[export] Instance eta_GroupChange : Eta GroupChange := fun r =>
  mkChange (gc_JID r) (Notify r) (gc_Sender r) (gc_SenderPN r) (gc_Timestamp r) (gc_Name r) (gc_Topic r) (gc_Locked r) (gc_Announce r) (gc_Ephemeral r)
    (MembershipApprovalMode r) (gc_Delete r) (Link r) (Unlink r) (NewInviteLink r) (PrevParticipantVersionID r) (gc_ParticipantVersionID r) (JoinReason r)
    (Join r) (Leave r) (Promote r) (Demote r) (gc_Suspended r) (Unsuspended r) (UnknownChanges r).

Inductive query_error : Type :=
| QueryIQ (human : option string) (e : iq_error)
| QueryMissing (tag in_ : string)
| QueryAttrs (errors : list attr_error)
| QueryStore
| QueryOther (msg : string).

Definition InviteLinkPrefix : string := "https://chat.whatsapp.com/".

(** The event and the pairs of addresses so far. *)
Definition change_state : Type := GroupChange * list LIDMapping.
Definition parse_link (kind type_key : string) (reason : bool) (child : node) : AttrUtility -> query_error + (GroupLinkChange * AttrUtility) := fun cag =>
  let '(type_, cag) := getString type_key cag in
  let '(why, cag) := if reason then getString "unlink_reason" cag else ("", cag) in
  match GetOptionalChildByTag child ["group"] with
  | (_, false) => inl (QueryMissing "group" kind)
  | (groupNode, true) =>
      match parseGroupLinkTargetNode groupNode with
      | (_, Some e) => inl (QueryAttrs e)
      | (target, None) => inr (mkLinkChange type_ why target, cag)
      end
  end.
Definition parse_change (s : change_state) (child : node) : query_error + change_state :=
  let '(evt, lidPairs) := s in
  let cag := AttrGetter child in
  let tag := Tag child in
  let membership := existsb (String.eqb tag) ["add"; "remove"; "promote"; "demote"] in
  let '(prev, cag) := if membership then OptionalString "prev_v_id" cag else (PrevParticipantVersionID evt, cag) in
  let '(v, cag) := if membership then OptionalString "v_id" cag else (gc_ParticipantVersionID evt, cag) in
  let evt := evt <| PrevParticipantVersionID := prev |> <| gc_ParticipantVersionID := v |> in
  let checked (evt : GroupChange) (pairs : list LIDMapping) (cag : AttrUtility) : query_error + change_state :=
    match Error_ cag with Some e => inl (QueryAttrs e) | None => inr (evt, pairs) end in
  if String.eqb tag "add" then
    let '(reason, cag) := OptionalString "reason" cag in
    checked (evt <| JoinReason := reason |> <| Join := (parseParticipantList child).1 |>) (parseParticipantList child).2 cag
  else if String.eqb tag "remove" then checked (evt <| Leave := (parseParticipantList child).1 |>) (parseParticipantList child).2 cag
  else if String.eqb tag "promote" then checked (evt <| Promote := (parseParticipantList child).1 |>) (parseParticipantList child).2 cag
  else if String.eqb tag "demote" then checked (evt <| Demote := (parseParticipantList child).1 |>) (parseParticipantList child).2 cag
  else if String.eqb tag "locked" then checked (evt <| gc_Locked := Some true |>) lidPairs cag
  else if String.eqb tag "unlocked" then checked (evt <| gc_Locked := Some false |>) lidPairs cag
  else if String.eqb tag "delete" then
    let '(reason, cag) := getString "reason" cag in checked (evt <| gc_Delete := Some (true, reason) |>) lidPairs cag
  else if String.eqb tag "subject" then
    let '(name, cag) := (
      subject ← reads (getString "subject"); s_t ← reads (UnixTime "s_t"); s_o ← reads (OptionalJIDOrEmpty "s_o"); s_o_pn ← reads (OptionalJIDOrEmpty "s_o_pn");
      mret (mkGroupName subject s_t s_o s_o_pn)) cag in
    checked (evt <| gc_Name := Some name |>) lidPairs cag
  else if String.eqb tag "description" then
    let isDelete := (GetOptionalChildByTag child ["delete"]).2 in
    match (if isDelete then Some "" else bytes_content (GetChildByTag child ["body"])) with
    | None => inl (QueryOther "group change description has unexpected body")
    | Some topicStr =>
        let '(id, cag) := getString "id" cag in
        checked (evt <| gc_Topic := Some (mkGroupTopic topicStr id (gc_Timestamp evt) (default EmptyJID (gc_Sender evt)) EmptyJID isDelete) |>) lidPairs cag
    end
  else if String.eqb tag "announcement" then
    let '(v_id, cag) := getString "v_id" cag in checked (evt <| gc_Announce := Some (mkGroupAnnounce true v_id) |>) lidPairs cag
  else if String.eqb tag "not_announcement" then
    let '(v_id, cag) := getString "v_id" cag in checked (evt <| gc_Announce := Some (mkGroupAnnounce false v_id) |>) lidPairs cag
  else if String.eqb tag "invite" then
    let '(code, cag) := getString "code" cag in checked (evt <| NewInviteLink := Some (InviteLinkPrefix +:+ code) |>) lidPairs cag
  else if String.eqb tag "ephemeral" then
    let '(timer, cag) := Uint64 "expiration" cag in checked (evt <| gc_Ephemeral := Some (mkGroupEphemeral true (uint32 timer)) |>) lidPairs cag
  else if String.eqb tag "not_ephemeral" then checked (evt <| gc_Ephemeral := Some (mkGroupEphemeral false 0) |>) lidPairs cag
  else if String.eqb tag "link" then
    match parse_link "group link" "link_type" false child cag with
    | inl e => inl e
    | inr (l, cag) => checked (evt <| Link := Some l |>) lidPairs cag
    end
  else if String.eqb tag "unlink" then
    match parse_link "group unlink" "unlink_type" true child cag with
    | inl e => inl e
    | inr (l, cag) => checked (evt <| Unlink := Some l |>) lidPairs cag
    end
  else if String.eqb tag "membership_approval_mode" then checked (evt <| MembershipApprovalMode := Some true |>) lidPairs cag
  else if String.eqb tag "suspended" then checked (evt <| gc_Suspended := true |>) lidPairs cag
  else if String.eqb tag "unsuspended" then checked (evt <| Unsuspended := true |>) lidPairs cag
  else checked (evt <| UnknownChanges := UnknownChanges evt ++ [child] |>) lidPairs cag.
Fixpoint parse_changes (s : change_state) (children : list node) : query_error + change_state :=
  match children with
  | [] => inr s
  | child :: children => match parse_change s child with inl e => inl e | inr s => parse_changes s children end
  end.
Definition parseGroupChange (n : node) : query_error + change_state :=
  let '(evt, ag) := (
    jid ← reads (getJID "from"); notify ← reads (OptionalString "notify"); sender ← reads (OptionalJID "participant");
    senderPN ← reads (OptionalJID "participant_pn"); t ← reads (UnixTime "t");
    mret (mkChange jid notify sender senderPN t None None None None None None None None None None "" "" "" [] [] [] [] false false [])) (AttrGetter n) in
  match Error_ ag with
  | Some e => inl (QueryAttrs e)
  | None => parse_changes (evt, []) (GetChildren n)
  end.

(** [events.JoinedGroup] *)
Record JoinedGroup : Type := mkJoined {
  jg_Reason : string; jg_Type : string; jg_CreateKey : string; jg_Sender : option JID; jg_SenderPN : option JID; jg_Notify : string; jg_Info : GroupInfo }.

(** ** What a parsed group is *)

(** A member is named by its LID or by its number, as the comment in [types/group.go]
    says, where the address is one of a user; the owner of a group is an admin, and
    a code to invite a member comes with an error. *)
Record member_ok (p : GroupParticipant) : Prop := mkMemberOk {
  m_lid : Server (gp_JID p) = HiddenUserServer -> gp_LID p = gp_JID p;
  m_pn : Server (gp_JID p) = DefaultUserServer -> PhoneNumber p = gp_JID p;
  m_other : Server (gp_JID p) <> HiddenUserServer -> Server (gp_JID p) <> DefaultUserServer -> gp_LID p = EmptyJID /\ PhoneNumber p = EmptyJID;
  m_admin : IsSuperAdmin p = true -> IsAdmin p = true;
  m_error : is_Some (gp_AddRequest p) -> ErrorCode p <> 0 }.
Record group_ok (g : GroupInfo) : Prop := mkGroupOk {
  g_server : Server (gi_JID g) = GroupServer;
  g_members : Forall member_ok (Participants g);
  g_timer : 0 <= DisappearingTimer (gi_Ephemeral g) < 2 ^ 32;
  g_ephemeral : IsEphemeral (gi_Ephemeral g) = false -> DisappearingTimer (gi_Ephemeral g) = 0;
  g_parent : IsParent (gi_Parent g) = false -> DefaultMembershipApprovalMode (gi_Parent g) = "" }.

Lemma parseParticipant_ok child ag : member_ok (parseParticipant child ag).1.
Proof.
  unfold parseParticipant, mbind, Reading_bind, reads, mret, Reading_ret.
  destruct (OptionalString "type" ag) as [ty ag1], (getJID "jid" ag1) as [jid ag2], (OptionalString "display_name" ag2) as [nm ag3].
  assert (forall p, member_ok p -> gp_AddRequest p = None -> forall ag, member_ok
    ((let '(a, ag) := OptionalInt "error" ag in
      (if a =? 0 then p else match GetOptionalChildByTag child ["add_request"] with
             | (addRequest, true) => p <| ErrorCode := a |> <| gp_AddRequest := Some (parseAddRequest addRequest) |>
             | (_, false) => p <| ErrorCode := a |> end, ag)).1)) as Hend.
  { intros p [H1 H2 H3 H4 H5] Hno ag0. destruct (OptionalInt "error" ag0) as [a ag']. cbn [fst]. destruct (Z.eqb_spec a 0) as [|Ha]; [by split|].
    destruct (GetOptionalChildByTag _ _) as [r []]; split; cbn; try done. }
  destruct (String.eqb_spec (Server jid) HiddenUserServer) as [Hl|Hl]; [|destruct (String.eqb_spec (Server jid) DefaultUserServer) as [Hp|Hp]].
  - destruct (OptionalJIDOrEmpty "phone_number" ag3) as [pn ag4]. apply Hend; [|done].
    split; cbn; [done|by rewrite Hl|by intros|by intros ->; rewrite orb_true_r|by intros []].
  - destruct (OptionalJIDOrEmpty "lid" ag3) as [lid ag4]. apply Hend; [|done].
    split; cbn; [done|done|by intros|by intros ->; rewrite orb_true_r|by intros []].
  - apply Hend; [|done]. split; cbn; [done|done|done|by intros ->; rewrite orb_true_r|by intros []].
Qed.
Lemma uint32_bounds z : 0 <= uint32 z < 2 ^ 32.
Proof. by apply Z.mod_pos_bound. Qed.
Lemma parse_child_ok g child : group_ok g -> group_ok (parse_group_child g child).
Proof.
  intros [H1 H2 H3 H4 H5]. unfold parse_group_child.
  repeat match goal with |- context [if String.eqb ?a ?b then _ else _] => destruct (String.eqb a b) end;
    try (by split); try (split; cbn; [done|done|apply uint32_bounds|done|done]).
  - split; cbn; try done. apply Forall_app. split; [done|]. apply Forall_singleton, parseParticipant_ok.
  - destruct (GetOptionalChildByTag child ["body"]) as [body []]; [|by split]. by split.
Qed.
(** Whatever the server sends, a group that is parsed is one of the group server, its members
    have the address that names them as their LID or number, and its timer is one of 32 bits. *)
Theorem parsed_group_ok n : group_ok (parseGroupNode n).1.
Proof.
  unfold parseGroupNode. destruct (parse_group_attrs (AttrGetter n)) as [g ag] eqn:Hg. cbn [fst].
  assert (group_ok g) as Hok.
  { revert Hg. unfold parse_group_attrs, mbind, Reading_bind, reads, mret, Reading_ret.
    repeat match goal with |- context [let '(a, b) := ?f ?x in _] => destruct (f x) end. intros [= <- _]. by split; cbn. }
  clear Hg. revert g Hok. induction (GetChildren n) as [|c l IH]; intros g Hok; [done|]. apply IH. by apply parse_child_ok.
Qed.

(** ** A group and its description *)

(** An attribute or a part that is left out when there is nothing to say. *)
Definition optional {A} (b : bool) (x : A) : list A := if b then [x] else [].
Definition str_attr (key s : string) : list (string * value) := optional (negb (String.eqb s "")) (key, VString s).
Definition addr_attr (key : string) (j : JID) : list (string * value) := optional (bool_decide (j <> EmptyJID)) (key, VJID j).
Definition int_attr (key : string) (z : Z) : list (string * value) := optional (negb (z =? 0)) (key, VString (fmt_d z)).
Definition time_attr (key : string) (t : Time) : list (string * value) := optional (negb (IsZero t)) (key, VString (fmt_d (toUnix t))).

Definition add_request_node (r : AddRequest) : node :=
  mkNode "add_request" [("code", VString (Code r)); ("expiration", VString (fmt_d (toUnix (Expiration r))))] VNil.
Definition member_type (p : GroupParticipant) : string := if IsSuperAdmin p then "superadmin" else if IsAdmin p then "admin" else "".
Definition participant_node (p : GroupParticipant) : node :=
  mkNode "participant"
    (str_attr "type" (member_type p) ++ [("jid", VJID (gp_JID p))] ++
     str_attr "display_name" (DisplayName p) ++
     (if String.eqb (Server (gp_JID p)) HiddenUserServer then addr_attr "phone_number" (PhoneNumber p)
      else if String.eqb (Server (gp_JID p)) DefaultUserServer then addr_attr "lid" (gp_LID p) else []) ++
     int_attr "error" (ErrorCode p))
    (match gp_AddRequest p with Some r => VNodes [add_request_node r] | None => VNil end).
Definition topic_node (t : GroupTopic) : node :=
  mkNode "description"
    ([("id", VString (TopicID t)); ("t", VString (fmt_d (toUnix (TopicSetAt t))))] ++
     addr_attr "participant" (TopicSetBy t) ++ addr_attr "participant_pn" (TopicSetByPN t))
    (VNodes [mkNode "body" [] (VBytes (Topic t))]).
Definition empty_node (tag : string) : node := mkNode tag [] VNil.
Definition group_parts (g : GroupInfo) : list node :=
  map participant_node (Participants g) ++
  optional (negb (String.eqb (TopicID (gi_Topic g)) "")) (topic_node (gi_Topic g)) ++
  optional (IsAnnounce (gi_Announce g)) (empty_node "announcement") ++
  optional (IsLocked g) (empty_node "locked") ++
  optional (IsEphemeral (gi_Ephemeral g)) (mkNode "ephemeral" [("expiration", VString (fmt_d (DisappearingTimer (gi_Ephemeral g))))] VNil) ++
  optional (negb (String.eqb (MemberAddMode g) "")) (mkNode "member_add_mode" [] (VBytes (MemberAddMode g))) ++
  optional (bool_decide (LinkedParentJID g <> EmptyJID)) (mkNode "linked_parent" [("jid", VJID (LinkedParentJID g))] VNil) ++
  optional (IsDefaultSubGroup g) (empty_node "default_sub_group") ++
  optional (IsParent (gi_Parent g)) (mkNode "parent" (str_attr "default_membership_approval_mode" (DefaultMembershipApprovalMode (gi_Parent g))) VNil) ++
  optional (IsIncognito g) (empty_node "incognito") ++
  optional (IsJoinApprovalRequired g) (empty_node "membership_approval_mode") ++
  optional (gi_Suspended g) (empty_node "suspended").
Definition group_attrs (g : GroupInfo) : list (string * value) :=
  [("id", VString (User (gi_JID g)))] ++ addr_attr "creator" (OwnerJID g) ++ addr_attr "creator_pn" (OwnerPN g) ++
  str_attr "subject" (Name (gi_Name g)) ++ time_attr "s_t" (NameSetAt (gi_Name g)) ++ addr_attr "s_o" (NameSetBy (gi_Name g)) ++
  addr_attr "s_o_pn" (NameSetByPN (gi_Name g)) ++ time_attr "creation" (GroupCreated g) ++ str_attr "creator_country_code" (CreatorCountryCode g) ++
  str_attr "a_v_id" (AnnounceVersionID (gi_Announce g)) ++ str_attr "p_v_id" (gi_ParticipantVersionID g) ++ int_attr "size" (ParticipantCount g) ++
  str_attr "addressing_mode" (AddressingMode g).
Definition group_keys : list string :=
  ["id"; "creator"; "creator_pn"; "subject"; "s_t"; "s_o"; "s_o_pn"; "creation"; "creator_country_code"; "a_v_id"; "p_v_id"; "size"; "addressing_mode"].
Definition part_tags : list string :=
  ["participant"; "description"; "announcement"; "locked"; "ephemeral"; "member_add_mode"; "linked_parent"; "default_sub_group"; "parent";
   "incognito"; "membership_approval_mode"; "suspended"].

(** What a description can say: times in seconds, numbers that fit, a topic with an id. *)
Definition wire_time (t : Time) : Prop := exists z, 0 < z < 2 ^ 40 /\ t = Unix z.
Record describable (g : GroupInfo) : Prop := mkDescribable {
  d_ok : group_ok g;
  d_jid : gi_JID g = NewJID (User (gi_JID g)) GroupServer;
  d_times : forall t, t ∈ [NameSetAt (gi_Name g); GroupCreated g] -> t = zeroTime \/ wire_time t;
  d_count : 0 <= ParticipantCount g <= max_int64;
  d_topic : TopicID (gi_Topic g) = "" /\ gi_Topic g = noTopic \/ TopicID (gi_Topic g) <> "" /\ wire_time (TopicSetAt (gi_Topic g)) /\ TopicDeleted (gi_Topic g) = false;
  d_errors : Forall (fun p => 0 <= ErrorCode p <= max_int64 /\ forall r, gp_AddRequest p = Some r -> wire_time (Expiration r)) (Participants g) }.

(** *** Attributes read back *)

Lemma attr_head key k v rest : k = key -> attr ((k, v) :: rest) key = Some v.
Proof. intros ->. cbn. by rewrite decide_True. Qed.
Lemma attr_tail key k v rest : k <> key -> attr ((k, v) :: rest) key = attr rest key.
Proof. intros H. cbn. by rewrite decide_False. Qed.
Lemma attr_optional_other {b key k} {v : value} {rest} : k <> key -> attr (optional b (k, v) ++ rest) key = attr rest key.
Proof. intros H. destruct b; [by apply attr_tail|done]. Qed.
Lemma attr_optional_last {b key k} {v : value} : k <> key -> attr (optional b (k, v)) key = None.
Proof. intros H. destruct b; [by apply attr_tail|done]. Qed.
Lemma attr_optional_here {b key} {v : value} {rest} : attr rest key = None -> attr (optional b (key, v) ++ rest) key = attr (optional b (key, v)) key.
Proof. intros H. destruct b; [by cbn; rewrite !decide_True by done|done]. Qed.
Lemma attr_optional b key (v : value) : attr (optional b (key, v)) key = if b then Some v else None.
Proof. destruct b; [by apply attr_head|done]. Qed.
(** The lookup of a key in a list of optional attributes that has it at most once. *)
Ltac lookup_attr :=
  unfold str_attr, addr_attr, int_attr, time_attr; cbn [app];
  repeat first
    [ reflexivity
    | rewrite attr_head by reflexivity
    | rewrite attr_tail by discriminate
    | rewrite attr_optional_other by discriminate
    | rewrite attr_optional_last by discriminate
    | rewrite attr_optional_here; [|solve [lookup_attr]] ].

Lemma reads_string key s au : attr (au_Attrs au) key = attr (str_attr key s) key -> OptionalString key au = (s, au).
Proof.
  unfold str_attr. rewrite attr_optional. destruct (String.eqb_spec s "") as [->|]; intros H; [by apply OptionalString_missing|by apply OptionalString_found].
Qed.
Lemma reads_addr key j au : attr (au_Attrs au) key = attr (addr_attr key j) key -> OptionalJIDOrEmpty key au = (j, au).
Proof.
  unfold addr_attr. rewrite attr_optional. destruct (bool_decide_reflect (j <> EmptyJID)) as [|Hj]; intros H; [by apply OptionalJIDOrEmpty_found|].
  rewrite OptionalJIDOrEmpty_missing by done. f_equal. by destruct (decide (j = EmptyJID)) as [->|?].
Qed.
Lemma reads_int key z au : 0 <= z <= max_int64 -> attr (au_Attrs au) key = attr (int_attr key z) key -> OptionalInt key au = (z, au).
Proof.
  intros Hz. unfold int_attr. rewrite attr_optional. destruct (Z.eqb_spec z 0) as [->|]; intros H; [by apply OptionalInt_missing|].
  unfold OptionalInt, value_of, GetInt64, GetParsed. by rewrite (GetString_found _ _ _ _ H), Atoi_fmt_d.
Qed.
Lemma wire_Unix z : 0 < z < 2 ^ 40 -> wire_time (Unix z).
Proof. intros Hz. by exists z. Qed.
Lemma wire_seconds t : wire_time t -> 0 < toUnix t <= max_int64 /\ t = Unix (toUnix t) /\ IsZero t = false.
Proof.
  intros (z & Hz & ->). assert (toUnix (Unix z) = z) as ->.
  { unfold Unix, toUnix. rewrite wrap64_id, Z.div_mul; [lia|done|]. unfold in_int64, min_int64, max_int64, unixToInternal. lia. }
  split; [unfold max_int64; lia|split; [done|]]. unfold IsZero, zeroTime, Unix. apply Z.eqb_neq.
  rewrite wrap64_id by (unfold in_int64, min_int64, max_int64, unixToInternal; lia). unfold unixToInternal, Second, Millisecond. lia.
Qed.
Lemma reads_required_time key t au : wire_time t -> attr (au_Attrs au) key = Some (VString (fmt_d (toUnix t))) -> UnixTime key au = (t, au).
Proof. intros (Hz & Ht & _)%wire_seconds H. rewrite (UnixTime_found _ _ _ H Hz). by rewrite <- Ht. Qed.
Lemma reads_time key t au : t = zeroTime \/ wire_time t -> attr (au_Attrs au) key = attr (time_attr key t) key -> OptionalUnixTime key au = (t, au).
Proof.
  unfold time_attr. rewrite attr_optional. intros [->|Hw] H.
  - unfold OptionalUnixTime, value_of, GetUnixTime, GetTime, GetInt64, GetParsed, GetString. by rewrite H.
  - destruct (wire_seconds t Hw) as (Hz & Ht & H0). rewrite H0 in H. unfold OptionalUnixTime, value_of, GetUnixTime, GetTime, GetInt64, GetParsed.
    rewrite (GetString_found _ _ _ _ H), Atoi_fmt_d by lia. destruct (Z.eqb_spec (toUnix t) 0); [lia|]. by rewrite <- Ht.
Qed.
Lemma reads_uint key z au : 0 <= z <= max_int64 -> attr (au_Attrs au) key = Some (VString (fmt_d z)) -> Uint64 key au = (z, au).
Proof.
  intros Hz H. unfold Uint64, value_of, GetUint64, GetParsed. rewrite (GetString_found _ _ _ _ H). unfold ParseUint.
  rewrite parse_unsigned_fmt_d by done. unfold max_int64 in Hz. destruct (Z.ltb_spec z (2 ^ 64)); [done|lia].
Qed.

(** A key of a group, looked up in the attributes of [group_attrs]. *)
Ltac known_attr H := apply H; [unfold group_keys; rewrite !elem_of_cons; tauto|unfold group_attrs; lookup_attr].
Lemma group_attrs_read g ag :
  describable g -> (forall key, key ∈ group_keys -> attr (au_Attrs ag) key = attr (group_attrs g) key) ->
  parse_group_attrs ag =
    (mkGroupInfo (gi_JID g) (OwnerJID g) (OwnerPN g) (gi_Name g) noTopic false (mkGroupAnnounce false (AnnounceVersionID (gi_Announce g)))
      (mkGroupEphemeral false 0) false (mkGroupParent false "") EmptyJID false false (AddressingMode g) (GroupCreated g) (CreatorCountryCode g)
      (gi_ParticipantVersionID g) [] (ParticipantCount g) "" false, ag).
Proof.
  intros Hd H.
  assert (forall key l, key ∈ group_keys -> attr (group_attrs g) key = attr l key -> attr (au_Attrs ag) key = attr l key) as Hk by (by intros key l Hin <-; apply H).
  assert (forall key v, key ∈ group_keys -> attr (group_attrs g) key = Some v -> attr (au_Attrs ag) key = Some v) as Hid by (by intros key v Hin <-; apply H).
  unfold parse_group_attrs, mbind, Reading_bind, reads, mret, Reading_ret.
  rewrite (getString_found "id" _ (User (gi_JID g))) by known_attr Hid.
  rewrite (reads_addr "creator" (OwnerJID g)) by known_attr Hk.
  rewrite (reads_addr "creator_pn" (OwnerPN g)) by known_attr Hk.
  rewrite (reads_string "subject" (Name (gi_Name g))) by known_attr Hk.
  rewrite (reads_time "s_t" (NameSetAt (gi_Name g))); [|apply (d_times _ Hd); by left|known_attr Hk].
  rewrite (reads_addr "s_o" (NameSetBy (gi_Name g))) by known_attr Hk.
  rewrite (reads_addr "s_o_pn" (NameSetByPN (gi_Name g))) by known_attr Hk.
  rewrite (reads_time "creation" (GroupCreated g)); [|apply (d_times _ Hd); right; by left|known_attr Hk].
  rewrite (reads_string "creator_country_code" (CreatorCountryCode g)) by known_attr Hk.
  rewrite (reads_string "a_v_id" (AnnounceVersionID (gi_Announce g))) by known_attr Hk.
  rewrite (reads_string "p_v_id" (gi_ParticipantVersionID g)) by known_attr Hk.
  rewrite (reads_int "size" (ParticipantCount g)); [|apply (d_count _ Hd)|known_attr Hk].
  rewrite (reads_string "addressing_mode" (AddressingMode g)) by known_attr Hk.
  rewrite <- (d_jid _ Hd). by destruct (gi_Name g).
Qed.

(** *** Parts read back *)

Lemma participant_attrs p :
  let at_ := attr (Attrs (participant_node p)) in
  at_ "type" = attr (str_attr "type" (member_type p)) "type" /\ at_ "jid" = Some (VJID (gp_JID p)) /\
  at_ "display_name" = attr (str_attr "display_name" (DisplayName p)) "display_name" /\ at_ "error" = attr (int_attr "error" (ErrorCode p)) "error" /\
  (Server (gp_JID p) = HiddenUserServer -> at_ "phone_number" = attr (addr_attr "phone_number" (PhoneNumber p)) "phone_number") /\
  (Server (gp_JID p) = DefaultUserServer -> at_ "lid" = attr (addr_attr "lid" (gp_LID p)) "lid").
Proof.
  unfold participant_node, Attrs. cbn zeta.
  destruct (String.eqb_spec (Server (gp_JID p)) HiddenUserServer) as [Hl|Hl]; [|destruct (String.eqb_spec (Server (gp_JID p)) DefaultUserServer) as [Hp|Hp]];
    repeat split; intros; lookup_attr; unfold HiddenUserServer, DefaultUserServer in *; congruence.
Qed.
Lemma member_type_read p : (IsSuperAdmin p = true -> IsAdmin p = true) ->
  String.eqb (member_type p) "superadmin" = IsSuperAdmin p /\ String.eqb (member_type p) "admin" || IsSuperAdmin p = IsAdmin p.
Proof. unfold member_type. intros Ha. destruct (IsSuperAdmin p); [by rewrite (Ha eq_refl)|]. by destruct (IsAdmin p). Qed.
Lemma add_request_child p :
  GetOptionalChildByTag (participant_node p) ["add_request"] =
    match gp_AddRequest p with Some r => (add_request_node r, true) | None => (participant_node p, false) end.
Proof. unfold GetOptionalChildByTag, GetChildrenByTag, GetChildren, participant_node, Content. by destruct (gp_AddRequest p). Qed.
Lemma add_request_read r : wire_time (Expiration r) -> parseAddRequest (add_request_node r) = r.
Proof.
  intros Hr. unfold parseAddRequest. rewrite (getString_found "code" _ (Code r)) by done.
  rewrite (reads_required_time "expiration" (Expiration r)) by done. by destruct r.
Qed.
(** The error, and the code to invite the member that it comes with. *)
Lemma participant_error p q :
  (is_Some (gp_AddRequest p) -> ErrorCode p <> 0) -> (forall r, gp_AddRequest p = Some r -> wire_time (Expiration r)) ->
  q = p <| ErrorCode := 0 |> <| gp_AddRequest := None |> ->
  (if ErrorCode p =? 0 then q
   else match GetOptionalChildByTag (participant_node p) ["add_request"] with
        | (addRequest, true) => q <| ErrorCode := ErrorCode p |> <| gp_AddRequest := Some (parseAddRequest addRequest) |>
        | (_, false) => q <| ErrorCode := ErrorCode p |>
        end) = p.
Proof.
  intros He Hreq ->. destruct (Z.eqb_spec (ErrorCode p) 0) as [H0|H0].
  - assert (gp_AddRequest p = None) as Hn by (destruct (gp_AddRequest p) eqn:Hr; [by destruct He|done]).
    destruct p; cbn in *; by subst.
  - rewrite add_request_child. destruct (gp_AddRequest p) as [r|] eqn:Hr; [|destruct p; cbn in *; by subst].
    rewrite add_request_read by (by apply Hreq). destruct p; cbn in *; by subst.
Qed.
Lemma participant_read p :
  member_ok p -> 0 <= ErrorCode p <= max_int64 -> (forall r, gp_AddRequest p = Some r -> wire_time (Expiration r)) ->
  (parseParticipant (participant_node p) (AttrGetter (participant_node p))).1 = p.
Proof.
  intros [Hl Hp Ho Ha He] Herr Hreq. destruct (participant_attrs p) as (H1 & H2 & H3 & H4 & H5 & H6).
  pose proof (fun q => participant_error p q He Hreq) as Hend. destruct (member_type_read p Ha) as [Hsup Hadm].
  unfold parseParticipant, mbind, Reading_bind, reads, mret, Reading_ret. set (ag := AttrGetter (participant_node p)).
  rewrite (reads_string "type" _ ag H1), (getJID_found "jid" ag _ H2), (reads_string "display_name" _ ag H3), Hsup, Hadm.
  destruct (String.eqb_spec (Server (gp_JID p)) HiddenUserServer) as [Hsl|Hsl]; [|destruct (String.eqb_spec (Server (gp_JID p)) DefaultUserServer) as [Hsp|Hsp]].
  - rewrite (reads_addr "phone_number" _ ag (H5 Hsl)), (reads_int "error" _ ag Herr H4). 
    apply Hend. specialize (Hl Hsl). destruct p; cbn in *; by subst.
  - rewrite (reads_addr "lid" _ ag (H6 Hsp)), (reads_int "error" _ ag Herr H4). apply Hend. specialize (Hp Hsp). destruct p; cbn in *; by subst.
  - rewrite (reads_int "error" _ ag Herr H4). apply Hend. destruct (Ho Hsl Hsp) as [Hlid Hpn]. destruct p; cbn in *; by subst.
Qed.
Lemma topic_read t g :
  TopicID t <> "" -> wire_time (TopicSetAt t) -> TopicDeleted t = false -> TopicDeleted (gi_Topic g) = false ->
  parse_group_child g (topic_node t) = g <| gi_Topic := t |>.
Proof.
  intros Hid Ht Hd Hg. unfold parse_group_child. cbn [Tag topic_node]. set (ag := AttrGetter (topic_node t)).
  change (GetOptionalChildByTag (topic_node t) ["body"]) with (mkNode "body" [] (VBytes (Topic t)), true).
  cbn -[mbind reads mret]. unfold mbind, Reading_bind, reads, mret, Reading_ret.
  rewrite (getString_found "id" ag (TopicID t)) by done.
  rewrite (reads_addr "participant" (TopicSetBy t) ag) by (cbn [au_Attrs ag AttrGetter Attrs topic_node]; lookup_attr).
  rewrite (reads_addr "participant_pn" (TopicSetByPN t) ag) by (cbn [au_Attrs ag AttrGetter Attrs topic_node]; lookup_attr).
  rewrite (reads_required_time "t" (TopicSetAt t) ag Ht) by (cbn [au_Attrs ag AttrGetter Attrs topic_node]; lookup_attr).
  cbn. rewrite Hg, <- Hd. by destruct t.
Qed.
Lemma members_read g ps :
  Forall member_ok ps -> Forall (fun p => 0 <= ErrorCode p <= max_int64 /\ forall r, gp_AddRequest p = Some r -> wire_time (Expiration r)) ps ->
  foldl parse_group_child g (map participant_node ps) = g <| Participants := Participants g ++ ps |>.
Proof.
  intros Hok He. revert g Hok He. induction ps as [|p ps IH]; intros g Hok He; [cbn; rewrite app_nil_r; by destruct g|].
  apply Forall_cons in Hok as [Hp Hok]. apply Forall_cons in He as [[He Hr] Hes]. cbn [map foldl]. rewrite IH by done.
  change (parse_group_child g (participant_node p)) with (g <| Participants := Participants g ++ [(parseParticipant (participant_node p) (AttrGetter (participant_node p))).1] |>).
  rewrite participant_read by done. cbn. by rewrite <- app_assoc.
Qed.
(** The other parts: each sets what it names, and nothing is set where it is left out. *)
Ltac read_part b g := destruct b, g; cbn; intros; by subst.
Lemma announce_read g a : IsAnnounce (gi_Announce g) = false -> AnnounceVersionID (gi_Announce g) = AnnounceVersionID a ->
  (if IsAnnounce a then parse_group_child g (empty_node "announcement") else g) = g <| gi_Announce := a |>.
Proof.
  intros H1 H2. transitivity (g <| gi_Announce := mkGroupAnnounce (IsAnnounce a) (AnnounceVersionID (gi_Announce g)) |>); [|rewrite H2; by destruct a].
  destruct (IsAnnounce a); [done|]. rewrite <- H1. destruct g as [? ? ? ? ? ? ann]. by destruct ann.
Qed.
Lemma locked_read g (b : bool) : IsLocked g = false -> (if b then parse_group_child g (empty_node "locked") else g) = g <| IsLocked := b |>.
Proof. read_part b g. Qed.
Lemma ephemeral_read g e : 0 <= DisappearingTimer e < 2 ^ 32 -> (IsEphemeral e = false -> DisappearingTimer e = 0) -> gi_Ephemeral g = mkGroupEphemeral false 0 ->
  (if IsEphemeral e then parse_group_child g (mkNode "ephemeral" [("expiration", VString (fmt_d (DisappearingTimer e)))] VNil) else g) = g <| gi_Ephemeral := e |>.
Proof.
  intros Ht He Hg. destruct e as [[] t]; cbn [IsEphemeral DisappearingTimer] in *; [|rewrite (He eq_refl), <- Hg; by destruct g].
  unfold parse_group_child. cbn [Tag]. rewrite (reads_uint "expiration" t) by first [done | unfold max_int64; lia].
  cbn [fst]. unfold uint32. rewrite Z.mod_small by done. done.
Qed.
Lemma mode_read g m : MemberAddMode g = "" ->
  (if negb (String.eqb m "") then parse_group_child g (mkNode "member_add_mode" [] (VBytes m)) else g) = g <| MemberAddMode := m |>.
Proof. destruct (String.eqb_spec m "") as [->|]; [|done]. read_part true g. Qed.
Lemma linked_read g j : LinkedParentJID g = EmptyJID ->
  (if bool_decide (j <> EmptyJID) then parse_group_child g (mkNode "linked_parent" [("jid", VJID j)] VNil) else g) = g <| LinkedParentJID := j |>.
Proof. destruct (decide (j = EmptyJID)) as [->|]; [rewrite bool_decide_false by tauto; read_part true g|by rewrite bool_decide_true]. Qed.
Lemma default_sub_read g (b : bool) : IsDefaultSubGroup g = false ->
  (if b then parse_group_child g (empty_node "default_sub_group") else g) = g <| IsDefaultSubGroup := b |>.
Proof. read_part b g. Qed.
Lemma parent_read g q : gi_Parent g = mkGroupParent false "" -> (IsParent q = false -> DefaultMembershipApprovalMode q = "") ->
  (if IsParent q then parse_group_child g (mkNode "parent" (str_attr "default_membership_approval_mode" (DefaultMembershipApprovalMode q)) VNil) else g) =
  g <| gi_Parent := q |>.
Proof.
  intros Hg Hq. destruct q as [[] m]; cbn [IsParent DefaultMembershipApprovalMode] in *; [|rewrite (Hq eq_refl), <- Hg; by destruct g].
  unfold parse_group_child. cbn [Tag]. rewrite (reads_string "default_membership_approval_mode" m) by done. done.
Qed.
Lemma incognito_read g (b : bool) : IsIncognito g = false -> (if b then parse_group_child g (empty_node "incognito") else g) = g <| IsIncognito := b |>.
Proof. read_part b g. Qed.
Lemma approval_read g (b : bool) : IsJoinApprovalRequired g = false ->
  (if b then parse_group_child g (empty_node "membership_approval_mode") else g) = g <| IsJoinApprovalRequired := b |>.
Proof. read_part b g. Qed.
Lemma suspended_read g (b : bool) : gi_Suspended g = false -> (if b then parse_group_child g (empty_node "suspended") else g) = g <| gi_Suspended := b |>.
Proof. read_part b g. Qed.
Lemma topic_part_read g t : gi_Topic g = noTopic ->
  TopicID t = "" /\ t = noTopic \/ TopicID t <> "" /\ wire_time (TopicSetAt t) /\ TopicDeleted t = false ->
  (if negb (String.eqb (TopicID t) "") then parse_group_child g (topic_node t) else g) = g <| gi_Topic := t |>.
Proof.
  intros Hg [[_ ->]|(Hid & Hw & Hd)]; [cbn; rewrite <- Hg; by destruct g|].
  destruct (String.eqb_spec (TopicID t) ""); [done|]. apply topic_read; [done..|]. by rewrite Hg.
Qed.

Lemma foldl_optional {S A} (f : S -> A -> S) s b x : foldl f s (optional b x) = if b then f s x else s.
Proof. by destruct b. Qed.
Lemma parts_read g :
  describable g ->
  foldl parse_group_child
    (mkGroupInfo (gi_JID g) (OwnerJID g) (OwnerPN g) (gi_Name g) noTopic false (mkGroupAnnounce false (AnnounceVersionID (gi_Announce g)))
      (mkGroupEphemeral false 0) false (mkGroupParent false "") EmptyJID false false (AddressingMode g) (GroupCreated g) (CreatorCountryCode g)
      (gi_ParticipantVersionID g) [] (ParticipantCount g) "" false) (group_parts g) = g.
Proof.
  intros [[_ Hm Ht32 Hne Hnp] _ _ _ Htop Herr]. unfold group_parts. rewrite !foldl_app, !foldl_optional, members_read by done.
  rewrite topic_part_read, announce_read, locked_read, ephemeral_read, mode_read, linked_read, default_sub_read, parent_read, incognito_read,
    approval_read, suspended_read by done.
  by destruct g.
Qed.

(** *** Parts in any order *)

Section Order.
Context {S A K : Type} `{EqDecision K} (f : S -> A -> S) (key : A -> K).
Hypothesis commute : forall s a b, key a <> key b -> f (f s a) b = f (f s b) a.

Lemma foldl_move s a p : Forall (fun x => key x <> key a) p -> f (foldl f s p) a = foldl f (f s a) p.
Proof.
  revert s. induction p as [|x p IH]; intros s Hp; [done|]. apply Forall_cons in Hp as [Hx Hp]. cbn. rewrite IH by done. by rewrite commute.
Qed.
(** The first element that is kept. *)
Lemma filter_first (P : A -> Prop) `{!forall x, Decision (P x)} l a r :
  filter P l = a :: r -> exists p q, l = p ++ a :: q /\ Forall (fun x => ~ P x) p.
Proof.
  induction l as [|x l IH]; [done|]. rewrite filter_cons. destruct (decide (P x)) as [|Hx].
  - intros [= -> _]. by exists [], l.
  - intros Hf. destruct (IH Hf) as (p & q & -> & Hp). exists (x :: p), q. split; [done|]. by constructor.
Qed.
(** Lists with the same elements of every key, in their order, give the same result. *)
Lemma foldl_interleaved s l l' :
  (forall k, filter (fun x => key x = k) l = filter (fun x => key x = k) l') -> foldl f s l = foldl f s l'.
Proof.
  revert s l'. induction l as [|a l IH]; intros s l' H.
  - destruct l' as [|b l']; [done|]. specialize (H (key b)). rewrite filter_nil, filter_cons_True in H by done. done.
  - pose proof (H (key a)) as Ha. rewrite filter_cons_True in Ha by done. symmetry in Ha. destruct (filter_first _ _ _ _ Ha) as (p & q & -> & Hp).
    rewrite foldl_app. cbn. rewrite foldl_move by done. rewrite <- foldl_app. apply IH. intros k.
    specialize (H k). rewrite filter_app, !filter_cons in H. rewrite filter_app. destruct (decide (key a = k)) as [<-|]; [|done].
    assert (filter (fun x => key x = key a) p = []) as Hnil by by apply filter_nothing.
    rewrite Hnil in H |- *. cbn in *. by injection H.
Qed.
End Order.

Lemma parse_commute g a b : Tag a <> Tag b -> parse_group_child (parse_group_child g a) b = parse_group_child (parse_group_child g b) a.
Proof.
  intros Hne. unfold parse_group_child at 2 3. generalize (AttrGetter a). intros aga.
  repeat match goal with |- context [String.eqb (Tag a) ?t] => destruct (String.eqb_spec (Tag a) t) as [Ha|_]; [rewrite Ha in Hne; clear Ha|] end;
  try match goal with |- context [GetOptionalChildByTag a ?t] => destruct (GetOptionalChildByTag a t) as [body []] end;
  unfold parse_group_child; generalize (AttrGetter b); intros agb;
  repeat match goal with |- context [String.eqb (Tag b) ?t] => destruct (String.eqb_spec (Tag b) t) as [Hb|_]; [try (by destruct Hne)|] end;
  try match goal with |- context [GetOptionalChildByTag b ?t] => destruct (GetOptionalChildByTag b t) as [bodyb []] end; reflexivity.
Qed.
Lemma unknown_part g c : Tag c ∉ part_tags -> parse_group_child g c = g.
Proof.
  intros H. unfold part_tags in H. rewrite !elem_of_cons in H. unfold parse_group_child.
  repeat match goal with |- context [String.eqb (Tag c) ?t] => destruct (String.eqb_spec (Tag c) t) as [Hc|_]; [rewrite Hc in H; exfalso; tauto|] end. done.
Qed.
Lemma parse_known g l : foldl parse_group_child g l = foldl parse_group_child g (filter (fun c => Tag c ∈ part_tags) l).
Proof.
  revert g. induction l as [|c l IH]; intros g; [done|]. rewrite filter_cons. destruct (decide (Tag c ∈ part_tags)) as [|Hc]; cbn; [apply IH|].
  by rewrite unknown_part.
Qed.
Lemma group_parts_known g : Forall (fun c => Tag c ∈ part_tags) (group_parts g).
Proof.
  unfold group_parts. rewrite !Forall_app. assert (forall b c, Tag c ∈ part_tags -> Forall (fun c => Tag c ∈ part_tags) (optional b c)) as Ho.
  { intros [] c Hc; [by apply Forall_singleton|by apply Forall_nil]. }
  repeat (split; [first [apply Forall_map, Forall_true; intros p; by left | apply Ho; unfold part_tags; cbn; rewrite !elem_of_cons; tauto]|]).
  apply Ho. unfold part_tags. cbn. rewrite !elem_of_cons. tauto.
Qed.

(** C19. A group that is described by a node - with the attributes of [group_attrs] among any others, and the
    parts of [group_parts] among unknown ones, those of one tag in their order, in any order of the
    tags - is parsed to exactly that group, without an error: its members in order with their
    roles, addresses, errors and codes, and everything else the description says. *)
Theorem group_description_read g n :
  describable g ->
  (forall key, key ∈ group_keys -> attr (Attrs n) key = attr (group_attrs g) key) ->
  (forall tag, tag ∈ part_tags -> filter (fun c => Tag c = tag) (GetChildren n) = filter (fun c => Tag c = tag) (group_parts g)) ->
  parseGroupNode n = (g, None).
Proof.
  intros Hd Hattrs Hparts. unfold parseGroupNode. rewrite (group_attrs_read g (AttrGetter n) Hd Hattrs). f_equal.
  rewrite parse_known. rewrite (foldl_interleaved parse_group_child Tag parse_commute _ _ (group_parts g)); [by apply parts_read|].
  intros tag. rewrite list_filter_filter. destruct (decide (tag ∈ part_tags)) as [Hin|Hout].
  - rewrite <- (Hparts tag Hin). apply list_filter_iff. intros c. split; [tauto|]. intros <-. by split.
  - rewrite !filter_nothing; [done| |]; apply Forall_forall.
    + intros c Hc <-. apply Hout. by apply (proj1 (Forall_forall _ _) (group_parts_known g)).
    + intros c _ [<- ?]. done.
Qed.

Definition demo_owner : GroupParticipant := mkParticipant (NewJID "77" HiddenUserServer) (NewJID "49" DefaultUserServer) (NewJID "77" HiddenUserServer) true true "" 0 None.
Definition demo_invited : GroupParticipant :=
  mkParticipant (NewJID "43" DefaultUserServer) (NewJID "43" DefaultUserServer) EmptyJID false false "Ada" 403 (Some (mkAddRequest "c0de" (Unix 1700000600))).
Definition demo_group_info : GroupInfo :=
  mkGroupInfo (NewJID "123-456" GroupServer) (NewJID "77" HiddenUserServer) EmptyJID
    (mkGroupName "Readers" (Unix 1700000000) (NewJID "77" HiddenUserServer) (NewJID "49" DefaultUserServer))
    (mkGroupTopic "books" "T1" (Unix 1700000100) (NewJID "77" HiddenUserServer) EmptyJID false) true (mkGroupAnnounce true "v1") (mkGroupEphemeral true 86400) false
    (mkGroupParent false "") (NewJID "1" GroupServer) false true "lid" (Unix 1690000000) "DE" "p1" [demo_owner; demo_invited] 2 "admin_add" false.
(** The same in another order, with attributes and parts that the parser does not know. *)
Definition demo_group_node : node :=
  mkNode "group" (("unknown", VString "x") :: rev (group_attrs demo_group_info))
    (VNodes (rev (drop 2 (group_parts demo_group_info)) ++ [participant_node demo_owner; empty_node "unknown"; participant_node demo_invited])).
Lemma demo_group_describable : describable demo_group_info.
Proof.
  split; [split|..]; cbn.
  - done.
  - repeat apply Forall_cons_2; [..|by apply Forall_nil]; split; cbn; intros; try done; first [tauto | by destruct H].
  - done.
  - done.
  - done.
  - done.
  - intros t [->|[->|[]%elem_of_nil]%elem_of_cons]%elem_of_cons; right; by apply wire_Unix.
  - done.
  - right. split; [done|]. split; [by apply wire_Unix|done].
  - repeat apply Forall_cons_2; [..|by apply Forall_nil]; (split; [done|]); [by intros r [=]|]. intros r [= <-]. by apply wire_Unix.
Qed.
(** A group with two members - its owner, known by the LID, and one who must be invited - a topic, a
    timer and a community, as it is read from such a node. *)
Lemma group_description_read_witness :
  length (GetChildren demo_group_node) = 10%nat /\ head (Tag <$> GetChildren demo_group_node) = Some "membership_approval_mode" /\
  parseGroupNode demo_group_node = (demo_group_info, None).
Proof.
  split; [reflexivity|]. split; [reflexivity|]. apply group_description_read; [exact demo_group_describable| |].
  - apply Forall_forall. unfold group_keys. repeat apply Forall_cons_2; [vm_compute; reflexivity..|apply Forall_nil; exact I].
  - apply Forall_forall. unfold part_tags. repeat apply Forall_cons_2; [vm_compute; reflexivity..|apply Forall_nil; exact I].
Defined.

(** ** Changes that are lost *)

Definition member_node (jid : JID) (more : list (string * value)) : node := mkNode "participant" (("jid", VJID jid) :: more) VNil.
(** In a notification with several lists of members the addresses of the last list replace those
    of the others, and of two lists of joins only the second is reported. *)
Theorem lists_overwritten attrs joined left joined' evt pairs :
  let add l := mkNode "add" attrs (VNodes l) in let remove l := mkNode "remove" attrs (VNodes l) in
  attr attrs "prev_v_id" = None -> attr attrs "v_id" = None -> attr attrs "reason" = None ->
  (exists evt', parse_changes (evt, pairs) [add joined; remove left] = inr (evt', omap participant_pair left) /\
     Join evt' = omap participant_jid joined /\ Leave evt' = omap participant_jid left) /\
  (exists evt', parse_changes (evt, pairs) [add joined; add joined'] = inr (evt', omap participant_pair joined') /\
     Join evt' = omap participant_jid joined').
Proof.
  intros add remove H1 H2 H3. unfold parse_changes, parse_change, add, remove, AttrGetter, OptionalString, value_of, GetString. cbn.
  repeat (rewrite ?H1, ?H2, ?H3; cbn). split; eexists; split; reflexivity || (split; reflexivity).
Qed.
(** The members of the first list are not linked to their LIDs. *)
Lemma lists_overwritten_witness :
  exists evt', parse_changes (mkChange EmptyJID "" None None zeroTime None None None None None None None None None None "" "" "" [] [] [] [] false false [], [])
    [mkNode "add" [] (VNodes [member_node (NewJID "77" HiddenUserServer) [("phone_number", VJID (NewJID "49" DefaultUserServer))]]);
     mkNode "remove" [] (VNodes [member_node (NewJID "88" HiddenUserServer) []])] = inr (evt', []) /\ Join evt' = [NewJID "77" HiddenUserServer].
Proof.
  destruct (proj1 (lists_overwritten [] [member_node (NewJID "77" HiddenUserServer) [("phone_number", VJID (NewJID "49" DefaultUserServer))]]
    [member_node (NewJID "88" HiddenUserServer) []] []
    (mkChange EmptyJID "" None None zeroTime None None None None None None None None None None "" "" "" [] [] [] [] false false []) [] eq_refl eq_refl eq_refl))
    as (evt' & H & Hj & _).
  exists evt'. split; [exact H|exact Hj].
Defined.
