(* ===== verification/Groups.v ===== *)
(** * [whatsmeow/group.go]: queries for groups and the cache of their members

    The members of a group are kept in a slice: the cache entry and a message that
    is being sent share its array, and a notification changes it in place.  The
    answers of the server are a parameter, and so is the growth of arrays. *)
From S2P Require Import Prelude GoStrings GoTime Jid BinaryNode NodeAttrs Requests LidMap PreKeys SqlDB SqlText Contacts AccountStore UserDevices GroupParse.

Definition AddressingModePN : string := "pn".
Definition AddressingModeLID : string := "lid".
Record groupMetaCache : Type := mkGroupMeta { gm_AddressingMode : string; CommunityAnnouncementGroup : bool; Members : Slice }.
(** The arrays and the cache, and the stores that group queries write to. *)
Record QueryState : Type := mkQueryState {
  q_arrays : Arrays; groupCache : gmap JID groupMetaCache; q_lids : CachedLIDMap; q_contacts : ContactDB; q_account : AccountDB }.
#[export] Instance eta_QueryState : Eta QueryState := fun r => mkQueryState (q_arrays r) (groupCache r) (q_lids r) (q_contacts r) (q_account r).

(** ** Links: [stripURLPrefix] of [user.go] *)

Definition stripQuery (link : string) : string :=
  match index_byte link "?" with Some (S n) => String.substring 0 (S n) link | _ => link end.
Fixpoint stripURLPrefix (link : string) (prefixes : list string) : string :=
  match prefixes with
  | [] => link
  | prefix :: prefixes => if has_prefix link prefix then stripQuery (trim_prefix link prefix) else stripURLPrefix link prefixes
  end.

Section Groups.
Context (XMLString : node -> string) (sendIQ : infoQuery -> option node * option iq_error).
Context (grow : nat -> nat) (dedup_pairs : list LIDMapping -> list LIDMapping) (dedup : forall E, (E -> JID) -> list E -> list E).
Context (d : Dialect) (pick : forall A, list A -> option A).

Definition groupQuery (iqType : infoQueryType) (jid : JID) (content : node) : infoQuery :=
  mkQuery "w:g2" iqType jid EmptyJID "" "" (VNodes [content]) 0 false.
(** The error that stands for one of the server's, if there is one. *)
Definition human_error (cases : list (IQError * string)) (e : iq_error) : query_error :=
  QueryIQ (snd <$> find (fun c => match e with ErrIQ e => IQError_Is XMLString e c.1 | _ => false end) cases) e.
(** A response without an error is a node. *)
Definition ask (q : infoQuery) (cases : list (IQError * string)) : query_error + node :=
  match sendIQ q with
  | (_, Some e) => inl (human_error cases e)
  | (resp, None) => inr (default (mkNode "" [] VNil) resp)
  end.
Definition sendGroupIQ (iqType : infoQueryType) (jid : JID) (content : node) : query_error + node := ask (groupQuery iqType jid content) [].
Definition command (jid : JID) (content : node) : option query_error := match sendGroupIQ iqSet jid content with inl e => Some e | inr _ => None end.
Definition child_of (n : node) (tag in_ : string) : query_error + node :=
  match GetOptionalChildByTag n [tag] with (c, true) => inr c | (_, false) => inl (QueryMissing tag in_) end.
Definition plain (tag : string) : node := mkNode tag [] VNil.

(** ** The cache *)

Definition slice_of (l : list JID) (h : Arrays) : Slice * Arrays := (mkSlice (Some (length h)) (length l), h ++ [l]).
(** Every member has an entry among the pairs, which is empty without both addresses. *)
Definition member_pair (part : GroupParticipant) : LIDMapping :=
  if negb (Jid.IsEmpty (PhoneNumber part)) && negb (Jid.IsEmpty (gp_LID part)) then mkMapping (gp_LID part) (PhoneNumber part) else mkMapping EmptyJID EmptyJID.
Definition redacted_phone_of (part : GroupParticipant) : option RedactedPhoneEntry :=
  if negb (String.eqb (DisplayName part) "") && negb (Jid.IsEmpty (gp_LID part)) then Some (mkRedacted (gp_LID part) (DisplayName part)) else None.
Definition cacheGroupInfo (info : GroupInfo) (s : QueryState) : list LIDMapping * list RedactedPhoneEntry * QueryState :=
  let '(members, h) := slice_of (gp_JID <$> Participants info) (q_arrays s) in
  (member_pair <$> Participants info, omap redacted_phone_of (Participants info),
   s <| q_arrays := h |>
     <| groupCache := <[gi_JID info := mkGroupMeta (AddressingMode info) (IsAnnounce (gi_Announce info) && IsDefaultSubGroup info) members]> (groupCache s) |>).
(** Errors of the stores are only logged. *)
Definition store_pairs (pairs : list LIDMapping) (s : QueryState) : QueryState := s <| q_lids := (PutManyLIDMappings dedup_pairs pairs (q_lids s)).2 |>.
Definition store_phones (phones : list RedactedPhoneEntry) (s : QueryState) : QueryState := s <| q_contacts := (PutManyRedactedPhones d dedup phones (q_contacts s)).2 |>.

Definition infoQuery_of (jid : JID) : infoQuery := groupQuery iqGet jid (mkNode "query" [("request", VString "interactive")] VNil).
Definition info_errors : list (IQError * string) :=
  [(ErrIQNotFound, "that group does not exist"); (ErrIQForbidden, "you're not participating in that group")].
Definition getGroupInfo (jid : JID) (s : QueryState) : (query_error + GroupInfo) * QueryState :=
  match ask (infoQuery_of jid) info_errors with
  | inl e => (inl e, s)
  | inr res =>
      match GetOptionalChildByTag res ["group"] with
      | (_, false) => (inl (QueryMissing "groups" "response to group info query"), s)
      | (groupNode, true) =>
          match parseGroupNode groupNode with
          | (_, Some e) => (inl (QueryAttrs e), s)
          | (info, None) =>
              let '(lidPairs, redactedPhones, s) := cacheGroupInfo info s in
              (inr info, store_phones redactedPhones (store_pairs lidPairs s))
          end
      end
  end.
(** [Some None] would be a nil pointer: the answer was about another group. *)
Definition getCachedGroupData (jid : JID) (s : QueryState) : (query_error + option groupMetaCache) * QueryState :=
  match groupCache s !! jid with
  | Some val => (inr (Some val), s)
  | None =>
      match getGroupInfo jid s with
      | (inl e, s) => (inl e, s)
      | (inr _, s) => (inr (groupCache s !! jid), s)
      end
  end.

Definition members_of (h : Arrays) (m : groupMetaCache) : list JID := elems h (Members m).
Definition join_member (mh : Slice * Arrays) (jid : JID) : Slice * Arrays :=
  if bool_decide (jid ∈ elems mh.2 mh.1) then mh else append grow jid mh.1 mh.2.
(** The last member takes the place of the one that leaves. *)
Definition leave_member (mh : Slice * Arrays) (jid : JID) : Slice * Arrays :=
  let '(m, h) := mh in
  match list_find (fun x => x = jid) (elems h m), sl_array m with
  | Some (i, _), Some a =>
      let n := (sl_len m - 1)%nat in
      (mkSlice (Some a) n, <[a := <[i := default EmptyJID (cells h m !! n)]> (cells h m)]> h)
  | _, _ => mh
  end.
Definition updateGroupParticipantCache (evt : GroupChange) (s : QueryState) : QueryState :=
  if (length (Join evt) =? 0)%nat && (length (Leave evt) =? 0)%nat then s
  else
    match groupCache s !! gc_JID evt with
    | None => s
    | Some cached =>
        let mh := foldl join_member (Members cached, q_arrays s) (Join evt) in
        let '(m, h) := foldl leave_member mh (Leave evt) in
        s <| q_arrays := h |> <| groupCache := <[gc_JID evt := mkGroupMeta (gm_AddressingMode cached) (CommunityAnnouncementGroup cached) m]> (groupCache s) |>
    end.

(** ** Notifications *)

Definition parseGroupCreate (parentNode n : node) (s : QueryState) :
    (query_error + JoinedGroup * list LIDMapping * list RedactedPhoneEntry) * QueryState :=
  match GetOptionalChildByTag n ["group"] with
  | (_, false) => (inl (QueryOther "group create notification didn't contain group info"), s)
  | (groupNode, true) =>
      let ag := AttrGetter n in
      let '(reason, ag) := OptionalString "reason" ag in
      let '(key, ag) := OptionalString "key" ag in
      let '(type_, _) := OptionalString "type" ag in
      let '(sender, pag) := OptionalJID "participant" (AttrGetter parentNode) in
      let '(senderPN, pag) := OptionalJID "participant_pn" pag in
      let '(notify, _) := OptionalString "notify" pag in
      match parseGroupNode groupNode with
      | (_, Some e) => (inl (QueryAttrs e), s)
      | (info, None) =>
          let '(lidPairs, redactedPhones, s) := cacheGroupInfo info s in
          (inr (mkJoined reason type_ key sender senderPN notify info, lidPairs, redactedPhones), s)
      end
  end.
Inductive group_event : Type := EvJoined (e : JoinedGroup) | EvChange (e : GroupChange).
Definition parseGroupNotification (n : node) (s : QueryState) : (query_error + group_event * list LIDMapping * list RedactedPhoneEntry) * QueryState :=
  match GetChildren n with
  | [child] =>
      if String.eqb (Tag child) "create" then
        match parseGroupCreate n child s with
        | (inl e, s) => (inl e, s)
        | (inr (evt, lidPairs, redactedPhones), s) => (inr (EvJoined evt, lidPairs, redactedPhones), s)
        end
      else match parseGroupChange n with
           | inl e => (inl e, s)
           | inr (evt, lidPairs) => (inr (EvChange evt, lidPairs, []), updateGroupParticipantCache evt s)
           end
  | _ =>
      match parseGroupChange n with
      | inl e => (inl e, s)
      | inr (evt, lidPairs) => (inr (EvChange evt, lidPairs, []), updateGroupParticipantCache evt s)
      end
  end.

(** ** Queries *)

Record ReqCreateGroup : Type := mkReqCreate {
  cr_Name : string; cr_Participants : list JID; CreateKey : string; cr_Ephemeral : GroupEphemeral; cr_IsAnnounce : bool; cr_IsLocked : bool;
  cr_IsJoinApprovalRequired : bool; cr_Parent : GroupParent; cr_LinkedParentJID : JID }.
(** A member with its token, when there is one. *)
Fixpoint participantNodes (l : list JID) (s : QueryState) : (query_error + list node) * QueryState :=
  match l with
  | [] => (inr [], s)
  | jid :: l =>
      match GetPrivacyToken d pick jid (q_account s) with
      | (inl _, db) => (inl QueryStore, s <| q_account := db |>)
      | (inr pt, db) =>
          let content := match pt with Some pt => VNodes [mkNode "privacy" [] (VBytes (of_codes (default [] (pt_Token pt))))] | None => VNil end in
          match participantNodes l (s <| q_account := db |>) with
          | (inl e, s) => (inl e, s)
          | (inr nodes, s) => (inr (mkNode "participant" [("jid", VJID jid)] content :: nodes), s)
          end
      end
  end.
Definition parent_node (p : GroupParent) : node :=
  mkNode "parent" [("default_membership_approval_mode",
    VString (if String.eqb (DefaultMembershipApprovalMode p) "" then "request_required" else DefaultMembershipApprovalMode p))] VNil.
Definition settings_nodes (req : ReqCreateGroup) : list node :=
  (if IsParent (cr_Parent req) then [parent_node (cr_Parent req)]
   else if Jid.IsEmpty (cr_LinkedParentJID req) then [] else [mkNode "linked_parent" [("jid", VJID (cr_LinkedParentJID req))] VNil]) ++
  (if cr_IsLocked req then [plain "locked"] else []) ++
  (if cr_IsAnnounce req then [plain "announcement"] else []) ++
  (if IsEphemeral (cr_Ephemeral req) then [mkNode "ephemeral" [("expiration", VInt (DisappearingTimer (cr_Ephemeral req))); ("trigger", VString "1")] VNil] else []) ++
  (if cr_IsJoinApprovalRequired req then [mkNode "membership_approval_mode" [] (VNodes [mkNode "group_join" [("state", VString "on")] VNil])] else []).
Definition createNode (req : ReqCreateGroup) (nodes : list node) : node :=
  mkNode "create" [("subject", VString (cr_Name req)); ("key", VString (trim_prefix (CreateKey req) "3EB0"))] (VNodes (nodes ++ settings_nodes req)).
(** The code returns the group along with the errors of its node; its callers do not look at it then. *)
Definition parsed (n : query_error + node) : query_error + GroupInfo :=
  match n with
  | inl e => inl e
  | inr n => match parseGroupNode n with (_, Some e) => inl (QueryAttrs e) | (g, None) => inr g end
  end.
(** [newKey] is the identifier that is generated without a key. *)
Definition CreateGroup (newKey : string) (req : ReqCreateGroup) (s : QueryState) : (query_error + GroupInfo) * QueryState :=
  match participantNodes (cr_Participants req) s with
  | (inl e, s) => (inl e, s)
  | (inr nodes, s) =>
      let req := if String.eqb (CreateKey req) "" then mkReqCreate (cr_Name req) (cr_Participants req) newKey (cr_Ephemeral req) (cr_IsAnnounce req)
        (cr_IsLocked req) (cr_IsJoinApprovalRequired req) (cr_Parent req) (cr_LinkedParentJID req) else req in
      (match sendGroupIQ iqSet GroupServerJID (createNode req nodes) with
       | inl e => inl e
       | inr resp => parsed (child_of resp "group" "response to create group query")
       end, s)
  end.
Definition GroupLinkChangeTypeSub : string := "sub_group".
Definition group_child (key : string) (jid : JID) : value := VNodes [mkNode "group" [(key, VJID jid)] VNil].
Definition UnlinkGroup (parent child : JID) : option query_error :=
  command parent (mkNode "unlink" [("unlink_type", VString GroupLinkChangeTypeSub)] (group_child "jid" child)).
Definition LinkGroup (parent child : JID) : option query_error :=
  command parent (mkNode "links" [] (VNodes [mkNode "link" [("link_type", VString GroupLinkChangeTypeSub)] (group_child "jid" child)])).
Definition LeaveGroup (jid : JID) : option query_error := command GroupServerJID (mkNode "leave" [] (group_child "id" jid)).

Inductive ParticipantChange : Type := ParticipantChangeAdd | ParticipantChangeRemove | ParticipantChangePromote | ParticipantChangeDemote.
Definition change_tag (a : ParticipantChange) : string :=
  match a with ParticipantChangeAdd => "add" | ParticipantChangeRemove => "remove" | ParticipantChangePromote => "promote" | ParticipantChangeDemote => "demote" end.
(** The number of a LID that is added goes with it. *)
Fixpoint change_nodes (l : list JID) (action : ParticipantChange) (s : QueryState) : (query_error + list node) * QueryState :=
  match l with
  | [] => (inr [], s)
  | jid :: l =>
      let with_number := String.eqb (Server jid) HiddenUserServer && match action with ParticipantChangeAdd => true | _ => false end in
      let '(number, s) := if with_number then match GetPNForLID jid (q_lids s) with
        | (Some _, _, m) => (inl QueryStore, s <| q_lids := m |>)
        | (None, pn, m) => (inr (if Jid.IsEmpty pn then [] else [("phone_number", VJID pn)]), s <| q_lids := m |>) end else (inr [], s) in
      match number with
      | inl e => (inl e, s)
      | inr number =>
          match change_nodes l action s with
          | (inl e, s) => (inl e, s)
          | (inr nodes, s) => (inr (mkNode "participant" (("jid", VJID jid) :: number) VNil :: nodes), s)
          end
      end
  end.
Definition participants_in (n : node) : list GroupParticipant :=
  (fun child => (parseParticipant child (AttrGetter child)).1) <$> filter (fun c => Tag c = "participant") (GetChildren n).
Definition UpdateGroupParticipants (jid : JID) (participantChanges : list JID) (action : ParticipantChange) (s : QueryState) :
    (query_error + list GroupParticipant) * QueryState :=
  match change_nodes participantChanges action s with
  | (inl e, s) => (inl e, s)
  | (inr content, s) =>
      (match sendGroupIQ iqSet jid (mkNode (change_tag action) [] (VNodes content)) with
       | inl e => inl e
       | inr resp => match child_of resp (change_tag action) "response to group participants update" with inl e => inl e | inr n => inr (participants_in n) end
       end, s)
  end.

Record GroupParticipantRequest : Type := mkParticipantRequest { pr_JID : JID; RequestedAt : Time }.
Definition GetGroupRequestParticipants (jid : JID) : query_error + list GroupParticipantRequest :=
  match sendGroupIQ iqGet jid (plain "membership_approval_requests") with
  | inl e => inl e
  | inr resp =>
      match child_of resp "membership_approval_requests" "response to group request participants query" with
      | inl e => inl e
      | inr request =>
          inr ((fun req => mkParticipantRequest (getJID "jid" (AttrGetter req)).1 (UnixTime "request_time" (AttrGetter req)).1) <$>
               filter (fun c => Tag c = "membership_approval_request") (GetChildren request))
      end
  end.
Inductive ParticipantRequestChange : Type := ParticipantChangeApprove | ParticipantChangeReject.
Definition request_tag (a : ParticipantRequestChange) : string := match a with ParticipantChangeApprove => "approve" | ParticipantChangeReject => "reject" end.
Definition UpdateGroupRequestParticipants (jid : JID) (participantChanges : list JID) (action : ParticipantRequestChange) : query_error + list GroupParticipant :=
  let content := VNodes ((fun j => mkNode "participant" [("jid", VJID j)] VNil) <$> participantChanges) in
  match sendGroupIQ iqSet jid (mkNode "membership_requests_action" [] (VNodes [mkNode (request_tag action) [] content])) with
  | inl e => inl e
  | inr resp =>
      match child_of resp "membership_requests_action" "response to group request participants update" with
      | inl e => inl e
      | inr request =>
          match child_of request (request_tag action) "response to group request participants update" with inl e => inl e | inr n => inr (participants_in n) end
      end
  end.

Definition SetGroupPhoto (jid : JID) (avatar : option Bytes) : query_error + string :=
  let content := match avatar with Some a => VNodes [mkNode "picture" [("type", VString "image")] (VBytes (of_codes a))] | None => VNil end in
  match ask (mkQuery "w:profile:picture" iqSet ServerJID jid "" "" content 0 false) [(ErrIQNotAcceptable, "the given data is not a valid image")] with
  | inl e => inl e
  | inr resp =>
      match avatar with
      | None => inr "remove"
      | Some _ => match attr (Attrs (GetChildByTag resp ["picture"])) "id" with Some (VString id) => inr id | _ => inl (QueryOther "didn't find picture ID in response") end
      end
  end.
Definition SetGroupName (jid : JID) (name : string) : option query_error := command jid (mkNode "subject" [] (VBytes name)).
Definition descriptionNode (previousID newID topic : string) : node :=
  mkNode "description"
    ([("id", VString newID)] ++ (if String.eqb previousID "" then [] else [("prev", VString previousID)]) ++
     (if String.eqb topic "" then [("delete", VString "true")] else []))
    (VNodes (if String.eqb topic "" then [] else [mkNode "body" [] (VBytes topic)])).
Definition SetGroupTopic (generated : string) (jid : JID) (previousID newID topic : string) (s : QueryState) : option query_error * QueryState :=
  let '(previous, s) :=
    if String.eqb previousID "" then
      match getGroupInfo jid s with (inl e, s) => (inl e, s) | (inr info, s) => (inr (TopicID (gi_Topic info)), s) end
    else (inr previousID, s) in
  match previous with
  | inl e => (Some e, s)
  | inr previousID => (command jid (descriptionNode previousID (if String.eqb newID "" then generated else newID) topic), s)
  end.
Definition SetGroupLocked (jid : JID) (locked : bool) : option query_error := command jid (plain (if locked then "locked" else "unlocked")).
Definition SetGroupAnnounce (jid : JID) (announce : bool) : option query_error := command jid (plain (if announce then "announcement" else "not_announcement")).
Definition approvalNode (mode : bool) : node :=
  mkNode "membership_approval_mode" [] (VNodes [mkNode "group_join" [("state", VString (if mode then "on" else "off"))] VNil]).
Definition SetGroupJoinApprovalMode (jid : JID) (mode : bool) : option query_error := command jid (approvalNode mode).
Definition GroupMemberAddModeAdmin : string := "admin_add".
Definition GroupMemberAddModeAllMember : string := "all_member_add".
Definition SetGroupMemberAddMode (jid : JID) (mode : string) : option query_error :=
  if negb (String.eqb mode GroupMemberAddModeAdmin) && negb (String.eqb mode GroupMemberAddModeAllMember)
  then Some (QueryOther "invalid mode, must be 'admin_add' or 'all_member_add'")
  else command jid (mkNode "member_add_mode" [] (VBytes mode)).
Definition SetGroupDescription (jid : JID) (description : string) : option query_error :=
  command jid (mkNode "description" [] (VNodes [mkNode "body" [] (VBytes description)])).

Definition GetGroupInviteLink (jid : JID) (reset : bool) : query_error + string :=
  match ask (groupQuery (if reset then iqSet else iqGet) jid (plain "invite"))
    [(ErrIQNotAuthorized, "you don't have the permission to get the group's invite link"); (ErrIQNotFound, "that group does not exist");
     (ErrIQForbidden, "you're not participating in that group")] with
  | inl e => inl e
  | inr resp => match attr (Attrs (GetChildByTag resp ["invite"])) "code" with
                | Some (VString code) => inr (InviteLinkPrefix +:+ code)
                | _ => inl (QueryOther "didn't find invite code in response")
                end
  end.
Definition invite_attrs (inviter : JID) (code : string) (expiration : Z) : list (string * value) :=
  [("code", VString code); ("expiration", VInt expiration); ("admin", VJID inviter)].
Definition GetGroupInfoFromInvite (jid inviter : JID) (code : string) (expiration : Z) : query_error + GroupInfo :=
  match sendGroupIQ iqGet jid (mkNode "query" [] (VNodes [mkNode "add_request" (invite_attrs inviter code expiration) VNil])) with
  | inl e => inl e
  | inr resp => parsed (child_of resp "group" "response to invite group info query")
  end.
Definition JoinGroupWithInvite (jid inviter : JID) (code : string) (expiration : Z) : option query_error :=
  command jid (mkNode "accept" (invite_attrs inviter code expiration) VNil).
Definition link_errors : list (IQError * string) := [(ErrIQGone, "that group invite link has been revoked"); (ErrIQNotAcceptable, "that group invite link is not valid")].
Definition inviteQuery (iqType : infoQueryType) (code : string) : infoQuery :=
  groupQuery iqType GroupServerJID (mkNode "invite" [("code", VString (stripURLPrefix code [InviteLinkPrefix]))] VNil).
Definition GetGroupInfoFromLink (code : string) : query_error + GroupInfo :=
  match ask (inviteQuery iqGet code) link_errors with
  | inl e => inl e
  | inr resp => parsed (child_of resp "group" "response to group link info query")
  end.
Definition JoinGroupWithLink (code : string) : query_error + JID :=
  match ask (inviteQuery iqSet code) link_errors with
  | inl e => inl e
  | inr resp =>
      match GetOptionalChildByTag resp ["membership_approval_request"] with
      | (n, true) => inr (getJID "jid" (AttrGetter n)).1
      | (_, false) => match child_of resp "group" "response to group link join query" with inl e => inl e | inr n => inr (getJID "jid" (AttrGetter n)).1 end
      end
  end.

(** A group that does not parse is cached and returned all the same. *)
Definition joined_group (acc : list GroupInfo * list LIDMapping * list RedactedPhoneEntry * QueryState) (child : node) :
    list GroupInfo * list LIDMapping * list RedactedPhoneEntry * QueryState :=
  let '(infos, pairs, phones, s) := acc in
  if negb (String.eqb (Tag child) "group") then acc
  else
    let info := (parseGroupNode child).1 in
    let '(lidPairs, redactedPhones, s) := cacheGroupInfo info s in (infos ++ [info], pairs ++ lidPairs, phones ++ redactedPhones, s).
Definition GetJoinedGroups (s : QueryState) : (query_error + list GroupInfo) * QueryState :=
  match sendGroupIQ iqGet GroupServerJID (mkNode "participating" [] (VNodes [plain "participants"; plain "description"])) with
  | inl e => (inl e, s)
  | inr resp =>
      match child_of resp "groups" "response to group list query" with
      | inl e => (inl e, s)
      | inr groups =>
          let '(infos, pairs, phones, s) := foldl joined_group ([], [], [], s) (GetChildren groups) in
          (inr infos, store_phones phones (store_pairs pairs s))
      end
  end.
Fixpoint parse_targets (l : list node) : list GroupLinkTarget * option query_error :=
  match l with
  | [] => ([], None)
  | child :: l =>
      if String.eqb (Tag child) "group" then
        match parseGroupLinkTargetNode child with
        | (_, Some e) => ([], Some (QueryAttrs e))
        | (t, None) => let '(ts, e) := parse_targets l in (t :: ts, e)
        end
      else parse_targets l
  end.
(** With an error, the groups before it. *)
Definition GetSubGroups (community : JID) : list GroupLinkTarget * option query_error :=
  match sendGroupIQ iqGet community (plain "sub_groups") with
  | inl e => ([], Some e)
  | inr res => match child_of res "sub_groups" "response to subgroups query" with inl e => ([], Some e) | inr groups => parse_targets (GetChildren groups) end
  end.
Definition GetLinkedGroupsParticipants (community : JID) (s : QueryState) : (query_error + list JID) * QueryState :=
  match sendGroupIQ iqGet community (plain "linked_groups_participants") with
  | inl e => (inl e, s)
  | inr res =>
      match child_of res "linked_groups_participants" "response to community participants query" with
      | inl e => (inl e, s)
      | inr participants =>
          let '(members, lidPairs) := parseParticipantList participants in
          (inr members, if (length lidPairs =? 0)%nat then s else store_pairs lidPairs s)
      end
  end.
End Groups.

(** ** The members of a cached group *)

Definition member_list (s : QueryState) (k : JID) : option (list JID) := members_of (q_arrays s) <$> groupCache s !! k.
(** The slices of the entries are apart from each other. *)
Record groups_ok (s : QueryState) : Prop := mkGroupsOk {
  gr_wf : forall k m, groupCache s !! k = Some m -> wf_slice (q_arrays s) (Members m);
  gr_apart : forall k1 k2 m1 m2 a, groupCache s !! k1 = Some m1 -> groupCache s !! k2 = Some m2 ->
    sl_array (Members m1) = Some a -> sl_array (Members m2) = Some a -> k1 = k2 }.

Definition joined (l : list JID) (jid : JID) : list JID := if bool_decide (jid ∈ l) then l else l ++ [jid].
Definition left_ (l : list JID) (jid : JID) : list JID :=
  match list_find (fun x => x = jid) l with
  | Some (i, _) => take (length l - 1) (<[i := default EmptyJID (l !! (length l - 1)%nat)]> l)
  | None => l
  end.
Lemma left_perm l jid : jid ∈ l -> l ≡ₚ jid :: left_ l jid.
Proof.
  intros Hin. unfold left_. destruct (list_find (fun x => x = jid) l) as [[i x]|] eqn:Hf.
  2: { apply list_find_None in Hf. rewrite Forall_forall in Hf. by destruct (Hf _ Hin). }
  apply list_find_Some in Hf as (Hi & -> & _). apply list_elem_of_split_length in Hi as (l1 & l2 & -> & ->).
  rewrite length_app. cbn [length]. destruct l2 as [|z l2 _] using rev_ind.
  - cbn [length]. replace (length l1 + 1 - 1)%nat with (length l1) by lia. rewrite insert_app_r_alt, Nat.sub_diag by lia. cbn [insert list_insert].
    rewrite take_app_length. by rewrite Permutation_app_comm.
  - rewrite length_app. cbn [length]. replace (length l1 + S (length l2 + 1) - 1)%nat with (length l1 + S (length l2))%nat by lia.
    assert ((l1 ++ jid :: l2 ++ [z]) !! (length l1 + S (length l2))%nat = Some z) as ->.
    { rewrite app_comm_cons, app_assoc. apply lookup_snoc_Some. right. split; [rewrite length_app; cbn; lia|done]. }
    cbn [default from_option id]. rewrite insert_app_r_alt, Nat.sub_diag by lia. cbn [insert list_insert].
    rewrite take_app_add. cbn [take]. rewrite take_app_length. rewrite <- Permutation_middle. constructor.
    by rewrite <- Permutation_cons_append.
Qed.
Lemma left_spec l jid : NoDup l -> NoDup (left_ l jid) /\ forall x, x ∈ left_ l jid <-> x ∈ l /\ x <> jid.
Proof.
  intros Hd. destruct (decide (jid ∈ l)) as [Hin|Hout].
  - pose proof (left_perm l jid Hin) as Hp. set (l' := left_ l jid) in *. clearbody l'. rewrite Hp in Hd. apply NoDup_cons in Hd as [Hn Hd]. split; [done|]. intros x. rewrite Hp, elem_of_cons.
    split; [|by intros [[]]]. intros Hx. split; [by right|]. by intros ->.
  - unfold left_. destruct (list_find (fun x => x = jid) l) as [[i x]|] eqn:Hf.
    + apply list_find_Some in Hf as (Hi & -> & _). by apply list_elem_of_lookup_2 in Hi.
    + split; [done|]. intros x. split; [|by intros []]. intros Hx. split; [done|]. by intros ->.
Qed.
Lemma joined_spec l jid : NoDup l -> NoDup (joined l jid) /\ forall x, x ∈ joined l jid <-> x ∈ l \/ x = jid.
Proof.
  intros Hd. unfold joined. destruct (bool_decide _) eqn:Hb.
  - apply bool_decide_eq_true in Hb. split; [done|]. intros x. split; [by left|]. by intros [?| ->].
  - apply bool_decide_eq_false in Hb. split; [|intros x; by rewrite elem_of_app, list_elem_of_singleton].
    apply NoDup_app. split; [done|]. split; [|apply NoDup_singleton]. intros x Hx ->%list_elem_of_singleton. done.
Qed.
Lemma joins_spec js : forall l, NoDup l -> NoDup (foldl joined l js) /\ forall x, x ∈ foldl joined l js <-> x ∈ l \/ x ∈ js.
Proof.
  induction js as [|j js IH]; intros l Hd; cbn [foldl]; [split; [done|]; intros x; set_solver|].
  destruct (joined_spec l j Hd) as [H1 H2]. destruct (IH _ H1) as [H3 H4]. split; [done|]. intros x. rewrite H4, H2, elem_of_cons. tauto.
Qed.
Lemma leaves_spec js : forall l, NoDup l -> NoDup (foldl left_ l js) /\ forall x, x ∈ foldl left_ l js <-> x ∈ l /\ x ∉ js.
Proof.
  induction js as [|j js IH]; intros l Hd; cbn [foldl]; [split; [done|]; intros x; set_solver|].
  destruct (left_spec l j Hd) as [H1 H2]. destruct (IH _ H1) as [H3 H4]. split; [done|]. intros x. rewrite H4, H2, not_elem_of_cons. tauto.
Qed.

(** The same on slices. *)
Section Slices.
Context (grow : nat -> nat).
Lemma join_edits jid s h : wf_slice h s -> edits h (join_member grow (s, h) jid).2 s (join_member grow (s, h) jid).1 (joined (elems h s) jid).
Proof. intros Hs. unfold join_member, joined. cbn [fst snd]. destruct (bool_decide _); [by apply edits_refl|by apply edits_append]. Qed.
Lemma leave_edits jid s h : wf_slice h s -> edits h (leave_member (s, h) jid).2 s (leave_member (s, h) jid).1 (left_ (elems h s) jid).
Proof.
  intros Hs. pose proof (elems_length h s Hs) as Hl. unfold leave_member, left_. destruct (list_find _ _) as [[i x]|] eqn:Hf; [|by apply edits_refl].
  apply list_find_Some in Hf as (Hi & -> & _). pose proof (lookup_lt_Some _ _ _ Hi) as Hlt. rewrite Hl in *.
  unfold wf_slice in Hs. destruct (sl_array s) as [a|] eqn:Ha.
  - destruct Hs as (cs & Hcs & Hle). assert (cells h s = cs) as Hc by (unfold cells; by rewrite Ha, Hcs). cbn [fst snd].
    apply (edits_write h s cs); [done|done|rewrite length_insert, Hc; lia|by rewrite length_insert, Hc|].
    assert (elems h s = take (sl_len s) cs) as He by (unfold elems; by rewrite Hc). rewrite He, Hc.
    rewrite lookup_take_lt by lia. rewrite <- take_insert_lt by done. rewrite take_take. f_equal. lia.
  - rewrite Hs in Hlt. lia.
Qed.
Lemma fold_edits {X} (f : Slice * Arrays -> X -> Slice * Arrays) (g : list JID -> X -> list JID) xs :
  (forall x s h, wf_slice h s -> edits h (f (s, h) x).2 s (f (s, h) x).1 (g (elems h s) x)) ->
  forall s h, wf_slice h s -> edits h (foldl f (s, h) xs).2 s (foldl f (s, h) xs).1 (foldl g (elems h s) xs).
Proof.
  intros Hf. induction xs as [|x xs IH]; intros s h Hs; cbn [foldl]; [by apply edits_refl|].
  pose proof (Hf x s h Hs) as H1. destruct (f (s, h) x) as [s1 h1]. cbn [fst snd] in H1. specialize (IH s1 h1 (ed_wf _ _ _ _ _ H1)).
  rewrite (ed_elems _ _ _ _ _ H1) in IH. by eapply edits_trans.
Qed.
End Slices.

Section Cached.
Context (grow : nat -> nat).
Notation update := (updateGroupParticipantCache grow).

Lemma update_spec evt s m : groups_ok s -> groupCache s !! gc_JID evt = Some m ->
  groups_ok (update evt s) /\
  (forall k, k <> gc_JID evt -> member_list (update evt s) k = member_list s k) /\
  member_list (update evt s) (gc_JID evt) = Some (foldl left_ (foldl joined (members_of (q_arrays s) m) (Join evt)) (Leave evt)).
Proof.
  intros [Hwf Hap] Hm. unfold updateGroupParticipantCache. destruct (_ && _) eqn:He.
  { apply andb_true_iff in He as [H1 H2]. apply Nat.eqb_eq, length_zero_iff_nil in H1, H2. rewrite H1, H2. split; [by split|]. split; [done|].
    unfold member_list. by rewrite Hm. }
  rewrite Hm. pose proof (fold_edits (join_member grow) joined (Join evt) (fun x s h => join_edits grow x s h) (Members m) (q_arrays s) (Hwf _ _ Hm)) as H1.
  destruct (foldl (join_member grow) _ _) as [s1 h1]. cbn [fst snd] in H1.
  pose proof (fold_edits leave_member left_ (Leave evt) (fun x s h => leave_edits x s h) s1 h1 (ed_wf _ _ _ _ _ H1)) as H2.
  destruct (foldl leave_member _ _) as [s2 h2]. cbn [fst snd] in H2. rewrite (ed_elems _ _ _ _ _ H1) in H2.
  pose proof (edits_trans _ _ _ _ _ _ _ _ H1 H2) as H3. clear H1 H2.
  assert (forall k mk, k <> gc_JID evt -> groupCache s !! k = Some mk -> forall a, sl_array (Members mk) = Some a -> sl_array (Members m) <> Some a) as Hother.
  { intros k mk Hk Hmk a Ha1 Ha2. apply Hk. by apply (Hap k (gc_JID evt) mk m a). }
  split; [split; cbn|split].
  - intros k mk [[<- <-]|[Hne Hk]]%lookup_insert_Some; [apply (ed_wf _ _ _ _ _ H3)|]. by apply (edits_wf _ _ _ _ _ _ H3), (Hwf k).
  - intros k1 k2 m1 m2 a Hk1 Hk2 Ha1 Ha2. apply lookup_insert_Some in Hk1 as [[<- <-]|[Hn1 Hk1]], Hk2 as [[<- <-]|[Hn2 Hk2]].
    + done.
    + cbn in Ha1. exfalso. pose proof (Hwf _ _ Hk2) as Hw2. unfold wf_slice in Hw2. rewrite Ha2 in Hw2. destruct Hw2 as (cs & Hcs & _).
      destruct (ed_owner _ _ _ _ _ H3) as [Ho|(b & Ho & Hb)]; rewrite Ha1 in Ho; [by apply (Hother k2 m2 ltac:(done) Hk2 a Ha2)|].
      injection Ho as <-. apply lookup_lt_Some in Hcs. lia.
    + cbn in Ha2. exfalso. pose proof (Hwf _ _ Hk1) as Hw1. unfold wf_slice in Hw1. rewrite Ha1 in Hw1. destruct Hw1 as (cs & Hcs & _).
      destruct (ed_owner _ _ _ _ _ H3) as [Ho|(b & Ho & Hb)]; rewrite Ha2 in Ho; [by apply (Hother k1 m1 ltac:(done) Hk1 a Ha1)|].
      injection Ho as <-. apply lookup_lt_Some in Hcs. lia.
    + by apply (Hap k1 k2 m1 m2 a).
  - intros k Hk. unfold member_list. cbn. rewrite lookup_insert_ne by done. destruct (groupCache s !! k) as [mk|] eqn:Hmk; [|done]. cbn. f_equal.
    unfold members_of. by apply (edits_other _ _ _ _ _ _ H3 (Hwf _ _ Hmk)), (Hother k).
  - unfold member_list. cbn. rewrite lookup_insert_eq. cbn. unfold members_of. cbn. by rewrite (ed_elems _ _ _ _ _ H3).
Qed.
End Cached.

(** C16. The members of a cached group follow the notifications: those who join are added once and
    those who leave are gone; no other group changes. *)
Theorem members_follow grow evt s l :
  groups_ok s -> member_list s (gc_JID evt) = Some l -> NoDup l ->
  let s' := updateGroupParticipantCache grow evt s in
  groups_ok s' /\ (forall k, k <> gc_JID evt -> member_list s' k = member_list s k) /\
  exists l', member_list s' (gc_JID evt) = Some l' /\ NoDup l' /\ forall x, x ∈ l' <-> (x ∈ l \/ x ∈ Join evt) /\ x ∉ Leave evt.
Proof.
  intros Hok Hl Hd. unfold member_list in Hl. destruct (groupCache s !! gc_JID evt) as [m|] eqn:Hm; [|done]. injection Hl as <-.
  destruct (update_spec grow evt s m Hok Hm) as (H1 & H2 & H3). split; [done|]. split; [done|]. eexists. split; [exact H3|].
  destruct (joins_spec (Join evt) _ Hd) as [Hj1 Hj2]. destruct (leaves_spec (Leave evt) _ Hj1) as [Hv1 Hv2]. split; [done|].
  intros x. by rewrite Hv2, Hj2.
Qed.

(** The list that a message is being sent to is that of the cache, and its array is changed while
    it is read: when a member leaves, another one is on the list twice. *)
Theorem leave_seen_by_sender grow evt s a b c m arr :
  groups_ok s -> groupCache s !! gc_JID evt = Some m -> sl_array (Members m) = Some arr -> members_of (q_arrays s) m = [a; b; c] ->
  Join evt = [] -> Leave evt = [a] ->
  members_of (q_arrays (updateGroupParticipantCache grow evt s)) m = [c; b; c].
Proof.
  intros [Hwf _] Hm Ha Hl Hj Hv. pose proof (Hwf _ _ Hm) as Hw. pose proof (elems_length _ _ Hw) as Hlen. unfold members_of in Hl. rewrite Hl in Hlen. cbn in Hlen.
  unfold updateGroupParticipantCache. rewrite Hj, Hv, Hm. cbn -[leave_member]. unfold leave_member. rewrite Hl. cbn -[insert lookup].
  rewrite decide_True by done. cbn -[insert lookup]. rewrite Ha. cbn -[insert lookup]. unfold wf_slice in Hw. rewrite Ha in Hw. destruct Hw as (cs & Hcs & Hle).
  unfold members_of, elems, cells in *. rewrite Ha in *. rewrite Hcs in *. cbn -[insert lookup] in *. rewrite list_lookup_insert_eq by by eapply lookup_lt_Some. cbn -[insert lookup].
  rewrite <- Hlen in *. destruct cs as [|x [|y [|z cs]]]; cbn in Hl, Hle |- *; try lia. by injection Hl as -> -> ->.
Qed.

(** After a group was asked for, its members are taken from the cache, whatever the server would
    say; but when the answer is about another group there are none, and the pointer is nil. *)
Theorem group_asked_once XMLString sendIQ sendIQ' dedup_pairs dedup d jid s r s' :
  getCachedGroupData XMLString sendIQ dedup_pairs dedup d jid s = (inr r, s') ->
  (forall m, r = Some m -> getCachedGroupData XMLString sendIQ' dedup_pairs dedup d jid s' = (inr (Some m), s')) /\
  (r = None -> exists info, (getGroupInfo XMLString sendIQ dedup_pairs dedup d jid s).1 = inr info /\ gi_JID info <> jid).
Proof.
  unfold getCachedGroupData. destruct (groupCache s !! jid) as [v|] eqn:Hv.
  { intros [= <- <-]. split; [|done]. intros m [= <-]. by rewrite Hv. }
  destruct (getGroupInfo _ _ _ _ _ _ s) as [[e|info] s1] eqn:Hg; [done|]. intros [= <- <-]. split.
  - intros m Hm. by rewrite Hm.
  - intros Hn. exists info. split; [done|]. intros He. revert Hg. unfold getGroupInfo. destruct (ask _ _ _ _) as [|res]; [done|].
    destruct (GetOptionalChildByTag res ["group"]) as [g []]; [|done]. destruct (parseGroupNode g) as [info' [e|]]; [done|]. cbn. intros [= -> <-].
    cbn in Hn. by rewrite He, lookup_insert_eq in Hn.
Qed.

(** A notification that joining needs no approval any more is reported as one that it does. *)
Theorem approval_always_on mode evt pairs : exists evt', parse_change (evt, pairs) (approvalNode mode) = inr (evt', pairs) /\ MembershipApprovalMode evt' = Some true.
Proof. eexists. by split. Qed.

Fixpoint no_question (s : string) : bool := match s with "" => true | String c s => negb (Ascii.eqb c "?") && no_question s end.
Lemma index_byte_none s : no_question s = true -> index_byte s "?" = None.
Proof. induction s as [|c s IH]; [done|]. cbn. rewrite andb_true_iff, negb_true_iff, Ascii.eqb_neq. intros [Hc Hs]. destruct (ascii_dec c "?"); [done|]. by rewrite IH. Qed.
Lemma index_byte_app s t : no_question s = true -> index_byte (s +:+ String "?" t) "?" = Some (String.length s).
Proof. induction s as [|c s IH]; [done|]. cbn. rewrite andb_true_iff, negb_true_iff, Ascii.eqb_neq. intros [Hc Hs]. destruct (ascii_dec c "?"); [done|]. by rewrite IH. Qed.
Lemma substring_app s t : String.substring 0 (String.length s) (s +:+ t) = s.
Proof. induction s as [|c s IH]; cbn; [by destruct t|]. by rewrite IH. Qed.
(** The link to a group leads to the code that the server gave, with and without a query. *)
Theorem invite_link_roundtrip XMLString sendIQ jid reset link :
  GetGroupInviteLink XMLString sendIQ jid reset = inr link ->
  exists code, link = InviteLinkPrefix +:+ code /\
    (no_question code = true -> code <> "" -> has_prefix code InviteLinkPrefix = false -> forall query,
     inviteQuery iqGet link = inviteQuery iqGet code /\ inviteQuery iqGet (link +:+ String "?" query) = inviteQuery iqGet code).
Proof.
  unfold GetGroupInviteLink. destruct (ask _ _ _ _) as [e|resp]; [done|]. destruct (attr _ "code") as [[]|]; try done.
  match goal with |- inr (_ +:+ ?c) = _ -> _ => set (code := c) end. intros Hl. assert (link = InviteLinkPrefix +:+ code) as -> by congruence. exists code. split; [done|]. intros Hq Hne Hp query.
  assert (forall x, has_prefix (InviteLinkPrefix +:+ x) InviteLinkPrefix = true) as Hpre by (intros x; apply has_prefix_spec; by eexists).
  assert (forall x, trim_prefix (InviteLinkPrefix +:+ x) InviteLinkPrefix = x) as Htrim by (intros x; unfold trim_prefix; rewrite Hpre; apply drop_str_app).
  assert (stripURLPrefix code [InviteLinkPrefix] = code) as H0 by (cbn [stripURLPrefix]; by rewrite Hp).
  assert (forall x, stripURLPrefix (InviteLinkPrefix +:+ x) [InviteLinkPrefix] = stripQuery x) as H1
    by (intros x; cbn [stripURLPrefix]; by rewrite Hpre, Htrim).
  assert (stripQuery code = code) as H2 by (unfold stripQuery; by rewrite index_byte_none).
  assert (stripQuery (code +:+ String "?" query) = code) as H3.
  { unfold stripQuery. rewrite index_byte_app by done. clearbody code. destruct code as [|c code]; [done|].
    cbn [String.length]. change (S (String.length code)) with (String.length (String c code)). by rewrite substring_app. }
  unfold inviteQuery. by rewrite append_assoc, H0, !H1, H2, H3.
Qed.

(** ** The theorems at work *)

Definition demo_members : list JID := [NewJID "1" HiddenUserServer; NewJID "2" HiddenUserServer; NewJID "3" HiddenUserServer].
Definition demo_group : JID := NewJID "123-4" GroupServer.
Definition demo_cached : groupMetaCache := mkGroupMeta AddressingModeLID false (mkSlice (Some 0%nat) 3).
Definition demo_groups : QueryState :=
  mkQueryState [demo_members] {[demo_group := demo_cached]} (NewCachedLIDMap [] []) (mkContactDB ∅ ∅ []) demo_account.
Definition demo_change (join leave : list JID) : GroupChange :=
  mkChange demo_group "" None None zeroTime None None None None None None None None None None "" "" "" join leave [] [] false false [].
Lemma demo_groups_ok : groups_ok demo_groups.
Proof.
  split.
  - intros k m Hk. change (groupCache demo_groups) with ({[demo_group := demo_cached]} : gmap JID groupMetaCache) in Hk. apply lookup_singleton_Some in Hk as [<- <-]. exists demo_members. split; [done|]. cbn. lia.
  - intros k1 k2 m1 m2 a H1 H2 _ _. change (groupCache demo_groups) with ({[demo_group := demo_cached]} : gmap JID groupMetaCache) in H1, H2. apply lookup_singleton_Some in H1 as [<- _], H2 as [<- _]. done.
Qed.
Lemma demo_lookup : groupCache demo_groups !! demo_group = Some demo_cached.
Proof. apply lookup_singleton_eq. Qed.
Lemma members_follow_witness :
  exists l', member_list (updateGroupParticipantCache (fun n => n) (demo_change [NewJID "4" HiddenUserServer] [NewJID "1" HiddenUserServer]) demo_groups) demo_group = Some l' /\
    NewJID "4" HiddenUserServer ∈ l' /\ NewJID "1" HiddenUserServer ∉ l'.
Proof.
  destruct (members_follow (fun n => n) (demo_change [NewJID "4" HiddenUserServer] [NewJID "1" HiddenUserServer]) demo_groups demo_members demo_groups_ok)
    as (_ & _ & l' & Hl & _ & Hx).
  - unfold member_list. change (gc_JID (demo_change _ _)) with demo_group. rewrite demo_lookup. reflexivity.
  - unfold demo_members. repeat constructor; set_solver.
  - exists l'. split; [exact Hl|]. split; [apply Hx; cbn; split; [right; by left|set_solver]|]. intros H. apply Hx in H as [_ H]. apply H. by left.
Defined.
Lemma leave_seen_by_sender_witness :
  members_of (q_arrays (updateGroupParticipantCache (fun n => n) (demo_change [] [NewJID "1" HiddenUserServer]) demo_groups)) demo_cached =
    [NewJID "3" HiddenUserServer; NewJID "2" HiddenUserServer; NewJID "3" HiddenUserServer].
Proof.
  exact (leave_seen_by_sender (fun n => n) (demo_change [] [NewJID "1" HiddenUserServer]) demo_groups (NewJID "1" HiddenUserServer) (NewJID "2" HiddenUserServer)
    (NewJID "3" HiddenUserServer) demo_cached 0%nat demo_groups_ok demo_lookup eq_refl eq_refl eq_refl eq_refl).
Defined.
Definition demo_answer (id : string) : infoQuery -> option node * option iq_error := fun _ =>
  (Some (mkNode "iq" [] (VNodes [mkNode "group" [("id", VString id)] (VNodes [member_node (NewJID "1" HiddenUserServer) []])])), None).
Lemma group_asked_once_witness :
  let s' := (getCachedGroupData Tag (demo_answer "5") id (fun _ _ l => l) SQLite (NewJID "5" GroupServer) demo_groups).2 in
  exists m, getCachedGroupData Tag (fun _ => (None, Some ErrNotConnected)) id (fun _ _ l => l) SQLite (NewJID "5" GroupServer) s' = (inr (Some m), s').
Proof.
  cbn zeta. set (r := getCachedGroupData Tag (demo_answer "5") id (fun _ _ l => l) SQLite (NewJID "5" GroupServer) demo_groups).
  assert (exists m, r.1 = inr (Some m)) as [m Hm] by (eexists; vm_compute; reflexivity). exists m.
  apply (proj1 (group_asked_once Tag (demo_answer "5") (fun _ => (None, Some ErrNotConnected)) id (fun _ _ l => l) SQLite (NewJID "5" GroupServer) demo_groups (Some m) r.2
    ltac:(rewrite <- Hm; exact (surjective_pairing r)))). reflexivity.
Defined.
Lemma invite_link_roundtrip_witness :
  inviteQuery iqGet ("https://chat.whatsapp.com/AbC" +:+ String "?" "mode=ac") = inviteQuery iqGet "AbC".
Proof.
  destruct (invite_link_roundtrip Tag (fun _ => (Some (mkNode "iq" [] (VNodes [mkNode "invite" [("code", VString "AbC")] VNil])), None)) demo_group false
    "https://chat.whatsapp.com/AbC" eq_refl) as (code & Hc & H). injection Hc as Hc. subst code. apply (H eq_refl ltac:(done) eq_refl "mode=ac").
Defined.
