(* ===== verification/UserQueries.v ===== *)
(** * [whatsmeow/user.go]: queries about users, and their names

    Links, profiles, pictures and lists of the server's answers, and the names
    that messages carry, which are stored under both addresses of a user.  The
    answers are a parameter, and so are the certificates of businesses. *)
From S2P Require Import Prelude GoStrings GoTime Jid BinaryNode NodeAttrs Requests LidMap PreKeys SqlDB SqlText Contacts AccountStore DeviceStore MessageSource UserDevices GroupParse Groups.

(** ** [encoding/base64] *)

Definition digit64 (c : ascii) : option Z :=
  let n := Z.of_nat (nat_of_ascii c) in
  if (65 <=? n) && (n <=? 90) then Some (n - 65) else if (97 <=? n) && (n <=? 122) then Some (n - 71)
  else if (48 <=? n) && (n <=? 57) then Some (n + 4) else if n =? 43 then Some 62 else if n =? 47 then Some 63 else None.
Definition is_pad (c : ascii) : bool := if ascii_dec c "=" then true else false.
(** What [StdEncoding.DecodeString] returns, next to an error or not: the groups of four up
    to the first that is malformed; line breaks do not count. *)
Fixpoint decode_groups (fuel : nat) (l : list ascii) : Bytes :=
  match fuel, l with
  | S fuel, c0 :: c1 :: c2 :: c3 :: rest =>
      match digit64 c0, digit64 c1, digit64 c2, digit64 c3 with
      | Some a, Some b, Some c, Some d =>
          let v := a * 2 ^ 18 + b * 2 ^ 12 + c * 2 ^ 6 + d in
          [v / 2 ^ 16; v / 2 ^ 8 mod 2 ^ 8; v mod 2 ^ 8] ++ decode_groups fuel rest
      | Some a, Some b, Some c, None => if is_pad c3 then [a * 4 + b / 16; (b mod 16) * 16 + c / 4] else []
      | Some a, Some b, None, None => if is_pad c2 && is_pad c3 then [a * 4 + b / 16] else []
      | _, _, _, _ => []
      end
  | _, _ => []
  end.
Definition line_break (c : ascii) : bool := (nat_of_ascii c =? 10)%nat || (nat_of_ascii c =? 13)%nat.
Definition DecodeString (s : string) : Bytes :=
  let l := filter (fun c => line_break c = false) (bytes s) in decode_groups (length l) l.
Example decoded : DecodeString "aGkh/w==" = [104; 105; 33; 255] /\ DecodeString "aGkh!w==" = [104; 105; 33].
Proof. split; reflexivity. Qed.

(** ** The data *)

Record BusinessMessageLinkTarget : Type := mkLinkBusiness {
  bl_JID : JID; bl_PushName : string; bl_VerifiedName : string; IsSigned : bool; VerifiedLevel : string; bl_Message : string }.
Record ContactQRLinkTarget : Type := mkLinkContact { ql_JID : JID; ql_Type : string; ql_PushName : string }.
Record BotProfileCommand : Type := mkCommand { bc_Name : string; bc_Description : string }.
Record BotProfileInfo : Type := mkBotProfile {
  bp_JID : JID; bp_Name : string; bp_Attributes : string; bp_Description : string; bp_Category : string; bp_IsDefault : bool;
  Prompts : list string; bp_PersonaID : string; Commands : list BotProfileCommand; CommandsDescription : string }.
Record BusinessHoursConfig : Type := mkHours { DayOfWeek : string; Mode : string; OpenTime : string; CloseTime : string }.
Record CategoryInfo : Type := mkCategory { cat_ID : string; cat_Name : string }.
Record BusinessProfile : Type := mkProfile {
  biz_JID : JID; Address : string; Email : string; Categories : list CategoryInfo; ProfileOptions : gmap string string;
  BusinessHoursTimeZone : string; BusinessHours : list BusinessHoursConfig }.
Record GetProfilePictureParams : Type := mkPictureParams {
  Preview : bool; ExistingID : string; IsCommunity : bool; CommonGID : JID; InviteCode : string; pp_PersonaID : string }.
Record ProfilePictureInfo : Type := mkPicture { pic_URL : string; pic_ID : string; pic_Type : string; DirectPath : string; pic_Hash : Bytes }.
Record Blocklist : Type := mkBlocklist { DHash : string; JIDs : list JID }.

Definition BusinessMessageLinkPrefix : string := "https://wa.me/message/".
Definition ContactQRLinkPrefix : string := "https://wa.me/qr/".
Definition BusinessMessageLinkDirectPrefix : string := "https://api.whatsapp.com/message/".
Definition ContactQRLinkDirectPrefix : string := "https://api.whatsapp.com/qr/".

(** [n.Content.([]byte)]: the empty string for another type, or a panic without the second
    result. *)
Definition text_of (n : node) : string := default "" (bytes_content n).
Definition text_or_panic (n : node) : outcome string :=
  match bytes_content n with Some b => Ret b | None => Panic "interface conversion" end.

Section Queries.
Context (XMLString : node -> string) (sendIQ : infoQuery -> option node * option iq_error).
Context (d : Dialect) (pick : forall A, list A -> option A).
Notation ask := (ask XMLString sendIQ).

Definition iq (ns : string) (type_ : infoQueryType) (to : JID) (content : list node) : infoQuery :=
  mkQuery ns type_ to EmptyJID "" "" (VNodes content) 0 false.

(** ** Links *)

Definition qrQuery (type_ : infoQueryType) (attrs : list (string * value)) : infoQuery := iq "w:qr" type_ EmptyJID [mkNode "qr" attrs VNil].
(** The result with the errors of its attributes. *)
Definition ResolveBusinessMessageLink (code : string) : query_error + BusinessMessageLinkTarget * option (list attr_error) :=
  match ask (qrQuery iqGet [("code", VString (stripURLPrefix code [BusinessMessageLinkPrefix; BusinessMessageLinkDirectPrefix]))])
          [(ErrIQNotFound, "that business message link does not exist or has been revoked")] with
  | inl e => inl e
  | inr resp =>
      match child_of resp "qr" "response to business message link query" with
      | inl e => inl e
      | inr qrChild =>
          let '((jid, name), ag) := (j ← reads (getJID "jid"); n ← reads (getString "notify"); mret (j, n)) (AttrGetter qrChild) in
          let message := match GetOptionalChildByTag qrChild ["message"] with (m, true) => text_of m | _ => "" end in
          let '(signed, vname, level) :=
            match GetOptionalChildByTag qrChild ["business"] with
            | (b, true) => ((s ← reads (OptionalBool "is_signed"); v ← reads (OptionalString "verified_name"); l ← reads (OptionalString "verified_level");
                            mret (s, v, l)) (AttrGetter b)).1
            | _ => (false, "", "")
            end in
          inr (mkLinkBusiness jid name vname signed level message, Error_ ag)
      end
  end.
Definition ResolveContactQRLink (code : string) : query_error + ContactQRLinkTarget * option (list attr_error) :=
  match ask (qrQuery iqGet [("code", VString (stripURLPrefix code [ContactQRLinkPrefix; ContactQRLinkDirectPrefix]))])
          [(ErrIQNotFound, "that contact QR link does not exist or has been revoked")] with
  | inl e => inl e
  | inr resp =>
      match child_of resp "qr" "response to contact link query" with
      | inl e => inl e
      | inr qrChild =>
          let '((jid, name, type_), ag) := (j ← reads (getJID "jid"); n ← reads (OptionalString "notify"); t ← reads (getString "type"); mret (j, n, t))
            (AttrGetter qrChild) in
          inr (mkLinkContact jid type_ name, Error_ ag)
      end
  end.
Definition GetContactQRLink (revoke : bool) : query_error + string * option (list attr_error) :=
  match ask (qrQuery iqSet [("type", VString "contact"); ("action", VString (if revoke then "revoke" else "get"))]) [] with
  | inl e => inl e
  | inr resp =>
      match child_of resp "qr" "response to own contact link fetch" with
      | inl e => inl e
      | inr qrChild => let '(code, ag) := getString "code" (AttrGetter qrChild) in inr (code, Error_ ag)
      end
  end.
Definition SetStatusMessage (msg : string) : option query_error :=
  match ask (iq "status" iqSet ServerJID [mkNode "status" [] (VString msg)]) [] with inl e => Some e | inr _ => None end.

(** ** Bots and businesses *)

Definition bot_of (n : node) : BotListInfo :=
  ((p ← reads (getString "persona_id"); j ← reads (getJID "jid"); mret (mkBot j p)) (AttrGetter n)).1.
Definition GetBotListV2 : query_error + list BotListInfo :=
  match ask (iq "bot" iqGet ServerJID [mkNode "bot" [("v", VString "2")] VNil]) [] with
  | inl e => inl e
  | inr resp =>
      match child_of resp "bot" "response to bot list query" with
      | inl e => inl e
      | inr botNode =>
          inr (concat (map (fun section => if String.eqb (getString "type" (AttrGetter section)).1 "all" then bot_of <$> GetChildrenByTag "bot" section else [])
            (GetChildrenByTag "section" botNode)))
      end
  end.
Definition child_text (n : node) (tag : string) : outcome string := text_or_panic (GetChildByTag n [tag]).
Fixpoint each {A} (f : node -> outcome A) (l : list node) : outcome (list A) :=
  match l with [] => Ret [] | n :: l => x ← f n; xs ← each f l; Ret (x :: xs) end.
Definition botProfile (user : node) : outcome BotProfileInfo :=
  let jid := (getJID "jid" (AttrGetter user)).1 in
  let profile := GetChildByTag (GetChildByTag user ["bot"]) ["profile"] in
  name ← child_text profile "name"; attributes ← child_text profile "attributes";
  description ← child_text profile "description"; category ← child_text profile "category";
  let isDefault := (GetOptionalChildByTag profile ["default"]).2 in
  let personaID := (getString "persona_id" (AttrGetter profile)).1 in
  let commandsNode := GetChildByTag profile ["commands"] in
  commandDescription ← child_text commandsNode "description";
  commands ← each (fun c => n ← child_text c "name"; desc ← child_text c "description"; Ret (mkCommand n desc)) (GetChildrenByTag "command" commandsNode);
  prompts ← each (fun p => e ← child_text p "emoji"; t ← child_text p "text"; Ret (e +:+ " " +:+ t))
    (GetChildrenByTag "prompt" (GetChildByTag profile ["prompts"]));
  Ret (mkBotProfile jid name attributes description category isDefault prompts personaID commands commandDescription).
Definition GetBotProfiles (sid : string) (botInfo : list BotListInfo) : outcome (user_error + list BotProfileInfo) :=
  match usync sendIQ sid "query" "interactive" (BotJID <$> botInfo) botInfo
          [mkNode "bot" [] (VNodes [mkNode "profile" [("v", VString "1")] VNil])] with
  | inl e => Ret (inl e)
  | inr list => profiles ← each botProfile (GetChildren list); Ret (inr profiles)
  end.

Definition hoursConfig (config : node) : option BusinessHoursConfig :=
  if String.eqb (Tag config) "business_hours_config" then
    let s k := (getString k (AttrGetter config)).1 in Some (mkHours (s "day_of_week") (s "mode") (s "open_time") (s "close_time"))
  else None.
Definition categoryOf (n : node) : option CategoryInfo :=
  if String.eqb (Tag n) "category" then Some (mkCategory (getString "id" (AttrGetter n)).1 (text_of n)) else None.
Definition parseBusinessProfile (n : node) : query_error + BusinessProfile :=
  let profileNode := GetChildByTag n ["profile"] in
  match NodeAttrs.GetJID "jid" true (AttrGetter profileNode) with
  | (_, false, _) => inl (QueryOther "missing jid in business profile")
  | (jid, true, _) =>
      let businessHour := GetChildByTag profileNode ["business_hours"] in
      inr (mkProfile jid (text_of (GetChildByTag profileNode ["address"])) (text_of (GetChildByTag profileNode ["email"]))
        (omap categoryOf (GetChildren (GetChildByTag profileNode ["categories"])))
        (foldl (fun m o => <[Tag o := text_of o]> m) ∅ (GetChildren (GetChildByTag profileNode ["profile_options"])))
        (getString "timezone" (AttrGetter businessHour)).1 (omap hoursConfig (GetChildren businessHour)))
  end.
Definition GetBusinessProfile (jid : JID) : query_error + BusinessProfile :=
  match ask (iq "w:biz" iqGet ServerJID [mkNode "business_profile" [("v", VString "244")] (VNodes [mkNode "profile" [("jid", VJID jid)] VNil])]) [] with
  | inl e => inl e
  | inr resp =>
      match child_of resp "business_profile" "response to business profile query" with inl e => inl e | inr n => parseBusinessProfile n end
  end.

(** ** Pictures *)

Definition noPictureParams : GetProfilePictureParams := mkPictureParams false "" false EmptyJID "" "".
Definition pictureAttrs (params : GetProfilePictureParams) : list (string * value) :=
  [("query", VString "url"); ("type", VString (if Preview params then "preview" else "image"))] ++
  (if String.eqb (ExistingID params) "" then [] else [("id", VString (ExistingID params))]) ++
  (if String.eqb (InviteCode params) "" then [] else [("invite", VString (InviteCode params))]).
(** An error of the store is no token. *)
Definition pictureQuery (jid : JID) (params : GetProfilePictureParams) (s : QueryState) : infoQuery * QueryState :=
  if IsCommunity params then
    (iq "w:g2" iqGet jid [mkNode "pictures" [] (VNodes [mkNode "picture" (pictureAttrs params ++ [("parent_group_jid", VJID jid)]) VNil])], s)
  else
    let attrs := pictureAttrs params ++
      (if Jid.IsEmpty (CommonGID params) then [] else [("common_gid", VJID (CommonGID params))]) ++
      (if String.eqb (pp_PersonaID params) "" then [] else [("persona_id", VString (pp_PersonaID params))]) in
    let '(token, db) := GetPrivacyToken d pick jid (q_account s) in
    let content := match token with
                   | inr (Some t) => [mkNode "tctoken" [] (VBytes (of_codes (default [] (pt_Token t))))]
                   | _ => []
                   end in
    (mkQuery "w:profile:picture" iqGet ServerJID jid "" "" (VNodes [mkNode "picture" attrs (VNodes content)]) 0 false, s <| q_account := db |>).
Definition picture_errors : list (IQError * string) :=
  [(ErrIQNotAuthorized, "the user has hidden their profile picture from you"); (ErrIQNotFound, "that user or group does not have a profile picture")].
Inductive picture_result : Type :=
| PictureError (e : query_error)
| PictureNotSet
| PictureUnchanged
| Picture_ (info : ProfilePictureInfo) (e : option (list attr_error)).
Definition readPicture (existing : bool) (resp : node) : picture_result :=
  match GetOptionalChildByTag resp ["picture"] with
  | (_, false) => if existing then PictureUnchanged else PictureError (QueryMissing "picture" "response to profile picture query")
  | (picture, true) =>
      let '(status, ag) := OptionalInt "status" (AttrGetter picture) in
      if status =? 304 then PictureUnchanged
      else
        let '(status, ag) := OptionalInt "status" ag in
        if status =? 204 then PictureNotSet
        else
          let '(info, ag) := (id ← reads (getString "id"); url ← reads (getString "url"); type_ ← reads (getString "type");
            path ← reads (getString "direct_path"); hash ← reads (OptionalString "hash"); mret (mkPicture url id type_ path (DecodeString hash))) ag in
          Picture_ info (Error_ ag)
  end.
Definition GetProfilePictureInfo (jid : JID) (params : option GetProfilePictureParams) (s : QueryState) : picture_result * QueryState :=
  let params := default noPictureParams params in
  let '(q, s) := pictureQuery jid params s in
  let existing := negb (String.eqb (ExistingID params) "") in
  (match ask q picture_errors with
   | inl e => PictureError e
   | inr resp =>
       if IsCommunity params then
         match child_of resp "pictures" "response to profile picture query" with inl e => PictureError e | inr pics => readPicture existing pics end
       else readPicture existing resp
   end, s).

(** ** The list of blocked users *)

Definition blockedJID (child : node) : option JID :=
  let '(jid, ag) := getJID "jid" (AttrGetter child) in if OK ag then Some jid else None.
Definition parseBlocklist (n : node) : Blocklist := mkBlocklist (getString "dhash" (AttrGetter n)).1 (omap blockedJID (GetChildren n)).
Definition blocklist_in (where_ : string) (q : infoQuery) : query_error + Blocklist :=
  match ask q [] with
  | inl e => inl e
  | inr resp => match child_of resp "list" where_ with inl e => inl e | inr list => inr (parseBlocklist list) end
  end.
Definition GetBlocklist : query_error + Blocklist :=
  blocklist_in "response to blocklist query" (mkQuery "blocklist" iqGet ServerJID EmptyJID "" "" VNil 0 false).
Definition UpdateBlocklist (jid : JID) (action : string) : query_error + Blocklist :=
  blocklist_in "response to blocklist update" (iq "blocklist" iqSet ServerJID [mkNode "item" [("jid", VJID jid); ("action", VString action)] VNil]).
End Queries.

(** ** Names *)

Section Names.
Context {Certificate Details : Type} (unmarshalCert : Bytes -> option Certificate) (certDetails : Certificate -> Bytes).
Context (unmarshalDetails : Bytes -> option Details) (GetVerifiedName : Details -> string).
Context (grow : nat -> nat) (dedup_pairs : list LIDMapping -> list LIDMapping).
Context (sendIQ : infoQuery -> option node * option iq_error) (d : Dialect) (device : option Device).

(** [events.PushName] and [events.BusinessName]. *)
Inductive name_event : Type :=
| PushNameEvent (jid jidAlt : JID) (message : option (@MessageInfo Certificate Details)) (oldName newName : string)
| BusinessNameEvent (jid : JID) (message : option (@MessageInfo Certificate Details)) (oldName newName : string).

Definition on_contacts {A} (m : Stmt ContactDB A) (s : QueryState) : (store_error + A) * QueryState :=
  match m (q_contacts s) with (r, db) => (r, s <| q_contacts := db |>) end.
(** The name is put for the user and, when it changed, for the other address.  The
    result is that address and the name of before; errors are only logged. *)
Definition update_name (put : JID -> string -> Stmt ContactDB (bool * string)) (user userAlt : JID) (name : string) (s : QueryState) :
    outcome (option (JID * string) * QueryState) :=
  match on_contacts (put user name) s with
  | (inl _, s) | (inr (false, _), s) => Ret (None, s)
  | (inr (true, previousName), s) =>
      '(userAlt, s) ← (if Jid.IsEmpty (ToNonAD userAlt) then r ← GetAltJID device user (q_lids s); Ret (r.1.2, s <| q_lids := r.2 |>)
                       else Ret (ToNonAD userAlt, s));
      Ret (Some (userAlt, previousName), if Jid.IsEmpty userAlt then s else (on_contacts (put userAlt name) s).2)
  end.
Definition updatePushName (user userAlt : JID) (messageInfo : option MessageInfo) (name : string) (s : QueryState) :
    outcome (list name_event * QueryState) :=
  '(changed, s) ← update_name (PutPushName d) (ToNonAD user) userAlt name s;
  Ret (match changed with Some (alt, previous) => [PushNameEvent (ToNonAD user) alt messageInfo previous name] | None => [] end, s).
Definition updateBusinessName (user userAlt : JID) (messageInfo : option MessageInfo) (name : string) (s : QueryState) :
    outcome (list name_event * QueryState) :=
  '(changed, s) ← update_name (PutBusinessName d) user userAlt name s;
  Ret (match changed with Some (_, previous) => [BusinessNameEvent user messageInfo previous name] | None => [] end, s).
(** An identifier and a name of the history; a name that is a dash is none. *)
Definition historicalName (s : QueryState) (user : string * string) : QueryState :=
  if String.eqb user.2 "-" then s
  else match ParseJID user.1 with (_, Some _) => s | (jid, None) => (on_contacts (PutPushName d jid user.2) s).2 end.
Definition handleHistoricalPushNames (names : list (string * string)) (s : QueryState) : QueryState := foldl historicalName s names.

Definition parseVerifiedName (businessNode : node) : option (Certificate * Details) :=
  if negb (String.eqb (Tag businessNode) "business") then None
  else match GetOptionalChildByTag businessNode ["verified_name"] with
       | (n, true) => parseVerifiedNameContent unmarshalCert certDetails unmarshalDetails n
       | _ => None
       end.

(** ** Users *)

Record IsOnWhatsAppResponse : Type := mkOnWhatsApp { on_Query : string; on_JID : JID; IsIn : bool; on_VerifiedName : option (Certificate * Details) }.
Record UserInfo : Type := mkUserInfo {
  ui_VerifiedName : option (Certificate * Details); Status : string; PictureID : string; Devices : Slice; ui_LID : JID }.

Definition onWhatsApp (child : node) : option IsOnWhatsAppResponse :=
  jid ← user_jid child;
  let contactNode := GetChildByTag child ["contact"] in
  Some (mkOnWhatsApp (trim_suffix (text_of contactNode) ("@" +:+ LegacyUserServer)) jid (String.eqb (getString "type" (AttrGetter contactNode)).1 "in")
    (parseVerifiedName (GetChildByTag child ["business"]))).
Definition nameQuery : node := mkNode "business" [] (VNodes [mkNode "verified_name" [] VNil]).
Definition IsOnWhatsApp (sid : string) (phones : list string) : user_error + list IsOnWhatsAppResponse :=
  match usync sendIQ sid "query" "interactive" ((fun phone => NewJID phone LegacyUserServer) <$> phones) [] [nameQuery; plain "contact"] with
  | inl e => inl e
  | inr list => inr (omap onWhatsApp (GetChildren list))
  end.

Definition lid_in (child : node) : JID := (OptionalJIDOrEmpty "val" (AttrGetter (GetChildByTag child ["lid"]))).1.
(** One user of the answer, with the users, the pairs and the events so far. *)
Definition userInfo (acc : gmap JID UserInfo * list LIDMapping * list name_event * QueryState) (child : node) :
    outcome (gmap JID UserInfo * list LIDMapping * list name_event * QueryState) :=
  let '(respData, mappings, evts, s) := acc in
  match user_jid child with
  | None => Ret acc
  | Some jid =>
      let verifiedName := parseVerifiedName (GetChildByTag child ["business"]) in
      let picture := (as_string (attr (Attrs (GetChildByTag child ["picture"])) "id")).1 in
      let '(devices, h) := parseDeviceList grow jid (GetChildByTag child ["devices"]) (q_arrays s) in
      let s := s <| q_arrays := h |> in
      let lid := lid_in child in
      let mappings := if Jid.IsEmpty lid then mappings else mappings ++ [mkMapping lid jid] in
      '(evts', s) ← match verifiedName with Some (_, details) => updateBusinessName jid lid None (GetVerifiedName details) s | None => Ret ([], s) end;
      Ret (<[jid := mkUserInfo verifiedName (text_of (GetChildByTag child ["status"])) picture devices lid]> respData, mappings, evts ++ evts', s)
  end.
Fixpoint userInfos (acc : gmap JID UserInfo * list LIDMapping * list name_event * QueryState) (children : list node) :
    outcome (gmap JID UserInfo * list LIDMapping * list name_event * QueryState) :=
  match children with [] => Ret acc | child :: children => acc ← userInfo acc child; userInfos acc children end.
Definition infoParts : list node := [nameQuery; plain "status"; plain "picture"; mkNode "devices" [("version", VString "2")] VNil; plain "lid"].
Definition GetUserInfo (sid : string) (jids : list JID) (s : QueryState) : outcome ((user_error + gmap JID UserInfo) * list name_event * QueryState) :=
  match usync sendIQ sid "full" "background" jids [] infoParts with
  | inl e => Ret (inl e, [], s)
  | inr list =>
      '(respData, mappings, evts, s) ← userInfos (∅, [], [], s) (GetChildren list);
      Ret (inr respData, evts, store_pairs dedup_pairs mappings s)
  end.
End Names.

(** ** A name under both addresses *)

(** A put that answers with what the name was and changes the row of the user alone. *)
Definition puts_name (put : JID -> string -> Stmt ContactDB (bool * string)) (field : ContactInfo -> string) : Prop := forall u n db,
  ct_coherent (contacts db) (contactCache db) -> SqlDB.named u -> ct_faults db = [] ->
  let old := field (contact (contacts db) u) in
  exists db', put u n db = (inr (if String.eqb old n then (false, "") else (true, old)), db') /\
    ct_coherent (contacts db') (contactCache db') /\ ct_faults db' = [] /\
    (if String.eqb old n then contacts db' = contacts db
     else forall j, SqlDB.named j -> field (contact (contacts db') j) = if decide (j = u) then n else field (contact (contacts db) j)).

Section PutsName.
Context (d : Dialect).
Lemma inserted_contact t u r j : SqlDB.named u -> SqlDB.named j ->
  contact (<[String_ u := r]> t) j = if decide (j = u) then contact_info (Some r) else contact t j.
Proof.
  intros Hu Hj. unfold contact. destruct (decide (j = u)) as [->|Hne]; [by rewrite lookup_insert_eq|].
  rewrite lookup_insert_ne; [done|]. by intros He%named_inj.
Qed.
Lemma PutPushName_puts : puts_name (PutPushName d) Contacts.PushName.
Proof.
  intros u n db Hc Hu Hf. pose proof (push_exact d (@first_each) u n db Hc Hu) as H. unfold step_exact, runs in H. cbn [contact_step] in H.
  unfold mbind, Stmt_bind in H. destruct (PutPushName d u n db) as [[e|x] db']; [by destruct H as [_ H]|].
  destruct H as [[Hs Hc'] Hf']. cbn [contact_spec] in Hs. exists db'. destruct (String.eqb _ n).
  - destruct Hs as [[= ->] Ht]. auto.
  - destruct Hs as [[= ->] Ht]. split; [done|]. split; [done|]. split; [by apply Hf'|]. intros j Hj. rewrite Ht, inserted_contact by done. by destruct (decide (j = u)).
Qed.
Lemma PutBusinessName_puts : puts_name (PutBusinessName d) Contacts.BusinessName.
Proof.
  intros u n db Hc Hu Hf. pose proof (business_exact d (@first_each) u n db Hc Hu) as H. unfold step_exact, runs in H. cbn [contact_step] in H.
  unfold mbind, Stmt_bind in H. destruct (PutBusinessName d u n db) as [[e|x] db']; [by destruct H as [_ H]|].
  destruct H as [[Hs Hc'] Hf']. cbn [contact_spec] in Hs. exists db'. destruct (String.eqb _ n).
  - destruct Hs as [[= ->] Ht]. auto.
  - destruct Hs as [[= ->] Ht]. split; [done|]. split; [done|]. split; [by apply Hf'|]. intros j Hj. rewrite Ht, inserted_contact by done. by destruct (decide (j = u)).
Qed.
End PutsName.

(** The contacts of a state whose store does not fail. *)
Record contacts_ok (s : QueryState) : Prop := mkContactsOk {
  ok_coherent : ct_coherent (contacts (q_contacts s)) (contactCache (q_contacts s)); ok_faults : ct_faults (q_contacts s) = [] }.
Notation rows s := (contacts (q_contacts s)).
(** The addresses that a name goes to are their text. *)
Definition other_named (device : option Device) (user userAlt : JID) (s : QueryState) : Prop :=
  if Jid.IsEmpty (ToNonAD userAlt)
  then forall e alt m, GetAltJID device user (q_lids s) = Ret (e, alt, m) -> Jid.IsEmpty alt = false -> SqlDB.named alt
  else SqlDB.named (ToNonAD userAlt).

Lemma update_name_both device put field user userAlt name s r s' :
  puts_name put field -> contacts_ok s -> SqlDB.named user -> other_named device user userAlt s ->
  update_name device put user userAlt name s = Ret (r, s') ->
  contacts_ok s' /\
  match r with
  | None => field (contact (rows s) user) = name /\ rows s' = rows s
  | Some (alt, old) =>
      old = field (contact (rows s) user) /\ old <> name /\
      forall j, SqlDB.named j -> field (contact (rows s') j) = if decide (j = user \/ Jid.IsEmpty alt = false /\ j = alt) then name else field (contact (rows s) j)
  end.
Proof.
  intros Hput [Hc Hf] Hu Ha. unfold update_name, on_contacts.
  destruct (Hput user name (q_contacts s) Hc Hu Hf) as (db1 & -> & Hc1 & Hf1 & H1).
  destruct (String.eqb_spec (field (contact (rows s) user)) name) as [Hn|Hn].
  { intros [= <- <-]. split; [by split|]. by split. }
  unfold other_named in Ha. cbn [q_lids].
  match goal with |- (mbind _ ?m) = _ -> _ => destruct m as [[alt s1]|e] eqn:Hm; [|done] end. cbn [mbind outcome_bind]. intros [= <- <-].
  assert (q_contacts s1 = db1 /\ (Jid.IsEmpty alt = false -> SqlDB.named alt)) as [Hs1 Halt].
  { destruct (Jid.IsEmpty (ToNonAD userAlt)) eqn:He.
    - change (q_lids (s <| q_contacts := db1 |>)) with (q_lids s) in Hm.
      destruct (GetAltJID device user (q_lids s)) as [[[e alt'] m]|] eqn:Hg; [|by cbn in Hm]. cbn in Hm. injection Hm as <- <-. split; [done|]. by apply (Ha e alt' m).
    - injection Hm as <- <-. by split. }
  destruct (Jid.IsEmpty alt) eqn:He.
  { split; [split; by rewrite Hs1|]. split; [done|]. split; [done|]. intros j Hj. rewrite Hs1, H1 by done. repeat case_decide; naive_solver. }
  unfold on_contacts. rewrite Hs1. destruct (Hput alt name db1 Hc1 (Halt eq_refl) Hf1) as (db2 & -> & Hc2 & Hf2 & H2).
  split; [by split|]. split; [done|]. split; [done|]. intros j Hj.
  cbn [snd]. change (q_contacts (s1 <| q_contacts := db2 |>)) with db2. destruct (String.eqb_spec (field (contact (contacts db1) alt)) name) as [Hn2|Hn2].
  - rewrite H2, H1 by done. destruct (decide (j = user)) as [->|Hne]; [by rewrite decide_True by (by left)|].
    destruct (decide (j = alt)) as [->|Hne']; [|rewrite decide_False; [done|naive_solver]].
    rewrite decide_True by (by right). rewrite H1, decide_False in Hn2 by auto. done.
  - rewrite H2, H1 by done. repeat case_decide; naive_solver.
Qed.

(** A new push name is stored for the user and for the other address of the user, that the
    message has or that is known, and for nobody else; the event says both addresses
    and the name of before.  A name that is known already changes nothing and makes
    no event. *)
Theorem push_name_reaches_both {Certificate Details} d device user userAlt (messageInfo : option (@MessageInfo Certificate Details)) name s evts s' :
  contacts_ok s -> SqlDB.named (ToNonAD user) -> other_named device (ToNonAD user) userAlt s ->
  updatePushName d device user userAlt messageInfo name s = Ret (evts, s') ->
  let u := ToNonAD user in
  contacts_ok s' /\
  ((evts = [] /\ Contacts.PushName (contact (rows s) u) = name /\ rows s' = rows s) \/
   exists alt, evts = [PushNameEvent u alt messageInfo (Contacts.PushName (contact (rows s) u)) name] /\ Contacts.PushName (contact (rows s) u) <> name /\
     forall j, SqlDB.named j -> Contacts.PushName (contact (rows s') j) = if decide (j = u \/ Jid.IsEmpty alt = false /\ j = alt) then name else Contacts.PushName (contact (rows s) j)).
Proof.
  intros Hok Hu Ha. unfold updatePushName. destruct (update_name _ _ _ _ _ _) as [[r s1]|] eqn:Hr; [|done]. cbn [mbind outcome_bind]. intros [= <- <-]. cbn zeta.
  destruct (update_name_both _ _ _ _ _ _ _ _ _ (PutPushName_puts d) Hok Hu Ha Hr) as [Hok1 H]. split; [done|]. destruct r as [[alt old]|].
  - destruct H as (-> & Hne & H). right. by exists alt.
  - destruct H as [Hn Ht]. by left.
Qed.

(** ** Answers *)

Lemma each_panics {A} (f : node -> outcome A) l n e : n ∈ l -> f n = Panic e -> exists e', each f l = Panic e'.
Proof.
  intros Hn Hf. induction Hn as [l|n m l Hn IH]; cbn [each]; [rewrite Hf; by eexists|].
  destruct (f m); [|by eexists]. cbn. destruct (IH Hf) as [e' ->]. by eexists.
Qed.
Definition profile_of (user : node) : node := GetChildByTag (GetChildByTag user ["bot"]) ["profile"].
(** The text of a part of a bot's profile is read without a check: an answer that leaves one
    out, or has another content in it, ends the client. *)
Theorem missing_text_panics sendIQ sid bots users user tag :
  usync sendIQ sid "query" "interactive" (BotJID <$> bots) bots [mkNode "bot" [] (VNodes [mkNode "profile" [("v", VString "1")] VNil])] = inr users ->
  user ∈ GetChildren users -> tag ∈ ["name"; "attributes"; "description"; "category"] ->
  bytes_content (GetChildByTag (profile_of user) [tag]) = None ->
  exists e, GetBotProfiles sendIQ sid bots = Panic e.
Proof.
  intros Hu Hin Ht Hb. unfold GetBotProfiles. rewrite Hu.
  assert (exists e, botProfile user = Panic e) as [e He].
  { unfold botProfile, child_text, text_or_panic. unfold profile_of in Hb. set (p := GetChildByTag _ ["profile"]) in *. clearbody p.
    rewrite !elem_of_cons in Ht. destruct Ht as [->|[->|[->|[->|Ht%elem_of_nil]]]]; [..|done];
    rewrite Hb; repeat match goal with |- context [bytes_content ?n] => destruct (bytes_content n); cbn end; by eexists. }
  destruct (each_panics _ _ _ _ Hin He) as [e' ->]. by eexists.
Qed.

Lemma take_str_app s t : take_str (String.length s) (s +:+ t) = s.
Proof. induction s as [|c s IH]; cbn; [done|]. by rewrite IH. Qed.
Lemma trim_suffix_app s t : trim_suffix (s +:+ t) t = s.
Proof.
  unfold trim_suffix, has_suffix. rewrite length_append. replace (String.length s + String.length t - String.length t)%nat with (String.length s) by lia.
  rewrite drop_str_app, String.eqb_refl, (leb_correct (String.length t)) by lia. apply take_str_app.
Qed.
(** The number in a query for a contact. *)
Definition asked (q : node) : string := match Content (GetChildByTag q ["contact"]) with VString s => s | _ => "" end.
(** Each answer about a number names the number as it was asked for, whatever the order
    of the answers and whatever else they say, when the server repeats the query. *)
Theorem answered_by_number {Certificate Details} unmarshalCert certDetails unmarshalDetails sendIQ sid phones queries answers resp list :
  usyncUsers [] ((fun phone => NewJID phone LegacyUserServer) <$> phones) = inr queries ->
  sendIQ (usyncQuery sid "query" "interactive" [nameQuery; plain "contact"] queries) = (Some resp, None) ->
  GetOptionalChildByTag resp ["usync"; "list"] = (list, true) -> GetChildren list ≡ₚ answers ->
  Forall2 (fun q a => is_Some (user_jid a) /\ text_of (GetChildByTag a ["contact"]) = asked q) queries answers ->
  Forall (fun phone => phone <> "") phones ->
  exists l, IsOnWhatsApp (Certificate := Certificate) (Details := Details) unmarshalCert certDetails unmarshalDetails sendIQ sid phones = inr l /\
    (fun r => on_Query r) <$> l ≡ₚ phones.
Proof.
  intros Hq Hs Hl Hp Ha Hne. unfold IsOnWhatsApp, usync. rewrite Hq, Hs. change (default (mkNode "" [] VNil) (Some resp)) with resp. rewrite Hl. eexists. split; [done|].
  rewrite Hp. clear Hp Hl Hs list resp. revert queries answers Hq Ha Hne. induction phones as [|phone phones IH]; intros queries answers Hq Ha Hne.
  - injection Hq as <-. inversion Ha. done.
  - cbn [fmap list_fmap usyncUsers] in Hq. inversion_clear Hne as [|? ? Hne1 Hne2].
    set (q := mkNode "user" [] (VNodes [mkNode "contact" [] (VString (String_ (NewJID phone LegacyUserServer)))])).
    change (usyncUser [] (NewJID phone LegacyUserServer)) with (@inr user_error node q) in Hq.
    change (list_fmap _ _ _ phones) with ((fun phone => NewJID phone LegacyUserServer) <$> phones) in Hq.
    destruct (usyncUsers [] ((fun phone => NewJID phone LegacyUserServer) <$> phones)) as [e|queries'] eqn:Hq'; [done|]. injection Hq as <-.
    inversion Ha as [|? a ? answers' [[jid Hj] Hc] Hrest]; subst. specialize (IH queries' answers' eq_refl Hrest Hne2).
    cbn [omap list_omap]. unfold onWhatsApp at 1. rewrite Hj. cbn [mbind option_bind fmap list_fmap on_Query].
    rewrite Hc. change (asked q) with (String_ (NewJID phone LegacyUserServer)).
    assert (String_ (NewJID phone LegacyUserServer) = phone +:+ ("@" +:+ LegacyUserServer)) as ->.
    { unfold String_. cbn [RawAgent Jid.Device NewJID User Server]. change (0 >? 0) with false. cbn iota.
      destruct phone; [done|]. cbn [len]. by destruct (Z.gtb_spec (len (String a0 phone)) 0). }
    rewrite trim_suffix_app. by constructor.
Qed.

(** ** LIDs that a query tells *)

Record lids_ok (s : QueryState) : Prop := mkLidsOk { ok_lids : coherent (q_lids s); ok_lid_faults : faults (q_lids s) = [] }.
(** The pair of addresses in an answer about a user. *)
Definition pair_in (child : node) : option LIDMapping :=
  match user_jid child with
  | Some jid => if Jid.IsEmpty (lid_in child) then None else Some (mkMapping (lid_in child) jid)
  | None => None
  end.

Lemma lookup_keeps source target d s : coherent s -> faults s = [] ->
  exists r s', getLIDMapping source target d s = (r, s') /\ coherent s' /\ faults s' = [].
Proof. intros Hc Hf. destruct (getLIDMapping_ok source target d s Hc Hf) as (u & s' & -> & Hc' & (_ & _ & Hf') & _). eexists _, _. split; [done|]. by rewrite Hf'. Qed.
Lemma GetAltJID_keeps device jid s e alt s' : coherent s -> faults s = [] -> GetAltJID device jid s = Ret (e, alt, s') -> coherent s' /\ faults s' = [].
Proof.
  intros Hc Hf. unfold GetAltJID, GetLIDForPN, GetPNForLID. destruct device as [dv|]; [|by intros [= _ _ <-]].
  assert (forall source target d, (exists e alt, getLIDMapping source target d s = (e, alt, s')) -> coherent s' /\ faults s' = []) as Hl.
  { intros source target d' (e' & alt' & He). destruct (lookup_keeps source target d' s Hc Hf) as (r & s2 & Hg & H2). rewrite He in Hg. by injection Hg as _ <-. }
  repeat case_match; intros Heq; try done; injection Heq; intros; subst; try done; eapply Hl; eauto.
Qed.
Lemma update_name_lids device put user userAlt name s r s' :
  lids_ok s -> update_name device put user userAlt name s = Ret (r, s') -> lids_ok s'.
Proof.
  intros [Hc Hf]. unfold update_name, on_contacts. destruct (put user name (q_contacts s)) as [[e|[[] previous]] db].
  1,3: intros [= <- <-]; by split.
  match goal with |- (mbind _ ?m) = _ -> _ => destruct m as [[alt s1]|e] eqn:Hm; [|done] end. cbn [mbind outcome_bind]. intros [= <- <-].
  assert (lids_ok s1) as [Hc1 Hf1].
  { destruct (Jid.IsEmpty (ToNonAD userAlt)).
    - change (q_lids (s <| q_contacts := db |>)) with (q_lids s) in Hm.
      destruct (GetAltJID device user (q_lids s)) as [[[e alt'] m]|] eqn:Hg; [|by cbn in Hm]. cbn in Hm. injection Hm as _ <-.
      destruct (GetAltJID_keeps _ _ _ _ _ _ Hc Hf Hg). by split.
    - injection Hm as _ <-. by split. }
  destruct (Jid.IsEmpty alt); [by split|]. destruct (put alt name (q_contacts s1)). by split.
Qed.

Section Learned.
Context {Certificate Details : Type} (unmarshalCert : Bytes -> option Certificate) (certDetails : Certificate -> Bytes).
Context (unmarshalDetails : Bytes -> option Details) (GetVerifiedName : Details -> string).
Context (grow : nat -> nat) (d : Dialect) (device : option Device).
Notation infos := (userInfos unmarshalCert certDetails unmarshalDetails GetVerifiedName grow d device).
Lemma userInfos_spec children : forall resp mappings evts s resp' mappings' evts' s',
  lids_ok s -> infos (resp, mappings, evts, s) children = Ret (resp', mappings', evts', s') ->
  lids_ok s' /\ mappings' = mappings ++ omap pair_in children /\
  forall jid, ui_LID <$> resp' !! jid =
    (if decide (jid ∈ omap user_jid children) then lid_in <$> last (filter (fun c => user_jid c = Some jid) children) else ui_LID <$> resp !! jid).
Proof.
  induction children as [|child children IH]; intros resp mappings evts s resp' mappings' evts' s' Hok; cbn [userInfos omap list_omap].
  { intros [= <- <- <- <-]. rewrite app_nil_r. auto. }
  destruct (userInfo _ _ _ _ _ _ _ _ child) as [[[[resp1 mappings1] evts1] s1]|] eqn:H1; [|done]. cbn [mbind outcome_bind]. intros H.
  assert (lids_ok s1 /\ mappings1 = mappings ++ option_list (pair_in child) /\
    match user_jid child with Some jid => exists i, resp1 = <[jid := i]> resp /\ ui_LID i = lid_in child | None => resp1 = resp end) as (Hok1 & -> & Hr1).
  { unfold userInfo, pair_in in *. destruct (user_jid child) as [jid|]; [|injection H1 as <- <- <- <-; by rewrite app_nil_r].
    destruct (parseDeviceList _ _ _ _) as [devices h].
    match type of H1 with (mbind _ ?m) = _ => destruct m as [[evts2 s2]|] eqn:Hm; [|done] end. cbn [mbind outcome_bind] in H1. injection H1 as <- <- _ <-.
    split; [|split; [destruct (Jid.IsEmpty (lid_in child)); cbn; by rewrite ?app_nil_r|by eexists]].
    assert (lids_ok (s <| q_arrays := h |>)) as Hok' by (destruct Hok; by split).
    destruct (parseVerifiedName _ _ _ _) as [[cert details]|]; [|by injection Hm as _ <-].
    unfold updateBusinessName in Hm. destruct (update_name _ _ _ _ _ _) as [[r s3]|] eqn:Hu; [|done]. cbn in Hm. injection Hm as _ <-.
    by eapply update_name_lids. }
  destruct (IH _ _ _ _ _ _ _ _ Hok1 H) as (Hok' & -> & Hr). split; [done|]. split.
  { rewrite <- app_assoc. f_equal. by destruct (pair_in child). }
  intros jid. rewrite Hr. destruct (user_jid child) as [j|] eqn:Hj.
  - destruct Hr1 as (i & -> & Hi). destruct (decide (jid ∈ omap user_jid children)) as [Hin|Hin].
    + rewrite decide_True by (by right). rewrite filter_cons. destruct (decide (user_jid child = Some jid)); [|done].
      rewrite last_cons. destruct (last (filter _ children)) eqn:Hl; [done|]. apply last_None in Hl. exfalso.
      apply list_elem_of_omap in Hin as (c & Hc & Hcj). assert (c ∈ filter (fun c => user_jid c = Some jid) children) as Hf by (by apply list_elem_of_filter).
      rewrite Hl in Hf. by apply elem_of_nil in Hf.
    + destruct (decide (jid = j)) as [->|Hne].
      * rewrite lookup_insert_eq, decide_True by (by left). rewrite filter_cons, decide_True by done.
        assert (filter (fun c => user_jid c = Some j) children = []) as ->; [|cbn; by rewrite Hi].
        apply elem_of_nil_inv. intros c [Hc Hcin]%list_elem_of_filter. apply Hin. apply list_elem_of_omap. by exists c.
      * rewrite lookup_insert_ne by done. rewrite decide_False; [done|]. intros [?|?]%elem_of_cons; done.
  - by rewrite Hr1, filter_cons, (decide_False (P := user_jid child = Some jid)) by congruence.
Qed.
End Learned.

(** A query about users tells the LIDs of phone numbers: with a store that does not fail, each of
    them is in the answer and is looked up from then on without asking, in place of
    whatever was known before. *)
Theorem lids_learned {Certificate Details} unmarshalCert certDetails unmarshalDetails GetVerifiedName grow dedup_pairs sendIQ d device sid jids list s answer evts s' :
  (forall ms m, m ∈ dedup_pairs ms <-> m ∈ ms) -> lids_ok s ->
  usync sendIQ sid "full" "background" jids [] infoParts = inr list ->
  conflict_free (valid (omap pair_in (GetChildren list))) -> Forall LidMap.named (valid (omap pair_in (GetChildren list))) ->
  GetUserInfo (Certificate := Certificate) (Details := Details) unmarshalCert certDetails unmarshalDetails GetVerifiedName grow dedup_pairs sendIQ d device sid jids s =
    Ret (answer, evts, s') ->
  lids_ok s' /\ exists resp, answer = inr resp /\ forall child pn,
    child ∈ GetChildren list -> user_jid child = Some pn -> Server pn = DefaultUserServer -> Server (lid_in child) = HiddenUserServer ->
    (exists m, GetLIDForPN pn (q_lids s') = (None, mkJID (User (lid_in child)) 0 (Jid.Device pn) 0 HiddenUserServer, m)) /\
    (exists info c, resp !! pn = Some info /\ c ∈ GetChildren list /\ user_jid c = Some pn /\ ui_LID info = lid_in c).
Proof.
  intros Hd Hok Hu Hcf Hn. unfold GetUserInfo. rewrite Hu.
  destruct (userInfos _ _ _ _ _ _ _ _ _) as [[[[resp mappings] evts1] s1]|] eqn:Hi; [|done]. cbn [mbind outcome_bind]. intros [= <- <- <-].
  destruct (userInfos_spec _ _ _ _ _ _ _ _ _ _ _ _ _ _ _ _ Hok Hi) as ([Hc Hf] & -> & Hr). change ([] ++ ?l) with l in *.
  destruct (PutMany_ok dedup_pairs Hd _ (q_lids s1) Hc Hf Hcf Hn) as (m' & Hp & Hc' & Hf' & Ht). unfold store_pairs. rewrite Hp. cbn [snd].
  split; [by split|]. exists resp. split; [done|]. intros child pn Hin Hj Hpn Hlid.
  assert (forall c, c ∈ GetChildren list -> user_jid c = Some pn -> Server (lid_in c) = HiddenUserServer ->
    mkMapping (lid_in c) pn ∈ valid (omap pair_in (GetChildren list))) as Hv.
  { intros c Hcin Hcj Hcs. unfold valid. apply list_elem_of_filter. split; [unfold valid_servers; cbn; by rewrite Hcs, Hpn|].
    apply list_elem_of_omap. exists c. split; [done|]. unfold pair_in. rewrite Hcj. unfold Jid.IsEmpty. by rewrite Hcs. }
  assert (forall m, m ∈ valid (omap pair_in (GetChildren list)) -> LidMap.named m) as Hnm by (by apply Forall_forall).
  split.
  - unfold GetLIDForPN. rewrite decide_True by done. change (q_lids (s1 <| q_lids := m' |>)) with m'.
    destruct (getLIDMapping_ok pn HiddenUserServer byPN m' Hc' Hf') as (u & m2 & Hg & _ & _ & Hpt). exists m2. rewrite Hg.
    assert ((User (lid_in child), User pn) ∈ table m') as Hrow by (apply Ht; left; eexists; split; [by apply Hv|done]).
    assert (u = User (lid_in child)) as ->; [|rewrite decide_False; [done|apply (Hnm _ (Hv _ Hin Hj Hlid))]].
    destruct Hpt as [[Hu0 Hrow']|[_ Hno]]; [|by destruct (Hno _ Hrow)].
    cbn in Hrow'. by injection (row_unique _ (co_table _ Hc') byPN _ _ Hrow' Hrow eq_refl) as ->.
  - specialize (Hr pn). rewrite decide_True in Hr by (apply list_elem_of_omap; by exists child).
    destruct (last _) as [c|] eqn:Hl.
    + destruct (resp !! pn) as [info|] eqn:Hinfo; [|done]. cbn in Hr. injection Hr as Hr. exists info, c. split; [done|].
      by apply last_Some_elem_of, list_elem_of_filter in Hl as [Hcj Hcin].
    + apply last_None in Hl. assert (child ∈ filter (fun c => user_jid c = Some pn) (GetChildren list)) as Hf2 by (by apply list_elem_of_filter).
      rewrite Hl in Hf2. by apply elem_of_nil in Hf2.
Qed.

(** ** The theorems at work *)

Definition demo_phone : JID := NewJID "4915123" DefaultUserServer.
Definition demo_person : JID := NewJID "77" HiddenUserServer.
Definition demo_query_state : QueryState := mkQueryState [] ∅ (NewCachedLIDMap [] []) (mkContactDB ∅ ∅ []) AccountStore.demo_account.
Lemma push_name_reaches_both_witness : exists evts s',
  updatePushName (Certificate := ()) (Details := ()) SQLite None demo_phone demo_person None "Ann" demo_query_state = Ret (evts, s') /\
  length evts = 1%nat /\ Contacts.PushName (contact (rows s') demo_phone) = "Ann" /\ Contacts.PushName (contact (rows s') demo_person) = "Ann".
Proof.
  destruct (updatePushName (Certificate := ()) (Details := ()) SQLite None demo_phone demo_person None "Ann" demo_query_state) as [[evts s']|e] eqn:H; [|by vm_compute in H].
  exists evts, s'. split; [done|].
  destruct (push_name_reaches_both SQLite None demo_phone demo_person None "Ann" demo_query_state evts s') as [_ [(_ & Hn & _)|(alt & He & _ & Hx)]].
  - split; [apply coherent_empty|reflexivity].
  - by split.
  - by split.
  - exact H.
  - by vm_compute in Hn.
  - assert (alt = demo_person) as -> by (rewrite He in H; apply (f_equal (fun o => match o with Ret (PushNameEvent _ a _ _ _ :: _, _) => a | _ => EmptyJID end)) in H;
      vm_compute in H; exact (eq_sym H)).
    split; [by rewrite He|]. split.
    + rewrite Hx by (by split). rewrite decide_True; [done|by left].
    + rewrite Hx by (by split). rewrite decide_True; [done|right; by split].
Defined.
Definition demo_bot : BotListInfo := mkBot (NewJID "13135550002" DefaultUserServer) "1".
Definition usync_answer (users : list node) : infoQuery -> option node * option iq_error := fun _ =>
  (Some (mkNode "iq" [] (VNodes [mkNode "usync" [] (VNodes [mkNode "list" [] (VNodes users)])])), None).
Definition user_node (jid : JID) (parts : list node) : node := mkNode "user" [("jid", VJID jid)] (VNodes parts).
Lemma missing_text_panics_witness :
  exists e, GetBotProfiles (usync_answer [user_node (BotJID demo_bot) [mkNode "bot" [] (VNodes [mkNode "profile" [] (VNodes [mkNode "name" [] (VBytes "AI")])])]]) "1" [demo_bot] = Panic e.
Proof. eapply (missing_text_panics _ _ _ _ _ "category"); [reflexivity|by left|by repeat constructor|reflexivity]. Defined.
Lemma answered_by_number_witness :
  exists l, IsOnWhatsApp (fun _ => Some ()) (fun _ => []) (fun _ => Some ()) (usync_answer [user_node demo_phone [mkNode "contact" [("type", VString "in")] (VBytes "+491@c.us")];
      user_node demo_person [mkNode "contact" [("type", VString "out")] (VBytes "+492@c.us")]]) "1" ["+492"; "+491"] = inr l /\
    (fun r => on_Query r) <$> l ≡ₚ ["+492"; "+491"].
Proof.
  eapply (answered_by_number (fun _ => Some ()) (fun _ => []) (fun _ => Some ()) _ "1" ["+492"; "+491"]); [reflexivity|reflexivity|reflexivity|apply perm_swap| |].
  - repeat constructor; by eexists.
  - by repeat constructor.
Defined.
Definition demo_learned : outcome ((user_error + gmap JID (@UserInfo () ())) * list (@name_event () ()) * QueryState) :=
  GetUserInfo (fun _ => Some ()) (fun _ => []) (fun _ => Some ()) (fun _ => "") (fun n => n) (fun l => l)
    (usync_answer [user_node demo_phone [mkNode "lid" [("val", VJID demo_person)] VNil]]) SQLite None "1" [demo_phone] demo_query_state.
Lemma lids_learned_witness : exists answer evts s', demo_learned = Ret (answer, evts, s') /\
  exists m, GetLIDForPN demo_phone (q_lids s') = (None, demo_person, m).
Proof.
  assert (match demo_learned with Ret _ => true | Panic _ => false end = true) as Hret by (vm_compute; reflexivity).
  destruct demo_learned as [[[answer evts] s']|e] eqn:H; [|discriminate Hret]. clear Hret. exists answer, evts, s'. split; [reflexivity|].
  pose proof (lids_learned (fun _ => Some ()) (fun _ => []) (fun _ => Some ()) (fun _ => "") (fun n => n) (fun l => l)
    (usync_answer [user_node demo_phone [mkNode "lid" [("val", VJID demo_person)] VNil]]) SQLite None "1" [demo_phone]
    (mkNode "list" [] (VNodes [user_node demo_phone [mkNode "lid" [("val", VJID demo_person)] VNil]])) demo_query_state
    answer evts s' (fun _ _ => iff_refl _)) as Hl.
  destruct Hl as [_ (resp & _ & Hx)]; [|reflexivity| | |exact H|].
  - split; [apply NewCachedLIDMap_coherent; split; [intros ? ? ? []%elem_of_nil|intros ? ? []%elem_of_nil]|reflexivity].
  - intros m m' Hm Hm' _. apply list_elem_of_singleton in Hm as ->, Hm' as ->. reflexivity.
  - repeat constructor; discriminate.
  - exact (proj1 (Hx (user_node demo_phone [mkNode "lid" [("val", VJID demo_person)] VNil]) demo_phone
      (list_elem_of_here _ _) eq_refl eq_refl eq_refl)).
Defined.
