(* ===== verification/Privacy.v ===== *)
(** * [whatsmeow/privacysettings.go], [broadcast.go]: privacy settings and the readers of a status

    The settings are kept behind a pointer that the callers may have too.  A status
    goes to the contacts that the first of the lists on the server lets read it. *)
From S2P Require Import Prelude GoStrings GoTime GoFloat Jid BinaryNode NodeAttrs Requests LidMap PreKeys SqlDB Contacts MessageSource DeviceStore UserDevices GroupParse Groups UserQueries.

(** ** The settings *)

Record PrivacySettings : Type := mkPrivacy {
  GroupAdd : string; LastSeen : string; ps_Status : string; Profile : string; ReadReceipts : string; CallAdd : string; Online : string;
  Messages : string; Defense : string; Stickers : string }.
#[export] Instance eta_PrivacySettings : Eta PrivacySettings := fun r =>
  mkPrivacy (GroupAdd r) (LastSeen r) (ps_Status r) (Profile r) (ReadReceipts r) (CallAdd r) (Online r) (Messages r) (Defense r) (Stickers r).
Definition noSettings : PrivacySettings := mkPrivacy "" "" "" "" "" "" "" "" "" "".
(** [events.PrivacySettings] *)
Record PrivacySettingsEvent : Type := mkPrivacyEvent {
  NewSettings : PrivacySettings; GroupAddChanged : bool; LastSeenChanged : bool; StatusChanged : bool; ProfileChanged : bool; ReadReceiptsChanged : bool;
  OnlineChanged : bool; CallAddChanged : bool; MessagesChanged : bool; DefenseChanged : bool; StickersChanged : bool }.
#[export] Instance eta_PrivacySettingsEvent : Eta PrivacySettingsEvent := fun r =>
  mkPrivacyEvent (NewSettings r) (GroupAddChanged r) (LastSeenChanged r) (StatusChanged r) (ProfileChanged r) (ReadReceiptsChanged r)
    (OnlineChanged r) (CallAddChanged r) (MessagesChanged r) (DefenseChanged r) (StickersChanged r).
Definition noChange : PrivacySettingsEvent := mkPrivacyEvent noSettings false false false false false false false false false false.

Definition PrivacySettingTypeGroupAdd : string := "groupadd".
Definition PrivacySettingTypeLastSeen : string := "last".
Definition PrivacySettingTypeStatus : string := "status".
Definition PrivacySettingTypeProfile : string := "profile".
Definition PrivacySettingTypeReadReceipts : string := "readreceipts".
Definition PrivacySettingTypeOnline : string := "online".
Definition PrivacySettingTypeCallAdd : string := "calladd".
Definition PrivacySettingTypeMessages : string := "messages".
Definition PrivacySettingTypeDefense : string := "defense".
Definition PrivacySettingTypeStickers : string := "stickers".

(** The objects, and which of them the client keeps. *)
Record PrivacyState : Type := mkPrivacyState { p_heap : list PrivacySettings; privacySettingsCache : option nat }.
#[export] Instance eta_PrivacyState : Eta PrivacyState := fun r => mkPrivacyState (p_heap r) (privacySettingsCache r).
Definition settings_at (p : nat) (s : PrivacyState) : PrivacySettings := default noSettings (p_heap s !! p).
(** A new object, which the client keeps. *)
Definition keep (v : PrivacySettings) (s : PrivacyState) : nat * PrivacyState :=
  (length (p_heap s), s <| p_heap := p_heap s ++ [v] |> <| privacySettingsCache := Some (length (p_heap s)) |>).

Definition parsePrivacySetting (acc : PrivacySettings * PrivacySettingsEvent) (child : node) : PrivacySettings * PrivacySettingsEvent :=
  let '(settings, evt) := acc in
  if negb (String.eqb (Tag child) "category") then acc
  else
    let '(name, ag) := getString "name" (AttrGetter child) in
    let '(value, _) := getString "value" ag in
    if String.eqb name PrivacySettingTypeGroupAdd then (settings <| GroupAdd := value |>, evt <| GroupAddChanged := true |>)
    else if String.eqb name PrivacySettingTypeLastSeen then (settings <| LastSeen := value |>, evt <| LastSeenChanged := true |>)
    else if String.eqb name PrivacySettingTypeStatus then (settings <| ps_Status := value |>, evt <| StatusChanged := true |>)
    else if String.eqb name PrivacySettingTypeProfile then (settings <| Profile := value |>, evt <| ProfileChanged := true |>)
    else if String.eqb name PrivacySettingTypeReadReceipts then (settings <| ReadReceipts := value |>, evt <| ReadReceiptsChanged := true |>)
    else if String.eqb name PrivacySettingTypeOnline then (settings <| Online := value |>, evt <| OnlineChanged := true |>)
    else if String.eqb name PrivacySettingTypeCallAdd then (settings <| CallAdd := value |>, evt <| CallAddChanged := true |>)
    else if String.eqb name PrivacySettingTypeMessages then (settings <| Messages := value |>, evt <| MessagesChanged := true |>)
    else if String.eqb name PrivacySettingTypeDefense then (settings <| Defense := value |>, evt <| DefenseChanged := true |>)
    else if String.eqb name PrivacySettingTypeStickers then (settings <| Stickers := value |>, evt <| StickersChanged := true |>)
    else (settings, evt).
Definition parsePrivacySettings (privacyNode : node) (settings : PrivacySettings) : PrivacySettings * PrivacySettingsEvent :=
  foldl parsePrivacySetting (settings, noChange) (GetChildren privacyNode).
(** What the client makes of a setting that the server accepted. *)
Definition set_setting (name value : string) (settings : PrivacySettings) : PrivacySettings :=
  if String.eqb name PrivacySettingTypeGroupAdd then settings <| GroupAdd := value |>
  else if String.eqb name PrivacySettingTypeLastSeen then settings <| LastSeen := value |>
  else if String.eqb name PrivacySettingTypeStatus then settings <| ps_Status := value |>
  else if String.eqb name PrivacySettingTypeProfile then settings <| Profile := value |>
  else if String.eqb name PrivacySettingTypeReadReceipts then settings <| ReadReceipts := value |>
  else if String.eqb name PrivacySettingTypeOnline then settings <| Online := value |>
  else if String.eqb name PrivacySettingTypeCallAdd then settings <| CallAdd := value |>
  else settings.

(** [types.StatusPrivacy]; the type is a string. *)
Definition StatusPrivacyTypeContacts : string := "contacts".
Definition StatusPrivacyTypeBlacklist : string := "blacklist".
Definition StatusPrivacyTypeWhitelist : string := "whitelist".
Record StatusPrivacy : Type := mkStatusPrivacy { sp_Type : string; sp_List : list JID; IsDefault : bool }.
Definition DefaultStatusPrivacy : list StatusPrivacy := [mkStatusPrivacy StatusPrivacyTypeContacts [] true].

Section Privacy.
Context (XMLString : node -> string) (sendIQ : infoQuery -> option node * option iq_error).
Notation ask := (ask XMLString sendIQ).

Definition TryFetchPrivacySettings (ignoreCache : bool) (s : PrivacyState) : (query_error + nat) * PrivacyState :=
  match privacySettingsCache s, ignoreCache with
  | Some p, false => (inr p, s)
  | _, _ =>
      match ask (iq "privacy" iqGet ServerJID [plain "privacy"]) [] with
      | inl e => (inl e, s)
      | inr resp =>
          match child_of resp "privacy" "response to privacy settings query" with
          | inl e => (inl e, s)
          | inr privacyNode => let '(p, s) := keep (parsePrivacySettings privacyNode noSettings).1 s in (inr p, s)
          end
      end
  end.
Definition GetPrivacySettings (hasMessengerConfig : bool) (s : PrivacyState) : PrivacySettings * PrivacyState :=
  if hasMessengerConfig then (noSettings, s)
  else match TryFetchPrivacySettings false s with (inl _, s) => (noSettings, s) | (inr p, s) => (settings_at p s, s) end.
Definition SetPrivacySetting (name value : string) (s : PrivacyState) : (PrivacySettings * option query_error) * PrivacyState :=
  match TryFetchPrivacySettings false s with
  | (inl e, s) => (noSettings, Some e, s)
  | (inr p, s) =>
      match ask (iq "privacy" iqSet ServerJID [mkNode "privacy" [] (VNodes [mkNode "category" [("name", VString name); ("value", VString value)] VNil])]) [] with
      | inl e => (noSettings, Some e, s)
      | inr _ => let settings := set_setting name value (settings_at p s) in (settings, None, (keep settings s).2)
      end
  end.
Definition SetDefaultDisappearingTimer (timer : Duration) : option query_error :=
  match ask (iq "disappearing_mode" iqSet ServerJID [mkNode "disappearing_mode" [("duration", VString (fmt_d (to_int (Seconds timer))))] VNil]) [] with
  | inl e => Some e
  | inr _ => None
  end.
(** The object that the client keeps is changed, not replaced. *)
Definition handlePrivacySettingsNotification (privacyNode : node) (s : PrivacyState) : option PrivacySettingsEvent * PrivacyState :=
  match TryFetchPrivacySettings false s with
  | (inl _, s) => (None, s)
  | (inr p, s) =>
      let '(settings, evt) := parsePrivacySettings privacyNode (settings_at p s) in
      (Some evt, s <| p_heap := <[p := settings]> (p_heap s) |> <| privacySettingsCache := Some p |>)
  end.

(** ** Who reads a status *)

Definition statusList (list : node) : StatusPrivacy * AttrUtility :=
  let '((default_, type_), ag) := (d ← reads (OptionalBool "default"); t ← reads (getString "type"); mret (d, t)) (AttrGetter list) in
  (mkStatusPrivacy type_
    (omap (fun child => match attr (Attrs child) "jid" with Some (VJID jid) => if String.eqb (Tag child) "user" then Some jid else None | _ => None end)
      (GetChildren list)) default_, ag).
(** A default list changes places with the first. *)
Definition place (out : StatusPrivacy) (outputs : list StatusPrivacy) : list StatusPrivacy :=
  if IsDefault out then match outputs with [] => [out] | first :: rest => out :: rest ++ [first] end else outputs ++ [out].
Fixpoint statusLists (outputs : list StatusPrivacy) (children : list node) : query_error + list StatusPrivacy :=
  match children with
  | [] => inr outputs
  | list :: children =>
      if negb (String.eqb (Tag list) "list") then statusLists outputs children
      else
        let '(out, ag) := statusList list in
        match Error_ ag with Some e => inl (QueryAttrs e) | None => statusLists (place out outputs) children end
  end.
Definition GetStatusPrivacy : query_error + list StatusPrivacy :=
  match ask (iq "status" iqGet ServerJID [plain "privacy"]) [(ErrIQNotFound, "")] with
  | inl (QueryIQ (Some _) _) => inr DefaultStatusPrivacy
  | inl e => inl e
  | inr resp =>
      match statusLists [] (GetChildren (GetChildByTag resp ["privacy"])) with
      | inl e => inl e
      | inr [] => inr DefaultStatusPrivacy
      | inr outputs => inr outputs
      end
  end.

(** The order in which the contacts come out of a map. *)
Context (shuffle : list (JID * ContactInfo) -> list (JID * ContactInfo)).
Definition statusRecipients (statusPrivacy : StatusPrivacy) (contacts : gmap JID ContactInfo) : list JID :=
  let blacklist := if String.eqb (sp_Type statusPrivacy) StatusPrivacyTypeBlacklist then sp_List statusPrivacy else [] in
  omap (fun c : JID * ContactInfo => if bool_decide (c.1 ∈ blacklist) then None else if String.eqb (FullName c.2) "" then None else Some c.1)
    (shuffle (map_to_list contacts)).
Definition getStatusBroadcastRecipients (s : QueryState) : outcome ((query_error + list JID) * QueryState) :=
  match GetStatusPrivacy with
  | inl e => Ret (inl e, s)
  | inr [] => Panic "index out of range"
  | inr (statusPrivacy :: _) =>
      if String.eqb (sp_Type statusPrivacy) StatusPrivacyTypeWhitelist then Ret (inr (sp_List statusPrivacy), s)
      else
        match on_contacts GetAllContacts s with
        | (inl _, s) => Ret (inl QueryStore, s)
        | (inr contacts, s) => Ret (inr (statusRecipients statusPrivacy contacts), s)
        end
  end.
Definition getBroadcastListParticipants (ownJID : JID) (jid : JID) (s : QueryState) : outcome ((query_error + list JID) * QueryState) :=
  if negb (bool_decide (jid = StatusBroadcastJID)) then Ret (inl (QueryOther "sending to non-status broadcast lists is not yet supported"), s)
  else
    '(r, s) ← getStatusBroadcastRecipients s;
    match r with
    | inl e => Ret (inl e, s)
    | inr list =>
        let ownID := ToNonAD ownJID in
        if Jid.IsEmpty ownID then Ret (inl (QueryOther "the store doesn't contain a device JID"), s)
        else Ret (inr (if existsb (fun p => String.eqb (User p) (User ownID)) list then list else list ++ [ownID]), s)
    end.
End Privacy.

(** ** Settings that are asked for *)

Definition setting_names : list string :=
  [PrivacySettingTypeGroupAdd; PrivacySettingTypeLastSeen; PrivacySettingTypeStatus; PrivacySettingTypeProfile; PrivacySettingTypeReadReceipts;
   PrivacySettingTypeOnline; PrivacySettingTypeCallAdd; PrivacySettingTypeMessages; PrivacySettingTypeDefense; PrivacySettingTypeStickers].
(** The settings by name, and whether an event says that one changed. *)
Definition setting_of (name : string) (s : PrivacySettings) : string :=
  default "" (snd <$> find (fun p => String.eqb p.1 name)
    (zip setting_names [GroupAdd s; LastSeen s; ps_Status s; Profile s; ReadReceipts s; Online s; CallAdd s; Messages s; Defense s; Stickers s])).
Definition changed_of (name : string) (e : PrivacySettingsEvent) : bool :=
  default false (snd <$> find (fun p => String.eqb p.1 name)
    (zip setting_names [GroupAddChanged e; LastSeenChanged e; StatusChanged e; ProfileChanged e; ReadReceiptsChanged e; OnlineChanged e; CallAddChanged e;
       MessagesChanged e; DefenseChanged e; StickersChanged e])).

Ltac each_name H := repeat (apply elem_of_cons in H as [->|H]); [..|by apply elem_of_nil in H].
Lemma set_setting_of name value settings n : n ∈ setting_names ->
  setting_of n (set_setting name value settings) = if decide (n = name /\ name ∈ take 7 setting_names) then value else setting_of n settings.
Proof.
  intros Hn. unfold set_setting.
  repeat match goal with |- context [String.eqb name ?x] => destruct (String.eqb_spec name x) as [->|?]; [by each_name Hn|] end.
  rewrite decide_False; [done|]. intros [_ Hin]. by each_name Hin.
Qed.
(** An element about a setting, with its value. *)
Definition about (name : string) (child : node) : bool :=
  String.eqb (Tag child) "category" && String.eqb (getString "name" (AttrGetter child)).1 name.
Definition value_in (child : node) : string := (getString "value" (getString "name" (AttrGetter child)).2).1.
Lemma parsePrivacySetting_of acc child n : n ∈ setting_names ->
  let acc' := parsePrivacySetting acc child in
  setting_of n acc'.1 = (if about n child then value_in child else setting_of n acc.1) /\
  changed_of n acc'.2 = about n child || changed_of n acc.2 /\ NewSettings acc'.2 = NewSettings acc.2.
Proof.
  intros Hn. destruct acc as [settings evt]. unfold parsePrivacySetting, about, value_in. destruct (String.eqb (Tag child) "category"); [|done].
  destruct (getString "name" (AttrGetter child)) as [name ag]. cbn [negb fst snd andb]. destruct (getString "value" ag) as [value ag']. cbn [fst].
  repeat match goal with |- context [String.eqb name ?x] => lazymatch x with n => fail | _ => destruct (String.eqb_spec name x) as [->|?]; [by each_name Hn|] end end.
  assert (name <> n) as Hne by (intros ->; by each_name Hn). apply String.eqb_neq in Hne. by rewrite Hne.
Qed.
Lemma parsePrivacySettings_of n settings privacyNode : n ∈ setting_names ->
  let r := parsePrivacySettings privacyNode settings in
  setting_of n r.1 = default (setting_of n settings) (value_in <$> last (filter (fun c => about n c = true) (GetChildren privacyNode))) /\
  changed_of n r.2 = existsb (about n) (GetChildren privacyNode) /\ NewSettings r.2 = noSettings.
Proof.
  intros Hn. unfold parsePrivacySettings. cbn zeta. induction (GetChildren privacyNode) as [|child children IH] using rev_ind.
  { split; [done|]. split; [|done]. by each_name Hn. }
  rewrite foldl_snoc, filter_app, existsb_app. destruct (parsePrivacySetting_of (foldl parsePrivacySetting (settings, noChange) children) child n Hn) as (-> & -> & ->).
  destruct IH as (-> & -> & ->). split; [|split; [cbn; by rewrite orb_false_r, orb_comm|done]].
  rewrite filter_cons, filter_nil. destruct (about n child); [by rewrite decide_True, last_snoc by done|]. by rewrite decide_False, app_nil_r by done.
Qed.

Section Settings.
Context (XMLString : node -> string) (sendIQ : infoQuery -> option node * option iq_error).

(** A setting that the server accepted has the new value in what is returned and kept, and
    the others are as before, and no object that a caller has is touched; but the settings for
    messages, the defense mode and stickers keep their old value. *)
Theorem setting_kept name value s p settings s' :
  privacySettingsCache s = Some p -> (p < length (p_heap s))%nat ->
  SetPrivacySetting XMLString sendIQ name value s = ((settings, None), s') ->
  (forall n, n ∈ setting_names -> setting_of n settings = if decide (n = name /\ name ∈ take 7 setting_names) then value else setting_of n (settings_at p s)) /\
  GetPrivacySettings XMLString sendIQ false s' = (settings, s') /\ (forall q, (q < length (p_heap s))%nat -> settings_at q s' = settings_at q s).
Proof.
  intros Hp Hlt. unfold SetPrivacySetting, TryFetchPrivacySettings. rewrite Hp. destruct (ask _ _ _ _) as [e|resp]; [done|].
  intros [= <- <-]. split; [intros n Hn; by apply set_setting_of|]. unfold GetPrivacySettings, TryFetchPrivacySettings, keep, settings_at. cbn. split.
  - by rewrite lookup_app_r, Nat.sub_diag by lia.
  - intros q Hq. by rewrite lookup_app_l.
Qed.

(** A notification changes the settings in the object that the client keeps, and that the
    callers of [TryFetchPrivacySettings] have as well, as its elements say, the last of a name
    counting.  The event says which changed, but never what to: its settings are
    empty. *)
Theorem notified_settings privacyNode s p evt s' :
  privacySettingsCache s = Some p -> (p < length (p_heap s))%nat ->
  handlePrivacySettingsNotification XMLString sendIQ privacyNode s = (Some evt, s') ->
  privacySettingsCache s' = Some p /\ NewSettings evt = noSettings /\
  (forall n, n ∈ setting_names ->
     setting_of n (settings_at p s') = default (setting_of n (settings_at p s)) (value_in <$> last (filter (fun c => about n c = true) (GetChildren privacyNode))) /\
     changed_of n evt = existsb (about n) (GetChildren privacyNode)) /\
  (forall q, q <> p -> settings_at q s' = settings_at q s).
Proof.
  intros Hp Hlt. unfold handlePrivacySettingsNotification, TryFetchPrivacySettings. rewrite Hp.
  destruct (parsePrivacySettings privacyNode (settings_at p s)) as [settings evt'] eqn:Hs. intros [= <- <-]. cbn.
  assert (forall n, n ∈ setting_names -> setting_of n settings = default (setting_of n (settings_at p s)) (value_in <$> last (filter (fun c => about n c = true) (GetChildren privacyNode))) /\
    changed_of n evt' = existsb (about n) (GetChildren privacyNode) /\ NewSettings evt' = noSettings) as H.
  { intros n Hn. pose proof (parsePrivacySettings_of n (settings_at p s) privacyNode Hn) as H. by rewrite Hs in H. }
  split; [done|]. split; [by apply (H PrivacySettingTypeGroupAdd); left|]. unfold settings_at. cbn. split.
  - intros n Hn. rewrite list_lookup_insert_eq by done. cbn [default]. destruct (H n Hn) as (H1 & H2 & _). exact (conj H1 H2).
  - intros q Hq. by rewrite list_lookup_insert_ne.
Qed.
End Settings.

(** ** Who reads a status *)

(** The default list comes first, if there is one. *)
Definition default_first (l : list StatusPrivacy) : Prop := Exists (fun o => IsDefault o = true) l -> exists o rest, l = o :: rest /\ IsDefault o = true.
Lemma place_ok out outputs : default_first outputs -> place out outputs ≡ₚ out :: outputs /\ default_first (place out outputs).
Proof.
  intros Hd. unfold place. destruct (IsDefault out) eqn:Ho.
  - assert (exists rest, match outputs with [] => [out] | first :: rest => out :: rest ++ [first] end = out :: rest /\ rest ≡ₚ outputs) as (rest & -> & Hp).
    { destruct outputs as [|o rest]; [by exists []|]. exists (rest ++ [o]). split; [done|]. symmetry; apply Permutation_cons_append. }
    split; [by constructor|]. intros _. by exists out, rest.
  - split; [symmetry; apply Permutation_cons_append|]. intros [Hex|Hx%Exists_cons]%Exists_app.
    + destruct (Hd Hex) as (o & rest & -> & Hi). by exists o, (rest ++ [out]).
    + destruct Hx as [Hx|Hx]; [congruence|by apply Exists_nil in Hx].
Qed.
(** The lists in an answer. *)
Definition lists_in (children : list node) : list StatusPrivacy := (fun c => (statusList c).1) <$> filter (fun c => Tag c = "list") children.
Lemma statusLists_ok children : forall outputs out, default_first outputs -> statusLists outputs children = inr out ->
  out ≡ₚ outputs ++ lists_in children /\ default_first out.
Proof.
  unfold lists_in. induction children as [|c children IH]; intros outputs out Hd; cbn [statusLists]; [intros [= <-]; by rewrite app_nil_r|].
  rewrite filter_cons. destruct (String.eqb_spec (Tag c) "list") as [Ht|Ht]; cbn [negb].
  - rewrite decide_True by done. destruct (statusList c) as [o ag] eqn:Hc. destruct (Error_ ag); [done|]. intros H.
    destruct (place_ok o outputs Hd) as [Hp Hd']. apply IH in H as [H1 H2]; [|done]. split; [|done]. rewrite H1, Hp. cbn. rewrite Hc. cbn. apply Permutation_middle.
  - rewrite decide_False by done. by apply IH.
Qed.
Lemma status_default_first_nonempty XMLString sendIQ : GetStatusPrivacy XMLString sendIQ <> inr [].
Proof.
  unfold GetStatusPrivacy. destruct (ask _ _ _ _) as [[[h|]| | | |]|resp]; try done. by destruct (statusLists _ _) as [e|[|o outputs]].
Qed.
(** The settings for a status have the default one first whenever the server has one, and
    are the lists of the answer or the built-in default; there is at least one. *)
Theorem status_default_first XMLString sendIQ l : GetStatusPrivacy XMLString sendIQ = inr l ->
  l <> [] /\ default_first l /\
  (l = DefaultStatusPrivacy \/ exists resp, l ≡ₚ lists_in (GetChildren (GetChildByTag resp ["privacy"])) /\ sendIQ (iq "status" iqGet ServerJID [plain "privacy"]) = (Some resp, None)).
Proof.
  assert (default_first DefaultStatusPrivacy) as Hdef by (intros _; by eexists _, _).
  unfold GetStatusPrivacy, ask. destruct (sendIQ _) as [resp [e|]] eqn:Hs.
  - unfold human_error. destruct (find _ _); cbn [fmap option_fmap option_map]; [|done]. intros [= <-]. split; [done|]. split; [done|by left].
  - set (privacyLists := GetChildByTag _ _). destruct (statusLists [] (GetChildren privacyLists)) as [e|outputs] eqn:Ho; [done|].
    assert (outputs ≡ₚ lists_in (GetChildren privacyLists) /\ default_first outputs) as [Hp Hd] by (apply (statusLists_ok _ []); [by intros Hx%Exists_nil|done]).
    destruct outputs as [|o outputs]; intros [= <-]; [split; [done|]; split; [done|by left]|].
    split; [done|]. split; [done|]. destruct resp as [resp|]; [right; by exists resp|]. by apply Permutation_length in Hp.
Qed.

(** The contacts that a list lets read, and the sender. *)
Definition may_read (p : StatusPrivacy) (t : gmap string ContactRow) (j : JID) : Prop :=
  if String.eqb (sp_Type p) StatusPrivacyTypeWhitelist then j ∈ sp_List p
  else printable j = true /\ is_Some (t !! String_ j) /\ FullName (contact t j) <> "" /\ ~ (sp_Type p = StatusPrivacyTypeBlacklist /\ j ∈ sp_List p).

(** A status goes to the users that the first of the settings lets read it: those of a
    whitelist, or the contacts with a full name but for the blacklisted; and to the user of the
    sender, who is added when no reader has that user part.  No contact is
    counted twice, and finding the readers changes no contact and does not panic. *)
Theorem status_readers XMLString sendIQ shuffle ownJID s : (forall l, shuffle l ≡ₚ l) -> contacts_ok s -> Jid.IsEmpty (ToNonAD ownJID) = false ->
  exists r s', getBroadcastListParticipants XMLString sendIQ shuffle ownJID StatusBroadcastJID s = Ret (r, s') /\
    contacts (q_contacts s') = contacts (q_contacts s) /\
    forall readers, r = inr readers -> exists p rest, GetStatusPrivacy XMLString sendIQ = inr (p :: rest) /\
      (forall j, j ∈ readers <-> may_read p (contacts (q_contacts s)) j \/
         (j = ToNonAD ownJID /\ forall j', may_read p (contacts (q_contacts s)) j' -> User j' <> User ownJID)) /\
      (sp_Type p <> StatusPrivacyTypeWhitelist -> NoDup readers).
Proof.
  intros Hsh [Hc Hf] Hown. unfold getBroadcastListParticipants. rewrite bool_decide_true by done. cbn [negb].
  assert (exists r s1, getStatusBroadcastRecipients XMLString sendIQ shuffle s = Ret (r, s1) /\ contacts (q_contacts s1) = contacts (q_contacts s) /\
    forall list, r = inr list -> exists p rest, GetStatusPrivacy XMLString sendIQ = inr (p :: rest) /\
      (forall j, j ∈ list <-> may_read p (contacts (q_contacts s)) j) /\ (sp_Type p <> StatusPrivacyTypeWhitelist -> NoDup list)) as (r & s1 & Hr & Ht & Hl).
  { unfold getStatusBroadcastRecipients. destruct (GetStatusPrivacy XMLString sendIQ) as [e|[|p rest]] eqn:Hp; [by eexists _, s| |].
    { by apply status_default_first_nonempty in Hp. }
    unfold may_read. destruct (String.eqb_spec (sp_Type p) StatusPrivacyTypeWhitelist) as [Hw|Hw].
    { eexists _, s. split; [done|]. split; [done|]. intros list [= <-]. exists p, rest. split; [done|]. by rewrite Hw. }
    pose proof (all_exact Postgres (@first_each) (q_contacts s) Hc) as H. unfold step_exact, runs in H. cbn [contact_step] in H. unfold mbind, Stmt_bind in H.
    unfold on_contacts. destruct (GetAllContacts (q_contacts s)) as [[e|out] db]; [by destruct H|]. destruct H as [[[Ht (o & [= <-] & Ho)] _] _].
    eexists _, _. split; [done|]. split; [done|]. intros list [= <-]. exists p, rest. split; [done|]. split.
    - intros j. unfold statusRecipients. rewrite list_elem_of_omap. apply String.eqb_neq in Hw. rewrite Hw. split.
      + intros ([j' info] & Hin & Hj). rewrite Hsh in Hin. apply elem_of_map_to_list, Ho in Hin as (H1 & H2 & ->). cbn [fst snd] in Hj.
        case_bool_decide as Hb; [done|]. revert Hj. destruct (String.eqb_spec (FullName (contact (contacts (q_contacts s)) j')) "") as [|Hn]; [done|]. intros [= <-].
        split; [done|]. split; [done|]. split; [done|]. intros [Hbl Hin]. rewrite Hbl in Hb. done.
      + intros (H1 & H2 & H3 & H4). exists (j, contact (contacts (q_contacts s)) j). rewrite Hsh. split; [by apply elem_of_map_to_list, Ho|]. cbn [fst snd].
        rewrite bool_decide_false. { by apply String.eqb_neq in H3; rewrite H3. }
        destruct (String.eqb_spec (sp_Type p) StatusPrivacyTypeBlacklist); [|by apply not_elem_of_nil]. intros Hin. by apply H4.
    - intros _. unfold statusRecipients. generalize (if String.eqb (sp_Type p) StatusPrivacyTypeBlacklist then sp_List p else []). intros bl.
      assert (NoDup (shuffle (map_to_list out)).*1) as Hnd by (rewrite Hsh; apply NoDup_fst_map_to_list).
      induction (shuffle (map_to_list out)) as [|[j info] l IH]; [constructor|]. cbn [omap list_omap]. inversion_clear Hnd as [|? ? Hni Hnd'].
      specialize (IH Hnd'). cbn [fst snd]. case_bool_decide; [done|]. destruct (String.eqb _ _); [done|]. constructor; [|done].
      intros ([j' i'] & Hin & Hj')%list_elem_of_omap. cbn in Hj'. case_bool_decide; [done|]. revert Hj'. destruct (String.eqb _ _); [done|]. intros [= ->].
      apply Hni. by apply (list_elem_of_fmap_2 fst _ (j, i')). }
  rewrite Hr. cbn [mbind outcome_bind]. destruct r as [e|list]; [by eexists _, s1|]. rewrite Hown. eexists _, s1. split; [done|]. split; [done|]. intros readers [= <-].
  destruct (Hl list eq_refl) as (p & rest & Hp & Hm & Hnd). exists p, rest. split; [done|].
  destruct (existsb _ list) eqn:He.
  - apply existsb_exists in He as (x & Hx%list_elem_of_In & Hu%String.eqb_eq). split; [|done]. intros j. rewrite Hm. split; [by left|]. intros [?|[-> Hno]]; [done|].
    apply Hm in Hx. by destruct (Hno x Hx).
  - assert (forall j, j ∈ list -> User j <> User ownJID) as Hno.
    { intros j Hj Hu. apply not_true_iff_false in He. apply He, existsb_exists. exists j. split; [by apply list_elem_of_In|]. by apply String.eqb_eq. }
    split.
    + intros j. rewrite elem_of_app, list_elem_of_singleton, Hm. split; intros [?|H]; [by left| |by left|right; apply H]. right. split; [done|]. intros j' Hj'. by apply Hno, Hm.
    + intros Hw. apply NoDup_app. split; [by apply Hnd|]. split; [|apply NoDup_singleton]. intros x Hx ->%list_elem_of_singleton. by destruct (Hno _ Hx).
Qed.

(** ** The theorems at work *)

Definition demo_settings : PrivacySettings := noSettings <| LastSeen := "all" |> <| Messages := "all" |>.
Definition demo_privacy : PrivacyState := mkPrivacyState [demo_settings] (Some 0%nat).
Definition accepting : infoQuery -> option node * option iq_error := fun _ => (Some (mkNode "iq" [] VNil), None).
(** The server accepts that only contacts see when the user was there and may write. *)
Lemma setting_kept_witness :
  (exists settings s', SetPrivacySetting Tag accepting PrivacySettingTypeLastSeen "contacts" demo_privacy = ((settings, None), s') /\
     setting_of PrivacySettingTypeLastSeen settings = "contacts") /\
  (exists settings s', SetPrivacySetting Tag accepting PrivacySettingTypeMessages "contacts" demo_privacy = ((settings, None), s') /\
     setting_of PrivacySettingTypeMessages settings = "all").
Proof.
  split.
  - eexists _, _. split; [reflexivity|].
    refine (eq_trans (proj1 (setting_kept Tag accepting PrivacySettingTypeLastSeen "contacts" demo_privacy 0 _ _ eq_refl _ eq_refl) PrivacySettingTypeLastSeen _) eq_refl);
      [cbn; lia|by repeat constructor].
  - eexists _, _. split; [reflexivity|].
    refine (eq_trans (proj1 (setting_kept Tag accepting PrivacySettingTypeMessages "contacts" demo_privacy 0 _ _ eq_refl _ eq_refl) PrivacySettingTypeMessages _) eq_refl);
      [cbn; lia|by repeat constructor].
Defined.
Definition demo_notice : node :=
  mkNode "privacy" [] (VNodes [mkNode "category" [("name", VString "last"); ("value", VString "none")] VNil]).
Lemma notified_settings_witness :
  exists evt s', handlePrivacySettingsNotification Tag accepting demo_notice demo_privacy = (Some evt, s') /\
    NewSettings evt = noSettings /\ setting_of PrivacySettingTypeLastSeen (settings_at 0 s') = "none".
Proof.
  eexists _, _. split; [reflexivity|].
  destruct (notified_settings Tag accepting demo_notice demo_privacy 0 _ _ eq_refl ltac:(cbn; lia) eq_refl) as (_ & Hn & Hs & _). split; [exact Hn|].
  refine (eq_trans (proj1 (Hs PrivacySettingTypeLastSeen _)) eq_refl). by repeat constructor.
Defined.
Definition demo_lists : infoQuery -> option node * option iq_error := fun _ =>
  (Some (mkNode "iq" [] (VNodes [mkNode "privacy" [] (VNodes
    [mkNode "list" [("type", VString "contacts")] VNil;
     mkNode "list" [("type", VString "blacklist"); ("default", VString "true")] (VNodes [mkNode "user" [("jid", VJID demo_person)] VNil])])])), None).
Lemma status_default_first_witness :
  exists o rest, GetStatusPrivacy Tag demo_lists = inr (o :: rest) /\ IsDefault o = true.
Proof.
  destruct (GetStatusPrivacy Tag demo_lists) as [e|l] eqn:H; [by vm_compute in H|].
  destruct (status_default_first Tag demo_lists l H) as (_ & Hd & _). destruct Hd as (o & rest & -> & Ho).
  - vm_compute in H. injection H as <-. left. reflexivity.
  - by exists o, rest.
Defined.
Definition demo_friend : JID := NewJID "4917" DefaultUserServer.
Definition demo_contacts : ContactDB :=
  mkContactDB {["4917@s.whatsapp.net" := new_contact <| full_name := Some "Bea" |>; "77@lid" := new_contact <| full_name := Some "Cay" |>]} ∅ [].
Lemma status_readers_witness :
  exists readers s', getBroadcastListParticipants Tag demo_lists id demo_phone StatusBroadcastJID (demo_query_state <| q_contacts := demo_contacts |>) = Ret (inr readers, s') /\
    demo_friend ∈ readers /\ demo_person ∉ readers /\ demo_phone ∈ readers.
Proof.
  destruct (status_readers Tag demo_lists id demo_phone (demo_query_state <| q_contacts := demo_contacts |>) (fun _ => Permutation_refl _)) as (r & s' & Hr & _ & Hx).
  - split; [|reflexivity]. split; [intros j info Hj; change (contactCache _) with (∅ : gmap JID ContactInfo) in Hj; by apply lookup_empty_Some in Hj|].
    intros k [row Hk]. change (contacts _) with (contacts demo_contacts) in Hk. unfold demo_contacts in Hk. cbn [contacts] in Hk.
    apply lookup_insert_Some in Hk as [[<- _]|[_ Hk]]; [exists demo_friend; by split|].
    apply lookup_singleton_Some in Hk as [<- _]. exists demo_person. by split.
  - reflexivity.
  - destruct r as [e|readers]; [exfalso; apply (f_equal (fun o => match o with Ret (inr _, _) => true | _ => false end)) in Hr; vm_compute in Hr; discriminate|].
    exists readers, s'. split; [exact Hr|]. destruct (Hx readers eq_refl) as (p & rest & Hp & Hm & _). vm_compute in Hp. injection Hp as <- <-.
    assert (forall j, bool_decide (j ∈ readers) = true <-> j ∈ readers) as Hb by (intros j; apply bool_decide_eq_true).
    split; [|split].
    + apply Hm. left. vm_compute. split; [reflexivity|]. split; [by eexists|]. split; [discriminate|]. intros [_ H]. apply list_elem_of_singleton in H. discriminate.
    + intros H. apply Hm in H as [H|[H _]]; [|by vm_compute in H]. destruct H as (_ & _ & _ & H). apply H. split; [reflexivity|by left].
    + apply Hm. right. split; [reflexivity|]. intros j' Hj'. destruct (decide (User j' = User demo_phone)) as [He|He]; [|exact He].
      exfalso. destruct Hj' as (Hpr & [row Hrow] & _). change (rows _) with (contacts demo_contacts) in Hrow. unfold demo_contacts in Hrow. cbn [contacts] in Hrow.
      apply lookup_insert_Some in Hrow as [[Hs _]|[_ Hrow]]; [|apply lookup_singleton_Some in Hrow as [Hs _]].
      * pose proof (JID_print_parse j' Hpr) as Hj. rewrite <- Hs in Hj. vm_compute in Hj. injection Hj as <-. discriminate He.
      * pose proof (JID_print_parse j' Hpr) as Hj. rewrite <- Hs in Hj. vm_compute in Hj. injection Hj as <-. discriminate He.
Defined.
