(* ===== verification/Send.v ===== *)
(** * [whatsmeow/send.go]: sending a message

    From the request to the answer of the server.  Everything that a message needs is
    made in one pass: the members of its group or the readers of a status, the recent
    messages, the secret, the nodes for the devices, the tokens; the stores that the
    parts share are one here.  libsignal, the protocol buffers, the server and the
    socket are parameters, all in one record: [e_send] is the error of
    [sendNodeAndGetData], [e_await] how the wait for the response ends, which is
    [TimedOut] only for a time limit that is positive; after a disconnection,
    [e_reconnected], [e_sock] and [e_second] are what the second attempt meets.  A nil message, the timings and
    the events of [GetUserInfo] are left out. *)
From S2P Require Import Prelude GoStrings GoTime GoFloat Jid BinaryNode NodeAttrs Requests LidMap PreKeys SqlDB SqlText SignalStore Decrypt Contacts AccountStore MessageSource MsgSecret Retry DeviceStore UserDevices TcTokens MessageKinds ReportingToken Encrypt GroupParse Groups UserQueries Privacy.

(** [whatsmeow.SendRequestExtra], [types.SendResponse]; the timings are left out. *)
Record SendRequestExtra : Type := mkExtra {
  rq_ID : string; InlineBotJID : JID; Peer : bool; rq_Timeout : Duration; MediaHandle : string; Meta : option MsgMetaInfo; AdditionalNodes : option (list node) }.
#[export] Instance eta_SendRequestExtra : Eta SendRequestExtra := fun r =>
  mkExtra (rq_ID r) (InlineBotJID r) (Peer r) (rq_Timeout r) (MediaHandle r) (Meta r) (AdditionalNodes r).
Definition noExtra : SendRequestExtra := mkExtra "" EmptyJID false 0 "" None None.
Record SendResponse : Type := mkResponse { sr_Timestamp : Time; sr_ID : string; sr_ServerID : Z; sr_Sender : JID }.
#[export] Instance eta_SendResponse : Eta SendResponse := fun r => mkResponse (sr_Timestamp r) (sr_ID r) (sr_ServerID r) (sr_Sender r).
Definition noResponse : SendResponse := mkResponse zeroTime "" 0 EmptyJID.
Record nodeExtraParams : Type := mkParams { botNode : option node; metaNode : option node; additionalNodes : option (list node); addressingMode : string }.
#[export] Instance eta_nodeExtraParams : Eta nodeExtraParams := fun r => mkParams (botNode r) (metaNode r) (additionalNodes r) (addressingMode r).

Inductive send_error : Type :=
| ErrManyExtras | ErrRecipientADJID | ErrSendNotLoggedIn | ErrInvalidInlineBotID
| SendMarshal (what : string)
| SendEncrypt (e : enc_error)
| SendMembers (e : query_error)
| SendLID (e : lid_error)
| SendUserInfo (e : user_error)
| ErrNoLID (to : JID)
| SendRecent (e : retry_error)
| SendDevices (e : user_error)
| SendSenderKey (e : dec_error)
| SendGroupEncrypt (e : dec_error)
| SendSocket (e : string)
| ErrUnknownServer (server : string)
| ErrMessageTimedOut | ErrSendContext
| SendRetried (e : iq_error)
| ErrServerReturnedError (code : Z)
| SendQuery (e : query_error)
| ErrTimerServer (server : string).

(** What the code calls, and the client that calls it. *)
Record Env {Session Fb Certificate Details : Type} : Type := mkEnv {
  e_XMLString : node -> string; e_sendIQ : infoQuery -> option node * option iq_error; e_sid : string;
  e_grow : nat -> nat; e_sha256 : Bytes -> Bytes; e_hkdf : Bytes -> Bytes -> Bytes -> Z -> Bytes; e_hmac : Bytes -> Bytes -> Bytes;
  e_dedup_pairs : list LIDMapping -> list LIDMapping; e_dedup : forall E, (E -> JID) -> list E -> list E;
  e_dialect : Dialect; e_pick : forall A, list A -> option A; e_contact_order : list (JID * ContactInfo) -> list (JID * ContactInfo);
  e_NewSession : Session; e_Serialize : Session -> Bytes; e_FromBytes : Bytes -> option Session;
  e_order : list (string * option Bytes) -> list (string * option Bytes); e_shuffle : list string -> list string;
  e_ProcessBundle : string * Z -> Bundle -> Dec (Signal Session) (); e_CipherEncrypt : string * Z -> Bytes -> Dec (Signal Session) (bool * Bytes);
  e_fetch : list JID -> iq_error + node;
  e_CreateSenderKey : string * (string * Z) -> Dec SignalDB Bytes; e_GroupEncrypt : string * (string * Z) -> Bytes -> Dec SignalDB Bytes;
  e_sort_fields : (field -> field -> bool) -> list field -> list field;
  e_marshalWa : WaMessage -> option Bytes; e_marshalFb : Fb -> option Bytes; e_marshalAccount : option SignedDeviceIdentity -> option Bytes;
  e_unmarshalCert : Bytes -> option Certificate; e_certDetails : Certificate -> Bytes; e_unmarshalDetails : Bytes -> option Details; e_GetVerifiedName : Details -> string;
  e_personaMetadata : string -> Opaque;
  e_AutoTrustIdentity : bool; e_hasMessengerConfig : bool; e_SendReportingTokens : bool; e_device : Device;
  e_pad : JID -> Z; e_ctx_ended : JID -> bool; e_secret : Bytes; e_newID : string;
  e_now_add : Time; e_now_since : Time; e_now_clear : Time; e_clock : clock; e_now : Time;
  e_send : node -> option string;
  e_await : wait_end; e_reconnected : bool; e_sock : option (option string); e_second : wait_end }.
Arguments Env : clear implicits.

Section Send.
Context {Session Fb Certificate Details : Type} (env : Env Session Fb Certificate Details).

(** The stores and the maps of the client, the messages that callers hold, the waiters, the nodes
    that were written to the socket and the tokens that goroutines are to issue.  The LIDs
    and the tables of the account are those of the queries. *)
Record Sender : Type := mkSender {
  sd_query : QueryState; sd_devices : gmap JID deviceCache; sd_tokens : Tokens; sd_retry : @RetryState Body Fb;
  sd_signal : SignalDB; sd_waiters : Waiters; sd_sent : list node; sd_issuing : list JID }.
#[export] Instance eta_Sender : Eta Sender := fun r =>
  mkSender (sd_query r) (sd_devices r) (sd_tokens r) (sd_retry r) (sd_signal r) (sd_waiters r) (sd_sent r) (sd_issuing r).

Definition Sending (A : Type) : Type := Sender -> outcome ((send_error + A) * Sender).
#[export] Instance Sending_ret : MRet Sending := fun A a s => Ret (inr a, s).
#[export] Instance Sending_bind : MBind Sending := fun A B f m s =>
  match m s with
  | Panic e => Panic e
  | Ret (inl e, s) => Ret (inl e, s)
  | Ret (inr a, s) => f a s
  end.
Definition fail {A} (e : send_error) : Sending A := fun s => Ret (inl e, s).
Definition lift {A} (o : outcome A) : Sending A := fun s => match o with Ret a => Ret (inr a, s) | Panic e => Panic e end.
Definition attempt {A E} (wrap : E -> send_error) (f : Sender -> (E + A) * Sender) : Sending A := fun s =>
  match f s with (inl e, s) => Ret (inl (wrap e), s) | (inr a, s) => Ret (inr a, s) end.
Definition run {A} (f : Sender -> A * Sender) : Sending A := fun s => let '(a, s) := f s in Ret (inr a, s).
Definition marshal (what : string) (b : option Bytes) : Sending Bytes := match b with Some b => mret b | None => fail (SendMarshal what) end.

(** The parts of the state that others work on. *)
Definition on_query {A} (f : QueryState -> A * QueryState) (s : Sender) : A * Sender := let '(a, q) := f (sd_query s) in (a, s <| sd_query := q |>).
Definition on_lids {A} (f : CachedLIDMap -> A * CachedLIDMap) : Sender -> A * Sender := on_query (fun q => let '(a, m) := f (q_lids q) in (a, q <| q_lids := m |>)).
Definition on_devices {A} (f : UserDevices -> A * UserDevices) (s : Sender) : A * Sender :=
  let '(a, ud) := f (mkUserDevices (q_arrays (sd_query s)) (sd_devices s)) in
  (a, s <| sd_query := (sd_query s) <| q_arrays := arrays ud |> |> <| sd_devices := userDevicesCache ud |>).
Definition on_tokens {A} (f : Tokens -> A * Tokens) (s : Sender) : A * Sender :=
  let '(a, t) := f ((sd_tokens s) <| account := q_account (sd_query s) |> <| lids := q_lids (sd_query s) |>) in
  (a, s <| sd_tokens := t |> <| sd_query := (sd_query s) <| q_account := account t |> <| q_lids := lids t |> |>).
Definition on_retry {A} (f : @RetryState Body Fb -> A * @RetryState Body Fb) (s : Sender) : A * Sender :=
  let '(a, r) := f ((sd_retry s) <| LIDs := q_lids (sd_query s) |>) in (a, s <| sd_retry := r |> <| sd_query := (sd_query s) <| q_lids := LIDs r |> |>).
Definition on_signal {A} (f : Dec SignalDB A) (s : Sender) : (dec_error + A) * Sender := let '(a, db) := f (sd_signal s) in (a, s <| sd_signal := db |>).

Definition getOwnID : JID := GetJID (Some (e_device env)).
Definition getOwnLID : JID := GetLID (Some (e_device env)).

(** ** Nodes *)

Definition marshalMessage (to : JID) (message : option WaMessage) : outcome (send_error + option Bytes * option Bytes) :=
  match message with
  | None => if String.eqb (Server to) NewsletterServer then Ret (inr (None, None)) else Panic nil_dereference
  | Some message =>
      match e_marshalWa env message with
      | None => Ret (inl (SendMarshal "message"))
      | Some plaintext =>
          if String.eqb (Server to) GroupServer || String.eqb (Server to) NewsletterServer then Ret (inr (Some plaintext, None))
          else
            match e_marshalWa env (mkMessage None (Some (String_ to, message)) (noBody <| MessageContextInfo := MessageContextInfo (body_of message) |>)) with
            | None => Ret (inl (SendMarshal "message (for own devices)"))
            | Some dsmPlaintext => Ret (inr (Some plaintext, Some dsmPlaintext))
            end
      end
  end.
Definition marshalled (to : JID) (message : option WaMessage) : Sending (option Bytes * option Bytes) := fun s =>
  match marshalMessage to message with Panic e => Panic e | Ret r => Ret (r, s) end.
Definition makeDeviceIdentityNode : outcome node :=
  match e_marshalAccount env (Account (e_device env)) with
  | Some deviceIdentity => Ret (mkNode "device-identity" [] (VBytes (of_codes deviceIdentity)))
  | None => Panic "failed to marshal device identity"
  end.
Definition getMessageContent (baseNode : node) (message : Body) (msgType : string) (includeIdentity : bool) (extraParams : nodeExtraParams) : outcome (list node) :=
  identity ← (if includeIdentity then n ← makeDeviceIdentityNode; Ret [n] else Ret []);
  let poll := if String.eqb msgType "poll"
              then [mkNode "meta" [("polltype", VString (if present (PollUpdateMessage message) then "vote" else "creation"))] VNil] else [] in
  buttonType ← getButtonTypeFromMessage message;
  biz ← (if String.eqb buttonType "" then Ret []
         else attrs ← getButtonAttributes message; Ret [mkNode "biz" [] (VNodes [mkNode buttonType attrs VNil])]);
  Ret (baseNode :: identity ++ poll ++ option_list (botNode extraParams) ++ option_list (metaNode extraParams) ++ default [] (additionalNodes extraParams) ++ biz).

Definition encryptAll (allDevices : list JID) (plaintext : Bytes) (dsmPlaintext : option Bytes) (encAttrs : list (string * value)) : Sending (list node * bool) := fun s =>
  match encryptMessageForDevices (e_dialect env) (e_NewSession env) (e_Serialize env) (e_FromBytes env) (e_order env) (e_shuffle env) (e_ProcessBundle env)
          (e_CipherEncrypt env) (e_AutoTrustIdentity env) (e_hasMessengerConfig env) getOwnID getOwnLID (e_fetch env) (e_pad env) (e_ctx_ended env)
          allDevices plaintext dsmPlaintext encAttrs (q_lids (sd_query s)) (sd_signal s) with
  | Panic e => Panic e
  | Ret (r, m, db) =>
      Ret (match r with inl e => inl (SendEncrypt e) | inr x => inr x end, s <| sd_query := (sd_query s) <| q_lids := m |> |> <| sd_signal := db |>)
  end.
Definition devicesOf (participants : list JID) : Sending (list JID) :=
  attempt SendDevices (on_devices (GetUserDevices (e_grow env) (e_sha256 env) (e_sendIQ env) (e_sid env) participants)).
Definition is_hosted (jid : JID) : bool := String.eqb (Server jid) HostedServer || String.eqb (Server jid) HostedLIDServer.
Definition DecryptFailHide : string := "hide".
Definition encAttrsFor (message : Body) (msgType mediaType : string) (dsmPlaintext : option Bytes) : list (string * value) :=
  (if present dsmPlaintext && negb (String.eqb mediaType "") then [("mediatype", VString mediaType)] else []) ++
  (if negb (String.eqb (getEditAttribute message) "") || String.eqb msgType "reaction" || present (PollUpdateMessage message)
   then [("decrypt-fail", VString DecryptFailHide)] else []).
Definition messageAttrs (to : JID) (id : string) (message : Body) (msgType mode : string) : list (string * value) :=
  [("id", VString id); ("type", VString msgType); ("to", VJID to)] ++
  (if String.eqb mode "" then [] else [("addressing_mode", VString mode)]) ++
  (if String.eqb (getEditAttribute message) "" then [] else [("edit", VString (getEditAttribute message))]).
Definition prepareMessageNode (to : JID) (id : string) (message : Body) (participants : list JID) (plaintext : Bytes) (dsmPlaintext : option Bytes)
    (extraParams : nodeExtraParams) : Sending (node * list JID) :=
  allDevices ← devicesOf participants;
  let allDevices := if String.eqb (Server to) GroupServer then filter (fun jid => is_hosted jid = false) allDevices else allDevices in
  msgType ← lift (getTypeFromMessage message);
  encMediaType ← lift (getMediaTypeFromMessage message);
  x ← encryptAll allDevices plaintext dsmPlaintext (encAttrsFor message msgType encMediaType dsmPlaintext);
  content ← lift (getMessageContent (mkNode "participants" [] (VNodes x.1)) message msgType x.2 extraParams);
  mret (mkNode "message" (messageAttrs to id message msgType (addressingMode extraParams)) (VNodes content), allDevices).

Definition with_child (n c : node) : node := mkNode (Tag n) (Attrs n) (VNodes (GetChildren n ++ [c])).
(** The data is the frame of the node; it is the node here. *)
Definition sendNodeAndGetData (n : node) : Sending node := fun s =>
  match e_send env n with Some e => Ret (inl (SendSocket e), s) | None => Ret (inr n, s <| sd_sent := sd_sent s ++ [n] |>) end.
(** What a parser that runs for ever makes of the call. *)
Definition no_return : string := "does not return".
Definition with_reporting (plaintext : Bytes) (message : Body) (ownID to : JID) (id : string) (n : node) : outcome node :=
  if shouldIncludeReportingToken (e_SendReportingTokens env) message && present (secret_of message) then
    match getMessageReportingToken (e_sort_fields env) (e_hkdf env) (e_hmac env) (S (length plaintext)) (whole plaintext) message ownID to id with
    | None => Panic no_return
    | Some token => t ← token; Ret (with_child n t)
    end
  else Ret n.

(** ** Each kind of chat

    The result is the hash of the devices, empty where there is none, and what was
    written. *)

Definition sendGroup (ownID to : JID) (participants : list JID) (id : string) (message : WaMessage) (extraParams : nodeExtraParams) : Sending (string * node) :=
  x ← marshalled to (Some message);
  let plaintext := default [] x.1 in
  let senderKeyName := (String_ to, SignalAddress getOwnLID) in
  signalSKDMessage ← attempt SendSenderKey (on_signal (e_CreateSenderKey env senderKeyName));
  skdPlaintext ← marshal "sender key distribution message" (e_marshalWa env (mkMessage (Some (mkSKDM (String_ to) signalSKDMessage)) None noBody));
  ciphertext ← attempt SendGroupEncrypt (on_signal (e_GroupEncrypt env senderKeyName (padMessage plaintext (e_pad env to))));
  y ← prepareMessageNode to id (body_of message) participants skdPlaintext None extraParams;
  let '(n, allDevices) := y in
  let phash := participantListHashV2 (e_sha256 env) allDevices in
  mediaType ← lift (getMediaTypeFromMessage (body_of message));
  let skMsg := mkNode "enc" ([("v", VString "2"); ("type", VString "skmsg")] ++ (if String.eqb mediaType "" then [] else [("mediatype", VString mediaType)]))
    (VBytes (of_codes ciphertext)) in
  n ← lift (with_reporting plaintext (body_of message) ownID to id (with_child (mkNode (Tag n) (Attrs n ++ [("phash", VString phash)]) (Content n)) skMsg));
  data ← sendNodeAndGetData n;
  mret (phash, data).

(** The other address is the phone number when the message goes to one. *)
Definition peerAttrs (to : JID) (id : string) (message : Body) : list (string * value) :=
  [("id", VString id); ("type", VString "text"); ("category", VString "peer"); ("to", VJID to)] ++
  (let p := default noProtocol (Protocol message) in
   if pm_Type p =? ProtocolMessage_APP_STATE_SYNC_KEY_REQUEST then [("push_priority", VString "high")]
   else if default 0 (PeerDataOperationRequestType <$> pm_PeerData p) =? HISTORY_SYNC_ON_DEMAND then [("push_priority", VString "high_force"); ("privacy_sensitive", VString "1")]
   else []).
Definition encryptPeer (plaintext : Bytes) (to : JID) : Sending (node * bool) := fun s =>
  let '(r, sg) := encryptMessageForDevice (e_dialect env) (e_ProcessBundle env) (e_CipherEncrypt env) (e_AutoTrustIdentity env) (e_hasMessengerConfig env)
    (e_pad env to) plaintext to None [] ∅ (mkSignal _ None (sd_signal s)) in
  Ret (match r with inl e => inl (SendEncrypt e) | inr x => inr x end, s <| sd_signal := sg_db sg |>).
Definition preparePeerMessageNode (to : JID) (id : string) (message : WaMessage) : Sending node :=
  plaintext ← marshal "message" (e_marshalWa env message);
  encryptionIdentity ← (if String.eqb (Server to) DefaultUserServer
    then attempt SendLID (on_lids (fun m => match GetLIDForPN to m with (Some e, _, m) => (inl e, m) | (None, lid, m) => (inr lid, m) end)) else mret to);
  x ← encryptPeer plaintext encryptionIdentity;
  let '(encrypted, isPreKey) := x in
  identity ← lift (if isPreKey && negb (e_hasMessengerConfig env) then n ← makeDeviceIdentityNode; Ret [n] else Ret []);
  mret (mkNode "message" (peerAttrs to id (body_of message)) (VNodes (mkNode "meta" [("appdata", VString "default")] VNil :: encrypted :: identity))).
Definition sendPeerMessage (to : JID) (id : string) (message : WaMessage) : Sending node :=
  n ← preparePeerMessageNode to id message; sendNodeAndGetData n.

(** The token of the chat, or the one of the client. *)
Definition tokenNode (to : JID) : Sending (list node) :=
  tcTokenBytes ← run (on_tokens (ensureTCToken (e_dialect env) (e_pick env) (e_clock env) to));
  match mjoin tcTokenBytes with
  | Some ((_ :: _) as token) => mret [mkNode "tctoken" [] (VBytes (of_codes token))]
  | _ =>
      csToken ← run (on_tokens (generateCsToken (e_hmac env) to));
      mret (if (length csToken =? 0)%nat then [] else [mkNode "cstoken" [] (VBytes (of_codes csToken))])
  end.
(** A token is issued to the other side when it is time for a new one. *)
Definition issueToken (to : JID) : Sending () := fun s =>
  let '(storageJID, s) := on_tokens (resolveTCTokenStorageLID to) s in
  Ret (inr (), if shouldSendTCTokenInChatAction to && shouldSendNewTCToken (e_now env) (getTCTokenSenderTS storageJID (sd_tokens s))
               then s <| sd_issuing := sd_issuing s ++ [storageJID] |> else s).
Definition sendDM (ownID to : JID) (id : string) (message : WaMessage) (extraParams : nodeExtraParams) : Sending (string * node) :=
  x ← marshalled to (Some message);
  let messagePlaintext := default [] x.1 in
  y ← prepareMessageNode to id (body_of message) [to; ToNonAD ownID] messagePlaintext x.2 extraParams;
  let '(n, allDevices) := y in
  let phash := participantListHashV2 (e_sha256 env) allDevices in
  n ← lift (with_reporting messagePlaintext (body_of message) ownID to id n);
  tokens ← tokenNode to;
  data ← sendNodeAndGetData (foldl with_child n tokens);
  _ ← issueToken to;
  mret (phash, data).

(** [message.GetEditedMessage().GetMessage().GetProtocolMessage()] *)
Definition edited (message : Body) : option (ProtocolMessage WaMessage) := e ← EditedMessage message; m ← e; Protocol (body_of m).
Definition key_id (p : option (ProtocolMessage WaMessage)) : string := default "" (p ← p; k ← pm_Key p; KeyID_ k).
Definition is_revoke (message : Body) : bool := match Protocol message with Some p => pm_Type p =? ProtocolMessage_REVOKE | None => false end.
Definition sendNewsletter (to : JID) (id : string) (message : WaMessage) (mediaID : string) : Sending node :=
  type_ ← lift (getTypeFromMessage (body_of message));
  let '(edit, sent) :=
    if present (EditedMessage (body_of message)) then ([("edit", VString EditAttributeAdminEdit)], p ← edited (body_of message); pm_EditedMessage p)
    else if is_revoke (body_of message) then ([("edit", VString EditAttributeAdminRevoke)], None)
    else ([], Some message) in
  x ← marshalled to sent;
  mediaType ← lift (match sent with Some m => getMediaTypeFromMessage (body_of m) | None => Ret "" end);
  sendNodeAndGetData (mkNode "message"
    ([("to", VJID to); ("id", VString id); ("type", VString type_)] ++ (if String.eqb mediaID "" then [] else [("media_id", VString mediaID)]) ++ edit)
    (VNodes [mkNode "plaintext" (if String.eqb mediaType "" then [] else [("mediatype", VString mediaType)]) (VBytes (of_codes (default [] x.1)))])).

(** ** [SendMessage] *)

(** The message that the caller holds. *)
Definition message_at (p : nat) : Sending WaMessage := fun s =>
  match heap (sd_retry s) !! p with Some m => Ret (inr m, s) | None => Panic nil_dereference end.
Definition put_message (p : nat) (m : WaMessage) (s : Sender) : Sender := s <| sd_retry := (sd_retry s) <| heap := <[p := m]> (heap (sd_retry s)) |> |>.
Definition new_message (m : WaMessage) (s : Sender) : nat * Sender :=
  (length (heap (sd_retry s)), s <| sd_retry := (sd_retry s) <| heap := heap (sd_retry s) ++ [m] |> |>).

(** The message is changed in place: it gets a secret where one is needed and has none, and the
    metadata of a bot. *)
Definition noContext : ContextInfo := mkContextInfo None None None.
Definition with_context (f : ContextInfo -> ContextInfo) (m : WaMessage) : WaMessage :=
  match m with mkMessage k ds b => mkMessage k ds (b <| MessageContextInfo := Some (f (default noContext (MessageContextInfo b))) |>) end.
Definition persona : string := "867051314767696$760019659443059".
Definition with_secret : WaMessage -> WaMessage := with_context (fun c => c <| MessageSecret := Some (default (e_secret env) (MessageSecret c)) |>).
Definition with_bot : WaMessage -> WaMessage := with_context (fun c => c <| BotMetadata := Some (default (e_personaMetadata env persona) (BotMetadata c)) |>).
Definition completed (isBotMode : bool) (m : WaMessage) : WaMessage :=
  let m := if isBotMode || shouldIncludeReportingToken (e_SendReportingTokens env) (body_of m) then with_secret m else m in
  if isBotMode then with_bot m else m.

(** The message for everyone and the one for the bot, when a bot is called in a chat. *)
Definition inlineMessages (m : WaMessage) : WaMessage * WaMessage :=
  let b := body_of m in
  let c := default noContext (MessageContextInfo b) in
  let invoke := Some (Some (of_body (noBody <| ExtendedTextMessage := ExtendedTextMessage b |> <| MessageContextInfo := Some (noContext <| BotMetadata := BotMetadata c |>) |>))) in
  (of_body (noBody <| BotInvokeMessage := invoke |> <| MessageContextInfo := MessageContextInfo b |>),
   of_body (noBody <| BotInvokeMessage := invoke |> <| MessageContextInfo :=
     Some (mkContextInfo None (BotMetadata c) (Some (applyBotMessageHKDF (e_hkdf env) (default [] (MessageSecret c))))) |>)).
Definition callBot (bot : JID) (m : WaMessage) : Sending (nat * option node) :=
  let '(message, botMessage) := inlineMessages m in
  p ← run (new_message message);
  x ← marshalled bot (Some botMessage);
  y ← encryptAll [bot] (default [] x.1) None [];
  mret (p, Some (mkNode "bot" [] (VNodes y.1))).

Definition metaOf (meta : MsgMetaInfo) : node :=
  mkNode "meta" ((match DeprecatedLIDSession meta with Some b => [("deprecated_lid_session", VBool b)] | None => [] end) ++
    (if String.eqb (ThreadMessageID meta) "" then []
     else [("thread_msg_id", VString (ThreadMessageID meta)); ("thread_msg_sender_jid", VJID (ThreadMessageSenderJID meta))])) VNil.

(** Where the message goes, as whom, to which members, and the addressing mode. *)
Record Destination : Type := mkDestination { ds_to : JID; ds_own : JID; ds_members : UserDevices.Slice; ds_mode : string }.
Definition sendsToLID (to : JID) (req : SendRequestExtra) : bool :=
  String.eqb (Server to) DefaultUserServer && (LIDMigrationTimestamp (e_device env) >? 0) && negb (Peer req).
Definition lidOf (to : JID) : Sending JID :=
  toLID ← attempt SendLID (on_lids (fun m => match GetLIDForPN to m with (Some e, _, m) => (inl e, m) | (None, lid, m) => (inr lid, m) end));
  if negb (Jid.IsEmpty toLID) then mret toLID
  else
    info ← (fun s =>
      match GetUserInfo (e_unmarshalCert env) (e_certDetails env) (e_unmarshalDetails env) (e_GetVerifiedName env) (e_grow env) (e_dedup_pairs env)
              (e_sendIQ env) (e_dialect env) (Some (e_device env)) (e_sid env) [to] (sd_query s) with
      | Panic e => Panic e
      | Ret (inl e, _, q) => Ret (inl (SendUserInfo e), s <| sd_query := q |>)
      | Ret (inr info, _, q) => Ret (inr info, s <| sd_query := q |>)
      end);
    let toLID := default EmptyJID (ui_LID <$> info !! to) in
    if Jid.IsEmpty toLID then fail (ErrNoLID to) else mret toLID.
Definition destination (to : JID) (req : SendRequestExtra) : Sending Destination :=
  if String.eqb (Server to) GroupServer then
    cachedData ← attempt SendMembers (on_query (getCachedGroupData (e_XMLString env) (e_sendIQ env) (e_dedup_pairs env) (e_dedup env) (e_dialect env) to));
    match cachedData with
    | None => lift (Panic nil_dereference)
    | Some cachedData =>
        mret (if String.eqb (gm_AddressingMode cachedData) AddressingModeLID then mkDestination to getOwnLID (Members cachedData) AddressingModeLID
              else if CommunityAnnouncementGroup cachedData && present (Meta req) then mkDestination to getOwnLID (Members cachedData) AddressingModePN
              else mkDestination to getOwnID (Members cachedData) "")
    end
  else if String.eqb (Server to) BroadcastServer then
    readers ← (fun s =>
      match getBroadcastListParticipants (e_XMLString env) (e_sendIQ env) (e_contact_order env) getOwnID to (sd_query s) with
      | Panic e => Panic e
      | Ret (inl e, q) => Ret (inl (SendMembers e), s <| sd_query := q |>)
      | Ret (inr l, q) => let '(m, h) := slice_of l (q_arrays q) in Ret (inr m, s <| sd_query := q <| q_arrays := h |> |>)
      end);
    mret (mkDestination to getOwnID readers "")
  else if String.eqb (Server to) HiddenUserServer then mret (mkDestination to getOwnLID nil_slice "")
  else if sendsToLID to req then toLID ← lidOf to; mret (mkDestination toLID getOwnLID nil_slice "")
  else mret (mkDestination to getOwnID nil_slice "").

(** What is known before the lock is taken. *)
Record Ready : Type := mkReady { rd_dest : Destination; rd_message : nat; rd_params : nodeExtraParams }.
Definition prepare (to : JID) (req : SendRequestExtra) (p : nat) : Sending Ready :=
  let isInlineBotMode := negb (Jid.IsEmpty (InlineBotJID req)) in
  if isInlineBotMode && negb (IsBot (InlineBotJID req)) then fail ErrInvalidInlineBotID
  else
    message ← message_at p;
    let message := completed (isInlineBotMode || IsBot to) message in
    _ ← run (fun s => ((), put_message p message s));
    x ← (if isInlineBotMode then callBot (InlineBotJID req) message else mret (p, None));
    dest ← destination to req;
    mret (mkReady dest x.1 (mkParams x.2 (metaOf <$> Meta req) (AdditionalNodes req) (ds_mode dest))).

(** Under the lock of senders, to the end of the write: the channel of the response and the hash
    of the devices. *)
Definition remembered (req : SendRequestExtra) (id : string) (rd : Ready) : Sending () :=
  if Peer req then mret ()
  else attempt SendRecent (on_retry (fun r =>
    match addRecentMessage (e_marshalWa env) (e_marshalFb env) (e_now_add env) (e_now_since env) (e_now_clear env) (ds_to (rd_dest rd)) id (Some (rd_message rd)) None r with
    | (Some e, r) => (inl e, r)
    | (None, r) => (inr (), r)
    end)).
(** An error is only logged. *)
Definition putSecret (id : string) (rd : Ready) (message : WaMessage) (s : Sender) : Sender :=
  match secret_of (body_of message) with
  | Some secret => (on_query (fun q => let '(_, db) := PutMessageSecret (ds_to (rd_dest rd)) (ds_own (rd_dest rd)) id (Some secret) (q_account q) in ((), q <| q_account := db |>)) s).2
  | None => s
  end.
Definition sendTo (req : SendRequestExtra) (id : string) (rd : Ready) (message : WaMessage) : Sending (string * node) :=
  let '(mkDestination to ownID members _) := rd_dest rd in
  if String.eqb (Server to) GroupServer || String.eqb (Server to) BroadcastServer then
    participants ← run (fun s => (elems (q_arrays (sd_query s)) members, s));
    sendGroup ownID to participants id message (rd_params rd)
  else if String.eqb (Server to) DefaultUserServer || String.eqb (Server to) BotServer || String.eqb (Server to) HiddenUserServer then
    if Peer req then data ← sendPeerMessage to id message; mret ("", data) else sendDM ownID to id message (rd_params rd)
  else if String.eqb (Server to) NewsletterServer then data ← sendNewsletter to id message (MediaHandle req); mret ("", data)
  else fail (ErrUnknownServer (Server to)).
(** The waiter goes when the message was not sent. *)
Definition or_cancel (id : string) (respChan : nat) (send : Sending (string * node)) : Sending (nat * (string * node)) := fun s =>
  match send s with
  | Panic e => Panic e
  | Ret (inr r, s) => Ret (inr (respChan, r), s)
  | Ret (inl err, s) =>
      match cancelResponse id respChan (sd_waiters s) with Panic e => Panic e | Ret w => Ret (inl err, s <| sd_waiters := w |>) end
  end.
Definition transmit (req : SendRequestExtra) (id : string) (rd : Ready) : Sending (nat * (string * node)) :=
  _ ← remembered req id rd;
  message ← message_at (rd_message rd);
  _ ← run (fun s => ((), putSecret id rd message s));
  respChan ← run (fun s => let '(ch, w) := waitResponse id (sd_waiters s) in (ch, s <| sd_waiters := w |>));
  or_cancel id respChan (sendTo req id rd message).

(** The answer, after a second attempt when the connection was lost. *)
Definition answer (id : string) (respChan : nat) (data : node) (s : Sender) : outcome ((send_error + node) * Sender) :=
  match e_await env with
  | TimedOut => w ← cancelResponse id respChan (sd_waiters s); Ret (inl ErrMessageTimedOut, s <| sd_waiters := w |>)
  | CtxDone => w ← cancelResponse id respChan (sd_waiters s); Ret (inl ErrSendContext, s <| sd_waiters := w |>)
  | Got respNode =>
      let w := was_taken id respNode (sd_waiters s) in
      if isDisconnectNode respNode then
        '(r, again, w) ← retryFrame "message send" id data respNode (e_reconnected env) (e_sock env) (e_second env) w;
        Ret (match r with inl f => inr (frame_node f) | inr e => inl (SendRetried e) end,
             s <| sd_waiters := w |> <| sd_sent := sd_sent s ++ again |>)
      else Ret (inr (frame_node respNode), s <| sd_waiters := w |>)
  end.
(** Other devices than the server's: the list that the client has is dropped. *)
Definition drop_lists (to : JID) (s : Sender) : Sender :=
  if String.eqb (Server to) GroupServer then s <| sd_query := (sd_query s) <| groupCache := delete to (groupCache (sd_query s)) |> |>
  else if bool_decide (Server to ∈ [DefaultUserServer; HiddenUserServer; BotServer; HostedServer; HostedLIDServer]) then s <| sd_devices := delete to (sd_devices s) |>
  else s.
Definition accept (to : JID) (phash : string) (resp : SendResponse) (respNode : node) (s : Sender) : SendResponse * option send_error * Sender :=
  let '((serverID, t, errorCode, expectedPHash), _) :=
    (i ← reads (OptionalInt "server_id"); t ← reads (UnixTime "t"); e ← reads (Int "error"); h ← reads (OptionalString "phash"); mret (i, t, e, h)) (AttrGetter respNode) in
  (resp <| sr_ServerID := serverID |> <| sr_Timestamp := t |>, if errorCode =? 0 then None else Some (ErrServerReturnedError errorCode),
   if negb (String.eqb expectedPHash "") && negb (String.eqb phash expectedPHash) then drop_lists to s else s).

Definition requestID (to : JID) (req : SendRequestExtra) (message : Body) : string :=
  let id := if String.eqb (rq_ID req) "" then e_newID env else rq_ID req in
  if String.eqb (Server to) NewsletterServer then
    if present (EditedMessage message) then key_id (edited message) else if is_revoke message then key_id (Protocol message) else id
  else id.
Definition SendMessage (to : JID) (p : nat) (extra : list SendRequestExtra) (s : Sender) : outcome (SendResponse * option send_error * Sender) :=
  if (1 <? length extra)%nat then Ret (noResponse, Some ErrManyExtras, s)
  else
    let req := default noExtra (head extra) in
    if (Jid.Device to >? 0) && negb (Peer req) then Ret (noResponse, Some ErrRecipientADJID, s)
    else if Jid.IsEmpty getOwnID then Ret (noResponse, Some ErrSendNotLoggedIn, s)
    else
      match message_at p s with
      | Panic e => Panic e
      | Ret (inl e, s) => Ret (noResponse, Some e, s)
      | Ret (inr message, s) =>
          let id := requestID to req (body_of message) in
          let resp := noResponse <| sr_ID := id |> in
          match prepare to req p s with
          | Panic e => Panic e
          | Ret (inl e, s) => Ret (resp, Some e, s)
          | Ret (inr rd, s) =>
              let resp := resp <| sr_Sender := ds_own (rd_dest rd) |> in
              match transmit req id rd s with
              | Panic e => Panic e
              | Ret (inl e, s) => Ret (resp, Some e, s)
              | Ret (inr (respChan, (phash, data)), s) =>
                  '(r, s) ← answer id respChan data s;
                  match r with
                  | inl e => Ret (resp, Some e, s)
                  | inr respNode => Ret (accept (ds_to (rd_dest rd)) phash resp respNode s)
                  end
              end
          end
      end.
Definition SendPeerMessage (p : nat) (s : Sender) : outcome (SendResponse * option send_error * Sender) :=
  let ownID := ToNonAD getOwnID in
  if Jid.IsEmpty ownID then Ret (noResponse, Some ErrSendNotLoggedIn, s) else SendMessage ownID p [noExtra <| Peer := true |>] s.
Definition send_new (to : JID) (m : WaMessage) (s : Sender) : outcome (SendResponse * option send_error * Sender) :=
  let '(p, s) := new_message m s in SendMessage to p [] s.
Definition RevokeMessage (chat : JID) (id : string) (s : Sender) : outcome (SendResponse * option send_error * Sender) :=
  send_new chat (BuildRevoke getOwnID getOwnLID chat EmptyJID id) s.
(** [now] is for a setting without a time. *)
Definition SetDisappearingTimer (now : Time) (chat : JID) (timer : Duration) (settingTS : Time) (s : Sender) : outcome (option send_error * Sender) :=
  if String.eqb (Server chat) DefaultUserServer || String.eqb (Server chat) HiddenUserServer then
    let settingTS := if IsZero settingTS then now else settingTS in
    '(_, e, s) ← send_new chat (with_protocol (mkProtocol ProtocolMessage_EPHEMERAL_SETTING None None None 0 (uint32 (to_int (Seconds timer))) (toUnix settingTS))) s;
    Ret (e, s)
  else if String.eqb (Server chat) GroupServer then
    let content := if timer =? 0 then plain "not_ephemeral" else mkNode "ephemeral" [("expiration", VString (fmt_d (to_int (Seconds timer))))] VNil in
    let cases := if timer =? 0 then [] else [(ErrIQBadRequest, "invalid disappearing timer provided")] in
    Ret (match ask (e_XMLString env) (e_sendIQ env) (groupQuery iqSet chat content) cases with inl e => Some (SendQuery e) | inr _ => None end, s)
  else Ret (Some (ErrTimerServer (Server chat)), s).
End Send.
