(* ===== verification/SendTheorems.v ===== *)
(** * Theorems about [SendMessage]

    What leaves the client, what is kept of it, and what the devices read. *)
From S2P Require Import Prelude GoStrings GoTime GoFloat Jid BinaryNode NodeAttrs Requests LidMap PreKeys SqlDB SqlText SignalStore Decrypt Contacts AccountStore MessageSource MsgSecret Retry DeviceStore UserDevices TcTokens MessageKinds ReportingToken Encrypt GroupParse Groups UserQueries Privacy Send.

(** ** Steps that write nothing

    The messages that are kept, the waiters and what was written stay as they are. *)
Create HintDb quiet discriminated.

Section Quiet.
Context {Session Fb Certificate Details : Type} (env : Env Session Fb Certificate Details).
Notation Sender := (@Sender Fb).
Notation Sending := (@Sending Fb).

Record quiet (s s' : Sender) : Prop := mkQuiet {
  q_retry : sd_retry s' = sd_retry s; q_waiters : sd_waiters s' = sd_waiters s; q_sent : sd_sent s' = sd_sent s }.
#[export] Instance quiet_refl : Reflexive quiet.
Proof. intros s. by split. Qed.
#[export] Instance quiet_trans : Transitive quiet.
Proof. intros s1 s2 s3 [] []. split; congruence. Qed.

Definition Quiet {A} (m : Sending A) : Prop := forall s r s', m s = Ret (r, s') -> quiet s s'.
Lemma quiet_ret {A} (a : A) : Quiet (mret a).
Proof. by intros s r s' [= _ <-]. Qed.
Lemma quiet_fail {A} e : Quiet (@fail Fb A e).
Proof. by intros s r s' [= _ <-]. Qed.
Lemma quiet_bind {A B} (m : Sending A) (f : A -> Sending B) : Quiet m -> (forall a, Quiet (f a)) -> Quiet (m ≫= f).
Proof.
  intros Hm Hf s r s'. unfold mbind, Sending_bind. destruct (m s) as [[[e|a] s1]|] eqn:H1; [| |done].
  - intros [= _ <-]. by eapply Hm.
  - intros H2. etrans; [by eapply Hm|by eapply Hf].
Qed.
Lemma quiet_lift {A} (o : outcome A) : Quiet (lift (Fb := Fb) o).
Proof. intros s r s'. unfold lift. destruct o; [|done]. by intros [= _ <-]. Qed.
(** A part of the state that is worked on. *)
Definition still {A} (f : Sender -> A * Sender) : Prop := forall s, quiet s (f s).2.
Lemma quiet_attempt {A E} (wrap : E -> send_error) (f : Sender -> (E + A) * Sender) : still f -> Quiet (attempt wrap f).
Proof. intros Hf s r s'. unfold attempt. specialize (Hf s). destruct (f s) as [[e|a] s1]; by intros [= _ <-]. Qed.
Lemma quiet_run {A} (f : Sender -> A * Sender) : still f -> Quiet (run f).
Proof. intros Hf s r s'. unfold run. specialize (Hf s). destruct (f s) as [a s1]. by intros [= _ <-]. Qed.
Lemma still_query {A} (f : QueryState -> A * QueryState) : still (on_query (Fb := Fb) f).
Proof. intros s. unfold on_query. by destruct (f (sd_query s)). Qed.
Lemma still_lids {A} (f : CachedLIDMap -> A * CachedLIDMap) : still (on_lids (Fb := Fb) f).
Proof. apply still_query. Qed.
Lemma still_devices {A} (f : UserDevices -> A * UserDevices) : still (on_devices (Fb := Fb) f).
Proof. intros s. unfold on_devices. by destruct (f _). Qed.
Lemma still_tokens {A} (f : Tokens -> A * Tokens) : still (on_tokens (Fb := Fb) f).
Proof. intros s. unfold on_tokens. by destruct (f _). Qed.
Lemma still_signal {A} (f : Dec SignalDB A) : still (on_signal (Fb := Fb) f).
Proof. intros s. unfold on_signal. by destruct (f _). Qed.
Lemma quiet_marshal what b : Quiet (marshal (Fb := Fb) what b).
Proof. destruct b; [apply quiet_ret|apply quiet_fail]. Qed.
Lemma quiet_marshalled to m : Quiet (marshalled env to m).
Proof. intros s r s'. unfold marshalled. destruct (marshalMessage env to m); [|done]. by intros [= _ <-]. Qed.
Lemma quiet_encryptAll devices p dsm attrs : Quiet (encryptAll env devices p dsm attrs).
Proof.
  intros s r s'. unfold encryptAll. destruct (encryptMessageForDevices _ _ _ _ _ _ _ _ _ _ _ _ _ _ _ _ _ _ _ _ _) as [[[r' m] db]|]; [|done].
  by intros [= _ <-].
Qed.
Lemma quiet_encryptPeer p to : Quiet (encryptPeer env p to).
Proof. intros s r s'. unfold encryptPeer. destruct (encryptMessageForDevice _ _ _ _ _ _ _ _ _ _ _ _). by intros [= _ <-]. Qed.
Lemma quiet_if {A} (b : bool) (m1 m2 : Sending A) : Quiet m1 -> Quiet m2 -> Quiet (if b then m1 else m2).
Proof. by destruct b. Qed.
End Quiet.
#[export] Hint Resolve quiet_ret quiet_fail quiet_bind quiet_lift quiet_attempt quiet_run still_query still_lids still_devices still_tokens still_signal
  quiet_marshal quiet_marshalled quiet_encryptAll quiet_encryptPeer quiet_if : quiet.
(** What follows a pair that was returned. *)
#[export] Hint Extern 2 (Quiet (let '(_, _) := ?x in _)) => destruct x : quiet.
#[export] Hint Extern 2 (Quiet (match ?x with _ => _ end)) => destruct x : quiet.

Section Writes.
Context {Session Fb Certificate Details : Type} (env : Env Session Fb Certificate Details).
Notation Sender := (@Sender Fb).
Notation Sending := (@Sending Fb).

Lemma quiet_prepareNode to id m participants p dsm extra : Quiet (prepareMessageNode env to id m participants p dsm extra).
Proof. unfold prepareMessageNode, devicesOf. eauto 20 with quiet. Qed.
Lemma quiet_preparePeer to id m : Quiet (preparePeerMessageNode env to id m).
Proof. unfold preparePeerMessageNode. eauto 20 with quiet. Qed.
Lemma quiet_tokenNode to : Quiet (tokenNode env to).
Proof. unfold tokenNode. eauto 20 with quiet. Qed.
Lemma quiet_lidOf to : Quiet (lidOf env to).
Proof.
  unfold lidOf. apply quiet_bind; [eauto with quiet|]. intros lid. apply quiet_if; [eauto with quiet|]. apply quiet_bind; [|eauto with quiet].
  intros s r s'. destruct (GetUserInfo _ _ _ _ _ _ _ _ _ _ _ _) as [[[[e|info] evts] q]|]; [| |done]; by intros [= _ <-].
Qed.
Lemma quiet_destination to req : Quiet (destination env to req).
Proof.
  unfold destination. apply quiet_if; [eauto 20 with quiet|]. apply quiet_if; [|apply quiet_if; [eauto with quiet|apply quiet_if; [|eauto with quiet]]].
  - apply quiet_bind; [|eauto with quiet]. intros s r s'. destruct (getBroadcastListParticipants _ _ _ _ _ _) as [[[e|l] q]|]; [| |done]; [by intros [= _ <-]|].
    destruct (slice_of l (q_arrays q)). by intros [= _ <-].
  - apply quiet_bind; [apply quiet_lidOf|eauto with quiet].
Qed.

(** ** One node

    A step that writes one node under an identifier and to an address, and nothing when it fails. *)
Definition addressed (id : string) (to : JID) (n : node) : Prop :=
  Tag n = "message" /\ attr (Attrs n) "id" = Some (VString id) /\ attr (Attrs n) "to" = Some (VJID to).
Record wrote (id : string) (to : JID) (n : node) (s s' : Sender) : Prop := mkWrote {
  w_retry : sd_retry s' = sd_retry s; w_waiters : sd_waiters s' = sd_waiters s;
  w_sent : sd_sent s' = sd_sent s ++ [n];
  w_addressed : addressed id to n }.
(** [data] is the node in the result. *)
Definition Writes {A} (data : A -> node) (id : string) (to : JID) (m : Sending A) : Prop := forall s r s', m s = Ret (r, s') ->
  match r with inl _ => quiet s s' | inr a => wrote id to (data a) s s' end.
(** What comes after the write. *)
Definition Passes {A B} (data : A -> node) (data' : B -> node) (m : A -> Sending B) : Prop := forall a s r s', m a s = Ret (r, s') ->
  quiet s s' /\ exists b, r = inr b /\ data' b = data a.
(** A step that writes nothing and whose result is known. *)
Definition Gives {A} (P : A -> Prop) (m : Sending A) : Prop := forall s r s', m s = Ret (r, s') ->
  quiet s s' /\ match r with inl _ => True | inr a => P a end.
Definition Sure {A} (m : Sending A) : Prop := forall s r s', m s = Ret (r, s') -> quiet s s' /\ is_Some (match r with inl _ => None | inr a => Some a end).

Lemma quiet_wrote id to n s s' s'' : quiet s s' -> wrote id to n s' s'' -> wrote id to n s s''.
Proof. intros [Hr Hw Hs] [Hr' Hw' Hn Ha]. split; [congruence..| |done]. by rewrite Hn, Hs. Qed.
Lemma wrote_quiet id to n s s' s'' : wrote id to n s s' -> quiet s' s'' -> wrote id to n s s''.
Proof. intros [Hr Hw Hn Ha] [Hr' Hw' Hs']. split; [congruence..| |done]. by rewrite Hs', Hn. Qed.
Lemma writes_bind {A B} (data : B -> node) id to (m : Sending A) (f : A -> Sending B) : Quiet m -> (forall a, Writes data id to (f a)) -> Writes data id to (m ≫= f).
Proof.
  intros Hm Hf s r s'. unfold mbind, Sending_bind. destruct (m s) as [[[e|a] s1]|] eqn:H1; [| |done]; apply Hm in H1.
  - by intros [= <- <-].
  - intros H2. apply Hf in H2. destruct r; [by etrans|by eapply quiet_wrote].
Qed.
Lemma writes_known {A B} (data : B -> node) id to (P : A -> Prop) (m : Sending A) (f : A -> Sending B) :
  Gives P m -> (forall a, P a -> Writes data id to (f a)) -> Writes data id to (m ≫= f).
Proof.
  intros Hm Hf s r s'. unfold mbind, Sending_bind. destruct (m s) as [[[e|a] s1]|] eqn:H1; [| |done]; apply Hm in H1 as [Hq Ha].
  - by intros [= <- <-].
  - intros H2. apply (Hf a Ha) in H2. destruct r; [by etrans|by eapply quiet_wrote].
Qed.
Lemma writes_then {A B} (data : A -> node) (data' : B -> node) id to (m : Sending A) (f : A -> Sending B) :
  Writes data id to m -> Passes data data' f -> Writes data' id to (m ≫= f).
Proof.
  intros Hm Hf s r s'. unfold mbind, Sending_bind. destruct (m s) as [[[e|a] s1]|] eqn:H1; [| |done]; apply Hm in H1.
  - by intros [= <- <-].
  - intros (Hq & b & -> & Hb)%Hf. rewrite Hb. by eapply wrote_quiet.
Qed.
Lemma passes_ret {A B} (data : A -> node) (data' : B -> node) (f : A -> B) :
  (forall a, data' (f a) = data a) -> Passes data data' (fun a => mret (f a)).
Proof. intros Hf a s r s' [= <- <-]. split; [done|]. by exists (f a). Qed.
Lemma passes_sure {A B C} (data : A -> node) (data' : C -> node) (m : Sending B) (f : A -> C) :
  Sure m -> (forall a, data' (f a) = data a) -> Passes data data' (fun a => m ≫= fun _ => mret (f a)).
Proof.
  intros Hm Hf a s r s'. unfold mbind, Sending_bind. destruct (m s) as [[[e|b] s1]|] eqn:H1; [| |done]; apply Hm in H1 as [Hq Hb]; [by destruct Hb|].
  intros [= <- <-]. split; [done|]. by exists (f a).
Qed.
Lemma sure_ret {A} (a : A) : Sure (mret a).
Proof. intros s r s' [= <- <-]. by split. Qed.
Lemma gives_bind {A B} (P : B -> Prop) (m : Sending A) (f : A -> Sending B) : Quiet m -> (forall a, Gives P (f a)) -> Gives P (m ≫= f).
Proof.
  intros Hm Hf s r s'. unfold mbind, Sending_bind. destruct (m s) as [[[e|a] s1]|] eqn:H1; [| |done]; apply Hm in H1.
  - by intros [= <- <-].
  - intros [Hq Hr]%Hf. split; [by etrans|done].
Qed.
Lemma gives_ret {A} (P : A -> Prop) a : P a -> Gives P (mret (M := Sending) a).
Proof. intros H s r s' [= <- <-]. by split. Qed.

Lemma writes_send id to n : addressed id to n -> Writes (fun data => data) id to (sendNodeAndGetData env n).
Proof. intros Hn s r s'. unfold sendNodeAndGetData. destruct (e_send env n); by intros [= <- <-]. Qed.
Lemma prepareNode_addressed to id m participants p dsm extra :
  Gives (fun x => addressed id to x.1) (prepareMessageNode env to id m participants p dsm extra).
Proof.
  unfold prepareMessageNode. repeat (apply gives_bind; [unfold devicesOf; eauto with quiet|intros ?]).
  by apply gives_ret.
Qed.
Lemma peer_addressed to id m : Gives (addressed id to) (preparePeerMessageNode env to id m).
Proof.
  unfold preparePeerMessageNode. do 3 (apply gives_bind; [eauto 10 with quiet|intros ?]). destruct a1 as [encrypted isPreKey].
  apply gives_bind; [eauto with quiet|intros ?]. by apply gives_ret.
Qed.
Lemma addressed_child id to n c : addressed id to n -> addressed id to (with_child n c).
Proof. by intros (H1 & H2 & H3). Qed.
Lemma addressed_children id to l : forall n, addressed id to n -> addressed id to (foldl with_child n l).
Proof. induction l as [|c l IH]; intros n Hn; [done|]. apply IH. by apply addressed_child. Qed.
Lemma with_reporting_node p m own to id n n' : with_reporting env p m own to id n = Ret n' -> n' = n \/ exists t, n' = with_child n t.
Proof.
  unfold with_reporting. destruct (_ && _); [|by intros [= <-]; left].
  destruct (getMessageReportingToken _ _ _ _ _ _ _ _ _) as [[t|]|]; try done. intros [= <-]. right. by exists t.
Qed.
Lemma reporting_addressed p m own to' id' id to n : addressed id to n -> Gives (addressed id to) (lift (with_reporting env p m own to' id' n)).
Proof.
  intros Hn s r s'. unfold lift. destruct (with_reporting _ _ _ _ _ _ _) as [n'|] eqn:Hw; [|done]. apply with_reporting_node in Hw.
  intros [= <- <-]. split; [done|]. destruct Hw as [->|[t ->]]; [done|by apply addressed_child].
Qed.
Lemma attr_app l l' k v : attr l k = Some v -> attr (l ++ l') k = Some v.
Proof. induction l as [|[k1 v1] l IH]; cbn; [done|]. case_match; auto. Qed.

Lemma sure_issue to : Sure (issueToken env to).
Proof.
  intros s r s'. unfold issueToken. pose proof (still_tokens (resolveTCTokenStorageLID to) s) as Hq. destruct (on_tokens _ s) as [j s1]. cbn [snd] in Hq.
  case_match; intros [= <- <-]; (split; [|done]); by destruct Hq.
Qed.
Lemma writes_group own to participants id m extra : Writes snd id to (sendGroup env own to participants id m extra).
Proof.
  unfold sendGroup. do 4 (apply writes_bind; [eauto with quiet|intros ?]).
  eapply writes_known; [apply prepareNode_addressed|]. intros [n devices] Hn. cbn [fst] in Hn.
  apply writes_bind; [eauto with quiet|intros media]. destruct Hn as (H1 & H2 & H3).
  eapply writes_known; [apply reporting_addressed; repeat split; [done|by apply attr_app..]|]. intros n' Hn'.
  by eapply writes_then; [by apply writes_send|apply passes_ret].
Qed.
Lemma writes_peer to id m : Writes (fun data => data) id to (sendPeerMessage env to id m).
Proof. unfold sendPeerMessage. eapply writes_known; [apply peer_addressed|]. intros. by apply writes_send. Qed.
Lemma writes_dm own to id m extra : Writes snd id to (sendDM env own to id m extra).
Proof.
  unfold sendDM. apply writes_bind; [eauto with quiet|intros x].
  eapply writes_known; [apply prepareNode_addressed|]. intros [n devices] Hn.
  eapply writes_known; [by apply reporting_addressed|]. intros n' Hn'.
  apply writes_bind; [apply quiet_tokenNode|intros tokens].
  by eapply writes_then; [by apply writes_send, addressed_children|apply passes_sure; [apply sure_issue|]].
Qed.
Lemma writes_newsletter to id m media : Writes (fun data => data) id to (sendNewsletter env to id m media).
Proof.
  unfold sendNewsletter. apply writes_bind; [eauto with quiet|intros ty]. destruct (if present _ then _ else _) as [edit sent].
  apply writes_bind; [eauto with quiet|intros x]. apply writes_bind; [destruct sent; eauto with quiet|intros mt]. by apply writes_send.
Qed.
Lemma writes_sendTo req id rd m : Writes snd id (ds_to (rd_dest rd)) (sendTo env req id rd m).
Proof.
  unfold sendTo. destruct (rd_dest rd) as [to own members mode]. cbn [ds_to].
  destruct (_ || _).
  - apply writes_bind; [|intros; apply writes_group]. apply quiet_run. by intros s.
  - destruct (_ || _); [destruct (Peer req)|].
    + by eapply writes_then; [apply writes_peer|apply passes_ret].
    + apply writes_dm.
    + destruct (String.eqb _ _).
      * by eapply writes_then; [apply writes_newsletter|apply passes_ret].
      * intros s r s' [= <- <-]. done.
Qed.
End Writes.

(** ** The whole call *)

Section Recent.
Context {Fb : Type} (marshalWa : WaMessage -> option Bytes) (marshalFb : Fb -> option Bytes).

Lemma buffer_exec_kept f (s : @RetryState Body Fb) :
  heap (buffer_exec f s).2 = heap s /\ recentMessagesMap (buffer_exec f s).2 = recentMessagesMap s.
Proof. unfold buffer_exec. by repeat case_match. Qed.
Lemma remember_heap key msg (s : @RetryState Body Fb) : heap (remember key msg s) = heap s.
Proof. unfold remember. by repeat case_match. Qed.
Lemma recent_added a b c to id wa fb (s : @RetryState Body Fb) :
  let r := addRecentMessage marshalWa marshalFb a b c to id wa fb s in
  heap r.2 = heap s /\ (r.1 = None -> recentMessagesMap r.2 !! (to, id) = Some (mkRecent wa fb)).
Proof.
  unfold addRecentMessage. destruct (if UseRetryMessageStore s then _ else _) as [err s1] eqn:H1.
  assert (heap s1 = heap s) as Hh.
  { destruct (UseRetryMessageStore s); [|by injection H1 as _ <-].
    destruct (match wa with Some _ => _ | None => _ end) as [e|[[format buf]|]]; [by injection H1 as _ <-| |by injection H1 as _ <-].
    pose proof (buffer_exec_kept) as Hk. revert H1. unfold AddOutgoingEvent, DeleteOldOutgoingEvents.
    destruct (buffer_exec _ s) as [[|] s2] eqn:H2; (match type of H2 with ?x = _ => assert (heap x.2 = heap s) as Hs2 by apply Hk; rewrite H2 in Hs2 end); cbn [snd] in Hs2.
    - destruct (_ >? _); [|by intros [= _ <-]]. destruct (buffer_exec _ s2) as [[|] s3] eqn:H3;
        (match type of H3 with ?x = _ => assert (heap x.2 = heap s2) as Hs3 by apply Hk; rewrite H3 in Hs3 end); cbn [snd] in Hs3;
        intros [= _ <-]; congruence.
    - by intros [= _ <-]. }
  destruct err as [e|]; cbn [fst snd]; [done|]. split; [by rewrite remember_heap|]. intros _. rewrite remember_map. apply lookup_insert_eq.
Qed.
End Recent.

Section Whole.
Context {Session Fb Certificate Details : Type} (env : Env Session Fb Certificate Details).
Notation Sender := (@Sender Fb).
Notation Sending := (@Sending Fb).

(** The messages that are held may change before the lock is taken, the rest does not. *)
Record unsent (s s' : Sender) : Prop := mkUnsent {
  u_waiters : sd_waiters s' = sd_waiters s; u_sent : sd_sent s' = sd_sent s;
  u_heap : (length (heap (sd_retry s)) <= length (heap (sd_retry s')))%nat }.
#[export] Instance unsent_refl : Reflexive unsent.
Proof. intros s. by split. Qed.
#[export] Instance unsent_trans : Transitive unsent.
Proof. intros s1 s2 s3 [] []. split; [congruence..|lia]. Qed.
Lemma quiet_unsent s s' : quiet s s' -> unsent s s'.
Proof. intros [Hr Hw Hs]. split; [done..|by rewrite Hr]. Qed.
Definition Unsent {A} (P : A -> Sender -> Prop) (m : Sending A) : Prop := forall s r s', m s = Ret (r, s') ->
  unsent s s' /\ match r with inl _ => True | inr a => P a s' end.

Lemma destination_to to req : Gives (fun d => ds_to d = to \/ sendsToLID env to req = true) (destination env to req).
Proof.
  intros s r s' H. split; [by eapply quiet_destination|]. destruct r as [e|d]; [done|]. revert H. unfold destination.
  destruct (sendsToLID env to req); [by right|]. intros H. left. revert H.
  repeat (match goal with |- context [if ?b then _ else _] => destruct b end); unfold mbind, Sending_bind;
    repeat (case_match; try done); intros [= <- <-] || (intros H'; revert H'); by repeat case_match.
Qed.
Lemma callBot_message bot m s r s' : callBot env bot m s = Ret (r, s') ->
  unsent s s' /\ match r with inl _ => True | inr x => is_Some (heap (sd_retry s') !! x.1) end.
Proof.
  unfold callBot. destruct (inlineMessages env m) as [message botMessage]. set (s1 := (new_message message s).2). intros H.
  assert (unsent s s1) as Hu by (split; [done..|cbn; rewrite length_app; lia]).
  set (p := (new_message message s).1). assert (heap (sd_retry s1) !! p = Some message) as Hp by (cbn; by rewrite list_lookup_middle).
  assert (Gives (fun x => x.1 = p) (x ← marshalled env bot (Some botMessage); y ← encryptAll env [bot] (default [] x.1) None [];
            mret (p, Some (mkNode "bot" [] (VNodes y.1))))) as Hg.
  { apply gives_bind; [eauto with quiet|intros ?]. apply gives_bind; [eauto with quiet|intros ?]. by apply gives_ret. }
  apply (Hg s1) in H as [Hq Hr]. split; [by etrans; [|apply quiet_unsent]|]. destruct r as [e|x]; [done|]. rewrite Hr, (q_retry _ _ Hq). by eexists.
Qed.

Lemma unsent_bind {A B} (P : A -> Sender -> Prop) (Q : B -> Sender -> Prop) (m : Sending A) (f : A -> Sending B) :
  Unsent P m -> (forall a s s' r, P a s -> f a s = Ret (r, s') -> unsent s s' /\ match r with inl _ => True | inr b => Q b s' end) -> Unsent Q (m ≫= f).
Proof.
  intros Hm Hf s r s'. unfold mbind, Sending_bind. destruct (m s) as [[[e|a] s1]|] eqn:H1; [| |done]; apply Hm in H1 as [Hu Ha].
  - by intros [= <- <-].
  - intros H2. destruct (Hf a s1 s' r Ha H2) as [Hu' Hr]. split; [by etrans|done].
Qed.
Definition ready (to : JID) (req : SendRequestExtra) (rd : Ready) (s : Sender) : Prop :=
  (ds_to (rd_dest rd) = to \/ sendsToLID env to req = true) /\ is_Some (heap (sd_retry s) !! rd_message rd).
Lemma put_unsent p m s : unsent s (put_message p m s).
Proof. split; [done..|]. cbn. by rewrite length_insert. Qed.
Lemma prepare_ready to req p : Unsent (ready to req) (prepare env to req p).
Proof.
  intros s r s' H. revert H. unfold prepare. destruct (_ && _); [by intros [= <- <-]|]. intros H. revert s r s' H. apply (unsent_bind (fun _ s => is_Some (heap (sd_retry s) !! p))).
  { intros s r s'. unfold message_at. destruct (heap (sd_retry s) !! p) eqn:Hp; [|done]. intros [= <- <-]. split; [done|by eexists]. }
  intros message s s' r Hp H. revert H. unfold mbind, Sending_bind. cbn [run]. set (message' := completed env _ _). set (s1 := put_message p message' s).
  assert (unsent s s1) as Hu1 by apply put_unsent.
  assert (is_Some (heap (sd_retry s1) !! p)) as Hp1.
  { cbn. apply lookup_lt_is_Some. rewrite length_insert. by apply lookup_lt_is_Some. }
  intros H. assert (exists x s2, unsent s1 s2 /\ match x with inl e => r = inl e /\ s' = s2 | inr x => is_Some (heap (sd_retry s2) !! x.1) /\
     (dest ← destination env to req; mret (mkReady dest x.1 (mkParams x.2 (metaOf <$> Meta req) (AdditionalNodes req) (ds_mode dest)))) s2 = Ret (r, s') end) as Hx.
  { unfold run in H. destruct (negb (Jid.IsEmpty (InlineBotJID req))).
    - destruct (callBot env (InlineBotJID req) message' s1) as [[[e|x] s2]|] eqn:Hc; [| |done].
      + apply callBot_message in Hc as [Hu _]. injection H as <- <-. by exists (inl e), s2.
      + apply callBot_message in Hc as [Hu Hx]. by exists (inr x), s2.
    - exists (inr (p, None)), s1. by split. }
  destruct Hx as (x & s2 & Hu2 & Hx). destruct x as [e|x].
  - destruct Hx as [-> ->]. split; [by etrans|done].
  - destruct Hx as [Hx H']. revert H'. unfold mbind, Sending_bind. destruct (destination env to req s2) as [[[e|d] s3]|] eqn:Hd; [| |done];
      apply destination_to in Hd as [Hq Hd]; apply quiet_unsent in Hq as Hq'; intros [= <- <-]; (split; [by do 2 (etrans; [eassumption|])|]); [done|].
    split; [done|]. cbn. by rewrite (q_retry _ _ Hq).
Qed.

(** A message that the client keeps for the retries. *)
Definition kept (to : JID) (id : string) (s : Sender) : Prop :=
  exists q m, recentMessagesMap (sd_retry s) !! (to, id) = Some (mkRecent (Some q) None) /\ heap (sd_retry s) !! q = Some m.
Lemma remembered_kept req id rd s r s' : remembered env req id rd s = Ret (r, s') ->
  sd_sent s' = sd_sent s /\ sd_waiters s' = sd_waiters s /\ heap (sd_retry s') = heap (sd_retry s) /\
  (Peer req = false -> r = inr () -> recentMessagesMap (sd_retry s') !! (ds_to (rd_dest rd), id) = Some (mkRecent (Some (rd_message rd)) None)).
Proof.
  unfold remembered. destruct (Peer req); [by intros [= <- <-]|]. unfold attempt, on_retry.
  set (rs := (sd_retry s) <| LIDs := q_lids (sd_query s) |>).
  destruct (recent_added (e_marshalWa env) (e_marshalFb env) (e_now_add env) (e_now_since env) (e_now_clear env) (ds_to (rd_dest rd)) id (Some (rd_message rd)) None rs) as [Hh Hm].
  destruct (addRecentMessage _ _ _ _ _ _ _ _ _ _) as [[e|] r1]; cbn [fst snd] in *; intros [= <- <-]; (repeat split; [done|]); [done|].
  intros _ _. by apply Hm.
Qed.
Lemma putSecret_quiet id rd m (s : Sender) : quiet s (putSecret id rd m s).
Proof. unfold putSecret. destruct (secret_of (body_of m)); [|done]. apply still_query. Qed.

Record transmitted (req : SendRequestExtra) (id : string) (to : JID) (n : node) (s s' : Sender) : Prop := mkTransmitted {
  tr_sent : sd_sent s' = sd_sent s ++ [n];
  tr_addressed : addressed id to n;
  tr_waiters : exists ch, responseWaiters (sd_waiters s') = <[id := ch]> (responseWaiters (sd_waiters s));
  tr_kept : Peer req = false -> kept to id s' }.
Lemma cancel_waiters id ch w w' : cancelResponse id ch w = Ret w' -> responseWaiters w' = delete id (responseWaiters w).
Proof. unfold cancelResponse. destruct (close ch (chans w)); [|done]. by intros [= <-]. Qed.
Lemma transmit_spec req id rd s r s' : is_Some (heap (sd_retry s) !! rd_message rd) -> responseWaiters (sd_waiters s) !! id = None ->
  transmit env req id rd s = Ret (r, s') ->
  match r with
  | inl _ => sd_sent s' = sd_sent s /\ responseWaiters (sd_waiters s') = responseWaiters (sd_waiters s)
  | inr (_, (_, data)) => transmitted req id (ds_to (rd_dest rd)) data s s'
  end.
Proof.
  intros [m Hm] Hid. unfold transmit, mbind, Sending_bind.
  destruct (remembered env req id rd s) as [[[e|[]] s1]|] eqn:H1; [| |done]; apply remembered_kept in H1 as (Hs1 & Hw1 & Hh1 & Hk1); [by intros [= <- <-]; rewrite Hw1|].
  unfold message_at, WaMessage. rewrite Hh1. unfold WaMessage in *. rewrite Hm. cbn [run]. unfold run. pose proof (putSecret_quiet id rd m s1) as [Hr2 Hw2 Hs2]. set (s2 := putSecret id rd m s1) in *.
  destruct (waitResponse id (sd_waiters s2)) as [ch w] eqn:Hwait. assert (responseWaiters w = <[id := ch]> (responseWaiters (sd_waiters s2))) as Hw by by injection Hwait as <- <-.
  unfold or_cancel. set (s3 := s2 <| sd_waiters := w |>).
  destruct (sendTo env req id rd m s3) as [[[e|[phash data]] s4]|] eqn:H4; [| |done]; apply writes_sendTo in H4; cbn beta iota in H4.
  - destruct H4 as [Hr4 Hw4 Hs4]. destruct (cancelResponse id ch (sd_waiters s4)) as [w'|] eqn:Hc; [|done]. intros [= <- <-]. cbn.
    apply cancel_waiters in Hc. rewrite Hc, Hw4. cbn. rewrite Hw, delete_insert_eq, Hw2, Hw1, Hs4. cbn. by rewrite Hs2, delete_id.
  - destruct H4 as [Hr4 Hw4 Hs4 Hn]. intros [= <- <-]. split; [| |by exists ch; rewrite Hw4; cbn; rewrite Hw, Hw2, Hw1|].
    + rewrite Hs4. cbn. by rewrite Hs2, Hs1.
    + exact Hn.
    + intros Hp. exists (rd_message rd), m. rewrite Hr4. cbn. rewrite Hr2, Hh1. split; [by apply Hk1|done].
Qed.
(** Whether the node is written a second time: the answer was a disconnection,
    which is no authentication error and from which the connection came back. *)
Definition sent_again : bool :=
  match e_await env with
  | Got f => isDisconnectNode f && negb (isAuthErrorDisconnect f) && e_reconnected env && match e_sock env with Some None => true | _ => false end
  | _ => false
  end.
(** The waiters of the others stay, unless a disconnection has cleared them all. *)
Definition others_kept (id : string) (m m' : gmap string nat) : Prop :=
  delete id m' = delete id m \/ delete id m' = ∅ /\ exists f, e_await env = Got f /\ isDisconnectNode f = true.
Lemma retry_spec {D} ty id (data : D) orig reconnected sock second w r again w' :
  retryFrame ty id data orig reconnected sock second w = Ret (r, again, w') -> responseWaiters w !! id = None ->
  again = (if negb (isAuthErrorDisconnect orig) && reconnected && match sock with Some None => true | _ => false end then [data] else []) /\
  (responseWaiters w' !! id = None \/ again = [data] /\ forall f, second <> Got f) /\
  (delete id (responseWaiters w') = responseWaiters w \/ delete id (responseWaiters w') = ∅).
Proof.
  unfold retryFrame. intros H Hid. revert H. pose proof (delete_id _ _ Hid) as Hd.
  destruct (isAuthErrorDisconnect orig); [by intros [= <- <- <-]; eauto|]. destruct reconnected; [|by intros [= <- <- <-]; eauto].
  destruct sock as [err|]; [|by intros [= <- <- <-]; eauto]. cbn [negb andb].
  destruct (waitResponse id w) as [ch w1] eqn:Hw. assert (responseWaiters w1 = <[id := ch]> (responseWaiters w)) as Hw1 by by injection Hw as <- <-.
  assert (delete id (<[id := ch]> (responseWaiters w)) = responseWaiters w) as Hdi by (by rewrite delete_insert_id).
  destruct err as [err|].
  - destruct (cancelResponse id ch w1) as [w2|] eqn:Hc; [|done]. apply cancel_waiters in Hc. intros [= <- <- <-].
    rewrite Hc, Hw1, Hdi. eauto.
  - destruct second as [f| |]; intros [= <- <- <-]; (split; [done|]).
    + unfold was_taken. change (responseWaiters (_ <| responseWaiters := ?x |>)) with x. rewrite Hw1.
      destruct (isDisconnectNode f); [by rewrite lookup_empty, delete_empty; eauto|]. rewrite Hdi. eauto.
    + rewrite Hw1, Hdi. split; [|by left]. right. by split.
    + rewrite Hw1, Hdi. split; [|by left]. right. by split.
Qed.
Lemma answer_spec id ch data s r s' : answer env id ch data s = Ret (r, s') ->
  sd_sent s' = sd_sent s ++ (if sent_again then [data] else []) /\ sd_retry s' = sd_retry s /\
  (responseWaiters (sd_waiters s') !! id = None \/ sent_again = true /\ forall f, e_second env <> Got f) /\
  others_kept id (responseWaiters (sd_waiters s)) (responseWaiters (sd_waiters s')).
Proof.
  unfold answer, sent_again, others_kept. destruct (e_await env) as [f| |].
  - destruct (isDisconnectNode f) eqn:Hf; cbn [andb].
    + set (w := was_taken id f (sd_waiters s)). assert (responseWaiters w = ∅) as Hw by (unfold w, was_taken; by rewrite Hf).
      destruct (retryFrame _ _ _ _ _ _ _ w) as [[[r0 again] w']|] eqn:Hr; [|done]. intros [= _ <-].
      apply retry_spec in Hr as (Ha & Hid & Ho); [|by rewrite Hw]. split; [by rewrite Ha|]. split; [done|]. cbn. split.
      * destruct Hid as [Hid|[Hagain Hsec]]; [by left|]. right. split; [|done]. rewrite Ha in Hagain. by destruct (_ && _).
      * right. split; [|by eexists]. rewrite Hw in Ho. by destruct Ho.
    + intros [= _ <-]. rewrite app_nil_r. split; [done|]. split; [done|]. cbn. unfold was_taken. rewrite Hf. cbn.
      rewrite lookup_delete_eq, delete_delete_eq. by split; left.
  - destruct (cancelResponse _ _ _) as [w|] eqn:Hc; [|done]. intros [= _ <-]. apply cancel_waiters in Hc. rewrite app_nil_r. cbn.
    rewrite Hc, lookup_delete_eq, delete_delete_eq. by repeat split; left.
  - destruct (cancelResponse _ _ _) as [w|] eqn:Hc; [|done]. intros [= _ <-]. apply cancel_waiters in Hc. rewrite app_nil_r. cbn.
    rewrite Hc, lookup_delete_eq, delete_delete_eq. by repeat split; left.
Qed.
Lemma drop_lists_kept to (s : Sender) : sd_sent (drop_lists to s) = sd_sent s /\ sd_retry (drop_lists to s) = sd_retry s /\ sd_waiters (drop_lists to s) = sd_waiters s.
Proof. unfold drop_lists. by repeat case_match. Qed.
Lemma ret_inj {A} (x y : A) : Ret x = Ret y -> x = y.
Proof. by intros [= ->]. Qed.
Lemma accept_kept to phash resp n (s : Sender) resp' e s' : accept to phash resp n s = (resp', e, s') ->
  sr_ID resp' = sr_ID resp /\ sd_sent s' = sd_sent s /\ sd_retry s' = sd_retry s /\ sd_waiters s' = sd_waiters s.
Proof.
  unfold accept. match goal with |- context [let '(_, _) := ?x in _] => destruct x as [[[[i t] code] hash] au] end. intros [= <- <- <-]. split; [done|].
  destruct (_ && _); [apply drop_lists_kept|done].
Qed.

End Whole.


(** ** Other devices than the server's *)

Section Lists.
Context {Fb : Type}.
Notation Sender := (@Sender Fb).

Lemma getParsed_attrs {A} (parse : string -> option A) bad zero key require au : au_Attrs (GetParsed parse bad zero key require au).2 = au_Attrs au.
Proof. unfold GetParsed, GetString. repeat case_match; simplify_eq/=; by try destruct require. Qed.
Lemma getUnixTime_attrs key require au : au_Attrs (GetUnixTime key require au).2 = au_Attrs au.
Proof.
  unfold GetUnixTime, GetTime. pose proof (getParsed_attrs Atoi BadInt 0 key require au) as H. fold (GetInt64 key require au) in H.
  destruct (GetInt64 key require au) as [[z []] au']; cbn in *; by rewrite H.
Qed.
(** When the answer names another set of devices than the message went to, what is cached of
    the chat is forgotten: the members of a group, or the devices of a user.
    Nothing else of the client changes, and with the same set nothing at all does.  The lists of
    the members of a group, and of the own devices, are kept. *)
Theorem stale_list_forgotten to phash resp n (s : Sender) resp' err s' :
  accept to phash resp n s = (resp', err, s') ->
  forall expected, attr (Attrs n) "phash" = Some (VString expected) ->
  (expected = "" \/ expected = phash -> s' = s) /\
  (expected <> "" -> expected <> phash ->
    (Server to = GroupServer -> s' = s <| sd_query := (sd_query s) <| groupCache := delete to (groupCache (sd_query s)) |> |>) /\
    (Server to = DefaultUserServer \/ Server to = HiddenUserServer -> s' = s <| sd_devices := delete to (sd_devices s) |>) /\
    (Server to = BroadcastServer -> s' = s)).
Proof.
  unfold accept. match goal with |- context [let '(_, _) := ?x in _] => destruct x as [[[[i t] code] hash] au] eqn:Hx end.
  intros [= <- <- <-] expected He. assert (hash = expected) as ->.
  { revert Hx. cbn. unfold value_of, reads. cbn. intros [= _ _ _ <- _]. unfold OptionalString, value_of, GetString. cbn.
    assert (au_Attrs (GetInt64 "error" true (GetUnixTime "t" true (GetInt64 "server_id" false (AttrGetter n)).2).2).2 = Attrs n) as Hn.
    { unfold GetInt64. rewrite !getParsed_attrs, getUnixTime_attrs. by rewrite getParsed_attrs. }
    by rewrite Hn, He. }
  split.
  - intros [->| ->]; [done|]. rewrite String.eqb_refl. by rewrite andb_false_r.
  - intros Hne Hph. rewrite (proj2 (String.eqb_neq _ _) Hne), (proj2 (String.eqb_neq phash expected)) by done. cbn [negb andb]. unfold drop_lists.
    split; [by intros ->|]. split; [by intros [->| ->]|by intros ->].
Qed.
End Lists.

(** ** What the devices read *)

Section Read.
Context {Session Fb Certificate Details : Type} (env : Env Session Fb Certificate Details).
Notation Sender := (@Sender Fb).

(** The parts for the devices come first. *)
Definition carries (nodes : list node) (n : node) : Prop := exists rest, Content n = VNodes (mkNode "participants" [] (VNodes nodes) :: rest).
Lemma carries_child nodes n c : carries nodes n -> carries nodes (with_child n c).
Proof. intros [rest H]. exists (rest ++ [c]). unfold with_child, GetChildren. cbn. by rewrite H. Qed.
Lemma carries_children nodes l : forall n, carries nodes n -> carries nodes (foldl with_child n l).
Proof. induction l as [|c l IH]; intros n Hn; [done|]. by apply IH, carries_child. Qed.
Lemma bind_inr {A B} (m : @Sending Fb A) (f : A -> @Sending Fb B) s b s' : (m ≫= f) s = Ret (inr b, s') ->
  exists a s1, m s = Ret (inr a, s1) /\ f a s1 = Ret (inr b, s').
Proof. unfold mbind, Sending_bind. destruct (m s) as [[[e|a] s1]|]; [done| |done]. intros H. by exists a, s1. Qed.
Lemma lift_inr {A} (o : outcome A) (s : Sender) a s' : lift o s = Ret (inr a, s') -> o = Ret a /\ s' = s.
Proof. unfold lift. destruct o; [|done]. by intros [= -> ->]. Qed.
Lemma messageContent_first baseNode m ty inc extra l : getMessageContent env baseNode m ty inc extra = Ret l -> exists rest, l = baseNode :: rest.
Proof.
  unfold getMessageContent, mbind, outcome_bind. repeat (case_match; try done); intros [= <-]; by eexists.
Qed.
Lemma prepareNode_inr to id m participants p dsm extra s n devices s' :
  String.eqb (Server to) GroupServer = false ->
  prepareMessageNode env to id m participants p dsm extra s = Ret (inr (n, devices), s') ->
  exists s1 ty media nodes inc, devicesOf env participants s = Ret (inr devices, s1) /\
    encryptAll env devices p dsm (encAttrsFor m ty media dsm) s1 = Ret (inr (nodes, inc), s') /\ carries nodes n.
Proof.
  intros Hg. unfold prepareMessageNode. rewrite Hg. intros H.
  apply bind_inr in H as (devs & s1 & Hd & H). apply bind_inr in H as (ty & s2 & [_ ->]%lift_inr & H). apply bind_inr in H as (media & s3 & [_ ->]%lift_inr & H).
  apply bind_inr in H as ([nodes inc] & s4 & He & H). apply bind_inr in H as (content & s5 & [Hc ->]%lift_inr & H).
  injection H as <- <- <-. exists s1, ty, media, nodes, inc. split; [done|]. split; [done|]. apply messageContent_first in Hc as [rest ->]. by exists rest.
Qed.

(** The copy of a message for the own devices. *)
Definition ownCopy (to : JID) (m : WaMessage) : WaMessage :=
  mkMessage None (Some (String_ to, m)) (noBody <| MessageContextInfo := MessageContextInfo (body_of m) |>).

(** C5. A direct message that was written carries one part for each device that it was encrypted for,
    in the order of the devices of the recipient and of the sender, whose hash is returned.
    With ideal sessions each device of the recipient reads the message in its part, each other
    device of the sender the copy that names the chat; the sending device has no part. *)
Theorem dm_read opens own to id m extra (s : Sender) phash n s' plaintext dsm :
  ideal_cipher (e_CipherEncrypt env) opens ->
  String.eqb (Server to) GroupServer || String.eqb (Server to) NewsletterServer = false ->
  e_marshalWa env m = Some plaintext -> e_marshalWa env (ownCopy to m) = Some dsm ->
  sendDM env own to id m extra s = Ret (inr (phash, n), s') ->
  exists nodes devices lidMappings sent, sd_sent s' = sd_sent s ++ [n] /\ carries nodes n /\
    (on_devices (GetUserDevices (e_grow env) (e_sha256 env) (e_sendIQ env) (e_sid env) [to; ToNonAD own]) s).1 = inr devices /\
    phash = participantListHashV2 (e_sha256 env) devices /\
    sublist sent devices /\ getOwnID env ∉ sent /\ getOwnLID env ∉ sent /\
    Forall2 (fun jid part => readable opens lidMappings jid
      (if String.eqb (User jid) (User (getOwnID env)) || String.eqb (User jid) (User (getOwnLID env)) then dsm else plaintext) part) sent nodes.
Proof.
  intros Hideal Hserver Hm Hc H. unfold sendDM in H.
  assert (exists nodes devices s3 s5 ty media inc n1 tokens, devicesOf env [to; ToNonAD own] s = Ret (inr devices, s3) /\
    encryptAll env devices plaintext (Some dsm) (encAttrsFor (body_of m) ty media (Some dsm)) s3 = Ret (inr (nodes, inc), s5) /\ carries nodes n1 /\
    phash = participantListHashV2 (e_sha256 env) devices /\ n = foldl with_child n1 tokens /\ sd_sent s' = sd_sent s ++ [n])
    as (nodes & devices & s3 & s5 & ty & media & inc & n1 & tokens & Hd & He & Hcar & Hph & -> & Hs').
  { apply bind_inr in H as (x & s1 & Hx & H). unfold marshalled, marshalMessage in Hx. rewrite Hm, Hserver in Hx.
    unfold ownCopy in Hc. rewrite Hc in Hx. injection Hx as <- <-. cbn [default fst snd] in H.
    apply bind_inr in H as ([n0 devices] & s2 & Hp & H).
    apply prepareNode_inr in Hp as (s3 & ty & media & nodes & inc & Hd & He & Hcar); [|by apply orb_false_iff in Hserver as [-> _]].
    apply bind_inr in H as (n1 & s4 & [Hr ->]%lift_inr & H). apply bind_inr in H as (tokens & s5 & Ht & H).
    apply bind_inr in H as (data & s6 & Hs & H). apply bind_inr in H as ([] & s7 & Hi & H). injection H as <- <- <-.
    exists nodes, devices, s3, s2, ty, media, inc, n1, tokens. split; [done|]. split; [done|].
    split; [apply with_reporting_node in Hr as [->|[t ->]]; [done|by apply carries_child]|]. split; [done|].
    apply sure_issue in Hi as [Hi _]. apply quiet_tokenNode in Ht. unfold sendNodeAndGetData in Hs.
    destruct (e_send env _); [done|]. injection Hs as <- <-. split; [done|]. rewrite (q_sent _ _ Hi). cbn [sd_sent]. unfold devicesOf in Hd. apply (quiet_attempt _ _ (still_devices _)) in Hd.
    apply quiet_encryptAll in He. cbn. rewrite (q_sent _ _ Ht), (q_sent _ _ He). by rewrite (q_sent _ _ Hd). }
  clear H. unfold encryptAll in He.
  destruct (encryptMessageForDevices _ _ _ _ _ _ _ _ _ _ _ _ _ _ _ _ _ _ _ _ _) as [[[[e|[nodes' inc']] lids'] db']|] eqn:Henc; [done| |done].
  injection He as <- <- _. destruct (devices_read _ _ _ _ _ _ _ _ _ _ _ _ _ opens _ _ _ _ _ _ _ _ _ _ _ _ Hideal Henc) as (lm & sent & Hsub & Ho & Hl & Hread).
  exists nodes', devices, lm, sent. split; [done|]. split; [by apply carries_children|].
  split; [|done]. revert Hd. unfold devicesOf, attempt. destruct (on_devices _ s) as [[e|ds] s4]; [done|]. by intros [= -> _].
Qed.
End Read.

(** ** Messages to the own phone *)

Section Peer.
Context {Session Fb Certificate Details : Type} (env : Env Session Fb Certificate Details).
Notation Sender := (@Sender Fb).

Lemma no_session addr db : sg_faults db = [] -> sessions db !! addr = None -> ContainsSession addr db = (inr false, db).
Proof. intros Hf Hs. unfold ContainsSession, HasSession, wrap. rewrite select_ok by done. by rewrite Hs. Qed.

(** A message for the own phone is never written while no LID of its number is known:
    it would be encrypted for the empty address, whatever sessions there are under the number. *)
Theorem peer_needs_lid to id m (s : Sender) lm plaintext :
  Server to = DefaultUserServer -> GetLIDForPN to (q_lids (sd_query s)) = (None, EmptyJID, lm) ->
  sg_faults (sd_signal s) = [] -> sessions (sd_signal s) !! address_string (SignalAddress EmptyJID) = None -> e_marshalWa env m = Some plaintext ->
  exists s', sendPeerMessage env to id m s = Ret (inl (SendEncrypt (ErrNoSession (address_string (SignalAddress EmptyJID)))), s') /\ sd_sent s' = sd_sent s.
Proof.
  intros Hto Hlid Hf Hs Hm. unfold sendPeerMessage, preparePeerMessageNode, mbind, Sending_bind. rewrite Hm, Hto. cbn [marshal mret].
  unfold Sending_ret. cbn beta iota. unfold attempt, on_lids, on_query. cbn -[encryptPeer GetLIDForPN makeDeviceIdentityNode]. rewrite Hlid. cbn -[encryptPeer makeDeviceIdentityNode].
  unfold encryptPeer, encryptMessageForDevice, ensure_session. rewrite lookup_empty. cbn [sg_db sd_signal].
  assert (ContainsSession (address_string (SignalAddress EmptyJID)) (sd_signal s) = (inr false, sd_signal s)) as Hno by (by apply no_session).
  change (sd_signal (s <| sd_query := (sd_query s) <| q_lids := lm |> |>)) with (sd_signal s). rewrite Hno. cbn. by eexists.
Qed.
End Peer.

(** ** The theorems at work *)

(** A device of the account, a contact with two devices, and a server that answers nothing. *)
Definition demo_self : Device := demo_device <| ID := Some demo_own |> <| LID := demo_own_lid |>.
Definition demo_chat : JID := NewJID "77" HiddenUserServer.
Definition demo_ack : node := mkNode "ack" [("id", VString "3EB0AA"); ("t", VString "1700000000"); ("phash", VString "2:other")] VNil.
Definition demo_meeting (await : wait_end) (reconnected : bool) (sock : option (option string)) (second : wait_end) : Env Bytes () () () := {|
  e_XMLString _ := ""; e_sendIQ _ := (None, None); e_sid := "1"; e_grow n := n; e_sha256 b := b; e_hkdf k _ _ _ := k; e_hmac _ b := b;
  e_dedup_pairs l := l; e_dedup E f l := l; e_dialect := SQLite; e_pick := first_row; e_contact_order l := l;
  e_NewSession := []; e_Serialize b := b; e_FromBytes := Some; e_order l := l; e_shuffle l := l;
  e_ProcessBundle := toy_process; e_CipherEncrypt := toy_cipher; e_fetch _ := inr demo_response;
  e_CreateSenderKey _ := fun db => (inr [9], db); e_GroupEncrypt _ p := fun db => (inr p, db); e_sort_fields _ l := l;
  e_marshalWa m := Some (match m with mkMessage _ (Some _) _ => [5] | _ => [6] end); e_marshalFb _ := None; e_marshalAccount _ := Some [1];
  e_unmarshalCert _ := None; e_certDetails _ := []; e_unmarshalDetails _ := None; e_GetVerifiedName _ := ""; e_personaMetadata _ := [];
  e_AutoTrustIdentity := false; e_hasMessengerConfig := false; e_SendReportingTokens := false; e_device := demo_self;
  e_pad _ := 3; e_ctx_ended _ := false; e_secret := repeat 7 32; e_newID := "3EB0AA";
  e_now_add := demo_now; e_now_since := demo_now; e_now_clear := demo_now; e_clock := demo_clock; e_now := demo_now;
  e_send _ := None; e_await := await; e_reconnected := reconnected; e_sock := sock; e_second := second |}.
Definition demo_sending (await : wait_end) : Env Bytes () () () := demo_meeting await false None TimedOut.
Definition demo_lists : gmap JID deviceCache :=
  <[demo_chat := mkDeviceCache (UserDevices.mkSlice (Some 0%nat) 2) ""]> {[ToNonAD demo_own_lid := mkDeviceCache (UserDevices.mkSlice (Some 1%nat) 2) ""]}.
Definition demo_sender : @Sender () :=
  mkSender (UserQueries.demo_query_state <| q_arrays := [[demo_chat; demo_peer]; [Encrypt.demo_phone; demo_own_lid]] |>) demo_lists demo_tokens
    (mkRetryState [of_body (noBody <| Conversation := Some "hi" |>)] ∅ (replicate recentMessagesSize (EmptyJID, "")) 0 false zeroTime [] []
      (NewCachedLIDMap [] []) ∅ ∅ ∅)
    (demo_tables <| sessions := {["55_1:0" := Some [2]; "77_1:0" := Some [2]]} |>) (mkWaiters ∅ [] []) [] [].

(** The connection is lost before the answer and comes back; then the context ends. *)
Definition demo_lost : Env Bytes () () () := demo_meeting (Got StreamEnd) true (Some None) CtxDone.

Definition demo_accepted : SendResponse * option send_error * @Sender () := accept demo_chat "2:mine" noResponse demo_ack demo_sender.
Lemma stale_list_forgotten_witness : sd_devices demo_accepted.2 = delete demo_chat demo_lists /\ sd_query demo_accepted.2 = sd_query demo_sender.
Proof.
  destruct demo_accepted as [[resp err] s'] eqn:H. 
  pose proof (proj1 (proj2 (proj2 (stale_list_forgotten demo_chat "2:mine" noResponse demo_ack demo_sender resp err s' H "2:other" eq_refl) ltac:(done) ltac:(done)))
    (or_intror eq_refl)) as ->.
  split; reflexivity.
Defined.

Lemma dm_read_witness : exists n nodes lidMappings sent phash s',
  sendDM (demo_sending CtxDone) demo_own_lid demo_chat "3EB0AA" (of_body noBody) (mkParams None None None "") demo_sender = Ret (inr (phash, n), s') /\
  sd_sent s' = [n] /\ carries nodes n /\ sublist sent [demo_chat; demo_peer; Encrypt.demo_phone; demo_own_lid] /\ demo_own_lid ∉ sent /\ length sent = 3%nat /\
  Forall2 (fun jid part => readable (fun _ c => Some c) lidMappings jid (if String.eqb (User jid) "4915123" || String.eqb (User jid) "55" then [5] else [6]) part) sent nodes.
Proof.
  assert (match sendDM (demo_sending CtxDone) demo_own_lid demo_chat "3EB0AA" (of_body noBody) (mkParams None None None "") demo_sender with
          | Ret (inr (phash, n), s') => match sd_sent s' with [mkNode _ _ (VNodes (mkNode _ _ (VNodes l) :: _))] => (length l =? 3)%nat | _ => false end
          | _ => false end = true) as Hret by (vm_compute; reflexivity).
  destruct (sendDM (demo_sending CtxDone) demo_own_lid demo_chat "3EB0AA" (of_body noBody) (mkParams None None None "") demo_sender) as [[[e|[phash n]] s']|] eqn:H;
    [discriminate Hret| |discriminate Hret].
  destruct (dm_read (demo_sending CtxDone) (fun _ c => Some c) demo_own_lid demo_chat "3EB0AA" (of_body noBody) (mkParams None None None "") demo_sender phash n s' [6] [5]
    toy_cipher_ideal eq_refl eq_refl eq_refl H) as (nodes & devices & lm & sent & Hs & [rest Hc] & Hd & _ & Hsub & _ & Hl & Hread).
  destruct n as [tag attrs content]. cbn in Hc. subst content. change (sd_sent s' = [mkNode tag attrs (VNodes (mkNode "participants" [] (VNodes nodes) :: rest))]) in Hs.
  rewrite Hs in Hret. apply Nat.eqb_eq in Hret.
  assert (devices = [demo_chat; demo_peer; Encrypt.demo_phone; demo_own_lid]) as ->.
  { assert (forall a b : list JID, inr a = inr (A := user_error) b -> b = a) as Hinj by (by intros ?? [= ->]). apply Hinj. etrans; [|exact Hd]. vm_compute. reflexivity. }
  exists (mkNode tag attrs (VNodes (mkNode "participants" [] (VNodes nodes) :: rest))), nodes, lm, sent, phash, s'.
  split; [reflexivity|]. split; [exact Hs|]. split; [by exists rest|]. split; [exact Hsub|]. split; [exact Hl|].
  split; [rewrite <- Hret; exact (Forall2_length _ _ _ Hread)|exact Hread].
Defined.

Lemma peer_needs_lid_witness : exists s',
  sendPeerMessage (demo_sending CtxDone) (NewJID "33" DefaultUserServer) "3EB0AA" (of_body noBody) demo_sender = Ret (inl (SendEncrypt (ErrNoSession ":0")), s').
Proof.
  assert (exists lm, GetLIDForPN (NewJID "33" DefaultUserServer) (q_lids (sd_query demo_sender)) = (None, EmptyJID, lm)) as [lm Hlm] by (eexists; vm_compute; reflexivity).
  destruct (peer_needs_lid (demo_sending CtxDone) (NewJID "33" DefaultUserServer) "3EB0AA" (of_body noBody) demo_sender lm [6] eq_refl Hlm eq_refl) as (s' & H & _);
    [by vm_compute|done|]. exists s'. exact H.
Defined.
