(* ===== verification/AppStateActions.v ===== *)
(** * [appstate/encode.go], [whatsmeow/appstate.go]: actions of the app state

    What the values of the app state mean: the patches that the application builds, and what
    a mutation that was received changes in the stores and reports.  An action has
    the fields that are read or written, the rest is opaque. *)
From S2P Require Import Prelude GoStrings GoTime Jid BinaryNode PreKeys AppStateDB AppState LidMap SqlDB SqlText Contacts AccountStore MsgSecret DeviceStore TcTokens.

(** ** Actions *)

Definition Opaque : Type := Bytes.
(** [waSyncAction.SyncActionMessageRange] *)
Record MessageRange : Type := mkRange { LastMessageTimestamp : Z; RangeMessages : list (MessageKey * Z) }.
(** [waSyncAction.SyncActionValue]; a sub-message that is not there is [None]. *)
Record Action : Type := mkAction {
  ac_Timestamp : Z;
  MuteAction : option (bool * option Z);
  PinAction : option bool;
  ArchiveChatAction : option (bool * option MessageRange);
  ContactAction : option (string * string * Opaque);
  ClearChatAction : option Opaque;
  DeleteChatAction : option (option MessageRange);
  StarAction : option bool;
  DeleteMessageForMeAction : option Opaque;
  MarkChatAsReadAction : option (bool * option MessageRange);
  PushNameAction : option string;
  UnarchiveChatsAction : option Opaque;
  UserStatusMuteAction : option Opaque;
  LabelEditAction : option (string * Z * bool);
  LabelAssociationAction : option bool;
  NctSaltSyncAction : option Bytes }.
#[export] Instance eta_Action : Eta Action := fun r =>
  mkAction (ac_Timestamp r) (MuteAction r) (PinAction r) (ArchiveChatAction r) (ContactAction r) (ClearChatAction r) (DeleteChatAction r) (StarAction r)
    (DeleteMessageForMeAction r) (MarkChatAsReadAction r) (PushNameAction r) (UnarchiveChatsAction r) (UserStatusMuteAction r) (LabelEditAction r)
    (LabelAssociationAction r) (NctSaltSyncAction r).
Definition noAction : Action := mkAction 0 None None None None None None None None None None None None None None None.
Definition setTimestamp (ms : Z) (a : Action) : Action := a <| ac_Timestamp := ms |>.

Definition IndexPin : string := "pin_v1".
Definition IndexArchive : string := "archive".
Definition IndexMarkChatAsRead : string := "markChatAsRead".
Definition IndexSettingUnarchiveChats : string := "setting_unarchiveChats".
Definition IndexLabelAssociationMessage : string := "label_message".
Definition IndexLabelEdit : string := "label_edit".
Definition IndexLabelAssociationChat : string := "label_jid".
Definition IndexStar : string := "star".
Definition IndexMute : string := "mute".
Definition IndexDeleteMessageForMe : string := "deleteMessageForMe".
Definition IndexClearChat : string := "clearChat".
Definition IndexDeleteChat : string := "deleteChat".
Definition IndexUserStatusMute : string := "userStatusMute".
Definition IndexNCTSaltSync : string := "nct_salt_sync".
Definition IndexContact : string := "contact".
Definition IndexSettingPushName : string := "setting_pushName".

(** ** Patches that the application builds *)

Notation MutationInfo := (@MutationInfo Action).
Notation PatchInfo := (@PatchInfo Action).
Notation Mutation := (@Mutation Action).

Definition BuildMuteAbs (target : JID) (mute : bool) (muteEndTimestamp : option Z) : PatchInfo :=
  let muteEndTimestamp := match muteEndTimestamp with None => if mute then Some (-1) else None | Some _ => muteEndTimestamp end in
  mkPatchInfo zeroTime WAPatchRegularHigh
    [mkMutationInfo [IndexMute; String_ target] 2 (noAction <| MuteAction := Some (mute, muteEndTimestamp) |>)].
Definition BuildMute (now : Time) (target : JID) (mute : bool) (muteDuration : Duration) : PatchInfo :=
  BuildMuteAbs target mute (if muteDuration >? 0 then Some (toUnixMilli (Add now muteDuration)) else None).
Definition newPinMutationInfo (target : JID) (pin : bool) : MutationInfo :=
  mkMutationInfo [IndexPin; String_ target] 5 (noAction <| PinAction := Some pin |>).
Definition BuildPin (target : JID) (pin : bool) : PatchInfo := mkPatchInfo zeroTime WAPatchRegularLow [newPinMutationInfo target pin].
Definition newMessageRange (now : Time) (lastMessageTimestamp : Time) (lastMessageKey : option MessageKey) : MessageRange :=
  let lastMessageTimestamp := if IsZero lastMessageTimestamp then now else lastMessageTimestamp in
  mkRange (toUnix lastMessageTimestamp) (match lastMessageKey with Some key => [(key, toUnix lastMessageTimestamp)] | None => [] end).
Definition BuildArchive (now : Time) (target : JID) (archive : bool) (lastMessageTimestamp : Time) (lastMessageKey : option MessageKey) : PatchInfo :=
  mkPatchInfo zeroTime WAPatchRegularLow
    (mkMutationInfo [IndexArchive; String_ target] 3
       (noAction <| ArchiveChatAction := Some (archive, Some (newMessageRange now lastMessageTimestamp lastMessageKey)) |>)
     :: if archive then [newPinMutationInfo target false] else []).
Definition BuildMarkChatAsRead (now : Time) (target : JID) (read : bool) (lastMessageTimestamp : Time) (lastMessageKey : option MessageKey) : PatchInfo :=
  mkPatchInfo zeroTime WAPatchRegularLow
    [mkMutationInfo [IndexMarkChatAsRead; String_ target] 3
       (noAction <| MarkChatAsReadAction := Some (read, Some (newMessageRange now lastMessageTimestamp lastMessageKey)) |>)].
Definition newLabelChatMutation (target : JID) (labelID : string) (labeled : bool) : MutationInfo :=
  mkMutationInfo [IndexLabelAssociationChat; labelID; String_ target] 3 (noAction <| LabelAssociationAction := Some labeled |>).
Definition BuildLabelChat (target : JID) (labelID : string) (labeled : bool) : PatchInfo :=
  mkPatchInfo zeroTime WAPatchRegular [newLabelChatMutation target labelID labeled].
Definition newLabelMessageMutation (target : JID) (labelID messageID : string) (labeled : bool) : MutationInfo :=
  mkMutationInfo [IndexLabelAssociationMessage; labelID; String_ target; messageID; "0"; "0"] 3 (noAction <| LabelAssociationAction := Some labeled |>).
Definition BuildLabelMessage (target : JID) (labelID messageID : string) (labeled : bool) : PatchInfo :=
  mkPatchInfo zeroTime WAPatchRegular [newLabelMessageMutation target labelID messageID labeled].
Definition newLabelEditMutation (labelID labelName : string) (labelColor : Z) (deleted : bool) : MutationInfo :=
  mkMutationInfo [IndexLabelEdit; labelID] 3 (noAction <| LabelEditAction := Some (labelName, labelColor, deleted) |>).
Definition BuildLabelEdit (labelID labelName : string) (labelColor : Z) (deleted : bool) : PatchInfo :=
  mkPatchInfo zeroTime WAPatchRegular [newLabelEditMutation labelID labelName labelColor deleted].
Definition newSettingPushNameMutation (pushName : string) : MutationInfo :=
  mkMutationInfo [IndexSettingPushName] 1 (noAction <| PushNameAction := Some pushName |>).
Definition BuildSettingPushName (pushName : string) : PatchInfo :=
  mkPatchInfo zeroTime WAPatchCriticalBlock [newSettingPushNameMutation pushName].
Definition newStarMutation (targetJID senderJID messageID fromMe : string) (starred : bool) : MutationInfo :=
  mkMutationInfo [IndexStar; targetJID; messageID; fromMe; senderJID] 2 (noAction <| StarAction := Some starred |>).
Definition BuildStar (target sender : JID) (messageID : string) (fromMe starred : bool) : PatchInfo :=
  let senderJID := if String.eqb (User target) (User sender) then "0" else String_ sender in
  mkPatchInfo zeroTime WAPatchRegularHigh [newStarMutation (String_ target) senderJID messageID (if fromMe then "1" else "0") starred].
Definition BuildDeleteChat (now : Time) (target : JID) (lastMessageTimestamp : Time) (lastMessageKey : option MessageKey) (deleteMedia : bool) : PatchInfo :=
  mkPatchInfo zeroTime WAPatchRegularHigh
    [mkMutationInfo [IndexDeleteChat; String_ target; if deleteMedia then "1" else "0"] 6
       (noAction <| DeleteChatAction := Some (Some (newMessageRange now lastMessageTimestamp lastMessageKey)) |>)].

(** ** Events *)

(** An error of a synchronisation is one of the processor's here. *)
Inductive state_event : Type :=
| AppStateEvent (index : list string) (action : Action)
| MuteEvent (jid : JID) (ts : Time) (action : option (bool * option Z)) (fromFullSync : bool)
| PinEvent (jid : JID) (ts : Time) (action : option bool) (fromFullSync : bool)
| ArchiveEvent (jid : JID) (ts : Time) (action : option (bool * option MessageRange)) (fromFullSync : bool)
| ContactEvent (jid : JID) (ts : Time) (action : option (string * string * Opaque)) (fromFullSync : bool)
| ClearChat (jid : JID) (ts : Time) (deleteMedia : bool) (action : option Opaque) (fromFullSync : bool)
| DeleteChat (jid : JID) (ts : Time) (deleteMedia : bool) (action : option (option MessageRange)) (fromFullSync : bool)
| StarEvent (chatJID senderJID : JID) (isFromMe : bool) (messageID : string) (ts : Time) (action : option bool) (fromFullSync : bool)
| DeleteForMe (chatJID senderJID : JID) (isFromMe : bool) (messageID : string) (ts : Time) (action : option Opaque) (fromFullSync : bool)
| MarkChatAsRead (jid : JID) (ts : Time) (action : option (bool * option MessageRange)) (fromFullSync : bool)
| PushNameSetting (ts : Time) (action : option string) (fromFullSync : bool)
| UnarchiveChatsSetting (ts : Time) (action : option Opaque) (fromFullSync : bool)
| UserStatusMute (jid : JID) (ts : Time) (action : option Opaque) (fromFullSync : bool)
| LabelEdit (ts : Time) (labelID : string) (action : option (string * Z * bool)) (fromFullSync : bool)
| LabelAssociationChat (jid : JID) (ts : Time) (labelID : string) (action : option bool) (fromFullSync : bool)
| LabelAssociationMessage (jid : JID) (ts : Time) (labelID messageID : string) (action : option bool) (fromFullSync : bool)
| AppStateSyncComplete (name : string) (version : Z) (recovery : bool)
| AppStateSyncError (name : string) (error : app_error) (fullSync : bool).

(** ** What a mutation does *)

(** The stores that mutations change. *)
Record Synced : Type := mkSynced { sy_tokens : Tokens; sy_contacts : ContactDB; sy_device : DeviceStore.Device; sy_devices : DeviceDB }.
#[export] Instance eta_Synced : Eta Synced := fun r => mkSynced (sy_tokens r) (sy_contacts r) (sy_device r) (sy_devices r).
Definition index_out_of_range : string := "index out of range".

Section Dispatch.
Context (d : Dialect) (dedup : forall E, (E -> JID) -> list E -> list E) (EmitAppStateEventsOnFullSync : bool).

(** An error of a store is only logged. *)
Definition on_settings (m : Stmt AccountDB ()) (s : Synced) : Synced := s <| sy_tokens := (on_account m (sy_tokens s)).2 |>.
Definition on_contact (m : Stmt ContactDB ()) (s : Synced) : Synced := s <| sy_contacts := (m (sy_contacts s)).2 |>.

(** [SyncActionValue] may be nil; the getters then give the zero values. *)
Definition mutedUntil (act : option (bool * option Z)) : Time * bool :=
  match act with
  | Some (true, until) => let ms := default 0 until in if ms <? 0 then (MutedForever, true) else (UnixMilli ms, false)
  | _ => (zeroTime, true)
  end.
(** The parse error is dropped: what was read before it is kept. *)
Definition index_jid (index : list string) (i : nat) : JID := match index !! i with Some s => (ParseJID s).1 | None => EmptyJID end.
Definition message_sender (index : list string) : JID := match index !! 4%nat with Some s => if String.eqb s "0" then EmptyJID else (ParseJID s).1 | None => EmptyJID end.
Definition flag_at (index : list string) (i : nat) : bool := match index !! i with Some s => String.eqb s "1" | None => false end.
Definition at_ (index : list string) (i : nat) : string := default "" (index !! i).

Definition dispatchAppState (mutation : Mutation) (fullSync : bool) (s : Synced) : outcome (option state_event * Synced) :=
  let index := mu_Index mutation in
  let act := mu_Action mutation in
  if (length index =? 1)%nat && String.eqb (at_ index 0) IndexNCTSaltSync then
    let change := match mu_Operation mutation with
                  | SyncdMutation_SET => storeNCTSalt (default [] (NctSaltSyncAction act))
                  | SyncdMutation_REMOVE => clearNCTSalt
                  end in
    Ret (None, s <| sy_tokens := (change (sy_tokens s)).2 |>)
  else
    match mu_Operation mutation with
    | SyncdMutation_REMOVE => Ret (None, s)
    | SyncdMutation_SET =>
        let jid := index_jid index 1 in
        let ts := UnixMilli (ac_Timestamp act) in
        match index with
        | [] => Panic index_out_of_range
        | kind :: _ =>
            if String.eqb kind IndexMute then
              let '(until, utc) := mutedUntil (MuteAction act) in
              Ret (Some (MuteEvent jid ts (MuteAction act) fullSync), on_settings (PutMutedUntil d jid until utc) s)
            else if String.eqb kind IndexPin then
              Ret (Some (PinEvent jid ts (PinAction act) fullSync), on_settings (PutPinned d jid (default false (PinAction act))) s)
            else if String.eqb kind IndexArchive then
              Ret (Some (ArchiveEvent jid ts (ArchiveChatAction act) fullSync), on_settings (PutArchived d jid (default false (fst <$> ArchiveChatAction act))) s)
            else if String.eqb kind IndexContact then
              let '(first, full) := match ContactAction act with Some (first, full, _) => (first, full) | None => ("", "") end in
              Ret (Some (ContactEvent jid ts (ContactAction act) fullSync), on_contact (PutContactName d jid first full) s)
            else if String.eqb kind IndexClearChat then Ret (Some (ClearChat jid ts (flag_at index 3) (ClearChatAction act) fullSync), s)
            else if String.eqb kind IndexDeleteChat then Ret (Some (DeleteChat jid ts (flag_at index 2) (DeleteChatAction act) fullSync), s)
            else if String.eqb kind IndexStar then
              Ret (if (length index <? 5)%nat then None
                   else Some (StarEvent jid (message_sender index) (flag_at index 3) (at_ index 2) ts (StarAction act) fullSync), s)
            else if String.eqb kind IndexDeleteMessageForMe then
              Ret (if (length index <? 5)%nat then None
                   else Some (DeleteForMe jid (message_sender index) (flag_at index 3) (at_ index 2) ts (DeleteMessageForMeAction act) fullSync), s)
            else if String.eqb kind IndexMarkChatAsRead then Ret (Some (MarkChatAsRead jid ts (MarkChatAsReadAction act) fullSync), s)
            else if String.eqb kind IndexSettingPushName then
              let device := (sy_device s) <| DeviceStore.PushName := default "" (PushNameAction act) |> in
              '(_, device, db) ← Save d device (sy_devices s);
              Ret (Some (PushNameSetting ts (PushNameAction act) fullSync), s <| sy_device := device |> <| sy_devices := db |>)
            else if String.eqb kind IndexSettingUnarchiveChats then Ret (Some (UnarchiveChatsSetting ts (UnarchiveChatsAction act) fullSync), s)
            else if String.eqb kind IndexUserStatusMute then Ret (Some (UserStatusMute jid ts (UserStatusMuteAction act) fullSync), s)
            else if String.eqb kind IndexLabelEdit then
              match index !! 1%nat with
              | None => Panic index_out_of_range
              | Some labelID => Ret (Some (LabelEdit ts labelID (LabelEditAction act) fullSync), s)
              end
            else if String.eqb kind IndexLabelAssociationChat then
              Ret (if (length index <? 3)%nat then None
                   else Some (LabelAssociationChat (index_jid index 2) ts (at_ index 1) (LabelAssociationAction act) fullSync), s)
            else if String.eqb kind IndexLabelAssociationMessage then
              Ret (if (length index <? 6)%nat then None
                   else Some (LabelAssociationMessage (index_jid index 2) ts (at_ index 1) (at_ index 3) (LabelAssociationAction act) fullSync), s)
            else Ret (None, s)
        end
    end.

(** The contacts are taken out of the mutations, whatever the operation is. *)
Fixpoint filterContacts (mutations : list Mutation) : outcome (list Mutation * list ContactEntry) :=
  match mutations with
  | [] => Ret ([], [])
  | mutation :: mutations =>
      match mu_Index mutation with
      | [] => Panic index_out_of_range
      | kind :: params =>
          '(filteredMutations, contacts) ← filterContacts mutations;
          Ret (match params with
               | jid :: _ =>
                   if String.eqb kind IndexContact then
                     let '(first, full) := match ContactAction (mu_Action mutation) with Some (first, full, _) => (first, full) | None => ("", "") end in
                     (filteredMutations, mkContactEntry (ParseJID jid).1 first full :: contacts)
                   else (mutation :: filteredMutations, contacts)
               | [] => (mutation :: filteredMutations, contacts)
               end)
      end
  end.

Definition is_set (op : SyncdOperation) : bool := match op with SyncdMutation_SET => true | SyncdMutation_REMOVE => false end.
(** The list of events is [None] when no events are to be collected. *)
Fixpoint collectEvents (mutations : list Mutation) (fullSync : bool) (eventsToDispatch : option (list state_event)) (s : Synced) :
    outcome (option (list state_event) * Synced) :=
  match mutations with
  | [] => Ret (eventsToDispatch, s)
  | mutation :: mutations =>
      '(evt, s) ← dispatchAppState mutation fullSync s;
      let raw := if is_set (mu_Operation mutation) then [AppStateEvent (mu_Index mutation) (mu_Action mutation)] else [] in
      collectEvents mutations fullSync ((fun l => l ++ raw ++ option_list evt) <$> eventsToDispatch) s
  end.
Definition collectEventsToDispatch (name : string) (mutations : list Mutation) (fullSync : bool) (eventsToDispatch : option (list state_event)) (s : Synced) :
    outcome (option store_error * option (list state_event) * Synced) :=
  if String.eqb name WAPatchCriticalUnblockLow && fullSync && negb EmitAppStateEventsOnFullSync then
    '(mutations, contacts) ← filterContacts mutations;
    match PutAllContactNames d dedup contacts (sy_contacts s) with
    | (inl e, db) => Ret (Some e, eventsToDispatch, s <| sy_contacts := db |>)
    | (inr _, db) =>
        '(events, s) ← collectEvents mutations fullSync eventsToDispatch (s <| sy_contacts := db |>);
        Ret (None, events, s)
    end
  else
    '(events, s) ← collectEvents mutations fullSync eventsToDispatch s;
    Ret (None, events, s).
End Dispatch.

(** ** Patches reach the stores of the other devices *)

Section Built.
Context (d : Dialect).
(** What another device decodes of a mutation that was built. *)
Definition received (ts : Z) (info : MutationInfo) : Mutation :=
  mkMutation None SyncdMutation_SET (setTimestamp ts (mi_Value info)) (mi_Version info) (mi_Index info) [] [] 0.
Definition apply_patch (ts : Z) (p : PatchInfo) (s : Synced) : outcome (option (list state_event) * Synced) :=
  collectEvents d (received ts <$> pi_Mutations p) false (Some []) s.
Definition chat_row (chat : JID) (s : Synced) : ChatRow :=
  default new_chat (k ← jid_key chat; chat_settings (account (sy_tokens s)) !! k).
(** The events that name what the patch is about. *)
Definition meant (e : state_event) : bool := match e with AppStateEvent _ _ => false | _ => true end.

Lemma put_setting chat f db : ac_faults db = [] -> Server chat <> "" -> exists k, jid_key chat = Some k /\
  (putChatSettingQuery d chat f db).2 = db <| chat_settings := <[k := f (default new_chat (chat_settings db !! k))]> (chat_settings db) |>.
Proof.
  intros Hf Hs. assert (exists k, jid_key chat = Some k) as [k Hk] by (unfold jid_key, Value; destruct (Server chat); [done|by eexists]).
  exists k. split; [done|]. unfold putChatSettingQuery. erewrite execute_checked_ok; [reflexivity|done|]. unfold jid_row. rewrite Hk.
  change [set_row (k, ?f)] with (set_row <$> [(k, f)]). by rewrite upsert_ok by apply NoDup_singleton.
Qed.
Lemma on_settings_row chat f s : ac_faults (account (sy_tokens s)) = [] -> Server chat <> "" ->
  let s' := on_settings (putChatSettingQuery d chat f) s in
  ac_faults (account (sy_tokens s')) = [] /\ chat_row chat s' = f (chat_row chat s).
Proof.
  intros Hf Hs. destruct (put_setting chat f _ Hf Hs) as (k & Hk & Hp). unfold on_settings, on_account, chat_row. rewrite Hk. cbn [mbind option_bind].
  destruct (putChatSettingQuery d chat f (account (sy_tokens s))) as [r db]. cbn in *. subst db. split; [done|]. cbn. by rewrite lookup_insert_eq.
Qed.
Lemma index_target target kind rest : printable target = true -> index_jid (kind :: String_ target :: rest) 1 = target.
Proof. intros H. unfold index_jid. cbn. by rewrite JID_print_parse. Qed.

(** A mute until a time that the protocol buffer carries in milliseconds. *)
Definition row_mute (mute : bool) (until : option Z) : Z :=
  if mute then match until with Some ms => if ms <? 0 then -1 else muted_value (UnixMilli ms) false | None => -1 end else 0.
Definition reaches (ts : Z) (p : PatchInfo) (target : JID) (f : ChatRow -> ChatRow) (e : state_event) (s : Synced) : Prop :=
  exists evts s', apply_patch ts p s = Ret (Some evts, s') /\ chat_row target s' = f (chat_row target s) /\ head (filter meant evts) = Some e.

(** A device that receives the patch which another one built for a chat puts the setting into
    its store and reports it for that chat: a mute until the same second, for ever
    without a time, a pin, or an archived chat, which is no longer pinned; the other settings
    of the chat stay. *)
Theorem settings_reach_devices ts target s : printable target = true -> Server target <> "" -> ac_faults (account (sy_tokens s)) = [] ->
  (forall mute until, let until' := match until with None => if mute : bool then Some (-1) else None | Some _ => until end in
     reaches ts (BuildMuteAbs target mute until) target (fun r => r <| muted_until := row_mute mute until |>)
       (MuteEvent target (UnixMilli ts) (Some (mute, until')) false) s) /\
  (forall pin, reaches ts (BuildPin target pin) target (fun r => r <| pinned := pin |>) (PinEvent target (UnixMilli ts) (Some pin) false) s) /\
  (forall now archive lastTime key, let range := newMessageRange now lastTime key in
     reaches ts (BuildArchive now target archive lastTime key) target
       (fun r => r <| archived := archive |> <| pinned := if archive : bool then false else pinned r |>)
       (ArchiveEvent target (UnixMilli ts) (Some (archive, Some range)) false) s).
Proof.
  intros Hp Hs Hf. split; [|split].
  - intros mute until until'. destruct (mutedUntil (Some (mute, until'))) as [t utc] eqn:Hm. subst until'.
    eexists _, _. unfold apply_patch, BuildMuteAbs, received. cbn -[UnixMilli mutedUntil PutMutedUntil index_jid]. rewrite index_target, Hm by done.
    split; [reflexivity|]. split; [|reflexivity]. cbn -[PutMutedUntil].
    unfold PutMutedUntil. destruct (on_settings_row target (fun r => r <| muted_until := muted_value t utc |>) s Hf Hs) as [_ ->].
    assert (muted_value t utc = row_mute mute until) as ->; [|done].
    unfold mutedUntil, row_mute in *. destruct mute; [|by injection Hm as <- <-]. destruct until as [ms|]; cbn in Hm; [|by injection Hm as <- <-].
    destruct (ms <? 0); by injection Hm as <- <-.
  - intros pin. eexists _, _. unfold apply_patch, BuildPin, newPinMutationInfo, received. cbn -[UnixMilli PutPinned index_jid]. rewrite index_target by done.
    split; [reflexivity|]. split; [|reflexivity]. cbn -[PutPinned]. unfold PutPinned.
    by destruct (on_settings_row target (fun r => r <| pinned := pin |>) s Hf Hs) as [_ ->].
  - intros now archive lastTime key range. destruct (on_settings_row target (fun r => r <| archived := archive |>) s Hf Hs) as [Hf1 Hr1].
    unfold reaches, apply_patch, BuildArchive, newPinMutationInfo, received. destruct archive; eexists _, _; cbn -[UnixMilli PutPinned PutArchived index_jid newMessageRange];
      rewrite !index_target by done; (split; [reflexivity|]); (split; [|reflexivity]).
    + destruct (on_settings_row target (fun r => r <| pinned := false |>) _ Hf1 Hs) as [_ Hr2]. unfold PutPinned, PutArchived in *. rewrite Hr2, Hr1. done.
    + unfold PutArchived. rewrite Hr1. by destruct (chat_row target s).
Qed.

Definition reports (ts : Z) (p : PatchInfo) (e : state_event) (s : Synced) : Prop :=
  exists evts, apply_patch ts p s = Ret (Some evts, s) /\ filter meant evts = [e].

(** The other patches change no store: they are reported with the chat, the message and
    the label that they were built for.  A star on a message of the chat's own user loses
    the sender, which is empty in the event. *)
Theorem built_patches_reported ts target sender s : printable target = true -> printable sender = true -> String_ sender <> "0" ->
  (forall now read lastTime key, reports ts (BuildMarkChatAsRead now target read lastTime key)
     (MarkChatAsRead target (UnixMilli ts) (Some (read, Some (newMessageRange now lastTime key))) false) s) /\
  (forall now lastTime key media, reports ts (BuildDeleteChat now target lastTime key media)
     (DeleteChat target (UnixMilli ts) media (Some (Some (newMessageRange now lastTime key))) false) s) /\
  (forall label labeled, reports ts (BuildLabelChat target label labeled) (LabelAssociationChat target (UnixMilli ts) label (Some labeled) false) s) /\
  (forall label message labeled, reports ts (BuildLabelMessage target label message labeled)
     (LabelAssociationMessage target (UnixMilli ts) label message (Some labeled) false) s) /\
  (forall label name color deleted, reports ts (BuildLabelEdit label name color deleted) (LabelEdit (UnixMilli ts) label (Some (name, color, deleted)) false) s) /\
  (forall message fromMe starred, reports ts (BuildStar target sender message fromMe starred)
     (StarEvent target (if String.eqb (User target) (User sender) then EmptyJID else sender) fromMe message (UnixMilli ts) (Some starred) false) s).
Proof.
  intros Hp Hps Hz. repeat split; intros; unfold reports, apply_patch, received; cbn -[UnixMilli index_jid newMessageRange String.eqb];
    rewrite ?index_target by done.
  - by eexists.
  - eexists. split; [reflexivity|]. by destruct media.
  - unfold index_jid. cbn. rewrite JID_print_parse by done. by eexists.
  - unfold index_jid. cbn. rewrite JID_print_parse by done. by eexists.
  - by eexists.
  - eexists. split; [reflexivity|]. cbn. do 2 f_equal.
    + unfold message_sender. cbn. destruct (String.eqb (User target) (User sender)); [done|]. rewrite (proj2 (String.eqb_neq _ _) Hz). by rewrite JID_print_parse.
    + by destruct fromMe.
Qed.
End Built.

(** ** Contacts of a full synchronisation *)

Section Contacts.
Definition entry_of (mutation : Mutation) : option ContactEntry :=
  match mu_Index mutation with
  | kind :: jid :: _ =>
      if String.eqb kind IndexContact then
        let '(first, full) := match ContactAction (mu_Action mutation) with Some (first, full, _) => (first, full) | None => ("", "") end in
        Some (mkContactEntry (ParseJID jid).1 first full)
      else None
  | _ => None
  end.
(** Every mutation is either handed on or taken as the names of a contact, in order; the
    operation is not looked at, so that the removal of a contact stores it. *)
Theorem contacts_taken mutations : Forall (fun m => mu_Index m <> []) mutations ->
  filterContacts mutations = Ret (filter (fun m => entry_of m = None) mutations, omap entry_of mutations).
Proof.
  induction 1 as [|m l Hm _ IH]; [done|]. cbn [filterContacts]. rewrite IH, filter_cons. cbn [omap list_omap].
  destruct (mu_Index m) as [|kind params] eqn:Hi; [done|]. cbn [mbind outcome_bind].
  destruct params as [|jid params].
  - assert (entry_of m = None) as -> by (unfold entry_of; by rewrite Hi). by rewrite decide_True.
  - destruct (entry_of m) as [e|] eqn:He; unfold entry_of in He; rewrite Hi in He; destruct (String.eqb kind IndexContact); try done.
    + rewrite decide_False by done. destruct (match ContactAction (mu_Action m) with Some _ => _ | None => _ end) as [first full]. by injection He as <-.
    + exfalso. revert He. by destruct (match ContactAction (mu_Action m) with Some _ => _ | None => _ end).
Qed.

(** A mutation whose index is the empty array panics, wherever it is looked at. *)
Theorem empty_index_panics d mutation fullSync s rest : mu_Index mutation = [] -> mu_Operation mutation = SyncdMutation_SET ->
  dispatchAppState d mutation fullSync s = Panic index_out_of_range /\ filterContacts (mutation :: rest) = Panic index_out_of_range.
Proof. intros Hi Ho. unfold dispatchAppState. cbn [filterContacts]. by rewrite Hi, Ho. Qed.
End Contacts.

(** ** The theorems at work *)

Definition demo_chat : JID := NewJID "4915123" DefaultUserServer.
Definition demo_author : JID := NewJID "4917" DefaultUserServer.
Definition demo_synced : Synced :=
  mkSynced (mkTokens AccountStore.demo_account (NewCachedLIDMap [] []) ∅ zeroTime zeroTime false) (mkContactDB ∅ ∅ [])
    DeviceStore.demo_device DeviceStore.demo_devices.
Lemma settings_reach_devices_witness :
  reaches SQLite 1700000000000 (BuildMuteAbs demo_chat true (Some 1800000000500)) demo_chat (fun r => r <| muted_until := 1800000000 |>)
    (MuteEvent demo_chat (UnixMilli 1700000000000) (Some (true, Some 1800000000500)) false) demo_synced.
Proof. exact (proj1 (settings_reach_devices SQLite 1700000000000 demo_chat demo_synced ltac:(by vm_compute) ltac:(done) eq_refl) true (Some 1800000000500)). Defined.
Lemma built_patches_reported_witness :
  reports SQLite 1700000000000 (BuildStar demo_chat demo_author "3EB0" false true)
    (StarEvent demo_chat demo_author false "3EB0" (UnixMilli 1700000000000) (Some true) false) demo_synced.
Proof.
  exact (proj2 (proj2 (proj2 (proj2 (proj2 (built_patches_reported SQLite 1700000000000 demo_chat demo_author demo_synced
    ltac:(by vm_compute) ltac:(by vm_compute) ltac:(done)))))) "3EB0" false true).
Defined.
(** A contact that was removed, and one that was named. *)
Definition demo_mutation (op : SyncdOperation) (index : list string) (first : string) : Mutation :=
  mkMutation None op (noAction <| ContactAction := Some (first, first, []) |>) 2 index [] [] 1.
Definition demo_mutations : list Mutation :=
  [demo_mutation SyncdMutation_SET ["contact"; "4917@s.whatsapp.net"] "Ann"; demo_mutation SyncdMutation_SET ["pin_v1"; "4917@s.whatsapp.net"] "";
   demo_mutation SyncdMutation_REMOVE ["contact"; "4918@s.whatsapp.net"] "Bob"].
Lemma contacts_taken_witness : exists rest contacts, filterContacts demo_mutations = Ret (rest, contacts) /\
  ce_FullName <$> contacts = ["Ann"; "Bob"] /\ mu_Index <$> rest = [["pin_v1"; "4917@s.whatsapp.net"]].
Proof. eexists _, _. split; [exact (contacts_taken demo_mutations ltac:(by repeat constructor))|]. by split. Defined.
Lemma empty_index_panics_witness : dispatchAppState SQLite (demo_mutation SyncdMutation_SET [] "") false demo_synced = Panic index_out_of_range.
Proof. exact (proj1 (empty_index_panics SQLite (demo_mutation SyncdMutation_SET [] "") false demo_synced [] eq_refl eq_refl)). Defined.
