(* ===== verification/AppStateClient.v ===== *)
(** * [whatsmeow/appstate.go]: synchronising the app state

    The client fetches the patches of a collection page by page, decodes them, applies
    them to its stores and reports them; it sends its own patches and handles a conflict, asks
    for keys that it lacks, and takes a recovery from the phone.  The server is a machine
    that answers queries; protocol buffers, downloads and the primitives are parameters. *)
From S2P Require Import Prelude GoStrings GoTime Jid BinaryNode NodeAttrs Requests PreKeys AppStateDB AppState LidMap SqlDB SqlText Contacts AccountStore DeviceStore TcTokens AppStateActions.

Inductive sync_error : Type :=
| SyncQuery (e : iq_error)
| SyncMissing (tag in_ : string)
| SyncSnapshot | SyncDownload | SyncMutations | SyncNoMutations | SyncPatch (number : nat)
| SyncAttrs (errs : list attr_error)
| SyncVersion (e : sql_error)
| UnexpectedSnapshot | NonEmptyState
| SyncDecode (e : app_error)
| SyncContacts (e : store_error)
| NoAppStateKeys
| ErrAppStateUpdate (e : option node)
| ErrConflict (e : option node) (inner : sync_error)
| SyncAfterSend (e : sync_error).

Section Sync.
Context (hkdf_SHA256 : Bytes -> Bytes -> Bytes -> Z -> Bytes) (hmac256 hmac512 : Bytes -> Bytes -> Bytes).
Context {Block : Type} (NewCipher : Bytes -> option Block) (Enc Dec : Block -> Bytes -> Bytes).
Context (unmarshalAction : Bytes -> option (@SyncActionData Action)) (marshalAction : @SyncActionData Action -> option Bytes).
Context (unmarshalIndex : Bytes -> option (list string)) (marshalIndex : list string -> option Bytes).
Context (marshalPatch : SyncdPatch -> option Bytes).
(** A patch names a blob when its mutations are elsewhere. *)
Context {Ref : Type} (unmarshalRef : Bytes -> option Ref) (unmarshalSnapshot : Bytes -> option SyncdSnapshot).
Context (unmarshalPatch : Bytes -> option (SyncdPatch * option Ref)) (unmarshalMutations : Bytes -> option (list SyncdMutation)).
Context (downloadExternal : Ref -> option Bytes).
Context (d : Dialect) (dedup : forall E, (E -> JID) -> list E -> list E) (EmitAppStateEventsOnFullSync : bool).
Context {Server : Type} (serve : Server -> infoQuery -> (option node * option iq_error) * Server).

Notation DecodePatches := (DecodePatches hkdf_SHA256 hmac256 hmac512 NewCipher Dec unmarshalAction unmarshalIndex).
Notation EncodePatch := (EncodePatch hkdf_SHA256 hmac256 hmac512 NewCipher Enc marshalAction marshalIndex marshalPatch setTimestamp).

(** ** [appstate/decode.go]: the answer of the server *)

Definition parseSnapshotInternal (collection : node) : sync_error + option SyncdSnapshot :=
  let snapshotNode := GetChildByTag collection ["snapshot"] in
  match as_bytes (Content snapshotNode) with
  | Some rawSnapshot =>
      if negb (String.eqb (Tag snapshotNode) "snapshot") then inr None
      else
        match unmarshalRef rawSnapshot with
        | None => inl SyncSnapshot
        | Some ref =>
            match downloadExternal ref with
            | None => inl SyncDownload
            | Some rawData => match unmarshalSnapshot rawData with Some ss => inr (Some ss) | None => inl SyncMutations end
            end
        end
  | None => inr None
  end.
Definition parsePatch (i : nat) (rawPatch : Bytes) : sync_error + SyncdPatch :=
  match unmarshalPatch rawPatch with
  | None => inl (SyncPatch (S i))
  | Some (patch, None) => inr patch
  | Some (patch, Some ref) =>
      match downloadExternal ref with
      | None => inl SyncDownload
      | Some rawData =>
          match unmarshalMutations rawData with
          | None => inl SyncMutations
          | Some [] => inl SyncNoMutations
          | Some mutations => inr (mkPatch (sp_Version patch) mutations (sp_SnapshotMAC patch) (sp_PatchMAC patch) (sp_KeyID patch))
          end
      end
  end.
Fixpoint parsePatches (i : nat) (patchNodes : list node) : sync_error + list SyncdPatch :=
  match patchNodes with
  | [] => inr []
  | patchNode :: patchNodes =>
      match as_bytes (Content patchNode), String.eqb (Tag patchNode) "patch" with
      | Some rawPatch, true =>
          match parsePatch i rawPatch with
          | inl e => inl e
          | inr patch => match parsePatches (S i) patchNodes with inl e => inl e | inr patches => inr (patch :: patches) end
          end
      | _, _ => parsePatches (S i) patchNodes
      end
  end.
Definition parsePatchListInternal (collection : node) : sync_error + list SyncdPatch := parsePatches 0 (GetChildren (GetChildByTag collection ["patches"])).
(** With the list goes whether there are more patches. *)
Definition ParsePatchList (collection : node) : sync_error + PatchList * bool :=
  match parseSnapshotInternal collection with
  | inl e => inl e
  | inr snapshot =>
      match parsePatchListInternal collection with
      | inl e => inl e
      | inr patches =>
          let '(name, ag) := getString "name" (AttrGetter collection) in
          let '(hasMore, ag) := OptionalBool "has_more_patches" ag in
          match Error_ ag with Some e => inl (SyncAttrs e) | None => inr (mkPatchList name patches snapshot, hasMore) end
      end
  end.

(** ** The client *)

(** The server, the processor with its database, the stores, when each key was asked for (by
    the hexadecimal digits of its id in the code), the goroutines that are to ask for keys, the keys that were
    asked for and the events that were dispatched. *)
Record SyncClient : Type := mkSyncClient {
  sc_server : Server; sc_proc : Processor; sc_synced : Synced; appStateKeyRequests : gmap Bytes Time;
  sc_missing : list PatchList; sc_requested : list (list Bytes); sc_dispatched : list state_event }.
#[export] Instance eta_SyncClient : Eta SyncClient := fun r =>
  mkSyncClient (sc_server r) (sc_proc r) (sc_synced r) (appStateKeyRequests r) (sc_missing r) (sc_requested r) (sc_dispatched r).

Definition Syncing (A : Type) : Type := SyncClient -> outcome ((sync_error + A) * SyncClient).
#[export] Instance Syncing_ret : MRet Syncing := fun A a s => Ret (inr a, s).
#[export] Instance Syncing_bind : MBind Syncing := fun A B f m s =>
  match m s with
  | Panic e => Panic e
  | Ret (inl e, s) => Ret (inl e, s)
  | Ret (inr a, s) => f a s
  end.
Definition sync_fail {A} (e : sync_error) : Syncing A := fun s => Ret (inl e, s).
Definition from_sum {A} (r : sync_error + A) : Syncing A := fun s => Ret (r, s).
Definition dispatch (evts : list state_event) (s : SyncClient) : SyncClient := s <| sc_dispatched := sc_dispatched s ++ evts |>.
(** A statement on the tables of the processor. *)
Definition on_tables (f : AppStateDB -> option sql_error * AppStateDB) : Syncing () := fun s =>
  let '(e, db) := f (AppState.Store (sc_proc s)) in
  Ret (match e with Some e => inl (SyncVersion e) | None => inr () end, s <| sc_proc := (sc_proc s) <| AppState.Store := db |> |>).
Definition read_tables {A} (f : AppStateDB -> sql_error + A) : Syncing A := fun s =>
  Ret (match f (AppState.Store (sc_proc s)) with inl e => inl (SyncVersion e) | inr a => inr a end, s).
Definition sendIQ (q : infoQuery) : Syncing node := fun s =>
  let '(r, server) := serve (sc_server s) q in
  Ret (match r with (_, Some e) => inl (SyncQuery e) | (resp, None) => inr (default (mkNode "" [] VNil) resp) end, s <| sc_server := server |>).

Definition syncQuery (attrs : list (string * value)) (content : value) : infoQuery :=
  mkQuery "w:sync:app:state" iqSet ServerJID EmptyJID "" "" (VNodes [mkNode "sync" [] (VNodes [mkNode "collection" attrs content])]) 0 false.
Definition collection_of (resp : node) (in_ : string) : Syncing node :=
  match GetOptionalChildByTag resp ["sync"; "collection"] with
  | (collection, true) => mret collection
  | (_, false) => sync_fail (SyncMissing "collection" in_)
  end.
Definition fetchAppStatePatches (name : string) (fromVersion : Z) (snapshot : bool) : Syncing (PatchList * bool) :=
  resp ← sendIQ (syncQuery ([("name", VString name); ("return_snapshot", VBool snapshot)] ++ (if snapshot then [] else [("version", VInt fromVersion)])) VNil);
  collection ← collection_of resp "app state patch response";
  from_sum (ParsePatchList collection).

(** ** Applying patches *)

Definition collected (name : string) (mutations : list Mutation) (fullSync : bool) (events : option (list state_event)) :
    Syncing (option (list state_event)) := fun s =>
  '(e, events, synced) ← collectEventsToDispatch d dedup EmitAppStateEventsOnFullSync name mutations fullSync events (sc_synced s);
  let s := s <| sc_synced := synced |> in
  Ret (match e with Some e => inl (SyncContacts e) | None => inr events end, s).
Definition applyAppStatePatches (name : string) (state : HashState) (patches : PatchList) (fullSync : bool) (events : option (list state_event)) :
    Syncing (HashState * option (list state_event)) := fun s =>
  match DecodePatches patches state true (sc_proc s) with
  | Panic e => Panic e
  | Ret (inl e, proc) =>
      let s := s <| sc_proc := proc |> in
      Ret (inl (SyncDecode e),
           match e with
           | ErrKeyNotFound => s <| sc_missing := sc_missing s ++ [patches] |>
           | _ => dispatch [AppStateSyncError name e fullSync] s
           end)
  | Ret (inr (mutations, newState), proc) =>
      (events ← collected name mutations fullSync events; mret (newState, events)) (s <| sc_proc := proc |>)
  end.

(** ** Fetching *)

Definition zero_hash_state : HashState := mkHashState 0 (replicate 128 0).
Definition checked_page (wantSnapshot : bool) (state : HashState) (patches : PatchList) : Syncing () :=
  match pl_Snapshot patches with
  | None => mret ()
  | Some _ =>
      if negb wantSnapshot then sync_fail UnexpectedSnapshot
      else if bool_decide (Version state = 0 /\ Hash state = replicate 128 0) then mret () else sync_fail NonEmptyState
  end.
Definition fetch_page (name : string) (fullSync wantSnapshot : bool) (state : HashState) (events : option (list state_event)) :
    Syncing (bool * HashState * option (list state_event)) :=
  page ← fetchAppStatePatches name (Version state) wantSnapshot;
  _ ← checked_page wantSnapshot state page.1;
  r ← applyAppStatePatches name state page.1 fullSync events;
  mret (page.2, r.1, r.2).
(** [None] is out of fuel: the server may have more patches for ever. *)
Fixpoint fetch_loop (fuel : nat) (name : string) (fullSync wantSnapshot : bool) (state : HashState) (events : option (list state_event)) (s : SyncClient) :
    option (outcome ((sync_error + HashState * option (list state_event)) * SyncClient)) :=
  match fuel with
  | O => None
  | S fuel =>
      match fetch_page name fullSync wantSnapshot state events s with
      | Panic e => Some (Panic e)
      | Ret (inl e, s) => Some (Ret (inl e, s))
      | Ret (inr (true, state, events), s) => fetch_loop fuel name fullSync false state events s
      | Ret (inr (false, state, events), s) => Some (Ret (inr (state, events), s))
      end
  end.

Definition fetchAppState (fuel : nat) (name : string) (fullSync onlyIfNotSynced : bool) (s : SyncClient) :
    option (outcome ((sync_error + list state_event) * SyncClient)) :=
  match (_ ← (if fullSync then on_tables (DeleteAppStateVersion name) else mret ()); read_tables (GetAppStateVersion name)) s with
  | Panic e => Some (Panic e)
  | Ret (inl e, s) => Some (Ret (inl e, s))
  | Ret (inr (version, hash), s) =>
      let fullSync := fullSync || (version =? 0) in
      if negb (version =? 0) && onlyIfNotSynced then Some (Ret (inr [], s))
      else
        let events := if fullSync && negb EmitAppStateEventsOnFullSync then None else Some [] in
        match fetch_loop fuel name fullSync fullSync (mkHashState version hash) events s with
        | None => None
        | Some (Panic e) => Some (Panic e)
        | Some (Ret (inl e, s)) => Some (Ret (inl e, s))
        | Some (Ret (inr (state, events), s)) =>
            Some (Ret (inr (default [] events ++ (if fullSync then [AppStateSyncComplete name (Version state) false] else [])), s))
        end
  end.
Definition FetchAppState (fuel : nat) (name : string) (fullSync onlyIfNotSynced : bool) (s : SyncClient) :
    option (outcome (option sync_error * SyncClient)) :=
  match fetchAppState fuel name fullSync onlyIfNotSynced s with
  | None => None
  | Some (Panic e) => Some (Panic e)
  | Some (Ret (inl e, s)) => Some (Ret (Some e, s))
  | Some (Ret (inr evts, s)) => Some (Ret (None, dispatch evts s))
  end.

(** ** Keys *)

(** An empty request is not sent. *)
Definition requestAppStateKeys (rawKeyIDs : list Bytes) (s : SyncClient) : SyncClient :=
  match rawKeyIDs with [] => s | _ => s <| sc_requested := sc_requested s ++ [rawKeyIDs] |> end.
Definition due (now : Time) (requests : gmap Bytes Time) (keyID : Bytes) : bool :=
  let lastRequestTime := default zeroTime (requests !! keyID) in
  IsZero lastRequestTime || bool_decide (Before (Add lastRequestTime (24 * Hour)) now).
Fixpoint filter_keys (now : Time) (rawKeyIDs : list Bytes) (requests : gmap Bytes Time) : list Bytes * gmap Bytes Time :=
  match rawKeyIDs with
  | [] => ([], requests)
  | keyID :: rawKeyIDs =>
      if due now requests keyID then
        let '(l, requests) := filter_keys now rawKeyIDs (<[keyID := now]> requests) in (keyID :: l, requests)
      else filter_keys now rawKeyIDs requests
  end.
Definition requestMissingAppStateKeys (now : Time) (patches : PatchList) (s : SyncClient) : SyncClient :=
  let '(filteredKeyIDs, requests) := filter_keys now (GetMissingKeyIDs patches (sc_proc s)) (appStateKeyRequests s) in
  requestAppStateKeys filteredKeyIDs (s <| appStateKeyRequests := requests |>).

(** ** Sending *)

Definition encoded (keyID : Bytes) (state : HashState) (now : Time) (random : nat -> option Bytes) (patch : PatchInfo) : Syncing Bytes := fun s =>
  match EncodePatch keyID state now random patch (sc_proc s) with
  | Panic e => Panic e
  | Ret (inl e, proc) => Ret (inl (SyncDecode e), s <| sc_proc := proc |>)
  | Ret (inr b, proc) => Ret (inr b, s <| sc_proc := proc |>)
  end.
(** What the server said to a patch: accepted, or refused with the error element and whether it is
    the conflict that is retried. *)
Inductive verdict : Type := Accepted | Refused (error : option node) | Conflict (error : option node) (collection : node).
Definition verdict_of (collection : node) : verdict :=
  if String.eqb (OptionalString "type" (AttrGetter collection)).1 "error" then
    match GetOptionalChildByTag collection ["error"] with
    | (errorTag, true) => if (Int "code" (AttrGetter errorTag)).1 =? 409 then Conflict (Some errorTag) collection else Refused (Some errorTag)
    | (_, false) => Refused None
    end
  else Accepted.
Definition send_patch (now : Time) (random : nat -> option Bytes) (patch : PatchInfo) : Syncing (HashState * verdict) :=
  vh ← read_tables (GetAppStateVersion (pi_Type patch));
  latest ← read_tables GetLatestAppStateSyncKeyID;
  match latest with
  | None => sync_fail NoAppStateKeys
  | Some keyID =>
      let state := mkHashState vh.1 vh.2 in
      encodedPatch ← encoded keyID state now random patch;
      resp ← sendIQ (syncQuery [("name", VString (pi_Type patch)); ("version", VInt vh.1); ("return_snapshot", VBool false)]
                       (VNodes [mkNode "patch" [] (VBytes (of_codes encodedPatch))]));
      collection ← collection_of resp "app state send response";
      mret (state, verdict_of collection)
  end.
(** The patches of a conflict are applied; the events of a goroutine are dispatched here. *)
Definition apply_conflict (type_ : string) (state : HashState) (collection : node) : Syncing () := fun s =>
  match (patches ← from_sum (ParsePatchList collection); applyAppStatePatches type_ state patches.1 false (Some [])) s with
  | Panic e => Panic e
  | Ret (inl e, s) => Ret (inl e, s)
  | Ret (inr (_, events), s) => Ret (inr (), dispatch (default [] events) s)
  end.
Definition refetch (fuel : nat) (type_ : string) (s : SyncClient) : option (outcome (option sync_error * SyncClient)) :=
  match fetchAppState fuel type_ false false s with
  | None => None
  | Some (Panic e) => Some (Panic e)
  | Some (Ret (inl e, s)) => Some (Ret (Some (SyncAfterSend e), s))
  | Some (Ret (inr evts, s)) => Some (Ret (None, dispatch evts s))
  end.
(** [now] and [random] are those of each attempt. *)
Definition final_attempt (fuel : nat) (now : Time) (random : nat -> option Bytes) (patch : PatchInfo) (s : SyncClient) :
    option (outcome (option sync_error * SyncClient)) :=
  match send_patch now random patch s with
  | Panic e => Some (Panic e)
  | Ret (inl e, s) => Some (Ret (Some e, s))
  | Ret (inr (_, Accepted), s) => refetch fuel (pi_Type patch) s
  | Ret (inr (_, (Refused e | Conflict e _)), s) => Some (Ret (Some (ErrAppStateUpdate e), s))
  end.
Definition SendAppState (fuel : nat) (now now' : Time) (random random' : nat -> option Bytes) (patch : PatchInfo) (s : SyncClient) :
    option (outcome (option sync_error * SyncClient)) :=
  match send_patch now random patch s with
  | Panic e => Some (Panic e)
  | Ret (inl e, s) => Some (Ret (Some e, s))
  | Ret (inr (_, Accepted), s) => refetch fuel (pi_Type patch) s
  | Ret (inr (_, Refused e), s) => Some (Ret (Some (ErrAppStateUpdate e), s))
  | Ret (inr (state, Conflict e collection), s) =>
      match apply_conflict (pi_Type patch) state collection s with
      | Panic msg => Some (Panic msg)
      | Ret (inl inner, s) => Some (Ret (Some (ErrConflict e inner), s))
      | Ret (inr _, s) => final_attempt fuel now' random' patch s
      end
  end.

(** ** Recovery *)

Context {Blob : Type} (ParseRecovery : Blob -> option (@SyncdSnapshotRecovery Action)) (handlerFails : state_event -> bool).
(** Events go out until a handler fails; the result is whether none did. *)
Fixpoint dispatch_all (evts : list state_event) (s : SyncClient) : bool * SyncClient :=
  match evts with
  | [] => (true, s)
  | evt :: evts => let s := dispatch [evt] s in if handlerFails evt then (false, s) else dispatch_all evts s
  end.
(** Errors are logged and count as handled. *)
Definition handleAppStateRecovery (result : list (option Blob)) (s : SyncClient) : outcome (bool * SyncClient) :=
  match result with
  | Some blob :: _ =>
      match ParseRecovery blob with
      | None => Ret (true, s)
      | Some snapshot =>
          let name := rc_Name snapshot in
          match GetAppStateVersion name (AppState.Store (sc_proc s)) with
          | inl _ => Ret (true, s)
          | inr (currentVersion, _) =>
              if rc_Version snapshot <=? currentVersion then Ret (true, s)
              else
                match ProcessRecovery hkdf_SHA256 hmac256 unmarshalIndex snapshot (sc_proc s) with
                | Panic e => Panic e
                | Ret (inl _, proc) => Ret (true, s <| sc_proc := proc |>)
                | Ret (inr mutations, proc) =>
                    '(r, s) ← collected name mutations true (if EmitAppStateEventsOnFullSync then Some [] else None) (s <| sc_proc := proc |>);
                    match r with
                    | inl _ => Ret (true, s)
                    | inr events => Ret (dispatch_all (default [] events ++ [AppStateSyncComplete name (rc_Version snapshot) true]) s)
                    end
                end
          end
      end
  | _ => Ret (true, s)
  end.

Definition MarkNotDirty (cleanType : string) (ts : Time) : Syncing () :=
  _ ← sendIQ (mkQuery "urn:xmpp:whatsapp:dirty" iqSet ServerJID EmptyJID "" ""
                (VNodes [mkNode "clean" [("type", VString cleanType); ("timestamp", VInt (toUnix ts))] VNil]) 0 false);
  mret ().
End Sync.
