(* ===== verification/AppStateFetch.v ===== *)
(** * Theorems about the synchronisation of the app state

    Pages do not matter, what an error loses, when keys are asked for, and what a failing
    handler does to a recovery. *)
From S2P Require Import Prelude GoStrings GoTime Jid BinaryNode NodeAttrs Requests PreKeys LtHash AppStateDB Cbc AppState AppStateSync AppStateCodec LidMap SqlDB SqlText Contacts AccountStore DeviceStore TcTokens AppStateActions AppStateClient.

(** ** Mutations are only added *)

Section Pages.
Context (hkdf_SHA256 : Bytes -> Bytes -> Bytes -> Z -> Bytes) (hmac256 hmac512 : Bytes -> Bytes -> Bytes).
Context {Block : Type} (NewCipher : Bytes -> option Block) (Dec : Block -> Bytes -> Bytes).
Context (unmarshalAction : Bytes -> option (@SyncActionData Action)) (unmarshalIndex : Bytes -> option (list string)).
Context {Ref : Type} (unmarshalRef : Bytes -> option Ref) (unmarshalSnapshot : Bytes -> option SyncdSnapshot).
Context (unmarshalPatch : Bytes -> option (SyncdPatch * option Ref)) (unmarshalMutations : Bytes -> option (list SyncdMutation)).
Context (downloadExternal : Ref -> option Bytes).
Context (d : Dialect) (dedup : forall E, (E -> JID) -> list E -> list E) (emit : bool).
Context {Server : Type} (serve : Server -> infoQuery -> (option node * option iq_error) * Server).

Notation decodeMutations := (AppState.decodeMutations hkdf_SHA256 hmac256 hmac512 NewCipher Dec unmarshalAction unmarshalIndex).
Notation decodePatch := (AppState.decodePatch hkdf_SHA256 hmac256 hmac512 NewCipher Dec unmarshalAction unmarshalIndex).
Notation decodeSnapshot := (AppState.decodeSnapshot hkdf_SHA256 hmac256 hmac512 NewCipher Dec unmarshalAction unmarshalIndex).
Notation decodePatchLoop := (AppState.decodePatchLoop hkdf_SHA256 hmac256 hmac512 NewCipher Dec unmarshalAction unmarshalIndex).
Notation DecodePatches := (AppState.DecodePatches hkdf_SHA256 hmac256 hmac512 NewCipher Dec unmarshalAction unmarshalIndex).
Notation SyncClient := (@SyncClient Server).

(** The mutations of a result with others in front. *)
Definition after {A} (m0 : list Mutation) (r : outcome ((app_error + A * list Mutation) * Processor)) : outcome ((app_error + A * list Mutation) * Processor) :=
  match r with Ret (inr (a, muts), p) => Ret (inr (a, m0 ++ muts), p) | r => r end.
Definition after' {A} (m0 : list Mutation) (r : outcome ((app_error + list Mutation * A) * Processor)) : outcome ((app_error + list Mutation * A) * Processor) :=
  match r with Ret (inr (muts, a), p) => Ret (inr (m0 ++ muts, a), p) | r => r end.
Lemma decodeMutations_after mus v ver : forall i out m0 acc p,
  decodeMutations mus i v ver out (m0 ++ acc) p = after m0 (decodeMutations mus i v ver out acc p).
Proof.
  induction mus as [|mu mus IH]; intros i out m0 acc p; [done|]. cbn [AppState.decodeMutations]. unfold mbind, App_bind.
  destruct (AppState.decodeMutation _ _ _ _ _ _ _ _ _ _ p) as [[[e|[[[imac vmac] index] sa]] p1]|]; [done| |done]. by rewrite <- app_assoc, IH.
Qed.
Lemma decodePatch_after name patch v m0 acc hs p : decodePatch name patch v (m0 ++ acc, hs) p = after' m0 (decodePatch name patch v (acc, hs) p).
Proof.
  unfold AppState.decodePatch, mbind, App_bind. cbn [fst snd]. destruct (AppState.validatePatch _ _ _ _ _ _ p) as [[[e|hs1] p1]|]; [done| |done].
  rewrite decodeMutations_after. destruct (decodeMutations _ _ _ _ _ acc p1) as [[[e|[out muts]] p2]|]; [done| |done]. cbn [after].
  by destruct (storeMACs name hs1 out p2) as [[[e|[]] p3]|].
Qed.
Lemma decodePatchLoop_after name patches v : forall m0 acc hs p, decodePatchLoop name patches v (m0 ++ acc, hs) p = after' m0 (decodePatchLoop name patches v (acc, hs) p).
Proof.
  induction patches as [|patch patches IH]; intros m0 acc hs p; [done|]. cbn [AppState.decodePatchLoop]. unfold mbind, App_bind.
  rewrite decodePatch_after. destruct (decodePatch _ _ _ (acc, hs) p) as [[[e|[muts hs1]] p1]|]; [done| |done]. cbn [after']. apply IH.
Qed.
Lemma decodePatchLoop_app name l l' v acc p : decodePatchLoop name (l ++ l') v acc p = (acc ← decodePatchLoop name l v acc; decodePatchLoop name l' v acc) p.
Proof.
  revert acc p. induction l as [|patch l IH]; intros acc p; [done|]. cbn [AppState.decodePatchLoop app]. unfold mbind, App_bind in *.
  destruct (decodePatch _ _ _ acc p) as [[[e|acc1] p1]|]; [done| |done]. apply IH.
Qed.
(** A page of patches after others. *)
Lemma DecodePatches_next name l l' snap st p m1 st1 p1 m2 st2 p2 :
  DecodePatches (mkPatchList name l snap) st true p = Ret (inr (m1, st1), p1) ->
  DecodePatches (mkPatchList name l' None) st1 true p1 = Ret (inr (m2, st2), p2) ->
  DecodePatches (mkPatchList name (l ++ l') snap) st true p = Ret (inr (m1 ++ m2, st2), p2).
Proof.
  unfold AppState.DecodePatches. cbn [pl_Snapshot pl_Name pl_Patches]. intros H1 H2. apply app_bind_inv in H1 as (acc & q & Hs & H1).
  unfold mbind, App_bind in *. rewrite Hs, decodePatchLoop_app. unfold mbind, App_bind. rewrite H1. cbn [mret App_ret] in H2.
  rewrite <- (app_nil_r m1), decodePatchLoop_after. unfold App_ret in H2. by rewrite H2, app_nil_r.
Qed.

(** ** The loop *)

Lemma collectEvents_app muts muts' full ev s :
  collectEvents d (muts ++ muts') full ev s = ('(ev, s) ← collectEvents d muts full ev s; collectEvents d muts' full ev s).
Proof.
  revert ev s. induction muts as [|m muts IH]; intros ev s; [done|]. cbn [collectEvents app mbind outcome_bind].
  destruct (dispatchAppState d m full s) as [[evt s1]|]; [|done]. apply IH.
Qed.
Lemma sync_bind_inv {A B} (m : @Syncing Server A) (f : A -> @Syncing Server B) s b s' : (m ≫= f) s = Ret (inr b, s') ->
  exists a s1, m s = Ret (inr a, s1) /\ f a s1 = Ret (inr b, s').
Proof. unfold mbind, Syncing_bind. destruct (m s) as [[[e|a] s1]|]; [done| |done]. intros H. by exists a, s1. Qed.

Notation fetchAppStatePatches := (AppStateClient.fetchAppStatePatches unmarshalRef unmarshalSnapshot unmarshalPatch unmarshalMutations downloadExternal serve).
Notation applyAppStatePatches := (AppStateClient.applyAppStatePatches hkdf_SHA256 hmac256 hmac512 NewCipher Dec unmarshalAction unmarshalIndex d dedup emit).
Notation fetch_page := (AppStateClient.fetch_page hkdf_SHA256 hmac256 hmac512 NewCipher Dec unmarshalAction unmarshalIndex unmarshalRef unmarshalSnapshot
  unmarshalPatch unmarshalMutations downloadExternal d dedup emit serve).
Notation fetch_loop := (AppStateClient.fetch_loop hkdf_SHA256 hmac256 hmac512 NewCipher Dec unmarshalAction unmarshalIndex unmarshalRef unmarshalSnapshot
  unmarshalPatch unmarshalMutations downloadExternal d dedup emit serve).

(** The pages that the loop gets. *)
Fixpoint fetched (fuel : nat) (name : string) (fullSync wantSnapshot : bool) (state : HashState) (events : option (list state_event)) (s : SyncClient) : list PatchList :=
  match fuel with
  | O => []
  | S fuel =>
      match fetchAppStatePatches name (Version state) wantSnapshot s with
      | Ret (inr (page, _), _) =>
          page :: match fetch_page name fullSync wantSnapshot state events s with
                  | Ret (inr (true, state, events), s) => fetched fuel name fullSync false state events s
                  | _ => []
                  end
      | _ => []
      end
  end.
Lemma fetch_patches_kept name v want s r s' : fetchAppStatePatches name v want s = Ret (r, s') -> sc_proc s' = sc_proc s /\ sc_synced s' = sc_synced s.
Proof.
  unfold AppStateClient.fetchAppStatePatches, mbind, Syncing_bind, sendIQ. destruct (serve _ _) as [[resp [e|]] srv]; [by intros [= <- <-]|].
  unfold collection_of. destruct (GetOptionalChildByTag _ _) as [c []]; [|by intros [= <- <-]]. by intros [= <- <-].
Qed.
Lemma apply_inv name st page full ev (s : SyncClient) st' ev' s' : applyAppStatePatches name st page full ev s = Ret (inr (st', ev'), s') ->
  exists muts, DecodePatches page st true (sc_proc s) = Ret (inr (muts, st'), sc_proc s') /\
    collectEventsToDispatch d dedup emit name muts full ev (sc_synced s) = Ret (None, ev', sc_synced s').
Proof.
  unfold AppStateClient.applyAppStatePatches. destruct (DecodePatches page st true (sc_proc s)) as [[[e|[muts st1]] q]|]; [done| |done].
  intros H. apply sync_bind_inv in H as (ev1 & s1 & H & Hr). injection Hr as <- <- <-. exists muts. revert H. unfold collected. cbn [sc_synced].
  change (sc_synced (s <| sc_proc := q |>)) with (sc_synced s).
  destruct (collectEventsToDispatch d dedup emit name muts full ev (sc_synced s)) as [[[[e|] ev2] sy]|]; [done| |done]. by intros [= <- <-].
Qed.
Lemma page_inv name full want st ev s more st' ev' s' : fetch_page name full want st ev s = Ret (inr (more, st', ev'), s') ->
  exists page s1 muts, fetchAppStatePatches name (Version st) want s = Ret (inr (page, more), s1) /\ (want = false -> pl_Snapshot page = None) /\
    DecodePatches page st true (sc_proc s) = Ret (inr (muts, st'), sc_proc s') /\
    collectEventsToDispatch d dedup emit name muts full ev (sc_synced s) = Ret (None, ev', sc_synced s').
Proof.
  intros H. apply sync_bind_inv in H as ([page more'] & s1 & Hf & H). apply sync_bind_inv in H as ([] & s2 & Hc & H).
  apply sync_bind_inv in H as ([st1 ev1] & s3 & Ha & H). injection H as -> -> -> ->. cbn [fst snd] in *.
  assert (s2 = s1 /\ (want = false -> pl_Snapshot page = None)) as [-> Hw].
  { revert Hc. unfold checked_page. destruct (pl_Snapshot page); [|by intros [= <-]]. destruct want; cbn [negb]; [|done].
    case_bool_decide; [|done]. by intros [= <-]. }
  apply fetch_patches_kept in Hf as Hk. destruct Hk as [Hp Hy]. apply apply_inv in Ha as (muts & Hd & He). rewrite Hp in Hd. rewrite Hy in He.
  by exists page, s1, muts.
Qed.

(** The contacts of a collection may be stored in bulk. *)
Definition bulk (name : string) (full : bool) : bool := String.eqb name WAPatchCriticalUnblockLow && full && negb emit.
Lemma collect_each name muts full ev s ev' s' : bulk name full = false -> collectEventsToDispatch d dedup emit name muts full ev s = Ret (None, ev', s') ->
  collectEvents d muts full ev s = Ret (ev', s').
Proof. unfold collectEventsToDispatch, bulk. intros ->. cbn [mbind outcome_bind]. destruct (collectEvents d muts full ev s) as [[ev1 s1]|]; [|done]. by intros [= <- <-]. Qed.

(** The pages one after the other: each is decoded from the state that the one before
    left, and its mutations are applied to the stores before the next is looked at. *)
Inductive page_by_page (name : string) (full : bool) : list PatchList -> list (list Mutation) ->
    HashState * Processor * option (list state_event) * Synced -> HashState * Processor * option (list state_event) * Synced -> Prop :=
| no_pages x : page_by_page name full [] [] x x
| next_page page pages muts mutss st p ev s st1 p1 ev1 s1 x :
    DecodePatches page st true p = Ret (inr (muts, st1), p1) ->
    collectEventsToDispatch d dedup emit name muts full ev s = Ret (None, ev1, s1) ->
    page_by_page name full pages mutss (st1, p1, ev1, s1) x -> page_by_page name full (page :: pages) (muts :: mutss) (st, p, ev, s) x.

(** Without the bulk the boundaries of the pages do not matter to the stores either. *)
Lemma page_by_page_each name full pages mutss x y : bulk name full = false -> page_by_page name full pages mutss x y ->
  collectEvents d (concat mutss) full x.1.2 x.2 = Ret (y.1.2, y.2).
Proof.
  intros Hb. induction 1 as [x|page pages muts mutss st p ev s st1 p1 ev1 s1 x Hd He Hp IH]; [done|]. cbn [concat].
  rewrite collectEvents_app. apply (collect_each _ _ _ _ _ _ _ Hb) in He. cbn [fst snd] in *. by rewrite He.
Qed.

Lemma pages_spec n name full : forall fuel want st ev s st' ev' s',
  fetch_loop fuel name full want st ev s = Some (Ret (inr (st', ev'), s')) -> Forall (fun pl => pl_Name pl = n) (fetched fuel name full want st ev s) ->
  let pages := fetched fuel name full want st ev s in
  (want = false -> (head pages ≫= pl_Snapshot) = None) /\
  exists mutss, page_by_page name full pages mutss (st, sc_proc s, ev, sc_synced s) (st', sc_proc s', ev', sc_synced s') /\
    DecodePatches (mkPatchList n (concat (pl_Patches <$> pages)) (head pages ≫= pl_Snapshot)) st true (sc_proc s) = Ret (inr (concat mutss, st'), sc_proc s').
Proof.
  induction fuel as [|fuel IH]; intros want st ev s st' ev' s' H Hn; [done|]. cbn [AppStateClient.fetch_loop] in H. cbn [fetched] in *.
  destruct (fetch_page name full want st ev s) as [[[e|[[more st1] ev1]] s1]|] eqn:Hp; [done| |done].
  apply page_inv in Hp as (page & s0 & muts & Hf & Hw & Hd & He). rewrite Hf in *. pose proof Hd as Hd'.
  apply Forall_cons in Hn as [Hname Hn]. cbn [head mbind option_bind fmap list_fmap concat] in *. split; [done|].
  assert (page = mkPatchList n (pl_Patches page) (pl_Snapshot page)) as Hpage by (rewrite <- Hname; by destruct page). rewrite Hpage in Hd. destruct more.
  - destruct (IH _ _ _ _ _ _ _ H Hn) as (Hs & mutss & Hpp & Hd2). rewrite (Hs eq_refl) in Hd2. exists (muts :: mutss).
    split; [by eapply next_page|by eapply DecodePatches_next].
  - injection H as <- <- <-. exists [muts]. cbn. rewrite !app_nil_r. split; [|done]. eapply next_page; [done..|constructor].
Qed.
(** C18. However the server cuts the patches into pages, a fetch that succeeds leaves the tables and
    the hash of one list with the patches of all pages in order, after the snapshot of the first
    page, and decodes the mutations of that list.  The stores and the events are those of
    the mutations applied in that order, page by page; where contacts are not stored in bulk,
    they are those of one list too.  In bulk - a full synchronisation of critical_unblock_low while
    [EmitAppStateEventsOnFullSync] is off, as it is by default - the contacts of a page are
    stored before its other mutations, so that there the stores may depend on where the pages end. *)
Theorem pages_do_not_matter n name full fuel want st ev s st' ev' s' :
  fetch_loop fuel name full want st ev s = Some (Ret (inr (st', ev'), s')) ->
  let pages := fetched fuel name full want st ev s in
  Forall (fun pl => pl_Name pl = n) pages ->
  exists mutss,
    DecodePatches (mkPatchList n (concat (pl_Patches <$> pages)) (head pages ≫= pl_Snapshot)) st true (sc_proc s) = Ret (inr (concat mutss, st'), sc_proc s') /\
    page_by_page name full pages mutss (st, sc_proc s, ev, sc_synced s) (st', sc_proc s', ev', sc_synced s') /\
    (bulk name full = false -> collectEvents d (concat mutss) full ev (sc_synced s) = Ret (ev', sc_synced s')).
Proof.
  intros H pages Hn. destruct (pages_spec n name full fuel want st ev s st' ev' s' H Hn) as (_ & mutss & Hp & Hd). exists mutss.
  split; [exact Hd|]. split; [exact Hp|]. intros Hb. exact (page_by_page_each _ _ _ _ _ _ Hb Hp).
Qed.

Lemma apply_server name st page full ev (s : SyncClient) r s' : applyAppStatePatches name st page full ev s = Ret (r, s') -> sc_server s' = sc_server s.
Proof.
  unfold AppStateClient.applyAppStatePatches. destruct (DecodePatches page st true (sc_proc s)) as [[[e|[muts st1]] q]|]; [|  |done].
  - destruct e; by intros [= <- <-].
  - unfold mbind, Syncing_bind, collected, outcome_bind. destruct (collectEventsToDispatch _ _ _ _ _ _ _ _) as [[[[e|] ev2] sy]|]; [| |done]; by intros [= <- <-].
Qed.
(** A server that has a number of pages left, which every page that promises more makes
    smaller, is asked no more often than that and once more. *)
Theorem fetch_ends (left : Server -> nat) name full :
  (forall v want s page s', fetchAppStatePatches name v want s = Ret (inr (page, true), s') -> (left (sc_server s') < left (sc_server s))%nat) ->
  forall fuel want st ev s, (left (sc_server s) < fuel)%nat -> is_Some (fetch_loop fuel name full want st ev s).
Proof.
  intros Hleft. induction fuel as [|fuel IH]; intros want st ev s Hf; [lia|]. cbn [AppStateClient.fetch_loop].
  destruct (fetch_page name full want st ev s) as [[[e|[[[] st1] ev1]] s1]|] eqn:Hp; try by eexists.
  apply IH. apply sync_bind_inv in Hp as ([page more'] & s2 & Hq & H). apply sync_bind_inv in H as ([] & s3 & Hc & H).
  apply sync_bind_inv in H as ([st2 ev2] & s4 & Ha & H). injection H as -> -> -> ->. cbn [fst snd] in *. apply apply_server in Ha. apply Hleft in Hq.
  assert (s3 = s2) as ->; [|rewrite Ha; lia]. revert Hc. unfold checked_page. repeat case_match; by intros [= <-].
Qed.

(** ** What an error loses *)

(** When a patch of a page cannot be decoded, the patches before it stay in the tables, so
    that they are not fetched again, but nothing of them reaches the stores or the handlers:
    the only event is the error. *)
Theorem failed_patch_loses_earlier name st n first rest full ev (s : SyncClient) muts1 st1 q1 e q2 :
  decodePatch n first true ([], st) (sc_proc s) = Ret (inr (muts1, st1), q1) ->
  decodePatchLoop n rest true (muts1, st1) q1 = Ret (inl e, q2) -> e <> ErrKeyNotFound ->
  let s' := s <| sc_proc := q2 |> in
  applyAppStatePatches name st (mkPatchList n (first :: rest) None) full ev s =
    Ret (inl (SyncDecode e), dispatch [AppStateSyncError name e full] s') /\
  versions (AppState.Store q1) !! n = Some (Version st1, Hash st1).
Proof.
  intros H1 H2 He s'. split.
  - unfold AppStateClient.applyAppStatePatches, AppState.DecodePatches. cbn [pl_Snapshot pl_Name pl_Patches]. unfold mbind at 1, App_bind at 1.
    cbn [mret App_ret]. unfold App_ret. cbn [AppState.decodePatchLoop]. unfold mbind, App_bind. rewrite H1, H2. by destruct e.
  - unfold AppState.decodePatch in H1. apply app_bind_inv in H1 as (hs & p1 & _ & H1). apply app_bind_inv in H1 as ([out muts] & p2 & _ & H1).
    apply app_bind_inv in H1 as ([] & p3 & Hs & H1). injection H1 as <- <- <-. apply storeMACs_inv in Hs as (-> & _). apply lookup_insert_eq.
Qed.
End Pages.

(** ** When keys are asked for *)

Section Keys.
Lemma filter_keys_other now ids : forall req k, k ∉ ids -> (filter_keys now ids req).2 !! k = req !! k.
Proof.
  induction ids as [|i ids IH]; intros req k Hk; [done|]. apply not_elem_of_cons in Hk as [Hne Hk]. cbn [filter_keys].
  destruct (due now req i); [|by apply IH]. specialize (IH (<[i:=now]> req) k Hk). destruct (filter_keys now ids (<[i:=now]> req)) as [l r]. cbn in *.
  by rewrite IH, lookup_insert_ne.
Qed.
Lemma filter_keys_spec now ids : NoDup ids -> forall req k, k ∈ ids ->
  (k ∈ (filter_keys now ids req).1 <-> due now req k = true) /\
  (filter_keys now ids req).2 !! k = if due now req k then Some now else req !! k.
Proof.
  induction 1 as [|i ids Hi Hnd IH]; intros req k Hk; [by apply not_elem_of_nil in Hk|]. cbn [filter_keys].
  assert (forall req', (filter_keys now ids req').1 ⊆ ids) as Hsub.
  { clear. induction ids as [|j ids IH]; intros req' x Hx; [done|]. cbn [filter_keys] in Hx. destruct (due now req' j).
    - specialize (IH (<[j:=now]> req') x). destruct (filter_keys now ids (<[j:=now]> req')) as [l r]. cbn in *. apply elem_of_cons in Hx as [->|Hx]; [by left|right; auto].
    - right. by apply (IH req'). }
  destruct (decide (k = i)) as [->|Hne].
  - destruct (due now req i) eqn:Hd.
    + pose proof (filter_keys_other now ids (<[i:=now]> req) i Hi) as Ho. destruct (filter_keys now ids (<[i:=now]> req)) as [l r]. cbn in *.
      rewrite Ho, lookup_insert_eq. split; [|done]. split; [done|]. intros _. by left.
    + rewrite (filter_keys_other now ids req i Hi). split; [|done]. split; [|done]. intros Hin. apply Hsub in Hin. done.
  - apply elem_of_cons in Hk as [|Hk]; [done|]. destruct (due now req i) eqn:Hd; [|by apply IH].
    assert (due now (<[i:=now]> req) k = due now req k) as Hdue by (unfold due; by rewrite lookup_insert_ne).
    specialize (IH (<[i:=now]> req) k Hk). rewrite Hdue, lookup_insert_ne in IH by done. destruct (filter_keys now ids (<[i:=now]> req)) as [l r]. cbn in *.
    destruct IH as [IH1 IH2]. rewrite IH2. split; [|done]. rewrite elem_of_cons. split; [|by right; apply IH1]. intros [?|Hin]; [done|]. by apply IH1.
Qed.
Lemma missing_NoDup db ids : forall seen, NoDup (missingKeys db seen ids) /\ forall k, k ∈ missingKeys db seen ids -> k ∉ seen.
Proof.
  induction ids as [|[k|] ids IH]; intros seen; cbn [missingKeys]; [split; [constructor|]; intros ? Hk; by apply not_elem_of_nil in Hk| |apply IH].
  destruct (decide (k ∈ seen)); [apply IH|]. destruct (IH (k :: seen)) as [Hn Hs].
  assert (forall x, x ∈ missingKeys db (k :: seen) ids -> x ∉ seen) as Hs' by (intros x Hx Hin; apply (Hs x Hx); by right).
  destruct (GetAppStateSyncKey k db) as [e|[key|]]; [by split|by split|]. split.
  - constructor; [|done]. intros Hk. apply (Hs k Hk). by left.
  - intros x [->|Hx]%elem_of_cons; [done|by apply Hs'].
Qed.

(** The keys that are missing are asked for, except those that were asked for in the 24 hours
    before; what was asked for is not due again until 24 hours are over. *)
Theorem keys_asked_daily {Server} now patches (s : @SyncClient Server) : IsZero now = false ->
  let s' := requestMissingAppStateKeys now patches s in
  exists asked, (forall k, k ∈ asked <-> k ∈ GetMissingKeyIDs patches (sc_proc s) /\ due now (appStateKeyRequests s) k = true) /\
    sc_requested s' = sc_requested s ++ (if decide (asked = []) then [] else [asked]) /\
    forall k later, k ∈ asked -> later <= now + 24 * Hour -> due later (appStateKeyRequests s') k = false.
Proof.
  intros Hz s'. unfold s', requestMissingAppStateKeys. set (ids := GetMissingKeyIDs patches (sc_proc s)).
  assert (NoDup ids) as Hnd by apply missing_NoDup.
  pose proof (filter_keys_spec now ids Hnd (appStateKeyRequests s)) as Hf.
  assert (forall k, k ∈ (filter_keys now ids (appStateKeyRequests s)).1 -> k ∈ ids) as Hsub.
  { clear. generalize (appStateKeyRequests s). induction ids as [|j ids IH]; intros req x Hx; [done|]. cbn [filter_keys] in Hx. destruct (due now req j).
    - specialize (IH (<[j:=now]> req) x). destruct (filter_keys now ids (<[j:=now]> req)) as [l r]. cbn in *. apply elem_of_cons in Hx as [->|Hx]; [by left|right; auto].
    - right. by apply (IH req). }
  destruct (filter_keys now ids (appStateKeyRequests s)) as [l req]. cbn [fst snd] in *. exists l. split; [|split].
  - intros k. split; [intros Hk; split; [auto|by apply Hf, Hk; auto]|intros [Hk Hd]; by apply Hf].
  - destruct l; cbn; [by rewrite app_nil_r|done].
  - intros k later Hk Hl. assert (appStateKeyRequests (requestAppStateKeys l (s <| appStateKeyRequests := req |>)) = req) as -> by (by destruct l).
    destruct (Hf k (Hsub k Hk)) as [Hin Hreq]. unfold due. rewrite Hreq, (proj1 Hin Hk). cbv zeta. change (default zeroTime (Some now)) with now. rewrite Hz. cbn [orb].
    apply bool_decide_eq_false. unfold Before, Add. lia.
Qed.
End Keys.

(** ** A recovery whose handler fails *)

Section Recovery.
Context (hkdf_SHA256 : Bytes -> Bytes -> Bytes -> Z -> Bytes) (hmac256 : Bytes -> Bytes -> Bytes) (unmarshalIndex : Bytes -> option (list string)).
Context (d : Dialect) (dedup : forall E, (E -> JID) -> list E -> list E) (emit : bool) {Server Blob : Type}.
Context (ParseRecovery : Blob -> option (@SyncdSnapshotRecovery Action)).
Notation SyncClient := (@SyncClient Server).
Notation handle := (handleAppStateRecovery hkdf_SHA256 hmac256 unmarshalIndex d dedup emit ParseRecovery).

Lemma recovered_version (snapshot : @SyncdSnapshotRecovery Action) p muts p' : ProcessRecovery hkdf_SHA256 hmac256 unmarshalIndex snapshot p = Ret (inr muts, p') ->
  versions (AppState.Store p') !! rc_Name snapshot = Some (rc_Version snapshot, rc_LtHash snapshot) /\ length (rc_LtHash snapshot) = 128%nat.
Proof.
  unfold ProcessRecovery. destruct (length (rc_LtHash snapshot) =? 128)%nat eqn:Hl; [|done]. apply Nat.eqb_eq in Hl. cbn [negb]. intros H.
  apply app_bind_inv in H as ([macs mutations] & p1 & _ & H). apply app_bind_inv in H as ([] & p2 & _ & H). apply app_bind_inv in H as ([] & p3 & H3 & H).
  apply app_bind_inv in H as ([] & p4 & H4 & H). injection H as <- <-. split; [|done].
  apply app_store_inv in H3 as (db3 & H3 & ->), H4 as (db4 & H4 & ->). change (AppState.Store (p2 <| AppState.Store := db3 |> <| AppState.Store := db4 |>)) with db4.
  change (AppState.Store (p2 <| AppState.Store := db3 |>)) with db3 in H4. unfold PutAppStateVersion in H3. apply exec_ok in H3 as (fs & H3).
  rewrite decide_True in H3 by done. injection H3 as <-. unfold PutAppStateMutationMACs in H4. destruct macs as [|mac macs].
  - injection H4 as <-. apply lookup_insert_eq.
  - apply exec_ok in H4 as (fs' & H4). apply insertRows_spec in H4 as (_ & -> & _). apply lookup_insert_eq.
Qed.
Lemma dispatch_all_proc fails evts : forall s : SyncClient, sc_proc (dispatch_all fails evts s).2 = sc_proc s.
Proof. induction evts as [|e evts IH]; intros s; [done|]. cbn [dispatch_all]. destruct (fails e); [done|]. by rewrite IH. Qed.

(** When a handler fails the message with the recovery is not confirmed, so that it comes again;
    but by then the version is that of the recovery, and the rest of the events is never
    dispatched. *)
Theorem recovery_events_lost fails fails' result (s s' : SyncClient) :
  handle fails result s = Ret (false, s') -> handle fails' result s' = Ret (true, s').
Proof.
  unfold handleAppStateRecovery. destruct result as [|[blob|] rest]; [done| |done]. destruct (ParseRecovery blob) as [snapshot|]; [|done].
  destruct (GetAppStateVersion _ _) as [e|[current h]]; [done|]. destruct (_ <=? current); [done|].
  destruct (ProcessRecovery _ _ _ snapshot (sc_proc s)) as [[[e|muts] p]|] eqn:Hp; [done| |done]. apply recovered_version in Hp as [Hv Hl].
  destruct (collected _ _ _ _ _ _ _ _) as [[r s1]|] eqn:Hc; [|done]. cbn [mbind outcome_bind]. destruct r as [e|events]; [done|]. intros [= Hd].
  assert (sc_proc s1 = p) as Hs1.
  { revert Hc. unfold collected, outcome_bind. cbn [mbind]. unfold outcome_bind. destruct (collectEventsToDispatch _ _ _ _ _ _ _ _) as [[[[e|] ev] sy]|]; [| |done]; by intros [= _ <-]. }
  assert (sc_proc s' = p) as -> by (rewrite <- Hs1, <- (dispatch_all_proc fails (default [] events ++ [AppStateSyncComplete (rc_Name snapshot) (rc_Version snapshot) true]) s1); by rewrite Hd).
  unfold GetAppStateVersion. destruct (down (AppState.Store p)); [done|].
  match goal with |- context [match ?x with Some _ => _ | None => _ end] => replace x with (Some (rc_Version snapshot, rc_LtHash snapshot)) by (symmetry; exact Hv) end.
  rewrite Hl. cbn [negb Nat.eqb]. destruct (rc_Version snapshot =? 0); [done|].
  by rewrite Z.leb_refl.
Qed.
End Recovery.

(** ** The theorems at work *)

(** A server with its answers written down; the patches are 1, which is good, and 2, which is not. *)
Definition scripted (script : list node) (q : infoQuery) : (option node * option iq_error) * list node :=
  match script with n :: script => ((Some n, None), script) | [] => ((None, Some ErrNotConnected), []) end.
Definition demo_page (more : string) (patches : list Z) : node :=
  mkNode "iq" [] (VNodes [mkNode "sync" [] (VNodes [mkNode "collection" [("name", VString WAPatchRegular); ("has_more_patches", VString more)]
    (VNodes [mkNode "patches" [] (VNodes ((fun p => mkNode "patch" [] (VBytes (of_codes [p]))) <$> patches))])])]).
Definition demo_patch (b : Bytes) : option (SyncdPatch * option ()) :=
  match b with [1] => Some (toy_patch 1, None) | [2] => Some (mkPatch 2 [] [] [] (Some [1]), None) | _ => None end.
Definition demo_action (b : Bytes) : option (@SyncActionData Action) := (fun sd => mkActionData (sad_Index sd) noAction (sad_Version sd)) <$> toy_unmarshal b.
Definition demo_client (script : list node) : @SyncClient (list node) := mkSyncClient script toy_processor demo_synced ∅ [] [] [].
Notation demo_loop := (AppStateClient.fetch_loop toy_hkdf (toy_hmac 32) (toy_hmac 64) toy_cipher toy_block demo_action toy_unindex (Ref := ())
  (fun _ => None) (fun _ => None) demo_patch (fun _ => None) (fun _ => None) SQLite (fun _ _ l => l) true scripted).
Definition demo_script : list node := [demo_page "true" [1]; demo_page "false" []].
Definition demo_fetched : option (outcome ((sync_error + HashState * option (list state_event)) * @SyncClient (list node))) :=
  demo_loop 5 WAPatchRegular false false zero_state (Some []) (demo_client demo_script).
(** The loop of [demo_fetched] succeeds, and decodes what one page would have. *)
Lemma pages_do_not_matter_witness : exists st ev s' mutss,
  demo_fetched = Some (Ret (inr (st, ev), s')) /\ length (concat mutss) = 2%nat /\
  AppState.DecodePatches toy_hkdf (toy_hmac 32) (toy_hmac 64) toy_cipher toy_block demo_action toy_unindex (mkPatchList WAPatchRegular [toy_patch 1] None)
    zero_state true toy_processor = Ret (inr (concat mutss, st), sc_proc s') /\
  collectEvents SQLite (concat mutss) false (Some []) demo_synced = Ret (ev, sc_synced s').
Proof.
  assert (match demo_fetched with Some (Ret (inr (st, _), _)) => Version st =? 1 | _ => false end = true) as Hret by (vm_compute; reflexivity).
  unfold demo_fetched in *.
  destruct (demo_loop 5 WAPatchRegular false false zero_state (Some []) (demo_client demo_script)) as [[[[e|[st ev]] s']|]|] eqn:H; try discriminate Hret.
  destruct (pages_do_not_matter toy_hkdf (toy_hmac 32) (toy_hmac 64) toy_cipher toy_block demo_action toy_unindex (Ref := ())
    (fun _ => None) (fun _ => None) demo_patch (fun _ => None) (fun _ => None) SQLite (fun _ _ l => l) true scripted
    WAPatchRegular WAPatchRegular false 5 false zero_state (Some []) (demo_client demo_script) st ev s' H) as (mutss & Hd & _ & He).
  { vm_compute. repeat constructor. }
  exists st, ev, s', mutss. split; [reflexivity|].
  assert (AppState.DecodePatches toy_hkdf (toy_hmac 32) (toy_hmac 64) toy_cipher toy_block demo_action toy_unindex (mkPatchList WAPatchRegular [toy_patch 1] None)
    zero_state true toy_processor = Ret (inr (concat mutss, st), sc_proc s')) as Hone by (etrans; [|exact Hd]; vm_compute; reflexivity).
  split; [|split; [exact Hone|exact (He eq_refl)]].
  assert (match AppState.DecodePatches toy_hkdf (toy_hmac 32) (toy_hmac 64) toy_cipher toy_block demo_action toy_unindex (mkPatchList WAPatchRegular [toy_patch 1] None)
    zero_state true toy_processor with Ret (inr (m, _), _) => length m = 2%nat | _ => True end) as Hlen by (vm_compute; reflexivity).
  rewrite Hone in Hlen. exact Hlen.
Defined.

Lemma scripted_shorter name v want (s : @SyncClient (list node)) page s' :
  fetchAppStatePatches (Ref := ()) (fun _ => None) (fun _ => None) demo_patch (fun _ => None) (fun _ => None) scripted name v want s = Ret (inr (page, true), s') ->
  (length (sc_server s') < length (sc_server s))%nat.
Proof.
  unfold fetchAppStatePatches. intros H. apply sync_bind_inv in H as (resp & s1 & Hq & H). apply sync_bind_inv in H as (c & s2 & Hc & H). injection H as _ <-.
  assert (s2 = s1) as -> by (revert Hc; unfold collection_of; destruct (GetOptionalChildByTag resp _) as [? []]; by intros [= _ <-]).
  revert Hq. unfold sendIQ, scripted. destruct (sc_server s) as [|n l]; [done|]. intros [= _ <-]. cbn. lia.
Qed.
Lemma fetch_ends_witness : is_Some (demo_loop 3 WAPatchRegular false false zero_state (Some []) (demo_client demo_script)).
Proof.
  exact (fetch_ends toy_hkdf (toy_hmac 32) (toy_hmac 64) toy_cipher toy_block demo_action toy_unindex (fun _ => None) (fun _ => None) demo_patch (fun _ => None)
    (fun _ => None) SQLite (fun _ _ l => l) true scripted (fun l => length l) WAPatchRegular false (scripted_shorter WAPatchRegular) 3 false zero_state (Some [])
    (demo_client demo_script) ltac:(by vm_compute; lia)).
Defined.

(** The second patch of a page is bad: the version is that of the first, whose mutations are lost. *)
Lemma failed_patch_loses_earlier_witness : exists e s',
  AppStateClient.applyAppStatePatches toy_hkdf (toy_hmac 32) (toy_hmac 64) toy_cipher toy_block demo_action toy_unindex SQLite (fun _ _ l => l) true
    WAPatchRegular zero_state (mkPatchList WAPatchRegular [toy_patch 1; mkPatch 2 [] [] [] (Some [1])] None) false (Some []) (demo_client []) = Ret (inl (SyncDecode e), s') /\
  sc_synced s' = demo_synced /\ sc_dispatched s' = [AppStateSyncError WAPatchRegular e false].
Proof.
  set (first := AppState.decodePatch toy_hkdf (toy_hmac 32) (toy_hmac 64) toy_cipher toy_block demo_action toy_unindex WAPatchRegular (toy_patch 1) true ([], zero_state) toy_processor).
  assert (exists muts1 st1 q1, first = Ret (inr (muts1, st1), q1)) as (muts1 & st1 & q1 & H1) by (eexists _, _, _; unfold first; vm_compute; reflexivity).
  assert (match first with
          | Ret (inr (m, st), q) => match AppState.decodePatchLoop toy_hkdf (toy_hmac 32) (toy_hmac 64) toy_cipher toy_block demo_action toy_unindex WAPatchRegular
              [mkPatch 2 [] [] [] (Some [1])] true (m, st) q with Ret (inl (ErrMismatchingLTHash _), _) => true | _ => false end
          | _ => false end = true) as H2 by (unfold first; vm_compute; reflexivity).
  rewrite H1 in H2. destruct (AppState.decodePatchLoop toy_hkdf _ _ _ _ _ _ _ _ _ (muts1, st1) q1) as [[[e|x] q2]|] eqn:H3; try discriminate H2.
  destruct (failed_patch_loses_earlier toy_hkdf (toy_hmac 32) (toy_hmac 64) toy_cipher toy_block demo_action toy_unindex SQLite (fun _ _ l => l) true
    WAPatchRegular zero_state WAPatchRegular (toy_patch 1) [mkPatch 2 [] [] [] (Some [1])] false (Some []) (demo_client []) muts1 st1 q1 e q2 H1 H3) as [H _].
  { intros ->. discriminate H2. }
  exists e, (dispatch [AppStateSyncError WAPatchRegular e false] ((demo_client []) <| sc_proc := q2 |>)). split; [exact H|]. split; reflexivity.
Defined.

Lemma keys_asked_daily_witness :
  let s' := requestMissingAppStateKeys demo_now (mkPatchList WAPatchRegular [mkPatch 1 [] [] [] (Some [9])] None) (demo_client []) in
  sc_requested s' = [[[9]]] /\ due (demo_now + 24 * Hour) (appStateKeyRequests s') [9] = false.
Proof.
  destruct (keys_asked_daily demo_now (mkPatchList WAPatchRegular [mkPatch 1 [] [] [] (Some [9])] None) (demo_client []) ltac:(by vm_compute)) as (asked & Ha & _ & Hd).
  split; [by vm_compute|]. apply Hd; [|lia]. apply Ha. split; [|by vm_compute]. vm_compute. by left.
Defined.

Definition demo_recovery (blob : ()) : option (@SyncdSnapshotRecovery Action) := Some (mkRecovery WAPatchRegular 5 (replicate 128 0) []).
Lemma recovery_events_lost_witness : exists s',
  handleAppStateRecovery toy_hkdf (toy_hmac 32) toy_unindex SQLite (fun _ _ l => l) true demo_recovery (fun _ => true) [Some ()] (demo_client []) = Ret (false, s') /\
  handleAppStateRecovery toy_hkdf (toy_hmac 32) toy_unindex SQLite (fun _ _ l => l) true demo_recovery (fun _ => false) [Some ()] s' = Ret (true, s').
Proof.
  assert (exists s', handleAppStateRecovery toy_hkdf (toy_hmac 32) toy_unindex SQLite (fun _ _ l => l) true demo_recovery (fun _ => true) [Some ()] (demo_client []) = Ret (false, s'))
    as [s' H] by (eexists; vm_compute; reflexivity).
  exists s'. split; [exact H|].
  exact (recovery_events_lost toy_hkdf (toy_hmac 32) toy_unindex SQLite (fun _ _ l => l) true demo_recovery (fun _ => true) (fun _ => false) [Some ()] (demo_client []) s' H).
Defined.
